(* ===== verification/_CoqProject ===== *)
-Q . S2P
Prelude.v
Mem.v
Str.v
Frames.v
Pmm.v
PageTable.v
PtWalk.v
PtOps.v
AddrSpace.v
Vma.v
PageFault.v
Sched.v
SchedQueue.v
SchedOps.v
SchedInv.v
Sync.v
Block.v
Gpt.v
Fat32.v
FatRead.v
FatMount.v
Slots.v
Nag.v
Driver.v
SysDriver.v
Files.v
FileProps.v
Mmap.v
Dll.v
KPages.v
KHeap.v
KHeapSlab.v
KHeapProps.v
Malloc.v
MallocInv.v
MallocOps.v
MallocProps.v
MallocSpec.v
LibcStr.v
Stdio.v
Elf.v
Krsym.v
Module.v
ModuleReloc.v
ModuleLayout.v
ModuleLink.v
ModuleArea.v
ModuleProps.v
UserSpace.v
Loader.v
LoaderProps.v
LoaderStack.v
Spawn.v
Rtld.v
RtldHash.v
RtldInit.v
RtldClose.v
RtldProps.v
Machine.v
Virtqueue.v
VirtqProps.v
VirtqPoll.v
VirtqDemo.v
Pcie.v
PcieBars.v
PcieProps.v
PcieDemo.v
Nvme.v
NvmePrp.v
NvmeQueue.v
NvmeRead.v
NvmeDemo.v
Acpi.v
AcpiProps.v
Gpu.v
GpuProbe.v
GpuProps.v
GpuRes.v
GpuDemo.v
NvBios.v
