(* ===== verification/Prelude.v ===== *)
(** * Nova OS kernel: a verification library (root file)

    Nova OS is an x86-64 kernel in C (src/kernel) with loadable drivers
    (src/drivers) and a small user space (src/lib).  This library models the
    kernel's memory management and heap, scheduler, synchronisation, file
    system stack, module and program loaders, the bus and storage drivers,
    the driver and graphics registries and the system calls over them, the
    VirtIO GPU driver with its queues, the video BIOS of the NVIDIA driver,
    and of user space the dynamic linker, the allocator and the string and
    output routines of the C library, as Rocq functions translated from the
    C source, and proves what makes them correct.

    ** The program and its models

    Memory.  [Mem] is byte-addressed memory with the loads and stores of the
    machine; [Str] the routines of string/string.c on it.  [Pmm] is the
    bitmap allocator of physical frames (mem/pmm.c); [Frames] is the
    interface (a class with laws) under which the rest uses it, and [Pmm]
    discharges it.  [PageTable] is the page-table half of mem/vmm.c, with
    the tables in memory, over any frame allocator; [PtWalk] and [PtOps] are
    its theory (well-formed trees, the effect of one entry update), and
    [AddrSpace] its theorems.  [Vma] is the list of virtual memory areas of a
    process and the checks before user memory is touched; [PageFault] the
    page fault handler.

    Threads.  [Sched] is sched/sched.c: threads in a store by address, whose
    [next]/[prev] fields link the ready and sleep queues.  [SchedQueue]
    relates the linked queues to lists, [SchedOps] gives the effect of each
    operation on them, [SchedInv] the invariant of every reachable state,
    fairness and wake-up.  [Sync] is sync/sync.h: mutexes and wait queues on
    top of the scheduler.

    Storage.  [Block] is the interface to a block device (what is used of
    [nvme_read]) and a disk in memory that satisfies it.  [Gpt] is
    krdrivers/fs/gpt.c, [Fat32] krdrivers/fs/fat32/fat32.c; [FatRead] and
    [FatMount] hold their theory and theorems.

    Registries and system calls.  [Slots] is the theory of growable slot
    tables.  [Nag] is nag/nag.c, [Driver] is drivers/driver.c, [SysDriver]
    the system calls sysdriver.c and sysnagdispatch.c that reach them.
    [Files] is sysfile.c, sysread.c and syswrite.c, with their theorems in
    [FileProps]; [Mmap] is sysmmap.c, sysmunmap.c, sysexit.c and sysyield.c.

    The kernel heap.  [Dll] is the theory of disjoint ranges and of doubly
    linked lists.  [KPages] backs kernel addresses with frames, for the heap
    and for modules.  [KHeap] is mem/heap.c; [KHeapSlab] and [KHeapProps]
    hold its theorems on pages, slabs and [kmalloc].

    Modules and programs.  [Elf] reads ELF records, [Krsym] is
    symbols/krsym.c.  [Module] is modules/module.c, with theorems on
    relocation ([ModuleReloc]), layout ([ModuleLayout]), linking and the
    list of free ranges ([ModuleLink]), the pages of modules ([ModuleArea])
    and loading as a whole ([ModuleProps]).  [Loader] is the half of
    sched/sched.c that starts programs; [UserSpace], [LoaderProps],
    [LoaderStack] and [Spawn] are its theory.

    User space.  [Rtld] is the dynamic linker lib/ldso/rtld.c, with symbol
    tables ([RtldHash]), resolution and relocation ([RtldProps]),
    initialisers and closing ([RtldInit], [RtldClose]).
    [Malloc] is lib/libc/stdlib.c; [MallocInv], [MallocOps],
    [MallocProps] and [MallocSpec] lead from the
    representation to what clients rely on.  [LibcStr] is lib/libc/string.c,
    [Stdio] lib/libc/stdio.c.

    Devices.  [Machine] is the interface to device registers, the clock and
    memory that devices change.  [Virtqueue] is
    drivers/virtiogpu/virtqueue.c ([VirtqProps], [VirtqPoll],
    [VirtqDemo]); [Pcie] is pcie/pcie.c ([PcieBars],
    [PcieProps], [PcieDemo]); [Nvme] is krdrivers/nvme/nvme.c
    (data pointers in [NvmePrp], phases, the interrupt handler and one
    command in [NvmeQueue], a whole read in [NvmeRead], theorems and a
    controller in [NvmeDemo]); [Acpi] is ACPI/acpi.c, hpet.c and lapic.c ([AcpiProps]).
    [Gpu] is caps.c, context.c, resources.c, submit.c and ophandler.c of
    drivers/virtiogpu, over the queue, the frame allocator and the address
    spaces of the processes; [GpuProbe] is its main.c.  [GpuProps] states
    what a host does with each command ([host_step]) and relates the tables
    of the driver to the host's for commands and contexts; [GpuRes] does so
    for resources, with the frames behind them and their mappings;
    [GpuDemo] has the theorems and a simulated GPU.  [NvBios] is
    drivers/nvidia/core/nv_bios.c up to the start of the falcon processor.
    What a device does is a hypothesis on the machine, taken from the
    VirtIO, PCI and NVMe specifications ([virtio_device], [gpu_device],
    [bar_regs], [nvme_device]), and each has a simulated device that
    satisfies it.

    ** Conventions

    Machine integers are [Z]; every operation that can wrap goes through the
    truncations below.  Pointers are addresses, 0 is NULL.  A C function
    that changes global state takes the state and returns it.  A function is
    the whole body: guards and early returns in the order of the code, error
    codes as values.  Console messages, TLB flushes and locks are left out:
    each critical section is one step, and interrupt handlers run between
    operations; in [SchedInv] they also run between the part of a sleep or an
    exit that is under the lock and the switch to another thread.  Whether an
    allocation ([kmalloc], [krealloc], [kzalloc]) succeeds is a function of
    its size (or an address it returned), quantified in the theorems.  The
    operations of drivers and graphics adapters, code of loadable modules,
    are arguments.

    Loops that are not structural take fuel and return [None] without it;
    the theorems show that the fuel the definitions pass is enough: one round
    per VMA for [validateUserRange] and the gap search of [sysMmap], one
    round per frame for the frame searches, one more than the clusters of a
    volume for a cluster chain, one per path byte for [fat32_stat], one per
    thread for the sleep and wait queues.  [copyStringFromUser] takes its
    fuel from the caller, a bound on the length of the string.  Waiting for a
    device takes fuel for the readings of the clock until the time-out, given
    how many readings make a millisecond; a command to the GPU waits one
    second, a submission two, so fuel above [k * 2000] is enough.  Hash chains, dependency graphs and
    relocation tables take one round per entry or object, the walk over the
    video BIOS one per image.

    ** What is shown

    - [Pmm]: boot leaves free exactly the usable memory; single, contiguous
      and aligned allocation find a frame or run whenever one exists and
      mark exactly it; all operations refine a set of free frames.
    - [AddrSpace]: mapping and unmapping change the entry of exactly the
      pages asked for, mapping fails only without a free frame; address
      spaces are isolated; destroying one releases exactly its frames.
    - [Vma], [PageFault], [Mmap]: the VMA list stays ordered and disjoint;
      the kernel writes user memory only where a VMA allows it; faults are
      served only under such a VMA, with its rights; mappings take the lowest
      gap.
    - [SchedInv], [Sync]: queues and thread states agree in every reachable
      state, as long as no sleep ends before its thread is switched away;
      round robin, no starvation, sleepers wake; mutexes are handed
      over in order and never have two owners.
    - [Gpt], [FatMount]: checksums are CRC-32; parsing yields exactly the
      used entries; every file system operation terminates on any disk
      contents and is independent of the FAT cache; reads return exactly the
      file's bytes.
    - [Nag], [Driver], [SysDriver], [FileProps]: ids, handles and
      descriptors are allocated lowest first and never confused; drivers see
      only kernel copies of user arguments; a read system call delivers the
      file's bytes from disk to user memory.
    - [KHeapProps], [MallocSpec]: allocations never overlap and keep their
      contents; freed memory is merged; both heaps keep their invariants, for
      sizes that do not wrap and leave no rest too small for a header.
    - [ModuleProps], [ModuleReloc], [ModuleLayout]: a module is loaded as a
      whole, or its pages and addresses are given back; sections do not overlap and relocations write what
      the ABI prescribes.
    - [LoaderProps], [LoaderStack], [Spawn]: a new process has the segments
      of its program and of the interpreter it names, the stack the ABI wants
      (for arguments that fit in one page) and the right entry point; a
      program that is not started is refused for a listed reason.
    - [RtldProps], [RtldClose]: look-up through the hash tables is a search
      of all symbols; relocation (copy relocations apart) writes what it
      should; every initialiser runs once, in the order of the dependencies.
    - [Stdio]: output stays inside of its buffer; numbers read back.
    - [VirtqDemo]: descriptors are never lost or given out twice, devices see
      exactly the submitted buffers, polling ends.
    - [PcieDemo], [PcieProps]: base address registers are sized
      and restored; the scan finds each function once; accesses stay in the
      page of their function.
    - [NvmeDemo]: a read that succeeds has put exactly the blocks of the
      medium into the buffer, through translation, lists, queues and either
      way of waiting; the lists describe the buffer; the interrupt handler
      takes each completion once.
    - [AcpiProps]: the tables found are those with a right checksum, in
      order; sleeping ends, and not too early.
    - [GpuDemo]: a command returns, and when it succeeds the host has carried
      out exactly it; contexts and resources of the driver are those of the
      host; a resource is created as a whole, with frames of its own that the
      process can read (unless no page table can be had), or not at all, and
      destroying it leaves no mapping
      and no backing of the frames it frees.
    - [NvBios]: the copy is the bytes of the ROM, and the BIT signature the
      first in it; the command for FRTS is patched inside of its buffer.
    - The theorems that show a fault of the code state it on a concrete
      state: [thread_list_clobbered], [sleep_race_loses_thread] (SchedInv),
      [vmaDestroy_wrap_overlaps], [vmaDestroy_split_loses] (Vma),
      [sysMunmap_wraps] (Mmap), [grow_stack_overlaps] (PageFault),
      [gpt_entries_overflow] (Gpt), [lfn_terminator_out_of_bounds],
      [fat32_mount_underflow] (FatMount), [driver_unregister_dangles]
      (Driver), [nag_double_register_stale] (Nag), [sysWrite_stops_at_nul]
      (FileProps), [kmalloc_out_of_memory_diverges] (KHeapProps),
      [malloc_wraps], [sliver_write] (MallocSpec), [vsnprintf_reads_on],
      [printf_cuts] (Stdio), [reloc_target_out_of_bounds] (ModuleProps),
      [stack_strings_overflow] (LoaderStack),
      [dlclose_takes_shared_dependency], [rtldDlClose_cycle_diverges]
      (RtldClose), [copy_relocation_copies_itself] (RtldProps),
      [poll_takes_late_completion] (VirtqDemo),
      [pcie_find_capability_diverges] (PcieDemo), [prp_frames_overflow]
      (NvmePrp), [xsdt_count_underflow], [hpet_millis_wraps] (AcpiProps),
      [fmtVulkanVersion_overruns], [resource_size_wraps],
      [backing_length_cut], [context_name_overread],
      [submit_reads_anything], [resource_without_record_leaks],
      [resource_replaces_mapping] (GpuDemo), [prom_rd32_unaligned],
      [rom_walk_diverges], [fwsec_v3_overreads] (NvBios).

    ** What is not modelled

    System call entry (assembly) and its dispatch, interrupt and descriptor
    tables and the boot loader: register and firmware set-up, with nothing
    to compute.  The console: only the effect of printing a plain string is
    used.  The NVIDIA driver but for the video BIOS: register sequences and
    firmware messages of hardware without a public specification, so there
    is no contract to prove them against.  Spinlocks: the sections they
    guard are atomic steps.  The clock of [Machine] does not wrap; the code's
    does after five hours ([hpet_millis_wraps]).  The file system uses the
    block device through [Block]; that [nvme_read] satisfies that interface
    is the theorem of [NvmeDemo], up to the device's failures.  The theorems
    on contexts and resources of the GPU are for a device that answers at
    once: after a time-out the driver frees or reuses what the device may
    still write. *)

From Stdlib Require Import ZArith Lia Bool.
From stdpp Require Import base list gmap.

Open Scope Z_scope.

(** ** Machine integers

    A [w]-bit unsigned value is a [Z] in [0, 2^w); every place where the C
    code can wrap goes through one of the truncations below. *)
Definition u8 (z : Z) : Z := z mod 2 ^ 8.
Definition u16 (z : Z) : Z := z mod 2 ^ 16.
Definition u32 (z : Z) : Z := z mod 2 ^ 32.
Definition u64 (z : Z) : Z := z mod 2 ^ 64.

(** Signed reinterpretation of the low [w] bits. *)
Definition signed (w z : Z) : Z :=
  let r := z mod 2 ^ w in if r <? 2 ^ (w - 1) then r else r - 2 ^ w.
Definition s32 (z : Z) : Z := signed 32 z.
Definition s64 (z : Z) : Z := signed 64 z.

Definition PAGE_SIZE : Z := 4096.
Definition HHDM_BASE : Z := 0xFFFF800000000000.

(** Error numbers of the system calls (kernel/syscall/syscall.h). *)
Definition EPERM : Z := 1.
Definition ENOENT : Z := 2.
Definition EIO : Z := 5.
Definition EBADF : Z := 9.
Definition ENOMEM : Z := 12.
Definition EACCES : Z := 13.
Definition EFAULT : Z := 14.
Definition EISDIR : Z := 21.
Definition EINVAL : Z := 22.
Definition ESPIPE : Z := 29.
Definition ENOSYS : Z := 38.
Definition USER_SPACE_MAX : Z := 0x0000800000000000.
Definition MAX64 : Z := 0xFFFFFFFFFFFFFFFF.

(** [x & ~(PAGE_SIZE - 1)] and the rounding-up idiom
    [(x + PAGE_SIZE - 1) & ~(PAGE_SIZE - 1)] on 64-bit values. *)
Definition page_down (x : Z) : Z := Z.land x (u64 (Z.lnot (PAGE_SIZE - 1))).
Definition page_up (x : Z) : Z := page_down (u64 (x + PAGE_SIZE - 1)).

(** Whether a C flag word has one of the bits of [f]. *)
Definition has (w f : Z) : bool := negb (Z.land w f =? 0).

Declare Scope nova_scope.
Delimit Scope nova_scope with nova.
Notation "w &? f" := (has w f) (at level 40, no associativity) : nova_scope.
Open Scope nova_scope.

Definition is_u64 (x : Z) : Prop := 0 <= x < 2 ^ 64.

(** ** Automation *)
Create HintDb nova.

(** Case analysis on the boolean tests of the code, reflected to [Prop]. *)
Ltac bsplit :=
  repeat match goal with
  | |- context [?a =? ?b] => destruct (Z.eqb_spec a b)
  | |- context [?a <? ?b] => destruct (Z.ltb_spec a b)
  | |- context [?a <=? ?b] => destruct (Z.leb_spec a b)
  | H : context [?a =? ?b] |- _ => destruct (Z.eqb_spec a b)
  | H : context [?a <? ?b] |- _ => destruct (Z.ltb_spec a b)
  | H : context [?a <=? ?b] |- _ => destruct (Z.leb_spec a b)
  end; simpl in *.

(** Turns boolean facts about comparisons into propositions. *)
Ltac breflect :=
  repeat match goal with
  | H : (_ =? _) = true |- _ => apply Z.eqb_eq in H
  | H : (_ =? _) = false |- _ => apply Z.eqb_neq in H
  | H : (_ <? _) = true |- _ => apply Z.ltb_lt in H
  | H : (_ <? _) = false |- _ => apply Z.ltb_ge in H
  | H : (_ <=? _) = true |- _ => apply Z.leb_le in H
  | H : (_ <=? _) = false |- _ => apply Z.leb_gt in H
  | H : _ && _ = true |- _ => apply andb_prop in H; destruct H
  | H : _ || _ = false |- _ => apply orb_false_elim in H; destruct H
  | H : negb _ = true |- _ => apply negb_true_iff in H
  | H : negb _ = false |- _ => apply negb_false_iff in H
  end.

(** Linear arithmetic with division and modulo by constants. *)
Ltac divlia := Z.div_mod_to_equations; lia.

(** Splits the [if]s and [match]es of a definition, keeping equations. *)
Ltac cases :=
  repeat match goal with
  | |- context [match ?x with _ => _ end] => destruct x eqn:?
  end.

(** ** Machine-integer lemmas *)
Lemma u64_range z : is_u64 (u64 z).
Proof. unfold is_u64, u64. apply Z.mod_pos_bound. lia. Qed.

Lemma u64_id z : is_u64 z -> u64 z = z.
Proof. intros H. apply Z.mod_small, H. Qed.

Lemma u32_id z : 0 <= z < 2 ^ 32 -> u32 z = z.
Proof. intros H. apply Z.mod_small, H. Qed.

Lemma u32_range z : 0 <= u32 z < 2 ^ 32.
Proof. apply Z.mod_pos_bound. lia. Qed.

#[export] Hint Resolve u64_range u32_range : nova.

Lemma testbit_above x i n : 0 <= x < 2 ^ n -> n <= i -> Z.testbit x i = false.
Proof.
  intros H Hi. destruct (Z.eq_dec x 0) as [->|]; [apply Z.testbit_0_l|].
  apply Z.bits_above_log2; [lia|].
  assert (Z.log2 x < n); [|lia]. apply Z.log2_lt_pow2; lia.
Qed.

Lemma page_down_spec x : is_u64 x -> page_down x = x - x mod 4096.
Proof.
  intros Hx. unfold page_down.
  change (u64 (Z.lnot (PAGE_SIZE - 1))) with (Z.ldiff (Z.ones 64) (Z.ones 12)).
  rewrite Z.ldiff_land, Z.land_assoc, (Z.land_ones x 64) by lia.
  unfold is_u64 in Hx. rewrite Z.mod_small by lia.
  rewrite <- Z.ldiff_land, Z.ldiff_ones_r by lia.
  rewrite Z.shiftr_div_pow2, Z.shiftl_mul_pow2 by lia.
  change (2 ^ 12) with 4096. divlia.
Qed.

Lemma page_down_range x : is_u64 x -> is_u64 (page_down x).
Proof. intros Hx. rewrite page_down_spec by done. unfold is_u64 in *. divlia. Qed.

Lemma page_down_aligned x : is_u64 x -> page_down x mod 4096 = 0.
Proof. intros Hx. rewrite page_down_spec by done. divlia. Qed.

Lemma page_down_id x : is_u64 x -> x mod 4096 = 0 -> page_down x = x.
Proof. intros Hx H. rewrite page_down_spec by done. lia. Qed.

Lemma page_up_spec x :
  0 <= x -> x + 4095 < 2 ^ 64 -> page_up x = x + (- x) mod 4096.
Proof.
  intros Hx Hs. unfold page_up, PAGE_SIZE.
  replace (x + 4096 - 1) with (x + 4095) by lia.
  rewrite u64_id by (unfold is_u64; lia).
  rewrite page_down_spec by (unfold is_u64; lia). divlia.
Qed.

Lemma has_testbit w i : 0 <= i -> has w (2 ^ i) = Z.testbit w i.
Proof.
  intros Hi. unfold has. destruct (Z.testbit w i) eqn:E.
  - apply negb_true_iff, Z.eqb_neq. intros H0.
    assert (Hb : Z.testbit (Z.land w (2 ^ i)) i = true).
    { rewrite Z.land_spec, E, Z.pow2_bits_true by done. done. }
    rewrite H0, Z.testbit_0_l in Hb. done.
  - apply negb_false_iff, Z.eqb_eq. apply Z.bits_inj'. intros n Hn.
    rewrite Z.land_spec, Z.testbit_0_l.
    destruct (Z.eq_dec i n) as [->|Hne].
    + by rewrite E.
    + rewrite (Z.pow2_bits_false i n) by lia. apply andb_false_r.
Qed.

Lemma lor_u64 a b : is_u64 a -> is_u64 b -> is_u64 (Z.lor a b).
Proof.
  unfold is_u64. intros [? ?] [? ?]. split; [apply Z.lor_nonneg; lia|].
  destruct (Z.eq_dec (Z.lor a b) 0) as [->|Hne]; [lia|].
  assert (0 <= Z.lor a b) by (apply Z.lor_nonneg; lia).
  apply Z.log2_lt_pow2; [lia|]. rewrite Z.log2_lor by lia.
  destruct (Z.eq_dec a 0) as [->|]; destruct (Z.eq_dec b 0) as [->|]; simpl;
    try (apply Z.max_lub_lt); try lia; apply Z.log2_lt_pow2; lia.
Qed.

Lemma land_u64 a b : 0 <= b -> is_u64 a -> is_u64 (Z.land a b).
Proof.
  unfold is_u64. intros Hb [? ?]. split; [apply Z.land_nonneg; lia|].
  destruct (Z.eq_dec (Z.land a b) 0) as [->|Hne]; [lia|].
  assert (0 <= Z.land a b) by (apply Z.land_nonneg; lia).
  apply Z.log2_lt_pow2; [lia|].
  pose proof (Z.log2_land a b ltac:(lia) ltac:(lia)).
  destruct (Z.eq_dec a 0) as [->|]; [rewrite Z.land_0_l in Hne; lia|].
  assert (Z.log2 a < 64) by (apply Z.log2_lt_pow2; lia). lia.
Qed.

#[export] Hint Resolve lor_u64 land_u64 : nova.

(** ** Counting over an initial segment *)

(** Number of [i] in [0, n) with [P i]. *)
Fixpoint countb (P : Z -> bool) (n : nat) : Z :=
  match n with
  | O => 0
  | S k => countb P k + (if P (Z.of_nat k) then 1 else 0)
  end.

Lemma countb_ext P Q n :
  (forall i, 0 <= i < Z.of_nat n -> P i = Q i) -> countb P n = countb Q n.
Proof.
  induction n as [|n IH]; intros H; simpl; [done|].
  rewrite (H (Z.of_nat n)) by lia. rewrite IH; [done|]. intros i Hi. apply H. lia.
Qed.

Lemma countb_bound P n : 0 <= countb P n <= Z.of_nat n.
Proof. induction n as [|n IH]; simpl countb; [lia|]. destruct (P _); lia. Qed.

Lemma countb_point P Q n i :
  0 <= i < Z.of_nat n -> P i = false -> Q i = true ->
  (forall j, 0 <= j < Z.of_nat n -> j <> i -> Q j = P j) ->
  countb Q n = countb P n + 1.
Proof.
  intros Hi HP HQ Hj. induction n as [|n IH]; simpl; [lia|].
  destruct (Z.eq_dec (Z.of_nat n) i) as [E|E].
  - rewrite E, HP, HQ. rewrite (countb_ext Q P n); [lia|].
    intros j Hjn. apply Hj; lia.
  - rewrite (Hj (Z.of_nat n)) by lia. rewrite IH; [lia|lia|]. intros j ? ?. apply Hj; lia.
Qed.

Lemma countb_all P n :
  countb P n = Z.of_nat n <-> (forall i, 0 <= i < Z.of_nat n -> P i = true).
Proof.
  split.
  - induction n as [|n IH]; intros H i Hi; [lia|]. simpl countb in H.
    pose proof (countb_bound P n). destruct (P (Z.of_nat n)) eqn:E; [|lia].
    destruct (Z.eq_dec i (Z.of_nat n)) as [->|]; [done|]. apply IH; lia.
  - intros H. rewrite (countb_ext P (fun _ => true) n) by done. clear H.
    induction n; simpl countb; lia.
Qed.

(** ** Counted loops

    [zfor lo hi f a] runs [a := f i a] for [i = lo, ..., hi - 1]. *)
Definition zfor {A} (lo hi : Z) (f : Z -> A -> A) (a : A) : A :=
  foldl (fun x i => f i x) a (seqZ lo (hi - lo)).

Lemma zfor_empty {A} lo hi (f : Z -> A -> A) a : hi <= lo -> zfor lo hi f a = a.
Proof. intros H. unfold zfor. rewrite seqZ_nil by lia. done. Qed.

Lemma zfor_snoc {A} lo hi (f : Z -> A -> A) a :
  lo <= hi -> zfor lo (hi + 1) f a = f hi (zfor lo hi f a).
Proof.
  intros H. unfold zfor. replace (hi + 1 - lo) with (hi - lo + 1) by lia.
  rewrite seqZ_app by lia. rewrite foldl_app. simpl.
  replace (lo + (hi - lo)) with hi by lia. done.
Qed.

(** Loop-invariant rule. *)
Lemma zfor_ind {A} (P : Z -> A -> Prop) lo hi f a :
  lo <= hi -> P lo a ->
  (forall i x, lo <= i < hi -> P i x -> P (i + 1) (f i x)) -> P hi (zfor lo hi f a).
Proof.
  intros Hle H0 Hs.
  assert (Hk : forall k, 0 <= k -> lo + k <= hi -> P (lo + k) (zfor lo (lo + k) f a)).
  { intros k Hk. pattern k. apply natlike_ind; [| |done].
    - intros _. rewrite Z.add_0_r, zfor_empty by lia. done.
    - intros x Hx IH Hh. rewrite Z.add_succ_r, <- Z.add_1_r, zfor_snoc by lia.
      apply Hs; [lia|]. apply IH. lia. }
  replace hi with (lo + (hi - lo)) by lia. apply Hk; lia.
Qed.

(** Invariants that do not mention the loop counter. *)
Lemma zfor_inv {A} (P : A -> Prop) lo hi f a :
  P a -> (forall i x, lo <= i < hi -> P x -> P (f i x)) -> P (zfor lo hi f a).
Proof.
  intros H0 Hs. destruct (Z.le_gt_cases lo hi).
  - apply (zfor_ind (fun _ => P)); auto.
  - rewrite zfor_empty by lia. done.
Qed.

(** ** Masking with the complement of a 64-bit value *)
Lemma ldiff_land_zero a b : Z.ldiff (Z.land a b) b = 0.
Proof.
  apply Z.bits_inj'. intros n Hn. rewrite Z.ldiff_spec, Z.land_spec, Z.testbit_0_l.
  destruct (Z.testbit a n), (Z.testbit b n); done.
Qed.

Lemma land_le_r a b : 0 <= b -> Z.land a b <= b.
Proof.
  intros Hb. pose proof (Z.sub_nocarry_ldiff b (Z.land a b) (ldiff_land_zero a b)) as H.
  assert (0 <= Z.ldiff b (Z.land a b)) by (apply Z.ldiff_nonneg; lia). lia.
Qed.

Lemma land_mask_sub x y : is_u64 x -> is_u64 y ->
  Z.land x (u64 (Z.lnot y)) = x - Z.land x y.
Proof.
  intros Hx Hy.
  rewrite (Z.sub_nocarry_ldiff x (Z.land x y)) by (rewrite Z.land_comm; apply ldiff_land_zero).
  apply Z.bits_inj'. intros n Hn. rewrite Z.ldiff_spec, !Z.land_spec. unfold u64.
  destruct (Z.lt_ge_cases n 64).
  - rewrite Z.mod_pow2_bits_low, Z.lnot_spec by lia.
    destruct (Z.testbit x n), (Z.testbit y n); done.
  - rewrite (testbit_above x n 64) by done. done.
Qed.

Lemma land_mask_pow2 x k : is_u64 x -> 0 <= k <= 63 ->
  Z.land x (u64 (Z.lnot (2 ^ k - 1))) = x - x mod 2 ^ k.
Proof.
  intros Hx Hk. assert (0 < 2 ^ k) by lia.
  assert (2 ^ k <= 2 ^ 63) by (apply Z.pow_le_mono_r; lia).
  rewrite land_mask_sub; [|done|unfold is_u64; lia].
  rewrite Z.sub_1_r, <- Z.ones_equiv, Z.land_ones by lia. done.
Qed.
