(* ===== verification/Mem.v ===== *)
(** * Byte-addressed memory

    The kernel reads and writes memory through pointers of several widths.
    Memory is a finite map from byte addresses to byte values (an absent
    byte reads as 0); [rd n] and [wr n] are the little-endian accesses of
    [n] bytes an x86-64 load or store of that width performs. *)

From Stdlib Require Import ZArith Lia Bool.
From stdpp Require Import base list gmap.
From S2P Require Import Prelude.

Abbreviation mem := (gmap Z Z).

Definition rd8 (m : mem) (a : Z) : Z := u8 (default 0 (m !! a)).
Definition wr8 (m : mem) (a v : Z) : mem := <[a := u8 v]> m.

Fixpoint rd (n : nat) (m : mem) (a : Z) : Z :=
  match n with
  | O => 0
  | S k => rd8 m a + 256 * rd k m (a + 1)
  end.

Fixpoint wr (n : nat) (m : mem) (a v : Z) : mem :=
  match n with
  | O => m
  | S k => wr k (wr8 m a v) (a + 1) (v / 256)
  end.

Definition rd16 := rd 2.
Definition rd32 := rd 4.
Definition rd64 := rd 8.
Definition wr32 := wr 4.
Definition wr64 := wr 8.

(** Bytes [a, a+n) as a list, and a store of a list of bytes. *)
Definition bytes_at (m : mem) (a : Z) (n : nat) : list Z :=
  map (fun i => rd8 m (a + Z.of_nat i)) (seq 0 n).

Fixpoint put_bytes (m : mem) (a : Z) (l : list Z) : mem :=
  match l with
  | [] => m
  | b :: r => put_bytes (wr8 m a b) (a + 1) r
  end.

(** ** Laws *)
Lemma rd8_range m a : 0 <= rd8 m a < 256.
Proof. apply (Z.mod_pos_bound _ 256). lia. Qed.

Lemma rd8_wr8 m a v x : rd8 (wr8 m a v) x = if x =? a then u8 v else rd8 m x.
Proof.
  unfold rd8, wr8. destruct (Z.eqb_spec x a) as [->|Hne].
  - rewrite lookup_insert_eq. unfold u8. simpl. rewrite Z.mod_mod by lia. done.
  - rewrite lookup_insert_ne by done. done.
Qed.

Lemma u8_rd8 m a : u8 (rd8 m a) = rd8 m a.
Proof. apply Z.mod_small, rd8_range. Qed.

(** A multi-byte store, seen one byte at a time. *)
Lemma rd8_wr n : forall m a v x,
  rd8 (wr n m a v) x =
  if (a <=? x) && (x <? a + Z.of_nat n) then u8 (v / 256 ^ (x - a)) else rd8 m x.
Proof.
  induction n as [|n IH]; intros m a v x; simpl wr.
  - bsplit; done || lia.
  - rewrite IH, rd8_wr8.
    destruct (Z.leb_spec (a + 1) x), (Z.ltb_spec x (a + 1 + Z.of_nat n)),
      (Z.leb_spec a x), (Z.ltb_spec x (a + Z.of_nat (S n))), (Z.eqb_spec x a);
      simpl; try lia; try done.
    + replace (x - a) with (1 + (x - (a + 1))) by lia.
      rewrite Z.pow_add_r, Z.div_div by lia. done.
    + subst. rewrite Z.sub_diag, Z.pow_0_r, Z.div_1_r. done.
Qed.

Lemma rd_ext n : forall m m' a,
  (forall x, a <= x < a + Z.of_nat n -> rd8 m x = rd8 m' x) -> rd n m a = rd n m' a.
Proof.
  induction n as [|n IH]; intros m m' a H; simpl rd; [done|].
  rewrite (H a) by lia. rewrite (IH m m'); [done|]. intros x Hx. apply H. lia.
Qed.

Lemma rd_range n : forall m a, 0 <= rd n m a < 256 ^ Z.of_nat n.
Proof.
  induction n as [|n IH]; intros m a; simpl rd; [simpl; lia|].
  pose proof (rd8_range m a). specialize (IH m (a + 1)).
  rewrite Nat2Z.inj_succ, Z.pow_succ_r by lia. lia.
Qed.

(** Byte [i] of a word read. *)
Lemma rd_byte n : forall m a i, 0 <= i < Z.of_nat n ->
  u8 (rd n m a / 256 ^ i) = rd8 m (a + i).
Proof.
  induction n as [|n IH]; intros m a i Hi; simpl rd; [lia|].
  pose proof (rd8_range m a) as Hr.
  destruct (Z.eq_dec i 0) as [->|Hne].
  - rewrite Z.pow_0_r, Z.div_1_r, Z.add_0_r. unfold u8.
    change (2 ^ 8) with 256. divlia.
  - replace i with (1 + (i - 1)) at 1 by lia.
    rewrite Z.pow_add_r, <- Z.div_div by lia. rewrite Z.pow_1_r.
    replace ((rd8 m a + 256 * rd n m (a + 1)) / 256) with (rd n m (a + 1)) by divlia.
    rewrite IH by lia. f_equal. lia.
Qed.

Lemma rd_wr_same n m a v : rd n (wr n m a v) a = v mod 256 ^ Z.of_nat n.
Proof.
  revert m a v. induction n as [|n IH]; intros m a v.
  - simpl. rewrite Z.mod_1_r. done.
  - change (rd (S n) (wr (S n) m a v) a) with
      (rd8 (wr (S n) m a v) a + 256 * rd n (wr n (wr8 m a v) (a + 1) (v / 256)) (a + 1)).
    rewrite IH, rd8_wr.
    destruct (Z.leb_spec a a), (Z.ltb_spec a (a + Z.of_nat (S n))); simpl; try lia.
    rewrite Z.sub_diag, Z.pow_0_r, Z.div_1_r, Nat2Z.inj_succ, Z.pow_succ_r by lia.
    unfold u8. rewrite Z.rem_mul_r by lia. change (2 ^ 8) with 256. lia.
Qed.

Lemma rd_wr_disj n k m a b v :
  a + Z.of_nat n <= b \/ b + Z.of_nat k <= a -> rd n (wr k m b v) a = rd n m a.
Proof.
  intros H. apply rd_ext. intros x Hx. rewrite rd8_wr.
  destruct (Z.leb_spec b x), (Z.ltb_spec x (b + Z.of_nat k)); simpl; done || lia.
Qed.

Lemma rd64_wr64_same m a v : is_u64 v -> rd64 (wr64 m a v) a = v.
Proof. intros H. unfold rd64, wr64. rewrite rd_wr_same. apply u64_id, H. Qed.

Lemma rd64_wr64_ne m a b v :
  a + 8 <= b \/ b + 8 <= a -> rd64 (wr64 m b v) a = rd64 m a.
Proof. intros H. apply rd_wr_disj. lia. Qed.

Lemma rd64_range m a : is_u64 (rd64 m a).
Proof. apply (rd_range 8). Qed.

#[export] Hint Resolve rd64_range rd8_range : nova.

Lemma rd8_put_bytes l : forall m a x,
  rd8 (put_bytes m a l) x =
  if (a <=? x) && (x <? a + Z.of_nat (length l))
  then u8 (default 0 (l !! Z.to_nat (x - a))) else rd8 m x.
Proof.
  induction l as [|b l IH]; intros m a x; simpl.
  - bsplit; done || lia.
  - rewrite IH, rd8_wr8.
    destruct (Z.leb_spec (a + 1) x), (Z.ltb_spec x (a + 1 + Z.of_nat (length l))),
      (Z.leb_spec a x), (Z.ltb_spec x (a + Z.of_nat (S (length l)))), (Z.eqb_spec x a);
      simpl; try lia; try done.
    + replace (Z.to_nat (x - a)) with (S (Z.to_nat (x - (a + 1)))) by lia. done.
    + subst. rewrite Z.sub_diag. done.
Qed.

Lemma length_bytes_at m a n : length (bytes_at m a n) = n.
Proof. unfold bytes_at. rewrite length_map, length_seq. done. Qed.

Lemma lookup_bytes_at m a n i : (i < n)%nat ->
  bytes_at m a n !! i = Some (rd8 m (a + Z.of_nat i)).
Proof.
  intros Hi. unfold bytes_at.
  change (map ?f ?l) with (f <$> l). rewrite list_lookup_fmap, lookup_seq_lt by done. done.
Qed.
