(* ===== verification/Str.v ===== *)
(** * Kernel string library (src/kernel/string/string.c)

    The memory routines work on the byte memory of [Mem]: [memcpy] and
    [memset] have an eight-byte fast path for aligned operands, [memmove]
    chooses a direction.  The string routines are given with fuel (a C
    string need not be terminated) and shown to agree with functions on
    byte lists, which the other components use. *)

From Stdlib Require Import ZArith Lia Bool.
From stdpp Require Import base list gmap.
From S2P Require Import Prelude Mem.

(** ** memcpy, memset, memmove *)

(** [while (n >= 8) { *d64++ = *s64++; n -= 8; }] *)
Fixpoint memcpy_words (fuel : nat) (m : mem) (d s n : Z) : mem * Z * Z * Z :=
  match fuel with
  | O => (m, d, s, n)
  | S f =>
      if 8 <=? n
      then memcpy_words f (wr64 m d (rd64 m s)) (d + 8) (s + 8) (n - 8)
      else (m, d, s, n)
  end.

(** [while (n--) { *d++ = *s++; }] *)
Fixpoint memcpy_bytes (n : nat) (m : mem) (d s : Z) : mem :=
  match n with
  | O => m
  | S k => memcpy_bytes k (wr8 m d (rd8 m s)) (d + 1) (s + 1)
  end.

Definition memcpy (m : mem) (dest src n : Z) : mem * Z :=
  let '(m1, d, s, n1) :=
    if (Z.land dest 7 =? 0) && (Z.land src 7 =? 0)
    then memcpy_words (Z.to_nat n) m dest src n
    else (m, dest, src, n) in
  (memcpy_bytes (Z.to_nat n1) m1 d s, dest).

Fixpoint memset_words (fuel : nat) (m : mem) (p v64 n : Z) : mem * Z * Z :=
  match fuel with
  | O => (m, p, n)
  | S f =>
      if 8 <=? n then memset_words f (wr64 m p v64) (p + 8) v64 (n - 8)
      else (m, p, n)
  end.

Fixpoint memset_bytes (n : nat) (m : mem) (p v : Z) : mem :=
  match n with
  | O => m
  | S k => memset_bytes k (wr8 m p v) (p + 1) v
  end.

Definition memset (m : mem) (s c n : Z) : mem * Z :=
  let val := u8 c in
  let '(m1, p, n1) :=
    if (Z.land s 7 =? 0) && (8 <=? n)
    then memset_words (Z.to_nat n) m s (u64 (val * 0x0101010101010101)) n
    else (m, s, n) in
  (memset_bytes (Z.to_nat n1) m1 p val, s).

(** [while (n--) { *--d = *--s; }] with [d], [s] already advanced by [n]. *)
Fixpoint memmove_back (n : nat) (m : mem) (d s : Z) : mem :=
  match n with
  | O => m
  | S k => memmove_back k (wr8 m (d - 1) (rd8 m (s - 1))) (d - 1) (s - 1)
  end.

Definition memmove (m : mem) (dest src n : Z) : mem * Z :=
  if dest <? src then memcpy m dest src n
  else if src <? dest
  then (memmove_back (Z.to_nat n) m (dest + n) (src + n), dest)
  else (m, dest).

(** ** Comparisons *)
Fixpoint memcmp_loop (n : nat) (m : mem) (p1 p2 : Z) : Z :=
  match n with
  | O => 0
  | S k =>
      if rd8 m p1 =? rd8 m p2 then memcmp_loop k m (p1 + 1) (p2 + 1)
      else rd8 m p1 - rd8 m p2
  end.

Definition memcmp (m : mem) (s1 s2 n : Z) : Z := memcmp_loop (Z.to_nat n) m s1 s2.

(** Advances while the bytes agree and are not 0, then subtracts them. *)
Fixpoint strcmp (fuel : nat) (m : mem) (s1 s2 : Z) : option Z :=
  match fuel with
  | O => None
  | S f =>
      if negb (rd8 m s1 =? 0) && (rd8 m s1 =? rd8 m s2)
      then strcmp f m (s1 + 1) (s2 + 1)
      else Some (rd8 m s1 - rd8 m s2)
  end.

Fixpoint strlen_from (fuel : nat) (m : mem) (str len : Z) : option Z :=
  match fuel with
  | O => None
  | S f => if rd8 m (str + len) =? 0 then Some len else strlen_from f m str (len + 1)
  end.

Definition strlen (fuel : nat) (m : mem) (str : Z) : option Z := strlen_from fuel m str 0.

Fixpoint strncmp (n : nat) (m : mem) (s1 s2 : Z) : Z :=
  match n with
  | O => 0
  | S k =>
      let c1 := rd8 m s1 in
      let c2 := rd8 m s2 in
      if negb (c1 =? c2) then c1 - c2
      else if c1 =? 0 then 0
      else strncmp k m (s1 + 1) (s2 + 1)
  end.

(** ** C strings as byte lists

    [cstr m a l]: the bytes at [a] are the non-zero bytes [l] and then a 0. *)
Inductive cstr (m : mem) : Z -> list Z -> Prop :=
| cstr_nil a : rd8 m a = 0 -> cstr m a []
| cstr_cons a c l : rd8 m a = c -> c <> 0 -> cstr m (a + 1) l -> cstr m a (c :: l).

(** [strcmp] and [strncmp] on the byte lists of two C strings (the
    terminating 0 is implicit); the registries of the kernel compare names
    with these. *)
Fixpoint lstrcmp (l1 l2 : list Z) : Z :=
  match l1, l2 with
  | [], [] => 0
  | [], c2 :: _ => 0 - c2
  | c1 :: _, [] => c1
  | c1 :: r1, c2 :: r2 => if c1 =? c2 then lstrcmp r1 r2 else c1 - c2
  end.

Fixpoint lstrncmp (l1 l2 : list Z) (n : nat) {struct n} : Z :=
  match n with
  | O => 0
  | S k =>
      match l1, l2 with
      | [], [] => 0
      | [], c2 :: _ => 0 - c2
      | c1 :: _, [] => c1
      | c1 :: r1, c2 :: r2 => if c1 =? c2 then lstrncmp r1 r2 k else c1 - c2
      end
  end.

(** ** Specifications and helper lemmas *)

(** [m'] is [m] with [n] bytes at [d] replaced by the bytes [m] has at [s]. *)
Definition copied (m m' : mem) (d s n : Z) : Prop :=
  forall x, rd8 m' x =
    if (d <=? x) && (x <? d + n) then rd8 m (s + (x - d)) else rd8 m x.

Definition filled (m m' : mem) (p v n : Z) : Prop :=
  forall x, rd8 m' x = if (p <=? x) && (x <? p + n) then v else rd8 m x.

(** A forward copy from [s] to [d] reads every byte before it overwrites it. *)
Definition forward_safe (d s n : Z) : Prop := d <= s \/ s + n <= d.

Lemma memcpy_bytes_copied n : forall m d s,
  forward_safe d s (Z.of_nat n) -> copied m (memcpy_bytes n m d s) d s (Z.of_nat n).
Proof.
  induction n as [|n IH]; intros m d s Hs x; simpl memcpy_bytes.
  - bsplit; done || lia.
  - unfold forward_safe in Hs. rewrite (IH _ (d + 1) (s + 1)) by (unfold forward_safe; lia).
    rewrite !rd8_wr8, u8_rd8.
    destruct (Z.leb_spec (d + 1) x), (Z.ltb_spec x (d + 1 + Z.of_nat n)),
      (Z.leb_spec d x), (Z.ltb_spec x (d + Z.of_nat (S n))); simpl; try lia.
    + destruct (Z.eqb_spec (s + 1 + (x - (d + 1))) d); [lia|]. f_equal; lia.
    + destruct (Z.eqb_spec x d); [lia|done].
    + destruct (Z.eqb_spec x d); [|lia]. f_equal; lia.
    + destruct (Z.eqb_spec x d); [lia|done].
Qed.

(** One word step followed by a copy of the rest is a copy of the whole. *)
Lemma copied_word_step m m' d s n : 8 <= n -> forward_safe d s n ->
  copied (wr64 m d (rd64 m s)) m' (d + 8) (s + 8) (n - 8) -> copied m m' d s n.
Proof.
  unfold forward_safe. intros Hn Hs H x. rewrite H. unfold wr64, rd64. rewrite !rd8_wr.
  change (Z.of_nat 8) with 8.
  destruct (Z.leb_spec (d + 8) x), (Z.ltb_spec x (d + 8 + (n - 8))),
    (Z.leb_spec d x), (Z.ltb_spec x (d + n)), (Z.ltb_spec x (d + 8));
    cbn [andb]; try lia; try done.
  - destruct (Z.leb_spec d (s + 8 + (x - (d + 8)))),
      (Z.ltb_spec (s + 8 + (x - (d + 8))) (d + 8)); cbn [andb]; try lia; f_equal; lia.
  - rewrite rd_byte by lia. done.
Qed.

Lemma copied_trans_frame m d s : copied m m d s 0.
Proof. intros x. bsplit; done || lia. Qed.

Lemma memcpy_words_copied fuel : forall m d s n m' d' s' n',
  0 <= n <= Z.of_nat fuel -> forward_safe d s n ->
  memcpy_words fuel m d s n = (m', d', s', n') ->
  0 <= n' /\ forward_safe d' s' n' /\
  (forall m'', copied m' m'' d' s' n' -> copied m m'' d s n).
Proof.
  induction fuel as [|f IH]; intros m d s n m' d' s' n' Hn Hs E; simpl in E.
  - simplify_eq. eauto with lia.
  - destruct (Z.leb_spec 8 n) as [H8|H8].
    + apply IH in E as (? & ? & Hc); [|lia|unfold forward_safe in *; lia].
      split_and!; [done..|]. intros m'' H''. apply copied_word_step; auto.
    + simplify_eq. split_and!; [lia|done|auto].
Qed.

Lemma memcpy_copied m d s n :
  0 <= n -> forward_safe d s n -> copied m (memcpy m d s n).1 d s n.
Proof.
  intros Hn Hs. unfold memcpy.
  destruct ((Z.land d 7 =? 0) && (Z.land s 7 =? 0)).
  - destruct (memcpy_words (Z.to_nat n) m d s n) as [[[m1 d1] s1] n1] eqn:E.
    apply memcpy_words_copied in E as (H1 & H2 & H3); [|lia|done]. simpl.
    apply H3. pose proof (memcpy_bytes_copied (Z.to_nat n1) m1 d1 s1) as Hb.
    rewrite Z2Nat.id in Hb by lia. auto.
  - simpl. pose proof (memcpy_bytes_copied (Z.to_nat n) m d s) as Hb.
    rewrite Z2Nat.id in Hb by lia. auto.
Qed.

Lemma memmove_back_copied n : forall m d s, s < d ->
  copied m (memmove_back n m (d + Z.of_nat n) (s + Z.of_nat n)) d s (Z.of_nat n).
Proof.
  induction n as [|n IH]; intros m d s Hs x; simpl memmove_back.
  - bsplit; done || lia.
  - replace (d + Z.of_nat (S n) - 1) with (d + Z.of_nat n) by lia.
    replace (s + Z.of_nat (S n) - 1) with (s + Z.of_nat n) by lia.
    rewrite (IH _ d s Hs), !rd8_wr8, u8_rd8.
    destruct (Z.leb_spec d x), (Z.ltb_spec x (d + Z.of_nat n)),
      (Z.ltb_spec x (d + Z.of_nat (S n))); simpl; try lia.
    1: by destruct (Z.eqb_spec (s + (x - d)) (d + Z.of_nat n)); [lia|].
    all: destruct (Z.eqb_spec x (d + Z.of_nat n)); try lia; try done.
    f_equal; lia.
Qed.

Lemma memset_bytes_filled n : forall m p v,
  0 <= v < 256 -> filled m (memset_bytes n m p v) p v (Z.of_nat n).
Proof.
  induction n as [|n IH]; intros m p v Hv x; simpl memset_bytes.
  - bsplit; done || lia.
  - rewrite (IH _ (p + 1) v Hv x), rd8_wr8.
    assert (u8 v = v) as -> by (apply Z.mod_small; lia).
    bsplit; done || lia.
Qed.

(** Byte [i] of the replicated value is the value itself. *)
Lemma replicated_byte v i : 0 <= v < 256 -> 0 <= i < 8 ->
  u8 (u64 (v * 0x0101010101010101) / 256 ^ i) = v.
Proof.
  intros Hv Hi. rewrite u64_id by (unfold is_u64; lia). unfold u8.
  assert (i = 0 \/ i = 1 \/ i = 2 \/ i = 3 \/ i = 4 \/ i = 5 \/ i = 6 \/ i = 7) as Hc by lia.
  change (2 ^ 8) with 256.
  destruct Hc as [->|[->|[->|[->|[->|[->|[->| ->]]]]]]]; simpl Z.pow; divlia.
Qed.

Lemma memset_words_filled fuel : forall m p v n m' p' n',
  0 <= v < 256 -> 0 <= n <= Z.of_nat fuel ->
  memset_words fuel m p (u64 (v * 0x0101010101010101)) n = (m', p', n') ->
  0 <= n' /\ (forall m'', filled m' m'' p' v n' -> filled m m'' p v n).
Proof.
  induction fuel as [|f IH]; intros m p v n m' p' n' Hv Hn E; simpl in E.
  - simplify_eq. eauto with lia.
  - destruct (Z.leb_spec 8 n) as [H8|H8].
    + apply IH in E as [? Hc]; [|lia|lia]. split; [done|].
      intros m'' H'' x. rewrite (Hc m'' H''). unfold wr64. rewrite rd8_wr.
      change (Z.of_nat 8) with 8.
      destruct (Z.leb_spec (p + 8) x), (Z.ltb_spec x (p + 8 + (n - 8))),
        (Z.leb_spec p x), (Z.ltb_spec x (p + n)), (Z.ltb_spec x (p + 8));
        simpl; try lia; try done.
      apply replicated_byte; lia.
    + simplify_eq. eauto with lia.
Qed.

Lemma memset_filled m s c n : 0 <= n -> filled m (memset m s c n).1 s (u8 c) n.
Proof.
  intros Hn. assert (Hv : 0 <= u8 c < 256) by (apply (Z.mod_pos_bound _ 256); lia).
  unfold memset.
  destruct ((Z.land s 7 =? 0) && (8 <=? n)).
  - destruct (memset_words _ _ _ _ _) as [[m1 p1] n1] eqn:E.
    apply memset_words_filled in E as [H1 H2]; [|done|lia]. simpl.
    apply H2. pose proof (memset_bytes_filled (Z.to_nat n1) m1 p1 (u8 c) Hv) as Hb.
    rewrite Z2Nat.id in Hb by lia. done.
  - simpl. pose proof (memset_bytes_filled (Z.to_nat n) m s (u8 c) Hv) as Hb.
    rewrite Z2Nat.id in Hb by lia. done.
Qed.

Lemma cstr_byte m a l : cstr m a l -> Forall (fun c => 0 < c < 256) l.
Proof.
  induction 1 as [|a c l Hc Hn H IH]; constructor; [|done].
  pose proof (rd8_range m a). lia.
Qed.

Lemma strcmp_cstr m l1 : forall l2 s1 s2 fuel, (length l1 < fuel)%nat ->
  cstr m s1 l1 -> cstr m s2 l2 -> strcmp fuel m s1 s2 = Some (lstrcmp l1 l2).
Proof.
  induction l1 as [|c1 l1 IH]; intros l2 s1 s2 fuel Hf H1 H2; destruct fuel; simpl in *;
    try lia; inversion H1 as [? E1|? ? ? E1 N1 H1']; subst; inversion H2 as [? E2|? ? ? E2 N2 H2']; subst.
  - rewrite E1, E2. done.
  - rewrite E1. simpl. done.
  - rewrite E2. destruct (Z.eqb_spec (rd8 m s1) 0); [lia|]. simpl.
    rewrite Z.sub_0_r. done.
  - destruct (Z.eqb_spec (rd8 m s1) 0); [lia|].
    destruct (Z.eqb_spec (rd8 m s1) (rd8 m s2)); simpl; [|done]. apply IH; [lia|done..].
Qed.

Lemma lstrcmp_zero l1 : forall l2,
  Forall (fun c => 0 < c < 256) l1 -> Forall (fun c => 0 < c < 256) l2 ->
  lstrcmp l1 l2 = 0 <-> l1 = l2.
Proof.
  induction l1 as [|c1 l1 IH]; intros [|c2 l2] H1 H2; simpl; try done.
  - inv H2. split; [lia|done].
  - inv H1. split; [lia|done].
  - inv H1. inv H2. destruct (Z.eqb_spec c1 c2) as [->|Hne].
    + rewrite IH by done. split; congruence.
    + split; [lia|congruence].
Qed.

Lemma strlen_from_cstr m l : forall a k fuel, (length l < fuel)%nat ->
  cstr m (a + k) l -> strlen_from fuel m a k = Some (k + Z.of_nat (length l)).
Proof.
  induction l as [|c l IH]; intros a k fuel Hf H; destruct fuel; simpl in *; try lia;
    inversion H as [? E|? ? ? E N H']; subst.
  - rewrite E. simpl. f_equal. lia.
  - destruct (Z.eqb_spec (rd8 m (a + k)) 0); [lia|].
    rewrite IH; [f_equal; lia|lia|]. rewrite Z.add_assoc. done.
Qed.

Lemma strncmp_cstr m n : forall l1 l2 s1 s2,
  cstr m s1 l1 -> cstr m s2 l2 -> strncmp n m s1 s2 = lstrncmp l1 l2 n.
Proof.
  induction n as [|n IH]; intros l1 l2 s1 s2 H1 H2; simpl; [done|].
  inversion H1 as [? E1|? ? ? E1 N1 H1']; subst; inversion H2 as [? E2|? ? ? E2 N2 H2']; subst.
  - rewrite E1, E2. done.
  - rewrite E1. destruct (Z.eqb_spec 0 (rd8 m s2)); [lia|]. simpl. lia.
  - rewrite E2. destruct (Z.eqb_spec (rd8 m s1) 0); [lia|]. simpl. lia.
  - destruct (Z.eqb_spec (rd8 m s1) (rd8 m s2)); simpl; [|done].
    destruct (Z.eqb_spec (rd8 m s1) 0); [lia|]. apply IH; done.
Qed.

Lemma memcmp_loop_zero n : forall m p1 p2,
  memcmp_loop n m p1 p2 = 0 <-> bytes_at m p1 n = bytes_at m p2 n.
Proof.
  induction n as [|n IH]; intros m p1 p2; simpl; [done|].
  unfold bytes_at. simpl. rewrite <- !seq_shift, !map_map, !Z.add_0_r.
  destruct (Z.eqb_spec (rd8 m p1) (rd8 m p2)) as [E|E].
  - rewrite IH. unfold bytes_at. rewrite E.
    assert (Hs : forall q, map (fun i => rd8 m (q + Z.of_nat (S i))) (seq 0 n) =
                      map (fun i => rd8 m (q + 1 + Z.of_nat i)) (seq 0 n)).
    { intros q. apply map_ext. intros i. f_equal. lia. }
    rewrite !Hs. split; congruence.
  - split; [lia|]. congruence.
Qed.

(** ** Properties *)

(** [memmove] copies correctly for every overlap of source and
    destination, through the eight-byte fast path as well: afterwards the
    [n] bytes at [dest] are the bytes [src] had before, every other byte is
    unchanged, and [dest] is returned. *)
Theorem memmove_correct m dest src n : 0 <= n ->
  copied m (memmove m dest src n).1 dest src n /\ (memmove m dest src n).2 = dest.
Proof.
  intros Hn. unfold memmove.
  destruct (Z.ltb_spec dest src); [|destruct (Z.ltb_spec src dest)].
  - split; [apply memcpy_copied; [done|left; lia]|].
    unfold memcpy. cases; done.
  - split; [|done]. pose proof (memmove_back_copied (Z.to_nat n) m dest src) as Hb.
    rewrite Z2Nat.id in Hb by lia. apply Hb. done.
  - split; [|done]. assert (dest = src) as -> by lia. intros x. simpl.
    replace (src + (x - src)) with x by lia. by destruct (_ && _).
Qed.

Definition demo_mem : mem := put_bytes ∅ 64 [110; 111; 118; 97; 32; 111; 115; 33; 63; 97; 98; 99].

Lemma memmove_correct_witness :
  0 <= 11 /\ copied demo_mem (memmove demo_mem 65 64 11).1 65 64 11 /\
  bytes_at (memmove demo_mem 65 64 11).1 64 12 =
    [110; 110; 111; 118; 97; 32; 111; 115; 33; 63; 97; 98].
Proof.
  split; [lia|]. split; [|vm_compute; reflexivity].
  apply (memmove_correct demo_mem 65 64 11). lia.
Defined.

(** [memset] is a plain byte fill: the replicated eight-byte fast path
    and the byte loop together write [(uint8_t)c] to exactly [n] bytes. *)
Theorem memset_correct m s c n : 0 <= n ->
  filled m (memset m s c n).1 s (u8 c) n /\ (memset m s c n).2 = s.
Proof.
  intros Hn. split; [by apply memset_filled|]. unfold memset. cases; done.
Qed.

Lemma memset_correct_witness :
  0 <= 11 /\ filled ∅ (memset ∅ 64 0x1AB 11).1 64 0xAB 11.
Proof. split; [lia|]. apply (memset_correct ∅ 64 0x1AB 11). lia. Defined.

(** On terminated strings [strcmp] returns, needs no more steps than the
    first string is long, and its result is 0 exactly when the strings are
    equal; [strlen] returns the length. *)
Theorem strcmp_correct m s1 s2 l1 l2 fuel :
  cstr m s1 l1 -> cstr m s2 l2 -> (length l1 < fuel)%nat ->
  strlen fuel m s1 = Some (Z.of_nat (length l1)) /\
  exists r, strcmp fuel m s1 s2 = Some r /\ (r = 0 <-> l1 = l2).
Proof.
  intros H1 H2 Hf. split.
  - unfold strlen. rewrite (strlen_from_cstr m l1) by (rewrite ?Z.add_0_r; done). done.
  - exists (lstrcmp l1 l2). split; [by apply strcmp_cstr|].
    apply lstrcmp_zero; eapply cstr_byte; eauto.
Qed.

Definition demo_str : mem := put_bytes (put_bytes ∅ 0 [110; 97; 103; 0]) 16 [110; 97; 0].

Lemma demo_cstr1 : cstr demo_str 0 [110; 97; 103].
Proof. repeat (constructor; [vm_compute; reflexivity| lia |]). constructor. reflexivity. Qed.

Lemma demo_cstr2 : cstr demo_str 16 [110; 97].
Proof. repeat (constructor; [vm_compute; reflexivity| lia |]). constructor. reflexivity. Qed.

Lemma strcmp_correct_witness :
  strlen 4 demo_str 0 = Some 3 /\
  exists r, strcmp 4 demo_str 0 16 = Some r /\ (r = 0 <-> [110; 97; 103] = [110; 97]).
Proof.
  apply (strcmp_correct demo_str 0 16 [110; 97; 103] [110; 97] 4 demo_cstr1 demo_cstr2).
  simpl. lia.
Defined.
