(* ===== verification/Frames.v ===== *)
(** * The frame-allocator interface

    What the page-table code, the page-fault handler and the heap need from
    the physical memory manager: frames are page aligned, lie in the direct
    map (so they fit the address field of a page-table entry), are never
    handed out twice, and allocation and release touch nothing else.  [Pmm] discharges it. *)

From Stdlib Require Import ZArith Lia Bool.
From stdpp Require Import base.
From S2P Require Import Prelude.

Class FrameAllocator (S : Type) := {
  (** the allocator's invariant, and whether the frame at an address is used *)
  fa_ok : S -> Prop;
  fa_used : S -> Z -> Prop;
  (** [pmm_alloc_frame] (0 is NULL) and [pmm_free_frame] *)
  fa_alloc : S -> S * Z;
  fa_free : S -> Z -> S
}.

(** A frame inside the direct map, which spans 2^47 bytes at [HHDM_BASE]. *)
Definition frame_addr (a : Z) : Prop := 0 < a < 2 ^ 47 /\ a mod 4096 = 0.

Class FrameAllocatorLaws (S : Type) `{FrameAllocator S} := {
  fa_alloc_ok s : fa_ok s -> fa_ok (fa_alloc s).1;
  fa_alloc_null s : fa_ok s -> (fa_alloc s).2 = 0 -> (fa_alloc s).1 = s;
  fa_alloc_frame s : fa_ok s -> (fa_alloc s).2 <> 0 -> frame_addr (fa_alloc s).2;
  fa_alloc_fresh s : fa_ok s -> (fa_alloc s).2 <> 0 -> ~ fa_used s (fa_alloc s).2;
  fa_alloc_used s a : fa_ok s -> (fa_alloc s).2 <> 0 -> frame_addr a ->
    fa_used (fa_alloc s).1 a <-> a = (fa_alloc s).2 \/ fa_used s a;
  fa_free_ok s a : fa_ok s -> is_u64 a -> fa_ok (fa_free s a);
  fa_free_used s a b : fa_ok s -> is_u64 a -> frame_addr b ->
    fa_used (fa_free s a) b <-> fa_used s b /\ a <> b
}.
