(* ===== verification/Pmm.v ===== *)
(** * Physical memory manager (src/kernel/mem/pmm.c)

    A bitmap of 64-bit words, one bit per 4 KiB frame (1 = used), the number
    of frames, the number of used ones and the word index at which the next
    single-frame search starts.  Addresses returned are physical; 0 is NULL. *)

From Stdlib Require Import ZArith Lia Bool.
From stdpp Require Import base list gmap.
From S2P Require Import Prelude Frames.

Record Pmm := mkPmm {
  g_bitmap : list Z;
  g_total_frames : Z;
  g_used_frames : Z;
  g_bitmap_words : Z;
  g_last_scanned_index : Z
}.

Definition word (p : Pmm) (i : Z) : Z := default 0 (g_bitmap p !! Z.to_nat i).

Definition set_word (p : Pmm) (i v : Z) : Pmm :=
  mkPmm (<[Z.to_nat i := v]> (g_bitmap p)) (g_total_frames p) (g_used_frames p)
        (g_bitmap_words p) (g_last_scanned_index p).

Definition set_used (p : Pmm) (n : Z) : Pmm :=
  mkPmm (g_bitmap p) (g_total_frames p) n (g_bitmap_words p) (g_last_scanned_index p).

Definition set_last (p : Pmm) (i : Z) : Pmm :=
  mkPmm (g_bitmap p) (g_total_frames p) (g_used_frames p) (g_bitmap_words p) i.

(** ** Bits *)
Definition bitmap_set_bit (p : Pmm) (frame_idx : Z) : Pmm :=
  set_word p (frame_idx / 64)
    (Z.lor (word p (frame_idx / 64)) (Z.shiftl 1 (frame_idx mod 64))).

Definition bitmap_clear_bit (p : Pmm) (frame_idx : Z) : Pmm :=
  set_word p (frame_idx / 64)
    (Z.land (word p (frame_idx / 64)) (u64 (Z.lnot (Z.shiftl 1 (frame_idx mod 64))))).

Definition bitmap_test_bit (p : Pmm) (frame_idx : Z) : bool :=
  negb (Z.land (word p (frame_idx / 64)) (Z.shiftl 1 (frame_idx mod 64)) =? 0).

(** [__builtin_ctzll]: index of the lowest set bit (the argument is not 0). *)
Fixpoint ctz_from (n : nat) (i w : Z) : Z :=
  match n with
  | O => i
  | S k => if Z.testbit w i then i else ctz_from k (i + 1) w
  end.
Definition ctzll (w : Z) : Z := ctz_from 64 0 w.

(** ** Initialisation *)
Definition EfiLoaderCode := 1.
Definition EfiLoaderData := 2.
Definition EfiBootServicesCode := 3.
Definition EfiBootServicesData := 4.
Definition EfiRuntimeServicesCode := 5.
Definition EfiRuntimeServicesData := 6.
Definition EfiConventionalMemory := 7.
Definition EfiACPIReclaimMemory := 9.
Definition EfiACPIMemoryNVS := 10.

Record MemDesc := mkDesc { Type_ : Z; PhysicalStart : Z; NumberOfPages : Z }.

(** The fields of [BootInfo] that [pmm_init] reads; the memory map is the
    list of its descriptors, [map_addr]/[map_size] locate it, the other
    fields are as in src/bootinfo.h ([font_header] is 0 for no font). *)
Record BootInfo := mkBoot {
  memory_map : list MemDesc;
  map_addr : Z;
  map_size : Z;
  kernel_phys : Z;
  kernel_size : Z;
  stack_phys : Z;
  stack_size : Z;
  boot_info_addr : Z;
  boot_pml4 : Z;
  font_header : Z
}.

Definition is_ram_type (t : Z) : bool :=
  (t =? EfiConventionalMemory) || (t =? EfiBootServicesCode) ||
  (t =? EfiBootServicesData) || (t =? EfiLoaderCode) || (t =? EfiLoaderData) ||
  (t =? EfiACPIReclaimMemory) || (t =? EfiACPIMemoryNVS) ||
  (t =? EfiRuntimeServicesCode) || (t =? EfiRuntimeServicesData).

(** Body of the two "if bit clear, set and count" / "if bit set, clear and
    uncount" loops. *)
Definition reserve_frame (f : Z) (p : Pmm) : Pmm :=
  if bitmap_test_bit p f then p
  else set_used (bitmap_set_bit p f) (u64 (g_used_frames p + 1)).

Definition release_frame (f : Z) (p : Pmm) : Pmm :=
  if bitmap_test_bit p f
  then set_used (bitmap_clear_bit p f) (u64 (g_used_frames p - 1))
  else p.

Definition pmm_reserve_range (p : Pmm) (phys_base size : Z) : Pmm :=
  let start_frame := phys_base / PAGE_SIZE in
  let end_frame := u64 (phys_base + size + PAGE_SIZE - 1) / PAGE_SIZE in
  zfor start_frame (Z.min end_frame (g_total_frames p)) reserve_frame p.

Definition highest_phys (ds : list MemDesc) : Z :=
  foldl (fun hi d =>
    if negb (is_ram_type (Type_ d)) then hi
    else
      let e := u64 (PhysicalStart d + NumberOfPages d * PAGE_SIZE) in
      if hi <? e then e else hi) 0 ds.

Definition total_frames_of (ds : list MemDesc) : Z := highest_phys ds / PAGE_SIZE.
Definition bitmap_bytes_of (total : Z) : Z := (total + 7) / 8.
Definition bitmap_pages_of (total : Z) : Z :=
  (bitmap_bytes_of total + PAGE_SIZE - 1) / PAGE_SIZE.
Definition bitmap_words_of (total : Z) : Z := (bitmap_bytes_of total + 8 - 1) / 8.

(** First conventional region that can hold the bitmap: above 1 MiB when
    there is one, any otherwise, 0 when there is none. *)
Fixpoint find_bitmap (ds : list MemDesc) (pages floor : Z) : Z :=
  match ds with
  | [] => 0
  | d :: r =>
      if (Type_ d =? EfiConventionalMemory) && (pages <=? NumberOfPages d) &&
         (floor <=? PhysicalStart d)
      then PhysicalStart d else find_bitmap r pages floor
  end.

Definition bitmap_phys_of (ds : list MemDesc) (pages : Z) : Z :=
  let b := find_bitmap ds pages 0x100000 in
  if b =? 0 then find_bitmap ds pages 0 else b.

Definition release_desc (p : Pmm) (d : MemDesc) : Pmm :=
  if Type_ d =? EfiConventionalMemory then
    let start_frame := PhysicalStart d / PAGE_SIZE in
    let end_frame := u64 (start_frame + NumberOfPages d) in
    zfor start_frame (Z.min end_frame (g_total_frames p)) release_frame p
  else p.

Definition pmm_init (bi : BootInfo) : Pmm :=
  let ds := memory_map bi in
  let total := total_frames_of ds in
  let bitmap_pages := bitmap_pages_of total in
  let words := bitmap_words_of total in
  let bitmap_phys := bitmap_phys_of ds bitmap_pages in
  let p0 := mkPmm (replicate (Z.to_nat words) MAX64) total total words 0 in
  let p1 := foldl release_desc p0 ds in
  let p2 := pmm_reserve_range p1 0 0x100000 in
  let p3 := pmm_reserve_range p2 bitmap_phys (bitmap_pages * PAGE_SIZE) in
  let p4 := pmm_reserve_range p3 (kernel_phys bi) (kernel_size bi) in
  let p5 := pmm_reserve_range p4 (stack_phys bi) (stack_size bi) in
  let p6 := pmm_reserve_range p5 (u64 (boot_info_addr bi - HHDM_BASE)) PAGE_SIZE in
  let p7 := pmm_reserve_range p6 (u64 (map_addr bi - HHDM_BASE)) (map_size bi) in
  let p8 := pmm_reserve_range p7 (u64 (boot_pml4 bi - HHDM_BASE)) PAGE_SIZE in
  let p9 := if font_header bi =? 0 then p8
            else pmm_reserve_range p8 (u64 (font_header bi - HHDM_BASE)) (PAGE_SIZE * 4) in
  set_last p9 0.

(** ** Allocation *)

(** One of the two scan loops of [pmm_alloc_frame] over words
    [i, i + n): [Some] when the loop returns from the function. *)
Fixpoint alloc_scan (n : nat) (i : Z) (p : Pmm) : option (Pmm * Z) :=
  match n with
  | O => None
  | S k =>
      if word p i =? MAX64 then alloc_scan k (i + 1) p
      else
        let bit := ctzll (u64 (Z.lnot (word p i))) in
        let frame_idx := i * 64 + bit in
        if g_total_frames p <=? frame_idx then Some (p, 0)
        else
          let p1 := bitmap_set_bit p frame_idx in
          let p2 := set_used p1 (u64 (g_used_frames p1 + 1)) in
          Some (set_last p2 i, frame_idx * PAGE_SIZE)
  end.

Definition pmm_alloc_frame (p : Pmm) : Pmm * Z :=
  let last := g_last_scanned_index p in
  match alloc_scan (Z.to_nat (g_bitmap_words p - last)) last p with
  | Some r => r
  | None =>
      match alloc_scan (Z.to_nat last) 0 p with
      | Some r => r
      | None => (p, 0)
      end
  end.

(** The search of [pmm_alloc_frames]: the first frame of the run found. *)
Fixpoint frames_scan (n : nat) (i contiguous start count : Z) (p : Pmm) : option Z :=
  match n with
  | O => None
  | S k =>
      if bitmap_test_bit p i then frames_scan k (i + 1) 0 (i + 1) count p
      else if contiguous + 1 =? count then Some start
      else frames_scan k (i + 1) (contiguous + 1) start count p
  end.

Definition mark_run (p : Pmm) (start count : Z) : Pmm :=
  let p1 := zfor start (start + count) (fun f q => bitmap_set_bit q f) p in
  set_used p1 (u64 (g_used_frames p1 + count)).

Definition pmm_alloc_frames (p : Pmm) (count : Z) : Pmm * Z :=
  if count =? 0 then (p, 0)
  else if count =? 1 then pmm_alloc_frame p
  else
    match frames_scan (Z.to_nat (g_total_frames p)) 0 0 0 count p with
    | Some start => (mark_run p start count, start * PAGE_SIZE)
    | None => (p, 0)
    end.

(** First used frame of [f, f + n), if any. *)
Fixpoint first_used (n : nat) (f : Z) (p : Pmm) : option Z :=
  match n with
  | O => None
  | S k => if bitmap_test_bit p f then Some f else first_used k (f + 1) p
  end.

(** The search loop of [pmm_alloc_aligned_frames]; [None]: out of fuel,
    [Some None]: no run, [Some (Some s)]: the run starts at frame [s]. *)
Fixpoint aligned_scan (fuel : nat) (start_frame count align : Z) (p : Pmm)
  : option (option Z) :=
  match fuel with
  | O => None
  | S k =>
      if u64 (start_frame + count) <=? g_total_frames p then
        let aligned_start :=
          Z.land (u64 (start_frame + align - 1)) (u64 (Z.lnot (align - 1))) in
        if g_total_frames p <? u64 (aligned_start + count) then Some None
        else
          match first_used (Z.to_nat count) aligned_start p with
          | Some f => aligned_scan k (f + 1) count align p
          | None => Some (Some aligned_start)
          end
      else Some None
  end.

Definition pmm_alloc_aligned_frames (p : Pmm) (count align_frames : Z) : option (Pmm * Z) :=
  if count =? 0 then Some (p, 0)
  else if align_frames <=? 1 then Some (pmm_alloc_frames p count)
  else
    match aligned_scan (S (Z.to_nat (g_total_frames p))) 0 count align_frames p with
    | None => None
    | Some None => Some (p, 0)
    | Some (Some s) => Some (mark_run p s count, s * PAGE_SIZE)
    end.

(** ** Release *)
Definition pmm_free_frame (p : Pmm) (addr : Z) : Pmm :=
  if (addr =? 0) || negb (addr mod PAGE_SIZE =? 0) then p
  else
    let frame_idx := addr / PAGE_SIZE in
    if g_total_frames p <=? frame_idx then p
    else if bitmap_test_bit p frame_idx then
      let p1 := bitmap_clear_bit p frame_idx in
      let p2 := set_used p1 (u64 (g_used_frames p1 - 1)) in
      let word_idx := frame_idx / 64 in
      if word_idx <? g_last_scanned_index p2 then set_last p2 word_idx else p2
    else p.

Definition pmm_free_frames (p : Pmm) (addr count : Z) : Pmm :=
  if (addr =? 0) || negb (addr mod PAGE_SIZE =? 0) || (count =? 0) then p
  else
    let start_frame := addr / PAGE_SIZE in
    let end0 := u64 (start_frame + count) in
    let end_frame := if g_total_frames p <? end0 then g_total_frames p else end0 in
    let p1 := zfor start_frame end_frame release_frame p in
    let word_idx := start_frame / 64 in
    if word_idx <? g_last_scanned_index p1 then set_last p1 word_idx else p1.

Definition pmm_get_total_frames (p : Pmm) : Z := g_total_frames p.
Definition pmm_get_free_frames (p : Pmm) : Z := u64 (g_total_frames p - g_used_frames p).
Definition pmm_get_used_frames (p : Pmm) : Z := g_used_frames p.

(** ** Bit-level lemmas *)
Lemma test_testbit p f :
  bitmap_test_bit p f = Z.testbit (word p (f / 64)) (f mod 64).
Proof.
  unfold bitmap_test_bit. rewrite Z.shiftl_1_l.
  apply (has_testbit (word p (f / 64)) (f mod 64)). apply Z.mod_pos_bound. lia.
Qed.

(** Frame [f] has its bit inside the bitmap. *)
Definition in_bitmap (p : Pmm) (f : Z) : Prop :=
  0 <= f /\ f / 64 < Z.of_nat (length (g_bitmap p)).

Lemma word_set_word p i v j : 0 <= i -> 0 <= j ->
  i < Z.of_nat (length (g_bitmap p)) ->
  word (set_word p i v) j = if j =? i then v else word p j.
Proof.
  intros Hi Hj Hl. unfold word, set_word. simpl.
  destruct (Z.eqb_spec j i) as [->|Hne].
  - rewrite list_lookup_insert_eq by lia. done.
  - rewrite list_lookup_insert_ne by lia. done.
Qed.

(** A change of one bit of one word, seen as a change of one frame. *)
Lemma test_set_word p f g v b : in_bitmap p f -> 0 <= g ->
  (forall j, 0 <= j < 64 ->
     Z.testbit v j = if j =? f mod 64 then b else Z.testbit (word p (f / 64)) j) ->
  bitmap_test_bit (set_word p (f / 64) v) g =
  if g =? f then b else bitmap_test_bit p g.
Proof.
  intros [Hf Hl] Hg Hv. rewrite !test_testbit.
  assert (0 <= f / 64 /\ 0 <= g / 64) as [? ?] by divlia.
  rewrite word_set_word by lia.
  pose proof (Z.mod_pos_bound g 64). pose proof (Z.mod_pos_bound f 64).
  destruct (Z.eqb_spec (g / 64) (f / 64)) as [E|E].
  - rewrite Hv by lia. rewrite E.
    destruct (Z.eqb_spec (g mod 64) (f mod 64)), (Z.eqb_spec g f); try done; divlia.
  - destruct (Z.eqb_spec g f); [subst; lia|done].
Qed.

Lemma test_set_bit p f g : in_bitmap p f -> 0 <= g ->
  bitmap_test_bit (bitmap_set_bit p f) g = (g =? f) || bitmap_test_bit p g.
Proof.
  intros Hf Hg. unfold bitmap_set_bit. rewrite (test_set_word p f g _ true); [|done..|].
  - by destruct (g =? f).
  - intros j Hj. pose proof (Z.mod_pos_bound f 64).
    rewrite Z.lor_spec, Z.shiftl_1_l, Z.pow2_bits_eqb by lia.
    rewrite Z.eqb_sym. destruct (j =? f mod 64); [apply orb_true_r|apply orb_false_r].
Qed.

Lemma test_clear_bit p f g : in_bitmap p f -> 0 <= g ->
  bitmap_test_bit (bitmap_clear_bit p f) g = negb (g =? f) && bitmap_test_bit p g.
Proof.
  intros Hf Hg. unfold bitmap_clear_bit. rewrite (test_set_word p f g _ false); [|done..|].
  - by destruct (g =? f).
  - intros j Hj. pose proof (Z.mod_pos_bound f 64). unfold u64.
    rewrite Z.land_spec, Z.mod_pow2_bits_low, Z.lnot_spec, Z.shiftl_1_l,
      Z.pow2_bits_eqb by lia.
    rewrite (Z.eqb_sym (f mod 64)).
    destruct (j =? f mod 64); simpl; [apply andb_false_r|apply andb_true_r].
Qed.

Lemma ctz_from_spec n : forall i w,
  (exists j, i <= j < i + Z.of_nat n /\ Z.testbit w j = true) ->
  i <= ctz_from n i w < i + Z.of_nat n /\ Z.testbit w (ctz_from n i w) = true.
Proof.
  induction n as [|n IH]; intros i w (j & Hj & Hb); simpl ctz_from; [lia|].
  destruct (Z.testbit w i) eqn:E; [split; [lia|done]|].
  destruct (IH (i + 1) w) as [H1 H2].
  { exists j. split; [|done]. destruct (Z.eq_dec i j); [congruence|lia]. }
  split; [lia|done].
Qed.

(** A 64-bit word that is not all ones has a clear bit, which
    [ctzll (~w)] finds. *)
Lemma ctzll_lnot w : is_u64 w -> w <> MAX64 ->
  0 <= ctzll (u64 (Z.lnot w)) < 64 /\ Z.testbit w (ctzll (u64 (Z.lnot w))) = false.
Proof.
  intros Hw Hne.
  assert (Hb : forall j, 0 <= j < 64 ->
            Z.testbit (u64 (Z.lnot w)) j = negb (Z.testbit w j)).
  { intros j Hj. unfold u64. rewrite Z.mod_pow2_bits_low, Z.lnot_spec by lia. done. }
  destruct (ctz_from_spec 64 0 (u64 (Z.lnot w))) as [H1 H2].
  - destruct (decide (Exists (fun j => Z.testbit w j = false) (seqZ 0 64))) as [He|He].
    + apply Exists_exists in He as (j & Hj & Hf). apply elem_of_seqZ in Hj.
      exists j. split; [lia|]. rewrite Hb, Hf by lia. done.
    + exfalso. apply Hne. unfold MAX64. change (0xFFFFFFFFFFFFFFFF) with (Z.ones 64).
      apply Z.bits_inj'. intros j Hj.
      destruct (Z.lt_ge_cases j 64) as [Hlt|Hge].
      * rewrite Z.ones_spec_low by lia. destruct (Z.testbit w j) eqn:E; [done|].
        exfalso. apply He, Exists_exists. exists j. split; [|done].
        apply elem_of_seqZ. lia.
      * rewrite Z.ones_spec_high by lia. apply (testbit_above w j 64); [done|lia].
  - fold (ctzll (u64 (Z.lnot w))) in H1, H2. split; [lia|].
    rewrite Hb in H2 by lia. by destruct (Z.testbit w _).
Qed.

(** ** Invariant *)

(** What the allocator maintains: the words are 64-bit values and cover all
    frames, bits beyond the last frame are set, the usage counter counts the
    set bits, and the search hint is a word index. *)
Record pmm_core (p : Pmm) : Prop := {
  wf_words : Z.of_nat (length (g_bitmap p)) = g_bitmap_words p;
  wf_u64 : Forall is_u64 (g_bitmap p);
  wf_total : 0 <= g_total_frames p <= 64 * g_bitmap_words p;
  wf_limit : g_total_frames p < 2 ^ 52;
  wf_tail : forall f, g_total_frames p <= f < 64 * g_bitmap_words p ->
              bitmap_test_bit p f = true;
  wf_used : g_used_frames p =
              countb (bitmap_test_bit p) (Z.to_nat (g_total_frames p));
  wf_last : 0 <= g_last_scanned_index p <= g_bitmap_words p
}.

(** After initialisation frame 0 is never free: its address is NULL. *)
Definition pmm_wf (p : Pmm) : Prop :=
  pmm_core p /\ (0 < g_total_frames p -> bitmap_test_bit p 0 = true).

(** Frame [f] is available. *)
Definition frame_free (p : Pmm) (f : Z) : Prop :=
  0 <= f < g_total_frames p /\ bitmap_test_bit p f = false.

Lemma wf_in_bitmap p f : pmm_core p -> 0 <= f < g_total_frames p -> in_bitmap p f.
Proof. intros [W _ T _ _ _ _] Hf. split; [lia|]. rewrite W. divlia. Qed.

Lemma wf_word p i : pmm_core p -> is_u64 (word p i).
Proof.
  intros W. unfold word. destruct (g_bitmap p !! Z.to_nat i) as [w|] eqn:E; simpl.
  - apply (Forall_lookup_1 _ _ _ _ (wf_u64 p W) E).
  - unfold is_u64. lia.
Qed.

Lemma used_bound p : pmm_core p -> 0 <= g_used_frames p <= g_total_frames p.
Proof.
  intros W. rewrite (wf_used p W). pose proof (wf_total p W).
  pose proof (countb_bound (bitmap_test_bit p) (Z.to_nat (g_total_frames p))). lia.
Qed.

Lemma test_set_used p n f : bitmap_test_bit (set_used p n) f = bitmap_test_bit p f.
Proof. done. Qed.

Lemma test_set_last p i f : bitmap_test_bit (set_last p i) f = bitmap_test_bit p f.
Proof. done. Qed.

Lemma length_set_word p i v : length (g_bitmap (set_word p i v)) = length (g_bitmap p).
Proof. apply length_insert. Qed.

Lemma set_last_core p i : pmm_core p -> 0 <= i <= g_bitmap_words p -> pmm_core (set_last p i).
Proof. intros [] Hi. constructor; done. Qed.


Lemma core_set_word p i v n :
  pmm_core p -> is_u64 v -> 0 <= i < g_bitmap_words p ->
  (forall f, g_total_frames p <= f < 64 * g_bitmap_words p ->
     bitmap_test_bit (set_word p i v) f = true) ->
  n = countb (bitmap_test_bit (set_word p i v)) (Z.to_nat (g_total_frames p)) ->
  pmm_core (set_used (set_word p i v) n).
Proof.
  intros [W U T L _ _ La] Hv Hi Ht Hn. constructor; simpl; try done.
  - rewrite length_insert. done.
  - by apply Forall_insert.
Qed.

Lemma shiftl1_u64 f : is_u64 (Z.shiftl 1 (f mod 64)).
Proof.
  pose proof (Z.mod_pos_bound f 64). rewrite Z.shiftl_1_l. unfold is_u64.
  split; [lia|]. apply Z.pow_lt_mono_r; lia.
Qed.
#[export] Hint Resolve shiftl1_u64 wf_word : nova.

Lemma reserve_core p f : pmm_core p -> frame_free p f ->
  pmm_core (set_used (bitmap_set_bit p f) (u64 (g_used_frames p + 1))).
Proof.
  intros W [Hf Hb]. pose proof (wf_in_bitmap p f W Hf) as Hin.
  pose proof (wf_total p W). pose proof (wf_limit p W).
  assert (Hc : countb (bitmap_test_bit (bitmap_set_bit p f)) (Z.to_nat (g_total_frames p)) =
               g_used_frames p + 1).
  { rewrite (wf_used p W).
    rewrite (countb_ext _ (fun g => (g =? f) || bitmap_test_bit p g)).
    2:{ intros i Hi. apply test_set_bit; [done|lia]. }
    apply (countb_point _ _ _ f); [lia|done|by rewrite Z.eqb_refl|].
    intros j _ Hj. destruct (Z.eqb_spec j f); done. }
  pose proof (countb_bound (bitmap_test_bit (bitmap_set_bit p f))
                (Z.to_nat (g_total_frames p))).
  apply core_set_word; [done|by auto with nova|divlia| |].
  - intros g Hg. fold (bitmap_set_bit p f). rewrite test_set_bit by (done || lia).
    rewrite (wf_tail p W) by lia. apply orb_true_r.
  - fold (bitmap_set_bit p f). rewrite Hc. apply u64_id. unfold is_u64. lia.
Qed.

Lemma release_core p f : pmm_core p ->
  0 <= f < g_total_frames p -> bitmap_test_bit p f = true ->
  pmm_core (set_used (bitmap_clear_bit p f) (u64 (g_used_frames p - 1))).
Proof.
  intros W Hf Hb. pose proof (wf_in_bitmap p f W Hf) as Hin.
  pose proof (wf_total p W). pose proof (wf_limit p W).
  assert (Hc : countb (bitmap_test_bit (bitmap_clear_bit p f)) (Z.to_nat (g_total_frames p)) + 1 =
               g_used_frames p).
  { rewrite (wf_used p W). symmetry.
    apply (countb_point _ _ _ f); [lia| |done|].
    - rewrite test_clear_bit by (done || lia). rewrite Z.eqb_refl. done.
    - intros j Hj Hne. rewrite test_clear_bit by (done || lia).
      destruct (Z.eqb_spec j f); done. }
  pose proof (countb_bound (bitmap_test_bit (bitmap_clear_bit p f))
                (Z.to_nat (g_total_frames p))).
  apply core_set_word; [done|apply land_u64; [apply u64_range|by auto with nova]|divlia| |].
  - intros g Hg. fold (bitmap_clear_bit p f). rewrite test_clear_bit by (done || lia).
    rewrite (wf_tail p W) by lia. destruct (Z.eqb_spec g f); [lia|done].
  - fold (bitmap_clear_bit p f).
    rewrite u64_id; [lia|]. unfold is_u64. lia.
Qed.

(** *** Loops that reserve or release a range of frames *)
Lemma reserve_frame_total f p : g_total_frames (reserve_frame f p) = g_total_frames p.
Proof. unfold reserve_frame. by destruct (bitmap_test_bit p f). Qed.

Lemma release_frame_total f p : g_total_frames (release_frame f p) = g_total_frames p.
Proof. unfold release_frame. by destruct (bitmap_test_bit p f). Qed.

Lemma reserve_frame_core f p : pmm_core p -> 0 <= f < g_total_frames p ->
  pmm_core (reserve_frame f p).
Proof.
  intros W Hf. unfold reserve_frame. destruct (bitmap_test_bit p f) eqn:E; [done|].
  by apply reserve_core.
Qed.

Lemma release_frame_core f p : pmm_core p -> 0 <= f < g_total_frames p ->
  pmm_core (release_frame f p).
Proof.
  intros W Hf. unfold release_frame. destruct (bitmap_test_bit p f) eqn:E; [|done].
  by apply release_core.
Qed.

Lemma test_reserve_frame p f g : in_bitmap p f -> 0 <= g ->
  bitmap_test_bit (reserve_frame f p) g = (g =? f) || bitmap_test_bit p g.
Proof.
  intros Hf Hg. unfold reserve_frame. destruct (bitmap_test_bit p f) eqn:E.
  - destruct (Z.eqb_spec g f) as [->|]; done.
  - rewrite test_set_used, test_set_bit by done. done.
Qed.

Lemma test_release_frame p f g : in_bitmap p f -> 0 <= g ->
  bitmap_test_bit (release_frame f p) g = negb (g =? f) && bitmap_test_bit p g.
Proof.
  intros Hf Hg. unfold release_frame. destruct (bitmap_test_bit p f) eqn:E.
  - rewrite test_set_used, test_clear_bit by done. done.
  - destruct (Z.eqb_spec g f) as [->|]; done.
Qed.

Definition in_range (lo hi g : Z) : bool := (lo <=? g) && (g <? hi).

(** Both loops keep the core invariant and the geometry, and change exactly
    the bits of the range. *)
Lemma reserve_loop p lo hi : pmm_core p -> 0 <= lo -> hi <= g_total_frames p ->
  let q := zfor lo hi reserve_frame p in
  pmm_core q /\ g_total_frames q = g_total_frames p /\
  (forall g, 0 <= g -> bitmap_test_bit q g = in_range lo hi g || bitmap_test_bit p g).
Proof.
  intros W Hlo Hhi. unfold in_range. destruct (Z.le_gt_cases lo hi).
  - apply (zfor_ind (fun i q => pmm_core q /\ g_total_frames q = g_total_frames p /\
  (forall g, 0 <= g -> bitmap_test_bit q g =
         ((lo <=? g) && (g <? i)) || bitmap_test_bit p g))); [done| |].
    + split_and!; [done..|]. intros g Hg. bsplit; done || lia.
    + intros i q Hi (Wq & Tq & Bq). split_and!.
      * apply reserve_frame_core; [done|lia].
      * by rewrite reserve_frame_total.
      * intros g Hg. rewrite test_reserve_frame; [|apply wf_in_bitmap; [done|lia]|done].
        rewrite Bq by done. bsplit; try done; lia.
  - rewrite zfor_empty by lia. split_and!; [done..|]. intros g Hg. bsplit; done || lia.
Qed.

Lemma release_loop p lo hi : pmm_core p -> 0 <= lo -> hi <= g_total_frames p ->
  let q := zfor lo hi release_frame p in
  pmm_core q /\ g_total_frames q = g_total_frames p /\
  (forall g, 0 <= g -> bitmap_test_bit q g = negb (in_range lo hi g) && bitmap_test_bit p g).
Proof.
  intros W Hlo Hhi. unfold in_range. destruct (Z.le_gt_cases lo hi).
  - apply (zfor_ind (fun i q => pmm_core q /\ g_total_frames q = g_total_frames p /\
  (forall g, 0 <= g -> bitmap_test_bit q g =
         negb ((lo <=? g) && (g <? i)) && bitmap_test_bit p g))); [done| |].
    + split_and!; [done..|]. intros g Hg. bsplit; done || lia.
    + intros i q Hi (Wq & Tq & Bq). split_and!.
      * apply release_frame_core; [done|lia].
      * by rewrite release_frame_total.
      * intros g Hg. rewrite test_release_frame; [|apply wf_in_bitmap; [done|lia]|done].
        rewrite Bq by done. bsplit; try done; lia.
  - rewrite zfor_empty by lia. split_and!; [done..|]. intros g Hg. bsplit; done || lia.
Qed.

Lemma pmm_reserve_range_spec p base size : pmm_core p -> is_u64 base ->
  let q := pmm_reserve_range p base size in
  pmm_core q /\ g_total_frames q = g_total_frames p /\
  (forall g, 0 <= g -> bitmap_test_bit q g =
     in_range (base / PAGE_SIZE)
       (Z.min (u64 (base + size + PAGE_SIZE - 1) / PAGE_SIZE) (g_total_frames p)) g
     || bitmap_test_bit p g).
Proof.
  intros W Hb. unfold pmm_reserve_range. apply reserve_loop; [done| |lia].
  unfold is_u64, PAGE_SIZE in *. divlia.
Qed.

(** *** Initialisation *)

(** The ranges [pmm_init] reserves, in order. *)
Definition reserved_ranges (bi : BootInfo) : list (Z * Z) :=
  let pages := bitmap_pages_of (total_frames_of (memory_map bi)) in
  [ (0, 0x100000);
    (bitmap_phys_of (memory_map bi) pages, pages * PAGE_SIZE);
    (kernel_phys bi, kernel_size bi);
    (stack_phys bi, stack_size bi);
    (u64 (boot_info_addr bi - HHDM_BASE), PAGE_SIZE);
    (u64 (map_addr bi - HHDM_BASE), map_size bi);
    (u64 (boot_pml4 bi - HHDM_BASE), PAGE_SIZE) ] ++
  (if font_header bi =? 0 then []
   else [(u64 (font_header bi - HHDM_BASE), PAGE_SIZE * 4)]).

(** Frame [g] is touched by the byte range [r] = (base, size). *)
Definition range_has (r : Z * Z) (g : Z) : bool :=
  in_range (r.1 / PAGE_SIZE) (u64 (r.1 + r.2 + PAGE_SIZE - 1) / PAGE_SIZE) g.

(** Frame [g] lies in a conventional-memory descriptor. *)
Definition conv_has (d : MemDesc) (g : Z) : bool :=
  (Type_ d =? EfiConventionalMemory) &&
  in_range (PhysicalStart d / PAGE_SIZE)
    (u64 (PhysicalStart d / PAGE_SIZE + NumberOfPages d)) g.

(** The firmware hands over 64-bit values. *)
Definition boot_ok (bi : BootInfo) : Prop :=
  Forall (fun d => is_u64 (PhysicalStart d) /\ is_u64 (NumberOfPages d)) (memory_map bi) /\
  is_u64 (kernel_phys bi) /\ is_u64 (stack_phys bi).

Lemma highest_phys_range ds hi : is_u64 hi ->
  is_u64 (foldl (fun h d =>
    if negb (is_ram_type (Type_ d)) then h
    else
      let e := u64 (PhysicalStart d + NumberOfPages d * PAGE_SIZE) in
      if h <? e then e else h) hi ds).
Proof.
  revert hi. induction ds as [|d ds IH]; intros hi Hh; simpl; [done|].
  apply IH. cases; auto with nova.
Qed.

Lemma total_frames_range ds : 0 <= total_frames_of ds < 2 ^ 52.
Proof.
  pose proof (highest_phys_range ds 0 ltac:(unfold is_u64; lia)) as H.
  unfold total_frames_of, highest_phys, is_u64, PAGE_SIZE in *. divlia.
Qed.

Lemma words_cover total : 0 <= total ->
  0 <= bitmap_words_of total /\ total <= 64 * bitmap_words_of total.
Proof. unfold bitmap_words_of, bitmap_bytes_of. intros H. divlia. Qed.

Lemma all_ones_test n total words used last f :
  0 <= f -> f / 64 < Z.of_nat n ->
  bitmap_test_bit (mkPmm (replicate n MAX64) total used words last) f = true.
Proof.
  intros Hf Hn. rewrite test_testbit. unfold word. simpl g_bitmap.
  rewrite lookup_replicate_2 by divlia. simpl default. unfold MAX64.
  change (0xFFFFFFFFFFFFFFFF) with (Z.ones 64). apply Z.ones_spec_low. divlia.
Qed.

Lemma init_core ds : let total := total_frames_of ds in let words := bitmap_words_of total in
  pmm_core (mkPmm (replicate (Z.to_nat words) MAX64) total total words 0).
Proof.
  intros total words. pose proof (total_frames_range ds).
  destruct (words_cover total) as [Hw1 Hw2]; [lia|]. fold words in Hw1, Hw2.
  constructor; simpl.
  - rewrite length_replicate. lia.
  - apply Forall_replicate. done.
  - lia.
  - lia.
  - intros f Hf. apply all_ones_test; [lia|]. divlia.
  - symmetry. transitivity (Z.of_nat (Z.to_nat total)); [|lia]. apply countb_all.
    intros i Hi. apply all_ones_test; [lia|]. divlia.
  - lia.
Qed.

Lemma release_desc_spec p d : pmm_core p -> is_u64 (PhysicalStart d) ->
  pmm_core (release_desc p d) /\ g_total_frames (release_desc p d) = g_total_frames p /\
  (forall g, 0 <= g < g_total_frames p ->
     bitmap_test_bit (release_desc p d) g = negb (conv_has d g) && bitmap_test_bit p g).
Proof.
  intros W Hd. unfold release_desc, conv_has.
  destruct (Type_ d =? EfiConventionalMemory); [|done]. simpl andb.
  destruct (release_loop p (PhysicalStart d / PAGE_SIZE)
    (Z.min (u64 (PhysicalStart d / PAGE_SIZE + NumberOfPages d)) (g_total_frames p)))
    as (H1 & H2 & H3); [done|unfold is_u64, PAGE_SIZE in *; divlia|lia|].
  split_and!; [done..|]. intros g Hg. rewrite H3 by lia. f_equal. f_equal.
  unfold in_range. bsplit; done || lia.
Qed.

Lemma release_descs_spec ds : forall p, pmm_core p ->
  Forall (fun d => is_u64 (PhysicalStart d) /\ is_u64 (NumberOfPages d)) ds ->
  let q := foldl release_desc p ds in
  pmm_core q /\ g_total_frames q = g_total_frames p /\
  (forall g, 0 <= g < g_total_frames p -> bitmap_test_bit q g =
     negb (existsb (fun d => conv_has d g) ds) && bitmap_test_bit p g).
Proof.
  induction ds as [|d ds IH]; intros p W Hd; simpl; [done|].
  inversion Hd as [|? ? [Hp _] Hr]; subst.
  destruct (release_desc_spec p d W Hp) as (W1 & T1 & B1).
  destruct (IH _ W1 Hr) as (W2 & T2 & B2). split_and!; [done|congruence|].
  intros g Hg. rewrite B2 by lia. rewrite B1 by lia.
  rewrite negb_orb, andb_assoc. f_equal. apply andb_comm.
Qed.

Lemma reserve_ranges_spec rs : forall p, pmm_core p ->
  Forall (fun r : Z * Z => is_u64 r.1) rs ->
  let q := foldl (fun q (r : Z * Z) => pmm_reserve_range q r.1 r.2) p rs in
  pmm_core q /\ g_total_frames q = g_total_frames p /\
  (forall g, 0 <= g < g_total_frames p -> bitmap_test_bit q g =
     existsb (fun r => range_has r g) rs || bitmap_test_bit p g).
Proof.
  induction rs as [|r rs IH]; intros p W Hr; simpl; [done|].
  inversion Hr as [|? ? Hp Hrs]; subst.
  destruct (pmm_reserve_range_spec p r.1 r.2 W Hp) as (W1 & T1 & B1).
  destruct (IH _ W1 Hrs) as (W2 & T2 & B2). split_and!; [done|congruence|].
  intros g Hg. rewrite B2 by lia. rewrite B1 by lia.
  unfold range_has, in_range. destruct (existsb _ rs); [by rewrite orb_true_r|].
  bsplit; done || lia.
Qed.

Lemma find_bitmap_range ds pages floor :
  Forall (fun d => is_u64 (PhysicalStart d) /\ is_u64 (NumberOfPages d)) ds ->
  is_u64 (find_bitmap ds pages floor).
Proof.
  induction 1 as [|d ds [Hd _] _ IH]; simpl; [unfold is_u64; lia|].
  by destruct (_ && _).
Qed.

Lemma reserved_ranges_u64 bi : boot_ok bi ->
  Forall (fun r : Z * Z => is_u64 r.1) (reserved_ranges bi).
Proof.
  intros (Hd & Hk & Hs). unfold reserved_ranges. apply Forall_app. split.
  - assert (Hb : forall n, is_u64 (bitmap_phys_of (memory_map bi) n)).
    { intros n. unfold bitmap_phys_of. cases; by apply find_bitmap_range. }
    repeat apply Forall_cons_2; simpl; auto with nova; done.
  - destruct (font_header bi =? 0); [constructor|].
    apply Forall_cons_2; [apply u64_range|constructor].
Qed.

(** [pmm_init] is: fill with ones, release the descriptors, reserve the ranges. *)
Lemma pmm_init_fold bi : pmm_init bi =
  let total := total_frames_of (memory_map bi) in
  let words := bitmap_words_of total in
  set_last (foldl (fun q (r : Z * Z) => pmm_reserve_range q r.1 r.2)
    (foldl release_desc (mkPmm (replicate (Z.to_nat words) MAX64) total total words 0)
       (memory_map bi)) (reserved_ranges bi)) 0.
Proof. unfold pmm_init, reserved_ranges. by destruct (font_header bi =? 0). Qed.

(** *** Single-frame allocation *)

(** State after frame [f] was handed out by [pmm_alloc_frame]. *)
Definition take_frame (p : Pmm) (f : Z) : Pmm :=
  set_last (set_used (bitmap_set_bit p f) (u64 (g_used_frames p + 1))) (f / 64).

Lemma full_word p i f : word p i = MAX64 -> f / 64 = i -> 0 <= f -> bitmap_test_bit p f = true.
Proof.
  intros Hw Hi Hf. rewrite test_testbit, Hi, Hw. unfold MAX64.
  change (0xFFFFFFFFFFFFFFFF) with (Z.ones 64). apply Z.ones_spec_low. divlia.
Qed.

Lemma alloc_scan_spec n : forall i p, pmm_core p -> 0 <= i ->
  i + Z.of_nat n <= g_bitmap_words p ->
  match alloc_scan n i p with
  | None => forall f, i * 64 <= f < (i + Z.of_nat n) * 64 -> bitmap_test_bit p f = true
  | Some r => exists f, frame_free p f /\ r = (take_frame p f, f * PAGE_SIZE)
  end.
Proof.
  induction n as [|n IH]; intros i p W Hi Hn; simpl alloc_scan; [cbn; intros; lia|].
  destruct (Z.eqb_spec (word p i) MAX64) as [Hw|Hw].
  - specialize (IH (i + 1) p W). destruct (alloc_scan n (i + 1) p) as [r|].
    + apply IH; lia.
    + intros f Hf. destruct (Z.eq_dec (f / 64) i) as [E|E].
      * apply (full_word p i); [done..|lia].
      * apply IH; [lia|lia|divlia].
  - destruct (ctzll_lnot (word p i) (wf_word p i W) Hw) as [Hr Hb].
    set (b := ctzll (u64 (Z.lnot (word p i)))) in *.
    assert (Hd : (i * 64 + b) / 64 = i) by divlia.
    assert (Hm : (i * 64 + b) mod 64 = b) by divlia.
    assert (Ht : bitmap_test_bit p (i * 64 + b) = false).
    { rewrite test_testbit, Hd, Hm. done. }
    destruct (Z.leb_spec (g_total_frames p) (i * 64 + b)) as [Hl|Hl].
    + rewrite (wf_tail p W) in Ht by lia. done.
    + exists (i * 64 + b). split; [split; [lia|done]|]. unfold take_frame. rewrite Hd. done.
Qed.

Lemma pmm_alloc_frame_cases p : pmm_core p ->
  (exists f, frame_free p f /\ pmm_alloc_frame p = (take_frame p f, f * PAGE_SIZE)) \/
  ((forall f, ~ frame_free p f) /\ pmm_alloc_frame p = (p, 0)).
Proof.
  intros W. pose proof (wf_last p W) as Hl. pose proof (wf_total p W).
  unfold pmm_alloc_frame.
  pose proof (alloc_scan_spec (Z.to_nat (g_bitmap_words p - g_last_scanned_index p))
    (g_last_scanned_index p) p W ltac:(lia) ltac:(lia)) as H1.
  destruct (alloc_scan _ _ p) as [r|].
  - destruct H1 as (f & Hf & ->). eauto.
  - pose proof (alloc_scan_spec (Z.to_nat (g_last_scanned_index p)) 0 p W
      ltac:(lia) ltac:(lia)) as H2.
    destruct (alloc_scan _ 0 p) as [r|].
    + destruct H2 as (f & Hf & ->). eauto.
    + right. split; [|done]. intros f [Hf Hb].
      destruct (Z.lt_ge_cases f (g_last_scanned_index p * 64)).
      * rewrite H2 in Hb by lia. done.
      * rewrite H1 in Hb by lia. done.
Qed.

Lemma take_frame_spec p f : pmm_core p -> frame_free p f ->
  pmm_core (take_frame p f) /\ g_total_frames (take_frame p f) = g_total_frames p /\
  (forall g, 0 <= g -> bitmap_test_bit (take_frame p f) g = (g =? f) || bitmap_test_bit p g).
Proof.
  intros W Hf. destruct Hf as [Hr Hb]. unfold take_frame. split_and!.
  - apply set_last_core; [by apply reserve_core|]. simpl.
    pose proof (wf_total p W). divlia.
  - done.
  - intros g Hg. rewrite test_set_last, test_set_used.
    apply test_set_bit; [by apply wf_in_bitmap|done].
Qed.

(** *** Runs of frames *)

Lemma set_bits_loop p lo hi : pmm_core p -> 0 <= lo <= hi -> hi <= g_total_frames p ->
  let q := zfor lo hi (fun f q => bitmap_set_bit q f) p in
  length (g_bitmap q) = length (g_bitmap p) /\ Forall is_u64 (g_bitmap q) /\
  g_total_frames q = g_total_frames p /\ g_used_frames q = g_used_frames p /\
  g_bitmap_words q = g_bitmap_words p /\
  g_last_scanned_index q = g_last_scanned_index p /\
  (forall g, 0 <= g -> bitmap_test_bit q g = in_range lo hi g || bitmap_test_bit p g).
Proof.
  intros W Hlo Hhi. pose proof (wf_words p W). pose proof (wf_total p W).
  apply (zfor_ind (fun i q => length (g_bitmap q) = length (g_bitmap p) /\
    Forall is_u64 (g_bitmap q) /\ g_total_frames q = g_total_frames p /\
    g_used_frames q = g_used_frames p /\ g_bitmap_words q = g_bitmap_words p /\
    g_last_scanned_index q = g_last_scanned_index p /\
    (forall g, 0 <= g -> bitmap_test_bit q g = in_range lo i g || bitmap_test_bit p g)));
    [lia| |].
  - split_and!; try done; [apply (wf_u64 p W)|].
    intros g Hg. unfold in_range. bsplit; done || lia.
  - intros i q Hi (L & U & T & Us & Wd & La & B).
    assert (Hin : in_bitmap q i) by (split; [lia|rewrite L; divlia]).
    split_and!; simpl; try done.
    + by rewrite length_insert.
    + apply Forall_insert; [done|]. apply lor_u64; [|apply shiftl1_u64].
      unfold word. destruct (g_bitmap q !! _) as [w|] eqn:E; simpl; [|unfold is_u64; lia].
      apply (Forall_lookup_1 _ _ _ _ U E).
    + intros g Hg. rewrite test_set_bit by done. rewrite B by done.
      unfold in_range. bsplit; try done; lia.
Qed.

(** Setting a run of clear bits adds its length to the count. *)
Lemma countb_run P Q n lo len : 0 <= lo -> 0 <= len -> lo + len <= Z.of_nat n ->
  (forall i, lo <= i < lo + len -> P i = false) ->
  (forall i, 0 <= i < Z.of_nat n -> Q i = in_range lo (lo + len) i || P i) ->
  countb Q n = countb P n + len.
Proof.
  intros Hlo Hlen. revert Q. pattern len. apply natlike_ind; [| |done]; clear len Hlen.
  - intros Q Hn HP HQ. rewrite (countb_ext Q P n); [lia|]. intros i Hi.
    rewrite HQ by done. unfold in_range. bsplit; done || lia.
  - intros k Hk IH Q Hn HP HQ.
    set (R := fun i => in_range lo (lo + k) i || P i).
    rewrite (countb_point R Q n (lo + k)); [|lia| | |].
    + rewrite (IH R); [lia|lia| |done]. intros i Hi. apply HP. lia.
    + unfold R. rewrite HP by lia. unfold in_range. bsplit; done || lia.
    + rewrite HQ by lia. unfold in_range. bsplit; done || lia.
    + intros j Hj Hne. rewrite HQ by lia. unfold R, in_range. bsplit; done || lia.
Qed.

(** All frames of [lo, lo + n) are free. *)
Definition run_free (p : Pmm) (lo n : Z) : Prop :=
  0 <= lo /\ lo + n <= g_total_frames p /\
  (forall f, lo <= f < lo + n -> bitmap_test_bit p f = false).

Lemma mark_run_spec p lo n : pmm_core p -> 0 <= n -> run_free p lo n ->
  let q := mark_run p lo n in
  pmm_core q /\ g_total_frames q = g_total_frames p /\
  g_used_frames q = g_used_frames p + n /\
  (forall g, 0 <= g -> bitmap_test_bit q g = in_range lo (lo + n) g || bitmap_test_bit p g).
Proof.
  intros W Hn (Hlo & Hhi & Hf). pose proof (wf_total p W). pose proof (wf_limit p W).
  destruct (set_bits_loop p lo (lo + n)) as (L & U & T & Us & Wd & La & B); [done|lia|lia|].
  unfold mark_run. set (q := zfor lo (lo + n) _ p) in *.
  assert (Hc : countb (bitmap_test_bit q) (Z.to_nat (g_total_frames p)) = g_used_frames p + n).
  { rewrite (wf_used p W). apply (countb_run _ _ _ lo n); try lia; [done|].
    intros i Hi. apply B. lia. }
  pose proof (countb_bound (bitmap_test_bit q) (Z.to_nat (g_total_frames p))).
  assert (Hu : u64 (g_used_frames q + n) = g_used_frames p + n)
    by (rewrite Us; apply u64_id; unfold is_u64; lia).
  split_and!; simpl; try done.
  constructor; simpl; rewrite ?L, ?T, ?Wd, ?La; try apply W; try done.
  - intros f Hff. rewrite test_set_used, B by lia.
    rewrite (wf_tail p W) by done. apply orb_true_r.
  - rewrite Hu, <- Hc. apply countb_ext. intros. by rewrite test_set_used.
Qed.

(** The run search: the first run of [count] free frames, or none. *)
Lemma frames_scan_spec n : forall i contiguous start count p,
  0 <= start -> start + contiguous = i -> 0 <= contiguous < count ->
  i + Z.of_nat n = g_total_frames p ->
  (forall f, start <= f < i -> bitmap_test_bit p f = false) ->
  (forall s, 0 <= s < start -> ~ run_free p s count) ->
  match frames_scan n i contiguous start count p with
  | Some s => run_free p s count /\ (forall t, 0 <= t < s -> ~ run_free p t count)
  | None => forall s, ~ run_free p s count
  end.
Proof.
  induction n as [|n IH]; intros i c start count p Hs Hc Hcnt Hn Hfree Hno; simpl.
  - intros s (H1 & H2 & H3). destruct (Z.lt_ge_cases s start); [|lia].
    apply (Hno s); [lia|done].
  - destruct (bitmap_test_bit p i) eqn:E.
    + apply IH; try lia. intros s Hss (R1 & R2 & R3).
      destruct (Z.lt_ge_cases s start); [by apply (Hno s); [lia|]|].
      destruct (Z.le_gt_cases (s + count) i); [lia|].
      rewrite R3 in E by lia. done.
    + assert (Hf : forall f, start <= f < i + 1 -> bitmap_test_bit p f = false).
      { intros f Hff. destruct (Z.eq_dec f i) as [->|]; [done|]. apply Hfree. lia. }
      destruct (Z.eqb_spec (c + 1) count).
      * split; [|done]. split_and!; [lia|lia|]. intros f Hff. apply Hf. lia.
      * apply IH; try lia; done.
Qed.

Lemma first_used_spec n : forall f p,
  match first_used n f p with
  | Some g => f <= g < f + Z.of_nat n /\ bitmap_test_bit p g = true
  | None => forall g, f <= g < f + Z.of_nat n -> bitmap_test_bit p g = false
  end.
Proof.
  induction n as [|n IH]; intros f p; simpl; [intros; lia|].
  destruct (bitmap_test_bit p f) eqn:E; [split; [lia|done]|].
  specialize (IH (f + 1) p). destruct (first_used n (f + 1) p) as [g|].
  - destruct IH. split; [lia|done].
  - intros g Hg. destruct (Z.eq_dec g f) as [->|]; [done|]. apply IH. lia.
Qed.

(** *** Aligned runs *)

(** The rounded-up start is never below the requested one, for every
    alignment (power of two or not), so each failed attempt makes progress. *)
Lemma aligned_start_bounds start align : 0 <= start < 2 ^ 53 -> 1 < align <= 2 ^ 62 ->
  let a := Z.land (u64 (start + align - 1)) (u64 (Z.lnot (align - 1))) in
  start <= a < start + align.
Proof.
  intros Hs Ha. simpl. rewrite (u64_id (start + align - 1)) by (unfold is_u64; lia).
  rewrite land_mask_sub by (unfold is_u64; lia).
  pose proof (land_le_r (start + align - 1) (align - 1)).
  assert (0 <= Z.land (start + align - 1) (align - 1)) by (apply Z.land_nonneg; lia). lia.
Qed.

Lemma aligned_start_pow2 start k : 0 <= start < 2 ^ 53 -> 1 <= k <= 62 ->
  let a := Z.land (u64 (start + 2 ^ k - 1)) (u64 (Z.lnot (2 ^ k - 1))) in
  a mod 2 ^ k = 0 /\ (forall s, start <= s -> s mod 2 ^ k = 0 -> a <= s).
Proof.
  intros Hs Hk. simpl. assert (2 ^ 1 <= 2 ^ k <= 2 ^ 62) by (split; apply Z.pow_le_mono_r; lia).
  rewrite (u64_id (start + 2 ^ k - 1)) by (unfold is_u64; lia).
  rewrite land_mask_pow2 by (unfold is_u64 in *; lia).
  set (n := 2 ^ k) in *. split.
  - rewrite Zminus_mod_idemp_r, Z.sub_diag. done.
  - intros s Hss Hm. pose proof (Z.div_mod (start + n - 1) n ltac:(lia)) as Hx.
    pose proof (Z.div_mod s n ltac:(lia)) as Hy. rewrite Hm in Hy.
    pose proof (Z.mod_pos_bound (start + n - 1) n ltac:(lia)).
    destruct (Z.le_gt_cases ((start + n - 1) / n) (s / n)); nia.
Qed.

Lemma aligned_scan_spec p count align : pmm_core p ->
  0 < count < 2 ^ 62 -> 1 < align <= 2 ^ 62 ->
  forall fuel start, 0 <= start <= g_total_frames p + 1 ->
    g_total_frames p < start + Z.of_nat fuel -> (0 < fuel)%nat ->
    exists r, aligned_scan fuel start count align p = Some r /\
      (forall s, r = Some s -> run_free p s count) /\
      (forall k, align = 2 ^ k -> 1 <= k ->
         (forall s, r = Some s -> s mod align = 0) /\
         (r = None -> forall s, start <= s -> s mod align = 0 -> ~ run_free p s count)).
Proof.
  intros W Hc Ha. pose proof (wf_limit p W).
  induction fuel as [|fuel IH]; intros start Hs Hf Hp; [lia|]. simpl.
  rewrite (u64_id (start + count)) by (unfold is_u64; lia).
  destruct (Z.leb_spec (start + count) (g_total_frames p)) as [Hfit|Hfit].
  2:{ exists None. split_and!; [done..|]. intros k _ _. split; [done|].
      intros _ s Hss _ (_ & Hr & _). lia. }
  pose proof (aligned_start_bounds start align ltac:(lia) Ha) as Hb.
  assert (Hal : forall k, align = 2 ^ k -> 1 <= k ->
    let a := Z.land (u64 (start + align - 1)) (u64 (Z.lnot (align - 1))) in
    a mod align = 0 /\ (forall s, start <= s -> s mod align = 0 -> a <= s)).
  { intros k -> Hk. apply aligned_start_pow2; [lia|]. split; [lia|].
    apply (Z.pow_le_mono_r_iff 2); lia. }
  cbv zeta in *. set (a := Z.land _ _) in *.
  rewrite (u64_id (a + count)) by (unfold is_u64; lia).
  destruct (Z.ltb_spec (g_total_frames p) (a + count)) as [Hl|Hl].
  { exists None. split_and!; [done..|]. intros k E Hk. split; [done|].
    intros _ s Hss Hm (_ & Hr & _). apply (Hal k E Hk) in Hm; lia. }
  pose proof (first_used_spec (Z.to_nat count) a p) as Hu.
  destruct (first_used _ a p) as [f|].
  - destruct Hu as [Hu1 Hu2]. destruct fuel as [|fuel]; [lia|].
    destruct (IH (f + 1)) as (r & E & R1 & R2); [lia..|]. exists r. split_and!; [done..|].
    intros k Ek Hk. destruct (R2 k Ek Hk) as [R3 R4]. split; [done|].
    intros Hr s Hss Hm Hrun. destruct (Z.le_gt_cases (f + 1) s); [by apply (R4 Hr s)|].
    pose proof (proj2 (Hal k Ek Hk) s Hss Hm) as Has.
    destruct Hrun as (_ & _ & Hfree). rewrite Hfree in Hu2 by lia. done.
  - exists (Some a). split_and!; [done| |].
    + intros s [= <-]. split_and!; [lia|lia|]. intros g Hg. apply Hu. lia.
    + intros k Ek Hk. split; [|done]. intros s [= <-]. apply (Hal k Ek Hk).
Qed.

(** *** Release *)

Lemma release_keep_zero p lo hi : pmm_wf p -> 0 < lo -> hi <= g_total_frames p ->
  pmm_wf (zfor lo hi release_frame p).
Proof.
  intros [W Z0] Hlo Hhi. destruct (release_loop p lo hi W ltac:(lia) Hhi) as (W1 & T1 & B1).
  split; [done|]. rewrite T1. intros Ht. rewrite B1 by lia. rewrite Z0 by done.
  unfold in_range. bsplit; done || lia.
Qed.

Lemma set_last_wf p i : pmm_wf p -> 0 <= i <= g_bitmap_words p -> pmm_wf (set_last p i).
Proof. intros [W Z0] Hi. split; [by apply set_last_core|done]. Qed.

Lemma lower_last_wf p i : pmm_wf p -> 0 <= i ->
  pmm_wf (if i <? g_last_scanned_index p then set_last p i else p).
Proof.
  intros W Hi. destruct (Z.ltb_spec i (g_last_scanned_index p)); [|done].
  apply set_last_wf; [done|]. pose proof (wf_last p (proj1 W)). lia.
Qed.

Lemma free_frame_as_loop p a : a <> 0 -> a mod PAGE_SIZE = 0 -> 0 <= a ->
  a / PAGE_SIZE < g_total_frames p ->
  exists q, q = release_frame (a / PAGE_SIZE) p /\
    (pmm_free_frame p a = q \/ pmm_free_frame p a =
       if a / PAGE_SIZE / 64 <? g_last_scanned_index q then set_last q (a / PAGE_SIZE / 64) else q).
Proof.
  intros Ha Hm Hp Ht. eexists. split; [done|]. unfold pmm_free_frame, release_frame.
  destruct (Z.eqb_spec a 0); [lia|]. rewrite Hm. simpl.
  destruct (Z.leb_spec (g_total_frames p) (a / PAGE_SIZE)); [lia|].
  destruct (bitmap_test_bit p _); auto.
Qed.

(** What a release of [count] frames at address [a] frees. *)
Definition freed (total a count f : Z) : bool :=
  negb (a =? 0) && (a mod PAGE_SIZE =? 0) &&
  in_range (a / PAGE_SIZE) (Z.min (a / PAGE_SIZE + count) total) f.

Lemma pmm_free_frame_spec p a : pmm_wf p -> is_u64 a ->
  let q := pmm_free_frame p a in
  pmm_wf q /\ g_total_frames q = g_total_frames p /\
  (forall f, 0 <= f -> bitmap_test_bit q f =
     negb (freed (g_total_frames p) a 1 f) && bitmap_test_bit p f).
Proof.
  intros W Ha. simpl. unfold freed.
  destruct (Z.eqb_spec a 0) as [E|Hne]; [unfold pmm_free_frame; subst; done|].
  destruct (Z.eqb_spec (a mod PAGE_SIZE) 0) as [Hm|Hm].
  2:{ unfold pmm_free_frame. destruct (Z.eqb_spec (a mod PAGE_SIZE) 0); [lia|].
      destruct (Z.eqb_spec a 0); [lia|]. done. }
  assert (Hpos : 0 < a / PAGE_SIZE) by (unfold is_u64, PAGE_SIZE in *; divlia).
  destruct (Z.le_gt_cases (g_total_frames p) (a / PAGE_SIZE)) as [Ht|Ht].
  { unfold pmm_free_frame. destruct (Z.eqb_spec a 0); [lia|]. rewrite Hm. simpl.
    destruct (Z.leb_spec (g_total_frames p) (a / PAGE_SIZE)); [|lia].
    split_and!; [done..|]. intros f Hf. unfold in_range. bsplit; done || lia. }
  destruct (free_frame_as_loop p a) as (q & Hq & Hres); [done|done|unfold is_u64 in *; lia|done|].
  assert (Hl : q = zfor (a / PAGE_SIZE) (a / PAGE_SIZE + 1) release_frame p).
  { rewrite zfor_snoc, zfor_empty by lia. done. }
  assert (Wq : pmm_wf q) by (rewrite Hl; apply release_keep_zero; [done|lia|lia]).
  destruct (release_loop p (a / PAGE_SIZE) (a / PAGE_SIZE + 1) (proj1 W)) as (_ & T & B);
    [lia|lia|]. rewrite <- Hl in T, B.
  assert (Hb : forall f, 0 <= f -> bitmap_test_bit q f =
    negb (true && true && in_range (a / PAGE_SIZE) (Z.min (a / PAGE_SIZE + 1) (g_total_frames p)) f)
    && bitmap_test_bit p f).
  { intros f Hf. rewrite B by done. rewrite Z.min_l by lia. done. }
  destruct Hres as [-> | ->]; [done|].
  pose proof (lower_last_wf q (a / PAGE_SIZE / 64) Wq ltac:(divlia)).
  split_and!; [done| |]; destruct (_ <? _); done.
Qed.

Lemma pmm_free_frames_spec p a count : pmm_wf p -> is_u64 a -> 0 <= count < 2 ^ 62 ->
  let q := pmm_free_frames p a count in
  pmm_wf q /\ g_total_frames q = g_total_frames p /\
  (forall f, 0 <= f -> bitmap_test_bit q f =
     negb (freed (g_total_frames p) a count f) && bitmap_test_bit p f).
Proof.
  intros W Ha Hc. simpl. unfold freed, pmm_free_frames.
  destruct (Z.eqb_spec a 0) as [E|Hne]; [done|].
  destruct (Z.eqb_spec (a mod PAGE_SIZE) 0) as [Hm|Hm]; [|done].
  destruct (Z.eqb_spec count 0) as [Ec|Hnc]; simpl.
  { split_and!; [done..|]. intros f Hf. unfold in_range. bsplit; done || lia. }
  assert (Hpos : 0 < a / PAGE_SIZE < 2 ^ 52) by (unfold is_u64, PAGE_SIZE in *; divlia).
  rewrite (u64_id (a / PAGE_SIZE + count)) by (unfold is_u64; lia).
  set (e := if g_total_frames p <? a / PAGE_SIZE + count then g_total_frames p
            else a / PAGE_SIZE + count).
  assert (He : e = Z.min (a / PAGE_SIZE + count) (g_total_frames p)).
  { unfold e. bsplit; lia. }
  set (q := zfor (a / PAGE_SIZE) e release_frame p).
  assert (Wq : pmm_wf q) by (apply release_keep_zero; [done|lia|lia]).
  destruct (release_loop p (a / PAGE_SIZE) e (proj1 W)) as (_ & T & B); [lia|lia|].
  fold q in T, B. rewrite <- He.
  pose proof (lower_last_wf q (a / PAGE_SIZE / 64) Wq ltac:(divlia)).
  split_and!; [done| |]; destruct (_ <? g_last_scanned_index q); done.
Qed.

(** ** The allocator as an abstract free set *)

(** The public operations. *)
Inductive PmmOp :=
| AllocFrame
| AllocFrames (count : Z)
| AllocAligned (count align : Z)
| FreeFrame (addr : Z)
| FreeFrames (addr count : Z).

(** Runs an operation; the result is the returned address (0 for the
    operations without result).  [None] only if a loop runs out of fuel. *)
Definition pmm_run (p : Pmm) (o : PmmOp) : option (Pmm * Z) :=
  match o with
  | AllocFrame => Some (pmm_alloc_frame p)
  | AllocFrames n => Some (pmm_alloc_frames p n)
  | AllocAligned n a => pmm_alloc_aligned_frames p n a
  | FreeFrame a => Some (pmm_free_frame p a, 0)
  | FreeFrames a n => Some (pmm_free_frames p a n, 0)
  end.

(** Arguments the specification covers: 64-bit addresses, counts and
    alignments for which no sum of frame numbers can wrap. *)
Definition op_ok (o : PmmOp) : Prop :=
  match o with
  | AllocFrame => True
  | AllocFrames n => 0 <= n < 2 ^ 62
  | AllocAligned n a => 0 <= n < 2 ^ 62 /\ 0 <= a <= 2 ^ 62
  | FreeFrame a => is_u64 a
  | FreeFrames a n => is_u64 a /\ 0 <= n < 2 ^ 62
  end.

Definition op_count (o : PmmOp) : Z :=
  match o with
  | AllocFrame => 1
  | AllocFrames n => n
  | AllocAligned n _ => n
  | FreeFrame _ => 1
  | FreeFrames _ n => n
  end.

(** Specification over the set [free] of free frames below [total]: an
    allocation either returns NULL and changes nothing, or takes [count] free
    consecutive frames that do not start at frame 0; a release adds the
    frames of the given range. *)
Inductive spec_step (total : Z) (free : Z -> Prop) : PmmOp -> Z -> (Z -> Prop) -> Prop :=
| spec_null o free' : (forall a n, o <> FreeFrames a n) -> (forall a, o <> FreeFrame a) ->
    (forall f, free' f <-> free f) -> spec_step total free o 0 free'
| spec_alloc o lo free' : (forall a n, o <> FreeFrames a n) -> (forall a, o <> FreeFrame a) ->
    0 < lo -> lo + op_count o <= total ->
    (forall f, lo <= f < lo + op_count o -> free f) ->
    (forall f, free' f <-> free f /\ ~ lo <= f < lo + op_count o) ->
    spec_step total free o (lo * PAGE_SIZE) free'
| spec_free o a n free' : o = FreeFrames a n \/ (o = FreeFrame a /\ n = 1) ->
    (forall f, free' f <-> free f \/ (0 <= f < total /\ freed total a n f = true)) ->
    spec_step total free o 0 free'.

Lemma run_free_pos p lo n : pmm_wf p -> 0 < n -> run_free p lo n -> 0 < lo.
Proof.
  intros [W Z0] Hn (Hlo & Hhi & Hf). destruct (Z.eq_dec lo 0) as [->|]; [|lia].
  rewrite Hf in Z0 by lia. discriminate Z0. lia.
Qed.

Lemma frame_free_run p f : frame_free p f <-> run_free p f 1.
Proof.
  unfold frame_free, run_free. split.
  - intros [Hf Hb]. split_and!; [lia|lia|]. intros g Hg. by assert (g = f) as -> by lia.
  - intros (H1 & H2 & H3). split; [lia|]. apply H3. lia.
Qed.

(** Taking a free run: the invariant and the new free set. *)
Lemma taken_run p q lo n : pmm_wf p -> 0 < n -> run_free p lo n ->
  pmm_core q -> g_total_frames q = g_total_frames p ->
  (forall g, 0 <= g -> bitmap_test_bit q g = in_range lo (lo + n) g || bitmap_test_bit p g) ->
  pmm_wf q /\ (forall f, frame_free q f <-> frame_free p f /\ ~ lo <= f < lo + n).
Proof.
  intros W Hn Hr Wq T B. split.
  - split; [done|]. rewrite T. intros Ht. rewrite B, (proj2 W) by lia. apply orb_true_r.
  - intros f. unfold frame_free. rewrite T. split.
    + intros [Hf Hb]. rewrite B in Hb by lia. unfold in_range in Hb. breflect.
      split; [done|]. intros Hin. bsplit; done || lia.
    + intros [[Hf Hb] Hnot]. split; [done|]. rewrite B, Hb by lia.
      unfold in_range. bsplit; done || lia.
Qed.

Lemma take_frame_run p f : pmm_wf p -> frame_free p f ->
  pmm_wf (take_frame p f) /\ 0 < f /\
  (forall g, frame_free (take_frame p f) g <-> frame_free p g /\ ~ f <= g < f + 1).
Proof.
  intros W Hf. destruct (take_frame_spec p f (proj1 W) Hf) as (W1 & T1 & B1).
  apply frame_free_run in Hf. destruct (taken_run p (take_frame p f) f 1) as [H1 H2]; try done.
  - intros g Hg. rewrite B1 by done. unfold in_range. bsplit; done || lia.
  - split_and!; [done|by apply (run_free_pos p f 1); [done|lia|]|done].
Qed.

Lemma spec_alloc1 p o : op_count o = 1 -> (forall a n, o <> FreeFrames a n) ->
  (forall a, o <> FreeFrame a) -> pmm_wf p ->
  pmm_wf (pmm_alloc_frame p).1 /\ g_total_frames (pmm_alloc_frame p).1 = g_total_frames p /\
  spec_step (g_total_frames p) (frame_free p) o (pmm_alloc_frame p).2
    (frame_free (pmm_alloc_frame p).1).
Proof.
  intros Ho H1 H2 W. destruct (pmm_alloc_frame_cases p (proj1 W)) as [(f & Hf & ->)|[Hn ->]].
  - destruct (take_frame_run p f W Hf) as (Wt & Hp & Hfr). simpl. split_and!; [done..|].
    apply spec_alloc; rewrite ?Ho; try done; [destruct Hf; lia|].
    intros g Hg. by assert (g = f) as -> by lia.
  - split_and!; [done..|]. by apply spec_null.
Qed.

Lemma spec_mark_run p o lo n : op_count o = n -> 0 < n -> (forall a k, o <> FreeFrames a k) ->
  (forall a, o <> FreeFrame a) -> pmm_wf p -> run_free p lo n ->
  pmm_wf (mark_run p lo n) /\ g_total_frames (mark_run p lo n) = g_total_frames p /\
  spec_step (g_total_frames p) (frame_free p) o (lo * PAGE_SIZE) (frame_free (mark_run p lo n)).
Proof.
  intros Ho Hn H1 H2 W Hr.
  destruct (mark_run_spec p lo n (proj1 W) ltac:(lia) Hr) as (W1 & T1 & _ & B1).
  destruct (taken_run p (mark_run p lo n) lo n) as [Wt Hf]; try done.
  split_and!; [done..|]. apply spec_alloc; rewrite ?Ho; try done.
  - by apply (run_free_pos p lo n).
  - destruct Hr as (? & ? & ?). lia.
  - destruct Hr as (? & ? & Hb). intros f Hff. split; [lia|]. by apply Hb.
Qed.

Lemma spec_alloc_frames p o n : op_count o = n -> 0 <= n -> (forall a k, o <> FreeFrames a k) ->
  (forall a, o <> FreeFrame a) -> pmm_wf p ->
  pmm_wf (pmm_alloc_frames p n).1 /\ g_total_frames (pmm_alloc_frames p n).1 = g_total_frames p /\
  spec_step (g_total_frames p) (frame_free p) o (pmm_alloc_frames p n).2
    (frame_free (pmm_alloc_frames p n).1).
Proof.
  intros Ho Hn H1 H2 W. unfold pmm_alloc_frames.
  destruct (Z.eqb_spec n 0); [split_and!; [done..|by apply spec_null]|].
  destruct (Z.eqb_spec n 1); [apply spec_alloc1; [lia|done..]|].
  pose proof (wf_total p (proj1 W)).
  pose proof (frames_scan_spec (Z.to_nat (g_total_frames p)) 0 0 0 n p) as Hs.
  destruct (frames_scan _ 0 0 0 n p) as [s|].
  - destruct Hs as [Hr _]; try lia. apply spec_mark_run; done || lia.
  - split_and!; [done..|by apply spec_null].
Qed.

Lemma spec_released p o a n q : o = FreeFrames a n \/ (o = FreeFrame a /\ n = 1) ->
  g_total_frames q = g_total_frames p ->
  (forall f, 0 <= f -> bitmap_test_bit q f =
     negb (freed (g_total_frames p) a n f) && bitmap_test_bit p f) ->
  spec_step (g_total_frames p) (frame_free p) o 0 (frame_free q).
Proof.
  intros Ho T B. apply (spec_free _ _ o a n); [done|]. intros f. unfold frame_free. rewrite T. split.
  - intros [Hf Hb]. rewrite B in Hb by lia.
    destruct (freed _ a n f), (bitmap_test_bit p f); auto; done.
  - intros [[Hf Hb]|[Hf Hb]]; (split; [done|]); rewrite B, Hb by lia;
      [apply andb_false_r|done].
Qed.

(** Every operation keeps the invariant and does what the specification says. *)
Lemma pmm_step_refines p o : pmm_wf p -> op_ok o ->
  exists q r, pmm_run p o = Some (q, r) /\ pmm_wf q /\
    g_total_frames q = g_total_frames p /\
    spec_step (g_total_frames p) (frame_free p) o r (frame_free q).
Proof.
  intros W Ho. destruct o as [|n|n al|a|a n]; simpl in Ho; unfold pmm_run.
  - destruct (spec_alloc1 p AllocFrame) as (? & ? & ?); try done.
    destruct (pmm_alloc_frame p). eauto 10.
  - destruct (spec_alloc_frames p (AllocFrames n) n) as (? & ? & ?); try done; [lia|].
    destruct (pmm_alloc_frames p n). eauto 10.
  - unfold pmm_alloc_aligned_frames. destruct (Z.eqb_spec n 0).
    { do 2 eexists. split_and!; [done..|by apply spec_null]. }
    destruct (Z.leb_spec al 1).
    { destruct (spec_alloc_frames p (AllocAligned n al) n) as (? & ? & ?); try done; [lia|].
      destruct (pmm_alloc_frames p n). eauto 10. }
    pose proof (wf_total p (proj1 W)).
    destruct (aligned_scan_spec p n al (proj1 W) ltac:(lia) ltac:(lia)
      (S (Z.to_nat (g_total_frames p))) 0) as (r & -> & Hr & _); [lia..|].
    destruct r as [s|].
    + destruct (spec_mark_run p (AllocAligned n al) s n) as (? & ? & ?); try done; [lia| |eauto 10].
      by apply Hr.
    + do 2 eexists. split_and!; [done..|by apply spec_null].
  - destruct (pmm_free_frame_spec p a W Ho) as (W1 & T1 & B1). do 2 eexists.
    split_and!; [done..|]. eapply spec_released; eauto.
  - destruct (pmm_free_frames_spec p a n W) as (W1 & T1 & B1); [by destruct Ho..|].
    do 2 eexists. split_and!; [done..|]. eapply spec_released; eauto.
Qed.

(** States reachable from boot by public operations. *)
Inductive pmm_reach (bi : BootInfo) : Pmm -> Prop :=
| reach_init : pmm_reach bi (pmm_init bi)
| reach_step p o q r : pmm_reach bi p -> op_ok o -> pmm_run p o = Some (q, r) -> pmm_reach bi q.

Lemma pmm_init_spec bi : boot_ok bi ->
  pmm_wf (pmm_init bi) /\ g_total_frames (pmm_init bi) = total_frames_of (memory_map bi) /\
  (forall g, 0 <= g < total_frames_of (memory_map bi) ->
     bitmap_test_bit (pmm_init bi) g =
     existsb (fun r => range_has r g) (reserved_ranges bi) ||
     negb (existsb (fun d => conv_has d g) (memory_map bi))).
Proof.
  intros Hb. rewrite pmm_init_fold. cbv zeta. set (total := total_frames_of (memory_map bi)).
  pose proof (init_core (memory_map bi)) as W0. cbv zeta in W0. fold total in W0.
  set (p0 := mkPmm _ total total _ 0) in *.
  destruct (release_descs_spec (memory_map bi) p0 W0 (proj1 Hb)) as (W1 & T1 & B1).
  set (p1 := foldl release_desc p0 (memory_map bi)) in *.
  destruct (reserve_ranges_spec (reserved_ranges bi) p1 W1 (reserved_ranges_u64 bi Hb))
    as (W2 & T2 & B2).
  set (p2 := foldl _ p1 (reserved_ranges bi)) in *.
  assert (Ht0 : g_total_frames p0 = total) by done.
  pose proof (total_frames_range (memory_map bi)). fold total in H.
  assert (Htest : forall g, 0 <= g < total -> bitmap_test_bit p2 g =
    existsb (fun r => range_has r g) (reserved_ranges bi) ||
    negb (existsb (fun d => conv_has d g) (memory_map bi))).
  { intros g Hg. rewrite B2 by lia. rewrite B1 by lia. unfold p0.
    rewrite all_ones_test; [by rewrite andb_true_r|lia|].
    destruct (words_cover total); [lia|]. divlia. }
  split_and!.
  - split; [|].
    + apply set_last_core; [done|]. pose proof (wf_last p2 W2). lia.
    + intros Hp. simpl in Hp. rewrite test_set_last, Htest by lia. done.
  - simpl. congruence.
  - intros g Hg. rewrite test_set_last. by apply Htest.
Qed.

Lemma pmm_reach_wf bi p : boot_ok bi -> pmm_reach bi p -> pmm_wf p.
Proof.
  intros Hb. induction 1 as [|p o q r Hr IH Ho Hrun].
  - by apply pmm_init_spec.
  - destruct (pmm_step_refines p o IH Ho) as (q' & r' & E & Wq & _). congruence.
Qed.

(** ** Properties *)

(** After [pmm_init] the invariant holds, and a frame is free exactly
    when a conventional-memory descriptor covers it and it is in none of the
    reserved ranges (low 1 MiB, the bitmap itself, kernel image, boot stack,
    boot information, memory map, boot page table, font). *)
Theorem pmm_init_correct bi : boot_ok bi ->
  pmm_wf (pmm_init bi) /\
  (forall g, frame_free (pmm_init bi) g <->
     0 <= g < total_frames_of (memory_map bi) /\
     (exists d, In d (memory_map bi) /\ conv_has d g = true) /\
     (forall r, In r (reserved_ranges bi) -> range_has r g = false)).
Proof.
  intros Hb. destruct (pmm_init_spec bi Hb) as (W & T & B). split; [done|]. intros g.
  unfold frame_free. rewrite T. split.
  - intros [Hg Ht]. rewrite B in Ht by done. breflect. split_and!; [lia..| |].
    + apply existsb_exists. done.
    + intros r Hr. destruct (range_has r g) eqn:E; [|done].
      assert (existsb (fun r => range_has r g) (reserved_ranges bi) = true)
        by (apply existsb_exists; eauto). congruence.
  - intros (Hg & Hd & Hr). split; [done|]. rewrite B by done.
    apply existsb_exists in Hd. rewrite Hd, orb_false_r.
    destruct (existsb _ (reserved_ranges bi)) eqn:E; [|done].
    apply existsb_exists in E as (r & Hin & Hrg). rewrite Hr in Hrg; done.
Qed.

(** A machine with 8 MiB of memory: low memory, a loader region, the rest. *)
Definition demo_boot : BootInfo :=
  mkBoot [mkDesc EfiConventionalMemory 0 160;
          mkDesc EfiLoaderData 0x100000 256;
          mkDesc EfiConventionalMemory 0x200000 1536]
         (HHDM_BASE + 0x100000) 144 0x110000 0x20000 0x140000 0x4000
         (HHDM_BASE + 0x150000) (HHDM_BASE + 0x151000) 0.

Lemma demo_boot_ok : boot_ok demo_boot.
Proof. unfold boot_ok, is_u64. repeat constructor; simpl; lia. Qed.

Lemma pmm_init_correct_witness :
  pmm_wf (pmm_init demo_boot) /\
  (pmm_alloc_frame (pmm_init demo_boot)).2 = 0x201000.
Proof.
  split; [|vm_compute; reflexivity]. apply (pmm_init_correct demo_boot). exact demo_boot_ok.
Defined.

(** [pmm_alloc_frame] never fails while a frame is free, and a successful
    call returns the address of a previously free frame that is not frame 0,
    marks exactly that frame and counts it; a failing call changes nothing. *)
Theorem pmm_alloc_frame_correct p : pmm_wf p ->
  let '(q, a) := pmm_alloc_frame p in
  (a = 0 <-> (forall f, ~ frame_free p f)) /\
  (a = 0 -> q = p) /\
  (a <> 0 -> exists f, a = f * PAGE_SIZE /\ frame_free p f /\ pmm_wf q /\
     g_used_frames q = g_used_frames p + 1 /\
     (forall g, 0 <= g -> bitmap_test_bit q g = (g =? f) || bitmap_test_bit p g)).
Proof.
  intros W. destruct (pmm_alloc_frame_cases p (proj1 W)) as [(f & Hf & ->)|[Hn ->]].
  - destruct (take_frame_run p f W Hf) as (Wt & Hp & _).
    destruct (take_frame_spec p f (proj1 W) Hf) as (_ & _ & B).
    assert (f * PAGE_SIZE <> 0) by (unfold PAGE_SIZE; lia).
    split_and!; [split; [done|]|done|].
    + intros Hn. by destruct (Hn f).
    + intros _. exists f. split_and!; try done. unfold take_frame. simpl.
      apply u64_id. pose proof (used_bound p (proj1 W)). pose proof (wf_limit p (proj1 W)).
      unfold is_u64. lia.
  - split_and!; done.
Qed.

Lemma pmm_alloc_frame_correct_witness :
  exists f, 0x201000 = f * PAGE_SIZE /\ frame_free (pmm_init demo_boot) f /\
    g_used_frames (pmm_alloc_frame (pmm_init demo_boot)).1 = 513 + 1.
Proof.
  pose proof (pmm_alloc_frame_correct (pmm_init demo_boot)
    (proj1 (pmm_init_spec demo_boot demo_boot_ok))) as H.
  destruct (pmm_alloc_frame (pmm_init demo_boot)) as [q a] eqn:E.
  assert (Ha : a = 0x201000) by (apply (f_equal snd) in E; vm_compute in E; congruence).
  subst a. destruct H as (_ & _ & H). destruct (H ltac:(lia)) as (f & H1 & H2 & _ & H4 & _).
  exists f. split; [exact H1|]. split; [exact H2|]. simpl. rewrite H4.
  f_equal; vm_compute; reflexivity.
Defined.

(** [pmm_alloc_frames] is first fit and complete: for a count of at least
    two it returns the lowest run of free frames of that length, marks exactly
    the run, and returns NULL only if no such run exists. *)
Theorem pmm_alloc_frames_first_fit p count : pmm_wf p -> 1 < count ->
  let '(q, a) := pmm_alloc_frames p count in
  (a = 0 /\ q = p /\ (forall s, ~ run_free p s count)) \/
  (exists s, a = s * PAGE_SIZE /\ 0 < s /\ run_free p s count /\
     (forall t, 0 <= t < s -> ~ run_free p t count) /\ pmm_wf q /\
     g_used_frames q = g_used_frames p + count /\
     (forall g, 0 <= g ->
        bitmap_test_bit q g = in_range s (s + count) g || bitmap_test_bit p g)).
Proof.
  intros W Hc. unfold pmm_alloc_frames.
  destruct (Z.eqb_spec count 0); [lia|]. destruct (Z.eqb_spec count 1); [lia|].
  pose proof (wf_total p (proj1 W)).
  pose proof (frames_scan_spec (Z.to_nat (g_total_frames p)) 0 0 0 count p) as Hs.
  destruct (frames_scan _ 0 0 0 count p) as [s|].
  - destruct Hs as [Hr Hfirst]; try lia. right. exists s.
    destruct (mark_run_spec p s count (proj1 W) ltac:(lia) Hr) as (W1 & T1 & U1 & B1).
    destruct (taken_run p (mark_run p s count) s count) as [Wq _]; try done; [lia|].
    split_and!; try done. by apply (run_free_pos p s count); [done|lia|].
  - left. split_and!; [done..|]. apply Hs; lia.
Qed.

Lemma pmm_alloc_frames_first_fit_witness :
  exists s, 0x201000 = s * PAGE_SIZE /\ run_free (pmm_init demo_boot) s 4.
Proof.
  pose proof (pmm_alloc_frames_first_fit (pmm_init demo_boot) 4
    (proj1 (pmm_init_spec demo_boot demo_boot_ok)) ltac:(lia)) as H.
  destruct (pmm_alloc_frames (pmm_init demo_boot) 4) as [q a] eqn:E.
  assert (Ha : a = 0x201000) by (apply (f_equal snd) in E; vm_compute in E; congruence).
  destruct H as [[H0 _]|(s & H1 & _ & H2 & _)]; [lia|]. exists s.
  split; [rewrite <- H1; exact (eq_sym Ha)|exact H2].
Defined.

(** [pmm_alloc_aligned_frames] terminates for every alignment up to 2^62;
    for an alignment [2^k] frames it returns an aligned run of free frames
    and marks exactly it, or NULL when no aligned run of that length exists. *)
Theorem pmm_alloc_aligned_correct p count k : pmm_wf p ->
  0 < count < 2 ^ 62 -> 1 <= k <= 62 ->
  exists q a, pmm_alloc_aligned_frames p count (2 ^ k) = Some (q, a) /\
    ((a = 0 /\ q = p /\ forall s, 0 <= s -> s mod 2 ^ k = 0 -> ~ run_free p s count) \/
     (exists s, a = s * PAGE_SIZE /\ 0 < s /\ s mod 2 ^ k = 0 /\ run_free p s count /\
        pmm_wf q /\ g_used_frames q = g_used_frames p + count /\
        (forall g, 0 <= g ->
           bitmap_test_bit q g = in_range s (s + count) g || bitmap_test_bit p g))).
Proof.
  intros W Hc Hk. unfold pmm_alloc_aligned_frames.
  assert (2 ^ 1 <= 2 ^ k <= 2 ^ 62) by (split; apply Z.pow_le_mono_r; lia).
  destruct (Z.eqb_spec count 0); [lia|]. destruct (Z.leb_spec (2 ^ k) 1); [lia|].
  pose proof (wf_total p (proj1 W)).
  destruct (aligned_scan_spec p count (2 ^ k) (proj1 W) Hc ltac:(lia)
    (S (Z.to_nat (g_total_frames p))) 0) as (r & -> & Hr & Hp); [lia..|].
  destruct (Hp k eq_refl ltac:(lia)) as [Ha Hnone].
  destruct r as [s|]; do 2 eexists; (split; [done|]).
  - right. exists s. specialize (Hr s eq_refl). specialize (Ha s eq_refl).
    destruct (mark_run_spec p s count (proj1 W) ltac:(lia) Hr) as (W1 & T1 & U1 & B1).
    destruct (taken_run p (mark_run p s count) s count) as [Wq _]; try done; [lia|].
    split_and!; try done. by apply (run_free_pos p s count); [done|lia|].
  - left. split_and!; [done..|]. auto.
Qed.

Lemma pmm_alloc_aligned_correct_witness :
  exists q, pmm_alloc_aligned_frames (pmm_init demo_boot) 8 (2 ^ 4) = Some (q, 0x210000).
Proof.
  destruct (pmm_alloc_aligned_correct (pmm_init demo_boot) 8 4
    (proj1 (pmm_init_spec demo_boot demo_boot_ok)) ltac:(lia) ltac:(lia)) as (q & a & E & _).
  assert (Ha : Some a = Some 0x210000).
  { transitivity (option_map snd (pmm_alloc_aligned_frames (pmm_init demo_boot) 8 (2 ^ 4))).
    - rewrite E. reflexivity.
    - vm_compute. reflexivity. }
  exists q. injection Ha as <-. exact E.
Defined.

(** Releasing the frame just allocated restores the free set and the
    usage counter, and a second release of the same address changes nothing. *)
Theorem pmm_alloc_free_roundtrip p q a : pmm_wf p ->
  pmm_alloc_frame p = (q, a) -> a <> 0 ->
  (forall f, frame_free (pmm_free_frame q a) f <-> frame_free p f) /\
  g_used_frames (pmm_free_frame q a) = g_used_frames p /\
  pmm_free_frame (pmm_free_frame q a) a = pmm_free_frame q a.
Proof.
  intros W E Ha. destruct (pmm_alloc_frame_cases p (proj1 W)) as [(f & Hf & Ef)|[_ Ef]];
    rewrite E in Ef; simplify_eq.
  destruct (take_frame_run p f W Hf) as (Wq & Hp & _).
  destruct (take_frame_spec p f (proj1 W) Hf) as (_ & T1 & B1).
  set (q := take_frame p f) in *. destruct Hf as [Hf Hfb]. pose proof (wf_limit p (proj1 W)).
  assert (Hu : is_u64 (f * PAGE_SIZE)) by (unfold is_u64, PAGE_SIZE in *; lia).
  assert (Hd : f * PAGE_SIZE / PAGE_SIZE = f) by (unfold PAGE_SIZE; apply Z.div_mul; lia).
  assert (Hm : f * PAGE_SIZE mod PAGE_SIZE = 0) by (unfold PAGE_SIZE; apply Z.mod_mul; lia).
  destruct (pmm_free_frame_spec q (f * PAGE_SIZE) Wq Hu) as (W2 & T2 & B2).
  set (r := pmm_free_frame q (f * PAGE_SIZE)) in *.
  assert (B : forall g, 0 <= g -> bitmap_test_bit r g = bitmap_test_bit p g).
  { intros g Hg. rewrite B2, B1 by done. unfold freed, in_range. rewrite Hd, Hm.
    destruct (Z.eqb_spec g f) as [->|Hne]; [rewrite Hfb|]; bsplit; done || lia. }
  assert (T : g_total_frames r = g_total_frames p) by congruence.
  split_and!.
  - intros g. unfold frame_free. rewrite T. split; intros [Hg Hb]; (split; [done|]).
    + by rewrite B in Hb by lia.
    + by rewrite B by lia.
  - rewrite (wf_used r (proj1 W2)), (wf_used p (proj1 W)), T. apply countb_ext.
    intros i Hi. apply B. lia.
  - unfold pmm_free_frame at 1. rewrite Hd, Hm.
    destruct (Z.eqb_spec (f * PAGE_SIZE) 0); [done|]. simpl.
    destruct (Z.leb_spec (g_total_frames r) f); [done|]. rewrite B, Hfb by lia. done.
Qed.

Lemma pmm_alloc_free_roundtrip_witness :
  let p := pmm_init demo_boot in let q := (pmm_alloc_frame p).1 in
  g_used_frames (pmm_free_frame q 0x201000) = g_used_frames p.
Proof.
  intros p q. refine (proj1 (proj2 (pmm_alloc_free_roundtrip p q 0x201000 _ _ _))).
  - exact (proj1 (pmm_init_spec demo_boot demo_boot_ok)).
  - vm_compute. reflexivity.
  - lia.
Defined.

(** C3: the bitmap allocator refines a set of free frames: from every state
    reachable from boot by public operations, each operation returns (no loop
    runs on), leads to a reachable state and performs a step of the abstract
    allocator; and the free-frame counter is the size of the free set. *)
Theorem pmm_refines_free_set bi p : boot_ok bi -> pmm_reach bi p ->
  pmm_get_free_frames p =
    countb (fun f => negb (bitmap_test_bit p f)) (Z.to_nat (pmm_get_total_frames p)) /\
  (forall o, op_ok o -> exists q r, pmm_run p o = Some (q, r) /\ pmm_reach bi q /\
     spec_step (g_total_frames p) (frame_free p) o r (frame_free q)).
Proof.
  intros Hb Hr. pose proof (pmm_reach_wf bi p Hb Hr) as W. split.
  - unfold pmm_get_free_frames, pmm_get_total_frames. pose proof (used_bound p (proj1 W)).
    pose proof (wf_limit p (proj1 W)). rewrite u64_id by (unfold is_u64; lia).
    rewrite (wf_used p (proj1 W)).
    assert (Hneg : forall n, countb (fun f => negb (bitmap_test_bit p f)) n =
                        Z.of_nat n - countb (bitmap_test_bit p) n).
    { induction n as [|n IH]; simpl countb; [done|]. rewrite IH.
      destruct (bitmap_test_bit p (Z.of_nat n)); simpl negb; lia. }
    rewrite Hneg. lia.
  - intros o Ho. destruct (pmm_step_refines p o W Ho) as (q & r & E & Wq & T & S).
    exists q, r. split_and!; [done| |done]. by apply (reach_step bi p o q r).
Qed.

Lemma pmm_refines_free_set_witness :
  let p := pmm_init demo_boot in
  exists q r, pmm_run p (AllocFrames 3) = Some (q, r) /\ pmm_reach demo_boot q /\
    spec_step (g_total_frames p) (frame_free p) (AllocFrames 3) r (frame_free q).
Proof.
  intros p. apply (pmm_refines_free_set demo_boot p demo_boot_ok (reach_init demo_boot)).
  simpl. lia.
Defined.

(** ** The frame-allocator interface *)

(** All frames lie in the direct map. *)
Definition pmm_phys_ok (p : Pmm) : Prop := pmm_wf p /\ g_total_frames p <= 2 ^ 35.

#[export] Instance pmm_allocator : FrameAllocator Pmm := {
  fa_ok := pmm_phys_ok;
  fa_used p a := bitmap_test_bit p (a / PAGE_SIZE) = true /\ a / PAGE_SIZE < g_total_frames p;
  fa_alloc := pmm_alloc_frame;
  fa_free := pmm_free_frame
}.

Lemma frame_addr_div a b : frame_addr a -> frame_addr b -> a / PAGE_SIZE = b / PAGE_SIZE -> a = b.
Proof. unfold frame_addr, PAGE_SIZE. intros. divlia. Qed.

Lemma pmm_alloc_facts p : pmm_phys_ok p -> (pmm_alloc_frame p).2 <> 0 ->
  exists f, frame_free p f /\ 0 < f /\ pmm_alloc_frame p = (take_frame p f, f * PAGE_SIZE) /\
    pmm_wf (take_frame p f) /\ frame_addr (f * PAGE_SIZE) /\ f * PAGE_SIZE / PAGE_SIZE = f.
Proof.
  intros [W Hl] Hne. destruct (pmm_alloc_frame_cases p (proj1 W)) as [(f & Hf & E)|[_ E]];
    rewrite E in Hne; [|done].
  destruct (take_frame_run p f W Hf) as (Wq & Hp & _). exists f.
  assert (Hd : f * PAGE_SIZE / PAGE_SIZE = f) by (apply Z.div_mul; unfold PAGE_SIZE; lia).
  split_and!; try done. destruct Hf as [Hf _]. unfold frame_addr, PAGE_SIZE in *.
  split; [lia|]. apply Z.mod_mul. lia.
Qed.

#[export] Instance pmm_allocator_laws : FrameAllocatorLaws Pmm.
Proof.
  constructor; simpl.
  - intros p [W Hl]. destruct (pmm_step_refines p AllocFrame W I) as (q & r & E & Wq & T & _).
    injection E as E. rewrite E. split; [done|]. simpl. rewrite T. done.
  - intros p [W _] H0. destruct (pmm_alloc_frame_cases p (proj1 W)) as [(f & Hf & E)|[_ E]].
    + destruct (take_frame_run p f W Hf) as (_ & Hp & _). rewrite E in H0. simpl in H0.
      unfold PAGE_SIZE in H0. lia.
    + by rewrite E.
  - intros p W Hne. destruct (pmm_alloc_facts p W Hne) as (f & _ & _ & E & _ & Hf & _).
    by rewrite E.
  - intros p W Hne. destruct (pmm_alloc_facts p W Hne) as (f & [Hr Hb] & _ & E & _ & _ & Hd).
    rewrite E. simpl. rewrite Hd, Hb. intros [? _]. done.
  - intros p a W Hne Ha.
    destruct (pmm_alloc_facts p W Hne) as (f & Hf & _ & E & _ & Hfa & Hd).
    destruct (take_frame_spec p f (proj1 (proj1 W)) Hf) as (_ & T & B). rewrite E. simpl.
    assert (0 <= a / PAGE_SIZE) by (unfold frame_addr, PAGE_SIZE in *; divlia).
    rewrite B by done. destruct (Z.eqb_spec (a / PAGE_SIZE) f) as [Ea|Ea]; simpl.
    + split; [left; apply frame_addr_div; congruence|]. intros _.
      split; [done|]. destruct Hf as [Hf _]. lia.
    + split; [auto|]. intros [->|H1]; [congruence|done].
  - intros p a [W Hl] Ha. destruct (pmm_free_frame_spec p a W Ha) as (W1 & T1 & _).
    split; [done|]. by rewrite T1.
  - intros p a b [W Hl] Ha Hb. destruct (pmm_free_frame_spec p a W Ha) as (W1 & T1 & B1).
    assert (0 < b / PAGE_SIZE /\ b mod PAGE_SIZE = 0) as [Hb0 Hbm]
      by (unfold frame_addr, PAGE_SIZE in *; split; [divlia|apply Hb]).
    rewrite T1, B1 by lia. unfold freed, in_range.
    destruct (Z.eq_dec a b) as [->|Hne].
    + destruct (Z.eqb_spec b 0); [unfold frame_addr in *; lia|]. rewrite Hbm. simpl.
      split; [|intros [_ ?]; done]. bsplit; intros [? ?]; done || lia.
    + assert (Hab : a mod PAGE_SIZE = 0 -> a / PAGE_SIZE <> b / PAGE_SIZE)
        by (unfold PAGE_SIZE, frame_addr in *; intros; divlia).
      assert (negb (negb (a =? 0) && (a mod PAGE_SIZE =? 0) &&
        ((a / PAGE_SIZE <=? b / PAGE_SIZE) &&
         (b / PAGE_SIZE <? Z.min (a / PAGE_SIZE + 1) (g_total_frames p)))) = true) as ->.
      { bsplit; try done; lia. }
      simpl. tauto.
Qed.
