(* ===== verification/PageTable.v ===== *)
(** * Page tables (src/kernel/mem/vmm.c, first half)

    Four-level x86-64 page tables kept in physical frames, which the kernel
    reaches through the direct map at [HHDM_BASE].  The state is the memory
    and the frame allocator, known only through its interface; table
    pointers are direct-map addresses, as in the code.  TLB maintenance
    ([vmmInvlpg], the CR3 load of [vmmSwitchPml4]) has no counterpart: the
    model has no TLB. *)

From Stdlib Require Import ZArith Lia Bool.
From stdpp Require Import base list gmap.
From S2P Require Import Prelude Mem Frames.

Definition VMM_FLAG_PRESENT : Z := 2 ^ 0.
Definition VMM_FLAG_WRITABLE : Z := 2 ^ 1.
Definition VMM_FLAG_USER : Z := 2 ^ 2.
Definition VMM_FLAG_HUGE : Z := 2 ^ 7.
Definition VMM_FLAG_NO_EXECUTE : Z := 2 ^ 63.
Definition PTE_ADDR_MASK : Z := 0x000FFFFFFFFFF000.

Section PageTable.
Context {S : Type} `{FrameAllocator S}.

Record Vm := mkVm { vm_mem : mem; vm_fa : S }.

(** ** Operations *)

Definition getOrAllocTable (st : Vm) (entry flags : Z) : Vm * Z :=
  let m := vm_mem st in
  if rd64 m entry &? VMM_FLAG_PRESENT then
    let m1 := if flags &? VMM_FLAG_USER
              then wr64 m entry (Z.lor (rd64 m entry) VMM_FLAG_USER) else m in
    let m2 := if flags &? VMM_FLAG_WRITABLE
              then wr64 m1 entry (Z.lor (rd64 m1 entry) VMM_FLAG_WRITABLE) else m1 in
    (mkVm m2 (vm_fa st), u64 (Z.land (rd64 m2 entry) PTE_ADDR_MASK + HHDM_BASE))
  else
    let '(fa1, frame) := fa_alloc (vm_fa st) in
    if frame =? 0 then (mkVm m fa1, 0)
    else
      let table := u64 (frame + HHDM_BASE) in
      let m1 := zfor 0 512 (fun i m => wr64 m (table + 8 * i) 0) m in
      let entryFlags0 := Z.lor VMM_FLAG_PRESENT VMM_FLAG_WRITABLE in
      let entryFlags := if flags &? VMM_FLAG_USER
                        then Z.lor entryFlags0 VMM_FLAG_USER else entryFlags0 in
      (mkVm (wr64 m1 entry (Z.lor frame entryFlags)) fa1, table).

(** [(virt >> shift) & 0x1FF] *)
Definition tidx (virt shift : Z) : Z := Z.land (Z.shiftr virt shift) 0x1FF.

Definition vmmMapPage (st : Vm) (pml4 virt phys flags : Z) : Vm * Z :=
  let virt := page_down virt in
  let phys := page_down phys in
  let '(st1, pdpt) := getOrAllocTable st (pml4 + 8 * tidx virt 39) flags in
  if pdpt =? 0 then (st1, -1)
  else
    let '(st2, pd) := getOrAllocTable st1 (pdpt + 8 * tidx virt 30) flags in
    if pd =? 0 then (st2, -1)
    else
      let '(st3, pt) := getOrAllocTable st2 (pd + 8 * tidx virt 21) flags in
      if pt =? 0 then (st3, -1)
      else
        (mkVm (wr64 (vm_mem st3) (pt + 8 * tidx virt 12)
           (Z.lor (Z.lor (Z.land phys PTE_ADDR_MASK) flags) VMM_FLAG_PRESENT))
           (vm_fa st3), 0).

Definition isTableEmpty (m : mem) (table : Z) : bool :=
  forallb (fun i => negb (rd64 m (table + 8 * i) &? VMM_FLAG_PRESENT)) (seqZ 0 512).

Definition vmmUnmapPage (st : Vm) (pml4 virt : Z) : Vm * Z :=
  let virt := page_down virt in
  let pml4Idx := tidx virt 39 in
  let pdptIdx := tidx virt 30 in
  let pdIdx := tidx virt 21 in
  let ptIdx := tidx virt 12 in
  let m := vm_mem st in
  let fa := vm_fa st in
  let e4 := rd64 m (pml4 + 8 * pml4Idx) in
  if negb (e4 &? VMM_FLAG_PRESENT) then (st, 0)
  else
    let pdptPhys := Z.land e4 PTE_ADDR_MASK in
    let pdpt := u64 (pdptPhys + HHDM_BASE) in
    let e3 := rd64 m (pdpt + 8 * pdptIdx) in
    if negb (e3 &? VMM_FLAG_PRESENT) then (st, 0)
    else if e3 &? VMM_FLAG_HUGE then (st, 0)
    else
      let pdPhys := Z.land e3 PTE_ADDR_MASK in
      let pd := u64 (pdPhys + HHDM_BASE) in
      let e2 := rd64 m (pd + 8 * pdIdx) in
      if negb (e2 &? VMM_FLAG_PRESENT) then (st, 0)
      else if e2 &? VMM_FLAG_HUGE then (mkVm (wr64 m (pd + 8 * pdIdx) 0) fa, 0)
      else
        let ptPhys := Z.land e2 PTE_ADDR_MASK in
        let pt := u64 (ptPhys + HHDM_BASE) in
        let m1 := wr64 m (pt + 8 * ptIdx) 0 in
        if isTableEmpty m1 pt then
          let m2 := wr64 m1 (pd + 8 * pdIdx) 0 in
          let fa2 := fa_free fa ptPhys in
          if isTableEmpty m2 pd then
            let m3 := wr64 m2 (pdpt + 8 * pdptIdx) 0 in
            let fa3 := fa_free fa2 pdPhys in
            if (pml4Idx <? 256) && isTableEmpty m3 pdpt then
              (mkVm (wr64 m3 (pml4 + 8 * pml4Idx) 0) (fa_free fa3 pdptPhys), 0)
            else (mkVm m3 fa3, 0)
          else (mkVm m2 fa2, 0)
        else (mkVm m1 fa, 0).

(** The page loops of the range operations: [n] pages from [offset]. *)
Fixpoint map_pages (n : nat) (offset : Z) (st : Vm) (pml4 virt phys flags : Z) : Vm * Z :=
  match n with
  | O => (st, 0)
  | Datatypes.S k =>
      let '(st1, r) := vmmMapPage st pml4 (u64 (virt + offset)) (u64 (phys + offset)) flags in
      if negb (r =? 0) then (st1, -1)
      else map_pages k (offset + PAGE_SIZE) st1 pml4 virt phys flags
  end.

Definition vmmMapRange (st : Vm) (pml4 virtStart physStart size flags : Z) : Vm * Z :=
  map_pages (Z.to_nat (page_up size / PAGE_SIZE)) 0 st pml4 virtStart physStart flags.

Fixpoint unmap_pages (n : nat) (offset : Z) (st : Vm) (pml4 virt : Z) : Vm :=
  match n with
  | O => st
  | Datatypes.S k =>
      unmap_pages k (offset + PAGE_SIZE) (vmmUnmapPage st pml4 (u64 (virt + offset))).1 pml4 virt
  end.

Definition vmmUnmapRange (st : Vm) (pml4 virtStart size : Z) : Vm * Z :=
  (unmap_pages (Z.to_nat (page_up size / PAGE_SIZE)) 0 st pml4 virtStart, 0).

Definition vmmVirtToPhys (m : mem) (pml4 virt : Z) : Z :=
  let e4 := rd64 m (pml4 + 8 * tidx virt 39) in
  if negb (e4 &? VMM_FLAG_PRESENT) then 0
  else
    let pdpt := u64 (Z.land e4 PTE_ADDR_MASK + HHDM_BASE) in
    let e3 := rd64 m (pdpt + 8 * tidx virt 30) in
    if negb (e3 &? VMM_FLAG_PRESENT) then 0
    else if e3 &? VMM_FLAG_HUGE
    then Z.lor (Z.land e3 0x000FFFFFC0000000) (Z.land virt 0x3FFFFFFF)
    else
      let pd := u64 (Z.land e3 PTE_ADDR_MASK + HHDM_BASE) in
      let e2 := rd64 m (pd + 8 * tidx virt 21) in
      if negb (e2 &? VMM_FLAG_PRESENT) then 0
      else if e2 &? VMM_FLAG_HUGE
      then Z.lor (Z.land e2 0x000FFFFFFFE00000) (Z.land virt 0x1FFFFF)
      else
        let pt := u64 (Z.land e2 PTE_ADDR_MASK + HHDM_BASE) in
        let e1 := rd64 m (pt + 8 * tidx virt 12) in
        if negb (e1 &? VMM_FLAG_PRESENT) then 0
        else Z.lor (Z.land e1 PTE_ADDR_MASK) (Z.land virt (PAGE_SIZE - 1)).

(** A new address space: an empty user half and the kernel half of
    [gKernelPml4].  Returns the new table, 0 for NULL. *)
Definition vmmCreateAddressSpace (st : Vm) (gKernelPml4 : Z) : Vm * Z :=
  let '(fa1, frame) := fa_alloc (vm_fa st) in
  if frame =? 0 then (mkVm (vm_mem st) fa1, 0)
  else
    let pml4 := u64 (frame + HHDM_BASE) in
    let m1 := zfor 0 256 (fun i m => wr64 m (pml4 + 8 * i) 0) (vm_mem st) in
    let m2 := zfor 256 512
                (fun i m => wr64 m (pml4 + 8 * i) (rd64 m (gKernelPml4 + 8 * i))) m1 in
    (mkVm m2 fa1, pml4).

(** [vmmInit]: the kernel's own table, with the kernel half of the boot table. *)
Definition vmmInit (st : Vm) (boot_pml4 : Z) : Vm * Z :=
  let '(fa1, frame) := fa_alloc (vm_fa st) in
  if frame =? 0 then (mkVm (vm_mem st) fa1, 0)
  else
    let gKernelPml4 := u64 (frame + HHDM_BASE) in
    let m1 := zfor 0 512 (fun i m => wr64 m (gKernelPml4 + 8 * i) 0) (vm_mem st) in
    let m2 := zfor 256 512
                (fun i m => wr64 m (gKernelPml4 + 8 * i) (rd64 m (boot_pml4 + 8 * i))) m1 in
    (mkVm m2 fa1, gKernelPml4).

(** The three nested loops of [vmmDestroyAddressSpace], innermost first. *)
Definition destroy_pt (m : mem) (ptPhys : Z) (fa : S) : S :=
  let pt := u64 (ptPhys + HHDM_BASE) in
  let fa1 := zfor 0 512 (fun i fa =>
    let e := rd64 m (pt + 8 * i) in
    if e &? VMM_FLAG_PRESENT then fa_free fa (Z.land e PTE_ADDR_MASK) else fa) fa in
  fa_free fa1 ptPhys.

Definition destroy_pd (m : mem) (pdPhys : Z) (fa : S) : S :=
  let pd := u64 (pdPhys + HHDM_BASE) in
  let fa1 := zfor 0 512 (fun i fa =>
    let e := rd64 m (pd + 8 * i) in
    if negb (e &? VMM_FLAG_PRESENT) || (e &? VMM_FLAG_HUGE) then fa
    else destroy_pt m (Z.land e PTE_ADDR_MASK) fa) fa in
  fa_free fa1 pdPhys.

Definition destroy_pdpt (m : mem) (pdptPhys : Z) (fa : S) : S :=
  let pdpt := u64 (pdptPhys + HHDM_BASE) in
  let fa1 := zfor 0 512 (fun i fa =>
    let e := rd64 m (pdpt + 8 * i) in
    if negb (e &? VMM_FLAG_PRESENT) || (e &? VMM_FLAG_HUGE) then fa
    else destroy_pd m (Z.land e PTE_ADDR_MASK) fa) fa in
  fa_free fa1 pdptPhys.

Definition vmmDestroyAddressSpace (st : Vm) (gKernelPml4 pml4 : Z) : Vm :=
  if (pml4 =? 0) || (pml4 =? gKernelPml4) then st
  else
    let m := vm_mem st in
    let fa1 := zfor 0 256 (fun i fa =>
      let e := rd64 m (pml4 + 8 * i) in
      if negb (e &? VMM_FLAG_PRESENT) then fa
      else destroy_pdpt m (Z.land e PTE_ADDR_MASK) fa) (vm_fa st) in
    mkVm m (fa_free fa1 (u64 (pml4 - HHDM_BASE))).
End PageTable.
Arguments Vm : clear implicits.

(** ** Entries *)

Definition nextf (e : Z) : Z := Z.land e PTE_ADDR_MASK.
Definition present (e : Z) : bool := e &? VMM_FLAG_PRESENT.
Definition huge (e : Z) : bool := e &? VMM_FLAG_HUGE.
Definition tbl (f : Z) : Z := u64 (f + HHDM_BASE).
Definition entry (m : mem) (f i : Z) : Z := rd64 m (tbl f + 8 * i).

Lemma mask_bit n : 0 <= n -> Z.testbit PTE_ADDR_MASK n = (12 <=? n) && (n <? 52).
Proof.
  intros Hn. change PTE_ADDR_MASK with (Z.ldiff (Z.ones 52) (Z.ones 12)).
  rewrite Z.ldiff_spec, !Z.testbit_ones_nonneg by lia.
  destruct (Z.ltb_spec n 52), (Z.ltb_spec n 12), (Z.leb_spec 12 n); done || lia.
Qed.

Lemma present_bit e : present e = Z.testbit e 0.
Proof. apply has_testbit. lia. Qed.

Lemma huge_bit e : huge e = Z.testbit e 7.
Proof. apply has_testbit. lia. Qed.

Lemma nextf_range e : 0 <= nextf e < 2 ^ 52 /\ nextf e mod 4096 = 0.
Proof.
  unfold nextf. split.
  - pose proof (land_le_r e PTE_ADDR_MASK ltac:(done)).
    assert (0 <= Z.land e PTE_ADDR_MASK) by (apply Z.land_nonneg; right; done).
    unfold PTE_ADDR_MASK in *. lia.
  - change 4096 with (2 ^ 12). rewrite <- Z.land_ones by lia.
    apply Z.bits_inj'. intros n Hn.
    rewrite !Z.land_spec, mask_bit, Z.testbit_ones_nonneg, Z.testbit_0_l by lia.
    destruct (Z.leb_spec 12 n), (Z.ltb_spec n 12); rewrite ?andb_false_r; done || lia.
Qed.

(** Equality of next-table fields, bit by bit. *)
Lemma nextf_ext a b :
  (forall n, 12 <= n < 52 -> Z.testbit a n = Z.testbit b n) -> nextf a = nextf b.
Proof.
  intros Hab. apply Z.bits_inj'. intros n Hn. unfold nextf.
  rewrite !Z.land_spec, mask_bit by lia.
  destruct (Z.leb_spec 12 n), (Z.ltb_spec n 52); rewrite ?andb_false_r; try done.
  by rewrite Hab by lia.
Qed.

Lemma frame_low_bit f n : f mod 4096 = 0 -> 0 <= n < 12 -> Z.testbit f n = false.
Proof.
  intros Hf Hn. rewrite <- (Z.mod_pow2_bits_low f 12 n) by lia.
  change (2 ^ 12) with 4096. rewrite Hf. apply Z.testbit_0_l.
Qed.

Lemma nextf_frame f : 0 <= f < 2 ^ 52 -> f mod 4096 = 0 -> nextf f = f.
Proof.
  intros Hr Hm. apply Z.bits_inj'. intros n Hn. unfold nextf.
  rewrite Z.land_spec, mask_bit by lia.
  destruct (Z.leb_spec 12 n), (Z.ltb_spec n 52); rewrite ?andb_false_r, ?andb_true_r; try done.
  - symmetry. by apply (testbit_above f n 52).
  - symmetry. apply frame_low_bit; [done|lia].
  - lia.
Qed.

(** Setting flag bits outside the address field. *)
Lemma nextf_lor_flags e fl : nextf fl = 0 -> nextf (Z.lor e fl) = nextf e.
Proof.
  intros H0. apply nextf_ext. intros n Hn. rewrite Z.lor_spec.
  assert (Hb : Z.testbit (nextf fl) n = false) by (rewrite H0; apply Z.testbit_0_l).
  unfold nextf in Hb. rewrite Z.land_spec, mask_bit in Hb by lia.
  destruct (Z.leb_spec 12 n), (Z.ltb_spec n 52); try lia.
  simpl in Hb. rewrite andb_true_r in Hb. rewrite Hb. apply orb_false_r.
Qed.

Lemma tbl_aligned f : 0 <= f -> f mod 4096 = 0 -> is_u64 (tbl f) /\ tbl f mod 4096 = 0.
Proof.
  intros Hp Hf. split; [apply u64_range|]. unfold tbl, u64, HHDM_BASE.
  change 4096 with (2 ^ 12). rewrite Z.mod_mod_divide by (by exists (2 ^ 52)).
  change (2 ^ 12) with 4096. divlia.
Qed.

Lemma tbl_inj f g : 0 <= f < 2 ^ 52 -> 0 <= g < 2 ^ 52 -> tbl f = tbl g -> f = g.
Proof. unfold tbl, u64, HHDM_BASE. intros. divlia. Qed.

(** Frames, or the zero frame, that a table pointer can denote. *)
Definition table_frame (f : Z) : Prop := 0 <= f < 2 ^ 52 /\ f mod 4096 = 0.

Lemma frame_addr_table f : frame_addr f -> table_frame f.
Proof. unfold frame_addr, table_frame. intuition lia. Qed.
Lemma nextf_table e : table_frame (nextf e).
Proof. apply nextf_range. Qed.
#[export] Hint Resolve frame_addr_table nextf_table : nova.

Lemma entry_wr m f i v g j : table_frame f -> table_frame g ->
  0 <= i < 512 -> 0 <= j < 512 -> is_u64 v ->
  entry (wr64 m (tbl f + 8 * i) v) g j =
  if (g =? f) && (j =? i) then v else entry m g j.
Proof.
  intros [Hf Hfm] [Hg Hgm] Hi Hj Hv. unfold entry.
  destruct (tbl_aligned f ltac:(lia) Hfm) as [_ Hta], (tbl_aligned g ltac:(lia) Hgm) as [_ Htb].
  destruct (Z.eqb_spec g f) as [->|Hne]; [destruct (Z.eqb_spec j i) as [->|Hne]|]; simpl.
  - by apply rd64_wr64_same.
  - apply rd64_wr64_ne. lia.
  - apply rd64_wr64_ne.
    assert (tbl g <> tbl f) by (intros E; apply Hne, tbl_inj; done).
    divlia.
Qed.

(** Zeroing entries [0, k) of a table. *)
Lemma entry_zero_loop m f k g j : table_frame f -> table_frame g ->
  0 <= k <= 512 -> 0 <= j < 512 ->
  entry (zfor 0 k (fun i m => wr64 m (tbl f + 8 * i) 0) m) g j =
  if (g =? f) && (j <? k) then 0 else entry m g j.
Proof.
  intros Hf Hg Hk Hj. revert j Hj.
  apply (zfor_ind (fun i m' => forall j, 0 <= j < 512 ->
    entry m' g j = if (g =? f) && (j <? i) then 0 else entry m g j)); [lia| |].
  - intros j Hj. destruct (Z.ltb_spec j 0); [lia|]. by rewrite andb_false_r.
  - intros i m' Hi IH j Hj. rewrite entry_wr by (done || lia || (unfold is_u64; lia)).
    rewrite IH by done. destruct (Z.eqb_spec g f); simpl; [|done].
    destruct (Z.eqb_spec j i), (Z.ltb_spec j i), (Z.ltb_spec j (i + 1)); done || lia.
Qed.

(** Copying entries [256, 512) from table [g] of a frame into table [f]. *)
Lemma entry_copy_loop m f g h j : table_frame f -> table_frame g -> table_frame h ->
  f <> g -> 0 <= j < 512 ->
  entry (zfor 256 512 (fun i m => wr64 m (tbl f + 8 * i) (rd64 m (tbl g + 8 * i))) m) h j =
  if (h =? f) && (256 <=? j) then entry m g j else entry m h j.
Proof.
  intros Hf Hg Hh Hne Hj.
  assert (Hall : forall k, 256 <= k <= 512 -> forall h' j', table_frame h' -> 0 <= j' < 512 ->
    entry (zfor 256 k (fun i m => wr64 m (tbl f + 8 * i) (rd64 m (tbl g + 8 * i))) m) h' j' =
    if (h' =? f) && (256 <=? j') && (j' <? k) then entry m g j' else entry m h' j').
  { intros k Hk. apply (zfor_ind (fun i m' => forall h' j', table_frame h' -> 0 <= j' < 512 ->
      entry m' h' j' = if (h' =? f) && (256 <=? j') && (j' <? i)
                       then entry m g j' else entry m h' j')); [lia| |].
    - intros h' j' Hh' Hj'. destruct (Z.leb_spec 256 j'), (Z.ltb_spec j' 256);
        rewrite ?andb_false_r; done || lia.
    - intros i m' Hi IH h' j' Hh' Hj'.
      fold (entry m' g i). rewrite (IH g i) by (done || lia).
      destruct (Z.eqb_spec g f); [congruence|]. simpl.
      rewrite entry_wr by (done || lia || apply rd64_range). rewrite IH by done.
      destruct (Z.eqb_spec h' f); simpl; [|done].
      destruct (Z.eqb_spec j' i), (Z.leb_spec 256 j'), (Z.ltb_spec j' i), (Z.ltb_spec j' (i + 1));
        simpl; subst; done || lia. }
  rewrite Hall by (done || lia).
  destruct (Z.ltb_spec j 512); [by rewrite andb_true_r|lia].
Qed.
