(* ===== verification/PtWalk.v ===== *)
(** * Page-table walks: well-formed trees and the effect of one entry update

    [walk] follows table entries along a path of indices, [xl] is the
    translation a path of indices denotes.  A page table is well formed when
    its tables form a tree of allocated frames.  The four ways the kernel
    updates an entry (adding flags, linking a new table, unlinking an empty
    one, writing a leaf) are analysed once each here. *)

From Stdlib Require Import ZArith Lia Bool.
From stdpp Require Import base list gmap.
From S2P Require Import Prelude Mem Frames PageTable.

Fixpoint walk (m : mem) (f : Z) (p : list Z) : option Z :=
  match p with
  | [] => Some f
  | i :: r =>
      let e := entry m f i in
      if present e && negb (huge e) then walk m (nextf e) r else None
  end.

(** The entry that ends the translation of a path and the number of indices
    left: 0 for a 4 KiB page, 1 for a 2 MiB page, 2 for a 1 GiB page. *)
Fixpoint xl (m : mem) (f : Z) (p : list Z) : option (Z * nat) :=
  match p with
  | [] => None
  | i :: r =>
      let e := entry m f i in
      if negb (present e) then None
      else match r with
           | [] => Some (e, O)
           | _ => if huge e then Some (e, length r) else xl m (nextf e) r
           end
  end.

Definition idx_ok (p : list Z) : Prop := Forall (fun i => 0 <= i < 512) p.

Definition vpath (v : Z) : list Z := [tidx v 39; tidx v 30; tidx v 21; tidx v 12].

Lemma tidx_range v s : 0 <= tidx v s < 512.
Proof.
  unfold tidx. change 0x1FF with (Z.ones 9). rewrite Z.land_ones by lia.
  apply (Z.mod_pos_bound _ 512). lia.
Qed.
#[export] Hint Resolve tidx_range : nova.

Lemma vpath_ok v : idx_ok (vpath v).
Proof. repeat constructor; apply tidx_range. Qed.

(** What an [xl] result means for the address [v]. *)
Definition phys_of (v : Z) (r : option (Z * nat)) : Z :=
  match r with
  | Some (e, 0%nat) => Z.lor (Z.land e PTE_ADDR_MASK) (Z.land v (PAGE_SIZE - 1))
  | Some (e, 1%nat) => Z.lor (Z.land e 0x000FFFFFFFE00000) (Z.land v 0x1FFFFF)
  | Some (e, 2%nat) => Z.lor (Z.land e 0x000FFFFFC0000000) (Z.land v 0x3FFFFFFF)
  | _ => 0
  end.

Lemma vtp_xl m root v :
  (present (entry m root (tidx v 39)) = true -> huge (entry m root (tidx v 39)) = false) ->
  vmmVirtToPhys m (tbl root) v = phys_of v (xl m root (vpath v)).
Proof.
  unfold vmmVirtToPhys, vpath. simpl xl. fold (entry m root (tidx v 39)).
  unfold present, huge. intros Hh.
  destruct (entry m root (tidx v 39) &? VMM_FLAG_PRESENT); simpl; [|done].
  rewrite Hh by done. fold (nextf (entry m root (tidx v 39))).
  fold (tbl (nextf (entry m root (tidx v 39)))).
  set (g := nextf _). fold (entry m g (tidx v 30)).
  destruct (entry m g (tidx v 30) &? VMM_FLAG_PRESENT); simpl; [|done].
  destruct (entry m g (tidx v 30) &? VMM_FLAG_HUGE); simpl; [done|].
  fold (nextf (entry m g (tidx v 30))). fold (tbl (nextf (entry m g (tidx v 30)))).
  set (h := nextf (entry m g _)). fold (entry m h (tidx v 21)).
  destruct (entry m h (tidx v 21) &? VMM_FLAG_PRESENT); simpl; [|done].
  destruct (entry m h (tidx v 21) &? VMM_FLAG_HUGE); simpl; [done|].
  fold (nextf (entry m h (tidx v 21))). fold (tbl (nextf (entry m h (tidx v 21)))).
  set (k := nextf (entry m h _)). fold (entry m k (tidx v 12)).
  destruct (entry m k (tidx v 12) &? VMM_FLAG_PRESENT); done.
Qed.

(** ** Generic facts about walks *)
Lemma walk_app m p : forall f q, walk m f (p ++ q) = walk m f p ≫= fun g => walk m g q.
Proof.
  induction p as [|i p IH]; intros f q; simpl; [done|].
  destruct (present _ && _); [apply IH|done].
Qed.

Lemma walk_snoc m f p g j : walk m f p = Some g ->
  present (entry m g j) = true -> huge (entry m g j) = false ->
  walk m f (p ++ [j]) = Some (nextf (entry m g j)).
Proof. intros Hw Hp Hh. rewrite walk_app, Hw. simpl. by rewrite Hp, Hh. Qed.

Lemma xl_app m p : forall f g q, walk m f p = Some g -> q <> [] -> xl m f (p ++ q) = xl m g q.
Proof.
  induction p as [|i p IH]; intros f g q Hw Hq; simpl in *; [congruence|].
  destruct (present (entry m f i)), (huge (entry m f i)) eqn:Eh; simpl in *; try done.
  destruct (p ++ q) eqn:E; [by destruct p, q|]. rewrite <- E. by apply IH.
Qed.

Lemma idx_ok_app p q : idx_ok (p ++ q) <-> idx_ok p /\ idx_ok q.
Proof. apply Forall_app. Qed.

(** Memory [m'] agrees with [m] on every entry of the tree, except entry [j]
    of the table at path [p]. *)
Definition agree (m m' : mem) (root : Z) (p : list Z) (j : Z) : Prop :=
  forall c f i, idx_ok c -> (length c <= 3)%nat -> walk m root c = Some f ->
    0 <= i < 512 -> (c, i) <> (p, j) -> entry m' f i = entry m f i.

(** The path [q] followed from the table at [c] reads entry [j] of [p]. *)
Definition visits (c q p : list Z) (j : Z) : Prop := exists q1 q2, q = q1 ++ j :: q2 /\ p = c ++ q1.

Lemma visits_root q p j : visits [] q p j <-> exists r, q = p ++ j :: r.
Proof.
  split.
  - intros (q1 & q2 & -> & ->). eauto.
  - intros [r ->]. exists p, r. done.
Qed.

Lemma visits_dec q p j : (exists r, q = p ++ j :: r) \/ ~ visits [] q p j.
Proof.
  destruct (decide ((p ++ [j]) `prefix_of` q)) as [[r Hr]|Hp].
  - left. exists r. by rewrite Hr, <- app_assoc.
  - right. rewrite visits_root. intros [r ->]. apply Hp. exists r. by rewrite <- app_assoc.
Qed.

Lemma visits_below q p j r : ~ visits (p ++ j :: r) q p j.
Proof.
  intros (q1 & q2 & _ & E). apply (f_equal length) in E.
  rewrite !length_app in E. simpl in E. lia.
Qed.

Lemma not_visits_cons c i q p j : ~ visits c (i :: q) p j ->
  (c, i) <> (p, j) /\ ~ visits (c ++ [i]) q p j.
Proof.
  intros Hn. split.
  - intros E. simplify_eq. apply Hn. exists [], q. split; [done|]. by rewrite app_nil_r.
  - intros (q1 & q2 & -> & ->). apply Hn. exists (i :: q1), q2. rewrite <- app_assoc. done.
Qed.

Section Agree.
Context (m m' : mem) (root : Z) (p : list Z) (j : Z).
Hypothesis Hag : agree m m' root p j.

Lemma walk_agree q : forall c f, walk m root c = Some f -> idx_ok (c ++ q) ->
  (length (c ++ q) <= 4)%nat -> ~ visits c q p j -> walk m' f q = walk m f q.
Proof.
  induction q as [|i q IH]; intros c f Hw Hok Hl Hv; simpl; [done|].
  apply not_visits_cons in Hv as [Hne Hv]. rewrite length_app in Hl. simpl in Hl.
  apply idx_ok_app in Hok as [Hc Hq]. inversion Hq as [|? ? Hi Hq']; subst.
  rewrite (Hag c f i) by (done || lia).
  destruct (present (entry m f i)) eqn:Ep, (huge (entry m f i)) eqn:Eh; simpl; try done.
  apply (IH (c ++ [i])).
  - by apply walk_snoc.
  - rewrite <- app_assoc. apply idx_ok_app. done.
  - rewrite !length_app. simpl. lia.
  - done.
Qed.

Lemma xl_agree q : forall c f, walk m root c = Some f -> idx_ok (c ++ q) ->
  (length (c ++ q) <= 4)%nat -> ~ visits c q p j -> xl m' f q = xl m f q.
Proof.
  induction q as [|i q IH]; intros c f Hw Hok Hl Hv; simpl; [done|].
  apply not_visits_cons in Hv as [Hne Hv]. rewrite length_app in Hl. simpl in Hl.
  apply idx_ok_app in Hok as [Hc Hq]. inversion Hq as [|? ? Hi Hq']; subst.
  rewrite (Hag c f i) by (done || lia).
  destruct (present (entry m f i)) eqn:Ep; simpl; [|done]. destruct q as [|k q]; [done|].
  destruct (huge (entry m f i)) eqn:Eh; [done|]. apply (IH (c ++ [i])).
  - by apply walk_snoc.
  - rewrite <- app_assoc. apply idx_ok_app. done.
  - rewrite !length_app. simpl in *. lia.
  - done.
Qed.

(** The table at [p] itself is still reached. *)
Lemma walk_to_point g : walk m root p = Some g -> idx_ok p -> (length p <= 3)%nat ->
  walk m' root p = Some g.
Proof.
  intros Hw Hp Hl. rewrite <- Hw. apply (walk_agree p []); [done|done|simpl; lia|].
  rewrite visits_root. intros [r E]. apply (f_equal length) in E.
  rewrite length_app in E. simpl in E. lia.
Qed.
End Agree.

(** ** Effect of one entry update on walks and translations *)
Section Update.
Context (m m' : mem) (root : Z) (p : list Z) (j g : Z).
Hypothesis Hag : agree m m' root p j.
Hypothesis Hw : walk m root p = Some g.
Hypothesis Hp : idx_ok p.
Hypothesis Hj : 0 <= j < 512.

Let e := entry m g j.
Let e' := entry m' g j.

Lemma walk_off q : idx_ok q -> (length q <= 3)%nat -> ~ visits [] q p j ->
  walk m' root q = walk m root q.
Proof. intros Hq Hl Hv. apply (walk_agree m m' root p j Hag q []); simpl; done || lia. Qed.

Lemma xl_off q : idx_ok q -> (length q <= 4)%nat -> ~ visits [] q p j ->
  xl m' root q = xl m root q.
Proof. intros Hq Hl Hv. apply (xl_agree m m' root p j Hag q []); simpl; done || lia. Qed.

Lemma path_ext r : idx_ok (p ++ j :: r) -> idx_ok ((p ++ [j]) ++ r).
Proof. by rewrite <- app_assoc. Qed.

(** *** Adding flags to an intermediate entry *)
Section SameNext.
Hypothesis Hl : (length p <= 2)%nat.
Hypothesis Hp1 : present e = true. Hypothesis Hh1 : huge e = false.
Hypothesis Hp2 : present e' = true. Hypothesis Hh2 : huge e' = false.
Hypothesis Hnext : nextf e' = nextf e.

Lemma same_next_walk q : idx_ok q -> (length q <= 3)%nat -> walk m' root q = walk m root q.
Proof.
  intros Hq Hlq. destruct (visits_dec q p j) as [[r ->]|Hv]; [|by apply walk_off].
  rewrite !walk_app, Hw, (walk_to_point m m' root p j Hag g) by (done || lia). simpl.
  fold e e'. rewrite Hp1, Hh1, Hp2, Hh2, Hnext. simpl.
  apply (walk_agree m m' root p j Hag r (p ++ [j])).
  - by apply walk_snoc.
  - by apply path_ext.
  - rewrite !length_app in *. simpl in *. lia.
  - apply visits_below.
Qed.

Lemma same_next_xl q : idx_ok q -> (length p + 1 < length q <= 4)%nat ->
  xl m' root q = xl m root q.
Proof.
  intros Hq Hlq. destruct (visits_dec q p j) as [[r ->]|Hv]; [|apply xl_off; done || lia].
  assert (r <> []) by (rewrite length_app in Hlq; simpl in Hlq; destruct r; simpl in *; [lia|done]).
  rewrite (xl_app m p root g), (xl_app m' p root g);
    [|by apply (walk_to_point m m' root p j Hag g); [..|lia]|done..].
  simpl. fold e e'. rewrite Hp1, Hh1, Hp2, Hh2, Hnext. simpl. destruct r; [done|].
  apply (xl_agree m m' root p j Hag _ (p ++ [j])).
  - by apply walk_snoc.
  - by apply path_ext.
  - rewrite !length_app in *. simpl in *. lia.
  - apply visits_below.
Qed.
End SameNext.

(** *** Linking a fresh empty table *)
Section NewTable.
Hypothesis Hl : (length p <= 2)%nat.
Hypothesis Hold : present e = false.
Hypothesis Hp2 : present e' = true. Hypothesis Hh2 : huge e' = false.
Hypothesis Hempty : forall i, 0 <= i < 512 -> present (entry m' (nextf e') i) = false.

Lemma new_table_walk q f : idx_ok q -> (length q <= 3)%nat -> walk m' root q = Some f ->
  (q = p ++ [j] /\ f = nextf e') \/ walk m root q = Some f.
Proof.
  intros Hq Hlq Hwq. destruct (visits_dec q p j) as [[r ->]|Hv].
  - left. rewrite walk_app, (walk_to_point m m' root p j Hag g) in Hwq by (done || lia).
    simpl in Hwq. fold e' in Hwq. rewrite Hp2, Hh2 in Hwq. simpl in Hwq.
    destruct r as [|i r]; simpl in Hwq; [by simplify_eq|].
    apply idx_ok_app in Hq as [_ Hq]. inversion Hq as [|? ? _ Hr]; subst. inversion Hr; subst.
    rewrite Hempty in Hwq by done. done.
  - right. rewrite <- Hwq. symmetry. apply walk_off; done.
Qed.

Lemma new_table_walk_old q f : idx_ok q -> (length q <= 3)%nat -> walk m root q = Some f ->
  walk m' root q = Some f.
Proof.
  intros Hq Hlq Hwq. destruct (visits_dec q p j) as [[r ->]|Hv].
  - rewrite walk_app, Hw in Hwq. simpl in Hwq. fold e in Hwq. by rewrite Hold in Hwq.
  - rewrite <- Hwq. apply walk_off; done.
Qed.

Lemma new_table_xl q : idx_ok q -> (length p + 1 < length q <= 4)%nat ->
  xl m' root q = xl m root q.
Proof.
  intros Hq Hlq. destruct (visits_dec q p j) as [[r ->]|Hv]; [|apply xl_off; done || lia].
  assert (r <> []) by (rewrite length_app in Hlq; simpl in Hlq; destruct r; simpl in *; [lia|done]).
  rewrite (xl_app m p root g), (xl_app m' p root g);
    [|by apply (walk_to_point m m' root p j Hag g); [..|lia]|done..].
  simpl. fold e e'. rewrite Hold, Hp2, Hh2. simpl. destruct r as [|i r]; [done|].
  apply idx_ok_app in Hq as [_ Hq]. inversion Hq as [|? ? _ Hr]; subst. inversion Hr; subst.
  simpl. by rewrite Hempty.
Qed.
End NewTable.

(** *** Unlinking an empty table *)
Section DropTable.
Hypothesis Hl : (length p <= 2)%nat.
Hypothesis Hp1 : present e = true. Hypothesis Hh1 : huge e = false.
Hypothesis Hempty : forall i, 0 <= i < 512 -> present (entry m (nextf e) i) = false.
Hypothesis Hnew : present e' = false.

Lemma drop_table_walk q f : idx_ok q -> (length q <= 3)%nat -> walk m' root q = Some f ->
  walk m root q = Some f /\ q <> p ++ [j].
Proof.
  intros Hq Hlq Hwq. destruct (visits_dec q p j) as [[r ->]|Hv].
  - rewrite walk_app, (walk_to_point m m' root p j Hag g) in Hwq by (done || lia).
    simpl in Hwq. fold e' in Hwq. rewrite Hnew in Hwq. done.
  - split.
    + rewrite <- Hwq. symmetry. apply walk_off; done.
    + intros ->. apply Hv, visits_root. eauto.
Qed.

Lemma drop_table_xl q : idx_ok q -> (length p + 1 < length q <= 4)%nat ->
  xl m' root q = xl m root q.
Proof.
  intros Hq Hlq. destruct (visits_dec q p j) as [[r ->]|Hv]; [|apply xl_off; done || lia].
  assert (r <> []) by (rewrite length_app in Hlq; simpl in Hlq; destruct r; simpl in *; [lia|done]).
  rewrite (xl_app m p root g), (xl_app m' p root g);
    [|by apply (walk_to_point m m' root p j Hag g); [..|lia]|done..].
  simpl. fold e e'. rewrite Hnew, Hp1, Hh1. simpl. destruct r as [|i r]; [done|].
  apply idx_ok_app in Hq as [_ Hq]. inversion Hq as [|? ? _ Hr]; subst. inversion Hr; subst.
  simpl. by rewrite Hempty.
Qed.
End DropTable.

(** *** Writing an entry of a lowest-level table *)
Section Leaf.
Hypothesis Hl : length p = 3%nat.

Lemma leaf_walk q : idx_ok q -> (length q <= 3)%nat -> walk m' root q = walk m root q.
Proof.
  intros Hq Hlq. apply walk_off; [done..|]. rewrite visits_root. intros [r ->].
  rewrite length_app in Hlq. simpl in Hlq. lia.
Qed.

Lemma leaf_xl q : idx_ok q -> length q = 4%nat ->
  xl m' root q = if decide (q = p ++ [j])
                 then (if present e' then Some (e', 0%nat) else None)
                 else xl m root q.
Proof.
  intros Hq Hlq. case_decide as Hqp.
  - subst q. rewrite (xl_app m' p root g); [|by apply (walk_to_point m m' root p j Hag g); [..|lia]|done].
    simpl. fold e'. by destruct (present e').
  - apply xl_off; [done|lia|]. rewrite visits_root. intros [r ->]. apply Hqp. f_equal. f_equal.
    rewrite length_app in Hlq. simpl in Hlq. destruct r; [done|simpl in *; lia].
Qed.
End Leaf.
End Update.

(** ** Well-formed page tables *)
Section WellFormed.
Context {S : Type} `{FrameAllocator S}.

(** Every table of the tree is an allocated frame, no table is reached along
    two paths, and no top-level entry claims to be a huge page. *)
Record pt_wf (st : Vm S) (root : Z) : Prop := {
  pw_ok : fa_ok (vm_fa st);
  pw_used : forall p f, idx_ok p -> (length p <= 3)%nat ->
    walk (vm_mem st) root p = Some f -> frame_addr f /\ fa_used (vm_fa st) f;
  pw_inj : forall p q f, idx_ok p -> idx_ok q -> (length p <= 3)%nat -> (length q <= 3)%nat ->
    walk (vm_mem st) root p = Some f -> walk (vm_mem st) root q = Some f -> p = q;
  pw_top : forall i, 0 <= i < 512 -> present (entry (vm_mem st) root i) = true ->
    huge (entry (vm_mem st) root i) = false
}.

(** Writing entry [j] of the table at [p] agrees everywhere else. *)
Lemma agree_write st root p j g v : pt_wf st root -> idx_ok p -> (length p <= 3)%nat ->
  walk (vm_mem st) root p = Some g -> 0 <= j < 512 -> is_u64 v ->
  agree (vm_mem st) (wr64 (vm_mem st) (tbl g + 8 * j) v) root p j.
Proof.
  intros W Hp Hl Hw Hj Hv c f i Hc Hlc Hwc Hi Hne.
  destruct (pw_used st root W p g Hp Hl Hw) as [Hg _].
  destruct (pw_used st root W c f Hc Hlc Hwc) as [Hf _].
  rewrite entry_wr by auto with nova.
  destruct (Z.eqb_spec f g) as [->|]; [|done]. destruct (Z.eqb_spec i j) as [->|]; [|done].
  exfalso. apply Hne. f_equal. by apply (pw_inj st root W c p g).
Qed.

Lemma entry_write_same m g j v : table_frame g -> 0 <= j < 512 -> is_u64 v ->
  entry (wr64 m (tbl g + 8 * j) v) g j = v.
Proof. intros. rewrite entry_wr, !Z.eqb_refl by done. done. Qed.

Definition translate (st : Vm S) (root v : Z) : Z := vmmVirtToPhys (vm_mem st) (tbl root) v.

Lemma translate_xl st root v : pt_wf st root ->
  translate st root v = phys_of v (xl (vm_mem st) root (vpath v)).
Proof. intros W. apply vtp_xl. apply (pw_top st root W). apply tidx_range. Qed.

(** Equal translations of every path give equal translations. *)
Lemma translate_ext st st' root v : pt_wf st root -> pt_wf st' root ->
  xl (vm_mem st') root (vpath v) = xl (vm_mem st) root (vpath v) ->
  translate st' root v = translate st root v.
Proof. intros W W' E. rewrite !translate_xl by done. by rewrite E. Qed.
End WellFormed.
