(* ===== verification/PtOps.v ===== *)
(** * Correctness of the page-table operations

    Mapping, unmapping and creating address spaces, stated as what they do to
    the translation of every virtual address, for any frame allocator that
    satisfies the interface; instantiated with the bitmap allocator in the
    witnesses. *)

From Stdlib Require Import ZArith Lia Bool.
From stdpp Require Import base list gmap.
From S2P Require Import Prelude Mem Frames Pmm PageTable PtWalk.

Lemma idx_ok_nil : idx_ok [].
Proof. constructor. Qed.
Lemma idx_ok_cons i p : 0 <= i < 512 -> idx_ok p -> idx_ok (i :: p).
Proof. by constructor. Qed.
#[export] Hint Resolve idx_ok_nil idx_ok_cons : nova.

(** The bytes of the frame [f], in the direct map. *)
Definition in_page (f x : Z) : Prop := tbl f <= x < tbl f + PAGE_SIZE.

Lemma tbl_frame f : frame_addr f -> tbl f = f + HHDM_BASE.
Proof. intros [Hf _]. unfold tbl. apply u64_id. unfold is_u64, HHDM_BASE. lia. Qed.

Lemma in_page_inj f g x : frame_addr f -> frame_addr g -> in_page f x -> in_page g x -> f = g.
Proof.
  intros Hf Hg. unfold in_page. rewrite !tbl_frame by done. destruct Hf as [_ Hf], Hg as [_ Hg]. unfold PAGE_SIZE.
  pose proof (Z.div_mod f 4096). pose proof (Z.div_mod g 4096). lia.
Qed.

(** Numbers in memory determine their bytes. *)
Lemma rd_bytes_eq n : forall m m' a, rd n m' a = rd n m a -> forall x, a <= x < a + Z.of_nat n -> rd8 m' x = rd8 m x.
Proof.
  induction n as [|n IH]; intros m m' a E x Hx; [lia|]. cbn [rd] in E. pose proof (rd8_range m a). pose proof (rd8_range m' a).
  assert (E1 : rd8 m' a = rd8 m a /\ rd n m' (a + 1) = rd n m (a + 1)) by lia. destruct E1 as [E1 E2].
  destruct (Z.eq_dec x a) as [->|Hne]; [done|]. apply (IH m m' (a + 1) E2). lia.
Qed.

Lemma page_bytes_eq m m' f x : (forall i, 0 <= i < 512 -> entry m' f i = entry m f i) -> in_page f x -> rd8 m' x = rd8 m x.
Proof.
  intros E Hx. unfold in_page, PAGE_SIZE in Hx. apply (rd_bytes_eq 8 m m' (tbl f + 8 * ((x - tbl f) / 8))).
  - apply E. divlia.
  - divlia.
Qed.

Section Ops.
Context {S : Type} `{FrameAllocator S} `{!FrameAllocatorLaws S}.
Implicit Types (st : Vm S).

(** ** One level of [vmmMapPage] *)

(** [f] is a table met along [path]. *)
Definition on_path (m : mem) (root : Z) (path : list Z) (f : Z) : Prop :=
  exists q r, path = q ++ r /\ (length q <= 3)%nat /\ walk m root q = Some f.

(** [f] is a table of the tree. *)
Definition is_table (m : mem) (root f : Z) : Prop :=
  exists q, idx_ok q /\ (length q <= 3)%nat /\ walk m root q = Some f.

(** [st'] extends the table tree of [st] along [path] without changing a
    translation: tables are kept, those added are fresh frames and the only
    frames taken, and used frames that are not tables of the path keep their
    contents. *)
Record grows (st st' : Vm S) (root : Z) (path : list Z) : Prop := {
  gr_wf : pt_wf st' root;
  gr_xl : forall q, idx_ok q -> length q = 4%nat ->
    xl (vm_mem st') root q = xl (vm_mem st) root q;
  gr_walk : forall q f, idx_ok q -> (length q <= 3)%nat ->
    walk (vm_mem st) root q = Some f -> walk (vm_mem st') root q = Some f;
  gr_back : forall q f, idx_ok q -> (length q <= 3)%nat -> walk (vm_mem st') root q = Some f ->
    walk (vm_mem st) root q = Some f \/ ~ fa_used (vm_fa st) f;
  gr_used : forall f, frame_addr f -> fa_used (vm_fa st) f -> fa_used (vm_fa st') f;
  gr_keep : forall f i, frame_addr f -> fa_used (vm_fa st) f -> ~ on_path (vm_mem st) root path f ->
    0 <= i < 512 -> entry (vm_mem st') f i = entry (vm_mem st) f i;
  gr_new : forall f, frame_addr f -> fa_used (vm_fa st') f -> fa_used (vm_fa st) f \/ is_table (vm_mem st') root f
}.

Lemma grows_refl st root path : pt_wf st root -> grows st st root path.
Proof. constructor; auto. Qed.

Lemma grows_trans st1 st2 st3 root path : idx_ok path ->
  grows st1 st2 root path -> grows st2 st3 root path -> grows st1 st3 root path.
Proof.
  intros Hpath G1 G2. constructor.
  - apply G2.
  - intros q Hq Hl. by rewrite (gr_xl _ _ _ _ G2), (gr_xl _ _ _ _ G1).
  - intros q f Hq Hl Hw. by apply (gr_walk _ _ _ _ G2), (gr_walk _ _ _ _ G1).
  - intros q f Hq Hl Hw. destruct (gr_back _ _ _ _ G2 q f Hq Hl Hw) as [Hw2|Hu].
    + by apply (gr_back _ _ _ _ G1).
    + right. intros Hu1. apply Hu, (gr_used _ _ _ _ G1); [|done].
      by apply (pw_used _ _ (gr_wf _ _ _ _ G2) q f).
  - intros f Hf Hu. by apply (gr_used _ _ _ _ G2), (gr_used _ _ _ _ G1).
  - intros f i Hf Hu Hn Hi. rewrite (gr_keep _ _ _ _ G2); [by apply (gr_keep _ _ _ _ G1)|done| | |done].
    + by apply (gr_used _ _ _ _ G1).
    + intros (q & r & -> & Hl & Hw). apply idx_ok_app in Hpath as [Hq _].
      destruct (gr_back _ _ _ _ G1 q f Hq Hl Hw); [|done]. apply Hn. by exists q, r.
  - intros f Hf Hu. destruct (gr_new _ _ _ _ G2 f Hf Hu) as [Hu2|Ht]; [|by right].
    destruct (gr_new _ _ _ _ G1 f Hf Hu2) as [|(q & Hq & Hl & Hw)]; [by left|right]. exists q. split_and!; try done.
    by apply (gr_walk _ _ _ _ G2).
Qed.

(** A flag bit that may be added to an intermediate entry. *)
Definition table_flag (fl : Z) : Prop :=
  is_u64 fl /\ nextf fl = 0 /\ present fl = false /\ huge fl = false.

Lemma or_flag_step st root p j g fl rest : pt_wf st root -> idx_ok p -> (length p <= 2)%nat ->
  walk (vm_mem st) root p = Some g -> 0 <= j < 512 -> table_flag fl ->
  present (entry (vm_mem st) g j) = true -> huge (entry (vm_mem st) g j) = false ->
  let e := Z.lor (entry (vm_mem st) g j) fl in
  let st' := mkVm (wr64 (vm_mem st) (tbl g + 8 * j) e) (vm_fa st) in
  grows st st' root (p ++ rest) /\ entry (vm_mem st') g j = e /\
  present e = true /\ huge e = false /\ nextf e = nextf (entry (vm_mem st) g j).
Proof.
  intros W Hp Hl Hw Hj (Hu & Hn & Hpf & Hhf) Hpe Hhe e st'.
  assert (He : is_u64 e) by (apply lor_u64; [apply rd64_range|done]).
  destruct (pw_used st root W p g Hp ltac:(lia) Hw) as [Hg _].
  pose proof (agree_write st root p j g e W Hp ltac:(lia) Hw Hj He) as Hag.
  assert (Hsame : entry (wr64 (vm_mem st) (tbl g + 8 * j) e) g j = e)
    by (apply entry_write_same; auto with nova).
  assert (Hp' : present e = true).
  { unfold e. rewrite present_bit, Z.lor_spec, <- !present_bit, Hpe. done. }
  assert (Hh' : huge e = false).
  { unfold e. rewrite huge_bit, Z.lor_spec, <- !huge_bit, Hhe, Hhf. done. }
  assert (Hn' : nextf e = nextf (entry (vm_mem st) g j)) by (by apply nextf_lor_flags).
  assert (Hwalk : forall q, idx_ok q -> (length q <= 3)%nat ->
            walk (vm_mem st') root q = walk (vm_mem st) root q).
  { intros q Hq Hlq. apply (same_next_walk _ _ root p j g Hag); try done; by rewrite ?Hsame. }
  assert (Hkeep : forall f i, frame_addr f -> fa_used (vm_fa st) f ->
            ~ on_path (vm_mem st) root (p ++ rest) f -> 0 <= i < 512 ->
            entry (vm_mem st') f i = entry (vm_mem st) f i).
  { intros f i Hf _ Hnp Hi. unfold st'. cbn [vm_mem]. rewrite entry_wr by auto with nova.
    destruct (Z.eqb_spec f g) as [->|]; [|done]. exfalso. apply Hnp. exists p, rest. split_and!; done || lia. }
  split_and!; try done. constructor; try done.
  - constructor; simpl; [apply W| | |].
    + intros q f Hq Hlq. rewrite Hwalk by done. apply (pw_used st root W); done.
    + intros q r f Hq Hr Hlq Hlr. rewrite !Hwalk by done. apply (pw_inj st root W); done.
    + intros i Hi. destruct (decide (i = j /\ g = root)) as [[-> ->]|Hne].
      * by rewrite Hsame.
      * assert (root_f : table_frame root).
        { destruct (pw_used st root W [] root) as [Hr _]; [constructor|simpl; lia|done|].
          auto with nova. }
        rewrite entry_wr by auto with nova.
        destruct (Z.eqb_spec root g), (Z.eqb_spec i j); simpl; try (apply (pw_top st root W); done).
        exfalso. apply Hne. done.
  - intros q Hq Hlq. apply (same_next_xl _ _ root p j g Hag); try done; rewrite ?Hsame; done || lia.
  - intros q f Hq Hlq Hwq. by rewrite Hwalk.
  - intros q f Hq Hlq. rewrite Hwalk by done. auto.
  - auto.
Qed.

Lemma user_flag : table_flag VMM_FLAG_USER.
Proof. repeat split; vm_compute; congruence. Qed.
Lemma writable_flag : table_flag VMM_FLAG_WRITABLE.
Proof. repeat split; vm_compute; congruence. Qed.

Lemma root_frame st root : pt_wf st root -> frame_addr root.
Proof. intros W. destruct (pw_used st root W [] root); [constructor|simpl; lia|done|done]. Qed.

(** The flags of a freshly linked table. *)
Definition link_flags (flags : Z) : Z :=
  let f0 := Z.lor VMM_FLAG_PRESENT VMM_FLAG_WRITABLE in
  if flags &? VMM_FLAG_USER then Z.lor f0 VMM_FLAG_USER else f0.

Lemma link_entry f flags : frame_addr f ->
  let e := Z.lor f (link_flags flags) in
  is_u64 e /\ present e = true /\ huge e = false /\ nextf e = f.
Proof.
  intros [Hr Hm] e.
  assert (Hfl : is_u64 (link_flags flags) /\ present (link_flags flags) = true /\
            huge (link_flags flags) = false /\ nextf (link_flags flags) = 0).
  { unfold link_flags. destruct (flags &? VMM_FLAG_USER); repeat split; vm_compute; congruence. }
  destruct Hfl as (Hu & Hp & Hh & Hn). unfold e. split_and!.
  - apply lor_u64; [unfold is_u64; lia|done].
  - rewrite present_bit, Z.lor_spec, <- (present_bit (link_flags flags)), Hp. apply orb_true_r.
  - rewrite huge_bit, Z.lor_spec, <- (huge_bit (link_flags flags)), Hh.
    rewrite (frame_low_bit f 7) by (done || lia). done.
  - rewrite nextf_lor_flags by done. apply nextf_frame; [lia|done].
Qed.

Lemma new_table_step st root p j g flags rest : pt_wf st root -> idx_ok p -> (length p <= 2)%nat ->
  walk (vm_mem st) root p = Some g -> 0 <= j < 512 ->
  present (entry (vm_mem st) g j) = false ->
  (fa_alloc (vm_fa st)).2 <> 0 ->
  let f := (fa_alloc (vm_fa st)).2 in
  let m1 := zfor 0 512 (fun i m => wr64 m (tbl f + 8 * i) 0) (vm_mem st) in
  let st' := mkVm (wr64 m1 (tbl g + 8 * j) (Z.lor f (link_flags flags))) (fa_alloc (vm_fa st)).1 in
  grows st st' root (p ++ rest) /\ walk (vm_mem st') root (p ++ [j]) = Some f.
Proof.
  intros W Hp Hl Hw Hj Hnp Hf f m1 st'. pose proof (pw_ok st root W) as Hok.
  pose proof (fa_alloc_frame _ Hok Hf) as Hfa. fold f in Hfa.
  assert (Hfresh : forall c h, idx_ok c -> (length c <= 3)%nat ->
            walk (vm_mem st) root c = Some h -> h <> f).
  { intros c h Hc Hlc Hwc ->. apply (fa_alloc_fresh _ Hok Hf).
    apply (pw_used st root W c f Hc Hlc Hwc). }
  destruct (pw_used st root W p g Hp ltac:(lia) Hw) as [Hg _].
  destruct (link_entry f flags Hfa) as (Heu & Hep & Heh & Hen).
  set (e := Z.lor f (link_flags flags)) in *.
  assert (Hent : forall h i, table_frame h -> 0 <= i < 512 ->
    entry (wr64 m1 (tbl g + 8 * j) e) h i =
    if (h =? g) && (i =? j) then e else if h =? f then 0 else entry (vm_mem st) h i).
  { intros h i Hh Hi. rewrite entry_wr by auto with nova. unfold m1.
    rewrite entry_zero_loop by (auto with nova; lia).
    destruct (Z.ltb_spec i 512); [by rewrite (andb_true_r (h =? f))|lia]. }
  unfold st'. clear st'. cbn [vm_mem]. set (m' := wr64 m1 (tbl g + 8 * j) e) in *.
  clearbody m'. clear m1.
  assert (Hgf : g <> f) by (apply (Hfresh p); done || lia).
  assert (Hag : agree (vm_mem st) m' root p j).
  { intros c h i Hc Hlc Hwc Hi Hne. destruct (pw_used st root W c h Hc Hlc Hwc) as [Hh _].
    rewrite Hent by auto with nova. destruct (Z.eqb_spec h f); [by apply Hfresh in Hwc|].
    destruct (Z.eqb_spec h g) as [->|]; [|done]. destruct (Z.eqb_spec i j) as [->|]; [|done].
    exfalso. apply Hne. f_equal. apply (pw_inj st root W c p g); done || lia. }
  assert (Hsame : entry m' g j = e).
  { rewrite Hent by auto with nova. by rewrite !Z.eqb_refl. }
  assert (Hemp : forall i, 0 <= i < 512 ->
    present (entry m' (nextf (entry m' g j)) i) = false).
  { intros i Hi. rewrite Hsame, Hen, Hent by auto with nova.
    destruct (Z.eqb_spec f g); [congruence|]. by rewrite Z.eqb_refl. }
  assert (Hp2 : present (entry m' g j) = true) by (by rewrite Hsame).
  assert (Hh2 : huge (entry m' g j) = false) by (by rewrite Hsame).
  assert (Hwnew : forall q h, idx_ok q -> (length q <= 3)%nat ->
    walk m' root q = Some h ->
    (q = p ++ [j] /\ h = f) \/ walk (vm_mem st) root q = Some h).
  { intros q h Hq Hlq Hwq.
    destruct (new_table_walk (vm_mem st) _ root p j g Hag Hw Hp Hl Hp2 Hh2 Hemp q h)
      as [[-> ->]|?]; rewrite ?Hsame; auto. }
  assert (Hpj : walk m' root (p ++ [j]) = Some f).
  { pose proof (walk_snoc m' root p g j) as Hs.
    rewrite Hsame, Hen in Hs. apply Hs; [|done..]. apply (walk_to_point (vm_mem st) _ root p j Hag); done || lia. }
  split; [|done]. pose proof (root_frame st root W) as Hroot. constructor; simpl.
  - constructor; simpl.
    + by apply fa_alloc_ok.
    + intros q h Hq Hlq Hwq. destruct (Hwnew q h Hq Hlq Hwq) as [[-> ->]|Hwq'].
      * split; [done|]. apply fa_alloc_used; auto.
      * destruct (pw_used st root W q h Hq Hlq Hwq') as [Hh Hu]. split; [done|].
        apply fa_alloc_used; auto.
    + intros q r h Hq Hr Hlq Hlr Hwq Hwr.
      destruct (Hwnew q h Hq Hlq Hwq) as [[-> ->]|Hwq'],
        (Hwnew r _ Hr Hlr Hwr) as [[-> E]|Hwr']; try done.
      * by apply Hfresh in Hwr'.
      * subst h. by apply Hfresh in Hwq'.
      * by apply (pw_inj st root W q r h).
    + intros i Hi. rewrite Hent by auto with nova. destruct (_ && _); [done|].
      destruct (root =? f); [done|]. by apply (pw_top st root W).
  - intros q Hq Hlq. apply (new_table_xl (vm_mem st) _ root p j g Hag Hw); done || lia.
  - intros q h Hq Hlq. apply (new_table_walk_old (vm_mem st) _ root p j g Hag); done.
  - intros q h Hq Hlq Hwq. destruct (Hwnew q h Hq Hlq Hwq) as [[-> ->]|Hwq']; [|by left].
    right. by apply fa_alloc_fresh.
  - intros h Hh Hu. apply fa_alloc_used; auto.
  - intros h i Hh Hu Hnp2 Hi. rewrite Hent by auto with nova.
    destruct (Z.eqb_spec h g) as [->|]; simpl.
    + exfalso. apply Hnp2. exists p, rest. split_and!; done || lia.
    + destruct (Z.eqb_spec h f) as [->|]; [|done]. exfalso. by apply (fa_alloc_fresh _ Hok Hf).
  - intros h Hh Hu. apply fa_alloc_used in Hu as [->|]; [right|by left|done..]. exists (p ++ [j]).
    split_and!; [apply idx_ok_app; auto with nova|rewrite length_app; simpl; lia|exact Hpj].
Qed.

(** A table is not at NULL. *)
Lemma table_not_null st root p f : pt_wf st root -> idx_ok p -> (length p <= 3)%nat ->
  walk (vm_mem st) root p = Some f -> tbl f <> 0.
Proof.
  intros W Hp Hl Hw. destruct (pw_used st root W p f Hp Hl Hw) as [Hf _].
  rewrite tbl_frame by done. destruct Hf as [Hf _]. unfold HHDM_BASE. lia.
Qed.

(** [getOrAllocTable] either fails for lack of frames and changes nothing, or
    returns the table that the path now leads to. *)
Lemma getOrAllocTable_spec st root p j g flags r : pt_wf st root -> idx_ok (p ++ r) ->
  (length p <= 2)%nat ->
  walk (vm_mem st) root p = Some g -> 0 <= j < 512 ->
  (present (entry (vm_mem st) g j) = true -> huge (entry (vm_mem st) g j) = false) ->
  let x := getOrAllocTable st (tbl g + 8 * j) flags in
  grows st x.1 root (p ++ r) /\
  ((x.2 = 0 /\ (fa_alloc (vm_fa x.1)).2 = 0) \/
   exists f, x.2 = tbl f /\ x.2 <> 0 /\ walk (vm_mem x.1) root (p ++ [j]) = Some f).
Proof.
  intros W Hpr Hl Hw Hj Hh. assert (Hpj : idx_ok p -> idx_ok (p ++ [j])) by (intros ?; apply idx_ok_app; split; auto with nova). unfold getOrAllocTable. fold (entry (vm_mem st) g j).
  destruct (proj1 (idx_ok_app _ _) Hpr) as [Hp _].
  fold (present (entry (vm_mem st) g j)).
  destruct (present (entry (vm_mem st) g j)) eqn:Ep; cbv zeta.
  - specialize (Hh eq_refl).
    set (m1 := if flags &? VMM_FLAG_USER then _ else _).
    assert (H1 : grows st (mkVm m1 (vm_fa st)) root (p ++ r) /\ present (entry m1 g j) = true /\
                 huge (entry m1 g j) = false).
    { unfold m1. destruct (flags &? VMM_FLAG_USER); [|destruct st; split_and!; [by apply grows_refl|done..]].
      destruct (or_flag_step st root p j g VMM_FLAG_USER r) as (Hg1 & He1 & Hp1 & Hh1 & _);
        try done; try apply user_flag. cbn [vm_mem] in He1.
      rewrite He1. by split_and!. }
    clearbody m1. destruct H1 as (G1 & P1 & Hh1).
    fold (entry m1 g j). set (m2 := if flags &? VMM_FLAG_WRITABLE then _ else _).
    assert (H2 : grows (mkVm m1 (vm_fa st)) (mkVm m2 (vm_fa st)) root (p ++ r) /\
                 present (entry m2 g j) = true /\ huge (entry m2 g j) = false).
    { unfold m2. destruct (flags &? VMM_FLAG_WRITABLE).
      - destruct (or_flag_step (mkVm m1 (vm_fa st)) root p j g VMM_FLAG_WRITABLE r)
          as (Hg2 & He2 & Hp2 & Hh2 & _); try done; try apply writable_flag;
          [apply G1|apply G1; done || lia|].
        cbn [vm_mem vm_fa] in *. rewrite He2. by split_and!.
      - split; [apply grows_refl, G1|done]. }
    clearbody m2. destruct H2 as (G2 & P2 & Hh2). simpl.
    pose proof (grows_trans _ _ _ _ _ Hpr G1 G2) as G. split; [done|]. right.
    assert (Hwk : walk m2 root (p ++ [j]) = Some (nextf (entry m2 g j))) by (apply walk_snoc; try done; apply G; [done|lia|done]).
    exists (nextf (entry m2 g j)). split_and!; [done| |done].
    apply (table_not_null _ root (p ++ [j]) _ (gr_wf _ _ _ _ G)); [auto|rewrite length_app; simpl; lia|exact Hwk].
  - clear Hh. pose proof (new_table_step st root p j g flags r W Hp Hl Hw Hj Ep) as Hnew.
    destruct (fa_alloc (vm_fa st)) as [fa1 f] eqn:Ea. cbn [fst snd] in Hnew.
    destruct (Z.eqb_spec f 0) as [->|Hne]; cbn [fst snd].
    + pose proof (fa_alloc_null (vm_fa st) (pw_ok st root W)) as Hnull. rewrite Ea in Hnull.
      specialize (Hnull eq_refl). simpl in Hnull. subst fa1.
      split; [destruct st; by apply grows_refl|]. left. split; [done|]. cbn [vm_fa]. by rewrite Ea.
    + destruct (Hnew Hne) as [G Hwk]. split; [done|]. right. exists f. split_and!; [done| |done].
      apply (table_not_null _ root (p ++ [j]) f (gr_wf _ _ _ _ G)); [auto|rewrite length_app; simpl; lia|exact Hwk].
Qed.

(** Addresses whose translation is not a huge page: [vmmMapPage] requires it,
    since it would take the frame of a huge page for a table. *)
Definition no_huge (m : mem) (root v : Z) : Prop :=
  forall e k, xl m root (vpath v) = Some (e, k) -> k = 0%nat.

(** Along such an address the next entry is not huge. *)
Lemma no_huge_step m root v p j r g : no_huge m root v -> vpath v = p ++ j :: r -> r <> [] ->
  walk m root p = Some g -> present (entry m g j) = true -> huge (entry m g j) = false.
Proof.
  intros Hn E Hr Hw Hp. destruct (huge (entry m g j)) eqn:Eh; [|done].
  assert (X : xl m root (vpath v) = Some (entry m g j, length r)).
  { rewrite E, (xl_app m p root g) by done. simpl. rewrite Hp. simpl. destruct r; [done|]. by rewrite Eh. }
  apply Hn in X. by destruct r.
Qed.

Lemma no_huge_grows st st' root path v : grows st st' root path -> no_huge (vm_mem st) root v ->
  no_huge (vm_mem st') root v.
Proof. intros G Hn e k. rewrite (gr_xl _ _ _ _ G); [apply Hn|apply vpath_ok|done]. Qed.

(** Writing an entry of the lowest-level table keeps the tree well formed. *)
Lemma leaf_write_wf st root p j g v : pt_wf st root -> idx_ok p -> length p = 3%nat ->
  walk (vm_mem st) root p = Some g -> 0 <= j < 512 -> is_u64 v ->
  let st' := mkVm (wr64 (vm_mem st) (tbl g + 8 * j) v) (vm_fa st) in
  pt_wf st' root /\
  (forall q, idx_ok q -> length q = 4%nat -> xl (vm_mem st') root q =
     if decide (q = p ++ [j]) then (if present v then Some (v, 0%nat) else None)
     else xl (vm_mem st) root q) /\
  (forall q, idx_ok q -> (length q <= 3)%nat ->
     walk (vm_mem st') root q = walk (vm_mem st) root q).
Proof.
  intros W Hp Hl Hw Hj Hv st'.
  pose proof (agree_write st root p j g v W Hp ltac:(lia) Hw Hj Hv) as Hag.
  destruct (pw_used st root W p g Hp ltac:(lia) Hw) as [Hg _].
  assert (Hsame : entry (wr64 (vm_mem st) (tbl g + 8 * j) v) g j = v)
    by (apply entry_write_same; auto with nova).
  pose proof (leaf_walk (vm_mem st) _ root p j g Hag Hl) as Hwk.
  pose proof (leaf_xl (vm_mem st) _ root p j g Hag Hw Hp Hl) as Hxl. rewrite Hsame in Hxl.
  assert (Hgr : g <> root).
  { intros ->.
    pose proof (pw_inj st root W p [] root Hp (Forall_nil_2 _) ltac:(lia) ltac:(simpl; lia) Hw eq_refl).
    by subst p. }
  split_and!; [|done..]. constructor; simpl; [apply W| | |].
  - intros q f Hq Hlq. rewrite Hwk by done. by apply (pw_used st root W).
  - intros q r f Hq Hr Hlq Hlr. rewrite !Hwk by done. by apply (pw_inj st root W).
  - intros i Hi. rewrite entry_wr by (auto with nova; pose proof (root_frame st root W); auto with nova).
    destruct (Z.eqb_spec root g); [congruence|]. by apply (pw_top st root W).
Qed.

(** ** [vmmMapPage] *)

(** The leaf entry written for a page. *)
Definition leaf_entry (phys flags : Z) : Z :=
  Z.lor (Z.lor (Z.land (page_down phys) PTE_ADDR_MASK) flags) VMM_FLAG_PRESENT.

Lemma leaf_entry_facts phys flags : is_u64 phys -> phys < 2 ^ 52 -> is_u64 flags -> nextf flags = 0 ->
  is_u64 (leaf_entry phys flags) /\ present (leaf_entry phys flags) = true /\
  nextf (leaf_entry phys flags) = page_down phys.
Proof.
  intros Hp Hl Hf Hn. unfold leaf_entry. pose proof (page_down_spec phys Hp) as E.
  assert (Hr : 0 <= page_down phys < 2 ^ 52) by (unfold is_u64 in *; rewrite E; divlia).
  fold (nextf (page_down phys)). rewrite nextf_frame; [|done|by apply page_down_aligned].
  split_and!.
  - repeat apply lor_u64; try done; unfold is_u64; lia.
  - rewrite present_bit, Z.lor_spec. apply orb_true_r.
  - rewrite !nextf_lor_flags by done. apply nextf_frame; [done|by apply page_down_aligned].
Qed.

(** The page of [v] is mapped to the frame at [phys], with exactly the bits of
    [flags] and the present bit in its entry. *)
Definition mapped_as (m : mem) (root v phys flags : Z) : Prop :=
  exists e, xl m root (vpath v) = Some (e, 0%nat) /\ nextf e = phys /\
    forall b, 0 <= b < 12 \/ 52 <= b < 64 -> Z.testbit e b = Z.testbit flags b || (b =? 0).

Lemma leaf_entry_bits phys flags b : 0 <= b < 12 \/ 52 <= b < 64 ->
  Z.testbit (leaf_entry phys flags) b = Z.testbit flags b || (b =? 0).
Proof.
  intros Hb. unfold leaf_entry. rewrite !Z.lor_spec, Z.land_spec, mask_bit by lia.
  assert (E : (12 <=? b) && (b <? 52) = false) by lia. rewrite E, andb_false_r. cbn [orb]. f_equal.
Qed.

Lemma leaf_mapped m root v phys flags : is_u64 phys -> phys < 2 ^ 52 -> is_u64 flags -> nextf flags = 0 ->
  xl m root (vpath v) = Some (leaf_entry phys flags, 0%nat) -> mapped_as m root v (page_down phys) flags.
Proof.
  intros Hp Hl Hf Hn X. exists (leaf_entry phys flags).
  split_and!; [done|by apply leaf_entry_facts|]. apply leaf_entry_bits.
Qed.

Lemma vpath_page v : is_u64 v -> vpath (page_down v) = vpath v.
Proof.
  intros Hv. rewrite page_down_spec by done. unfold vpath, tidx.
  assert (Hs : forall s, 12 <= s -> Z.shiftr (v - v mod 4096) s = Z.shiftr v s).
  { intros s Hs. rewrite !Z.shiftr_div_pow2 by lia.
    replace s with (12 + (s - 12)) by lia. rewrite Z.pow_add_r by lia.
    rewrite <- !Z.div_div by lia. f_equal. change (2 ^ 12) with 4096. divlia. }
  by rewrite !Hs by lia.
Qed.

(** What any outcome of [vmmMapPage] leaves alone: used frames that are not
    tables along the address keep their contents and stay used; no used frame
    becomes a table. *)
Record map_frame (st st' : Vm S) (root : Z) (path : list Z) : Prop := {
  mf_wf : pt_wf st' root;
  mf_back : forall q f, idx_ok q -> (length q <= 3)%nat -> walk (vm_mem st') root q = Some f ->
    walk (vm_mem st) root q = Some f \/ ~ fa_used (vm_fa st) f;
  mf_used : forall f, frame_addr f -> fa_used (vm_fa st) f -> fa_used (vm_fa st') f;
  mf_keep : forall f i, frame_addr f -> fa_used (vm_fa st) f -> ~ on_path (vm_mem st) root path f ->
    0 <= i < 512 -> entry (vm_mem st') f i = entry (vm_mem st) f i;
  mf_table : forall f, frame_addr f -> is_table (vm_mem st) root f -> is_table (vm_mem st') root f;
  mf_new : forall f, frame_addr f -> fa_used (vm_fa st') f -> fa_used (vm_fa st) f \/ is_table (vm_mem st') root f
}.

Lemma grows_frame st st' root path : grows st st' root path -> map_frame st st' root path.
Proof. intros [Wf _ Wk Bk Us Kp Nw]. constructor; try done. intros f _ (q & Hq & Hl & Hw). exists q. auto. Qed.

(** The leaf write after the tables have been prepared. *)
Lemma leaf_write_frame st st1 root p j g v : grows st st1 root (p ++ [j]) ->
  idx_ok (p ++ [j]) -> length p = 3%nat ->
  walk (vm_mem st1) root p = Some g -> is_u64 v ->
  let st' := mkVm (wr64 (vm_mem st1) (tbl g + 8 * j) v) (vm_fa st1) in
  map_frame st st' root (p ++ [j]) /\
  forall q, idx_ok q -> length q = 4%nat -> xl (vm_mem st') root q =
    if decide (q = p ++ [j]) then (if present v then Some (v, 0%nat) else None)
    else xl (vm_mem st) root q.
Proof.
  intros G Hpj Hl Hw Hv st'. destruct (proj1 (idx_ok_app _ _) Hpj) as [Hp Hj].
  assert (0 <= j < 512) by (by inversion Hj). pose proof (gr_wf _ _ _ _ G) as W1.
  destruct (leaf_write_wf st1 root p j g v W1) as (W2 & X2 & F2); try done.
  destruct (pw_used _ _ W1 p g Hp ltac:(lia) Hw) as [Hg _].
  split; [constructor|].
  - done.
  - intros q f Hq Hlq. rewrite F2 by done. by apply (gr_back _ _ _ _ G).
  - intros f Hf Hu. by apply (gr_used _ _ _ _ G).
  - intros f i Hf Hu Hn Hi. unfold st'. cbn [vm_mem]. rewrite entry_wr by auto with nova.
    destruct (Z.eqb_spec f g) as [->|]; [|by apply (gr_keep _ _ _ _ G)].
    exfalso. destruct (gr_back _ _ _ _ G p g Hp ltac:(lia) Hw) as [Hw0|]; [|done].
    apply Hn. exists p, [j]. split_and!; done || lia.
  - intros f _ (q & Hq & Hlq & Hwq). exists q. split_and!; [done..|]. unfold st'. rewrite F2 by done. by apply (gr_walk _ _ _ _ G).
  - intros f Hf Hu. destruct (gr_new _ _ _ _ G f Hf Hu) as [|(q & Hq & Hlq & Hwq)]; [by left|right].
    exists q. split_and!; [done..|]. unfold st'. by rewrite F2.
  - intros q Hq Hlq. rewrite X2 by done. case_decide; [done|]. by apply (gr_xl _ _ _ _ G).
Qed.

(** The outcome of [vmmMapPage]; it fails only when the allocator has no
    frame left. *)
Lemma vmmMapPage_outcome st root virt phys flags :
  pt_wf st root -> is_u64 virt -> is_u64 phys -> phys < 2 ^ 52 -> is_u64 flags -> nextf flags = 0 ->
  no_huge (vm_mem st) root virt ->
  let r := vmmMapPage st (tbl root) virt phys flags in
  map_frame st r.1 root (vpath virt) /\
  ((r.2 = -1 /\ (fa_alloc (vm_fa r.1)).2 = 0 /\ forall q, idx_ok q -> length q = 4%nat ->
      xl (vm_mem r.1) root q = xl (vm_mem st) root q) \/
   (r.2 = 0 /\ forall q, idx_ok q -> length q = 4%nat -> xl (vm_mem r.1) root q =
      if decide (q = vpath virt) then Some (leaf_entry phys flags, 0%nat)
      else xl (vm_mem st) root q)).
Proof.
  intros W Hv Hp Hpl Hf Hn Hh. unfold vmmMapPage.
  rewrite <- (vpath_page virt Hv). unfold no_huge in Hh. rewrite <- (vpath_page virt Hv) in Hh.
  fold (no_huge (vm_mem st) root (page_down virt)) in Hh.
  set (v := page_down virt) in *. pose proof (vpath_ok v) as Hok. unfold vpath in *.
  set (i4 := tidx v 39) in *. set (i3 := tidx v 30) in *.
  set (i2 := tidx v 21) in *. set (i1 := tidx v 12) in *.
  assert (0 <= i4 < 512 /\ 0 <= i3 < 512 /\ 0 <= i2 < 512) as (R4 & R3 & R2)
    by (split_and!; apply tidx_range).
  pose proof (getOrAllocTable_spec st root [] i4 root flags [i4; i3; i2; i1] W Hok) as G1.
  destruct (getOrAllocTable st (tbl root + 8 * i4) flags) as [st1 pdpt]. cbn [fst snd] in G1.
  destruct G1 as [G1 C1]; [simpl; lia|done|done| |].
  { by apply (no_huge_step _ root v [] i4 [i3; i2; i1]). }
  pose proof (no_huge_grows _ _ _ _ _ G1 Hh) as Hh1.
  destruct (Z.eqb_spec pdpt 0) as [->|N1]; cbn [fst snd].
  { destruct C1 as [[_ Hnone]|(? & _ & ? & _)]; [|done].
    split; [by apply grows_frame|left]. split; [done|split; [exact Hnone|apply (gr_xl _ _ _ _ G1)]]. }
  destruct C1 as [[? _]|(f1 & -> & _ & K1)]; [done|]. cbn [app] in K1.
  pose proof (getOrAllocTable_spec st1 root [i4] i3 f1 flags [i3; i2; i1] (gr_wf _ _ _ _ G1) Hok) as G2.
  destruct (getOrAllocTable st1 (tbl f1 + 8 * i3) flags) as [st2 pd]. cbn [fst snd] in G2.
  destruct G2 as [G2 C2]; [simpl; lia|done|done| |].
  { by apply (no_huge_step _ root v [i4] i3 [i2; i1]). }
  pose proof (no_huge_grows _ _ _ _ _ G2 Hh1) as Hh2.
  pose proof (grows_trans _ _ _ _ _ Hok G1 G2) as G12.
  destruct (Z.eqb_spec pd 0) as [->|N2]; cbn [fst snd].
  { destruct C2 as [[_ Hnone]|(? & _ & ? & _)]; [|done].
    split; [by apply grows_frame|left]. split; [done|split; [exact Hnone|apply (gr_xl _ _ _ _ G12)]]. }
  destruct C2 as [[? _]|(f2 & -> & _ & K2)]; [done|]. cbn [app] in K2.
  pose proof (getOrAllocTable_spec st2 root [i4; i3] i2 f2 flags [i2; i1] (gr_wf _ _ _ _ G12) Hok) as G3.
  destruct (getOrAllocTable st2 (tbl f2 + 8 * i2) flags) as [st3 pt]. cbn [fst snd] in G3.
  destruct G3 as [G3 C3]; [simpl; lia|done|done| |].
  { by apply (no_huge_step _ root v [i4; i3] i2 [i1]). }
  pose proof (grows_trans _ _ _ _ _ Hok G12 G3) as G13.
  destruct (Z.eqb_spec pt 0) as [->|N3]; cbn [fst snd].
  { destruct C3 as [[_ Hnone]|(? & _ & ? & _)]; [|done].
    split; [by apply grows_frame|left]. split; [done|split; [exact Hnone|apply (gr_xl _ _ _ _ G13)]]. }
  destruct C3 as [[? _]|(f3 & -> & _ & K3)]; [done|]. cbn [app] in K3.
  destruct (leaf_entry_facts phys flags) as (Lu & Lp & Ln); [done..|].
  fold (leaf_entry phys flags).
  destruct (leaf_write_frame st st3 root [i4; i3; i2] i1 f3 (leaf_entry phys flags)) as (Fr & X4);
    try done.
  rewrite Lp in X4. split; [done|by right].
Qed.

Lemma vmmMapPage_spec st root virt phys flags :
  pt_wf st root -> is_u64 virt -> is_u64 phys -> phys < 2 ^ 52 -> is_u64 flags -> nextf flags = 0 ->
  no_huge (vm_mem st) root virt ->
  let r := vmmMapPage st (tbl root) virt phys flags in
  map_frame st r.1 root (vpath virt) /\
  ((r.2 = -1 /\ forall q, idx_ok q -> length q = 4%nat ->
      xl (vm_mem r.1) root q = xl (vm_mem st) root q) \/
   (r.2 = 0 /\ forall q, idx_ok q -> length q = 4%nat -> xl (vm_mem r.1) root q =
      if decide (q = vpath virt) then Some (leaf_entry phys flags, 0%nat)
      else xl (vm_mem st) root q)).
Proof.
  intros W Hv Hp Hpl Hf Hn Hh r. destruct (vmmMapPage_outcome st root virt phys flags W Hv Hp Hpl Hf Hn Hh) as [M C].
  split; [exact M|]. destruct C as [(E & _ & X)|C]; [left|right; exact C]. split; [exact E|exact X].
Qed.

(** The next [n] allocations succeed. *)
Fixpoint frames_left (n : nat) (fa : S) : Prop :=
  match n with O => True | Datatypes.S k => (fa_alloc fa).2 <> 0 /\ frames_left k (fa_alloc fa).1 end.

Lemma frames_left_less n : forall fa, frames_left (Datatypes.S n) fa -> frames_left n fa.
Proof. induction n as [|n IH]; intros fa [H1 H2]; [done|]. split; [done|]. by apply IH. Qed.

Lemma getOrAllocTable_left n st e flags : frames_left (Datatypes.S n) (vm_fa st) -> frames_left n (vm_fa (getOrAllocTable st e flags).1).
Proof.
  intros Hl. unfold getOrAllocTable. destruct (_ &? _); [by apply frames_left_less|].
  destruct Hl as [_ Hl]. destruct (fa_alloc (vm_fa st)) as [fa1 frame]. by destruct (frame =? 0).
Qed.

Lemma vmmMapPage_left n st pml4 virt phys flags : frames_left (3 + n) (vm_fa st) -> frames_left n (vm_fa (vmmMapPage st pml4 virt phys flags).1).
Proof.
  intros Hl. unfold vmmMapPage. set (v := page_down virt).
  pose proof (getOrAllocTable_left (2 + n) st (pml4 + 8 * tidx v 39) flags Hl) as H1.
  destruct (getOrAllocTable st _ flags) as [st1 pdpt]. cbn [fst] in H1. destruct (pdpt =? 0); [by do 2 apply frames_left_less|].
  pose proof (getOrAllocTable_left (1 + n) st1 (pdpt + 8 * tidx v 30) flags H1) as H2.
  destruct (getOrAllocTable st1 _ flags) as [st2 pd]. cbn [fst] in H2. destruct (pd =? 0); [by apply frames_left_less|].
  pose proof (getOrAllocTable_left n st2 (pd + 8 * tidx v 21) flags H2) as H3.
  destruct (getOrAllocTable st2 _ flags) as [st3 pt]. by destruct (pt =? 0).
Qed.

(** With a frame for each level and one more, mapping succeeds. *)
Lemma vmmMapPage_succeeds st root virt phys flags :
  pt_wf st root -> is_u64 virt -> is_u64 phys -> phys < 2 ^ 52 -> is_u64 flags -> nextf flags = 0 ->
  no_huge (vm_mem st) root virt -> frames_left 4 (vm_fa st) -> (vmmMapPage st (tbl root) virt phys flags).2 = 0.
Proof.
  intros W Hv Hp Hpl Hf Hn Hh Hl. destruct (vmmMapPage_outcome st root virt phys flags W Hv Hp Hpl Hf Hn Hh) as [_ [(_ & E & _)|[E _]]]; [|done].
  destruct (vmmMapPage_left 1 st (tbl root) virt phys flags Hl) as [Hx _]. done.
Qed.

(** [f] is not a table of the tree. *)
Definition not_table (m : mem) (root f : Z) : Prop :=
  forall q, idx_ok q -> (length q <= 3)%nat -> walk m root q <> Some f.

(** Used frames that are no tables stay so, with their contents. *)
Record kept_frames (st st' : Vm S) (root : Z) : Prop := {
  kf_used : forall f, frame_addr f -> fa_used (vm_fa st) f -> fa_used (vm_fa st') f;
  kf_table : forall f, frame_addr f -> fa_used (vm_fa st) f -> not_table (vm_mem st) root f -> not_table (vm_mem st') root f;
  kf_mem : forall f x, frame_addr f -> fa_used (vm_fa st) f -> not_table (vm_mem st) root f -> in_page f x -> rd8 (vm_mem st') x = rd8 (vm_mem st) x
}.

Lemma kept_frames_refl st root : kept_frames st st root.
Proof. by constructor. Qed.

Lemma kept_frames_trans st1 st2 st3 root : kept_frames st1 st2 root -> kept_frames st2 st3 root -> kept_frames st1 st3 root.
Proof. intros [A1 A2 A3] [B1 B2 B3]. constructor; auto. intros f x Hf Hu Hn Hx. rewrite (B3 f); auto. by apply (A3 f). Qed.

Lemma map_frame_kept st st' root path : idx_ok path -> map_frame st st' root path -> kept_frames st st' root.
Proof.
  intros Hp M. constructor; [apply M| |].
  - intros f Hf Hu Hn p Hip Hl Hw. destruct (mf_back _ _ _ _ M p f Hip Hl Hw) as [Hw'|]; [by apply (Hn p)|done].
  - intros f x Hf Hu Hn Hx. apply (page_bytes_eq _ _ f); [|done]. intros i Hi. apply (mf_keep _ _ _ _ M); try done.
    intros (p & r & -> & Hl & Hw). apply idx_ok_app in Hp as [Hp _]. by apply (Hn p).
Qed.

(** ** [vmmUnmapPage] *)

(** The byte at [x] is not inside of a table of the tree. *)
Definition outside_tables (m : mem) (root x : Z) : Prop :=
  forall q f, idx_ok q -> (length q <= 3)%nat -> walk m root q = Some f -> ~ tbl f <= x < tbl f + 4096.

Lemma outside_write m root x p f i m' v : outside_tables m root x -> idx_ok p -> (length p <= 3)%nat -> walk m root p = Some f -> 0 <= i < 512 ->
  rd8 (wr64 m' (tbl f + 8 * i) v) x = rd8 m' x.
Proof. intros Hx Hp Hl Hw Hi. specialize (Hx p f Hp Hl Hw). unfold wr64. rewrite rd8_wr. bsplit; done || lia. Qed.

(** [st'] is [st] with some empty tables of its tree released. *)
Definition shrinks (st st' : Vm S) (root : Z) : Prop :=
  pt_wf st' root /\
  (forall q, idx_ok q -> length q = 4%nat ->
     xl (vm_mem st') root q = xl (vm_mem st) root q) /\
  (forall q f, idx_ok q -> (length q <= 3)%nat ->
     walk (vm_mem st') root q = Some f -> walk (vm_mem st) root q = Some f) /\
  (forall f, frame_addr f -> not_table (vm_mem st) root f ->
     fa_used (vm_fa st') f <-> fa_used (vm_fa st) f) /\
  (forall f, frame_addr f -> fa_used (vm_fa st') f -> fa_used (vm_fa st) f /\
     (is_table (vm_mem st) root f -> is_table (vm_mem st') root f)).

Lemma shrinks_refl st root : pt_wf st root -> shrinks st st root.
Proof. intros W. by split_and!. Qed.

Lemma shrinks_trans st1 st2 st3 root :
  shrinks st1 st2 root -> shrinks st2 st3 root -> shrinks st1 st3 root.
Proof.
  intros (W1 & X1 & K1 & U1 & T1) (W2 & X2 & K2 & U2 & T2). split_and!; [done| | | |].
  - intros q Hq Hl. rewrite X2, X1; done.
  - auto.
  - intros f Hf Hn. rewrite U2, U1; try done. intros q Hq Hl Hw. by apply (Hn q), K1.
  - intros f Hf Hu. destruct (T2 f Hf Hu) as [Hu2 Ht2]. destruct (T1 f Hf Hu2) as [Hu1 Ht1]. auto.
Qed.

Lemma isTableEmpty_spec m g : isTableEmpty m (tbl g) = true <->
  forall i, 0 <= i < 512 -> present (entry m g i) = false.
Proof.
  unfold isTableEmpty. rewrite forallb_forall. split.
  - intros Ha i Hi. apply negb_true_iff, Ha. apply list_elem_of_In, elem_of_seqZ. lia.
  - intros Ha i Hi. apply list_elem_of_In, elem_of_seqZ in Hi.
    apply negb_true_iff, Ha. lia.
Qed.

Lemma walk_snoc_inv m root p g j f : walk m root p = Some g -> walk m root (p ++ [j]) = Some f ->
  present (entry m g j) = true /\ huge (entry m g j) = false /\ f = nextf (entry m g j).
Proof.
  intros Hw. rewrite walk_app, Hw. simpl.
  destruct (present (entry m g j)), (huge (entry m g j)); simpl; intros; by simplify_eq.
Qed.

Lemma drop_table_step st root p j g f : pt_wf st root -> idx_ok p -> (length p <= 2)%nat ->
  walk (vm_mem st) root p = Some g -> 0 <= j < 512 ->
  walk (vm_mem st) root (p ++ [j]) = Some f -> isTableEmpty (vm_mem st) (tbl f) = true ->
  let st' := mkVm (wr64 (vm_mem st) (tbl g + 8 * j) 0) (fa_free (vm_fa st) f) in
  shrinks st st' root /\
  forall q h, idx_ok q -> (length q <= length p)%nat ->
    walk (vm_mem st) root q = Some h -> walk (vm_mem st') root q = Some h.
Proof.
  intros W Hp Hl Hw Hj Hwf Hemp st'. rewrite isTableEmpty_spec in Hemp.
  destruct (walk_snoc_inv _ _ _ _ _ _ Hw Hwf) as (Hpe & Hhe & Hfe).
  assert (H0 : is_u64 0) by done.
  pose proof (agree_write st root p j g 0 W Hp ltac:(lia) Hw Hj H0) as Hag.
  destruct (pw_used st root W p g Hp ltac:(lia) Hw) as [Hg _].
  assert (Hent : forall h i, table_frame h -> 0 <= i < 512 ->
    entry (vm_mem st') h i = if (h =? g) && (i =? j) then 0 else entry (vm_mem st) h i).
  { intros. apply entry_wr; auto with nova. }
  assert (Hsame : present (entry (vm_mem st') g j) = false)
    by (rewrite Hent, !Z.eqb_refl by auto with nova; done).
  assert (Hpj : idx_ok (p ++ [j])) by (apply idx_ok_app; auto with nova).
  assert (Hlj : (length (p ++ [j]) <= 3)%nat) by (rewrite length_app; simpl; lia).
  destruct (pw_used st root W _ f Hpj Hlj Hwf) as [Hf _].
  assert (Hfu : is_u64 f) by (unfold is_u64; destruct Hf; lia).
  pose proof (drop_table_walk _ _ root p j g Hag Hw Hp Hl Hsame) as Hwk.
  assert (Hne : forall q h, idx_ok q -> (length q <= 3)%nat ->
            walk (vm_mem st') root q = Some h -> f <> h).
  { intros q h Hq Hlq Hwq ->. destruct (Hwk q h Hq Hlq Hwq) as [Hwq' Hqne].
    apply Hqne. by apply (pw_inj st root W q _ h). }
  split; [split_and!|].
  - constructor; simpl.
    + by apply fa_free_ok; [apply W|].
    + intros q h Hq Hlq Hwq. destruct (Hwk q h Hq Hlq Hwq) as [Hwq' _].
      destruct (pw_used st root W q h Hq Hlq Hwq') as [Hh Hu]. split; [done|].
      apply fa_free_used; [apply W|done..|]. split; [done|]. by apply (Hne q).
    + intros q r h Hq Hr Hlq Hlr Hwq Hwr. destruct (Hwk q h Hq Hlq Hwq) as [Hwq' _].
      destruct (Hwk r h Hr Hlr Hwr) as [Hwr' _]. by apply (pw_inj st root W q r h).
    + intros i Hi. pose proof (root_frame st root W). rewrite Hent by auto with nova.
      destruct (_ && _); [done|]. by apply (pw_top st root W).
  - intros q Hq Hlq. rewrite Hfe in Hemp.
    apply (drop_table_xl _ _ root p j g Hag); done || lia.
  - intros q h Hq Hlq Hwq. by apply Hwk.
  - intros h Hh Hnt. simpl. rewrite fa_free_used by (apply W || done).
    split; [tauto|]. intros Hu. split; [done|]. intros ->. by apply (Hnt _ Hpj Hlj).
  - intros h Hh Hu. simpl in Hu. apply fa_free_used in Hu as [Hu Hfh]; [|apply W|done|done]. split; [done|].
    intros (q & Hq & Hlq & Hwq). exists q. split_and!; [done..|]. simpl. rewrite <- Hwq.
    apply (walk_off _ _ root p j g Hag); [done|lia|]. rewrite visits_root. intros [r ->].
    rewrite cons_middle, app_assoc, walk_app, Hwf in Hwq. cbn [mbind option_bind] in Hwq. destruct r as [|k r]; [cbn in Hwq; congruence|].
    cbn [walk] in Hwq. rewrite Hemp in Hwq; [done|].
    apply idx_ok_app in Hq as [_ Hq]. inversion Hq as [|? ? _ Hq2]. by inversion Hq2.
  - intros q h Hq Hlq Hwq. simpl. rewrite <- Hwq. apply (walk_off _ _ root p j g Hag); [done|lia|].
    rewrite visits_root. intros [r ->]. rewrite length_app in Hlq. simpl in Hlq. lia.
Qed.

(** A path through an absent entry translates nothing. *)
Lemma xl_absent m root p g j r : walk m root p = Some g -> present (entry m g j) = false ->
  xl m root (p ++ j :: r) = None.
Proof. intros Hw Hp. rewrite (xl_app m p root g) by done. simpl. by rewrite Hp. Qed.

(** The release of emptied tables at the end of [vmmUnmapPage]. *)
Definition release_tables (st : Vm S) (i4 i3 i2 f1 f2 f3 root : Z) : Vm S :=
  let m1 := vm_mem st in
  let fa := vm_fa st in
  if isTableEmpty m1 (tbl f3) then
    let m2 := wr64 m1 (tbl f2 + 8 * i2) 0 in
    let fa2 := fa_free fa f3 in
    if isTableEmpty m2 (tbl f2) then
      let m3 := wr64 m2 (tbl f1 + 8 * i3) 0 in
      let fa3 := fa_free fa2 f2 in
      if (i4 <? 256) && isTableEmpty m3 (tbl f1) then
        mkVm (wr64 m3 (tbl root + 8 * i4) 0) (fa_free fa3 f1)
      else mkVm m3 fa3
    else mkVm m2 fa2
  else mkVm m1 fa.

Lemma release_tables_shrinks st i4 i3 i2 f1 f2 f3 root : pt_wf st root ->
  0 <= i4 < 512 -> 0 <= i3 < 512 -> 0 <= i2 < 512 ->
  walk (vm_mem st) root [i4] = Some f1 -> walk (vm_mem st) root [i4; i3] = Some f2 ->
  walk (vm_mem st) root [i4; i3; i2] = Some f3 ->
  shrinks st (release_tables st i4 i3 i2 f1 f2 f3 root) root.
Proof.
  intros W R4 R3 R2 K1 K2 K3. unfold release_tables. cbv zeta.
  destruct (isTableEmpty (vm_mem st) (tbl f3)) eqn:E3; [|destruct st; by apply shrinks_refl].
  destruct (drop_table_step st root [i4; i3] i2 f2 f3) as [S1 F1]; auto with nova.
  set (st1 := mkVm (wr64 (vm_mem st) (tbl f2 + 8 * i2) 0) (fa_free (vm_fa st) f3)) in *.
  change (wr64 (vm_mem st) (tbl f2 + 8 * i2) 0) with (vm_mem st1).
  change (fa_free (vm_fa st) f3) with (vm_fa st1). clearbody st1.
  destruct (isTableEmpty (vm_mem st1) (tbl f2)) eqn:E2; [|by destruct st1].
  apply F1 in K1, K2; [|simpl; auto with nova..].
  destruct (drop_table_step st1 root [i4] i3 f1 f2) as [S2 F2]; auto with nova; [apply S1|].
  set (st2 := mkVm (wr64 (vm_mem st1) (tbl f1 + 8 * i3) 0) (fa_free (vm_fa st1) f2)) in *.
  change (wr64 (vm_mem st1) (tbl f1 + 8 * i3) 0) with (vm_mem st2).
  change (fa_free (vm_fa st1) f2) with (vm_fa st2). clearbody st2.
  pose proof (shrinks_trans _ _ _ _ S1 S2) as S12.
  destruct (isTableEmpty (vm_mem st2) (tbl f1)) eqn:E1;
    [|rewrite andb_false_r; by destruct st2].
  destruct (i4 <? 256); cbn [andb]; [|by destruct st2].
  apply F2 in K1; [|simpl; auto with nova..].
  destruct (drop_table_step st2 root [] i4 root f1) as [S3 _]; auto with nova; [apply S12|].
  exact (shrinks_trans _ _ _ _ S12 S3).
Qed.

Lemma vmmUnmapPage_spec st root virt :
  pt_wf st root -> is_u64 virt -> no_huge (vm_mem st) root virt ->
  let r := vmmUnmapPage st (tbl root) virt in
  pt_wf r.1 root /\ r.2 = 0 /\
  (forall q, idx_ok q -> length q = 4%nat -> xl (vm_mem r.1) root q =
     if decide (q = vpath virt) then None else xl (vm_mem st) root q) /\
  (forall f, frame_addr f -> not_table (vm_mem st) root f ->
     fa_used (vm_fa r.1) f <-> fa_used (vm_fa st) f) /\
  (forall f, not_table (vm_mem st) root f -> not_table (vm_mem r.1) root f) /\
  (forall x, outside_tables (vm_mem st) root x -> rd8 (vm_mem r.1) x = rd8 (vm_mem st) x) /\
  (forall f, frame_addr f -> fa_used (vm_fa r.1) f -> fa_used (vm_fa st) f /\
     (is_table (vm_mem st) root f -> is_table (vm_mem r.1) root f)).
Proof.
  intros W Hv Hh. unfold vmmUnmapPage.
  rewrite <- (vpath_page virt Hv). unfold no_huge in Hh. rewrite <- (vpath_page virt Hv) in Hh.
  fold (no_huge (vm_mem st) root (page_down virt)) in Hh.
  set (v := page_down virt) in *. unfold vpath in *.
  set (i4 := tidx v 39) in *. set (i3 := tidx v 30) in *.
  set (i2 := tidx v 21) in *. set (i1 := tidx v 12) in *.
  assert (0 <= i4 < 512 /\ 0 <= i3 < 512 /\ 0 <= i2 < 512 /\ 0 <= i1 < 512) as (R4 & R3 & R2 & R1)
    by (split_and!; apply tidx_range).
  cbv zeta. fold (entry (vm_mem st) root i4).
  fold (present (entry (vm_mem st) root i4)).
  destruct (present (entry (vm_mem st) root i4)) eqn:P4; cbn [negb].
  2: { split_and!; try done. intros q Hq Hl. case_decide; [subst q|done].
       by apply (xl_absent _ root [] root i4). }
  pose proof (pw_top st root W i4 R4 P4) as H4.
  fold (nextf (entry (vm_mem st) root i4)). set (f1 := nextf (entry (vm_mem st) root i4)).
  assert (K1 : walk (vm_mem st) root [i4] = Some f1) by (by apply (walk_snoc _ root [])).
  clearbody f1. fold (tbl f1). fold (entry (vm_mem st) f1 i3).
  fold (present (entry (vm_mem st) f1 i3)).
  destruct (present (entry (vm_mem st) f1 i3)) eqn:P3; cbn [negb].
  2: { split_and!; try done. intros q Hq Hl. case_decide; [subst q|done].
       by apply (xl_absent _ root [i4] f1 i3). }
  assert (H3 : huge (entry (vm_mem st) f1 i3) = false)
    by (by apply (no_huge_step _ root v [i4] i3 [i2; i1])).
  fold (huge (entry (vm_mem st) f1 i3)). rewrite H3.
  fold (nextf (entry (vm_mem st) f1 i3)). set (f2 := nextf (entry (vm_mem st) f1 i3)).
  assert (K2 : walk (vm_mem st) root [i4; i3] = Some f2) by (by apply (walk_snoc _ root [i4])).
  clearbody f2. fold (tbl f2). fold (entry (vm_mem st) f2 i2).
  fold (present (entry (vm_mem st) f2 i2)).
  destruct (present (entry (vm_mem st) f2 i2)) eqn:P2; cbn [negb].
  2: { split_and!; try done. intros q Hq Hl. case_decide; [subst q|done].
       by apply (xl_absent _ root [i4; i3] f2 i2). }
  assert (H2 : huge (entry (vm_mem st) f2 i2) = false)
    by (by apply (no_huge_step _ root v [i4; i3] i2 [i1])).
  fold (huge (entry (vm_mem st) f2 i2)). rewrite H2.
  fold (nextf (entry (vm_mem st) f2 i2)). set (f3 := nextf (entry (vm_mem st) f2 i2)).
  assert (K3 : walk (vm_mem st) root [i4; i3; i2] = Some f3) by (by apply (walk_snoc _ root [i4; i3])).
  clearbody f3. fold (tbl f3).
  destruct (leaf_write_wf st root [i4; i3; i2] i1 f3 0 W) as (W1 & X1 & F1); try done; auto with nova.
  set (st1 := mkVm (wr64 (vm_mem st) (tbl f3 + 8 * i1) 0) (vm_fa st)) in *.
  change (wr64 (vm_mem st) (tbl f3 + 8 * i1) 0) with (vm_mem st1).
  destruct (release_tables_shrinks st1 i4 i3 i2 f1 f2 f3 root W1 R4 R3 R2) as (W2 & X2 & B2 & U2 & T2);
    [rewrite F1; auto with nova; simpl; lia..|].
  match goal with |- pt_wf (fst ?t) root /\ _ =>
    assert (E : t = (release_tables st1 i4 i3 i2 f1 f2 f3 root, 0)) end.
  { unfold release_tables. cbv zeta. repeat case_match; reflexivity. }
  rewrite E. cbn [fst snd]. split_and!; [done|done| | | | |].
  - intros q Hq Hl. rewrite X2, X1 by done. done.
  - intros f Hf Hnt. rewrite U2; [reflexivity|done|]. intros q Hq Hl. rewrite F1 by done. by apply Hnt.
  - intros f Hnt q Hq Hl Hw. apply B2 in Hw; [|done..]. rewrite F1 in Hw by done. by apply (Hnt q).
  - intros x Hx. pose proof (fun p f i m => outside_write (vm_mem st) root x p f i m 0 Hx) as Hn.
    assert (E1 : rd8 (vm_mem st1) x = rd8 (vm_mem st) x) by (apply (Hn [i4; i3; i2] f3); auto with nova; simpl; lia).
    rewrite <- E1. unfold release_tables. repeat case_match; cbn [vm_mem]; try done;
      rewrite ?(Hn [] root), ?(Hn [i4] f1), ?(Hn [i4; i3] f2) by (auto with nova; simpl; lia); done.
  - intros f Hf Hu. destruct (T2 f Hf Hu) as [Hu1 Ht]. split; [done|]. intros (q & Hq & Hl & Hw). apply Ht.
    exists q. split_and!; [done..|]. by rewrite F1.
Qed.
End Ops.
