(* ===== verification/AddrSpace.v ===== *)
(** * Address spaces (src/kernel/mem/vmm.c, first half): the theorems

    What mapping, unmapping, creating and destroying do to the translation
    of every address and to the set of used frames. *)

From Stdlib Require Import ZArith Lia Bool.
From stdpp Require Import base list gmap.
From S2P Require Import Prelude Mem Frames Pmm PageTable PtWalk PtOps.

(** The page of an address: bits 12 to 47, which the four indices spell. *)
Definition vpage (v : Z) : Z := v mod 2 ^ 48 / 4096.

Lemma tidx_div v s : is_u64 v -> 0 <= s -> tidx v s = v / 2 ^ s mod 512.
Proof.
  intros Hv Hs. unfold tidx. change 0x1FF with (Z.ones 9).
  rewrite Z.land_ones, Z.shiftr_div_pow2 by lia. done.
Qed.

Lemma vpage_digits v : is_u64 v ->
  vpage v = ((tidx v 39 * 512 + tidx v 30) * 512 + tidx v 21) * 512 + tidx v 12.
Proof.
  intros Hv. rewrite !tidx_div by (done || lia). unfold vpage, is_u64 in *.
  change (2 ^ 48) with (4096 * 512 * 512 * 512 * 512).
  change (2 ^ 39) with (4096 * 512 * 512 * 512). change (2 ^ 30) with (4096 * 512 * 512).
  change (2 ^ 21) with (4096 * 512). change (2 ^ 12) with 4096.
  divlia.
Qed.

Lemma vpath_vpage v w : is_u64 v -> is_u64 w -> vpath v = vpath w <-> vpage v = vpage w.
Proof.
  intros Hv Hw. rewrite !vpage_digits by done. unfold vpath.
  pose proof (tidx_range v 39). pose proof (tidx_range v 30).
  pose proof (tidx_range v 21). pose proof (tidx_range v 12).
  pose proof (tidx_range w 39). pose proof (tidx_range w 30).
  pose proof (tidx_range w 21). pose proof (tidx_range w 12).
  split; [congruence|]. intros E.
  assert (tidx v 39 = tidx w 39 /\ tidx v 30 = tidx w 30 /\ tidx v 21 = tidx w 21 /\
          tidx v 12 = tidx w 12) as (-> & -> & -> & ->) by lia. done.
Qed.

Section Spaces.
Context {S : Type} `{FrameAllocator S} `{!FrameAllocatorLaws S}.
Implicit Types (st : Vm S).

(** Translation of an address whose path ends in a 4 KiB entry. *)
Lemma phys_of_leaf v phys flags : is_u64 v -> is_u64 phys -> phys < 2 ^ 52 -> is_u64 flags ->
  nextf flags = 0 ->
  phys_of v (Some (leaf_entry phys flags, 0%nat)) = page_down phys + v mod 4096.
Proof.
  intros Hv Hp Hl Hf Hn. destruct (leaf_entry_facts phys flags) as (_ & _ & E); [done..|].
  unfold phys_of. fold (nextf (leaf_entry phys flags)). rewrite E.
  change (PAGE_SIZE - 1) with (Z.ones 12). rewrite Z.land_ones by lia.
  change (2 ^ 12) with 4096.
  assert (Z.land (page_down phys) (v mod 4096) = 0) as E0;
    [|rewrite <- Z.add_lor_land, E0; lia].
  apply Z.bits_inj'. intros n Hn0. rewrite Z.land_spec, Z.testbit_0_l.
  destruct (Z.ltb_spec n 12).
  - rewrite frame_low_bit; [done|by apply page_down_aligned|lia].
  - rewrite (testbit_above (v mod 4096) n 12); [apply andb_false_r|change (2 ^ 12) with 4096; divlia|lia].
Qed.

(** ** Creating an address space *)

Lemma walk_empty_root m root p f : (forall i, 0 <= i < 512 -> present (entry m root i) = false) ->
  idx_ok p -> walk m root p = Some f -> p = [] /\ f = root.
Proof.
  intros He Hp. destruct Hp as [|i p Hi _]; simpl; [by intros [= ->]|]. by rewrite He.
Qed.

Lemma empty_root_wf st root : fa_ok (vm_fa st) -> frame_addr root -> fa_used (vm_fa st) root ->
  (forall i, 0 <= i < 512 -> present (entry (vm_mem st) root i) = false) -> pt_wf st root.
Proof.
  intros Hok Hr Hu He. constructor; try done.
  - intros p f Hp _ Hw. by destruct (walk_empty_root _ _ _ _ He Hp Hw) as [_ ->].
  - intros p q f Hp Hq _ _ Hw Hw'. destruct (walk_empty_root _ _ _ _ He Hp Hw) as [-> _].
    by destruct (walk_empty_root _ _ _ _ He Hq Hw') as [-> _].
  - intros i Hi. by rewrite He.
Qed.

(** [vmmInit] from a boot table with an empty kernel half. *)
Lemma vmmInit_empty st st' boot root : (vmmInit st (tbl boot)).1 = st' -> fa_ok (vm_fa st) -> table_frame boot ->
  (fa_alloc (vm_fa st)).2 = root -> root <> 0 -> root <> boot ->
  (forall i, 256 <= i < 512 -> entry (vm_mem st) boot i = 0) ->
  pt_wf st' root /\ forall i, 0 <= i < 512 -> present (entry (vm_mem st') root i) = false.
Proof.
  intros <- Hok Hb Ha Hne Hrb He. unfold vmmInit.
  pose proof (fa_alloc_ok _ Hok) as Hok'. pose proof (fa_alloc_frame _ Hok) as Hf.
  pose proof (fun a => fa_alloc_used _ a Hok) as Hu.
  destruct (fa_alloc (vm_fa st)) as [p a]. cbn [fst snd] in *. subst a.
  destruct (Z.eqb_spec root 0); [done|]. cbv zeta. cbn [fst vm_mem]. fold (tbl root).
  specialize (Hf Hne).
  set (m1 := zfor 0 512 _ _). set (m2 := zfor 256 512 _ _).
  assert (Hall : forall i, 0 <= i < 512 -> present (entry m2 root i) = false).
  { intros i Hi. unfold m2, m1. rewrite entry_copy_loop, !entry_zero_loop by (auto with nova; lia).
    destruct (Z.eqb_spec boot root); [congruence|]. rewrite !Z.eqb_refl. cbn [andb].
    destruct (Z.leb_spec 256 i), (Z.ltb_spec i 512); try lia; [rewrite He by lia|]; reflexivity. }
  clearbody m2.
  split; [|exact Hall]. apply empty_root_wf; [exact Hok'|exact Hf| |exact Hall].
  apply Hu; auto.
Qed.

(** Walks and translations only read the entries of the tables they reach. *)
Lemma walk_ext m m' root p : 
  (forall c f i, idx_ok c -> (length c <= 3)%nat -> walk m root c = Some f -> 0 <= i < 512 ->
     entry m' f i = entry m f i) ->
  idx_ok p -> (length p <= 4)%nat -> walk m' root p = walk m root p /\ xl m' root p = xl m root p.
Proof.
  intros He. 
  assert (Hag : agree m m' root [] (-1)) by (intros c f i Hc Hl Hw Hi _; by apply (He c)).
  assert (Hv : idx_ok p -> ~ visits [] p [] (-1)).
  { rewrite visits_root. intros Hp [r ->]. inversion Hp; lia. }
  intros Hp Hl. split.
  - apply (walk_agree m m' root [] (-1) Hag p []); auto.
  - apply (xl_agree m m' root [] (-1) Hag p []); auto.
Qed.

Lemma create_cases st kroot : fa_ok (vm_fa st) -> frame_addr kroot -> fa_used (vm_fa st) kroot ->
  let r := vmmCreateAddressSpace st (tbl kroot) in
  (r = (st, 0) /\ (fa_alloc (vm_fa st)).2 = 0) \/
  exists root, r.2 = tbl root /\ frame_addr root /\ ~ fa_used (vm_fa st) root /\
    fa_ok (vm_fa r.1) /\
    (forall f, frame_addr f -> fa_used (vm_fa r.1) f <-> f = root \/ fa_used (vm_fa st) f) /\
    (forall f i, table_frame f -> 0 <= i < 512 -> entry (vm_mem r.1) f i =
       if f =? root then (if 256 <=? i then entry (vm_mem st) kroot i else 0)
       else entry (vm_mem st) f i).
Proof.
  intros Hok Hk Hku. unfold vmmCreateAddressSpace. cbv zeta.
  destruct (fa_alloc (vm_fa st)) as [fa1 root] eqn:Ea.
  destruct (Z.eqb_spec root 0) as [->|Hne].
  - left. split; [|done]. pose proof (fa_alloc_null _ Hok) as Hn. rewrite Ea in Hn.
    specialize (Hn eq_refl). simpl in Hn. subst fa1. by destruct st.
  - right. exists root. cbn [fst snd vm_mem vm_fa].
    pose proof (fa_alloc_frame _ Hok) as Hf. pose proof (fa_alloc_fresh _ Hok) as Hfr.
    pose proof (fa_alloc_ok _ Hok) as Hok'.
    pose proof (fun f => fa_alloc_used (vm_fa st) f Hok) as Hu.
    rewrite Ea in *. cbn [fst snd] in *. split_and!; auto.
    intros f i Hfr' Hi. fold (tbl root). specialize (Hf Hne).
    assert (root <> kroot) by (intros ->; by apply Hfr).
    rewrite entry_copy_loop, !entry_zero_loop by (auto with nova; lia).
    destruct (Z.eqb_spec kroot root); [congruence|].
    destruct (Z.eqb_spec f root), (Z.leb_spec 256 i), (Z.ltb_spec i 256); simpl; done || lia.
Qed.

(** Walks through the new table: only the kernel half leads anywhere, and to
    the tables of the kernel. *)
Section Created.
Context (st st' : Vm S) (kroot root : Z).
Hypothesis W : pt_wf st kroot.
Hypothesis Hroot : frame_addr root.
Hypothesis Hfresh : ~ fa_used (vm_fa st) root.
Hypothesis Hent : forall f i, table_frame f -> 0 <= i < 512 -> entry (vm_mem st') f i =
   if f =? root then (if 256 <=? i then entry (vm_mem st) kroot i else 0)
   else entry (vm_mem st) f i.

Lemma created_tables c f i : idx_ok c -> (length c <= 3)%nat ->
  walk (vm_mem st) kroot c = Some f -> 0 <= i < 512 ->
  entry (vm_mem st') f i = entry (vm_mem st) f i.
Proof.
  intros Hc Hl Hw Hi. destruct (pw_used st kroot W c f Hc Hl Hw) as [Hf Hu].
  rewrite Hent by auto with nova. destruct (Z.eqb_spec f root); [by subst|done].
Qed.

Lemma created_kernel p : idx_ok p -> (length p <= 4)%nat ->
  walk (vm_mem st') kroot p = walk (vm_mem st) kroot p /\
  xl (vm_mem st') kroot p = xl (vm_mem st) kroot p.
Proof. apply walk_ext, created_tables. Qed.

(** Below an entry of the kernel's table. *)
Lemma created_below i p : 0 <= i < 512 -> idx_ok p -> (length p <= 3)%nat ->
  present (entry (vm_mem st) kroot i) = true ->
  let f := nextf (entry (vm_mem st) kroot i) in
  walk (vm_mem st') f p = walk (vm_mem st) f p /\ xl (vm_mem st') f p = xl (vm_mem st) f p.
Proof.
  intros Hi Hp Hl Hpr f. pose proof (pw_top st kroot W i Hi Hpr) as Hh.
  assert (Hwi : walk (vm_mem st) kroot [i] = Some f) by (simpl; by rewrite Hpr, Hh).
  assert (Hag : agree (vm_mem st) (vm_mem st') kroot [] (-1))
    by (intros c g k Hc Hlc Hw Hk _; by apply (created_tables c)).
  assert (Hv : ~ visits [i] p [] (-1)) by (intros (q1 & q2 & _ & ?); by destruct q1).
  split.
  - apply (walk_agree _ _ kroot [] (-1) Hag p [i]); simpl; auto with nova; lia.
  - apply (xl_agree _ _ kroot [] (-1) Hag p [i]); simpl; auto with nova; lia.
Qed.

Lemma created_walk i p : 0 <= i < 512 -> idx_ok p -> (length p <= 2)%nat ->
  walk (vm_mem st') root (i :: p) = if 256 <=? i then walk (vm_mem st) kroot (i :: p) else None.
Proof.
  intros Hi Hp Hl. simpl. rewrite Hent by auto with nova. rewrite Z.eqb_refl.
  destruct (Z.leb_spec 256 i); [|done].
  destruct (present (entry (vm_mem st) kroot i)) eqn:Ep; [|done].
  rewrite (pw_top st kroot W i Hi Ep). simpl. apply created_below; done || lia.
Qed.

Lemma created_xl i j p : 0 <= i < 512 -> idx_ok (j :: p) -> (length p <= 2)%nat ->
  xl (vm_mem st') root (i :: j :: p) =
  if 256 <=? i then xl (vm_mem st) kroot (i :: j :: p) else None.
Proof.
  intros Hi Hp Hl. cbn [xl]. rewrite Hent by auto with nova. rewrite Z.eqb_refl.
  destruct (Z.leb_spec 256 i); [|done].
  destruct (present (entry (vm_mem st) kroot i)) eqn:Ep; [|done]. cbn [negb].
  rewrite (pw_top st kroot W i Hi Ep).
  exact (proj2 (created_below i (j :: p) Hi Hp ltac:(simpl; lia) Ep)).
Qed.
End Created.

Lemma create_wf st st' kroot root : pt_wf st kroot -> frame_addr root ->
  ~ fa_used (vm_fa st) root -> fa_ok (vm_fa st') ->
  (forall f, frame_addr f -> fa_used (vm_fa st') f <-> f = root \/ fa_used (vm_fa st) f) ->
  (forall f i, table_frame f -> 0 <= i < 512 -> entry (vm_mem st') f i =
     if f =? root then (if 256 <=? i then entry (vm_mem st) kroot i else 0)
     else entry (vm_mem st) f i) ->
  pt_wf st' root /\ pt_wf st' kroot.
Proof.
  intros W Hr Hfr Hok Hu He.
  assert (Hcr : forall p f, idx_ok p -> (length p <= 3)%nat -> walk (vm_mem st') root p = Some f ->
            (p = [] /\ f = root) \/ (p <> [] /\ walk (vm_mem st) kroot p = Some f)).
  { intros p f Hp Hl Hw. destruct Hp as [|i p Hi Hp]; [left; by simplify_eq/=|]. right.
    split; [done|]. rewrite (created_walk st st' kroot root) in Hw by (done || simpl in *; lia).
    by destruct (256 <=? i). }
  split; constructor; try done.
  - intros p f Hp Hl Hw. destruct (Hcr p f Hp Hl Hw) as [[-> ->]|[_ Hw']].
    + split; [done|]. apply Hu; auto.
    + destruct (pw_used st kroot W p f Hp Hl Hw') as [Hf Hus]. split; [done|]. apply Hu; auto.
  - intros p q f Hp Hq Hlp Hlq Hwp Hwq.
    destruct (Hcr p f Hp Hlp Hwp) as [[-> Ep]|[_ Hwp']], (Hcr q f Hq Hlq Hwq) as [[-> Eq]|[_ Hwq']];
      try done.
    + subst f. exfalso. apply Hfr. by apply (pw_used st kroot W q root).
    + subst f. exfalso. apply Hfr. by apply (pw_used st kroot W p root).
    + by apply (pw_inj st kroot W p q f).
  - intros i Hi. rewrite He, Z.eqb_refl by auto with nova. destruct (256 <=? i); [|done].
    by apply (pw_top st kroot W).
  - intros p f Hp Hl. rewrite (proj1 (created_kernel st st' kroot root W Hfr He p Hp ltac:(lia))).
    intros Hw. destruct (pw_used st kroot W p f Hp Hl Hw) as [Hf Hus]. split; [done|]. apply Hu; auto.
  - intros p q f Hp Hq Hlp Hlq.
    rewrite (proj1 (created_kernel st st' kroot root W Hfr He p Hp ltac:(lia))).
    rewrite (proj1 (created_kernel st st' kroot root W Hfr He q Hq ltac:(lia))).
    by apply (pw_inj st kroot W).
  - intros i Hi. rewrite (created_tables st st' kroot root W Hfr He [] kroot) by (done || solve [auto with nova] || (simpl; lia)).
    by apply (pw_top st kroot W).
Qed.

(** ** Separation of address spaces *)

(** The user half of [A] has no table in common with [B]. *)
Definition separate (m : mem) (A B : Z) : Prop :=
  forall q f, idx_ok q -> (length q <= 3)%nat -> match q with [] => True | i :: _ => i < 256 end ->
    walk m A q = Some f -> not_table m B f.

Lemma tidx_user v : 0 <= v < 2 ^ 47 -> tidx v 39 < 256.
Proof.
  intros Hv. rewrite tidx_div by (unfold is_u64; lia).
  change (2 ^ 39) with (4096 * 512 * 512 * 512). divlia.
Qed.

(** A change that keeps every table of [B] keeps its translations. *)
Lemma kept_space st st' B : pt_wf st B -> fa_ok (vm_fa st') ->
  (forall f, frame_addr f -> fa_used (vm_fa st) f -> ~ not_table (vm_mem st) B f ->
     fa_used (vm_fa st') f) ->
  (forall c f i, idx_ok c -> (length c <= 3)%nat -> walk (vm_mem st) B c = Some f -> 0 <= i < 512 ->
     entry (vm_mem st') f i = entry (vm_mem st) f i) ->
  pt_wf st' B /\
  (forall q, idx_ok q -> (length q <= 4)%nat -> walk (vm_mem st') B q = walk (vm_mem st) B q /\
     xl (vm_mem st') B q = xl (vm_mem st) B q).
Proof.
  intros W Hok Hu He. pose proof (fun q => walk_ext _ _ B q He) as Hx. split; [|done].
  assert (Hwk : forall q, idx_ok q -> (length q <= 3)%nat ->
            walk (vm_mem st') B q = walk (vm_mem st) B q) by (intros; apply Hx; done || lia).
  constructor; try done.
  - intros p f Hp Hl. rewrite Hwk by done. intros Hw.
    destruct (pw_used st B W p f Hp Hl Hw) as [Hf Hus]. split; [done|].
    apply Hu; [done..|]. intros Hn. by apply (Hn p).
  - intros p q f Hp Hq Hlp Hlq. rewrite !Hwk by done. by apply (pw_inj st B W).
  - intros i Hi. rewrite (He [] B i) by (done || solve [auto with nova] || (simpl; lia)). by apply (pw_top st B W).
Qed.

(** Mapping a user page of [A] keeps the tables of [B]. *)
Lemma map_keeps_space st st' A B v : pt_wf st B -> separate (vm_mem st) A B -> 0 <= v < 2 ^ 47 ->
  map_frame st st' A (vpath v) ->
  pt_wf st' B /\ forall q, idx_ok q -> (length q <= 4)%nat ->
    walk (vm_mem st') B q = walk (vm_mem st) B q /\ xl (vm_mem st') B q = xl (vm_mem st) B q.
Proof.
  intros W Hs Hv M. apply (kept_space st st' B W).
  - apply (pw_ok _ _ (mf_wf _ _ _ _ M)).
  - intros. by apply (mf_used _ _ _ _ M).
  - intros c f i Hc Hl Hw Hi. destruct (pw_used st B W c f Hc Hl Hw) as [Hf Hu].
    apply (mf_keep _ _ _ _ M); try done. intros (q & r & E & Hlq & Hwq).
    assert (Hq : idx_ok q) by (pose proof (vpath_ok v) as Hok; rewrite E in Hok;
      apply idx_ok_app in Hok; tauto).
    apply (Hs q f Hq Hlq) with c; try done.
    destruct q as [|i4 q]; [done|]. unfold vpath in E. injection E as <- _. by apply tidx_user.
Qed.

Lemma map_separate st st' A B v : pt_wf st B -> separate (vm_mem st) A B -> 0 <= v < 2 ^ 47 ->
  map_frame st st' A (vpath v) ->
  pt_wf st' B /\ separate (vm_mem st') A B /\
  forall q, idx_ok q -> (length q <= 4)%nat -> xl (vm_mem st') B q = xl (vm_mem st) B q.
Proof.
  intros W Hs Hv M. destruct (map_keeps_space st st' A B v W Hs Hv M) as [W' Hx].
  split_and!; [done| |intros; by apply Hx].
  intros q f Hq Hl Hhd Hw c Hc Hlc. rewrite (proj1 (Hx c Hc ltac:(lia))).
  destruct (mf_back _ _ _ _ M q f Hq Hl Hw) as [Hw0|Hnu]; [by apply (Hs q)|].
  intros Hwc. by apply Hnu, (pw_used st B W c f).
Qed.

(** The new address space, with its untranslated user half. *)
Lemma create_isolated st kroot : pt_wf st kroot ->
  let r := vmmCreateAddressSpace st (tbl kroot) in
  (r.2 = 0 <-> (fa_alloc (vm_fa st)).2 = 0) /\
  (r.2 <> 0 -> exists root, r.2 = tbl root /\ frame_addr root /\ ~ fa_used (vm_fa st) root /\
     pt_wf r.1 root /\ pt_wf r.1 kroot /\ separate (vm_mem r.1) root kroot /\
     (forall v, tidx v 39 < 256 -> xl (vm_mem r.1) root (vpath v) = None) /\
     forall v, is_u64 v ->
       translate r.1 root v = (if tidx v 39 <? 256 then 0 else translate st kroot v) /\
       translate r.1 kroot v = translate st kroot v).
Proof.
  intros W r. destruct (pw_used st kroot W [] kroot) as [Hk Hku]; [apply idx_ok_nil|simpl; lia|done|].
  destruct (create_cases st kroot (pw_ok st kroot W) Hk Hku)
    as [[E Ea]|(root & E & Hr & Hfr & Hok & Hu & He)]; fold r in E.
  - clearbody r. subst r. cbn [snd]. rewrite Ea. split; [tauto|congruence].
  - fold r in Hok, Hu, He.
    destruct (create_wf st r.1 kroot root W Hr Hfr Hok Hu He) as [Wr Wk].
    assert (Hne : r.2 <> 0).
    { rewrite E. destruct Hr as [Hr _]. unfold tbl, u64, HHDM_BASE. divlia. }
    split.
    + split; [done|]. intros Ea. exfalso. unfold r, vmmCreateAddressSpace in Hne.
      destruct (fa_alloc (vm_fa st)) as [fa1 f]. simpl in Ea. by subst f.
    + intros _. exists root. split_and!; try done.
      * intros q f Hq Hl Hhd Hw c Hc Hlc Hwc.
        rewrite (proj1 (created_kernel st r.1 kroot root W Hfr He c Hc ltac:(lia))) in Hwc.
        destruct Hq as [|i q Hi Hq].
        -- simplify_eq/=. by apply Hfr, (pw_used st kroot W c f).
        -- rewrite (created_walk st r.1 kroot root W Hr Hfr He) in Hw by (done || simpl in *; lia).
           by destruct (Z.leb_spec 256 i); [lia|].
      * intros v Hv. unfold vpath.
        rewrite (created_xl st r.1 kroot root W Hr Hfr He) by (auto with nova; simpl; lia).
        by destruct (Z.leb_spec 256 (tidx v 39)); [lia|].
      * intros v Hv. split.
        -- rewrite !translate_xl by done. unfold vpath at 1.
           rewrite (created_xl st r.1 kroot root W Hr Hfr He) by (auto with nova; simpl; lia).
           destruct (Z.leb_spec 256 (tidx v 39)), (Z.ltb_spec (tidx v 39) 256); done || lia.
        -- apply translate_ext; [done..|].
           apply (created_kernel st r.1 kroot root W Hfr He); [apply vpath_ok|simpl; lia].
Qed.

(** ** Destroying an address space *)

(** A loop in which round [i] releases the frames [R i]. *)
Lemma zfor_release lo hi (body : Z -> S -> S) (R : Z -> Z -> Prop) fa : lo <= hi ->
  (forall i s, lo <= i < hi -> fa_ok s -> fa_ok (body i s) /\
     forall x, frame_addr x -> fa_used (body i s) x <-> fa_used s x /\ ~ R i x) ->
  fa_ok fa -> fa_ok (zfor lo hi body fa) /\
  forall x, frame_addr x ->
    fa_used (zfor lo hi body fa) x <-> fa_used fa x /\ ~ exists i, lo <= i < hi /\ R i x.
Proof.
  intros Hlh Hb Hok.
  apply (zfor_ind (fun k s => fa_ok s /\ forall x, frame_addr x ->
    fa_used s x <-> fa_used fa x /\ ~ exists i, lo <= i < k /\ R i x)); [lia| |].
  - split; [done|]. intros x Hx. split; [|tauto]. intros Hu. split; [done|].
    intros (i & Hi & _). lia.
  - intros k s Hk [Hs Hu]. destruct (Hb k s Hk Hs) as [Hok' Hu']. split; [done|].
    intros x Hx. rewrite Hu', Hu by done. split.
    + intros [[Hf Hn] HR]. split; [done|]. intros (i & Hi & HR').
      destruct (Z.eq_dec i k) as [->|]; [done|]. apply Hn. exists i. split; [lia|done].
    + intros [Hf Hn]. split_and!; [done| |].
      * intros (i & Hi & HR). apply Hn. exists i. split; [lia|done].
      * intros HR. apply Hn. exists k. split; [lia|done].
Qed.

(** Releasing one more frame after a loop. *)
Lemma free_after s fa a (R : Z -> Prop) : is_u64 a -> fa_ok s ->
  (forall x, frame_addr x -> fa_used s x <-> fa_used fa x /\ ~ R x) ->
  fa_ok (fa_free s a) /\
  forall x, frame_addr x -> fa_used (fa_free s a) x <-> fa_used fa x /\ ~ (x = a \/ R x).
Proof.
  intros Ha Hok Hu. split; [by apply fa_free_ok|]. intros x Hx.
  rewrite fa_free_used, Hu by done. split; [intros [[? ?] ?]|intros [? ?]]; intuition congruence.
Qed.

Lemma nextf_u64 e : is_u64 (nextf e).
Proof. pose proof (nextf_range e). unfold is_u64. lia. Qed.

(** The frames released below a table, by level: the table itself, and what
    its present entries release (huge entries are skipped). *)
Definition pt_frees (m : mem) (f x : Z) : Prop :=
  x = f \/ exists i, 0 <= i < 512 /\ present (entry m f i) = true /\ x = nextf (entry m f i).
Definition sub_frees (below : mem -> Z -> Z -> Prop) (m : mem) (f x : Z) : Prop :=
  x = f \/ exists i, 0 <= i < 512 /\ present (entry m f i) = true /\ huge (entry m f i) = false /\
    below m (nextf (entry m f i)) x.

Definition releases (op : S -> S) (R : Z -> Prop) : Prop :=
  forall fa, fa_ok fa -> fa_ok (op fa) /\
    forall x, frame_addr x -> fa_used (op fa) x <-> fa_used fa x /\ ~ R x.

Lemma destroy_pt_releases m f : is_u64 f -> releases (destroy_pt m f) (pt_frees m f).
Proof.
  intros Hf fa Hok. unfold destroy_pt.
  destruct (zfor_release 0 512 (fun i fa => let e := rd64 m (u64 (f + HHDM_BASE) + 8 * i) in
      if e &? VMM_FLAG_PRESENT then fa_free fa (Z.land e PTE_ADDR_MASK) else fa)
    (fun i x => present (entry m f i) = true /\ x = nextf (entry m f i)) fa) as [Hok1 Hu1]; try done.
  - intros i s Hi Hs. cbv zeta. fold (tbl f). fold (entry m f i).
    fold (present (entry m f i)). fold (nextf (entry m f i)).
    destruct (present (entry m f i)).
    + split; [apply fa_free_ok; [done|apply nextf_u64]|]. intros x Hx.
      rewrite fa_free_used by (done || apply nextf_u64). intuition congruence.
    + split; [done|]. intros x Hx. intuition congruence.
  - apply free_after; done.
Qed.

Lemma destroy_sub_releases m f below (body : Z -> S -> S) : is_u64 f ->
  (forall g, is_u64 g -> releases (body g) (below m g)) ->
  releases (fun fa => fa_free (zfor 0 512 (fun i fa =>
    let e := rd64 m (u64 (f + HHDM_BASE) + 8 * i) in
    if negb (e &? VMM_FLAG_PRESENT) || (e &? VMM_FLAG_HUGE) then fa
    else body (Z.land e PTE_ADDR_MASK) fa) fa) f) (sub_frees below m f).
Proof.
  intros Hf Hb fa Hok.
  destruct (zfor_release 0 512 (fun i fa => let e := rd64 m (u64 (f + HHDM_BASE) + 8 * i) in
      if negb (e &? VMM_FLAG_PRESENT) || (e &? VMM_FLAG_HUGE) then fa
      else body (Z.land e PTE_ADDR_MASK) fa)
    (fun i x => present (entry m f i) = true /\ huge (entry m f i) = false /\
                below m (nextf (entry m f i)) x) fa) as [Hok1 Hu1]; try done.
  - intros i s Hi Hs. cbv zeta. fold (tbl f). fold (entry m f i).
    fold (present (entry m f i)). fold (huge (entry m f i)). fold (nextf (entry m f i)).
    destruct (Hb (nextf (entry m f i)) (nextf_u64 _) s Hs) as [Hok2 Hu2].
    destruct (present (entry m f i)), (huge (entry m f i)); simpl;
      (split; [done|]); intros x Hx; rewrite ?Hu2 by done; intuition congruence.
  - apply free_after; done.
Qed.

Lemma destroy_pdpt_releases m f : is_u64 f ->
  releases (destroy_pdpt m f) (sub_frees (sub_frees pt_frees) m f).
Proof.
  intros Hf. apply destroy_sub_releases; [done|]. intros g Hg.
  apply destroy_sub_releases; [done|]. apply destroy_pt_releases.
Qed.

(** What destroying the space rooted at [root] releases. *)
Definition space_frees (m : mem) (root x : Z) : Prop :=
  x = root \/ exists i, 0 <= i < 256 /\ present (entry m root i) = true /\
    sub_frees (sub_frees pt_frees) m (nextf (entry m root i)) x.

Lemma destroy_releases st kroot root : frame_addr root -> frame_addr kroot -> root <> kroot ->
  fa_ok (vm_fa st) ->
  let st' := vmmDestroyAddressSpace st (tbl kroot) (tbl root) in
  fa_ok (vm_fa st') /\ vm_mem st' = vm_mem st /\
  forall x, frame_addr x -> fa_used (vm_fa st') x <->
    fa_used (vm_fa st) x /\ ~ space_frees (vm_mem st) root x.
Proof.
  intros Hr Hk Hne Hok. unfold vmmDestroyAddressSpace.
  assert (Hb : 0 < root < 2 ^ 47 /\ 0 < kroot < 2 ^ 47) by (split; [apply Hr|apply Hk]).
  destruct (Z.eqb_spec (tbl root) 0) as [E|_].
  { exfalso. unfold tbl, u64, HHDM_BASE in E. divlia. }
  destruct (Z.eqb_spec (tbl root) (tbl kroot)) as [E|_].
  { exfalso. apply Hne, tbl_inj; [lia..|done]. }
  cbn [orb vm_mem vm_fa]. cbv zeta.
  destruct (zfor_release 0 256 (fun i fa => let e := rd64 (vm_mem st) (tbl root + 8 * i) in
      if negb (e &? VMM_FLAG_PRESENT) then fa
      else destroy_pdpt (vm_mem st) (Z.land e PTE_ADDR_MASK) fa)
    (fun i x => present (entry (vm_mem st) root i) = true /\
       sub_frees (sub_frees pt_frees) (vm_mem st) (nextf (entry (vm_mem st) root i)) x) (vm_fa st))
    as [Hok1 Hu1]; try done.
  - intros i s Hi Hs. cbv zeta. fold (entry (vm_mem st) root i).
    fold (present (entry (vm_mem st) root i)). fold (nextf (entry (vm_mem st) root i)).
    destruct (destroy_pdpt_releases (vm_mem st) _ (nextf_u64 (entry (vm_mem st) root i)) s Hs) as [Hok2 Hu2].
    destruct (present (entry (vm_mem st) root i)); simpl;
      (split; [done|]); intros x Hx; rewrite ?Hu2 by done; intuition congruence.
  - assert (u64 (tbl root - HHDM_BASE) = root) as ->
      by (unfold tbl, u64, HHDM_BASE; divlia).
    assert (is_u64 root) by (unfold is_u64; lia).
    destruct (free_after _ (vm_fa st) root (fun x => exists i, 0 <= i < 256 /\
      present (entry (vm_mem st) root i) = true /\
       sub_frees (sub_frees pt_frees) (vm_mem st) (nextf (entry (vm_mem st) root i)) x) H0 Hok1 Hu1).
    done.
Qed.

(** ** Mapping ranges *)
Definition page_aligned (a : Z) : Prop := a mod 4096 = 0.

Lemma vpage_offset virt k : 0 <= virt -> virt mod 4096 = 0 -> 0 <= k ->
  virt mod 2 ^ 48 + (k + 1) * 4096 <= 2 ^ 48 -> vpage (virt + k * 4096) = vpage virt + k.
Proof.
  intros H0 Ha Hk Hb. unfold vpage.
  assert ((virt + k * 4096) mod 2 ^ 48 = virt mod 2 ^ 48 + k * 4096) as ->
    by (symmetry; apply Z.mod_unique with (virt / 2 ^ 48); divlia).
  by rewrite Z.div_add by lia.
Qed.

(** The page loop from offset [4096 * o]. *)
Lemma map_pages_spec n : forall o st root virt phys flags,
  pt_wf st root -> page_aligned virt -> page_aligned phys -> is_u64 flags -> nextf flags = 0 ->
  0 <= o -> 0 <= virt -> virt + (o + Z.of_nat n) * 4096 <= 2 ^ 64 ->
  virt mod 2 ^ 48 + (o + Z.of_nat n) * 4096 <= 2 ^ 48 ->
  0 <= phys -> phys + (o + Z.of_nat n) * 4096 <= 2 ^ 52 ->
  (forall v, is_u64 v -> vpage virt + o <= vpage v < vpage virt + o + Z.of_nat n ->
     no_huge (vm_mem st) root v) ->
  let r := map_pages n (o * 4096) st (tbl root) virt phys flags in
  pt_wf r.1 root /\ kept_frames st r.1 root /\
  exists k, ((r.2 = 0 /\ k = n) \/ (r.2 = -1 /\ (k < n)%nat /\ (fa_alloc (vm_fa r.1)).2 = 0)) /\
    forall v, is_u64 v -> translate r.1 root v =
      if (vpage virt + o <=? vpage v) && (vpage v <? vpage virt + o + Z.of_nat k)
      then phys + (vpage v - vpage virt) * 4096 + v mod 4096 else translate st root v.
Proof.
  induction n as [|n IH]; intros o st root virt phys flags W Hva Hpa Hf Hn Ho H0 H1 H2 H3 H4 Hh.
  - split; [done|]. split; [apply kept_frames_refl|]. exists 0%nat. split; [by left|]. intros v Hv.
    destruct (Z.leb_spec (vpage virt + o) (vpage v)), (Z.ltb_spec (vpage v) (vpage virt + o + Z.of_nat 0));
      simpl; done || lia.
  - cbn [map_pages]. rewrite !u64_id by (unfold is_u64; lia).
    assert (Hv1 : is_u64 (virt + o * 4096)) by (unfold is_u64; lia).
    assert (Hp1 : is_u64 (phys + o * 4096)) by (unfold is_u64; lia).
    assert (Ho1 : vpage (virt + o * 4096) = vpage virt + o) by (apply vpage_offset; done || lia).
    destruct (vmmMapPage_outcome st root (virt + o * 4096) (phys + o * 4096) flags) as [M C];
      try done; [lia|apply Hh; [done|lia]|].
    destruct (vmmMapPage st (tbl root) (virt + o * 4096) (phys + o * 4096) flags) as [st1 x].
    cbn [fst snd] in M, C. pose proof (mf_wf _ _ _ _ M) as W1. pose proof (map_frame_kept _ _ _ _ (vpath_ok _) M) as K1.
    destruct C as [(-> & Hno & X)|[-> X]]; cbn [Z.eqb negb].
    + split; [done|]. split; [done|]. exists 0%nat. split; [right; split_and!; [done|lia|exact Hno]|]. intros v Hv.
      destruct (Z.leb_spec (vpage virt + o) (vpage v)), (Z.ltb_spec (vpage v) (vpage virt + o + Z.of_nat 0));
        simpl; try lia; (apply translate_ext; [done..|]; apply X; [apply vpath_ok|done]).
    + replace (o * 4096 + PAGE_SIZE) with ((o + 1) * 4096) by (unfold PAGE_SIZE; lia).
      assert (T1 : forall v, is_u64 v -> xl (vm_mem st1) root (vpath v) =
                if vpage v =? vpage virt + o then Some (leaf_entry (phys + o * 4096) flags, 0%nat)
                else xl (vm_mem st) root (vpath v)).
      { intros v Hv. rewrite X by (done || apply vpath_ok). rewrite <- Ho1.
        destruct (Z.eqb_spec (vpage v) (vpage (virt + o * 4096))) as [E|E];
          rewrite <- vpath_vpage in E by done; [by rewrite decide_True|by rewrite decide_False]. }
      destruct (IH (o + 1) st1 root virt phys flags) as (W' & K' & k & Hk & T); try done; try lia.
      { intros v Hv Hr e kk. rewrite T1 by done.
        destruct (Z.eqb_spec (vpage v) (vpage virt + o)); [lia|]. apply Hh; [done|lia]. }
      split; [exact W'|]. split; [by apply (kept_frames_trans _ st1)|]. exists (Datatypes.S k). split.
      * destruct Hk as [[E ->]|(E & Hk & Hno)]; [left; split; [exact E|lia]|right; split_and!; [exact E|lia|exact Hno]].
      * intros v Hv. rewrite T by done.
        destruct (Z.leb_spec (vpage virt + o) (vpage v)), (Z.leb_spec (vpage virt + (o + 1)) (vpage v)),
          (Z.ltb_spec (vpage v) (vpage virt + (o + 1) + Z.of_nat k)),
          (Z.ltb_spec (vpage v) (vpage virt + o + Z.of_nat (Datatypes.S k))); cbn [andb]; try lia; try done;
        rewrite !translate_xl, T1 by done; destruct (Z.eqb_spec (vpage v) (vpage virt + o)) as [E|E];
          try lia; try done.
        all: rewrite phys_of_leaf by (done || lia); rewrite page_down_spec by done; rewrite E;
          unfold page_aligned in *; rewrite Z.mod_add by lia; rewrite Hpa; lia.
Qed.
Lemma map_range_ok st root virt phys size flags :
  pt_wf st root -> page_aligned virt -> page_aligned phys -> is_u64 size -> is_u64 flags ->
  nextf flags = 0 ->
  let n := page_up size / PAGE_SIZE in
  0 <= virt -> virt + n * 4096 <= 2 ^ 64 -> virt mod 2 ^ 48 + n * 4096 <= 2 ^ 48 ->
  0 <= phys -> phys + n * 4096 <= 2 ^ 52 ->
  (forall v, is_u64 v -> vpage virt <= vpage v < vpage virt + n -> no_huge (vm_mem st) root v) ->
  let r := vmmMapRange st (tbl root) virt phys size flags in
  pt_wf r.1 root /\ kept_frames st r.1 root /\
  exists k, ((r.2 = 0 /\ k = n) \/ (r.2 = -1 /\ 0 <= k < n /\ (fa_alloc (vm_fa r.1)).2 = 0)) /\
    forall v, is_u64 v -> translate r.1 root v =
      if (vpage virt <=? vpage v) && (vpage v <? vpage virt + k)
      then phys + (vpage v - vpage virt) * 4096 + v mod 4096 else translate st root v.
Proof.
  intros W Hva Hpa Hs Hf Hn n H0 H1 H2 H3 H4 Hh.
  assert (Hn0 : 0 <= n).
  { apply Z.div_pos; [|done]. apply Z.land_nonneg. left. apply u64_range. }
  pose proof (map_pages_spec (Z.to_nat n) 0 st root virt phys flags W Hva Hpa Hf Hn) as Hm.
  rewrite Z2Nat.id, ?Z.add_0_l, ?Z.add_0_r in Hm by done. cbv zeta in Hm.
  destruct Hm as (W' & K' & k & Hk & T); [lia|done..|].
  split; [exact W'|]. split; [exact K'|]. exists (Z.of_nat k). rewrite ?Z.add_0_r in T. split.
  - destruct Hk as [[E ->]|(E & Hk & Hno)]; [left; split; [exact E|lia]|right; split; [exact E|]; split; [lia|exact Hno]].
  - intros v Hv. by rewrite T.
Qed.

(** Three frames for every page are enough for the tables. *)
Lemma map_pages_left n m : forall o st pml4 virt phys flags, frames_left (3 * n + m) (vm_fa st) ->
  frames_left m (vm_fa (map_pages n o st pml4 virt phys flags).1).
Proof.
  induction n as [|n IH]; intros o st pml4 virt phys flags Hl; [exact Hl|]. cbn [map_pages].
  replace (3 * Datatypes.S n + m)%nat with (3 + (3 * n + m))%nat in Hl by lia.
  pose proof (vmmMapPage_left _ st pml4 (u64 (virt + o)) (u64 (phys + o)) flags Hl) as H1.
  destruct (vmmMapPage st pml4 _ _ flags) as [st1 r]. cbn [fst] in H1. destruct (negb (r =? 0)); [|by apply IH]. cbn [fst].
  clear -H1. induction (3 * n)%nat as [|k IHk]; [exact H1|]. by apply IHk, frames_left_less.
Qed.

(** ** Unmapping ranges *)

(** Frames that are no tables stay so, as used or free as before, with their
    contents. *)
Record kept_others (st st' : Vm S) (root : Z) : Prop := {
  ko_used : forall f, frame_addr f -> not_table (vm_mem st) root f -> fa_used (vm_fa st') f <-> fa_used (vm_fa st) f;
  ko_table : forall f, not_table (vm_mem st) root f -> not_table (vm_mem st') root f;
  ko_mem : forall f x, frame_addr f -> not_table (vm_mem st) root f -> in_page f x -> rd8 (vm_mem st') x = rd8 (vm_mem st) x
}.

Lemma kept_others_refl st root : kept_others st st root.
Proof. by constructor. Qed.

Lemma kept_others_trans st1 st2 st3 root : kept_others st1 st2 root -> kept_others st2 st3 root -> kept_others st1 st3 root.
Proof.
  intros [A1 A2 A3] [B1 B2 B3]. constructor; auto.
  - intros f Hf Hn. rewrite B1 by auto. by apply A1.
  - intros f x Hf Hn Hx. rewrite (B3 f) by auto. by apply (A3 f).
Qed.

Lemma outside_page st root f x : pt_wf st root -> frame_addr f -> not_table (vm_mem st) root f -> in_page f x -> outside_tables (vm_mem st) root x.
Proof.
  intros W Hf Hn Hx p g Hp Hl Hw Hg. destruct (pw_used _ _ W p g Hp Hl Hw) as [Hga _]. apply (Hn p Hp Hl). rewrite Hw. f_equal. by apply (in_page_inj g f x).
Qed.

Lemma unmap_pages_spec n : forall o st root virt, pt_wf st root -> page_aligned virt -> 0 <= o -> 0 <= virt -> virt + (o + Z.of_nat n) * 4096 <= 2 ^ 64 ->
  virt mod 2 ^ 48 + (o + Z.of_nat n) * 4096 <= 2 ^ 48 ->
  (forall v, is_u64 v -> vpage virt + o <= vpage v < vpage virt + o + Z.of_nat n -> no_huge (vm_mem st) root v) ->
  let r := unmap_pages n (o * 4096) st (tbl root) virt in
  pt_wf r root /\ kept_others st r root /\
  forall v, is_u64 v -> translate r root v =
    if (vpage virt + o <=? vpage v) && (vpage v <? vpage virt + o + Z.of_nat n) then 0 else translate st root v.
Proof.
  induction n as [|n IH]; intros o st root virt W Hva Ho H0 H1 H2 Hh.
  - split; [done|]. split; [apply kept_others_refl|]. intros v Hv. bsplit; done || lia.
  - cbn [unmap_pages]. rewrite u64_id by (unfold is_u64; lia). assert (Hv1 : is_u64 (virt + o * 4096)) by (unfold is_u64; lia).
    assert (Ho1 : vpage (virt + o * 4096) = vpage virt + o) by (apply vpage_offset; done || lia).
    destruct (vmmUnmapPage_spec st root (virt + o * 4096) W Hv1) as (W1 & _ & X & U & B & Mm & _); [apply Hh; [done|lia]|].
    set (st1 := (vmmUnmapPage st (tbl root) (virt + o * 4096)).1) in *.
    assert (K1 : kept_others st st1 root). { constructor; [done|done|]. intros f x Hf Hn Hx. by apply Mm, (outside_page st root f). }
    assert (T1 : forall v, is_u64 v -> xl (vm_mem st1) root (vpath v) = if vpage v =? vpage virt + o then None else xl (vm_mem st) root (vpath v)).
    { intros v Hv. rewrite X by (done || apply vpath_ok). rewrite <- Ho1.
      destruct (Z.eqb_spec (vpage v) (vpage (virt + o * 4096))) as [E|E]; rewrite <- vpath_vpage in E by done; [by rewrite decide_True|by rewrite decide_False]. }
    replace (o * 4096 + PAGE_SIZE) with ((o + 1) * 4096) by (unfold PAGE_SIZE; lia).
    destruct (IH (o + 1) st1 root virt) as (W' & K' & T); try done; try lia.
    { intros v Hv Hr e kk. rewrite T1 by done. destruct (Z.eqb_spec (vpage v) (vpage virt + o)); [lia|]. apply Hh; [done|lia]. }
    split; [exact W'|]. split; [by apply (kept_others_trans _ st1)|]. intros v Hv. rewrite T by done. rewrite !translate_xl, T1 by done. clear -n.
    destruct (Z.eqb_spec (vpage v) (vpage virt + o)), (Z.leb_spec (vpage virt + (o + 1)) (vpage v)), (Z.leb_spec (vpage virt + o) (vpage v)),
      (Z.ltb_spec (vpage v) (vpage virt + (o + 1) + Z.of_nat n)), (Z.ltb_spec (vpage v) (vpage virt + o + Z.of_nat (Datatypes.S n)));
      cbn [andb]; reflexivity || lia.
Qed.

Lemma unmap_range_ok st root virt size : pt_wf st root -> page_aligned virt -> is_u64 size ->
  let n := page_up size / PAGE_SIZE in
  0 <= virt -> virt + n * 4096 <= 2 ^ 64 -> virt mod 2 ^ 48 + n * 4096 <= 2 ^ 48 ->
  (forall v, is_u64 v -> vpage virt <= vpage v < vpage virt + n -> no_huge (vm_mem st) root v) ->
  let r := vmmUnmapRange st (tbl root) virt size in
  pt_wf r.1 root /\ r.2 = 0 /\ kept_others st r.1 root /\
  forall v, is_u64 v -> translate r.1 root v = if (vpage virt <=? vpage v) && (vpage v <? vpage virt + n) then 0 else translate st root v.
Proof.
  intros W Hva Hs n H0 H1 H2 Hh. assert (Hn0 : 0 <= n) by (apply Z.div_pos; [|done]; apply Z.land_nonneg; left; apply u64_range).
  pose proof (unmap_pages_spec (Z.to_nat n) 0 st root virt W Hva) as Hm. rewrite Z2Nat.id, ?Z.add_0_l, ?Z.add_0_r in Hm by done. cbv zeta in Hm.
  destruct Hm as (W' & K' & T); [lia|done..|]. by split_and!.
Qed.
End Spaces.

(** ** Properties *)
Section Claims.
Context {S : Type} `{FrameAllocator S} `{!FrameAllocatorLaws S}.
Implicit Types (st : Vm S).

(** C1: [vmmMapPage] on a well-formed table (target address not inside a
    huge page): the table stays well formed; on success the entry of the page
    of [virt] holds the page of [phys] and exactly the given flags, besides
    the present bit, the page translates with the offset kept, and the entry
    and the translation of every other page are as before; a failure (-1)
    means that the allocator has no frame left, and changes no entry and no
    translation. *)
Theorem vmmMapPage_correct st root virt phys flags :
  pt_wf st root -> is_u64 virt -> is_u64 phys -> phys < 2 ^ 52 -> is_u64 flags ->
  nextf flags = 0 -> no_huge (vm_mem st) root virt ->
  let r := vmmMapPage st (tbl root) virt phys flags in
  pt_wf r.1 root /\
  ((r.2 = 0 /\ mapped_as (vm_mem r.1) root virt (page_down phys) flags /\
    (forall v, is_u64 v -> vpage v <> vpage virt -> xl (vm_mem r.1) root (vpath v) = xl (vm_mem st) root (vpath v)) /\
    forall v, is_u64 v -> translate r.1 root v =
      if vpage v =? vpage virt then page_down phys + v mod 4096 else translate st root v) \/
   (r.2 = -1 /\ (fa_alloc (vm_fa r.1)).2 = 0 /\
    (forall v, is_u64 v -> xl (vm_mem r.1) root (vpath v) = xl (vm_mem st) root (vpath v)) /\
    forall v, is_u64 v -> translate r.1 root v = translate st root v)).
Proof.
  intros W Hv Hp Hpl Hf Hn Hh r.
  destruct (vmmMapPage_outcome st root virt phys flags W Hv Hp Hpl Hf Hn Hh) as [M C]. fold r in M, C.
  pose proof (mf_wf _ _ _ _ M) as W'. split; [done|].
  destruct C as [(E & Hnone & X)|[E X]]; [right|left]; (split; [done|]).
  - split_and!; [done|intros v _; apply X; [apply vpath_ok|done]|]. intros v Hvv.
    apply translate_ext; [done..|]. apply X; [apply vpath_ok|done].
  - split_and!.
    + apply leaf_mapped; try done. rewrite X by (done || apply vpath_ok). by rewrite decide_True.
    + intros v Hvv Hne. rewrite X by (done || apply vpath_ok). rewrite decide_False; [done|]. by rewrite vpath_vpage.
    + intros v Hvv. rewrite translate_xl, X by (done || apply vpath_ok).
      destruct (Z.eqb_spec (vpage v) (vpage virt)) as [Ev|Ev]; rewrite <- vpath_vpage in Ev by done.
      * rewrite decide_True by done. by apply phys_of_leaf.
      * rewrite decide_False by done. by rewrite translate_xl.
Qed.

(** [vmmMapRange] of [n] pages maps a prefix of the range: all of it when
    it returns 0, a proper prefix when it returns -1 (frames ran out; nothing
    is rolled back).  Pages of the prefix translate linearly to [phys], every
    other page translates as before. *)
Theorem vmmMapRange_correct st root virt phys size flags :
  pt_wf st root -> page_aligned virt -> page_aligned phys -> is_u64 size -> is_u64 flags ->
  nextf flags = 0 ->
  let n := page_up size / PAGE_SIZE in
  0 <= virt -> virt + n * 4096 <= 2 ^ 64 -> virt mod 2 ^ 48 + n * 4096 <= 2 ^ 48 ->
  0 <= phys -> phys + n * 4096 <= 2 ^ 52 ->
  (forall v, is_u64 v -> vpage virt <= vpage v < vpage virt + n -> no_huge (vm_mem st) root v) ->
  let r := vmmMapRange st (tbl root) virt phys size flags in
  pt_wf r.1 root /\ kept_frames st r.1 root /\
  exists k, ((r.2 = 0 /\ k = n) \/ (r.2 = -1 /\ 0 <= k < n /\ (fa_alloc (vm_fa r.1)).2 = 0)) /\
    forall v, is_u64 v -> translate r.1 root v =
      if (vpage virt <=? vpage v) && (vpage v <? vpage virt + k)
      then phys + (vpage v - vpage virt) * 4096 + v mod 4096 else translate st root v.
Proof. apply map_range_ok. Qed.

(** C5: [vmmUnmapPage] returns 0, keeps the table well formed, makes exactly
    the page of [virt] untranslated (0) and releases no frame but table
    frames of the tree: the frame that was mapped stays allocated. *)
Theorem vmmUnmapPage_correct st root virt :
  pt_wf st root -> is_u64 virt -> no_huge (vm_mem st) root virt ->
  let r := vmmUnmapPage st (tbl root) virt in
  pt_wf r.1 root /\ r.2 = 0 /\
  (forall v, is_u64 v -> translate r.1 root v =
     if vpage v =? vpage virt then 0 else translate st root v) /\
  (forall f, frame_addr f -> not_table (vm_mem st) root f ->
     fa_used (vm_fa r.1) f <-> fa_used (vm_fa st) f).
Proof.
  intros W Hv Hh r. destruct (vmmUnmapPage_spec st root virt W Hv Hh) as (W' & E & X & U & _).
  fold r in W', E, X, U. split_and!; try done. intros v Hvv.
  rewrite translate_xl, X by (done || apply vpath_ok).
  destruct (Z.eqb_spec (vpage v) (vpage virt)) as [Ev|Ev]; rewrite <- vpath_vpage in Ev by done.
  - by rewrite decide_True.
  - rewrite decide_False by done. by rewrite translate_xl.
Qed.

(** Mapping an untranslated page and unmapping it again restores the
    translation of every address. *)
Theorem vmm_map_unmap_roundtrip st root virt phys flags :
  pt_wf st root -> is_u64 virt -> is_u64 phys -> phys < 2 ^ 52 -> is_u64 flags ->
  nextf flags = 0 -> xl (vm_mem st) root (vpath virt) = None ->
  let st1 := (vmmMapPage st (tbl root) virt phys flags).1 in
  let st2 := (vmmUnmapPage st1 (tbl root) virt).1 in
  pt_wf st2 root /\ forall v, is_u64 v -> translate st2 root v = translate st root v.
Proof.
  intros W Hv Hp Hpl Hf Hn Hnone st1 st2.
  assert (Hh : no_huge (vm_mem st) root virt) by (intros e k; by rewrite Hnone).
  destruct (vmmMapPage_spec st root virt phys flags W Hv Hp Hpl Hf Hn Hh) as [M C].
  fold st1 in M, C. pose proof (mf_wf _ _ _ _ M) as W1.
  assert (X1 : forall q, idx_ok q -> length q = 4%nat -> q <> vpath virt ->
            xl (vm_mem st1) root q = xl (vm_mem st) root q).
  { intros q Hq Hl Hne. destruct C as [[_ X]|[_ X]]; rewrite X by done; [done|]. by case_decide. }
  assert (Hh1 : no_huge (vm_mem st1) root virt).
  { intros e k. destruct C as [[_ X]|[_ X]]; rewrite X by (done || apply vpath_ok).
    - apply Hh.
    - rewrite decide_True by done. by intros [= _ <-]. }
  destruct (vmmUnmapPage_spec st1 root virt W1 Hv Hh1) as (W2 & _ & X2 & _). fold st2 in W2, X2.
  split; [done|]. intros v Hvv. apply translate_ext; [done..|].
  rewrite X2 by (done || apply vpath_ok). case_decide as Ev; [by rewrite Ev|].
  apply X1; [apply vpath_ok|done..].
Qed.

(** [vmmCreateAddressSpace] fails exactly when no frame can be allocated;
    otherwise the new table is well formed, translates nothing in the user
    half, translates the kernel half as the kernel's table does, leaves the
    kernel's table as it was, and shares no user table with it. *)
Theorem vmmCreateAddressSpace_isolated st kroot : pt_wf st kroot ->
  let r := vmmCreateAddressSpace st (tbl kroot) in
  (r.2 = 0 <-> (fa_alloc (vm_fa st)).2 = 0) /\
  (r.2 <> 0 -> exists root, r.2 = tbl root /\ ~ fa_used (vm_fa st) root /\
     pt_wf r.1 root /\ pt_wf r.1 kroot /\ separate (vm_mem r.1) root kroot /\
     forall v, is_u64 v ->
       translate r.1 root v = (if tidx v 39 <? 256 then 0 else translate st kroot v) /\
       translate r.1 kroot v = translate st kroot v).
Proof.
  intros W r. destruct (create_isolated st kroot W) as [Hz Hn]. fold r in Hz, Hn. split; [exact Hz|].
  intros Hne. destruct (Hn Hne) as (root & E & _ & Hfr & Wr & Wk & Hs & _ & T).
  exists root. exact (conj E (conj Hfr (conj Wr (conj Wk (conj Hs T))))).
Qed.

(** C2: isolation: mapping a user page of one address space, whether it
    succeeds or fails, changes no translation of another address space that
    shares no user table with it, and the two stay separate. *)
Theorem vmmMapPage_isolation st A B virt phys flags :
  pt_wf st A -> pt_wf st B -> separate (vm_mem st) A B -> 0 <= virt < 2 ^ 47 ->
  is_u64 phys -> phys < 2 ^ 52 -> is_u64 flags -> nextf flags = 0 -> no_huge (vm_mem st) A virt ->
  let st' := (vmmMapPage st (tbl A) virt phys flags).1 in
  pt_wf st' A /\ pt_wf st' B /\ separate (vm_mem st') A B /\
  forall v, translate st' B v = translate st B v.
Proof.
  intros WA WB Hs Hv Hp Hpl Hf Hn Hh st'.
  assert (Hvu : is_u64 virt) by (unfold is_u64; lia).
  destruct (vmmMapPage_spec st A virt phys flags WA Hvu Hp Hpl Hf Hn Hh) as [M _]. fold st' in M.
  destruct (map_separate st st' A B virt WB Hs Hv M) as (WB' & Hs' & X).
  split_and!; [apply (mf_wf _ _ _ _ M)|done..|]. intros v. apply translate_ext; [done..|].
  apply X; [apply vpath_ok|simpl; lia].
Qed.

(** [vmmDestroyAddressSpace] releases exactly the root frame, the tables
    of the user half and the frames their 4 KiB entries map; every other
    frame keeps its state, and the allocator's invariant is kept. *)
Theorem vmmDestroyAddressSpace_releases st kroot root :
  frame_addr root -> frame_addr kroot -> root <> kroot -> fa_ok (vm_fa st) ->
  let st' := vmmDestroyAddressSpace st (tbl kroot) (tbl root) in
  fa_ok (vm_fa st') /\ vm_mem st' = vm_mem st /\
  forall x, frame_addr x -> fa_used (vm_fa st') x <->
    fa_used (vm_fa st) x /\ ~ space_frees (vm_mem st) root x.
Proof. apply destroy_releases. Qed.
End Claims.

(** ** Witnesses: the bitmap allocator of an 8 MiB machine *)

Definition demo_vm0 : Vm Pmm := mkVm ∅ (pmm_init demo_boot).
(** The kernel's table, made by [vmmInit] from an empty boot table. *)
Definition demo_vm : Vm Pmm := (vmmInit demo_vm0 (tbl 0x200000)).1.
Definition demo_root : Z := 0x201000.

Lemma entry_empty f i : entry ∅ f i = 0.
Proof. reflexivity. Qed.

Lemma demo_ok0 : fa_ok (pmm_init demo_boot).
Proof.
  split; [exact (proj1 (pmm_init_spec demo_boot demo_boot_ok))|]. vm_compute. congruence.
Qed.

Lemma demo_alloc : (fa_alloc (vm_fa demo_vm0)).2 = demo_root.
Proof. vm_compute. reflexivity. Qed.

Lemma demo_facts : pt_wf demo_vm demo_root /\
  forall i, 0 <= i < 512 -> present (entry (vm_mem demo_vm) demo_root i) = false.
Proof.
  apply (vmmInit_empty demo_vm0 demo_vm 0x200000 demo_root).
  - unfold demo_vm. reflexivity.
  - exact demo_ok0.
  - split; [lia|reflexivity].
  - exact demo_alloc.
  - discriminate.
  - discriminate.
  - intros. apply entry_empty.
Qed.

Lemma demo_wf : pt_wf demo_vm demo_root.
Proof. apply demo_facts. Qed.

Lemma demo_absent v : xl (vm_mem demo_vm) demo_root (vpath v) = None.
Proof. apply (xl_absent _ _ [] demo_root); [reflexivity|]. apply demo_facts, tidx_range. Qed.

Lemma demo_no_huge v : no_huge (vm_mem demo_vm) demo_root v.
Proof. intros e k. by rewrite demo_absent. Qed.

Lemma vmmMapPage_correct_witness :
  let r := vmmMapPage demo_vm (tbl demo_root) 0x400123 0x300000 7 in
  translate r.1 demo_root 0x400ABC = 0x300ABC /\ mapped_as (vm_mem r.1) demo_root 0x400123 0x300000 7.
Proof.
  destruct (vmmMapPage_correct demo_vm demo_root 0x400123 0x300000 7 demo_wf) as [_ [(_ & F & _ & X)|[E _]]].
  - unfold is_u64. lia.
  - unfold is_u64. lia.
  - lia.
  - unfold is_u64. lia.
  - reflexivity.
  - apply demo_no_huge.
  - split; [rewrite X; [vm_compute; reflexivity|unfold is_u64; lia]|exact F].
  - exfalso. vm_compute in E. discriminate E.
Defined.

(** The demo table with a page mapped. *)
Lemma demo_one_page : let st := (vmmMapPage demo_vm (tbl demo_root) 0x400000 0x300000 7).1 in
  pt_wf st demo_root /\ no_huge (vm_mem st) demo_root 0x400000 /\ translate st demo_root 0x400010 = 0x300010.
Proof.
  destruct (vmmMapPage_spec demo_vm demo_root 0x400000 0x300000 7 demo_wf) as [M [[E _]|[_ X]]];
    [unfold is_u64; lia|unfold is_u64; lia|lia|unfold is_u64; lia|reflexivity|apply demo_no_huge|exfalso; vm_compute in E; discriminate E|].
  split_and!; [apply M| |vm_compute; reflexivity].
  intros e k. rewrite X, decide_True by (done || apply vpath_ok). intros [= _ <-]. done.
Qed.

Lemma vmmUnmapPage_correct_witness :
  let st := (vmmMapPage demo_vm (tbl demo_root) 0x400000 0x300000 7).1 in
  translate st demo_root 0x400010 = 0x300010 /\ translate (vmmUnmapPage st (tbl demo_root) 0x400000).1 demo_root 0x400010 = 0.
Proof.
  destruct demo_one_page as (W & Hh & E). split; [exact E|].
  destruct (vmmUnmapPage_correct _ demo_root 0x400000 W) as (_ & _ & T & _).
  - unfold is_u64. lia.
  - exact Hh.
  - rewrite T; [reflexivity|unfold is_u64; lia].
Defined.

Lemma vmm_map_unmap_roundtrip_witness :
  translate (vmmUnmapPage (vmmMapPage demo_vm (tbl demo_root) 0x400000 0x300000 7).1
               (tbl demo_root) 0x400000).1 demo_root 0x400010 =
  translate demo_vm demo_root 0x400010.
Proof.
  destruct (vmm_map_unmap_roundtrip demo_vm demo_root 0x400000 0x300000 7 demo_wf) as [_ T].
  - unfold is_u64. lia.
  - unfold is_u64. lia.
  - lia.
  - unfold is_u64. lia.
  - reflexivity.
  - apply demo_absent.
  - apply T. unfold is_u64. lia.
Defined.

Lemma vmmCreateAddressSpace_isolated_witness :
  exists root, (vmmCreateAddressSpace demo_vm (tbl demo_root)).2 = tbl root /\
    translate (vmmCreateAddressSpace demo_vm (tbl demo_root)).1 root 0x400000 = 0.
Proof.
  destruct (vmmCreateAddressSpace_isolated demo_vm demo_root demo_wf) as [_ X].
  destruct X as (root & E & _ & _ & _ & _ & T).
  - vm_compute. discriminate.
  - exists root. split; [exact E|]. destruct (T 0x400000) as [T1 _]; [unfold is_u64; lia|].
    rewrite T1. reflexivity.
Defined.

Lemma vmmMapPage_isolation_witness :
  exists A, (vmmCreateAddressSpace demo_vm (tbl demo_root)).2 = tbl A /\
    forall v, translate (vmmMapPage (vmmCreateAddressSpace demo_vm (tbl demo_root)).1
                (tbl A) 0x400000 0x300000 7).1 demo_root v =
              translate (vmmCreateAddressSpace demo_vm (tbl demo_root)).1 demo_root v.
Proof.
  destruct (create_isolated demo_vm demo_root demo_wf) as [_ X].
  destruct X as (A & E & _ & _ & WA & WB & Hs & Hx & _).
  - vm_compute. discriminate.
  - exists A. split; [exact E|].
    destruct (vmmMapPage_isolation _ A demo_root 0x400000 0x300000 7 WA WB Hs) as (_ & _ & _ & T).
    + lia.
    + unfold is_u64. lia.
    + lia.
    + unfold is_u64. lia.
    + reflexivity.
    + intros e k. rewrite (Hx 0x400000 ltac:(reflexivity)). discriminate.
    + exact T.
Defined.

Lemma vmmDestroyAddressSpace_releases_witness :
  exists A, (vmmCreateAddressSpace demo_vm (tbl demo_root)).2 = tbl A /\
    ~ fa_used (vm_fa (vmmDestroyAddressSpace (vmmCreateAddressSpace demo_vm (tbl demo_root)).1
                 (tbl demo_root) (tbl A))) A.
Proof.
  destruct (create_isolated demo_vm demo_root demo_wf) as [_ X].
  destruct X as (A & E & Hf & Hu & WA & WB & _).
  - vm_compute. discriminate.
  - exists A. split; [exact E|].
    destruct (vmmDestroyAddressSpace_releases
      (vmmCreateAddressSpace demo_vm (tbl demo_root)).1 demo_root A Hf (root_frame _ _ WB)) as (_ & _ & T).
    + intros ->. apply Hu. apply (pw_used _ _ demo_wf [] demo_root idx_ok_nil); [simpl; lia|reflexivity].
    + exact (pw_ok _ _ WA).
    + rewrite (T A Hf). intros [_ Hn]. apply Hn. left. reflexivity.
Defined.

Lemma vmmMapRange_correct_witness :
  translate (vmmMapRange demo_vm (tbl demo_root) 0x400000 0x300000 0x1800 7).1 demo_root 0x401ABC =
  0x301ABC.
Proof.
  destruct (vmmMapRange_correct demo_vm demo_root 0x400000 0x300000 0x1800 7 demo_wf) as (_ & _ & k & [[_ Hk]|[E _]] & T).
  - reflexivity.
  - reflexivity.
  - unfold is_u64. lia.
  - unfold is_u64. lia.
  - reflexivity.
  - lia.
  - vm_compute. discriminate.
  - vm_compute. discriminate.
  - lia.
  - vm_compute. discriminate.
  - intros. apply demo_no_huge.
  - rewrite T; [subst k; vm_compute; reflexivity|unfold is_u64; lia].
  - exfalso. vm_compute in E. discriminate E.
Defined.
