(* ===== verification/Vma.v ===== *)
(** * Virtual memory areas and user-memory access (src/kernel/mem/vmm.c, second half)

    The VMA list of a process, [vmaCreate], [vmaDestroy], [vmaFind],
    [vmaDestroyAll], and the checks that guard kernel access to user memory:
    [validateUserRange], [copyFromUser], [copyToUser].

    A process's list is a Rocq list: position in it stands for the
    [next]/[prev] links, which the code only uses to walk and splice.  A
    [Vma *] result is the record itself.  [kmalloc] is an outcome: whether
    the request made for a given VMA succeeds, universally quantified in the
    theorems. *)

From Stdlib Require Import ZArith Lia Bool.
From stdpp Require Import base list gmap.
From S2P Require Import Prelude Mem Str Frames Pmm PageTable.

Definition VMA_READ : Z := 2 ^ 0.
Definition VMA_WRITE : Z := 2 ^ 1.
Definition VMA_EXEC : Z := 2 ^ 2.
Definition VMA_USER : Z := 2 ^ 3.
Definition VMA_ANON : Z := 2 ^ 4.
Definition VMA_STACK : Z := 2 ^ 5.

Record Vma := mkVma { vstart : Z; vend : Z; vflags : Z }.

(** The page bounds both [vmaCreate] and [vmaDestroy] compute. *)
Definition range_start (start : Z) : Z := page_down start.
Definition range_end (start size : Z) : Z := page_down (u64 (start + size + PAGE_SIZE - 1)).

(** ** [vmaCreate] *)

(** The walk [while (it->next && it->next->start < pageStart)], from [it]
    whose successors are [rest]. *)
Fixpoint insert_after (it : Vma) (rest : list Vma) (v : Vma) : list Vma :=
  match rest with
  | n :: r => if vstart n <? vstart v then it :: insert_after n r v else it :: v :: n :: r
  | [] => [it; v]
  end.

Definition vma_insert (l : list Vma) (v : Vma) : list Vma :=
  match l with
  | [] => [v]
  | h :: r => if vstart v <? vstart h then v :: h :: r else insert_after h r v
  end.

Definition vma_overlaps (s e : Z) (c : Vma) : bool := (s <? vend c) && (vstart c <? e).

Definition vmaCreate (kmalloc_ok : bool) (l : list Vma) (start size flags : Z)
    : list Vma * option Vma :=
  if size =? 0 then (l, None)
  else
    let pageStart := range_start start in
    let pageEnd := range_end start size in
    if (pageEnd <=? pageStart) || (USER_SPACE_MAX <? pageEnd) then (l, None)
    else if existsb (vma_overlaps pageStart pageEnd) l then (l, None)
    else if negb kmalloc_ok then (l, None)
    else
      let vma := mkVma pageStart pageEnd flags in
      (vma_insert l vma, Some vma).

Fixpoint vmaFind (l : list Vma) (addr : Z) : option Vma :=
  match l with
  | [] => None
  | c :: r => if (vstart c <=? addr) && (addr <? vend c) then Some c else vmaFind r addr
  end.

(** ** [vmaDestroy] *)
Section Destroy.
Context {S : Type} `{FrameAllocator S}.

(** The page loop of one VMA: every translated page is unmapped and its frame
    released. *)
Fixpoint unmap_free (n : nat) (st : Vm S) (pml4 addr : Z) : Vm S :=
  match n with
  | O => st
  | Datatypes.S k =>
      let phys := vmmVirtToPhys (vm_mem st) pml4 addr in
      let st1 :=
        if phys =? 0 then st
        else let st1 := (vmmUnmapPage st pml4 addr).1 in
             mkVm (vm_mem st1) (fa_free (vm_fa st1) phys) in
      unmap_free k st1 pml4 (addr + PAGE_SIZE)
  end.

(** What is left of one VMA when [s, e) is removed. *)
Definition vma_cut (kmalloc_ok : bool) (c : Vma) (s e : Z) : list Vma :=
  if (s <=? vstart c) && (vend c <=? e) then []
  else if (vstart c <? s) && (e <? vend c) then
    mkVma (vstart c) s (vflags c) ::
      (if kmalloc_ok then [mkVma e (vend c) (vflags c)] else [])
  else if vstart c <? s then [mkVma (vstart c) s (vflags c)]
  else [mkVma e (vend c) (vflags c)].

Fixpoint destroy_loop (kmalloc_ok : Vma -> bool) (st : Vm S) (pml4 : Z) (l : list Vma) (s e : Z)
    : Vm S * list Vma :=
  match l with
  | [] => (st, [])
  | c :: r =>
      if (s <? vend c) && (vstart c <? e) then
        let unmapStart := if s <? vstart c then vstart c else s in
        let unmapEnd := if vend c <? e then vend c else e in
        let pages := Z.to_nat ((unmapEnd - unmapStart + PAGE_SIZE - 1) / PAGE_SIZE) in
        let st1 := unmap_free pages st pml4 unmapStart in
        let '(st2, r') := destroy_loop kmalloc_ok st1 pml4 r s e in
        (st2, vma_cut (kmalloc_ok c) c s e ++ r')
      else
        let '(st2, r') := destroy_loop kmalloc_ok st pml4 r s e in
        (st2, c :: r')
  end.

Definition vmaDestroy (kmalloc_ok : Vma -> bool) (st : Vm S) (pml4 : Z) (l : list Vma)
    (start size : Z) : Vm S * list Vma * Z :=
  if size =? 0 then (st, l, -1)
  else
    let '(st', l') := destroy_loop kmalloc_ok st pml4 l (range_start start) (range_end start size) in
    (st', l', 0).
End Destroy.

Definition vmaDestroyAll (l : list Vma) : list Vma := [].

(** ** Access checks *)

(** The loop of [validateUserRange]: every round moves [cur] to the end of
    the VMA that covers it. *)
Fixpoint validate_loop (fuel : nat) (l : list Vma) (cur pageEnd : Z) (write : bool) : option bool :=
  match fuel with
  | O => None
  | Datatypes.S k =>
      if cur <? pageEnd then
        match vmaFind l cur with
        | None => Some false
        | Some vma =>
            if negb (vflags vma &? VMA_USER) then Some false
            else if write && negb (vflags vma &? VMA_WRITE) then Some false
            else if negb write && negb (vflags vma &? VMA_READ) then Some false
            else validate_loop k l (vend vma) pageEnd write
        end
      else Some true
  end.

(** [proc] is the VMA list of the current thread's process, if there is one.
    The fuel is one more than the number of VMAs. *)
Definition validateUserRange (proc : option (list Vma)) (userPtr size : Z) (write : bool)
    : option bool :=
  if size =? 0 then Some true
  else if userPtr =? 0 then Some false
  else
    let start := userPtr in
    let end_ := u64 (start + size) in
    if (end_ <? start) || (USER_SPACE_MAX <? end_) then Some false
    else
      match proc with
      | None => Some false
      | Some l =>
          validate_loop (Datatypes.S (length l)) l (page_down start)
            (page_down (u64 (end_ + PAGE_SIZE - 1))) write
      end.

Definition copyFromUser (proc : option (list Vma)) (m : mem) (dst src n : Z) : option (mem * Z) :=
  if n =? 0 then Some (m, 0)
  else
    ok ← validateUserRange proc src n false;
    if negb ok then Some (m, -14) else Some ((memcpy m dst src n).1, 0).

Definition copyToUser (proc : option (list Vma)) (m : mem) (dst src n : Z) : option (mem * Z) :=
  if n =? 0 then Some (m, 0)
  else
    ok ← validateUserRange proc dst n true;
    if negb ok then Some (m, -14) else Some ((memcpy m dst src n).1, 0).

(** ** The list invariant: VMAs are non-empty page ranges of the user half,
    in increasing order and disjoint. *)
Definition vma_ok (v : Vma) : Prop :=
  0 <= vstart v < vend v /\ vend v <= USER_SPACE_MAX /\
  vstart v mod 4096 = 0 /\ vend v mod 4096 = 0.

Fixpoint vmas_from (lo : Z) (l : list Vma) : Prop :=
  match l with
  | [] => True
  | v :: r => lo <= vstart v /\ vma_ok v /\ vmas_from (vend v) r
  end.

Definition vmas_ok (l : list Vma) : Prop := vmas_from 0 l.

Definition vma_in (v : Vma) (a : Z) : Prop := vstart v <= a < vend v.

Lemma vmas_from_le lo lo' l : lo' <= lo -> vmas_from lo l -> vmas_from lo' l.
Proof. destruct l; simpl; [done|]. intuition lia. Qed.

Lemma vmas_from_lb lo l : vmas_from lo l -> forall v, v ∈ l -> lo <= vstart v /\ vma_ok v.
Proof.
  revert lo. induction l as [|x l IH]; intros lo; simpl; [set_solver|].
  intros (H1 & H2 & H3) v [->|Hv]%elem_of_cons; [done|].
  destruct (IH _ H3 v Hv). destruct H2. split; [lia|done].
Qed.

Lemma vmaFind_some l a v : vmaFind l a = Some v -> v ∈ l /\ vma_in v a.
Proof.
  induction l as [|x l IH]; simpl; [done|].
  destruct (Z.leb_spec (vstart x) a), (Z.ltb_spec a (vend x)); simpl; intros E;
    try (destruct (IH E); split; [set_solver|done]).
  simplify_eq. split; [set_solver|done].
Qed.

Lemma vmaFind_none l a : vmaFind l a = None <-> forall v, v ∈ l -> ~ vma_in v a.
Proof.
  induction l as [|x l IH]; simpl; [set_solver|].
  assert (Hx : (vstart x <=? a) && (a <? vend x) = true <-> vma_in x a)
    by (unfold vma_in; rewrite andb_true_iff, Z.leb_le, Z.ltb_lt; done).
  destruct ((vstart x <=? a) && (a <? vend x)).
  - split; [done|]. intros Hn. exfalso. apply (Hn x); [set_solver|by apply Hx].
  - rewrite IH. split; intros Hn v; [|set_solver].
    intros [->|Hv]%elem_of_cons; [by rewrite <- Hx|by apply Hn].
Qed.

(** In an ordered list, [vmaFind] finds any VMA that contains the address. *)
Lemma vmaFind_in l : forall lo a v, vmas_from lo l -> v ∈ l -> vma_in v a -> vmaFind l a = Some v.
Proof.
  induction l as [|x l IH]; intros lo a v; simpl; [set_solver|].
  intros (H1 & H2 & H3) [->|Hv]%elem_of_cons Ha; unfold vma_in in Ha.
  - destruct (Z.leb_spec (vstart x) a), (Z.ltb_spec a (vend x)); simpl; done || lia.
  - destruct (vmas_from_lb _ _ H3 v Hv).
    destruct (Z.leb_spec (vstart x) a), (Z.ltb_spec a (vend x)); simpl; try lia; eauto.
Qed.

Lemma vmaFind_iff l lo a v : vmas_from lo l -> vmaFind l a = Some v <-> v ∈ l /\ vma_in v a.
Proof. intros H. split; [apply vmaFind_some|intros [? ?]; by apply (vmaFind_in l lo)]. Qed.

(** ** Insertion *)
Lemma insert_after_elem it rest v x : x ∈ insert_after it rest v <-> x = it \/ x = v \/ x ∈ rest.
Proof.
  revert it. induction rest as [|n r IH]; intros it; simpl; [set_solver|].
  destruct (vstart n <? vstart v); rewrite !elem_of_cons, ?IH; set_solver.
Qed.

Lemma vma_insert_elem l v x : x ∈ vma_insert l v <-> x = v \/ x ∈ l.
Proof.
  destruct l as [|h r]; simpl; [set_solver|].
  destruct (_ <? _); [set_solver|]. rewrite insert_after_elem. set_solver.
Qed.

Definition vma_apart (v c : Vma) : Prop := vend v <= vstart c \/ vend c <= vstart v.

Lemma insert_after_ok rest : forall lo it v, vmas_from lo (it :: rest) -> vma_ok v ->
  vend it <= vstart v -> (forall c, c ∈ rest -> vma_apart v c) -> vmas_from lo (insert_after it rest v).
Proof.
  induction rest as [|n r IH]; intros lo it v (H1 & H2 & H3) Hv Hle Hap; simpl; [done|].
  simpl in H3. destruct H3 as (H3 & H4 & H5). assert (Hn : vma_apart v n) by (apply Hap; set_solver).
  unfold vma_apart in Hn. destruct (Z.ltb_spec (vstart n) (vstart v)).
  - split_and!; [done..|]. apply IH; [done..| |set_solver]. destruct Hv. lia.
  - destruct Hv, H4. simpl. split_and!; done || lia.
Qed.

Lemma vma_insert_ok l v : vmas_ok l -> vma_ok v -> (forall c, c ∈ l -> vma_apart v c) ->
  vmas_ok (vma_insert l v).
Proof.
  unfold vmas_ok. intros Hl Hv Hap. destruct l as [|h r]; simpl; [split_and!; [destruct Hv; lia|done..]|].
  assert (Hh : vma_apart v h) by (apply Hap; set_solver). unfold vma_apart in Hh.
  destruct Hl as (H1 & H2 & H3).
  destruct (Z.ltb_spec (vstart v) (vstart h)).
  - destruct Hv, H2. simpl. split_and!; done || lia.
  - apply insert_after_ok; [done|done| |set_solver]. destruct H2, Hv. lia.
Qed.

(** ** Cutting *)

(** What is left of a VMA lies in it, outside the range, in order. *)
Lemma vma_cut_ok ok c s e lo r : vma_ok c -> lo <= vstart c -> s mod 4096 = 0 -> e mod 4096 = 0 -> s < e ->
  vma_overlaps s e c = true -> vmas_from (vend c) r ->
  vmas_from lo (vma_cut ok c s e ++ r).
Proof.
  unfold vma_overlaps, vma_cut. intros (H1 & H2 & H3 & H4) Hlo Hs He Hse Hov Hr. breflect.
  assert (Hr' : forall x, x <= vend c -> vmas_from x r) by (intros; by apply (vmas_from_le (vend c))).
  destruct (Z.leb_spec s (vstart c)), (Z.leb_spec (vend c) e), (Z.ltb_spec (vstart c) s),
    (Z.ltb_spec e (vend c)); simpl; try lia; try destruct ok; simpl;
    unfold vma_ok; simpl; split_and?; try done; try lia; apply Hr'; lia.
Qed.

Lemma vma_cut_elem c s e a : vma_ok c -> s < e -> vma_overlaps s e c = true ->
  (exists x, x ∈ vma_cut true c s e /\ vma_in x a) <-> (vma_in c a /\ ~ (s <= a < e)).
Proof.
  unfold vma_overlaps, vma_cut, vma_in. intros (H1 & _) Hse Hov. breflect.
  destruct (Z.leb_spec s (vstart c)), (Z.leb_spec (vend c) e), (Z.ltb_spec (vstart c) s),
    (Z.ltb_spec e (vend c)); simpl; try lia;
  (split; [intros (x & Hx & Hin);
           repeat (apply elem_of_cons in Hx as [->|Hx]; [simpl in *; lia|]); by apply elem_of_nil in Hx|]);
  intros [Hc Hn]; try lia.
  - exists (mkVma e (vend c) (vflags c)). rewrite elem_of_cons. simpl. split; [auto|lia].
  - exists (mkVma (vstart c) s (vflags c)). rewrite elem_of_cons. simpl. split; [auto|lia].
  - destruct (Z_lt_ge_dec a s).
    + exists (mkVma (vstart c) s (vflags c)). rewrite elem_of_cons. simpl. split; [auto|lia].
    + exists (mkVma e (vend c) (vflags c)). rewrite !elem_of_cons. simpl. split; [auto|lia].
Qed.

Lemma vma_cut_flags ok c s e x : x ∈ vma_cut ok c s e -> vflags x = vflags c.
Proof.
  unfold vma_cut. intros Hx.
  repeat case_match; repeat (apply elem_of_cons in Hx as [->|Hx]; [done|]); by apply elem_of_nil in Hx.
Qed.

Definition destroy_list (kmalloc_ok : Vma -> bool) (l : list Vma) (s e : Z) : list Vma :=
  flat_map (fun c => if vma_overlaps s e c then vma_cut (kmalloc_ok c) c s e else [c]) l.

Lemma destroy_loop_list {S} `{FrameAllocator S} ok l : forall (st : Vm S) pml4 s e,
  (destroy_loop ok st pml4 l s e).2 = destroy_list ok l s e.
Proof.
  induction l as [|c r IH]; intros st pml4 s e; simpl; [done|]. unfold vma_overlaps.
  destruct ((s <? vend c) && (vstart c <? e)).
  - specialize (IH (unmap_free (Z.to_nat (((if vend c <? e then vend c else e) -
      (if s <? vstart c then vstart c else s) + PAGE_SIZE - 1) / PAGE_SIZE)) st pml4
      (if s <? vstart c then vstart c else s)) pml4 s e).
    destruct (destroy_loop _ _ _ _ _ _). simpl in *. by rewrite IH.
  - specialize (IH st pml4 s e). destruct (destroy_loop _ _ _ _ _ _). simpl in *. by rewrite IH.
Qed.

Lemma destroy_list_ok ok l s e : s mod 4096 = 0 -> e mod 4096 = 0 -> s < e -> forall lo,
  vmas_from lo l -> vmas_from lo (destroy_list ok l s e).
Proof.
  intros Hs He Hse. induction l as [|c r IH]; intros lo; simpl; [done|].
  intros (H1 & H2 & H3). destruct (vma_overlaps s e c) eqn:Ho.
  - apply vma_cut_ok; auto.
  - simpl. auto.
Qed.

Lemma destroy_list_elem l s e a fl : s < e -> (forall c, c ∈ l -> vma_ok c) ->
  (exists x, x ∈ destroy_list (fun _ => true) l s e /\ vma_in x a /\ vflags x = fl) <->
  (~ (s <= a < e) /\ exists c, c ∈ l /\ vma_in c a /\ vflags c = fl).
Proof.
  intros Hse Hok.
  assert (Hc : forall c, c ∈ l ->
    (exists x, x ∈ (if vma_overlaps s e c then vma_cut true c s e else [c]) /\ vma_in x a /\ vflags x = fl) <->
    (~ (s <= a < e) /\ vma_in c a /\ vflags c = fl)).
  { intros c Hin. destruct (vma_overlaps s e c) eqn:Ho.
    - pose proof (vma_cut_elem c s e a (Hok c Hin) Hse Ho) as He. split.
      + intros (x & Hx & Ha & Hf). rewrite (vma_cut_flags _ _ _ _ _ Hx) in Hf.
        destruct (proj1 He) as [? ?]; eauto.
      + intros (Hn & Ha & Hf). destruct (proj2 He) as (x & Hx & Hxa); [done|].
        exists x. split_and!; [done..|]. by rewrite (vma_cut_flags _ _ _ _ _ Hx).
    - unfold vma_overlaps in Ho. split.
      + intros (x & Hx & Ha & Hf). apply list_elem_of_singleton in Hx as ->.
        split_and!; try done. unfold vma_in in Ha. apply andb_false_iff in Ho as [Ho|Ho]; breflect; lia.
      + intros (_ & Ha & Hf). exists c. split_and!; try done. by apply list_elem_of_singleton. }
  unfold destroy_list. setoid_rewrite list_elem_of_In. setoid_rewrite in_flat_map. split.
  - intros (x & (c & Hin & Hx) & Ha & Hf). apply list_elem_of_In in Hin, Hx.
    destruct (proj1 (Hc c Hin)) as (Hn & Hca & Hcf); [eauto|]. split; [done|]. exists c.
    rewrite <- list_elem_of_In. done.
  - intros (Hn & c & Hin & Ha & Hf). apply list_elem_of_In in Hin.
    destruct (proj2 (Hc c Hin)) as (x & Hx & Hxa & Hxf); [done|]. exists x.
    split; [|done]. exists c. rewrite <- !list_elem_of_In. done.
Qed.

(** ** The access check *)
Definition vma_allows (v : Vma) (write : bool) : bool :=
  (vflags v &? VMA_USER) && (vflags v &? (if write then VMA_WRITE else VMA_READ)).

(** Every address of [lo, hi) is covered by a VMA that allows the access. *)
Definition range_allowed (l : list Vma) (lo hi : Z) (write : bool) : Prop :=
  forall a, lo <= a < hi -> exists v, vmaFind l a = Some v /\ vma_allows v write = true.

Definition vmas_above (l : list Vma) (cur : Z) : nat := length (filter (fun v => cur < vend v) l).

Lemma vmas_above_step l v cur : v ∈ l -> vma_in v cur ->
  (vmas_above l (vend v) < vmas_above l cur)%nat.
Proof.
  unfold vma_in. intros Hv Hin. unfold vmas_above. induction l as [|x l IH]; [set_solver|].
  assert (Hle : Nat.le (length (filter (fun w => vend v < vend w) l))
                 (length (filter (fun w => cur < vend w) l))).
  { clear IH Hv. induction l as [|y l IH]; [done|]. rewrite !filter_cons.
    repeat case_decide; simpl; lia. }
  rewrite !filter_cons. apply elem_of_cons in Hv as [->|Hv].
  - rewrite decide_False, decide_True by lia. simpl. lia.
  - specialize (IH Hv). repeat case_decide; simpl; lia.
Qed.

(** The three permission tests of the loop are one. *)
Lemma validate_tests (v : Vma) (write : bool) (x : option bool) :
  (if negb (vflags v &? VMA_USER) then Some false
   else if write && negb (vflags v &? VMA_WRITE) then Some false
   else if negb write && negb (vflags v &? VMA_READ) then Some false else x) =
  if vma_allows v write then x else Some false.
Proof.
  unfold vma_allows. destruct (vflags v &? VMA_USER), write; cbn [negb andb]; try done;
    [destruct (vflags v &? VMA_WRITE)|destruct (vflags v &? VMA_READ)]; done.
Qed.

Lemma validate_loop_spec fuel : forall l cur e write, vmas_ok l ->
  (vmas_above l cur < fuel)%nat ->
  exists b, validate_loop fuel l cur e write = Some b /\
    (b = true <-> range_allowed l cur e write).
Proof.
  induction fuel as [|k IH]; intros l cur e write Hok Hf; [lia|]. cbn [validate_loop].
  destruct (Z.ltb_spec cur e).
  2: { exists true. split; [done|]. split; [|done]. intros _ a Ha. lia. }
  destruct (vmaFind l cur) as [v|] eqn:Ev.
  2: { exists false. split; [done|]. split; [done|]. intros Hr.
       destruct (Hr cur) as (v & Hv & _); [lia|congruence]. }
  destruct (vmaFind_some _ _ _ Ev) as [Hin Hcur].
  rewrite validate_tests. destruct (vma_allows v write) eqn:Ea.
  - pose proof (vmas_above_step l v cur Hin Hcur).
    destruct (IH l (vend v) e write Hok ltac:(lia)) as (b & -> & Hb). exists b. split; [done|].
    rewrite Hb. unfold vma_in in Hcur. split; intros Hr a Ha; [|apply Hr; lia].
    destruct (Z_lt_ge_dec a (vend v)); [exists v|apply Hr; lia].
    split; [apply (vmaFind_in l 0); [done..|unfold vma_in; lia]|done].
  - exists false. split; [done|]. split; [done|]. intros Hr.
    destruct (Hr cur) as (w & Hw & Hp); [lia|congruence].
Qed.

Lemma validateUserRange_spec l p size write : vmas_ok l -> is_u64 p -> is_u64 size ->
  exists b, validateUserRange (Some l) p size write = Some b /\
    (b = true <-> size = 0 \/
       (p <> 0 /\ p + size <= USER_SPACE_MAX /\
        range_allowed l (page_down p) (page_up (p + size)) write)).
Proof.
  intros Hok Hp Hs. unfold validateUserRange.
  destruct (Z.eqb_spec size 0) as [->|Hz]; [exists true; split; [done|]; tauto|].
  destruct (Z.eqb_spec p 0) as [->|Hp0]; [exists false; split; [done|]; intuition congruence|].
  destruct ((u64 (p + size) <? p) || (USER_SPACE_MAX <? u64 (p + size))) eqn:Eo.
  - exists false. split; [done|]. split; [done|]. intros [?|(_ & Hle & _)]; [done|].
    rewrite u64_id in Eo by (unfold is_u64, USER_SPACE_MAX in *; lia).
    apply orb_true_iff in Eo as [Eo|Eo]; breflect; unfold is_u64 in *; lia.
  - apply orb_false_iff in Eo as [E1 E2]. breflect.
    assert (Hnw : u64 (p + size) = p + size).
    { unfold u64, is_u64, USER_SPACE_MAX in *. divlia. }
    rewrite Hnw in *.
    destruct (validate_loop_spec (Datatypes.S (length l)) l (page_down p)
      (page_down (u64 (p + size + PAGE_SIZE - 1))) write Hok) as (b & Eb & Hb).
    { unfold vmas_above. pose proof (length_filter (fun v => page_down p < vend v) l). lia. }
    exists b. split; [done|]. rewrite Hb. unfold page_up. intuition.
Qed.

Lemma page_down_bounds x : is_u64 x -> 0 <= page_down x <= x /\ x < page_down x + 4096 /\
  page_down x mod 4096 = 0.
Proof.
  intros Hx. split_and!; [| | |by apply page_down_aligned];
    rewrite page_down_spec by done; unfold is_u64 in *; divlia.
Qed.

(** ** Properties *)

Lemma vmaCreate_spec ok l start size flags :
  vmas_ok l -> is_u64 start -> is_u64 size ->
  let s := range_start start in
  let e := range_end start size in
  let bad := (size =? 0) || (e <=? s) || (USER_SPACE_MAX <? e) ||
             existsb (vma_overlaps s e) l || negb ok in
  let '(l', r) := vmaCreate ok l start size flags in
  vmas_ok l' /\
  match r with
  | Some v => bad = false /\ v = mkVma s e flags /\
      forall a, vmaFind l' a = if (s <=? a) && (a <? e) then Some v else vmaFind l a
  | None => bad = true /\ l' = l
  end.
Proof.
  intros Hl Hst Hsz s e bad. unfold vmaCreate. fold s e. unfold bad. clear bad.
  destruct (size =? 0); [done|]. destruct (e <=? s) eqn:Ese; [done|].
  destruct (USER_SPACE_MAX <? e) eqn:Emax; [done|]. cbn [orb].
  destruct (existsb (vma_overlaps s e) l) eqn:Eov; [done|]. destruct ok; [|done]. cbn [negb orb].
  breflect.
  assert (Hs : 0 <= s /\ s mod 4096 = 0) by (pose proof (page_down_bounds start Hst); unfold s, range_start; lia).
  assert (He : e mod 4096 = 0) by apply (page_down_aligned _ (u64_range _)).
  assert (Hv : vma_ok (mkVma s e flags)) by (unfold vma_ok; simpl; split_and!; lia).
  assert (Hap : forall c, c ∈ l -> vma_apart (mkVma s e flags) c).
  { intros c Hc. unfold vma_apart. simpl. destruct (vma_overlaps s e c) eqn:Eo.
    - assert (existsb (vma_overlaps s e) l = true) as Ht; [|congruence].
      apply existsb_exists. exists c. by rewrite <- list_elem_of_In.
    - unfold vma_overlaps in Eo. apply andb_false_iff in Eo as [Eo|Eo]; breflect; lia. }
  assert (Hl' : vmas_ok (vma_insert l (mkVma s e flags))) by (by apply vma_insert_ok).
  split; [done|]. split_and!; try done. intros a.
  destruct ((s <=? a) && (a <? e)) eqn:Ea.
  - apply (vmaFind_in _ 0); [done|apply vma_insert_elem; by left|]. breflect. split; simpl; lia.
  - assert (Hna : ~ vma_in (mkVma s e flags) a).
    { unfold vma_in. simpl. intros ?. apply andb_false_iff in Ea as [Ea|Ea]; breflect; lia. }
    destruct (vmaFind l a) as [v|] eqn:Ev.
    + destruct (vmaFind_some _ _ _ Ev) as [Hin Hva].
      apply (vmaFind_in _ 0); [done|apply vma_insert_elem; by right|done].
    + rewrite vmaFind_none in *. intros x [->|Hx]%vma_insert_elem; auto.
Qed.

(** C12: [vmaCreate] keeps the VMA list ordered and disjoint.  On success the
    new VMA spans the whole pages of the request and address lookup changes
    exactly there; it fails, leaving the list alone, exactly for an empty or
    wrapping or out-of-range request, an overlap with an existing VMA, or an
    allocation failure. *)
Theorem vmaCreate_correct ok l start size flags :
  vmas_ok l -> is_u64 start -> is_u64 size ->
  let s := range_start start in
  let e := range_end start size in
  let bad := (size =? 0) || (e <=? s) || (USER_SPACE_MAX <? e) ||
             existsb (vma_overlaps s e) l || negb ok in
  let '(l', r) := vmaCreate ok l start size flags in
  vmas_ok l' /\
  match r with
  | Some v => bad = false /\ v = mkVma s e flags /\
      forall a, vmaFind l' a = if (s <=? a) && (a <? e) then Some v else vmaFind l a
  | None => bad = true /\ l' = l
  end.
Proof. apply vmaCreate_spec. Qed.

(** A program image, a heap and a stack. *)
Definition demo_vmas : list Vma :=
  [mkVma 0x400000 0x403000 (8 + 4 + 1); mkVma 0x600000 0x608000 (8 + 2 + 1);
   mkVma 0x7FFFFF000000 0x7FFFFF800000 (32 + 16 + 8 + 2 + 1)].

Lemma demo_vmas_ok : vmas_ok demo_vmas.
Proof. unfold vmas_ok, demo_vmas, vma_ok, USER_SPACE_MAX. simpl. split_and!; done || lia. Qed.

Lemma vmaCreate_correct_witness :
  vmas_ok (vmaCreate true demo_vmas 0x500010 0x2000 9).1 /\
  vmaFind (vmaCreate true demo_vmas 0x500010 0x2000 9).1 0x502FFF = Some (mkVma 0x500000 0x503000 9).
Proof.
  destruct (vmaCreate_correct true demo_vmas 0x500010 0x2000 9 demo_vmas_ok) as (H1 & _ & _ & H2).
  - unfold is_u64. lia.
  - unfold is_u64. lia.
  - split; [exact H1|]. etransitivity; [apply H2|]. vm_compute. reflexivity.
Defined.

(** [vmaDestroy] of a range that does not wrap keeps the list ordered and
    disjoint, and, when the allocation for a split succeeds, removes exactly
    the pages of the range: an address is covered with flags [fl] afterwards
    iff it was before and is outside the range. *)
Theorem vmaDestroy_correct {S} `{FrameAllocator S} ok (st : Vm S) pml4 l start size :
  vmas_ok l -> is_u64 start -> size <> 0 ->
  let s := range_start start in
  let e := range_end start size in
  s < e ->
  let '(_, l', r) := vmaDestroy ok st pml4 l start size in
  r = 0 /\ vmas_ok l' /\
  ((forall v, ok v = true) -> forall a fl,
     (exists v, vmaFind l' a = Some v /\ vflags v = fl) <->
     ~ (s <= a < e) /\ exists v, vmaFind l a = Some v /\ vflags v = fl).
Proof.
  intros Hl Hst Hsz s e Hse. unfold vmaDestroy. destruct (Z.eqb_spec size 0); [done|]. fold s e.
  pose proof (destroy_loop_list ok l st pml4 s e) as El.
  destruct (destroy_loop ok st pml4 l s e) as [st' l']. simpl in El. subst l'.
  assert (Hs : s mod 4096 = 0) by (by apply page_down_aligned).
  assert (He : e mod 4096 = 0) by apply (page_down_aligned _ (u64_range _)).
  assert (Hl' : vmas_ok (destroy_list ok l s e)) by (by apply destroy_list_ok).
  split_and!; try done. intros Hok a fl.
  assert (Hall : destroy_list ok l s e = destroy_list (fun _ => true) l s e).
  { clear - Hok. induction l as [|c r IH]; simpl; [done|]. rewrite IH. by rewrite Hok. }
  setoid_rewrite (vmaFind_iff _ 0 _ _ Hl'). setoid_rewrite (vmaFind_iff _ 0 _ _ Hl).
  rewrite Hall. setoid_rewrite <- (assoc and).
  apply destroy_list_elem; [done|]. intros c Hc. by apply (vmas_from_lb 0 l).
Qed.

Lemma vmaDestroy_correct_witness :
  (vmaDestroy (fun _ => true) (mkVm ∅ (pmm_init demo_boot)) 0 demo_vmas 0x602000 0x1000).2 = 0 /\
  vmas_ok (destroy_list (fun _ => true) demo_vmas 0x602000 0x603000).
Proof.
  pose proof (vmaDestroy_correct (fun _ => true) (mkVm ∅ (pmm_init demo_boot)) 0 demo_vmas
    0x602000 0x1000 demo_vmas_ok) as H.
  pose proof (destroy_loop_list (fun _ => true) demo_vmas (mkVm ∅ (pmm_init demo_boot)) 0
    (range_start 0x602000) (range_end 0x602000 0x1000)) as E.
  unfold vmaDestroy in *. change (0x1000 =? 0) with false in *. cbv iota in *.
  destruct (destroy_loop _ _ _ _ _ _) as [st' l']. cbn [snd] in *. subst l'.
  destruct H as (H1 & H2 & _).
  - unfold is_u64. lia.
  - lia.
  - vm_compute. reflexivity.
  - split; [exact H1|exact H2].
Defined.

(** A range that wraps past 2^64 splits a VMA into two that overlap:
    unmapping from page 3 of the heap with length 2^64 - 4096. *)
Theorem vmaDestroy_wrap_overlaps :
  vmas_ok demo_vmas /\ ~ vmas_ok (destroy_list (fun _ => true) demo_vmas
    (range_start 0x603000) (range_end 0x603000 (2 ^ 64 - 4096))).
Proof.
  split; [exact demo_vmas_ok|]. vm_compute. intros (_ & _ & _ & _ & H & _). by apply H.
Qed.

(** When the allocation for the right half of a split fails, the right half
    is lost: an address outside the range loses its VMA. *)
Theorem vmaDestroy_split_loses :
  vmaFind demo_vmas 0x605000 <> None /\
  vmaFind (destroy_list (fun _ => false) demo_vmas 0x602000 0x603000) 0x605000 = None.
Proof. split; vm_compute; congruence. Qed.

(** [validateUserRange] terminates (its fuel, one round per VMA, always
    suffices) and accepts a non-empty range exactly when it is a non-null
    range of the user half and every address of every page it touches is
    covered by a user VMA with the permission asked for. *)
Theorem validateUserRange_correct l p size write : vmas_ok l -> is_u64 p -> is_u64 size ->
  exists b, validateUserRange (Some l) p size write = Some b /\
    (b = true <-> size = 0 \/
       (p <> 0 /\ p + size <= USER_SPACE_MAX /\
        range_allowed l (page_down p) (page_up (p + size)) write)).
Proof. apply validateUserRange_spec. Qed.

Lemma validateUserRange_correct_witness :
  validateUserRange (Some demo_vmas) 0x600FF0 0x1000 true = Some true /\
  range_allowed demo_vmas (page_down 0x600FF0) (page_up (0x600FF0 + 0x1000)) true.
Proof.
  destruct (validateUserRange_correct demo_vmas 0x600FF0 0x1000 true demo_vmas_ok) as (b & E & H).
  - unfold is_u64. lia.
  - unfold is_u64. lia.
  - assert (Hb : validateUserRange (Some demo_vmas) 0x600FF0 0x1000 true = Some true) by (vm_compute; reflexivity).
    split; [exact Hb|]. rewrite Hb in E. injection E as <-.
    destruct (proj1 H eq_refl) as [H0|(_ & _ & H0)]; [discriminate|exact H0].
Defined.

(** C13: [copyToUser] never writes outside memory the process may write: it
    either returns -14 and changes nothing, or returns 0, copies the bytes,
    and every byte it changed lies in a user VMA with write permission. *)
Theorem copyToUser_safe l m dst src n : vmas_ok l -> is_u64 dst -> is_u64 n ->
  forward_safe dst src n ->
  exists m' r, copyToUser (Some l) m dst src n = Some (m', r) /\
    ((r = -14 /\ m' = m) \/
     (r = 0 /\ copied m m' dst src n /\
      forall a, rd8 m' a <> rd8 m a ->
        exists v, vmaFind l a = Some v /\ vma_allows v true = true)).
Proof.
  intros Hl Hd Hn Hf. unfold copyToUser. destruct (Z.eqb_spec n 0) as [->|Hn0].
  - exists m, 0. split; [done|]. right. split_and!; [done| |done]. intros x.
    by bsplit; try lia.
  - destruct (validateUserRange_spec l dst n true Hl Hd Hn) as (b & -> & Hb). cbn [mbind option_bind].
    destruct b; cbn [negb]; [|by exists m, (-14); auto].
    destruct (proj1 Hb eq_refl) as [?|(H0 & Hmax & Hr)]; [done|].
    eexists _, 0. split; [done|]. right. split; [done|].
    assert (Hc : copied m (memcpy m dst src n).1 dst src n)
      by (apply memcpy_copied; [unfold is_u64 in *; lia|done]).
    split; [done|]. intros a Ha. rewrite (Hc a) in Ha.
    destruct ((dst <=? a) && (a <? dst + n)) eqn:Ea; [|done]. breflect. apply Hr.
    pose proof (page_down_bounds dst Hd). unfold USER_SPACE_MAX in *.
    rewrite page_up_spec by (unfold is_u64 in *; lia). pose proof (Z.mod_pos_bound (- (dst + n)) 4096). lia.
Qed.

Lemma copyToUser_safe_witness :
  exists m' r, copyToUser (Some demo_vmas) demo_mem 0x600000 64 4 = Some (m', r) /\
    r = 0 /\ copied demo_mem m' 0x600000 64 4.
Proof.
  destruct (copyToUser_safe demo_vmas demo_mem 0x600000 64 4 demo_vmas_ok) as (m' & r & E & H).
  - unfold is_u64. lia.
  - unfold is_u64. lia.
  - right. lia.
  - exists m', r. split; [exact E|]. destruct H as [[Hr _]|(Hr & Hc & _)]; [|split; assumption].
    exfalso. subst r. vm_compute in E. discriminate E.
Defined.
