(* ===== verification/PageFault.v ===== *)
(** * Demand paging (src/kernel/mem/vmm.c, [vmmPageFaultHandler])

    The handler decides from the faulting address, the error code and the
    VMAs of the current process whether to map a fresh zeroed frame, to end
    the thread, or to pass the fault on.  Its three exits are values:
    [schedThreadExit] does not return, so [PfExit] ends the run. *)

From Stdlib Require Import ZArith Lia Bool.
From stdpp Require Import base list gmap.
From S2P Require Import Prelude Mem Str Frames Pmm PageTable PtWalk PtOps AddrSpace Vma.

Definition USER_STACK_MAX_SIZE : Z := 8 * 1024 * 1024.

Inductive PfOutcome :=
| PfMapped      (* the page is mapped, the instruction is restarted *)
| PfExit        (* schedThreadExit *)
| PfDefault.    (* default_exception_handler *)

#[export] Instance PfOutcome_eq_dec : EqDecision PfOutcome.
Proof. solve_decision. Defined.

(** The stack-growth search: the first stack VMA above the address that may
    grow down to it. *)
Fixpoint grow_stack (l : list Vma) (cr2 rsp : Z) : option (list Vma * Vma) :=
  match l with
  | [] => None
  | it :: r =>
      if (vflags it &? VMA_STACK)
         && ((cr2 <? vstart it) && (u64 (vend it - page_down cr2) <=? USER_STACK_MAX_SIZE))
         && (rsp <=? u64 (cr2 + 256))
      then let it' := mkVma (page_down cr2) (vend it) (vflags it) in Some (it' :: r, it')
      else '(r', v) ← grow_stack r cr2 rsp; Some (it :: r', v)
  end.

(** The VMA of the fault, and the list after a possible stack growth. *)
Definition fault_vma (l : list Vma) (cr2 rsp : Z) : list Vma * option Vma :=
  match vmaFind l cr2 with
  | Some v => (l, Some v)
  | None => match grow_stack l cr2 rsp with
            | Some (l', v) => (l', Some v)
            | None => (l, None)
            end
  end.

(** What the error code and the code segment say about the access. *)
Record Fault := mkFault { f_cr2 : Z; f_cs : Z; f_error : Z; f_rsp : Z }.
Definition isUserMode (f : Fault) : bool := Z.land (f_cs f) 3 =? 3.
Definition isPresent (f : Fault) : bool := f_error f &? 1.
Definition isWrite (f : Fault) : bool := f_error f &? 2.
Definition isInstructionFetch (f : Fault) : bool := f_error f &? 16.

Definition fault_denied (f : Fault) (v : Vma) : bool :=
  isPresent f || (isWrite f && negb (vflags v &? VMA_WRITE))
  || (isInstructionFetch f && negb (vflags v &? VMA_EXEC))
  || (isUserMode f && negb (vflags v &? VMA_USER)).

Definition mapFlags (v : Vma) : Z :=
  let f0 := Z.lor VMM_FLAG_PRESENT VMM_FLAG_USER in
  let f1 := if vflags v &? VMA_WRITE then Z.lor f0 VMM_FLAG_WRITABLE else f0 in
  if negb (vflags v &? VMA_EXEC) then Z.lor f1 VMM_FLAG_NO_EXECUTE else f1.

Section Handler.
Context {S : Type} `{FrameAllocator S}.

Definition fault_fatal (f : Fault) : PfOutcome := if isUserMode f then PfExit else PfDefault.

(** [proc] is the current process, its table and its VMAs, if there is one. *)
Definition vmmPageFaultHandler (st : Vm S) (proc : option (Z * list Vma)) (f : Fault)
    : Vm S * option (list Vma) * PfOutcome :=
  match proc with
  | None => (st, None, PfDefault)
  | Some (pml4, l) =>
      let cr2 := f_cr2 f in
      if USER_SPACE_MAX <=? cr2 then (st, Some l, PfDefault)
      else
        let '(l', ov) := fault_vma l cr2 (f_rsp f) in
        match ov with
        | None => (st, Some l', fault_fatal f)
        | Some vma =>
            if fault_denied f vma then (st, Some l', fault_fatal f)
            else
              let '(fa1, frame) := fa_alloc (vm_fa st) in
              if frame =? 0 then (mkVm (vm_mem st) fa1, Some l', fault_fatal f)
              else
                let m1 := (memset (vm_mem st) (u64 (frame + HHDM_BASE)) 0 PAGE_SIZE).1 in
                let pageAddr := page_down cr2 in
                let '(st2, r) := vmmMapPage (mkVm m1 fa1) pml4 pageAddr frame (mapFlags vma) in
                if negb (r =? 0)
                then (mkVm (vm_mem st2) (fa_free (vm_fa st2) frame), Some l', fault_fatal f)
                else (st2, Some l', PfMapped)
        end
  end.
End Handler.

(** ** The VMA that justifies a mapping *)

(** A stack that may grow down to the faulting address: it lies above it, is
    not larger than the limit afterwards, and the access is not far below the
    stack pointer. *)
Definition may_grow (f : Fault) (it : Vma) : Prop :=
  Z.testbit (vflags it) 5 = true /\ f_cr2 f < vstart it /\
  vend it - page_down (f_cr2 f) <= 8 * 2 ^ 20 /\ f_rsp f <= f_cr2 f + 256.

Definition grown (f : Fault) (it : Vma) : Vma := mkVma (page_down (f_cr2 f)) (vend it) (vflags it).

(** The area of a fault, if any, and the areas afterwards: one that covers
    the address, or else the first stack that may grow, grown to the page. *)
Inductive fault_area (l : list Vma) (f : Fault) : option Vma -> list Vma -> Prop :=
| area_found v : v ∈ l -> vma_in v (f_cr2 f) -> fault_area l f (Some v) l
| area_grown a it b : l = a ++ it :: b -> (forall x, x ∈ l -> ~ vma_in x (f_cr2 f)) ->
    (forall x, x ∈ a -> ~ may_grow f x) -> may_grow f it -> fault_area l f (Some (grown f it)) (a ++ grown f it :: b)
| area_none : (forall x, x ∈ l -> ~ vma_in x (f_cr2 f)) -> (forall x, x ∈ l -> ~ may_grow f x) -> fault_area l f None l.

Lemma may_grow_spec f it : is_u64 (f_cr2 f) -> f_cr2 f < USER_SPACE_MAX -> vma_ok it ->
  (vflags it &? VMA_STACK)
    && ((f_cr2 f <? vstart it) && (u64 (vend it - page_down (f_cr2 f)) <=? USER_STACK_MAX_SIZE))
    && (f_rsp f <=? u64 (f_cr2 f + 256)) = true <-> may_grow f it.
Proof.
  intros Hc Hm (Hv & Hv2 & _). pose proof (page_down_range _ Hc) as Hpr. assert (Hpd : page_down (f_cr2 f) <= f_cr2 f) by (rewrite page_down_spec by done; divlia). unfold USER_SPACE_MAX, USER_STACK_MAX_SIZE, is_u64, VMA_STACK in *.
  unfold may_grow. rewrite has_testbit, !andb_true_iff, !Z.leb_le, Z.ltb_lt by lia. rewrite (u64_id (f_cr2 f + 256)) by (unfold is_u64; lia).
  split; [intros ((H1 & H2 & H3) & H4); rewrite u64_id in H3 by (unfold is_u64; lia)|
    intros (H1 & H2 & H3 & H4); rewrite u64_id by (unfold is_u64; lia)]; split_and!; done || lia.
Qed.

Lemma grow_stack_area f l : is_u64 (f_cr2 f) -> f_cr2 f < USER_SPACE_MAX -> Forall vma_ok l ->
  match grow_stack l (f_cr2 f) (f_rsp f) with
  | Some (l', v) => exists a it b, l = a ++ it :: b /\ (forall x, x ∈ a -> ~ may_grow f x) /\ may_grow f it /\
      v = grown f it /\ l' = a ++ v :: b
  | None => forall x, x ∈ l -> ~ may_grow f x
  end.
Proof.
  intros Hc Hm. induction l as [|it r IH]; intros Hl; cbn [grow_stack]; [intros x Hx; by apply elem_of_nil in Hx|].
  apply Forall_cons in Hl as [Hit Hr]. specialize (IH Hr). pose proof (may_grow_spec f it Hc Hm Hit) as Hg.
  destruct (_ && _).
  - exists [], it, r. split_and!; try done; [intros x Hx; by apply elem_of_nil in Hx|by apply Hg].
  - assert (Hn : ~ may_grow f it) by (intros Hx; by apply Hg in Hx).
    destruct (grow_stack r (f_cr2 f) (f_rsp f)) as [[r' w]|]; cbn [mbind option_bind].
    + destruct IH as (a & it' & b & -> & Ha & Hi & -> & ->). exists (it :: a), it', b. split_and!; try done.
      intros x [->|Hx]%elem_of_cons; [done|by apply Ha].
    + intros x [->|Hx]%elem_of_cons; [done|by apply IH].
Qed.

Lemma fault_vma_area f l : is_u64 (f_cr2 f) -> f_cr2 f < USER_SPACE_MAX -> Forall vma_ok l ->
  let r := fault_vma l (f_cr2 f) (f_rsp f) in fault_area l f r.2 r.1.
Proof.
  intros Hc Hm Hl. unfold fault_vma. destruct (vmaFind l (f_cr2 f)) as [v|] eqn:E.
  - destruct (vmaFind_some _ _ _ E). by apply area_found.
  - pose proof (proj1 (vmaFind_none _ _) E) as Hn. pose proof (grow_stack_area f l Hc Hm Hl) as Hg.
    destruct (grow_stack l (f_cr2 f) (f_rsp f)) as [[l' v]|]; cbn [fst snd]; [|by apply area_none].
    destruct Hg as (a & it & b & Ea & Ha & Hi & -> & ->). by apply area_grown.
Qed.

(** Zeroing a frame through the direct map. *)
Lemma memset_entry m f g j : table_frame f -> table_frame g -> 0 <= j < 512 ->
  entry (memset m (tbl f) 0 PAGE_SIZE).1 g j = if g =? f then 0 else entry m g j.
Proof.
  intros Hf Hg Hj. pose proof (memset_filled m (tbl f) 0 PAGE_SIZE ltac:(done)) as Hm.
  destruct (tbl_aligned f) as [_ Ha]; [apply Hf..|].
  destruct (tbl_aligned g) as [_ Hb]; [apply Hg..|].
  unfold entry, PAGE_SIZE in *. destruct (Z.eqb_spec g f) as [->|Hne].
  - transitivity (rd64 ∅ (tbl f + 8 * j)); [|done]. apply rd_ext. intros x Hx.
    rewrite Hm. change (Z.of_nat 8) with 8 in Hx.
    destruct (Z.leb_spec (tbl f) x), (Z.ltb_spec x (tbl f + 4096)); simpl; done || lia.
  - apply rd_ext. intros x Hx. rewrite Hm. change (Z.of_nat 8) with 8 in Hx.
    assert (tbl g <> tbl f) by (intros E; apply Hne, tbl_inj; [apply Hg|apply Hf|done]).
    destruct (Z.leb_spec (tbl f) x), (Z.ltb_spec x (tbl f + 4096)); simpl; try done. exfalso. divlia.
Qed.

Lemma mapFlags_ok v : is_u64 (mapFlags v) /\ nextf (mapFlags v) = 0.
Proof.
  unfold mapFlags. destruct (vflags v &? VMA_WRITE), (vflags v &? VMA_EXEC);
    split; vm_compute; try done; split; congruence.
Qed.

Section Correct.
Context {S : Type} `{FrameAllocator S} `{!FrameAllocatorLaws S}.
Implicit Types (st : Vm S).

(** The state in which the handler maps: a fresh frame, zeroed. *)
Lemma zeroed_frame st root fa1 frame : pt_wf st root ->
  fa_alloc (vm_fa st) = (fa1, frame) -> frame <> 0 ->
  let st1 := mkVm (memset (vm_mem st) (tbl frame) 0 PAGE_SIZE).1 fa1 in
  frame_addr frame /\ ~ fa_used (vm_fa st) frame /\ fa_used fa1 frame /\
  pt_wf st1 root /\ not_table (vm_mem st1) root frame /\
  (forall q, idx_ok q -> (length q <= 4)%nat -> xl (vm_mem st1) root q = xl (vm_mem st) root q) /\
  (forall i, 0 <= i < 512 -> entry (vm_mem st1) frame i = 0).
Proof.
  intros W Ea Hne st1. pose proof (pw_ok _ _ W) as Hok.
  pose proof (fa_alloc_frame _ Hok) as Hf. pose proof (fa_alloc_fresh _ Hok) as Hfr.
  pose proof (fa_alloc_ok _ Hok) as Hok1. pose proof (fun a => fa_alloc_used _ a Hok) as Hu.
  rewrite Ea in *. cbn [fst snd] in *. specialize (Hf Hne). specialize (Hfr Hne).
  assert (Hke : forall c f i, idx_ok c -> (length c <= 3)%nat -> walk (vm_mem st) root c = Some f ->
            0 <= i < 512 -> entry (vm_mem st1) f i = entry (vm_mem st) f i).
  { intros c f i Hc Hl Hw Hi. destruct (pw_used _ _ W c f Hc Hl Hw) as [Hfa Hfu].
    unfold st1. cbn [vm_mem]. rewrite memset_entry by auto with nova.
    destruct (Z.eqb_spec f frame); [by subst|done]. }
  destruct (kept_space st st1 root W) as [W1 Hx]; [exact Hok1| |exact Hke|].
  { intros f Hfa Hfu _. apply Hu; auto. }
  split_and!; try done.
  - apply Hu; auto.
  - intros q Hq Hl Hw. rewrite (proj1 (Hx q Hq ltac:(lia))) in Hw.
    apply Hfr, (pw_used _ _ W q frame Hq Hl Hw).
  - intros q Hq Hl. by apply Hx.
  - intros i Hi. unfold st1. cbn [vm_mem]. rewrite memset_entry by auto with nova.
    by rewrite Z.eqb_refl.
Qed.

(** Releasing a frame that is no table keeps the tree. *)
Lemma free_nontable_wf st root f : pt_wf st root -> frame_addr f -> not_table (vm_mem st) root f ->
  pt_wf (mkVm (vm_mem st) (fa_free (vm_fa st) f)) root.
Proof.
  intros W Hf Hn. assert (is_u64 f) by (unfold is_u64, frame_addr in *; lia).
  pose proof (pw_ok _ _ W) as Hok. constructor; cbn [vm_mem vm_fa]; try apply W.
  - by apply fa_free_ok.
  - intros p g Hp Hl Hw. destruct (pw_used _ _ W p g Hp Hl Hw) as [Hg Hu]. split; [done|].
    apply fa_free_used; try done. split; [done|]. intros ->. by apply (Hn p).
Qed.

(** A fault that changes no translation. *)
Definition same_space st st' (root : Z) : Prop :=
  pt_wf st' root /\ forall v, translate st' root v = translate st root v.

Lemma same_space_xl st st' root : pt_wf st root -> pt_wf st' root ->
  (forall q, idx_ok q -> length q = 4%nat -> xl (vm_mem st') root q = xl (vm_mem st) root q) ->
  same_space st st' root.
Proof.
  intros W W' X. split; [done|]. intros v. apply translate_ext; [done..|].
  apply X; [apply vpath_ok|done].
Qed.

(** The mapping step, from allocation on. *)
Lemma fault_map st root vma f fa1 frame : pt_wf st root -> is_u64 (f_cr2 f) ->
  no_huge (vm_mem st) root (f_cr2 f) ->
  fa_alloc (vm_fa st) = (fa1, frame) -> frame <> 0 ->
  let st1 := mkVm (memset (vm_mem st) (tbl frame) 0 PAGE_SIZE).1 fa1 in
  let r := vmmMapPage st1 (tbl root) (page_down (f_cr2 f)) frame (mapFlags vma) in
  pt_wf r.1 root /\ not_table (vm_mem r.1) root frame /\ frame_addr frame /\
  ~ fa_used (vm_fa st) frame /\ fa_used (vm_fa r.1) frame /\
  (forall i, 0 <= i < 512 -> entry (vm_mem r.1) frame i = 0) /\
  (forall g, frame_addr g -> fa_used (vm_fa st) g -> fa_used (vm_fa r.1) g) /\
  ((r.2 = -1 /\ (fa_alloc (vm_fa r.1)).2 = 0 /\
    forall q, idx_ok q -> length q = 4%nat -> xl (vm_mem r.1) root q = xl (vm_mem st) root q) \/
   (r.2 = 0 /\ forall q, idx_ok q -> length q = 4%nat -> xl (vm_mem r.1) root q =
      if decide (q = vpath (f_cr2 f)) then Some (leaf_entry frame (mapFlags vma), 0%nat)
      else xl (vm_mem st) root q)).
Proof.
  intros W Hc Hh Ea Hne st1 r.
  destruct (zeroed_frame st root fa1 frame W Ea Hne) as (Hf & Hfr & Hu & W1 & Hnt & X1 & Z1).
  fold st1 in W1, Hnt, X1, Z1. destruct (mapFlags_ok vma) as [Hfu Hfn].
  pose proof (page_down_range _ Hc) as Hpd.
  assert (Hpu : is_u64 (page_down (f_cr2 f))) by (unfold is_u64 in *; lia).
  assert (Hfb : 0 < frame < 2 ^ 47) by apply Hf.
  destruct (vmmMapPage_outcome st1 root (page_down (f_cr2 f)) frame (mapFlags vma)) as [M C];
    try done; [unfold is_u64; lia|lia| |].
  { intros e k. rewrite vpath_page, X1 by (done || apply vpath_ok || (simpl; lia)). apply Hh. }
  fold r in M, C. rewrite vpath_page in * by done.
  assert (Hnt2 : not_table (vm_mem r.1) root frame).
  { intros q Hq Hl Hw. destruct (mf_back _ _ _ _ M q frame Hq Hl Hw); [by apply (Hnt q)|done]. }
  split_and!; try done.
  - apply (mf_wf _ _ _ _ M).
  - by apply (mf_used _ _ _ _ M).
  - intros i Hi. rewrite (mf_keep _ _ _ _ M); [by apply Z1|done..| |done].
    intros (q & r' & E & Hl & Hw). apply (Hnt q); [|done..].
    pose proof (vpath_ok (f_cr2 f)) as Hok. rewrite E in Hok. by apply idx_ok_app in Hok as [? _].
  - intros g Hg Hgu. apply (mf_used _ _ _ _ M); [done|]. unfold st1. cbn [vm_fa].
    pose proof (fa_alloc_used _ g (pw_ok _ _ W)) as Hau. rewrite Ea in Hau. apply Hau; auto.
  - destruct C as [(E & Hno & X)|[E X]]; [left|right]; (split; [done|]); [split; [done|]|]; intros q Hq Hl; rewrite X by done.
    + apply X1; done || lia.
    + case_decide; [done|]. apply X1; done || lia.
Qed.
End Correct.

(** ** Properties *)
Section Claims.
Context {S : Type} `{FrameAllocator S} `{!FrameAllocatorLaws S}.

(** The access of a fault, by the bits of its error code, is one the flags of
    the VMA allow: the page is absent, a write needs VMA_WRITE, an
    instruction fetch VMA_EXEC, and a user-mode access VMA_USER. *)
Record access_allowed (f : Fault) (v : Vma) : Prop := {
  aa_absent : Z.testbit (f_error f) 0 = false;
  aa_write : Z.testbit (f_error f) 1 = true -> Z.testbit (vflags v) 1 = true;
  aa_fetch : Z.testbit (f_error f) 4 = true -> Z.testbit (vflags v) 2 = true;
  aa_user : Z.land (f_cs f) 3 = 3 -> Z.testbit (vflags v) 3 = true
}.

Lemma fault_denied_spec f v : fault_denied f v = false <-> access_allowed f v.
Proof.
  unfold fault_denied, isPresent, isWrite, isInstructionFetch, isUserMode, VMA_WRITE, VMA_EXEC, VMA_USER.
  change 16 with (2 ^ 4). change (f_error f &? 1) with (f_error f &? 2 ^ 0). change (f_error f &? 2) with (f_error f &? 2 ^ 1).
  rewrite !has_testbit by lia. rewrite !orb_false_iff, !andb_false_iff, !negb_false_iff.
  split.
  - intros (((H0 & H1) & H2) & H3). split; try done; intros E; [destruct H1|destruct H2|destruct H3 as [H3|]]; try congruence.
    by rewrite E in H3.
  - intros [H0 H1 H2 H3]. split_and!; [done|destruct (Z.testbit (f_error f) 1); auto|destruct (Z.testbit (f_error f) 4); auto|].
    destruct (Z.eqb_spec (Z.land (f_cs f) 3) 3); auto.
Qed.

(** The entry [e] of a page gives the rights of its area: user pages, writable
    and executable as the area is. *)
Definition rights_of (v : Vma) (e : Z) : Prop :=
  Z.testbit e 0 = true /\ Z.testbit e 1 = Z.testbit (vflags v) 1 /\ Z.testbit e 2 = true /\
  Z.testbit e 63 = negb (Z.testbit (vflags v) 2).

Lemma mapFlags_rights frame v : is_u64 frame -> frame < 2 ^ 52 -> frame mod 4096 = 0 ->
  rights_of v (leaf_entry frame (mapFlags v)) /\ nextf (leaf_entry frame (mapFlags v)) = frame.
Proof.
  intros Hf Hl Hm. destruct (mapFlags_ok v) as [Hu Hn].
  assert (Ep : page_down frame = frame) by (rewrite page_down_spec by done; lia).
  split; [|rewrite <- Ep at 2; by apply leaf_entry_facts].
  unfold rights_of. rewrite !leaf_entry_bits by lia. unfold mapFlags, VMA_WRITE, VMA_EXEC. rewrite !has_testbit by lia.
  destruct (Z.testbit (vflags v) 1), (Z.testbit (vflags v) 2); by split_and!.
Qed.

(** The allocator has no frame left, but for the one the handler took for the
    page and has given back. *)
Definition out_of_frames (fa fa' : S) : Prop :=
  exists fa1, (fa_alloc fa1).2 = 0 /\
    (fa' = fa1 \/ exists frame, frame_addr frame /\ ~ fa_used fa frame /\ fa' = fa_free fa1 frame).

(** What a fault that cannot be served leaves: the translations, and every
    frame in use stays so; nothing at all changes unless memory ran out. *)
Definition not_served (st st' : Vm S) (root : Z) : Prop :=
  same_space st st' root /\ (forall g, frame_addr g -> fa_used (vm_fa st) g -> fa_used (vm_fa st') g) /\
  (st' = st \/ out_of_frames (vm_fa st) (vm_fa st')).

Definition fatal (f : Fault) (o : PfOutcome) : Prop :=
  (Z.land (f_cs f) 3 = 3 -> o = PfExit) /\ (Z.land (f_cs f) 3 <> 3 -> o = PfDefault).

Lemma fault_fatal_spec f : fatal f (fault_fatal f).
Proof. unfold fatal, fault_fatal, isUserMode. by destruct (Z.eqb_spec (Z.land (f_cs f) 3) 3). Qed.

(** The mapping of a page under the area [v], or out of memory. *)
Lemma fault_serve (st : Vm S) root f v (l' : list Vma) : pt_wf st root -> is_u64 (f_cr2 f) -> no_huge (vm_mem st) root (f_cr2 f) ->
  let '(st', ol, o) :=
    let '(fa1, frame) := fa_alloc (vm_fa st) in
    if frame =? 0 then (mkVm (vm_mem st) fa1, Some l', fault_fatal f)
    else
      let m1 := (memset (vm_mem st) (u64 (frame + HHDM_BASE)) 0 PAGE_SIZE).1 in
      let pageAddr := page_down (f_cr2 f) in
      let '(st2, r) := vmmMapPage (mkVm m1 fa1) (tbl root) pageAddr frame (mapFlags v) in
      if negb (r =? 0) then (mkVm (vm_mem st2) (fa_free (vm_fa st2) frame), Some l', fault_fatal f)
      else (st2, Some l', PfMapped) in
  ol = Some l' /\
  ((o = PfMapped /\ pt_wf st' root /\ exists frame e, ~ fa_used (vm_fa st) frame /\ fa_used (vm_fa st') frame /\
      (forall i, 0 <= i < 512 -> entry (vm_mem st') frame i = 0) /\
      xl (vm_mem st') root (vpath (f_cr2 f)) = Some (e, 0%nat) /\ nextf e = frame /\ rights_of v e /\
      forall w, is_u64 w -> translate st' root w =
        if vpage w =? vpage (f_cr2 f) then frame + w mod 4096 else translate st root w) \/
   (fatal f o /\ not_served st st' root /\ out_of_frames (vm_fa st) (vm_fa st'))).
Proof.
  intros W Hc Hh. pose proof (fault_map st root v f) as Hmap.
  destruct (fa_alloc (vm_fa st)) as [fa1 frame] eqn:Ea.
  destruct (Z.eqb_spec frame 0) as [->|Hne].
  - pose proof (fa_alloc_null _ (pw_ok _ _ W)) as Hn. rewrite Ea in Hn. specialize (Hn eq_refl).
    simpl in Hn. subst fa1. split; [done|right]. destruct st as [m fa]. cbn [vm_mem vm_fa] in *.
    assert (Ho : out_of_frames fa fa) by (exists fa; rewrite Ea; auto).
    split_and!; [apply fault_fatal_spec|split_and!; auto; by split|done].
  - destruct (Hmap fa1 frame W Hc Hh eq_refl Hne) as (W2 & Hnt & Hf & Hfr & Hu & Hz & Hk & C).
    fold (tbl frame). clear Hmap. cbv zeta.
    destruct (vmmMapPage _ _ _ _ _) as [st2 r]. cbn [fst snd] in *.
    assert (0 < frame < 2 ^ 47 /\ frame mod 4096 = 0) as [Hfb Hfm] by apply Hf.
    assert (Hfu64 : is_u64 frame) by (unfold is_u64; lia).
    destruct C as [(-> & Hno & X)|[-> X]]; cbn [Z.eqb negb]; (split; [done|]).
    + right. assert (Ho : out_of_frames (vm_fa st) (fa_free (vm_fa st2) frame)) by (exists (vm_fa st2); split; [exact Hno|right; by exists frame]).
      split_and!; [apply fault_fatal_spec|split_and!; [apply same_space_xl; [done|by apply free_nontable_wf|exact X]| |by right]|done].
      intros g Hg Hgu. apply fa_free_used; [apply (pw_ok _ _ W2)|done..|]. split; [by apply Hk|by intros <-].
    + left. split_and!; [done..|]. destruct (mapFlags_rights frame v) as [Hr Hnx]; [done|lia|done|].
      exists frame, (leaf_entry frame (mapFlags v)). split_and!; try done.
      * rewrite X by (done || apply vpath_ok). by rewrite decide_True.
      * intros w Hw. rewrite translate_xl, X by (done || apply vpath_ok).
        destruct (Z.eqb_spec (vpage w) (vpage (f_cr2 f))) as [E|E]; rewrite <- vpath_vpage in E by done.
        -- rewrite decide_True by done. destruct (mapFlags_ok v) as [Hfu Hfn].
           rewrite phys_of_leaf by (done || lia). rewrite page_down_spec by done. lia.
        -- rewrite decide_False by done. by rewrite translate_xl.
Qed.

(** C11: the page-fault handler on a user address finds the area of the fault:
    one that covers the address, or else the first stack that may grow down to
    it within the limit, which is then grown.  With an area that allows the
    access, either the page of the address, and no other, translates to a
    frame that was free before and reads as zeros, with exactly the rights of
    the area, or the allocator is out of frames.  Without an area, or when the
    area does not allow the access, nothing changes (but for a stack that was
    grown).  A fault that is not served ends the thread, or goes to the
    default handler when it was not in user mode; a kernel address always
    does, with nothing changed. *)
Theorem vmmPageFaultHandler_correct (st : Vm S) root l f :
  pt_wf st root -> is_u64 (f_cr2 f) -> no_huge (vm_mem st) root (f_cr2 f) -> Forall vma_ok l ->
  let '(st', ol, o) := vmmPageFaultHandler st (Some (tbl root, l)) f in
  (USER_SPACE_MAX <= f_cr2 f /\ o = PfDefault /\ st' = st /\ ol = Some l) \/
  (f_cr2 f < USER_SPACE_MAX /\ exists ov l', fault_area l f ov l' /\ ol = Some l' /\
   match ov with
   | None => fatal f o /\ st' = st
   | Some v =>
       (~ access_allowed f v /\ fatal f o /\ st' = st) \/
       (access_allowed f v /\
        ((o = PfMapped /\ pt_wf st' root /\ exists frame e, ~ fa_used (vm_fa st) frame /\ fa_used (vm_fa st') frame /\
           (forall i, 0 <= i < 512 -> entry (vm_mem st') frame i = 0) /\
           xl (vm_mem st') root (vpath (f_cr2 f)) = Some (e, 0%nat) /\ nextf e = frame /\ rights_of v e /\
           forall w, is_u64 w -> translate st' root w =
             if vpage w =? vpage (f_cr2 f) then frame + w mod 4096 else translate st root w) \/
         (fatal f o /\ not_served st st' root /\ out_of_frames (vm_fa st) (vm_fa st'))))
   end).
Proof.
  intros W Hc Hh Hl. unfold vmmPageFaultHandler.
  destruct (Z.leb_spec USER_SPACE_MAX (f_cr2 f)) as [|Hm]; [by left|].
  pose proof (fault_vma_area f l Hc Hm Hl) as Ha.
  destruct (fault_vma l (f_cr2 f) (f_rsp f)) as [l' [v|]]; cbn [fst snd] in Ha.
  - destruct (fault_denied f v) eqn:Ed.
    + right. split; [done|]. exists (Some v), l'. split_and!; [done..|]. left. split_and!; [|apply fault_fatal_spec|done].
      intros Hx. apply fault_denied_spec in Hx. congruence.
    + apply fault_denied_spec in Ed. pose proof (fault_serve st root f v l' W Hc Hh) as Hs.
      destruct (let '(fa1, frame) := fa_alloc (vm_fa st) in _) as [[st' ol] o]. destruct Hs as [-> Hs].
      right. split; [done|]. exists (Some v), l'. split_and!; [done..|]. by right.
  - right. split; [done|]. exists None, l'. split_and!; [done..|apply fault_fatal_spec|done].
Qed.
End Claims.

Lemma demo_vmas_each : Forall vma_ok demo_vmas.
Proof. repeat constructor; unfold USER_SPACE_MAX; simpl; lia. Qed.

Lemma vmmPageFaultHandler_correct_witness :
  exists st' l', vmmPageFaultHandler demo_vm (Some (tbl demo_root, demo_vmas))
      (mkFault 0x600123 0x23 6 0x7FFFFF7FF000) = (st', Some l', PfMapped) /\
    exists frame e, ~ fa_used (vm_fa demo_vm) frame /\ translate st' demo_root 0x600123 = frame + 0x123 /\
      xl (vm_mem st') demo_root (vpath 0x600123) = Some (e, 0%nat) /\ Z.testbit e 1 = true.
Proof.
  pose proof (vmmPageFaultHandler_correct demo_vm demo_root demo_vmas
    (mkFault 0x600123 0x23 6 0x7FFFFF7FF000) demo_wf) as H.
  assert (E : (vmmPageFaultHandler demo_vm (Some (tbl demo_root, demo_vmas))
      (mkFault 0x600123 0x23 6 0x7FFFFF7FF000)).2 = PfMapped) by (vm_compute; reflexivity).
  destruct (vmmPageFaultHandler demo_vm _ _) as [[st' ol] o]. cbn [snd] in E. subst o.
  destruct H as [(_ & E & _)|(_ & ov & l' & Ha & -> & H)].
  - unfold is_u64. simpl. lia.
  - apply demo_no_huge.
  - exact demo_vmas_each.
  - discriminate E.
  - exists st', l'. split; [reflexivity|]. destruct ov as [v|].
    + destruct H as [(_ & [F _] & _)|([_ Aw _ _] & [(_ & _ & frame & e & Hfr & _ & _ & X & _ & (_ & R1 & _) & T)|([F _] & _)])];
        [discriminate (F eq_refl)| |discriminate (F eq_refl)].
      exists frame, e. split; [exact Hfr|]. split; [rewrite T; [reflexivity|unfold is_u64; lia]|].
      split; [exact X|]. rewrite R1. apply Aw. reflexivity.
    + destruct H as [[F _] _]. discriminate (F eq_refl).
Defined.

(** Growing a stack does not look at the VMAs between the address and the
    stack: the grown VMA can cover another one. *)
Theorem grow_stack_overlaps :
  let l := [mkVma 0x7FFFFF400000 0x7FFFFF401000 9; mkVma 0x7FFFFF700000 0x7FFFFF800000 (32 + 8 + 2 + 1)] in
  vmas_ok l /\
  exists l', fault_vma l 0x7FFFFF300000 0x7FFFFF300000 = (l', Some (mkVma 0x7FFFFF300000 0x7FFFFF800000 43)) /\
    ~ vmas_ok l'.
Proof.
  split; [unfold vmas_ok, vma_ok, USER_SPACE_MAX; simpl; split_and!; done || lia|].
  eexists. split; [vm_compute; reflexivity|]. vm_compute. intros (_ & _ & H & _). by apply H.
Qed.
