(* ===== verification/Sched.v ===== *)
(** * The scheduler (src/kernel/sched/sched.c): state and operations

    Threads live in a store indexed by their address; queue links are the
    [next]/[prev] fields of the threads themselves, so that the model keeps
    the aliasing of the code: the ready queue, the sleep queue and the thread
    list of a process all use the same [next] field.  Address 0 is NULL.

    One processor runs the scheduler.  [cpuSwitchTo] is the change of
    [gCurrentThread]: what the switched-to thread does next is another step.
    Floating-point state (fxsave/fxrstor) and the saved registers are not
    part of the state; [vmmSwitchPml4] sets the table in use, [cr3]. *)

From Stdlib Require Import ZArith Lia Bool.
From stdpp Require Import base list gmap.
From S2P Require Import Prelude Vma.

Inductive ThreadState :=
| THREAD_STATE_UNUSED | THREAD_STATE_READY | THREAD_STATE_RUNNING
| THREAD_STATE_BLOCKED | THREAD_STATE_SLEEPING | THREAD_STATE_ZOMBIE.

#[export] Instance ThreadState_eq_dec : EqDecision ThreadState.
Proof. solve_decision. Defined.

Definition SCHED_DEFAULT_QUANTUM : Z := 10.
Definition SCHED_KSTACK_SIZE : Z := 4 * PAGE_SIZE.

(** The first frame of a new thread: entry point and argument, and for a user
    thread the user stack pointer of the [IretFrame]. *)
Record StartFrame := mkStart { st_entry : Z; st_arg : Z; st_user_rsp : option Z }.

Record Thread := mkThread {
  t_tid : Z; t_state : ThreadState; t_timeSlice : Z; t_defaultSlice : Z;
  t_needResched : bool; t_preemptCount : Z; t_sleepTargetTicks : Z;
  t_process : Z; t_next : Z; t_prev : Z; t_waitNext : Z;
  t_kstackBase : Z; t_kstackTop : Z; t_userRsp : Z; t_start : StartFrame }.

Definition thread0 : Thread :=
  mkThread 0 THREAD_STATE_UNUSED 0 0 false 0 0 0 0 0 0 0 0 0 (mkStart 0 0 None).

(** What the scheduler uses of a process. *)
Record Process := mkProcess { p_pid : Z; p_pml4 : Z; p_vmas : list Vma; p_threads : Z }.
Definition process0 : Process := mkProcess 0 0 [] 0.

Record Sched := mkSched {
  s_threads : gmap Z Thread; s_procs : gmap Z Process;
  gCurrentThread : Z; gIdleThread : Z;
  gReadyQueueHead : Z; gReadyQueueTail : Z; gSleepQueueHead : Z;
  gSchedTicks : Z; gNextTid : Z;
  cpu_kstackTop : Z; cpu_currentThread : Z; cr3 : Z }.

Definition th (s : Sched) (p : Z) : Thread := default thread0 (s_threads s !! p).
Definition pr (s : Sched) (p : Z) : Process := default process0 (s_procs s !! p).

(** ** Field updates *)
Definition set_threads (s : Sched) (m : gmap Z Thread) : Sched :=
  mkSched m (s_procs s) (gCurrentThread s) (gIdleThread s) (gReadyQueueHead s) (gReadyQueueTail s)
    (gSleepQueueHead s) (gSchedTicks s) (gNextTid s) (cpu_kstackTop s) (cpu_currentThread s) (cr3 s).
Definition set_th (s : Sched) (p : Z) (t : Thread) : Sched := set_threads s (<[p := t]> (s_threads s)).
Definition set_proc (s : Sched) (p : Z) (x : Process) : Sched :=
  mkSched (s_threads s) (<[p := x]> (s_procs s)) (gCurrentThread s) (gIdleThread s) (gReadyQueueHead s)
    (gReadyQueueTail s) (gSleepQueueHead s) (gSchedTicks s) (gNextTid s) (cpu_kstackTop s)
    (cpu_currentThread s) (cr3 s).
Definition set_ready (s : Sched) (h t : Z) : Sched :=
  mkSched (s_threads s) (s_procs s) (gCurrentThread s) (gIdleThread s) h t (gSleepQueueHead s)
    (gSchedTicks s) (gNextTid s) (cpu_kstackTop s) (cpu_currentThread s) (cr3 s).
Definition set_sleep (s : Sched) (h : Z) : Sched :=
  mkSched (s_threads s) (s_procs s) (gCurrentThread s) (gIdleThread s) (gReadyQueueHead s)
    (gReadyQueueTail s) h (gSchedTicks s) (gNextTid s) (cpu_kstackTop s) (cpu_currentThread s) (cr3 s).
Definition set_ticks (s : Sched) (t : Z) : Sched :=
  mkSched (s_threads s) (s_procs s) (gCurrentThread s) (gIdleThread s) (gReadyQueueHead s)
    (gReadyQueueTail s) (gSleepQueueHead s) t (gNextTid s) (cpu_kstackTop s) (cpu_currentThread s) (cr3 s).
Definition set_nextTid (s : Sched) (t : Z) : Sched :=
  mkSched (s_threads s) (s_procs s) (gCurrentThread s) (gIdleThread s) (gReadyQueueHead s)
    (gReadyQueueTail s) (gSleepQueueHead s) (gSchedTicks s) t (cpu_kstackTop s) (cpu_currentThread s) (cr3 s).
Definition set_idle (s : Sched) (i : Z) : Sched :=
  mkSched (s_threads s) (s_procs s) (gCurrentThread s) i (gReadyQueueHead s) (gReadyQueueTail s)
    (gSleepQueueHead s) (gSchedTicks s) (gNextTid s) (cpu_kstackTop s) (cpu_currentThread s) (cr3 s).
(** [gCurrentThread = next], the TSS and per-CPU fields, and the page table. *)
Definition set_current (s : Sched) (c kstack pml4 : Z) : Sched :=
  mkSched (s_threads s) (s_procs s) c (gIdleThread s) (gReadyQueueHead s) (gReadyQueueTail s)
    (gSleepQueueHead s) (gSchedTicks s) (gNextTid s) kstack c pml4.

Definition with_links (t : Thread) (n p : Z) : Thread :=
  mkThread (t_tid t) (t_state t) (t_timeSlice t) (t_defaultSlice t) (t_needResched t) (t_preemptCount t)
    (t_sleepTargetTicks t) (t_process t) n p (t_waitNext t) (t_kstackBase t) (t_kstackTop t)
    (t_userRsp t) (t_start t).
Definition with_next (t : Thread) (n : Z) : Thread := with_links t n (t_prev t).
Definition with_prev (t : Thread) (p : Z) : Thread := with_links t (t_next t) p.
Definition with_state (t : Thread) (x : ThreadState) : Thread :=
  mkThread (t_tid t) x (t_timeSlice t) (t_defaultSlice t) (t_needResched t) (t_preemptCount t)
    (t_sleepTargetTicks t) (t_process t) (t_next t) (t_prev t) (t_waitNext t) (t_kstackBase t)
    (t_kstackTop t) (t_userRsp t) (t_start t).
Definition with_slice (t : Thread) (slice : Z) (resched : bool) : Thread :=
  mkThread (t_tid t) (t_state t) slice (t_defaultSlice t) resched (t_preemptCount t)
    (t_sleepTargetTicks t) (t_process t) (t_next t) (t_prev t) (t_waitNext t) (t_kstackBase t)
    (t_kstackTop t) (t_userRsp t) (t_start t).
Definition with_preempt (t : Thread) (c : Z) : Thread :=
  mkThread (t_tid t) (t_state t) (t_timeSlice t) (t_defaultSlice t) (t_needResched t) c
    (t_sleepTargetTicks t) (t_process t) (t_next t) (t_prev t) (t_waitNext t) (t_kstackBase t)
    (t_kstackTop t) (t_userRsp t) (t_start t).
Definition with_target (t : Thread) (x : Z) : Thread :=
  mkThread (t_tid t) (t_state t) (t_timeSlice t) (t_defaultSlice t) (t_needResched t) (t_preemptCount t)
    x (t_process t) (t_next t) (t_prev t) (t_waitNext t) (t_kstackBase t) (t_kstackTop t)
    (t_userRsp t) (t_start t).
Definition with_waitNext (t : Thread) (x : Z) : Thread :=
  mkThread (t_tid t) (t_state t) (t_timeSlice t) (t_defaultSlice t) (t_needResched t) (t_preemptCount t)
    (t_sleepTargetTicks t) (t_process t) (t_next t) (t_prev t) x (t_kstackBase t) (t_kstackTop t)
    (t_userRsp t) (t_start t).

(** [p->field = ...] through a pointer. *)
Definition upd (s : Sched) (p : Z) (f : Thread -> Thread) : Sched := set_th s p (f (th s p)).
Definition need_resched (t : Thread) : Thread := with_slice t (t_timeSlice t) true.

(** ** Queues *)
Definition enqueueReady (s : Sched) (thread : Z) : Sched :=
  let s1 := upd s thread (fun t => with_links (with_state t THREAD_STATE_READY) 0 (gReadyQueueTail s)) in
  if negb (gReadyQueueTail s =? 0)
  then set_ready (upd s1 (gReadyQueueTail s) (fun t => with_next t thread)) (gReadyQueueHead s) thread
  else set_ready s1 thread thread.

Definition dequeueReady (s : Sched) : Sched * Z :=
  let thread := gReadyQueueHead s in
  if thread =? 0 then (s, 0)
  else
    let h := t_next (th s thread) in
    let s1 := if negb (h =? 0)
              then upd (set_ready s h (gReadyQueueTail s)) h (fun t => with_prev t 0)
              else set_ready s h 0 in
    (upd s1 thread (fun t => with_links t 0 0), thread).

(** The hand-over that [schedule] and [schedBlockCurrent] share: [next] runs
    from here on; the table is switched when the process changes. *)
Definition switch_to (s : Sched) (prev next : Z) : Sched :=
  let s1 := upd s next (fun t => with_slice (with_state t THREAD_STATE_RUNNING) (t_defaultSlice t) false) in
  let np := t_process (th s1 next) in
  let pp := t_process (th s1 prev) in
  let pml4 := if negb (np =? 0) && negb (p_pml4 (pr s1 np) =? 0)
                 && ((prev =? 0) || (pp =? 0) || negb (pp =? np))
              then p_pml4 (pr s1 np) else cr3 s1 in
  set_current s1 next (t_kstackTop (th s1 next)) pml4.

Definition schedule (s : Sched) : Sched :=
  let prev := gCurrentThread s in
  if negb (prev =? 0) && (0 <? t_preemptCount (th s prev)) then s
  else
    let '(s1, n) := dequeueReady s in
    let next :=
      if n =? 0 then
        if negb (prev =? 0) && bool_decide (t_state (th s1 prev) = THREAD_STATE_RUNNING)
        then prev else gIdleThread s1
      else n in
    if next =? prev then
      if negb (prev =? 0)
      then upd s1 prev (fun t => with_slice t (t_timeSlice t) false) else s1
    else
      let s2 :=
        if negb (prev =? 0) && bool_decide (t_state (th s1 prev) = THREAD_STATE_RUNNING) then
          let s2 := upd s1 prev (fun t => with_state t THREAD_STATE_READY) in
          if negb (prev =? gIdleThread s1) then enqueueReady s2 prev else s2
        else s1 in
      switch_to s2 prev next.

Definition schedBlockCurrent (s : Sched) : Sched :=
  let curr := gCurrentThread s in
  let s1 := upd s curr (fun t => with_state t THREAD_STATE_BLOCKED) in
  let '(s2, n) := dequeueReady s1 in
  let next := if n =? 0 then gIdleThread s2 else n in
  switch_to s2 curr next.

Definition schedEnqueueReady (s : Sched) (thread : Z) : Sched := enqueueReady s thread.

Definition schedPreemptDisable (s : Sched) : Sched :=
  if gCurrentThread s =? 0 then s
  else upd s (gCurrentThread s) (fun t => with_preempt t (u32 (t_preemptCount t + 1))).

Definition schedPreemptEnable (s : Sched) : Sched :=
  if gCurrentThread s =? 0 then s
  else
    let s1 := upd s (gCurrentThread s) (fun t => with_preempt t (u32 (t_preemptCount t - 1))) in
    let t := th s1 (gCurrentThread s) in
    if (t_preemptCount t =? 0) && t_needResched t then schedule s1 else s1.

Definition schedYield (s : Sched) : Sched :=
  schedule (if gCurrentThread s =? 0 then s else upd s (gCurrentThread s) need_resched).

(** [schedSleep] is two steps: interrupts are enabled between them. *)
Definition sleep_enqueue (s : Sched) (ticks : Z) : Sched :=
  let c := gCurrentThread s in
  let h := gSleepQueueHead s in
  let s1 := upd s c (fun t => with_links (with_state (with_target t (u64 (gSchedTicks s + ticks)))
                                            THREAD_STATE_SLEEPING) h 0) in
  let s2 := if negb (h =? 0) then upd s1 h (fun t => with_prev t c) else s1 in
  set_sleep s2 c.

Definition schedSleep (s : Sched) (ticks : Z) : Sched :=
  if (gCurrentThread s =? 0) || (ticks =? 0) then s else schedule (sleep_enqueue s ticks).

(** ** The timer tick *)

(** Unlinking a thread from the sleep queue. *)
Definition sleep_remove (s : Sched) (c : Z) : Sched :=
  let n := t_next (th s c) in
  let p := t_prev (th s c) in
  let s1 := if negb (p =? 0) then upd s p (fun t => with_next t n) else set_sleep s n in
  let s2 := if negb (n =? 0) then upd s1 n (fun t => with_prev t p) else s1 in
  upd s2 c (fun t => with_links t 0 0).

(** One expired thread moves to the ready queue. *)
Definition wake_one (s : Sched) (c : Z) : Sched :=
  let s3 := enqueueReady (sleep_remove s c) c in
  if negb (gCurrentThread s3 =? 0) then upd s3 (gCurrentThread s3) need_resched else s3.

(** The walk over the sleep queue; the fuel bounds its length. *)
Fixpoint tick_loop (fuel : nat) (s : Sched) (currSleep : Z) : option Sched :=
  if currSleep =? 0 then Some s
  else
    match fuel with
    | O => None
    | Datatypes.S k =>
        let nextSleep := t_next (th s currSleep) in
        let s1 := if t_sleepTargetTicks (th s currSleep) <=? gSchedTicks s
                  then wake_one s currSleep else s in
        tick_loop k s1 nextSleep
    end.

Definition tick_account (s : Sched) : Sched :=
  let c := gCurrentThread s in
  if c =? 0 then s
  else if c =? gIdleThread s then
    if negb (gReadyQueueHead s =? 0) then upd s c need_resched else s
  else if 0 <? t_timeSlice (th s c) then
    let s1 := upd s c (fun t => with_slice t (t_timeSlice t - 1) (t_needResched t)) in
    if t_timeSlice (th s1 c) =? 0 then upd s1 c need_resched else s1
  else s.

(** The fuel is the number of threads. *)
Definition schedTick (s : Sched) : option Sched :=
  let s0 := set_ticks s (u64 (gSchedTicks s + 1)) in
  s1 ← tick_loop (size (s_threads s)) s0 (gSleepQueueHead s0);
  Some (tick_account s1).

Definition schedPreemptFromInterrupt (s : Sched) (rflags : option Z) : Sched :=
  let c := gCurrentThread s in
  if (c =? 0) || (0 <? t_preemptCount (th s c)) || negb (t_needResched (th s c)) then s
  else match rflags with
       | Some r => if negb (r &? 0x200) then s else schedule s
       | None => schedule s
       end.

(** What [schedThreadExit] does before it halts for good: the part under the
    lock, and then [schedule]. *)
Definition exit_mark (s : Sched) : Sched :=
  if gCurrentThread s =? 0 then s else upd s (gCurrentThread s) (fun t => with_state t THREAD_STATE_ZOMBIE).
Definition schedThreadExit (s : Sched) : Sched := schedule (exit_mark s).

(** ** Thread creation *)

(** The common end of both creation functions: the fields of the zeroed
    [Thread] at address [tp] with its stack at [stack], then the links. *)
Definition new_thread (s : Sched) (tp stack proc userRsp : Z) (start : StartFrame) : Sched :=
  let tid := gNextTid s in
  let t := mkThread tid THREAD_STATE_READY SCHED_DEFAULT_QUANTUM SCHED_DEFAULT_QUANTUM false 0 0 proc
             (p_threads (pr s proc)) 0 0 stack (Z.land (u64 (stack + SCHED_KSTACK_SIZE)) (u64 (Z.lnot 0xF)))
             userRsp start in
  let s1 := set_th (set_nextTid s (u32 (tid + 1))) tp t in
  let p := pr s1 proc in
  let s2 := set_proc s1 proc (mkProcess (p_pid p) (p_pml4 p) (p_vmas p) tp) in
  enqueueReady s2 tp.

(** Creating a kernel thread; [tp] and [stack] are what [kzalloc] and
    [kmalloc] return, 0 for NULL. *)
Definition schedCreateKernelThread (s : Sched) (proc entry arg tp stack : Z) : Sched * Z :=
  if (proc =? 0) || (entry =? 0) then (s, 0)
  else if tp =? 0 then (s, 0)
  else if stack =? 0 then (s, 0)
  else (new_thread s tp stack proc 0 (mkStart entry arg None), tp).

Definition USER_STACK_TOP_DEFAULT : Z := 0x00007FFFFFFFE000.
Definition USER_STACK_INITIAL_SIZE : Z := 8 * 1024 * 1024.
Definition USER_STACK_STEP : Z := 8 * 1024 * 1024 + PAGE_SIZE.

(** The search for a free user stack, downwards from the default. *)
Fixpoint find_stack (fuel : nat) (l : list Vma) (stackTop : Z) : option (option Z) :=
  match fuel with
  | O => None
  | Datatypes.S k =>
      let stackBase := stackTop - USER_STACK_INITIAL_SIZE in
      match vmaFind l stackBase, vmaFind l (stackTop - 8) with
      | None, None => Some (Some stackTop)
      | _, _ =>
          let top' := u64 (stackTop - USER_STACK_STEP) in
          if u64 (top' - USER_STACK_INITIAL_SIZE) <? 0x1000000 then Some None
          else find_stack k l top'
      end
  end.

Definition STACK_FLAGS : Z := VMA_READ + VMA_WRITE + VMA_USER + VMA_STACK + VMA_ANON.

(** The user stack chosen when the caller gives none: the new VMA list and
    the stack pointer. *)
Definition user_stack (vma_ok : bool) (l : list Vma) (fuel : nat) : option (option (list Vma * Z)) :=
  r ← find_stack fuel l USER_STACK_TOP_DEFAULT;
  match r with
  | None => Some None
  | Some stackTop =>
      match vmaCreate vma_ok l (stackTop - USER_STACK_INITIAL_SIZE) USER_STACK_INITIAL_SIZE STACK_FLAGS with
      | (l', Some _) => Some (Some (l', stackTop - 8))
      | (_, None) => Some None
      end
  end.

Definition schedCreateUserThread (fuel : nat) (vma_ok : bool) (s : Sched)
    (proc entry userRsp arg tp stack : Z) : option (Sched * Z) :=
  if (proc =? 0) || (entry =? 0) then Some (s, 0)
  else
    r ← (if userRsp =? 0 then
           u ← user_stack vma_ok (p_vmas (pr s proc)) fuel;
           match u with
           | None => Some None
           | Some (l', rsp) =>
               let p := pr s proc in
               Some (Some (set_proc s proc (mkProcess (p_pid p) (p_pml4 p) l' (p_threads p)), rsp))
           end
         else Some (Some (s, userRsp)));
    match r with
    | None => Some (s, 0)
    | Some (s1, rsp) =>
        if tp =? 0 then Some (s1, 0)
        else if stack =? 0 then Some (s1, 0)
        else Some (new_thread s1 tp stack proc rsp (mkStart entry arg (Some rsp)), tp)
    end.

Definition schedCreateThread (fuel : nat) (vma_ok : bool) (s : Sched)
    (proc entry arg : Z) (isUser : bool) (tp stack : Z) : option (Sched * Z) :=
  if (proc =? 0) || (entry =? 0) then Some (s, 0)
  else if isUser then schedCreateUserThread fuel vma_ok s proc entry 0 arg tp stack
  else Some (schedCreateKernelThread s proc entry arg tp stack).

(** ** Initialisation: the kernel thread runs, the idle thread is created and
    taken out of the ready queue again. *)
Definition remove_idle (s : Sched) : Sched :=
  let i := gIdleThread s in
  let s1 :=
    if gReadyQueueHead s =? i then
      let h := t_next (th s i) in
      if negb (h =? 0)
      then upd (set_ready s h (gReadyQueueTail s)) h (fun t => with_prev t 0)
      else set_ready s h 0
    else if negb (t_prev (th s i) =? 0) then
      let s1 := upd s (t_prev (th s i)) (fun t => with_next t (t_next (th s i))) in
      if negb (t_next (th s1 i) =? 0)
      then upd s1 (t_next (th s1 i)) (fun t => with_prev t (t_prev (th s1 i)))
      else set_ready s1 (gReadyQueueHead s1) (t_prev (th s1 i))
    else s in
  upd s1 i (fun t => with_state (with_links t 0 0) THREAD_STATE_READY).

(** [kproc], [kthread], [idle] and [idle_stack] are the allocated addresses;
    [pml4] is the kernel's table. *)
Definition schedInit (kproc kthread idle idle_stack idle_entry pml4 : Z) : Sched :=
  let t := mkThread 0 THREAD_STATE_RUNNING SCHED_DEFAULT_QUANTUM SCHED_DEFAULT_QUANTUM false 0 0 kproc
             0 0 0 0 0 0 (mkStart 0 0 None) in
  let s := mkSched {[ kthread := t ]} {[ kproc := mkProcess 0 pml4 [] kthread ]}
             kthread 0 0 0 0 0 1 0 kthread pml4 in
  let '(s1, i) := schedCreateKernelThread s kproc idle_entry 0 idle idle_stack in
  remove_idle (set_idle s1 i).
