(* ===== verification/SchedQueue.v ===== *)
(** * The scheduler's queues represent lists

    The intrusive doubly linked ready and sleep queues of [Sched], related to
    the lists of thread addresses they stand for, and the effect of every
    queue operation on those lists. *)

From Stdlib Require Import ZArith Lia Bool.
From stdpp Require Import base list gmap.
From S2P Require Import Prelude Vma Sched.

(** ** Store access *)
Lemma th_set_th s p t x : th (set_th s p t) x = if x =? p then t else th s x.
Proof.
  unfold th, set_th, set_threads. simpl. destruct (Z.eqb_spec x p) as [->|Hne].
  - by rewrite lookup_insert_eq.
  - by rewrite lookup_insert_ne.
Qed.

Lemma th_upd s p f x : th (upd s p f) x = if x =? p then f (th s p) else th s x.
Proof. apply th_set_th. Qed.

Lemma th_set_ready s h t x : th (set_ready s h t) x = th s x.
Proof. done. Qed.
Lemma th_set_sleep s h x : th (set_sleep s h) x = th s x.
Proof. done. Qed.

(** ** Linked segments *)
Definition hd0 (nx : Z) (l : list Z) : Z := match l with [] => nx | x :: _ => x end.
Fixpoint lst (pv : Z) (l : list Z) : Z := match l with [] => pv | x :: r => lst x r end.

(** The threads [l] are linked in order: the first has [prev = pv], the last
    has [next = nx]. *)
Fixpoint links (g : Z -> Thread) (pv : Z) (l : list Z) (nx : Z) : Prop :=
  match l with
  | [] => True
  | x :: r => x <> 0 /\ t_prev (g x) = pv /\ t_next (g x) = hd0 nx r /\ links g x r nx
  end.

Lemma lst_app a b pv : lst pv (a ++ b) = lst (lst pv a) b.
Proof. revert pv. induction a; simpl; auto. Qed.

Lemma lst_in pv l : l <> [] -> lst pv l ∈ l.
Proof.
  revert pv. induction l as [|x r IH]; intros pv Hne; [done|]. simpl.
  destruct r as [|y r]; [by left|]. right. by apply IH.
Qed.

Lemma lst_nonnil pv pv' l : l <> [] -> lst pv l = lst pv' l.
Proof. by destruct l. Qed.

Lemma hd0_app nx a b : hd0 nx (a ++ b) = hd0 (hd0 nx b) a.
Proof. by destruct a. Qed.

Lemma links_nonzero g pv l nx x : links g pv l nx -> x ∈ l -> x <> 0.
Proof.
  revert pv. induction l as [|y r IH]; intros pv Hl Hx; [by apply elem_of_nil in Hx|].
  destruct Hl as (H1 & _ & _ & H2). apply elem_of_cons in Hx as [->|Hx]; eauto.
Qed.

Lemma links_app g pv a b nx :
  links g pv (a ++ b) nx <-> links g pv a (hd0 nx b) /\ links g (lst pv a) b nx.
Proof.
  revert pv. induction a as [|x r IH]; intros pv; simpl; [tauto|].
  rewrite IH, hd0_app. tauto.
Qed.

(** Links are read from the threads of the segment only. *)
Lemma links_ext g g' pv l nx : links g pv l nx ->
  (forall x, x ∈ l -> t_next (g' x) = t_next (g x) /\ t_prev (g' x) = t_prev (g x)) ->
  links g' pv l nx.
Proof.
  revert pv. induction l as [|x r IH]; intros pv Hl He; simpl in *; [done|].
  destruct Hl as (H1 & H2 & H3 & H4). destruct (He x) as [E1 E2]; [by left|].
  rewrite E1, E2. split_and!; try done. apply IH; [done|]. intros y Hy. apply He. by right.
Qed.

(** Redirecting the [next] of the last thread. *)
Lemma links_relast g g' pv l nx nx' : links g pv l nx -> NoDup l ->
  (forall x, x ∈ l -> t_prev (g' x) = t_prev (g x)) ->
  (forall x, x ∈ l -> x <> lst pv l -> t_next (g' x) = t_next (g x)) ->
  (l <> [] -> t_next (g' (lst pv l)) = nx') -> links g' pv l nx'.
Proof.
  revert pv. induction l as [|x r IH]; intros pv Hl Hnd Hp Hn Hlast; simpl in *; [done|].
  destruct Hl as (H1 & H2 & H3 & H4). apply NoDup_cons in Hnd as [Hnx Hnd].
  split_and!; [done|rewrite Hp by (by left); done| |].
  - destruct r as [|y r]; simpl in *; [by apply Hlast|]. rewrite Hn; [done|by left|].
    intros E. apply Hnx. rewrite E. apply (lst_in y (y :: r)). done.
  - apply IH; try done.
    + intros z Hz. apply Hp. by right.
    + intros z Hz. apply Hn. by right.
    + intros Hr. apply Hlast. done.
Qed.

(** Changing the [prev] of the first thread. *)
Lemma links_refirst g g' pv pv' l nx : links g pv l nx -> NoDup l ->
  (forall x, x ∈ l -> t_next (g' x) = t_next (g x)) ->
  (forall x, x ∈ l -> x <> hd0 0 l -> t_prev (g' x) = t_prev (g x)) ->
  (l <> [] -> t_prev (g' (hd0 0 l)) = pv') -> links g' pv' l nx.
Proof.
  destruct l as [|x r]; intros Hl Hnd Hn Hp Hf; simpl in *; [done|].
  destruct Hl as (H1 & H2 & H3 & H4). apply NoDup_cons in Hnd as [Hnx Hnd].
  split_and!; [done|by apply Hf|rewrite Hn by (by left); done|].
  apply (links_ext g); [done|]. intros y Hy. split; [apply Hn; by right|].
  apply Hp; [by right|]. intros ->. done.
Qed.

(** ** Representation of the two queues *)
Record rep (s : Sched) (q sl : list Z) : Prop := {
  rp_ready : links (th s) 0 q 0;
  rp_head : gReadyQueueHead s = hd0 0 q;
  rp_tail : gReadyQueueTail s = lst 0 q;
  rp_sleep : links (th s) 0 sl 0;
  rp_shead : gSleepQueueHead s = hd0 0 sl;
  rp_nodup : NoDup (q ++ sl);
  rp_rstate : forall x, x ∈ q -> t_state (th s x) = THREAD_STATE_READY;
  rp_sstate : forall x, x ∈ sl -> t_state (th s x) = THREAD_STATE_SLEEPING;
  rp_idle : gIdleThread s <> 0 /\ gIdleThread s ∉ q ++ sl
}.

Lemma rep_nodup s q sl : rep s q sl -> NoDup q /\ NoDup sl /\ forall x, x ∈ q -> x ∉ sl.
Proof. intros R. pose proof (rp_nodup _ _ _ R) as Hn. apply NoDup_app in Hn. tauto. Qed.

(** Only the fields below matter to the representation. *)
Lemma rep_ext s s' q sl : rep s q sl ->
  gReadyQueueHead s' = gReadyQueueHead s -> gReadyQueueTail s' = gReadyQueueTail s ->
  gSleepQueueHead s' = gSleepQueueHead s -> gIdleThread s' = gIdleThread s ->
  (forall x, x ∈ q ++ sl -> t_next (th s' x) = t_next (th s x) /\ t_prev (th s' x) = t_prev (th s x) /\
     t_state (th s' x) = t_state (th s x)) -> rep s' q sl.
Proof.
  intros R E1 E2 E3 E4 He.
  assert (Hq : forall x, x ∈ q -> x ∈ q ++ sl) by (intros; apply elem_of_app; auto).
  assert (Hs : forall x, x ∈ sl -> x ∈ q ++ sl) by (intros; apply elem_of_app; auto).
  constructor; rewrite ?E1, ?E2, ?E3, ?E4; try apply R.
  - apply (links_ext (th s)); [apply R|]. intros x Hx. by destruct (He x) as (-> & -> & _); auto.
  - apply (links_ext (th s)); [apply R|]. intros x Hx. by destruct (He x) as (-> & -> & _); auto.
  - intros x Hx. destruct (He x) as (_ & _ & ->); auto. by apply R.
  - intros x Hx. destruct (He x) as (_ & _ & ->); auto. by apply R.
Qed.

(** ** [enqueueReady] appends *)
Lemma enqueueReady_th s p x :
  th (enqueueReady s p) x =
  let tail := gReadyQueueTail s in
  let new := with_links (with_state (th s p) THREAD_STATE_READY) 0 tail in
  if negb (tail =? 0) && (x =? tail) then
    with_next (if tail =? p then new else th s tail) p
  else if x =? p then new else th s x.
Proof.
  unfold enqueueReady. cbv zeta. destruct (Z.eqb_spec (gReadyQueueTail s) 0) as [E|E]; cbn [negb andb].
  - by rewrite th_set_ready, th_upd.
  - rewrite th_set_ready, !th_upd. done.
Qed.

Lemma enqueueReady_rep s q sl p : rep s q sl -> p <> 0 -> p ∉ q ++ sl -> p <> gIdleThread s ->
  rep (enqueueReady s p) (q ++ [p]) sl.
Proof.
  intros R Hp Hin Hidle. destruct (rep_nodup _ _ _ R) as (Hnq & Hns & Hd).
  pose proof (rp_tail _ _ _ R) as Ht. rewrite elem_of_app in Hin.
  assert (Hpq : p ∉ q) by tauto. assert (Hps : p ∉ sl) by tauto.
  assert (Htp : gReadyQueueTail s <> p).
  { rewrite Ht. intros E. destruct q as [|y q]; [simpl in E; congruence|].
    apply Hpq. rewrite <- E. by apply lst_in. }
  assert (Hnz : gReadyQueueTail s = 0 <-> q = []).
  { rewrite Ht. split; [|by intros ->]. intros E. destruct q as [|y q]; [done|].
    exfalso. eapply (links_nonzero _ _ _ _ 0 (rp_ready _ _ _ R)); [|done]. rewrite <- E. by apply lst_in. }
  assert (Hoff : forall x, x <> p -> x <> gReadyQueueTail s -> th (enqueueReady s p) x = th s x).
  { intros x H1 H2. rewrite enqueueReady_th. cbv zeta.
    destruct (Z.eqb_spec x (gReadyQueueTail s)); [done|]. rewrite andb_false_r.
    by destruct (Z.eqb_spec x p). }
  assert (Htail : gReadyQueueTail s <> 0 -> th (enqueueReady s p) (gReadyQueueTail s) =
            with_next (th s (gReadyQueueTail s)) p).
  { intros H0. rewrite enqueueReady_th. cbv zeta. rewrite Z.eqb_refl.
    destruct (Z.eqb_spec (gReadyQueueTail s) 0); [done|]. cbn [negb andb].
    by destruct (Z.eqb_spec (gReadyQueueTail s) p). }
  assert (Hnew : th (enqueueReady s p) p =
            with_links (with_state (th s p) THREAD_STATE_READY) 0 (gReadyQueueTail s)).
  { rewrite enqueueReady_th. cbv zeta. destruct (Z.eqb_spec p (gReadyQueueTail s)); [congruence|].
    by rewrite andb_false_r, Z.eqb_refl. }
  assert (Hqs : forall x, x ∈ q -> t_prev (th (enqueueReady s p) x) = t_prev (th s x) /\
            t_state (th (enqueueReady s p) x) = t_state (th s x)).
  { intros x Hx. destruct (decide (x = gReadyQueueTail s)) as [->|].
    - rewrite Htail; [done|]. intros E. apply Hnz in E. subst q. by apply elem_of_nil in Hx.
    - rewrite Hoff; [done| |done]. intros ->. done. }
  assert (Hss : forall x, x ∈ sl -> th (enqueueReady s p) x = th s x).
  { intros x Hx. apply Hoff; [intros ->; done|]. intros ->. rewrite Ht in Hx.
    destruct q as [|y q]; [by apply (links_nonzero _ _ _ _ _ (rp_sleep _ _ _ R)) in Hx|].
    by apply (Hd (lst 0 (y :: q))); [apply lst_in|]. }
  constructor.
  - apply links_app. split.
    + apply (links_relast (th s) _ 0 q 0 p); [apply R|done|by intros; apply Hqs| |].
      * intros x Hx Hl. rewrite Hoff; [done|intros ->; done|]. by rewrite Ht.
      * intros Hne. rewrite <- Ht, Htail; [done|]. intros E. apply Hne. by apply Hnz.
    + simpl. rewrite Hnew. simpl. by rewrite Ht.
  - unfold enqueueReady. destruct (Z.eqb_spec (gReadyQueueTail s) 0) as [E|E]; cbn [negb].
    + apply Hnz in E. by subst q.
    + simpl. rewrite (rp_head _ _ _ R). destruct q; [|done]. exfalso. apply E. by apply Hnz.
  - unfold enqueueReady. rewrite lst_app. by destruct (negb _).
  - apply (links_ext (th s)); [apply R|]. intros x Hx. by rewrite Hss.
  - unfold enqueueReady. destruct (negb _); apply R.
  - rewrite <- app_assoc. simpl. apply NoDup_app. split_and!; [done| |].
    + intros x Hx [->|Hx']%elem_of_cons; [done|]. by apply (Hd x).
    + by apply NoDup_cons.
  - intros x [Hx|Hx]%elem_of_app.
    + destruct (Hqs x Hx) as [_ ->]. by apply R.
    + apply list_elem_of_singleton in Hx as ->. by rewrite Hnew.
  - intros x Hx. rewrite Hss by done. by apply R.
  - assert (gIdleThread (enqueueReady s p) = gIdleThread s) as ->
      by (unfold enqueueReady; by destruct (negb _)).
    destruct (rp_idle _ _ _ R) as [H0 H1]. split; [done|]. rewrite !elem_of_app in *.
    rewrite list_elem_of_singleton. intuition.
Qed.

(** ** [dequeueReady] takes the head *)
Lemma dequeueReady_empty s sl : rep s [] sl -> dequeueReady s = (s, 0).
Proof. intros R. unfold dequeueReady. by rewrite (rp_head _ _ _ R). Qed.

Lemma dequeueReady_th s h x : gReadyQueueHead s = h -> h <> 0 ->
  th (dequeueReady s).1 x =
  let n := t_next (th s h) in
  let nt := with_prev (th s n) 0 in
  if x =? h then with_links (if negb (n =? 0) && (h =? n) then nt else th s h) 0 0
  else if negb (n =? 0) && (x =? n) then nt else th s x.
Proof.
  intros E H0. unfold dequeueReady. rewrite E. destruct (Z.eqb_spec h 0); [done|]. cbv zeta. cbn [fst].
  destruct (Z.eqb_spec (t_next (th s h)) 0) as [En|En]; cbn [negb andb]; rewrite !th_upd.
  - by rewrite !th_set_ready.
  - rewrite !th_set_ready. by destruct (Z.eqb_spec x h).
Qed.

Lemma dequeueReady_rep s h q sl : rep s (h :: q) sl ->
  (dequeueReady s).2 = h /\ rep (dequeueReady s).1 q sl /\
  t_next (th (dequeueReady s).1 h) = 0 /\ t_prev (th (dequeueReady s).1 h) = 0 /\
  (forall x, t_state (th (dequeueReady s).1 x) = t_state (th s x)) /\
  gCurrentThread (dequeueReady s).1 = gCurrentThread s.
Proof.
  intros R. pose proof (rp_head _ _ _ R) as Eh. simpl in Eh.
  destruct (rp_ready _ _ _ R) as (H0 & Hp & Hn & Hl).
  destruct (rep_nodup _ _ _ R) as (Hnq & Hns & Hd). apply NoDup_cons in Hnq as [Hhq Hnq].
  assert (Hhs : h ∉ sl) by (apply Hd; by left).
  pose proof (fun x => dequeueReady_th s h x Eh H0) as Hth. cbv zeta in Hth. rewrite Hn in Hth.
  assert (Hqz : hd0 0 q <> 0 <-> q <> []).
  { destruct q as [|y q]; [done|]. split; [done|]. intros _. simpl.
    apply Hl. }
  assert (Hother : forall x, x <> h -> x ∉ q -> th (dequeueReady s).1 x = th s x).
  { intros x Hx Hxq. rewrite Hth. destruct (Z.eqb_spec x h); [done|].
    destruct (Z.eqb_spec x (hd0 0 q)) as [->|]; [|by rewrite andb_false_r].
    destruct (Z.eqb_spec (hd0 0 q) 0) as [|Hz]; [done|]. exfalso. apply Hxq.
    destruct q; [done|by left]. }
  assert (Hst : forall x, t_state (th (dequeueReady s).1 x) = t_state (th s x)).
  { intros x. rewrite Hth. destruct (Z.eqb_spec x h) as [->|].
    - destruct (negb (hd0 0 q =? 0) && (h =? hd0 0 q)) eqn:E; simpl; [|done].
      breflect. congruence.
    - destruct (negb (hd0 0 q =? 0) && (x =? hd0 0 q)) eqn:E; simpl; [|done].
      breflect. congruence. }
  assert (Hnx : forall x, x ∈ q -> t_next (th (dequeueReady s).1 x) = t_next (th s x)).
  { intros x Hx. rewrite Hth. destruct (Z.eqb_spec x h) as [->|]; [done|].
    destruct (negb (hd0 0 q =? 0) && (x =? hd0 0 q)) eqn:E; simpl; [|done]. breflect. congruence. }
  split_and!; try done.
  - unfold dequeueReady. rewrite Eh. by destruct (Z.eqb_spec h 0).
  - constructor.
    + apply (links_refirst (th s) _ h 0 q 0); [done|done|done| |].
      * intros x Hx Hne. rewrite Hth. destruct (Z.eqb_spec x h) as [->|]; [done|].
        destruct (Z.eqb_spec x (hd0 0 q)); [done|]. by rewrite andb_false_r.
      * intros Hne. apply Hqz in Hne. rewrite Hth. destruct (Z.eqb_spec (hd0 0 q) h) as [E|E].
        { exfalso. destruct q as [|y q]; [done|]. simpl in E. subst y. apply Hhq. by left. }
        rewrite Z.eqb_refl. by destruct (Z.eqb_spec (hd0 0 q) 0).
    + unfold dequeueReady. rewrite Eh, Hn. destruct (Z.eqb_spec h 0); [done|].
      by destruct (negb (hd0 0 q =? 0)).
    + unfold dequeueReady. rewrite Eh, Hn. destruct (Z.eqb_spec h 0); [done|].
      destruct (Z.eqb_spec (hd0 0 q) 0) as [E|E]; cbn [negb fst].
      * assert (q = []) as -> by (destruct q; [done|]; exfalso; by apply Hqz). done.
      * simpl. rewrite (rp_tail _ _ _ R). simpl. apply lst_nonnil. by apply Hqz.
    + apply (links_ext (th s)); [apply R|]. intros x Hx. rewrite Hother; [done|intros ->; done|].
      intros Hq. apply (Hd x); [by right|done].
    + unfold dequeueReady. rewrite Eh, Hn. destruct (Z.eqb_spec h 0); [done|].
      destruct (negb (hd0 0 q =? 0)); apply R.
    + pose proof (rp_nodup _ _ _ R) as Hnn. simpl in Hnn. by apply NoDup_cons in Hnn as [_ ?].
    + intros x Hx. rewrite Hst. apply R. by right.
    + intros x Hx. rewrite Hst. by apply R.
    + assert (gIdleThread (dequeueReady s).1 = gIdleThread s) as ->.
      { unfold dequeueReady. rewrite Eh. destruct (Z.eqb_spec h 0); [done|]. by destruct (negb (t_next (th s h) =? 0)). }
      destruct (rp_idle _ _ _ R) as [? Hi]. split; [done|]. intros Hx. apply Hi. by right.
  - rewrite Hth, Z.eqb_refl. done.
  - rewrite Hth, Z.eqb_refl. done.
  - unfold dequeueReady. rewrite Eh. destruct (Z.eqb_spec h 0); [done|]. by destruct (negb (t_next (th s h) =? 0)).
Qed.

(** ** Going to sleep: the current thread becomes the head of the sleep queue *)
Lemma sleep_enqueue_th s ticks x : let c := gCurrentThread s in let h := gSleepQueueHead s in
  h <> c ->
  th (sleep_enqueue s ticks) x =
  if x =? c then with_links (with_state (with_target (th s c) (u64 (gSchedTicks s + ticks)))
                               THREAD_STATE_SLEEPING) h 0
  else if negb (h =? 0) && (x =? h) then with_prev (th s h) c else th s x.
Proof.
  intros c h Hne. unfold sleep_enqueue. fold c h. rewrite th_set_sleep.
  destruct (Z.eqb_spec h 0) as [E|E]; cbn [negb andb]; rewrite !th_upd; [done|].
  destruct (Z.eqb_spec x h) as [->|]; [|done].
  destruct (Z.eqb_spec h c); [congruence|done].
Qed.

Lemma sleep_enqueue_rep s q sl ticks : rep s q sl ->
  let c := gCurrentThread s in
  c <> 0 -> c ∉ q ++ sl -> c <> gIdleThread s ->
  rep (sleep_enqueue s ticks) q (c :: sl) /\
  (forall x, x <> c -> t_state (th (sleep_enqueue s ticks) x) = t_state (th s x)).
Proof.
  intros R c Hc Hin Hi. rewrite elem_of_app in Hin. destruct (rep_nodup _ _ _ R) as (Hnq & Hns & Hd).
  assert (Hhd : gSleepQueueHead s <> c).
  { rewrite (rp_shead _ _ _ R). intros E. destruct sl; simpl in E; [congruence|].
    apply Hin. right. rewrite <- E. by left. }
  pose proof (fun x => sleep_enqueue_th s ticks x Hhd) as Hth. cbv zeta in Hth. fold c in Hth.
  rewrite (rp_shead _ _ _ R) in Hth, Hhd.
  assert (Hst : forall x, x <> c -> t_state (th (sleep_enqueue s ticks) x) = t_state (th s x) /\
            t_next (th (sleep_enqueue s ticks) x) = t_next (th s x)).
  { intros x Hx. rewrite Hth. destruct (Z.eqb_spec x c); [done|].
    destruct (negb (hd0 0 sl =? 0) && (x =? hd0 0 sl)) eqn:E; simpl; [|done]. breflect.
    split; congruence. }
  assert (Hcq : forall x, x ∈ q -> x <> c) by (intros x Hx ->; tauto).
  assert (Hcs : forall x, x ∈ sl -> x <> c) by (intros x Hx ->; tauto).
  split; [|intros x Hx; by apply Hst].
  assert (Eh : gReadyQueueHead (sleep_enqueue s ticks) = gReadyQueueHead s /\
               gReadyQueueTail (sleep_enqueue s ticks) = gReadyQueueTail s /\
               gIdleThread (sleep_enqueue s ticks) = gIdleThread s /\
               gSleepQueueHead (sleep_enqueue s ticks) = c)
    by (unfold sleep_enqueue; fold c; by destruct (negb (gSleepQueueHead s =? 0))).
  destruct Eh as (E1 & E2 & E3 & E4). constructor; rewrite ?E1, ?E2, ?E3, ?E4; try apply R; try done.
  - apply (links_ext (th s)); [apply R|]. intros x Hx. rewrite Hth.
    destruct (Z.eqb_spec x c) as [->|]; [by apply Hcq in Hx|].
    destruct (negb (hd0 0 sl =? 0) && (x =? hd0 0 sl)) eqn:E; simpl; [|done].
    exfalso. breflect. subst x.
    destruct sl; [done|]. by apply (Hd _ Hx); left.
  - simpl. rewrite Hth, Z.eqb_refl. simpl. split_and!; try done.
    apply (links_refirst (th s) _ 0 c sl 0); [apply R|done| | |].
    + intros x Hx. by apply Hst, Hcs.
    + intros x Hx Hne. rewrite Hth. destruct (Z.eqb_spec x c) as [->|]; [by apply Hcs in Hx|].
      destruct (Z.eqb_spec x (hd0 0 sl)); [done|]. by rewrite andb_false_r.
    + intros Hne. rewrite Hth. destruct (Z.eqb_spec (hd0 0 sl) c); [done|]. rewrite Z.eqb_refl.
      destruct (Z.eqb_spec (hd0 0 sl) 0) as [E|]; [|done]. destruct sl as [|y sl]; [done|].
      exfalso. apply (links_nonzero _ _ _ _ y (rp_sleep _ _ _ R)); [by left|done].
  - apply NoDup_app. split_and!; [done| |by apply NoDup_cons; tauto].
    intros x Hx [->|Hx']%elem_of_cons; [tauto|]. by apply (Hd x).
  - intros x Hx. rewrite (proj1 (Hst x (Hcq x Hx))). by apply R.
  - intros x [->|Hx]%elem_of_cons; [by rewrite Hth, Z.eqb_refl|].
    rewrite (proj1 (Hst x (Hcs x Hx))). by apply R.
  - destruct (rp_idle _ _ _ R) as [H0 H1]. split; [done|].
    rewrite elem_of_app, elem_of_cons in *. intuition.
Qed.

(** ** Waking up: a thread leaves the sleep queue for the ready queue *)
Lemma sleep_remove_th s c x : let n := t_next (th s c) in let p := t_prev (th s c) in
  p <> n -> x <> c ->
  th (sleep_remove s c) x =
  if negb (p =? 0) && (x =? p) then with_next (th s p) n
  else if negb (n =? 0) && (x =? n) then with_prev (th s n) p else th s x.
Proof.
  intros n p Hpn Hx. unfold sleep_remove. fold n p. rewrite th_upd.
  destruct (Z.eqb_spec x c); [done|].
  destruct (Z.eqb_spec p 0) as [Ep|Ep], (Z.eqb_spec n 0) as [En|En]; cbn [negb andb];
    rewrite ?th_upd, ?th_set_sleep, ?th_upd.
  - done.
  - by destruct (Z.eqb_spec x n).
  - by destruct (Z.eqb_spec x p).
  - destruct (Z.eqb_spec x n), (Z.eqb_spec x p), (Z.eqb_spec n p); try done; congruence.
Qed.

Lemma sleep_remove_fields s c :
  gReadyQueueHead (sleep_remove s c) = gReadyQueueHead s /\
  gReadyQueueTail (sleep_remove s c) = gReadyQueueTail s /\
  gIdleThread (sleep_remove s c) = gIdleThread s /\
  gCurrentThread (sleep_remove s c) = gCurrentThread s /\
  gSchedTicks (sleep_remove s c) = gSchedTicks s /\
  gSleepQueueHead (sleep_remove s c) =
    (if t_prev (th s c) =? 0 then t_next (th s c) else gSleepQueueHead s).
Proof.
  unfold sleep_remove. destruct (t_prev (th s c) =? 0), (t_next (th s c) =? 0); done.
Qed.

Lemma sleep_remove_rep s q a c b : rep s q (a ++ c :: b) -> rep (sleep_remove s c) q (a ++ b) /\
  (forall x, x <> c -> t_state (th (sleep_remove s c) x) = t_state (th s x)).
Proof.
  intros R. destruct (rep_nodup _ _ _ R) as (Hnq & Hns & Hd).
  pose proof (rp_sleep _ _ _ R) as Hl. apply links_app in Hl as [Hla Hlb]. simpl in Hlb.
  destruct Hlb as (Hc0 & Hpv & Hnx & Hlb).
  apply NoDup_app in Hns as (Hna & Hdab & Hncb). apply NoDup_cons in Hncb as [Hcb Hnb].
  assert (Hca : c ∉ a) by (intros Hin; apply (Hdab c Hin); by left).
  assert (Hp : lst 0 a <> 0 <-> a <> []).
  { destruct a as [|y a]; [done|]. split; [done|]. intros _.
    apply (links_nonzero _ _ _ _ _ Hla). by apply lst_in. }
  assert (Hn : hd0 0 b <> 0 <-> b <> []).
  { destruct b as [|y b]; [done|]. split; [done|]. intros _. apply Hlb. }
  assert (Hpin : lst 0 a <> 0 -> lst 0 a ∈ a) by (intros H0; apply lst_in; by apply Hp).
  assert (Hnin : hd0 0 b <> 0 -> hd0 0 b ∈ b) by (intros H0; destruct b; [done|by left]).
  assert (Hcase : (lst 0 a = 0 /\ hd0 0 b = 0) \/ lst 0 a <> hd0 0 b).
  { destruct (decide (lst 0 a = 0)) as [E|E]; [destruct (decide (hd0 0 b = 0)); [auto|right; congruence]|].
    right. intros E2. apply (Hdab (lst 0 a)); [auto|]. right. rewrite E2 in *. auto. }
  assert (Hth : forall x, x <> c -> th (sleep_remove s c) x =
    if negb (lst 0 a =? 0) && (x =? lst 0 a) then with_next (th s (lst 0 a)) (hd0 0 b)
    else if negb (hd0 0 b =? 0) && (x =? hd0 0 b) then with_prev (th s (hd0 0 b)) (lst 0 a) else th s x).
  { intros x Hx. destruct Hcase as [[E1 E2]|Hne].
    - unfold sleep_remove. rewrite Hpv, Hnx, E1, E2. cbn [negb Z.eqb andb]. rewrite th_upd.
      by destruct (Z.eqb_spec x c).
    - rewrite <- Hpv, <- Hnx in *. by apply sleep_remove_th. }
  assert (Hcases : forall x, x <> c -> (x = lst 0 a /\ lst 0 a <> 0 /\
            th (sleep_remove s c) x = with_next (th s x) (hd0 0 b)) \/
            (x = hd0 0 b /\ hd0 0 b <> 0 /\ th (sleep_remove s c) x = with_prev (th s x) (lst 0 a)) \/
            ((x = lst 0 a -> lst 0 a = 0) /\ (x = hd0 0 b -> hd0 0 b = 0) /\ th (sleep_remove s c) x = th s x)).
  { intros x Hx. rewrite Hth by done. clear - Hx.
    destruct (decide (x = lst 0 a /\ lst 0 a <> 0)) as [[-> H0]|N1].
    - left. destruct (Z.eqb_spec (lst 0 a) 0); [done|]. by rewrite Z.eqb_refl.
    - right. destruct (negb (lst 0 a =? 0) && (x =? lst 0 a)) eqn:E1; [breflect; tauto|].
      destruct (decide (x = hd0 0 b /\ hd0 0 b <> 0)) as [[-> H0]|N2].
      + left. destruct (Z.eqb_spec (hd0 0 b) 0); [done|]. by rewrite Z.eqb_refl.
      + right. destruct (negb (hd0 0 b =? 0) && (x =? hd0 0 b)) eqn:E2; [breflect; tauto|].
        split_and!; try done; intros E; destruct (decide (x = 0)); naive_solver. }
  clear Hth.
  assert (Hst : forall x, x <> c -> t_state (th (sleep_remove s c) x) = t_state (th s x)).
  { intros x Hx. by destruct (Hcases x Hx) as [(_ & _ & ->)|[(_ & _ & ->)|(_ & _ & ->)]]. }
  assert (Hqc : forall x, x ∈ q -> x <> c).
  { intros x Hx ->. apply (Hd c Hx). apply elem_of_app. right. by left. }
  split; [|done]. destruct (sleep_remove_fields s c) as (E1 & E2 & E3 & _ & _ & E4).
  constructor; rewrite ?E1, ?E2, ?E3; try apply R.
  - apply (links_ext (th s)); [apply R|]. intros x Hx.
    destruct (Hcases x (Hqc x Hx)) as [(-> & H0 & _)|[(-> & H0 & _)|(_ & _ & ->)]]; [| |done].
    + exfalso. apply (Hd _ Hx). apply elem_of_app. left. auto.
    + exfalso. apply (Hd _ Hx). apply elem_of_app. right. right. auto.
  - apply links_app. split.
    + apply (links_relast (th s) _ 0 a c); [done|done| | |].
      * intros x Hx. assert (x <> c) by (intros ->; done).
        destruct (Hcases x) as [(_ & _ & ->)|[(-> & H0 & _)|(_ & _ & ->)]]; try done.
        exfalso. apply (Hdab _ Hx). right. auto.
      * intros x Hx Hl. assert (x <> c) by (intros ->; done).
        destruct (Hcases x) as [(-> & _)|[(_ & _ & ->)|(_ & _ & ->)]]; done.
      * intros Hne. apply Hp in Hne. assert (lst 0 a <> c) by (intros E; apply Hca; rewrite <- E; auto).
        destruct (Hcases (lst 0 a)) as [(_ & _ & ->)|[(E & H0 & _)|(H0 & _)]]; try done.
        -- exfalso. apply (Hdab (lst 0 a)); [auto|]. right. rewrite E. auto.
        -- exfalso. by apply Hne, H0.
    + apply (links_refirst (th s) _ c (lst 0 a) b 0); [done|done| | |].
      * intros x Hx. assert (x <> c) by (intros ->; done).
        destruct (Hcases x) as [(-> & H0 & _)|[(_ & _ & ->)|(_ & _ & ->)]]; try done.
        exfalso. apply (Hdab _ (Hpin H0)). by right.
      * intros x Hx Hl. assert (x <> c) by (intros ->; done).
        destruct (Hcases x) as [(_ & _ & ->)|[(-> & _)|(_ & _ & ->)]]; done.
      * intros Hne. apply Hn in Hne. assert (hd0 0 b <> c) by (intros E; apply Hcb; rewrite <- E; auto).
        destruct (Hcases (hd0 0 b)) as [(E & H0 & _)|[(_ & _ & ->)|(_ & H0 & _)]]; try done.
        -- exfalso. apply (Hdab _ (Hpin H0)). right. rewrite <- E. auto.
        -- exfalso. by apply Hne, H0.
  - rewrite E4, Hpv, Hnx, (rp_shead _ _ _ R). destruct (Z.eqb_spec (lst 0 a) 0) as [E|E].
    + assert (a = []) as -> by (destruct a; [done|]; exfalso; by apply Hp). done.
    + destruct a; [done|done].
  - apply NoDup_app. split_and!; [done| |].
    + intros x Hx Hx'. apply (Hd x Hx). rewrite elem_of_app in *. rewrite elem_of_cons. clear - Hx'. tauto.
    + apply NoDup_app. split_and!; [done| |done]. intros x Hx Hx'. apply (Hdab x Hx). by right.
  - intros x Hx. rewrite Hst by auto. by apply R.
  - intros x Hx. rewrite elem_of_app in Hx. rewrite Hst.
    + apply R. rewrite elem_of_app, elem_of_cons. clear - Hx. tauto.
    + intros ->. clear - Hx Hca Hcb. tauto.
  - destruct (rp_idle _ _ _ R) as [? Hi]. split; [done|]. rewrite !elem_of_app, elem_of_cons in *. clear - Hi. tauto.
Qed.
