(* ===== verification/SchedOps.v ===== *)
(** * Correctness of the scheduler

    The operations of [Sched] as steps of an abstract machine whose state is
    two lists and the running thread; the invariant of every reachable state;
    round-robin progress and wake-up. *)

From Stdlib Require Import ZArith Lia Bool.
From stdpp Require Import base list gmap.
From S2P Require Import Prelude Vma Sched SchedQueue.

(** ** What no queue operation changes *)
Record meta (s s' : Sched) : Prop := {
  mt_idle : gIdleThread s' = gIdleThread s;
  mt_ticks : gSchedTicks s' = gSchedTicks s;
  mt_preempt : forall x, t_preemptCount (th s' x) = t_preemptCount (th s x);
  mt_target : forall x, t_sleepTargetTicks (th s' x) = t_sleepTargetTicks (th s x);
  mt_wait : forall x, t_waitNext (th s' x) = t_waitNext (th s x)
}.

Lemma meta_refl s : meta s s.
Proof. done. Qed.
Lemma meta_trans s1 s2 s3 : meta s1 s2 -> meta s2 s3 -> meta s1 s3.
Proof.
  intros [A1 B1 C1 D1 F1] [A2 B2 C2 D2 F2]. constructor; [congruence..| | |]; intros x; congruence.
Qed.

Lemma meta_upd s p f : (forall t, t_preemptCount (f t) = t_preemptCount t /\
    t_sleepTargetTicks (f t) = t_sleepTargetTicks t /\ t_waitNext (f t) = t_waitNext t) ->
  meta s (upd s p f).
Proof.
  intros Hf. constructor; try done; intros x; rewrite th_upd; destruct (Z.eqb_spec x p) as [->|];
    try done; apply Hf.
Qed.

Lemma meta_set_ready s h t : meta s (set_ready s h t).
Proof. by constructor. Qed.
Lemma meta_set_sleep s h : meta s (set_sleep s h).
Proof. by constructor. Qed.
Lemma meta_set_current s c k p : meta s (set_current s c k p).
Proof. by constructor. Qed.

(** Chains of field updates. *)
Ltac meta_step :=
  first [ apply meta_set_ready | apply meta_set_sleep | apply meta_set_current
        | by apply meta_upd ].
Ltac meta_chain := repeat first [ exact (meta_refl _) | meta_step | eapply meta_trans; [|meta_step] ].

Lemma meta_enqueue s p : meta s (enqueueReady s p).
Proof. unfold enqueueReady. destruct (negb (gReadyQueueTail s =? 0)); meta_chain. Qed.

Lemma meta_dequeue s : meta s (dequeueReady s).1.
Proof.
  unfold dequeueReady. destruct (gReadyQueueHead s =? 0); [meta_chain|]. cbv zeta. cbn [fst].
  destruct (negb (t_next (th s (gReadyQueueHead s)) =? 0)); meta_chain.
Qed.

Lemma meta_switch s p n : meta s (switch_to s p n).
Proof. unfold switch_to. cbv zeta. meta_chain. Qed.

Lemma meta_sleep_remove s c : meta s (sleep_remove s c).
Proof.
  unfold sleep_remove. cbv zeta.
  destruct (negb (t_next (th s c) =? 0)), (negb (t_prev (th s c) =? 0)); meta_chain.
Qed.

Lemma enqueueReady_state s p x : t_state (th (enqueueReady s p) x) =
  if x =? p then THREAD_STATE_READY else t_state (th s x).
Proof.
  rewrite enqueueReady_th. cbv zeta.
  destruct (negb (gReadyQueueTail s =? 0) && (x =? gReadyQueueTail s)) eqn:E;
    [|by destruct (x =? p)].
  breflect. subst x. by destruct (Z.eqb_spec (gReadyQueueTail s) p).
Qed.

(** ** Switching *)
Lemma switch_to_th s p n x : th (switch_to s p n) x =
  if x =? n then with_slice (with_state (th s n) THREAD_STATE_RUNNING) (t_defaultSlice (th s n)) false
  else th s x.
Proof. apply (th_upd s n (fun t => with_slice (with_state t THREAD_STATE_RUNNING) (t_defaultSlice t) false)). Qed.

Lemma switch_to_rep s q sl p n : rep s q sl -> n ∉ q ++ sl ->
  rep (switch_to s p n) q sl /\ gCurrentThread (switch_to s p n) = n /\
  t_state (th (switch_to s p n) n) = THREAD_STATE_RUNNING /\
  (forall x, x <> n -> th (switch_to s p n) x = th s x).
Proof.
  intros R Hn. split_and!; [|done| |].
  - apply (rep_ext s); try done. intros x Hx. rewrite switch_to_th.
    destruct (Z.eqb_spec x n) as [->|]; done.
  - rewrite switch_to_th, Z.eqb_refl. done.
  - intros x Hx. rewrite switch_to_th. by destruct (Z.eqb_spec x n).
Qed.

(** ** [schedule] *)
Definition is_running (s : Sched) (p : Z) : bool := bool_decide (t_state (th s p) = THREAD_STATE_RUNNING).

(** The queue after a switch away from [cur]. *)
Definition requeue (s : Sched) (cur : Z) : list Z :=
  if is_running s cur && negb (cur =? gIdleThread s) then [cur] else [].

Lemma running_not_queued s q sl p : rep s q sl -> is_running s p = true -> p ∉ q ++ sl.
Proof.
  intros R Hr [Hx|Hx]%elem_of_app; unfold is_running in Hr; apply bool_decide_eq_true in Hr.
  - by rewrite (rp_rstate _ _ _ R p Hx) in Hr.
  - by rewrite (rp_sstate _ _ _ R p Hx) in Hr.
Qed.

(** Leaving the current thread: it is re-queued when it was running. *)
Definition leave (s : Sched) (prev : Z) : Sched :=
  if negb (prev =? 0) && bool_decide (t_state (th s prev) = THREAD_STATE_RUNNING) then
    let s2 := upd s prev (fun t => with_state t THREAD_STATE_READY) in
    if negb (prev =? gIdleThread s) then enqueueReady s2 prev else s2
  else s.

Lemma leave_rep s q sl c : rep s q sl -> c <> 0 -> (is_running s c = true -> c ∉ q ++ sl) ->
  rep (leave s c) (q ++ requeue s c) sl /\
  (forall x, x <> c -> t_state (th (leave s c) x) = t_state (th s x)) /\
  t_state (th (leave s c) c) = (if is_running s c then THREAD_STATE_READY else t_state (th s c)).
Proof.
  intros R Hc Hn. unfold leave, requeue. fold (is_running s c).
  destruct (Z.eqb_spec c 0); [done|]. cbn [negb andb].
  destruct (is_running s c); cbn [andb]; [|rewrite app_nil_r; done].
  specialize (Hn eq_refl). set (s2 := upd s c (fun t => with_state t THREAD_STATE_READY)).
  assert (R2 : rep s2 q sl).
  { apply (rep_ext s); try done. intros x Hx. unfold s2. rewrite th_upd.
    destruct (Z.eqb_spec x c) as [->|]; done. }
  assert (Hs2 : forall x, x <> c -> t_state (th s2 x) = t_state (th s x))
    by (intros x Hx; unfold s2; rewrite th_upd; by destruct (Z.eqb_spec x c)).
  destruct (Z.eqb_spec c (gIdleThread s)) as [Ei|Ei]; cbn [negb].
  - rewrite app_nil_r. split_and!; [done..|]. unfold s2. by rewrite th_upd, Z.eqb_refl.
  - split_and!; [by apply enqueueReady_rep| |].
    + intros x Hx. rewrite enqueueReady_state. destruct (Z.eqb_spec x c); [done|]. by apply Hs2.
    + rewrite enqueueReady_state. by rewrite Z.eqb_refl.
Qed.

Lemma meta_leave s c : meta s (leave s c).
Proof.
  unfold leave. destruct (_ && _); [|done]. cbv zeta.
  assert (M : meta s (upd s c (fun t => with_state t THREAD_STATE_READY))) by (by apply meta_upd).
  destruct (negb _); [|done]. eapply meta_trans; [exact M|apply meta_enqueue].
Qed.

(** [schedule] by cases on the ready queue. *)
Lemma schedule_preempt s : gCurrentThread s <> 0 -> 0 < t_preemptCount (th s (gCurrentThread s)) ->
  schedule s = s.
Proof.
  intros Hc Hp. unfold schedule. destruct (Z.eqb_spec (gCurrentThread s) 0); [done|].
  destruct (Z.ltb_spec 0 (t_preemptCount (th s (gCurrentThread s)))); [done|lia].
Qed.

Lemma schedule_queue s n q sl : rep s (n :: q) sl -> gCurrentThread s <> 0 ->
  t_preemptCount (th s (gCurrentThread s)) <= 0 -> gCurrentThread s <> n ->
  let c := gCurrentThread s in
  let s' := schedule s in
  rep s' (q ++ requeue s c) sl /\ gCurrentThread s' = n /\ is_running s' n = true /\ meta s s' /\
  (forall x, x <> c -> x <> n -> t_state (th s' x) = t_state (th s x)) /\
  t_state (th s' c) = (if is_running s c then THREAD_STATE_READY else t_state (th s c)).
Proof.
  intros R Hc Hp Hcn c s'. unfold s', schedule. fold c. fold c in Hc, Hp, Hcn.
  destruct (Z.eqb_spec c 0); [done|]. destruct (Z.ltb_spec 0 (t_preemptCount (th s c))); [lia|].
  cbn [negb andb]. pose proof (meta_dequeue s) as M1.
  destruct (dequeueReady_rep s n q sl R) as (E & R1 & _ & _ & Hst & Hcur).
  assert (Hn0 : n <> 0) by (apply (rp_ready _ _ _ R)).
  pose proof (rp_nodup _ _ _ R) as Hnd. simpl in Hnd. apply NoDup_cons in Hnd as [Hnq _].
  destruct (dequeueReady s) as [s1 n']. cbn [fst snd] in *. subst n'.
  destruct (Z.eqb_spec n 0); [done|]. destruct (Z.eqb_spec n c); [congruence|].
  assert (Hrun : is_running s1 c = is_running s c) by (unfold is_running; by rewrite Hst).
  assert (Hreq : requeue s1 c = requeue s c)
    by (unfold requeue; by rewrite Hrun, (mt_idle _ _ M1)).
  destruct (leave_rep s1 q sl c R1 Hc) as (R2 & Hst2 & Hstc).
  { intros Hr. by apply (running_not_queued s1 q sl). }
  pose proof (meta_leave s1 c) as M2. unfold leave in *.
  destruct (Z.eqb_spec c 0); [done|]. cbn [negb andb] in *.
  set (s2 := if bool_decide (t_state (th s1 c) = THREAD_STATE_RUNNING) then _ else s1) in *.
  destruct (switch_to_rep s2 (q ++ requeue s c) sl c n) as (R3 & Ecur & Est & Hoth).
  { by rewrite <- Hreq. }
  { rewrite elem_of_app in Hnq. rewrite !elem_of_app. unfold requeue.
    destruct (_ && _); [rewrite list_elem_of_singleton|rewrite elem_of_nil]; intuition congruence. }
  split_and!; try done.
  - unfold is_running. by rewrite bool_decide_eq_true.
  - eapply meta_trans; [exact M1|]. eapply meta_trans; [exact M2|apply meta_switch].
  - intros x Hx Hxn. rewrite Hoth by done. rewrite Hst2 by done. apply Hst.
  - rewrite Hoth by done. rewrite Hstc, Hrun. by rewrite Hst.
Qed.

Lemma schedule_empty s sl : rep s [] sl -> gCurrentThread s <> 0 ->
  t_preemptCount (th s (gCurrentThread s)) <= 0 ->
  (gCurrentThread s = gIdleThread s -> is_running s (gCurrentThread s) = true) ->
  let c := gCurrentThread s in
  let s' := schedule s in
  let n := if is_running s c then c else gIdleThread s in
  rep s' [] sl /\ gCurrentThread s' = n /\ is_running s' n = true /\ meta s s' /\
  (forall x, x <> n -> t_state (th s' x) = t_state (th s x)).
Proof.
  intros R Hc Hp Hid c s' n. unfold s', schedule. fold c. fold c in Hc, Hp, Hid.
  destruct (Z.eqb_spec c 0); [done|]. destruct (Z.ltb_spec 0 (t_preemptCount (th s c))); [lia|].
  cbn [negb andb]. rewrite (dequeueReady_empty s sl R). cbn [Z.eqb].
  fold (is_running s c). unfold n. destruct (is_running s c) eqn:Er.
  - rewrite Z.eqb_refl. split_and!.
    + apply (rep_ext s); try done. intros x Hx. rewrite th_upd. by destruct (Z.eqb_spec x c) as [->|].
    + done.
    + unfold is_running in *. rewrite th_upd, Z.eqb_refl. exact Er.
    + by apply meta_upd.
    + intros x Hx. rewrite th_upd. by destruct (Z.eqb_spec x c).
  - destruct (Z.eqb_spec (gIdleThread s) c) as [E|E].
    { exfalso. symmetry in E. apply Hid in E. congruence. }
    destruct (switch_to_rep s [] sl c (gIdleThread s) R) as (R' & E1 & E2 & E3); [apply (rp_idle _ _ _ R)|].
    split_and!; try done.
    + unfold is_running. by rewrite bool_decide_eq_true.
    + apply meta_switch.
    + intros x Hx. by rewrite E3.
Qed.

(** ** The tick *)
Definition expired (s : Sched) (x : Z) : bool := t_sleepTargetTicks (th s x) <=? gSchedTicks s.

Lemma meta_wake s c : meta s (wake_one s c).
Proof.
  unfold wake_one. cbv zeta. pose proof (meta_sleep_remove s c) as M1.
  pose proof (meta_enqueue (sleep_remove s c) c) as M2.
  pose proof (meta_trans _ _ _ M1 M2) as M. destruct (negb _); [|exact M].
  eapply meta_trans; [exact M|]. by apply meta_upd.
Qed.

Lemma wake_one_rep s q a c b : rep s q (a ++ c :: b) ->
  rep (wake_one s c) (q ++ [c]) (a ++ b) /\
  gCurrentThread (wake_one s c) = gCurrentThread s /\
  (forall x, x <> c -> t_state (th (wake_one s c) x) = t_state (th s x)).
Proof.
  intros R. destruct (sleep_remove_rep s q a c b R) as [R1 Hst].
  destruct (sleep_remove_fields s c) as (_ & _ & Ei & Ec & _ & _).
  pose proof (rp_nodup _ _ _ R) as Hnd. rewrite app_assoc in Hnd.
  apply NoDup_app in Hnd as (_ & Hd1 & Hd2). apply NoDup_cons in Hd2 as [Hcb _].
  assert (Hcq : c ∉ q ++ a ++ b).
  { rewrite app_assoc. intros [Hx|Hx]%elem_of_app; [|done]. apply (Hd1 c Hx). by left. }
  assert (Hc0 : c <> 0).
  { eapply (links_nonzero _ _ _ _ c (rp_sleep _ _ _ R)). apply elem_of_app. right. by left. }
  assert (Hci : c <> gIdleThread (sleep_remove s c)).
  { rewrite Ei. intros ->. apply (rp_idle _ _ _ R). rewrite !elem_of_app. right. right. by left. }
  pose proof (enqueueReady_rep _ _ _ c R1 Hc0 Hcq Hci) as R2.
  unfold wake_one. cbv zeta. set (s3 := enqueueReady (sleep_remove s c) c) in *.
  assert (Ecur : gCurrentThread s3 = gCurrentThread s)
    by (unfold s3, enqueueReady; destruct (negb (gReadyQueueTail (sleep_remove s c) =? 0)); exact Ec).
  assert (Hst3 : forall x, x <> c -> t_state (th s3 x) = t_state (th s x)).
  { intros x Hx. unfold s3. rewrite enqueueReady_state. destruct (Z.eqb_spec x c); [done|]. by apply Hst. }
  destruct (negb (gCurrentThread s3 =? 0)); [|by split_and!]. split_and!.
  - apply (rep_ext s3); try done. intros x Hx. rewrite th_upd.
    by destruct (Z.eqb_spec x (gCurrentThread s3)) as [->|].
  - exact Ecur.
  - intros x Hx. rewrite th_upd. destruct (Z.eqb_spec x (gCurrentThread s3)) as [->|]; by apply Hst3.
Qed.

(** The walk keeps the unexpired prefix [kept] and moves the expired threads,
    in sleep-queue order, to the end of the ready queue. *)
Lemma tick_loop_spec todo : forall fuel s q kept, rep s q (kept ++ todo) -> (length todo <= fuel)%nat ->
  exists s', tick_loop fuel s (hd0 0 todo) = Some s' /\
    rep s' (q ++ List.filter (expired s) todo)
           (kept ++ List.filter (fun x => negb (expired s x)) todo) /\
    gCurrentThread s' = gCurrentThread s /\ meta s s' /\
    (forall x, x ∉ todo -> t_state (th s' x) = t_state (th s x)).
Proof.
  induction todo as [|c todo IH]; intros fuel s q kept R Hf.
  - exists s. simpl. rewrite !app_nil_r in *. destruct fuel; by split_and!.
  - assert (Hc0 : c <> 0).
    { eapply (links_nonzero _ _ _ _ c (rp_sleep _ _ _ R)). apply elem_of_app. right. by left. }
    destruct fuel as [|k]; [simpl in Hf; lia|]. cbn [tick_loop hd0].
    destruct (Z.eqb_spec c 0); [done|].
    assert (En : t_next (th s c) = hd0 0 todo).
    { pose proof (rp_sleep _ _ _ R) as Hl. apply links_app in Hl as [_ Hl]. apply Hl. }
    rewrite En. fold (expired s c). simpl in Hf. cbn [List.filter].
    destruct (expired s c) eqn:Ee; cbn [negb].
    + destruct (wake_one_rep s q kept c todo R) as (R1 & Ec & Hst).
      pose proof (meta_wake s c) as M1.
      destruct (IH k (wake_one s c) (q ++ [c]) kept R1 ltac:(lia)) as (s' & E & R' & Ec' & M' & Hst').
      assert (Heq : forall x, expired (wake_one s c) x = expired s x).
      { intros x. unfold expired. by rewrite (mt_ticks _ _ M1), (mt_target _ _ M1). }
      exists s'. split_and!; try done.
      * rewrite <- app_assoc in R'. simpl in R'.
        rewrite (filter_ext _ (expired s)) in R' by exact Heq.
        rewrite (filter_ext (fun x => negb (expired (wake_one s c) x)) (fun x => negb (expired s x))) in R'
          by (intros x; by rewrite Heq). exact R'.
      * congruence.
      * exact (meta_trans _ _ _ M1 M').
      * intros x Hx. rewrite Hst' by (intros Hx'; apply Hx; by right). apply Hst.
        intros ->. apply Hx. by left.
    + replace (kept ++ c :: todo) with ((kept ++ [c]) ++ todo) in R by (by rewrite <- app_assoc).
      destruct (IH k s q (kept ++ [c]) R ltac:(lia)) as (s' & E & R' & Ec' & M' & Hst').
      exists s'. split_and!; try done.
      * rewrite <- app_assoc in R'. exact R'.
      * intros x Hx. apply Hst'. intros Hx'. apply Hx. by right.
Qed.

(** The store bounds the sleep queue: its threads exist. *)
Lemma nodup_in_dom {A} (m : gmap Z A) l : NoDup l -> (forall x, x ∈ l -> is_Some (m !! x)) ->
  (length l <= size m)%nat.
Proof.
  intros Hn Hd. rewrite <- size_dom, <- (size_list_to_set (C := gset Z) l) by done.
  apply subseteq_size. intros x Hx. rewrite elem_of_list_to_set in Hx. apply elem_of_dom. auto.
Qed.

Lemma sleep_bound s q sl : rep s q sl -> (length sl <= size (s_threads s))%nat.
Proof.
  intros R. apply nodup_in_dom; [apply (rep_nodup _ _ _ R)|]. intros x Hx.
  pose proof (rp_sstate _ _ _ R x Hx) as Hs. unfold th in Hs.
  destruct (s_threads s !! x); [eauto|done].
Qed.

Lemma tick_account_spec s : gCurrentThread (tick_account s) = gCurrentThread s /\
  meta s (tick_account s) /\ gReadyQueueHead (tick_account s) = gReadyQueueHead s /\
  gReadyQueueTail (tick_account s) = gReadyQueueTail s /\
  gSleepQueueHead (tick_account s) = gSleepQueueHead s /\
  (forall x, t_next (th (tick_account s) x) = t_next (th s x) /\
     t_prev (th (tick_account s) x) = t_prev (th s x) /\
     t_state (th (tick_account s) x) = t_state (th s x)).
Proof.
  assert (Hu : forall s p f, (forall t, t_next (f t) = t_next t /\ t_prev (f t) = t_prev t /\
              t_state (f t) = t_state t) -> forall x,
            t_next (th (upd s p f) x) = t_next (th s x) /\ t_prev (th (upd s p f) x) = t_prev (th s x) /\
            t_state (th (upd s p f) x) = t_state (th s x)).
  { intros s0 p f Hf x. rewrite th_upd. destruct (Z.eqb_spec x p) as [->|]; [apply Hf|done]. }
  unfold tick_account. cbv zeta.
  destruct (gCurrentThread s =? 0); [done|]. destruct (gCurrentThread s =? gIdleThread s).
  - destruct (negb (gReadyQueueHead s =? 0)); [|done].
    split_and!; [done|meta_chain|done..|by apply Hu].
  - destruct (0 <? t_timeSlice (th s (gCurrentThread s))); [|done].
    set (f := fun t => with_slice t (t_timeSlice t - 1) (t_needResched t)).
    set (c := gCurrentThread s).
    destruct (t_timeSlice (th (upd s c f) c) =? 0).
    + split_and!; [done|meta_chain|done..|]. intros x.
      destruct (Hu (upd s c f) c need_resched) with x as (-> & -> & ->); [done|]. by apply Hu.
    + split_and!; [done|meta_chain|done..|by apply Hu].
Qed.

(** [schedTick] always finishes; the expired sleepers move, in order, to the
    end of the ready queue. *)
Lemma schedTick_spec s q sl : rep s q sl ->
  let s0 := set_ticks s (u64 (gSchedTicks s + 1)) in
  exists s', schedTick s = Some s' /\
    rep s' (q ++ List.filter (expired s0) sl) (List.filter (fun x => negb (expired s0 x)) sl) /\
    gCurrentThread s' = gCurrentThread s /\ meta s0 s' /\
    (forall x, x ∉ sl -> t_state (th s' x) = t_state (th s x)).
Proof.
  intros R s0. unfold schedTick. fold s0.
  assert (R0 : rep s0 q sl) by (apply (rep_ext s); done).
  destruct (tick_loop_spec sl (size (s_threads s)) s0 q [] R0 (sleep_bound s q sl R))
    as (s1 & E & R1 & Ec & M & Hst).
  rewrite (rp_shead _ _ _ R0), E. cbn [mbind option_bind]. eexists. split; [done|].
  destruct (tick_account_spec s1) as (A1 & A2 & A3 & A4 & A5 & A6). split_and!.
  - apply (rep_ext s1 (tick_account s1)); [exact R1|exact A3|exact A4|exact A5|apply (mt_idle _ _ A2)|].
    intros x _. apply A6.
  - rewrite A1. exact Ec.
  - exact (meta_trans _ _ _ M A2).
  - intros x Hx. destruct (A6 x) as (_ & _ & ->). rewrite Hst by done. done.
Qed.

(** ** The scheduler's invariant *)

(** The threads that are ready are exactly the ready queue (and possibly the
    idle thread), those that sleep are exactly the sleep queue, and the
    current thread is the only one running.  [pre_inv] is the state just
    before [schedule]: the current thread may have stopped running. *)
Record pre_inv (s : Sched) (q sl : list Z) : Prop := {
  pi_rep : rep s q sl;
  pi_cur : gCurrentThread s <> 0;
  pi_run : forall x, t_state (th s x) = THREAD_STATE_RUNNING -> x = gCurrentThread s;
  pi_ready : forall x, t_state (th s x) = THREAD_STATE_READY -> x ∈ q \/ x = gIdleThread s;
  pi_sleep : forall x, t_state (th s x) = THREAD_STATE_SLEEPING -> x ∈ sl;
  pi_idle : t_state (th s (gIdleThread s)) = THREAD_STATE_READY \/
            t_state (th s (gIdleThread s)) = THREAD_STATE_RUNNING;
  pi_idlecur : gCurrentThread s = gIdleThread s -> t_state (th s (gCurrentThread s)) = THREAD_STATE_RUNNING;
  pi_curq : t_state (th s (gCurrentThread s)) <> THREAD_STATE_READY;
  pi_preempt : forall x, 0 <= t_preemptCount (th s x)
}.

Definition sched_inv (s : Sched) (q sl : list Z) : Prop :=
  pre_inv s q sl /\ t_state (th s (gCurrentThread s)) = THREAD_STATE_RUNNING.

Lemma is_running_iff s p : is_running s p = true <-> t_state (th s p) = THREAD_STATE_RUNNING.
Proof. apply bool_decide_eq_true. Qed.

(** The queue and the running thread after [schedule]. *)
Definition next_queue (s : Sched) (q : list Z) : list Z :=
  match q with [] => [] | _ :: r => r ++ requeue s (gCurrentThread s) end.
Definition next_thread (s : Sched) (q : list Z) : Z :=
  match q with
  | n :: _ => n
  | [] => if is_running s (gCurrentThread s) then gCurrentThread s else gIdleThread s
  end.

Lemma schedule_inv s q sl : pre_inv s q sl -> t_preemptCount (th s (gCurrentThread s)) = 0 ->
  sched_inv (schedule s) (next_queue s q) sl /\ gCurrentThread (schedule s) = next_thread s q /\
  meta s (schedule s).
Proof.
  intros P Hpc. pose proof (pi_rep _ _ _ P) as R. set (c := gCurrentThread s).
  destruct (rp_idle _ _ _ R) as [Hi0 Hiq].
  destruct q as [|n q].
  - destruct (schedule_empty s sl R (pi_cur _ _ _ P)) as (R' & Ec & Er & M & Hst); [lia| |].
    { intros E. apply is_running_iff. by apply (pi_idlecur _ _ _ P). }
    fold c in Ec, Er, Hst. set (n := if is_running s c then c else gIdleThread s) in *.
    assert (Hn : next_thread s [] = n) by done. apply is_running_iff in Er.
    split_and!; [|done|done]. split; [|by rewrite Ec].
    pose proof (mt_idle _ _ M) as Ei.
    constructor; rewrite ?Ec, ?Ei; try done.
    + unfold n. destruct (is_running s c); [apply (pi_cur _ _ _ P)|done].
    + intros x Hx. destruct (decide (x = n)) as [->|Hne]; [done|]. rewrite Hst in Hx by done.
      pose proof (pi_run _ _ _ P x Hx) as Exc. subst x. unfold n in Hne.
      by rewrite (proj2 (is_running_iff s c)) in Hne.
    + intros x Hx. destruct (decide (x = n)) as [->|Hne]; [congruence|]. rewrite Hst in Hx by done.
      by apply (pi_ready _ _ _ P).
    + intros x Hx. destruct (decide (x = n)) as [->|Hne]; [congruence|]. rewrite Hst in Hx by done.
      by apply (pi_sleep _ _ _ P).
    + destruct (decide (gIdleThread s = n)) as [->|Hne]; [by right|]. rewrite Hst by done. apply (pi_idle _ _ _ P).
    + by rewrite Er.
    + intros x. rewrite (mt_preempt _ _ M). apply (pi_preempt _ _ _ P).
  - assert (Hcn : c <> n).
    { intros E. apply (pi_curq _ _ _ P). fold c. rewrite E. apply (rp_rstate _ _ _ R). by left. }
    destruct (schedule_queue s n q sl R (pi_cur _ _ _ P)) as (R' & Ec & Er & M & Hst & Hstc); [lia|done|].
    fold c in Hst, Hstc. apply is_running_iff in Er. pose proof (mt_idle _ _ M) as Ei.
    assert (Hn0 : n <> 0) by apply (rp_ready _ _ _ R).
    split_and!; [|done|done]. split; [|by rewrite Ec].
    constructor; rewrite ?Ec, ?Ei; try done.
    + intros x Hx. destruct (decide (x = n)) as [->|Hne]; [done|].
      destruct (decide (x = c)) as [->|Hxc]; [|rewrite Hst in Hx by done; by apply (pi_run _ _ _ P) in Hx].
      rewrite Hstc in Hx. destruct (is_running s c) eqn:Erc; [done|].
      apply is_running_iff in Hx. congruence.
    + intros x Hx. destruct (decide (x = n)) as [->|Hne]; [congruence|]. simpl. rewrite elem_of_app.
      destruct (decide (x = c)) as [->|Hxc].
      * rewrite Hstc in Hx. unfold requeue. fold c. destruct (is_running s c) eqn:Erc.
        -- destruct (Z.eqb_spec c (gIdleThread s)) as [|Hci]; [by right|]. left. right. by left.
        -- exfalso. by apply (pi_curq _ _ _ P).
      * rewrite Hst in Hx by done. destruct (pi_ready _ _ _ P x Hx) as [Hq|]; [|by right].
        apply elem_of_cons in Hq as [|Hq]; [done|]. auto.
    + intros x Hx. destruct (decide (x = n)) as [->|Hne]; [congruence|].
      destruct (decide (x = c)) as [->|Hxc]; [|rewrite Hst in Hx by done; by apply (pi_sleep _ _ _ P)].
      rewrite Hstc in Hx. destruct (is_running s c); [done|]. by apply (pi_sleep _ _ _ P).
    + destruct (decide (gIdleThread s = n)) as [E|Hne].
      { exfalso. apply Hiq. rewrite E. by left. }
      destruct (decide (gIdleThread s = c)) as [E|Hic]; [|rewrite Hst by done; apply (pi_idle _ _ _ P)].
      rewrite E, Hstc. left. rewrite (proj2 (is_running_iff s c)); [done|].
      by apply (pi_idlecur _ _ _ P).
    + by rewrite Er.
    + intros x. rewrite (mt_preempt _ _ M). apply (pi_preempt _ _ _ P).
Qed.
