(* ===== verification/SchedInv.v ===== *)
(** * Reachable scheduler states

    The invariant of [SchedOps] holds after [schedInit] and is kept by every
    operation; on top of it, round-robin progress, wake-up of sleepers, and
    the interleaving that breaks it. *)

From Stdlib Require Import ZArith Lia Bool.
From stdpp Require Import base list gmap.
From S2P Require Import Prelude Vma Sched SchedQueue SchedOps.

(** Updates that leave links, state and the sign of the preemption count. *)
Definition harmless (f : Thread -> Thread) : Prop :=
  forall t, t_next (f t) = t_next t /\ t_prev (f t) = t_prev t /\ t_state (f t) = t_state t /\
    (0 <= t_preemptCount t -> 0 <= t_preemptCount (f t)).

Lemma pre_inv_ext s s' q sl : pre_inv s q sl ->
  gReadyQueueHead s' = gReadyQueueHead s -> gReadyQueueTail s' = gReadyQueueTail s ->
  gSleepQueueHead s' = gSleepQueueHead s -> gIdleThread s' = gIdleThread s ->
  gCurrentThread s' = gCurrentThread s ->
  (forall x, t_next (th s' x) = t_next (th s x) /\ t_prev (th s' x) = t_prev (th s x) /\
     t_state (th s' x) = t_state (th s x) /\ 0 <= t_preemptCount (th s' x)) -> pre_inv s' q sl.
Proof.
  intros P E1 E2 E3 E4 E5 He.
  assert (Hst : forall x, t_state (th s' x) = t_state (th s x)) by (intros x; apply He).
  destruct P as [R P1 P2 P3 P4 P5 P6 P7 P8].
  constructor; rewrite ?E4, ?E5, ?Hst; try done.
  - apply (rep_ext s); try done. intros x _. destruct (He x) as (? & ? & ? & _). done.
  - intros x. rewrite Hst. apply P2.
  - intros x. rewrite Hst. apply P3.
  - intros x. rewrite Hst. apply P4.
  - intros x. apply He.
Qed.

Lemma pre_inv_upd s q sl p f : pre_inv s q sl -> harmless f -> pre_inv (upd s p f) q sl.
Proof.
  intros P Hf. apply (pre_inv_ext s); try done. intros x. rewrite th_upd.
  pose proof (pi_preempt _ _ _ P x) as Hx.
  destruct (Z.eqb_spec x p) as [->|]; [|by split_and!].
  destruct (Hf (th s p)) as (? & ? & ? & ?). split_and!; auto.
Qed.

Lemma inv_upd s q sl p f : sched_inv s q sl -> harmless f -> sched_inv (upd s p f) q sl.
Proof.
  intros [P Hr] Hf. split; [by apply pre_inv_upd|].
  change (gCurrentThread (upd s p f)) with (gCurrentThread s). rewrite th_upd.
  destruct (Z.eqb_spec (gCurrentThread s) p) as [E|]; [|done].
  destruct (Hf (th s p)) as (_ & _ & -> & _). by rewrite <- E.
Qed.

Lemma need_resched_harmless : harmless need_resched.
Proof. by intros t. Qed.

(** Any call of [schedule] from a state of the invariant. *)
Lemma schedule_sched_inv s q sl : sched_inv s q sl -> exists q', sched_inv (schedule s) q' sl.
Proof.
  intros [P Hr]. destruct (Z_lt_ge_dec 0 (t_preemptCount (th s (gCurrentThread s)))).
  - exists q. rewrite schedule_preempt by (done || apply P). done.
  - pose proof (pi_preempt _ _ _ P (gCurrentThread s)). exists (next_queue s q).
    apply schedule_inv; [done|lia].
Qed.

Lemma schedYield_inv s q sl : sched_inv s q sl -> exists q', sched_inv (schedYield s) q' sl.
Proof.
  intros I. unfold schedYield. destruct (gCurrentThread s =? 0); [by apply schedule_sched_inv with q|].
  by apply (schedule_sched_inv _ q), inv_upd.
Qed.

Lemma schedPreempt_inv s q sl fl : sched_inv s q sl ->
  exists q', sched_inv (schedPreemptFromInterrupt s fl) q' sl.
Proof.
  intros I. unfold schedPreemptFromInterrupt. destruct (_ || _); [by exists q|].
  destruct fl as [r|]; [destruct (negb _); [by exists q|]|]; by apply schedule_sched_inv with q.
Qed.

Lemma schedPreemptDisable_inv s q sl : sched_inv s q sl -> sched_inv (schedPreemptDisable s) q sl.
Proof.
  intros I. unfold schedPreemptDisable. destruct (_ =? 0); [done|]. apply inv_upd; [done|].
  intros t. split_and!; try done. intros _. apply (Z.mod_pos_bound _ (2 ^ 32)). lia.
Qed.

Lemma schedPreemptEnable_inv s q sl : sched_inv s q sl ->
  exists q', sched_inv (schedPreemptEnable s) q' sl.
Proof.
  intros I. unfold schedPreemptEnable. destruct (_ =? 0); [by exists q|]. cbv zeta.
  assert (I1 : sched_inv (upd s (gCurrentThread s)
                 (fun t => with_preempt t (u32 (t_preemptCount t - 1)))) q sl).
  { apply inv_upd; [done|]. intros t. split_and!; try done. intros _.
    apply (Z.mod_pos_bound _ (2 ^ 32)). lia. }
  destruct (_ && _); [by apply schedule_sched_inv with q|by exists q].
Qed.

(** The tick. *)
Lemma filter_split {A} (f : A -> bool) (l : list A) x :
  x ∈ List.filter f l \/ x ∈ List.filter (fun y => negb (f y)) l <-> x ∈ l.
Proof. rewrite !list_elem_of_In, !filter_In. destruct (f x); simpl; tauto. Qed.

Lemma schedTick_pre s q sl : pre_inv s q sl ->
  let s0 := set_ticks s (u64 (gSchedTicks s + 1)) in
  (gCurrentThread s ∈ sl -> expired s0 (gCurrentThread s) = false) ->
  exists s' q' sl', schedTick s = Some s' /\ pre_inv s' q' sl' /\ gCurrentThread s' = gCurrentThread s /\
    t_state (th s' (gCurrentThread s)) = t_state (th s (gCurrentThread s)) /\
    q' = q ++ List.filter (expired s0) sl /\ sl' = List.filter (fun x => negb (expired s0 x)) sl /\
    meta s0 s'.
Proof.
  intros P s0 Hexp. pose proof (pi_rep _ _ _ P) as R.
  destruct (schedTick_spec s q sl R) as (s' & E & R' & Ec & M & Hst).
  fold s0 in R', M.
  assert (Hcase : forall x, x ∈ sl -> t_state (th s' x) = THREAD_STATE_READY \/
                                      t_state (th s' x) = THREAD_STATE_SLEEPING).
  { intros x Hx. apply (filter_split (expired s0)) in Hx as [Hx|Hx]; [left; apply R', elem_of_app; by right|].
    right. by apply R'. }
  assert (Hcs : t_state (th s' (gCurrentThread s)) = t_state (th s (gCurrentThread s))).
  { destruct (decide (gCurrentThread s ∈ sl)) as [Hx|Hx]; [|by apply Hst].
    rewrite (rp_sstate _ _ _ R _ Hx). apply R', list_elem_of_In, filter_In.
    split; [by apply list_elem_of_In|]. by rewrite Hexp. }
  exists s', (q ++ List.filter (expired s0) sl), (List.filter (fun x => negb (expired s0 x)) sl).
  split_and!; try done. pose proof (mt_idle _ _ M) as Ei. change (gIdleThread s0) with (gIdleThread s) in Ei.
  assert (His : gIdleThread s ∉ sl) by (pose proof (rp_idle _ _ _ R) as [_ Hi]; rewrite elem_of_app in Hi; tauto).
  constructor; rewrite ?Ec, ?Ei, ?Hcs; try done.
  - apply P.
  - intros x Hx. destruct (decide (x ∈ sl)) as [Hs|Hs]; [destruct (Hcase x Hs); congruence|].
    rewrite Hst in Hx by done. by apply (pi_run _ _ _ P).
  - intros x Hx. destruct (decide (x ∈ sl)) as [Hs|Hs].
    + left. apply elem_of_app. right. apply (filter_split (expired s0)) in Hs as [|Hs]; [done|].
      rewrite (rp_sstate _ _ _ R' x Hs) in Hx. done.
    + rewrite Hst in Hx by done. destruct (pi_ready _ _ _ P x Hx); [left; apply elem_of_app; by left|by right].
  - intros x Hx. destruct (decide (x ∈ sl)) as [Hs|Hs].
    + apply (filter_split (expired s0)) in Hs as [Hs|]; [|done].
      rewrite (rp_rstate _ _ _ R' x) in Hx; [done|]. apply elem_of_app. by right.
    + rewrite Hst in Hx by done. by apply (pi_sleep _ _ _ P) in Hx.
  - rewrite Hst by done. apply (pi_idle _ _ _ P).
  - apply (pi_idlecur _ _ _ P).
  - apply (pi_curq _ _ _ P).
  - intros x. rewrite (mt_preempt _ _ M). apply (pi_preempt _ _ _ P).
Qed.

Lemma schedTick_inv s q sl : sched_inv s q sl ->
  exists s' q' sl', schedTick s = Some s' /\ sched_inv s' q' sl' /\ gCurrentThread s' = gCurrentThread s /\
    let s0 := set_ticks s (u64 (gSchedTicks s + 1)) in
    q' = q ++ List.filter (expired s0) sl /\ sl' = List.filter (fun x => negb (expired s0 x)) sl /\
    meta s0 s'.
Proof.
  intros [P Hr]. destruct (schedTick_pre s q sl P) as (s' & q' & sl' & E & P' & Ec & Es & Hrest).
  { intros Hx. rewrite (rp_sstate _ _ _ (pi_rep _ _ _ P) _ Hx) in Hr. done. }
  exists s', q', sl'. split_and!; try done; [|apply Hrest..]. split; [done|]. by rewrite Ec, Es.
Qed.

(** Stopping the current thread: a new state for it that is neither ready nor
    running, its links unchanged. *)
Lemma stop_current s q sl x : sched_inv s q sl -> gCurrentThread s <> gIdleThread s ->
  x = THREAD_STATE_ZOMBIE \/ x = THREAD_STATE_BLOCKED ->
  pre_inv (upd s (gCurrentThread s) (fun t => with_state t x)) q sl.
Proof.
  intros [P Hr] Hi Hx. set (c := gCurrentThread s) in *. pose proof (pi_rep _ _ _ P) as R.
  assert (Hc : c ∉ q ++ sl) by (apply (running_not_queued s q sl c R); by apply is_running_iff).
  assert (Hth : forall y, t_state (th (upd s c (fun t => with_state t x)) y) =
            if y =? c then x else t_state (th s y)).
  { intros y. rewrite th_upd. by destruct (Z.eqb_spec y c). }
  constructor; try (change (gCurrentThread (upd s c (fun t => with_state t x))) with c).
  - apply (rep_ext s); try done. intros y Hy. rewrite th_upd. destruct (Z.eqb_spec y c) as [->|]; done.
  - apply P.
  - intros y. rewrite Hth. destruct (Z.eqb_spec y c) as [->|]; [done|]. apply (pi_run _ _ _ P).
  - intros y. rewrite Hth. destruct (Z.eqb_spec y c) as [->|]; [by destruct Hx as [-> | ->]|].
    apply (pi_ready _ _ _ P).
  - intros y. rewrite Hth. destruct (Z.eqb_spec y c) as [->|]; [by destruct Hx as [-> | ->]|].
    apply (pi_sleep _ _ _ P).
  - rewrite Hth. change (gIdleThread (upd s c (fun t => with_state t x))) with (gIdleThread s).
    destruct (Z.eqb_spec (gIdleThread s) c); [congruence|]. apply (pi_idle _ _ _ P).
  - change (gIdleThread (upd s c (fun t => with_state t x))) with (gIdleThread s). congruence.
  - rewrite Hth, Z.eqb_refl. by destruct Hx as [-> | ->].
  - intros y. rewrite th_upd. destruct (Z.eqb_spec y c) as [->|]; simpl; apply (pi_preempt _ _ _ P).
Qed.

Lemma schedThreadExit_inv s q sl : sched_inv s q sl -> gCurrentThread s <> gIdleThread s ->
  t_preemptCount (th s (gCurrentThread s)) = 0 ->
  exists q', sched_inv (schedThreadExit s) q' sl /\
    t_state (th (schedThreadExit s) (gCurrentThread s)) = THREAD_STATE_ZOMBIE.
Proof.
  intros I Hi Hp. unfold schedThreadExit, exit_mark.
  destruct (Z.eqb_spec (gCurrentThread s) 0) as [E|_]; [by destruct (pi_cur _ _ _ (proj1 I))|].
  set (c := gCurrentThread s) in *.
  set (s1 := upd s c (fun t => with_state t THREAD_STATE_ZOMBIE)).
  assert (P : pre_inv s1 q sl) by (apply stop_current; auto).
  assert (Hz : t_state (th s1 c) = THREAD_STATE_ZOMBIE) by (unfold s1; by rewrite th_upd, Z.eqb_refl).
  assert (Hp1 : t_preemptCount (th s1 (gCurrentThread s1)) = 0)
    by (change (gCurrentThread s1) with c; unfold s1; by rewrite th_upd, Z.eqb_refl).
  destruct (schedule_inv s1 q sl P Hp1) as (I' & Ec & _). exists (next_queue s1 q). split; [done|].
  assert (Hnr : is_running s1 c = false) by (unfold is_running; by rewrite Hz).
  destruct q as [|n q].
  - destruct (schedule_empty s1 sl (pi_rep _ _ _ P) (pi_cur _ _ _ P)) as (_ & _ & _ & _ & Hst); [lia| |].
    { intros E. exfalso. by apply Hi. }
    change (gCurrentThread s1) with c in Hst. rewrite Hnr in Hst. rewrite Hst; [done|]. by apply Hi.
  - assert (Hcn : gCurrentThread s1 <> n).
    { intros E. apply (pi_curq _ _ _ P). rewrite E. apply (rp_rstate _ _ _ (pi_rep _ _ _ P)). by left. }
    destruct (schedule_queue s1 n q sl (pi_rep _ _ _ P) (pi_cur _ _ _ P)) as (_ & _ & _ & _ & _ & Hstc); [lia|done|].
    change (gCurrentThread s1) with c in Hstc. rewrite Hstc, Hnr. done.
Qed.

Lemma sleep_enqueue_inv s q sl ticks : sched_inv s q sl -> gCurrentThread s <> gIdleThread s ->
  pre_inv (sleep_enqueue s ticks) q (gCurrentThread s :: sl) /\
  gCurrentThread (sleep_enqueue s ticks) = gCurrentThread s /\
  (forall x, t_preemptCount (th (sleep_enqueue s ticks) x) = t_preemptCount (th s x)).
Proof.
  intros [P Hr] Hi. set (c := gCurrentThread s) in *. pose proof (pi_rep _ _ _ P) as R.
  assert (Hc : c ∉ q ++ sl) by (apply (running_not_queued s q sl c R); by apply is_running_iff).
  destruct (sleep_enqueue_rep s q sl ticks R (pi_cur _ _ _ P) Hc Hi) as [R' Hst]. fold c in R', Hst.
  assert (Hhd : gSleepQueueHead s <> c).
  { rewrite (rp_shead _ _ _ R). intros E. destruct sl as [|y sl]; simpl in E; [by apply (pi_cur _ _ _ P)|].
    apply Hc, elem_of_app. right. rewrite <- E. by left. }
  pose proof (fun x => sleep_enqueue_th s ticks x Hhd) as Hth. cbv zeta in Hth. fold c in Hth.
  assert (Ec : gCurrentThread (sleep_enqueue s ticks) = c)
    by (unfold sleep_enqueue; by destruct (negb (gSleepQueueHead s =? 0))).
  assert (Ei : gIdleThread (sleep_enqueue s ticks) = gIdleThread s)
    by (unfold sleep_enqueue; by destruct (negb (gSleepQueueHead s =? 0))).
  assert (Hsc : t_state (th (sleep_enqueue s ticks) c) = THREAD_STATE_SLEEPING)
    by (by rewrite Hth, Z.eqb_refl).
  assert (Hpre : forall x, t_preemptCount (th (sleep_enqueue s ticks) x) = t_preemptCount (th s x)).
  { intros x. rewrite Hth. destruct (Z.eqb_spec x c) as [->|]; [done|].
    destruct (negb (gSleepQueueHead s =? 0) && (x =? gSleepQueueHead s)) eqn:E; [|done].
    breflect. by subst. }
  split_and!; [|done|done]. constructor; rewrite ?Ec, ?Ei; try done.
  - apply P.
  - intros x Hx. destruct (decide (x = c)) as [->|]; [done|]. rewrite Hst in Hx by done. by apply (pi_run _ _ _ P).
  - intros x Hx. destruct (decide (x = c)) as [->|]; [congruence|]. rewrite Hst in Hx by done.
    by apply (pi_ready _ _ _ P).
  - intros x Hx. destruct (decide (x = c)) as [->|]; [by left|]. rewrite Hst in Hx by done.
    right. by apply (pi_sleep _ _ _ P).
  - rewrite Hst by (by apply not_eq_sym). apply (pi_idle _ _ _ P).
  - by rewrite Hsc.
  - intros x. rewrite Hpre. apply (pi_preempt _ _ _ P).
Qed.

Lemma schedSleep_inv s q sl ticks : sched_inv s q sl -> gCurrentThread s <> gIdleThread s ->
  ticks <> 0 -> t_preemptCount (th s (gCurrentThread s)) = 0 ->
  exists q', sched_inv (schedSleep s ticks) q' (gCurrentThread s :: sl).
Proof.
  intros I Hi Ht Hp. unfold schedSleep.
  destruct (Z.eqb_spec (gCurrentThread s) 0) as [E|_]; [by destruct (pi_cur _ _ _ (proj1 I))|].
  destruct (Z.eqb_spec ticks 0); [done|]. cbn [orb].
  destruct (sleep_enqueue_inv s q sl ticks I Hi) as (P & Ec & Hpre). eexists.
  apply schedule_inv; [exact P|]. by rewrite Ec, Hpre.
Qed.

Lemma schedBlockCurrent_inv s q sl : sched_inv s q sl -> gCurrentThread s <> gIdleThread s ->
  let s' := schedBlockCurrent s in
  sched_inv s' (tail q) sl /\ gCurrentThread s' = hd (gIdleThread s) q /\
  t_state (th s' (gCurrentThread s)) = THREAD_STATE_BLOCKED /\ meta s s' /\
  (forall x, t_state (th s x) = THREAD_STATE_BLOCKED -> t_state (th s' x) = THREAD_STATE_BLOCKED).
Proof.
  intros I Hi. set (c := gCurrentThread s) in *.
  set (s1 := upd s c (fun t => with_state t THREAD_STATE_BLOCKED)).
  assert (P : pre_inv s1 q sl) by (apply stop_current; auto). pose proof (pi_rep _ _ _ P) as R.
  assert (Hb : t_state (th s1 c) = THREAD_STATE_BLOCKED) by (unfold s1; by rewrite th_upd, Z.eqb_refl).
  unfold schedBlockCurrent. fold c s1. cbv zeta.
  assert (Hd : exists s2 n, dequeueReady s1 = (s2, n) /\
    let next := (if n =? 0 then gIdleThread s2 else n) in
    next = hd (gIdleThread s) q /\ ~ (next ∈ tail q ++ sl) /\ next <> c /\ next <> 0 /\
    (forall x, x ∈ q -> x = next \/ x ∈ tail q) /\
    rep s2 (tail q) sl /\ meta s1 s2 /\ (forall x, t_state (th s2 x) = t_state (th s1 x))).
  { pose proof (meta_dequeue s1) as M. destruct q as [|n q].
    - rewrite (dequeueReady_empty s1 sl R). exists s1, 0. split; [done|]. cbn [Z.eqb hd tail].
      destruct (rp_idle _ _ _ R) as [Hi0 Hiq].
      split_and!; [done|exact Hiq|by apply not_eq_sym|done| |exact R|done|done].
      intros x Hx. by apply elem_of_nil in Hx.
    - destruct (dequeueReady_rep s1 n q sl R) as (E & R' & _ & _ & Hst & _).
      destruct (dequeueReady s1) as [s2 n']. cbn [fst snd] in *. subst n'. exists s2, n. split; [done|].
      assert (Hn0 : n <> 0) by apply (rp_ready _ _ _ R). destruct (Z.eqb_spec n 0); [done|].
      pose proof (rp_nodup _ _ _ R) as Hnd. simpl in Hnd. apply NoDup_cons in Hnd as [Hnq _].
      split_and!; try done.
      + intros ->. pose proof (rp_rstate _ _ _ R c ltac:(by left)). congruence.
      + intros x Hx. by apply elem_of_cons in Hx. }
  destruct Hd as (s2 & n & -> & Hnext & Hnq & Hnc & Hn0 & Hq & R2 & M & Hst).
  set (next := if n =? 0 then gIdleThread s2 else n) in *. clearbody next.
  destruct (switch_to_rep s2 (tail q) sl c next R2 Hnq) as (R3 & Ec & Er & Hoth).
  pose proof (meta_trans _ _ _ M (meta_switch s2 c next)) as M3.
  pose proof (mt_idle _ _ M3) as Ei. change (gIdleThread s1) with (gIdleThread s) in Ei.
  assert (Hst3 : forall x, x <> next -> t_state (th (switch_to s2 c next) x) = t_state (th s1 x))
    by (intros x Hx; by rewrite Hoth, Hst).
  split_and!; [|by rewrite Ec|by rewrite Hst3 by (by apply not_eq_sym)| |].
  2: { eapply meta_trans; [|exact M3]. by apply meta_upd. }
  2: { intros x Hx. destruct (decide (x = c)) as [->|Hxc]; [by rewrite Hst3 by (by apply not_eq_sym)|].
       assert (Hx1 : t_state (th s1 x) = THREAD_STATE_BLOCKED)
         by (unfold s1; rewrite th_upd; by destruct (Z.eqb_spec x c)).
       rewrite Hst3; [done|]. intros ->. destruct (decide (next ∈ q)) as [Hq1|Hq1].
       - rewrite (rp_rstate _ _ _ R _ Hq1) in Hx1. done.
       - assert (next = gIdleThread s) as -> by (destruct q; [done|]; exfalso; apply Hq1; rewrite Hnext; by left).
         destruct (pi_idle _ _ _ P) as [E|E]; change (gIdleThread s1) with (gIdleThread s) in E; congruence. }
  split; [|by rewrite Ec]. constructor; rewrite ?Ec, ?Ei; try done.
  - intros x Hx. destruct (decide (x = next)) as [->|Hne]; [done|]. rewrite Hst3 in Hx by done.
    pose proof (pi_run _ _ _ P x Hx) as Exc. change (gCurrentThread s1) with c in Exc. congruence.
  - intros x Hx. destruct (decide (x = next)) as [->|Hne]; [congruence|]. rewrite Hst3 in Hx by done.
    destruct (pi_ready _ _ _ P x Hx) as [Hxq|]; [|by right]. destruct (Hq x Hxq); [done|by left].
  - intros x Hx. destruct (decide (x = next)) as [->|Hne]; [congruence|]. rewrite Hst3 in Hx by done.
    by apply (pi_sleep _ _ _ P).
  - destruct (decide (gIdleThread s = next)) as [->|Hne]; [by right|]. rewrite Hst3 by done.
    apply (pi_idle _ _ _ P).
  - by rewrite Er.
  - intros x. rewrite (mt_preempt _ _ M3). apply (pi_preempt _ _ _ P).
Qed.

Lemma schedEnqueueReady_pre s q sl p : pre_inv s q sl -> p <> 0 -> p <> gCurrentThread s ->
  t_state (th s p) = THREAD_STATE_BLOCKED \/ t_state (th s p) = THREAD_STATE_UNUSED ->
  let s' := schedEnqueueReady s p in
  pre_inv s' (q ++ [p]) sl /\ gCurrentThread s' = gCurrentThread s /\
  t_state (th s' (gCurrentThread s)) = t_state (th s (gCurrentThread s)).
Proof.
  intros P Hp Hcp' Hb s'. subst s'. unfold schedEnqueueReady. pose proof (pi_rep _ _ _ P) as R.
  assert (Hpq : p ∉ q ++ sl).
  { intros [Hx|Hx]%elem_of_app; [rewrite (rp_rstate _ _ _ R p Hx) in Hb|rewrite (rp_sstate _ _ _ R p Hx) in Hb];
      by destruct Hb. }
  assert (Hpi : p <> gIdleThread s).
  { intros ->. destruct (pi_idle _ _ _ P) as [E|E]; rewrite E in Hb; by destruct Hb. }
  pose proof (enqueueReady_rep s q sl p R Hp Hpq Hpi) as R'. pose proof (meta_enqueue s p) as M.
  assert (Ec : gCurrentThread (enqueueReady s p) = gCurrentThread s)
    by (unfold enqueueReady; by destruct (negb (gReadyQueueTail s =? 0))).
  pose proof (mt_idle _ _ M) as Ei. pose proof (enqueueReady_state s p) as Hst.
  assert (Hcp : gCurrentThread s <> p) by (by apply not_eq_sym).
  split; [|rewrite Ec, Hst; by destruct (Z.eqb_spec (gCurrentThread s) p)].
  constructor; rewrite ?Ec, ?Ei; try done.
  - apply P.
  - intros x. rewrite Hst. destruct (Z.eqb_spec x p); [done|]. apply (pi_run _ _ _ P).
  - intros x. rewrite Hst, elem_of_app, list_elem_of_singleton. destruct (Z.eqb_spec x p); [auto|].
    intros Hx. destruct (pi_ready _ _ _ P x Hx); auto.
  - intros x. rewrite Hst. destruct (Z.eqb_spec x p); [done|]. apply (pi_sleep _ _ _ P).
  - rewrite Hst. destruct (Z.eqb_spec (gIdleThread s) p); [auto|]. apply (pi_idle _ _ _ P).
  - rewrite Hst. destruct (Z.eqb_spec (gCurrentThread s) p); [done|]. apply (pi_idlecur _ _ _ P).
  - rewrite Hst. destruct (Z.eqb_spec (gCurrentThread s) p); [done|]. apply (pi_curq _ _ _ P).
  - intros x. rewrite (mt_preempt _ _ M). apply (pi_preempt _ _ _ P).
Qed.

Lemma schedEnqueueReady_inv s q sl p : sched_inv s q sl -> p <> 0 ->
  t_state (th s p) = THREAD_STATE_BLOCKED \/ t_state (th s p) = THREAD_STATE_UNUSED ->
  sched_inv (schedEnqueueReady s p) (q ++ [p]) sl.
Proof.
  intros [P Hr] Hp Hb. assert (Hc : p <> gCurrentThread s) by (intros ->; rewrite Hr in Hb; by destruct Hb).
  destruct (schedEnqueueReady_pre s q sl p P Hp Hc Hb) as (P' & Ec & Es). split; [done|]. by rewrite Ec, Es.
Qed.

(** ** Creation and initialisation *)
Lemma create_inv s q sl proc entry arg tp stack : sched_inv s q sl -> tp <> 0 ->
  s_threads s !! tp = None -> proc <> 0 -> entry <> 0 -> stack <> 0 ->
  let r := schedCreateKernelThread s proc entry arg tp stack in
  r.2 = tp /\ sched_inv r.1 (q ++ [tp]) sl.
Proof.
  intros [P Hr] Htp Hfresh Hpr He Hs. unfold schedCreateKernelThread.
  destruct (Z.eqb_spec proc 0), (Z.eqb_spec entry 0), (Z.eqb_spec tp 0), (Z.eqb_spec stack 0); try done.
  cbn [orb fst snd]. split; [done|]. unfold new_thread. cbv zeta.
  set (t := mkThread _ _ _ _ _ _ _ _ _ _ _ _ _ _ _).
  set (p1 := mkProcess _ _ _ tp). set (sa := set_th _ tp t).
  assert (Hu : t_state (th s tp) = THREAD_STATE_UNUSED) by (unfold th; by rewrite Hfresh).
  assert (Hcur : gCurrentThread s <> tp) by (intros E; rewrite E in Hr; congruence).
  assert (Hpi : gIdleThread s <> tp) by (intros E; destruct (pi_idle _ _ _ P) as [E'|E']; rewrite E in E'; congruence).
  pose proof (pi_rep _ _ _ P) as R.
  assert (Hpq : tp ∉ q ++ sl).
  { intros [Hx|Hx]%elem_of_app; [rewrite (rp_rstate _ _ _ R tp Hx) in Hu|rewrite (rp_sstate _ _ _ R tp Hx) in Hu];
      done. }
  assert (Hth : forall x, th (set_proc sa proc p1) x = if x =? tp then t else th s x)
    by (intros x; apply (th_set_th (set_nextTid s (u32 (gNextTid s + 1))) tp t x)).
  set (sb := set_proc sa proc p1) in *.
  assert (Rb : rep sb q sl).
  { apply (rep_ext s); try done. intros x Hx. rewrite Hth. destruct (Z.eqb_spec x tp) as [->|]; done. }
  pose proof (enqueueReady_rep sb q sl tp Rb Htp Hpq (not_eq_sym Hpi)) as R'.
  pose proof (meta_enqueue sb tp) as M. pose proof (enqueueReady_state sb tp) as Hst.
  assert (Ec : gCurrentThread (enqueueReady sb tp) = gCurrentThread s)
    by (unfold enqueueReady; by destruct (negb (gReadyQueueTail sb =? 0))).
  pose proof (mt_idle _ _ M) as Ei. change (gIdleThread sb) with (gIdleThread s) in Ei.
  assert (Hst' : forall x, t_state (th (enqueueReady sb tp) x) =
            if x =? tp then THREAD_STATE_READY else t_state (th s x)).
  { intros x. rewrite Hst, Hth. by destruct (Z.eqb_spec x tp). }
  split; [|rewrite Ec, Hst'; by destruct (Z.eqb_spec (gCurrentThread s) tp)].
  constructor; rewrite ?Ec, ?Ei; try done.
  - apply P.
  - intros x. rewrite Hst'. destruct (Z.eqb_spec x tp); [done|]. apply (pi_run _ _ _ P).
  - intros x. rewrite Hst', elem_of_app, list_elem_of_singleton. destruct (Z.eqb_spec x tp); [auto|].
    intros Hx. destruct (pi_ready _ _ _ P x Hx); auto.
  - intros x. rewrite Hst'. destruct (Z.eqb_spec x tp); [done|]. apply (pi_sleep _ _ _ P).
  - rewrite Hst'. destruct (Z.eqb_spec (gIdleThread s) tp); [done|]. apply (pi_idle _ _ _ P).
  - intros _. rewrite Hst'. by destruct (Z.eqb_spec (gCurrentThread s) tp).
  - rewrite Hst'. destruct (Z.eqb_spec (gCurrentThread s) tp); [done|]. by rewrite Hr.
  - intros x. rewrite (mt_preempt _ _ M), Hth. destruct (x =? tp); [done|]. apply (pi_preempt _ _ _ P).
Qed.

(** The addresses the allocator returned to [schedInit] are usable. *)
Record init_args (kproc kthread idle stack entry : Z) : Prop := {
  ia_proc : kproc <> 0; ia_thread : kthread <> 0; ia_idle : idle <> 0; ia_stack : stack <> 0;
  ia_entry : entry <> 0; ia_ne : kthread <> idle }.

Lemma schedInit_inv kproc kthread idle stack entry pml4 : init_args kproc kthread idle stack entry ->
  sched_inv (schedInit kproc kthread idle stack entry pml4) [] [].
Proof.
  intros [H1 H2 H3 H4 H5 H6]. unfold schedInit, schedCreateKernelThread. cbv zeta.
  destruct (Z.eqb_spec kproc 0), (Z.eqb_spec entry 0), (Z.eqb_spec idle 0), (Z.eqb_spec stack 0); try done.
  cbn [orb]. unfold new_thread, enqueueReady. cbn [gReadyQueueTail set_proc set_th set_threads set_nextTid].
  cbn [Z.eqb negb]. unfold remove_idle.
  cbn [gIdleThread set_idle gReadyQueueHead set_ready upd set_th set_threads]. rewrite Z.eqb_refl.
  match goal with |- context [t_next (th ?s idle)] => set (si := s) end.
  assert (Hn : t_next (th si idle) = 0).
  { unfold si, th. simpl. by rewrite lookup_insert_eq. }
  rewrite Hn. cbn [Z.eqb negb].
  assert (Hi : th (set_ready si 0 0) idle = th si idle) by done.
  set (s' := upd (set_ready si 0 0) idle _).
  assert (Hth : forall x, t_state (th s' x) = if x =? idle then THREAD_STATE_READY
                 else if x =? kthread then THREAD_STATE_RUNNING else THREAD_STATE_UNUSED).
  { intros x. unfold s'. rewrite th_upd. destruct (Z.eqb_spec x idle); [done|].
    unfold th, si. simpl. rewrite !lookup_insert_ne by done.
    destruct (Z.eqb_spec x kthread) as [->|]; [by rewrite lookup_singleton_eq|].
    by rewrite lookup_singleton_ne. }
  assert (Hp : forall x, t_preemptCount (th s' x) = 0).
  { intros x. unfold s'. rewrite th_upd. destruct (Z.eqb_spec x idle).
    - unfold th, si. simpl. rewrite lookup_insert_eq. simpl. unfold th. simpl. by rewrite lookup_insert_eq.
    - unfold th, si. simpl. rewrite !lookup_insert_ne by done.
      destruct (Z.eqb_spec x kthread) as [->|]; [by rewrite lookup_singleton_eq|].
      by rewrite lookup_singleton_ne. }
  assert (Hk : t_state (th s' kthread) = THREAD_STATE_RUNNING).
  { rewrite Hth. destruct (Z.eqb_spec kthread idle); [done|]. by rewrite Z.eqb_refl. }
  split; [|exact Hk].
  constructor; try (change (gCurrentThread s') with kthread); try (change (gIdleThread s') with idle).
  - constructor; try done; try (by constructor).
    + intros x Hx. by apply elem_of_nil in Hx.
    + intros x Hx. by apply elem_of_nil in Hx.
    + split; [done|]. apply not_elem_of_nil.
  - done.
  - intros x. rewrite Hth. destruct (x =? idle); [done|]. by destruct (Z.eqb_spec x kthread).
  - intros x. rewrite Hth. destruct (Z.eqb_spec x idle); [by right|]. by destruct (x =? kthread).
  - intros x. rewrite Hth. destruct (x =? idle); [done|]. by destruct (x =? kthread).
  - left. by rewrite Hth, Z.eqb_refl.
  - done.
  - by rewrite Hk.
  - intros x. by rewrite Hp.
Qed.

(** ** Reachable states

    The steps a running system takes.  [schedSleep] and [schedThreadExit]
    release the lock before they call [schedule], so each is two steps: in
    between the current thread is no longer running by its state, and
    interrupts come: ticks, preemption, wake-ups.  The other steps are calls
    of the current thread, which is then running.  The guards are what the
    code relies on: the idle thread never sleeps, blocks or exits; a thread
    that sleeps or exits has preemption enabled; only blocked threads are
    woken; a new thread's address is fresh.  One guard is not kept by the
    code: the tick in between is not the one that ends the sleep under way
    ([sleep_race_loses_thread]). *)
Definition running (s : Sched) : Prop := t_state (th s (gCurrentThread s)) = THREAD_STATE_RUNNING.

Inductive sched_step : Sched -> Sched -> Prop :=
| step_schedule s : sched_step s (schedule s)
| step_preempt s fl : sched_step s (schedPreemptFromInterrupt s fl)
| step_tick s s' : (t_state (th s (gCurrentThread s)) = THREAD_STATE_SLEEPING ->
      expired (set_ticks s (u64 (gSchedTicks s + 1))) (gCurrentThread s) = false) ->
    schedTick s = Some s' -> sched_step s s'
| step_wake s p : p <> 0 -> t_state (th s p) = THREAD_STATE_BLOCKED ->
    sched_step s (schedEnqueueReady s p)
| step_yield s : running s -> sched_step s (schedYield s)
| step_disable s : running s -> sched_step s (schedPreemptDisable s)
| step_enable s : running s -> sched_step s (schedPreemptEnable s)
| step_sleep_queue s ticks : running s -> ticks <> 0 -> gCurrentThread s <> gIdleThread s ->
    t_preemptCount (th s (gCurrentThread s)) = 0 -> sched_step s (sleep_enqueue s ticks)
| step_block s : running s -> gCurrentThread s <> gIdleThread s -> sched_step s (schedBlockCurrent s)
| step_exit_mark s : running s -> gCurrentThread s <> gIdleThread s ->
    t_preemptCount (th s (gCurrentThread s)) = 0 -> sched_step s (exit_mark s)
| step_create s proc entry arg tp stack : running s -> s_threads s !! tp = None ->
    sched_step s (schedCreateKernelThread s proc entry arg tp stack).1.

Inductive sched_reach : Sched -> Prop :=
| reach_init kproc kthread idle stack entry pml4 : init_args kproc kthread idle stack entry ->
    sched_reach (schedInit kproc kthread idle stack entry pml4)
| reach_step s s' : sched_reach s -> sched_step s s' -> sched_reach s'.

(** The invariant, also between the halves of a sleep or an exit. *)
Definition window_inv (s : Sched) (q sl : list Z) : Prop :=
  pre_inv s q sl /\
  (running s \/ t_state (th s (gCurrentThread s)) = THREAD_STATE_SLEEPING \/
   t_state (th s (gCurrentThread s)) = THREAD_STATE_ZOMBIE).

Lemma window_of_inv s q sl : sched_inv s q sl -> window_inv s q sl.
Proof. intros [P Hr]. split; [done|by left]. Qed.

Lemma schedule_window s q sl : window_inv s q sl -> exists q', window_inv (schedule s) q' sl.
Proof.
  intros [P Hw]. destruct (Z_lt_ge_dec 0 (t_preemptCount (th s (gCurrentThread s)))).
  - exists q. rewrite schedule_preempt by (done || apply P). by split.
  - pose proof (pi_preempt _ _ _ P (gCurrentThread s)). exists (next_queue s q).
    apply window_of_inv, schedule_inv; [done|lia].
Qed.

Lemma sched_step_inv s s' q sl : sched_step s s' -> window_inv s q sl ->
  exists q' sl', window_inv s' q' sl'.
Proof.
  intros Hs W. pose proof W as [P Hw].
  destruct Hs as [s|s fl|s s' Hx E|s p H0 Hb|s Hr|s Hr|s Hr|s ticks Hr Ht Hi Hp|s Hr Hi|s Hr Hi Hp|s proc entry arg tp stack Hr Hf];
    try pose proof (conj P Hr : sched_inv s q sl) as I.
  - destruct (schedule_window s q sl W); eauto.
  - unfold schedPreemptFromInterrupt. destruct (_ || _); [eauto|].
    destruct fl as [r|]; [destruct (negb _); [eauto|]|]; destruct (schedule_window s q sl W); eauto.
  - destruct (schedTick_pre s q sl P) as (s1 & q' & sl' & E1 & P' & Ec & Es & _).
    { intros Hc. apply Hx, (rp_sstate _ _ _ (pi_rep _ _ _ P)), Hc. }
    simplify_eq. exists q', sl'. split; [done|]. unfold running. by rewrite Ec, Es.
  - destruct (schedEnqueueReady_pre s q sl p P H0) as (P' & Ec & Es); [|by left|].
    { intros ->. unfold running in Hw. rewrite Hb in Hw. by destruct Hw as [|[|]]. }
    exists (q ++ [p]), sl. split; [done|]. unfold running. by rewrite Ec, Es.
  - destruct (schedYield_inv s q sl I); eauto using window_of_inv.
  - exists q, sl. by apply window_of_inv, schedPreemptDisable_inv.
  - destruct (schedPreemptEnable_inv s q sl I); eauto using window_of_inv.
  - destruct (sleep_enqueue_inv s q sl ticks I Hi) as (P' & Ec & _). eexists _, _. split; [exact P'|].
    right. left. apply (rp_sstate _ _ _ (pi_rep _ _ _ P')). rewrite Ec. by left.
  - destruct (schedBlockCurrent_inv s q sl I) as [I' _]; eauto using window_of_inv.
  - unfold exit_mark. destruct (Z.eqb_spec (gCurrentThread s) 0) as [E|_]; [by destruct (pi_cur _ _ _ P)|].
    exists q, sl. split; [apply stop_current; auto|]. right. right. change (gCurrentThread (upd _ _ _)) with (gCurrentThread s). by rewrite th_upd, Z.eqb_refl.
  - destruct (decide (proc = 0 \/ entry = 0 \/ tp = 0 \/ stack = 0)) as [Hz|Hz].
    + exists q, sl. unfold schedCreateKernelThread.
      destruct (Z.eqb_spec proc 0), (Z.eqb_spec entry 0), (Z.eqb_spec tp 0), (Z.eqb_spec stack 0);
        try done. tauto.
    + destruct (create_inv s q sl proc entry arg tp stack I) as [_ I']; [tauto..|]. eauto using window_of_inv.
Qed.

Lemma sched_reach_inv s : sched_reach s -> exists q sl, window_inv s q sl.
Proof.
  induction 1 as [kp kt id st en pm Ha|s s' _ (q & sl & I) Hs].
  - exists [], []. by apply window_of_inv, schedInit_inv.
  - by apply (sched_step_inv s s' q sl).
Qed.

(** ** Properties *)

(** C4: in every reachable state, those between the two halves of a sleep or
    an exit included, there are lists [q] and [sl] that the two intrusive
    queues represent (linked both ways, no duplicates); no thread is lost or
    queued twice: the ready threads are exactly the ready queue (plus possibly
    the idle thread, which is never queued), the sleeping threads are exactly
    the sleep queue, and no thread but the current one is running; the current
    one is running unless it is about to switch away to sleep or to exit.
    Reachable: by the steps above, with their guards; a tick that falls
    between the halves of a sleep does not end that sleep. *)
Theorem sched_reachable_invariant s : sched_reach s ->
  exists q sl, rep s q sl /\
    (forall x, t_state (th s x) = THREAD_STATE_READY /\ x <> gIdleThread s <-> x ∈ q) /\
    (forall x, t_state (th s x) = THREAD_STATE_SLEEPING <-> x ∈ sl) /\
    (forall x, t_state (th s x) = THREAD_STATE_RUNNING -> x = gCurrentThread s) /\
    (running s \/ t_state (th s (gCurrentThread s)) = THREAD_STATE_SLEEPING \/
     t_state (th s (gCurrentThread s)) = THREAD_STATE_ZOMBIE).
Proof.
  intros Hr. destruct (sched_reach_inv s Hr) as (q & sl & P & Hrun). exists q, sl.
  pose proof (pi_rep _ _ _ P) as R. split_and!; [done| | | |done].
  - intros x. split.
    + intros [Hx Hi]. by destruct (pi_ready _ _ _ P x Hx).
    + intros Hx. split; [by apply (rp_rstate _ _ _ R)|]. intros ->.
      apply (rp_idle _ _ _ R), elem_of_app. by left.
  - intros x. split; [apply (pi_sleep _ _ _ P)|apply (rp_sstate _ _ _ R)].
  - apply (pi_run _ _ _ P).
Qed.

(** [schedule] is FIFO round robin: with preemption enabled it runs the
    head of the ready queue and puts the previous thread, when it was still
    running and is not the idle thread, at the tail; with an empty queue the
    current thread goes on, or the idle thread runs when it stopped.  With
    preemption disabled nothing changes. *)
Theorem schedule_round_robin s q sl : pre_inv s q sl ->
  (t_preemptCount (th s (gCurrentThread s)) = 0 ->
     gCurrentThread (schedule s) = next_thread s q /\
     sched_inv (schedule s) (next_queue s q) sl) /\
  (t_preemptCount (th s (gCurrentThread s)) <> 0 -> schedule s = s).
Proof.
  intros P. split.
  - intros Hp. destruct (schedule_inv s q sl P Hp) as (I & E & _). done.
  - intros Hp. apply schedule_preempt; [apply P|].
    pose proof (pi_preempt _ _ _ P (gCurrentThread s)). lia.
Qed.

(** [n] calls of [schedule]. *)
Fixpoint schedules (n : nat) (s : Sched) : Sched :=
  match n with O => s | S k => schedules k (schedule s) end.

(** C7: no starvation: when no thread disables preemption, the thread at
    position [k] of the ready queue runs after [k + 1] calls of [schedule]. *)
Theorem schedule_no_starvation q1 s p q2 sl :
  sched_inv s (q1 ++ p :: q2) sl -> (forall x, t_preemptCount (th s x) = 0) ->
  gCurrentThread (schedules (S (length q1)) s) = p.
Proof.
  revert s q2. induction q1 as [|n q1 IH]; intros s q2 [P Hr] Hp.
  - simpl. destruct (schedule_inv s _ sl P (Hp _)) as (_ & E & _). exact E.
  - destruct (schedule_inv s _ sl P (Hp _)) as (I & _ & M).
    cbn [app next_queue] in I. rewrite <- app_assoc in I. simpl in I.
    change (schedules (S (length (n :: q1))) s) with (schedules (S (length q1)) (schedule s)).
    apply (IH _ _ I). intros x. rewrite (mt_preempt _ _ M). apply Hp.
Qed.

(** [n] timer ticks. *)
Fixpoint ticks (n : nat) (s : Sched) : option Sched :=
  match n with O => Some s | S k => s1 ← schedTick s; ticks k s1 end.

Lemma ticks_inv n : forall s q sl, sched_inv s q sl -> gSchedTicks s + Z.of_nat n < 2 ^ 64 ->
  0 <= gSchedTicks s ->
  exists s' q' sl', ticks n s = Some s' /\ sched_inv s' q' sl' /\
    gSchedTicks s' = gSchedTicks s + Z.of_nat n /\
    (forall x, t_sleepTargetTicks (th s' x) = t_sleepTargetTicks (th s x)) /\
    (forall x, x ∈ q -> x ∈ q') /\
    (forall x, x ∈ sl -> x ∈ q' \/ (x ∈ sl' /\
       (n = O \/ gSchedTicks s + Z.of_nat n < t_sleepTargetTicks (th s x)))).
Proof.
  induction n as [|n IH]; intros s q sl I Hb H0.
  - exists s, q, sl. rewrite Z.add_0_r. simpl. split_and!; try done. auto.
  - destruct (schedTick_inv s q sl I) as (s1 & q1 & sl1 & E & I1 & _ & Eq & Es & M).
    cbv zeta in Eq, Es, M. set (s0 := set_ticks s (u64 (gSchedTicks s + 1))) in *.
    assert (Et : gSchedTicks s1 = gSchedTicks s + 1).
    { rewrite (mt_ticks _ _ M). simpl. apply u64_id. unfold is_u64. lia. }
    destruct (IH s1 q1 sl1 I1 ltac:(lia) ltac:(lia)) as (s' & q' & sl' & E' & I' & Et' & Htg & Hq & Hs).
    exists s', q', sl'. simpl. rewrite E. cbn [mbind option_bind].
    assert (Htg1 : forall x, t_sleepTargetTicks (th s1 x) = t_sleepTargetTicks (th s x))
      by (intros x; apply (mt_target _ _ M)).
    split_and!; try done; [lia| | |].
    + intros x. by rewrite Htg, Htg1.
    + intros x Hx. apply Hq. subst q1. apply elem_of_app. by left.
    + intros x Hx. apply (filter_split (expired s0)) in Hx as [Hx|Hx].
      * left. apply Hq. subst q1. apply elem_of_app. by right.
      * assert (Hlt : gSchedTicks s + 1 < t_sleepTargetTicks (th s x)).
        { apply list_elem_of_In, filter_In in Hx as [_ Hx]. unfold expired in Hx.
          change (gSchedTicks s0) with (u64 (gSchedTicks s + 1)) in Hx.
          rewrite u64_id in Hx by (unfold is_u64; lia). change (th s0 x) with (th s x) in Hx.
          apply negb_true_iff, Z.leb_gt in Hx. lia. }
        rewrite <- Es in Hx. destruct (Hs x Hx) as [?|[Hx' Hd]]; [by left|]. right. split; [done|].
        right. rewrite Htg1 in Hd. destruct Hd; lia.
Qed.

(** Sleepers wake: after enough ticks to reach its target (the tick
    counter not wrapping) a sleeping thread is in the ready queue, the ticks
    having all terminated. *)
Theorem sleepers_wake s q sl x n : sched_inv s q sl -> x ∈ sl -> n <> O ->
  0 <= gSchedTicks s -> gSchedTicks s + Z.of_nat n < 2 ^ 64 ->
  t_sleepTargetTicks (th s x) <= gSchedTicks s + Z.of_nat n ->
  exists s' q' sl', ticks n s = Some s' /\ sched_inv s' q' sl' /\ x ∈ q' /\
    t_state (th s' x) = THREAD_STATE_READY.
Proof.
  intros I Hx Hn H0 Hb Ht.
  destruct (ticks_inv n s q sl I Hb H0) as (s' & q' & sl' & E & I' & _ & _ & _ & Hs).
  exists s', q', sl'. destruct (Hs x Hx) as [Hq|[_ [?|?]]]; [|done|lia].
  split_and!; try done. apply (rp_rstate _ _ _ (pi_rep _ _ _ (proj1 I'))). done.
Qed.

(** ** Witnesses: a kernel with two more threads *)
Definition demo_init : Sched := schedInit 0x1000 0x2000 0x3000 0x4000 0x5000 0x6000.
Definition demo_sched1 : Sched :=
  (schedCreateKernelThread demo_init 0x1000 0x5100 1 0xA000 0xB000).1.
Definition demo_sched : Sched :=
  (schedCreateKernelThread demo_sched1 0x1000 0x5200 2 0xC000 0xD000).1.

Lemma demo_args : init_args 0x1000 0x2000 0x3000 0x4000 0x5000.
Proof. by constructor. Qed.

Lemma demo_inv1 : sched_inv demo_sched1 [0xA000] [].
Proof.
  apply (create_inv demo_init [] [] 0x1000 0x5100 1 0xA000 0xB000);
    [apply schedInit_inv, demo_args|discriminate|vm_compute; reflexivity|discriminate..].
Qed.

Lemma demo_inv : sched_inv demo_sched [0xA000; 0xC000] [].
Proof.
  apply (create_inv demo_sched1 [0xA000] [] 0x1000 0x5200 2 0xC000 0xD000);
    [apply demo_inv1|discriminate|vm_compute; reflexivity|discriminate..].
Qed.

Lemma demo_reach : sched_reach demo_sched.
Proof.
  apply (reach_step demo_sched1); [apply (reach_step demo_init)|].
  - apply reach_init, demo_args.
  - apply (step_create demo_init 0x1000 0x5100 1 0xA000 0xB000); vm_compute; reflexivity.
  - apply (step_create demo_sched1 0x1000 0x5200 2 0xC000 0xD000); vm_compute; reflexivity.
Qed.

(** A tick between the halves of a sleep of three. *)
Definition demo_window : Sched := default demo_sched (schedTick (sleep_enqueue demo_sched 3)).

Lemma demo_window_reach : sched_reach demo_window.
Proof.
  apply (reach_step (sleep_enqueue demo_sched 3)); [apply (reach_step demo_sched); [exact demo_reach|]|].
  - apply step_sleep_queue; vm_compute; congruence.
  - apply step_tick; [intros _|]; vm_compute; reflexivity.
Qed.

Lemma demo_preempt x : t_preemptCount (th demo_sched x) = 0.
Proof.
  unfold th. destruct (s_threads demo_sched !! x) as [t|] eqn:E; [|done]. simpl.
  revert x t E. apply map_Forall_to_list. vm_compute. repeat constructor.
Qed.

Lemma sched_reachable_invariant_witness :
  exists q sl, rep demo_window q sl /\ (0xC000 ∈ q) /\ 0x2000 ∈ sl.
Proof.
  destruct (sched_reachable_invariant demo_window demo_window_reach) as (q & sl & R & Hq & Hs & _).
  exists q, sl. split; [exact R|]. split; [apply Hq; split; [vm_compute; reflexivity|vm_compute; discriminate]|].
  apply Hs. vm_compute. reflexivity.
Defined.

Lemma schedule_round_robin_witness :
  gCurrentThread (schedule demo_sched) = 0xA000 /\
  sched_inv (schedule demo_sched) [0xC000; 0x2000] [].
Proof.
  destruct (schedule_round_robin demo_sched [0xA000; 0xC000] [] (proj1 demo_inv)) as [H _].
  apply H. vm_compute. reflexivity.
Defined.

Lemma schedule_no_starvation_witness : gCurrentThread (schedules 2 demo_sched) = 0xC000.
Proof. apply (schedule_no_starvation [0xA000] demo_sched 0xC000 [] []); [exact demo_inv|exact demo_preempt]. Defined.

Lemma demo_sleep_inv : sched_inv (schedSleep demo_sched 3) [0xC000] [0x2000].
Proof.
  destruct (schedSleep_inv demo_sched [0xA000; 0xC000] [] 3 demo_inv) as [q' I];
    [vm_compute; discriminate|discriminate|vm_compute; reflexivity|].
  assert (E : rep (schedSleep demo_sched 3) q' [0x2000]) by apply I.
  assert (q' = [0xC000]) as ->; [|exact I].
  pose proof (rp_ready _ _ _ E) as Hl. pose proof (rp_head _ _ _ E) as Hh.
  destruct q' as [|a q']; [vm_compute in Hh; discriminate|].
  assert (a = 0xC000) as -> by (vm_compute in Hh; congruence).
  destruct Hl as (_ & _ & Hn & Hl). destruct q' as [|b q']; [done|].
  exfalso. destruct Hl as (Hb & _). vm_compute in Hn. congruence.
Qed.

Lemma sleepers_wake_witness : exists s' q' sl', ticks 3 (schedSleep demo_sched 3) = Some s' /\
  sched_inv s' q' sl' /\ 0x2000 ∈ q' /\ t_state (th s' 0x2000) = THREAD_STATE_READY.
Proof.
  apply (sleepers_wake (schedSleep demo_sched 3) [0xC000] [0x2000] 0x2000 3).
  - exact demo_sleep_inv.
  - by left.
  - discriminate.
  - vm_compute. discriminate.
  - vm_compute. reflexivity.
  - vm_compute. discriminate.
Defined.

(** ** Interleavings and aliasing the code does not guard against *)

(** [schedSleep] enables interrupts between queueing the thread and calling
    [schedule].  When the tick that ends the sleep falls there and the thread
    is alone in the ready queue, [schedule] takes it off the queue, finds
    that it is the current thread and returns with its state still READY;
    the next switch does not re-queue it: it is in no queue and never runs
    again. *)
Theorem sleep_race_loses_thread :
  exists s1 s2 s3,
    schedTick (sleep_enqueue demo_init 1) = Some s1 /\ s2 = schedule s1 /\
    gCurrentThread s2 = 0x2000 /\ t_state (th s2 0x2000) = THREAD_STATE_READY /\
    s3 = schedule (schedCreateKernelThread s2 0x1000 0x5100 1 0xA000 0xB000).1 /\
    gCurrentThread s3 = 0xA000 /\ t_state (th s3 0x2000) = THREAD_STATE_READY /\
    gReadyQueueHead s3 = 0 /\ gSleepQueueHead s3 = 0.
Proof.
  eexists _, _, _. split; [vm_compute; reflexivity|]. split; [reflexivity|].
  split; [vm_compute; reflexivity|]. split; [vm_compute; reflexivity|]. split; [reflexivity|].
  split_and!; vm_compute; reflexivity.
Qed.

(** The thread list of a process uses the [next] field of the ready queue:
    after two creations the list from [proc->threads] has lost the older
    thread. *)
Theorem thread_list_clobbered :
  p_threads (pr demo_sched 0x1000) = 0xC000 /\ t_next (th demo_sched 0xC000) = 0 /\
  s_threads demo_sched !! 0xA000 <> None.
Proof. split_and!; vm_compute; congruence. Qed.
