(* ===== verification/Sync.v ===== *)
(** * Mutexes and wait queues (src/kernel/sync/sync.h, spinlock.h)

    The blocking primitives over the scheduler.  Waiters are chained through
    [waitNext], a field of the threads; the spin locks only delimit the
    atomic regions, which are single steps here.  [mutex_unlock] and
    [wait_queue_wake_all] leave the lock before they make threads ready: the
    model composes both parts, since nothing else touches a blocked waiter
    in between. *)

From Stdlib Require Import ZArith Lia Bool.
From stdpp Require Import base list gmap.
From S2P Require Import Prelude Sched SchedQueue SchedOps SchedInv.

Record Mutex := mkMutex { m_locked : bool; m_owner : Z; m_waitersHead : Z; m_waitersTail : Z }.
Definition mutex_init : Mutex := mkMutex false 0 0 0.

(** Appending the current thread to a chain with the given tail. *)
Definition wait_append (s : Sched) (tail : Z) : Sched :=
  let curr := gCurrentThread s in
  let s1 := upd s curr (fun t => with_waitNext t 0) in
  if negb (tail =? 0) then upd s1 tail (fun t => with_waitNext t curr) else s1.

Definition mutex_lock (s : Sched) (m : Mutex) : Sched * Mutex :=
  if negb (m_locked m) then
    (s, mkMutex true (gCurrentThread s) (m_waitersHead m) (m_waitersTail m))
  else
    let curr := gCurrentThread s in
    let s1 := wait_append s (m_waitersTail m) in
    let head := if negb (m_waitersTail m =? 0) then m_waitersHead m else curr in
    (schedBlockCurrent s1, mkMutex (m_locked m) (m_owner m) head curr).

Definition mutex_unlock (s : Sched) (m : Mutex) : Sched * Mutex :=
  if negb (m_waitersHead m =? 0) then
    let wake := m_waitersHead m in
    let head := t_waitNext (th s wake) in
    let tail := if head =? 0 then 0 else m_waitersTail m in
    let s1 := upd s wake (fun t => with_waitNext t 0) in
    (schedEnqueueReady s1 wake, mkMutex (m_locked m) wake head tail)
  else (s, mkMutex false 0 (m_waitersHead m) (m_waitersTail m)).

Record WaitQueue := mkWq { wq_head : Z; wq_tail : Z }.
Definition wait_queue_init : WaitQueue := mkWq 0 0.

(** The waiting half of [wait_event_timeout]: queue the current thread and
    block. *)
Definition wait_queue_wait (s : Sched) (w : WaitQueue) : Sched * WaitQueue :=
  let curr := gCurrentThread s in
  let s1 := wait_append s (wq_tail w) in
  let head := if negb (wq_tail w =? 0) then wq_head w else curr in
  (schedBlockCurrent s1, mkWq head curr).

Fixpoint wake_chain (fuel : nat) (s : Sched) (curr : Z) : option Sched :=
  if curr =? 0 then Some s
  else match fuel with
       | O => None
       | Datatypes.S k =>
           let next := t_waitNext (th s curr) in
           let s1 := upd s curr (fun t => with_waitNext t 0) in
           wake_chain k (schedEnqueueReady s1 curr) next
       end.

(** The fuel is the number of threads. *)
Definition wait_queue_wake_all (s : Sched) (w : WaitQueue) : option (Sched * WaitQueue) :=
  s' ← wake_chain (size (s_threads s)) s (wq_head w); Some (s', mkWq 0 0).

(** ** Chains of waiters *)
Fixpoint wchain (g : Z -> Thread) (h : Z) (l : list Z) : Prop :=
  match l with
  | [] => h = 0
  | x :: r => h = x /\ x <> 0 /\ wchain g (t_waitNext (g x)) r
  end.

(** A chain with its tail pointer, all of whose threads are blocked. *)
Record waiters (s : Sched) (head tail : Z) (l : list Z) : Prop := {
  wt_chain : wchain (th s) head l;
  wt_tail : tail = lst 0 l;
  wt_nodup : NoDup l;
  wt_blocked : forall x, x ∈ l -> t_state (th s x) = THREAD_STATE_BLOCKED
}.

Lemma wchain_ext g g' h l : wchain g h l ->
  (forall x, x ∈ l -> t_waitNext (g' x) = t_waitNext (g x)) -> wchain g' h l.
Proof.
  revert h. induction l as [|x r IH]; intros h Hw He; simpl in *; [done|].
  destruct Hw as (-> & H0 & Hw). split_and!; try done. rewrite He by (by left).
  apply IH; [done|]. intros y Hy. apply He. by right.
Qed.

Lemma wchain_nonzero g h l x : wchain g h l -> x ∈ l -> x <> 0.
Proof.
  revert h. induction l as [|y r IH]; intros h Hw Hx; [by apply elem_of_nil in Hx|].
  destruct Hw as (-> & H0 & Hw). apply elem_of_cons in Hx as [->|Hx]; eauto.
Qed.

(** Linking a new last element. *)
Lemma wchain_snoc g g' h l c : wchain g h l -> NoDup l -> c ∉ l -> c <> 0 -> t_waitNext (g' c) = 0 ->
  (forall x, x ∈ l -> t_waitNext (g' x) = if x =? lst 0 l then c else t_waitNext (g x)) ->
  wchain g' (if bool_decide (l = []) then c else h) (l ++ [c]).
Proof.
  revert h. induction l as [|x r IH]; intros h Hw Hnd Hc H0 Hg He.
  - simpl. done.
  - destruct Hw as (-> & Hx & Hw). apply NoDup_cons in Hnd as [Hxr Hnd]. simpl.
    split_and!; try done. destruct r as [|y r].
    + simpl. split_and!; try done. rewrite He by (by left). simpl. by rewrite Z.eqb_refl.
    + assert (Hl : forall p, lst p (y :: r) = lst 0 (y :: r)) by done.
      rewrite He by (by left). simpl lst at 1.
      destruct (Z.eqb_spec x (lst y r)) as [E|_].
      { exfalso. apply Hxr. rewrite E. by apply (lst_in 0 (y :: r)). }
      apply (IH _ Hw); try done.
      * intros Hin. apply Hc. by right.
      * intros z Hz. rewrite He by (by right). done.
Qed.

Lemma wait_append_th s tail x : gCurrentThread s <> tail ->
  let c := gCurrentThread s in
  th (wait_append s tail) x =
  if x =? c then with_waitNext (th s c) 0
  else if negb (tail =? 0) && (x =? tail) then with_waitNext (th s tail) c else th s x.
Proof.
  intros Hne c. unfold wait_append. fold c.
  destruct (Z.eqb_spec tail 0) as [->|H0]; cbn [negb andb]; rewrite ?th_upd; [done|].
  destruct (Z.eqb_spec x tail) as [->|], (Z.eqb_spec tail c); try done; congruence.
Qed.

Lemma waitNext_harmless x : harmless (fun t => with_waitNext t x).
Proof. by intros t. Qed.

Lemma wait_append_inv s q sl tail : sched_inv s q sl -> sched_inv (wait_append s tail) q sl.
Proof.
  intros I. unfold wait_append. destruct (negb (tail =? 0)); repeat apply inv_upd; try done.
Qed.

(** Queueing the current thread and blocking it. *)
Lemma wait_block s q sl head tail l : sched_inv s q sl -> gCurrentThread s <> gIdleThread s ->
  waiters s head tail l ->
  let c := gCurrentThread s in
  let s' := schedBlockCurrent (wait_append s tail) in
  sched_inv s' (List.tail q) sl /\ gCurrentThread s' = hd (gIdleThread s) q /\
  waiters s' (if negb (tail =? 0) then head else c) c (l ++ [c]).
Proof.
  intros I Hi [Hch Ht Hnd Hbl] c s'. set (s1 := wait_append s tail) in *.
  assert (Hcl : c ∉ l) by (intros Hx; pose proof (Hbl _ Hx) as E; pose proof (proj2 I); unfold c in *; congruence).
  assert (Hl0 : tail = 0 <-> l = []).
  { subst tail. split; [|by intros ->]. destruct l as [|y l]; [done|]. intros E. exfalso.
    apply (wchain_nonzero _ _ _ (lst 0 (y :: l)) Hch); [by apply lst_in|done]. }
  assert (Hct : c <> tail).
  { intros E. subst tail. destruct l as [|y l]; [by apply (pi_cur _ _ _ (proj1 I))|].
    apply Hcl. unfold c in *. rewrite E. by apply lst_in. }
  assert (I1 : sched_inv s1 q sl) by (by apply wait_append_inv).
  assert (Ec1 : gCurrentThread s1 = c /\ gIdleThread s1 = gIdleThread s)
    by (unfold s1, wait_append; by destruct (negb (tail =? 0))).
  destruct Ec1 as [Ec1 Ei1].
  destruct (schedBlockCurrent_inv s1 q sl I1) as (I' & Ecur & Hcb & M & Hb'); [by rewrite Ec1, Ei1|].
  rewrite Ei1 in Ecur. rewrite Ec1 in Hcb. split_and!; [done|done|].
  assert (Hst1 : forall x, t_state (th s1 x) = t_state (th s x)).
  { intros x. unfold s1. rewrite wait_append_th by done. fold c.
    destruct (Z.eqb_spec x c) as [->|]; [done|].
    destruct (negb (tail =? 0) && (x =? tail)) eqn:E; [|done]. breflect. by subst x. }
  assert (Hw : forall x, x ∈ l -> t_waitNext (th s' x) = if x =? lst 0 l then c else t_waitNext (th s x)).
  { intros x Hx. unfold s'. rewrite (mt_wait _ _ M). unfold s1. rewrite wait_append_th by done. fold c.
    destruct (Z.eqb_spec x c) as [->|]; [done|].
    destruct (Z.eqb_spec tail 0) as [E|E]; [apply Hl0 in E; subst l; by apply elem_of_nil in Hx|].
    cbn [negb andb]. rewrite <- Ht. by destruct (Z.eqb_spec x tail) as [->|]. }
  assert (Hwc : t_waitNext (th s' c) = 0).
  { unfold s'. rewrite (mt_wait _ _ M). unfold s1. rewrite wait_append_th by done. fold c. by rewrite Z.eqb_refl. }
  constructor.
  - pose proof (wchain_snoc (th s) (th s') head l c Hch Hnd Hcl (pi_cur _ _ _ (proj1 I)) Hwc Hw) as Hs.
    destruct (Z.eqb_spec tail 0) as [E|E]; cbn [negb].
    + apply Hl0 in E. subst l. exact Hs.
    + rewrite bool_decide_false in Hs; [exact Hs|]. intros E'. apply E. by apply Hl0.
  - by rewrite lst_app.
  - apply NoDup_app. split_and!; [done| |apply NoDup_singleton].
    intros x Hx Hx'. apply list_elem_of_singleton in Hx' as ->. done.
  - intros x [Hx|Hx]%elem_of_app.
    + apply Hb'. rewrite Hst1. by apply Hbl.
    + by apply list_elem_of_singleton in Hx as ->.
Qed.

(** Waking one blocked waiter. *)
Lemma wake_first s q sl c : sched_inv s q sl -> c <> 0 -> t_state (th s c) = THREAD_STATE_BLOCKED ->
  let s' := schedEnqueueReady (upd s c (fun t => with_waitNext t 0)) c in
  sched_inv s' (q ++ [c]) sl /\
  (forall x, x <> c -> t_waitNext (th s' x) = t_waitNext (th s x) /\ t_state (th s' x) = t_state (th s x)).
Proof.
  intros I Hc Hb s'. set (s1 := upd s c (fun t => with_waitNext t 0)) in *.
  assert (I1 : sched_inv s1 q sl) by (by apply inv_upd).
  assert (Hb1 : t_state (th s1 c) = THREAD_STATE_BLOCKED) by (unfold s1; by rewrite th_upd, Z.eqb_refl).
  split; [apply schedEnqueueReady_inv; auto|]. intros x Hx. unfold s', schedEnqueueReady.
  rewrite (mt_wait _ _ (meta_enqueue s1 c)), enqueueReady_state. unfold s1. rewrite th_upd.
  destruct (Z.eqb_spec x c); done.
Qed.

Lemma waiters_pop s s' head tail c l : waiters s head tail (c :: l) ->
  (forall x, x <> c -> t_waitNext (th s' x) = t_waitNext (th s x) /\ t_state (th s' x) = t_state (th s x)) ->
  waiters s' (t_waitNext (th s c)) (if t_waitNext (th s c) =? 0 then 0 else tail) l.
Proof.
  intros [Hch Ht Hnd Hbl] He. apply NoDup_cons in Hnd as [Hcl Hnd]. destruct Hch as (-> & Hc & Hch).
  assert (Hne : forall x, x ∈ l -> x <> c) by (intros x Hx ->; done).
  constructor; try done.
  - apply (wchain_ext (th s)); [done|]. intros x Hx. by apply He, Hne.
  - destruct l as [|y l]; [simpl in Hch; rewrite Hch; done|].
    destruct Hch as (Ey & Hy & _). rewrite Ey. destruct (Z.eqb_spec y 0); [done|]. by rewrite Ht.
  - intros x Hx. destruct (He x (Hne x Hx)) as [_ ->]. apply Hbl. by right.
Qed.

(** ** The mutex invariant: waiters are blocked threads in FIFO order; a free
    mutex has none and no owner; a held one has an owner that does not wait
    for it. *)
Definition mutex_ok (s : Sched) (m : Mutex) (l : list Z) : Prop :=
  waiters s (m_waitersHead m) (m_waitersTail m) l /\
  (if m_locked m then m_owner m <> 0 /\ m_owner m ∉ l else l = [] /\ m_owner m = 0).

(** ** Properties *)

(** [mutex_lock] on a free mutex makes the caller the owner and changes
    no thread; on a held mutex the caller becomes the last waiter, blocks,
    the owner stays, and the head of the ready queue (or the idle thread)
    runs.  The mutex and scheduler invariants are kept. *)
Theorem mutex_lock_correct s q sl m l : sched_inv s q sl -> mutex_ok s m l ->
  gCurrentThread s <> gIdleThread s -> m_owner m <> gCurrentThread s ->
  let '(s', m') := mutex_lock s m in
  m_locked m' = true /\
  if m_locked m then
    m_owner m' = m_owner m /\ mutex_ok s' m' (l ++ [gCurrentThread s]) /\
    sched_inv s' (tail q) sl /\ gCurrentThread s' = hd (gIdleThread s) q
  else s' = s /\ m_owner m' = gCurrentThread s /\ mutex_ok s' m' [].
Proof.
  intros I [Hw Hm] Hi Ho. unfold mutex_lock. destruct (m_locked m) eqn:El; cbn [negb].
  - destruct (wait_block s q sl _ _ l I Hi Hw) as (I' & Ec & Hw'). destruct Hm as [Hm0 Hml].
    assert (Hol : m_owner m ∉ l ++ [gCurrentThread s]).
    { intros [Hx|Hx]%elem_of_app; [done|]. by apply list_elem_of_singleton in Hx. }
    split; [done|]. split; [done|]. split; [|done]. split; [exact Hw'|done].
  - destruct Hm as [-> _]. split; [done|]. split; [done|]. split; [done|].
    split; [exact Hw|]. split; [apply (pi_cur _ _ _ (proj1 I))|apply not_elem_of_nil].
Qed.

(** [mutex_unlock] hands the mutex to the first waiter: it becomes the
    owner while the mutex stays locked, leaves the waiters and joins the end
    of the ready queue; with no waiter the mutex becomes free.  The mutex is
    thus never free while a thread waits for it, and never has two owners. *)
Theorem mutex_unlock_correct s q sl m l : sched_inv s q sl -> mutex_ok s m l -> m_locked m = true ->
  let '(s', m') := mutex_unlock s m in
  match l with
  | w :: r => m_locked m' = true /\ m_owner m' = w /\ mutex_ok s' m' r /\
      sched_inv s' (q ++ [w]) sl /\ t_state (th s' w) = THREAD_STATE_READY
  | [] => s' = s /\ m_locked m' = false /\ mutex_ok s' m' []
  end.
Proof.
  intros I [Hw Hm] El. unfold mutex_unlock. rewrite El in Hm. destruct Hm as [Ho Hol].
  pose proof (wt_chain _ _ _ _ Hw) as Hch. destruct l as [|w r].
  - simpl in Hch. rewrite Hch. cbn [Z.eqb negb]. split_and!; try done. simpl. rewrite <- Hch. done.
  - destruct (Hch) as (Eh & Hw0 & _). rewrite Eh in *. destruct (Z.eqb_spec w 0); [done|]. cbn [negb].
    assert (Hb : t_state (th s w) = THREAD_STATE_BLOCKED) by (apply (wt_blocked _ _ _ _ Hw); by left).
    destruct (wake_first s q sl w I Hw0 Hb) as [I' He].
    pose proof (waiters_pop s _ _ _ w r Hw He) as Hw'. split_and!; try done.
    + simpl. rewrite El. split; [done|]. pose proof (wt_nodup _ _ _ _ Hw) as Hn.
      by apply NoDup_cons in Hn as [? _].
    + apply (rp_rstate _ _ _ (pi_rep _ _ _ (proj1 I'))), elem_of_app. right. by left.
Qed.

Lemma wake_chain_spec l : forall fuel s q sl h t, sched_inv s q sl -> waiters s h t l ->
  (length l <= fuel)%nat ->
  exists s', wake_chain fuel s h = Some s' /\ sched_inv s' (q ++ l) sl.
Proof.
  induction l as [|w r IH]; intros fuel s q sl h t I Hw Hf.
  - pose proof (wt_chain _ _ _ _ Hw) as Hc. simpl in Hc. subst h. exists s. rewrite app_nil_r.
    by destruct fuel.
  - destruct (wt_chain _ _ _ _ Hw) as (-> & Hw0 & _). destruct fuel as [|k]; [simpl in Hf; lia|].
    cbn [wake_chain]. destruct (Z.eqb_spec w 0); [done|].
    assert (Hb : t_state (th s w) = THREAD_STATE_BLOCKED) by (apply (wt_blocked _ _ _ _ Hw); by left).
    destruct (wake_first s q sl w I Hw0 Hb) as [I' He].
    pose proof (waiters_pop s _ _ _ w r Hw He) as Hw'. simpl in Hf.
    destruct (IH k _ _ sl _ _ I' Hw' ltac:(lia)) as (s' & E & I''). exists s'. split; [exact E|].
    by rewrite <- app_assoc in I''.
Qed.

(** [wait_queue_wake_all] terminates, empties the wait queue and appends
    all its waiters to the ready queue in the order they arrived. *)
Theorem wait_queue_wake_all_correct s q sl w l : sched_inv s q sl ->
  waiters s (wq_head w) (wq_tail w) l ->
  exists s', wait_queue_wake_all s w = Some (s', wait_queue_init) /\ sched_inv s' (q ++ l) sl /\
    forall x, x ∈ l -> t_state (th s' x) = THREAD_STATE_READY.
Proof.
  intros I Hw. unfold wait_queue_wake_all.
  assert (Hf : (length l <= size (s_threads s))%nat).
  { apply nodup_in_dom; [apply (wt_nodup _ _ _ _ Hw)|]. intros x Hx.
    pose proof (wt_blocked _ _ _ _ Hw x Hx) as Hs. unfold th in Hs. destruct (s_threads s !! x); [eauto|done]. }
  destruct (wake_chain_spec l _ s q sl _ _ I Hw Hf) as (s' & -> & I'). exists s'. split_and!; try done.
  intros x Hx. apply (rp_rstate _ _ _ (pi_rep _ _ _ (proj1 I'))), elem_of_app. by right.
Qed.

(** ** Witnesses *)
Lemma mutex_init_ok s : mutex_ok s mutex_init [].
Proof. split; [|done]. constructor; try done; [constructor|]. intros x Hx. by apply elem_of_nil in Hx. Qed.

(** The kernel thread holds the mutex, the next thread wants it. *)
Definition demo_held : Mutex := mkMutex true 0x2000 0 0.
Definition demo_locked : Sched := schedule demo_sched.

Lemma demo_locked_inv : sched_inv demo_locked [0xC000; 0x2000] [].
Proof. apply (schedule_inv demo_sched [0xA000; 0xC000] [] (proj1 demo_inv)). vm_compute. reflexivity. Qed.

Lemma demo_held_ok s : mutex_ok s demo_held [].
Proof.
  split; [|split; [done|apply not_elem_of_nil]]. constructor; try done; [constructor|].
  intros x Hx. by apply elem_of_nil in Hx.
Qed.

Lemma mutex_lock_correct_witness :
  m_owner (mutex_lock demo_locked demo_held).2 = 0x2000 /\
  gCurrentThread (mutex_lock demo_locked demo_held).1 = 0xC000.
Proof.
  pose proof (mutex_lock_correct demo_locked [0xC000; 0x2000] [] demo_held [] demo_locked_inv
    (demo_held_ok _) ltac:(vm_compute; discriminate) ltac:(vm_compute; discriminate)) as H.
  destruct (mutex_lock demo_locked demo_held) as [s' m']. destruct H as (_ & H1 & _ & _ & H2).
  split; [exact H1|exact H2].
Defined.

Definition demo_contended : Sched * Mutex := mutex_lock demo_locked demo_held.

Lemma demo_contended_ok : sched_inv demo_contended.1 [0x2000] [] /\
  mutex_ok demo_contended.1 demo_contended.2 [0xA000].
Proof.
  destruct (wait_block demo_locked [0xC000; 0x2000] [] 0 0 [] demo_locked_inv) as (I & _ & Hw).
  - vm_compute. discriminate.
  - apply (demo_held_ok demo_locked).
  - split; [exact I|]. split; [exact Hw|]. split; [done|].
    intros Hx. apply list_elem_of_singleton in Hx. vm_compute in Hx. discriminate.
Qed.

Lemma mutex_unlock_correct_witness :
  m_owner (mutex_unlock demo_contended.1 demo_contended.2).2 = 0xA000 /\
  sched_inv (mutex_unlock demo_contended.1 demo_contended.2).1 [0x2000; 0xA000] [].
Proof.
  pose proof (mutex_unlock_correct demo_contended.1 [0x2000] [] demo_contended.2 [0xA000]
    (proj1 demo_contended_ok) (proj2 demo_contended_ok) ltac:(vm_compute; reflexivity)) as H.
  destruct (mutex_unlock demo_contended.1 demo_contended.2) as [s' m']. destruct H as (_ & H1 & _ & H2 & _).
  split; [exact H1|exact H2].
Defined.

Lemma wait_queue_wake_all_correct_witness : exists s',
  wait_queue_wake_all demo_contended.1 (mkWq 0xA000 0xA000) = Some (s', wait_queue_init) /\
  t_state (th s' 0xA000) = THREAD_STATE_READY.
Proof.
  destruct (wait_queue_wake_all_correct demo_contended.1 [0x2000] [] (mkWq 0xA000 0xA000) [0xA000]
    (proj1 demo_contended_ok)) as (s' & E & _ & H).
  - apply demo_contended_ok.
  - exists s'. split; [exact E|]. apply H. by left.
Defined.
