(* ===== verification/Block.v ===== *)
(** * Byte buffers and the block-device interface

    Little-endian fields of byte buffers, and what the partition and file
    system code uses of the NVMe driver (src/kernel/krdrivers/nvme/nvme.h,
    [nvme_read]): reading [count] blocks at an LBA either fails or fills
    [count] times the block size bytes, block by block. *)

From Stdlib Require Import ZArith Lia Bool.
From stdpp Require Import base list.
From S2P Require Import Prelude.

(** ** Buffers *)
Definition is_byte (b : Z) : Prop := 0 <= b < 256.

Definition byte_at (l : list Z) (i : Z) : Z := nth (Z.to_nat i) l 0.
Definition bytes_from (l : list Z) (off n : Z) : list Z := take (Z.to_nat n) (drop (Z.to_nat off) l).

Fixpoint le (n : nat) (l : list Z) (off : Z) : Z :=
  match n with
  | O => 0
  | S k => byte_at l off + 256 * le k l (off + 1)
  end.
Definition le16 := le 2.
Definition le32 := le 4.
Definition le64 := le 8.

(** The bytes of a number, lowest first. *)
Fixpoint le_bytes (n : nat) (v : Z) : list Z :=
  match n with O => [] | S k => v mod 256 :: le_bytes k (v / 256) end.

Lemma byte_at_range l i : Forall is_byte l -> 0 <= byte_at l i < 256.
Proof.
  intros Hl. unfold byte_at. destruct (nth_in_or_default (Z.to_nat i) l 0) as [Hin| ->]; [|lia].
  apply list_elem_of_In in Hin. rewrite Forall_forall in Hl. by apply Hl.
Qed.

Lemma le_range n l off : Forall is_byte l -> 0 <= le n l off < 256 ^ Z.of_nat n.
Proof.
  intros Hl. revert off. induction n as [|n IH]; intros off; [simpl; lia|].
  cbn [le]. pose proof (byte_at_range l off Hl). specialize (IH (off + 1)).
  rewrite Nat2Z.inj_succ, Z.pow_succ_r by lia. lia.
Qed.

Lemma byte_at_app_l a b i : 0 <= i < Z.of_nat (length a) -> byte_at (a ++ b) i = byte_at a i.
Proof. intros Hi. unfold byte_at. apply app_nth1. lia. Qed.

Lemma le_bytes_ok n : forall v, Forall is_byte (le_bytes n v) /\ length (le_bytes n v) = n.
Proof.
  induction n as [|n IH]; intros v; [by split|]. cbn [le_bytes length]. destruct (IH (v / 256)) as [H1 H2]. rewrite H2. split; [|done].
  constructor; [apply Z.mod_pos_bound; lia|done].
Qed.

(** ** The device *)
Class BlockDevice (D : Type) := {
  bd_block_size : D -> Z;
  (** [nvme_read dev lba count]: the bytes read, or an error *)
  nvme_read : D -> Z -> Z -> option (list Z)
}.

Class BlockDeviceLaws (D : Type) `{BlockDevice D} := {
  bd_size d : 0 < bd_block_size d < 2 ^ 32;
  bd_length d lba count b : nvme_read d lba count = Some b -> 0 <= count ->
    Z.of_nat (length b) = count * bd_block_size d;
  bd_bytes d lba count b : nvme_read d lba count = Some b -> Forall is_byte b
}.

(** A device of blocks held in memory. *)
Record RamDisk := mkDisk { rd_bs : Z; rd_blocks : list (list Z) }.

(** Block [i], cut or padded to the block size. *)
Definition ram_block (d : RamDisk) (i : Z) : list Z :=
  map (fun b => b mod 256) (take (Z.to_nat (rd_bs d))
    (nth (Z.to_nat i) (rd_blocks d) [] ++ repeat 0 (Z.to_nat (rd_bs d)))).

Definition ram_bs (d : RamDisk) : Z := if (0 <? rd_bs d) && (rd_bs d <? 2 ^ 32) then rd_bs d else 512.

#[export] Instance ram_device : BlockDevice RamDisk := {
  bd_block_size := ram_bs;
  nvme_read d lba count :=
    if (0 <=? lba) && (0 <=? count) && (lba + count <=? Z.of_nat (length (rd_blocks d)))
    then Some (flat_map (fun i => ram_block (mkDisk (ram_bs d) (rd_blocks d)) (lba + i)) (seqZ 0 count))
    else None
}.

Lemma ram_block_length d i : 0 <= rd_bs d -> length (ram_block d i) = Z.to_nat (rd_bs d).
Proof.
  intros H. unfold ram_block. rewrite length_map, length_take, length_app, repeat_length. lia.
Qed.

Lemma ram_bs_range d : 0 < ram_bs d < 2 ^ 32.
Proof.
  unfold ram_bs. destruct (Z.ltb_spec 0 (rd_bs d)), (Z.ltb_spec (rd_bs d) (2 ^ 32)); simpl; lia.
Qed.

#[export] Instance ram_device_laws : BlockDeviceLaws RamDisk.
Proof.
  constructor.
  - apply ram_bs_range.
  - intros d lba count b. simpl. destruct (_ && _); [|done]. intros [= <-] Hc.
    pose proof (ram_bs_range d) as Hb.
    assert (Hl : forall l, Z.of_nat (length (flat_map (fun i => ram_block (mkDisk (ram_bs d) (rd_blocks d)) (lba + i)) l)) =
              Z.of_nat (length l) * ram_bs d).
    { induction l as [|x l IH]; [done|]. cbn [flat_map]. rewrite length_app.
      rewrite ram_block_length by (simpl; lia). simpl rd_bs.
      cbn [length]. rewrite Nat2Z.inj_add, IH. lia. }
    rewrite Hl, length_seqZ. lia.
  - intros d lba count b. simpl. destruct (_ && _); [|done]. intros [= <-].
    apply Forall_forall. intros x Hx. apply list_elem_of_In, in_flat_map in Hx as (i & _ & Hx). unfold ram_block in Hx.
    apply in_map_iff in Hx as (y & <- & _). apply Z.mod_pos_bound. lia.
Qed.
