(* ===== verification/Gpt.v ===== *)
(** * The GUID partition table (src/kernel/krdrivers/fs/gpt.c)

    Parsing of the table from a block device: signature, header and entry
    array checksums, and the list of used partitions.  A buffer is a list of
    bytes; [kmalloc] is the outcome of a request by its size; messages
    printed on the console are left out, and so is [gpt_dump], which only
    prints. *)

From Stdlib Require Import ZArith Lia Bool.
From stdpp Require Import base list.
From S2P Require Import Prelude Block.

Definition GPT_SIGNATURE : Z := 0x5452415020494645.
Definition sizeof_GptHeader : Z := 92.
Definition sizeof_GptRawEntry : Z := 128.
Definition sizeof_GptPartition : Z := 104.

Definition g_guid_esp : list Z :=
  [0x28; 0x73; 0x2A; 0xC1; 0x1F; 0xF8; 0xD2; 0x11; 0xBA; 0x4B; 0x00; 0xA0; 0xC9; 0x3E; 0xC9; 0x3B].
Definition g_guid_basic_data : list Z :=
  [0xA2; 0xA0; 0xD0; 0xEB; 0xE5; 0xB9; 0x33; 0x44; 0x87; 0xC0; 0x68; 0xB6; 0xB7; 0x26; 0x99; 0xC7].
Definition g_guid_zero : list Z := repeat 0 16.

(** ** Checksums *)
Definition crc_shift (crc : Z) : Z :=
  Z.lxor (Z.shiftr crc 1) (Z.land 0xEDB88320 (u32 (- Z.land crc 1))).

Definition crc_byte (crc b : Z) : Z := Nat.iter 8 crc_shift (Z.lxor crc b).

Definition crc32 (buf : list Z) (length : Z) : Z :=
  u32 (Z.lnot (fold_left crc_byte (take (Z.to_nat length) buf) 0xFFFFFFFF)).

(** ** GUIDs and names *)
Fixpoint guid_loop (n : nat) (i : Z) (a b : list Z) : bool :=
  match n with
  | O => true
  | S k => if negb (byte_at a i =? byte_at b i) then false else guid_loop k (i + 1) a b
  end.
Definition guid_equal (a b : list Z) : bool := guid_loop 16 0 a b.

(** [src] is the array of 16-bit units; the result is the C string. *)
Fixpoint utf16le_to_ascii (src : list Z) (max_chars : nat) : list Z :=
  match max_chars, src with
  | S k, ch :: r => if ch =? 0 then [] else (if ch <? 0x80 then ch else 63) :: utf16le_to_ascii r k
  | _, _ => []
  end.

Record GptPartition := mkPart {
  type_guid : list Z; unique_guid : list Z; starting_lba : Z; ending_lba : Z;
  sector_count : Z; p_attributes : Z; p_name : list Z }.

Record GptTable := mkTable {
  partitions : list GptPartition; g_block_size : Z; first_usable_lba : Z; last_usable_lba : Z;
  disk_guid : list Z }.

Definition gpt_is_esp (p : GptPartition) : bool := guid_equal (type_guid p) g_guid_esp.
Definition gpt_is_basic_data (p : GptPartition) : bool := guid_equal (type_guid p) g_guid_basic_data.

Fixpoint find_part (f : GptPartition -> bool) (l : list GptPartition) : option GptPartition :=
  match l with [] => None | p :: r => if f p then Some p else find_part f r end.
Definition gpt_find_esp (t : GptTable) : option GptPartition := find_part gpt_is_esp (partitions t).
Definition gpt_find_basic_data (t : GptTable) : option GptPartition :=
  find_part gpt_is_basic_data (partitions t).

(** ** Raw entries *)
Definition u16_array (l : list Z) (off : Z) (n : nat) : list Z :=
  map (fun i => le16 l (off + 2 * Z.of_nat i)) (seq 0 n).

(** The raw entry at a buffer offset. *)
Definition raw_guid (buf : list Z) (off : Z) : list Z := bytes_from buf off 16.
Definition raw_partition (buf : list Z) (off : Z) : GptPartition :=
  let s := le64 buf (off + 32) in
  let e := le64 buf (off + 40) in
  mkPart (raw_guid buf off) (bytes_from buf (off + 16) 16) s e
    (if s <=? e then u64 (e - s + 1) else 0) (le64 buf (off + 48))
    (utf16le_to_ascii (u16_array buf (off + 56) 36) 36).

(** The entry loops: [i * entry_size] is a 32-bit product. *)
Definition entry_offset (i entry_size : Z) : Z := u32 (i * entry_size).
Definition entry_used (buf : list Z) (entry_size i : Z) : bool :=
  negb (guid_equal (raw_guid buf (entry_offset i entry_size)) g_guid_zero).

Definition count_entries (buf : list Z) (num entry_size : Z) : Z :=
  zfor 0 num (fun i n => if entry_used buf entry_size i then n + 1 else n) 0.

Definition fill_entries (buf : list Z) (num entry_size : Z) : list GptPartition :=
  zfor 0 num (fun i out => if negb (entry_used buf entry_size i) then out
                           else out ++ [raw_partition buf (entry_offset i entry_size)]) [].

Section Parse.
Context {D : Type} `{BlockDevice D}.

(** A controller is its list of namespaces: identifier and device. *)
Fixpoint find_ns (l : list (Z * D)) (nsid : Z) : option D :=
  match l with [] => None | (n, d) :: r => if n =? nsid then Some d else find_ns r nsid end.

Definition zero_crc (hdr : list Z) : list Z := take 16 hdr ++ [0; 0; 0; 0] ++ drop 20 hdr.

(** The header checks: [None] when one fails. *)
Definition header_ok (hdr : list Z) (block_size : Z) : bool :=
  let header_size := le32 hdr 12 in
  (le64 hdr 0 =? GPT_SIGNATURE)
  && negb ((header_size <? sizeof_GptHeader) || (block_size <? header_size))
  && (le32 hdr 16 =? crc32 (zero_crc hdr) header_size).

Definition entry_blocks (num entry_size block_size : Z) : Z :=
  u32 ((u64 (u64 (num * entry_size) + block_size - 1)) / block_size).

Definition gpt_parse (kmalloc_ok : Z -> bool) (ctrl : list (Z * D)) (nsid : Z) (table : GptTable)
    : GptTable * Z :=
  match find_ns ctrl nsid with
  | None => (table, -1)
  | Some d =>
      let block_size := bd_block_size d in
      if block_size =? 0 then (table, -1)
      else if negb (kmalloc_ok block_size) then (table, -1)
      else match nvme_read d 1 1 with
      | None => (table, -1)
      | Some hdr =>
          if negb (header_ok hdr block_size) then (table, -1)
          else
            let num_entries := le32 hdr 80 in
            let entry_size := le32 hdr 84 in
            let entries_lba := le64 hdr 72 in
            let entries_crc := le32 hdr 88 in
            if (entry_size <? sizeof_GptRawEntry) || (num_entries =? 0) then (table, -1)
            else
              let total_entry_bytes := u64 (num_entries * entry_size) in
              let blocks := entry_blocks num_entries entry_size block_size in
              if negb (kmalloc_ok (u32 (blocks * block_size))) then (table, -1)
              else match nvme_read d entries_lba blocks with
              | None => (table, -1)
              | Some buf =>
                  if negb (entries_crc =? crc32 buf total_entry_bytes) then (table, -1)
                  else
                    let valid_count := count_entries buf num_entries entry_size in
                    let t := mkTable [] block_size (le64 hdr 40) (le64 hdr 48) (bytes_from hdr 56 16) in
                    if 0 <? valid_count then
                      if negb (kmalloc_ok (u64 (valid_count * sizeof_GptPartition))) then (t, -1)
                      else (mkTable (fill_entries buf num_entries entry_size) block_size
                              (le64 hdr 40) (le64 hdr 48) (bytes_from hdr 56 16), 0)
                    else (t, 0)
              end
      end
  end.

Definition gpt_free (t : GptTable) : GptTable :=
  mkTable [] (g_block_size t) (first_usable_lba t) (last_usable_lba t) (disk_guid t).
End Parse.

(** The standard check value of CRC-32. *)
Example crc32_check : crc32 [49; 50; 51; 52; 53; 54; 55; 56; 57] 9 = 0xCBF43926.
Proof. vm_compute. reflexivity. Qed.

(** ** CRC-32 one message bit at a time

    The reference: a shift register fed with the message bits, least
    significant bit of each byte first. *)
Definition crc_feed (crc : Z) (b : bool) : Z :=
  let out := xorb (Z.testbit crc 0) b in
  Z.lxor (Z.shiftr crc 1) (if out then 0xEDB88320 else 0).

Definition byte_bits (b : Z) : list bool := map (fun i => Z.testbit b (Z.of_nat i)) (seq 0 8).
Definition message_bits (l : list Z) : list bool := flat_map byte_bits l.
Definition crc32_ref (l : list Z) : Z := u32 (Z.lnot (fold_left crc_feed (message_bits l) 0xFFFFFFFF)).

Lemma crc_shift_feed c : crc_shift c = crc_feed c false.
Proof.
  unfold crc_shift, crc_feed. rewrite xorb_false_r. f_equal.
  change 1 with (Z.ones 1) at 1. rewrite Z.land_ones by lia. change (2 ^ 1) with 2.
  rewrite <- Z.bit0_mod. destruct (Z.testbit c 0); reflexivity.
Qed.

(** Feeding a bit is shifting after adding it to the register; the rest of
    the byte only moves down. *)
Lemma crc_shift_byte c b : crc_shift (Z.lxor c b) = Z.lxor (crc_feed c (Z.testbit b 0)) (Z.shiftr b 1).
Proof.
  rewrite crc_shift_feed. unfold crc_feed. rewrite Z.lxor_spec, xorb_false_r, Z.shiftr_lxor.
  rewrite !Z.lxor_assoc. f_equal. apply Z.lxor_comm.
Qed.

Lemma crc_byte_bits n : forall c b, 0 <= b < 2 ^ Z.of_nat n ->
  Nat.iter n crc_shift (Z.lxor c b) =
  fold_left crc_feed (map (fun i => Z.testbit b (Z.of_nat i)) (seq 0 n)) c.
Proof.
  induction n as [|n IH]; intros c b Hb.
  - assert (b = 0) as -> by (simpl in Hb; lia). simpl. apply Z.lxor_0_r.
  - rewrite Nat.iter_succ_r, crc_shift_byte.
    rewrite IH.
    2: { rewrite Z.shiftr_div_pow2 by lia. rewrite Nat2Z.inj_succ, Z.pow_succ_r in Hb by lia.
         change (2 ^ 1) with 2. split; [apply Z.div_pos; lia|apply Z.div_lt_upper_bound; lia]. }
    cbn [seq map fold_left]. rewrite <- seq_shift, map_map. f_equal.
    apply map_ext. intros i. rewrite Z.shiftr_spec by lia. f_equal. lia.
Qed.

Lemma crc_byte_feed c b : is_byte b -> crc_byte c b = fold_left crc_feed (byte_bits b) c.
Proof. intros Hb. apply crc_byte_bits. exact Hb. Qed.

(** ** Entry loops *)
Lemma seqZ_snoc i : 0 <= i -> seqZ 0 (i + 1) = seqZ 0 i ++ [i].
Proof. intros Hi. rewrite seqZ_app by lia. reflexivity. Qed.

Lemma zfor_filter {A} (f : Z -> bool) (g : Z -> A) n : 0 <= n ->
  zfor 0 n (fun i out => if negb (f i) then out else out ++ [g i]) [] =
  map g (List.filter f (seqZ 0 n)).
Proof.
  intros Hn. apply (zfor_ind (fun k out => out = map g (List.filter f (seqZ 0 k)))); [lia|done|].
  intros i out Hi ->. rewrite seqZ_snoc by lia. rewrite List.filter_app, map_app. simpl. destruct (f i); simpl; [done|by rewrite app_nil_r].
Qed.

Lemma zfor_count (f : Z -> bool) n : 0 <= n ->
  zfor 0 n (fun i c => if f i then c + 1 else c) 0 = Z.of_nat (length (List.filter f (seqZ 0 n))).
Proof.
  intros Hn. apply (zfor_ind (fun k c => c = Z.of_nat (length (List.filter f (seqZ 0 k))))); [lia|done|].
  intros i c Hi ->.
  rewrite seqZ_snoc by lia. rewrite List.filter_app, length_app. simpl. destruct (f i); simpl; lia.
Qed.

Lemma guid_loop_spec n : forall i a b,
  guid_loop n i a b = true <-> forall k, i <= k < i + Z.of_nat n -> byte_at a k = byte_at b k.
Proof.
  induction n as [|n IH]; intros i a b; cbn [guid_loop]; [split; [intros _ k Hk; lia|done]|].
  destruct (Z.eqb_spec (byte_at a i) (byte_at b i)) as [E|E]; cbn [negb].
  - rewrite IH. split; intros Hk k Hr; [|apply Hk; lia].
    destruct (Z.eq_dec k i) as [->|]; [done|]. apply Hk. lia.
  - split; [done|]. intros Hk. exfalso. apply E, Hk. lia.
Qed.

Lemma utf16le_to_ascii_ok src n : (length (utf16le_to_ascii src n) <= n)%nat /\
  Forall (fun c => 0 < c < 128) (utf16le_to_ascii (map u16 src) n).
Proof.
  split.
  - revert src. induction n as [|n IH]; intros [|ch r]; simpl; try lia.
    destruct (ch =? 0); simpl; [lia|]. specialize (IH r). lia.
  - revert src. induction n as [|n IH]; intros [|ch r]; simpl; try constructor.
    destruct (Z.eqb_spec (u16 ch) 0); [constructor|]. constructor; [|apply IH].
    pose proof (Z.mod_pos_bound ch (2 ^ 16)). unfold u16 in *.
    destruct (Z.ltb_spec (ch mod 2 ^ 16) 128); lia.
Qed.

(** The entries are read inside the buffer when the table is below 4 GiB. *)
Lemma entry_in_bounds num entry_size block_size i :
  0 < block_size -> sizeof_GptRawEntry <= entry_size -> 0 < num ->
  num * entry_size + block_size <= 2 ^ 32 -> 0 <= i < num ->
  let blocks := entry_blocks num entry_size block_size in
  u32 (blocks * block_size) = blocks * block_size /\
  entry_offset i entry_size = i * entry_size /\
  i * entry_size + sizeof_GptRawEntry <= blocks * block_size /\ num * entry_size <= blocks * block_size.
Proof.
  unfold sizeof_GptRawEntry. intros Hb He Hn Ht Hi.
  assert (Hp : 0 <= num * entry_size < 2 ^ 32) by nia.
  unfold entry_blocks. rewrite (u64_id (num * entry_size)) by (unfold is_u64; lia).
  rewrite u64_id by (unfold is_u64; lia).
  set (q := (num * entry_size + block_size - 1) / block_size).
  pose proof (Z.div_mod (num * entry_size + block_size - 1) block_size ltac:(lia)) as Hdm. fold q in Hdm.
  pose proof (Z.mod_pos_bound (num * entry_size + block_size - 1) block_size Hb) as Hmb.
  assert (Hq : 0 <= q) by (apply Z.div_pos; lia).
  assert (Hqb : num * entry_size <= q * block_size < num * entry_size + block_size) by lia.
  assert (Hq32 : u32 q = q) by (apply Z.mod_small; nia).
  cbv zeta. rewrite Hq32. split_and!.
  - apply Z.mod_small. nia.
  - apply Z.mod_small. nia.
  - nia.
  - lia.
Qed.

(** ** Properties *)

(** C15: the bytewise [crc32] computes CRC-32: it equals the bit-serial shift
    register with polynomial 0xEDB88320 over the message bits. *)
Theorem crc32_correct buf n : Forall is_byte buf -> 0 <= n ->
  crc32 buf n = crc32_ref (take (Z.to_nat n) buf).
Proof.
  intros Hb Hn. unfold crc32, crc32_ref. do 2 f_equal.
  assert (Hbs : Forall is_byte (take (Z.to_nat n) buf)) by (by apply Forall_take).
  generalize 0xFFFFFFFF. induction Hbs as [|b l Hb1 _ IH]; intros c; [done|].
  cbn [fold_left message_bits flat_map]. rewrite fold_left_app, <- crc_byte_feed by done. apply IH.
Qed.

Lemma crc32_correct_witness : crc32_ref [49; 50; 51] = crc32 [49; 50; 51; 52] 3.
Proof. symmetry. apply (crc32_correct [49; 50; 51; 52] 3); [repeat constructor; lia|lia]. Defined.

Section Claims.
Context {D : Type} `{BlockDevice D} `{!BlockDeviceLaws D}.

(** C14: [gpt_parse] returns 0 only for a namespace with a signed header whose
    checksum and entry-array checksum match; the table then lists, in order,
    exactly the entries with a non-zero type, with their sector counts; and
    when it returns -1 it has not filled in any partition. *)
Theorem gpt_parse_correct km (ctrl : list (Z * D)) nsid table :
  let '(t, r) := gpt_parse km ctrl nsid table in
  (r = 0 /\ exists d hdr buf, find_ns ctrl nsid = Some d /\ nvme_read d 1 1 = Some hdr /\
     le64 hdr 0 = GPT_SIGNATURE /\
     le32 hdr 16 = crc32 (zero_crc hdr) (le32 hdr 12) /\
     sizeof_GptHeader <= le32 hdr 12 <= bd_block_size d /\
     nvme_read d (le64 hdr 72) (entry_blocks (le32 hdr 80) (le32 hdr 84) (bd_block_size d)) = Some buf /\
     le32 hdr 88 = crc32 buf (le32 hdr 80 * le32 hdr 84) /\
     partitions t = map (fun i => raw_partition buf (entry_offset i (le32 hdr 84)))
       (List.filter (entry_used buf (le32 hdr 84)) (seqZ 0 (le32 hdr 80))) /\
     (forall p, p ∈ partitions t -> starting_lba p <= ending_lba p ->
        sector_count p = u64 (ending_lba p - starting_lba p + 1))) \/
  (r = -1 /\ (t = table \/ partitions t = [])).
Proof.
  unfold gpt_parse. destruct (find_ns ctrl nsid) as [d|] eqn:En; [|by auto].
  destruct (bd_block_size d =? 0); [by auto|]. destruct (negb (km _)); [by auto|].
  destruct (nvme_read d 1 1) as [hdr|] eqn:Eh; [|by auto].
  destruct (header_ok hdr (bd_block_size d)) eqn:Eok; cbn [negb]; [|by auto].
  cbv zeta. destruct (_ || _) eqn:Ee; [by auto|]. destruct (negb (km _)); [by auto|].
  destruct (nvme_read d (le64 hdr 72) _) as [buf|] eqn:Eb; [|by auto].
  pose proof (bd_bytes _ _ _ _ Eh) as Hby.
  assert (Hr80 : 0 <= le32 hdr 80 < 2 ^ 32) by exact (le_range 4 hdr 80 Hby).
  assert (Hr84 : 0 <= le32 hdr 84 < 2 ^ 32) by exact (le_range 4 hdr 84 Hby).
  rewrite (u64_id (le32 hdr 80 * le32 hdr 84)) by (unfold is_u64; nia).
  destruct (Z.eqb_spec (le32 hdr 88) (crc32 buf (le32 hdr 80 * le32 hdr 84))) as [Ec|]; cbn [negb]; [|by auto].
  assert (Hh : le64 hdr 0 = GPT_SIGNATURE /\ le32 hdr 16 = crc32 (zero_crc hdr) (le32 hdr 12) /\
               sizeof_GptHeader <= le32 hdr 12 <= bd_block_size d).
  { unfold header_ok in Eok. apply andb_true_iff in Eok as [Eok E3]. apply andb_true_iff in Eok as [E1 E2].
    apply negb_true_iff, orb_false_iff in E2 as [E2 E4]. breflect. done. }
  destruct Hh as (Hh1 & Hh2 & Hh3 & Hh4).
  assert (Hf : fill_entries buf (le32 hdr 80) (le32 hdr 84) =
            map (fun i => raw_partition buf (entry_offset i (le32 hdr 84)))
              (List.filter (entry_used buf (le32 hdr 84)) (seqZ 0 (le32 hdr 80))))
    by (apply (zfor_filter (entry_used buf (le32 hdr 84))
                 (fun i => raw_partition buf (entry_offset i (le32 hdr 84)))); lia).
  assert (Hcnt : count_entries buf (le32 hdr 80) (le32 hdr 84) =
            Z.of_nat (length (List.filter (entry_used buf (le32 hdr 84)) (seqZ 0 (le32 hdr 80)))))
    by (apply (zfor_count (entry_used buf (le32 hdr 84))); lia).
  rewrite Hcnt. destruct (Z.ltb_spec 0 (Z.of_nat (length (List.filter (entry_used buf (le32 hdr 84)) (seqZ 0 (le32 hdr 80)))))).
  - destruct (negb (km _)); [right; auto|]. left. split; [done|]. exists d, hdr, buf.
    split_and!; try done. cbn [partitions]. intros p Hp Hle. rewrite Hf in Hp.
    apply list_elem_of_In, in_map_iff in Hp as (i & <- & _). unfold raw_partition in *. simpl in *.
    by destruct (Z.leb_spec (le64 buf (entry_offset i (le32 hdr 84) + 32)) (le64 buf (entry_offset i (le32 hdr 84) + 40))); [|lia].
  - left. split; [done|]. exists d, hdr, buf. split_and!; try done.
    + cbn [partitions]. destruct (List.filter _ _); [done|simpl in *; lia].
    + intros p Hp. by apply elem_of_nil in Hp.
Qed.
End Claims.

(** No read outside the entry buffer: when the table (rounded up to a
    block) is below 4 GiB, the buffer requested is as large as the data read
    into it, and every entry lies inside it. *)
Theorem gpt_entries_in_bounds num entry_size block_size i :
  0 < block_size -> sizeof_GptRawEntry <= entry_size -> 0 < num ->
  num * entry_size + block_size <= 2 ^ 32 -> 0 <= i < num ->
  let blocks := entry_blocks num entry_size block_size in
  u32 (blocks * block_size) = blocks * block_size /\
  entry_offset i entry_size = i * entry_size /\
  i * entry_size + sizeof_GptRawEntry <= blocks * block_size /\ num * entry_size <= blocks * block_size.
Proof. apply entry_in_bounds. Qed.

Lemma gpt_entries_in_bounds_witness :
  entry_offset 127 128 = 127 * 128 /\
  127 * 128 + sizeof_GptRawEntry <= entry_blocks 128 128 512 * 512.
Proof.
  destruct (gpt_entries_in_bounds 128 128 512 127) as (_ & H1 & H2 & _).
  - lia.
  - unfold sizeof_GptRawEntry. lia.
  - lia.
  - lia.
  - lia.
  - split; [exact H1|exact H2].
Defined.

(** Beyond that bound the 32-bit product wraps: 2^21 entries of 2 KiB ask for
    a buffer of 0 bytes and read 2^23 blocks of 512 bytes into it. *)
Theorem gpt_entries_overflow :
  let blocks := entry_blocks (2 ^ 21) (2 ^ 11) 512 in
  u32 (blocks * 512) = 0 /\ blocks = 2 ^ 23.
Proof. vm_compute. done. Qed.

(** [gpt_find_esp] returns the first EFI system partition, and nothing
    exactly when there is none. *)
Theorem gpt_find_esp_first t :
  match gpt_find_esp t with
  | Some p => exists a b, partitions t = a ++ p :: b /\ gpt_is_esp p = true /\
      Forall (fun x => gpt_is_esp x = false) a
  | None => Forall (fun x => gpt_is_esp x = false) (partitions t)
  end.
Proof.
  unfold gpt_find_esp. induction (partitions t) as [|x l IH]; simpl; [constructor|].
  destruct (gpt_is_esp x) eqn:Ex; [exists [], l; by split_and!|].
  destruct (find_part gpt_is_esp l) as [p|]; [|by constructor].
  destruct IH as (a & b & -> & Hp & Ha). exists (x :: a), b. split_and!; try done. by constructor.
Qed.

(** ** Witness: a disk with one EFI system partition *)
Definition gpt_entry : list Z :=
  g_guid_esp ++ repeat 1 16 ++ le_bytes 8 34 ++ le_bytes 8 2081 ++ le_bytes 8 0 ++
  [69; 0; 83; 0; 80; 0] ++ repeat 0 66.
Definition demo_entries : list Z := gpt_entry ++ repeat 0 384.
Definition demo_header (crc : Z) : list Z :=
  le_bytes 8 GPT_SIGNATURE ++ le_bytes 4 0x10000 ++ le_bytes 4 92 ++ le_bytes 4 crc ++ le_bytes 4 0 ++
  le_bytes 8 1 ++ le_bytes 8 4095 ++ le_bytes 8 34 ++ le_bytes 8 4062 ++ repeat 7 16 ++
  le_bytes 8 2 ++ le_bytes 4 4 ++ le_bytes 4 128 ++ le_bytes 4 (crc32 demo_entries 512).
Definition gpt_disk : RamDisk :=
  mkDisk 512 [[]; demo_header (crc32 (demo_header 0) 92); demo_entries].
Definition gpt_table : GptTable := mkTable [] 0 0 0 [].

Lemma gpt_parse_correct_witness :
  exists t, gpt_parse (fun _ => true) [(1, gpt_disk)] 1 gpt_table = (t, 0) /\
    exists buf, partitions t = [raw_partition buf 0].
Proof.
  pose proof (gpt_parse_correct (fun _ => true) [(1, gpt_disk)] 1 gpt_table) as H.
  assert (Er : (gpt_parse (fun _ => true) [(1, gpt_disk)] 1 gpt_table).2 = 0) by (vm_compute; reflexivity).
  destruct (gpt_parse (fun _ => true) [(1, gpt_disk)] 1 gpt_table) as [t r]. cbn [snd] in Er. subst r.
  exists t. split; [reflexivity|].
  destruct H as [(_ & d & hdr & buf & Ed & Eh & _ & _ & _ & Eb & _ & Hp & _)|[Hr _]]; [|discriminate Hr].
  exists buf. rewrite Hp. vm_compute in Ed. injection Ed as <-.
  vm_compute in Eh. injection Eh as <-. vm_compute in Eb. injection Eb as <-.
  vm_compute. reflexivity.
Defined.
