(* ===== verification/Fat32.v ===== *)
(** * The FAT32 file system (src/kernel/krdrivers/fs/fat32/fat32.c): operations

    Mounting, the FAT sector cache, cluster chains, directory listing with
    long names, path lookup and file reads, over any block device.

    Buffers are byte lists, C strings are lists without the terminator.
    [kmalloc] is the outcome of a request by its size.  A directory callback
    is run on the entries in order: [list_dir_cluster] returns them.  Console
    messages are left out. *)

From Stdlib Require Import ZArith Lia Bool.
From stdpp Require Import base list.
From S2P Require Import Prelude Block Gpt.

Definition FAT32_SIGNATURE_55AA : Z := 0xAA55.
Definition FAT32_CLUSTER_BAD : Z := 0x0FFFFFF7.
Definition FAT32_CLUSTER_EOC : Z := 0x0FFFFFF8.
Definition FAT32_CLUSTER_MASK : Z := 0x0FFFFFFF.
Definition FAT_ATTR_VOLUME_ID : Z := 0x08.
Definition FAT_ATTR_DIRECTORY : Z := 0x10.
Definition FAT_ATTR_LFN : Z := 0x0F.
Definition FAT_ENTRY_FREE : Z := 0xE5.
Definition FAT_ENTRY_END : Z := 0x00.
Definition FAT_LFN_LAST_MASK : Z := 0x40.
Definition FAT_LFN_SEQ_MASK : Z := 0x1F.

Record Fat32DirEntry := mkEntry {
  e_name : list Z; start_cluster : Z; file_size : Z; attributes : Z; is_directory : bool }.

Record Fat32Volume := mkVolume {
  partition_start_lba : Z; partition_sector_count : Z;
  bytes_per_sector : Z; sectors_per_cluster : Z; reserved_sector_count : Z; num_fats : Z;
  total_sectors : Z; fat_size : Z; root_cluster : Z; fs_info_sector : Z;
  fat_start_lba : Z; data_start_lba : Z; total_clusters : Z; bytes_per_cluster : Z;
  fat_cache : list Z; fat_cache_lba : Z; volume_label : list Z; oem_name : list Z }.

Definition set_cache (v : Fat32Volume) (c : list Z) (lba : Z) : Fat32Volume :=
  mkVolume (partition_start_lba v) (partition_sector_count v) (bytes_per_sector v)
    (sectors_per_cluster v) (reserved_sector_count v) (num_fats v) (total_sectors v) (fat_size v)
    (root_cluster v) (fs_info_sector v) (fat_start_lba v) (data_start_lba v) (total_clusters v)
    (bytes_per_cluster v) c lba (volume_label v) (oem_name v).

(** ** Names *)

(** Trailing spaces and zeros of a fixed-width field are cut. *)
Fixpoint trim_end (l : list Z) : list Z :=
  match l with
  | [] => []
  | c :: r => match trim_end r with
              | [] => if (c =? 32) || (c =? 0) then [] else [c]
              | t => c :: t
              end
  end.
Definition trim_trailing_spaces (src : list Z) (len : Z) : list Z := trim_end (take (Z.to_nat len) src).

Definition to_lower (c : Z) : Z := if (65 <=? c) && (c <=? 90) then c + 32 else c.

Fixpoint strcasecmp_ascii (s1 s2 : list Z) : Z :=
  match s1, s2 with
  | a :: r1, b :: r2 =>
      if negb (to_lower a =? to_lower b) then to_lower a - to_lower b else strcasecmp_ascii r1 r2
  | _, _ => to_lower (hd 0 s1) - to_lower (hd 0 s2)
  end.

Definition calculate_sfn_checksum (sfn : list Z) : Z :=
  zfor 0 11 (fun i sum => u8 ((if negb (Z.land sum 1 =? 0) then 0x80 else 0) + Z.shiftr sum 1
                              + byte_at sfn i)) 0.

(** One part of a short name: up to [n] bytes from [off], stopping at a space. *)
Fixpoint sfn_part (n : nat) (name : list Z) (off : Z) (lower : bool) : list Z :=
  match n with
  | O => []
  | S k =>
      let c := byte_at name off in
      let c := if (off =? 0) && (c =? 0x05) then 0xE5 else c in
      if c =? 32 then []
      else (if lower then to_lower c else c) :: sfn_part k name (off + 1) lower
  end.

Definition format_sfn_name (name : list Z) (nt_reserved : Z) : list Z :=
  let base := sfn_part 8 name 0 (nt_reserved &? 0x08) in
  let ext := sfn_part 3 name 8 (nt_reserved &? 0x10) in
  match ext with [] => base | _ => base ++ [46] ++ ext end.

(** [out_idx] is the length written so far; output stops before [max_out]. *)
Fixpoint utf16_loop (src : list Z) (out_idx max_out : Z) : list Z :=
  match src with
  | [] => []
  | ch :: r =>
      if (ch =? 0) || (ch =? 0xFFFF) || (max_out <=? out_idx + 4) then []
      else
        let out :=
          if ch <? 0x80 then [ch]
          else if ch <? 0x800 then [Z.lor 0xC0 (Z.shiftr ch 6); Z.lor 0x80 (Z.land ch 0x3F)]
          else [Z.lor 0xE0 (Z.shiftr ch 12); Z.lor 0x80 (Z.land (Z.shiftr ch 6) 0x3F);
                Z.lor 0x80 (Z.land ch 0x3F)] in
        out ++ utf16_loop r (out_idx + Z.of_nat (length out)) max_out
  end.
Definition utf16le_to_utf8 (src : list Z) (max_out : Z) : list Z := utf16_loop src 0 max_out.

(** ** Directory entries *)

(** The state of the scan: long-name units, their checksum, whether active. *)
Record LfnState := mkLfn { lfn_unicode : list Z; lfn_checksum : Z; lfn_active : bool }.
Definition lfn_clear : list Z := repeat 0 260.

(** The array writes of one long-name entry [raw]: index and value. *)
Definition lfn_writes (raw : list Z) : list (Z * Z) :=
  let order := byte_at raw 0 in
  let seq_ := Z.land order FAT_LFN_SEQ_MASK in
  let char_offset := (seq_ - 1) * 13 in
  map (fun c => (char_offset + Z.of_nat c, le16 raw (1 + 2 * Z.of_nat c))) (seq 0 5) ++
  map (fun c => (char_offset + 5 + Z.of_nat c, le16 raw (14 + 2 * Z.of_nat c))) (seq 0 6) ++
  map (fun c => (char_offset + 11 + Z.of_nat c, le16 raw (28 + 2 * Z.of_nat c))) (seq 0 2) ++
  (if order &? FAT_LFN_LAST_MASK then [(char_offset + 13, 0)] else []).

(** Writes past the end of the array are not modelled: they change nothing. *)
Definition lfn_store (a : list Z) (w : Z * Z) : list Z := <[Z.to_nat (w.1) := w.2]> a.

Definition lfn_step (st : LfnState) (raw : list Z) : LfnState :=
  let order := byte_at raw 0 in
  let seq_ := Z.land order FAT_LFN_SEQ_MASK in
  if (1 <=? seq_) && (seq_ <=? 20) then
    let a := fold_left lfn_store (lfn_writes raw) (lfn_unicode st) in
    if order &? FAT_LFN_LAST_MASK then mkLfn a (byte_at raw 13) true
    else mkLfn a (lfn_checksum st) (lfn_active st)
  else st.

Definition sfn_entry (st : LfnState) (raw : list Z) : Fat32DirEntry :=
  let attr := byte_at raw 11 in
  let name :=
    if lfn_active st && (lfn_checksum st =? calculate_sfn_checksum raw)
    then utf16le_to_utf8 (lfn_unicode st) 256
    else format_sfn_name raw (byte_at raw 12) in
  mkEntry name (Z.lor (Z.shiftl (le16 raw 20) 16) (le16 raw 26)) (le32 raw 28) attr
    (attr &? FAT_ATTR_DIRECTORY).

(** The loop over the raw entries of a directory, from entry [i]. *)
Fixpoint scan_dir (n : nat) (buf : list Z) (i : Z) (st : LfnState) : list Fat32DirEntry :=
  match n with
  | O => []
  | S k =>
      let raw := bytes_from buf (32 * i) 32 in
      let off st := mkLfn (lfn_unicode st) (lfn_checksum st) false in
      if byte_at raw 0 =? FAT_ENTRY_END then []
      else if byte_at raw 0 =? FAT_ENTRY_FREE then scan_dir k buf (i + 1) (off st)
      else if byte_at raw 11 =? FAT_ATTR_LFN then scan_dir k buf (i + 1) (lfn_step st raw)
      else if byte_at raw 11 &? FAT_ATTR_VOLUME_ID then scan_dir k buf (i + 1) (off st)
      else sfn_entry st raw :: scan_dir k buf (i + 1) (mkLfn lfn_clear (lfn_checksum st) false)
  end.

Definition cluster_to_lba (v : Fat32Volume) (cluster : Z) : Z :=
  if cluster <? 2 then 0 else u64 (data_start_lba v + (cluster - 2) * sectors_per_cluster v).

Section Fat32.
Context {D : Type} `{BlockDevice D} (kmalloc_ok : Z -> bool) (d : D).

(** ** The FAT *)
Definition get_next_cluster (v : Fat32Volume) (cluster : Z) : Fat32Volume * option Z :=
  if (cluster <? 2) || (u32 (total_clusters v + 2) <=? cluster) then (v, None)
  else
    let fat_offset := u32 (cluster * 4) in
    let fat_sector_idx := fat_offset / bytes_per_sector v in
    let byte_offset := fat_offset mod bytes_per_sector v in
    if fat_size v <=? fat_sector_idx then (v, None)
    else
      let target_lba := u64 (fat_start_lba v + fat_sector_idx) in
      let r :=
        if negb (fat_cache_lba v =? target_lba) then
          match nvme_read d target_lba 1 with
          | None => inr (set_cache v (fat_cache v) MAX64)
          | Some b => inl (set_cache v b target_lba)
          end
        else inl v in
      match r with
      | inr v1 => (v1, None)
      | inl v1 => (v1, Some (Z.land (le32 (fat_cache v1) byte_offset) FAT32_CLUSTER_MASK))
      end.

Definition read_cluster (v : Fat32Volume) (cluster : Z) : option (list Z) :=
  if (cluster <? 2) || (u32 (total_clusters v + 2) <=? cluster) then None
  else nvme_read d (cluster_to_lba v cluster) (sectors_per_cluster v).

Definition in_chain (c : Z) : bool := (2 <=? c) && (c <? FAT32_CLUSTER_EOC).

(** The counting pass over a chain; [None] without fuel, [inl] an error. *)
Fixpoint count_chain (fuel : nat) (v : Fat32Volume) (curr count : Z)
    : option (Fat32Volume * option Z) :=
  if in_chain curr then
    match fuel with
    | O => None
    | S k =>
        if curr =? FAT32_CLUSTER_BAD then Some (v, None)
        else
          let count := count + 1 in
          if total_clusters v <? count then Some (v, None)
          else match get_next_cluster v curr with
               | (v1, None) => Some (v1, None)
               | (v1, Some next) => count_chain k v1 next count
               end
    end
  else Some (v, Some count).

(** The reading pass: at most [n] clusters. *)
Fixpoint read_chain (n : nat) (v : Fat32Volume) (curr : Z) : Fat32Volume * option (list Z) :=
  match n with
  | O => (v, Some [])
  | S k =>
      if in_chain curr then
        match read_cluster v curr with
        | None => (v, None)
        | Some data =>
            match get_next_cluster v curr with
            | (v1, None) => (v1, None)
            | (v1, Some next) =>
                let '(v2, r) := read_chain k v1 next in
                (v2, rest ← r; Some (data ++ rest))
            end
        end
      else (v, Some [])
  end.

(** [Some None] is the NULL buffer of an empty chain.  The fuel of the count
    is two more than the number of clusters. *)
Definition read_cluster_chain (v : Fat32Volume) (start : Z)
    : option (Fat32Volume * option (option (list Z))) :=
  if start <? 2 then Some (v, None)
  else
    r ← count_chain (Z.to_nat (total_clusters v + 2)) v start 0;
    match r with
    | (v1, None) => Some (v1, None)
    | (v1, Some count) =>
        if count =? 0 then Some (v1, Some None)
        else if negb (kmalloc_ok (u64 (count * bytes_per_cluster v1))) then Some (v1, None)
        else let '(v2, b) := read_chain (Z.to_nat count) v1 start in
             Some (v2, Some <$> b)
    end.

(** ** Directories *)
Definition list_dir_cluster (v : Fat32Volume) (cluster : Z)
    : option (Fat32Volume * option (list Fat32DirEntry)) :=
  if cluster <? 2 then Some (v, None)
  else
    r ← read_cluster_chain v cluster;
    match r with
    | (v1, Some (Some buf)) =>
        let num_entries := Z.of_nat (length buf) / 32 in
        Some (v1, Some (scan_dir (Z.to_nat num_entries) buf 0 (mkLfn lfn_clear 0 false)))
    | (v1, _) => Some (v1, None)
    end.

(** [find_callback] keeps the first entry whose name matches. *)
Fixpoint find_name (name : list Z) (l : list Fat32DirEntry) : option Fat32DirEntry :=
  match l with
  | [] => None
  | e :: r => if strcasecmp_ascii (e_name e) name =? 0 then Some e else find_name name r
  end.

Definition find_in_dir (v : Fat32Volume) (cluster : Z) (name : list Z)
    : option (Fat32Volume * option Fat32DirEntry) :=
  if cluster <? 2 then Some (v, None)
  else
    r ← list_dir_cluster v cluster;
    let '(v1, es) := r in Some (v1, l ← es; find_name name l).

(** ** Paths *)
Definition is_sep (c : Z) : bool := (c =? 47) || (c =? 92).

Fixpoint skip_seps (p : list Z) : list Z :=
  match p with c :: r => if is_sep c then skip_seps r else p | [] => [] end.

Fixpoint take_token (p : list Z) : list Z * list Z :=
  match p with
  | c :: r => if is_sep c then ([], p) else let '(t, q) := take_token r in (c :: t, q)
  | [] => ([], [])
  end.

Definition root_entry (v : Fat32Volume) : Fat32DirEntry :=
  mkEntry [47] (root_cluster v) 0 FAT_ATTR_DIRECTORY true.

(** The component loop: [p] is what is left of the path, [cur] the entry
    found last. *)
Fixpoint stat_loop (fuel : nat) (v : Fat32Volume) (p : list Z) (cluster : Z) (cur : Fat32DirEntry)
    : option (Fat32Volume * option Fat32DirEntry) :=
  match p with
  | [] => Some (v, Some cur)
  | _ =>
      match fuel with
      | O => None
      | S k =>
          let '(token, rest) := take_token p in
          match token with
          | [] => stat_loop k v (skip_seps rest) cluster cur
          | _ =>
              if negb (kmalloc_ok (Z.of_nat (length token) + 1)) then Some (v, None)
              else
                let rest := skip_seps rest in
                r ← find_in_dir v cluster token;
                match r with
                | (v1, None) => Some (v1, None)
                | (v1, Some e) =>
                    match rest with
                    | [] => stat_loop k v1 rest cluster e
                    | _ => if negb (is_directory e) then Some (v1, None)
                           else stat_loop k v1 rest (start_cluster e) e
                    end
                end
          end
      end
  end.

Definition entry0 : Fat32DirEntry := mkEntry [] 0 0 0 false.

(** The fuel is the length of the path. *)
Definition fat32_stat (v : Fat32Volume) (path : list Z) : option (Fat32Volume * option Fat32DirEntry) :=
  let p := skip_seps path in
  match p with
  | [] => Some (v, Some (root_entry v))
  | _ => stat_loop (length p) v p (root_cluster v) entry0
  end.

(** [path] is [None] for NULL. *)
Definition fat32_list_dir (v : Fat32Volume) (path : option (list Z))
    : option (Fat32Volume * option (list Fat32DirEntry)) :=
  match path with
  | None | Some [] | Some [47] | Some [92] => list_dir_cluster v (root_cluster v)
  | Some p =>
      r ← fat32_stat v p;
      match r with
      | (v1, None) => Some (v1, None)
      | (v1, Some e) => if negb (is_directory e) then Some (v1, None)
                        else list_dir_cluster v1 (start_cluster e)
      end
  end.

(** ** Files *)
Fixpoint skip_clusters (n : nat) (v : Fat32Volume) (curr : Z) : Fat32Volume * option Z :=
  match n with
  | O => (v, Some curr)
  | S k =>
      if (curr <? 2) || (FAT32_CLUSTER_EOC <=? curr) then (v, None)
      else match get_next_cluster v curr with
           | (v1, None) => (v1, None)
           | (v1, Some next) => skip_clusters k v1 next
           end
  end.

(** The read loop; [temp] says whether the bounce buffer exists.  Every round
    reads at least one byte, so the size asked for bounds the rounds. *)
Fixpoint read_loop (fuel : nat) (v : Fat32Volume) (curr off remaining : Z) (temp : bool)
    : option (Fat32Volume * option (list Z)) :=
  if (0 <? remaining) && in_chain curr then
    match fuel with
    | O => None
    | S k =>
        let cluster_size := bytes_per_cluster v in
        let chunk := Z.min (cluster_size - off) remaining in
        let whole := (off =? 0) && (chunk =? cluster_size) in
        if negb whole && negb temp && negb (kmalloc_ok cluster_size) then Some (v, None)
        else match read_cluster v curr with
        | None => Some (v, None)
        | Some data =>
            let part := if whole then data else bytes_from data off chunk in
            let temp' := temp || negb whole in
            let remaining' := remaining - chunk in
            if 0 <? remaining' then
              match get_next_cluster v curr with
              | (v1, None) => Some (v1, None)
              | (v1, Some next) =>
                  r ← read_loop k v1 next 0 remaining' temp';
                  let '(v2, rest) := r in Some (v2, l ← rest; Some (part ++ l))
              end
            else
              r ← read_loop k v curr 0 remaining' temp';
              let '(v2, rest) := r in Some (v2, l ← rest; Some (part ++ l))
        end
    end
  else Some (v, Some []).

(** The bytes written to [buf], whose number is [bytes_read]. *)
Definition fat32_read (v : Fat32Volume) (path : list Z) (offset size : Z)
    : option (Fat32Volume * option (list Z)) :=
  r ← fat32_stat v path;
  match r with
  | (v1, None) => Some (v1, None)
  | (v1, Some e) =>
      if is_directory e then Some (v1, None)
      else if (file_size e <=? offset) || (size =? 0) then Some (v1, Some [])
      else
        let size := if file_size e <? u64 (offset + size) then file_size e - offset else size in
        let cluster_size := bytes_per_cluster v1 in
        let start_cluster_idx := u32 (offset / cluster_size) in
        let cluster_offset := u32 (offset mod cluster_size) in
        match skip_clusters (Z.to_nat start_cluster_idx) v1 (start_cluster e) with
        | (v2, None) => Some (v2, None)
        | (v2, Some curr) => read_loop (Z.to_nat size) v2 curr cluster_offset size false
        end
  end.

Definition fat32_read_file (v : Fat32Volume) (path : list Z)
    : option (Fat32Volume * option (list Z)) :=
  r ← fat32_stat v path;
  match r with
  | (v1, None) => Some (v1, None)
  | (v1, Some e) =>
      if is_directory e then Some (v1, None)
      else if file_size e =? 0 then Some (v1, Some [])
      else if negb (kmalloc_ok (file_size e)) then Some (v1, None)
      else
        r2 ← fat32_read v1 path 0 (file_size e);
        match r2 with
        | (v2, Some b) => if Z.of_nat (length b) =? file_size e then Some (v2, Some b) else Some (v2, None)
        | (v2, None) => Some (v2, None)
        end
  end.

Definition fat32_unmount (v : Fat32Volume) : Fat32Volume := set_cache v [] MAX64.
End Fat32.

Section Fs.
Context {D : Type} `{BlockDevice D} (kmalloc_ok : Z -> bool).

(** ** Mounting *)
Definition fat32_mount (ctrl : list (Z * D)) (nsid : Z) (p : GptPartition) : option Fat32Volume :=
  d ← find_ns ctrl nsid;
  if bd_block_size d =? 0 then None
  else if negb (kmalloc_ok (bd_block_size d)) then None
  else
    b ← nvme_read d (starting_lba p) 1;
    if negb (le16 b 510 =? FAT32_SIGNATURE_55AA) then None
    else
      let bps := le16 b 11 in
      let spc := byte_at b 13 in
      let reserved := le16 b 14 in
      let nfats := byte_at b 16 in
      let root_entry_count := le16 b 17 in
      if (bps =? 0) || negb (bps mod 512 =? 0) then None
      else if (spc =? 0) || negb (Z.land spc (spc - 1) =? 0) then None
      else
        let total := if negb (le16 b 19 =? 0) then le16 b 19 else le32 b 32 in
        let fsize := if negb (le16 b 22 =? 0) then le16 b 22 else le32 b 36 in
        if (fsize =? 0) || (nfats =? 0) then None
        else
          let root_dir_sectors := (root_entry_count * 32 + (bps - 1)) / bps in
          let data_sectors := u32 (total - (reserved + u32 (nfats * fsize) + root_dir_sectors)) in
          let clusters := data_sectors / spc in
          if clusters <? 65525 then None
          else if negb (kmalloc_ok bps) then None
          else
            let fat_start := u64 (starting_lba p + reserved) in
            Some (mkVolume (starting_lba p) (sector_count p) bps spc reserved nfats total fsize
                    (le32 b 44) (le16 b 48) fat_start
                    (u64 (fat_start + nfats * fsize + root_dir_sectors)) clusters (u32 (bps * spc))
                    [] MAX64 (trim_trailing_spaces (bytes_from b 71 11) 11)
                    (trim_trailing_spaces (bytes_from b 3 8) 8)).

(** ** The root file system: [g_root_volume] with its device, when mounted *)
Definition Root : Type := option (D * Fat32Volume).

Definition fs_target (t : GptTable) : option GptPartition :=
  match gpt_find_esp t with
  | Some p => Some p
  | None => match gpt_find_basic_data t with
            | Some p => Some p
            | None => head (partitions t)
            end
  end.

(** The namespaces of one controller, in order. *)
Fixpoint mount_ns (ctrl l : list (Z * D)) : Root :=
  match l with
  | [] => None
  | (nsid, _) :: r =>
      let '(t, rc) := gpt_parse kmalloc_ok ctrl nsid (mkTable [] 0 0 0 []) in
      if negb (rc =? 0) then mount_ns ctrl r
      else match fs_target t with
           | None => mount_ns ctrl r
           | Some p => match find_ns ctrl nsid, fat32_mount ctrl nsid p with
                       | Some d, Some v => Some (d, v)
                       | _, _ => mount_ns ctrl r
                       end
           end
  end.

Fixpoint mount_ctrls (l : list (list (Z * D))) : Root :=
  match l with
  | [] => None
  | c :: r => match mount_ns c c with Some x => Some x | None => mount_ctrls r end
  end.

Definition fs_init (root : Root) (ctrls : list (list (Z * D))) : Root * Z :=
  match root with
  | Some _ => (root, 0)
  | None => match mount_ctrls ctrls with
            | Some x => (Some x, 0)
            | None => (None, -1)
            end
  end.

(** The wrappers fail without a root volume and keep its cache. *)
Definition with_root {A} (f : D -> Fat32Volume -> option (Fat32Volume * option A)) (root : Root)
    : option (Root * option A) :=
  match root with
  | None => Some (None, None)
  | Some (d, v) => '(v1, r) ← f d v; Some (Some (d, v1), r)
  end.

Definition fs_read_file (root : Root) (path : list Z) : option (Root * option (list Z)) :=
  with_root (fun d v => fat32_read_file kmalloc_ok d v path) root.
Definition fs_read (root : Root) (path : list Z) (offset size : Z) : option (Root * option (list Z)) :=
  with_root (fun d v => fat32_read kmalloc_ok d v path offset size) root.
Definition fs_list_dir (root : Root) (path : option (list Z))
    : option (Root * option (list Fat32DirEntry)) :=
  with_root (fun d v => fat32_list_dir kmalloc_ok d v path) root.
Definition fs_stat (root : Root) (path : list Z) : option (Root * option Fat32DirEntry) :=
  with_root (fun d v => fat32_stat kmalloc_ok d v path) root.
Definition fs_get_root_volume (root : Root) : option Fat32Volume := snd <$> root.
End Fs.
