(* ===== verification/FatRead.v ===== *)
(** * Correctness of the FAT32 reads

    The FAT cache is transparent, chain walks terminate, and a file read
    returns the requested slice of the file's cluster data. *)

From Stdlib Require Import ZArith Lia Bool.
From stdpp Require Import base list.
From S2P Require Import Prelude Block Gpt Fat32.

Section Proofs.
Context {D : Type} `{BlockDevice D} `{!BlockDeviceLaws D} (km : Z -> bool) (d : D).
Implicit Types (v : Fat32Volume).

(** ** The cache *)

(** Equal up to the cache. *)
Definition same_geom v v' : Prop := set_cache v' [] 0 = set_cache v [] 0.

Lemma same_geom_refl v : same_geom v v.
Proof. done. Qed.
Lemma same_geom_trans v1 v2 v3 : same_geom v1 v2 -> same_geom v2 v3 -> same_geom v1 v3.
Proof. unfold same_geom. congruence. Qed.
Lemma same_geom_cache v c lba : same_geom v (set_cache v c lba).
Proof. done. Qed.

Lemma same_geom_fields v v' : same_geom v v' ->
  bytes_per_sector v' = bytes_per_sector v /\ sectors_per_cluster v' = sectors_per_cluster v /\
  fat_size v' = fat_size v /\ fat_start_lba v' = fat_start_lba v /\
  data_start_lba v' = data_start_lba v /\ total_clusters v' = total_clusters v /\
  bytes_per_cluster v' = bytes_per_cluster v /\ root_cluster v' = root_cluster v.
Proof. unfold same_geom, set_cache. intros E. injection E. intros. done. Qed.

(** The FAT entry of a cluster, read without the cache. *)
Definition fat_next v (cluster : Z) : option Z :=
  if (cluster <? 2) || (u32 (total_clusters v + 2) <=? cluster) then None
  else
    let off := u32 (cluster * 4) in
    if fat_size v <=? off / bytes_per_sector v then None
    else
      b ← nvme_read d (u64 (fat_start_lba v + off / bytes_per_sector v)) 1;
      Some (Z.land (le32 b (off mod bytes_per_sector v)) FAT32_CLUSTER_MASK).

(** The cache holds the block it is labelled with, and the label used for an
    empty cache is no FAT sector. *)
Record vol_ok v : Prop := {
  vo_cache : fat_cache_lba v = MAX64 \/ nvme_read d (fat_cache_lba v) 1 = Some (fat_cache v);
  vo_fat : 0 <= fat_start_lba v /\ 0 <= fat_size v /\ fat_start_lba v + fat_size v < 2 ^ 64;
  vo_bps : 0 < bytes_per_sector v;
  vo_clusters : 0 <= total_clusters v
}.

Lemma vol_ok_cache v c lba : vol_ok v -> lba = MAX64 \/ nvme_read d lba 1 = Some c ->
  vol_ok (set_cache v c lba).
Proof. intros [A B C E] Hc. by constructor. Qed.

Lemma fat_next_geom v v' c : same_geom v v' -> fat_next v' c = fat_next v c.
Proof.
  intros G. destruct (same_geom_fields v v' G) as (E1 & _ & E3 & E4 & _ & E6 & _).
  unfold fat_next. by rewrite E1, E3, E4, E6.
Qed.

Lemma read_cluster_geom v v' c : same_geom v v' -> read_cluster d v' c = read_cluster d v c.
Proof.
  intros G. destruct (same_geom_fields v v' G) as (_ & E2 & _ & _ & E5 & E6 & _).
  unfold read_cluster, cluster_to_lba. by rewrite E2, E5, E6.
Qed.

Lemma get_next_cluster_spec v c : vol_ok v ->
  (get_next_cluster d v c).2 = fat_next v c /\ same_geom v (get_next_cluster d v c).1 /\
  vol_ok (get_next_cluster d v c).1.
Proof.
  intros V. unfold get_next_cluster, fat_next. destruct (_ || _); [done|]. cbv zeta.
  set (off := u32 (c * 4)). destruct (Z.leb_spec (fat_size v) (off / bytes_per_sector v)); [done|].
  assert (Hoff : 0 <= off) by apply (Z.mod_pos_bound _ (2 ^ 32) ltac:(lia)).
  pose proof (vo_bps v V). assert (0 <= off / bytes_per_sector v) by (apply Z.div_pos; lia).
  destruct (vo_fat v V) as (F1 & F2 & F3).
  set (t := u64 (fat_start_lba v + off / bytes_per_sector v)).
  assert (Ht : t = fat_start_lba v + off / bytes_per_sector v) by (apply u64_id; unfold is_u64; lia).
  destruct (Z.eqb_spec (fat_cache_lba v) t) as [E|E]; cbn [negb].
  - destruct (vo_cache v V) as [Em|Er]; [unfold MAX64 in Em; lia|]. rewrite <- E, Er. done.
  - destruct (nvme_read d t 1) as [b|] eqn:Er; cbn [fst snd mbind option_bind].
    + split_and!; [done|apply same_geom_cache|apply vol_ok_cache; auto].
    + split_and!; [done|apply same_geom_cache|apply vol_ok_cache; auto].
Qed.

(** ** Chains *)
Inductive is_chain v : Z -> list Z -> Prop :=
| chain_end c : in_chain c = false -> is_chain v c []
| chain_cons c n l : in_chain c = true -> fat_next v c = Some n -> is_chain v n l -> is_chain v c (c :: l).

Lemma is_chain_geom v v' c l : same_geom v v' -> is_chain v c l -> is_chain v' c l.
Proof.
  intros G. induction 1 as [c Hc|c n l Hc Hn _ IH]; [by constructor|].
  apply chain_cons with n; try done. by rewrite (fat_next_geom v).
Qed.

Lemma same_geom_sym v v' : same_geom v v' -> same_geom v' v.
Proof. done. Qed.

(** The counting pass terminates, and succeeds exactly on a finite chain of
    good clusters that is no longer than the volume. *)
Lemma count_chain_spec fuel : forall v c count, vol_ok v -> 0 <= count <= total_clusters v ->
  total_clusters v - count < Z.of_nat fuel ->
  exists v' r, count_chain d fuel v c count = Some (v', r) /\ same_geom v v' /\ vol_ok v' /\
    match r with
    | Some n => exists l, is_chain v c l /\ n = count + Z.of_nat (length l) /\ n <= total_clusters v /\
        FAT32_CLUSTER_BAD ∉ l
    | None => True
    end.
Proof.
  induction fuel as [|k IH]; intros v c count V Hc Hf; cbn [count_chain].
  - lia.
  - destruct (in_chain c) eqn:Ei.
    2: { exists v, (Some count). split_and!; try done. exists []. split_and!; [by constructor|simpl; lia|lia|].
         apply not_elem_of_nil. }
    destruct (Z.eqb_spec c FAT32_CLUSTER_BAD) as [|Hbad]; [by exists v, None|].
    destruct (Z.ltb_spec (total_clusters v) (count + 1)); [by exists v, None|].
    destruct (get_next_cluster_spec v c V) as (En & G1 & V1).
    destruct (get_next_cluster d v c) as [v1 [n|]]; cbn [fst snd] in *; [|by exists v1, None].
    destruct (same_geom_fields v v1 G1) as (_ & _ & _ & _ & _ & Et & _).
    destruct (IH v1 n (count + 1) V1) as (v' & r & E & G & V' & Hr); [lia|lia|].
    exists v', r. split_and!; try done; [by apply (same_geom_trans _ v1)|].
    destruct r as [m|]; [|done]. destruct Hr as (l & Hl & Hm & Hle & Hb). exists (c :: l).
    split_and!; [|simpl; lia|lia|].
    + apply chain_cons with n; try done. by apply (is_chain_geom v1).
    + rewrite elem_of_cons. intros [?|?]; [by apply Hbad|done].
Qed.

Lemma read_chain_spec l : forall v c, vol_ok v -> is_chain v c l ->
  exists v' r, read_chain d (length l) v c = (v', r) /\ same_geom v v' /\ vol_ok v' /\
    match r with
    | Some buf => exists ds, Forall2 (fun x data => read_cluster d v x = Some data) l ds /\ buf = concat ds
    | None => True
    end.
Proof.
  induction l as [|x l IH]; intros v c V Hch.
  - exists v, (Some []). split_and!; try done. exists []. split; [constructor|done].
  - inversion Hch as [|? n ? Hin Hnx Hch']; subst. cbn [length read_chain]. rewrite Hin.
    destruct (read_cluster d v x) as [data|] eqn:Er; [|by exists v, None].
    destruct (get_next_cluster_spec v x V) as (En & G1 & V1).
    destruct (get_next_cluster d v x) as [v1 r1]; cbn [fst snd] in *. rewrite En, Hnx.
    destruct (IH v1 n V1) as (v' & r & E & G & V' & Hr); [by apply (is_chain_geom v)|].
    rewrite E. exists v', (rest ← r; Some (data ++ rest)). split_and!; try done; [by apply (same_geom_trans _ v1)|].
    destruct r as [rest|]; [|done]. destruct Hr as (ds & Hds & ->). exists (data :: ds).
    split; [|done]. constructor; [done|]. eapply Forall2_impl; [exact Hds|]. cbv beta.
    intros y dt. by rewrite (read_cluster_geom v v1).
Qed.

Lemma read_cluster_chain_spec v start : vol_ok v -> 2 <= start ->
  exists v' r, read_cluster_chain km d v start = Some (v', r) /\ same_geom v v' /\ vol_ok v' /\
    match r with
    | Some (Some buf) => exists l ds, is_chain v start l /\ l <> [] /\
        Z.of_nat (length l) <= total_clusters v /\ (FAT32_CLUSTER_BAD ∉ l) /\
        Forall2 (fun c data => read_cluster d v c = Some data) l ds /\ buf = concat ds
    | Some None => in_chain start = false
    | None => True
    end.
Proof.
  intros V Hs. unfold read_cluster_chain. destruct (Z.ltb_spec start 2); [lia|].
  pose proof (vo_clusters v V) as Hc.
  destruct (count_chain_spec (Z.to_nat (total_clusters v + 2)) v start 0 V) as (v1 & r & E & G1 & V1 & Hr);
    [lia|lia|].
  rewrite E. cbn [mbind option_bind]. destruct r as [n|]; [|by exists v1, None].
  destruct Hr as (l & Hl & Hn & Hle & Hb).
  destruct (Z.eqb_spec n 0) as [->|Hn0].
  - exists v1, (Some None). split_and!; try done. assert (l = []) as -> by (destruct l; [done|simpl in Hn; lia]).
    by inversion Hl.
  - destruct (negb (km _)); [by exists v1, None|].
    assert (En : Z.to_nat n = length l) by lia. rewrite En.
    destruct (read_chain_spec l v1 start V1) as (v2 & b & Eb & G2 & V2 & Hd); [by apply (is_chain_geom v)|].
    rewrite Eb. exists v2, (Some <$> b). split_and!; try done; [by apply (same_geom_trans _ v1)|].
    destruct b as [buf|]; cbn [fmap option_fmap option_map]; [|done]. destruct Hd as (ds & Hds & ->).
    exists l, ds. split_and!; try done; [by intros ->|lia|].
    eapply Forall2_impl; [exact Hds|]. cbv beta. intros y dt. by rewrite (read_cluster_geom v v1).
Qed.

(** ** File data *)

(** The device's blocks are the volume's sectors, and the cluster size is
    what [fat32_mount] computes. *)
Definition vol_matches v : Prop :=
  bd_block_size d = bytes_per_sector v /\ 0 < sectors_per_cluster v /\
  bytes_per_cluster v = bytes_per_sector v * sectors_per_cluster v.

Lemma vol_matches_geom v v' : same_geom v v' -> vol_matches v -> vol_matches v'.
Proof.
  intros G. destruct (same_geom_fields v v' G) as (E1 & E2 & _ & _ & _ & _ & E7 & _).
  unfold vol_matches. by rewrite E1, E2, E7.
Qed.

Lemma read_cluster_length v c data : vol_matches v -> read_cluster d v c = Some data ->
  Z.of_nat (length data) = bytes_per_cluster v.
Proof.
  intros (M1 & M2 & M3). unfold read_cluster. destruct (_ || _); [done|]. intros E.
  rewrite (bd_length _ _ _ _ E) by lia. rewrite M1, M3. lia.
Qed.

Definition chain_data v (l : list Z) (ds : list (list Z)) : Prop :=
  Forall2 (fun c data => read_cluster d v c = Some data) l ds.

Lemma chain_data_geom v v' l ds : same_geom v v' -> chain_data v l ds -> chain_data v' l ds.
Proof.
  intros G Hd. eapply Forall2_impl; [exact Hd|]. cbv beta. intros y dt. by rewrite (read_cluster_geom v v').
Qed.

Lemma bytes_from_cons a b off n : 0 <= off <= Z.of_nat (length a) -> Z.of_nat (length a) <= off + n ->
  bytes_from (a ++ b) off n = drop (Z.to_nat off) a ++ bytes_from b 0 (n - (Z.of_nat (length a) - off)).
Proof.
  intros Hoff Hn. unfold bytes_from. rewrite drop_app_le by lia.
  rewrite take_app_ge by (rewrite length_drop; lia). f_equal. rewrite length_drop. simpl. f_equal. lia.
Qed.

Lemma bytes_from_app_l a b off n : 0 <= off -> 0 <= n -> off + n <= Z.of_nat (length a) ->
  bytes_from (a ++ b) off n = bytes_from a off n.
Proof.
  intros Ho Hn Hl. unfold bytes_from. rewrite drop_app_le by lia.
  by rewrite take_app_le by (rewrite length_drop; lia).
Qed.

Lemma read_loop_spec l : forall fuel v c off remaining temp ds, vol_ok v -> vol_matches v ->
  is_chain v c l -> chain_data v l ds -> (forall n, km n = true) ->
  0 <= off < bytes_per_cluster v -> 0 <= remaining ->
  off + remaining <= Z.of_nat (length l) * bytes_per_cluster v \/ remaining = 0 ->
  (Z.to_nat remaining <= fuel)%nat ->
  exists v', read_loop km d fuel v c off remaining temp =
    Some (v', Some (bytes_from (concat ds) off remaining)) /\ same_geom v v' /\ vol_ok v'.
Proof.
  induction l as [|x l IH]; intros fuel v c off rem temp ds V M Hch Hds Hkm Hoff Hrem Hlen Hfuel.
  - assert (rem = 0) as -> by (destruct Hlen; simpl in *; lia). exists v. destruct fuel; done.
  - inversion Hch as [|? n ? Hin Hnx Hch']; subst. inversion Hds as [|? data ? ds' Hrd Hds']; subst.
    pose proof (read_cluster_length v x data M Hrd) as Hdl.
    destruct (Z.eq_dec rem 0) as [->|Hr0].
    { exists v. destruct fuel; done. }
    destruct fuel as [|k]; [lia|]. cbn [read_loop].
    destruct (Z.ltb_spec 0 rem); [|lia]. rewrite Hin. cbn [andb].
    set (cs := bytes_per_cluster v) in *. set (chunk := Z.min (cs - off) rem).
    assert (Hck : 1 <= chunk <= rem) by lia.
    rewrite Hkm. cbn [negb]. rewrite andb_false_r. rewrite Hrd. cbv zeta.
    set (whole := (off =? 0) && (chunk =? cs)).
    assert (Hpart : (if whole then data else bytes_from data off chunk) = bytes_from data off chunk).
    { unfold whole. destruct (Z.eqb_spec off 0) as [->|]; [|done]. cbn [andb].
      destruct (Z.eqb_spec chunk cs) as [->|]; [|done]. unfold bytes_from. change (Z.to_nat 0) with 0%nat. rewrite drop_0.
      rewrite take_ge by lia. done. }
    rewrite Hpart. cbn [concat]. destruct (Z.ltb_spec 0 (rem - chunk)) as [Hmore|Hlast].
    + assert (Ec : chunk = cs - off) by lia.
      destruct (get_next_cluster_spec v x V) as (En & G1 & V1).
      destruct (get_next_cluster d v x) as [v1 r1]; cbn [fst snd] in *. rewrite En, Hnx.
      destruct (same_geom_fields v v1 G1) as (_ & _ & _ & _ & _ & _ & E7 & _).
      destruct (IH k v1 n 0 (rem - chunk) (temp || negb whole) ds' V1) as (v' & E & G & V').
      * by apply (vol_matches_geom v).
      * by apply (is_chain_geom v).
      * by apply (chain_data_geom v).
      * done.
      * rewrite E7. fold cs. lia.
      * lia.
      * rewrite E7. fold cs. cbn [length] in Hlen. rewrite Nat2Z.inj_succ, Z.mul_succ_l in Hlen. lia.
      * lia.
      * rewrite E. cbn [mbind option_bind]. exists v'. split_and!; [|by apply (same_geom_trans _ v1)|done].
        rewrite (bytes_from_cons data (concat ds') off rem) by lia.
        assert (Ed : bytes_from data off chunk = drop (Z.to_nat off) data)
          by (unfold bytes_from; rewrite take_ge by (rewrite length_drop; lia); done).
        rewrite Ed. by replace (rem - (Z.of_nat (length data) - off)) with (rem - chunk) by lia.
    + assert (E0 : rem - chunk = 0) by lia. rewrite E0.
      assert (El : read_loop km d k v x 0 0 (temp || negb whole) = Some (v, Some [])) by (destruct k; done).
      rewrite El. cbn [mbind option_bind]. exists v. split_and!; try done.
      rewrite app_nil_r. rewrite (bytes_from_app_l data) by lia. by replace chunk with rem by lia.
Qed.

Lemma skip_clusters_spec n : forall v c l ds, vol_ok v -> is_chain v c l -> chain_data v l ds ->
  (n <= length l)%nat ->
  exists v' c', skip_clusters d n v c = (v', Some c') /\ same_geom v v' /\ vol_ok v' /\
    is_chain v' c' (drop n l) /\ chain_data v' (drop n l) (drop n ds).
Proof.
  induction n as [|n IH]; intros v c l ds V Hch Hds Hn; cbn [skip_clusters].
  - exists v, c. done.
  - destruct l as [|x l]; [simpl in Hn; lia|].
    inversion Hch as [|? m ? Hin Hnx Hch']; subst. inversion Hds as [|? data ? ds' Hrd Hds']; subst.
    assert (Hr : (x <? 2) || (FAT32_CLUSTER_EOC <=? x) = false).
    { unfold in_chain in Hin. apply andb_true_iff in Hin as [H1 H2]. breflect.
      apply orb_false_iff. split; [apply Z.ltb_ge; lia|apply Z.leb_gt; lia]. }
    rewrite Hr. destruct (get_next_cluster_spec v x V) as (En & G1 & V1).
    destruct (get_next_cluster d v x) as [v1 r1]; cbn [fst snd] in *. rewrite En, Hnx.
    destruct (IH v1 m l ds' V1) as (v' & c' & E & G & V' & Hc' & Hd').
    + by apply (is_chain_geom v).
    + by apply (chain_data_geom v).
    + simpl in Hn. lia.
    + exists v', c'. split_and!; try done. by apply (same_geom_trans _ v1).
Qed.

Lemma concat_drop v l ds n : vol_matches v -> chain_data v l ds -> (n <= length ds)%nat ->
  concat (drop n ds) = drop (n * Z.to_nat (bytes_per_cluster v)) (concat ds).
Proof.
  intros M Hd. revert n. induction Hd as [|x data l ds Hrd Hd IH]; intros n Hn.
  - destruct n; [done|simpl in Hn; lia].
  - destruct n as [|n]; [done|]. cbn [drop concat Nat.mul]. simpl in Hn. rewrite IH by lia.
    pose proof (read_cluster_length v x data M Hrd).
    rewrite drop_app_ge by lia. f_equal. lia.
Qed.

Lemma bytes_from_drop l k off n : 0 <= k -> 0 <= off ->
  bytes_from (drop (Z.to_nat k) l) off n = bytes_from l (k + off) n.
Proof. intros Hk Ho. unfold bytes_from. rewrite drop_drop. do 2 f_equal. lia. Qed.

(** A read of a file whose chain covers it. *)
Lemma fat32_read_spec v v1 path e offset size l ds :
  fat32_stat km d v path = Some (v1, Some e) -> is_directory e = false ->
  vol_ok v1 -> vol_matches v1 -> (forall n, km n = true) ->
  is_chain v1 (start_cluster e) l -> chain_data v1 l ds ->
  file_size e <= Z.of_nat (length l) * bytes_per_cluster v1 -> file_size e < 2 ^ 32 ->
  bytes_per_cluster v1 < 2 ^ 32 ->
  0 <= offset -> 0 < size -> offset + size < 2 ^ 64 ->
  exists v', fat32_read km d v path offset size = Some (v', Some
    (if file_size e <=? offset then []
     else bytes_from (concat ds) offset (Z.min size (file_size e - offset)))).
Proof.
  intros Est Hdir V M Hkm Hch Hds Hfs Hfb Hcb Ho Hs Hb. unfold fat32_read. rewrite Est.
  cbn [mbind option_bind]. rewrite Hdir.
  destruct (Z.leb_spec (file_size e) offset); cbn [orb]; [by exists v1|].
  destruct (Z.eqb_spec size 0); [lia|]. cbv zeta. rewrite (u64_id (offset + size)) by (unfold is_u64; lia).
  set (sz := if file_size e <? offset + size then file_size e - offset else size).
  assert (Hsz : sz = Z.min size (file_size e - offset))
    by (unfold sz; destruct (Z.ltb_spec (file_size e) (offset + size)); lia).
  rewrite <- Hsz. set (cs := bytes_per_cluster v1) in *.
  assert (Hcs : 0 < cs) by (destruct M as (_ & M2 & M3); pose proof (vo_bps v1 V); unfold cs; nia).
  pose proof (Z.div_mod offset cs ltac:(lia)) as Hdm. pose proof (Z.mod_pos_bound offset cs Hcs) as Hmb.
  assert (Hq0 : 0 <= offset / cs) by (apply Z.div_pos; lia).
  assert (Hq : offset / cs <= offset) by (apply Z.div_le_upper_bound; nia).
  assert (Eu1 : u32 (offset / cs) = offset / cs) by (apply Z.mod_small; lia).
  assert (Eu2 : u32 (offset mod cs) = offset mod cs) by (apply Z.mod_small; lia). rewrite Eu1, Eu2.
  assert (Hql : offset / cs < Z.of_nat (length l)) by (apply Z.div_lt_upper_bound; lia).
  destruct (skip_clusters_spec (Z.to_nat (offset / cs)) v1 (start_cluster e) l ds V Hch Hds ltac:(lia))
    as (v2 & c' & E2 & G2 & V2 & Hc2 & Hd2).
  rewrite E2. destruct (same_geom_fields v1 v2 G2) as (_ & _ & _ & _ & _ & _ & E7 & _).
  pose proof (vol_matches_geom v1 v2 G2 M) as M2.
  destruct (read_loop_spec (drop (Z.to_nat (offset / cs)) l) (Z.to_nat sz) v2 c' (offset mod cs) sz false
    (drop (Z.to_nat (offset / cs)) ds) V2 M2 Hc2 Hd2 Hkm) as (v' & E & _ & _).
  - rewrite E7. fold cs. lia.
  - lia.
  - left. rewrite E7, length_drop. fold cs. rewrite Nat2Z.inj_sub, Z2Nat.id by lia. nia.
  - lia.
  - exists v'. rewrite E. do 3 f_equal.
    assert (Hlen : length ds = length l) by (symmetry; by apply (Forall2_length _ _ _ Hds)).
    rewrite (concat_drop v1 l ds) by (done || lia). fold cs.
    replace (Z.to_nat (offset / cs) * Z.to_nat cs)%nat with (Z.to_nat (offset / cs * cs)) by lia.
    rewrite bytes_from_drop by nia. f_equal. lia.
Qed.

(** Reading the whole file. *)
Lemma length_concat_chain v l ds : vol_matches v -> chain_data v l ds ->
  Z.of_nat (length (concat ds)) = Z.of_nat (length l) * bytes_per_cluster v.
Proof.
  intros M. induction 1 as [|x data l ds Hrd Hd IH]; [done|]. cbn [concat length].
  rewrite length_app, Nat2Z.inj_add, IH. pose proof (read_cluster_length v x data M Hrd). lia.
Qed.

(** ** Lookups *)

(** Two runs of an operation, on volumes that differ only in their cache,
    agree: both return, with the same result, and change only the cache. *)
Definition agrees {A} v (r1 r2 : option (Fat32Volume * A)) : Prop :=
  exists v1 v2 x, r1 = Some (v1, x) /\ r2 = Some (v2, x) /\
    same_geom v v1 /\ same_geom v v2 /\ vol_ok v1 /\ vol_ok v2.

(** What every operation keeps: it returns, and only the cache changes. *)
Definition keeps {A} v (r : option (Fat32Volume * A)) : Prop :=
  exists v' x, r = Some (v', x) /\ same_geom v v' /\ vol_ok v'.

Lemma agrees_keeps {A} v (r : option (Fat32Volume * A)) : agrees v r r -> keeps v r.
Proof. intros (v1 & v2 & x & E & _ & G & _ & V & _). by exists v1, x. Qed.

(** Volumes that differ in their cache only, both with the invariant. *)
Definition twins v v1 v2 : Prop := same_geom v v1 /\ same_geom v v2 /\ vol_ok v1 /\ vol_ok v2.

Lemma twins_same v v1 v2 : twins v v1 v2 -> same_geom v1 v2.
Proof. intros (G1 & G2 & _). by apply (same_geom_trans _ v); [apply same_geom_sym|]. Qed.

Lemma agrees_here {A} v v1 v2 (x : A) : twins v v1 v2 -> agrees v (Some (v1, x)) (Some (v2, x)).
Proof. intros (G1 & G2 & V1 & V2). exists v1, v2, x. done. Qed.

Lemma agrees_bind {A B} v (r1 r2 : option (Fat32Volume * A)) (f1 f2 : Fat32Volume * A -> option (Fat32Volume * B)) :
  agrees v r1 r2 -> (forall v1 v2 x, twins v v1 v2 -> agrees v (f1 (v1, x)) (f2 (v2, x))) ->
  agrees v (r1 ≫= f1) (r2 ≫= f2).
Proof.
  intros (v1 & v2 & x & -> & -> & G1 & G2 & V1 & V2) Hf. cbn [mbind option_bind]. by apply Hf.
Qed.

Lemma twins_next v v1 v2 c : twins v v1 v2 ->
  exists w1 w2, get_next_cluster d v1 c = (w1, fat_next v c) /\ get_next_cluster d v2 c = (w2, fat_next v c) /\
    twins v w1 w2.
Proof.
  intros (G1 & G2 & V1 & V2).
  destruct (get_next_cluster_spec v1 c V1) as (E1 & G1' & V1').
  destruct (get_next_cluster_spec v2 c V2) as (E2 & G2' & V2').
  rewrite (fat_next_geom v v1) in E1 by done. rewrite (fat_next_geom v v2) in E2 by done.
  destruct (get_next_cluster d v1 c) as [w1 r1], (get_next_cluster d v2 c) as [w2 r2]; cbn [fst snd] in *.
  subst r1 r2. exists w1, w2. split_and!; [done|done|].
  split_and!; [by apply (same_geom_trans _ v1)|by apply (same_geom_trans _ v2)|done|done].
Qed.

Lemma twins_fields v v1 v2 : twins v v1 v2 ->
  total_clusters v1 = total_clusters v /\ total_clusters v2 = total_clusters v /\
  bytes_per_cluster v1 = bytes_per_cluster v /\ bytes_per_cluster v2 = bytes_per_cluster v /\
  root_cluster v1 = root_cluster v /\ root_cluster v2 = root_cluster v.
Proof.
  intros (G1 & G2 & _). destruct (same_geom_fields v v1 G1) as (_ & _ & _ & _ & _ & ? & ? & ?).
  destruct (same_geom_fields v v2 G2) as (_ & _ & _ & _ & _ & ? & ? & ?). done.
Qed.

Lemma twins_read v v1 v2 c : twins v v1 v2 ->
  read_cluster d v1 c = read_cluster d v c /\ read_cluster d v2 c = read_cluster d v c.
Proof. intros (G1 & G2 & _). by rewrite (read_cluster_geom v v1), (read_cluster_geom v v2). Qed.

(** Case split on the next cluster of both runs. *)
Ltac next_both T v c :=
  let E1 := fresh "E1" in let E2 := fresh "E2" in
  destruct (twins_next v _ _ c T) as (? & ? & E1 & E2 & ?); rewrite E1, E2; clear E1 E2;
  destruct (fat_next v c) as [?|]; [|by apply agrees_here].

Lemma count_chain_agrees v fuel : forall v1 v2 c count, twins v v1 v2 -> 0 <= count <= total_clusters v ->
  total_clusters v - count < Z.of_nat fuel ->
  agrees v (count_chain d fuel v1 c count) (count_chain d fuel v2 c count).
Proof.
  induction fuel as [|k IH]; intros v1 v2 c count T Hc Hf; cbn [count_chain]; [lia|].
  destruct (twins_fields _ _ _ T) as (Et1 & Et2 & _).
  destruct (in_chain c); [|by apply agrees_here]. destruct (c =? FAT32_CLUSTER_BAD); [by apply agrees_here|].
  rewrite Et1, Et2. destruct (Z.ltb_spec (total_clusters v) (count + 1)); [by apply agrees_here|].
  next_both T v c. apply IH; [done|lia|lia].
Qed.

Lemma read_chain_agrees v n : forall v1 v2 c, twins v v1 v2 ->
  exists w1 w2 r, read_chain d n v1 c = (w1, r) /\ read_chain d n v2 c = (w2, r) /\ twins v w1 w2.
Proof.
  induction n as [|n IH]; intros v1 v2 c T; cbn [read_chain]; [by exists v1, v2, (Some [])|].
  destruct (in_chain c); [|by exists v1, v2, (Some [])].
  destruct (twins_read _ _ _ c T) as (-> & ->). destruct (read_cluster d v c) as [data|]; [|by exists v1, v2, None].
  destruct (twins_next v _ _ c T) as (w1 & w2 & -> & -> & T').
  destruct (fat_next v c) as [m|]; [|by exists w1, w2, None].
  destruct (IH w1 w2 m T') as (x1 & x2 & r & -> & -> & T'').
  by exists x1, x2, (rest ← r; Some (data ++ rest)).
Qed.

Lemma read_cluster_chain_agrees v v1 v2 start : 0 <= total_clusters v -> twins v v1 v2 ->
  agrees v (read_cluster_chain km d v1 start) (read_cluster_chain km d v2 start).
Proof.
  intros Ht T. unfold read_cluster_chain. destruct (twins_fields _ _ _ T) as (Et1 & Et2 & _).
  destruct (start <? 2); [by apply agrees_here|]. rewrite Et1, Et2.
  apply agrees_bind; [apply count_chain_agrees; [done|lia|lia]|]. intros w1 w2 [n|] T'; [|by apply agrees_here].
  destruct (n =? 0); [by apply agrees_here|]. destruct (twins_fields _ _ _ T') as (_ & _ & -> & -> & _).
  destruct (negb (km _)); [by apply agrees_here|].
  destruct (read_chain_agrees v (Z.to_nat n) w1 w2 start T') as (x1 & x2 & r & -> & -> & T'').
  by apply agrees_here.
Qed.

Lemma list_dir_cluster_agrees v v1 v2 c : 0 <= total_clusters v -> twins v v1 v2 ->
  agrees v (list_dir_cluster km d v1 c) (list_dir_cluster km d v2 c).
Proof.
  intros Ht T. unfold list_dir_cluster. destruct (c <? 2); [by apply agrees_here|].
  apply agrees_bind; [by apply read_cluster_chain_agrees|]. intros w1 w2 x T'.
  destruct x as [[buf|]|]; by apply agrees_here.
Qed.

Lemma find_in_dir_agrees v v1 v2 c name : 0 <= total_clusters v -> twins v v1 v2 ->
  agrees v (find_in_dir km d v1 c name) (find_in_dir km d v2 c name).
Proof.
  intros Ht T. unfold find_in_dir. destruct (c <? 2); [by apply agrees_here|].
  apply agrees_bind; [by apply list_dir_cluster_agrees|]. intros w1 w2 x T'. by apply agrees_here.
Qed.

Lemma skip_seps_length p : (length (skip_seps p) <= length p)%nat.
Proof. induction p as [|c p IH]; [done|]. cbn [skip_seps]. destruct (is_sep c); simpl; lia. Qed.

Lemma skip_seps_head p c r : skip_seps p = c :: r -> is_sep c = false.
Proof.
  induction p as [|x p IH]; [done|]. cbn [skip_seps]. destruct (is_sep x) eqn:E; [done|].
  by intros [= <- <-].
Qed.

Lemma take_token_length p : (length (take_token p).1 + length (take_token p).2 = length p)%nat.
Proof.
  induction p as [|c p IH]; [done|]. cbn [take_token]. destruct (is_sep c); [done|].
  destruct (take_token p) as [t q]. cbn [fst snd] in *. simpl. lia.
Qed.

(** The path loop never runs out of fuel: each round drops a component. *)
Lemma stat_loop_agrees v fuel : forall v1 v2 p c cur, 0 <= total_clusters v -> twins v v1 v2 ->
  (length p <= fuel)%nat -> (forall x r, p = x :: r -> is_sep x = false) ->
  agrees v (stat_loop km d fuel v1 p c cur) (stat_loop km d fuel v2 p c cur).
Proof.
  induction fuel as [|k IH]; intros v1 v2 p c cur Ht T Hf Hp.
  - destruct p; [by apply agrees_here|simpl in Hf; lia].
  - destruct p as [|x p]; [by apply agrees_here|]. cbn [stat_loop]. specialize (Hp x p eq_refl).
    pose proof (take_token_length (x :: p)) as Hl. cbn [take_token] in *. rewrite Hp in *.
    destruct (take_token p) as [t q]; cbn [fst snd] in *.
    destruct (negb (km _)); [by apply agrees_here|].
    apply agrees_bind; [by apply find_in_dir_agrees|]. intros w1 w2 [e|] T'; [|by apply agrees_here].
    pose proof (skip_seps_length q) as Hq.
    assert (Hrec : forall cl, agrees v (stat_loop km d k w1 (skip_seps q) cl e) (stat_loop km d k w2 (skip_seps q) cl e)).
    { intros cl. apply IH; [done|done|simpl in *; lia|apply skip_seps_head]. }
    destruct (skip_seps q); [done|]. destruct (negb (is_directory e)); [by apply agrees_here|]. apply Hrec.
Qed.

Lemma fat32_stat_agrees v v1 v2 path : 0 <= total_clusters v -> twins v v1 v2 ->
  agrees v (fat32_stat km d v1 path) (fat32_stat km d v2 path).
Proof.
  intros Ht T. unfold fat32_stat, root_entry. destruct (twins_fields _ _ _ T) as (_ & _ & _ & _ & -> & ->).
  destruct (skip_seps path) as [|c r] eqn:E; [by apply agrees_here|].
  apply stat_loop_agrees; [done|done|done|]. intros x l. rewrite <- E. apply skip_seps_head.
Qed.

Lemma fat32_list_dir_agrees v v1 v2 path : 0 <= total_clusters v -> twins v v1 v2 ->
  agrees v (fat32_list_dir km d v1 path) (fat32_list_dir km d v2 path).
Proof.
  intros Ht T. unfold fat32_list_dir.
  assert (Hp : forall p, let f w := (r ← fat32_stat km d w p;
    match r with
    | (v1, None) => Some (v1, None)
    | (v1, Some e) => if negb (is_directory e) then Some (v1, None)
                      else list_dir_cluster km d v1 (start_cluster e)
    end) in agrees v (f v1) (f v2)).
  { intros p f. apply agrees_bind; [by apply fat32_stat_agrees|]. intros w1 w2 [e|] T'; [|by apply agrees_here].
    destruct (negb (is_directory e)); [by apply agrees_here|]. by apply list_dir_cluster_agrees. }
  pose proof (list_dir_cluster_agrees v v1 v2 (root_cluster v) Ht T) as Hr.
  destruct (twins_fields _ _ _ T) as (_ & _ & _ & _ & -> & ->).
  repeat (done || apply Hp || apply Hr || case_match).
Qed.

Lemma skip_clusters_agrees v n : forall v1 v2 c, twins v v1 v2 ->
  exists w1 w2 r, skip_clusters d n v1 c = (w1, r) /\ skip_clusters d n v2 c = (w2, r) /\ twins v w1 w2.
Proof.
  induction n as [|n IH]; intros v1 v2 c T; cbn [skip_clusters]; [by exists v1, v2, (Some c)|].
  destruct (_ || _); [by exists v1, v2, None|].
  destruct (twins_next v _ _ c T) as (w1 & w2 & -> & -> & T').
  destruct (fat_next v c) as [m|]; [by apply IH|by exists w1, w2, None].
Qed.

Lemma read_loop_agrees v fuel : forall v1 v2 c off remaining temp, twins v v1 v2 ->
  0 < bytes_per_cluster v -> 0 <= off < bytes_per_cluster v -> remaining <= Z.of_nat fuel ->
  agrees v (read_loop km d fuel v1 c off remaining temp) (read_loop km d fuel v2 c off remaining temp).
Proof.
  induction fuel as [|k IH]; intros v1 v2 c off rem temp T Hcs Hoff Hf; cbn [read_loop].
  - destruct (Z.ltb_spec 0 rem); [lia|]. by apply agrees_here.
  - destruct (Z.ltb_spec 0 rem) as [Hr|Hr]; cbn [andb]; [|by apply agrees_here].
    destruct (in_chain c); [|by apply agrees_here]. cbv zeta.
    destruct (twins_fields _ _ _ T) as (_ & _ & -> & -> & _).
    destruct (_ && negb (km _)); [by apply agrees_here|].
    destruct (twins_read _ _ _ c T) as (-> & ->).
    destruct (read_cluster d v c) as [data|]; [|by apply agrees_here].
    set (chunk := Z.min (bytes_per_cluster v - off) rem). destruct (Z.ltb_spec 0 (rem - chunk)).
    + next_both T v c. apply agrees_bind; [apply IH; [done|lia|lia|lia]|].
      intros x1 x2 y T''. by apply agrees_here.
    + apply agrees_bind; [apply IH; [done|lia|lia|lia]|]. intros x1 x2 y T''. by apply agrees_here.
Qed.

Lemma fat32_read_agrees v v1 v2 path offset size : 0 <= total_clusters v -> twins v v1 v2 ->
  0 < bytes_per_cluster v < 2 ^ 32 -> 0 <= offset ->
  agrees v (fat32_read km d v1 path offset size) (fat32_read km d v2 path offset size).
Proof.
  intros Ht T Hcs Ho. unfold fat32_read. apply agrees_bind; [by apply fat32_stat_agrees|].
  intros w1 w2 [e|] T'; [|by apply agrees_here]. destruct (is_directory e); [by apply agrees_here|].
  destruct (_ || _); [by apply agrees_here|]. cbv zeta.
  destruct (twins_fields _ _ _ T') as (_ & _ & -> & -> & _).
  destruct (skip_clusters_agrees v (Z.to_nat (u32 (offset / bytes_per_cluster v))) w1 w2 (start_cluster e) T')
    as (x1 & x2 & r & -> & -> & T'').
  destruct r as [c|]; [|by apply agrees_here]. apply read_loop_agrees; [done|lia| |lia].
  pose proof (Z.mod_pos_bound offset (bytes_per_cluster v) ltac:(lia)).
  assert (Eu : u32 (offset mod bytes_per_cluster v) = offset mod bytes_per_cluster v)
    by (apply Z.mod_small; lia).
  rewrite Eu. lia.
Qed.

Lemma fat32_read_file_agrees v v1 v2 path : 0 <= total_clusters v -> twins v v1 v2 ->
  0 < bytes_per_cluster v < 2 ^ 32 ->
  agrees v (fat32_read_file km d v1 path) (fat32_read_file km d v2 path).
Proof.
  intros Ht T Hcs. unfold fat32_read_file. apply agrees_bind; [by apply fat32_stat_agrees|].
  intros w1 w2 [e|] T'; [|by apply agrees_here]. destruct (is_directory e); [by apply agrees_here|].
  destruct (file_size e =? 0); [by apply agrees_here|]. destruct (negb (km _)); [by apply agrees_here|].
  apply agrees_bind; [apply fat32_read_agrees; [done|done|done|lia]|].
  intros x1 x2 [b|] T''; [|by apply agrees_here]. destruct (_ =? file_size e); by apply agrees_here.
Qed.

Lemma twins_refl v : vol_ok v -> twins v v v.
Proof. done. Qed.
End Proofs.
