(* ===== verification/FatMount.v ===== *)
(** * Mounted FAT32 volumes

    Mounting establishes the volume invariant, every operation on a mounted
    volume returns and keeps it, chain reads are exactly the concatenation of
    the chain's clusters, and file reads are exactly slices of it. *)

From Stdlib Require Import ZArith Lia Bool.
From stdpp Require Import base list.
From S2P Require Import Prelude Block Gpt Fat32 FatRead.

Section Mounted.
Context {D : Type} `{BlockDevice D} `{!BlockDeviceLaws D} (km : Z -> bool).
Implicit Types (d : D) (v : Fat32Volume).

(** ** Mounting *)

Lemma le16_range b off : Forall is_byte b -> 0 <= le16 b off < 65536.
Proof. intros Hb. apply (le_range 2 b off Hb). Qed.
Lemma le32_range b off : Forall is_byte b -> 0 <= le32 b off < 2 ^ 32.
Proof. intros Hb. apply (le_range 4 b off Hb). Qed.

(** What holds of a volume straight after the mount. *)
Record mounted d (p : GptPartition) v : Prop := {
  mt_ok : vol_ok d v;
  mt_empty : fat_cache_lba v = MAX64;
  mt_part : partition_start_lba v = starting_lba p /\ starting_lba p <= fat_start_lba v;
  mt_bps : 512 <= bytes_per_sector v < 65536 /\ (512 | bytes_per_sector v);
  mt_spc : 1 <= sectors_per_cluster v < 256;
  mt_cluster : bytes_per_cluster v = bytes_per_sector v * sectors_per_cluster v;
  mt_count : 65525 <= total_clusters v < 2 ^ 32
}.

Ltac proj_volume := cbn [partition_start_lba bytes_per_sector sectors_per_cluster fat_size fat_start_lba
  total_clusters bytes_per_cluster fat_cache fat_cache_lba].

Lemma fat32_mount_spec ctrl nsid p d v : find_ns ctrl nsid = Some d ->
  0 <= starting_lba p < 2 ^ 63 -> fat32_mount km ctrl nsid p = Some v -> mounted d p v.
Proof.
  intros Hns Hlba. unfold fat32_mount. rewrite Hns. cbn [mbind option_bind].
  destruct (bd_block_size d =? 0); [done|]. destruct (negb (km (bd_block_size d))); [done|].
  destruct (nvme_read d (starting_lba p) 1) as [b|] eqn:Er; [|done]. cbn [mbind option_bind].
  pose proof (bd_bytes _ _ _ _ Er) as Hb. cbv zeta.
  pose proof (le16_range b 11 Hb). pose proof (byte_at_range b 13 Hb). pose proof (le16_range b 14 Hb).
  pose proof (byte_at_range b 16 Hb). pose proof (le16_range b 22 Hb). pose proof (le32_range b 36 Hb).
  destruct (negb (le16 b 510 =? _)); [done|].
  destruct (Z.eqb_spec (le16 b 11) 0) as [|Hbps]; [done|].
  destruct (Z.eqb_spec (le16 b 11 mod 512) 0) as [Hm|]; [|done]. cbn [negb orb].
  destruct (Z.eqb_spec (byte_at b 13) 0) as [|Hspc]; [done|]. cbn [orb].
  destruct (negb (Z.land (byte_at b 13) _ =? 0)); [done|].
  set (fs := if negb (le16 b 22 =? 0) then le16 b 22 else le32 b 36).
  assert (Hfs : 0 <= fs < 2 ^ 32) by (unfold fs; destruct (negb (le16 b 22 =? 0)); lia).
  destruct (Z.eqb_spec fs 0); [done|]. destruct (byte_at b 16 =? 0); [done|]. cbn [orb].
  set (ds := u32 _). assert (Hds : 0 <= ds < 2 ^ 32) by (apply Z.mod_pos_bound; lia).
  destruct (Z.ltb_spec (ds / byte_at b 13) 65525) as [|Hcl]; [done|].
  destruct (negb (km (le16 b 11))); [done|]. intros Ev. injection Ev as <-.
  assert (Hdiv : (512 | le16 b 11)) by (by apply Z.mod_divide).
  assert (H512 : 512 <= le16 b 11) by (apply Z.divide_pos_le; [lia|done]).
  assert (Ef : u64 (starting_lba p + le16 b 14) = starting_lba p + le16 b 14) by (apply u64_id; unfold is_u64; lia).
  assert (Ec : u32 (le16 b 11 * byte_at b 13) = le16 b 11 * byte_at b 13) by (apply Z.mod_small; nia).
  assert (Hq : ds / byte_at b 13 <= ds) by (apply Z.div_le_upper_bound; nia).
  constructor; proj_volume; rewrite ?Ef, ?Ec; try lia; try done.
  - constructor; proj_volume; rewrite ?Ef; try lia.
  - split; [lia|done].
Qed.

Lemma mounted_cs d p v : mounted d p v -> 0 < bytes_per_cluster v < 2 ^ 32.
Proof. intros M. rewrite (mt_cluster _ _ _ M). pose proof (mt_bps _ _ _ M). pose proof (mt_spc _ _ _ M). nia. Qed.

Lemma mounted_matches d p v : mounted d p v -> bd_block_size d = bytes_per_sector v -> vol_matches d v.
Proof. intros M E. split_and!; [done|pose proof (mt_spc _ _ _ M); lia|apply (mt_cluster _ _ _ M)]. Qed.

(** A successful [fat32_mount] gives a volume that satisfies the driver's
    invariant: the FAT cache starts empty (labelled with no FAT sector), the
    sector size is a positive multiple of 512 below 64 KiB, the cluster size
    is the product of sector size and sectors per cluster without overflow,
    the FAT lies inside the 64-bit LBA space after the partition's start, and
    the volume has at least 65525 clusters. *)
Theorem fat32_mount_correct ctrl nsid p d v :
  find_ns ctrl nsid = Some d -> 0 <= starting_lba p < 2 ^ 63 ->
  fat32_mount km ctrl nsid p = Some v -> mounted d p v.
Proof. apply fat32_mount_spec. Qed.

(** ** Every operation returns, and the cache is transparent *)

(** On a volume that satisfies the invariant every path lookup,
    directory listing, ranged read and whole-file read returns (a result or
    an error) whatever the FAT and the directories contain, cyclic cluster
    chains included; it leaves the volume unchanged but for its FAT cache,
    which still holds the block it is labelled with; and the result does not
    depend on what the cache held: two volumes that differ only there give
    the same answer. *)
Theorem fat32_cache_transparent d v1 v2 path lpath offset size :
  vol_ok d v1 -> vol_ok d v2 -> same_geom v1 v2 -> 0 < bytes_per_cluster v1 < 2 ^ 32 -> 0 <= offset ->
  agrees d v1 (fat32_stat km d v1 path) (fat32_stat km d v2 path) /\
  agrees d v1 (fat32_list_dir km d v1 lpath) (fat32_list_dir km d v2 lpath) /\
  agrees d v1 (fat32_read km d v1 path offset size) (fat32_read km d v2 path offset size) /\
  agrees d v1 (fat32_read_file km d v1 path) (fat32_read_file km d v2 path).
Proof.
  intros V1 V2 G Hcs Ho. pose proof (vo_clusters d v1 V1) as Ht.
  assert (T : twins d v1 v1 v2) by done.
  split_and!; [by apply fat32_stat_agrees|by apply fat32_list_dir_agrees
    |by apply fat32_read_agrees|by apply fat32_read_file_agrees].
Qed.

(** ** Chains *)
Lemma count_chain_complete d l : forall fuel v c count, vol_ok d v -> is_chain d v c l ->
  (FAT32_CLUSTER_BAD ∉ l) -> count + Z.of_nat (length l) <= total_clusters v -> (length l < fuel)%nat ->
  exists v', count_chain d fuel v c count = Some (v', Some (count + Z.of_nat (length l))) /\
    same_geom v v' /\ vol_ok d v'.
Proof.
  induction l as [|x l IH]; intros fuel v c count V Hch Hbad Hle Hf.
  - inversion Hch as [? Hin|]; subst. exists v. destruct fuel; [lia|]. cbn [count_chain]. rewrite Hin.
    split_and!; try done. do 3 f_equal. simpl. lia.
  - inversion Hch as [|? n ? Hin Hnx Hch']; subst. destruct fuel as [|k]; [simpl in Hf; lia|].
    cbn [count_chain]. rewrite Hin. apply not_elem_of_cons in Hbad as [Hb1 Hb2].
    destruct (Z.eqb_spec x FAT32_CLUSTER_BAD) as [|_]; [by destruct Hb1|].
    cbn [length] in Hle. destruct (Z.ltb_spec (total_clusters v) (count + 1)); [lia|].
    destruct (get_next_cluster_spec d v x V) as (En & G1 & V1).
    destruct (get_next_cluster d v x) as [v1 r1]; cbn [fst snd] in *. rewrite En, Hnx.
    destruct (same_geom_fields v v1 G1) as (_ & _ & _ & _ & _ & Et & _).
    destruct (IH k v1 n (count + 1) V1) as (v' & E & G & V'); [by apply (is_chain_geom d v)|done|lia|simpl in Hf; lia|].
    exists v'. rewrite E. split_and!; [|by apply (same_geom_trans _ v1)|done]. do 3 f_equal. cbn [length]. lia.
Qed.

Lemma read_chain_complete d l : forall v c ds, vol_ok d v -> is_chain d v c l -> chain_data d v l ds ->
  exists v', read_chain d (length l) v c = (v', Some (concat ds)) /\ same_geom v v' /\ vol_ok d v'.
Proof.
  induction l as [|x l IH]; intros v c ds V Hch Hds.
  - inversion Hds; subst. by exists v.
  - inversion Hch as [|? n ? Hin Hnx Hch']; subst. inversion Hds as [|? data ? ds' Hrd Hds']; subst.
    cbn [length read_chain]. rewrite Hin, Hrd.
    destruct (get_next_cluster_spec d v x V) as (En & G1 & V1).
    destruct (get_next_cluster d v x) as [v1 r1]; cbn [fst snd] in *. rewrite En, Hnx.
    destruct (IH v1 n ds' V1) as (v' & E & G & V'); [by apply (is_chain_geom d v)|by apply (chain_data_geom d v)|].
    rewrite E. exists v'. split_and!; [done|by apply (same_geom_trans _ v1)|done].
Qed.

(** [read_cluster_chain] is correct and complete.  It always returns; a
    buffer it returns is the concatenation of the clusters of the chain the
    FAT (read without the cache) spells from [start], which is finite, not
    longer than the volume and free of bad clusters.  Conversely, such a
    chain whose clusters can be read is returned when memory is available. *)
Theorem read_cluster_chain_correct d v start : vol_ok d v -> 2 <= start ->
  (exists v' r, read_cluster_chain km d v start = Some (v', r) /\ same_geom v v' /\ vol_ok d v' /\
     forall buf, r = Some (Some buf) -> exists l ds, is_chain d v start l /\ l <> [] /\
       Z.of_nat (length l) <= total_clusters v /\ (FAT32_CLUSTER_BAD ∉ l) /\
       chain_data d v l ds /\ buf = concat ds) /\
  (forall l ds, is_chain d v start l -> l <> [] -> Z.of_nat (length l) <= total_clusters v ->
     (FAT32_CLUSTER_BAD ∉ l) -> chain_data d v l ds -> (forall n, km n = true) ->
     exists v', read_cluster_chain km d v start = Some (v', Some (Some (concat ds)))).
Proof.
  intros V Hs. split.
  - destruct (read_cluster_chain_spec km d v start V Hs) as (v' & r & E & G & V' & Hr).
    exists v', r. split_and!; try done. by intros buf ->.
  - intros l ds Hch Hne Hlen Hbad Hds Hkm. unfold read_cluster_chain. destruct (Z.ltb_spec start 2); [lia|].
    destruct (count_chain_complete d l (Z.to_nat (total_clusters v + 2)) v start 0) as (v1 & E & G1 & V1); try done; try lia.
    rewrite E. cbn [mbind option_bind].
    destruct (Z.eqb_spec (0 + Z.of_nat (length l)) 0); [destruct l; [done|simpl in *; lia]|].
    rewrite Hkm. cbn [negb]. replace (Z.to_nat (0 + Z.of_nat (length l))) with (length l) by lia.
    destruct (read_chain_complete d l v1 start ds) as (v2 & E2 & _ & _);
      [done|by apply (is_chain_geom d v)|by apply (chain_data_geom d v)|].
    rewrite E2. by exists v2.
Qed.

(** ** Files *)

(** A file of a volume: what [path] names, and the data of its chain. *)
Record file_at d v path (e : Fat32DirEntry) (data : list Z) : Prop := {
  fa_stat : exists v1, fat32_stat km d v path = Some (v1, Some e);
  fa_file : is_directory e = false;
  fa_size : 0 <= file_size e < 2 ^ 32;
  fa_chain : exists l ds, is_chain d v (start_cluster e) l /\ chain_data d v l ds /\
    file_size e <= Z.of_nat (length l) * bytes_per_cluster v /\ data = take (Z.to_nat (file_size e)) (concat ds)
}.

Lemma bytes_from_take l off n m : 0 <= off -> 0 <= n -> off + n <= m ->
  bytes_from (take (Z.to_nat m) l) off n = bytes_from l off n.
Proof.
  intros Ho Hn Hm. unfold bytes_from. rewrite take_drop_commute, take_take, take_drop_commute.
  do 2 f_equal. lia.
Qed.

Lemma bytes_from_all l off n : 0 <= off -> Z.of_nat (length l) <= off + n ->
  bytes_from l off n = drop (Z.to_nat off) l.
Proof. intros Ho Hn. unfold bytes_from. apply take_ge. rewrite length_drop. lia. Qed.

Lemma stat_twin d v v1 path e : vol_ok d v -> vol_ok d v1 -> same_geom v v1 ->
  (exists w, fat32_stat km d v path = Some (w, Some e)) -> exists w, fat32_stat km d v1 path = Some (w, Some e).
Proof.
  intros V V1 G (w & E). pose proof (vo_clusters d v V) as Ht.
  destruct (fat32_stat_agrees km d v v v1 path Ht) as (x1 & x2 & x & E1 & E2 & _); [done|].
  rewrite E in E1. injection E1 as _ <-. by exists x2.
Qed.

Lemma file_at_geom d v v1 path e data : vol_ok d v -> vol_ok d v1 -> same_geom v v1 ->
  file_at d v path e data -> file_at d v1 path e data.
Proof.
  intros V V1 G [Hst Hf Hsz (l & ds & Hch & Hds & Hcov & Hd)].
  destruct (same_geom_fields v v1 G) as (_ & _ & _ & _ & _ & _ & E7 & _).
  constructor; [by apply (stat_twin d v)|done|done|]. exists l, ds.
  split_and!; [by apply (is_chain_geom d v)|by apply (chain_data_geom d v)|by rewrite E7|done].
Qed.

Lemma fat32_read_file_at d v path e data offset size :
  vol_ok d v -> vol_matches d v -> bytes_per_cluster v < 2 ^ 32 -> (forall n, km n = true) ->
  file_at d v path e data -> 0 <= offset -> 0 <= size -> offset + size < 2 ^ 64 ->
  exists v', fat32_read km d v path offset size = Some (v', Some (bytes_from data offset size)).
Proof.
  intros V M Hcb Hkm [(v1 & Est) Hf Hsz (l & ds & Hch & Hds & Hcov & ->)] Ho Hs Hb.
  destruct (agrees_keeps d v _ (fat32_stat_agrees km d v v v path (vo_clusters d v V) (twins_refl d v V)))
    as (v1' & x & Est' & G1 & V1).
  rewrite Est in Est'. injection Est' as <- <-.
  destruct (same_geom_fields v v1 G1) as (_ & _ & _ & _ & _ & _ & E7 & _).
  destruct (Z.eq_dec size 0) as [->|Hs0].
  - exists v1. unfold fat32_read. rewrite Est. cbn [mbind option_bind]. rewrite Hf, orb_true_r.
    unfold bytes_from. by rewrite take_0.
  - destruct (fat32_read_spec km d v v1 path e offset size l ds) as (v2 & E2); try done; try lia.
    + by apply (vol_matches_geom d v).
    + by apply (is_chain_geom d v).
    + by apply (chain_data_geom d v).
    + exists v2. rewrite E2. do 3 f_equal. pose proof (length_concat_chain d v l ds M Hds) as Hlc.
      destruct (Z.leb_spec (file_size e) offset) as [Hle|Hlt].
      * unfold bytes_from. rewrite drop_ge by (rewrite length_take; lia). by rewrite take_nil.
      * destruct (Z.le_gt_cases (offset + size) (file_size e)).
        -- rewrite bytes_from_take by lia. f_equal. lia.
        -- rewrite <- (bytes_from_take (concat ds) offset _ (file_size e)) by lia.
           by rewrite !bytes_from_all by (rewrite ?length_take; lia).
Qed.

Lemma file_at_length d v path e data : vol_matches d v -> file_at d v path e data ->
  Z.of_nat (length data) = file_size e.
Proof.
  intros M [_ _ Hsz (l & ds & _ & Hds & Hcov & ->)]. pose proof (length_concat_chain d v l ds M Hds).
  rewrite length_take. lia.
Qed.

(** C8: reading files.  On a volume whose sector size is the device's block
    size, with memory available, for a path that names a file whose chain
    covers its size: [fat32_read] returns exactly the bytes of the file from
    [offset], at most [size] of them and cut at the end of the file, for any
    offset and size whose sum fits in 64 bits; [fat32_read_file] returns the
    whole contents. *)
Theorem fat32_read_correct d v path e data :
  vol_ok d v -> vol_matches d v -> bytes_per_cluster v < 2 ^ 32 -> (forall n, km n = true) ->
  file_at d v path e data ->
  (forall offset size, 0 <= offset -> 0 <= size -> offset + size < 2 ^ 64 ->
     exists v', fat32_read km d v path offset size = Some (v', Some (bytes_from data offset size))) /\
  (exists v', fat32_read_file km d v path = Some (v', Some data)).
Proof.
  intros V M Hcb Hkm Hfa. split.
  - intros offset size Ho Hs Hb. by apply (fat32_read_file_at d v path e data).
  - unfold fat32_read_file. pose proof (file_at_length d v path e data M Hfa) as Hlen.
    destruct (agrees_keeps d v _ (fat32_stat_agrees km d v v v path (vo_clusters d v V) (twins_refl d v V)))
      as (v1 & x & Est & G1 & V1).
    destruct (fa_stat _ _ _ _ _ Hfa) as (w & Ew). rewrite Ew in Est. injection Est as <- <-.
    rewrite Ew. cbn [mbind option_bind]. rewrite (fa_file _ _ _ _ _ Hfa).
    destruct (Z.eqb_spec (file_size e) 0) as [E0|Hne].
    { exists w. destruct data; [done|simpl in Hlen; lia]. }
    rewrite Hkm. cbn [negb]. pose proof (fa_size _ _ _ _ _ Hfa).
    destruct (same_geom_fields v w G1) as (_ & _ & _ & _ & _ & _ & E7 & _).
    destruct (fat32_read_file_at d w path e data 0 (file_size e)) as (v2 & E2); try done; try lia.
    + by apply (vol_matches_geom d v).
    + by apply (file_at_geom d v).
    + rewrite E2. cbn [mbind option_bind].
      assert (Eb : bytes_from data 0 (file_size e) = data).
      { unfold bytes_from. change (Z.to_nat 0) with 0%nat. rewrite drop_0. apply take_ge. lia. }
      rewrite Eb, Hlen, Z.eqb_refl. by exists v2.
Qed.
End Mounted.

(** ** A small disk: boot sector, one FAT sector, the root directory and a
    file of two clusters *)
Definition bpb : list Z :=
  repeat 0 11 ++ [0; 2] ++ [1] ++ [1; 0] ++ [1] ++ repeat 0 5 ++ [1; 0] ++ repeat 0 8
  ++ [0x70; 0x11; 1; 0] ++ repeat 0 8 ++ [2; 0; 0; 0] ++ repeat 0 462 ++ [0x55; 0xAA].
Definition fat_sector : list Z :=
  [0; 0; 0; 0; 0; 0; 0; 0; 0xFF; 0xFF; 0xFF; 0x0F; 4; 0; 0; 0; 0xFF; 0xFF; 0xFF; 0x0F; 5; 0; 0; 0].
(** HI.TXT, cluster 3, 600 bytes *)
Definition root_dir : list Z :=
  [72; 73; 32; 32; 32; 32; 32; 32; 84; 88; 84; 0x20] ++ repeat 0 14 ++ [3; 0; 0x58; 2; 0; 0].
Definition demo_disk : RamDisk := mkDisk 512 [bpb; fat_sector; root_dir; repeat 7 512; repeat 8 512].
Definition demo_part : GptPartition := mkPart (repeat 1 16) [] 0 4 5 0 [] .
Definition demo_vol : Fat32Volume :=
  match fat32_mount (fun _ => true) [(1, demo_disk)] 1 demo_part with
  | Some v => v
  | None => mkVolume 0 0 0 0 0 0 0 0 0 0 0 0 0 0 [] 0 [] []
  end.
(** "/hi.txt" *)
Definition demo_path : list Z := [47; 104; 105; 46; 116; 120; 116].
Definition demo_entry : Fat32DirEntry := mkEntry [72; 73; 46; 84; 88; 84] 3 600 0x20 false.

Lemma demo_mounted : mounted demo_disk demo_part demo_vol.
Proof.
  apply (fat32_mount_spec (fun _ => true) [(1, demo_disk)] 1); [done|split; [done|done]|].
  vm_compute. reflexivity.
Qed.

Lemma demo_chain : is_chain demo_disk demo_vol 3 [3; 4].
Proof.
  apply chain_cons with 4; [reflexivity|vm_compute; reflexivity|].
  apply chain_cons with 0x0FFFFFFF; [reflexivity|vm_compute; reflexivity|]. by constructor.
Qed.

Lemma demo_chain_data : chain_data demo_disk demo_vol [3; 4] [repeat 7 512; repeat 8 512].
Proof. repeat constructor; vm_compute; reflexivity. Qed.

Lemma demo_matches : vol_matches demo_disk demo_vol.
Proof. vm_compute. done. Qed.

Lemma demo_file :
  file_at (fun _ => true) demo_disk demo_vol demo_path demo_entry (repeat 7 512 ++ repeat 8 88).
Proof.
  constructor; [|done|done|].
  - assert (E : snd <$> fat32_stat (fun _ => true) demo_disk demo_vol demo_path = Some (Some demo_entry))
      by (vm_compute; reflexivity).
    destruct (fat32_stat _ _ _ _) as [[w r]|]; [|done]. injection E as ->. by exists w.
  - exists [3; 4], [repeat 7 512; repeat 8 512].
    split_and!; [apply demo_chain|apply demo_chain_data|vm_compute; discriminate|vm_compute; reflexivity].
Qed.

Lemma fat32_mount_correct_witness : mounted demo_disk demo_part demo_vol.
Proof.
  apply (fat32_mount_correct (fun _ => true) [(1, demo_disk)] 1); [reflexivity|split; [discriminate|reflexivity]|].
  vm_compute. reflexivity.
Defined.

Lemma fat32_cache_transparent_witness :
  agrees demo_disk demo_vol (fat32_stat (fun _ => true) demo_disk demo_vol demo_path)
    (fat32_stat (fun _ => true) demo_disk (get_next_cluster demo_disk demo_vol 3).1 demo_path).
Proof.
  destruct (get_next_cluster_spec demo_disk demo_vol 3 (mt_ok _ _ _ demo_mounted)) as (_ & G & V).
  destruct (fat32_cache_transparent (fun _ => true) demo_disk demo_vol (get_next_cluster demo_disk demo_vol 3).1
    demo_path None 0 0 (mt_ok _ _ _ demo_mounted) V G (mounted_cs _ _ _ demo_mounted) (Z.le_refl 0)) as (E & _).
  exact E.
Defined.

Lemma read_cluster_chain_correct_witness : exists v',
  read_cluster_chain (fun _ => true) demo_disk demo_vol 3 =
  Some (v', Some (Some (concat [repeat 7 512; repeat 8 512]))).
Proof.
  destruct (read_cluster_chain_correct (fun _ => true) demo_disk demo_vol 3 (mt_ok _ _ _ demo_mounted)
    ltac:(lia)) as (_ & Hc).
  apply (Hc [3; 4]); [apply demo_chain|discriminate|vm_compute; discriminate| |apply demo_chain_data|reflexivity].
  unfold FAT32_CLUSTER_BAD. rewrite !not_elem_of_cons. split_and!; [discriminate|discriminate|apply not_elem_of_nil].
Defined.

(** The read crosses the cluster boundary and is cut at the end of the file. *)
Lemma fat32_read_correct_witness : exists v',
  fat32_read (fun _ => true) demo_disk demo_vol demo_path 510 4096 = Some (v', Some ([7; 7] ++ repeat 8 88)).
Proof.
  destruct (fat32_read_correct (fun _ => true) demo_disk demo_vol demo_path demo_entry (repeat 7 512 ++ repeat 8 88)
    (mt_ok _ _ _ demo_mounted) demo_matches ltac:(vm_compute; reflexivity) (fun _ => eq_refl) demo_file) as (Hr & _).
  destruct (Hr 510 4096) as (v' & E); [discriminate|discriminate|reflexivity|]. exists v'. exact E.
Defined.

(** ** What the bounds checks miss *)

(** A long-name entry with sequence number 20 and the last-entry mark passes
    the check and writes its terminator at index 260 of the 260-unit array. *)
Theorem lfn_terminator_out_of_bounds :
  let raw := [0x54] ++ repeat 0 10 ++ [FAT_ATTR_LFN] ++ repeat 0 20 in
  length raw = 32%nat /\ 1 <= Z.land (byte_at raw 0) FAT_LFN_SEQ_MASK <= 20 /\
  In (260, 0) (lfn_writes raw) /\ length (lfn_unicode (mkLfn lfn_clear 0 false)) = 260%nat.
Proof. vm_compute. repeat split; try discriminate. tauto. Qed.

(** A volume whose reserved area is larger than the volume is mounted: the
    number of data sectors wraps and passes the FAT32 size check. *)
Theorem fat32_mount_underflow :
  let b := repeat 0 11 ++ [0; 2] ++ [1] ++ [200; 0] ++ [1] ++ repeat 0 5 ++ [1; 0] ++ repeat 0 8
    ++ [100; 0; 0; 0] ++ repeat 0 8 ++ [2; 0; 0; 0] ++ repeat 0 462 ++ [0x55; 0xAA] in
  exists v, fat32_mount (fun _ => true) [(1, mkDisk 512 [b])] 1 demo_part = Some v /\
    total_sectors v < reserved_sector_count v /\ 2 ^ 31 < total_clusters v.
Proof. cbv zeta. eexists. split; [vm_compute; reflexivity|]. vm_compute. done. Qed.
