(* ===== verification/Slots.v ===== *)
(** * Growable slot tables

    The adapter registry, the driver handle tables and the file tables are
    arrays of slots: the first free slot is taken, a full table is replaced
    by a larger one whose new slots are free.  A table is a list whose length
    is its capacity. *)

From Stdlib Require Import ZArith Lia Bool.
From stdpp Require Import base list.
From S2P Require Import Prelude.

(** Slot numbers are converted to [int]. *)
Lemma s32_id z : 0 <= z < 2 ^ 31 -> s32 z = z.
Proof.
  intros Hz. unfold s32, signed. rewrite Z.mod_small by lia. destruct (Z.ltb_spec z (2 ^ (32 - 1))); lia.
Qed.

Section Slots.
Context {A : Type} (free : A -> bool).
Implicit Types (l : list A).

(** The search loop: the index of the first free slot. *)
Fixpoint first_slot l : option nat :=
  match l with
  | [] => None
  | x :: r => if free x then Some O else S <$> first_slot r
  end.

(** The number of slots in use. *)
Definition in_use l : Z := Z.of_nat (length (List.filter (fun x => negb (free x)) l)).

Lemma first_slot_some l i : first_slot l = Some i ->
  (exists x, l !! i = Some x /\ free x = true) /\
  (forall j x, (j < i)%nat -> l !! j = Some x -> free x = false).
Proof.
  revert i. induction l as [|x l IH]; intros i; simpl; [done|]. destruct (free x) eqn:E.
  - intros [= <-]. split; [by exists x|]. intros j y Hj. lia.
  - destruct (first_slot l) as [k|] eqn:Ek; [|done]. intros [= <-].
    destruct (IH k eq_refl) as [He Hl]. split; [done|]. intros [|j] y Hj; simpl; [by intros [= <-]|].
    apply Hl. lia.
Qed.

Lemma first_slot_none l : first_slot l = None -> forall x, x ∈ l -> free x = false.
Proof.
  induction l as [|x l IH]; simpl; [intros _ y Hy; by apply not_elem_of_nil in Hy|].
  destruct (free x) eqn:E; [done|]. destruct (first_slot l); [done|]. intros _ y [->|Hy]%elem_of_cons; [done|].
  by apply IH.
Qed.

Lemma first_slot_lt l i : first_slot l = Some i -> (i < length l)%nat.
Proof. intros E. destruct (first_slot_some l i E) as [(x & Hx & _) _]. by apply lookup_lt_Some in Hx. Qed.

Lemma in_use_cons x l : in_use (x :: l) = (if free x then 0 else 1) + in_use l.
Proof. unfold in_use. simpl. destruct (free x); simpl; lia. Qed.

Lemma in_use_insert l i x y : l !! i = Some x ->
  in_use (<[i := y]> l) = in_use l - (if free x then 0 else 1) + (if free y then 0 else 1).
Proof.
  revert i. induction l as [|z l IH]; intros [|i]; simpl; try done.
  - intros [= ->]. rewrite !in_use_cons. lia.
  - intros E. rewrite !in_use_cons, (IH i E). lia.
Qed.

Lemma in_use_grow l n blank : free blank = true -> in_use (l ++ replicate n blank) = in_use l.
Proof.
  intros Hb. unfold in_use. rewrite List.filter_app, length_app.
  assert (E : List.filter (fun x => negb (free x)) (replicate n blank) = [])
    by (induction n as [|n IH]; simpl; [done|by rewrite Hb, IH]).
  rewrite E. simpl. lia.
Qed.

Lemma in_use_zero l : in_use l = 0 <-> forall x, x ∈ l -> free x = true.
Proof.
  induction l as [|x l IH]; [split; [intros _ y Hy; by apply not_elem_of_nil in Hy|done]|].
  rewrite in_use_cons. assert (0 <= in_use l) by (unfold in_use; lia). split.
  - intros E y [->|Hy]%elem_of_cons; [destruct (free x); [done|lia]|].
    apply IH; [destruct (free x); lia|done].
  - intros Hf. rewrite (Hf x) by (apply elem_of_cons; by left). rewrite (proj2 IH); [done|].
    intros y Hy. apply Hf. apply elem_of_cons. by right.
Qed.

Lemma in_use_range l : 0 <= in_use l <= Z.of_nat (length l).
Proof. induction l as [|x l IH]; [done|]. rewrite in_use_cons. simpl. destruct (free x); lia. Qed.
End Slots.

(** A full table grown by [n] blank slots: old slots keep their contents, the
    slot after the old capacity is the first new one. *)
Lemma grown_lookup_old {A} (l : list A) n blank i x : l !! i = Some x -> (l ++ replicate n blank) !! i = Some x.
Proof. intros E. by apply lookup_app_l_Some. Qed.

Lemma grown_lookup_new {A} (l : list A) n blank : (0 < n)%nat -> (l ++ replicate n blank) !! length l = Some blank.
Proof. intros Hn. rewrite lookup_app_r by lia. rewrite Nat.sub_diag. by apply lookup_replicate_2. Qed.

Lemma grown_lookup_inv {A} (l : list A) n blank i x : (l ++ replicate n blank) !! i = Some x ->
  l !! i = Some x \/ (x = blank /\ (length l <= i)%nat).
Proof.
  intros [E|[Hi E]]%lookup_app_Some; [by left|right]. apply lookup_replicate in E as [-> _]. done.
Qed.
