(* ===== verification/Nag.v ===== *)
(** * The graphics adapter registry (src/kernel/nag/nag.c)

    Adapters are the addresses of their structs (0 is NULL); the registry
    writes one field of a struct, [adapterId], kept here by address.  The
    table pointer is NULL exactly when the capacity is 0. *)

From Stdlib Require Import ZArith Lia Bool.
From stdpp Require Import base list gmap.
From S2P Require Import Prelude Mem Slots.

Record Nag := mkNag {
  adapters : list Z; adapterCount : Z; nextAdapterId : Z; adapterId : gmap Z Z }.

Definition adapterCapacity (s : Nag) : Z := Z.of_nat (length (adapters s)).
Definition id_of (s : Nag) (a : Z) : Z := default 0 (adapterId s !! a).
Definition no_adapter (a : Z) : bool := a =? 0.

Definition nagInit (s : Nag) : Nag := mkNag [] 0 0 (adapterId s).

(** The capacity a full table grows to. *)
Definition nag_grow (cap : Z) : Z := if cap =? 0 then 4 else u64 (cap * 2).

(** [krealloc_ok] says whether a request of that many bytes succeeds. *)
Definition nagRegisterAdapter (krealloc_ok : Z -> bool) (s : Nag) (adapter : Z) : Nag * Z :=
  if adapter =? 0 then (s, -1)
  else
    let place table slot :=
      (mkNag (<[Z.to_nat slot := adapter]> table) (u64 (adapterCount s + 1)) (nextAdapterId s)
         (<[adapter := u32 slot]> (adapterId s)), 0) in
    match first_slot no_adapter (adapters s) with
    | Some i => place (adapters s) (s32 (Z.of_nat i))
    | None =>
        let newCap := nag_grow (adapterCapacity s) in
        if negb (krealloc_ok (u64 (newCap * 8))) then (s, -1)
        else place (adapters s ++ replicate (Z.to_nat (newCap - adapterCapacity s)) 0)
               (s32 (adapterCapacity s))
    end.

Definition nagUnregisterAdapter (s : Nag) (adapter : Z) : Nag :=
  if adapter =? 0 then s
  else
    let id := id_of s adapter in
    let s1 :=
      if (id <? adapterCapacity s) && (nth (Z.to_nat id) (adapters s) 0 =? adapter)
      then mkNag (<[Z.to_nat id := 0]> (adapters s)) (u64 (adapterCount s - 1)) (nextAdapterId s) (adapterId s)
      else s in
    if (adapterCount s1 =? 0) && negb (adapterCapacity s1 =? 0)
    then mkNag [] (adapterCount s1) (nextAdapterId s1) (adapterId s1)
    else s1.

Definition nagGetAdapter (s : Nag) (id : Z) : Z :=
  if adapterCapacity s <=? id then 0 else nth (Z.to_nat id) (adapters s) 0.

(** The operation of an adapter's driver, by adapter address: on memory, with
    the operation number and the argument buffer.  [None] is a NULL
    [dispatchOp]. *)
Definition DispatchOp : Type := Z -> option (mem -> Z -> Z -> Z -> mem * Z).

Definition nagDispatch (dispatchOp : DispatchOp) (s : Nag) (m : mem) (id op arg argSize : Z) : mem * Z :=
  if adapterCapacity s <=? id then (m, -1)
  else
    let adapter := nth (Z.to_nat id) (adapters s) 0 in
    if adapter =? 0 then (m, -1)
    else match dispatchOp adapter with
         | None => (m, -1)
         | Some f => f m op arg argSize
         end.

(** ** The registry invariant *)

(** Every adapter in the table knows its slot (so it is there once), the
    count is right, and the table is released when the last one leaves. *)
Record nag_ok (s : Nag) : Prop := {
  no_ids : forall i a, adapters s !! i = Some a -> a <> 0 -> id_of s a = Z.of_nat i;
  no_count : adapterCount s = in_use no_adapter (adapters s);
  no_empty : adapterCount s = 0 -> adapters s = [];
  no_cap : adapterCapacity s <= 2 ^ 30
}.

Definition registered (s : Nag) (a : Z) : Prop := a <> 0 /\ a ∈ adapters s.

Lemma registered_slot s a : nag_ok s -> registered s a ->
  adapters s !! Z.to_nat (id_of s a) = Some a /\ 0 <= id_of s a < adapterCapacity s.
Proof.
  intros Hs [Ha Hin]. apply list_elem_of_lookup in Hin as [i Hi].
  rewrite (no_ids s Hs i a Hi Ha). rewrite Nat2Z.id. split; [done|].
  apply lookup_lt_Some in Hi. unfold adapterCapacity. lia.
Qed.

Lemma id_of_insert ids (l : list Z) c n a b slot :
  id_of (mkNag l c n (<[a := slot]> ids)) b = if b =? a then slot else default 0 (ids !! b).
Proof.
  unfold id_of. cbn [adapterId]. destruct (Z.eqb_spec b a) as [->|Hne];
    [by rewrite lookup_insert_eq|by rewrite lookup_insert_ne].
Qed.

(** Putting an unregistered adapter in a free slot. *)
Lemma place_ok s table i a : nag_ok s -> a <> 0 -> (a ∉ adapters s) ->
  table !! i = Some 0 -> (forall j b, b <> 0 -> table !! j = Some b <-> adapters s !! j = Some b) ->
  in_use no_adapter table = in_use no_adapter (adapters s) -> Z.of_nat (length table) <= 2 ^ 30 ->
  let s' := mkNag (<[i := a]> table) (u64 (adapterCount s + 1)) (nextAdapterId s)
              (<[a := u32 (Z.of_nat i)]> (adapterId s)) in
  nag_ok s' /\ nagGetAdapter s' (id_of s' a) = a /\ id_of s' a = Z.of_nat i /\
  (forall b, b <> 0 -> b <> a -> (b ∈ adapters s' <-> b ∈ adapters s) /\ id_of s' b = id_of s b).
Proof.
  intros Hs Ha Hnin Hi Hsame Hcnt Hlen s'.
  assert (Hil : (i < length table)%nat) by (by apply lookup_lt_Some in Hi).
  assert (Hid : u32 (Z.of_nat i) = Z.of_nat i) by (apply u32_id; lia).
  assert (Ea : id_of s' a = Z.of_nat i) by (unfold s'; rewrite id_of_insert, Z.eqb_refl; done).
  assert (Eb : forall b, b <> a -> id_of s' b = id_of s b).
  { intros b Hb. unfold s'. rewrite id_of_insert. by destruct (Z.eqb_spec b a). }
  pose proof (in_use_range no_adapter (adapters s)) as Hr. pose proof (no_cap s Hs) as Hcap.
  unfold adapterCapacity in Hcap.
  assert (Ec : u64 (adapterCount s + 1) = in_use no_adapter (adapters s) + 1)
    by (rewrite (no_count s Hs); apply u64_id; unfold is_u64; lia).
  assert (Hsl : forall j b, b <> 0 -> b <> a -> <[i := a]> table !! j = Some b <-> adapters s !! j = Some b).
  { intros j b Hb Hba. rewrite <- Hsame by done. destruct (Nat.eq_dec i j) as [<-|Hij].
    - rewrite list_lookup_insert_eq by done. rewrite Hi. split; intros [= E]; [by destruct Hba|by destruct Hb].
    - by rewrite list_lookup_insert_ne. }
  split_and!; [|rewrite Ea| done |].
  - constructor.
    + intros j b Hj Hb. destruct (Z.eq_dec b a) as [->|Hba].
      * rewrite Ea. cbn [adapters s'] in Hj. destruct (Nat.eq_dec i j) as [->|Hij]; [done|].
        rewrite list_lookup_insert_ne in Hj by done. apply Hsame in Hj; [|done].
        exfalso. apply Hnin. by apply list_elem_of_lookup_2 in Hj.
      * rewrite Eb by done. apply (no_ids s Hs); [|done]. by apply Hsl.
    + cbn [adapterCount adapters s']. rewrite (in_use_insert no_adapter table i 0 a Hi), Ec, Hcnt.
      unfold no_adapter. destruct (Z.eqb_spec a 0); [done|]. simpl. lia.
    + cbn [adapterCount s']. rewrite Ec. lia.
    + unfold adapterCapacity. cbn [adapters s']. by rewrite length_insert.
  - unfold nagGetAdapter, adapterCapacity. cbn [adapters s']. rewrite length_insert.
    destruct (Z.leb_spec (Z.of_nat (length table)) (Z.of_nat i)); [lia|]. rewrite Nat2Z.id.
    apply nth_lookup_Some. by apply list_lookup_insert_eq.
  - intros b Hb Hba. split; [|by apply Eb]. rewrite !list_elem_of_lookup. cbn [adapters s'].
    split; intros [j Hj]; exists j; by apply Hsl.
Qed.

Section Registry.
(** Whether [krealloc] can serve a request; 8 GiB is out of reach. *)
Context (krealloc_ok : Z -> bool) (krealloc_bound : forall n, krealloc_ok n = true -> n <= 2 ^ 33).

(** What registering an adapter that is not registered does. *)
Definition registers (s : Nag) (a : Z) (s' : Nag) (r : Z) : Prop :=
  nag_ok s' /\
  ((r = -1 /\ s' = s) \/
   (r = 0 /\ registered s' a /\ nagGetAdapter s' (id_of s' a) = a /\
    forall b, b <> a -> (registered s' b <-> registered s b) /\ id_of s' b = id_of s b)).

Lemma nag_register_spec s a : nag_ok s -> a <> 0 -> ~ registered s a ->
  registers s a (nagRegisterAdapter krealloc_ok s a).1 (nagRegisterAdapter krealloc_ok s a).2.
Proof using krealloc_bound.
  intros Hs Ha Hnr. assert (Hnin : a ∉ adapters s) by (intros Hin; by apply Hnr).
  unfold nagRegisterAdapter. destruct (Z.eqb_spec a 0); [done|]. cbv zeta.
  pose proof (no_cap s Hs) as Hcap.
  assert (Hfin : forall table i, table !! i = Some 0 ->
    (forall j b, b <> 0 -> table !! j = Some b <-> adapters s !! j = Some b) ->
    in_use no_adapter table = in_use no_adapter (adapters s) -> Z.of_nat (length table) <= 2 ^ 30 ->
    registers s a (mkNag (<[i := a]> table) (u64 (adapterCount s + 1)) (nextAdapterId s)
              (<[a := u32 (Z.of_nat i)]> (adapterId s))) 0).
  { intros table i H1 H2 H3 H4. destruct (place_ok s table i a Hs Ha Hnin H1 H2 H3 H4) as (Hok & Hget & Hid & Hoth).
    split; [done|]. right. split_and!; try done.
    - split; [done|]. apply list_elem_of_lookup. exists i. cbn [adapters]. apply list_lookup_insert_eq. by apply lookup_lt_Some in H1.
    - intros b Hb. unfold registered. destruct (Z.eq_dec b 0) as [->|Hb0].
      + split; [tauto|]. rewrite id_of_insert. by destruct (Z.eqb_spec 0 a).
      + destruct (Hoth b Hb0 Hb) as [E1 E2]. split; [tauto|done]. }
  destruct (first_slot no_adapter (adapters s)) as [i|] eqn:Ei.
  - pose proof (first_slot_lt _ _ _ Ei) as Hlt.
    destruct (first_slot_some _ _ _ Ei) as [(x & Hx & Hx0) _]. unfold no_adapter in Hx0. apply Z.eqb_eq in Hx0. subst x.
    unfold adapterCapacity in Hcap. rewrite s32_id, Nat2Z.id by lia. cbn [fst snd]. by apply Hfin.
  - destruct (krealloc_ok _) eqn:Ek; cbn [negb]; [|by split; [done|left]].
    assert (Hg : adapterCapacity s < nag_grow (adapterCapacity s) <= 2 ^ 31).
    { unfold nag_grow. destruct (Z.eqb_spec (adapterCapacity s) 0); [lia|].
      assert (0 <= adapterCapacity s) by (unfold adapterCapacity; lia).
      rewrite u64_id by (unfold is_u64; lia). lia. }
    apply krealloc_bound in Ek. rewrite u64_id in Ek by (unfold is_u64; unfold adapterCapacity in *; lia).
    unfold adapterCapacity in *. rewrite s32_id, Nat2Z.id by lia. cbn [fst snd]. apply Hfin.
    + apply grown_lookup_new. lia.
    + intros j b Hb. split; [|by apply grown_lookup_old]. intros [E|[E _]]%grown_lookup_inv; done.
    + by apply in_use_grow.
    + rewrite length_app, length_replicate. lia.
Qed.

(** What unregistering an adapter does. *)
Definition unregisters (s : Nag) (a : Z) (s' : Nag) : Prop :=
  nag_ok s' /\ forall b, (registered s' b <-> registered s b /\ b <> a) /\ id_of s' b = id_of s b.

Lemma no_registered s : adapters s = [] -> forall b, ~ registered s b.
Proof. intros E b [_ Hb]. rewrite E in Hb. by apply not_elem_of_nil in Hb. Qed.

Lemma all_free_none s b : in_use no_adapter (adapters s) = 0 -> ~ registered s b.
Proof.
  intros E [Hb Hin]. apply (in_use_zero no_adapter (adapters s)) with (x := b) in E; [|done].
  unfold no_adapter in E. by apply Z.eqb_eq in E.
Qed.

(** The release of an empty table. *)
Lemma release_ok s : (forall i a, adapters s !! i = Some a -> a <> 0 -> id_of s a = Z.of_nat i) ->
  adapterCount s = in_use no_adapter (adapters s) -> adapterCapacity s <= 2 ^ 30 ->
  let s' := if (adapterCount s =? 0) && negb (adapterCapacity s =? 0)
            then mkNag [] (adapterCount s) (nextAdapterId s) (adapterId s) else s in
  nag_ok s' /\ forall b, (registered s' b <-> registered s b) /\ id_of s' b = id_of s b.
Proof.
  intros Hids Hc Hcap. cbv zeta. destruct (Z.eqb_spec (adapterCount s) 0) as [E|E]; cbn [andb].
  - assert (Hnone : forall b, ~ registered s b) by (intros b; apply all_free_none; lia).
    destruct (Z.eqb_spec (adapterCapacity s) 0) as [E0|E0]; cbn [negb].
    + split; [|done]. constructor; try done. intros _. unfold adapterCapacity in E0. by destruct (adapters s).
    + split.
      * constructor; cbn [adapters adapterCount]; [intros i a Hi; by rewrite lookup_nil in Hi|done|done|done].
      * intros b. split; [|done]. split; intros Hb; exfalso; [by eapply no_registered in Hb|by apply (Hnone b)].
  - split; [|done]. constructor; try done.
Qed.

(** Clearing the slot of a registered adapter. *)
Definition clear_slot (s : Nag) (i : nat) : Nag :=
  mkNag (<[i := 0]> (adapters s)) (u64 (adapterCount s - 1)) (nextAdapterId s) (adapterId s).

Lemma clear_slot_lookup s i a : nag_ok s -> a <> 0 -> adapters s !! i = Some a ->
  forall j b, b <> 0 -> adapters (clear_slot s i) !! j = Some b <-> adapters s !! j = Some b /\ b <> a.
Proof.
  intros Hs Ha Hi j b Hb. cbn [adapters clear_slot]. destruct (Nat.eq_dec i j) as [<-|Hij].
  - rewrite list_lookup_insert_eq by (by apply lookup_lt_Some in Hi). rewrite Hi.
    split; [by intros [= <-]|by intros [[= <-] ?]].
  - rewrite list_lookup_insert_ne by done. split; [|tauto]. intros Hj. split; [done|]. intros ->.
    pose proof (no_ids s Hs i a Hi Ha). pose proof (no_ids s Hs j a Hj Ha). lia.
Qed.

Lemma clear_slot_registered s i a : nag_ok s -> a <> 0 -> adapters s !! i = Some a ->
  forall b, registered (clear_slot s i) b <-> registered s b /\ b <> a.
Proof.
  intros Hs Ha Hi b. unfold registered. rewrite !list_elem_of_lookup.
  pose proof (clear_slot_lookup s i a Hs Ha Hi) as L. split.
  - intros [Hb [j Hj]]. apply L in Hj as [Hj Hba]; [|done]. eauto.
  - intros [[Hb [j Hj]] Hba]. split; [done|]. exists j. by apply L.
Qed.

Lemma clear_slot_count s i a : nag_ok s -> a <> 0 -> adapters s !! i = Some a ->
  adapterCount (clear_slot s i) = in_use no_adapter (adapters (clear_slot s i)).
Proof.
  intros Hs Ha Hi. cbn [adapterCount adapters clear_slot].
  pose proof (in_use_range no_adapter (<[i := 0]> (adapters s))) as Hr. rewrite length_insert in Hr.
  pose proof (no_cap s Hs) as Hcap. unfold adapterCapacity in Hcap.
  pose proof (in_use_insert no_adapter (adapters s) i a 0 Hi) as Hu. unfold no_adapter in Hu at 3 4.
  destruct (Z.eqb_spec a 0); [done|]. cbn in Hu. rewrite (no_count s Hs), u64_id by (unfold is_u64; lia). lia.
Qed.

Lemma nag_unregister_spec s a : nag_ok s -> a <> 0 -> unregisters s a (nagUnregisterAdapter s a).
Proof.
  intros Hs Ha. unfold nagUnregisterAdapter. destruct (Z.eqb_spec a 0); [done|]. cbv zeta.
  destruct ((id_of s a <? adapterCapacity s) && (nth (Z.to_nat (id_of s a)) (adapters s) 0 =? a)) eqn:E.
  - apply andb_true_iff in E as [E1 E2]. apply Z.ltb_lt in E1. apply Z.eqb_eq in E2.
    set (i := Z.to_nat (id_of s a)) in *. fold (clear_slot s i).
    assert (Hi : adapters s !! i = Some a).
    { destruct (adapters s !! i) as [x|] eqn:Ex; [rewrite (nth_lookup_Some _ _ _ _ Ex) in E2; by subst|].
      apply lookup_ge_None in Ex. rewrite nth_overflow in E2 by lia. by destruct Ha. }
    destruct (release_ok (clear_slot s i)) as [Hok Hsame].
    + intros j b Hj Hb. apply (clear_slot_lookup s i a Hs Ha Hi) in Hj as [Hj _]; [|done]. by apply (no_ids s Hs).
    + by apply (clear_slot_count s i a).
    + unfold adapterCapacity. cbn [adapters clear_slot]. rewrite length_insert. apply (no_cap s Hs).
    + split; [done|]. intros b. destruct (Hsame b) as [H1 H2]. rewrite H1, H2.
      split; [by apply clear_slot_registered|done].
  - assert (Hna : ~ registered s a).
    { intros Hr. destruct (registered_slot s a Hs Hr) as [Hsl Hlt].
      rewrite (nth_lookup_Some _ _ _ _ Hsl), Z.eqb_refl in E. apply andb_false_iff in E as [E|E]; [|done].
      apply Z.ltb_ge in E. lia. }
    destruct (release_ok s) as [Hok Hsame]; [apply (no_ids s Hs)|apply (no_count s Hs)|apply (no_cap s Hs)|].
    split; [done|]. intros b. destruct (Hsame b) as [H1 H2]. rewrite H1, H2. split; [|done].
    split; [intros Hb; split; [done|by intros ->]|tauto].
Qed.

(** The calls drivers make: registering an adapter that is not registered,
    unregistering any adapter. *)
Inductive nag_step : Nag -> Nag -> Prop :=
| step_register s a : a <> 0 -> ~ registered s a -> nag_step s (nagRegisterAdapter krealloc_ok s a).1
| step_unregister s a : a <> 0 -> nag_step s (nagUnregisterAdapter s a).

Lemma nag_reachable_ok s0 s : rtc nag_step (nagInit s0) s -> nag_ok s.
Proof using krealloc_bound.
  intros R. apply (rtc_ind_r (fun s => nag_ok s) (nagInit s0)) in R; [done| |].
  - by constructor.
  - intros x y _ St Hx. destruct St as [x a Ha Hn|x a Ha].
    + apply (nag_register_spec x a Hx Ha Hn).
    + apply (nag_unregister_spec x a Hx Ha).
Qed.

(** The adapter registry.  After any sequence of registrations (of
    adapters that are not registered) and unregistrations from [nagInit], the
    count is the number of occupied slots and every adapter in the table has
    the slot's number as its id; registering either fails and changes
    nothing or gives the adapter an id under which [nagGetAdapter] returns
    it, and keeps every other adapter and its id; unregistering removes
    exactly that adapter; ids outside the table and empty slots are rejected
    by [nagDispatch] without touching memory, and other ids reach exactly
    the adapter registered there. *)
Theorem nag_registry_correct s0 s : rtc nag_step (nagInit s0) s ->
  nag_ok s /\
  (forall a, a <> 0 -> ~ registered s a ->
     registers s a (nagRegisterAdapter krealloc_ok s a).1 (nagRegisterAdapter krealloc_ok s a).2) /\
  (forall a, a <> 0 -> unregisters s a (nagUnregisterAdapter s a)) /\
  (forall ops m id op arg n, 0 <= id ->
     (nagGetAdapter s id = 0 -> nagDispatch ops s m id op arg n = (m, -1)) /\
     (forall a f, registered s a -> ops a = Some f ->
        nagDispatch ops s m (id_of s a) op arg n = f m op arg n)).
Proof using krealloc_bound.
  intros R. pose proof (nag_reachable_ok s0 s R) as Hs. split_and!; [done| | |].
  - intros a. by apply nag_register_spec.
  - intros a. by apply nag_unregister_spec.
  - intros ops m id op arg n Hid. unfold nagGetAdapter, nagDispatch. split.
    + destruct (adapterCapacity s <=? id); [done|]. by intros ->.
    + intros a f Hr Hf. destruct (registered_slot s a Hs Hr) as [Hsl Hlt].
      destruct (Z.leb_spec (adapterCapacity s) (id_of s a)); [lia|].
      rewrite (nth_lookup_Some _ _ _ _ Hsl), Hf. by destruct (Z.eqb_spec a 0) as [E|_]; [destruct Hr|].
Qed.
End Registry.

Definition demo_krealloc (n : Z) : bool := n <=? 64.

Lemma demo_krealloc_bound n : demo_krealloc n = true -> n <= 2 ^ 33.
Proof. unfold demo_krealloc. intros E. apply Z.leb_le in E. lia. Qed.

Definition nag0 : Nag := mkNag [] 0 0 ∅.
Definition nag1 : Nag := (nagRegisterAdapter demo_krealloc (nagInit nag0) 0x1000).1.

Lemma nag_registry_correct_witness :
  nagGetAdapter (nagRegisterAdapter demo_krealloc nag1 0x2000).1 1 = 0x2000 /\
  unregisters nag1 0x1000 (nagUnregisterAdapter nag1 0x1000).
Proof.
  assert (R : rtc (nag_step demo_krealloc) (nagInit nag0) nag1).
  { apply rtc_once, (step_register demo_krealloc (nagInit nag0) 0x1000); [discriminate|].
    intros [_ Hin]. inversion Hin. }
  destruct (nag_registry_correct demo_krealloc demo_krealloc_bound nag0 nag1 R) as (_ & Hreg & Hun & _).
  split; [|apply Hun; discriminate].
  destruct (Hreg 0x2000) as (_ & [[E _]|(_ & _ & E & _)]); [discriminate| | |].
  - intros [_ Hin]. apply list_elem_of_In in Hin. vm_compute in Hin. intuition discriminate.
  - vm_compute in E. discriminate E.
  - etransitivity; [|exact E]. f_equal; vm_compute; reflexivity.
Defined.

(** Registering an adapter twice leaves a stale slot: the second call moves
    its id, so unregistering it clears only the newer slot. *)
Theorem nag_double_register_stale :
  let s := (nagRegisterAdapter demo_krealloc nag1 0x1000).1 in
  nagGetAdapter (nagUnregisterAdapter s 0x1000) 0 = 0x1000.
Proof. vm_compute. reflexivity. Qed.
