(* ===== verification/Driver.v ===== *)
(** * The driver registry and per-process driver handles (src/kernel/drivers/driver.c)

    A driver entry lives at the address [kzalloc] gave it; the registry is
    the list of those addresses, newest first, and the entries allocated at
    the moment, by address.  Following a pointer to an entry that has been
    freed has no defined result: operations that do it return [None].

    The operations of a driver are code of its module: functions on memory.
    Names are C strings without their terminator. *)

From Stdlib Require Import ZArith Lia Bool.
From stdpp Require Import base list gmap.
From S2P Require Import Prelude Mem Str Slots.

Record DriverOps := mkOps {
  (** memory and [driverPriv] to memory, [sessionPriv] and result *)
  op_open : option (mem -> Z -> mem * Z * Z);
  op_close : option (mem -> Z -> mem * Z);
  (** memory, [sessionPriv], command, argument buffer and size *)
  op_ioctl : option (mem -> Z -> Z -> Z -> Z -> mem * Z) }.

Record DriverEntry := mkDriver { d_name : list Z; d_ops : DriverOps; driverPriv : Z }.

Record Registry := mkRegistry { entries : gmap Z DriverEntry; gDriverList : list Z }.

Record DriverHandle := mkHandle { h_driver : Z; sessionPriv : Z; active : bool }.
Record DriverHandleTable := mkHandles { handles : list DriverHandle; h_count : Z }.

Definition no_handle : DriverHandle := mkHandle 0 0 false.
Definition inactive (h : DriverHandle) : bool := negb (active h).
Definition h_capacity (t : DriverHandleTable) : Z := Z.of_nat (length (handles t)).

Definition driverInit (reg : Registry) : Registry := mkRegistry (entries reg) [].

(** ** Names *)

(** What follows the last separator of a path. *)
Fixpoint path_base (base p : list Z) : list Z :=
  match p with
  | [] => base
  | c :: r => if (c =? 47) || (c =? 92) then path_base r r else path_base base r
  end.

Definition dot_elf : list Z := [46; 101; 108; 102].

Definition matchDriverName (registered query : list Z) : bool :=
  if lstrcmp registered query =? 0 then true
  else
    let qBase := path_base query query in
    let regLen := length registered in
    (lstrncmp registered qBase regLen =? 0) &&
    ((nth regLen qBase 0 =? 0) || (lstrcmp (drop regLen qBase) dot_elf =? 0)).

(** ** The registry *)

(** [entry] is what [kzalloc] returned. *)
Definition driverRegister (reg : Registry) (entry : Z) (name : option (list Z))
    (ops : option DriverOps) (priv : Z) : Registry * Z :=
  match name, ops with
  | Some name, Some ops =>
      match op_ioctl ops with
      | None => (reg, -1)
      | Some _ =>
          if entry =? 0 then (reg, -1)
          else (mkRegistry (<[entry := mkDriver (take 63 name) ops priv]> (entries reg))
                  (entry :: gDriverList reg), 0)
      end
  | _, _ => (reg, -1)
  end.

(** The walk over the list: the first entry [P] accepts; [None] at a freed one. *)
Fixpoint find_entry (es : gmap Z DriverEntry) (P : DriverEntry -> bool) (l : list Z) : option (option Z) :=
  match l with
  | [] => Some None
  | p :: r => e ← es !! p; if P e then Some (Some p) else find_entry es P r
  end.

Definition named (name : list Z) (e : DriverEntry) : bool := lstrcmp (d_name e) name =? 0.

(** Unlinking an entry. *)
Fixpoint unlink (p : Z) (l : list Z) : list Z :=
  match l with
  | [] => []
  | q :: r => if q =? p then r else q :: unlink p r
  end.

Definition driverUnregister (reg : Registry) (name : option (list Z)) : option Registry :=
  match name with
  | None => Some reg
  | Some name =>
      r ← find_entry (entries reg) (named name) (gDriverList reg);
      match r with
      | None => Some reg
      | Some p => Some (mkRegistry (delete p (entries reg)) (unlink p (gDriverList reg)))
      end
  end.

(** ** Handles of a process *)

Definition handle_grow (cap : Z) : Z := if cap =? 0 then 8 else u64 (cap * 2).

(** Taking a slot of the handle table, which is grown when it is full. *)
Definition take_handle (krealloc_ok : Z -> bool) (t : DriverHandleTable) (driver session : Z)
    : option (DriverHandleTable * Z) :=
  let place table slot :=
    Some (mkHandles (<[Z.to_nat slot := mkHandle driver session true]> table) (u64 (h_count t + 1)), slot) in
  match first_slot inactive (handles t) with
  | Some i => place (handles t) (s32 (Z.of_nat i))
  | None =>
      let newCap := handle_grow (h_capacity t) in
      if negb (krealloc_ok (u64 (newCap * 24))) then None
      else place (handles t ++ replicate (Z.to_nat (newCap - h_capacity t)) no_handle)
             (s32 (h_capacity t))
  end.

(** Calling [ops.close], if there is one. *)
Definition close_session (ops : DriverOps) (m : mem) (session : Z) : mem :=
  match op_close ops with Some f => (f m session).1 | None => m end.

Definition driverOpen (krealloc_ok : Z -> bool) (reg : Registry) (m : mem)
    (proc : option DriverHandleTable) (name : option (list Z)) : option (mem * option DriverHandleTable * Z) :=
  match proc, name with
  | Some t, Some name =>
      r ← find_entry (entries reg) (fun e => matchDriverName (d_name e) name) (gDriverList reg);
      match r with
      | None => Some (m, proc, -2)
      | Some driver =>
          e ← entries reg !! driver;
          let '(m1, session, ret) :=
            match op_open (d_ops e) with Some f => f m (driverPriv e) | None => (m, 0, 0) end in
          if negb (ret =? 0) then Some (m1, proc, ret)
          else match take_handle krealloc_ok t driver session with
               | None => Some (close_session (d_ops e) m1 session, proc, -12)
               | Some (t', slot) => Some (m1, Some t', slot)
               end
      end
  | _, _ => Some (m, proc, -1)
  end.

(** The check both [driverIoctl] and [driverClose] start with. *)
Definition live_handle (t : DriverHandleTable) (handle : Z) : option DriverHandle :=
  if (handle <? 0) || (h_capacity t <=? handle) then None
  else h ← handles t !! Z.to_nat handle; if active h then Some h else None.

Definition driverIoctl (reg : Registry) (m : mem) (proc : option DriverHandleTable)
    (handle cmd arg argSize : Z) : option (mem * Z) :=
  match t ← proc; live_handle t handle with
  | None => Some (m, -9)
  | Some h =>
      if h_driver h =? 0 then Some (m, -38)
      else
        e ← entries reg !! h_driver h;
        match op_ioctl (d_ops e) with
        | None => Some (m, -38)
        | Some f => Some (f m (sessionPriv h) cmd arg argSize)
        end
  end.

Definition driverClose (reg : Registry) (m : mem) (proc : option DriverHandleTable) (handle : Z)
    : option (mem * option DriverHandleTable * Z) :=
  match proc with
  | None => Some (m, proc, -9)
  | Some t =>
      match live_handle t handle with
      | None => Some (m, proc, -9)
      | Some h =>
          let t' := mkHandles (<[Z.to_nat handle := no_handle]> (handles t)) (u64 (h_count t - 1)) in
          if h_driver h =? 0 then Some (m, Some t', 0)
          else e ← entries reg !! h_driver h;
               Some (close_session (d_ops e) m (sessionPriv h), Some t', 0)
      end
  end.

(** The loop of [driverCleanupProcess]: the sessions of active handles are
    closed in table order. *)
Fixpoint close_all (reg : Registry) (m : mem) (l : list DriverHandle) : option mem :=
  match l with
  | [] => Some m
  | h :: r =>
      if negb (active h) || (h_driver h =? 0) then close_all reg m r
      else e ← entries reg !! h_driver h;
           close_all reg (close_session (d_ops e) m (sessionPriv h)) r
  end.

Definition driverCleanupProcess (reg : Registry) (m : mem) (proc : option DriverHandleTable)
    : option (mem * option DriverHandleTable) :=
  match proc with
  | None => Some (m, None)
  | Some t =>
      match handles t with
      | [] => Some (m, proc)
      | hs => m' ← close_all reg m hs; Some (m', Some (mkHandles [] 0))
      end
  end.

(** ** Invariant *)

(** Registered entries are allocated, distinct and have an [ioctl]. *)
Record registry_ok (reg : Registry) : Prop := {
  ro_nodup : NoDup (gDriverList reg);
  ro_live : forall p, p ∈ gDriverList reg -> p <> 0 /\ exists e, entries reg !! p = Some e;
  ro_ioctl : forall p e, entries reg !! p = Some e -> op_ioctl (d_ops e) <> None
}.

(** The count is right, and every active handle's driver is registered. *)
Record handles_ok (reg : Registry) (t : DriverHandleTable) : Prop := {
  ho_count : h_count t = in_use inactive (handles t);
  ho_live : forall i h, handles t !! i = Some h -> active h = true -> h_driver h ∈ gDriverList reg;
  ho_cap : h_capacity t <= 2 ^ 30
}.

Lemma find_entry_spec es P l : (forall p, p ∈ l -> exists e, es !! p = Some e) ->
  (find_entry es P l = Some None /\ forall p e, p ∈ l -> es !! p = Some e -> P e = false) \/
  exists p e l1 l2, find_entry es P l = Some (Some p) /\ l = l1 ++ p :: l2 /\ es !! p = Some e /\ P e = true /\
    forall q f, q ∈ l1 -> es !! q = Some f -> P f = false.
Proof.
  induction l as [|p l IH]; intros Hl.
  - left. split; [done|]. intros p e Hp. by apply not_elem_of_nil in Hp.
  - destruct (Hl p) as [e He]; [apply elem_of_cons; by left|]. cbn [find_entry]. rewrite He.
    cbn [mbind option_bind]. destruct (P e) eqn:EP.
    + right. exists p, e, [], l. split_and!; try done. intros q f Hq. by apply not_elem_of_nil in Hq.
    + destruct IH as [[E Hn]|(q & f & l1 & l2 & E & -> & Hq & HP & Hl1)].
      * intros q Hq. apply Hl. apply elem_of_cons. by right.
      * left. split; [done|]. intros q f [->|Hq]%elem_of_cons Hf; [congruence|by apply (Hn q)].
      * right. exists q, f, (p :: l1), l2. split_and!; try done.
        intros r g [->|Hr]%elem_of_cons Hg; [congruence|by apply (Hl1 r)].
Qed.

Lemma unlink_elem p l : NoDup l -> forall q, q ∈ unlink p l <-> q ∈ l /\ q <> p.
Proof.
  induction 1 as [|x l Hx Hl IH]; intros q; cbn [unlink].
  - split; [intros Hq; by apply not_elem_of_nil in Hq|tauto].
  - destruct (Z.eqb_spec x p) as [->|Hne]; rewrite !elem_of_cons, ?IH.
    + split; [intros Hq; split; [by right|by intros ->]|intros [[->|Hq] Hn]; done].
    + split; [intros [->|[Hq Hn]]; tauto|tauto].
Qed.

Lemma unlink_nodup p l : NoDup l -> NoDup (unlink p l).
Proof.
  intros Hl. induction Hl as [|x l Hx Hl IH]; cbn [unlink]; [constructor|]. destruct (Z.eqb_spec x p); [done|].
  constructor; [|done]. rewrite unlink_elem by done. tauto.
Qed.

(** ** Matching names *)
Abbreviation cbytes := (Forall (fun c => 0 < c < 256)).

Lemma lstrncmp_prefix l1 l2 : cbytes l1 -> cbytes l2 ->
  lstrncmp l1 l2 (length l1) = 0 <-> exists r, l2 = l1 ++ r.
Proof.
  intros H1. revert l2. induction H1 as [|c l1 Hc H1 IH]; intros l2 H2; cbn [length lstrncmp].
  - split; [by exists l2|done].
  - destruct H2 as [|c2 l2 Hc2 H2]; [split; [lia|by intros [r [=]]]|].
    destruct (Z.eqb_spec c c2) as [->|Hne].
    + rewrite IH by done. split; intros [r E]; exists r; [by rewrite E|by injection E].
    + split; [lia|]. intros [r [= E _]]. by destruct Hne.
Qed.

Lemma path_base_forall (P : Z -> Prop) p : forall base, Forall P base -> Forall P p -> Forall P (path_base base p).
Proof.
  induction p as [|c p IH]; intros base Hb Hp; [done|]. inversion Hp; subst. cbn [path_base].
  destruct (_ || _); by apply IH.
Qed.

(** A query names a driver by its name, or by a path to it, with or without
    the ".elf" suffix. *)
Lemma matchDriverName_spec reg q : cbytes reg -> cbytes q ->
  matchDriverName reg q = true <->
  q = reg \/ path_base q q = reg \/ path_base q q = reg ++ dot_elf.
Proof.
  intros Hr Hq. unfold matchDriverName. assert (Hb := path_base_forall _ q q Hq Hq).
  assert (He : cbytes dot_elf) by (repeat constructor; lia).
  destruct (Z.eqb_spec (lstrcmp reg q) 0) as [E|E].
  { apply lstrcmp_zero in E; [|done|done]. split; [by left|done]. }
  rewrite lstrcmp_zero in E by done. set (b := path_base q q) in *. clearbody b.
  rewrite andb_true_iff, orb_true_iff, !Z.eqb_eq, lstrncmp_prefix by done. split.
  - intros [[r ->] Hx]. rewrite drop_app_length in Hx. apply Forall_app in Hb as [_ Hb].
    rewrite app_nth2, Nat.sub_diag in Hx by lia. right. destruct Hx as [Hx|Hx].
    + left. destruct Hb; [by rewrite app_nil_r|simpl in Hx; lia].
    + right. by apply lstrcmp_zero in Hx as ->.
  - intros [->|[->| ->]]; [done| |].
    + split; [exists []; by rewrite app_nil_r|]. left. apply nth_overflow. lia.
    + split; [by eexists|]. right. rewrite drop_app_length. by apply lstrcmp_zero.
Qed.

(** ** Handles *)
Lemma live_handle_spec t hd h : live_handle t hd = Some h <->
  0 <= hd /\ handles t !! Z.to_nat hd = Some h /\ active h = true.
Proof.
  unfold live_handle, h_capacity. destruct (Z.ltb_spec hd 0); cbn [orb]; [split; [done|lia]|].
  destruct (Z.leb_spec (Z.of_nat (length (handles t))) hd).
  - split; [done|]. intros (_ & E & _). apply lookup_lt_Some in E. lia.
  - destruct (handles t !! Z.to_nat hd) as [x|]; cbn [mbind option_bind]; [|split; [done|by intros (_ & ? & _)]].
    destruct (active x) eqn:Ex.
    + split; [by intros [= <-]|by intros (_ & [= <-] & _)].
    + split; [done|]. intros (_ & [= <-] & E). congruence.
Qed.

(** What taking a slot does: the new handle is the lowest free slot and the
    other handles are as before. *)
Definition takes (t : DriverHandleTable) (driver session : Z) (t' : DriverHandleTable) (slot : Z) : Prop :=
  0 <= slot < 2 ^ 31 /\ live_handle t slot = None /\ (forall i, 0 <= i < slot -> live_handle t i <> None) /\
  live_handle t' slot = Some (mkHandle driver session true) /\
  (forall i, i <> slot -> live_handle t' i = live_handle t i).

(** Writing an active handle over an inactive slot of a table that agrees
    with [t] on active handles. *)
Lemma place_takes t table i driver session :
  (exists h, table !! i = Some h /\ active h = false) -> Z.of_nat i < 2 ^ 31 ->
  (forall j h, active h = true -> table !! j = Some h <-> handles t !! j = Some h) ->
  (forall j, (j < i)%nat -> exists h, table !! j = Some h /\ active h = true) ->
  takes t driver session (mkHandles (<[i := mkHandle driver session true]> table) (u64 (h_count t + 1))) (Z.of_nat i).
Proof.
  intros (h0 & Hi & Hf) Hlt Hsame Hlow.
  assert (Hil : (i < length table)%nat) by (by apply lookup_lt_Some in Hi).
  assert (Hothers : forall j h, j <> Z.of_nat i -> live_handle (mkHandles (<[i := mkHandle driver session true]> table)
    (u64 (h_count t + 1))) j = Some h <-> live_handle t j = Some h).
  { intros j h Hj. rewrite !live_handle_spec. cbn [handles]. split; intros (H0 & E & Ha); split_and!; try done.
    - rewrite list_lookup_insert_ne in E by lia. by apply Hsame.
    - rewrite list_lookup_insert_ne by lia. by apply Hsame. }
  split_and!; [lia|done| | | |].
  - destruct (live_handle t (Z.of_nat i)) as [h|] eqn:E; [|done]. apply live_handle_spec in E as (_ & E & Ha).
    rewrite Nat2Z.id in E. apply Hsame in E; [|done]. congruence.
  - intros j Hj Hn. destruct (Hlow (Z.to_nat j)) as (h & E & Ha); [lia|]. apply Hsame in E; [|done].
    assert (live_handle t j = Some h) by (apply live_handle_spec; split_and!; [lia|done|done]). congruence.
  - apply live_handle_spec. split_and!; [lia| |done]. cbn [handles]. rewrite Nat2Z.id. by apply list_lookup_insert_eq.
  - intros j Hj. apply option_eq. intros h. by apply Hothers.
Qed.

Lemma take_handle_spec km reg t driver session : (forall n, km n = true -> n <= 24 * 2 ^ 30) ->
  handles_ok reg t -> driver ∈ gDriverList reg ->
  match take_handle km t driver session with
  | None => True
  | Some (t', slot) => takes t driver session t' slot /\ handles_ok reg t'
  end.
Proof.
  intros Hkm Ht Hd. unfold take_handle. pose proof (ho_cap reg t Ht) as Hcap. unfold h_capacity in *.
  assert (Hfin : forall table i h0, table !! i = Some h0 -> active h0 = false ->
    (forall j h, active h = true -> table !! j = Some h <-> handles t !! j = Some h) ->
    (forall j, (j < i)%nat -> exists h, table !! j = Some h /\ active h = true) ->
    in_use inactive table = in_use inactive (handles t) -> Z.of_nat (length table) <= 2 ^ 30 ->
    let t' := mkHandles (<[i := mkHandle driver session true]> table) (u64 (h_count t + 1)) in
    takes t driver session t' (Z.of_nat i) /\ handles_ok reg t').
  { intros table i h0 Hi Hf Hsame Hlow Hu Hlen t'. pose proof (lookup_lt_Some _ _ _ Hi) as Hil. split.
    - apply place_takes; [by exists h0|lia|done|done].
    - pose proof (in_use_range inactive (handles t)). constructor; cbn [handles h_count t'].
      + rewrite (in_use_insert inactive table i h0 _ Hi), (ho_count reg t Ht), Hu, u64_id by (unfold is_u64; lia).
        unfold inactive. rewrite Hf. simpl. lia.
      + intros j h Hj Ha. destruct (Nat.eq_dec i j) as [<-|Hij].
        * rewrite list_lookup_insert_eq in Hj by done. by injection Hj as <-.
        * rewrite list_lookup_insert_ne in Hj by done. apply (ho_live reg t Ht j); [by apply Hsame|done].
      + unfold h_capacity. cbn [handles t']. by rewrite length_insert. }
  destruct (first_slot inactive (handles t)) as [i|] eqn:Ei.
  - destruct (first_slot_some _ _ _ Ei) as [(x & Hx & Hf) Hlow]. pose proof (lookup_lt_Some _ _ _ Hx).
    rewrite s32_id, Nat2Z.id by lia. apply (Hfin _ _ x); try done; [unfold inactive in Hf; by destruct (active x)|].
    intros j Hj. destruct (lookup_lt_is_Some_2 (handles t) j) as [h Hh]; [lia|]. exists h. split; [done|].
    specialize (Hlow j h Hj Hh). unfold inactive in Hlow. by destruct (active h).
  - destruct (km _) eqn:Ek; cbn [negb]; [|done]. apply Hkm in Ek.
    assert (Hg : Z.of_nat (length (handles t)) < handle_grow (Z.of_nat (length (handles t))) <= 2 ^ 31).
    { unfold handle_grow. destruct (Z.eqb_spec (Z.of_nat (length (handles t))) 0); [lia|].
      rewrite u64_id by (unfold is_u64; lia). lia. }
    rewrite u64_id in Ek by (unfold is_u64; lia). rewrite s32_id, Nat2Z.id by lia.
    apply (Hfin _ _ no_handle); [apply grown_lookup_new; lia|done| | | |].
    + intros j h Ha. split; [|by apply grown_lookup_old]. intros [E|[-> _]]%grown_lookup_inv; done.
    + intros j Hj. destruct (lookup_lt_is_Some_2 (handles t) j Hj) as [h Hh]. exists h.
      split; [by apply grown_lookup_old|].
      assert (Hin : inactive h = false) by (eapply first_slot_none; [exact Ei|by eapply list_elem_of_lookup_2]).
      unfold inactive in Hin. by destruct (active h).
    + by apply in_use_grow.
    + rewrite length_app, length_replicate. lia.
Qed.

(** Clearing a handle. *)
Lemma clear_handle reg t hd h : handles_ok reg t -> live_handle t hd = Some h ->
  let t' := mkHandles (<[Z.to_nat hd := no_handle]> (handles t)) (u64 (h_count t - 1)) in
  handles_ok reg t' /\ live_handle t' hd = None /\ forall i, i <> hd -> live_handle t' i = live_handle t i.
Proof.
  intros Ht E. apply live_handle_spec in E as (H0 & E & Ha). cbv zeta.
  assert (Hlt : (Z.to_nat hd < length (handles t))%nat) by (by apply lookup_lt_Some in E).
  assert (Hl : forall j x, active x = true ->
    <[Z.to_nat hd := no_handle]> (handles t) !! j = Some x <-> handles t !! j = Some x /\ j <> Z.to_nat hd).
  { intros j x Hx. destruct (Nat.eq_dec (Z.to_nat hd) j) as [<-|Hj].
    - rewrite list_lookup_insert_eq by done. split; [by intros [= <-]|tauto].
    - rewrite list_lookup_insert_ne by done. split; [intros ?; split; [done|congruence]|tauto]. }
  split_and!.
  - constructor; cbn [handles h_count].
    + pose proof (in_use_range inactive (<[Z.to_nat hd := no_handle]> (handles t))) as Hr. rewrite length_insert in Hr.
      pose proof (in_use_insert inactive (handles t) _ h no_handle E) as Hu. pose proof (ho_cap reg t Ht) as Hc.
      unfold h_capacity in Hc. unfold inactive in Hu at 3 4. rewrite Ha in Hu. cbn in Hu.
      rewrite (ho_count reg t Ht), u64_id by (unfold is_u64; lia). lia.
    + intros i x Hi Hx. apply Hl in Hi as [Hi _]; [|done]. by apply (ho_live reg t Ht i).
    + unfold h_capacity. cbn [handles]. rewrite length_insert. apply (ho_cap reg t Ht).
  - destruct (live_handle _ hd) as [x|] eqn:Ex; [|done]. apply live_handle_spec in Ex as (_ & Ex & Hx).
    cbn [handles] in Ex. apply Hl in Ex as [_ Hn]; [|done]. by destruct Hn.
  - intros i Hi. apply option_eq. intros x. rewrite !live_handle_spec. cbn [handles].
    split; intros (Hi0 & Hx & Hax); (split_and!; [done| |done]).
    + by apply Hl in Hx as [Hx _].
    + apply Hl; [done|]. split; [done|]. intros Hn. apply Hi. apply Z2Nat.inj; done.
Qed.

Lemma close_all_live reg l : registry_ok reg ->
  (forall h, h ∈ l -> active h = true -> h_driver h ∈ gDriverList reg) ->
  forall m, exists m', close_all reg m l = Some m'.
Proof.
  intros Hr. induction l as [|h l IH]; intros Hl m; cbn [close_all]; [by exists m|].
  assert (Hl' : forall x, x ∈ l -> active x = true -> h_driver x ∈ gDriverList reg)
    by (intros x Hx; apply Hl; apply elem_of_cons; by right).
  destruct (negb (active h) || (h_driver h =? 0)) eqn:Eh; [by apply IH|].
  apply orb_false_iff in Eh as [Ea _]. destruct (ro_live reg Hr (h_driver h)) as [_ [e He]].
  { apply Hl; [apply elem_of_cons; by left|by destruct (active h)]. }
  rewrite He. cbn [mbind option_bind]. by apply IH.
Qed.

Lemma handle_entry reg t hd h : registry_ok reg -> handles_ok reg t -> live_handle t hd = Some h ->
  h_driver h <> 0 /\ exists e, entries reg !! h_driver h = Some e.
Proof.
  intros Hr Ht E. apply live_handle_spec in E as (_ & E & Ha). apply (ro_live reg Hr).
  by apply (ho_live reg t Ht (Z.to_nat hd)).
Qed.

(** ** Sequences of calls *)
Section Calls.
(** Whether [krealloc] can serve a request; 24 GiB is out of reach. *)
Context (krealloc_ok : Z -> bool) (krealloc_bound : forall n, krealloc_ok n = true -> n <= 24 * 2 ^ 30).

Record DriverState := mkDS { ds_reg : Registry; ds_handles : DriverHandleTable; ds_mem : mem }.

Definition driver_ok (s : DriverState) : Prop :=
  registry_ok (ds_reg s) /\ handles_ok (ds_reg s) (ds_handles s).

(** A process opens, uses and closes drivers while modules come and go; a
    module leaves only when the process has no open handle to its driver. *)
Inductive driver_step : DriverState -> DriverState -> Prop :=
| step_register s p name ops priv : p <> 0 -> entries (ds_reg s) !! p = None -> (p ∉ gDriverList (ds_reg s)) ->
    driver_step s (mkDS (driverRegister (ds_reg s) p name ops priv).1 (ds_handles s) (ds_mem s))
| step_unregister s name reg : driverUnregister (ds_reg s) name = Some reg ->
    (forall i h, live_handle (ds_handles s) i = Some h -> h_driver h ∈ gDriverList reg) ->
    driver_step s (mkDS reg (ds_handles s) (ds_mem s))
| step_open s name m t r : driverOpen krealloc_ok (ds_reg s) (ds_mem s) (Some (ds_handles s)) name = Some (m, Some t, r) ->
    driver_step s (mkDS (ds_reg s) t m)
| step_ioctl s hd cmd arg n m r : driverIoctl (ds_reg s) (ds_mem s) (Some (ds_handles s)) hd cmd arg n = Some (m, r) ->
    driver_step s (mkDS (ds_reg s) (ds_handles s) m)
| step_close s hd m t r : driverClose (ds_reg s) (ds_mem s) (Some (ds_handles s)) hd = Some (m, Some t, r) ->
    driver_step s (mkDS (ds_reg s) t m)
| step_cleanup s m t : driverCleanupProcess (ds_reg s) (ds_mem s) (Some (ds_handles s)) = Some (m, Some t) ->
    driver_step s (mkDS (ds_reg s) t m).

Lemma register_ok s p name ops priv : driver_ok s -> p <> 0 -> entries (ds_reg s) !! p = None ->
  (p ∉ gDriverList (ds_reg s)) ->
  driver_ok (mkDS (driverRegister (ds_reg s) p name ops priv).1 (ds_handles s) (ds_mem s)).
Proof.
  intros [Hr Ht] Hp Hf Hn. unfold driverRegister. destruct name as [name|]; [|done]. destruct ops as [ops|]; [|done].
  destruct (op_ioctl ops) as [f|] eqn:Ei; [|done]. destruct (Z.eqb_spec p 0); [done|]. split.
  - constructor; cbn [ds_reg fst entries gDriverList].
    + constructor; [done|apply (ro_nodup _ Hr)].
    + intros q [->|Hq]%elem_of_cons.
      * split; [done|]. eexists. apply lookup_insert_eq.
      * destruct (ro_live _ Hr q Hq) as [Hq0 [e He]]. split; [done|]. exists e.
        rewrite lookup_insert_ne; [done|]. intros <-. congruence.
    + intros q e. destruct (Z.eq_dec p q) as [<-|Hpq].
      * rewrite lookup_insert_eq. intros [= <-]. cbn [d_ops]. by rewrite Ei.
      * rewrite lookup_insert_ne by done. apply (ro_ioctl _ Hr).
  - destruct Ht as [H1 H2 H3]. constructor; try done. cbn [ds_handles ds_reg fst gDriverList].
    intros i h Hi Ha. apply elem_of_cons. right. by apply (H2 i).
Qed.

Lemma driverUnregister_spec reg name : registry_ok reg -> exists reg', driverUnregister reg name = Some reg' /\ registry_ok reg' /\
  (forall p, p ∈ gDriverList reg' -> p ∈ gDriverList reg /\ entries reg' !! p = entries reg !! p).
Proof.
  intros Hr. unfold driverUnregister. destruct name as [name|]; [|by exists reg].
  destruct (find_entry_spec (entries reg) (named name) (gDriverList reg)) as [[-> _]|(p & e & l1 & l2 & -> & _)].
  - intros p Hp. by apply (ro_live _ Hr).
  - by exists reg.
  - cbn [mbind option_bind]. eexists. split; [done|].
    pose proof (unlink_elem p _ (ro_nodup _ Hr)) as Hu. cbn [gDriverList entries]. split.
    + constructor; cbn [gDriverList entries].
      * apply unlink_nodup, (ro_nodup _ Hr).
      * intros q Hq. apply Hu in Hq as [Hq Hqp]. rewrite lookup_delete_ne by congruence. by apply (ro_live _ Hr).
      * intros q f. destruct (Z.eq_dec p q) as [<-|Hpq]; [by rewrite lookup_delete_eq|].
        rewrite lookup_delete_ne by done. apply (ro_ioctl _ Hr).
    + intros q Hq. apply Hu in Hq as [Hq Hqp]. by rewrite lookup_delete_ne by congruence.
Qed.

(** [driverOpen] on every branch. *)
Definition opens (reg : Registry) (m : mem) (t : DriverHandleTable) (name : list Z) (m' : mem) (t' : DriverHandleTable)
    (r : Z) : Prop :=
  (r = -2 /\ m' = m /\ t' = t /\
   forall p e, p ∈ gDriverList reg -> entries reg !! p = Some e -> matchDriverName (d_name e) name = false) \/
  exists p e l1 l2, gDriverList reg = l1 ++ p :: l2 /\ entries reg !! p = Some e /\
    matchDriverName (d_name e) name = true /\
    (forall q f, q ∈ l1 -> entries reg !! q = Some f -> matchDriverName (d_name f) name = false) /\
    let '(m1, session, ret) := match op_open (d_ops e) with Some f => f m (driverPriv e) | None => (m, 0, 0) end in
    (ret <> 0 /\ r = ret /\ m' = m1 /\ t' = t) \/
    (ret = 0 /\ r = -12 /\ m' = close_session (d_ops e) m1 session /\ t' = t) \/
    (ret = 0 /\ m' = m1 /\ takes t p session t' r).

Lemma driverOpen_spec reg m t name : registry_ok reg -> handles_ok reg t ->
  exists m' t' r, driverOpen krealloc_ok reg m (Some t) (Some name) = Some (m', Some t', r) /\
    opens reg m t name m' t' r /\ handles_ok reg t'.
Proof using krealloc_bound.
  intros Hr Ht. unfold driverOpen.
  destruct (find_entry_spec (entries reg) (fun e => matchDriverName (d_name e) name) (gDriverList reg))
    as [[-> Hn]|(p & e & l1 & l2 & -> & El & He & Hm & Hf)].
  - intros p Hp. by apply (ro_live _ Hr).
  - exists m, t, (-2). split_and!; try done. by left.
  - cbn [mbind option_bind]. rewrite He. cbn [mbind option_bind].
    set (o := match op_open (d_ops e) with Some f => f m (driverPriv e) | None => (m, 0, 0) end).
    assert (Ho : o = match op_open (d_ops e) with Some f => f m (driverPriv e) | None => (m, 0, 0) end) by done.
    assert (Hin : p ∈ gDriverList reg) by (rewrite El; apply elem_of_app; right; apply elem_of_cons; by left).
    destruct o as [[m1 session] ret]. destruct (Z.eqb_spec ret 0) as [->|Hne]; cbn [negb].
    + pose proof (take_handle_spec krealloc_ok reg t p session krealloc_bound Ht Hin) as Htk.
      destruct (take_handle krealloc_ok t p session) as [[t' slot]|].
      * destruct Htk as [Htk Hok]. exists m1, t', slot. split_and!; try done. right. exists p, e, l1, l2.
        rewrite <- Ho. split_and!; try done. by right; right.
      * eexists _, t, (-12). split_and!; try done. right. exists p, e, l1, l2. rewrite <- Ho.
        split_and!; try done. by right; left.
    + exists m1, t, ret. split_and!; try done. right. exists p, e, l1, l2. rewrite <- Ho. split_and!; try done. by left.
Qed.

Lemma cleanup_spec reg m t : registry_ok reg -> handles_ok reg t ->
  exists m' t', driverCleanupProcess reg m (Some t) = Some (m', Some t') /\ handles t' = [] /\ handles_ok reg t'.
Proof.
  intros Hr Ht. unfold driverCleanupProcess. destruct (handles t) as [|h l] eqn:E.
  - exists m, t. done.
  - destruct (close_all_live reg (h :: l) Hr) with (m := m) as [m' Hm'].
    { intros x Hx Ha. rewrite <- E in Hx. apply list_elem_of_lookup in Hx as [i Hi]. by apply (ho_live reg t Ht i). }
    rewrite Hm'. cbn [mbind option_bind]. exists m', (mkHandles [] 0). split_and!; try done.
Qed.

Lemma driver_step_ok s s' : driver_ok s -> driver_step s s' -> driver_ok s'.
Proof using krealloc_bound.
  intros Hok St. destruct Hok as [Hr Ht].
  destruct St as [s p name ops priv Hp Hf Hn|s name reg E Hl|s name m t r E|s hd cmd arg n m r E|s hd m t r E|s m t E].
  - by apply register_ok.
  - destruct (driverUnregister_spec (ds_reg s) name Hr) as (reg' & E' & Hr' & _). rewrite E in E'. injection E' as <-.
    split; [done|]. destruct Ht as [H1 H2 H3]. constructor; try done. intros i h Hi Ha.
    apply (Hl (Z.of_nat i)). apply live_handle_spec. rewrite Nat2Z.id. split_and!; [lia|done|done].
  - destruct name as [name|]; [|cbn in E; injection E as <- <- <-; done].
    destruct (driverOpen_spec (ds_reg s) (ds_mem s) (ds_handles s) name Hr Ht) as (m1 & t1 & r1 & E1 & _ & Hok).
    rewrite E in E1. injection E1 as <- <- <-. done.
  - done.
  - unfold driverClose in E. destruct (live_handle (ds_handles s) hd) as [h|] eqn:Eh; [|injection E as <- <- <-; done].
    destruct (clear_handle _ _ _ _ Ht Eh) as (Hok & _). destruct (handle_entry _ _ _ _ Hr Ht Eh) as (Hd & e & He).
    destruct (Z.eqb_spec (h_driver h) 0); [done|]. rewrite He in E. cbn [mbind option_bind] in E.
    injection E as <- <- <-. done.
  - destruct (cleanup_spec _ (ds_mem s) _ Hr Ht) as (m1 & t1 & E1 & _ & Hok). rewrite E in E1.
    injection E1 as <- <-. done.
Qed.

(** C17: driver handles never dangle.  After any sequence of registrations,
    opens, ioctls, closes and process cleanups, with a driver unregistered
    only while no handle of the process refers to it, every handle refers to
    a registered driver, the handle count is exact, and none of the calls
    follows a pointer to a freed entry: opening, ioctl, close, cleanup and
    unregistering all return, and cleanup leaves no handle. *)
Theorem driver_handles_safe s0 s : driver_ok s0 -> rtc driver_step s0 s ->
  driver_ok s /\
  (forall name, exists m t r,
     driverOpen krealloc_ok (ds_reg s) (ds_mem s) (Some (ds_handles s)) (Some name) = Some (m, Some t, r)) /\
  (forall hd cmd arg n, exists m r,
     driverIoctl (ds_reg s) (ds_mem s) (Some (ds_handles s)) hd cmd arg n = Some (m, r)) /\
  (forall hd, exists m t r, driverClose (ds_reg s) (ds_mem s) (Some (ds_handles s)) hd = Some (m, Some t, r)) /\
  (exists m t, driverCleanupProcess (ds_reg s) (ds_mem s) (Some (ds_handles s)) = Some (m, Some t) /\ handles t = []) /\
  (forall name, exists reg, driverUnregister (ds_reg s) name = Some reg).
Proof using krealloc_bound.
  intros H0 R. assert (Hs : driver_ok s).
  { apply (rtc_ind_r (fun s => driver_ok s) s0) in R; [done|done|]. intros x y _ St Hx. by apply (driver_step_ok x). }
  split; [done|]. destruct Hs as [Hr Ht]. split_and!.
  - intros name. destruct (driverOpen_spec (ds_reg s) (ds_mem s) (ds_handles s) name Hr Ht) as (m & t & r & E & _). eauto.
  - intros hd cmd arg n. unfold driverIoctl. cbn [mbind option_bind].
    destruct (live_handle (ds_handles s) hd) as [h|] eqn:Eh; [|eauto].
    destruct (handle_entry _ _ _ _ Hr Ht Eh) as (Hd & e & He). destruct (h_driver h =? 0); [eauto|].
    rewrite He. cbn [mbind option_bind]. destruct (op_ioctl (d_ops e)) as [f|]; [|eauto].
    destruct (f _ _ _ _ _) as [m r]. eauto.
  - intros hd. unfold driverClose. destruct (live_handle (ds_handles s) hd) as [h|] eqn:Eh; [|eauto].
    destruct (handle_entry _ _ _ _ Hr Ht Eh) as (Hd & e & He). destruct (h_driver h =? 0); [eauto|].
    rewrite He. cbn [mbind option_bind]. eauto.
  - destruct (cleanup_spec _ (ds_mem s) _ Hr Ht) as (m & t & E & Hn & _). eauto.
  - intros name. destruct (driverUnregister_spec (ds_reg s) name Hr) as (reg & E & _). eauto.
Qed.

(** Opening a driver.  [driverOpen] picks the most recently registered
    driver whose name the query matches (by name, by path, with or without
    ".elf") and fails with -2 when there is none; an error of the driver's
    own [open] is returned, and when the handle table cannot grow the session
    is closed again; otherwise the handle is the lowest free slot.  An ioctl
    on that handle runs that driver's [ioctl] on that session, and closing it
    closes exactly that session; the other handles are never affected. *)
Theorem driverOpen_correct reg m t name : registry_ok reg -> handles_ok reg t ->
  exists m' t' r, driverOpen krealloc_ok reg m (Some t) (Some name) = Some (m', Some t', r) /\
    opens reg m t name m' t' r /\
    (forall p session e f, live_handle t' r = Some (mkHandle p session true) -> entries reg !! p = Some e ->
       op_ioctl (d_ops e) = Some f ->
       (forall m2 cmd arg n, driverIoctl reg m2 (Some t') r cmd arg n = Some (f m2 session cmd arg n)) /\
       (forall m2, exists t2, driverClose reg m2 (Some t') r = Some (close_session (d_ops e) m2 session, Some t2, 0) /\
          live_handle t2 r = None /\ forall i, i <> r -> live_handle t2 i = live_handle t' i)).
Proof using krealloc_bound.
  intros Hr Ht. destruct (driverOpen_spec reg m t name Hr Ht) as (m' & t' & r & E & Ho & Ht').
  exists m', t', r. split_and!; [done|done|]. intros p session e f Hl He Hf.
  destruct (handle_entry _ _ _ _ Hr Ht' Hl) as (Hp & _). cbn [h_driver] in Hp. split.
  - intros m2 cmd arg n. unfold driverIoctl. cbn [mbind option_bind]. rewrite Hl. cbn [h_driver sessionPriv].
    destruct (Z.eqb_spec p 0); [done|]. rewrite He. cbn [mbind option_bind]. by rewrite Hf.
  - intros m2. unfold driverClose. rewrite Hl. cbn [h_driver sessionPriv]. destruct (Z.eqb_spec p 0); [done|].
    rewrite He. cbn [mbind option_bind]. destruct (clear_handle _ _ _ _ Ht' Hl) as (_ & H1 & H2). eauto.
Qed.
End Calls.

(** ** A driver that counts its sessions at address 512 *)
Definition demo_ops : DriverOps :=
  mkOps (Some (fun m priv => (wr8 m 512 (rd8 m 512 + 1), priv + rd8 m 512, 0)))
        (Some (fun m session => (wr8 m 512 (rd8 m 512 - 1), 0)))
        (Some (fun m session cmd arg n => (m, session + cmd))).
(** "vgpu" and "/drv/vgpu.elf" *)
Definition demo_name : list Z := [118; 103; 112; 117].
Definition demo_query : list Z := [47; 100; 114; 118; 47; 118; 103; 112; 117; 46; 101; 108; 102].
Definition demo_kr (n : Z) : bool := n <=? 4096.

Lemma demo_kr_bound n : demo_kr n = true -> n <= 24 * 2 ^ 30.
Proof. unfold demo_kr. intros E. apply Z.leb_le in E. lia. Qed.

Definition ds0 : DriverState := mkDS (mkRegistry ∅ []) (mkHandles [] 0) ∅.
Definition demo_reg : Registry := (driverRegister (ds_reg ds0) 0x5000 (Some demo_name) (Some demo_ops) 100).1.
Definition ds1 : DriverState := mkDS demo_reg (ds_handles ds0) (ds_mem ds0).

Lemma ds0_ok : driver_ok ds0.
Proof.
  split; [|by constructor]. constructor; cbn; [apply NoDup_nil_2| |].
  - intros p Hp. by apply not_elem_of_nil in Hp.
  - intros p e E. by rewrite lookup_empty in E.
Qed.

Lemma ds1_step : driver_step demo_kr ds0 ds1.
Proof. apply (step_register demo_kr ds0 0x5000); [discriminate|reflexivity|apply not_elem_of_nil]. Qed.

Lemma driver_handles_safe_witness : exists m t, driverCleanupProcess demo_reg ∅ (Some (mkHandles [] 0)) = Some (m, Some t).
Proof.
  destruct (driver_handles_safe demo_kr demo_kr_bound ds0 ds1 ds0_ok (rtc_once _ _ ds1_step))
    as (_ & _ & _ & _ & (m & t & E & _) & _).
  exists m, t. exact E.
Defined.

Lemma driverOpen_correct_witness : exists m' t' r,
  driverOpen demo_kr demo_reg ∅ (Some (mkHandles [] 0)) (Some demo_query) = Some (m', Some t', r) /\
  opens demo_reg ∅ (mkHandles [] 0) demo_query m' t' r /\ r = 0.
Proof.
  destruct (driver_step_ok demo_kr demo_kr_bound ds0 ds1 ds0_ok ds1_step) as [Hr Ht].
  destruct (driverOpen_correct demo_kr demo_kr_bound demo_reg ∅ (mkHandles [] 0) demo_query Hr Ht)
    as (m' & t' & r & E & Ho & _).
  exists m', t', r. split; [exact E|]. split; [exact Ho|].
  assert (Er : snd <$> driverOpen demo_kr demo_reg ∅ (Some (mkHandles [] 0)) (Some demo_query) = Some 0)
    by (vm_compute; reflexivity).
  rewrite E in Er. injection Er as Er. exact Er.
Defined.

(** Unregistering a driver frees its entry even when handles are open: the
    next ioctl on such a handle follows a pointer to freed memory. *)
Theorem driver_unregister_dangles :
  exists m t reg, driverOpen demo_kr demo_reg ∅ (Some (mkHandles [] 0)) (Some demo_name) = Some (m, Some t, 0) /\
    driverUnregister demo_reg (Some demo_name) = Some reg /\
    driverIoctl reg m (Some t) 0 1 0 0 = None.
Proof. do 3 eexists. split_and!; vm_compute; reflexivity. Qed.
