(* ===== verification/SysDriver.v ===== *)
(** * The driver and graphics system calls (src/kernel/syscall/sysdriver.c, sysnagdispatch.c)

    The argument of an ioctl or dispatch is copied to a kernel buffer, the
    driver works on the copy, and the result is copied back.  [cur] is the
    current process, if the current thread has one: its VMAs and its driver
    handles.  [stackBuf] is the address of the handler's 256-byte buffer and
    [kmalloc] gives the address of a larger one (0 on failure). *)

From Stdlib Require Import ZArith Lia Bool.
From stdpp Require Import base list gmap.
From S2P Require Import Prelude Mem Str Frames Pmm PageTable Vma Slots Nag Driver.

(** What [sysDriverIoctl] and [sysNagDispatch] do around the call. *)
Definition user_call (kmalloc : Z -> Z) (stackBuf : Z) (vmas : option (list Vma)) (m : mem) (arg argSize : Z)
    (call : mem -> Z -> Z -> option (mem * Z)) : option (mem * Z) :=
  if (argSize =? 0) || (arg =? 0) then call m 0 0
  else
    ok ← validateUserRange vmas arg argSize true;
    if negb ok then Some (m, - EFAULT)
    else
      let kbuf := if 256 <? argSize then kmalloc argSize else stackBuf in
      if kbuf =? 0 then Some (m, - ENOMEM)
      else
        '(m1, rc) ← copyFromUser vmas m kbuf arg argSize;
        if negb (rc =? 0) then Some (m1, - EFAULT)
        else
          '(m2, ret) ← call m1 kbuf argSize;
          if 0 <=? ret then
            '(m3, rc) ← copyToUser vmas m2 arg kbuf argSize;
            Some (m3, if negb (rc =? 0) then - EFAULT else ret)
          else Some (m2, ret).

Definition sysNagDispatch (ops : DispatchOp) (kmalloc : Z -> Z) (stackBuf : Z) (nag : Nag)
    (vmas : option (list Vma)) (m : mem) (id op arg argSize : Z) : option (mem * Z) :=
  user_call kmalloc stackBuf vmas m arg argSize (fun m a n => Some (nagDispatch ops nag m id op a n)).

Definition sysDriverIoctl (kmalloc : Z -> Z) (stackBuf : Z) (reg : Registry)
    (cur : option (list Vma * DriverHandleTable)) (m : mem) (handle cmd arg argSize : Z) : option (mem * Z) :=
  match cur with
  | None => Some (m, - EPERM)
  | Some (vmas, t) =>
      user_call kmalloc stackBuf (Some vmas) m arg argSize
        (fun m a n => driverIoctl reg m (Some t) handle cmd a n)
  end.

Definition sysDriverClose (reg : Registry) (cur : option (list Vma * DriverHandleTable)) (m : mem) (handle : Z)
    : option (mem * option DriverHandleTable * Z) :=
  match cur with
  | None => Some (m, None, - EPERM)
  | Some (_, t) => driverClose reg m (Some t) handle
  end.

(** The name loop of [sysDriverOpen]: one page at a time into [nameBuf], up
    to 255 bytes, until a terminator shows up.  Each round copies at least
    one byte, so 256 rounds are enough. *)
Fixpoint name_loop (fuel : nat) (vmas : option (list Vma)) (m : mem) (name nameBuf pos : Z)
    : option (mem * (Z + bool)) :=
  if pos <? 255 then
    match fuel with
    | O => None
    | S k =>
        let addr := u64 (name + pos) in
        let bytesLeftInPage := PAGE_SIZE - Z.land addr (PAGE_SIZE - 1) in
        let step := Z.min (255 - pos) bytesLeftInPage in
        '(m1, rc) ← copyFromUser vmas m (nameBuf + pos) addr step;
        if negb (rc =? 0) then Some (m1, inl (- EFAULT))
        else if existsb (fun b => b =? 0) (bytes_at m1 (nameBuf + pos) (Z.to_nat step))
        then Some (m1, inr true)
        else name_loop k vmas m1 name nameBuf (pos + step)
    end
  else Some (m, inr false).

(** The C string at an address, of at most [n] bytes. *)
Fixpoint cstring_at (n : nat) (m : mem) (a : Z) : list Z :=
  match n with
  | O => []
  | S k => if rd8 m a =? 0 then [] else rd8 m a :: cstring_at k m (a + 1)
  end.

Definition sysDriverOpen (krealloc_ok : Z -> bool) (nameBuf : Z) (reg : Registry)
    (cur : option (list Vma * DriverHandleTable)) (m : mem) (name : Z)
    : option (mem * option DriverHandleTable * Z) :=
  if name =? 0 then Some (m, snd <$> cur, - EFAULT)
  else match cur with
  | None => Some (m, None, - EPERM)
  | Some (vmas, t) =>
      '(m1, r) ← name_loop 256 (Some vmas) m name nameBuf 0;
      match r with
      | inl err => Some (m1, Some t, err)
      | inr false => Some (m1, Some t, - EINVAL)
      | inr true => driverOpen krealloc_ok reg m1 (Some t) (Some (cstring_at 256 m1 nameBuf))
      end
  end.

(** ** The copy around a driver call *)

(** The two copies, given that the range was validated for writing. *)
Lemma copyFromUser_kernel l m kbuf arg n : vmas_ok l -> is_u64 arg -> is_u64 n -> n <> 0 ->
  USER_SPACE_MAX <= kbuf ->
  copyFromUser (Some l) m kbuf arg n = Some (m, - EFAULT) \/
  exists m1, copyFromUser (Some l) m kbuf arg n = Some (m1, 0) /\ copied m m1 kbuf arg n /\
    range_allowed l (page_down arg) (page_up (arg + n)) false.
Proof.
  intros Hl Ha Hn Hn0 Hk. unfold copyFromUser. destruct (Z.eqb_spec n 0); [done|].
  destruct (validateUserRange_spec l arg n false Hl Ha Hn) as (b & -> & Hb). cbn [mbind option_bind].
  destruct b; cbn [negb]; [|by left]. right. destruct (proj1 Hb eq_refl) as [|(_ & Hmax & Hr)]; [done|].
  eexists. split; [done|]. split; [|done]. apply memcpy_copied; [unfold is_u64 in *; lia|].
  right. lia.
Qed.

Lemma copyToUser_kernel l m kbuf arg n : vmas_ok l -> is_u64 arg -> is_u64 n -> n <> 0 ->
  USER_SPACE_MAX <= kbuf -> validateUserRange (Some l) arg n true = Some true ->
  exists m1, copyToUser (Some l) m arg kbuf n = Some (m1, 0) /\ copied m m1 arg kbuf n.
Proof.
  intros Hl Ha Hn Hn0 Hk Hv. unfold copyToUser. destruct (Z.eqb_spec n 0); [done|].
  rewrite Hv. cbn [mbind option_bind negb]. eexists. split; [done|].
  destruct (validateUserRange_spec l arg n true Hl Ha Hn) as (b & E & Hb). rewrite Hv in E. injection E as <-.
  destruct (proj1 Hb eq_refl) as [|(_ & Hmax & _)]; [done|].
  apply memcpy_copied; [unfold is_u64 in *; lia|]. left. unfold is_u64 in *. lia.
Qed.

(** The buffer the driver gets. *)
Definition kernel_buffer (kmalloc : Z -> Z) (stackBuf n : Z) : Z := if 256 <? n then kmalloc n else stackBuf.

Lemma user_call_spec kmalloc stackBuf l m arg n call : vmas_ok l -> is_u64 arg -> is_u64 n ->
  n <> 0 -> arg <> 0 ->
  let kbuf := kernel_buffer kmalloc stackBuf n in
  kbuf = 0 \/ USER_SPACE_MAX <= kbuf ->
  let result := user_call kmalloc stackBuf (Some l) m arg n call in
  (exists r, result = Some (m, r) /\ (r = - EFAULT \/ (r = - ENOMEM /\ kbuf = 0))) \/
  (exists m1, copied m m1 kbuf arg n /\
     range_allowed l (page_down arg) (page_up (arg + n)) false /\
     range_allowed l (page_down arg) (page_up (arg + n)) true /\
     match call m1 kbuf n with
     | None => result = None
     | Some (m2, ret) =>
         (ret < 0 /\ result = Some (m2, ret)) \/
         (0 <= ret /\ exists m3, result = Some (m3, ret) /\ copied m2 m3 arg kbuf n)
     end).
Proof.
  intros Hl Ha Hn Hn0 Ha0 kbuf Hk. cbv zeta. unfold user_call.
  destruct (Z.eqb_spec n 0); [done|]. destruct (Z.eqb_spec arg 0); [done|]. cbn [orb].
  destruct (validateUserRange_spec l arg n true Hl Ha Hn) as (b & Ev & Hb). rewrite Ev. cbn [mbind option_bind].
  destruct b; cbn [negb]; [|left; eauto]. destruct (proj1 Hb eq_refl) as [|(_ & Hmax & Hw)]; [done|].
  fold (kernel_buffer kmalloc stackBuf n). fold kbuf.
  destruct (Z.eqb_spec kbuf 0) as [E0|Hk0]; [left; eauto|]. destruct Hk as [|Hk]; [done|].
  destruct (copyFromUser_kernel l m kbuf arg n Hl Ha Hn Hn0 Hk) as [->|(m1 & -> & Hc & Hrd)];
    cbn [mbind option_bind]; [left; eauto|]. cbn [Z.eqb negb].
  right. exists m1. split_and!; try done. destruct (call m1 kbuf n) as [[m2 ret]|]; [|done].
  cbn [mbind option_bind]. destruct (Z.leb_spec 0 ret) as [Hr|Hr]; [right|by left].
  destruct (copyToUser_kernel l m2 kbuf arg n Hl Ha Hn Hn0 Hk Ev) as (m3 & -> & Hc3).
  cbn [mbind option_bind Z.eqb negb]. split; [done|]. by exists m3.
Qed.

(** An ioctl with an argument.  The driver never sees a user pointer: it
    runs on a kernel buffer that holds a copy of the user's bytes, and only
    when the user range is readable and writable by the process; otherwise
    (or without memory for the buffer) the call fails with -EFAULT or
    -ENOMEM and memory is untouched.  When the driver succeeds its buffer is
    copied back over exactly the user range; when it fails nothing is copied
    back. *)
Theorem sysDriverIoctl_correct kmalloc stackBuf reg l t m handle cmd arg n :
  vmas_ok l -> is_u64 arg -> is_u64 n -> n <> 0 -> arg <> 0 ->
  let kbuf := kernel_buffer kmalloc stackBuf n in
  kbuf = 0 \/ USER_SPACE_MAX <= kbuf ->
  let result := sysDriverIoctl kmalloc stackBuf reg (Some (l, t)) m handle cmd arg n in
  (exists r, result = Some (m, r) /\ (r = - EFAULT \/ (r = - ENOMEM /\ kbuf = 0))) \/
  (exists m1, copied m m1 kbuf arg n /\
     range_allowed l (page_down arg) (page_up (arg + n)) false /\
     range_allowed l (page_down arg) (page_up (arg + n)) true /\
     match driverIoctl reg m1 (Some t) handle cmd kbuf n with
     | None => result = None
     | Some (m2, ret) =>
         (ret < 0 /\ result = Some (m2, ret)) \/
         (0 <= ret /\ exists m3, result = Some (m3, ret) /\ copied m2 m3 arg kbuf n)
     end).
Proof. intros. by apply user_call_spec. Qed.

(** An ioctl of four bytes on the demo driver. *)
Definition demo_ioctl_mem : mem := put_bytes ∅ 0x600000 [1; 2; 3; 4].
Definition demo_open : mem * option DriverHandleTable * Z :=
  default (∅, None, -1) (driverOpen demo_kr demo_reg demo_ioctl_mem (Some (mkHandles [] 0)) (Some demo_name)).
Definition demo_handles : DriverHandleTable := default (mkHandles [] 0) demo_open.1.2.

Lemma sysDriverIoctl_correct_witness : exists m3,
  sysDriverIoctl (fun _ => 0) HHDM_BASE demo_reg (Some (demo_vmas, demo_handles)) demo_ioctl_mem 0 5 0x600000 4 =
  Some (m3, 105).
Proof.
  destruct (sysDriverIoctl_correct (fun _ => 0) HHDM_BASE demo_reg demo_vmas demo_handles demo_ioctl_mem 0 5 0x600000 4
    demo_vmas_ok) as [(r & E & _)|(m1 & _ & _ & _ & Hm)].
  - unfold is_u64. lia.
  - unfold is_u64. lia.
  - discriminate.
  - discriminate.
  - right. vm_compute. discriminate.
  - vm_compute in E. discriminate E.
  - assert (Ed : driverIoctl demo_reg m1 (Some demo_handles) 0 5 (kernel_buffer (fun _ => 0) HHDM_BASE 4) 4 = Some (m1, 105))
      by (vm_compute; reflexivity).
    rewrite Ed in Hm. destruct Hm as [[Hr _]|(_ & m3 & E & _)]; [discriminate Hr|]. exists m3. exact E.
Defined.
