(* ===== verification/Files.v ===== *)
(** * The file system calls (src/kernel/syscall/sysfile.c, sysread.c, syswrite.c)

    A process's file table is a list of handles whose length is its capacity;
    slots 0 to 2 are never used.  [vmas] are the VMAs of the current process
    and [cur] its file table ([None] when the current thread has no process).
    [km] is the outcome of an allocation by its size.  Buffers of the handlers
    (a character, a Stat, a chunk) are kernel addresses; the contents of a
    chunk after a failed read, which is freed unseen, are not tracked. *)

From Stdlib Require Import ZArith Lia Bool.
From stdpp Require Import base list gmap.
From S2P Require Import Prelude Mem Str Frames Pmm PageTable Vma Block Gpt Fat32 Slots.

Record FileHandle := mkFile { f_path : list Z; f_offset : Z; f_size : Z; f_flags : Z; f_isDir : bool }.
Abbreviation FileTable := (list (option FileHandle)).

Definition SEEK_SET : Z := 0.
Definition SEEK_CUR : Z := 1.
Definition SEEK_END : Z := 2.
Definition S_IFREG : Z := 0x8000.
Definition S_IFDIR : Z := 0x4000.
Definition S_IFCHR : Z := 0x2000.
Definition FILE_IO_CHUNK : Z := 65536.

Definition no_file (h : option FileHandle) : bool := match h with None => true | Some _ => false end.

(** The checked lookup of a descriptor: [(size_t)Fd >= capacity || !handles[Fd]]. *)
Definition fd_lookup (t : FileTable) (fd : Z) : option FileHandle :=
  if Z.of_nat (length t) <=? u64 fd then None
  else match t !! Z.to_nat (u64 fd) with Some (Some h) => Some h | _ => None end.

Definition fd_store (t : FileTable) (fd : Z) (h : option FileHandle) : FileTable := <[Z.to_nat fd := h]> t.

(** ** Strings from user memory *)

(** One byte at a time through [c], doubling the buffer when it is full. *)
Fixpoint copy_string (fuel : nat) (km : Z -> bool) (vmas : option (list Vma)) (m : mem) (c userStr len capacity : Z)
    : option (mem * option (list Z)) :=
  match fuel with
  | O => None
  | S k =>
      '(m1, rc) ← copyFromUser vmas m c (u64 (userStr + len)) 1;
      if negb (rc =? 0) then Some (m1, None)
      else
        let grow := capacity <=? len + 1 in
        if grow && negb (km (u64 (capacity * 2))) then Some (m1, None)
        else
          let capacity := if grow then u64 (capacity * 2) else capacity in
          let ch := rd8 m1 c in
          if ch =? 0 then Some (m1, Some [])
          else
            '(m2, r) ← copy_string k km vmas m1 c userStr (len + 1) capacity;
            Some (m2, s ← r; Some (ch :: s))
  end.

Definition copyStringFromUser (fuel : nat) (km : Z -> bool) (vmas : option (list Vma)) (m : mem) (c userStr : Z)
    : option (mem * option (list Z)) :=
  if userStr =? 0 then Some (m, None)
  else if negb (km 64) then Some (m, None)
  else copy_string fuel km vmas m c userStr 0 64.

Section Calls.
Context {D : Type} `{BlockDevice D} (km : Z -> bool) (fuel : nat).
Implicit Types (root : Root (D := D)) (cur : option FileTable) (vmas : option (list Vma)).

(** Looking a path up, then once more without its leading slash; the path
    that worked and its entry. *)
Definition stat_path root (kpath : list Z) : option (Root (D := D) * option (list Z * Fat32DirEntry)) :=
  '(root1, r) ← fs_stat km root kpath;
  match r with
  | Some e => Some (root1, Some (kpath, e))
  | None =>
      if hd 0 kpath =? 47 then
        '(root2, r2) ← fs_stat km root1 (tail kpath);
        Some (root2, e ← r2; Some (tail kpath, e))
      else Some (root1, None)
  end.

(** The descriptor [sysOpen] takes: the first free slot from 3 on, or the
    first slot of the enlarged table. *)
Definition fd_alloc (t : FileTable) : option (FileTable * Z) :=
  match first_slot no_file (drop 3 t) with
  | Some i => Some (t, s32 (3 + Z.of_nat i))
  | None =>
      let oldCap := Z.of_nat (length t) in
      let newCap := if oldCap =? 0 then 16 else u64 (oldCap * 2) in
      if negb (km (u64 (newCap * 8))) then None
      else Some (t ++ replicate (Z.to_nat (newCap - oldCap)) None,
                 if oldCap <? 3 then 3 else s32 oldCap)
  end.

Definition sysOpen root cur vmas (m : mem) (c path flags : Z)
    : option (Root (D := D) * option FileTable * mem * Z) :=
  '(m1, s) ← copyStringFromUser fuel km vmas m c path;
  match s with
  | None => Some (root, cur, m1, - EFAULT)
  | Some kpath =>
      '(root1, r) ← stat_path root kpath;
      match r with
      | None => Some (root1, cur, m1, - ENOENT)
      | Some (kpath, entry) =>
          match cur with
          | None => Some (root1, cur, m1, - EPERM)
          | Some t =>
              match fd_alloc t with
              | None => Some (root1, cur, m1, - ENOMEM)
              | Some (t1, fd) =>
                  if negb (km 32) then Some (root1, Some t1, m1, - ENOMEM)
                  else
                    let fh := mkFile kpath 0 (file_size entry) (u32 flags) (is_directory entry) in
                    Some (root1, Some (fd_store t1 fd (Some fh)), m1, fd)
              end
          end
      end
  end.

Definition sysClose cur (fd : Z) : option FileTable * Z :=
  if fd <? 3 then (cur, 0)
  else match cur with
  | None => (cur, - EPERM)
  | Some t =>
      match fd_lookup t fd with
      | None => (cur, - EBADF)
      | Some _ => (Some (fd_store t fd None), 0)
      end
  end.

Definition set_offset (h : FileHandle) (o : Z) : FileHandle :=
  mkFile (f_path h) o (f_size h) (f_flags h) (f_isDir h).

Definition sysLseek cur (fd offset whence : Z) : option FileTable * Z :=
  if fd <? 3 then (cur, - ESPIPE)
  else match cur with
  | None => (cur, - EPERM)
  | Some t =>
      match fd_lookup t fd with
      | None => (cur, - EBADF)
      | Some fh =>
          let target :=
            if whence =? SEEK_SET then Some offset
            else if whence =? SEEK_CUR then Some (s64 (s64 (f_offset fh) + offset))
            else if whence =? SEEK_END then Some (s64 (s64 (f_size fh) + offset))
            else None in
          match target with
          | None => (cur, - EINVAL)
          | Some newOffset =>
              if newOffset <? 0 then (cur, - EINVAL)
              else (Some (fd_store t fd (Some (set_offset fh newOffset))), newOffset)
          end
      end
  end.

(** ** Stat: the 88-byte structure, built at [st] and copied out *)
Definition STAT_SIZE : Z := 88.

Definition put_stat (m : mem) (st mode nlink size blksize blocks : Z) : mem :=
  let m := (memset m st 0 STAT_SIZE).1 in
  let m := wr32 m (st + 16) mode in
  let m := wr32 m (st + 20) nlink in
  let m := wr64 m (st + 40) size in
  let m := wr64 m (st + 48) blksize in
  wr64 m (st + 56) blocks.

Definition file_mode (isDir : bool) : Z := Z.lor (if isDir then S_IFDIR else S_IFREG) 493.

Definition copy_stat vmas (m : mem) (statBuf st : Z) : option (mem * Z) :=
  '(m1, rc) ← copyToUser vmas m statBuf st STAT_SIZE;
  Some (m1, if negb (rc =? 0) then - EFAULT else 0).

Definition sysStat root vmas (m : mem) (c st path statBuf : Z) : option (Root (D := D) * mem * Z) :=
  '(m1, s) ← copyStringFromUser fuel km vmas m c path;
  match s with
  | None => Some (root, m1, - EFAULT)
  | Some kpath =>
      '(root1, r) ← stat_path root kpath;
      match r with
      | None => Some (root1, m1, - ENOENT)
      | Some (_, e) =>
          '(m2, rc) ← copy_stat vmas
             (put_stat m1 st (file_mode (is_directory e)) 1 (file_size e) 4096 (u32 (file_size e + 511) / 512))
             statBuf st;
          Some (root1, m2, rc)
      end
  end.

Definition sysFstat cur vmas (m : mem) (st fd statBuf : Z) : option (mem * Z) :=
  match cur with
  | None => Some (m, - EPERM)
  | Some t =>
      if (fd =? 0) || (fd =? 1) || (fd =? 2) then
        copy_stat vmas (put_stat m st (Z.lor S_IFCHR 438) 0 0 1024 0) statBuf st
      else match fd_lookup t fd with
           | None => Some ((memset m st 0 STAT_SIZE).1, - EBADF)
           | Some fh =>
               copy_stat vmas
                 (put_stat m st (file_mode (f_isDir fh)) 1 (f_size fh) 4096 (u64 (f_size fh + 511) / 512))
                 statBuf st
           end
  end.

Definition fileTableCleanup cur : option FileTable := (fun _ => []) <$> cur.

(** ** Reading *)

(** The chunk loop of [sysRead]: [total] bytes have been copied out. *)
Fixpoint read_chunks (n : nat) root vmas (m : mem) (chunk : Z) (path : list Z) (pos buf toRead total : Z)
    : option (Root (D := D) * mem * Z) :=
  if total <? toRead then
    match n with
    | O => None
    | S k =>
        let step := Z.min (toRead - total) FILE_IO_CHUNK in
        '(root1, r) ← fs_read km root path (u64 (pos + total)) step;
        match r with
        | None | Some [] => Some (root1, m, if 0 <? total then total else - EIO)
        | Some data =>
            let stepRead := Z.of_nat (length data) in
            '(m1, rc) ← copyToUser vmas (put_bytes m chunk data) (u64 (buf + total)) chunk stepRead;
            if negb (rc =? 0) then Some (root1, m1, - EFAULT)
            else if stepRead <? step then Some (root1, m1, total + stepRead)
            else read_chunks k root1 vmas m1 chunk path pos buf toRead (total + stepRead)
        end
    end
  else Some (root, m, total).

(** [chunk] is the address [kmalloc] returned for the chunk buffer.  A round
    that is not the last reads a whole chunk, which bounds the rounds. *)
Definition sysRead root cur vmas (m : mem) (chunk fd buf count : Z)
    : option (Root (D := D) * option FileTable * mem * Z) :=
  if count =? 0 then Some (root, cur, m, 0)
  else if fd =? 0 then Some (root, cur, m, 0)
  else if (fd <? 0) || (fd =? 1) || (fd =? 2) then Some (root, cur, m, - EBADF)
  else
    ok ← validateUserRange vmas buf count true;
    if negb ok then Some (root, cur, m, - EFAULT)
    else match cur with
    | None => Some (root, cur, m, - EPERM)
    | Some t =>
        match fd_lookup t fd with
        | None => Some (root, cur, m, - EBADF)
        | Some fh =>
            if f_isDir fh then Some (root, cur, m, - EISDIR)
            else if f_size fh <=? f_offset fh then Some (root, cur, m, 0)
            else
              let toRead := Z.min count (f_size fh - f_offset fh) in
              let t1 := fd_store t fd (Some (set_offset fh (u64 (f_offset fh + toRead)))) in
              if chunk =? 0 then Some (root, Some t1, m, - ENOMEM)
              else
                '(root1, m1, r) ← read_chunks (Z.to_nat (toRead / FILE_IO_CHUNK + 1)) root vmas m chunk
                   (f_path fh) (f_offset fh) buf toRead 0;
                Some (root1, Some t1, m1, r)
        end
    end.
End Calls.

(** ** Writing to the console *)

(** What [kprintf("%s")] prints of a chunk: the bytes before the first NUL. *)
Fixpoint until_nul (l : list Z) : list Z :=
  match l with
  | [] => []
  | c :: r => if c =? 0 then [] else c :: until_nul r
  end.

(** The chunk loop of [sysWrite], at most 255 bytes a round through [chunk];
    the characters printed are collected. *)
Fixpoint write_chunks (n : nat) (vmas : option (list Vma)) (m : mem) (chunk buf count written : Z)
    : option (mem * list Z * Z) :=
  if written <? count then
    match n with
    | O => None
    | S k =>
        let step := if 256 <=? count - written then 255 else count - written in
        '(m1, rc) ← copyFromUser vmas m chunk (u64 (buf + written)) step;
        if negb (rc =? 0) then Some (m1, [], if 0 <? written then written else - EFAULT)
        else
          let m2 := wr8 m1 (chunk + step) 0 in
          '(m3, out, r) ← write_chunks k vmas m2 chunk buf count (written + step);
          Some (m3, until_nul (bytes_at m2 chunk (Z.to_nat step)) ++ out, r)
    end
  else Some (m, [], written).

Definition sysWrite (vmas : option (list Vma)) (m : mem) (chunk fd buf count : Z) : option (mem * list Z * Z) :=
  if count =? 0 then Some (m, [], 0)
  else if negb (fd =? 1) && negb (fd =? 2) then Some (m, [], - EBADF)
  else
    ok ← validateUserRange vmas buf count false;
    if negb ok then Some (m, [], - EFAULT)
    else write_chunks (Z.to_nat (count / 255 + 1)) vmas m chunk buf count 0.
