(* ===== verification/FileProps.v ===== *)
(** * Correctness of the file system calls *)

From Stdlib Require Import ZArith Lia Bool.
From stdpp Require Import base list gmap.
From S2P Require Import Prelude Mem Str Frames Pmm PageTable Vma Block Gpt Fat32 FatRead FatMount Slots SysDriver Files.

(** ** File tables *)

(** Tables are empty or have at least 16 slots, and the first three are
    never used. *)
Record files_ok (t : FileTable) : Prop := {
  fo_len : length t = 0%nat \/ 16 <= Z.of_nat (length t) <= 2 ^ 30;
  fo_std : forall i, (i < 3)%nat -> t !! i = None \/ t !! i = Some None
}.

Lemma fd_lookup_spec t fd h : 0 <= fd < 2 ^ 31 ->
  fd_lookup t fd = Some h <-> t !! Z.to_nat fd = Some (Some h).
Proof.
  intros Hfd. unfold fd_lookup. rewrite u64_id by (unfold is_u64; lia).
  destruct (Z.leb_spec (Z.of_nat (length t)) fd).
  - split; [done|]. intros E. apply lookup_lt_Some in E. lia.
  - destruct (t !! Z.to_nat fd) as [[x|]|]; split; congruence.
Qed.

Lemma fd_lookup_neg t fd : - 2 ^ 31 <= fd < 0 -> Z.of_nat (length t) <= 2 ^ 30 -> fd_lookup t fd = None.
Proof.
  intros Hfd Hl. unfold fd_lookup.
  assert (E : u64 fd = fd + 2 ^ 64) by (symmetry; apply Z.mod_unique with (-1); lia).
  rewrite E. by destruct (Z.leb_spec (Z.of_nat (length t)) (fd + 2 ^ 64)); [|lia].
Qed.

(** Storing in a slot changes the lookup of that descriptor only. *)
Lemma fd_store_lookup t fd h : 0 <= fd < Z.of_nat (length t) -> Z.of_nat (length t) <= 2 ^ 30 ->
  forall i, - 2 ^ 31 <= i < 2 ^ 31 -> fd_lookup (fd_store t fd h) i = if i =? fd then h else fd_lookup t i.
Proof.
  intros Hfd Hl i Hi. destruct (Z.lt_ge_cases i 0).
  { rewrite !fd_lookup_neg by (unfold fd_store; rewrite ?length_insert; lia). by destruct (Z.eqb_spec i fd); [lia|]. }
  unfold fd_store. apply option_eq. intros x. rewrite fd_lookup_spec by lia.
  destruct (Z.eqb_spec i fd) as [->|Hne].
  - rewrite list_lookup_insert_eq by lia. split; [by intros [= ->]|by intros ->].
  - rewrite list_lookup_insert_ne by lia. by rewrite fd_lookup_spec by lia.
Qed.

Lemma grown_fd_lookup t n i : Z.of_nat (length t) <= 2 ^ 30 -> Z.of_nat (length t + n) <= 2 ^ 30 ->
  - 2 ^ 31 <= i < 2 ^ 31 -> fd_lookup (t ++ replicate n None) i = fd_lookup t i.
Proof.
  intros Hl Hn Hi. destruct (Z.lt_ge_cases i 0).
  { by rewrite !fd_lookup_neg by (rewrite ?length_app, ?length_replicate; lia). }
  apply option_eq. intros x. rewrite !fd_lookup_spec by lia. split; [|by apply grown_lookup_old].
  intros [E|[E _]]%grown_lookup_inv; done.
Qed.

(** What [sysOpen] does to the table. *)
Definition allocates (t t1 : FileTable) (fd : Z) : Prop :=
  3 <= fd < Z.of_nat (length t1) /\ Z.of_nat (length t1) <= 2 ^ 30 /\
  fd_lookup t fd = None /\ (forall i, 3 <= i < fd -> fd_lookup t i <> None) /\
  (forall i, - 2 ^ 31 <= i < 2 ^ 31 -> fd_lookup t1 i = fd_lookup t i) /\
  (forall h, files_ok (fd_store t1 fd h)).

Lemma files_ok_store t fd h : files_ok t -> 3 <= fd -> files_ok (fd_store t fd h).
Proof.
  intros [H1 H2] Hfd. unfold fd_store. constructor; [by rewrite length_insert|].
  intros i Hi. rewrite list_lookup_insert_ne by lia. by apply H2.
Qed.

Lemma files_ok_grow t n : files_ok t -> 16 <= Z.of_nat (length t + n) <= 2 ^ 30 -> files_ok (t ++ replicate n None).
Proof.
  intros [H1 H2] Hn. constructor; [right; rewrite length_app, length_replicate; lia|].
  intros i Hi. destruct ((t ++ replicate n None) !! i) as [x|] eqn:E; [|by left]. right.
  apply grown_lookup_inv in E as [E|[-> _]]; [|done]. destruct (H2 i Hi); congruence.
Qed.

Lemma fd_alloc_spec km t : (forall n, km n = true -> n <= 2 ^ 33) -> files_ok t ->
  match fd_alloc km t with None => True | Some (t1, fd) => allocates t t1 fd end.
Proof.
  intros Hkm Ht. unfold fd_alloc. assert (Hl : Z.of_nat (length t) <= 2 ^ 30) by (destruct (fo_len t Ht); lia).
  destruct (first_slot no_file (drop 3 t)) as [i|] eqn:Ei.
  - pose proof (first_slot_lt _ _ _ Ei) as Hi. rewrite length_drop in Hi.
    destruct (first_slot_some _ _ _ Ei) as [(x & Hx & Hf) Hlow].
    rewrite s32_id by lia. rewrite lookup_drop in Hx. split_and!; try lia; try done.
    + destruct (fd_lookup t (3 + Z.of_nat i)) as [h|] eqn:E; [|done]. apply fd_lookup_spec in E; [|lia].
      replace (Z.to_nat (3 + Z.of_nat i)) with (3 + i)%nat in E by lia. rewrite Hx in E. by injection E as ->.
    + intros j Hj Hn. destruct (lookup_lt_is_Some_2 t (Z.to_nat j)) as [y Hy]; [lia|].
      assert (Hy' : drop 3 t !! (Z.to_nat j - 3)%nat = Some y) by (rewrite lookup_drop, <- Hy; f_equal; lia).
      specialize (Hlow (Z.to_nat j - 3)%nat y ltac:(lia) Hy'). destruct y as [h|]; [|done].
      apply (fd_lookup_spec t j h) in Hy; [congruence|lia].
    + intros h. apply files_ok_store; [done|lia].
  - destruct (km _) eqn:Ek; cbn [negb]; [|done]. apply Hkm in Ek.
    set (len := Z.of_nat (length t)) in *. set (cap := if len =? 0 then 16 else u64 (len * 2)) in *.
    assert (Hcap : 16 <= cap /\ len < cap <= 2 ^ 31).
    { unfold cap. destruct (Z.eqb_spec len 0); [lia|]. rewrite u64_id by (unfold is_u64; lia).
      destruct (fo_len t Ht); lia. }
    rewrite u64_id in Ek by (unfold is_u64; lia).
    set (fd := if len <? 3 then 3 else s32 len).
    assert (Hfd : fd = Z.max 3 len)
      by (unfold fd; destruct (Z.ltb_spec len 3); [lia|rewrite s32_id; lia]).
    assert (Hold : forall i, 3 <= i < len -> exists h, t !! Z.to_nat i = Some (Some h)).
    { intros i Hi. destruct (lookup_lt_is_Some_2 t (Z.to_nat i)) as [y Hy]; [lia|].
      assert (Hin : y ∈ drop 3 t).
      { apply list_elem_of_lookup. exists (Z.to_nat i - 3)%nat. rewrite lookup_drop, <- Hy. f_equal. lia. }
      pose proof (first_slot_none _ _ Ei y Hin) as Hy0. destruct y as [h|]; [by exists h|done]. }
    split_and!; rewrite ?length_app, ?length_replicate; try lia.
    + destruct (fd_lookup t fd) as [h|] eqn:E; [|done]. apply fd_lookup_spec in E; [|lia].
      apply lookup_lt_Some in E. lia.
    + intros i Hi Hn. destruct (Hold i) as [h Hh]; [lia|]. apply (fd_lookup_spec t i h) in Hh; [congruence|lia].
    + intros i Hi. apply grown_fd_lookup; lia.
    + intros h. apply files_ok_store; [|lia]. apply files_ok_grow; [done|lia].
Qed.

(** ** Opening and closing *)
Section Open.
Context {D : Type} `{BlockDevice D} (km : Z -> bool) (km_bound : forall n, km n = true -> n <= 2 ^ 33).

(** Two tables give the same answers. *)
Definition same_files (t t' : FileTable) : Prop :=
  forall i, - 2 ^ 31 <= i < 2 ^ 31 -> fd_lookup t' i = fd_lookup t i.

Lemma sysClose_spec t fd h : 3 <= fd < 2 ^ 31 -> files_ok t -> fd_lookup t fd = Some h ->
  exists t', sysClose (Some t) fd = (Some t', 0) /\ files_ok t' /\
    forall i, - 2 ^ 31 <= i < 2 ^ 31 -> fd_lookup t' i = if i =? fd then None else fd_lookup t i.
Proof.
  intros Hfd Ht E. unfold sysClose. destruct (Z.ltb_spec fd 3); [lia|]. rewrite E. eexists. split; [done|].
  assert (Hl : Z.of_nat (length t) <= 2 ^ 30) by (destruct (fo_len t Ht); lia).
  apply fd_lookup_spec in E; [|lia]. apply lookup_lt_Some in E.
  split; [apply files_ok_store; [done|lia]|]. apply fd_store_lookup; lia.
Qed.

Lemma sysLseek_spec t fd h off : 3 <= fd < 2 ^ 31 -> files_ok t -> fd_lookup t fd = Some h -> 0 <= off ->
  exists t', sysLseek (Some t) fd off SEEK_SET = (Some t', off) /\ files_ok t' /\
    forall i, - 2 ^ 31 <= i < 2 ^ 31 -> fd_lookup t' i = if i =? fd then Some (set_offset h off) else fd_lookup t i.
Proof.
  intros Hfd Ht E Ho. unfold sysLseek. destruct (Z.ltb_spec fd 3); [lia|]. rewrite E. cbn [Z.eqb SEEK_SET].
  destruct (Z.ltb_spec off 0); [lia|]. eexists. split; [done|].
  assert (Hl : Z.of_nat (length t) <= 2 ^ 30) by (destruct (fo_len t Ht); lia).
  apply fd_lookup_spec in E; [|lia]. apply lookup_lt_Some in E.
  split; [apply files_ok_store; [done|lia]|]. apply fd_store_lookup; lia.
Qed.

(** C16: opening a file.  When the path can be read from user memory and names
    a file or directory, [sysOpen] either fails with -ENOMEM, and every
    descriptor means what it meant, or returns the lowest free descriptor
    from 3 on, which then refers to the entry found, at offset 0, while every
    other descriptor is as before; seeking (SEEK_SET, an offset of at least
    0) changes only that descriptor's offset, and closing it gives back the table the process had. *)
Theorem sysOpen_correct fuel (root root1 : Root (D := D)) t vmas m m1 c path flags kpath p e :
  files_ok t -> copyStringFromUser fuel km vmas m c path = Some (m1, Some kpath) ->
  stat_path km root kpath = Some (root1, Some (p, e)) ->
  exists t' r, sysOpen km fuel root (Some t) vmas m c path flags = Some (root1, Some t', m1, r) /\
    ((r = - ENOMEM /\ same_files t t') \/
     (3 <= r < 2 ^ 31 /\ files_ok t' /\ fd_lookup t r = None /\ (forall i, 3 <= i < r -> fd_lookup t i <> None) /\
      let fh := mkFile p 0 (file_size e) (u32 flags) (is_directory e) in
      (forall i, - 2 ^ 31 <= i < 2 ^ 31 -> fd_lookup t' i = if i =? r then Some fh else fd_lookup t i) /\
      (forall off, 0 <= off -> exists t2, sysLseek (Some t') r off SEEK_SET = (Some t2, off) /\
         forall i, - 2 ^ 31 <= i < 2 ^ 31 -> fd_lookup t2 i = if i =? r then Some (set_offset fh off) else fd_lookup t i) /\
      (exists t2, sysClose (Some t') r = (Some t2, 0) /\ same_files t t2))).
Proof using km_bound.
  intros Ht Es Est. unfold sysOpen. rewrite Es. cbn [mbind option_bind]. rewrite Est. cbn [mbind option_bind].
  pose proof (fd_alloc_spec km t km_bound Ht) as Ha. destruct (fd_alloc km t) as [[t1 fd]|].
  2: { exists t, (- ENOMEM). split; [done|]. by left. }
  destruct Ha as (Hfd & Hl & Hnone & Hlow & Hsame & Hok).
  destruct (km 32); cbn [negb]; [|exists t1, (- ENOMEM); split; [done|by left]].
  set (fh := mkFile p 0 (file_size e) (u32 flags) (is_directory e)).
  assert (Hlk : forall i, - 2 ^ 31 <= i < 2 ^ 31 ->
    fd_lookup (fd_store t1 fd (Some fh)) i = if i =? fd then Some fh else fd_lookup t i).
  { intros i Hi. rewrite fd_store_lookup by lia. by destruct (i =? fd); [|apply Hsame]. }
  assert (Hself : fd_lookup (fd_store t1 fd (Some fh)) fd = Some fh) by (rewrite Hlk, Z.eqb_refl by lia; done).
  exists (fd_store t1 fd (Some fh)), fd. split; [done|]. right. split_and!; try lia; try done.
  - intros off Ho. destruct (sysLseek_spec _ fd fh off ltac:(lia) (Hok _) Hself Ho) as (t2 & E2 & _ & Hl2).
    exists t2. split; [done|]. intros i Hi. rewrite Hl2, Hlk by done. by destruct (i =? fd).
  - destruct (sysClose_spec _ fd fh ltac:(lia) (Hok _) Hself) as (t2 & E2 & _ & Hl2). exists t2. split; [done|].
    intros i Hi. rewrite Hl2, Hlk by done. destruct (Z.eqb_spec i fd) as [->|]; done.
Qed.
End Open.

Definition demo_kz (n : Z) : bool := n <=? 4096.

Lemma demo_kz_bound n : demo_kz n = true -> n <= 2 ^ 33.
Proof. unfold demo_kz. intros E. apply Z.leb_le in E. lia. Qed.

(** "/hi.txt" in user memory, on the demo disk. *)
Definition demo_user : mem := put_bytes ∅ 0x600000 (demo_path ++ [0]).

Definition demo_opened : option (Root (D := RamDisk) * option FileTable * mem * Z) :=
  sysOpen demo_kz 16 (Some (demo_disk, demo_vol)) (Some []) (Some demo_vmas) demo_user HHDM_BASE 0x600000 0.

Lemma sysOpen_correct_witness : exists root1 t' m1,
  demo_opened = Some (root1, Some t', m1, 3) /\ fd_lookup t' 3 = Some (mkFile demo_path 0 600 0 false).
Proof.
  assert (Es : snd <$> copyStringFromUser 16 demo_kz (Some demo_vmas) demo_user HHDM_BASE 0x600000 = Some (Some demo_path))
    by (vm_compute; reflexivity).
  assert (Est : snd <$> stat_path demo_kz (Some (demo_disk, demo_vol)) demo_path = Some (Some (demo_path, demo_entry)))
    by (vm_compute; reflexivity).
  destruct (copyStringFromUser 16 demo_kz (Some demo_vmas) demo_user HHDM_BASE 0x600000) as [[m1 s]|] eqn:E1; [|discriminate Es].
  destruct (stat_path demo_kz (Some (demo_disk, demo_vol)) demo_path) as [[root1 p]|] eqn:E2; [|discriminate Est].
  injection Es as Es. injection Est as Est. subst s p.
  destruct (sysOpen_correct demo_kz demo_kz_bound 16 (Some (demo_disk, demo_vol)) root1 [] (Some demo_vmas) demo_user m1
    HHDM_BASE 0x600000 0 demo_path demo_path demo_entry) as (t' & r & E & H).
  - split; [left; reflexivity|]. intros i _. left. reflexivity.
  - exact E1.
  - exact E2.
  - assert (Er : snd <$> demo_opened = Some 3) by (vm_compute; reflexivity).
    unfold demo_opened in *. rewrite E in Er. injection Er as Er. subst r.
    exists root1, t', m1. split; [exact E|].
    destruct H as [[H _]|(_ & _ & _ & _ & H & _)]; [discriminate H|].
    rewrite H by lia. reflexivity.
Defined.

(** ** Reading *)

(** A part of a validated range is validated. *)
Lemma validate_sub l p size write off n : vmas_ok l -> is_u64 p -> is_u64 size -> size <> 0 ->
  validateUserRange (Some l) p size write = Some true -> 0 <= off -> 0 < n -> off + n <= size ->
  p + size <= USER_SPACE_MAX /\ validateUserRange (Some l) (p + off) n write = Some true.
Proof.
  intros Hl Hp Hs Hs0 Hv Ho Hn Hon.
  destruct (validateUserRange_spec l p size write Hl Hp Hs) as (b & E & Hb). rewrite Hv in E. injection E as <-.
  destruct (proj1 Hb eq_refl) as [|(Hp0 & Hmax & Hr)]; [done|]. split; [done|].
  unfold USER_SPACE_MAX in *. unfold is_u64 in Hp, Hs.
  destruct (validateUserRange_spec l (p + off) n write Hl) as (b' & -> & Hb'); [unfold is_u64; lia|unfold is_u64; lia|].
  f_equal. apply Hb'. right. split_and!; [lia|unfold USER_SPACE_MAX; lia|]. intros a Ha. apply Hr.
  rewrite page_up_spec in * by (unfold is_u64; lia). rewrite page_down_spec in * by (unfold is_u64; lia).
  pose proof (Z.mod_pos_bound (- (p + size)) 4096 ltac:(lia)).
  assert (Hlo : p - p mod 4096 <= p + off - (p + off) mod 4096).
  { pose proof (Z.div_mod p 4096 ltac:(lia)). pose proof (Z.div_mod (p + off) 4096 ltac:(lia)).
    pose proof (Z.div_le_mono p (p + off) 4096 ltac:(lia) ltac:(lia)). lia. }
  assert (Hhi : p + off + n + (- (p + off + n)) mod 4096 <= p + size + (- (p + size)) mod 4096).
  { pose proof (Z.div_mod (- (p + off + n)) 4096 ltac:(lia)). pose proof (Z.div_mod (- (p + size)) 4096 ltac:(lia)).
    pose proof (Z.div_le_mono (- (p + size)) (- (p + off + n)) 4096 ltac:(lia) ltac:(lia)). lia. }
  lia.
Qed.

Section Read.
Context {D : Type} `{BlockDevice D} `{!BlockDeviceLaws D} (km : Z -> bool) (km_ok : forall n, km n = true).
Context (d : D) (v : Fat32Volume) (path : list Z) (e : Fat32DirEntry) (data : list Z).
Context (V : vol_ok d v) (M : vol_matches d v) (CS : bytes_per_cluster v < 2 ^ 32).
Context (FA : file_at km d v path e data).

Lemma chain_bytes l ds : chain_data d v l ds -> Forall is_byte (concat ds).
Proof using BlockDeviceLaws0.
  induction 1 as [|c x l ds Hc Hds IH]; [constructor|]. cbn [concat]. apply Forall_app. split; [|done].
  unfold read_cluster in Hc. destruct (_ || _); [done|]. by apply bd_bytes in Hc.
Qed.

Lemma file_bytes : Forall is_byte data.
Proof using BlockDeviceLaws0 FA.
  destruct (fa_chain _ _ _ _ _ _ FA) as (l & ds & _ & Hds & _ & Hd). rewrite Hd.
  by apply Forall_take, (chain_bytes l).
Qed.

Lemma file_length : Z.of_nat (length data) = file_size e.
Proof using BlockDeviceLaws0 FA M. by apply (file_at_length km d v path). Qed.

(** One [fs_read] of the loop, on a volume whose cache has moved on. *)
Lemma fs_read_step v1 off n : same_geom v v1 -> vol_ok d v1 -> 0 <= off -> 0 <= n -> off + n < 2 ^ 64 ->
  exists v2, fs_read km (Some (d, v1)) path off n = Some (Some (d, v2), Some (bytes_from data off n)) /\
    same_geom v v2 /\ vol_ok d v2.
Proof using BlockDeviceLaws0 km_ok V M CS FA.
  intros G V1 Ho Hn Hb. unfold fs_read, with_root.
  pose proof (vol_matches_geom d v v1 G M) as M1.
  destruct (same_geom_fields v v1 G) as (_ & _ & _ & _ & _ & Et & E7 & _).
  assert (Hcs : 0 < bytes_per_cluster v1)
    by (destruct M1 as (_ & M2 & M3); pose proof (vo_bps d v1 V1); nia).
  destruct (fat32_read_file_at km d v1 path e data off n) as (v2 & E); try done; [lia|by apply (file_at_geom km d v v1)|].
  rewrite E. exists v2. split; [done|].
  destruct (agrees_keeps d v1 _ (fat32_read_agrees km d v1 v1 v1 path off n (vo_clusters d v1 V1) (twins_refl d v1 V1)
    ltac:(lia) Ho)) as (w & x & E' & G' & V').
  rewrite E in E'. injection E' as <- <-. split; [by apply (same_geom_trans _ v1)|done].
Qed.

Lemma bytes_from_lookup off n i : 0 <= off -> 0 <= i < n ->
  bytes_from data off n !! Z.to_nat i = data !! Z.to_nat (off + i).
Proof.
  intros Ho Hi. unfold bytes_from. rewrite lookup_take_lt by lia. rewrite lookup_drop. f_equal. lia.
Qed.

(** [m'] holds bytes [lo, hi) of the transfer in the user buffer and differs
    from [m] nowhere else outside the chunk. *)
Definition transferred (m m' : mem) (chunk pos buf lo hi : Z) : Prop :=
  (forall x, buf + lo <= x < buf + hi -> rd8 m' x = byte_at data (pos + (x - buf))) /\
  (forall x, ~ (buf + lo <= x < buf + hi) -> ~ (chunk <= x < chunk + FILE_IO_CHUNK) -> rd8 m' x = rd8 m x).

(** One round: the chunk is filled and copied out. *)
Lemma chunk_step m m1 chunk pos buf total n : 0 <= pos -> 0 <= total -> 0 < n <= FILE_IO_CHUNK ->
  pos + total + n <= file_size e -> buf + total + n <= USER_SPACE_MAX -> USER_SPACE_MAX <= chunk ->
  copied (put_bytes m chunk (bytes_from data (pos + total) n)) m1 (buf + total) chunk n ->
  transferred m m1 chunk pos buf total (total + n).
Proof using BlockDeviceLaws0 FA M.
  intros Hp Ht Hn Hsz Hmax Hk Hc. pose proof file_length as Hl.
  assert (Hlen : Z.of_nat (length (bytes_from data (pos + total) n)) = n)
    by (unfold bytes_from; rewrite length_take, length_drop; lia).
  split; intros x Hx.
  - rewrite (Hc x). destruct (Z.leb_spec (buf + total) x); [|lia]. destruct (Z.ltb_spec x (buf + total + n)); [|lia].
    cbn [andb]. rewrite rd8_put_bytes, Hlen.
    destruct (Z.leb_spec chunk (chunk + (x - (buf + total)))); [|lia].
    destruct (Z.ltb_spec (chunk + (x - (buf + total))) (chunk + n)); [|lia]. cbn [andb].
    replace (chunk + (x - (buf + total)) - chunk) with (x - (buf + total)) by lia.
    rewrite bytes_from_lookup by lia. replace (pos + total + (x - (buf + total))) with (pos + (x - buf)) by lia.
    pose proof (byte_at_range data (pos + (x - buf)) file_bytes) as Hr. unfold byte_at in *.
    destruct (lookup_lt_is_Some_2 data (Z.to_nat (pos + (x - buf)))) as [b Hb]; [lia|].
    rewrite (nth_lookup_Some _ _ _ _ Hb) in *. rewrite Hb. cbn. by apply Z.mod_small.
  - intros Hx2. rewrite (Hc x).
    assert (E1 : (buf + total <=? x) && (x <? buf + total + n) = false).
    { apply andb_false_iff. destruct (Z.leb_spec (buf + total) x); [right; apply Z.ltb_ge; lia|by left]. }
    rewrite E1, rd8_put_bytes, Hlen.
    assert (E2 : (chunk <=? x) && (x <? chunk + n) = false).
    { apply andb_false_iff. destruct (Z.leb_spec chunk x); [right; apply Z.ltb_ge; lia|by left]. }
    by rewrite E2.
Qed.

Lemma transferred_trans m m1 m2 chunk pos buf a b c : a <= b <= c ->
  (chunk + FILE_IO_CHUNK <= buf + a \/ buf + c <= chunk) ->
  transferred m m1 chunk pos buf a b -> transferred m1 m2 chunk pos buf b c -> transferred m m2 chunk pos buf a c.
Proof.
  intros Hab Hd [A1 A2] [B1 B2]. split; intros x Hx.
  - destruct (Z.lt_ge_cases x (buf + b)); [|apply B1; lia]. rewrite B2 by lia. apply A1. lia.
  - intros Hx2. rewrite B2 by lia. apply A2; lia.
Qed.

Lemma read_chunks_spec l chunk pos buf toRead n : vmas_ok l -> USER_SPACE_MAX <= chunk -> is_u64 buf ->
  0 <= pos -> 0 <= toRead -> pos + toRead <= file_size e ->
  (0 < toRead -> validateUserRange (Some l) buf toRead true = Some true) ->
  forall v1 m total, same_geom v v1 -> vol_ok d v1 -> 0 <= total <= toRead ->
  toRead - total <= Z.of_nat n * FILE_IO_CHUNK ->
  exists v2 m2, read_chunks km n (Some (d, v1)) (Some l) m chunk path pos buf toRead total =
    Some (Some (d, v2), m2, toRead) /\ transferred m m2 chunk pos buf total toRead.
Proof using BlockDeviceLaws0 km_ok V M CS FA.
  intros Hl Hk Hbuf Hpos Htr Hsz Hval. pose proof (fa_size _ _ _ _ _ _ FA) as Hfs.
  induction n as [|k IH]; intros v1 m total G V1 Htot Hn; cbn [read_chunks].
  - destruct (Z.ltb_spec total toRead); [unfold FILE_IO_CHUNK in Hn; lia|]. assert (total = toRead) as -> by lia.
    exists v1, m. split; [done|]. split; intros x Hx; [lia|done].
  - destruct (Z.ltb_spec total toRead) as [Hlt|Hge].
    2: { assert (total = toRead) as -> by lia. exists v1, m. split; [done|]. split; intros x Hx; [lia|done]. }
    set (step := Z.min (toRead - total) FILE_IO_CHUNK).
    assert (Hstep : 0 < step <= FILE_IO_CHUNK) by (unfold FILE_IO_CHUNK in *; lia).
    rewrite (u64_id (pos + total)) by (unfold is_u64; lia).
    destruct (fs_read_step v1 (pos + total) step G V1) as (v2 & -> & G2 & V2); [lia|lia|lia|].
    cbn [mbind option_bind]. pose proof file_length as Hfl.
    set (bytes := bytes_from data (pos + total) step).
    assert (Hlen : Z.of_nat (length bytes) = step)
      by (unfold bytes, bytes_from; rewrite length_take, length_drop; lia).
    destruct (validate_sub l buf toRead true total step Hl Hbuf) as (Hmax & Hv);
      [unfold is_u64; lia|lia|apply Hval; lia|lia|lia|lia|].
    unfold USER_SPACE_MAX in *. unfold is_u64 in Hbuf.
    destruct (copyToUser_kernel l (put_bytes m chunk bytes) chunk (buf + total) step Hl) as (m1 & Ec & Hc);
      [unfold is_u64; lia|unfold is_u64; lia|lia|unfold USER_SPACE_MAX; lia|done|].
    destruct bytes as [|b r] eqn:Eb; [simpl in Hlen; lia|]. rewrite <- Eb in *.
    rewrite (u64_id (buf + total)) by (unfold is_u64; lia). rewrite Hlen, Ec. cbn [mbind option_bind Z.eqb negb].
    rewrite Z.ltb_irrefl. destruct (IH v2 m1 (total + step) G2 V2) as (v3 & m3 & E3 & T3).
    { lia. }
    { unfold step, FILE_IO_CHUNK in *. lia. }
    exists v3, m3. split; [done|]. apply (transferred_trans m m1 m3 chunk pos buf total (total + step) toRead);
      [lia|right; lia| |done].
    apply chunk_step; try lia; try (unfold USER_SPACE_MAX; lia). done.
Qed.
End Read.

(** C6: reading an open file, end to end.  For a descriptor of a regular file
    (the path names it on the mounted volume, the handle has its size) and a
    user buffer the process may write, [sysRead] returns the number of bytes
    left in the file, at most the count; the user buffer then holds exactly
    those bytes of the file from the handle's offset; nothing else in memory
    changes but the kernel's chunk buffer; and the handle's offset moves by
    the number returned, the other descriptors staying as they were. *)
Theorem sysRead_correct {D} `{BlockDevice D} `{!BlockDeviceLaws D} km (d : D) v path e data t l m chunk fd fh buf count :
  (forall n, km n = true) -> vol_ok d v -> vol_matches d v -> bytes_per_cluster v < 2 ^ 32 ->
  file_at km d v path e data -> files_ok t -> 3 <= fd < 2 ^ 31 -> fd_lookup t fd = Some fh ->
  f_path fh = path -> f_size fh = file_size e -> f_isDir fh = false -> 0 <= f_offset fh ->
  vmas_ok l -> is_u64 buf -> 0 < count < 2 ^ 64 -> validateUserRange (Some l) buf count true = Some true ->
  USER_SPACE_MAX <= chunk ->
  let n := Z.min count (Z.max 0 (file_size e - f_offset fh)) in
  exists root' t' m', sysRead km (Some (d, v)) (Some t) (Some l) m chunk fd buf count = Some (root', Some t', m', n) /\
    bytes_at m' buf (Z.to_nat n) = bytes_from data (f_offset fh) n /\
    (forall x, ~ (buf <= x < buf + n) -> ~ (chunk <= x < chunk + FILE_IO_CHUNK) -> rd8 m' x = rd8 m x) /\
    (forall i, - 2 ^ 31 <= i < 2 ^ 31 ->
       fd_lookup t' i = if i =? fd then Some (set_offset fh (f_offset fh + n)) else fd_lookup t i).
Proof.
  intros Hkm V M CS FA Ht Hfd Hlk Hp Hsz Hdir Hoff Hl Hbuf Hcnt Hval Hk n.
  pose proof (fa_size _ _ _ _ _ _ FA) as Hfs.
  assert (Hlen : Z.of_nat (length t) <= 2 ^ 30) by (destruct (fo_len t Ht); lia).
  assert (Hlt : fd < Z.of_nat (length t))
    by (pose proof Hlk as E; apply fd_lookup_spec in E; [|lia]; apply lookup_lt_Some in E; lia).
  unfold sysRead. destruct (Z.eqb_spec count 0); [lia|]. destruct (Z.eqb_spec fd 0); [lia|].
  destruct (Z.ltb_spec fd 0); [lia|]. destruct (Z.eqb_spec fd 1); [lia|]. destruct (Z.eqb_spec fd 2); [lia|].
  cbn [orb]. rewrite Hval. cbn [mbind option_bind negb]. rewrite Hlk, Hdir, Hsz.
  destruct (Z.leb_spec (file_size e) (f_offset fh)) as [Hend|Hmore].
  - assert (En : n = 0) by lia. clearbody n. subst n. exists (Some (d, v)), t, m. split_and!; [done|done|done|].
    intros i Hi. destruct (Z.eqb_spec i fd) as [->|]; [|done]. rewrite Hlk, Z.add_0_r. by destruct fh.
  - set (toRead := Z.min count (file_size e - f_offset fh)).
    assert (En : n = toRead) by (unfold n, toRead; lia). clearbody n. subst n.
    destruct (Z.eqb_spec chunk 0); [unfold USER_SPACE_MAX in Hk; lia|]. rewrite Hp.
    assert (Hmin : 0 < toRead) by (unfold toRead; lia).
    destruct (validate_sub l buf count true 0 toRead Hl Hbuf ltac:(unfold is_u64; lia) ltac:(lia) Hval ltac:(lia)
      Hmin ltac:(lia)) as [_ Hsub]. rewrite Z.add_0_r in Hsub.
    destruct (read_chunks_spec km Hkm d v path e data V M CS FA l chunk (f_offset fh) buf toRead
      (Z.to_nat (toRead / FILE_IO_CHUNK + 1)) Hl Hk Hbuf Hoff ltac:(lia) ltac:(lia) (fun _ => Hsub) v m 0)
      as (v2 & m2 & -> & T1 & T2); [done|done|lia| |].
    { pose proof (Z.div_mod toRead FILE_IO_CHUNK ltac:(done)) as Hdm.
      pose proof (Z.mod_pos_bound toRead FILE_IO_CHUNK ltac:(done)). unfold FILE_IO_CHUNK in *.
      assert (0 <= toRead / 65536) by (apply Z.div_pos; lia). lia. }
    cbn [mbind option_bind]. eexists _, _, m2. split; [done|]. split_and!.
    + apply list_eq_same_length with (n := Z.to_nat toRead).
      * pose proof (file_at_length km d v path e data M FA).
        unfold bytes_from. rewrite length_take, length_drop. lia.
      * by rewrite length_bytes_at.
      * intros i x y Hi Hx Hy. rewrite lookup_bytes_at in Hx by done. injection Hx as <-.
        rewrite T1 by lia. replace i with (Z.to_nat (Z.of_nat i)) in Hy by lia.
        rewrite (bytes_from_lookup data) in Hy by lia. unfold byte_at.
        replace (f_offset fh + (buf + Z.of_nat i - buf)) with (f_offset fh + Z.of_nat i) by lia.
        by apply nth_lookup_Some.
    + intros x Hx1 Hx2. apply T2; [lia|done].
    + intros i Hi. rewrite fd_store_lookup by lia. destruct (i =? fd); [|done].
      by rewrite u64_id by (unfold is_u64; lia).
Qed.

(** The demo file read at offset 510 into a user page. *)
Definition demo_fh : FileHandle := mkFile demo_path 510 600 0 false.
Definition open_table : FileTable := fd_store (replicate 16 None) 3 (Some demo_fh).

Lemma open_table_ok : files_ok open_table.
Proof.
  apply files_ok_store; [|lia]. constructor; [right; simpl; lia|].
  intros [|[|[|i]]] Hi; try (right; reflexivity). lia.
Qed.

Lemma sysRead_correct_witness : exists root' t' m',
  sysRead (fun _ => true) (Some (demo_disk, demo_vol)) (Some open_table) (Some demo_vmas) ∅ HHDM_BASE 3 0x601000 4096 =
    Some (root', Some t', m', 90) /\
  bytes_at m' 0x601000 90 = [7; 7] ++ repeat 8 88 /\ fd_lookup t' 3 = Some (set_offset demo_fh 600).
Proof.
  destruct (sysRead_correct (fun _ => true) demo_disk demo_vol demo_path demo_entry (repeat 7 512 ++ repeat 8 88)
    open_table demo_vmas ∅ HHDM_BASE 3 demo_fh 0x601000 4096) as (root' & t' & m' & E & Hb & _ & Hf).
  - reflexivity.
  - exact (mt_ok _ _ _ demo_mounted).
  - exact demo_matches.
  - vm_compute. reflexivity.
  - exact demo_file.
  - exact open_table_ok.
  - lia.
  - reflexivity.
  - reflexivity.
  - reflexivity.
  - reflexivity.
  - discriminate.
  - exact demo_vmas_ok.
  - unfold is_u64. lia.
  - lia.
  - vm_compute. reflexivity.
  - vm_compute. discriminate.
  - exists root', t', m'. split; [exact E|]. split; [exact Hb|]. rewrite Hf by lia. reflexivity.
Defined.

(** ** Writing *)

(** A chunk is printed as a C string, so what follows a NUL in it is lost
    although it is counted as written: writing "A", NUL, "B" prints "A". *)
Theorem sysWrite_stops_at_nul :
  (fun r => (r.1.2, r.2)) <$> sysWrite (Some demo_vmas) (put_bytes ∅ 0x600000 [65; 0; 66]) HHDM_BASE 1 0x600000 3 =
  Some ([65], 3).
Proof. vm_compute. reflexivity. Qed.
