(* ===== verification/Mmap.v ===== *)
(** * Mapping system calls and process exit (src/kernel/syscall/sysmmap.c, sysmunmap.c, sysexit.c, sysyield.c)

    [Vm] is memory with the frame allocator, [l] the VMAs and [t] the file
    table of the current process ([None] when the thread has none), [root]
    the mounted volume.  [km] is the outcome of an allocation by its size,
    [km_vma] that of the VMA made when one is split.  The bytes a file read
    that fails part way leaves in its frame are not tracked. *)

From Stdlib Require Import ZArith Lia Bool.
From stdpp Require Import base list gmap.
From S2P Require Import Prelude Mem Str Frames Pmm PageTable Vma PageFault Sched Block Gpt Fat32 Slots Driver Files.

Definition PROT_READ : Z := 1.
Definition PROT_WRITE : Z := 2.
Definition PROT_EXEC : Z := 4.
Definition MAP_FIXED : Z := 0x10.
Definition MAP_ANONYMOUS : Z := 0x20.
Definition USER_MMAP_BASE : Z := 0x0000600000000000.
(** The upper end of the mapping area. *)
Definition MMAP_LIMIT : Z := USER_STACK_TOP_DEFAULT - USER_STACK_MAX_SIZE.

(** [sizeof(Vma)] *)
Definition VMA_BYTES : Z := 40.

(** ** The address search *)

(** The first VMA that [target, target + len) runs into. *)
Definition collision (l : list Vma) (target len : Z) : option Vma :=
  List.find (fun v => (target <? vend v) && (vstart v <? u64 (target + len))) l.

(** The search loop; a round without collision ends it. *)
Fixpoint gap_loop (fuel : nat) (l : list Vma) (target len : Z) : option Z :=
  if u64 (target + len) <? MMAP_LIMIT then
    match collision l target len with
    | None => Some target
    | Some v =>
        match fuel with
        | O => None
        | S k => gap_loop k l (page_up (vend v)) len
        end
    end
  else Some target.

Definition vma_flags (prot flags : Z) : Z :=
  let f := VMA_USER in
  let f := if prot &? PROT_READ then Z.lor f VMA_READ else f in
  let f := if prot &? PROT_WRITE then Z.lor f VMA_WRITE else f in
  let f := if prot &? PROT_EXEC then Z.lor f VMA_EXEC else f in
  if flags &? MAP_ANONYMOUS then Z.lor f VMA_ANON else f.

Definition pte_flags (prot : Z) : Z :=
  let f := Z.lor VMM_FLAG_PRESENT VMM_FLAG_USER in
  let f := if prot &? PROT_WRITE then Z.lor f VMM_FLAG_WRITABLE else f in
  if negb (prot &? PROT_EXEC) then Z.lor f VMM_FLAG_NO_EXECUTE else f.

Section Mmap.
Context {S : Type} `{FrameAllocator S} {D : Type} `{BlockDevice D} (km : Z -> bool) (km_vma : Vma -> bool).
Implicit Types (st : Vm S) (root : Root (D := D)).

(** The page loop of a file mapping: [n] pages from offset [pageOff]; whether
    every page was mapped. *)
Fixpoint map_file_pages (n : nat) st root (pml4 : Z) (fh : FileHandle) (offset target pageOff flags : Z)
    : option (Vm S * Root (D := D) * bool) :=
  match n with
  | O => Some (st, root, true)
  | Datatypes.S k =>
      let '(fa1, frame) := fa_alloc (vm_fa st) in
      if frame =? 0 then Some (mkVm (vm_mem st) fa1, root, false)
      else
        let framePtr := u64 (frame + HHDM_BASE) in
        let m1 := (memset (vm_mem st) framePtr 0 PAGE_SIZE).1 in
        let pos := u64 (offset + pageOff) in
        '(root1, m2) ←
          (if pos <? f_size fh then
             let n := if f_size fh <? u64 (pos + PAGE_SIZE) then f_size fh - pos else PAGE_SIZE in
             '(root1, r) ← fs_read km root (f_path fh) pos n;
             Some (root1, match r with Some b => put_bytes m1 framePtr b | None => m1 end)
           else Some (root, m1));
        let '(st3, rc) := vmmMapPage (mkVm m2 fa1) pml4 (u64 (target + pageOff)) frame flags in
        if negb (rc =? 0) then Some (mkVm (vm_mem st3) (fa_free (vm_fa st3) frame), root1, false)
        else map_file_pages k st3 root1 pml4 fh offset target (pageOff + PAGE_SIZE) flags
  end.

(** The target address: the fixed one, whose old mappings are removed, or the
    first gap. *)
Definition mmap_target st (pml4 : Z) (l : list Vma) (addr alen flags : Z) : option (Vm S * list Vma * Z) :=
  let target := page_down addr in
  if (flags &? MAP_FIXED) && negb (target =? 0) then
    if USER_SPACE_MAX <? u64 (target + alen) then Some (st, l, - EINVAL)
    else let '(st1, l1, _) := vmaDestroy km_vma st pml4 l target alen in Some (st1, l1, target)
  else
    target ← gap_loop (length l) l USER_MMAP_BASE alen;
    Some (st, l, if MMAP_LIMIT <=? u64 (target + alen) then - ENOMEM else target).

(** The file a mapping is of, or an error. *)
Definition mmap_file (t : FileTable) (fd flags : Z) : option FileHandle + Z :=
  if flags &? MAP_ANONYMOUS then inl None
  else if fd <? 3 then inr (- EBADF)
  else match fd_lookup t fd with
       | None => inr (- EBADF)
       | Some fh => if f_isDir fh then inr (- EACCES) else inl (Some fh)
       end.

(** [cur] is the VMA list, file table and page table of the process. *)
Definition sysMmap st root (cur : option (list Vma * FileTable * Z)) (addr length prot flags fd offset : Z)
    : option (Vm S * Root (D := D) * option (list Vma) * Z) :=
  let vmas := (fun p => p.1.1) <$> cur in
  if length =? 0 then Some (st, root, vmas, - EINVAL)
  else if (offset <? 0) || negb (Z.land offset (PAGE_SIZE - 1) =? 0) then Some (st, root, vmas, - EINVAL)
  else
    let alen := page_up length in
    if (alen =? 0) || (USER_SPACE_MAX / 2 <? alen) then Some (st, root, vmas, - ENOMEM)
    else match cur with
    | None => Some (st, root, vmas, - EPERM)
    | Some (l, t, pml4) =>
        match mmap_file t fd flags with
        | inr err => Some (st, root, vmas, err)
        | inl fh =>
            '(st1, l1, target) ← mmap_target st pml4 l addr alen flags;
            if target <? 0 then Some (st1, root, Some l1, target)
            else match vmaCreate (km VMA_BYTES) l1 target alen (vma_flags prot flags) with
            | (l2, None) => Some (st1, root, Some l2, - ENOMEM)
            | (l2, Some _) =>
                match fh with
                | None => Some (st1, root, Some l2, target)
                | Some fh =>
                    '(st2, root2, ok) ← map_file_pages (Z.to_nat (alen / PAGE_SIZE)) st1 root pml4 fh offset target 0
                                          (pte_flags prot);
                    if ok : bool then Some (st2, root2, Some l2, target)
                    else let '(st3, l3, _) := vmaDestroy km_vma st2 pml4 l2 target alen in
                         Some (st3, root2, Some l3, - ENOMEM)
                end
            end
        end
    end.

Definition sysMunmap st (cur : option (list Vma * Z)) (addr length : Z) : Vm S * option (list Vma) * Z :=
  let vmas := fst <$> cur in
  if negb (Z.land addr (PAGE_SIZE - 1) =? 0) then (st, vmas, - EINVAL)
  else if length =? 0 then (st, vmas, - EINVAL)
  else match cur with
  | None => (st, None, - EPERM)
  | Some (l, pml4) =>
      let alen := page_up length in
      if USER_SPACE_MAX <? u64 (addr + alen) then (st, vmas, - EINVAL)
      else let '(st1, l1, rc) := vmaDestroy km_vma st pml4 l addr alen in
           (st1, Some l1, if negb (rc =? 0) then - EINVAL else 0)
  end.

(** ** Exit *)

(** What a process owns. *)
Record Owned := mkOwned { ow_files : FileTable; ow_handles : DriverHandleTable; ow_vmas : list Vma; ow_pml4 : Z }.

(** [None] is a driver entry that was freed under an open handle. *)
Definition sysExit (reg : Registry) (gKernelPml4 : Z) st (cur : option Owned) (sch : Sched)
    : option (Vm S * option Owned * Sched) :=
  match cur with
  | None => Some (st, None, schedThreadExit sch)
  | Some p =>
      '(m1, h1) ← driverCleanupProcess reg (vm_mem st) (Some (ow_handles p));
      let st1 := vmmDestroyAddressSpace (mkVm m1 (vm_fa st)) gKernelPml4 (ow_pml4 p) in
      let p1 := mkOwned (default [] (fileTableCleanup (Some (ow_files p)))) (default (mkHandles [] 0) h1)
                  (vmaDestroyAll (ow_vmas p)) (ow_pml4 p) in
      let sch1 := mkSched (s_threads sch) (s_procs sch) (gCurrentThread sch) (gIdleThread sch)
                    (gReadyQueueHead sch) (gReadyQueueTail sch) (gSleepQueueHead sch) (gSchedTicks sch)
                    (gNextTid sch) (cpu_kstackTop sch) (cpu_currentThread sch) gKernelPml4 in
      Some (st1, Some p1, schedThreadExit sch1)
  end.

Definition sysYield (sch : Sched) : Sched * Z := (schedYield sch, 0).
End Mmap.

(** ** The search finds the lowest gap *)
Definition ends_above (l : list Vma) (a : Z) : nat := length (List.filter (fun v => a <? vend v) l).

Lemma ends_above_step l v a : v ∈ l -> a < vend v -> (ends_above l (vend v) < ends_above l a)%nat.
Proof.
  intros Hv Ha. induction l as [|x l IH]; [by apply not_elem_of_nil in Hv|]. unfold ends_above in *. cbn [List.filter].
  assert (Hmono : forall l, (length (List.filter (fun w => (vend v <? vend w)%Z) l) <=
                             length (List.filter (fun w => (a <? vend w)%Z) l))%nat).
  { clear - Ha. induction l as [|y l IH]; [done|]. cbn [List.filter].
    destruct (Z.ltb_spec (vend v) (vend y)), (Z.ltb_spec a (vend y)); simpl; lia. }
  apply elem_of_cons in Hv as [<-|Hv].
  - rewrite Z.ltb_irrefl. destruct (Z.ltb_spec a (vend v)); [|lia]. specialize (Hmono l). simpl. lia.
  - specialize (IH Hv). destruct (Z.ltb_spec (vend v) (vend x)), (Z.ltb_spec a (vend x)); simpl; lia.
Qed.

Lemma ends_above_le l a : (ends_above l a <= length l)%nat.
Proof. induction l as [|x l IH]; [done|]. unfold ends_above in *. cbn [List.filter]. destruct (_ <? _); simpl; lia. Qed.

(** [a, a + len) meets no VMA / meets some VMA. *)
Definition gap_at (l : list Vma) (a len : Z) : Prop := forall v, v ∈ l -> vend v <= a \/ a + len <= vstart v.
Definition blocked (l : list Vma) (a len : Z) : Prop := exists v, v ∈ l /\ a < vend v /\ vstart v < a + len.

Lemma gap_loop_spec l len fuel : vmas_ok l -> 0 < len <= USER_SPACE_MAX -> forall target,
  0 <= target <= USER_SPACE_MAX -> target mod 4096 = 0 -> (ends_above l target <= fuel)%nat ->
  exists r, gap_loop fuel l target len = Some r /\ target <= r <= USER_SPACE_MAX /\ r mod 4096 = 0 /\
    (forall a, target <= a < r -> blocked l a len) /\ (r + len < MMAP_LIMIT -> gap_at l r len).
Proof.
  intros Hl Hlen. unfold USER_SPACE_MAX in *. induction fuel as [|k IH]; intros target Ht Ha Hf; cbn [gap_loop];
    (rewrite u64_id by (unfold is_u64; lia)); (destruct (Z.ltb_spec (target + len) MMAP_LIMIT);
      [|exists target; split_and!; try done; try lia; intros a; lia]);
    unfold collision; rewrite u64_id by (unfold is_u64; lia);
    destruct (List.find _ l) as [v|] eqn:Ef.
  1,3: apply List.find_some in Ef as [Hin E]; apply andb_true_iff in E as [E1 E2];
    apply Z.ltb_lt in E1, E2; apply list_elem_of_In in Hin;
    pose proof (ends_above_step l v target Hin E1).
  - lia.
  - destruct (vmas_from_lb 0 l Hl v Hin) as [_ (Hv1 & Hv2 & _ & Hv3)]. unfold USER_SPACE_MAX in *.
    assert (Eup : page_up (vend v) = vend v).
    { rewrite page_up_spec by (unfold is_u64; lia). rewrite Z.mod_opp_l_z by lia. lia. }
    rewrite Eup. destruct (IH (vend v)) as (r & E & Hr & Hra & Hb & Hg); [lia|done|lia|].
    exists r. split_and!; try done; try lia. intros a Har.
    destruct (Z.lt_ge_cases a (vend v)); [exists v; split_and!; [done|lia|lia]|apply Hb; lia].
  - exists target. split_and!; try done; try lia. intros _ v Hv.
    apply List.find_none with (x := v) in Ef; [|by apply list_elem_of_In].
    apply andb_false_iff in Ef as [E|E]; apply Z.ltb_ge in E; lia.
  - exists target. split_and!; try done; try lia. intros _ v Hv.
    apply List.find_none with (x := v) in Ef; [|by apply list_elem_of_In].
    apply andb_false_iff in Ef as [E|E]; apply Z.ltb_ge in E; lia.
Qed.

(** What an anonymous mapping does. *)
Definition maps_anon (l l' : list Vma) (len flags r : Z) : Prop :=
  USER_MMAP_BASE <= r /\ r + len < MMAP_LIMIT /\ r mod 4096 = 0 /\ gap_at l r len /\
  (forall a, USER_MMAP_BASE <= a < r -> blocked l a len) /\ vmas_ok l' /\
  forall a, vmaFind l' a = if (r <=? a) && (a <? r + len) then Some (mkVma r (r + len) flags) else vmaFind l a.

Lemma create_gap ok l r len flags : vmas_ok l -> 0 <= r -> r mod 4096 = 0 -> 0 < len -> len mod 4096 = 0 ->
  r + len <= USER_SPACE_MAX -> gap_at l r len ->
  match vmaCreate ok l r len flags with
  | (l', Some _) => vmas_ok l' /\
      forall a, vmaFind l' a = if (r <=? a) && (a <? r + len) then Some (mkVma r (r + len) flags) else vmaFind l a
  | (l', None) => ok = false /\ l' = l
  end.
Proof.
  intros Hl Hr Hra Hlen Hla Hmax Hg. unfold USER_SPACE_MAX in *.
  assert (Es : range_start r = r) by (apply page_down_id; [unfold is_u64; lia|done]).
  assert (Ee : range_end r len = r + len).
  { unfold range_end. change (page_down (u64 (r + len + PAGE_SIZE - 1))) with (page_up (r + len)).
    rewrite page_up_spec by (unfold is_u64; lia).
    assert (Em : (r + len) mod 4096 = 0) by (rewrite Z.add_mod, Hra, Hla by lia; done).
    rewrite Z.mod_opp_l_z by lia. lia. }
  pose proof (vmaCreate_spec ok l r len flags Hl ltac:(unfold is_u64; lia) ltac:(unfold is_u64; lia)) as Hc.
  cbv zeta in Hc. rewrite Es, Ee in Hc.
  destruct (vmaCreate ok l r len flags) as [l' [v|]]; destruct Hc as [H1 H2].
  - destruct H2 as (_ & -> & H2). done.
  - destruct H2 as [Hbad ->]. split; [|done]. destruct ok; [|done]. exfalso.
    rewrite orb_false_r in Hbad. unfold USER_SPACE_MAX in Hbad.
    destruct (Z.eqb_spec len 0); [lia|]. destruct (Z.leb_spec (r + len) r); [lia|].
    destruct (Z.ltb_spec 0x800000000000 (r + len)); [lia|]. cbn [orb] in Hbad.
    apply existsb_exists in Hbad as (c & Hc & Ho). apply list_elem_of_In in Hc. unfold vma_overlaps in Ho.
    apply andb_true_iff in Ho as [Ho1 Ho2]. apply Z.ltb_lt in Ho1, Ho2. destruct (Hg c Hc); lia.
Qed.

(** Anonymous mappings.  For a process with an ordered VMA list and a
    length that rounds to at most half the user space, [sysMmap] without
    MAP_FIXED terminates (the search makes at most one jump per VMA) and
    either returns -ENOMEM, leaving the VMAs alone, only when there is no gap
    below the stack area or no memory for the VMA, or returns the lowest
    page address from the mapping base on at which the rounded length meets
    no VMA; the list stays ordered and disjoint and lookups change exactly in
    the new range.  Memory, frames and the file system are untouched. *)
Theorem sysMmap_anon_correct {S} `{FrameAllocator S} {D} `{BlockDevice D} km km_vma (st : Vm S) (root : Root (D := D))
    l t pml4 addr length prot flags fd offset :
  vmas_ok l -> 0 < length -> length <= USER_SPACE_MAX / 2 - 4096 -> 0 <= offset -> Z.land offset 4095 = 0 ->
  flags &? MAP_ANONYMOUS = true -> flags &? MAP_FIXED = false ->
  let alen := page_up length in
  exists l' r, sysMmap km km_vma st root (Some (l, t, pml4)) addr length prot flags fd offset =
      Some (st, root, Some l', r) /\
    ((r = - ENOMEM /\ l' = l /\
      (km VMA_BYTES = false \/
       exists hi, MMAP_LIMIT <= hi + alen /\ forall a, USER_MMAP_BASE <= a < hi -> blocked l a alen)) \/
     maps_anon l l' alen (vma_flags prot flags) r).
Proof.
  intros Hl Hlen Hmax Hoff Hal Han Hfx alen. unfold USER_SPACE_MAX in Hmax. change (0x800000000000 / 2) with (2 ^ 46) in Hmax.
  assert (Hup : alen = length + (- length) mod 4096) by (apply page_up_spec; [unfold is_u64; lia|lia]).
  pose proof (Z.mod_pos_bound (- length) 4096 ltac:(lia)).
  assert (Hla : alen mod 4096 = 0) by (apply page_down_aligned, u64_range).
  unfold sysMmap. destruct (Z.eqb_spec length 0); [lia|]. destruct (Z.ltb_spec offset 0); [lia|].
  change (PAGE_SIZE - 1) with 4095. rewrite Hal. cbn [orb negb Z.eqb]. fold alen.
  destruct (Z.eqb_spec alen 0); [lia|]. destruct (Z.ltb_spec (USER_SPACE_MAX / 2) alen) as [Hx|_];
    [unfold USER_SPACE_MAX in Hx; change (0x800000000000 / 2) with (2 ^ 46) in Hx; lia|]. cbn [orb].
  unfold mmap_file, mmap_target. rewrite Han, Hfx. cbn [andb].
  destruct (gap_loop_spec l alen (List.length l) Hl ltac:(unfold USER_SPACE_MAX; lia) USER_MMAP_BASE)
    as (r & -> & Hr & Hra & Hb & Hg); [done|done|apply ends_above_le|].
  cbn [mbind option_bind]. unfold USER_SPACE_MAX in Hr. rewrite u64_id by (unfold is_u64, USER_MMAP_BASE in *; lia).
  destruct (Z.leb_spec MMAP_LIMIT (r + alen)) as [Hfull|Hfit].
  - exists l, (- ENOMEM). cbn [Z.ltb]. split; [done|]. left. split_and!; try done. right. by exists r.
  - destruct (Z.ltb_spec r 0); [unfold USER_MMAP_BASE in Hr; lia|].
    pose proof (create_gap (km VMA_BYTES) l r alen (vma_flags prot flags) Hl ltac:(lia) Hra ltac:(lia) Hla
      ltac:(unfold USER_SPACE_MAX, MMAP_LIMIT, USER_STACK_TOP_DEFAULT, USER_STACK_MAX_SIZE in *; lia) (Hg Hfit)) as Hc.
    destruct (vmaCreate _ l r alen _) as [l' [v|]].
    + exists l', r. split; [done|]. right. destruct Hc. split_and!; try done; try lia. by apply Hg.
    + destruct Hc as [Hk ->]. exists l, (- ENOMEM). split; [done|]. left. split_and!; try done. by left.
Qed.

Definition mmap_vm : Vm Pmm := mkVm ∅ (mkPmm [] 0 0 0 0).

Lemma sysMmap_anon_correct_witness : exists l' r,
  sysMmap (fun _ => true) (fun _ => true) mmap_vm (None : Root (D := RamDisk))
    (Some (demo_vmas, [], 0x1000)) 0 5000 3 0x22 (-1) 0 = Some (mmap_vm, None, Some l', r) /\
  maps_anon demo_vmas l' 8192 (vma_flags 3 0x22) r.
Proof.
  destruct (sysMmap_anon_correct (fun _ => true) (fun _ => true) mmap_vm (None : Root (D := RamDisk)) demo_vmas []
    0x1000 0 5000 3 0x22 (-1) 0 demo_vmas_ok) as (l' & r & E & H).
  - reflexivity.
  - vm_compute. discriminate.
  - discriminate.
  - reflexivity.
  - reflexivity.
  - reflexivity.
  - exists l', r. split; [exact E|]. destruct H as [(-> & _)|H]; [|exact H].
    vm_compute in E. discriminate E.
Defined.

(** ** The range check of [sysMunmap] wraps *)

(** A length near 2^64 makes [Addr + AlignedLen] wrap past the check: the
    call succeeds and leaves two overlapping VMAs. *)
Theorem sysMunmap_wraps {S} `{FrameAllocator S} (st : Vm S) :
  let '(_, l', r) := sysMunmap (fun _ => true) st (Some (demo_vmas, 0x1000)) 0x602000 (2 ^ 64 - 4096) in
  r = 0 /\ exists a b c, l' = Some [a; b; c; mkVma 0x7FFFFF000000 0x7FFFFF800000 59] /\
    vstart c < vend b /\ vstart b < vend c.
Proof.
  unfold sysMunmap.
  change (USER_SPACE_MAX <? u64 (0x602000 + page_up (2 ^ 64 - 4096))) with false.
  cbn [negb Z.eqb]. change (Z.land 0x602000 (PAGE_SIZE - 1) =? 0) with true. cbn [negb].
  unfold vmaDestroy. change (page_up (2 ^ 64 - 4096) =? 0) with false. cbn iota.
  pose proof (destroy_loop_list (fun _ => true) demo_vmas st 0x1000 (range_start 0x602000)
    (range_end 0x602000 (page_up (2 ^ 64 - 4096)))) as Hl.
  destruct (destroy_loop _ _ _ _ _ _) as [st' l']. cbn [snd] in Hl. subst l'. split; [reflexivity|].
  eexists _, _, _. split; [vm_compute; reflexivity|]. vm_compute. split; reflexivity.
Qed.
