(* ===== verification/Dll.v ===== *)
(** * Disjoint ranges and doubly linked lists

    The theory the two heaps and the module loader share. *)

From Stdlib Require Import ZArith Lia Bool.
From stdpp Require Import base list gmap.
From S2P Require Import Prelude.

(** ** Disjoint ranges of addresses

    A range is a start and a length; the allocators' invariants say that
    what they hand out and keep are disjoint ranges, in any order. *)

Definition disj (r q : Z * Z) : Prop := r.1 + r.2 <= q.1 \/ q.1 + q.2 <= r.1.
Fixpoint apart (l : list (Z * Z)) : Prop :=
  match l with [] => True | r :: q => Forall (disj r) q /\ apart q end.

Lemma disj_sym r q : disj r q -> disj q r.
Proof. unfold disj. tauto. Qed.

#[global] Instance apart_perm : Proper (Permutation ==> iff) apart.
Proof.
  assert (H : forall l l', l ≡ₚ l' -> apart l -> apart l').
  { induction 1 as [|x l l' Hp IH|x y l|l1 l2 l3 H1 IH1 H2 IH2]; simpl; auto.
    - intros [Hx Hl]. split; [by rewrite <- Hp|auto].
    - intros [Hy [Hx Hl]]. apply Forall_cons in Hy as [Hyx Hy]. split_and!; try done.
      apply Forall_cons. split; [by apply disj_sym|done]. }
  intros l l' Hp. split; apply H; [done|by symmetry].
Qed.

Lemma apart_head r l q : apart (r :: l) -> q ∈ l -> disj r q.
Proof. intros [H _] Hq. rewrite Forall_forall in H. by apply H. Qed.

Lemma apart_app l1 l2 : apart (l1 ++ l2) <-> apart l1 /\ apart l2 /\ forall x y, x ∈ l1 -> y ∈ l2 -> disj x y.
Proof.
  induction l1 as [|r l1 IH]; simpl.
  - split; [|tauto]. intros H. split_and!; [done|done|]. intros x y Hx. by apply elem_of_nil in Hx.
  - rewrite IH, Forall_app, !Forall_forall. split.
    + intros [[H1 H2] (H3 & H4 & H5)]. split_and!; auto. intros x y Hx Hy. apply elem_of_cons in Hx as [->|Hx]; auto.
    + intros ((H1 & H2) & H3 & H4). split_and!; auto; intros; apply H4; auto; [left|right]; done.
Qed.

(** ** Doubly linked lists in a store

    A list of addresses linked through a [next] and a [prev] field, read as
    functions of the address; 0 ends the list.  Pushing at the front and
    unlinking are stated on those functions, so that they serve every
    structure that is linked this way. *)

(** The first address of a segment that is followed by [n], and the last of
    one that is preceded by [p]. *)
Definition first_or (n : Z) (l : list Z) : Z := match l with [] => n | x :: _ => x end.
Fixpoint last_or (p : Z) (l : list Z) : Z := match l with [] => p | x :: r => last_or x r end.

Fixpoint dll (nx pv : Z -> Z) (p : Z) (l : list Z) (n : Z) : Prop :=
  match l with
  | [] => True
  | x :: r => x <> 0 /\ pv x = p /\ nx x = first_or n r /\ dll nx pv x r n
  end.

Lemma last_or_in p l : l <> [] -> last_or p l ∈ l.
Proof.
  revert p. induction l as [|x r IH]; intros p Hne; [done|]. simpl.
  destruct r as [|y r]; [by left|]. right. by apply IH.
Qed.

Lemma first_or_in n l : l <> [] -> first_or n l ∈ l.
Proof. destruct l; [done|]. intros _. left. Qed.

Lemma first_or_app n a b : first_or n (a ++ b) = first_or (first_or n b) a.
Proof. by destruct a. Qed.

Section Dll.
Context (nx pv : Z -> Z).

Lemma dll_nonzero p l n x : dll nx pv p l n -> x ∈ l -> x <> 0.
Proof.
    revert p. induction l as [|y r IH]; intros p Hl Hx; [by apply elem_of_nil in Hx|].
    destruct Hl as (H1 & _ & _ & H2). apply elem_of_cons in Hx as [->|Hx]; eauto.
Qed.

Lemma dll_app p a b n : dll nx pv p (a ++ b) n <-> dll nx pv p a (first_or n b) /\ dll nx pv (last_or p a) b n.
Proof.
    revert p. induction a as [|x r IH]; intros p; simpl; [tauto|]. rewrite IH, first_or_app. tauto.
Qed.

End Dll.

Section Update.
Context (nx pv nx' pv' : Z -> Z).

Lemma dll_ext p l n : dll nx pv p l n ->
    (forall x, x ∈ l -> nx' x = nx x /\ pv' x = pv x) -> dll nx' pv' p l n.
Proof.
    revert p. induction l as [|x r IH]; intros p Hl He; simpl in *; [done|].
    destruct Hl as (H1 & H2 & H3 & H4). destruct (He x) as [E1 E2]; [by left|].
    rewrite E1, E2. split_and!; try done. apply IH; [done|]. intros y Hy. apply He. by right.
Qed.

  (** Redirecting the [next] of the last node. *)
Lemma dll_relast p l n n' : dll nx pv p l n -> NoDup l ->
    (forall x, x ∈ l -> pv' x = pv x) ->
    (forall x, x ∈ l -> nx' x = if x =? last_or p l then n' else nx x) -> dll nx' pv' p l n'.
Proof.
    revert p. induction l as [|x r IH]; intros p Hl Hnd Hp Hn; simpl in *; [done|].
    destruct Hl as (H1 & H2 & H3 & H4). apply NoDup_cons in Hnd as [Hnx Hnd].
    split_and!; [done|rewrite Hp by (by left); done| |].
    - rewrite Hn by (by left). destruct r as [|y r]; simpl in *; [by rewrite Z.eqb_refl|].
      destruct (Z.eqb_spec x (last_or y r)) as [E|]; [|done].
      exfalso. apply Hnx. rewrite E. by apply (last_or_in y (y :: r)).
    - apply IH; try done; intros z Hz; [apply Hp|apply Hn]; by right.
Qed.

  (** Changing the [prev] of the first node. *)
Lemma dll_refirst p p' l n : dll nx pv p l n -> NoDup l ->
    (forall x, x ∈ l -> nx' x = nx x) ->
    (forall x, x ∈ l -> pv' x = if x =? first_or 0 l then p' else pv x) -> dll nx' pv' p' l n.
Proof.
    destruct l as [|x r]; intros Hl Hnd Hn Hp; simpl in *; [done|].
    destruct Hl as (H1 & H2 & H3 & H4). apply NoDup_cons in Hnd as [Hnx Hnd].
    split_and!; [done|rewrite Hp, Z.eqb_refl by (by left); done|rewrite Hn by (by left); done|].
    apply dll_ext; [done|]. intros y Hy. split; [apply Hn; by right|].
    rewrite Hp by (by right). destruct (Z.eqb_spec y x) as [->|]; done.
Qed.

Lemma dll_push c l : dll nx pv 0 l 0 -> c <> 0 -> c ∉ l -> NoDup l ->
    (forall x, x ∈ c :: l -> x <> 0 -> nx' x = if x =? c then first_or 0 l else nx x) ->
    (forall x, x ∈ c :: l -> x <> 0 -> pv' x = if x =? c then 0 else if x =? first_or 0 l then c else pv x) ->
    dll nx' pv' 0 (c :: l) 0.
Proof.
    intros Hl Hc Hcl Hnd Hn Hp. simpl.
    split_and!; [done|rewrite Hp, Z.eqb_refl by (done || left); done|rewrite Hn, Z.eqb_refl by (done || left); done|].
    apply (dll_refirst 0); try done; intros x Hx; assert (x ∈ c :: l) by (by right); pose proof (dll_nonzero _ _ _ _ _ _ Hl Hx);
      [rewrite Hn by done|rewrite Hp by done]; (destruct (Z.eqb_spec x c) as [->|]; done).
Qed.

Lemma dll_unlink c l1 l2 : dll nx pv 0 (l1 ++ c :: l2) 0 -> NoDup (l1 ++ c :: l2) ->
    (forall x, x ∈ l1 ++ l2 -> x <> 0 -> x <> c -> nx' x = if x =? pv c then nx c else nx x) ->
    (forall x, x ∈ l1 ++ l2 -> x <> 0 -> x <> c -> pv' x = if x =? nx c then pv c else pv x) ->
    dll nx' pv' 0 (l1 ++ l2) 0.
Proof.
    intros Hl Hnd Hn Hp. pose proof Hl as Hz. apply dll_app in Hl as [H1 (Hc & Hpc & Hnc & H2)]. simpl in H1, Hnc.
    apply NoDup_app in Hnd as (Hd1 & Hd12 & Hd2). apply NoDup_cons in Hd2 as [Hc2 Hd2].
    rewrite Hpc in Hn, Hp. rewrite Hnc in Hn, Hp.
    assert (Hne1 : forall x, x ∈ l1 -> x <> c) by (intros x Hx ->; apply (Hd12 c Hx); left).
    assert (Hne2 : forall x, x ∈ l2 -> x <> c) by (intros x Hx ->; done).
    assert (Hz1 : forall x, x ∈ l1 ++ c :: l2 -> x <> 0) by (intros x Hx; by apply (dll_nonzero _ _ _ _ _ _ Hz)).
    assert (Hj1 : forall x, x ∈ l1 -> x ∈ l1 ++ l2) by (intros; apply elem_of_app; auto).
    assert (Hj2 : forall x, x ∈ l2 -> x ∈ l1 ++ l2) by (intros; apply elem_of_app; auto).
    assert (Hi1 : forall x, x ∈ l1 -> x ∈ l1 ++ c :: l2) by (intros; apply elem_of_app; auto).
    assert (Hi2 : forall x, x ∈ l2 -> x ∈ l1 ++ c :: l2) by (intros; apply elem_of_app; right; by right).
    apply dll_app. split.
    - apply (dll_relast 0 l1 c); try done.
      + intros x Hx. rewrite Hp by auto. destruct (Z.eqb_spec x (first_or 0 l2)) as [E|]; [|done].
        destruct l2 as [|y r]; simpl in E; [by apply Hi1, Hz1 in Hx|].
        exfalso. apply (Hd12 x Hx). right. rewrite E. left.
      + intros x Hx. rewrite Hn by auto. done.
    - apply (dll_refirst c); try done.
      + intros x Hx. rewrite Hn by auto. destruct (Z.eqb_spec x (last_or 0 l1)) as [E|]; [|done].
        destruct l1 as [|y r]; [by apply Hi2, Hz1 in Hx|].
        exfalso. apply (Hd12 x); [rewrite E; by apply (last_or_in 0 (y :: r))|by right].
      + intros x Hx. rewrite Hp by auto. done.
Qed.

Lemma dll_mid c l1 l2 : dll nx pv 0 (l1 ++ c :: l2) 0 ->
    c <> 0 /\ pv c = last_or 0 l1 /\ nx c = first_or 0 l2 /\
    first_or 0 (l1 ++ l2) = (if pv c =? 0 then nx c else first_or 0 (l1 ++ c :: l2)).
Proof.
    intros H. pose proof H as Hz. apply dll_app in H as [H1 (Hc & Hp & Hn & H2)]. split_and!; try done.
    rewrite Hp. destruct l1 as [|y r]; simpl; [by rewrite Hn|].
    destruct (Z.eqb_spec (last_or y r) 0) as [E|]; [|done]. exfalso.
    apply (dll_nonzero _ _ _ _ _ (last_or 0 (y :: r)) H1); [by apply last_or_in|done].
Qed.
End Update.

(** A walk over different keys of a map is no longer than the map. *)
Lemma nodup_size {A} (m : gmap Z A) l : NoDup l -> (forall x, x ∈ l -> is_Some (m !! x)) -> (length l <= size m)%nat.
Proof.
  intros Hn Hd. rewrite <- size_dom, <- (size_list_to_set (C := gset Z) l Hn). apply subseteq_size.
  intros x Hx. apply elem_of_list_to_set in Hx. apply elem_of_dom. auto.
Qed.
