(* ===== verification/KPages.v ===== *)
(** * Kernel pages

    The heap (mem/heap.c) and the module loader (modules/module.c) back a
    range of kernel addresses with fresh frames in the same way: page by
    page, all or nothing.  When memory runs out half way, the pages that
    were mapped are unmapped again and their frames returned. *)

From Stdlib Require Import ZArith Lia Bool.
From stdpp Require Import base list gmap.
From S2P Require Import Prelude Mem Frames Pmm PageTable PtWalk PtOps AddrSpace PageFault.

Definition KERNEL_FLAGS : Z := Z.lor VMM_FLAG_PRESENT VMM_FLAG_WRITABLE.

Section Ops.
Context {S : Type} `{FrameAllocator S}.
Implicit Types (st : Vm S).

(** [pml4] is the kernel's page directory throughout. *)
Context (pml4 : Z).

(** Unmapping the page at [v] and freeing its frame. *)
Definition kp_release_page (st : Vm S) (v : Z) : Vm S :=
  let ph := vmmVirtToPhys (vm_mem st) pml4 v in
  let vm := (vmmUnmapPage st pml4 v).1 in
  if negb (ph =? 0) then mkVm (vm_mem vm) (fa_free (vm_fa vm) ph) else vm.

(** The first [n] pages at [base]. *)
Definition kp_release (st : Vm S) (base n : Z) : Vm S :=
  zfor 0 n (fun j st => kp_release_page st (u64 (base + j * PAGE_SIZE))) st.

(** The mapping loop from page [i] on, [n] pages to go; [false]: a frame or
    a page table could not be had, and the pages before are released. *)
Fixpoint kp_map (n : nat) (st : Vm S) (base i : Z) : Vm S * bool :=
  match n with
  | O => (st, true)
  | Datatypes.S k =>
      let '(fa, frame) := fa_alloc (vm_fa st) in
      let st1 := mkVm (vm_mem st) fa in
      if frame =? 0 then (kp_release st1 base i, false)
      else
        let '(vm, r) := vmmMapPage st1 pml4 (u64 (base + i * PAGE_SIZE)) frame KERNEL_FLAGS in
        if negb (r =? 0)
        then (kp_release (mkVm (vm_mem vm) (fa_free (vm_fa vm) frame)) base i, false)
        else kp_map k vm base (i + 1)
  end.
End Ops.

Section Pages.
Context {S : Type} `{FrameAllocator S} `{!FrameAllocatorLaws S}.
Context (root : Z).

(** What is known of an earlier state: its translations, the frames in use,
    those that are no tables and those that are. *)
Record Before := mkBefore { b_xl : list Z -> option (Z * nat); b_used : Z -> Prop; b_keep : Z -> Prop; b_tab : Z -> Prop }.
Definition before (st : Vm S) : Before := mkBefore (xl (vm_mem st) root) (fa_used (vm_fa st)) (not_table (vm_mem st) root) (is_table (vm_mem st) root).
Definition no_huge0 (o : Before) (v : Z) : Prop := forall e k, b_xl o (vpath v) = Some (e, k) -> k = 0%nat.
Implicit Types (st : Vm S) (o : Before).

(** From [o] to [st] the pages at [base] were mapped, in order, to the
    frames [fs]: fresh ones, all different. *)
Record backed (o : Before) (st : Vm S) (base : Z) (fs : list Z) : Prop := {
  bk_wf : pt_wf st root;
  bk_xl : forall v, is_u64 v -> xl (vm_mem st) root (vpath v) =
    if (vpage base <=? vpage v) && (vpage v <? vpage base + Z.of_nat (length fs))
    then (fun f => (leaf_entry f KERNEL_FLAGS, 0%nat)) <$> fs !! Z.to_nat (vpage v - vpage base)
    else b_xl o (vpath v);
  bk_frames : Forall (fun f => frame_addr f /\ ~ b_used o f /\ fa_used (vm_fa st) f /\
                                not_table (vm_mem st) root f) fs;
  bk_nodup : NoDup fs;
  bk_used : forall f, frame_addr f -> b_used o f -> b_keep o f ->
    fa_used (vm_fa st) f /\ not_table (vm_mem st) root f;
  bk_new : forall f, frame_addr f -> fa_used (vm_fa st) f -> b_used o f \/ f ∈ fs \/ is_table (vm_mem st) root f;
  bk_tab : forall f, frame_addr f -> b_used o f -> b_tab o f -> fa_used (vm_fa st) f -> is_table (vm_mem st) root f
}.

Lemma backed_refl st base : pt_wf st root -> backed (before st) st base [].
Proof.
  intros W. constructor; try done; [|constructor|by left]. intros v Hv. change (Z.of_nat (length [])) with 0.
  destruct (Z.leb_spec (vpage base) (vpage v)), (Z.ltb_spec (vpage v) (vpage base + 0)); cbn [andb]; try done. lia.
Qed.

Lemma kernel_flags_ok : is_u64 KERNEL_FLAGS /\ nextf KERNEL_FLAGS = 0.
Proof. split; [vm_compute; split; congruence|done]. Qed.

Lemma alloc_wf st fa1 frame : pt_wf st root -> fa_alloc (vm_fa st) = (fa1, frame) -> frame <> 0 ->
  frame_addr frame /\ ~ fa_used (vm_fa st) frame /\ fa_used fa1 frame /\ pt_wf (mkVm (vm_mem st) fa1) root /\
  not_table (vm_mem st) root frame /\ (forall f, frame_addr f -> fa_used (vm_fa st) f -> fa_used fa1 f).
Proof.
  intros W Ea Hne. pose proof (pw_ok _ _ W) as Hok.
  pose proof (fa_alloc_frame _ Hok) as Hf. pose proof (fa_alloc_fresh _ Hok) as Hfr.
  pose proof (fa_alloc_ok _ Hok) as Hok1. pose proof (fun a => fa_alloc_used _ a Hok) as Hu.
  rewrite Ea in *. cbn [fst snd] in *. specialize (Hf Hne). specialize (Hfr Hne). split_and!; try done.
  - apply Hu; auto.
  - constructor; cbn [vm_mem vm_fa]; try apply W; [done|]. intros p f Hp Hl Hw.
    destruct (pw_used _ _ W p f Hp Hl Hw) as [Hfa Hfu]. split; [done|]. apply Hu; auto.
  - intros q Hq Hl Hw. apply Hfr, (pw_used _ _ W q frame Hq Hl Hw).
  - intros f Hfa Hfu. apply Hu; auto.
Qed.

(** Frames that were used still are. *)
Definition still_used (o : Before) (st : Vm S) : Prop := forall f, frame_addr f -> b_used o f -> fa_used (vm_fa st) f.

(** The addresses of a range of [n] pages. *)
Definition page_range (base n : Z) : Prop :=
  page_aligned base /\ 0 <= base /\ 0 <= n /\ base + n * 4096 <= 2 ^ 64 /\ base mod 2 ^ 48 + n * 4096 <= 2 ^ 48.

Lemma page_range_at base n i : page_range base n -> 0 <= i < n ->
  is_u64 (base + i * 4096) /\ vpage (base + i * 4096) = vpage base + i /\ page_down (base + i * 4096) = base + i * 4096.
Proof.
  intros (Ha & H0 & Hn & H1 & H2) Hi. unfold page_aligned in Ha. assert (Hu : is_u64 (base + i * 4096)) by (unfold is_u64; lia).
  split; [done|]. split; [apply vpage_offset; done || lia|]. apply page_down_id; [done|]. rewrite Z.mod_add by lia. done.
Qed.

(** One more page. *)
Lemma back_step o st base fs n fa1 frame :
  backed o st base fs -> still_used o st -> page_range base n -> Z.of_nat (length fs) < n ->
  (forall v, is_u64 v -> vpage base <= vpage v < vpage base + n -> no_huge0 o v) ->
  fa_alloc (vm_fa st) = (fa1, frame) -> frame <> 0 ->
  let r := vmmMapPage (mkVm (vm_mem st) fa1) (tbl root) (base + Z.of_nat (length fs) * 4096) frame KERNEL_FLAGS in
  (r.2 = 0 /\ backed o r.1 base (fs ++ [frame]) /\ still_used o r.1) \/
  (r.2 = -1 /\ backed o (mkVm (vm_mem r.1) (fa_free (vm_fa r.1) frame)) base fs).
Proof.
  intros [W X F N U Nw Tb] Hmono Hr Hl Hh Ea Hne r. destruct (alloc_wf st fa1 frame W Ea Hne) as (Hf & Hfr & Hu1 & W1 & Hnt & Hkeep).
  destruct (page_range_at base n (Z.of_nat (length fs)) Hr ltac:(lia)) as (Hv & Hvp & _).
  set (va := base + Z.of_nat (length fs) * 4096) in *. destruct kernel_flags_ok as [Hfl Hfn].
  assert (Hfb : 0 < frame < 2 ^ 47) by apply Hf.
  destruct (vmmMapPage_spec (mkVm (vm_mem st) fa1) root va frame KERNEL_FLAGS) as [M C]; try done; [unfold is_u64; lia|lia| |].
  { intros e k. cbn [vm_mem]. rewrite X by done. rewrite Hvp.
    destruct (Z.ltb_spec (vpage base + Z.of_nat (length fs)) (vpage base + Z.of_nat (length fs))); [lia|]. rewrite andb_false_r.
    apply Hh; [done|lia]. }
  fold r in M, C. cbn [vm_mem vm_fa] in *.
  assert (Hback : forall f, frame_addr f -> fa_used fa1 f -> not_table (vm_mem st) root f -> not_table (vm_mem r.1) root f).
  { intros f Hfa Hfu Hn q Hq Hlq Hw. destruct (mf_back _ _ _ _ M q f Hq Hlq Hw); [by apply (Hn q)|done]. }
  assert (HF : Forall (fun f => frame_addr f /\ ~ b_used o f /\ fa_used (vm_fa r.1) f /\ not_table (vm_mem r.1) root f /\ f <> frame) fs).
  { eapply Forall_impl; [exact F|]. intros f (F1 & F2 & F3 & F4). split_and!; try done.
    - apply (mf_used _ _ _ _ M); auto.
    - apply Hback; auto.
    - intros ->. done. }
  assert (HU : forall f, frame_addr f -> b_used o f -> b_keep o f ->
    fa_used (vm_fa r.1) f /\ not_table (vm_mem r.1) root f /\ f <> frame).
  { intros f F1 F2 F3. destruct (U f F1 F2 F3) as [F4 F5]. split_and!; [apply (mf_used _ _ _ _ M); auto|apply Hback; auto|intros ->; done]. }
  assert (HN : forall f, frame_addr f -> fa_used (vm_fa r.1) f -> f = frame \/ b_used o f \/ f ∈ fs \/ is_table (vm_mem r.1) root f).
  { intros f F1 F2. destruct (mf_new _ _ _ _ M f F1 F2) as [F3|]; [cbn [vm_fa] in F3|by auto].
    pose proof (fa_alloc_used (vm_fa st) f (pw_ok _ _ W)) as Hau. rewrite Ea in Hau. apply Hau in F3 as [F3|F3]; [by left| |done..].
    destruct (Nw f F1 F3) as [|[|(q & Hq & Hlq & Hwq)]]; auto. do 3 right. destruct (decide (f = frame)) as [->|Hff]; [by apply Hnt in Hwq|].
    apply (mf_table _ _ _ _ M); [done|]. by exists q. }
  destruct C as [[E X']|[E X']]; [right|left]; (split; [done|]); [|split; [|intros f F1 F2; apply (mf_used _ _ _ _ M); auto]].
  - constructor; cbn [vm_mem vm_fa].
    + apply free_nontable_wf; [apply (mf_wf _ _ _ _ M)|done|]. apply Hback; auto.
    + intros v Hvv. rewrite X' by (done || apply vpath_ok). apply X. done.
    + eapply Forall_impl; [exact HF|]. intros f (F1 & F2 & F3 & F4 & F5). split_and!; try done.
      apply fa_free_used; [apply (pw_ok _ _ (mf_wf _ _ _ _ M))|unfold is_u64; lia|done|]. split; [done|congruence].
    + done.
    + intros f F1 F2 F3. destruct (HU f F1 F2 F3) as (F4 & F5 & F6). split; [|done].
      apply fa_free_used; [apply (pw_ok _ _ (mf_wf _ _ _ _ M))|unfold is_u64; lia|done|]. split; [done|congruence].
    + intros f F1 F2. apply fa_free_used in F2 as [F2 F3]; [|apply (pw_ok _ _ (mf_wf _ _ _ _ M))|unfold is_u64; lia|done].
      destruct (HN f F1 F2) as [|]; [congruence|done].
    + intros f F1 F2 F3 _. apply (mf_table _ _ _ _ M); auto.
  - constructor.
    + apply (mf_wf _ _ _ _ M).
    + intros v Hvv. rewrite X' by (done || apply vpath_ok). rewrite length_app. simpl length. rewrite X by done.
      case_decide as Ev.
      * apply vpath_vpage in Ev; [|done..]. rewrite Ev, Hvp.
        destruct (Z.leb_spec (vpage base) (vpage base + Z.of_nat (length fs))); [|lia].
        destruct (Z.ltb_spec (vpage base + Z.of_nat (length fs)) (vpage base + Z.of_nat (length fs + 1))); [|lia]. simpl.
        replace (Z.to_nat (vpage base + Z.of_nat (length fs) - vpage base)) with (length fs) by lia.
        by rewrite list_lookup_middle.
      * rewrite vpath_vpage in Ev by done. rewrite Hvp in Ev.
        destruct (Z.leb_spec (vpage base) (vpage v)), (Z.ltb_spec (vpage v) (vpage base + Z.of_nat (length fs))),
          (Z.ltb_spec (vpage v) (vpage base + Z.of_nat (length fs + 1))); simpl; try lia; try done.
        by rewrite lookup_app_l by lia.
    + apply Forall_app. split.
      * eapply Forall_impl; [exact HF|]. intros f (F1 & F2 & F3 & F4 & _). done.
      * apply Forall_singleton. split_and!; [done| |apply (mf_used _ _ _ _ M); done|apply Hback; done].
        intros Hu0. by apply Hfr, Hmono.
    + apply NoDup_app. split_and!; [done| |apply NoDup_singleton]. intros f Hin Hf1. apply list_elem_of_singleton in Hf1 as ->.
      rewrite Forall_forall in HF. by apply (HF frame Hin).
    + intros f F1 F2 F3. destruct (HU f F1 F2 F3) as (F4 & F5 & _). done.
    + intros f F1 F2. destruct (HN f F1 F2) as [->|[|[|]]]; [right; left; apply elem_of_app; right; by left|by left|right; left; apply elem_of_app; by left|auto].
    + intros f F1 F2 F3 _. apply (mf_table _ _ _ _ M); auto.
Qed.

(** With five frames left a page is mapped: one for it, three for tables. *)
Lemma kp_map_one st base : pt_wf st root -> is_u64 base -> xl (vm_mem st) root (vpath base) = None -> frames_left 5 (vm_fa st) ->
  (kp_map (tbl root) 1 st base 0).2 = true.
Proof.
  intros W Hb Hx [Hne Hl]. cbn [kp_map]. destruct (fa_alloc (vm_fa st)) as [fa1 frame] eqn:Ea. cbn [fst snd] in *.
  destruct (Z.eqb_spec frame 0); [done|]. destruct (alloc_wf st fa1 frame W Ea Hne) as (Hf & _ & _ & W1 & _).
  assert (Hfb : 0 < frame < 2 ^ 47) by apply Hf. destruct kernel_flags_ok as [Hfl Hfn]. rewrite Z.mul_0_l, Z.add_0_r, u64_id by done.
  pose proof (vmmMapPage_succeeds (mkVm (vm_mem st) fa1) root base frame KERNEL_FLAGS W1 Hb) as Hs.
  destruct (vmmMapPage _ _ _ _ _) as [vm r]. cbn [snd] in Hs. rewrite Hs; [done|unfold is_u64; lia|lia|done|done| |done].
  intros e k. cbn [vm_mem]. by rewrite Hx.
Qed.

(** Releasing the first of the pages. *)
Lemma release_page_eq o st base f fs n :
  backed o st base (f :: fs) -> page_range base n -> Z.of_nat (length (f :: fs)) <= n ->
  let st1 := (vmmUnmapPage st (tbl root) base).1 in
  kp_release_page (tbl root) st base = mkVm (vm_mem st1) (fa_free (vm_fa st1) f) /\ pt_wf st1 root /\
  (forall q, idx_ok q -> length q = 4%nat -> xl (vm_mem st1) root q = if decide (q = vpath base) then None else xl (vm_mem st) root q) /\
  (forall g, frame_addr g -> not_table (vm_mem st) root g -> fa_used (vm_fa st1) g <-> fa_used (vm_fa st) g) /\
  (forall g, not_table (vm_mem st) root g -> not_table (vm_mem st1) root g) /\
  (forall g, frame_addr g -> fa_used (vm_fa st1) g -> fa_used (vm_fa st) g /\ (is_table (vm_mem st) root g -> is_table (vm_mem st1) root g)).
Proof.
  intros [W X F N U _ _] Hr Hl. unfold kp_release_page.
  destruct (page_range_at base n 0 Hr ltac:(simpl in Hl; lia)) as (Hv & Hvp & _). rewrite Z.mul_0_l, Z.add_0_r in *.
  apply Forall_cons in F as [(F1 & F2 & F3 & F4) F].
  assert (Hf0 : 0 < f < 2 ^ 47) by apply F1. assert (Hfm : f mod 4096 = 0) by apply F1.
  assert (Hxl : xl (vm_mem st) root (vpath base) = Some (leaf_entry f KERNEL_FLAGS, 0%nat)).
  { rewrite X by done. destruct (Z.leb_spec (vpage base) (vpage base)); [|lia].
    destruct (Z.ltb_spec (vpage base) (vpage base + Z.of_nat (length (f :: fs)))); [|simpl in *; lia]. cbn [andb]. by rewrite Z.sub_diag. }
  assert (Hph : vmmVirtToPhys (vm_mem st) (tbl root) base = f).
  { change (translate st root base = f). rewrite translate_xl, Hxl by done. destruct kernel_flags_ok as [Hfl Hfn].
    rewrite phys_of_leaf by (done || unfold is_u64; lia). rewrite page_down_id by (done || unfold is_u64; lia).
    destruct Hr as (Ha & _). unfold page_aligned in Ha. lia. }
  rewrite Hph. destruct (Z.eqb_spec f 0); [lia|]. cbn [negb]. split; [done|].
  destruct (vmmUnmapPage_spec st root base W Hv) as (W' & _ & X' & U' & B' & _ & T'); [intros e k Hek; rewrite Hxl in Hek; by simplify_eq|]. done.
Qed.

Lemma release_step o st base f fs n :
  backed o st base (f :: fs) -> page_range base n -> Z.of_nat (length (f :: fs)) <= n -> b_xl o (vpath base) = None ->
  backed o (kp_release_page (tbl root) st base) (base + 4096) fs.
Proof.
  intros Hb Hr Hl Hx. destruct (release_page_eq o st base f fs n Hb Hr Hl) as (-> & W' & X' & U' & B' & T').
  destruct Hb as [W X F N U Nw Tb]. set (st1 := (vmmUnmapPage st (tbl root) base).1) in *.
  destruct (page_range_at base n 0 Hr ltac:(simpl in Hl; lia)) as (Hv & Hvp & _). rewrite Z.mul_0_l, Z.add_0_r in *.
  apply Forall_cons in F as [(F1 & F2 & F3 & F4) F]. apply NoDup_cons in N as [Nf N]. assert (Hf0 : 0 < f < 2 ^ 47) by apply F1.
  assert (Hfree : forall g, frame_addr g -> g <> f -> fa_used (vm_fa st1) g -> fa_used (fa_free (vm_fa st1) f) g).
  { intros g Hg Hne Hu. apply fa_free_used; [apply W'|unfold is_u64; lia|done|]. split; [done|congruence]. }
  constructor; cbn [vm_mem vm_fa].
  - apply free_nontable_wf; [done|done|by apply B'].
  - intros v Hvv. rewrite X' by (done || apply vpath_ok). rewrite X by done.
    assert (Hb4 : Z.of_nat (length (f :: fs)) = 1 + Z.of_nat (length fs)) by (simpl; lia). rewrite Hb4.
    assert (Hv4 : fs <> [] -> vpage (base + 4096) = vpage base + 1).
    { intros Hfs. destruct (page_range_at base n 1 Hr) as (_ & E & _); [destruct fs; [done|simpl in Hl; lia]|]. by rewrite Z.mul_1_l in E. }
    case_decide as Ev.
    + rewrite Ev, Hx. rewrite vpath_vpage in Ev by done. rewrite Ev.
      destruct (Z.leb_spec (vpage (base + 4096)) (vpage base)); [|done].
      destruct (Z.ltb_spec (vpage base) (vpage (base + 4096) + Z.of_nat (length fs))); [|done].
      destruct fs; [simpl in *; lia|]. rewrite Hv4 in * by done. lia.
    + rewrite vpath_vpage in Ev by done.
      destruct fs as [|g fs].
      { simpl length. destruct (Z.leb_spec (vpage base) (vpage v)), (Z.ltb_spec (vpage v) (vpage base + (1 + Z.of_nat 0))),
          (Z.leb_spec (vpage (base + 4096)) (vpage v)), (Z.ltb_spec (vpage v) (vpage (base + 4096) + Z.of_nat 0)); cbn [andb]; try done; lia. }
      rewrite Hv4 by done.
      destruct (Z.leb_spec (vpage base) (vpage v)), (Z.leb_spec (vpage base + 1) (vpage v)),
        (Z.ltb_spec (vpage v) (vpage base + (1 + Z.of_nat (length (g :: fs))))),
        (Z.ltb_spec (vpage v) (vpage base + 1 + Z.of_nat (length (g :: fs)))); cbn [andb]; try done; try lia.
      replace (Z.to_nat (vpage v - vpage base)) with (Datatypes.S (Z.to_nat (vpage v - (vpage base + 1)))) by lia. done.
  - rewrite Forall_forall in F |- *. intros g Hg. destruct (F g Hg) as (G1 & G2 & G3 & G4). split_and!; try done; [|by apply B'].
    apply Hfree; [done|intros ->; done|]. apply U'; done.
  - done.
  - intros g G1 G2 G3. destruct (U g G1 G2 G3) as [G4 G5]. split; [|by apply B']. apply Hfree; [done|intros ->; done|]. apply U'; done.
  - intros g G1 G2. apply fa_free_used in G2 as [G2 G3]; [|apply W'|unfold is_u64; lia|done]. destruct (T' g G1 G2) as [G4 G5].
    destruct (Nw g G1 G4) as [|[[->|]%elem_of_cons|]]; auto. done.
  - intros g G1 G2 G3 G4. apply fa_free_used in G4 as [G4 _]; [|apply W'|unfold is_u64; lia|done]. destruct (T' g G1 G4) as [G5 G6]. auto.
Qed.

(** A frame that is free, and no table. *)
Definition gone st (g : Z) : Prop := frame_addr g /\ not_table (vm_mem st) root g /\ ~ fa_used (vm_fa st) g.

Lemma release_step_gone o st base f fs n :
  backed o st base (f :: fs) -> page_range base n -> Z.of_nat (length (f :: fs)) <= n ->
  gone (kp_release_page (tbl root) st base) f /\ forall g, gone st g -> gone (kp_release_page (tbl root) st base) g.
Proof.
  intros Hb Hr Hl. destruct (release_page_eq o st base f fs n Hb Hr Hl) as (-> & W' & X' & U' & B' & T').
  pose proof (bk_frames _ _ _ _ Hb) as F. apply Forall_cons in F as [(F1 & F2 & F3 & F4) _]. assert (Hf0 : 0 < f < 2 ^ 47) by apply F1.
  unfold gone. cbn [vm_mem vm_fa]. split.
  - split_and!; [done|by apply B'|]. rewrite fa_free_used by (done || apply W' || (unfold is_u64; lia)). by intros [_ ?].
  - intros g (G1 & G2 & G3). split_and!; [done|by apply B'|]. rewrite fa_free_used by (done || apply W' || (unfold is_u64; lia)).
    rewrite U' by done. by intros [? _].
Qed.

Lemma release_pages_ok o base n fs : forall st b,
  page_range base n -> b = base + (n - Z.of_nat (length fs)) * 4096 -> Z.of_nat (length fs) <= n ->
  (forall i, 0 <= i < n -> b_xl o (vpath (base + i * 4096)) = None) ->
  backed o st b fs ->
  let st' := foldl (fun st j => kp_release_page (tbl root) st (u64 (base + j * PAGE_SIZE))) st
    (seqZ (n - Z.of_nat (length fs)) (Z.of_nat (length fs))) in
  (exists b', backed o st' b' []) /\ Forall (gone st') fs /\ forall g, gone st g -> gone st' g.
Proof.
  induction fs as [|f fs IH]; intros st b Hr Hb Hl Hx Hbk; [split; [by exists b|done]|].
  rewrite length_cons, Nat2Z.inj_succ in *. set (k := n - Z.succ (Z.of_nat (length fs))) in *.
  rewrite seqZ_cons by lia. cbn [foldl]. destruct (page_range_at base n k Hr ltac:(lia)) as (Hu & Hvp & _).
  assert (Eb : u64 (base + k * PAGE_SIZE) = b) by (unfold PAGE_SIZE; rewrite u64_id by done; done). rewrite !Eb.
  assert (Hr2 : page_range b (Z.succ (Z.of_nat (length fs)))).
  { destruct Hr as (H1 & H2 & H3 & H4 & H5). unfold page_range, page_aligned in *. split_and!; try lia.
    - subst b. by rewrite Z.mod_add by lia.
    - assert (b mod 2 ^ 48 = base mod 2 ^ 48 + k * 4096) as ->; [|lia].
      subst b. symmetry. apply Z.mod_unique with (base / 2 ^ 48); [|divlia]. left. pose proof (Z.mod_pos_bound base (2 ^ 48) ltac:(lia)). lia. }
  assert (Hbk' : backed o (kp_release_page (tbl root) st b) (b + 4096) fs)
    by (apply (release_step o st b f fs _ Hbk Hr2); [rewrite length_cons; lia|rewrite Hb; apply Hx; lia]).
  destruct (release_step_gone o st b f fs _ Hbk Hr2) as [Hgf Hg]; [rewrite length_cons; lia|].
  destruct (IH (kp_release_page (tbl root) st b) (b + 4096) Hr ltac:(lia) ltac:(lia) Hx Hbk') as (Hex & Hgs & Hgk).
  replace (Z.succ k) with (n - Z.of_nat (length fs)) by lia. replace (Z.pred (Z.succ (Z.of_nat (length fs)))) with (Z.of_nat (length fs)) by lia.
  split; [done|]. split; [constructor; auto|auto].
Qed.

Lemma release_mapped_ok o st base fs :
  page_range base (Z.of_nat (length fs)) ->
  (forall i, 0 <= i < Z.of_nat (length fs) -> b_xl o (vpath (base + i * 4096)) = None) ->
  backed o st base fs ->
  let st' := kp_release (tbl root) st base (Z.of_nat (length fs)) in
  (exists b', backed o st' b' []) /\ Forall (gone st') fs.
Proof.
  intros Hr Hx Hb. pose proof (release_pages_ok o base (Z.of_nat (length fs)) fs st base Hr) as Hp.
  rewrite Z.sub_diag in Hp. unfold kp_release, zfor. rewrite Z.sub_0_r. destruct Hp as (H1 & H2 & _); [lia|lia|done|done|done].
Qed.

Lemma page_range_sub base n m : page_range base n -> 0 <= m <= n -> page_range base m.
Proof. intros (H1 & H2 & H3 & H4 & H5) Hm. split_and!; try done; lia. Qed.

Lemma kp_map_ok o base n m : forall st fs,
  page_range base n -> n = Z.of_nat (length fs) + Z.of_nat m ->
  (forall v, is_u64 v -> vpage base <= vpage v < vpage base + n -> no_huge0 o v) ->
  (forall i, 0 <= i < n -> b_xl o (vpath (base + i * 4096)) = None) ->
  backed o st base fs -> still_used o st ->
  let r := kp_map (tbl root) m st base (Z.of_nat (length fs)) in
  ((r.2 = true /\ exists fs', length fs' = Z.to_nat n /\ backed o r.1 base fs') \/
   (r.2 = false /\ exists b', backed o r.1 b' [])).
Proof.
  induction m as [|m IH]; intros st fs Hr Hn Hh Hx Hb Hm; simpl kp_map.
  { left. split; [done|]. exists fs. split; [lia|done]. }
  destruct (fa_alloc (vm_fa st)) as [fa1 frame] eqn:Ea.
  destruct (Z.eqb_spec frame 0) as [->|Hne].
  - pose proof (fa_alloc_null _ (pw_ok _ _ (bk_wf _ _ _ _ Hb))) as Hnull. rewrite Ea in Hnull. specialize (Hnull eq_refl). cbn [fst] in Hnull. subst fa1.
    right. split; [done|]. apply release_mapped_ok; [apply (page_range_sub _ n); [done|lia]|intros i Hi; apply Hx; lia|by destruct st].
  - pose proof (back_step o st base fs n fa1 frame Hb Hm Hr ltac:(lia) Hh Ea Hne) as Hs. cbn zeta in Hs.
    destruct (page_range_at base n (Z.of_nat (length fs)) Hr ltac:(lia)) as (Hu & _).
    unfold PAGE_SIZE. rewrite u64_id by done.
    destruct (vmmMapPage _ _ _ _ _) as [vm r0]. cbn [fst snd] in Hs. destruct Hs as [(-> & Hb1 & Hm1)|[-> Hb1]]; cbn [Z.eqb negb].
    + destruct (IH vm (fs ++ [frame]) Hr) as [Hres|Hres]; try done; rewrite ?length_app in *; simpl in *; try lia.
      * left. replace (Z.of_nat (length fs) + 1) with (Z.of_nat (length fs + 1)) by lia. done.
      * right. replace (Z.of_nat (length fs) + 1) with (Z.of_nat (length fs + 1)) by lia. done.
    + right. split; [done|]. apply release_mapped_ok; [apply (page_range_sub _ n); [done|lia]|intros i Hi; apply Hx; lia|exact Hb1].
Qed.
End Pages.
