(* ===== verification/KHeap.v ===== *)
(** * The kernel heap (src/kernel/mem/heap.c): operations

    What the kernel keeps in the pages of the heap is a store of cells: a
    field of a slab header, of a large header or of a node of the list of
    free address ranges is the cell at its address, which is always accessed
    at the same width; a free object's first word is a cell too.  The static
    variables that the code takes the address of are cells as well.  Pages
    come from the page tables and the frame allocator of [PageTable] and
    [Frames].  [kmalloc], [kfree] and the two functions between them call
    each other, so each is given in terms of its callees, and [heap_call]
    ties the knot with a common fuel; [None] is no fuel. *)

From Stdlib Require Import ZArith Lia Bool.
From stdpp Require Import base list gmap.
From S2P Require Import Prelude Mem Frames PageTable KPages.

Definition KERNEL_HEAP_BASE : Z := 0xFFFF900000000000.
Definition SLAB_MAGIC : Z := 0x51AB0001.
Definition LARGE_MAGIC : Z := 0x1A26E001.
Definition NUM_SIZE_CLASSES : Z := 8.
Definition MAX_SLAB_SIZE : Z := 2048.
Definition g_size_classes : list Z := [16; 32; 64; 128; 256; 512; 1024; 2048].
Definition sizeof_Slab : Z := 64.
Definition sizeof_LargeAllocHeader : Z := 64.
Definition sizeof_VirtualFreeNode : Z := 24.

(** Offsets of the fields of [Slab], [LargeAllocHeader] and [VirtualFreeNode]. *)
Definition o_magic : Z := 0.
Definition o_object_size : Z := 4.
Definition o_total_objects : Z := 8.
Definition o_free_objects : Z := 12.
Definition o_free_list : Z := 16.
Definition o_next : Z := 24.
Definition o_prev : Z := 32.
Definition o_num_pages : Z := 4.
Definition o_user_size : Z := 8.
Definition o_virt_addr : Z := 0.
Definition o_page_count : Z := 8.
Definition o_node_next : Z := 16.

(** Where [g_free_virtual_ranges] and the [slabs] fields of [g_caches] are:
    addresses of the kernel image, which is not part of the heap. *)
Definition a_free_ranges : Z := -8.
Definition a_slabs (i : Z) : Z := - 16 * (i + 1).

Section Heap.
Context {S : Type} `{FrameAllocator S}.

Record KHeap := mkKHeap { cells : gmap Z Z; g_heap_virtual_cursor : Z; kh_vm : Vm S; kh_mem : mem }.

Definition cell (h : KHeap) (a : Z) : Z := default 0 (cells h !! a).
Definition set_cell (h : KHeap) (a v : Z) : KHeap :=
  mkKHeap (<[a := v]> (cells h)) (g_heap_virtual_cursor h) (kh_vm h) (kh_mem h).
Definition set_cursor (h : KHeap) (v : Z) : KHeap := mkKHeap (cells h) v (kh_vm h) (kh_mem h).
Definition set_vm (h : KHeap) (v : Vm S) : KHeap := mkKHeap (cells h) (g_heap_virtual_cursor h) v (kh_mem h).
Definition set_kmem (h : KHeap) (m : mem) : KHeap := mkKHeap (cells h) (g_heap_virtual_cursor h) (kh_vm h) m.

(** [pml4] is the kernel's page directory throughout. *)
Context (pml4 : Z).

(** ** Pages *)

(** Unmapping the page at [v] and freeing its frame. *)
Definition release_page (h : KHeap) (v : Z) : KHeap := set_vm h (kp_release_page pml4 (kh_vm h) v).

(** The first [n] pages at [base]. *)
Definition release_pages (h : KHeap) (base n : Z) : KHeap := set_vm h (kp_release pml4 (kh_vm h) base n).

(** The mapping loop. *)
Definition map_frames (n : nat) (h : KHeap) (base i : Z) : KHeap * bool :=
  let '(vm, ok) := kp_map pml4 n (kh_vm h) base i in (set_vm h vm, ok).

(** ** The list of free address ranges *)

(** The link at which a range at [virt_addr] belongs. *)
Fixpoint insert_at (fuel : nat) (h : KHeap) (curr virt_addr : Z) : option Z :=
  match fuel with
  | O => None
  | Datatypes.S k =>
      let n := cell h curr in
      if negb (n =? 0) && (cell h (n + o_virt_addr) <? virt_addr) then insert_at k h (n + o_node_next) virt_addr else Some curr
  end.

(** The link to the first range of at least [count] pages, 0 when there is none. *)
Fixpoint range_for (fuel : nat) (h : KHeap) (curr count : Z) : option Z :=
  match fuel with
  | O => None
  | Datatypes.S k =>
      let n := cell h curr in
      if n =? 0 then Some 0
      else if count <=? cell h (n + o_page_count) then Some curr
      else range_for k h (n + o_node_next) count
  end.

(** ** Slabs *)

(** [(page + sizeof(Slab) + object_size - 1) & ~(object_size - 1)] *)
Definition data_start (page object_size : Z) : Z :=
  Z.land (u64 (page + sizeof_Slab + object_size - 1)) (u64 (Z.lnot (object_size - 1))).
Definition slab_capacity (page object_size : Z) : Z :=
  u32 ((PAGE_SIZE - (data_start page object_size - page)) / object_size).

(** Linking the objects: [n] more after [curr]. *)
Fixpoint carve (n : nat) (h : KHeap) (curr object_size : Z) : KHeap :=
  match n with
  | O => set_cell h curr 0
  | Datatypes.S k => carve k (set_cell h curr (curr + object_size)) (curr + object_size) object_size
  end.

Definition init_slab (h : KHeap) (page object_size : Z) : KHeap :=
  let h := set_cell h (page + o_magic) SLAB_MAGIC in
  let h := set_cell h (page + o_object_size) (u32 object_size) in
  let h := set_cell h (page + o_next) 0 in
  let h := set_cell h (page + o_prev) 0 in
  let d := data_start page object_size in
  let capacity := slab_capacity page object_size in
  let h := set_cell h (page + o_total_objects) capacity in
  let h := set_cell h (page + o_free_objects) capacity in
  let h := carve (Z.to_nat (u32 (capacity - 1))) h d object_size in
  set_cell h (page + o_free_list) d.

(** The first class of at least [size]; the first of exactly [size]. *)
Fixpoint class_for (l : list Z) (i size : Z) : Z :=
  match l with c :: r => if c <? size then class_for r (i + 1) size else i | [] => i end.
Fixpoint class_of (l : list Z) (i size : Z) : Z :=
  match l with c :: r => if negb (c =? size) then class_of r (i + 1) size else i | [] => i end.
Definition class_size (i : Z) : Z := default 0 (g_size_classes !! Z.to_nat i).

(** The first slab of a list with a free object, 0 when there is none. *)
Fixpoint usable_slab (fuel : nat) (h : KHeap) (slab : Z) : option Z :=
  if slab =? 0 then Some 0
  else match fuel with
       | O => None
       | Datatypes.S k => if cell h (slab + o_free_objects) =? 0 then usable_slab k h (cell h (slab + o_next)) else Some slab
       end.

Definition push_slab (h : KHeap) (idx slab : Z) : KHeap :=
  let head := cell h (a_slabs idx) in
  let h := set_cell h (slab + o_next) head in
  let h := if negb (head =? 0) then set_cell h (head + o_prev) slab else h in
  set_cell h (a_slabs idx) slab.

Definition take_object (h : KHeap) (slab : Z) : KHeap * Z :=
  let obj := cell h (slab + o_free_list) in
  let h := set_cell h (slab + o_free_list) (cell h obj) in
  (set_cell h (slab + o_free_objects) (u32 (cell h (slab + o_free_objects) - 1)), obj).

Definition put_object (h : KHeap) (slab ptr : Z) : KHeap :=
  let h := set_cell h ptr (cell h (slab + o_free_list)) in
  let h := set_cell h (slab + o_free_list) ptr in
  set_cell h (slab + o_free_objects) (u32 (cell h (slab + o_free_objects) + 1)).

Definition unlink_slab (h : KHeap) (idx slab : Z) : KHeap :=
  let n := cell h (slab + o_next) in
  let p := cell h (slab + o_prev) in
  let h := if negb (p =? 0) then set_cell h (p + o_next) n else set_cell h (a_slabs idx) n in
  if negb (n =? 0) then set_cell h (n + o_prev) p else h.

Definition heap_init (h : KHeap) : KHeap :=
  zfor 0 NUM_SIZE_CLASSES (fun i h => set_cell h (a_slabs i) 0) (set_cell (set_cursor h KERNEL_HEAP_BASE) a_free_ranges 0).

(** Lists of the heap are walked within one step per cell. *)
Definition walk_fuel (h : KHeap) : nat := Datatypes.S (base.size (cells h)).

(** ** The recursive part

    One definition per function, in terms of the functions it calls. *)
Definition kmalloc_body (alloc_virtual_pages : KHeap -> Z -> option (KHeap * Z)) (h : KHeap) (size : Z) : option (KHeap * Z) :=
  if size =? 0 then Some (h, 0)
  else if size <=? MAX_SLAB_SIZE then
    let idx := class_for g_size_classes 0 size in
    slab ← usable_slab (walk_fuel h) h (cell h (a_slabs idx));
    if negb (slab =? 0) then Some (take_object h slab)
    else
      '(h1, page) ← alloc_virtual_pages h 1;
      if page =? 0 then Some (h1, 0)
      else Some (take_object (push_slab (init_slab h1 page (class_size idx)) idx page) page)
  else
    let total_size := u64 (sizeof_LargeAllocHeader + size) in
    let pages := u64 (total_size + PAGE_SIZE - 1) / PAGE_SIZE in
    '(h1, virt) ← alloc_virtual_pages h pages;
    if virt =? 0 then Some (h1, 0)
    else
      let h2 := set_cell h1 (virt + o_magic) LARGE_MAGIC in
      let h3 := set_cell h2 (virt + o_num_pages) (u32 pages) in
      Some (set_cell h3 (virt + o_user_size) size, virt + sizeof_LargeAllocHeader).

Definition alloc_virtual_pages_body (kfree : KHeap -> Z -> option KHeap) (recycle_virtual_range : KHeap -> Z -> Z -> option KHeap)
    (h : KHeap) (count : Z) : option (KHeap * Z) :=
  curr ← range_for (walk_fuel h) h a_free_ranges count;
  '(h1, virt_base) ←
    (if curr =? 0 then Some (h, 0)
     else
       let node := cell h curr in
       let base := cell h (node + o_virt_addr) in
       if cell h (node + o_page_count) =? count then
         h1 ← kfree (set_cell h curr (cell h (node + o_node_next))) node; Some (h1, base)
       else
         let h1 := set_cell h (node + o_virt_addr) (u64 (base + count * PAGE_SIZE)) in
         Some (set_cell h1 (node + o_page_count) (cell h1 (node + o_page_count) - count), base));
  let '(h2, virt_base) :=
    if virt_base =? 0
    then (set_cursor h1 (u64 (g_heap_virtual_cursor h1 + count * PAGE_SIZE)), g_heap_virtual_cursor h1)
    else (h1, virt_base) in
  let '(h3, ok) := map_frames (Z.to_nat count) h2 virt_base 0 in
  if (ok : bool) then Some (h3, virt_base)
  else h4 ← recycle_virtual_range h3 virt_base count; Some (h4, 0).

Definition recycle_virtual_range_body (kmalloc : KHeap -> Z -> option (KHeap * Z)) (merge_ranges : KHeap -> Z -> option KHeap)
    (h : KHeap) (virt_addr page_count : Z) : option KHeap :=
  '(h1, node) ← kmalloc h sizeof_VirtualFreeNode;
  if node =? 0 then Some h1
  else
    let h2 := set_cell (set_cell (set_cell h1 (node + o_virt_addr) virt_addr) (node + o_page_count) page_count) (node + o_node_next) 0 in
    curr ← insert_at (walk_fuel h2) h2 a_free_ranges virt_addr;
    let h3 := set_cell (set_cell h2 (node + o_node_next) (cell h2 curr)) curr node in
    merge_ranges h3 (cell h3 a_free_ranges).

(** One turn of the merging loop at [it], and the rest of it. *)
Definition merge_ranges_body (kfree merge_ranges : KHeap -> Z -> option KHeap) (h : KHeap) (it : Z) : option KHeap :=
  let n := cell h (it + o_node_next) in
  if (it =? 0) || (n =? 0) then Some h
  else if u64 (cell h (it + o_virt_addr) + cell h (it + o_page_count) * PAGE_SIZE) =? cell h (n + o_virt_addr) then
    let h1 := set_cell h (it + o_page_count) (u64 (cell h (it + o_page_count) + cell h (n + o_page_count))) in
    let h2 := set_cell h1 (it + o_node_next) (cell h1 (n + o_node_next)) in
    h3 ← kfree h2 n; merge_ranges h3 it
  else merge_ranges h n.

Definition kfree_body (recycle_virtual_range : KHeap -> Z -> Z -> option KHeap) (h : KHeap) (ptr : Z) : option KHeap :=
  if ptr =? 0 then Some h
  else
    let page_base := page_down ptr in
    let magic := cell h (page_base + o_magic) in
    if magic =? SLAB_MAGIC then
      let h1 := put_object h page_base ptr in
      if (cell h1 (page_base + o_free_objects) =? cell h1 (page_base + o_total_objects))
         && (negb (cell h1 (page_base + o_prev) =? 0) || negb (cell h1 (page_base + o_next) =? 0)) then
        let idx := class_of g_size_classes 0 (cell h1 (page_base + o_object_size)) in
        if idx <? NUM_SIZE_CLASSES
        then recycle_virtual_range (release_page (unlink_slab h1 idx page_base) page_base) page_base 1
        else Some h1
      else Some h1
    else if magic =? LARGE_MAGIC then
      let pages := cell h (page_base + o_num_pages) in
      recycle_virtual_range (release_pages h page_base pages) page_base pages
    else Some h.

(** The calls among them, each one deeper. *)
Inductive Call :=
| CMalloc (size : Z)
| CAlloc (count : Z)
| CRecycle (virt_addr page_count : Z)
| CMerge (it : Z)
| CFree (ptr : Z).

Definition void (r : option KHeap) : option (KHeap * Z) := (fun h => (h, 0)) <$> r.

Fixpoint heap_call (fuel : nat) (c : Call) (h : KHeap) : option (KHeap * Z) :=
  match fuel with
  | O => None
  | Datatypes.S k =>
      let kfree h p := fst <$> heap_call k (CFree p) h in
      let recycle h v n := fst <$> heap_call k (CRecycle v n) h in
      match c with
      | CMalloc size => kmalloc_body (fun h n => heap_call k (CAlloc n) h) h size
      | CAlloc count => alloc_virtual_pages_body kfree recycle h count
      | CRecycle v n => void (recycle_virtual_range_body (fun h n => heap_call k (CMalloc n) h) (fun h it => fst <$> heap_call k (CMerge it) h) h v n)
      | CMerge it => void (merge_ranges_body kfree (fun h it => fst <$> heap_call k (CMerge it) h) h it)
      | CFree p => void (kfree_body recycle h p)
      end
  end.

Definition kmalloc (fuel : nat) (h : KHeap) (size : Z) : option (KHeap * Z) := heap_call fuel (CMalloc size) h.
Definition alloc_virtual_pages (fuel : nat) (h : KHeap) (count : Z) : option (KHeap * Z) := heap_call fuel (CAlloc count) h.
Definition recycle_virtual_range (fuel : nat) (h : KHeap) (v n : Z) : option KHeap := fst <$> heap_call fuel (CRecycle v n) h.
Definition merge_ranges (fuel : nat) (h : KHeap) (it : Z) : option KHeap := fst <$> heap_call fuel (CMerge it) h.
Definition kfree (fuel : nat) (h : KHeap) (ptr : Z) : option KHeap := fst <$> heap_call fuel (CFree ptr) h.

Definition kzalloc (fuel : nat) (h : KHeap) (size : Z) : option (KHeap * Z) :=
  '(h1, p) ← kmalloc fuel h size;
  if p =? 0 then Some (h1, 0)
  else Some (set_kmem h1 (zfor 0 size (fun i m => wr8 m (p + i) 0) (kh_mem h1)), p).

Definition krealloc (fuel : nat) (h : KHeap) (ptr new_size : Z) : option (KHeap * Z) :=
  if ptr =? 0 then kmalloc fuel h new_size
  else if new_size =? 0 then h1 ← kfree fuel h ptr; Some (h1, 0)
  else
    let page_base := page_down ptr in
    let magic := cell h (page_base + o_magic) in
    let old_size := if magic =? SLAB_MAGIC then cell h (page_base + o_object_size) else cell h (page_base + o_user_size) in
    if negb (magic =? SLAB_MAGIC) && negb (magic =? LARGE_MAGIC) then Some (h, 0)
    else if new_size <=? old_size then Some (h, ptr)
    else
      '(h1, new_ptr) ← kmalloc fuel h new_size;
      if new_ptr =? 0 then Some (h1, 0)
      else
        let h2 := set_kmem h1 (zfor 0 old_size (fun i m => wr8 m (new_ptr + i) (rd8 m (ptr + i))) (kh_mem h1)) in
        h3 ← kfree fuel h2 ptr; Some (h3, new_ptr).

End Heap.
