(* ===== verification/KHeapSlab.v ===== *)
(** * The kernel heap: pages and slabs

    Pages mapped for the heap, and the slabs of mem/heap.c. *)

From Stdlib Require Import ZArith Lia Bool.
From stdpp Require Import base list gmap.
From S2P Require Import Prelude Mem Frames Pmm PageTable PtWalk PtOps AddrSpace PageFault Dll KPages KHeap.

(** ** The kernel heap: its pages

    [map_frames] backs a range of heap addresses with fresh frames, or with
    none. *)

Section Pages.
Context {S : Type} `{FrameAllocator S} `{!FrameAllocatorLaws S}.
Implicit Types (st : Vm S) (h : KHeap (S := S)).
Context (root : Z).

(** The heap's own data are not touched. *)
Definition same_data h h' : Prop :=
  cells h' = cells h /\ g_heap_virtual_cursor h' = g_heap_virtual_cursor h /\ kh_mem h' = kh_mem h.

Lemma map_frames_ok (o : Before) base n m h fs :
  page_range base n -> n = Z.of_nat (length fs) + Z.of_nat m ->
  (forall v, is_u64 v -> vpage base <= vpage v < vpage base + n -> no_huge0 o v) ->
  (forall i, 0 <= i < n -> b_xl o (vpath (base + i * 4096)) = None) ->
  backed root o (kh_vm h) base fs -> still_used o (kh_vm h) ->
  let r := map_frames (tbl root) m h base (Z.of_nat (length fs)) in
  same_data h r.1 /\
  ((r.2 = true /\ exists fs', length fs' = Z.to_nat n /\ backed root o (kh_vm r.1) base fs') \/
   (r.2 = false /\ exists b', backed root o (kh_vm r.1) b' [])).
Proof.
  intros Hr Hn Hh Hx Hb Hm. pose proof (kp_map_ok root o base n m (kh_vm h) fs Hr Hn Hh Hx Hb Hm) as Hp. unfold map_frames.
  destruct (kp_map _ _ _ _ _) as [vm ok]. split; [done|exact Hp].
Qed.

(** Backing [n] unmapped kernel pages with memory is all or nothing.
    On success page [i] of the range translates to the [i]-th of [n]
    different frames, none of which was in use, and every other address
    translates as before; when a frame or a page table cannot be had, every
    address translates as before.  Either way the tables are well formed,
    frames in use that are no tables stay in use, and nothing the heap keeps
    in its pages changes. *)
Theorem heap_pages_all_or_nothing h base n :
  pt_wf (kh_vm h) root -> page_range base n ->
  (forall v, is_u64 v -> vpage base <= vpage v < vpage base + n -> no_huge (vm_mem (kh_vm h)) root v) ->
  (forall i, 0 <= i < n -> xl (vm_mem (kh_vm h)) root (vpath (base + i * 4096)) = None) ->
  let r := map_frames (tbl root) (Z.to_nat n) h base 0 in
  pt_wf (kh_vm r.1) root /\ same_data h r.1 /\
  (forall f, frame_addr f -> fa_used (vm_fa (kh_vm h)) f -> not_table (vm_mem (kh_vm h)) root f -> fa_used (vm_fa (kh_vm r.1)) f) /\
  ((r.2 = true /\ exists fs, length fs = Z.to_nat n /\ NoDup fs /\
      Forall (fun f => frame_addr f /\ ~ fa_used (vm_fa (kh_vm h)) f /\ fa_used (vm_fa (kh_vm r.1)) f) fs /\
      (forall i f, fs !! Z.to_nat i = Some f -> 0 <= i < n -> translate (kh_vm r.1) root (base + i * 4096) = f) /\
      (forall v, is_u64 v -> ~ vpage base <= vpage v < vpage base + n -> translate (kh_vm r.1) root v = translate (kh_vm h) root v)) \/
   (r.2 = false /\ forall v, is_u64 v -> translate (kh_vm r.1) root v = translate (kh_vm h) root v)).
Proof.
  intros W Hr Hh Hx r.
  destruct (map_frames_ok (before root (kh_vm h)) base n (Z.to_nat n) h [] Hr) as [Hd Hc];
    [simpl; destruct Hr as (_ & _ & ? & _); lia|done|done|by apply backed_refl|by intros f|].
  change (Z.of_nat (length [])) with 0 in *. fold r in Hd, Hc.
  destruct Hc as [[E (fs & Hl & Hb)]|[E (b' & Hb)]]; (split; [apply Hb|split; [done|split; [intros f F1 F2 F3; by apply (bk_used _ _ _ _ _ Hb)|]]]);
    [left|right]; (split; [done|]).
  - exists fs. split; [done|]. split; [apply Hb|]. split; [|split].
    + eapply Forall_impl; [apply Hb|]. intros f (F1 & F2 & F3 & _). done.
    + intros i f Hi Hi0. pose proof (bk_frames _ _ _ _ _ Hb) as HF. rewrite Forall_lookup in HF. destruct (HF _ _ Hi) as (F1 & _).
      destruct (page_range_at base n i Hr Hi0) as (Hu & Hvp & Hpd). destruct kernel_flags_ok as [Hfl Hfn].
      assert (0 < f < 2 ^ 47) by apply F1. assert (Hfm : f mod 4096 = 0) by apply F1.
      rewrite translate_xl by apply Hb. rewrite (bk_xl _ _ _ _ _ Hb) by done. rewrite Hvp, Hl, Z2Nat.id by lia.
      destruct (Z.leb_spec (vpage base) (vpage base + i)); [|lia]. destruct (Z.ltb_spec (vpage base + i) (vpage base + n)); [|lia]. cbn [andb].
      replace (vpage base + i - vpage base) with i by lia. rewrite Hi. cbn [fmap option_fmap option_map].
      rewrite phys_of_leaf by (done || unfold is_u64; lia). rewrite page_down_id by (done || unfold is_u64; lia).
      destruct Hr as (Ha & _). unfold page_aligned in Ha. rewrite Z.mod_add by lia. lia.
    + intros v Hv Hn. apply translate_ext; [done|apply Hb|]. rewrite (bk_xl _ _ _ _ _ Hb) by done. rewrite Hl, Z2Nat.id by (destruct Hr as (_ & _ & ? & _); lia).
      destruct (Z.leb_spec (vpage base) (vpage v)), (Z.ltb_spec (vpage v) (vpage base + n)); cbn [andb]; lia || done.
  - intros v Hv. apply translate_ext; [done|apply Hb|]. rewrite (bk_xl _ _ _ _ _ Hb) by done.
    change (Z.of_nat (length [])) with 0. destruct (Z.leb_spec (vpage b') (vpage v)), (Z.ltb_spec (vpage v) (vpage b' + 0)); cbn [andb]; try done. lia.
Qed.
End Pages.

Definition demo_kheap : KHeap := mkKHeap ∅ KERNEL_HEAP_BASE demo_vm ∅.

Lemma heap_pages_all_or_nothing_witness :
  pt_wf (kh_vm (map_frames (tbl demo_root) 3 demo_kheap KERNEL_HEAP_BASE 0).1) demo_root /\
  (map_frames (tbl demo_root) 3 demo_kheap KERNEL_HEAP_BASE 0).2 = true.
Proof.
  destruct (heap_pages_all_or_nothing demo_root demo_kheap KERNEL_HEAP_BASE 3 demo_wf) as (W & _).
  - unfold page_range, KERNEL_HEAP_BASE. split_and!; done || lia.
  - intros v Hv _. apply demo_no_huge.
  - intros i Hi. apply demo_absent.
  - split; [exact W|]. vm_compute. reflexivity.
Defined.

(** ** The kernel heap: slabs and caches

    The representation of a slab's free objects and of a cache's list of
    slabs, what [kmalloc] and [kfree] do with them when no page has to be
    mapped or unmapped, the making of a new slab, and what happens when
    memory runs out. *)

Section Slabs.
Context {S : Type} `{FrameAllocator S}.
Implicit Types (h : KHeap (S := S)).

Lemma cell_set h a v x : cell (set_cell h a v) x = if x =? a then v else cell h x.
Proof.
  unfold cell, set_cell. simpl. destruct (Z.eqb_spec x a) as [->|].
  - by rewrite lookup_insert_eq.
  - by rewrite lookup_insert_ne.
Qed.

(** ** Size classes *)
Definition is_class (c : Z) : Prop := c ∈ g_size_classes.

Lemma class_cases c : is_class c -> exists k, 4 <= k <= 11 /\ c = 2 ^ k.
Proof.
  unfold is_class, g_size_classes. intros Hc. repeat (apply elem_of_cons in Hc as [->|Hc]; [by (exists 4 + exists 5 + exists 6 + exists 7 + exists 8 + exists 9 + exists 10 + exists 11)|]).
  by apply elem_of_nil in Hc.
Qed.

Lemma class_for_ok size : 0 < size <= MAX_SLAB_SIZE ->
  let i := class_for g_size_classes 0 size in
  0 <= i < NUM_SIZE_CLASSES /\ is_class (class_size i) /\ size <= class_size i /\
  class_of g_size_classes 0 (class_size i) = i.
Proof.
  unfold MAX_SLAB_SIZE, NUM_SIZE_CLASSES, is_class. intros Hs. simpl.
  repeat (match goal with |- context [?c <? size] => destruct (Z.ltb_spec c size) end; [|split_and!; try done; try lia; vm_compute; repeat constructor]).
  lia.
Qed.

(** ** The objects of a slab *)
Definition slots (page osz : Z) : list Z := (fun i => data_start page osz + i * osz) <$> seqZ 0 (slab_capacity page osz).

Lemma data_start_spec page k : 0 <= page -> page + 8192 < 2 ^ 64 -> page mod 4096 = 0 -> 4 <= k <= 11 ->
  data_start page (2 ^ k) = page + (if 2 ^ k <? 64 then 64 else 2 ^ k) /\
  slab_capacity page (2 ^ k) = (4096 - (if 2 ^ k <? 64 then 64 else 2 ^ k)) / 2 ^ k.
Proof.
  intros H0 H1 Hm Hk. assert (Hd : data_start page (2 ^ k) = page + (if 2 ^ k <? 64 then 64 else 2 ^ k)).
  { unfold data_start, sizeof_Slab. assert (2 ^ k <= 2 ^ 11) by (apply Z.pow_le_mono_r; lia). assert (0 < 2 ^ k) by lia.
    rewrite u64_id by (unfold is_u64; lia). rewrite land_mask_pow2 by (unfold is_u64; lia).
    assert (Hc : k = 4 \/ k = 5 \/ k = 6 \/ k = 7 \/ k = 8 \/ k = 9 \/ k = 10 \/ k = 11) by lia.
    destruct Hc as [-> |[-> |[-> |[-> |[-> |[-> |[-> | ->]]]]]]]; simpl; divlia. }
  split; [done|]. unfold slab_capacity. rewrite Hd. unfold PAGE_SIZE, u32.
  assert (Hc : k = 4 \/ k = 5 \/ k = 6 \/ k = 7 \/ k = 8 \/ k = 9 \/ k = 10 \/ k = 11) by lia.
  destruct Hc as [-> |[-> |[-> |[-> |[-> |[-> |[-> | ->]]]]]]]; simpl; rewrite Z.mod_small; divlia.
Qed.

(** Pages of the heap. *)
Definition heap_page (page : Z) : Prop := 0 < page /\ page + 8192 < 2 ^ 64 /\ page mod 4096 = 0.

Lemma slab_layout page osz : heap_page page -> is_class osz ->
  exists n, slab_capacity page osz = Z.of_nat (Datatypes.S n) /\ page + 64 <= data_start page osz /\
    data_start page osz + Z.of_nat (Datatypes.S n) * osz <= page + 4096 /\ data_start page osz mod osz = 0 /\ 16 <= osz <= 2048 /\
    Z.of_nat (Datatypes.S n) <= 252.
Proof.
  intros (H0 & H1 & Hm) Hc. destruct (class_cases _ Hc) as (k & Hk & ->).
  destruct (data_start_spec page k ltac:(lia) H1 Hm Hk) as [-> ->].
  assert (Hc' : k = 4 \/ k = 5 \/ k = 6 \/ k = 7 \/ k = 8 \/ k = 9 \/ k = 10 \/ k = 11) by lia.
  destruct Hc' as [-> |[-> |[-> |[-> |[-> |[-> |[-> | ->]]]]]]]; simpl;
    [exists 251%nat|exists 125%nat|exists 62%nat|exists 30%nat|exists 14%nat|exists 6%nat|exists 2%nat|exists 0%nat]; simpl; split_and!; divlia.
Qed.

(** The objects of a slab of any size class lie inside its page and
    behind its header, are aligned to their size, and do not overlap. *)
Theorem slab_objects_in_page page osz x y : heap_page page -> is_class osz -> x ∈ slots page osz -> y ∈ slots page osz ->
  page + sizeof_Slab <= x /\ x + osz <= page + PAGE_SIZE /\ x mod osz = 0 /\ (x = y \/ x + osz <= y \/ y + osz <= x).
Proof.
  intros Hp Hc Hx Hy. destruct (slab_layout page osz Hp Hc) as (n & En & H1 & H2 & H3 & H4 & _).
  unfold slots in *. apply list_elem_of_fmap in Hx as (i & -> & Hi). apply list_elem_of_fmap in Hy as (j & -> & Hj).
  apply elem_of_seqZ in Hi, Hj. rewrite En in *. unfold sizeof_Slab, PAGE_SIZE. split_and!; [nia|nia|rewrite Z.mod_add by lia; done|].
  destruct (Z.lt_total i j) as [Hlt|[-> |Hlt]]; [right; left; nia|by left|right; right; nia].
Qed.
(** ** A slab and its free objects *)
Fixpoint chain h (l : list Z) : Prop :=
  match l with [] => True | x :: r => cell h x = first_or 0 r /\ chain h r end.

Record slab_ok h (page osz : Z) (fl : list Z) : Prop := {
  sl_page : heap_page page;
  sl_class : is_class osz;
  sl_magic : cell h (page + o_magic) = SLAB_MAGIC;
  sl_osz : cell h (page + o_object_size) = osz;
  sl_total : cell h (page + o_total_objects) = slab_capacity page osz;
  sl_free : cell h (page + o_free_objects) = Z.of_nat (length fl);
  sl_list : cell h (page + o_free_list) = first_or 0 fl;
  sl_chain : chain h fl;
  sl_slots : Forall (fun x => x ∈ slots page osz) fl;
  sl_nodup : NoDup fl
}.

Lemma chain_ext h h' l : chain h l -> (forall x, x ∈ l -> cell h' x = cell h x) -> chain h' l.
Proof.
  induction l as [|x r IH]; simpl; [done|]. intros [H1 H2] He. split; [rewrite He by left; done|].
  apply IH; [done|]. intros y Hy. apply He. by right.
Qed.

Lemma slot_in page osz x : heap_page page -> is_class osz -> x ∈ slots page osz -> page + 64 <= x < page + 4096.
Proof.
  intros Hp Hc Hx. destruct (slab_layout page osz Hp Hc) as (n & En & H1 & H2 & H3 & H4 & _).
  unfold slots in Hx. apply list_elem_of_fmap in Hx as (i & -> & Hi). apply elem_of_seqZ in Hi. rewrite En in *. nia.
Qed.

(** A slab is kept by changes outside of its page and of its two links. *)
Lemma slab_ok_ext h h' page osz fl : slab_ok h page osz fl ->
  (forall x, page <= x < page + 4096 -> x <> page + o_next -> x <> page + o_prev -> cell h' x = cell h x) -> slab_ok h' page osz fl.
Proof.
  intros [H1 H2 H3 H4 H5 H6 H7 H8 H9 H10] He. unfold o_magic, o_object_size, o_total_objects, o_free_objects, o_free_list, o_next, o_prev in *.
  constructor; try done; unfold o_magic, o_object_size, o_total_objects, o_free_objects, o_free_list; try (rewrite He by lia; done).
  apply (chain_ext h); [done|]. intros x Hx. rewrite Forall_forall in H9. pose proof (slot_in _ _ _ H1 H2 (H9 x Hx)). apply He; lia.
Qed.

Lemma capacity_le page osz : heap_page page -> is_class osz -> 0 < slab_capacity page osz <= 252.
Proof. intros Hp Hc. destruct (slab_layout page osz Hp Hc) as (n & -> & _ & _ & _ & _ & ?). lia. Qed.

Lemma slots_length page osz : heap_page page -> is_class osz -> Z.of_nat (length (slots page osz)) = slab_capacity page osz.
Proof. intros Hp Hc. pose proof (capacity_le _ _ Hp Hc). unfold slots. rewrite length_fmap, length_seqZ. lia. Qed.

Lemma free_le h page osz fl : slab_ok h page osz fl -> Z.of_nat (length fl) <= slab_capacity page osz.
Proof.
  intros Hs. rewrite <- (slots_length page osz) by apply Hs. apply inj_le. apply submseteq_length.
  apply NoDup_submseteq; [apply Hs|]. intros x Hx. pose proof (sl_slots _ _ _ _ Hs) as Hf. rewrite Forall_forall in Hf. auto.
Qed.

(** What a step of the slab layer changes. *)
Definition only_slab h h' (page : Z) : Prop :=
  (forall x, ~ page <= x < page + 4096 -> cell h' x = cell h x) /\
  cell h' (page + o_next) = cell h (page + o_next) /\ cell h' (page + o_prev) = cell h (page + o_prev) /\
  g_heap_virtual_cursor h' = g_heap_virtual_cursor h /\ kh_vm h' = kh_vm h /\ kh_mem h' = kh_mem h.

Lemma take_object_ok h page osz x fl : slab_ok h page osz (x :: fl) ->
  exists h', take_object h page = (h', x) /\ slab_ok h' page osz fl /\ only_slab h h' page.
Proof.
  intros Hs. pose proof (free_le _ _ _ _ Hs) as Hle. pose proof (capacity_le page osz ltac:(apply Hs) ltac:(apply Hs)).
  destruct Hs as [H1 H2 H3 H4 H5 H6 H7 H8 H9 H10]. apply Forall_cons in H9 as [H9 H9']. apply NoDup_cons in H10 as [H10 H10'].
  pose proof (slot_in _ _ _ H1 H2 H9) as Hx. simpl in H7, H8, H6, Hle. destruct H8 as [H8 H8'].
  unfold take_object. rewrite H7. eexists. split; [done|]. rewrite cell_set, H6, H8.
  unfold o_magic, o_object_size, o_total_objects, o_free_objects, o_free_list, o_next, o_prev in *.
  destruct (Z.eqb_spec (page + 12) (page + 16)); [lia|]. rewrite u32_id by lia.
  split; [|unfold only_slab; split_and!; try done; intros; unfold o_next, o_prev; rewrite !cell_set; bsplit; lia || done].
  constructor; try done; unfold o_magic, o_object_size, o_total_objects, o_free_objects, o_free_list; rewrite ?cell_set;
    try (bsplit; lia || done).
  apply (chain_ext h); [done|]. intros y Hy. rewrite Forall_forall in H9'. pose proof (slot_in _ _ _ H1 H2 (H9' y Hy)).
  rewrite !cell_set. bsplit; lia || done.
Qed.

Lemma put_object_ok h page osz x fl : slab_ok h page osz fl -> x ∈ slots page osz -> x ∉ fl ->
  slab_ok (put_object h page x) page osz (x :: fl) /\ only_slab h (put_object h page x) page.
Proof.
  intros Hs Hx Hn. pose proof (free_le _ _ _ _ Hs) as Hle. pose proof (capacity_le page osz ltac:(apply Hs) ltac:(apply Hs)).
  destruct Hs as [H1 H2 H3 H4 H5 H6 H7 H8 H9 H10]. pose proof (slot_in _ _ _ H1 H2 Hx) as Hxi.
  unfold put_object. unfold o_magic, o_object_size, o_total_objects, o_free_objects, o_free_list, o_next, o_prev in *.
  rewrite !cell_set, H6, H7. destruct (Z.eqb_spec (page + 12) (page + 16)); [lia|]. destruct (Z.eqb_spec (page + 12) x); [lia|].
  rewrite u32_id by lia.
  split; [|unfold only_slab; split_and!; try done; intros; unfold o_next, o_prev; rewrite !cell_set; bsplit; lia || done].
  constructor; try done; unfold o_magic, o_object_size, o_total_objects, o_free_objects, o_free_list; rewrite ?cell_set;
    try (bsplit; lia || done); try (by apply Forall_cons); try (by apply NoDup_cons).
  simpl. split; [rewrite !cell_set; bsplit; lia || done|]. apply (chain_ext h); [done|]. intros y Hy.
  rewrite Forall_forall in H9. pose proof (slot_in _ _ _ H1 H2 (H9 y Hy)). rewrite !cell_set. bsplit; try lia; try done. by subst.
Qed.
(** ** A new slab *)
Fixpoint run (n : nat) (curr osz : Z) : list Z :=
  match n with O => [curr] | Datatypes.S k => curr :: run k (curr + osz) osz end.

Lemma run_in n osz : forall curr x, 0 < osz -> x ∈ run n curr osz -> exists i, 0 <= i <= Z.of_nat n /\ x = curr + i * osz.
Proof.
  induction n as [|n IH]; intros curr x Ho Hx; simpl in Hx.
  - apply list_elem_of_singleton in Hx as ->. exists 0. lia.
  - apply elem_of_cons in Hx as [->|Hx]; [exists 0; lia|]. apply IH in Hx as (i & Hi & ->); [|done]. exists (i + 1). lia.
Qed.

Lemma run_slots n page osz : slab_capacity page osz = Z.of_nat (Datatypes.S n) -> slots page osz = run n (data_start page osz) osz.
Proof.
  intros E. unfold slots. rewrite E. generalize (data_start page osz) as d. clear E.
  assert (Hg : forall k lo d, (fun i => d + i * osz) <$> seqZ lo (Z.of_nat (Datatypes.S k)) = run k (d + lo * osz) osz).
  { induction k as [|k IH]; intros lo d; rewrite seqZ_cons by lia.
    - change (Z.pred (Z.of_nat 1)) with 0. done.
    - replace (Z.pred (Z.of_nat (Datatypes.S (Datatypes.S k)))) with (Z.of_nat (Datatypes.S k)) by lia.
      rewrite fmap_cons, IH. simpl. f_equal. f_equal. lia. }
  intros d. rewrite Hg. f_equal. lia.
Qed.

Lemma run_nodup n osz : forall curr, 0 < osz -> NoDup (run n curr osz).
Proof.
  induction n as [|n IH]; intros curr Ho; simpl; [apply NoDup_singleton|]. apply NoDup_cons. split; [|auto].
  intros Hin. apply run_in in Hin as (i & Hi & E); [|done]. nia.
Qed.

Lemma carve_ok n osz : forall h curr, 0 < osz ->
  chain (carve n h curr osz) (run n curr osz) /\
  (forall x, x ∉ run n curr osz -> cell (carve n h curr osz) x = cell h x) /\
  g_heap_virtual_cursor (carve n h curr osz) = g_heap_virtual_cursor h /\ kh_vm (carve n h curr osz) = kh_vm h /\
  kh_mem (carve n h curr osz) = kh_mem h.
Proof.
  induction n as [|n IH]; intros h curr Ho; simpl.
  - split_and!; try done; [rewrite cell_set; by rewrite Z.eqb_refl|]. intros x Hx. rewrite list_elem_of_singleton in Hx. rewrite cell_set.
    destruct (Z.eqb_spec x curr); done.
  - destruct (IH (set_cell h curr (curr + osz)) (curr + osz) Ho) as (H1 & H2 & H3 & H4 & H5). split_and!; try done.
    + rewrite H2, cell_set, Z.eqb_refl; [by destruct n|]. intros Hin. apply run_in in Hin as (i & Hi & E); [|done]. nia.
    + intros x Hx. rewrite elem_of_cons in Hx. rewrite H2 by tauto. rewrite cell_set. destruct (Z.eqb_spec x curr); [tauto|done].
Qed.

Lemma init_slab_ok h page osz : heap_page page -> is_class osz ->
  let h' := init_slab h page osz in
  slab_ok h' page osz (slots page osz) /\ cell h' (page + o_prev) = 0 /\
  (forall x, ~ page <= x < page + 4096 -> cell h' x = cell h x) /\
  g_heap_virtual_cursor h' = g_heap_virtual_cursor h /\ kh_vm h' = kh_vm h /\ kh_mem h' = kh_mem h.
Proof.
  intros Hp Hc h'. destruct (slab_layout page osz Hp Hc) as (n & En & H1 & H2 & H3 & H4 & H5).
  unfold h', init_slab. rewrite En. replace (Z.to_nat (u32 (Z.of_nat (Datatypes.S n) - 1))) with n by (rewrite u32_id; lia).
  set (h6 := set_cell _ (page + o_free_objects) _). set (d := data_start page osz) in *.
  destruct (carve_ok n osz h6 d ltac:(lia)) as (C1 & C2 & C3 & C4 & C5). set (h7 := carve n h6 d osz) in *.
  assert (Hlow : forall x, x < d -> cell h7 x = cell h6 x).
  { intros x Hx. apply C2. intros Hin. apply run_in in Hin as (i & Hi & ->); [nia|lia]. }
  assert (Hrun : slots page osz = run n d osz) by (by apply run_slots).
  assert (Hin : Forall (fun x => x ∈ slots page osz) (slots page osz)) by (by apply Forall_forall).
  assert (Hlen : Z.of_nat (length (run n d osz)) = Z.of_nat (Datatypes.S n)) by (rewrite <- Hrun, slots_length by done; done).
  unfold o_magic, o_object_size, o_total_objects, o_free_objects, o_free_list, o_next, o_prev in *.
  assert (Hu : u32 osz = osz) by (apply u32_id; lia).
  split_and!; [|unfold o_prev; rewrite cell_set, Hlow by lia; unfold h6; rewrite !cell_set; bsplit; lia || done| |done|done|done].
  - constructor; try done; unfold o_magic, o_object_size, o_total_objects, o_free_objects, o_free_list;
      try (rewrite cell_set, Hlow by lia; unfold h6; rewrite !cell_set, ?Hu, ?En, ?Hrun, ?Hlen; bsplit; lia || done).
    + rewrite cell_set, Z.eqb_refl, Hrun. by destruct n.
    + rewrite Hrun. apply (chain_ext h7); [done|]. intros x Hx. apply run_in in Hx as (i & Hi & ->); [|lia].
      rewrite cell_set. bsplit; nia || done.
    + rewrite Hrun. apply run_nodup. lia.
  - intros x Hx. rewrite cell_set. destruct (Z.eqb_spec x (page + 16)); [lia|]. rewrite C2.
    + unfold h6. rewrite !cell_set. bsplit; lia || done.
    + intros Hr. apply run_in in Hr as (i & Hi & ->); [nia|lia].
Qed.
End Slabs.
