(* ===== verification/KHeapProps.v ===== *)
(** * The kernel heap: kmalloc and kfree

    [kmalloc] gives out an object of the first slab that has one, or of a new
    slab; [kfree] puts it back.  When memory runs out with no slab to keep
    the freed address range on, [kmalloc] calls itself for ever. *)

From Stdlib Require Import ZArith Lia Bool.
From stdpp Require Import base list gmap.
From S2P Require Import Prelude Mem Dll Frames Pmm PageTable PtWalk PtOps AddrSpace PageFault KPages KHeap KHeapSlab.

Section Caches.
Context {S : Type} `{FrameAllocator S} `{!FrameAllocatorLaws S}.
Implicit Types (h : KHeap (S := S)).

(** The slabs of cache [i], in order, with their free objects. *)
Record cache_ok h (i : Z) (ps : list (Z * list Z)) : Prop := {
  cc_links : dll (fun p => cell h (p + o_next)) (fun p => cell h (p + o_prev)) 0 (ps.*1) 0;
  cc_head : cell h (a_slabs i) = first_or 0 (ps.*1);
  cc_slabs : Forall (fun p => slab_ok h p.1 (class_size i) p.2) ps;
  cc_nodup : NoDup (ps.*1)
}.

Lemma pages_apart p q : heap_page p -> heap_page q -> p <> q -> p + 4096 <= q \/ q + 4096 <= p.
Proof. intros (? & ? & ?) (? & ? & ?) Hne. divlia. Qed.

Lemma usable_slab_ok h i ps1 : forall fuel p x fl ps2 prev,
  dll (fun p => cell h (p + o_next)) (fun p => cell h (p + o_prev)) prev ((ps1 ++ (p, x :: fl) :: ps2).*1) 0 ->
  Forall (fun q => slab_ok h q.1 (class_size i) q.2) (ps1 ++ (p, x :: fl) :: ps2) ->
  Forall (fun q => q.2 = []) ps1 -> (length ps1 < fuel)%nat ->
  usable_slab fuel h (first_or 0 ((ps1 ++ (p, x :: fl) :: ps2).*1)) = Some p.
Proof.
  induction ps1 as [|[q fq] ps1 IH]; intros fuel p x fl ps2 prev Hd Hs He Hf; (destruct fuel as [|k]; [simpl in Hf; lia|]); simpl in *.
  - apply Forall_cons in Hs as [Hs _]. simpl in Hs. pose proof (sl_page _ _ _ _ Hs) as (Hp & _).
    destruct (Z.eqb_spec p 0); [lia|]. rewrite (sl_free _ _ _ _ Hs). simpl length. destruct (Z.eqb_spec (Z.of_nat (Datatypes.S (length fl))) 0); [lia|done].
  - apply Forall_cons in Hs as [Hs Hs']. apply Forall_cons in He as [He He']. simpl in He, Hs. subst fq.
    destruct Hd as (Hq & _ & Hn & Hd). destruct (Z.eqb_spec q 0); [done|]. rewrite (sl_free _ _ _ _ Hs). simpl.
    rewrite Hn. apply (IH k p x fl ps2 q); try done. lia.
Qed.

Lemma no_usable_slab h i ps : forall fuel prev,
  dll (fun p => cell h (p + o_next)) (fun p => cell h (p + o_prev)) prev (ps.*1) 0 ->
  Forall (fun q => slab_ok h q.1 (class_size i) q.2) ps -> Forall (fun q => q.2 = []) ps -> (length ps <= fuel)%nat ->
  usable_slab fuel h (first_or 0 (ps.*1)) = Some 0.
Proof.
  induction ps as [|[q fq] ps IH]; intros fuel prev Hd Hs He Hf; [by destruct fuel|]. destruct fuel as [|k]; [simpl in Hf; lia|]. simpl in *.
  apply Forall_cons in Hs as [Hs Hs']. apply Forall_cons in He as [He He']. simpl in He, Hs. subst fq.
  destruct Hd as (Hq & _ & Hn & Hd). destruct (Z.eqb_spec q 0); [done|]. rewrite (sl_free _ _ _ _ Hs). simpl.
  rewrite Hn. apply (IH k q); try done. lia.
Qed.

(** The walk over the slabs is short enough. *)
Lemma cache_short h i ps : cache_ok h i ps -> (length ps < walk_fuel h)%nat.
Proof.
  intros [H1 H2 H3 H4]. unfold walk_fuel. rewrite <- (length_fmap fst ps). apply le_n_S. apply (nodup_size (cells h)); [done|].
  intros p Hp. apply list_elem_of_fmap in Hp as ([q fl] & -> & Hq). rewrite Forall_forall in H3. pose proof (sl_magic _ _ _ _ (H3 _ Hq)) as Hm.
  simpl in *. unfold o_magic, cell in Hm. rewrite Z.add_0_r in Hm. destruct (cells h !! q); [done|]. done.
Qed.

(** Changing one slab of a cache inside its page. *)
Lemma cache_slab_ok h h' i ps1 p fl fl' ps2 :
  cache_ok h i (ps1 ++ (p, fl) :: ps2) -> slab_ok h' p (class_size i) fl' -> only_slab h h' p -> 0 <= i -> cache_ok h' i (ps1 ++ (p, fl') :: ps2).
Proof.
  intros [H1 H2 H3 H4] Hs (Ho & Hn & Hp & _) Hi.
  assert (Em : (ps1 ++ (p, fl') :: ps2).*1 = (ps1 ++ (p, fl) :: ps2).*1) by (rewrite !fmap_app, !fmap_cons; done).
  rewrite Forall_app, Forall_cons in H3. destruct H3 as (Hs1 & Hs0 & Hs2).
  assert (Hne : forall q, q ∈ ps1 \/ q ∈ ps2 -> q.1 <> p).
  { intros q Hq E. rewrite fmap_app, fmap_cons in H4. apply NoDup_app in H4 as (_ & N1 & N2). apply NoDup_cons in N2 as [N2 _]. simpl in *.
    destruct Hq as [Hq|Hq].
    - apply (N1 p); [|left]. rewrite <- E. by apply (list_elem_of_fmap_2 fst).
    - apply N2. rewrite <- E. by apply (list_elem_of_fmap_2 fst). }
  assert (Hkeep : forall q, q ∈ ps1 \/ q ∈ ps2 -> slab_ok h q.1 (class_size i) q.2 -> slab_ok h' q.1 (class_size i) q.2 /\
            cell h' (q.1 + o_next) = cell h (q.1 + o_next) /\ cell h' (q.1 + o_prev) = cell h (q.1 + o_prev)).
  { intros q Hq Hsq. pose proof (pages_apart q.1 p (sl_page _ _ _ _ Hsq) (sl_page _ _ _ _ Hs) (Hne q Hq)) as Hap.
    unfold o_next, o_prev in *. split; [|split; apply Ho; lia]. apply (slab_ok_ext h); [done|]. intros x Hx _ _. apply Ho. lia. }
  constructor; rewrite ?Em; try done.
  - apply (dll_ext _ _ _ _ _ _ _ H1). intros q Hq. rewrite fmap_app, fmap_cons, elem_of_app, elem_of_cons in Hq. simpl in Hq.
    rewrite Forall_forall in Hs1. rewrite Forall_forall in Hs2. destruct Hq as [Hq|[-> |Hq]]; [|done|];
      apply list_elem_of_fmap in Hq as (q' & -> & Hq'); [destruct (Hkeep q' (or_introl Hq') (Hs1 q' Hq')) as (_ & ? & ?)|destruct (Hkeep q' (or_intror Hq') (Hs2 q' Hq')) as (_ & ? & ?)]; done.
  - pose proof (sl_page _ _ _ _ Hs) as (? & _). rewrite Ho by (unfold a_slabs; lia). done.
  - apply Forall_app. rewrite Forall_forall in Hs1. rewrite Forall_forall in Hs2.
    split; [|apply Forall_cons; split; [done|]]; rewrite Forall_forall; intros q Hq; apply Hkeep; auto.
Qed.
(** ** kmalloc *)

(** The equations of the recursive functions that are used below. *)
Lemma kmalloc_small pml4 k h size : 0 < size <= MAX_SLAB_SIZE ->
  kmalloc pml4 (Datatypes.S k) h size =
  (let idx := class_for g_size_classes 0 size in
   slab ← usable_slab (walk_fuel h) h (cell h (a_slabs idx));
   if negb (slab =? 0) then Some (take_object h slab)
   else
     '(h1, page) ← alloc_virtual_pages pml4 k h 1;
     if page =? 0 then Some (h1, 0)
     else Some (take_object (push_slab (init_slab h1 page (class_size idx)) idx page) page)).
Proof.
  intros Hs. unfold kmalloc, alloc_virtual_pages. cbn [heap_call]. unfold kmalloc_body.
  destruct (Z.eqb_spec size 0); [lia|]. destruct (Z.leb_spec size MAX_SLAB_SIZE); [done|lia].
Qed.

Lemma fst_void (r : option (KHeap (S := S))) : fst <$> void r = r.
Proof. by destruct r. Qed.

Lemma recycle_eq pml4 k h v n : recycle_virtual_range pml4 (Datatypes.S k) h v n =
  ('(h1, node) ← kmalloc pml4 k h sizeof_VirtualFreeNode;
   if node =? 0 then Some h1
   else
     let h2 := set_cell (set_cell (set_cell h1 (node + o_virt_addr) v) (node + o_page_count) n) (node + o_node_next) 0 in
     curr ← insert_at (walk_fuel h2) h2 a_free_ranges v;
     let h3 := set_cell (set_cell h2 (node + o_node_next) (cell h2 curr)) curr node in
     merge_ranges pml4 k h3 (cell h3 a_free_ranges)).
Proof. unfold recycle_virtual_range. cbn [heap_call]. by rewrite fst_void. Qed.

Lemma kmalloc_slab_ok pml4 k h size ps1 p x fl ps2 :
  0 < size <= MAX_SLAB_SIZE -> let i := class_for g_size_classes 0 size in
  cache_ok h i (ps1 ++ (p, x :: fl) :: ps2) -> Forall (fun q => q.2 = []) ps1 ->
  exists h', kmalloc pml4 (Datatypes.S k) h size = Some (h', x) /\ cache_ok h' i (ps1 ++ (p, fl) :: ps2) /\ only_slab h h' p.
Proof.
  intros Hs i Hc He. destruct (class_for_ok size Hs) as (Hi & _). fold i in Hi. rewrite kmalloc_small by done. cbn zeta. fold i.
  pose proof (cache_short _ _ _ Hc) as Hf. rewrite length_app in Hf.
  rewrite (cc_head _ _ _ Hc), (usable_slab_ok h i ps1 _ p x fl ps2 0); [|apply Hc|apply Hc|done|lia]. cbn [mbind option_bind].
  pose proof (cc_slabs _ _ _ Hc) as Hsl. rewrite Forall_app, Forall_cons in Hsl. destruct Hsl as (_ & Hsl & _). simpl in Hsl.
  pose proof (sl_page _ _ _ _ Hsl) as (Hp & _). destruct (Z.eqb_spec p 0); [lia|]. cbn [negb].
  destruct (take_object_ok h p (class_size i) x fl Hsl) as (h' & E & Hs' & Ho). rewrite E. exists h'. split; [done|]. split; [|done].
  apply (cache_slab_ok h h' i ps1 p (x :: fl)); try done. lia.
Qed.

(** A page that is not of the cache becomes its first slab. *)
Lemma push_slab_ok h h0 i ps page fl : 0 <= i -> cache_ok h0 i ps -> page ∉ (ps.*1) ->
  (forall x, ~ page <= x < page + 4096 -> cell h x = cell h0 x) ->
  slab_ok h page (class_size i) fl -> cell h (page + o_prev) = 0 ->
  cache_ok (push_slab h i page) i ((page, fl) :: ps).
Proof.
  intros Hi [H1 H2 H3 H4] Hn Ho Hs Hpr. pose proof (sl_page _ _ _ _ Hs) as (Hp & _).
  unfold push_slab. rewrite Ho by (unfold a_slabs; lia). rewrite H2. set (hd := first_or 0 ps.*1).
  set (h1 := set_cell h (page + o_next) hd). set (h2 := if negb (hd =? 0) then set_cell h1 (hd + o_prev) page else h1).
  assert (Hpages : forall q, q ∈ ps.*1 -> heap_page q /\ (q + 4096 <= page \/ page + 4096 <= q)).
  { intros q Hq. pose proof Hq as Hq'. apply list_elem_of_fmap in Hq as (q' & -> & Hq). rewrite Forall_forall in H3. pose proof (H3 q' Hq) as Hsq.
    split; [apply Hsq|]. apply pages_apart; [apply Hsq|apply Hs|]. intros E. apply Hn. by rewrite <- E. }
  assert (Hhd : hd = 0 \/ hd ∈ ps.*1) by (unfold hd; destruct (ps.*1); [by left|right; left]).
  assert (C : forall x, cell (set_cell h2 (a_slabs i) page) x =
    if x =? a_slabs i then page else if (x =? hd + o_prev) && negb (hd =? 0) then page else if x =? page + o_next then hd else cell h x).
  { intros x. rewrite cell_set. destruct (x =? a_slabs i); [done|]. unfold h2, h1. destruct (hd =? 0); simpl; rewrite ?cell_set; by rewrite ?andb_true_r, ?andb_false_r. }
  unfold o_next, o_prev, a_slabs in *.
  assert (Hlow : forall q, q ∈ page :: ps.*1 -> 0 < q).
  { intros q Hq. apply elem_of_cons in Hq as [->|Hq]; [done|]. by destruct (Hpages q Hq) as [[? _] _]. }
  assert (Hof : forall q o, q ∈ ps.*1 -> 0 <= o < 4096 -> cell h (q + o) = cell h0 (q + o)).
  { intros q o Hq Hoo. destruct (Hpages q Hq) as [_ Hd]. apply Ho. lia. }
  assert (Hcol : forall q o, q ∈ page :: ps.*1 -> hd ∈ ps.*1 -> 0 <= o < 4096 -> q + o = hd + 32 -> q = hd).
  { intros q o Hq Hh Hoo E. destruct (Z.eq_dec q hd); [done|]. exfalso. destruct (Hpages hd Hh) as [Hph Hd].
    apply elem_of_cons in Hq as [->|Hq]; [lia|]. destruct (Hpages q Hq) as [Hpq _]. destruct (pages_apart q hd Hpq Hph ltac:(done)); lia. }
  clearbody h2. constructor; unfold o_next, o_prev, a_slabs.
  - rewrite fmap_cons. cbn [fst]. apply (dll_push (fun p => cell h0 (p + 24)) (fun p => cell h0 (p + 32))); [done|lia|done|done| |];
      intros x Hin Hx; fold hd; pose proof (Hlow x Hin); rewrite C; (destruct (Z.eqb_spec x page) as [->|Hne]; [|apply elem_of_cons in Hin as [|Hin]; [congruence|]; destruct (Hpages x Hin) as [_ Hd]]).
    + bsplit; try lia; try done. exfalso. destruct Hhd as [|Hhd]; [lia|]. destruct (Hpages hd Hhd) as [_ Hd]. lia.
    + rewrite (Hof x 24) by (done || lia). bsplit; try lia; try done. exfalso. destruct Hhd as [|Hhd]; [lia|].
      assert (x = hd) by (apply (Hcol x 24); [by right|done|lia|lia]). lia.
    + rewrite Hpr. bsplit; try lia; try done. exfalso. destruct Hhd as [|Hhd]; [lia|]. destruct (Hpages hd Hhd) as [_ Hd]. lia.
    + rewrite (Hof x 32) by (done || lia). bsplit; try lia; try done.
  - rewrite C, Z.eqb_refl. done.
  - apply Forall_cons. split.
    + apply (slab_ok_ext h); [done|]. cbn [fst]. unfold o_next, o_prev. intros x Hx N1 N2. rewrite C. bsplit; try lia; try done.
      exfalso. destruct Hhd as [|Hhd]; [lia|]. destruct (Hpages hd Hhd) as [_ Hd]. lia.
    + rewrite Forall_forall in H3 |- *. intros q Hq. assert (Hq1 : q.1 ∈ ps.*1) by (by apply (list_elem_of_fmap_2 fst)).
      destruct (Hpages q.1 Hq1) as [[? _] Hd]. apply (slab_ok_ext h0); [auto|]. unfold o_next, o_prev. intros x Hx N1 N2. rewrite C. rewrite <- Ho by lia.
      bsplit; try lia; try done. exfalso. destruct Hhd as [|Hhd]; [lia|].
      assert (q.1 = hd) by (apply (Hcol q.1 (x - q.1)); [by right|done|lia|lia]). lia.
  - rewrite fmap_cons. by apply NoDup_cons.
Qed.
(** With no recycled address range, pages come from the cursor. *)
Definition bump h (count : Z) : KHeap := set_cursor h (u64 (g_heap_virtual_cursor h + count * PAGE_SIZE)).

Lemma alloc_pages_ok pml4 k h count : cell h a_free_ranges = 0 ->
  alloc_virtual_pages pml4 (Datatypes.S k) h count =
  (let '(h3, ok) := map_frames pml4 (Z.to_nat count) (bump h count) (g_heap_virtual_cursor h) 0 in
   if (ok : bool) then Some (h3, g_heap_virtual_cursor h)
   else h4 ← recycle_virtual_range pml4 k h3 (g_heap_virtual_cursor h) count; Some (h4, 0)).
Proof.
  intros E. unfold alloc_virtual_pages. cbn [heap_call]. unfold alloc_virtual_pages_body, walk_fuel. cbn [range_for]. rewrite E. done.
Qed.

Lemma same_data_cell h h' x : same_data h h' -> cell h' x = cell h x.
Proof. intros (E & _). unfold cell. by rewrite E. Qed.

Lemma cache_ok_ext h h' i ps : cache_ok h i ps -> cells h' = cells h -> cache_ok h' i ps.
Proof.
  intros [H1 H2 H3 H4] E. assert (C : forall x, cell h' x = cell h x) by (intros; unfold cell; by rewrite E).
  constructor; [|by rewrite C| |done].
  - apply (dll_ext _ _ _ _ _ _ _ H1). intros x _. by rewrite !C.
  - eapply Forall_impl; [exact H3|]. intros q Hq. apply (slab_ok_ext h); [done|]. intros. apply C.
Qed.

Lemma kmalloc_new_ok pml4 k h size ps h3 :
  0 < size <= MAX_SLAB_SIZE -> let i := class_for g_size_classes 0 size in
  cache_ok h i ps -> Forall (fun q => q.2 = []) ps -> cell h a_free_ranges = 0 ->
  let page := g_heap_virtual_cursor h in
  heap_page page -> page ∉ (ps.*1) ->
  map_frames pml4 1 (bump h 1) page 0 = (h3, true) -> same_data (bump h 1) h3 ->
  exists h' x fl, kmalloc pml4 (Datatypes.S (Datatypes.S k)) h size = Some (h', x) /\ slots page (class_size i) = x :: fl /\
    cache_ok h' i ((page, fl) :: ps).
Proof.
  intros Hs i Hc He Hr page Hp Hn Hm Hd. destruct (class_for_ok size Hs) as (Hi & Hcl & _). fold i in Hi, Hcl.
  rewrite kmalloc_small by done. cbn zeta. fold i.
  pose proof (cache_short _ _ _ Hc) as Hf.
  rewrite (cc_head _ _ _ Hc), (no_usable_slab h i ps _ 0); [|apply Hc|apply Hc|done|lia]. cbn [mbind option_bind Z.eqb negb].
  rewrite alloc_pages_ok by done. change (Z.to_nat 1) with 1%nat. fold page. rewrite Hm. cbn [mbind option_bind].
  destruct (Z.eqb_spec page 0); [destruct Hp; lia|].
  destruct (init_slab_ok h3 page (class_size i) Hp Hcl) as (I1 & I2 & I3 & _).
  assert (Hc3 : cache_ok h3 i ps) by (apply (cache_ok_ext h); [done|apply Hd]).
  pose proof (push_slab_ok (init_slab h3 page (class_size i)) h3 i ps page _ ltac:(lia) Hc3 Hn I3 I1 I2) as Hpush.
  destruct (slots page (class_size i)) as [|x fl] eqn:Esl.
  { pose proof (slots_length page (class_size i) Hp Hcl) as El. rewrite Esl in El. pose proof (capacity_le page (class_size i) Hp Hcl). simpl in El. lia. }
  set (h5 := push_slab _ i page) in *.
  pose proof (cc_slabs _ _ _ Hpush) as Hsl. apply Forall_cons in Hsl as [Hsl _]. simpl in Hsl.
  destruct (take_object_ok h5 page (class_size i) x fl Hsl) as (h' & E & Hs' & Ho). rewrite E. exists h', x, fl. split_and!; [done|done|].
  apply (cache_slab_ok h5 h' i [] page (x :: fl) fl ps); try done. lia.
Qed.

(** ** Out of memory *)

(** No slab has a free object, no address range is free, no frame is left. *)
Record exhausted h (i : Z) : Prop := {
  ex_slabs : usable_slab (walk_fuel h) h (cell h (a_slabs i)) = Some 0;
  ex_nodes : usable_slab (walk_fuel h) h (cell h (a_slabs 1)) = Some 0;
  ex_ranges : cell h a_free_ranges = 0;
  ex_frames : fa_alloc (vm_fa (kh_vm h)) = (vm_fa (kh_vm h), 0)
}.

Lemma usable_slab_cells h h' fuel : cells h' = cells h -> forall x, usable_slab fuel h' x = usable_slab fuel h x.
Proof.
  intros E. assert (C : forall x, cell h' x = cell h x) by (intros; unfold cell; by rewrite E).
  induction fuel as [|k IH]; intros x; simpl; [done|]. rewrite !C, IH. done.
Qed.

Lemma exhausted_bump h i n : exhausted h i -> exhausted (bump h n) 1.
Proof.
  intros [H1 H2 H3 H4]. constructor; try done; change (walk_fuel (bump h n)) with (walk_fuel h);
    by rewrite (usable_slab_cells h).
Qed.

Lemma map_frames_none pml4 h base : fa_alloc (vm_fa (kh_vm h)) = (vm_fa (kh_vm h), 0) ->
  map_frames pml4 1 h base 0 = (h, false).
Proof.
  intros E. unfold map_frames. cbn [kp_map]. rewrite E. cbn [Z.eqb]. unfold kp_release. rewrite zfor_empty by lia.
  f_equal. unfold set_vm. destruct h as [c g v m]. simpl. f_equal. by destruct v.
Qed.

Lemma kmalloc_spins pml4 fuel : forall h size, 0 < size <= MAX_SLAB_SIZE ->
  exhausted h (class_for g_size_classes 0 size) -> kmalloc pml4 fuel h size = None.
Proof.
  induction fuel as [fuel IH] using lt_wf_ind. intros h size Hs Hx. destruct fuel as [|fuel]; [done|].
  rewrite kmalloc_small by done. cbn zeta.
  rewrite (ex_slabs _ _ Hx). cbn [mbind option_bind Z.eqb negb].
  destruct fuel as [|fuel]; [done|]. rewrite alloc_pages_ok by apply Hx. change (Z.to_nat 1) with 1%nat.
  rewrite map_frames_none by apply Hx. cbn [mbind option_bind].
  destruct fuel as [|fuel]; [done|]. rewrite recycle_eq.
  rewrite (IH fuel ltac:(lia) (bump h 1) sizeof_VirtualFreeNode); [done|unfold sizeof_VirtualFreeNode, MAX_SLAB_SIZE; lia|].
  by apply (exhausted_bump h (class_for g_size_classes 0 size)).
Qed.
(** ** kfree *)
Lemma kfree_slab_eq pml4 k h ptr : ptr <> 0 -> cell h (page_down ptr + o_magic) = SLAB_MAGIC ->
  kfree pml4 (Datatypes.S k) h ptr =
  (let page_base := page_down ptr in
   let h1 := put_object h page_base ptr in
   if (cell h1 (page_base + o_free_objects) =? cell h1 (page_base + o_total_objects))
      && (negb (cell h1 (page_base + o_prev) =? 0) || negb (cell h1 (page_base + o_next) =? 0)) then
     let idx := class_of g_size_classes 0 (cell h1 (page_base + o_object_size)) in
     if idx <? NUM_SIZE_CLASSES
     then recycle_virtual_range pml4 k (release_page pml4 (unlink_slab h1 idx page_base) page_base) page_base 1
     else Some h1
   else Some h1).
Proof.
  intros Hp Hm. unfold kfree. cbn [heap_call]. rewrite fst_void. unfold kfree_body.
  destruct (Z.eqb_spec ptr 0); [done|]. rewrite Hm. done.
Qed.

Lemma page_of_slot page osz x : heap_page page -> is_class osz -> x ∈ slots page osz -> page_down x = page.
Proof.
  intros Hp Hc Hx. pose proof (slot_in _ _ _ Hp Hc Hx) as Hr. destruct Hp as (H0 & H1 & Hm).
  rewrite page_down_spec by (unfold is_u64; lia). divlia.
Qed.

Lemma kfree_keep_ok pml4 k h i ps1 p fl ps2 x :
  0 <= i -> cache_ok h i (ps1 ++ (p, fl) :: ps2) -> x ∈ slots p (class_size i) -> x ∉ fl ->
  (Z.of_nat (length fl) + 1 < slab_capacity p (class_size i) \/ (ps1 = [] /\ ps2 = [])) ->
  exists h', kfree pml4 (Datatypes.S k) h x = Some h' /\ cache_ok h' i (ps1 ++ (p, x :: fl) :: ps2).
Proof.
  intros Hi Hc Hx Hn Hkeep. pose proof (cc_slabs _ _ _ Hc) as Hsl. rewrite Forall_app, Forall_cons in Hsl. destruct Hsl as (_ & Hsl & _). simpl in Hsl.
  pose proof (sl_page _ _ _ _ Hsl) as Hpg. pose proof (sl_class _ _ _ _ Hsl) as Hcl. pose proof (slot_in _ _ _ Hpg Hcl Hx) as Hr.
  pose proof (page_of_slot _ _ _ Hpg Hcl Hx) as Epd. destruct Hpg as (Hp0 & Hpg).
  rewrite kfree_slab_eq; [|lia|rewrite Epd; apply Hsl]. cbn zeta. rewrite Epd.
  destruct (put_object_ok h p (class_size i) x fl Hsl Hx Hn) as [Hs' Ho]. set (h1 := put_object h p x) in *.
  rewrite (sl_free _ _ _ _ Hs'), (sl_total _ _ _ _ Hs').
  assert (Hcond : (Z.of_nat (length (x :: fl)) =? slab_capacity p (class_size i)) && (negb (cell h1 (p + o_prev) =? 0) || negb (cell h1 (p + o_next) =? 0)) = false).
  { destruct Hkeep as [Hlt|[-> ->]].
    - destruct (Z.eqb_spec (Z.of_nat (length (x :: fl))) (slab_capacity p (class_size i))) as [E|]; [|done]. simpl length in E. lia.
    - destruct Ho as (_ & -> & -> & _). pose proof (cc_links _ _ _ Hc) as Hd. simpl in Hd. destruct Hd as (_ & -> & -> & _). by rewrite andb_false_r. }
  rewrite Hcond. exists h1. split; [done|]. by apply (cache_slab_ok h h1 i ps1 p fl).
Qed.
End Caches.

(** ** What kmalloc and kfree promise *)
Section Claims.
Context {S : Type} `{FrameAllocator S} `{!FrameAllocatorLaws S}.
Implicit Types (h : KHeap (S := S)).

Lemma first_usable (ps : list (Z * list Z)) :
  Forall (fun q => q.2 = []) ps \/ exists ps1 p x fl ps2, ps = ps1 ++ (p, x :: fl) :: ps2 /\ Forall (fun q => q.2 = []) ps1.
Proof.
  induction ps as [|[q [|x fl]] ps IH]; [left; constructor| |].
  - destruct IH as [IH|(ps1 & p & x & fl & ps2 & -> & IH)]; [left; by constructor|right].
    exists ((q, []) :: ps1), p, x, fl, ps2. split; [done|by constructor].
  - right. exists [], q, x, fl, ps. split; [done|constructor].
Qed.

Lemma heap_page_range page : heap_page page -> page_range page 1.
Proof.
  intros (H0 & H1 & Hm). unfold page_range, page_aligned. split_and!; try lia. divlia.
Qed.

(** [i] is the smallest size class that holds [size] bytes. *)
Definition smallest_class (size i : Z) : Prop :=
  0 <= i < NUM_SIZE_CLASSES /\ size <= class_size i /\ forall j, 0 <= j < i -> class_size j < size.

Lemma class_for_passes l size : forall i j, i <= j < class_for l i size -> default 0 (l !! Z.to_nat (j - i)) < size.
Proof.
  induction l as [|c l IH]; intros i j; cbn [class_for]; [lia|]. destruct (Z.ltb_spec c size); [|lia]. intros Hj.
  destruct (Z.eq_dec j i) as [->|]; [by rewrite Z.sub_diag|].
  specialize (IH (i + 1) j ltac:(lia)). replace (Z.to_nat (j - i)) with (Datatypes.S (Z.to_nat (j - (i + 1)))) by lia. exact IH.
Qed.

Lemma class_for_smallest size i : 0 < size <= MAX_SLAB_SIZE -> smallest_class size i -> class_for g_size_classes 0 size = i.
Proof.
  intros Hs (Hi & Hle & Hmin). destruct (class_for_ok size Hs) as (H0 & _ & Hle0 & _). set (c := class_for g_size_classes 0 size) in *.
  destruct (Z.lt_trichotomy c i) as [Hlt|[E|Hlt]]; [specialize (Hmin c ltac:(lia)); lia|done|].
  pose proof (class_for_passes g_size_classes size 0 i ltac:(fold c; lia)) as Hp. rewrite Z.sub_0_r in Hp. fold (class_size i) in Hp. lia.
Qed.

(** What a new slab needs: an unmapped page at the cursor, no address range
    that waits to be used again, and five frames (one for the page and up to
    three tables). *)
Record slab_possible h (root : Z) (ps : list (Z * list Z)) : Prop := {
  np_wf : pt_wf (kh_vm h) root;
  np_ranges : cell h a_free_ranges = 0;
  np_page : heap_page (g_heap_virtual_cursor h);
  np_new : g_heap_virtual_cursor h ∉ (ps.*1);
  np_absent : forall v, is_u64 v -> vpage v = vpage (g_heap_virtual_cursor h) -> xl (vm_mem (kh_vm h)) root (vpath v) = None;
  np_frames : frames_left 5 (vm_fa (kh_vm h))
}.

(** C21: An allocation of at most 2048 bytes from a cache with a free object,
    or while a new slab can be had (no address range waits to be used again,
    and there are frames), returns within two calls: an object of the
    smallest size class that holds it, from the first slab of that class with
    a free object or from a new slab.  The object was free before and is not
    free after, no other slab changes, and the cache's list of slabs and every
    slab's list of free objects are in order again. *)
Theorem kmalloc_correct root h size i ps :
  0 < size <= MAX_SLAB_SIZE -> smallest_class size i -> cache_ok h i ps ->
  (Forall (fun q => q.2 = []) ps -> slab_possible h root ps) ->
  exists h' x p fl ps', kmalloc (tbl root) 2 h size = Some (h', x) /\ cache_ok h' i ps' /\ (p, fl) ∈ ps' /\
    x ∈ slots p (class_size i) /\ (x ∉ fl) /\
    ((p = g_heap_virtual_cursor h /\ (p ∉ (ps.*1)) /\ Forall (fun q => q.2 = []) ps) \/ (p, x :: fl) ∈ ps) /\
    (forall q fq, (q, fq) ∈ ps -> q <> p -> (q, fq) ∈ ps').
Proof.
  intros Hs Hsm Hc Hnew. pose proof (class_for_smallest size i Hs Hsm) as Ei.
  destruct (class_for_ok size Hs) as (Hi & Hcl & Hle & _). rewrite Ei in Hi, Hcl, Hle.
  destruct (first_usable ps) as [He|(ps1 & p & x & fl & ps2 & -> & He)].
  - destruct (Hnew He) as [W Hr Hp Hn Hx Hfl]. set (page := g_heap_virtual_cursor h) in *. pose proof (heap_page_range page Hp) as Hpr.
    assert (Hpu : is_u64 page) by (destruct Hp; unfold is_u64; lia).
    destruct (map_frames_ok root (before root (kh_vm h)) page 1 1 (bump h 1) [] Hpr) as [Hd _]; [done| | |by apply backed_refl|by intros f|].
    { intros v Hv Hvp e k Hek. cbn [before b_xl] in Hek. rewrite Hx in Hek by (done || lia). done. }
    { intros j Hj. replace j with 0 by lia. rewrite Z.mul_0_l, Z.add_0_r. by apply Hx. }
    change (Z.of_nat (length [])) with 0 in Hd.
    pose proof (kp_map_one root (kh_vm h) page W Hpu (Hx page Hpu eq_refl) Hfl) as Hm.
    assert (Em : (map_frames (tbl root) 1 (bump h 1) page 0).2 = true).
    { unfold map_frames. change (kh_vm (bump h 1)) with (kh_vm h). by destruct (kp_map (tbl root) 1 (kh_vm h) page 0) as [vm ok]. }
    destruct (map_frames (tbl root) 1 (bump h 1) page 0) as [h3 ok] eqn:Em3. simpl in Em, Hd. subst ok. rewrite <- Ei in Hc.
    destruct (kmalloc_new_ok (tbl root) 0 h size ps h3 Hs Hc He Hr Hp Hn Em3 Hd) as (h' & x & fl & E & Esl & Hc').
    fold page in Esl, Hc'. rewrite Ei in Esl, Hc'.
    assert (Hnd : NoDup (slots page (class_size i))).
    { destruct (slab_layout page (class_size i) Hp Hcl) as (n & En & _ & _ & _ & ? & _). rewrite (run_slots n) by done. apply run_nodup. lia. }
    rewrite Esl in Hnd. apply NoDup_cons in Hnd as [Hnd _].
    exists h', x, page, fl, ((page, fl) :: ps). split_and!; try done; [left|rewrite Esl; left|by left|]. intros q fq Hq _. by right.
  - pose proof Hc as Hc0. rewrite <- Ei in Hc0. destruct (kmalloc_slab_ok (tbl root) 1 h size ps1 p x fl ps2 Hs Hc0 He) as (h' & E & Hc' & _). rewrite Ei in Hc'.
    pose proof (cc_slabs _ _ _ Hc) as Hsl. rewrite Forall_app, Forall_cons in Hsl. destruct Hsl as (_ & Hsl & _). simpl in Hsl.
    pose proof (sl_nodup _ _ _ _ Hsl) as Hnd. apply NoDup_cons in Hnd as [Hnd _]. pose proof (sl_slots _ _ _ _ Hsl) as Hss. apply Forall_cons in Hss as [Hss _].
    exists h', x, p, fl, (ps1 ++ (p, fl) :: ps2). split_and!; try done.
    + apply elem_of_app. right. left.
    + right. apply elem_of_app. right. left.
    + intros q fq Hq Hne. rewrite elem_of_app, elem_of_cons in Hq |- *. destruct Hq as [|[Hq|]]; [by left| |by right; right]. simplify_eq.
Qed.

(** Freeing an object of a slab that keeps another object in use, or that
    is the only slab of its cache, returns at once: the object is the first
    of the slab's free objects, and the cache is otherwise as it was. *)
Theorem kfree_correct pml4 h i ps1 p fl ps2 x :
  0 <= i -> cache_ok h i (ps1 ++ (p, fl) :: ps2) -> x ∈ slots p (class_size i) -> x ∉ fl ->
  (Z.of_nat (length fl) + 1 < slab_capacity p (class_size i) \/ (ps1 = [] /\ ps2 = [])) ->
  exists h', kfree pml4 1 h x = Some h' /\ cache_ok h' i (ps1 ++ (p, x :: fl) :: ps2).
Proof. apply kfree_keep_ok. Qed.

(** Out of memory is not reported but fatal: when no slab of the size
    class nor of the class of the range nodes has a free object, no address
    range is free and no frame is left, [kmalloc] never returns, whatever the
    fuel.  The page that could not be mapped is to be recorded as a free
    range, for which [kmalloc] is called again in the same state. *)
Theorem kmalloc_out_of_memory_diverges pml4 fuel h size :
  0 < size <= MAX_SLAB_SIZE -> exhausted h (class_for g_size_classes 0 size) -> kmalloc pml4 fuel h size = None.
Proof. apply kmalloc_spins. Qed.
End Claims.

(** ** A kernel heap *)
Definition demo_kheap0 : KHeap := heap_init demo_kheap.

Lemma demo_cache : cache_ok demo_kheap0 2 [].
Proof. constructor; try done. constructor. Qed.

Lemma kmalloc_correct_witness :
  exists h' x p fl ps', kmalloc (tbl demo_root) 2 demo_kheap0 50 = Some (h', x) /\ cache_ok h' 2 ps' /\ (p, fl) ∈ ps' /\
    x ∈ slots p (class_size 2) /\ (x ∉ fl) /\
    ((p = g_heap_virtual_cursor demo_kheap0 /\ (p ∉ (([] : list (Z * list Z)).*1)) /\ Forall (fun q => q.2 = []) ([] : list (Z * list Z))) \/
     (p, x :: fl) ∈ ([] : list (Z * list Z))) /\
    (forall q fq, (q, fq) ∈ ([] : list (Z * list Z)) -> q <> p -> (q, fq) ∈ ps').
Proof.
  apply (kmalloc_correct demo_root demo_kheap0 50 2 []).
  - unfold MAX_SLAB_SIZE. lia.
  - split; [vm_compute; split; congruence|]. split; [vm_compute; congruence|].
    intros j Hj. assert (E : j = 0 \/ j = 1) by lia. destruct E as [-> | ->]; vm_compute; reflexivity.
  - exact demo_cache.
  - intros _. constructor.
    + exact demo_wf.
    + reflexivity.
    + vm_compute. split_and!; congruence.
    + apply not_elem_of_nil.
    + intros v _ _. apply demo_absent.
    + vm_compute. repeat split; congruence.
Defined.

(** One slab of 2048-byte objects, whose only object is in use. *)
Definition demo_slab_page : Z := 0xFFFF900000000000.
Definition demo_slab : KHeap :=
  let h := push_slab (init_slab demo_kheap0 demo_slab_page 2048) 7 demo_slab_page in (take_object h demo_slab_page).1.

Lemma demo_slab_cache : cache_ok demo_slab 7 [(demo_slab_page, [])].
Proof.
  constructor.
  - vm_compute. repeat split; discriminate.
  - vm_compute. reflexivity.
  - apply Forall_singleton. constructor; try (vm_compute; reflexivity).
    + vm_compute. repeat split; discriminate.
    + vm_compute. repeat constructor.
    + constructor.
    + constructor.
  - apply NoDup_singleton.
Qed.

Lemma kfree_correct_witness :
  exists h', kfree (tbl demo_root) 1 demo_slab 0xFFFF900000000800 = Some h' /\ cache_ok h' 7 [(demo_slab_page, [0xFFFF900000000800])].
Proof.
  apply (kfree_correct (tbl demo_root) demo_slab 7 [] demo_slab_page [] [] 0xFFFF900000000800).
  - lia.
  - exact demo_slab_cache.
  - vm_compute. left.
  - apply not_elem_of_nil.
  - right. split; reflexivity.
Defined.

(** A machine without a single free frame. *)
Definition demo_full : KHeap := heap_init (mkKHeap ∅ KERNEL_HEAP_BASE (mkVm ∅ (mkPmm [] 0 0 0 0)) ∅).

Lemma kmalloc_out_of_memory_diverges_witness : kmalloc (tbl demo_root) 100 demo_full 50 = None.
Proof.
  apply (kmalloc_out_of_memory_diverges (tbl demo_root) 100 demo_full 50); [unfold MAX_SLAB_SIZE; lia|].
  constructor; vm_compute; reflexivity.
Defined.
