(* ===== verification/Malloc.v ===== *)
(** * The user-space allocator and process exit (src/lib/libc/stdlib.c): operations

    Chunk and arena headers live in stores indexed by their address; a header
    that was never written reads as zeros, which is what fresh memory from
    mmap holds.  The bytes of the user's blocks are a memory of their own:
    blocks and headers do not overlap.  [mm] is what the mmap of a call
    returns, should it make one (an error is a value with the sign bit).
    The malloc lock is left out. *)

From Stdlib Require Import ZArith Lia Bool.
From stdpp Require Import base list gmap.
From S2P Require Import Prelude Mem Str.

Definition CHUNK_MAGIC_ALLOC : Z := 0x414C4F43.
Definition CHUNK_MAGIC_FREE : Z := 0x46524545.
Definition LARGE_ALLOC_THRESHOLD : Z := 128 * 1024.
Definition ARENA_DEFAULT_SIZE : Z := 64 * 1024.
Definition sizeof_Chunk : Z := 48.
Definition sizeof_Arena : Z := 32.
Definition sizeof_AtExitNode : Z := 32.

Record Chunk := mkChunk {
  c_magic : Z; c_isMmap : bool; c_size : Z; c_next : Z; c_prev : Z; c_prevPhys : Z; c_arena : Z }.
Record Arena := mkArena { totalSize : Z; activeChunks : Z; a_next : Z; a_prev : Z }.

Definition chunk0 : Chunk := mkChunk 0 false 0 0 0 0 0.
Definition arena0 : Arena := mkArena 0 0 0 0.

(** The functions registered for exit, newest first, with their nodes. *)
Record AtExitNode := mkNode { n_addr : Z; n_fn : Z; n_arg : Z; n_dso : Z }.

Record Libc := mkLibc {
  chunks : gmap Z Chunk; arenas : gmap Z Arena; gFreeList : Z; gArenaList : Z; gArenaCount : Z;
  gAtExitList : list AtExitNode; u_mem : mem }.

Definition ck (s : Libc) (a : Z) : Chunk := default chunk0 (chunks s !! a).
Definition ar (s : Libc) (a : Z) : Arena := default arena0 (arenas s !! a).

Definition set_ck (s : Libc) (a : Z) (c : Chunk) : Libc :=
  mkLibc (<[a := c]> (chunks s)) (arenas s) (gFreeList s) (gArenaList s) (gArenaCount s) (gAtExitList s) (u_mem s).
Definition set_ar (s : Libc) (a : Z) (x : Arena) : Libc :=
  mkLibc (chunks s) (<[a := x]> (arenas s)) (gFreeList s) (gArenaList s) (gArenaCount s) (gAtExitList s) (u_mem s).
Definition set_free (s : Libc) (h : Z) : Libc :=
  mkLibc (chunks s) (arenas s) h (gArenaList s) (gArenaCount s) (gAtExitList s) (u_mem s).
Definition set_arenas (s : Libc) (h n : Z) : Libc :=
  mkLibc (chunks s) (arenas s) (gFreeList s) h n (gAtExitList s) (u_mem s).
Definition set_exit (s : Libc) (l : list AtExitNode) : Libc :=
  mkLibc (chunks s) (arenas s) (gFreeList s) (gArenaList s) (gArenaCount s) l (u_mem s).
Definition set_umem (s : Libc) (m : mem) : Libc :=
  mkLibc (chunks s) (arenas s) (gFreeList s) (gArenaList s) (gArenaCount s) (gAtExitList s) m.

(** Field assignments through a pointer. *)
Definition upd_ck (s : Libc) (a : Z) (f : Chunk -> Chunk) : Libc := set_ck s a (f (ck s a)).
Definition upd_ar (s : Libc) (a : Z) (f : Arena -> Arena) : Libc := set_ar s a (f (ar s a)).
Definition with_links (n p : Z) (c : Chunk) : Chunk :=
  mkChunk (c_magic c) (c_isMmap c) (c_size c) n p (c_prevPhys c) (c_arena c).
Definition with_next (n : Z) (c : Chunk) : Chunk := with_links n (c_prev c) c.
Definition with_prev (p : Z) (c : Chunk) : Chunk := with_links (c_next c) p c.
Definition with_magic (m : Z) (c : Chunk) : Chunk :=
  mkChunk m (c_isMmap c) (c_size c) (c_next c) (c_prev c) (c_prevPhys c) (c_arena c).
Definition with_size (n : Z) (c : Chunk) : Chunk :=
  mkChunk (c_magic c) (c_isMmap c) n (c_next c) (c_prev c) (c_prevPhys c) (c_arena c).
Definition with_prevPhys (p : Z) (c : Chunk) : Chunk :=
  mkChunk (c_magic c) (c_isMmap c) (c_size c) (c_next c) (c_prev c) p (c_arena c).
Definition with_active (n : Z) (x : Arena) : Arena := mkArena (totalSize x) n (a_next x) (a_prev x).
Definition with_anext (n : Z) (x : Arena) : Arena := mkArena (totalSize x) (activeChunks x) n (a_prev x).
Definition with_aprev (p : Z) (x : Arena) : Arena := mkArena (totalSize x) (activeChunks x) (a_next x) p.

(** [(x + 15) & ~15] and [(x + 4095) & ~4095] *)
Definition align16 (x : Z) : Z := Z.land (u64 (x + 15)) (u64 (Z.lnot 15)).
Definition align4096 (x : Z) : Z := page_up x.

(** ** The lists *)
Definition addToFreeList (s : Libc) (c : Z) : Libc :=
  let s1 := upd_ck s c (with_links (gFreeList s) 0) in
  let s2 := if negb (gFreeList s =? 0) then upd_ck s1 (gFreeList s) (with_prev c) else s1 in
  set_free s2 c.

Definition removeFromFreeList (s : Libc) (c : Z) : Libc :=
  let n := c_next (ck s c) in
  let p := c_prev (ck s c) in
  let s1 := if negb (p =? 0) then upd_ck s p (with_next n) else set_free s n in
  let s2 := if negb (n =? 0) then upd_ck s1 n (with_prev p) else s1 in
  upd_ck s2 c (with_links 0 0).

Definition removeFromArenaList (s : Libc) (a : Z) : Libc :=
  let n := a_next (ar s a) in
  let p := a_prev (ar s a) in
  let s1 := if negb (p =? 0) then upd_ar s p (with_anext n) else set_arenas s n (gArenaCount s) in
  let s2 := if negb (n =? 0) then upd_ar s1 n (with_aprev p) else s1 in
  set_arenas s2 (gArenaList s2) (u64 (gArenaCount s2 - 1)).

(** munmap: nothing is left of the headers in the range. *)
Definition munmap (s : Libc) (base len : Z) : Libc :=
  mkLibc (filter (fun p => ~ (base <= p.1 < base + len)) (chunks s))
         (filter (fun p => ~ (base <= p.1 < base + len)) (arenas s))
         (gFreeList s) (gArenaList s) (gArenaCount s) (gAtExitList s) (u_mem s).

(** The end of the arena of a chunk, and the chunk after a chunk. *)
Definition arena_end (s : Libc) (a : Z) : Z := a + totalSize (ar s a).
Definition next_phys (s : Libc) (c : Z) : Z := c + sizeof_Chunk + c_size (ck s c).

(** [if (p < end of the arena) p->prevPhys = q] *)
Definition set_prevPhys_in (s : Libc) (a p q : Z) : Libc :=
  if p <? arena_end s a then upd_ck s p (with_prevPhys q) else s.

(** ** malloc *)

(** The walk over the free list for a chunk of the size. *)
Fixpoint find_fit (fuel : nat) (s : Libc) (curr size : Z) : option Z :=
  if curr =? 0 then Some 0
  else match fuel with
       | O => None
       | S k => if size <=? c_size (ck s curr) then Some curr else find_fit k s (c_next (ck s curr)) size
       end.

(** Cutting a free chunk off the end of [c], which keeps [size] bytes; the
    new chunk is not on the free list yet. *)
Definition split_off (s : Libc) (c size : Z) : Libc * Z :=
  let split := c + sizeof_Chunk + size in
  let a := c_arena (ck s c) in
  let old := ck s split in
  let s1 := set_ck s split (mkChunk CHUNK_MAGIC_FREE false (u64 (c_size (ck s c) - size - sizeof_Chunk))
                              (c_next old) (c_prev old) c a) in
  (set_prevPhys_in s1 a (next_phys s1 split) split, split).

Definition take_chunk (s : Libc) (curr size : Z) : Libc :=
  let s1 := removeFromFreeList s curr in
  let s2 :=
    if u64 (size + sizeof_Chunk + 16) <=? c_size (ck s1 curr) then
      let '(s2, split) := split_off s1 curr size in
      upd_ck (addToFreeList s2 split) curr (with_size size)
    else s1 in
  let s3 := upd_ck s2 curr (with_magic CHUNK_MAGIC_ALLOC) in
  let a := c_arena (ck s3 curr) in
  if negb (a =? 0) then upd_ar s3 a (fun x => with_active (u64 (activeChunks x + 1)) x) else s3.

Definition mmap_failed (mm : Z) : bool := (2 ^ 63 <=? mm) || (mm =? 0).

Definition arena_size (size : Z) : Z :=
  let needed := u64 (sizeof_Arena + sizeof_Chunk + size) in
  if ARENA_DEFAULT_SIZE <? needed then align4096 needed else ARENA_DEFAULT_SIZE.

(** A new arena at [mm] whose first chunk is allocated. *)
Definition new_arena (s : Libc) (mm size : Z) : Libc :=
  let arenaSz := arena_size size in
  let s1 := set_ar s mm (mkArena arenaSz 1 (gArenaList s) 0) in
  let s2 := if negb (gArenaList s =? 0) then upd_ar s1 (gArenaList s) (with_aprev mm) else s1 in
  let s3 := set_arenas s2 mm (u64 (gArenaCount s + 1)) in
  let c := mm + sizeof_Arena in
  let s4 := set_ck s3 c (mkChunk CHUNK_MAGIC_ALLOC false size 0 0 0 mm) in
  let remainder := u64 (arenaSz - sizeof_Arena - sizeof_Chunk - size) in
  if sizeof_Chunk + 16 <=? remainder then
    let r := c + sizeof_Chunk + size in
    let old := ck s4 r in
    addToFreeList (set_ck s4 r (mkChunk CHUNK_MAGIC_FREE false (remainder - sizeof_Chunk) (c_next old) (c_prev old) c mm)) r
  else s4.

(** [None] only without fuel for the walk: one step per header. *)
Definition malloc (s : Libc) (mm size : Z) : option (Libc * Z) :=
  if size =? 0 then Some (s, 0)
  else
    let size := align16 size in
    if LARGE_ALLOC_THRESHOLD <=? size then
      let pages := align4096 (u64 (size + sizeof_Chunk)) in
      if mmap_failed mm then Some (s, 0)
      else Some (set_ck s mm (mkChunk CHUNK_MAGIC_ALLOC true (u64 (pages - sizeof_Chunk)) 0 0 0 0), mm + sizeof_Chunk)
    else
      curr ← find_fit (S (base.size (chunks s))) s (gFreeList s) size;
      if negb (curr =? 0) then Some (take_chunk s curr size, curr + sizeof_Chunk)
      else if mmap_failed mm then Some (s, 0)
      else Some (new_arena s mm size, mm + sizeof_Arena + sizeof_Chunk).

(** ** free *)

(** Merging the free chunk after [c] into it. *)
Definition absorb_next (s : Libc) (c : Z) : Libc :=
  let n := next_phys s c in
  let s1 := removeFromFreeList s n in
  let s2 := upd_ck s1 c (fun x => with_size (u64 (c_size x + sizeof_Chunk + c_size (ck s1 n))) x) in
  set_prevPhys_in s2 (c_arena (ck s2 c)) (next_phys s2 c) c.

(** Whether the chunk after [c] is inside the arena and free. *)
Definition next_is_free (s : Libc) (c : Z) : bool :=
  (next_phys s c <? arena_end s (c_arena (ck s c))) && (c_magic (ck s (next_phys s c)) =? CHUNK_MAGIC_FREE).

(** Merging [c] into the free chunk before it. *)
Definition absorb_prev (s : Libc) (c p : Z) : Libc :=
  let s1 := removeFromFreeList s p in
  let s2 := upd_ck s1 p (fun x => with_size (u64 (c_size x + sizeof_Chunk + c_size (ck s1 c))) x) in
  set_prevPhys_in s2 (c_arena (ck s2 c)) (next_phys s2 p) p.

(** Releasing an arena that is one free chunk, or listing the chunk. *)
Definition release_or_list (s : Libc) (c : Z) : Libc :=
  let a := c_arena (ck s c) in
  if negb (a =? 0) && (activeChunks (ar s a) =? 0) && (1 <? gArenaCount s)
     && (c_prevPhys (ck s c) =? 0) && (next_phys s c =? arena_end s a)
  then munmap (removeFromArenaList s a) a (totalSize (ar s a))
  else addToFreeList s c.

Definition free (s : Libc) (ptr : Z) : Libc :=
  if ptr =? 0 then s
  else
    let c := ptr - sizeof_Chunk in
    if negb (c_magic (ck s c) =? CHUNK_MAGIC_ALLOC) then s
    else
      let s1 := upd_ck s c (with_magic CHUNK_MAGIC_FREE) in
      if c_isMmap (ck s1 c) then munmap s1 c (u64 (c_size (ck s1 c) + sizeof_Chunk))
      else
        let a := c_arena (ck s1 c) in
        let s2 := if negb (a =? 0) && (0 <? activeChunks (ar s1 a))
                  then upd_ar s1 a (fun x => with_active (activeChunks x - 1) x) else s1 in
        let s3 := if next_is_free s2 c then absorb_next s2 c else s2 in
        let p := c_prevPhys (ck s3 c) in
        if negb (p =? 0) && (c_magic (ck s3 p) =? CHUNK_MAGIC_FREE)
        then release_or_list (absorb_prev s3 c p) p
        else release_or_list s3 c.

(** ** calloc and realloc *)
Definition calloc (s : Libc) (mm nmemb size : Z) : option (Libc * Z) :=
  if negb (size =? 0) && (MAX64 / size <? nmemb) then Some (s, 0)
  else
    let total := u64 (nmemb * size) in
    '(s1, p) ← malloc s mm total;
    Some (if p =? 0 then s1 else set_umem s1 (memset_bytes (Z.to_nat total) (u_mem s1) p 0), p).

(** A new block with the contents of the old one, which is freed. *)
Definition move_block (s : Libc) (mm ptr c size : Z) : option (Libc * Z) :=
  '(s1, p) ← malloc s mm size;
  if p =? 0 then Some (s1, 0)
  else
    let copyLen := Z.min (c_size (ck s1 c)) size in
    Some (free (set_umem s1 (memcpy_bytes (Z.to_nat copyLen) (u_mem s1) p ptr)) ptr, p).

(** Shrinking in place: the rest becomes a free chunk, merged with the next. *)
Definition shrink (s : Libc) (c size : Z) : Libc :=
  if u64 (size + sizeof_Chunk + 16) <=? c_size (ck s c) then
    let '(s1, split) := split_off s c size in
    let s2 := upd_ck s1 c (with_size size) in
    let s3 := if next_is_free s2 split then absorb_next s2 split else s2 in
    addToFreeList s3 split
  else s.

(** Growing in place over the next chunk; what is left over is cut off. *)
Definition grow_over (s : Libc) (c size : Z) : Libc :=
  let s1 := absorb_next s c in
  if u64 (size + sizeof_Chunk + 16) <=? c_size (ck s1 c) then
    let '(s2, split) := split_off s1 c size in
    addToFreeList (upd_ck s2 c (with_size size)) split
  else s1.

Definition realloc (s : Libc) (mm ptr size : Z) : option (Libc * Z) :=
  if ptr =? 0 then malloc s mm size
  else if size =? 0 then Some (free s ptr, 0)
  else
    let c := ptr - sizeof_Chunk in
    if negb (c_magic (ck s c) =? CHUNK_MAGIC_ALLOC) then Some (s, 0)
    else
      let size := align16 size in
      if c_isMmap (ck s c) then
        if (size <=? c_size (ck s c)) && (c_size (ck s c) - size <? 4096) then Some (s, ptr)
        else move_block s mm ptr c size
      else if size <=? c_size (ck s c) then Some (shrink s c size, ptr)
      else if next_is_free s c && (size <=? u64 (c_size (ck s c) + sizeof_Chunk + c_size (ck s (next_phys s c))))
      then Some (grow_over s c size, ptr)
      else move_block s mm ptr c size.

(** ** Exit *)
Definition cxa_atexit (s : Libc) (mm fn arg dso : Z) : option (Libc * Z) :=
  if fn =? 0 then Some (s, 0)
  else
    '(s1, node) ← malloc s mm sizeof_AtExitNode;
    if node =? 0 then Some (s1, -1)
    else Some (set_exit s1 (mkNode node fn arg dso :: gAtExitList s1), 0).

(** [bridge] is the address of [atexitBridge], which calls its argument. *)
Definition atexit (s : Libc) (mm bridge fn : Z) : option (Libc * Z) := cxa_atexit s mm bridge fn 0.

(** The loop of [exit]: what each function does to the library state is
    [call]; the list was emptied first, so functions registered meanwhile
    are not run. *)
Fixpoint run_exit (call : Z -> Z -> Libc -> Libc) (l : list AtExitNode) (s : Libc) : Libc :=
  match l with
  | [] => s
  | n :: r =>
      let s1 := if negb (n_fn n =? 0) then call (n_fn n) (n_arg n) s else s in
      run_exit call r (free s1 (n_addr n))
  end.

Definition exit_ (call : Z -> Z -> Libc -> Libc) (s : Libc) : Libc :=
  run_exit call (gAtExitList s) (set_exit s []).

(** ** Numbers *)
Definition is_space (c : Z) : bool := (c =? 32) || ((9 <=? c) && (c <=? 13)).
Definition is_digit (c : Z) : bool := (48 <=? c) && (c <=? 57).

Fixpoint skip_space (l : list Z) : list Z :=
  match l with c :: r => if is_space c then skip_space r else l | [] => [] end.

(** The digit loop; it returns the bound as soon as it is passed. *)
Fixpoint atoi_digits (l : list Z) (neg : bool) (res : Z) : Z :=
  match l with
  | c :: r =>
      if is_digit c then
        let res := res * 10 + (c - 48) in
        if negb neg && (2147483647 <? res) then 2147483647
        else if neg && (- res <? -2147483648) then -2147483648
        else atoi_digits r neg res
      else if neg then - res else res
  | [] => if neg then - res else res
  end.

Definition atoi (s : list Z) : Z :=
  match skip_space s with
  | c :: r =>
      if c =? 45 then atoi_digits r true 0
      else if c =? 43 then atoi_digits r false 0
      else atoi_digits (c :: r) false 0
  | [] => 0
  end.

Definition abs (j : Z) : Z := if j =? -2147483648 then 2147483647 else if j <? 0 then - j else j.
