(* ===== verification/MallocInv.v ===== *)
(** * The user-space allocator: representation

    The arenas of [Malloc] as lists of tiles.  A tile is a chunk as the
    physical chain sees it: where its header is, how many bytes it has and
    whether it is free.  What the chain reads of a header is its tag; the
    free list reads the other two fields only, so that list operations keep
    tiles and tile operations keep the list. *)

From Stdlib Require Import ZArith Lia Bool.
From stdpp Require Import base list gmap.
From S2P Require Import Prelude Mem Str Dll Malloc.

Record Tag := mkTag { g_magic : Z; g_mmap : bool; g_size : Z; g_prev : Z; g_arena : Z }.
Definition tg (s : Libc) (x : Z) : Tag :=
  mkTag (c_magic (ck s x)) (c_isMmap (ck s x)) (c_size (ck s x)) (c_prevPhys (ck s x)) (c_arena (ck s x)).
Definition relink (p : Z) (t : Tag) : Tag := mkTag (g_magic t) (g_mmap t) (g_size t) p (g_arena t).
Definition resize (n : Z) (t : Tag) : Tag := mkTag (g_magic t) (g_mmap t) n (g_prev t) (g_arena t).
Definition remagic (m : Z) (t : Tag) : Tag := mkTag m (g_mmap t) (g_size t) (g_prev t) (g_arena t).

Record tile := mkTile { t_at : Z; t_len : Z; t_free : bool }.
Definition magic_of (f : bool) : Z := if f then CHUNK_MAGIC_FREE else CHUNK_MAGIC_ALLOC.

(** The chain from [lo], whose first chunk has [prevPhys = p]. *)
Fixpoint tiles (t : Z -> Tag) (a lo p : Z) (l : list tile) : Prop :=
  match l with
  | [] => True
  | x :: r =>
      t_at x = lo /\ t lo = mkTag (magic_of (t_free x)) false (t_len x) p a /\
      0 <= t_len x /\ t_len x mod 16 = 0 /\ tiles t a (lo + 48 + t_len x) (t_at x) r
  end.

Fixpoint tend (lo : Z) (l : list tile) : Z := match l with [] => lo | x :: r => tend (lo + 48 + t_len x) r end.
Fixpoint tlast (p : Z) (l : list tile) : Z := match l with [] => p | x :: r => tlast (t_at x) r end.

(** No two neighbours are free: [b] says whether the tile before is. *)
Fixpoint coalesced (b : bool) (l : list tile) : Prop :=
  match l with [] => True | x :: r => (b && t_free x) = false /\ coalesced (t_free x) r end.
Fixpoint last_free (b : bool) (l : list tile) : bool := match l with [] => b | x :: r => last_free (t_free x) r end.

(** ** Chains *)
Lemma tend_app lo l1 l2 : tend lo (l1 ++ l2) = tend (tend lo l1) l2.
Proof. revert lo. induction l1; simpl; auto. Qed.
Lemma tlast_app p l1 l2 : tlast p (l1 ++ l2) = tlast (tlast p l1) l2.
Proof. revert p. induction l1; simpl; auto. Qed.
Lemma last_free_app b l1 l2 : last_free b (l1 ++ l2) = last_free (last_free b l1) l2.
Proof. revert b. induction l1; simpl; auto. Qed.
Lemma coalesced_app b l1 l2 : coalesced b (l1 ++ l2) <-> coalesced b l1 /\ coalesced (last_free b l1) l2.
Proof. revert b. induction l1 as [|x r IH]; intros b; simpl; [tauto|]. rewrite IH. tauto. Qed.

Lemma coalesced_used b l : coalesced b l -> coalesced false l.
Proof. destruct l; simpl; [done|]. intros [_ H]. done. Qed.

Lemma tiles_app t a lo p l1 l2 :
  tiles t a lo p (l1 ++ l2) <-> tiles t a lo p l1 /\ tiles t a (tend lo l1) (tlast p l1) l2.
Proof. revert lo p. induction l1 as [|x r IH]; intros lo p; simpl; [tauto|]. rewrite IH. tauto. Qed.

Lemma tiles_tend t a lo p l : tiles t a lo p l -> lo <= tend lo l /\ (l <> [] -> lo + 48 <= tend lo l).
Proof.
  revert lo p. induction l as [|x r IH]; intros lo p H; simpl in *; [split; [lia|done]|].
  destruct H as (_ & _ & H0 & _ & H). apply IH in H. lia.
Qed.

Lemma tend_mod t a lo p l : tiles t a lo p l -> lo mod 16 = 0 -> tend lo l mod 16 = 0.
Proof.
  revert lo p. induction l as [|x r IH]; intros lo p H H0; simpl in *; [done|].
  destruct H as (_ & _ & _ & H1 & H). eapply IH; [exact H|]. divlia.
Qed.

Lemma tiles_in t a lo p l x : tiles t a lo p l -> x ∈ l ->
  lo <= t_at x /\ t_at x + 48 + t_len x <= tend lo l /\ 0 <= t_len x /\ t_len x mod 16 = 0 /\
  g_magic (t (t_at x)) = magic_of (t_free x) /\ g_mmap (t (t_at x)) = false /\
  g_size (t (t_at x)) = t_len x /\ g_arena (t (t_at x)) = a.
Proof.
  revert lo p. induction l as [|y r IH]; intros lo p H Hx; [by apply elem_of_nil in Hx|]. simpl in *.
  destruct H as (H1 & H2 & H3 & H4 & H). pose proof (tiles_tend _ _ _ _ _ H) as [Hge _].
  apply elem_of_cons in Hx as [->|Hx].
  - rewrite H1, H2. simpl. split_and!; lia || done.
  - destruct (IH _ _ H Hx) as (? & ? & Hr). split; [lia|]. split; [lia|exact Hr].
Qed.

Lemma tiles_ext t t' a lo p l : tiles t a lo p l ->
  (forall x, lo <= x < tend lo l -> t' x = t x) -> tiles t' a lo p l.
Proof.
  revert lo p. induction l as [|x r IH]; intros lo p H He; simpl in *; [done|].
  destruct H as (H1 & H2 & H3 & H4 & H). pose proof (tiles_tend _ _ _ _ _ H) as [Hge _].
  rewrite He by lia. split_and!; try done. apply (IH _ _ H). intros y Hy. apply He. lia.
Qed.

Lemma tiles_relink t t' a lo p p' l : tiles t a lo p l ->
  (forall x, lo <= x < tend lo l -> t' x = if x =? lo then relink p' (t x) else t x) -> tiles t' a lo p' l.
Proof.
  destruct l as [|x r]; intros H He; simpl in *; [done|].
  destruct H as (H1 & H2 & H3 & H4 & H). pose proof (tiles_tend _ _ _ _ _ H) as [Hge _].
  split_and!; try done.
  - rewrite He, Z.eqb_refl, H2 by lia. done.
  - apply (tiles_ext t); [done|]. intros y Hy. rewrite He by lia.
    destruct (Z.eqb_spec y lo); [lia|done].
Qed.

(** Replacing tiles in the middle of a chain by others that end at the same
    place; the chunk after them is pointed to the last of them. *)
Lemma tiles_replace t t' a lo p pre xs xs' post :
  let st := tend lo pre in let e := tend st xs in
  tiles t a lo p (pre ++ xs ++ post) -> tend st xs' = e -> tiles t' a st (tlast p pre) xs' ->
  (forall x, lo <= x < tend e post -> ~ st <= x < e ->
     t' x = if x =? e then relink (tlast (tlast p pre) xs') (t x) else t x) ->
  tiles t' a lo p (pre ++ xs' ++ post).
Proof.
  intros st e H Hte Hx' He. apply tiles_app in H as [Hpre H]. apply tiles_app in H as [Hxs Hpost].
  fold st e in Hxs, Hpost.
  pose proof (tiles_tend _ _ _ _ _ Hpre) as [? _]. pose proof (tiles_tend _ _ _ _ _ Hpost) as [? _].
  pose proof (tiles_tend _ _ _ _ _ Hxs) as [? _]. fold st in H. fold st e in H1.
  apply tiles_app. split; [|apply tiles_app; fold st; split; [done|]].
  - apply (tiles_ext t); [done|]. intros x Hx. fold st in Hx.
    rewrite He by lia. destruct (Z.eqb_spec x e); [lia|done].
  - rewrite Hte. apply (tiles_relink t _ _ _ (tlast (tlast p pre) xs)); [done|].
    intros x Hx. apply He; lia.
Qed.

(** ** Arenas *)
Record arena_ok (t : Z -> Tag) (a n : Z) (ts : list tile) : Prop := {
  ao_base : 0 < a /\ a mod 16 = 0 /\ n mod 16 = 0 /\ a + n <= 2 ^ 63;
  ao_tiles : tiles t a (a + 32) 0 ts;
  ao_some : ts <> [];
  (** What the chunks leave at the end is nothing, or the room of a header
      that was never written as a free chunk. *)
  ao_end : tend (a + 32) ts = a + n \/
           (tend (a + 32) ts = a + n - 48 /\ g_magic (t (a + n - 48)) <> CHUNK_MAGIC_FREE)
}.

Lemma arena_ok_tend t a n ts : arena_ok t a n ts -> a + 32 + 48 <= tend (a + 32) ts <= a + n.
Proof.
  intros H. destruct (tiles_tend _ _ _ _ _ (ao_tiles _ _ _ _ H)) as [_ Hl].
  specialize (Hl (ao_some _ _ _ _ H)). destruct (ao_end _ _ _ _ H) as [E|[E _]]; rewrite E in *; lia.
Qed.

Lemma arena_ok_ext t t' a n ts : arena_ok t a n ts ->
  (forall x, a <= x < a + n -> t' x = t x) -> arena_ok t' a n ts.
Proof.
  intros H He. pose proof (arena_ok_tend _ _ _ _ H) as Ht. destruct H as [Hb Htl Hs Hend].
  constructor; try done.
  - apply (tiles_ext t); [done|]. intros x Hx. apply He. lia.
  - destruct Hend as [E|[E Hm]]; [by left|right]. rewrite He by lia. done.
Qed.

Lemma arena_replace t t' a n pre xs xs' post :
  let st := tend (a + 32) pre in let e := tend st xs in
  arena_ok t a n (pre ++ xs ++ post) -> xs' <> [] -> tend st xs' = e -> tiles t' a st (tlast 0 pre) xs' ->
  (forall x, a <= x < a + n -> ~ st <= x < e ->
     t' x = if x =? e then relink (tlast (tlast 0 pre) xs') (t x) else t x) ->
  arena_ok t' a n (pre ++ xs' ++ post).
Proof.
  intros st e H Hne Hte Hx' He.
  pose proof (arena_ok_tend _ _ _ _ H) as Ht. destruct H as [Hb Htl Hs Hend].
  rewrite !tend_app in Ht, Hend. fold st e in Ht, Hend. constructor; try done.
  - apply (tiles_replace t _ _ _ _ _ xs); fold st e; try done. intros x Hx Hn. apply He; lia.
  - destruct pre; [|done]. by destruct xs'.
  - rewrite !tend_app. fold st. rewrite Hte. destruct Hend as [E|[E Hm]]; [by left|right]. split; [done|].
    assert (Hge : st <= e /\ e <= tend e post).
    { apply tiles_app in Htl as [Hpre Htl]. apply tiles_app in Htl as [Hxs Hpost]. fold st e in Hxs, Hpost.
      split; [apply (tiles_tend _ _ _ _ _ Hxs)|apply (tiles_tend _ _ _ _ _ Hpost)]. }
    rewrite He by lia. destruct (_ =? e); done.
Qed.

(** ** What the primitive updates change *)
Lemma ck_set s a c x : ck (set_ck s a c) x = if x =? a then c else ck s x.
Proof.
  unfold ck, set_ck. simpl. destruct (Z.eqb_spec x a) as [->|].
  - by rewrite lookup_insert_eq.
  - by rewrite lookup_insert_ne.
Qed.

Lemma ar_set s a c x : ar (set_ar s a c) x = if x =? a then c else ar s x.
Proof.
  unfold ar, set_ar. simpl. destruct (Z.eqb_spec x a) as [->|].
  - by rewrite lookup_insert_eq.
  - by rewrite lookup_insert_ne.
Qed.

Lemma ck_upd s a f x : ck (upd_ck s a f) x = if x =? a then f (ck s a) else ck s x.
Proof. apply ck_set. Qed.
Lemma ar_upd s a f x : ar (upd_ar s a f) x = if x =? a then f (ar s a) else ar s x.
Proof. apply ar_set. Qed.

Definition nx (s : Libc) (x : Z) : Z := c_next (ck s x).
Definition pv (s : Libc) (x : Z) : Z := c_prev (ck s x).
Definition anx (s : Libc) (x : Z) : Z := a_next (ar s x).
Definition apv (s : Libc) (x : Z) : Z := a_prev (ar s x).

(** The state but for the free list. *)
Definition same_tags (s s' : Libc) : Prop :=
  (forall x, tg s' x = tg s x) /\ arenas s' = arenas s /\ gArenaList s' = gArenaList s /\
  gArenaCount s' = gArenaCount s /\ gAtExitList s' = gAtExitList s /\ u_mem s' = u_mem s.
(** The free list. *)
Definition same_list (s s' : Libc) : Prop :=
  (forall x, nx s' x = nx s x /\ pv s' x = pv s x) /\ gFreeList s' = gFreeList s.

Lemma tg_upd s a f x : tg (upd_ck s a f) x = if x =? a then tg (upd_ck s a f) a else tg s x.
Proof. unfold tg. rewrite !ck_upd. destruct (Z.eqb_spec x a) as [->|]; [by rewrite Z.eqb_refl|done]. Qed.

(** Updates of the links keep the tags, and conversely. *)
Lemma tg_links s a f x :
  (forall c, c_magic (f c) = c_magic c /\ c_isMmap (f c) = c_isMmap c /\ c_size (f c) = c_size c /\
     c_prevPhys (f c) = c_prevPhys c /\ c_arena (f c) = c_arena c) -> tg (upd_ck s a f) x = tg s x.
Proof.
  intros Hf. unfold tg. rewrite ck_upd. destruct (Z.eqb_spec x a) as [->|]; [|done].
  destruct (Hf (ck s a)) as (-> & -> & -> & -> & ->). done.
Qed.

Lemma same_list_upd s a f : (forall c, c_next (f c) = c_next c /\ c_prev (f c) = c_prev c) ->
  same_list s (upd_ck s a f).
Proof.
  intros Hf. split; [|done]. intros x. unfold nx, pv. rewrite ck_upd.
  destruct (Z.eqb_spec x a) as [->|]; [apply Hf|done].
Qed.

Lemma same_list_trans s1 s2 s3 : same_list s1 s2 -> same_list s2 s3 -> same_list s1 s3.
Proof.
  intros [H1 E1] [H2 E2]. split; [|congruence]. intros x.
  destruct (H1 x), (H2 x). split; congruence.
Qed.

Lemma same_tags_trans s1 s2 s3 : same_tags s1 s2 -> same_tags s2 s3 -> same_tags s1 s3.
Proof.
  intros (Ha & ? & ? & ? & ? & ?) (Hb & ? & ? & ? & ? & ?). split_and!; try congruence.
Qed.

Lemma same_list_ar s a x : same_list s (upd_ar s a x).
Proof. done. Qed.

Lemma same_list_prevPhys s a p q : same_list s (set_prevPhys_in s a p q).
Proof. unfold set_prevPhys_in. destruct (_ <? _); [|done]. by apply same_list_upd. Qed.

Lemma tg_prevPhys s a p q x :
  tg (set_prevPhys_in s a p q) x = if (x =? p) && (p <? arena_end s a) then relink q (tg s x) else tg s x.
Proof.
  unfold set_prevPhys_in. destruct (p <? arena_end s a); [|by rewrite andb_false_r].
  rewrite andb_true_r, tg_upd. destruct (Z.eqb_spec x p) as [->|]; [|done].
  unfold tg. rewrite ck_upd, Z.eqb_refl. done.
Qed.

Lemma arenas_prevPhys s a p q : arenas (set_prevPhys_in s a p q) = arenas s.
Proof. unfold set_prevPhys_in. by destruct (_ <? _). Qed.

(** ** The free list *)
Record flist (s : Libc) (L : list Z) : Prop := {
  fl_dll : dll (nx s) (pv s) 0 L 0;
  fl_head : gFreeList s = first_or 0 L;
  fl_nodup : NoDup L
}.

Lemma flist_same s s' L : flist s L -> same_list s s' -> flist s' L.
Proof.
  intros [H1 H2 H3] [Hs Hf]. constructor; [|congruence|done].
  apply (dll_ext (nx s) (pv s)); [done|]. intros x _. apply Hs.
Qed.

Lemma add_tags s c : same_tags s (addToFreeList s c).
Proof.
  unfold addToFreeList. destruct (negb _); (split; [intros x|done]); unfold set_free; [|by apply (tg_links s c)].
  transitivity (tg (upd_ck s c (with_links (gFreeList s) 0)) x).
  - by apply (tg_links (upd_ck s c (with_links (gFreeList s) 0)) (gFreeList s) (with_prev c)).
  - by apply tg_links.
Qed.

Lemma ck_add s c x : gFreeList s <> c ->
  ck (addToFreeList s c) x =
  if x =? c then with_links (gFreeList s) 0 (ck s c)
  else if (x =? gFreeList s) && negb (gFreeList s =? 0) then with_prev c (ck s x) else ck s x.
Proof.
  intros Hne. unfold addToFreeList.
  change (ck (set_free ?a c) x) with (ck a x). destruct (negb (gFreeList s =? 0)); rewrite !ck_upd; bsplit; try done.
  all: rewrite ?andb_false_r; subst; try done.
Qed.

Lemma flist_add s c L : flist s L -> c <> 0 -> c ∉ L -> flist (addToFreeList s c) (c :: L).
Proof.
  intros [Hd Hh Hn] Hc Hin.
  assert (Hne : gFreeList s <> c) by (rewrite Hh; destruct L; simpl; [done|intros ->; apply Hin; left]).
  constructor; [|done|by apply NoDup_cons].
  apply (dll_push (nx s) (pv s)); try done; intros x _ Hx; rewrite <- Hh;
    unfold nx, pv; rewrite ck_add by done; bsplit; subst; done.
Qed.

(** *** Unlinking *)
Lemma ck_remove s c x : nx s c <> c -> pv s c <> c ->
  ck (removeFromFreeList s c) x =
  if x =? c then with_links 0 0 (ck s c)
  else with_links (if (x =? pv s c) && negb (pv s c =? 0) then nx s c else nx s x)
                  (if (x =? nx s c) && negb (nx s c =? 0) then pv s c else pv s x) (ck s x).
Proof.
  intros Hn Hp. unfold removeFromFreeList. fold (nx s c) (pv s c).
  assert (Hid : forall y, with_links (nx s y) (pv s y) (ck s y) = ck s y)
    by (intros y; unfold with_links, nx, pv; by destruct (ck s y)).
  destruct (Z.eqb_spec (pv s c) 0) as [E|E], (Z.eqb_spec (nx s c) 0) as [E'|E']; simpl;
    rewrite ?ck_upd; change (ck (set_free s ?h)) with (ck s); rewrite ?andb_false_r, ?andb_true_r;
    bsplit; subst; rewrite ?Hid, ?Z.eqb_refl; try done; try lia; by rewrite e1.
Qed.

Lemma remove_tags s c : same_tags s (removeFromFreeList s c).
Proof.
  unfold removeFromFreeList.
  assert (Hl : forall s a n p, same_tags s (upd_ck s a (with_links n p))) by (intros; split; [intros; by apply tg_links|done]).
  assert (Hn : forall s a n, same_tags s (upd_ck s a (with_next n))) by (intros; split; [intros; by apply tg_links|done]).
  assert (Hp : forall s a p, same_tags s (upd_ck s a (with_prev p))) by (intros; split; [intros; by apply tg_links|done]).
  eapply same_tags_trans; [|apply Hl].
  destruct (negb (c_prev _ =? 0)), (negb (c_next _ =? 0)); try (eapply same_tags_trans; [|apply Hp]); try apply Hn; done.
Qed.

Lemma flist_remove s c l1 l2 : flist s (l1 ++ c :: l2) -> flist (removeFromFreeList s c) (l1 ++ l2).
Proof.
  intros [Hd Hh Hn]. destruct (dll_mid _ _ _ _ _ Hd) as (Hc & Hpv & Hnx & Hfst).
  assert (Hne1 : nx s c <> c).
  { rewrite Hnx. destruct l2 as [|y r]; simpl; [done|]. intros ->.
    apply NoDup_app in Hn as (_ & _ & Hn). apply NoDup_cons in Hn as [Hn _]. apply Hn. left. }
  assert (Hne2 : pv s c <> c).
  { rewrite Hpv. destruct l1 as [|y r]; [done|]. intros E.
    apply NoDup_app in Hn as (_ & Hn & _). apply (Hn c); [|left]. rewrite <- E at 1. by apply last_or_in. }
  constructor.
  - apply (dll_unlink (nx s) (pv s) _ _ c); try done; intros x _ Hx Hxc; unfold nx at 1, pv at 1;
      rewrite ck_remove by done; simpl; (destruct (Z.eqb_spec x c); [done|simpl]); bsplit; subst; done.
  - rewrite Hfst, <- Hh. unfold removeFromFreeList. fold (nx s c) (pv s c).
    destruct (negb (nx s c =? 0)), (pv s c =? 0); done.
  - apply NoDup_app in Hn as (H1 & H2 & H3). apply NoDup_cons in H3 as [H3 H4]. apply NoDup_app.
    split_and!; try done. intros x Hx Hx2. apply (H2 x Hx). by right.
Qed.
