(* ===== verification/MallocOps.v ===== *)
(** * The C library heap: blocks and their operations

    Changes of the block list, and the operations of lib/libc/stdlib.c on it. *)

From Stdlib Require Import ZArith Lia Bool.
From stdpp Require Import base list gmap.
From S2P Require Import Prelude Mem Str Dll Malloc MallocInv.

(** ** The user-space allocator: the heap invariant

    All of the allocator's memory as a list of arenas, each a chain of tiles,
    and a list of separately mapped blocks.  [heapF s A L F B] holds of the
    states inside an operation, where the free tiles at [F] are not on the
    free list; [heap] holds between operations: nothing is off the list and
    no two neighbouring tiles are free. *)

Record shape := mkShape { sh_at : Z; sh_len : Z; sh_tiles : list tile }.

Definition used (l : list tile) : list tile := List.filter (fun t => negb (t_free t)) l.
Definition unused (l : list tile) : list tile := List.filter t_free l.
Definition free_at (A : list shape) : list Z := t_at <$> (A ≫= fun r => unused (sh_tiles r)).

(** The blocks the program holds: where they start and how long they are. *)
Definition blocks (A : list shape) (B : list (Z * Z)) : list (Z * Z) :=
  ((fun t => (t_at t + 48, t_len t)) <$> (A ≫= fun r => used (sh_tiles r))) ++ ((fun b => (b.1 + 48, b.2)) <$> B).

(** The mapped memory. *)
Definition regions (A : list shape) (B : list (Z * Z)) : list (Z * Z) :=
  ((fun r => (sh_at r, sh_len r)) <$> A) ++ ((fun b => (b.1, b.2 + 48)) <$> B).

Record shape_ok (s : Libc) (r : shape) : Prop := {
  so_ok : arena_ok (tg s) (sh_at r) (sh_len r) (sh_tiles r);
  so_total : totalSize (ar s (sh_at r)) = sh_len r;
  so_active : activeChunks (ar s (sh_at r)) = Z.of_nat (length (used (sh_tiles r)))
}.

Definition big_ok (s : Libc) (b : Z * Z) : Prop :=
  0 < b.1 /\ b.1 mod 16 = 0 /\ 0 <= b.2 /\ b.1 + 48 + b.2 <= 2 ^ 63 /\
  tg s b.1 = mkTag CHUNK_MAGIC_ALLOC true b.2 0 0.

Record heapF (s : Libc) (A : list shape) (L F : list Z) (B : list (Z * Z)) : Prop := {
  hp_arena : Forall (shape_ok s) A;
  hp_alist : dll (anx s) (apv s) 0 (sh_at <$> A) 0;
  hp_ahead : gArenaList s = first_or 0 (sh_at <$> A);
  hp_count : gArenaCount s = u64 (Z.of_nat (length A));
  hp_flist : flist s L;
  hp_free : L ++ F ≡ₚ free_at A;
  hp_big : Forall (big_ok s) B;
  hp_apart : apart (regions A B)
}.

Definition heap (s : Libc) (A : list shape) (L : list Z) (B : list (Z * Z)) : Prop :=
  heapF s A L [] B /\ Forall (fun r => coalesced false (sh_tiles r)) A.

(** ** Regions *)
Lemma regions_mid A1 r A2 B :
  regions (A1 ++ r :: A2) B ≡ₚ (sh_at r, sh_len r) :: regions (A1 ++ A2) B.
Proof. unfold regions. rewrite !fmap_app, fmap_cons, <- !app_assoc. symmetry. apply Permutation_middle. Qed.

Lemma regions_big A B1 b B2 : regions A (B1 ++ b :: B2) ≡ₚ (b.1, b.2 + 48) :: regions A (B1 ++ B2).
Proof. unfold regions. rewrite !fmap_app, fmap_cons, !app_assoc. symmetry. apply Permutation_middle. Qed.

Lemma free_at_app A1 A2 : free_at (A1 ++ A2) = free_at A1 ++ free_at A2.
Proof. unfold free_at. by rewrite bind_app, fmap_app. Qed.

(** The free tiles but for those of [mid]. *)
Lemma free_at_mid A1 A2 a n pre mid post :
  free_at (A1 ++ mkShape a n (pre ++ mid ++ post) :: A2) ≡ₚ
  (t_at <$> unused mid) ++ free_at (A1 ++ mkShape a n (pre ++ post) :: A2).
Proof.
  rewrite !free_at_app. unfold free_at. simpl. unfold unused. rewrite !List.filter_app, !fmap_app. solve_Permutation.
Qed.

(** ** Changing one arena *)
Lemma heap_other s A1 r A2 L F B q : heapF s (A1 ++ r :: A2) L F B -> q ∈ A1 ++ A2 ->
  disj (sh_at r, sh_len r) (sh_at q, sh_len q).
Proof.
  intros H Hq. pose proof (hp_apart _ _ _ _ _ H) as Ha. rewrite regions_mid in Ha.
  apply (apart_head _ _ _ Ha). unfold regions. apply elem_of_app. left.
  apply (list_elem_of_fmap_2 (fun r => (sh_at r, sh_len r))). done.
Qed.

Lemma heap_big_out s A1 r A2 L F B b : heapF s (A1 ++ r :: A2) L F B -> b ∈ B ->
  disj (sh_at r, sh_len r) (b.1, b.2 + 48).
Proof.
  intros H Hq. pose proof (hp_apart _ _ _ _ _ H) as Ha. rewrite regions_mid in Ha.
  apply (apart_head _ _ _ Ha). unfold regions. apply elem_of_app. right.
  apply (list_elem_of_fmap_2 (fun b => (b.1, b.2 + 48))). done.
Qed.

Lemma shape_of s A1 r A2 L F B : heapF s (A1 ++ r :: A2) L F B -> shape_ok s r.
Proof.
  intros H. pose proof (hp_arena _ _ _ _ _ H) as Ha. rewrite Forall_app, Forall_cons in Ha. tauto.
Qed.

(** A shape whose memory is left alone stays. *)
Lemma shape_ok_ext s s' q : shape_ok s q ->
  (forall x, sh_at q <= x < sh_at q + sh_len q -> tg s' x = tg s x) ->
  totalSize (ar s' (sh_at q)) = totalSize (ar s (sh_at q)) ->
  activeChunks (ar s' (sh_at q)) = activeChunks (ar s (sh_at q)) -> shape_ok s' q.
Proof.
  intros [H1 H2 H3] Ht E1 E2. constructor; [|congruence|congruence].
  by apply (arena_ok_ext (tg s)).
Qed.

Lemma heap_focus s s' A1 A2 r r' L L' F F' B :
  heapF s (A1 ++ r :: A2) L F B -> sh_at r' = sh_at r -> sh_len r' = sh_len r ->
  (forall x, ~ sh_at r <= x < sh_at r + sh_len r -> tg s' x = tg s x) ->
  arena_ok (tg s') (sh_at r) (sh_len r) (sh_tiles r') ->
  (forall x, ar s' x = if x =? sh_at r then with_active (Z.of_nat (length (used (sh_tiles r')))) (ar s x) else ar s x) ->
  gArenaList s' = gArenaList s -> gArenaCount s' = gArenaCount s ->
  flist s' L' -> L' ++ F' ≡ₚ free_at (A1 ++ r' :: A2) -> heapF s' (A1 ++ r' :: A2) L' F' B.
Proof.
  intros H Ea El Ht Hok Har E1 E2 Hfl Hfr.
  assert (Hmap : sh_at <$> (A1 ++ r' :: A2) = sh_at <$> (A1 ++ r :: A2)) by (rewrite !fmap_app, !fmap_cons, Ea; done).
  assert (Hoth : forall q, q ∈ A1 ++ A2 -> shape_ok s q -> shape_ok s' q).
  { intros q Hq Hs. pose proof (heap_other _ _ _ _ _ _ _ _ H Hq) as Hd. unfold disj in Hd. simpl in Hd.
    pose proof (arena_ok_tend _ _ _ _ (so_ok _ _ Hs)). pose proof (arena_ok_tend _ _ _ _ Hok).
    apply (shape_ok_ext s); try done; [intros x Hx; apply Ht; lia| |];
      rewrite Har; (destruct (Z.eqb_spec (sh_at q) (sh_at r)); [lia|done]). }
  constructor; try done.
  - pose proof (hp_arena _ _ _ _ _ H) as Ha. apply Forall_app in Ha as [H1 H2]. apply Forall_cons in H2 as [H2 H3].
    apply Forall_app. split; [|apply Forall_cons; split].
    + rewrite Forall_forall in *. intros q Hq. apply Hoth; [apply elem_of_app; by left|auto].
    + constructor; rewrite ?Ea, ?El; [done| |]; rewrite Har, Z.eqb_refl; [apply H2|done].
    + rewrite Forall_forall in *. intros q Hq. apply Hoth; [apply elem_of_app; by right|auto].
  - rewrite Hmap. apply (dll_ext (anx s) (apv s)); [apply H|]. intros x _. unfold anx, apv. rewrite Har. by destruct (_ =? _).
  - rewrite Hmap, E1. apply H.
  - rewrite E2, (hp_count _ _ _ _ _ H), !length_app. done.
  - pose proof (hp_big _ _ _ _ _ H) as Hb. rewrite Forall_forall in *. intros b Hb'. destruct (Hb b Hb') as (? & ? & ? & ? & E).
    pose proof (heap_big_out _ _ _ _ _ _ _ _ H Hb') as Hd. unfold disj in Hd. simpl in Hd.
    pose proof (arena_ok_tend _ _ _ _ Hok). split_and!; try done. rewrite Ht by lia. done.
  - pose proof (hp_apart _ _ _ _ _ H) as Hd. rewrite regions_mid in Hd |- *. rewrite Ea, El. done.
Qed.

(** Replacing tiles of an arena. *)
Lemma heap_replace s s' A1 A2 a n pre mid mid' post L L' F F' B :
  let st := tend (a + 32) pre in let e := tend st mid in
  heapF s (A1 ++ mkShape a n (pre ++ mid ++ post) :: A2) L F B ->
  mid' <> [] -> tend st mid' = e -> tiles (tg s') a st (tlast 0 pre) mid' ->
  (forall x, ~ st <= x < e ->
     tg s' x = if (x =? e) && (e <? a + n) then relink (tlast (tlast 0 pre) mid') (tg s x) else tg s x) ->
  (forall x, ar s' x = if x =? a
     then with_active (activeChunks (ar s a) - Z.of_nat (length (used mid)) + Z.of_nat (length (used mid'))) (ar s x)
     else ar s x) ->
  gArenaList s' = gArenaList s -> gArenaCount s' = gArenaCount s -> flist s' L' ->
  L' ++ F' ≡ₚ (t_at <$> unused mid') ++ free_at (A1 ++ mkShape a n (pre ++ post) :: A2) ->
  heapF s' (A1 ++ mkShape a n (pre ++ mid' ++ post) :: A2) L' F' B.
Proof.
  intros st e H Hne Hte Htl Htg Har E1 E2 Hfl Hfr. pose proof (shape_of _ _ _ _ _ _ _ H) as [Hok Htot Hact]. simpl in *.
  pose proof (arena_ok_tend _ _ _ _ Hok) as Hend. rewrite !tend_app in Hend. fold st e in Hend.
  assert (Hge : a + 32 <= st /\ st <= e /\ e <= tend e post).
  { pose proof (ao_tiles _ _ _ _ Hok) as Ht. apply tiles_app in Ht as [Hp Ht]. apply tiles_app in Ht as [Hm Hq].
    fold st e in Hm, Hq. split_and!; [apply (tiles_tend _ _ _ _ _ Hp)|apply (tiles_tend _ _ _ _ _ Hm)|apply (tiles_tend _ _ _ _ _ Hq)]. }
  apply (heap_focus s _ _ _ (mkShape a n (pre ++ mid ++ post)) _ L _ F); try done; simpl.
  - intros x Hx. rewrite Htg by lia. destruct (Z.eqb_spec x e), (Z.ltb_spec e (a + n)); simpl; lia || done.
  - apply (arena_replace (tg s) _ _ _ _ mid); try done. intros x Hx Hn. fold st e in Hn |- *. rewrite Htg by lia.
    destruct (Z.eqb_spec x e), (Z.ltb_spec e (a + n)); simpl; lia || done.
  - intros x. rewrite Har. destruct (Z.eqb_spec x a) as [->|]; [|done]. f_equal.
    rewrite Hact. unfold used. rewrite !List.filter_app, !length_app. lia.
  - rewrite free_at_mid. done.
Qed.

(** Free tiles are inside their arenas. *)
Lemma free_at_in s A x : Forall (shape_ok s) A -> x ∈ free_at A ->
  exists q, q ∈ A /\ shape_ok s q /\ sh_at q + 32 <= x /\ x + 48 <= sh_at q + sh_len q.
Proof.
  intros Ha Hx. unfold free_at in Hx. apply list_elem_of_fmap in Hx as (t & -> & Hx).
  apply list_elem_of_bind in Hx as (q & Ht' & Hq). exists q. rewrite Forall_forall in Ha. pose proof (Ha q Hq) as Hs.
  assert (Ht : t ∈ sh_tiles q) by (apply list_elem_of_In; apply list_elem_of_In in Ht'; apply filter_In in Ht'; tauto).
  pose proof (arena_ok_tend _ _ _ _ (so_ok _ _ Hs)).
  destruct (tiles_in _ _ _ _ _ _ (ao_tiles _ _ _ _ (so_ok _ _ Hs)) Ht) as (? & ? & ? & _). split_and!; try done; lia.
Qed.

(** The free tiles of the other arenas are outside of an arena. *)
Lemma free_at_other s A1 r A2 L F B x :
  heapF s (A1 ++ r :: A2) L F B -> x ∈ free_at (A1 ++ A2) -> 0 < x /\ ~ sh_at r <= x < sh_at r + sh_len r.
Proof.
  intros H Hx. assert (Hf : Forall (shape_ok s) (A1 ++ A2))
    by (pose proof (hp_arena _ _ _ _ _ H) as Hf; rewrite Forall_app, Forall_cons in Hf; rewrite Forall_app; tauto).
  destruct (free_at_in _ _ _ Hf Hx) as (q & Hq & Hs & H1 & H2).
  pose proof (heap_other _ _ _ _ _ _ _ _ H Hq) as Hd. unfold disj in Hd. simpl in Hd.
  pose proof (proj1 (ao_base _ _ _ _ (so_ok _ _ Hs))). lia.
Qed.

(** No free tile but those of [mid] starts between its ends. *)
Lemma free_at_rest_out s A1 A2 a n pre mid post L F B x :
  heapF s (A1 ++ mkShape a n (pre ++ mid ++ post) :: A2) L F B ->
  x ∈ free_at (A1 ++ mkShape a n (pre ++ post) :: A2) ->
  0 < x /\ ~ (tend (a + 32) pre <= x < tend (tend (a + 32) pre) mid).
Proof.
  intros H Hx. pose proof (shape_of _ _ _ _ _ _ _ H) as [Hok _ _]. simpl in Hok.
  pose proof (arena_ok_tend _ _ _ _ Hok) as Hend. rewrite !tend_app in Hend.
  pose proof (proj1 (ao_base _ _ _ _ Hok)) as Ha0.
  pose proof (ao_tiles _ _ _ _ Hok) as Ht. apply tiles_app in Ht as [Hp Ht]. apply tiles_app in Ht as [Hm Hq].
  pose proof (tiles_tend _ _ _ _ _ Hp) as [? _]. pose proof (tiles_tend _ _ _ _ _ Hm) as [? _].
  pose proof (tiles_tend _ _ _ _ _ Hq) as [? _].
  assert (Hor : x ∈ free_at (A1 ++ A2) \/ x ∈ t_at <$> unused (pre ++ post)).
  { rewrite free_at_app in Hx |- *. unfold free_at in Hx at 2. simpl in Hx. rewrite fmap_app in Hx. fold (free_at A2) in Hx.
    rewrite !elem_of_app in *. tauto. }
  destruct Hor as [Hr|Hr].
  - destruct (free_at_other _ _ _ _ _ _ _ _ H Hr). simpl in *. lia.
  - apply list_elem_of_fmap in Hr as (t & -> & Hr). apply list_elem_of_In, filter_In in Hr as [Hr _].
    apply list_elem_of_In, elem_of_app in Hr as [Hr|Hr].
    + destruct (tiles_in _ _ _ _ _ _ Hp Hr) as (? & ? & ? & _). lia.
    + destruct (tiles_in _ _ _ _ _ _ Hq Hr) as (? & ? & ? & _). lia.
Qed.

(** ** The user-space allocator: the steps of its operations

    What splitting, merging, marking and listing a chunk do to the heap.
    The operations of [Malloc] are sequences of these steps. *)

Lemma tg_with_size s a n x : tg (upd_ck s a (with_size n)) x = if x =? a then resize n (tg s x) else tg s x.
Proof. unfold tg. rewrite ck_upd. destruct (Z.eqb_spec x a) as [->|]; done. Qed.
Lemma tg_with_size_fun s a h x :
  tg (upd_ck s a (fun c => with_size (h c) c)) x = if x =? a then resize (h (ck s a)) (tg s x) else tg s x.
Proof. unfold tg. rewrite ck_upd. destruct (Z.eqb_spec x a) as [->|]; done. Qed.
Lemma tg_with_magic s a m x : tg (upd_ck s a (with_magic m)) x = if x =? a then remagic m (tg s x) else tg s x.
Proof. unfold tg. rewrite ck_upd. destruct (Z.eqb_spec x a) as [->|]; done. Qed.

Lemma ar_arenas s s' x : arenas s' = arenas s -> ar s' x = ar s x.
Proof. unfold ar. by intros ->. Qed.

(** Reading a header through its tag. *)
Lemma size_tg s x : c_size (ck s x) = g_size (tg s x).
Proof. done. Qed.
Lemma arena_tg s x : c_arena (ck s x) = g_arena (tg s x).
Proof. done. Qed.
Lemma magic_tg s x : c_magic (ck s x) = g_magic (tg s x).
Proof. done. Qed.
Lemma prev_tg s x : c_prevPhys (ck s x) = g_prev (tg s x).
Proof. done. Qed.

(** What is known of a tile of an arena of the heap. *)
Record spot (s : Libc) (a n : Z) (pre : list tile) (x : tile) (post : list tile) : Prop := {
  sp_at : t_at x = tend (a + 32) pre;
  sp_tag : tg s (t_at x) = mkTag (magic_of (t_free x)) false (t_len x) (tlast 0 pre) a;
  sp_pos : 0 < a /\ a + 32 <= t_at x /\ 0 <= t_len x;
  sp_mod : a mod 16 = 0 /\ t_at x mod 16 = 0 /\ t_len x mod 16 = 0;
  sp_lim : t_at x + 48 + t_len x <= a + n /\ a + n <= 2 ^ 63;
  sp_post : tiles (tg s) a (t_at x + 48 + t_len x) (t_at x) post;
  sp_end : tend (t_at x + 48 + t_len x) post <= a + n;
  sp_arena : arena_end s a = a + n
}.

Lemma heap_spot s A1 A2 a n pre x post L F B :
  heapF s (A1 ++ mkShape a n (pre ++ x :: post) :: A2) L F B -> spot s a n pre x post.
Proof.
  intros H. pose proof (shape_of _ _ _ _ _ _ _ H) as [Hok Htot _]. simpl in *.
  pose proof (arena_ok_tend _ _ _ _ Hok) as Hend. destruct Hok as [Hb Ht _ _].
  pose proof Ht as Hm. apply tiles_app in Ht as [Hp Ht]. rewrite tend_app in Hend. simpl in Ht, Hend.
  destruct Ht as (E & Ht & H0 & H1 & Hq). rewrite <- E in *.
  pose proof (tiles_tend _ _ _ _ _ Hp) as [? _]. pose proof (tiles_tend _ _ _ _ _ Hq) as [? _].
  pose proof (tend_mod _ _ _ _ _ Hp ltac:(divlia)). rewrite <- E in *.
  constructor; try done; try lia. unfold arena_end. by rewrite Htot.
Qed.

(** A free tile of an arena that is not off the list is on it. *)
Lemma free_tile_listed s A1 A2 a n pre x post L F B :
  heapF s (A1 ++ mkShape a n (pre ++ x :: post) :: A2) L F B -> t_free x = true -> t_at x ∉ F ->
  exists l1 l2, L = l1 ++ t_at x :: l2 /\ (l1 ++ l2) ++ F ≡ₚ free_at (A1 ++ mkShape a n (pre ++ post) :: A2).
Proof.
  intros H Hf Hn. pose proof (hp_free _ _ _ _ _ H) as Hp.
  rewrite (free_at_mid A1 A2 a n pre [x] post : _ ≡ₚ _) in Hp. unfold unused in Hp at 1. simpl in Hp. rewrite Hf in Hp. simpl in Hp.
  assert (Hin : t_at x ∈ L ++ F) by (rewrite Hp; left). apply elem_of_app in Hin as [Hin|]; [|done].
  apply list_elem_of_split in Hin as (l1 & l2 & ->). exists l1, l2. split; [done|].
  rewrite <- app_assoc in Hp |- *. simpl in Hp. rewrite <- Permutation_middle in Hp. by apply Permutation_cons_inv in Hp.
Qed.

(** The arenas but for the tiles. *)
Definition same_arenas (s s' : Libc) : Prop :=
  arenas s' = arenas s /\ gArenaList s' = gArenaList s /\ gArenaCount s' = gArenaCount s.

Lemma same_arenas_prevPhys s a p q : same_arenas s (set_prevPhys_in s a p q).
Proof. unfold set_prevPhys_in. by destruct (_ <? _). Qed.

Lemma same_arenas_trans s1 s2 s3 : same_arenas s1 s2 -> same_arenas s2 s3 -> same_arenas s1 s3.
Proof. unfold same_arenas. intros (-> & -> & ->) (-> & -> & ->). done. Qed.

Lemma tags_arenas s s' : same_tags s s' -> same_arenas s s'.
Proof. intros (_ & ? & ? & ? & _). done. Qed.

(** Replacing tiles by others of which as many are used. *)
Lemma heap_replace_same s s' A1 A2 a n pre mid mid' post L L' F F' B :
  let st := tend (a + 32) pre in let e := tend st mid in
  heapF s (A1 ++ mkShape a n (pre ++ mid ++ post) :: A2) L F B ->
  mid' <> [] -> tend st mid' = e -> tiles (tg s') a st (tlast 0 pre) mid' ->
  (forall x, ~ st <= x < e ->
     tg s' x = if (x =? e) && (e <? a + n) then relink (tlast (tlast 0 pre) mid') (tg s x) else tg s x) ->
  length (used mid') = length (used mid) -> same_arenas s s' -> flist s' L' ->
  L' ++ F' ≡ₚ (t_at <$> unused mid') ++ free_at (A1 ++ mkShape a n (pre ++ post) :: A2) ->
  heapF s' (A1 ++ mkShape a n (pre ++ mid' ++ post) :: A2) L' F' B.
Proof.
  intros st e H Hne Hte Htl Htg Hu (Ea & El & Ec) Hfl Hp.
  apply (heap_replace s _ _ _ _ _ _ mid _ _ L _ F); try done.
  intros x. rewrite (ar_arenas s) by done. destruct (Z.eqb_spec x a) as [->|]; [|done].
  rewrite Hu. destruct (ar s a) eqn:E. unfold with_active. simpl. f_equal. lia.
Qed.

(** ** Merging two chunks

    One of them leaves the free list, the first gets the room of both. *)
Lemma merge_ok s A1 A2 a n pre c m f c' k g post F F' B y l1 l2 h :
  heapF s (A1 ++ mkShape a n (pre ++ [mkTile c m f; mkTile c' k g] ++ post) :: A2) (l1 ++ y :: l2) F B ->
  let s1 := removeFromFreeList s y in
  h (ck s1 c) = m + 48 + k -> length (used [mkTile c m f]) = length (used [mkTile c m f; mkTile c' k g]) ->
  (l1 ++ l2) ++ F' ≡ₚ (t_at <$> unused [mkTile c m f]) ++ free_at (A1 ++ mkShape a n (pre ++ post) :: A2) ->
  heapF (set_prevPhys_in (upd_ck s1 c (fun x => with_size (h x) x)) a (c + 48 + (m + 48 + k)) c)
        (A1 ++ mkShape a n (pre ++ [mkTile c (m + 48 + k) f] ++ post) :: A2) (l1 ++ l2) F' B.
Proof.
  intros H s1 Hh Hu Hp. simpl in H.
  assert (H' : heapF s (A1 ++ mkShape a n ((pre ++ [mkTile c m f]) ++ mkTile c' k g :: post) :: A2) (l1 ++ y :: l2) F B)
    by (rewrite <- app_assoc; exact H).
  destruct (heap_spot _ _ _ _ _ _ _ _ _ _ _ H) as [E1 T1 P1 M1 Lm1 _ _ Ea].
  destruct (heap_spot _ _ _ _ _ _ _ _ _ _ _ H') as [_ _ P2 M2 _ _ _ _]. simpl in *.
  pose proof (flist_remove _ _ _ _ (hp_flist _ _ _ _ _ H)) as Hfl. fold s1 in Hfl.
  pose proof (remove_tags s y) as Hst. fold s1 in Hst. pose proof (tags_arenas _ _ Hst) as Hsa.
  destruct Hst as (Rt & _). set (s2 := upd_ck s1 c _).
  assert (T2 : forall x, tg s2 x = if x =? c then resize (m + 48 + k) (tg s x) else tg s x).
  { intros x. unfold s2. rewrite tg_with_size_fun, Hh, !Rt. done. }
  apply (heap_replace_same s _ A1 A2 a n pre [mkTile c m f; mkTile c' k g] [mkTile c (m + 48 + k) f] post (l1 ++ y :: l2) _ F F' B);
    simpl; try done.
  - lia.
  - split_and!; try done; try lia; [|divlia]. rewrite <- E1, tg_prevPhys, T2, Z.eqb_refl, T1. simpl.
    destruct (Z.eqb_spec c (c + 48 + (m + 48 + k))); [lia|done].
  - rewrite <- E1. intros x Hx. rewrite tg_prevPhys, T2.
    unfold arena_end. rewrite (ar_arenas s s2 a) by apply Hsa. fold (arena_end s a). rewrite Ea.
    replace (c + 48 + (m + 48 + k)) with (c + 48 + m + 48 + k) by lia.
    destruct (Z.eqb_spec x c); [lia|done].
  - rewrite <- Hu. by destruct f.
  - apply (same_arenas_trans _ s2); [exact Hsa|apply same_arenas_prevPhys].
  - apply (flist_same s1); [done|]. eapply same_list_trans; [|apply same_list_prevPhys]. by apply same_list_upd.
  - by destruct f.
Qed.

(** The two neighbours [c] and [c'] of a merge. *)
Lemma two_spots s A1 A2 a n pre c m f c' k g post L F B :
  heapF s (A1 ++ mkShape a n (pre ++ [mkTile c m f; mkTile c' k g] ++ post) :: A2) L F B ->
  spot s a n pre (mkTile c m f) (mkTile c' k g :: post) /\
  spot s a n (pre ++ [mkTile c m f]) (mkTile c' k g) post /\ c' = c + 48 + m.
Proof.
  intros H. pose proof H as H'. rewrite (app_assoc pre [_] (_ :: post) : pre ++ [mkTile c m f; mkTile c' k g] ++ post = _) in H'.
  pose proof (heap_spot _ _ _ _ _ _ _ _ _ _ _ H) as S1. pose proof (heap_spot _ _ _ _ _ _ _ _ _ _ _ H') as S2.
  split_and!; [done|done|]. pose proof (sp_at _ _ _ _ _ _ S1) as E1. pose proof (sp_at _ _ _ _ _ _ S2) as E2.
  rewrite tend_app in E2. simpl in *. lia.
Qed.

Lemma absorb_next_ok s A1 A2 a n pre c m f c' k post L F B :
  heapF s (A1 ++ mkShape a n (pre ++ [mkTile c m f; mkTile c' k true] ++ post) :: A2) L F B -> c' ∉ F ->
  exists L', heapF (absorb_next s c) (A1 ++ mkShape a n (pre ++ [mkTile c (m + 48 + k) f] ++ post) :: A2) L' F B.
Proof.
  intros H Hn. destruct (two_spots _ _ _ _ _ _ _ _ _ _ _ _ _ _ _ _ H) as ([_ T1 P1 _ Lm1 _ _ _] & [_ T2 P2 _ Lm2 _ _ _] & E2).
  pose proof H as H'. rewrite (app_assoc pre [_] (_ :: post) : pre ++ [mkTile c m f; mkTile c' k true] ++ post = _) in H'.
  destruct (free_tile_listed _ _ _ _ _ _ _ _ _ _ _ H' eq_refl Hn) as (l1 & l2 & -> & Hp). simpl in *.
  exists (l1 ++ l2). pose proof (remove_tags s c') as [Rt _].
  unfold absorb_next, next_phys, sizeof_Chunk. rewrite (size_tg s c), T1. simpl. rewrite <- E2.
  assert (Hh : u64 (c_size (ck (removeFromFreeList s c') c) + 48 + c_size (ck (removeFromFreeList s c') c')) = m + 48 + k).
  { rewrite !size_tg, !Rt, T1, T2. simpl. apply u64_id. unfold is_u64. lia. }
  rewrite (arena_tg (upd_ck _ c _)), (size_tg (upd_ck _ c _)).
  rewrite (tg_with_size_fun (removeFromFreeList s c') c (fun x => u64 (c_size x + 48 + c_size (ck (removeFromFreeList s c') c')))).
  rewrite Z.eqb_refl, Hh, Rt, T1. simpl.
  apply (merge_ok s A1 A2 a n pre c m f c' k true post F F B c' l1 l2 (fun x => u64 (c_size x + 48 + c_size (ck (removeFromFreeList s c') c')))); [done|exact Hh|by destruct f|].
  rewrite Hp, <- app_assoc. rewrite (free_at_mid A1 A2 a n pre [mkTile c m f] post : _ ≡ₚ _). done.
Qed.

Lemma absorb_prev_ok s A1 A2 a n pre p k c m post L B :
  heapF s (A1 ++ mkShape a n (pre ++ [mkTile p k true; mkTile c m true] ++ post) :: A2) L [c] B ->
  exists L', heapF (absorb_prev s c p) (A1 ++ mkShape a n (pre ++ [mkTile p (k + 48 + m) true] ++ post) :: A2) L' [p] B.
Proof.
  intros H. destruct (two_spots _ _ _ _ _ _ _ _ _ _ _ _ _ _ _ _ H) as ([_ T1 P1 _ Lm1 _ _ _] & [_ T2 P2 _ Lm2 _ _ _] & E2).
  destruct (free_tile_listed _ _ _ _ _ _ _ _ _ _ _ H eq_refl) as (l1 & l2 & -> & Hp); [rewrite list_elem_of_singleton; simpl in *; lia|].
  simpl in *. exists (l1 ++ l2). pose proof (remove_tags s p) as [Rt _].
  unfold absorb_prev, next_phys, sizeof_Chunk.
  assert (Hh : u64 (c_size (ck (removeFromFreeList s p) p) + 48 + c_size (ck (removeFromFreeList s p) c)) = k + 48 + m).
  { rewrite !size_tg, !Rt, T1, T2. simpl. apply u64_id. unfold is_u64. lia. }
  rewrite (arena_tg (upd_ck _ p _)), (size_tg (upd_ck _ p _)).
  rewrite !(tg_with_size_fun (removeFromFreeList s p) p (fun x => u64 (c_size x + 48 + c_size (ck (removeFromFreeList s p) c)))).
  rewrite Z.eqb_refl, Hh, !Rt, T1, T2. simpl. destruct (Z.eqb_spec c p); [lia|]. simpl.
  apply (merge_ok s A1 A2 a n pre p k true c m true post [c] [p] B p l1 l2 (fun x => u64 (c_size x + 48 + c_size (ck (removeFromFreeList s p) c)))); [done|exact Hh|done|].
  rewrite (free_at_mid A1 A2 a n pre [mkTile c m true] post : _ ≡ₚ _) in Hp.
  assert (Hr : l1 ++ l2 ≡ₚ free_at (A1 ++ mkShape a n (pre ++ post) :: A2))
    by (apply (Permutation_app_inv_r [c]); rewrite Hp; simpl; solve_Permutation).
  rewrite Hr. simpl. solve_Permutation.
Qed.

(** ** Splitting a chunk *)
Definition split_tag (s : Libc) (a n c m size : Z) (x : Z) : Tag :=
  let sp := c + 48 + size in let e := c + 48 + m in
  if x =? sp then mkTag CHUNK_MAGIC_FREE false (m - size - 48) c a
  else if (x =? e) && (e <? a + n) then relink sp (tg s x) else tg s x.

Lemma split_off_tags s a n pre c m f post size :
  spot s a n pre (mkTile c m f) post -> 0 <= size -> size + 48 <= m ->
  (split_off s c size).2 = c + 48 + size /\ same_list s (split_off s c size).1 /\
  same_arenas s (split_off s c size).1 /\
  (forall x, tg (split_off s c size).1 x = split_tag s a n c m size x).
Proof.
  intros [E T P M Lm _ _ Ea] H0 H1. simpl in *. unfold split_off, next_phys, sizeof_Chunk.
  rewrite (size_tg s c), (arena_tg s c), T. simpl. rewrite u64_id by (unfold is_u64; lia).
  set (s1 := set_ck s (c + 48 + size) _).
  assert (T1 : forall x, tg s1 x = if x =? c + 48 + size then mkTag CHUNK_MAGIC_FREE false (m - size - 48) c a else tg s x).
  { intros x. unfold tg, s1. rewrite ck_set. by destruct (_ =? _). }
  assert (L1 : same_list s s1).
  { split; [|done]. intros x. unfold nx, pv, s1. rewrite ck_set. destruct (Z.eqb_spec x (c + 48 + size)) as [->|]; done. }
  split_and!; [done| | |].
  - eapply same_list_trans; [exact L1|apply same_list_prevPhys].
  - apply (same_arenas_trans _ s1); [done|apply same_arenas_prevPhys].
  - intros x. rewrite tg_prevPhys, size_tg, !T1, Z.eqb_refl. simpl.
    unfold arena_end. rewrite (ar_arenas s s1) by done. fold (arena_end s a). rewrite Ea. unfold split_tag.
    replace (c + 48 + size + 48 + (m - size - 48)) with (c + 48 + m) by lia.
    bsplit; try done; lia.
Qed.

Lemma split_ok s s' A1 A2 a n pre c m f post size L L' F F' B :
  heapF s (A1 ++ mkShape a n (pre ++ [mkTile c m f] ++ post) :: A2) L F B ->
  0 <= size -> size mod 16 = 0 -> size + 48 <= m ->
  (forall x, tg s' x = if x =? c then resize size (tg s x) else split_tag s a n c m size x) ->
  same_arenas s s' -> flist s' L' -> L' ++ F' ≡ₚ (c + 48 + size) :: (L ++ F) ->
  heapF s' (A1 ++ mkShape a n (pre ++ [mkTile c size f; mkTile (c + 48 + size) (m - size - 48) true] ++ post) :: A2) L' F' B.
Proof.
  intros H H0 Hm H1 Ht Ha Hfl Hp. destruct (heap_spot _ _ _ _ _ _ _ _ _ _ _ H) as [E T P M Lm _ _ _]. simpl in *.
  apply (heap_replace_same s s' A1 A2 a n pre [mkTile c m f] [mkTile c size f; mkTile (c + 48 + size) (m - size - 48) true] post L L' F F' B);
    simpl; try done; rewrite <- ?E.
  - lia.
  - split_and!; try done; try lia; [| |divlia]; rewrite Ht.
    + rewrite Z.eqb_refl, T. done.
    + unfold split_tag. rewrite Z.eqb_refl. destruct (Z.eqb_spec (c + 48 + size) c); [lia|done].
  - intros x Hx. rewrite Ht. unfold split_tag. bsplit; try done; lia.
  - by destruct f.
  - rewrite Hp. rewrite (hp_free _ _ _ _ _ H). rewrite (free_at_mid A1 A2 a n pre [mkTile c m f] post : _ ≡ₚ _).
    unfold unused. destruct f; simpl; solve_Permutation.
Qed.

(** ** Marking a chunk *)
Lemma mark_ok s s' A1 A2 a n pre c m f f' post L L' F F' B :
  heapF s (A1 ++ mkShape a n (pre ++ [mkTile c m f] ++ post) :: A2) L F B ->
  (forall x, tg s' x = if x =? c then remagic (magic_of f') (tg s x) else tg s x) ->
  (forall x, ar s' x = if x =? a
     then with_active (activeChunks (ar s a) - (if f then 0 else 1) + (if f' then 0 else 1)) (ar s x) else ar s x) ->
  gArenaList s' = gArenaList s -> gArenaCount s' = gArenaCount s -> flist s' L' ->
  L' ++ F' ≡ₚ (if f' then [c] else []) ++ free_at (A1 ++ mkShape a n (pre ++ post) :: A2) ->
  heapF s' (A1 ++ mkShape a n (pre ++ [mkTile c m f'] ++ post) :: A2) L' F' B.
Proof.
  intros H Ht Ha El Ec Hfl Hp. pose proof (shape_of _ _ _ _ _ _ _ H) as [Hok _ Hact]. simpl in *.
  destruct (heap_spot _ _ _ _ _ _ _ _ _ _ _ H) as [E T P M Lm Hpo He _]. simpl in *.
  pose proof (tiles_tend _ _ _ _ _ Hpo) as [? _].
  apply (heap_focus s s' A1 A2 (mkShape a n (pre ++ [mkTile c m f] ++ post)) _ L _ F); simpl; try done.
  - intros x Hx. rewrite Ht. destruct (Z.eqb_spec x c); [lia|done].
  - destruct Hok as [Hb Htl _ Hend]. apply tiles_app in Htl as [Hpre Hmid]. rewrite tend_app in Hend. simpl in *. rewrite <- E in *.
    constructor; [done| |by destruct pre|rewrite tend_app; simpl; rewrite <- E].
    + apply tiles_app. rewrite <- E. split; [|simpl; split_and!; try done; try lia].
      * apply (tiles_ext (tg s)); [done|]. intros x Hx. rewrite Ht. destruct (Z.eqb_spec x c); [lia|done].
      * by rewrite Ht, Z.eqb_refl, T.
      * apply (tiles_ext (tg s)); [done|]. intros x Hx. rewrite Ht. destruct (Z.eqb_spec x c); [lia|done].
    + destruct Hend as [Hend|[Hend Hmg]]; [by left|right]. split; [done|]. rewrite magic_tg, Ht. destruct (Z.eqb_spec (a + n - 48) c); [lia|done].
  - intros x. rewrite Ha. destruct (Z.eqb_spec x a) as [->|]; [|done]. f_equal. rewrite Hact.
    unfold used. rewrite !List.filter_app, !length_app. destruct f, f'; simpl; lia.
  - rewrite Hp, (free_at_mid A1 A2 a n pre [mkTile c m f'] post : _ ≡ₚ _). by destruct f'.
Qed.

(** ** Listing a chunk *)
Lemma add_ok s A L F B c : heapF s A L (c :: F) B -> c <> 0 -> c ∉ L -> heapF (addToFreeList s c) A (c :: L) F B.
Proof.
  intros H Hc Hnd. pose proof (add_tags s c) as Hst. pose proof (tags_arenas _ _ Hst) as (Ea & El & Ec). destruct Hst as (Ht & _).
  assert (Har : forall x, ar (addToFreeList s c) x = ar s x) by (intros; by apply ar_arenas).
  destruct H as [H1 H2 H3 H4 H5 H6 H7 H8]. constructor; rewrite ?El, ?Ec; try done.
  - eapply Forall_impl; [exact H1|]. intros r Hr. apply (shape_ok_ext s); [done|intros; apply Ht|by rewrite Har|by rewrite Har].
  - apply (dll_ext (anx s) (apv s)); [done|]. intros x _. unfold anx, apv. by rewrite Har.
  - by apply flist_add.
  - rewrite <- H6. simpl. by rewrite Permutation_middle.
  - eapply Forall_impl; [exact H7|]. intros b Hb. unfold big_ok in *. by rewrite Ht.
Qed.

(** ** The neighbours of a chunk *)
Lemma next_is_free_spec s A1 A2 a n pre x post L F B :
  heapF s (A1 ++ mkShape a n (pre ++ x :: post) :: A2) L F B ->
  next_is_free s (t_at x) = match post with [] => false | y :: _ => t_free y end.
Proof.
  intros H. pose proof (shape_of _ _ _ _ _ _ _ H) as [Hok _ _]. simpl in Hok.
  destruct (heap_spot _ _ _ _ _ _ _ _ _ _ _ H) as [E T P M Lm Hpo He Ea].
  unfold next_is_free, next_phys, sizeof_Chunk. rewrite size_tg, arena_tg, magic_tg, T. simpl. rewrite Ea.
  destruct post as [|y r]; simpl in *.
  - destruct (ao_end _ _ _ _ Hok) as [Hend|[Hend Hm]]; rewrite tend_app in Hend; simpl in Hend; rewrite <- E in Hend.
    + rewrite Hend, Z.ltb_irrefl. done.
    + rewrite Hend. apply Z.eqb_neq in Hm. rewrite (magic_tg s), Hm, andb_false_r. done.
  - destruct Hpo as (Ey & Ty & H0 & _ & Hr). rewrite (magic_tg s), Ty. simpl.
    pose proof (tiles_tend _ _ _ _ _ Hr) as [? _].
    destruct (Z.ltb_spec (t_at x + 48 + t_len x) (a + n)); [|lia]. by destruct (t_free y).
Qed.

Lemma prev_is_free_spec s A1 A2 a n pre x post L F B :
  heapF s (A1 ++ mkShape a n (pre ++ x :: post) :: A2) L F B ->
  c_prevPhys (ck s (t_at x)) = tlast 0 pre /\ negb (tlast 0 pre =? 0) && (c_magic (ck s (tlast 0 pre)) =? CHUNK_MAGIC_FREE) = last_free false pre.
Proof.
  intros H. destruct (heap_spot _ _ _ _ _ _ _ _ _ _ _ H) as [E T P M Lm Hpo He Ea].
  rewrite prev_tg, T. split; [done|]. destruct pre as [|y r] using rev_ind; [done|].
  rewrite tlast_app, last_free_app. simpl. rewrite <- app_assoc in H. simpl in H.
  destruct (heap_spot _ _ _ _ _ _ _ _ _ _ _ H) as [_ Ty Py _ _ _ _ _].
  rewrite magic_tg, Ty. simpl. destruct (Z.eqb_spec (t_at y) 0); [lia|]. by destruct (t_free y).
Qed.
