(* ===== verification/MallocProps.v ===== *)
(** * The C library heap: release and theorems

    [free], and what [malloc], [calloc] and [realloc] promise. *)

From Stdlib Require Import ZArith Lia Bool.
From stdpp Require Import base list gmap.
From S2P Require Import Prelude Mem Str Dll Malloc MallocInv MallocOps.

(** ** The user-space allocator: free

    Freeing a block of the heap takes exactly that block away, merges its
    chunk with free neighbours, and gives an arena of one free chunk back to
    the system when it is not the last. *)

(** ** Unmapping *)
Definition inside (b l x : Z) : bool := (b <=? x) && (x <? b + l).

Lemma munmap_lookup {A} (m : gmap Z A) b l x :
  (filter (fun p : Z * A => ~ (b <= p.1 < b + l)) m) !! x = if inside b l x then None else m !! x.
Proof.
  unfold inside. destruct (m !! x) as [v|] eqn:E.
  - destruct (Z.leb_spec b x), (Z.ltb_spec x (b + l)); simpl;
      (apply map_lookup_filter_None + apply map_lookup_filter_Some); simpl; try (split; [done|lia]).
    right. intros y Hy. simpl. lia.
  - destruct (_ && _); apply map_lookup_filter_None; by left.
Qed.

Lemma ck_munmap s b l x : ck (munmap s b l) x = if inside b l x then chunk0 else ck s x.
Proof. unfold ck, munmap. simpl. rewrite munmap_lookup. by destruct (inside b l x). Qed.
Lemma ar_munmap s b l x : ar (munmap s b l) x = if inside b l x then arena0 else ar s x.
Proof. unfold ar, munmap. simpl. rewrite munmap_lookup. by destruct (inside b l x). Qed.

Lemma inside_out b l x : ~ (b <= x < b + l) -> inside b l x = false.
Proof. unfold inside. destruct (Z.leb_spec b x), (Z.ltb_spec x (b + l)); simpl; lia || done. Qed.

(** ** Releasing an arena *)
Lemma ar_remove s a x : anx s a <> a -> apv s a <> a -> x <> 0 ->
  ar (removeFromArenaList s a) x =
  mkArena (totalSize (ar s x)) (activeChunks (ar s x))
          (if x =? apv s a then anx s a else anx s x) (if x =? anx s a then apv s a else apv s x).
Proof.
  intros Hn Hp Hx. unfold removeFromArenaList. fold (anx s a) (apv s a).
  change (ar (set_arenas ?u ?h ?k) x) with (ar u x).
  assert (Hid : forall y, mkArena (totalSize (ar s y)) (activeChunks (ar s y)) (anx s y) (apv s y) = ar s y)
    by (intros y; unfold anx, apv; by destruct (ar s y)).
  destruct (Z.eqb_spec (apv s a) 0) as [E|E], (Z.eqb_spec (anx s a) 0) as [E'|E']; simpl;
    rewrite ?ar_upd; change (ar (set_arenas s ?h ?k)) with (ar s); rewrite ?ar_upd; bsplit; subst; rewrite ?Hid; try done; try lia.
  by rewrite e1.
Qed.

Lemma ck_remove_arena s a x : ck (removeFromArenaList s a) x = ck s x.
Proof. unfold removeFromArenaList. by destruct (negb (a_prev _ =? 0)), (negb (a_next _ =? 0)). Qed.

Lemma nodup_ends a (l1 l2 : list Z) : NoDup (l1 ++ a :: l2) -> a <> 0 -> first_or 0 l2 <> a /\ last_or 0 l1 <> a.
Proof.
  intros Hn Ha. apply NoDup_app in Hn as (_ & H12 & H2). apply NoDup_cons in H2 as [H2 _]. split.
  - destruct l2; simpl; [done|]. intros ->. apply H2. left.
  - destruct l1 as [|y r]; [done|]. intros E. apply (H12 a); [|left]. rewrite <- E at 1. by apply last_or_in.
Qed.

Lemma arenas_nodup s A L F B : heapF s A L F B -> NoDup (sh_at <$> A).
Proof.
  intros H. pose proof (hp_apart _ _ _ _ _ H) as Hd. pose proof (hp_arena _ _ _ _ _ H) as Ha. clear H.
  unfold regions in Hd. induction A as [|r A IH]; simpl in *; [constructor|].
  apply Forall_cons in Ha as [Hr Ha]. destruct Hd as [Hf Hd]. apply NoDup_cons. split; [|auto].
  intros Hin. apply list_elem_of_fmap in Hin as (q & E & Hq). rewrite Forall_forall in Hf. rewrite Forall_forall in Ha.
  specialize (Hf (sh_at q, sh_len q)). unfold disj in Hf. simpl in Hf.
  pose proof (arena_ok_tend _ _ _ _ (so_ok _ _ Hr)). pose proof (arena_ok_tend _ _ _ _ (so_ok _ _ (Ha q Hq))).
  destruct Hf; [|lia|lia]. apply elem_of_app. left. by apply (list_elem_of_fmap_2 (fun r => (sh_at r, sh_len r))).
Qed.

Lemma release_arena_ok s A1 A2 a n ts L B :
  heapF s (A1 ++ mkShape a n ts :: A2) L (t_at <$> unused ts) B ->
  heapF (munmap (removeFromArenaList s a) a n) (A1 ++ A2) L [] B.
Proof.
  intros H. pose proof (shape_of _ _ _ _ _ _ _ H) as [Hok _ _]. simpl in Hok.
  pose proof (arena_ok_tend _ _ _ _ Hok) as Hend. pose proof (ao_base _ _ _ _ Hok) as Hb.
  pose proof (arenas_nodup _ _ _ _ _ H) as Hnd. pose proof (hp_alist _ _ _ _ _ H) as Hdl.
  rewrite fmap_app, fmap_cons in Hnd, Hdl. simpl in Hnd, Hdl.
  destruct (dll_mid _ _ _ _ _ Hdl) as (_ & Hp & Hn & Hfst).
  assert (Hne : anx s a <> a /\ apv s a <> a) by (rewrite Hp, Hn; apply nodup_ends; [done|lia]). destruct Hne as [Hne1 Hne2].
  assert (Hout : forall q, q ∈ A1 ++ A2 -> disj (a, n) (sh_at q, sh_len q)) by (intros q Hq; apply (heap_other _ _ _ _ _ _ _ _ H Hq)).
  assert (HL : L ≡ₚ free_at (A1 ++ A2)).
  { pose proof (hp_free _ _ _ _ _ H) as Hf. rewrite free_at_app in Hf |- *. unfold free_at in Hf at 2. simpl in Hf.
    rewrite fmap_app in Hf. fold (free_at A2) in Hf. apply (Permutation_app_inv_r (t_at <$> unused ts)).
    rewrite Hf. solve_Permutation. }
  assert (Htg : forall x, ~ a <= x < a + n -> tg (munmap (removeFromArenaList s a) a n) x = tg s x).
  { intros x Hx. unfold tg. rewrite ck_munmap, inside_out, ck_remove_arena by done. done. }
  assert (Har : forall x, x <> 0 -> ~ a <= x < a + n -> ar (munmap (removeFromArenaList s a) a n) x = _)
    by (intros x Hx0 Hx; rewrite ar_munmap, inside_out by done; apply ar_remove; done).
  assert (Hall : forall q, q ∈ A1 ++ A2 -> shape_ok s q).
  { intros q Hq. pose proof (hp_arena _ _ _ _ _ H) as Hf. rewrite Forall_forall in Hf. apply Hf.
    rewrite elem_of_app in Hq. rewrite elem_of_app, elem_of_cons. tauto. }
  constructor.
  - rewrite Forall_forall. intros q Hq. pose proof (Hall q Hq) as Hs. pose proof (Hout q Hq) as Hd. unfold disj in Hd. simpl in Hd.
    pose proof (arena_ok_tend _ _ _ _ (so_ok _ _ Hs)). pose proof (ao_base _ _ _ _ (so_ok _ _ Hs)).
    apply (shape_ok_ext s); [done|intros x Hx; apply Htg; lia| |]; rewrite Har by lia; done.
  - rewrite fmap_app. apply (dll_unlink (anx s) (apv s) _ _ a); [exact Hdl|done| |];
      intros x Hin Hx Hxa; unfold anx at 1, apv at 1; (rewrite Har; [done|done|]);
      rewrite <- fmap_app in Hin; apply list_elem_of_fmap in Hin as (q & -> & Hq); pose proof (Hout q Hq) as Hd;
      pose proof (arena_ok_tend _ _ _ _ (so_ok _ _ (Hall q Hq))); unfold disj in Hd; simpl in Hd; lia.
  - rewrite fmap_app, Hfst. pose proof (hp_ahead _ _ _ _ _ H) as Hh. rewrite fmap_app, fmap_cons in Hh. simpl in Hh. rewrite <- Hh.
    unfold munmap, removeFromArenaList. fold (anx s a) (apv s a). simpl.
    by destruct (apv s a =? 0), (anx s a =? 0).
  - pose proof (hp_count _ _ _ _ _ H) as Hc. rewrite length_app in Hc |- *. simpl in Hc.
    unfold munmap, removeFromArenaList. simpl.
    assert (E : forall u, gArenaCount u = gArenaCount s -> u64 (gArenaCount u - 1) = u64 (Z.of_nat (length A1 + length A2))).
    { intros u ->. rewrite Hc. unfold u64. rewrite Zminus_mod_idemp_l. f_equal. lia. }
    destruct (negb (a_prev _ =? 0)), (negb (a_next _ =? 0)); by apply E.
  - destruct (hp_flist _ _ _ _ _ H) as [F1 F2 F3]. constructor; [| |done].
    + apply (dll_ext (nx s) (pv s)); [done|]. intros x Hx. rewrite HL in Hx.
      destruct (free_at_other _ _ _ _ _ _ _ _ H Hx) as [_ Ho]. simpl in Ho.
      unfold nx, pv. rewrite ck_munmap, inside_out, ck_remove_arena by done. done.
    + rewrite <- F2. unfold munmap, removeFromArenaList. simpl. by destruct (negb (a_prev _ =? 0)), (negb (a_next _ =? 0)).
  - by rewrite app_nil_r.
  - pose proof (hp_big _ _ _ _ _ H) as Hbg. rewrite Forall_forall in Hbg |- *. intros b Hbin.
    destruct (Hbg b Hbin) as (? & ? & ? & ? & E). pose proof (heap_big_out _ _ _ _ _ _ _ _ H Hbin) as Hd. unfold disj in Hd. simpl in Hd.
    unfold big_ok. rewrite Htg by lia. done.
  - pose proof (hp_apart _ _ _ _ _ H) as Hd. rewrite regions_mid in Hd. apply Hd.
Qed.

(** ** The last step of free *)
Lemma tlast_zero t a lo pre : 0 < lo -> tiles t a lo 0 pre -> tlast 0 pre = 0 -> pre = [].
Proof.
  intros Hlo Ht. destruct pre as [|x r _] using rev_ind; [done|]. rewrite tlast_app. simpl. intros E.
  destruct (tiles_in _ _ _ _ _ x Ht) as (? & _); [apply elem_of_app; right; left|]. lia.
Qed.

Lemma tend_id t a lo p post : tiles t a lo p post -> tend lo post <= lo -> post = [].
Proof.
  intros Ht Hl. destruct post; [done|]. destruct (tiles_tend _ _ _ _ _ Ht) as [_ H]. specialize (H ltac:(done)). lia.
Qed.

Lemma release_or_list_ok s A1 A2 a n pre c m post L B :
  heapF s (A1 ++ mkShape a n (pre ++ mkTile c m true :: post) :: A2) L [c] B ->
  exists A' L', heapF (release_or_list s c) A' L' [] B /\
    (A' = A1 ++ mkShape a n (pre ++ mkTile c m true :: post) :: A2 \/ (pre = [] /\ post = [] /\ A' = A1 ++ A2)).
Proof.
  intros H. destruct (heap_spot _ _ _ _ _ _ _ _ _ _ _ H) as [E T P M Lm Hpo He Ea]. simpl in *.
  pose proof (shape_of _ _ _ _ _ _ _ H) as [Hok Htot _]. simpl in *.
  unfold release_or_list, next_phys, sizeof_Chunk. rewrite arena_tg, prev_tg, size_tg, T. simpl. rewrite Ea, Htot.
  destruct (_ && (c + 48 + m =? a + n)) eqn:Hc.
  - breflect. assert (pre = []).
    { pose proof (ao_tiles _ _ _ _ Hok) as Ht. apply tiles_app in Ht as [Ht _]. apply (tlast_zero (tg s) a (a + 32)); [lia|done|done]. }
    assert (post = []) by (apply (tend_id (tg s) a (c + 48 + m) c); [done|lia]). subst pre post.
    exists (A1 ++ A2), L. split; [|tauto]. by apply (release_arena_ok s A1 A2 a n [mkTile c m true]).
  - exists (A1 ++ mkShape a n (pre ++ mkTile c m true :: post) :: A2), (c :: L). split; [|by left].
    apply add_ok; [done|lia|]. intros Hin.
    destruct (free_at_rest_out s A1 A2 a n pre [mkTile c m true] post L [c] B c) as [_ Ho]; [exact H| |simpl in Ho; lia].
    pose proof (hp_free _ _ _ _ _ H) as Hp. rewrite (free_at_mid A1 A2 a n pre [mkTile c m true] post : _ ≡ₚ _) in Hp.
    assert (Hr : L ≡ₚ free_at (A1 ++ mkShape a n (pre ++ post) :: A2))
      by (apply (Permutation_app_inv_r [c]); rewrite Hp; simpl; solve_Permutation).
    by rewrite <- Hr.
Qed.

(** ** Merging with the neighbours *)
Lemma merge_next_ok s A1 A2 a n pre c m post L B :
  heapF s (A1 ++ mkShape a n (pre ++ mkTile c m true :: post) :: A2) L [c] B -> coalesced false post ->
  exists m' post' L',
    heapF (if next_is_free s c then absorb_next s c else s)
          (A1 ++ mkShape a n (pre ++ mkTile c m' true :: post') :: A2) L' [c] B /\
    used post' = used post /\ coalesced true post'.
Proof.
  intros H Hc. rewrite (next_is_free_spec s A1 A2 a n pre (mkTile c m true) post L [c] B H : next_is_free s c = _).
  destruct post as [|[c' k f] r]; [by exists m, [], L|]. simpl. destruct f; [|by exists m, (mkTile c' k false :: r), L].
  destruct (two_spots s A1 A2 a n pre c m true c' k true r L [c] B H) as ([_ _ P _ _ _ _ _] & _ & E). simpl in P.
  destruct (absorb_next_ok s A1 A2 a n pre c m true c' k r L [c] B H) as (L' & HL'); [rewrite list_elem_of_singleton; lia|].
  exists (m + 48 + k), r, L'. split_and!; try done. simpl in Hc. tauto.
Qed.

Lemma merge_prev_ok s A1 A2 a n pre c m post L B :
  heapF s (A1 ++ mkShape a n (pre ++ mkTile c m true :: post) :: A2) L [c] B -> coalesced false pre ->
  let p := c_prevPhys (ck s c) in
  let b := negb (p =? 0) && (c_magic (ck s p) =? CHUNK_MAGIC_FREE) in
  exists m' pre' L',
    heapF (if b then absorb_prev s c p else s)
          (A1 ++ mkShape a n (pre' ++ mkTile (if b then p else c) m' true :: post) :: A2) L' [if b then p else c] B /\
    used pre' = used pre /\ coalesced false pre' /\ last_free false pre' = false.
Proof.
  intros H Hc p b. destruct (prev_is_free_spec s A1 A2 a n pre (mkTile c m true) post L [c] B H) as [Ep Eb]. simpl in Ep.
  fold p in Ep. rewrite <- Ep in Eb. fold b in Eb. rewrite Eb.
  destruct (last_free false pre) eqn:El; [|by exists m, pre, L].
  destruct pre as [|[q k f] r _] using rev_ind; [done|]. rewrite tlast_app in Ep. rewrite last_free_app in El. simpl in Ep, El. subst f.
  rewrite <- app_assoc in H. simpl in H. apply absorb_prev_ok in H as (L' & H). rewrite <- Ep in H.
  exists (k + 48 + m), r, L'. apply coalesced_app in Hc as [Hc1 Hc2]. simpl in Hc2. rewrite andb_true_r in Hc2.
  split_and!; try done; [|tauto]. unfold used. rewrite List.filter_app. simpl. by rewrite app_nil_r.
Qed.

Lemma length_used t a lo p l : tiles t a lo p l -> 48 * Z.of_nat (length (used l)) <= tend lo l - lo.
Proof.
  revert lo p. induction l as [|x r IH]; intros lo p H; simpl in *; [lia|].
  destruct H as (_ & _ & H0 & _ & H). apply IH in H. destruct (t_free x); simpl; lia.
Qed.

(** The marked chunk of free. *)
Lemma mark_free_ok s A1 A2 a n pre c m post L B :
  heapF s (A1 ++ mkShape a n (pre ++ mkTile c m false :: post) :: A2) L [] B ->
  let s1 := upd_ck s c (with_magic CHUNK_MAGIC_FREE) in
  negb (a =? 0) && (0 <? activeChunks (ar s1 a)) = true /\
  heapF (upd_ar s1 a (fun x => with_active (activeChunks x - 1) x))
        (A1 ++ mkShape a n (pre ++ mkTile c m true :: post) :: A2) L [c] B.
Proof.
  intros H s1. destruct (heap_spot _ _ _ _ _ _ _ _ _ _ _ H) as [E T P M Lm Hpo He Ea]. simpl in *.
  pose proof (shape_of _ _ _ _ _ _ _ H) as [Hok Htot Hact]. simpl in *. split.
  - unfold s1. change (ar (upd_ck ?u ?v ?w) a) with (ar u a). rewrite Hact. unfold used. rewrite List.filter_app, length_app. simpl.
    destruct (Z.eqb_spec a 0); [lia|]. destruct (Z.ltb_spec 0 (Z.of_nat (length (List.filter (fun t => negb (t_free t)) pre) + Datatypes.S (length (List.filter (fun t => negb (t_free t)) post))))); [done|lia].
  - apply (mark_ok s _ A1 A2 a n pre c m false true post L L [] [c] B H); try done.
    + intros x. change (tg (upd_ar s1 ?u ?v) x) with (tg s1 x). apply tg_with_magic.
    + intros x. rewrite ar_upd. destruct (Z.eqb_spec x a) as [->|]; [|done]. change (ar s1 a) with (ar s a). f_equal. lia.
    + apply (flist_same s); [apply H|]. unfold s1. by apply (same_list_upd s c (with_magic CHUNK_MAGIC_FREE)).
    + rewrite (Permutation_app_comm L [c]). simpl. f_equiv. pose proof (hp_free _ _ _ _ _ H) as Hp. rewrite app_nil_r in Hp.
      rewrite Hp. exact (free_at_mid A1 A2 a n pre [mkTile c m false] post).
Qed.

(** ** The blocks of the program *)
Definition block_of (t : tile) : Z * Z := (t_at t + 48, t_len t).

Lemma blocks_mid A1 A2 a n ts B :
  blocks (A1 ++ mkShape a n ts :: A2) B ≡ₚ (block_of <$> used ts) ++ blocks (A1 ++ A2) B.
Proof. unfold blocks. rewrite !bind_app. simpl. rewrite !fmap_app. unfold block_of. solve_Permutation. Qed.

Lemma used_mid pre c m post :
  used (pre ++ mkTile c m false :: post) ≡ₚ mkTile c m false :: used (pre ++ post).
Proof. unfold used. rewrite !List.filter_app. simpl. by rewrite Permutation_middle. Qed.

Lemma used_app l1 l2 : used (l1 ++ l2) = used l1 ++ used l2.
Proof. apply List.filter_app. Qed.

Lemma coal_mid A1 A2 r r' : Forall (fun r => coalesced false (sh_tiles r)) (A1 ++ r :: A2) ->
  coalesced false (sh_tiles r') -> Forall (fun r => coalesced false (sh_tiles r)) (A1 ++ r' :: A2).
Proof. rewrite !Forall_app, !Forall_cons. tauto. Qed.

Lemma coal_drop A1 A2 r : Forall (fun r => coalesced false (sh_tiles r)) (A1 ++ r :: A2) ->
  Forall (fun r => coalesced false (sh_tiles r)) (A1 ++ A2).
Proof. rewrite !Forall_app, !Forall_cons. tauto. Qed.

Lemma coal_at A1 A2 r : Forall (fun r => coalesced false (sh_tiles r)) (A1 ++ r :: A2) -> coalesced false (sh_tiles r).
Proof. rewrite Forall_app, Forall_cons. tauto. Qed.

(** ** free *)
Lemma free_chunk_ok s A1 A2 a n pre c m post L B :
  heap s (A1 ++ mkShape a n (pre ++ mkTile c m false :: post) :: A2) L B ->
  exists A' L', heap (free s (c + 48)) A' L' B /\
    blocks A' B ≡ₚ (block_of <$> used (pre ++ post)) ++ blocks (A1 ++ A2) B.
Proof.
  intros [H Hc]. destruct (heap_spot _ _ _ _ _ _ _ _ _ _ _ H) as [_ T P _ _ _ _ _]. simpl in T, P.
  pose proof (coal_at _ _ _ Hc) as Hco. simpl in Hco. apply coalesced_app in Hco as [Hc1 Hc2]. destruct Hc2 as [_ Hc2].
  destruct (mark_free_ok _ _ _ _ _ _ _ _ _ _ _ H) as [Hb Hm].
  unfold free. destruct (Z.eqb_spec (c + 48) 0); [lia|]. unfold sizeof_Chunk. replace (c + 48 - 48) with c by lia.
  rewrite magic_tg, T. simpl. set (s1 := upd_ck s c (with_magic CHUNK_MAGIC_FREE)) in *.
  assert (T1 : tg s1 c = mkTag CHUNK_MAGIC_FREE false m (tlast 0 pre) a) by (unfold s1; rewrite tg_with_magic, Z.eqb_refl, T; done).
  change (c_isMmap (ck s1 c)) with (g_mmap (tg s1 c)). rewrite arena_tg, T1. simpl. rewrite Hb.
  set (s2 := upd_ar s1 a _) in *. clearbody s2. clear s1 T1 T Hb H.
  destruct (merge_next_ok _ _ _ _ _ _ _ _ _ _ _ Hm Hc2) as (m1 & post' & L1 & H3 & Eu1 & Hc3).
  set (s3 := if next_is_free s2 c then absorb_next s2 c else s2) in *. clearbody s3.
  destruct (merge_prev_ok _ _ _ _ _ _ _ _ _ _ _ H3 Hc1) as (m2 & pre' & L2 & H4 & Eu2 & Hc4 & Hl4).
  set (p := c_prevPhys (ck s3 c)) in *. set (b := negb (p =? 0) && (c_magic (ck s3 p) =? CHUNK_MAGIC_FREE)) in *.
  assert (Ef : (if b then release_or_list (absorb_prev s3 c p) p else release_or_list s3 c) =
               release_or_list (if b then absorb_prev s3 c p else s3) (if b then p else c)) by (by destruct b).
  rewrite Ef. clear Ef. destruct (release_or_list_ok _ _ _ _ _ _ _ _ _ _ _ H4) as (A' & L' & H5 & HA).
  exists A', L'. split; [split; [done|]|].
  - destruct HA as [->|(_ & _ & ->)]; [|by apply (coal_drop _ _ _ Hc)].
    apply (coal_mid _ _ _ _ Hc). simpl. apply coalesced_app. split; [done|]. rewrite Hl4. done.
  - assert (Eu : used (pre ++ post) = used (pre' ++ post')) by (rewrite !used_app; congruence). rewrite Eu.
    destruct HA as [->|(-> & -> & ->)]; [|done]. rewrite blocks_mid. by rewrite !used_app.
Qed.

(** Changes outside of the mapped memory are not seen. *)
Lemma heap_frame s s' A L F B b l :
  heapF s A L F B -> (forall x, ~ b <= x < b + l -> ck s' x = ck s x /\ ar s' x = ar s x) ->
  gFreeList s' = gFreeList s -> gArenaList s' = gArenaList s -> gArenaCount s' = gArenaCount s ->
  (forall r, r ∈ regions A B -> disj (b, l) r) -> heapF s' A L F B.
Proof.
  intros H Hck E1 E2 E3 Hd. destruct H as [H1 H2 H3 H4 H5 H6 H7 H8].
  assert (HA : forall r, r ∈ A -> disj (b, l) (sh_at r, sh_len r))
    by (intros r Hr; apply Hd, elem_of_app; left; by apply (list_elem_of_fmap_2 (fun r => (sh_at r, sh_len r)))).
  assert (HB : forall r, r ∈ B -> disj (b, l) (r.1, r.2 + 48))
    by (intros r Hr; apply Hd, elem_of_app; right; by apply (list_elem_of_fmap_2 (fun b => (b.1, b.2 + 48)))).
  unfold disj in HA, HB. simpl in HA, HB.
  assert (Hs : forall r, r ∈ A -> shape_ok s r) by (by rewrite Forall_forall in H1).
  constructor; rewrite ?E2, ?E3; try done.
  - rewrite Forall_forall. intros r Hr. specialize (HA r Hr). pose proof (arena_ok_tend _ _ _ _ (so_ok _ _ (Hs r Hr))).
    apply (shape_ok_ext s); [auto|intros x Hx; unfold tg; destruct (Hck x) as [-> _]; [lia|done]| |];
      (destruct (Hck (sh_at r)) as [_ ->]; [lia|done]).
  - apply (dll_ext (anx s) (apv s)); [done|]. intros x Hx. apply list_elem_of_fmap in Hx as (r & -> & Hr).
    specialize (HA r Hr). pose proof (arena_ok_tend _ _ _ _ (so_ok _ _ (Hs r Hr))).
    unfold anx, apv. destruct (Hck (sh_at r)) as [_ ->]; [lia|done].
  - destruct H5 as [F1 F2 F3]. constructor; [|congruence|done]. apply (dll_ext (nx s) (pv s)); [done|]. intros x Hx.
    assert (Hf : x ∈ free_at A) by (rewrite <- H6; apply elem_of_app; by left).
    destruct (free_at_in _ _ _ H1 Hf) as (r & Hr & _ & ? & ?). specialize (HA r Hr).
    unfold nx, pv. destruct (Hck x) as [-> _]; [lia|done].
  - rewrite Forall_forall in H7 |- *. intros r Hr. specialize (HB r Hr). destruct (H7 r Hr) as (? & ? & ? & ? & E).
    unfold big_ok, tg in *. destruct (Hck r.1) as [-> _]; [lia|done].
Qed.

Lemma free_big_ok s A L B1 B2 b n : heap s A L (B1 ++ (b, n) :: B2) -> heap (free s (b + 48)) A L (B1 ++ B2).
Proof.
  intros [H Hc]. split; [|done]. pose proof (hp_big _ _ _ _ _ H) as Hb. apply Forall_app in Hb as [Hb1 Hb2].
  apply Forall_cons in Hb2 as [(P1 & P2 & P3 & P4 & T) Hb2]. simpl in *.
  unfold free. destruct (Z.eqb_spec (b + 48) 0); [lia|]. unfold sizeof_Chunk. replace (b + 48 - 48) with b by lia.
  rewrite magic_tg, T. simpl. set (s1 := upd_ck s b _).
  assert (T1 : tg s1 b = mkTag CHUNK_MAGIC_FREE true n 0 0) by (unfold s1; rewrite tg_with_magic, Z.eqb_refl, T; done).
  change (c_isMmap (ck s1 b)) with (g_mmap (tg s1 b)). rewrite size_tg, T1. simpl. rewrite u64_id by (unfold is_u64; lia).
  pose proof (hp_apart _ _ _ _ _ H) as Hd. rewrite regions_big in Hd. simpl in Hd.
  apply (heap_frame s _ A L [] _ b (n + 48)); try done.
  - destruct H as [H1 H2 H3 H4 H5 H6 H7 H8]. constructor; try done; [|apply Hd]. by apply Forall_app.
  - intros x Hx. rewrite ck_munmap, ar_munmap, inside_out by done. split; [|done].
    unfold s1. rewrite ck_upd. destruct (Z.eqb_spec x b); [lia|done].
  - intros r Hr. by apply (apart_head _ _ _ Hd).
Qed.

Lemma free_ok s A L B p k bs : heap s A L B -> blocks A B ≡ₚ (p, k) :: bs ->
  exists A' L' B', heap (free s p) A' L' B' /\ blocks A' B' ≡ₚ bs.
Proof.
  intros H Hb. assert (Hin : (p, k) ∈ blocks A B) by (rewrite Hb; left).
  unfold blocks in Hin. apply elem_of_app in Hin as [Hin|Hin].
  - apply list_elem_of_fmap in Hin as ([c m f] & E & Hin). simplify_eq/=.
    apply list_elem_of_bind in Hin as ([a n ts] & Ht & HA). simpl in Ht. apply list_elem_of_In, filter_In in Ht as [Ht Hf].
    simpl in Hf. destruct f; [done|]. apply list_elem_of_In, list_elem_of_split in Ht as (pre & post & ->).
    apply list_elem_of_split in HA as (A1 & A2 & ->).
    destruct (free_chunk_ok _ _ _ _ _ _ _ _ _ _ _ H) as (A' & L' & H' & Hb'). exists A', L', B. split; [done|].
    rewrite Hb'. rewrite blocks_mid, used_mid in Hb. simpl in Hb. by apply Permutation_cons_inv in Hb.
  - apply list_elem_of_fmap in Hin as ([b n] & E & Hin). simplify_eq/=. apply list_elem_of_split in Hin as (B1 & B2 & ->).
    exists A, L, (B1 ++ B2). split; [by apply (free_big_ok s A L B1 B2 b n)|]. unfold blocks in Hb |- *.
    rewrite fmap_app, fmap_cons in Hb. rewrite fmap_app. simpl in Hb.
    apply (Permutation_cons_inv (a := (b + 48, n))). rewrite <- Hb. solve_Permutation.
Qed.

(** ** The user-space allocator: malloc, realloc and what they promise *)

Lemma align16_spec x : 0 <= x -> x + 15 < 2 ^ 64 -> align16 x = x + (- x) mod 16.
Proof.
  intros H0 H1. unfold align16. rewrite u64_id by (unfold is_u64; lia).
  change 15 with (2 ^ 4 - 1) at 2. rewrite land_mask_pow2 by (unfold is_u64; lia). change (2 ^ 4) with 16. divlia.
Qed.

(** ** The walk over the free list *)
Lemma find_fit_ok s l p fuel size : dll (nx s) (pv s) p l 0 -> (length l <= fuel)%nat ->
  exists c, find_fit fuel s (first_or 0 l) size = Some c /\
    ((c = 0 /\ forall x, x ∈ l -> c_size (ck s x) < size) \/ (c ∈ l /\ size <= c_size (ck s c))).
Proof.
  revert p fuel. induction l as [|x r IH]; intros p fuel Hd Hf; simpl in *.
  - exists 0. destruct fuel; (split; [done|left; split; [done|intros y Hy; by apply elem_of_nil in Hy]]).
  - destruct Hd as (Hx & _ & Hn & Hd). destruct fuel as [|k]; [lia|]. simpl. destruct (Z.eqb_spec x 0); [done|].
    destruct (Z.leb_spec size (c_size (ck s x))).
    + exists x. split; [done|]. right. split; [left|done].
    + fold (nx s x). rewrite Hn. destruct (IH x k Hd) as (c & E & Hc); [lia|]. exists c. split; [done|].
      destruct Hc as [[-> Hc]|[Hc Hs]]; [left|right]; [|split; [by right|done]].
      split; [done|]. intros y Hy. apply elem_of_cons in Hy as [->|Hy]; auto.
Qed.

(** The fuel of the walk is enough. *)
Lemma free_list_short s A L F B : heapF s A L F B -> (length L <= size (chunks s))%nat.
Proof.
  intros H. apply nodup_size; [apply H|]. intros x Hx.
  assert (Hf : x ∈ free_at A) by (rewrite <- (hp_free _ _ _ _ _ H); apply elem_of_app; by left).
  unfold free_at in Hf. apply list_elem_of_fmap in Hf as (t & -> & Hf). apply list_elem_of_bind in Hf as (q & Ht & Hq).
  apply list_elem_of_In, filter_In in Ht as [Ht Hfr]. apply list_elem_of_In in Ht.
  pose proof (hp_arena _ _ _ _ _ H) as Ha. rewrite Forall_forall in Ha.
  destruct (tiles_in _ _ _ _ _ _ (ao_tiles _ _ _ _ (so_ok _ _ (Ha q Hq))) Ht) as (_ & _ & _ & _ & Hm & _).
  rewrite Hfr in Hm. unfold tg, ck in Hm. simpl in Hm. destruct (chunks s !! t_at t); [done|]. done.
Qed.

(** ** Taking a chunk off the free list *)
Lemma remove_ok s A l1 l2 c B : heapF s A (l1 ++ c :: l2) [] B -> heapF (removeFromFreeList s c) A (l1 ++ l2) [c] B.
Proof.
  intros H. pose proof (remove_tags s c) as Hst. pose proof (tags_arenas _ _ Hst) as (Ea & El & Ec). destruct Hst as (Ht & _).
  assert (Har : forall x, ar (removeFromFreeList s c) x = ar s x) by (intros; by apply ar_arenas).
  destruct H as [H1 H2 H3 H4 H5 H6 H7 H8]. constructor; rewrite ?El, ?Ec; try done.
  - eapply Forall_impl; [exact H1|]. intros r Hr. apply (shape_ok_ext s); [done|intros; apply Ht|by rewrite Har|by rewrite Har].
  - apply (dll_ext (anx s) (apv s)); [done|]. intros x _. unfold anx, apv. by rewrite Har.
  - by apply flist_remove.
  - rewrite <- H6, app_nil_r. rewrite <- app_assoc. by rewrite (Permutation_app_comm l2 [c]).
  - eapply Forall_impl; [exact H7|]. intros b Hb. unfold big_ok in *. by rewrite Ht.
Qed.

Lemma mark_used_ok s A1 A2 a n pre c m post L B :
  heapF s (A1 ++ mkShape a n (pre ++ mkTile c m true :: post) :: A2) L [c] B ->
  let s1 := upd_ck s c (with_magic CHUNK_MAGIC_ALLOC) in
  c_arena (ck s1 c) = a /\ negb (a =? 0) = true /\
  heapF (upd_ar s1 a (fun x => with_active (u64 (activeChunks x + 1)) x))
        (A1 ++ mkShape a n (pre ++ mkTile c m false :: post) :: A2) L [] B.
Proof.
  intros H s1. destruct (heap_spot _ _ _ _ _ _ _ _ _ _ _ H) as [E T P M Lm Hpo He Ea]. simpl in *.
  pose proof (shape_of _ _ _ _ _ _ _ H) as [Hok Htot Hact]. simpl in *.
  pose proof (length_used _ _ _ _ _ (ao_tiles _ _ _ _ Hok)) as Hlen. pose proof (arena_ok_tend _ _ _ _ Hok).
  split; [unfold s1; rewrite arena_tg, tg_with_magic, Z.eqb_refl, T; done|]. split; [destruct (Z.eqb_spec a 0); [lia|done]|].
  apply (mark_ok s _ A1 A2 a n pre c m true false post L L [c] [] B H); try done.
  - intros x. change (tg (upd_ar s1 ?u ?v) x) with (tg s1 x). apply tg_with_magic.
  - intros x. rewrite ar_upd. destruct (Z.eqb_spec x a) as [->|]; [|done]. change (ar s1 a) with (ar s a). f_equal.
    rewrite Hact, u64_id by (unfold is_u64; lia). lia.
  - apply (flist_same s); [apply H|]. unfold s1. by apply (same_list_upd s c (with_magic CHUNK_MAGIC_ALLOC)).
  - apply (Permutation_app_inv_r [c]). rewrite app_nil_r. rewrite (hp_free _ _ _ _ _ H).
    rewrite (free_at_mid A1 A2 a n pre [mkTile c m true] post : _ ≡ₚ _). simpl. solve_Permutation.
Qed.

Lemma coalesced_take pre c m post : coalesced false (pre ++ mkTile c m true :: post) ->
  coalesced false pre /\ coalesced true post.
Proof. intros H. apply coalesced_app in H as [H1 H2]. simpl in H2. tauto. Qed.

Lemma coal_head_free l : coalesced true l -> forall c m, coalesced false (mkTile c m true :: l).
Proof. simpl. done. Qed.

(** The cut of malloc: the rest is listed before the chunk gets its size. *)
Lemma take_split_ok s A1 A2 a n pre c m post size L B :
  heapF s (A1 ++ mkShape a n (pre ++ mkTile c m true :: post) :: A2) L [c] B ->
  0 <= size -> size mod 16 = 0 -> size + 48 <= m ->
  exists L', heapF (let '(s2, sp) := split_off s c size in upd_ck (addToFreeList s2 sp) c (with_size size))
    (A1 ++ mkShape a n (pre ++ mkTile c size true :: mkTile (c + 48 + size) (m - size - 48) true :: post) :: A2) L' [c] B.
Proof.
  intros H H0 Hm H1. pose proof (heap_spot _ _ _ _ _ _ _ _ _ _ _ H) as Sp.
  destruct (split_off_tags _ _ _ _ _ _ _ _ _ Sp H0 H1) as (E2 & Hsl & Hsa & Ht).
  destruct (split_off s c size) as [s2 sp]. simpl in *. subst sp. set (sp := c + 48 + size) in *.
  destruct Sp as [E T P M Lm Hpo He Ea]. simpl in *. exists (sp :: L).
  assert (Hr : L ≡ₚ free_at (A1 ++ mkShape a n (pre ++ post) :: A2)).
  { apply (Permutation_app_inv_r [c]). rewrite (hp_free _ _ _ _ _ H).
    rewrite (free_at_mid A1 A2 a n pre [mkTile c m true] post : _ ≡ₚ _). simpl. solve_Permutation. }
  assert (Hn : sp ∉ L).
  { rewrite Hr. intros Hin. destruct (free_at_rest_out s A1 A2 a n pre [mkTile c m true] post L [c] B sp H Hin) as [_ Ho].
    simpl in Ho. unfold sp in *. lia. }
  pose proof (add_tags s2 sp) as Hat. pose proof (tags_arenas _ _ Hat) as Haa. destruct Hat as [Hat _].
  apply (split_ok s _ A1 A2 a n pre c m true post size L (sp :: L) [c] [c] B H); try done.
  - intros x. rewrite tg_with_size, Hat, Ht. destruct (Z.eqb_spec x c) as [->|]; [|done].
    unfold split_tag. fold sp. destruct (Z.eqb_spec c sp), (Z.eqb_spec c (c + 48 + m)); unfold sp in *; try lia. done.
  - apply (same_arenas_trans _ s2); [done|]. by apply (same_arenas_trans _ (addToFreeList s2 sp)).
  - apply (flist_same (addToFreeList s2 sp)); [|by apply (same_list_upd (addToFreeList s2 sp) c (with_size size))].
    apply flist_add; [|unfold sp; lia|done]. apply (flist_same s); [apply H|done].
Qed.

Lemma take_chunk_ok s A1 A2 a n pre c m post size L B :
  heap s (A1 ++ mkShape a n (pre ++ mkTile c m true :: post) :: A2) L B ->
  0 <= size -> size mod 16 = 0 -> size <= m ->
  exists ts L' k, heap (take_chunk s c size) (A1 ++ mkShape a n ts :: A2) L' B /\ size <= k /\
    used ts ≡ₚ mkTile c k false :: used (pre ++ post).
Proof.
  intros [H Hc] H0 Hm H1. pose proof (heap_spot _ _ _ _ _ _ _ _ _ _ _ H) as [E T P M Lm Hpo He Ea]. simpl in *.
  pose proof (coal_at _ _ _ Hc) as Hco. simpl in Hco. pose proof (coalesced_take _ _ _ _ Hco) as [Hc1 Hc2].
  destruct (free_tile_listed _ _ _ _ _ _ _ _ _ _ _ H eq_refl) as (l1 & l2 & -> & Hp); [apply not_elem_of_nil|].
  apply remove_ok in H. simpl in H. unfold take_chunk. set (s1 := removeFromFreeList s c) in *.
  rewrite (size_tg s1), (proj1 (remove_tags s c)), T. cbn [g_size]. unfold sizeof_Chunk.
  rewrite (u64_id (size + 48 + 16)) by (unfold is_u64; lia). destruct (Z.leb_spec (size + 48 + 16) m).
  - destruct (take_split_ok _ _ _ _ _ _ _ _ _ _ _ _ H H0 Hm ltac:(lia)) as (L' & H').
    destruct (split_off s1 c size) as [s2 sp].
    destruct (mark_used_ok _ _ _ _ _ _ _ _ _ _ _ H') as (-> & -> & H'').
    eexists _, L', size. split; [split; [exact H''|]|split; [lia|]].
    + apply (coal_mid _ _ _ _ Hc). simpl. apply coalesced_app. split; [done|]. simpl. rewrite andb_false_r. done.
    + rewrite used_mid. rewrite !used_app. done.
  - destruct (mark_used_ok _ _ _ _ _ _ _ _ _ _ _ H) as (-> & -> & H'').
    eexists _, (l1 ++ l2), m. split; [split; [exact H''|]|split; [lia|]].
    + apply (coal_mid _ _ _ _ Hc). simpl. apply coalesced_app. split; [done|]. simpl. rewrite andb_false_r. split; [done|].
      by apply (coalesced_used true).
    + by rewrite used_mid.
Qed.

(** ** Fresh memory

    What mmap gives: memory that was not mapped and reads as zeros. *)
Record fresh (s : Libc) (A : list shape) (B : list (Z * Z)) (mm len : Z) : Prop := {
  fr_base : 0 < mm /\ mm mod 4096 = 0 /\ mm + len <= 2 ^ 63;
  fr_apart : forall r, r ∈ regions A B -> disj (mm, len) r;
  fr_zero : forall x, mm <= x < mm + len -> ck s x = chunk0
}.

(** A new arena at the front of the list. *)
Lemma new_shape_ok s s' A L B mm n ts :
  heapF s A L [] B -> (forall r, r ∈ regions A B -> disj (mm, n) r) ->
  (forall x, ~ mm <= x < mm + n -> ck s' x = ck s x) ->
  (forall x, x <> 0 -> ar s' x = if x =? mm then mkArena n 1 (gArenaList s) 0
                       else if x =? gArenaList s then with_aprev mm (ar s x) else ar s x) ->
  gArenaList s' = mm -> gArenaCount s' = u64 (gArenaCount s + 1) -> gFreeList s' = gFreeList s ->
  arena_ok (tg s') mm n ts -> length (used ts) = 1%nat ->
  heapF s' (mkShape mm n ts :: A) L (t_at <$> unused ts) B.
Proof.
  intros H Hd Hck Har E1 E2 E3 Hok Hu. pose proof (arenas_nodup _ _ _ _ _ H) as Hnd. destruct H as [H1 H2 H3 H4 H5 H6 H7 H8].
  pose proof (arena_ok_tend _ _ _ _ Hok) as Hend. pose proof (ao_base _ _ _ _ Hok) as Hb.
  assert (Hs : forall r, r ∈ A -> shape_ok s r) by (by rewrite Forall_forall in H1).
  assert (HA : forall r, r ∈ A -> 0 < sh_at r /\ 0 < sh_len r /\ disj (mm, n) (sh_at r, sh_len r)).
  { intros r Hr. pose proof (arena_ok_tend _ _ _ _ (so_ok _ _ (Hs r Hr))). pose proof (ao_base _ _ _ _ (so_ok _ _ (Hs r Hr))).
    split_and!; [lia|lia|]. apply Hd, elem_of_app. left. by apply (list_elem_of_fmap_2 (fun r => (sh_at r, sh_len r))). }
  assert (HB : forall r, r ∈ B -> disj (mm, n) (r.1, r.2 + 48))
    by (intros r Hr; apply Hd, elem_of_app; right; by apply (list_elem_of_fmap_2 (fun b => (b.1, b.2 + 48)))).
  unfold disj in HA, HB. simpl in HA, HB.
  constructor.
  - apply Forall_cons. split.
    + constructor; simpl; [done| |rewrite Hu]; rewrite Har, Z.eqb_refl by lia; done.
    + rewrite Forall_forall. intros r Hr. destruct (HA r Hr) as (? & ? & Hdr).
      apply (shape_ok_ext s); [auto|intros x Hx; unfold tg; rewrite Hck by lia; done| |];
        rewrite Har by lia; (destruct (Z.eqb_spec (sh_at r) mm); [lia|]); by destruct (sh_at r =? _).
  - rewrite fmap_cons. cbn [sh_at]. apply (dll_push (anx s) (apv s)); [done|lia| |done| |].
    + intros Hin. apply list_elem_of_fmap in Hin as (r & E & Hr). destruct (HA r Hr) as (? & ? & ?). lia.
    + intros x _ Hx. unfold anx at 1. rewrite Har by done. rewrite <- H3. destruct (Z.eqb_spec x mm); [done|]. by destruct (x =? gArenaList s).
    + intros x _ Hx. unfold apv at 1. rewrite Har by done. rewrite <- H3. destruct (Z.eqb_spec x mm); [done|]. by destruct (x =? gArenaList s).
  - by rewrite E1.
  - rewrite E2, H4. unfold u64. rewrite Zplus_mod_idemp_l. f_equal. simpl. lia.
  - destruct H5 as [F1 F2 F3]. constructor; [|congruence|done]. apply (dll_ext (nx s) (pv s)); [done|]. intros x Hx.
    assert (Hf : x ∈ free_at A) by (rewrite <- H6; apply elem_of_app; by left).
    destruct (free_at_in _ _ _ H1 Hf) as (r & Hr & _ & ? & ?). destruct (HA r Hr) as (? & ? & ?).
    unfold nx, pv. rewrite Hck by lia. done.
  - unfold free_at. simpl. rewrite fmap_app. rewrite app_nil_r in H6. rewrite H6. apply Permutation_app_comm.
  - rewrite Forall_forall in H7 |- *. intros r Hr. specialize (HB r Hr). destruct (H7 r Hr) as (? & ? & ? & ? & E).
    unfold big_ok, tg in *. rewrite Hck by lia. done.
  - change (regions (mkShape mm n ts :: A) B) with ((mm, n) :: regions A B). split; [|done].
    rewrite Forall_forall. auto.
Qed.

Lemma arena_size_spec size : 0 <= size < 2 ^ 62 -> size mod 16 = 0 ->
  arena_size size mod 4096 = 0 /\ 80 + size <= arena_size size <= 2 ^ 63.
Proof.
  intros H Hm. unfold arena_size, sizeof_Arena, sizeof_Chunk, ARENA_DEFAULT_SIZE, align4096.
  rewrite u64_id by (unfold is_u64; lia). destruct (Z.ltb_spec (64 * 1024) (32 + 48 + size)).
  - rewrite page_up_spec by lia. divlia.
  - split; [done|lia].
Qed.

(** What a new arena would leave after a chunk of the size. *)
Definition leftover (size : Z) : Z := arena_size size - 80 - size.

Lemma new_arena_ok s A L B mm size :
  heap s A L B -> 0 <= size < 2 ^ 62 -> size mod 16 = 0 -> leftover size <> 16 -> leftover size <> 32 ->
  fresh s A B mm (arena_size size) ->
  exists ts L', heap (new_arena s mm size) (mkShape mm (arena_size size) ts :: A) L' B /\
    used ts = [mkTile (mm + 32) size false].
Proof.
  intros [H Hc] Hs Hm N1 N2 [Hb Hd Hz]. destruct (arena_size_spec size Hs Hm) as [Hn1 Hn2]. unfold leftover in N1, N2.
  unfold new_arena, sizeof_Arena, sizeof_Chunk. set (n := arena_size size) in *.
  rewrite (u64_id (n - 32 - 48 - size)) by (unfold is_u64; lia).
  set (s3 := set_arenas _ mm _). set (c1 := mkChunk CHUNK_MAGIC_ALLOC false size 0 0 0 mm). set (s4 := set_ck s3 (mm + 32) c1).
  assert (Hck3 : forall x, ck s3 x = ck s x) by (intros x; unfold s3; by destruct (negb _)).
  assert (Har3 : forall x, x <> 0 -> ar s3 x = if x =? mm then mkArena n 1 (gArenaList s) 0
            else if x =? gArenaList s then with_aprev mm (ar s x) else ar s x).
  { intros x Hx. unfold s3. change (ar (set_arenas ?u ?v ?w) x) with (ar u x).
    assert (Hne : gArenaList s <> mm).
    { rewrite (hp_ahead _ _ _ _ _ H). destruct A as [|r A]; simpl; [lia|].
      specialize (Hd (sh_at r, sh_len r) ltac:(left)). unfold disj in Hd. simpl in Hd.
      pose proof (hp_arena _ _ _ _ _ H) as Ha. apply Forall_cons in Ha as [Ha _]. pose proof (arena_ok_tend _ _ _ _ (so_ok _ _ Ha)). lia. }
    destruct (Z.eqb_spec (gArenaList s) 0); simpl; rewrite ?ar_upd, ?ar_set; bsplit; subst; lia || done. }
  assert (E3 : gArenaList s3 = mm /\ gArenaCount s3 = u64 (gArenaCount s + 1) /\ gFreeList s3 = gFreeList s)
    by (unfold s3; by destruct (negb _)). destruct E3 as (E1 & E2 & E3).
  assert (T4 : forall x, tg s4 x = if x =? mm + 32 then mkTag CHUNK_MAGIC_ALLOC false size 0 mm else tg s x).
  { intros x. unfold tg, s4. rewrite ck_set, Hck3. by destruct (x =? mm + 32). }
  destruct (Z.leb_spec (48 + 16) (n - 32 - 48 - size)) as [Hr|Hr].
  - set (r := mm + 32 + 48 + size). set (c2 := mkChunk _ _ _ _ _ _ _). set (s5 := set_ck s4 r c2).
    set (ts := [mkTile (mm + 32) size false; mkTile r (n - 32 - 48 - size - 48) true]).
    assert (T5 : forall x, tg s5 x = if x =? r then mkTag CHUNK_MAGIC_FREE false (n - 32 - 48 - size - 48) (mm + 32) mm else tg s4 x).
    { intros x. unfold tg, s5. rewrite ck_set. by destruct (x =? r). }
    assert (H5 : heapF s5 (mkShape mm n ts :: A) L (t_at <$> unused ts) B).
    { apply (new_shape_ok s); try done.
      - intros x Hx. unfold s5, s4. rewrite !ck_set, Hck3. unfold r. bsplit; lia || done.
      - constructor; [divlia| |done|left; unfold ts; simpl; lia]. unfold ts. simpl.
        split_and!; try done; try lia; rewrite ?T5, ?T4; unfold r; bsplit; try lia; try done. divlia. }
    exists ts, (r :: L). split; [split|done].
    + apply add_ok; [exact H5|unfold r; lia|]. intros Hin.
      assert (Hf : r ∈ free_at A) by (rewrite <- (hp_free _ _ _ _ _ H); apply elem_of_app; by left).
      destruct (free_at_in _ _ _ (hp_arena _ _ _ _ _ H) Hf) as (q & Hq & _ & ? & ?).
      specialize (Hd (sh_at q, sh_len q)). unfold disj, r in *. simpl in Hd. destruct Hd; [|lia|lia].
      apply elem_of_app. left. by apply (list_elem_of_fmap_2 (fun r => (sh_at r, sh_len r))).
    + apply Forall_cons. split; [done|exact Hc].
  - exists [mkTile (mm + 32) size false], L. split; [split|done]; [|apply Forall_cons; split; [done|exact Hc]].
    apply (new_shape_ok s s4 A L B mm n [mkTile (mm + 32) size false]); try done.
    + intros x Hx. unfold s4. rewrite !ck_set, Hck3. bsplit; lia || done.
    + constructor; [divlia| |done|].
      * simpl. split_and!; try done; try lia. rewrite T4, Z.eqb_refl. done.
      * simpl. assert (Hcase : n - 32 - 48 - size = 0 \/ n - 32 - 48 - size = 48) by divlia.
        destruct Hcase as [E|E]; [left; lia|right]. split; [lia|]. rewrite magic_tg, T4.
        destruct (Z.eqb_spec (mm + n - 48) (mm + 32)); [lia|]. unfold tg. rewrite Hz by lia. done.
Qed.

(** ** What the program itself keeps *)
Definition user (s : Libc) : mem * list AtExitNode := (u_mem s, gAtExitList s).

Lemma user_upd_ck s a f : user (upd_ck s a f) = user s.
Proof. done. Qed.
Lemma user_set_ck s a c : user (set_ck s a c) = user s.
Proof. done. Qed.
Lemma user_upd_ar s a f : user (upd_ar s a f) = user s.
Proof. done. Qed.
Lemma user_set_ar s a f : user (set_ar s a f) = user s.
Proof. done. Qed.
Lemma user_set_arenas s h k : user (set_arenas s h k) = user s.
Proof. done. Qed.
Lemma user_if (b : bool) s s' : user (if b then s else s') = if b then user s else user s'.
Proof. by destruct b. Qed.
Lemma user_add s c : user (addToFreeList s c) = user s.
Proof. unfold addToFreeList. by destruct (negb _). Qed.
Lemma user_remove s c : user (removeFromFreeList s c) = user s.
Proof. destruct (remove_tags s c) as (_ & _ & _ & _ & E1 & E2). unfold user. by rewrite E1, E2. Qed.
Lemma user_prevPhys s a p q : user (set_prevPhys_in s a p q) = user s.
Proof. unfold set_prevPhys_in. by destruct (_ <? _). Qed.
Lemma user_split s c size : user (split_off s c size).1 = user s.
Proof. unfold split_off. simpl. by rewrite user_prevPhys. Qed.

Create Rewrite HintDb user.
#[export] Hint Rewrite user_upd_ck user_set_ck user_upd_ar user_set_ar user_set_arenas user_if user_add user_remove
  user_prevPhys user_split : user.

Lemma user_take s c size : user (take_chunk s c size) = user s.
Proof.
  unfold take_chunk. rewrite (surjective_pairing (split_off _ _ _)). autorewrite with user.
  by destruct (negb _), (_ <=? _).
Qed.

Lemma user_new s mm size : user (new_arena s mm size) = user s.
Proof. unfold new_arena. autorewrite with user. by destruct (_ <=? _), (negb _). Qed.

(** ** malloc *)

(** How much memory a call that maps asks for. *)
Definition mapped_len (size : Z) : Z :=
  let size := align16 size in
  if LARGE_ALLOC_THRESHOLD <=? size then align4096 (u64 (size + sizeof_Chunk)) else arena_size size.

(** The request does not leave 16 or 32 bytes at the end of a new arena. *)
Definition no_sliver (size : Z) : Prop :=
  leftover (align16 size) <> 16 /\ leftover (align16 size) <> 32.

Lemma big_block_ok s A L B mm len :
  heap s A L B -> fresh s A B mm len -> 48 <= len ->
  heap (set_ck s mm (mkChunk CHUNK_MAGIC_ALLOC true (len - 48) 0 0 0 0)) A L ((mm, len - 48) :: B).
Proof.
  intros [H Hc] [Hb Hd Hz] Hl. split; [|done]. set (s' := set_ck _ _ _).
  assert (H' : heapF s' A L [] B).
  { apply (heap_frame s s' A L [] B mm len); try done. intros x Hx. split; [|done]. unfold s'. rewrite ck_set.
    destruct (Z.eqb_spec x mm); [lia|done]. }
  destruct H' as [H1 H2 H3 H4 H5 H6 H7 H8]. constructor; try done.
  - apply Forall_cons. split; [|done]. unfold big_ok. simpl. split_and!; try lia; [divlia|].
    unfold tg, s'. rewrite ck_set, Z.eqb_refl. done.
  - rewrite (regions_big A [] (mm, len - 48) B : regions A ((mm, len - 48) :: B) ≡ₚ _). simpl.
    replace (len - 48 + 48) with len by lia. split; [|done]. rewrite Forall_forall. auto.
Qed.

Lemma block_aligned s A L B p k : heap s A L B -> (p, k) ∈ blocks A B -> p mod 16 = 0 /\ 0 < p /\ 0 <= k /\ p + k <= 2 ^ 63.
Proof.
  intros [H _] Hin. unfold blocks in Hin. apply elem_of_app in Hin as [Hin|Hin].
  - apply list_elem_of_fmap in Hin as ([c m f] & E & Hin). simplify_eq/=.
    apply list_elem_of_bind in Hin as ([a nn ts] & Ht & HA). simpl in Ht. apply list_elem_of_In, filter_In in Ht as [Ht Hf].
    apply list_elem_of_In, list_elem_of_split in Ht as (pre & post & ->). apply list_elem_of_split in HA as (A1 & A2 & ->).
    destruct (heap_spot _ _ _ _ _ _ _ _ _ _ _ H) as [_ _ P M Lm _ _ _]. simpl in *. split_and!; try lia. divlia.
  - apply list_elem_of_fmap in Hin as ([b n] & E & Hin). simplify_eq/=.
    pose proof (hp_big _ _ _ _ _ H) as Hb. rewrite Forall_forall in Hb. destruct (Hb _ Hin) as (? & ? & ? & ? & _). simpl in *.
    split_and!; try lia. divlia.
Qed.

Lemma malloc_ok s A L B mm size :
  heap s A L B -> 0 < size < 2 ^ 62 -> no_sliver size ->
  mmap_failed mm = true \/ fresh s A B mm (mapped_len size) ->
  exists s' p, malloc s mm size = Some (s', p) /\
    ((p = 0 /\ s' = s /\ mmap_failed mm = true) \/
     (user s' = user s /\
      exists A' L' B' k, heap s' A' L' B' /\ size <= k /\ blocks A' B' ≡ₚ (p, k) :: blocks A B)).
Proof.
  intros H Hs [Hn1 Hn2] Hmm. unfold malloc, mapped_len in *. destruct (Z.eqb_spec size 0); [lia|].
  pose proof (align16_spec size ltac:(lia) ltac:(lia)) as Ha. set (sz := align16 size) in *. clearbody sz.
  assert (Hsz : size <= sz < 2 ^ 62 + 16 /\ sz mod 16 = 0) by divlia. clear Ha. unfold LARGE_ALLOC_THRESHOLD in *.
  destruct (Z.leb_spec (128 * 1024) sz) as [Hl|Hl].
  - destruct (mmap_failed mm) eqn:Ef; [exists s, 0; split; [done|by left]|]. destruct Hmm as [|Hf]; [done|].
    eexists _, _. split; [done|]. right. split; [done|]. unfold sizeof_Chunk, align4096 in *.
    rewrite (u64_id (sz + 48)) in * by (unfold is_u64; lia).
    assert (Hp : sz + 48 <= page_up (sz + 48) < 2 ^ 63) by (rewrite page_up_spec by lia; divlia).
    rewrite (u64_id (page_up (sz + 48) - 48)) by (unfold is_u64; lia).
    exists A, L, ((mm, page_up (sz + 48) - 48) :: B), (page_up (sz + 48) - 48). split; [|split; [lia|]].
    + apply big_block_ok; [done|done|lia].
    + unfold blocks. rewrite fmap_cons. simpl. by rewrite Permutation_middle.
  - pose proof (free_list_short _ _ _ _ _ (proj1 H)) as Hfu.
    destruct (find_fit_ok s L 0 (S (base.size (chunks s))) sz) as (c & E & Hcs); [apply H|lia|].
    rewrite (fl_head _ _ (hp_flist _ _ _ _ _ (proj1 H))). rewrite E. simpl.
    destruct Hcs as [[-> _]|[Hc Hsc]].
    + simpl. destruct (mmap_failed mm) eqn:Ef; [exists s, 0; split; [done|by left]|]. destruct Hmm as [|Hf]; [done|].
      eexists _, _. split; [done|]. right.
      destruct (new_arena_ok s A L B mm sz H ltac:(lia) ltac:(tauto) Hn1 Hn2 Hf) as (ts & L' & H' & Hu).
      split; [apply user_new|].
      exists (mkShape mm (arena_size sz) ts :: A), L', B, sz. split; [done|]. split; [lia|].
      rewrite (blocks_mid [] A mm (arena_size sz) ts B : blocks (_ :: A) B ≡ₚ _), Hu. done.
    + assert (Hfr : c ∈ free_at A) by (rewrite <- (hp_free _ _ _ _ _ (proj1 H)); apply elem_of_app; by left).
      unfold free_at in Hfr. apply list_elem_of_fmap in Hfr as ([c' m f] & Ec & Hfr). simpl in Ec. subst c'.
      apply list_elem_of_bind in Hfr as ([a nn ts] & Ht & HA). simpl in Ht. apply list_elem_of_In, filter_In in Ht as [Ht Hf].
      simpl in Hf. subst f. apply list_elem_of_In, list_elem_of_split in Ht as (pre & post & ->).
      apply list_elem_of_split in HA as (A1 & A2 & ->).
      destruct (heap_spot _ _ _ _ _ _ _ _ _ _ _ (proj1 H)) as [_ T P _ _ _ _ _]. simpl in T, P. rewrite size_tg, T in Hsc. simpl in Hsc.
      destruct (Z.eqb_spec c 0); [lia|]. simpl. eexists _, _. split; [done|]. right.
      destruct (take_chunk_ok s A1 A2 a nn pre c m post sz L B H ltac:(lia) ltac:(tauto) Hsc) as (ts & L' & k & H' & Hk & Hu).
      split; [apply user_take|].
      eexists _, L', B, k. split; [exact H'|]. split; [lia|]. rewrite !blocks_mid, Hu. unfold used. rewrite !List.filter_app. done.
Qed.
