(* ===== verification/MallocSpec.v ===== *)
(** * The user-space allocator: what its clients rely on

    The live blocks never overlap; malloc adds one of at least the size that
    was asked for, free takes exactly one away, realloc exchanges one for
    another with the same contents, and none of them touches the others. *)

From Stdlib Require Import ZArith Lia Bool.
From stdpp Require Import base list gmap.
From S2P Require Import Prelude Dll Mem Str Malloc MallocInv MallocOps MallocProps.

(** ** Live blocks are disjoint *)
Lemma tiles_apart t a lo p l : tiles t a lo p l ->
  apart (block_of <$> used l) /\ (forall b, b ∈ block_of <$> used l -> lo <= b.1 /\ b.1 + b.2 <= tend lo l).
Proof.
  revert lo p. induction l as [|x r IH]; intros lo p H; simpl in *.
  - split; [done|]. intros b Hb. by apply elem_of_nil in Hb.
  - destruct H as (E & _ & H0 & _ & H). pose proof (tiles_tend _ _ _ _ _ H) as [Hge _]. apply IH in H as [H1 H2].
    destruct (t_free x); simpl; [split; [done|]; intros b Hb; apply H2 in Hb; lia|].
    unfold block_of at 1 3. split; [split; [|done]|].
    + rewrite Forall_forall. intros b Hb. apply H2 in Hb. unfold disj. simpl. lia.
    + intros b Hb. apply elem_of_cons in Hb as [->|Hb]; simpl; [lia|]. apply H2 in Hb. lia.
Qed.

Lemma block_in_region s A B b : Forall (shape_ok s) A -> b ∈ blocks A B ->
  exists r, r ∈ regions A B /\ r.1 <= b.1 /\ b.1 + b.2 <= r.1 + r.2.
Proof.
  intros HA Hb. unfold blocks in Hb. apply elem_of_app in Hb as [Hb|Hb].
  - apply list_elem_of_fmap in Hb as (t & -> & Ht). apply list_elem_of_bind in Ht as (q & Ht & Hq).
    exists (sh_at q, sh_len q). split; [apply elem_of_app; left; by apply (list_elem_of_fmap_2 (fun r => (sh_at r, sh_len r)))|].
    rewrite Forall_forall in HA. pose proof (so_ok _ _ (HA q Hq)) as Hok. pose proof (arena_ok_tend _ _ _ _ Hok).
    destruct (tiles_apart _ _ _ _ _ (ao_tiles _ _ _ _ Hok)) as [_ Hi]. specialize (Hi (block_of t)). simpl in *.
    destruct Hi; [by apply list_elem_of_fmap_2|]. lia.
  - apply list_elem_of_fmap in Hb as (q & -> & Hq). exists (q.1, q.2 + 48). simpl. split; [|lia].
    apply elem_of_app. right. by apply (list_elem_of_fmap_2 (fun b => (b.1, b.2 + 48))).
Qed.

Lemma blocks_apart s A L F B : heapF s A L F B -> apart (blocks A B).
Proof.
  intros H. pose proof (hp_arena _ _ _ _ _ H) as HA. pose proof (hp_apart _ _ _ _ _ H) as Hd. clear H.
  induction A as [|r A IH].
  - unfold blocks, regions in *. simpl in *. induction B as [|b B IHB]; simpl in *; [done|].
    destruct Hd as [Hf Hd]. split; [|auto]. rewrite Forall_forall in Hf |- *. intros q Hq.
    apply list_elem_of_fmap in Hq as (x & -> & Hx). specialize (Hf (x.1, x.2 + 48)). unfold disj in *. simpl in *.
    destruct Hf as [Hf|Hf]; [by apply (list_elem_of_fmap_2 (fun b => (b.1, b.2 + 48)))|lia|lia].
  - apply Forall_cons in HA as [Hr HA]. change (regions (r :: A) B) with ((sh_at r, sh_len r) :: regions A B) in Hd.
    destruct Hd as [Hf Hd]. rewrite Forall_forall in Hf. specialize (IH HA Hd).
    destruct r as [a n ts]. rewrite (blocks_mid [] A a n ts B : blocks (_ :: A) B ≡ₚ _). simpl.
    pose proof (so_ok _ _ Hr) as Hok. simpl in Hok. pose proof (arena_ok_tend _ _ _ _ Hok).
    destruct (tiles_apart _ _ _ _ _ (ao_tiles _ _ _ _ Hok)) as [H1 H2].
    apply apart_app. split_and!; [done|done|]. intros x y Hx Hy. apply H2 in Hx.
    destruct (block_in_region _ _ _ _ HA Hy) as (q & Hq & ? & ?). specialize (Hf q Hq). unfold disj in *. simpl in *. lia.
Qed.

(** ** Reading a live block's header *)
Lemma block_cases s A L B p k : heap s A L B -> (p, k) ∈ blocks A B ->
  (exists A1 A2 a n pre post, A = A1 ++ mkShape a n (pre ++ mkTile (p - 48) k false :: post) :: A2) \/
  (exists B1 B2, B = B1 ++ (p - 48, k) :: B2).
Proof.
  intros H Hin. unfold blocks in Hin. apply elem_of_app in Hin as [Hin|Hin].
  - left. apply list_elem_of_fmap in Hin as ([c m f] & E & Hin). simplify_eq/=.
    apply list_elem_of_bind in Hin as ([a n ts] & Ht & HA). simpl in Ht. apply list_elem_of_In, filter_In in Ht as [Ht Hf].
    simpl in Hf. destruct f; [done|]. apply list_elem_of_In, list_elem_of_split in Ht as (pre & post & ->).
    apply list_elem_of_split in HA as (A1 & A2 & ->). exists A1, A2, a, n, pre, post. do 5 f_equal. f_equal. lia.
  - right. apply list_elem_of_fmap in Hin as ([b n] & E & Hin). simplify_eq/=. apply list_elem_of_split in Hin as (B1 & B2 & ->).
    exists B1, B2. do 3 f_equal. lia.
Qed.

Lemma block_header s A L B p k : heap s A L B -> (p, k) ∈ blocks A B ->
  c_magic (ck s (p - 48)) = CHUNK_MAGIC_ALLOC /\ c_size (ck s (p - 48)) = k.
Proof.
  intros H Hin. destruct (block_cases _ _ _ _ _ _ H Hin) as [(A1 & A2 & a & n & pre & post & ->)|(B1 & B2 & ->)].
  - destruct (heap_spot _ _ _ _ _ _ _ _ _ _ _ (proj1 H)) as [_ T _ _ _ _ _ _]. simpl in T. by rewrite magic_tg, size_tg, T.
  - pose proof (hp_big _ _ _ _ _ (proj1 H)) as Hb. apply Forall_app in Hb as [_ Hb]. apply Forall_cons in Hb as [(_ & _ & _ & _ & T) _].
    simpl in T. by rewrite magic_tg, size_tg, T.
Qed.

(** ** Resizing in place *)
Lemma split_used_ok s A1 A2 a n pre c m post size L B :
  heapF s (A1 ++ mkShape a n (pre ++ mkTile c m false :: post) :: A2) L [] B ->
  0 <= size -> size mod 16 = 0 -> size + 48 <= m ->
  (split_off s c size).2 = c + 48 + size /\
  heapF (upd_ck (split_off s c size).1 c (with_size size))
    (A1 ++ mkShape a n ((pre ++ [mkTile c size false]) ++ mkTile (c + 48 + size) (m - size - 48) true :: post) :: A2)
    L [c + 48 + size] B.
Proof.
  intros H H0 Hm H1. pose proof (heap_spot _ _ _ _ _ _ _ _ _ _ _ H) as Sp.
  destruct (split_off_tags _ _ _ _ _ _ _ _ _ Sp H0 H1) as (E2 & Hsl & Hsa & Ht). split; [done|].
  destruct (split_off s c size) as [s2 sp]. simpl in *. destruct Sp as [E T P M Lm Hpo He Ea]. simpl in *.
  rewrite <- app_assoc. apply (split_ok s _ A1 A2 a n pre c m false post size L L [] [c + 48 + size] B H); try done.
  - intros x. rewrite tg_with_size, Ht. destruct (Z.eqb_spec x c) as [->|]; [|done].
    unfold split_tag. destruct (Z.eqb_spec c (c + 48 + size)), (Z.eqb_spec c (c + 48 + m)); try lia. done.
  - apply (flist_same s); [apply H|]. eapply same_list_trans; [exact Hsl|]. by apply (same_list_upd s2 c (with_size size)).
  - rewrite app_nil_r. apply Permutation_app_comm.
Qed.

(** Listing a free chunk that is off the list. *)
Lemma list_ok s A1 A2 a n pre c m post L B :
  heapF s (A1 ++ mkShape a n (pre ++ mkTile c m true :: post) :: A2) L [c] B ->
  heapF (addToFreeList s c) (A1 ++ mkShape a n (pre ++ mkTile c m true :: post) :: A2) (c :: L) [] B.
Proof.
  intros H. destruct (heap_spot _ _ _ _ _ _ _ _ _ _ _ H) as [_ _ P _ _ _ _ _]. simpl in P.
  apply add_ok; [done|lia|]. intros Hin.
  destruct (free_at_rest_out s A1 A2 a n pre [mkTile c m true] post L [c] B c) as [_ Ho]; [exact H| |].
  - pose proof (hp_free _ _ _ _ _ H) as Hp. rewrite (free_at_mid A1 A2 a n pre [mkTile c m true] post : _ ≡ₚ _) in Hp.
    assert (Hr : L ≡ₚ free_at (A1 ++ mkShape a n (pre ++ post) :: A2))
      by (apply (Permutation_app_inv_r [c]); rewrite Hp; simpl; solve_Permutation).
    by rewrite <- Hr.
  - destruct (heap_spot _ _ _ _ _ _ _ _ _ _ _ H) as [E _ _ _ _ _ _ _]. simpl in *. lia.
Qed.

Lemma shrink_ok s A1 A2 a n pre c m post size L B :
  heap s (A1 ++ mkShape a n (pre ++ mkTile c m false :: post) :: A2) L B ->
  0 <= size -> size mod 16 = 0 -> size <= m ->
  exists ts L' k, heap (shrink s c size) (A1 ++ mkShape a n ts :: A2) L' B /\ size <= k /\
    used ts ≡ₚ mkTile c k false :: used (pre ++ post).
Proof.
  intros [H Hc] H0 Hm H1. pose proof (heap_spot _ _ _ _ _ _ _ _ _ _ _ H) as [E T P M Lm Hpo He Ea]. simpl in *.
  pose proof (coal_at _ _ _ Hc) as Hco. simpl in Hco. apply coalesced_app in Hco as [Hc1 [_ Hc2]]. simpl in Hc2.
  unfold shrink. rewrite (size_tg s), T. cbn [g_size]. unfold sizeof_Chunk.
  rewrite (u64_id (size + 48 + 16)) by (unfold is_u64; lia). destruct (Z.leb_spec (size + 48 + 16) m) as [Hle|Hle].
  - destruct (split_used_ok _ _ _ _ _ _ _ _ _ _ _ _ H H0 Hm ltac:(lia)) as [E2 H2].
    destruct (split_off s c size) as [s1 sp]. simpl in E2, H2. subst sp.
    destruct (merge_next_ok _ _ _ _ _ _ _ _ _ _ _ H2 Hc2) as (m' & post' & L' & H3 & Eu & Hc3).
    apply list_ok in H3. eexists _, _, size. split; [split; [exact H3|]|split; [lia|]].
    + apply (coal_mid _ _ _ _ Hc). simpl. rewrite <- app_assoc. apply coalesced_app. split; [done|]. simpl. by rewrite andb_false_r.
    + rewrite <- app_assoc. simpl. rewrite used_mid, !used_app. simpl. by rewrite Eu.
  - eexists _, L, m. split; [split; [exact H|done]|]. split; [lia|]. by rewrite used_mid.
Qed.

Lemma grow_over_ok s A1 A2 a n pre c m c' k post size L B :
  heap s (A1 ++ mkShape a n (pre ++ mkTile c m false :: mkTile c' k true :: post) :: A2) L B ->
  0 <= size -> size mod 16 = 0 -> size <= m + 48 + k ->
  exists ts L' k', heap (grow_over s c size) (A1 ++ mkShape a n ts :: A2) L' B /\ size <= k' /\
    used ts ≡ₚ mkTile c k' false :: used (pre ++ post).
Proof.
  intros [H Hc] H0 Hm H1. pose proof (coal_at _ _ _ Hc) as Hco. simpl in Hco. apply coalesced_app in Hco as [Hc1 [_ Hc2]]. simpl in Hc2.
  destruct (absorb_next_ok s A1 A2 a n pre c m false c' k post L [] B H (not_elem_of_nil _)) as (L1 & H2). simpl in H2.
  unfold grow_over. set (s1 := absorb_next s c) in *.
  pose proof (heap_spot _ _ _ _ _ _ _ _ _ _ _ H2) as [E T P M Lm Hpo He Ea]. cbn [t_at t_len t_free] in *.
  rewrite (size_tg s1), T. cbn [g_size]. unfold sizeof_Chunk.
  rewrite (u64_id (size + 48 + 16)) by (unfold is_u64; lia). destruct (Z.leb_spec (size + 48 + 16) (m + 48 + k)) as [Hle|Hle].
  - destruct (split_used_ok _ _ _ _ _ _ _ _ _ _ _ _ H2 H0 Hm ltac:(lia)) as [E2 H3].
    destruct (split_off s1 c size) as [s2 sp]. simpl in E2, H3. subst sp. apply list_ok in H3.
    eexists _, _, size. split; [split; [exact H3|]|split; [lia|]].
    + apply (coal_mid _ _ _ _ Hc). simpl. rewrite <- app_assoc. apply coalesced_app. split; [done|]. simpl. rewrite andb_false_r. tauto.
    + rewrite <- app_assoc. simpl. rewrite used_mid, !used_app. done.
  - eexists _, L1, (m + 48 + k). split; [split; [exact H2|]|split; [lia|by rewrite used_mid]].
    apply (coal_mid _ _ _ _ Hc). simpl. apply coalesced_app. split; [done|]. simpl. rewrite andb_false_r. split; [done|].
    apply (coalesced_used true). tauto.
Qed.

(** ** Moving a block *)
Lemma heap_umem s m A L B : heap s A L B -> heap (set_umem s m) A L B.
Proof. intros [[H1 H2 H3 H4 [F1 F2 F3] H6 H7 H8] Hc]. split; [|done]. constructor; try done.
  eapply Forall_impl; [exact H1|]. intros r [O1 O2 O3]. by constructor.
Qed.

Lemma user_absorb_next s c : user (absorb_next s c) = user s.
Proof. unfold absorb_next. by autorewrite with user. Qed.
Lemma user_absorb_prev s c p : user (absorb_prev s c p) = user s.
Proof. unfold absorb_prev. by autorewrite with user. Qed.
Lemma user_munmap s b l : user (munmap s b l) = user s.
Proof. done. Qed.
Lemma user_remove_arena s a : user (removeFromArenaList s a) = user s.
Proof. unfold removeFromArenaList. by destruct (negb (a_prev _ =? 0)), (negb (a_next _ =? 0)). Qed.
#[export] Hint Rewrite user_absorb_next user_absorb_prev user_munmap user_remove_arena : user.

Lemma user_release s c : user (release_or_list s c) = user s.
Proof. unfold release_or_list. by destruct (_ && _); autorewrite with user. Qed.
#[export] Hint Rewrite user_release : user.

Lemma user_free s p : user (free s p) = user s.
Proof.
  unfold free. destruct (p =? 0); [done|]. destruct (negb _); [done|]. destruct (c_isMmap _); [done|].
  destruct (negb (_ =? 0) && (c_magic _ =? _)); autorewrite with user; by destruct (next_is_free _ _), (_ && _).
Qed.

Lemma user_shrink s c size : user (shrink s c size) = user s.
Proof.
  unfold shrink. destruct (_ <=? _); [|done]. rewrite (surjective_pairing (split_off _ _ _)). autorewrite with user.
  by destruct (next_is_free _ _).
Qed.
Lemma user_grow s c size : user (grow_over s c size) = user s.
Proof.
  unfold grow_over. destruct (_ <=? _); autorewrite with user; [|done].
  rewrite (surjective_pairing (split_off _ _ _)). by autorewrite with user.
Qed.

(** The contents of the live blocks [l] are the same in both memories. *)
Definition contents_kept (m m' : mem) (l : list (Z * Z)) : Prop :=
  forall b i, b ∈ l -> 0 <= i < b.2 -> rd8 m' (b.1 + i) = rd8 m (b.1 + i).

(** Mapping fails, or gives fresh memory of the length the call asks for. *)
Definition mmap_spec (s : Libc) (A : list shape) (B : list (Z * Z)) (mm size : Z) : Prop :=
  mmap_failed mm = true \/ fresh s A B mm (mapped_len size).

Lemma align16_idem x : 0 <= x < 2 ^ 63 -> align16 (align16 x) = align16 x.
Proof. intros H. rewrite (align16_spec x) by lia. rewrite align16_spec by divlia. divlia. Qed.

Definition realloc_result (s s' : Libc) (mm ptr k size p : Z) (bs : list (Z * Z)) : Prop :=
  (p = 0 /\ s' = s /\ mmap_failed mm = true) \/
  (gAtExitList s' = gAtExitList s /\ contents_kept (u_mem s) (u_mem s') bs /\
   (forall i, 0 <= i < Z.min k size -> rd8 (u_mem s') (p + i) = rd8 (u_mem s) (ptr + i)) /\
   exists A' L' B' k', heap s' A' L' B' /\ size <= k' /\ blocks A' B' ≡ₚ (p, k') :: bs).

Lemma move_block_ok s A L B mm ptr k size bs :
  heap s A L B -> blocks A B ≡ₚ (ptr, k) :: bs -> 0 < size < 2 ^ 62 -> no_sliver size -> mmap_spec s A B mm size ->
  exists s' p, move_block s mm ptr (ptr - 48) size = Some (s', p) /\ realloc_result s s' mm ptr k size p bs.
Proof.
  intros H Hb Hs Hn Hmm. destruct (malloc_ok s A L B mm size H Hs Hn Hmm) as (s1 & p & E & Hr).
  unfold move_block. rewrite E. simpl. destruct Hr as [(-> & -> & Hf)|(Hu & A' & L' & B' & k' & H' & Hk & Hb')].
  - exists s, 0. split; [done|by left].
  - assert (Hin : (p, k') ∈ blocks A' B') by (rewrite Hb'; left).
    assert (Hin2 : (ptr, k) ∈ blocks A' B') by (rewrite Hb', Hb; right; left).
    destruct (block_aligned _ _ _ _ _ _ H' Hin) as (_ & Hp & _). destruct (block_aligned _ _ _ _ _ _ H' Hin2) as (_ & _ & Hk0 & _).
    destruct (Z.eqb_spec p 0); [lia|]. eexists _, p. split; [done|]. right.
    destruct (block_header _ _ _ _ _ _ H' Hin2) as [_ Esz]. rewrite Esz. set (cl := Z.min k size).
    pose proof (blocks_apart _ _ _ _ _ (proj1 H')) as Hap. rewrite Hb' in Hap.
    assert (Hd : disj (p, k') (ptr, k)) by (apply (apart_head _ _ _ Hap); rewrite Hb; left). unfold disj in Hd. simpl in Hd.
    pose proof (memcpy_bytes_copied (Z.to_nat cl) (u_mem s1) p ptr) as Hcp. unfold forward_safe in Hcp.
    specialize (Hcp ltac:(lia)). rewrite Z2Nat.id in Hcp by lia. set (m' := memcpy_bytes _ _ _ _) in *.
    pose proof (user_free (set_umem s1 m') ptr) as Huf. unfold user in Hu, Huf. injection Hu as Hu1 Hu2. injection Huf as Hf1 Hf2.
    rewrite Hf1, Hf2. simpl. rewrite Hu1 in Hcp. split; [done|]. split; [|split].
    + intros b i Hbin Hi. rewrite Hcp. assert (Hdb : disj (p, k') b) by (apply (apart_head _ _ _ Hap); rewrite Hb; by right).
      unfold disj in Hdb. simpl in Hdb. destruct (Z.leb_spec p (b.1 + i)), (Z.ltb_spec (b.1 + i) (p + cl)); simpl; lia || done.
    + intros i Hi. rewrite Hcp. destruct (Z.leb_spec p (p + i)), (Z.ltb_spec (p + i) (p + cl)); simpl; try lia. f_equal. lia.
    + destruct (free_ok (set_umem s1 m') A' L' B' ptr k ((p, k') :: bs)) as (A2 & L2 & B2 & H2 & Hb2).
      * by apply heap_umem.
      * rewrite Hb', Hb. apply Permutation_swap.
      * exists A2, L2, B2, k'. split_and!; done.
Qed.

Lemma stay_result s s' mm ptr k size bs : user s' = user s ->
  (exists A' L' B' k', heap s' A' L' B' /\ size <= k' /\ blocks A' B' ≡ₚ (ptr, k') :: bs) ->
  realloc_result s s' mm ptr k size ptr bs.
Proof. intros Hu H. right. unfold user in Hu. injection Hu as -> ->. split_and!; done. Qed.

Lemma realloc_ok s A L B mm ptr k size bs :
  heap s A L B -> blocks A B ≡ₚ (ptr, k) :: bs -> 0 < size < 2 ^ 61 -> no_sliver size -> mmap_spec s A B mm size ->
  exists s' p, realloc s mm ptr size = Some (s', p) /\ realloc_result s s' mm ptr k size p bs.
Proof.
  intros H Hb Hs Hn Hmm. assert (Hin : (ptr, k) ∈ blocks A B) by (rewrite Hb; left).
  destruct (block_aligned _ _ _ _ _ _ H Hin) as (_ & Hp & Hk0 & _). destruct (block_header _ _ _ _ _ _ H Hin) as [Em Es].
  unfold realloc, sizeof_Chunk. destruct (Z.eqb_spec ptr 0); [lia|]. destruct (Z.eqb_spec size 0); [lia|]. rewrite Em, Es. simpl.
  pose proof (align16_spec size ltac:(lia) ltac:(lia)) as Ha. pose proof (align16_idem size ltac:(lia)) as Hi.
  assert (Hmv : exists s' p, move_block s mm ptr (ptr - 48) (align16 size) = Some (s', p) /\ realloc_result s s' mm ptr k size p bs).
  { destruct (move_block_ok s A L B mm ptr k (align16 size) bs H Hb) as (s' & p & E & Hr).
    - divlia.
    - unfold no_sliver in *. by rewrite Hi.
    - unfold mmap_spec, mapped_len in *. by rewrite Hi.
    - exists s', p. split; [done|]. destruct Hr as [Hr|(? & ? & Hc & A' & L' & B' & k' & ? & ? & ?)]; [by left|right].
      split_and!; try done; [intros i Hi'; apply Hc; divlia|]. exists A', L', B', k'. split_and!; try done. divlia. }
  set (sz := align16 size) in *. assert (Hsz : size <= sz < 2 ^ 61 + 16 /\ sz mod 16 = 0) by (clearbody sz; divlia). clearbody sz.
  destruct (block_cases _ _ _ _ _ _ H Hin) as [(A1 & A2 & a & nn & pre & post & ->)|(B1 & B2 & ->)].
  - destruct (heap_spot _ _ _ _ _ _ _ _ _ _ _ (proj1 H)) as [E T P M Lm Hpo He Ea]. cbn [t_at t_len t_free] in *.
    change (c_isMmap (ck s (ptr - 48))) with (g_mmap (tg s (ptr - 48))). rewrite T. cbn [g_mmap].
    rewrite blocks_mid, used_mid in Hb. simpl in Hb. unfold block_of at 1 in Hb. simpl in Hb.
    replace (ptr - 48 + 48) with ptr in Hb by lia. apply Permutation_cons_inv in Hb.
    destruct (Z.leb_spec sz k) as [Hle|Hgt].
    + eexists _, ptr. split; [done|]. apply stay_result; [apply user_shrink|].
      destruct (shrink_ok _ _ _ _ _ _ _ _ _ sz _ _ H ltac:(lia) ltac:(tauto) Hle) as (ts & L' & k' & H' & Hk & Hu).
      eexists _, L', B, k'. split; [exact H'|]. split; [lia|]. rewrite blocks_mid, Hu, <- Hb. simpl. unfold block_of at 1. simpl.
      by replace (ptr - 48 + 48) with ptr by lia.
    + rewrite (next_is_free_spec _ _ _ _ _ _ _ _ _ _ _ (proj1 H) : next_is_free s (ptr - 48) = _).
      destruct post as [|[c' k2 [|]] post]; simpl; [done| |done].
      unfold next_phys, sizeof_Chunk. rewrite Es. simpl in Hpo. destruct Hpo as (Ec & T2 & ? & ? & Hpo). rewrite (size_tg s (_ + k)), T2. simpl.
      pose proof (tiles_tend _ _ _ _ _ Hpo) as [? _]. simpl in He.
      destruct (Z.leb_spec sz (u64 (k + 48 + k2))) as [Hle|]; [|done]. rewrite u64_id in Hle by (unfold is_u64; lia).
      eexists _, ptr. split; [done|]. apply stay_result; [apply user_grow|].
      destruct (grow_over_ok _ _ _ _ _ _ _ _ _ _ _ sz _ _ H ltac:(lia) ltac:(tauto) Hle) as (ts & L' & k' & H' & Hk & Hu).
      eexists _, L', B, k'. split; [exact H'|]. split; [lia|]. rewrite blocks_mid, Hu, <- Hb. simpl. unfold block_of at 1. simpl.
      replace (ptr - 48 + 48) with ptr by lia. by rewrite !used_app.
  - pose proof (hp_big _ _ _ _ _ (proj1 H)) as Hbg. apply Forall_app in Hbg as [_ Hbg]. apply Forall_cons in Hbg as [(_ & _ & _ & _ & T) _].
    simpl in T. change (c_isMmap (ck s (ptr - 48))) with (g_mmap (tg s (ptr - 48))). rewrite T. cbn [g_mmap].
    destruct (Z.leb_spec sz k) as [Hle|]; simpl; [|done]. destruct (Z.ltb_spec (k - sz) 4096); [|done].
    exists s, ptr. split; [done|]. apply stay_result; [done|]. eexists A, L, _, k. split; [exact H|]. split; [lia|exact Hb].
Qed.

(** ** A heap with one arena *)
Definition libc0 : Libc := mkLibc ∅ ∅ 0 0 0 [] demo_mem.

Definition demo_heap : Libc := from_option fst libc0 (malloc libc0 0x100000 100).
Definition demo_shape : shape :=
  mkShape 0x100000 65536 [mkTile 0x100020 112 false; mkTile 0x1000C0 65296 true].

Lemma libc0_heap : heap libc0 [] [] [].
Proof. split; [|done]. constructor; try done. constructor; [done|done|constructor]. Qed.

Lemma demo_heap_ok : heap demo_heap [demo_shape] [0x1000C0] [].
Proof.
  split; [|by apply Forall_singleton]. constructor; try done.
  - apply Forall_singleton. constructor; [|done|done]. constructor; try done. by left.
  - constructor; [vm_compute; split_and!; done|done|apply NoDup_singleton].
Qed.

Lemma demo_blocks : blocks [demo_shape] [] = [(0x100050, 112)].
Proof. done. Qed.

(** ** What the allocator promises *)

(** C18: A request of a size below 2^62 that leaves no unusable 16 or 32
    bytes in a new arena always returns: the walk of the free list ends, and
    the result is NULL only for a request of nothing or when mapping memory
    fails, with nothing changed.  Otherwise it is a 16-byte aligned block of
    at least the size, which overlaps no live block; the live blocks are the
    old ones and this one, no byte of the program's data changes, and the
    heap invariant holds again: the chunks tile their arenas, the free list
    is exactly the free chunks, and no two neighbouring chunks are free. *)
Theorem malloc_correct s A L B mm size :
  heap s A L B -> 0 <= size < 2 ^ 62 -> no_sliver size -> mmap_spec s A B mm size ->
  exists s' p, malloc s mm size = Some (s', p) /\
    ((p = 0 /\ s' = s /\ (size = 0 \/ mmap_failed mm = true)) \/
     (user s' = user s /\ p mod 16 = 0 /\ 0 < p /\
      exists A' L' B' k, heap s' A' L' B' /\ size <= k /\ blocks A' B' ≡ₚ (p, k) :: blocks A B /\
        Forall (disj (p, k)) (blocks A B))).
Proof.
  intros H Hs Hn Hmm. destruct (Z.eq_dec size 0) as [->|Hne]; [exists s, 0; split; [done|left; tauto]|].
  destruct (malloc_ok s A L B mm size H ltac:(lia) Hn Hmm) as (s' & p & E & Hr). exists s', p. split; [done|].
  destruct Hr as [(-> & -> & Hf)|(Hu & A' & L' & B' & k & H' & Hk & Hb)]; [left; tauto|right].
  assert (Hin : (p, k) ∈ blocks A' B') by (rewrite Hb; left).
  destruct (block_aligned _ _ _ _ _ _ H' Hin) as (Hal & Hp & _). split_and!; try done.
  exists A', L', B', k. split_and!; try done.
  pose proof (blocks_apart _ _ _ _ _ (proj1 H')) as Hap. rewrite Hb in Hap. apply Hap.
Qed.

Lemma malloc_correct_witness :
  exists s' p, malloc demo_heap 0 40 = Some (s', p) /\
    ((p = 0 /\ s' = demo_heap /\ (40 = 0 \/ mmap_failed 0 = true)) \/
     (user s' = user demo_heap /\ p mod 16 = 0 /\ 0 < p /\
      exists A' L' B' k, heap s' A' L' B' /\ 40 <= k /\ blocks A' B' ≡ₚ (p, k) :: blocks [demo_shape] [] /\
        Forall (disj (p, k)) (blocks [demo_shape] []))).
Proof. apply (malloc_correct demo_heap [demo_shape] [0x1000C0] []); [exact demo_heap_ok|lia|done|by left]. Defined.

(** C19: Freeing a live block takes exactly that block away: every other
    block is still live, no byte of them changes, and the heap invariant
    holds again, so the chunk was merged with its free neighbours and the
    free list again holds every free chunk once. *)
Theorem free_correct s A L B p k bs :
  heap s A L B -> blocks A B ≡ₚ (p, k) :: bs ->
  user (free s p) = user s /\ exists A' L' B', heap (free s p) A' L' B' /\ blocks A' B' ≡ₚ bs.
Proof. intros H Hb. split; [apply user_free|]. by apply (free_ok s A L B p k). Qed.

Lemma free_correct_witness :
  user (free demo_heap 0x100050) = user demo_heap /\
  exists A' L' B', heap (free demo_heap 0x100050) A' L' B' /\ blocks A' B' ≡ₚ [].
Proof. apply (free_correct demo_heap [demo_shape] [0x1000C0] [] 0x100050 112); [exact demo_heap_ok|done]. Defined.

(** C20: Resizing a live block to a size below 2^61 that leaves no unusable 16
    or 32 bytes in a new arena returns NULL only when mapping memory fails,
    and then the block is still live and nothing changed.  Otherwise the block is exchanged for one of at least the size
    that starts with the bytes of the old one, as many as both hold; the
    other live blocks keep their place and their contents, and the heap
    invariant holds again, whether the block was shrunk or grown in place
    or moved. *)
Theorem realloc_correct s A L B mm ptr k size bs :
  heap s A L B -> blocks A B ≡ₚ (ptr, k) :: bs -> 0 < size < 2 ^ 61 -> no_sliver size -> mmap_spec s A B mm size ->
  exists s' p, realloc s mm ptr size = Some (s', p) /\ realloc_result s s' mm ptr k size p bs.
Proof. apply realloc_ok. Qed.

Lemma realloc_correct_witness :
  exists s' p, realloc demo_heap 0 0x100050 300 = Some (s', p) /\
    realloc_result demo_heap s' 0 0x100050 112 300 p [].
Proof.
  apply (realloc_correct demo_heap [demo_shape] [0x1000C0] []); [exact demo_heap_ok|done|lia|done|by left].
Defined.

(** ** Requests the theorems leave out *)

(** The rounding of a request near 2^64 wraps to nothing: the block that is
    returned has no room for a single byte. *)
Lemma malloc_wraps : exists s', malloc demo_heap 0 (2 ^ 64 - 1) = Some (s', 0x1000F0) /\ c_size (ck s' 0x1000C0) = 0.
Proof. eexists. split; vm_compute; reflexivity. Qed.

(** With 32 bytes left at the end of an arena, cutting its free chunk writes
    the header field at offset 32 of a chunk that is not there, which is the
    first word after the arena. *)
Definition sliver_heap : option (Libc * Z) :=
  '(s1, p) ← malloc libc0 0x100000 65424;
  malloc (free s1 p) 0 100.

Lemma sliver_write : exists s' p c, sliver_heap = Some (s', p) /\ chunks s' !! (0x100000 + 65504) = Some c /\
  c_prevPhys c <> 0 /\ 0x100000 + 65504 + 32 = arena_end s' 0x100000.
Proof. eexists _, _, _. split; [vm_compute; reflexivity|]. split; [vm_compute; reflexivity|]. done. Qed.
