(* ===== verification/LibcStr.v ===== *)
(** * The C library's string routines (src/lib/libc/string.c)

    Memory is that of [Mem]; loops that end at a terminator are given fuel
    and return [None] without it.  The comparison loops are the ones of the
    kernel's string library ([Str]); [strncmp] here tests its count first. *)

From Stdlib Require Import ZArith Lia Bool.
From stdpp Require Import base list gmap.
From S2P Require Import Prelude Mem Str Dll Malloc.

Module LibC.

Definition memcpy (m : mem) (dest src n : Z) : mem * Z := (memcpy_bytes (Z.to_nat n) m dest src, dest).

Definition memmove (m : mem) (dest src n : Z) : mem * Z :=
  (if dest <? src then memcpy_bytes (Z.to_nat n) m dest src
   else if src <? dest then memmove_back (Z.to_nat n) m (dest + n) (src + n) else m, dest).

Definition memset (m : mem) (s c n : Z) : mem * Z := (memset_bytes (Z.to_nat n) m s (u8 c), s).

Definition memcmp (m : mem) (s1 s2 n : Z) : Z := memcmp_loop (Z.to_nat n) m s1 s2.

Definition strlen (fuel : nat) (m : mem) (s : Z) : option Z := if s =? 0 then Some 0 else strlen_from fuel m s 0.

Definition strcmp (fuel : nat) (m : mem) (s1 s2 : Z) : option Z := Str.strcmp fuel m s1 s2.

(** [while (n && s1[0] && s1[0] == s2[0])]; the last test is of [n]. *)
Fixpoint strncmp (n : nat) (m : mem) (s1 s2 : Z) : Z :=
  match n with
  | O => 0
  | S k =>
      if negb (rd8 m s1 =? 0) && (rd8 m s1 =? rd8 m s2) then strncmp k m (s1 + 1) (s2 + 1)
      else rd8 m s1 - rd8 m s2
  end.

(** [while ((d[0] = s[0])) both advance] *)
Fixpoint copy_cstring (fuel : nat) (m : mem) (d s : Z) : option mem :=
  match fuel with
  | O => None
  | S k => let m1 := wr8 m d (rd8 m s) in if rd8 m s =? 0 then Some m1 else copy_cstring k m1 (d + 1) (s + 1)
  end.

Definition strcpy (fuel : nat) (m : mem) (dest src : Z) : option (mem * Z) :=
  m1 ← copy_cstring fuel m dest src; Some (m1, dest).

(** The two loops of [strncpy] from index [i]. *)
Fixpoint strncpy_copy (n : nat) (m : mem) (dest src : Z) : mem * nat * Z :=
  match n with
  | O => (m, O, dest)
  | S k => if rd8 m src =? 0 then (m, n, dest) else strncpy_copy k (wr8 m dest (rd8 m src)) (dest + 1) (src + 1)
  end.

Definition strncpy (m : mem) (dest src n : Z) : mem * Z :=
  let '(m1, rest, d) := strncpy_copy (Z.to_nat n) m dest src in (memset_bytes rest m1 d 0, dest).

Fixpoint find_end (fuel : nat) (m : mem) (d : Z) : option Z :=
  match fuel with O => None | S k => if rd8 m d =? 0 then Some d else find_end k m (d + 1) end.

Definition strcat (fuel : nat) (m : mem) (dest src : Z) : option (mem * Z) :=
  d ← find_end fuel m dest; m1 ← copy_cstring fuel m d src; Some (m1, dest).

(** [c] is converted to [char]. *)
Fixpoint strchr_loop (fuel : nat) (m : mem) (s c : Z) : option Z :=
  match fuel with
  | O => None
  | S k => if rd8 m s =? c then Some s else if rd8 m s =? 0 then Some 0 else strchr_loop k m (s + 1) c
  end.
Definition strchr (fuel : nat) (m : mem) (s c : Z) : option Z := strchr_loop fuel m s (u8 c).

Definition strdup (fuel : nat) (s : Libc) (mm str : Z) : option (Libc * Z) :=
  len ← strlen fuel (u_mem s) str;
  '(s1, d) ← malloc s mm (u64 (len + 1));
  if d =? 0 then Some (s1, 0)
  else Some (set_umem s1 (memcpy (u_mem s1) d str (u64 (len + 1))).1, d).

End LibC.

(** ** Strings in memory *)

Lemma cstr_ext m m' a l : cstr m a l ->
  (forall x, a <= x <= a + Z.of_nat (length l) -> rd8 m' x = rd8 m x) -> cstr m' a l.
Proof.
  intros H. induction H as [a H|a c l H Hc Hl IH]; intros He; simpl in He.
  - constructor. rewrite He by lia. done.
  - constructor; [by rewrite He by lia|done|]. apply IH. intros x Hx. apply He. lia.
Qed.

Lemma cstr_app m a l1 l2 : cstr m a (l1 ++ l2) <->
  (forall i c, l1 !! i = Some c -> rd8 m (a + Z.of_nat i) = c /\ c <> 0) /\ cstr m (a + Z.of_nat (length l1)) l2.
Proof.
  revert a. induction l1 as [|c l1 IH]; intros a; simpl.
  - rewrite Z.add_0_r. split; [intros H; split; [done|exact H]|tauto].
  - split.
    + intros H. inversion H as [|? ? ? H1 H2 H3]; subst. apply IH in H3 as [H4 H5]. split.
      * intros [|i] c' Hi; simpl in *; [by simplify_eq; rewrite Z.add_0_r|]. apply H4 in Hi. by replace (a + Z.of_nat (S i)) with (a + 1 + Z.of_nat i) by lia.
      * by replace (a + Z.of_nat (S (length l1))) with (a + 1 + Z.of_nat (length l1)) by lia.
    + intros [H1 H2]. destruct (H1 0%nat c eq_refl) as [E Hc]. rewrite Z.add_0_r in E. constructor; [done|done|]. apply IH. split.
      * intros i c' Hi. replace (a + 1 + Z.of_nat i) with (a + Z.of_nat (S i)) by lia. by apply H1.
      * by replace (a + 1 + Z.of_nat (length l1)) with (a + Z.of_nat (S (length l1))) by lia.
Qed.

Lemma copy_cstring_ok l : forall fuel m d s, cstr m s l -> (length l < fuel)%nat ->
  (d + Z.of_nat (length l) < s \/ s + Z.of_nat (length l) < d) ->
  exists m', LibC.copy_cstring fuel m d s = Some m' /\ cstr m' d l /\
    (forall x, ~ d <= x <= d + Z.of_nat (length l) -> rd8 m' x = rd8 m x).
Proof.
  induction l as [|c l IH]; intros fuel m d s H Hf Hd; (destruct fuel as [|k]; [simpl in Hf; lia|]); simpl in *.
  - inversion H as [? E|]; subst. rewrite E. simpl. eexists. split; [done|]. split.
    + constructor. by rewrite rd8_wr8, Z.eqb_refl.
    + intros x Hx. rewrite rd8_wr8. destruct (Z.eqb_spec x d); [lia|done].
  - inversion H as [|? ? ? E Hc Hl]; subst. destruct (Z.eqb_spec (rd8 m s) 0); [done|].
    destruct (IH k (wr8 m d (rd8 m s)) (d + 1) (s + 1)) as (m' & E' & Hc' & Ho); [|lia|lia|].
    + apply (cstr_ext m); [done|]. intros x Hx. rewrite rd8_wr8. destruct (Z.eqb_spec x d); [lia|done].
    + exists m'. split; [done|]. split.
      * constructor; [|done|done]. rewrite Ho by lia. rewrite rd8_wr8, Z.eqb_refl. apply u8_rd8.
      * intros x Hx. rewrite Ho by lia. rewrite rd8_wr8. destruct (Z.eqb_spec x d); [lia|done].
Qed.

Lemma find_end_ok m l : forall fuel d, cstr m d l -> (length l < fuel)%nat ->
  LibC.find_end fuel m d = Some (d + Z.of_nat (length l)).
Proof.
  induction l as [|c l IH]; intros fuel d H Hf; (destruct fuel as [|k]; [simpl in Hf; lia|]); simpl in *; inversion H as [? E|? ? ? E Hc Hl]; subst.
  - rewrite E. simpl. by rewrite Z.add_0_r.
  - destruct (Z.eqb_spec (rd8 m d) 0); [done|]. rewrite (IH k (d + 1) Hl) by lia. f_equal. lia.
Qed.

(** [strcat] of two strings that do not overlap, with room behind the first,
    ends, leaves their concatenation in place of the first, and writes
    nothing else. *)
Theorem strcat_correct fuel m dest src l1 l2 :
  cstr m dest l1 -> cstr m src l2 -> (length l1 < fuel)%nat -> (length l2 < fuel)%nat ->
  (dest + Z.of_nat (length l1 + length l2) < src \/ src + Z.of_nat (length l2) < dest) ->
  exists m', LibC.strcat fuel m dest src = Some (m', dest) /\ cstr m' dest (l1 ++ l2) /\
    (forall x, ~ dest <= x <= dest + Z.of_nat (length l1 + length l2) -> rd8 m' x = rd8 m x).
Proof.
  intros H1 H2 F1 F2 Hd. unfold LibC.strcat. rewrite (find_end_ok m l1) by done. simpl.
  destruct (copy_cstring_ok l2 fuel m (dest + Z.of_nat (length l1)) src H2 F2) as (m' & E & Hc & Ho); [lia|].
  rewrite E. simpl. exists m'. split; [done|]. split.
  - apply cstr_app. split; [|done]. rewrite <- (app_nil_r l1) in H1. apply cstr_app in H1 as [H1 _].
    intros i c Hi. pose proof (lookup_lt_Some _ _ _ Hi). rewrite Ho by lia. by apply H1.
  - intros x Hx. apply Ho. lia.
Qed.

Lemma strcat_correct_witness :
  exists m', LibC.strcat 8 demo_str 16 0 = Some (m', 16) /\ cstr m' 16 [110; 97; 110; 97; 103] /\
    (forall x, ~ 16 <= x <= 21 -> rd8 m' x = rd8 demo_str x).
Proof.
  apply (strcat_correct 8 demo_str 16 0 [110; 97] [110; 97; 103] demo_cstr2 demo_cstr1); simpl; lia.
Defined.
