(* ===== verification/Stdio.v ===== *)
(** * Formatted output (src/lib/libc/stdio.c) and atoi

    The buffer, the format and the string arguments are in the memory of
    [Mem]; the variable arguments are the list of their 64-bit slots.  The
    output position is the C variable [idx].  [None]: no fuel, or fewer
    arguments than conversions.  [write] hands bytes to the kernel; what it
    is given is the result. *)

From Stdlib Require Import ZArith Lia Bool.
From stdpp Require Import base list gmap.
From S2P Require Import Prelude Mem Str Dll Malloc LibcStr.

(** The buffer's memory and how much is written. *)
Abbreviation outp := (mem * Z)%type.

Definition digit (uppercase : bool) (d : Z) : Z := if d <? 10 then 48 + d else (if uppercase then 55 else 87) + d.

(** The digits of [buf], lowest first; [buf] has room for 64. *)
Fixpoint num_buf (fuel : nat) (val base : Z) (uppercase : bool) : list Z :=
  match fuel with
  | O => []
  | S k => if 0 <? val then digit uppercase (val mod base) :: num_buf k (val / base) base uppercase else []
  end.

(** [if (idx + 1 < size) str[idx++] = c] *)
Definition emit (str size : Z) (o : outp) (c : Z) : outp :=
  if o.2 + 1 <? size then (wr8 o.1 (str + o.2) c, o.2 + 1) else o.

(** Copying the digits out stops at the first that does not fit. *)
Definition formatNum (str size : Z) (o : outp) (val base : Z) (uppercase : bool) : outp :=
  let buf := if val =? 0 then [48] else num_buf 64 val base uppercase in
  foldl (emit str size) o (reverse buf).

(** [while (s[0] && idx + 1 < size) str[idx++] = s[0], advancing s] *)
Fixpoint emit_str (fuel : nat) (str size : Z) (o : outp) (s : Z) : option outp :=
  match fuel with
  | O => None
  | S k =>
      if negb (rd8 o.1 s =? 0) && (o.2 + 1 <? size)
      then emit_str k str size (emit str size o (rd8 o.1 s)) (s + 1)
      else Some o
  end.

Definition null_text : list Z := [40; 110; 117; 108; 108; 41].

(** A signed value: the sign, then the magnitude as an unsigned number. *)
Definition emit_signed (str size : Z) (o : outp) (v : Z) : outp :=
  let o := if v <? 0 then emit str size o 45 else o in
  formatNum str size o (u64 (if v <? 0 then - v else v)) 10 false.

Definition slot_int (isLong : bool) (a : Z) : Z := if isLong then s64 a else s32 (u32 a).
Definition slot_uint (isLong : bool) (a : Z) : Z := if isLong then u64 a else u32 a.

(** The [switch] over the conversion character. *)
Definition conv (str size : Z) (o : outp) (c : Z) (isLong : bool) (ap : list Z) : option (outp * list Z) :=
  if c =? 99 (* c *) then '(a, ap) ← (match ap with a :: r => Some (a, r) | [] => None end); Some (emit str size o (u8 a), ap)
  else if c =? 115 (* s *) then
    '(a, ap) ← (match ap with a :: r => Some (a, r) | [] => None end);
    (if a =? 0 then Some (foldl (emit str size) o null_text, ap)
     else o ← emit_str (S (Z.to_nat size)) str size o a; Some (o, ap))
  else if (c =? 100) || (c =? 105) (* d, i *) then
    '(a, ap) ← (match ap with a :: r => Some (a, r) | [] => None end); Some (emit_signed str size o (slot_int isLong a), ap)
  else if c =? 117 (* u *) then
    '(a, ap) ← (match ap with a :: r => Some (a, r) | [] => None end); Some (formatNum str size o (slot_uint isLong a) 10 false, ap)
  else if c =? 120 (* x *) then
    '(a, ap) ← (match ap with a :: r => Some (a, r) | [] => None end); Some (formatNum str size o (slot_uint isLong a) 16 false, ap)
  else if c =? 88 (* X *) then
    '(a, ap) ← (match ap with a :: r => Some (a, r) | [] => None end); Some (formatNum str size o (slot_uint isLong a) 16 true, ap)
  else if c =? 112 (* p *) then
    '(a, ap) ← (match ap with a :: r => Some (a, r) | [] => None end);
    let o := if o.2 + 2 <? size then emit str size (emit str size o 48) 120 else o in
    Some (formatNum str size o (u64 a) 16 false, ap)
  else Some (emit str size o c, ap).

(** The [l] and [ll] prefixes. *)
Definition long_prefix (m : mem) (format f : Z) : bool * Z :=
  if rd8 m (format + f) =? 108
  then (true, if rd8 m (format + (f + 1)) =? 108 then f + 2 else f + 1)
  else (false, f).

Fixpoint vsn_loop (fuel : nat) (str size format f : Z) (o : outp) (ap : list Z) : option outp :=
  match fuel with
  | O => None
  | S k =>
      let c := rd8 o.1 (format + f) in
      if (c =? 0) || negb (o.2 + 1 <? size) then Some o
      else if negb (c =? 37) then vsn_loop k str size format (f + 1) (emit str size o c) ap
      else if rd8 o.1 (format + (f + 1)) =? 0 then Some o
      else
        let '(isLong, f) := long_prefix o.1 format (f + 1) in
        '(o, ap) ← conv str size o (rd8 o.1 (format + f)) isLong ap;
        vsn_loop k str size format (f + 1) o ap
  end.

Definition vsnprintf (fuel : nat) (m : mem) (str size format : Z) (ap : list Z) : option (mem * Z) :=
  if (str =? 0) || (size =? 0) then Some (m, 0)
  else
    o ← vsn_loop fuel str size format 0 (m, 0) ap;
    Some (wr8 o.1 (str + o.2) 0, s32 o.2).

Definition snprintf := vsnprintf.

(** [printf] formats into a buffer [buf] of 256 bytes on the stack, or into
    a block from malloc when the text is longer; the result is what is
    written to the standard output, and the return value. *)
Definition sizeof_stackBuf : Z := 256.

Definition printf (fuel : nat) (s : Libc) (mm buf format : Z) (ap : list Z) : option (Libc * list Z * Z) :=
  '(m1, len) ← vsnprintf fuel (u_mem s) buf sizeof_stackBuf format ap;
  let s1 := set_umem s m1 in
  if len <? sizeof_stackBuf then Some (s1, bytes_at m1 buf (Z.to_nat len), len)
  else
    '(s2, dyn) ← malloc s1 mm (u64 (len + 1));
    if dyn =? 0 then Some (s2, bytes_at m1 buf (Z.to_nat (sizeof_stackBuf - 1)), sizeof_stackBuf - 1)
    else
      '(m2, _) ← vsnprintf fuel (u_mem s2) dyn (u64 (len + 1)) format ap;
      Some (free (set_umem s2 m2) dyn, bytes_at m2 dyn (Z.to_nat len), len).

Definition puts (fuel : nat) (m : mem) (s : Z) : option (list Z * Z) :=
  len ← LibC.strlen fuel m s; Some (bytes_at m s (Z.to_nat len) ++ [10], s32 (len + 1)).

Definition putchar (c : Z) : list Z * Z := ([u8 c], c).

(** ** The buffer is never overrun *)

(** From [o] to [o'] only bytes of the buffer changed, from [o]'s position
    on, and the position stayed inside. *)
Record stays_in (str size : Z) (o o' : outp) : Prop := {
  gr_pos : 0 <= o.2 < size -> o.2 <= o'.2 < size;
  gr_out : 0 <= o.2 < size -> forall x, ~ str + o.2 <= x < str + size -> rd8 o'.1 x = rd8 o.1 x
}.

Lemma stays_refl str size o : stays_in str size o o.
Proof. constructor; [lia|done]. Qed.

Lemma stays_trans str size o1 o2 o3 : stays_in str size o1 o2 -> stays_in str size o2 o3 -> stays_in str size o1 o3.
Proof.
  intros [P1 O1] [P2 O2]. constructor; intros H; pose proof (P1 H) as H1; pose proof (P2 ltac:(lia)); [lia|].
  intros x Hx. rewrite O2 by lia. by apply O1.
Qed.

Lemma emit_stays str size o c : stays_in str size o (emit str size o c).
Proof.
  unfold emit. destruct (Z.ltb_spec (o.2 + 1) size); [|apply stays_refl]. constructor; simpl; [lia|].
  intros Hp x Hx. rewrite rd8_wr8. destruct (Z.eqb_spec x (str + o.2)); [lia|done].
Qed.

#[export] Hint Resolve stays_refl emit_stays : nova.

Lemma emits_stay str size l : forall o, stays_in str size o (foldl (emit str size) o l).
Proof. induction l as [|c l IH]; intros o; simpl; [auto with nova|]. eapply stays_trans; [apply emit_stays|apply IH]. Qed.

Lemma formatNum_stays str size o v b u : stays_in str size o (formatNum str size o v b u).
Proof. apply emits_stay. Qed.

Lemma emit_str_stays fuel str size : forall o s o', emit_str fuel str size o s = Some o' -> stays_in str size o o'.
Proof.
  induction fuel as [|k IH]; intros o s o' H; simpl in H; [done|]. destruct (_ && _); [|simplify_eq; auto with nova].
  eapply stays_trans; [apply emit_stays|]. by apply (IH _ (s + 1)).
Qed.

Lemma conv_stays str size o c l ap o' ap' : conv str size o c l ap = Some (o', ap') -> stays_in str size o o'.
Proof.
  unfold conv, emit_signed. intros H.
  assert (Hs : forall a o1, emit_str (S (Z.to_nat size)) str size o a = Some o1 -> stays_in str size o o1)
    by (intros a o1 E; by apply emit_str_stays in E).
  pose proof (emits_stay str size null_text o) as Hn. set (nt := null_text) in *. clearbody nt.
  set (es := emit_str (S (Z.to_nat size)) str size o) in *. clearbody es.
  destruct ap as [|a ap]; simpl in H; repeat case_match; simplify_option_eq;
    eauto using stays_refl, emit_stays, formatNum_stays, stays_trans.
Qed.

Lemma vsn_loop_stays fuel str size format : forall f o ap o', vsn_loop fuel str size format f o ap = Some o' -> stays_in str size o o'.
Proof.
  induction fuel as [|k IH]; intros f o ap o' H; simpl in H; [done|].
  destruct (_ || _); [simplify_eq; auto with nova|]. destruct (negb _); [eapply stays_trans; [apply emit_stays|by apply IH in H]|].
  destruct (_ =? 0); [simplify_eq; auto with nova|]. destruct (long_prefix _ _ _) as [il f'].
  destruct (conv _ _ _ _ _ _) as [[o1 ap1]|] eqn:E; simpl in H; [|done].
  eapply stays_trans; [by apply conv_stays in E|by apply IH in H].
Qed.

(** ** It always ends *)

(** The arguments a format uses; [None] when it ends inside a conversion with
    a length prefix, where the loop would run on past the terminator. *)
Definition takes_arg (c : Z) : nat := if bool_decide (c ∈ [99; 115; 100; 105; 117; 120; 88; 112]) then 1 else 0.

Fixpoint fmt_args (l : list Z) : option nat :=
  match l with
  | [] => Some O
  | c :: r =>
      if negb (c =? 37) then fmt_args r
      else match r with
           | [] => Some O
           | d :: r1 =>
               if negb (d =? 108) then n ← fmt_args r1; Some (takes_arg d + n)%nat
               else match r1 with
                    | [] => None
                    | d1 :: r2 =>
                        if negb (d1 =? 108) then n ← fmt_args r2; Some (takes_arg d1 + n)%nat
                        else match r2 with [] => None | d2 :: r3 => n ← fmt_args r3; Some (takes_arg d2 + n)%nat end
                    end
           end
  end.

Lemma emit_str_total str size : forall fuel o s, 0 <= o.2 < size -> size - o.2 <= Z.of_nat fuel ->
  exists o', emit_str fuel str size o s = Some o'.
Proof.
  induction fuel as [|k IH]; intros o s Hp Hf; simpl; [lia|].
  destruct (negb (rd8 o.1 s =? 0)) eqn:E; simpl; [|by exists o]. destruct (Z.ltb_spec (o.2 + 1) size) as [Hlt|]; [|by exists o].
  apply IH; unfold emit; destruct (Z.ltb_spec (o.2 + 1) size); simpl; lia.
Qed.

Lemma conv_total str size o c l ap : 0 <= o.2 < size -> (takes_arg c <= length ap)%nat ->
  exists o' ap', conv str size o c l ap = Some (o', ap') /\ (length ap' + takes_arg c = length ap)%nat.
Proof.
  intros Hp Ha. unfold conv, takes_arg in *.
  assert (Hs : forall a, exists o1, emit_str (S (Z.to_nat size)) str size o a = Some o1) by (intros a; apply emit_str_total; lia).
  set (es := emit_str (S (Z.to_nat size)) str size o) in *. clearbody es.
  repeat match goal with |- context [?x =? ?y] => is_var x; destruct (Z.eqb_spec x y); [subst; simpl in *|] end;
    try (destruct ap as [|a ap]; simpl in *; [lia|]; eexists _, ap; split; [done|lia]).
  - destruct ap as [|a ap]; simpl in *; [lia|]. destruct (a =? 0); [eexists _, ap; split; [done|lia]|].
    destruct (Hs a) as [o1 ->]. simpl. exists o1, ap. split; [done|lia].
  - simpl. exists (emit str size o c), ap. split; [done|]. rewrite bool_decide_false; [lia|]. set_solver.
Qed.

Lemma vsn_loop_total str size format len : forall fuel f l o ap n,
  cstr o.1 (format + f) l -> (length l < fuel)%nat -> fmt_args l = Some n -> (n <= length ap)%nat -> 0 <= o.2 < size ->
  0 <= f -> f + Z.of_nat (length l) <= len -> (str + size <= format \/ format + len < str) ->
  exists o', vsn_loop fuel str size format f o ap = Some o'.
Proof.
  induction fuel as [|k IH]; intros f l o ap n Hc Hf Hn Ha Hp Hf0 Hl Hd; [lia|]. simpl.
  destruct l as [|c l]; inversion Hc as [? E|? ? ? E Hc0 Hcl]; subst; [rewrite E; by exists o|].
  destruct (Z.eqb_spec (rd8 o.1 (format + f)) 0); [done|]. simpl.
  destruct (Z.ltb_spec (o.2 + 1) size) as [Hlt|]; [|by exists o]. simpl in *.
  assert (Hkeep : forall o' a l', stays_in str size o o' -> cstr o.1 a l' -> format <= a -> a + Z.of_nat (length l') <= format + len -> cstr o'.1 a l').
  { intros o' a l' [_ Go] H H1 H2. apply (cstr_ext o.1); [done|]. intros x Hx. apply Go; lia. }
  destruct (Z.eqb_spec (rd8 o.1 (format + f)) 37) as [E37|]; simpl in *.
  2: { apply (IH (f + 1) l _ ap n); try done; try lia.
    - replace (format + (f + 1)) with (format + f + 1) by lia. apply Hkeep; [apply emit_stays|done|lia|lia].
    - destruct (emit_stays str size o (rd8 o.1 (format + f))) as [Gp _]. specialize (Gp Hp). lia. }
  assert (Hstep : forall f' d l' il m, cstr o.1 (format + f') (d :: l') -> f <= f' -> f' + 1 + Z.of_nat (length l') <= len ->
    (length l' < k)%nat -> fmt_args l' = Some m -> (takes_arg d + m <= length ap)%nat ->
    exists o', ('(o1, ap1) ← conv str size o (rd8 o.1 (format + f')) il ap; vsn_loop k str size format (f' + 1) o1 ap1) = Some o').
  { intros f' d l' il m H Hff Hl' Hlk Hm Hta. inversion H as [|? ? ? E' H0' Hl'']; subst.
    destruct (conv_total str size o (rd8 o.1 (format + f')) il ap Hp) as (o1 & ap1 & Ec & Hap); [lia|]. rewrite Ec. simpl.
    pose proof (conv_stays _ _ _ _ _ _ _ _ Ec) as G. pose proof (gr_pos _ _ _ _ G Hp) as Hp1.
    apply (IH (f' + 1) l' o1 ap1 m); try done; try lia.
    replace (format + (f' + 1)) with (format + f' + 1) by lia. apply Hkeep; [done|done|lia|lia]. }
  replace (format + f + 1) with (format + (f + 1)) in Hcl by lia.
  destruct l as [|d l]; inversion Hcl as [? Ed|? ? ? Ed Hd0 Hdl]; subst; [rewrite Ed; by exists o|].
  destruct (Z.eqb_spec (rd8 o.1 (format + (f + 1))) 0); [done|]. unfold long_prefix. simpl in *.
  destruct (Z.eqb_spec (rd8 o.1 (format + (f + 1))) 108) as [E108|]; simpl in *.
  2: { destruct (fmt_args l) as [m|] eqn:Em; simpl in Hn; [|done]. injection Hn as <-.
    apply (Hstep (f + 1) (rd8 o.1 (format + (f + 1))) l false m); try done; lia. }
  replace (format + (f + 1) + 1) with (format + (f + 1 + 1)) in Hdl by lia.
  destruct l as [|d1 l]; [done|]. inversion Hdl as [|? ? ? Ed1 Hd10 Hdl1]; subst. simpl in *.
  destruct (Z.eqb_spec (rd8 o.1 (format + (f + 1 + 1))) 108) as [E108'|]; simpl in *.
  2: { destruct (fmt_args l) as [m|] eqn:Em; simpl in Hn; [|done]. injection Hn as <-.
    apply (Hstep (f + 1 + 1) (rd8 o.1 (format + (f + 1 + 1))) l true m); try done; lia. }
  replace (format + (f + 1 + 1) + 1) with (format + (f + 1 + 2)) in Hdl1 by lia.
  destruct l as [|d2 l]; [done|]. destruct (fmt_args l) as [m|] eqn:Em; simpl in Hn; [|done]. injection Hn as <-. simpl in *.
  apply (Hstep (f + 1 + 2) d2 l true m); try done; lia.
Qed.

(** Whatever the format and the arguments, when vsnprintf returns from a
    buffer of [size] bytes it has changed no byte outside of the buffer, its
    result is less than [size], and the text ends with a terminator at the
    position it returns. *)
Lemma vsnprintf_in_bounds fuel m str size format ap m' r :
  str <> 0 -> 0 < size < 2 ^ 31 -> vsnprintf fuel m str size format ap = Some (m', r) ->
  0 <= r < size /\ rd8 m' (str + r) = 0 /\ (forall x, ~ str <= x < str + size -> rd8 m' x = rd8 m x).
Proof.
  intros Hs Hz H. unfold vsnprintf in H. destruct (Z.eqb_spec str 0); [done|]. destruct (Z.eqb_spec size 0); [lia|]. simpl in H.
  destruct (vsn_loop _ _ _ _ _ _ _) as [o|] eqn:E; simpl in H; [|done]. simplify_eq.
  destruct (vsn_loop_stays _ _ _ _ _ _ _ _ E) as [Hp Ho]. simpl in *. specialize (Hp ltac:(lia)).
  assert (Er : s32 o.2 = o.2) by (unfold s32, signed; rewrite Z.mod_small by lia; destruct (Z.ltb_spec o.2 (2 ^ (32 - 1))); lia).
  rewrite Er. split; [lia|]. split; [by rewrite rd8_wr8, Z.eqb_refl|].
  intros x Hx. rewrite rd8_wr8. destruct (Z.eqb_spec x (str + o.2)); [lia|]. apply Ho; lia.
Qed.

(** C22: With a terminated format that does not end inside a conversion and
    lies outside of the buffer, and an argument for every conversion,
    vsnprintf always returns, whatever the strings it is given hold: it has
    changed no byte outside of the [size] bytes of the buffer, its result is
    less than [size], and the text ends with a terminator at the position it
    returns. *)
Theorem vsnprintf_correct fuel m str size format l n ap :
  str <> 0 -> 0 < size < 2 ^ 31 -> cstr m format l -> (length l < fuel)%nat -> fmt_args l = Some n -> (n <= length ap)%nat ->
  (str + size <= format \/ format + Z.of_nat (length l) < str) ->
  exists m' r, vsnprintf fuel m str size format ap = Some (m', r) /\
    0 <= r < size /\ rd8 m' (str + r) = 0 /\ (forall x, ~ str <= x < str + size -> rd8 m' x = rd8 m x).
Proof.
  intros Hs Hz Hc Hf Hn Ha Hd.
  destruct (vsn_loop_total str size format (Z.of_nat (length l)) fuel 0 l (m, 0) ap n) as [o Ho]; simpl; rewrite ?Z.add_0_r; try done; try lia.
  assert (E : vsnprintf fuel m str size format ap = Some (wr8 o.1 (str + o.2) 0, s32 o.2)).
  { unfold vsnprintf. destruct (Z.eqb_spec str 0); [done|]. destruct (Z.eqb_spec size 0); [lia|]. simpl. rewrite Ho. done. }
  eexists _, _. split; [exact E|]. by apply (vsnprintf_in_bounds fuel m str size format ap).
Qed.

(** "%s-%d" with its arguments at 512: a string at 64 and a number. *)
Definition demo_fmt : mem := put_bytes demo_mem 512 [37; 115; 45; 37; 100; 0].
Lemma demo_fmt_cstr : cstr demo_fmt 512 [37; 115; 45; 37; 100].
Proof. repeat (apply cstr_cons; [done|done|]). by apply cstr_nil. Qed.

Lemma vsnprintf_correct_witness :
  exists m' r, vsnprintf 6 demo_fmt 1024 8 512 [64; 2 ^ 64 - 7] = Some (m', r) /\ 
    0 <= r < 8 /\ rd8 m' (1024 + r) = 0 /\  (forall x, ~ 1024 <= x < 1024 + 8 -> rd8 m' x = rd8 demo_fmt x).
Proof.
  apply (vsnprintf_correct 6 demo_fmt 1024 8 512 [37; 115; 45; 37; 100] 2); [done|lia|exact demo_fmt_cstr|simpl; lia|done|simpl; lia|simpl; lia].
Defined.

(** ** Decimal numbers *)
Definition dec_value (acc : Z) (l : list Z) : Z := foldl (fun r c => r * 10 + (c - 48)) acc l.

Lemma dec_value_ge l : forall acc, 0 <= acc -> Forall (fun c => is_digit c = true) l -> acc <= dec_value acc l.
Proof.
  induction l as [|c l IH]; intros acc H0 Hl; simpl; [lia|]. apply Forall_cons in Hl as [Hc Hl]. unfold is_digit in Hc. breflect.
  unfold dec_value in *. specialize (IH (acc * 10 + (c - 48)) ltac:(lia) Hl). simpl in *. lia.
Qed.

Definition starts_digit (l : list Z) : bool := match l with c :: _ => is_digit c | [] => false end.

Lemma atoi_digits_spec ds : forall rest (neg : bool) acc,
  Forall (fun c => is_digit c = true) ds -> starts_digit rest = false -> 0 <= acc -> acc <= (if neg then 2147483648 else 2147483647) ->
  atoi_digits (ds ++ rest) neg acc = if neg then Z.max (-2147483648) (- dec_value acc ds) else Z.min 2147483647 (dec_value acc ds).
Proof.
  induction ds as [|c ds IH]; intros rest neg acc Hd Hr H0 H1; simpl.
  - destruct rest as [|c r]; simpl in *; [destruct neg; lia|]. rewrite Hr. destruct neg; lia.
  - apply Forall_cons in Hd as [Hc Hd]. rewrite Hc. unfold is_digit in Hc. breflect.
    pose proof (dec_value_ge ds (acc * 10 + (c - 48)) ltac:(lia) Hd) as Hge. unfold dec_value in *.
    destruct neg; simpl.
    + destruct (Z.ltb_spec (- (acc * 10 + (c - 48))) (-2147483648)); [lia|]. apply (IH rest true); try done; lia.
    + destruct (Z.ltb_spec 2147483647 (acc * 10 + (c - 48))); [lia|]. apply (IH rest false); try done; lia.
Qed.

Lemma skip_space_app sp l : Forall (fun c => is_space c = true) sp -> match l with c :: _ => is_space c | [] => false end = false ->
  skip_space (sp ++ l) = l.
Proof.
  induction sp as [|c sp IH]; intros Hs Hl; simpl.
  - destruct l as [|c l]; [done|]. simpl. by rewrite Hl.
  - apply Forall_cons in Hs as [-> Hs]. auto.
Qed.

(** On a string of blanks, an optional sign, at least one digit and then
    anything else, atoi is the number the digits stand for, and the nearest
    32-bit integer when the number is out of range. *)
Theorem atoi_correct sp sign d ds rest :
  Forall (fun c => is_space c = true) sp -> sign ∈ [[]; [43]; [45]] -> Forall (fun c => is_digit c = true) (d :: ds) ->
  starts_digit rest = false ->
  atoi (sp ++ sign ++ (d :: ds) ++ rest) =
  Z.max (-2147483648) (Z.min 2147483647 ((if decide (sign = [45]) then -1 else 1) * dec_value 0 (d :: ds))).
Proof.
  intros Hsp Hsg Hds Hr. unfold atoi. pose proof (dec_value_ge (d :: ds) 0 ltac:(lia) Hds) as Hge.
  pose proof Hds as Hd. apply Forall_cons in Hd as [Hd _]. unfold is_digit in Hd. breflect.
  assert (Hcs : sign = [] \/ sign = [43] \/ sign = [45]) by set_solver.
  destruct Hcs as [-> | [-> | ->]]; (rewrite skip_space_app; [|done|simpl; unfold is_space; bsplit; lia || done]).
  - transitivity (atoi_digits ((d :: ds) ++ rest) false 0); [simpl; bsplit; lia || done|].
    rewrite atoi_digits_spec by (done || lia). rewrite decide_False by done. lia.
  - transitivity (atoi_digits ((d :: ds) ++ rest) false 0); [done|].
    rewrite atoi_digits_spec by (done || lia). rewrite decide_False by done. lia.
  - transitivity (atoi_digits ((d :: ds) ++ rest) true 0); [done|].
    rewrite atoi_digits_spec by (done || lia). rewrite decide_True by done. lia.
Qed.

Lemma atoi_correct_witness :
  atoi ([32; 9] ++ [45] ++ [52; 50] ++ [120]) = Z.max (-2147483648) (Z.min 2147483647 ((if decide ([45] = [45]) then -1 else 1) * dec_value 0 [52; 50])).
Proof.
  apply (atoi_correct [32; 9] [45] 52 [50] [120]); [by repeat constructor|set_solver|by repeat constructor|done].
Defined.

(** ** Printing and reading back *)
Lemma dec_value_snoc l d acc : dec_value acc (l ++ [d]) = dec_value acc l * 10 + (d - 48).
Proof. unfold dec_value. by rewrite foldl_app. Qed.

Lemma num_buf_spec k : forall val, 0 <= val < 10 ^ Z.of_nat k ->
  Forall (fun c => is_digit c = true) (num_buf k val 10 false) /\ dec_value 0 (reverse (num_buf k val 10 false)) = val /\
  (0 < val -> num_buf k val 10 false <> []).
Proof.
  induction k as [|k IH]; intros val H; simpl num_buf; [simpl in *; split_and!; [done|unfold dec_value; simpl; lia|lia]|].
  destruct (Z.ltb_spec 0 val); [|split_and!; [done|unfold dec_value; simpl; lia|lia]].
  rewrite Nat2Z.inj_succ, Z.pow_succ_r in H by lia.
  destruct (IH (val / 10)) as (H1 & H2 & _); [split; [apply Z.div_pos; lia|apply Z.div_lt_upper_bound; lia]|].
  pose proof (Z.mod_pos_bound val 10 ltac:(lia)). unfold digit. destruct (Z.ltb_spec (val mod 10) 10); [|lia]. split_and!; [| |done].
  - apply Forall_cons. split; [|done]. unfold is_digit. bsplit; lia || done.
  - rewrite reverse_cons, dec_value_snoc, H2. pose proof (Z.div_mod val 10 ltac:(lia)). lia.
Qed.

Lemma num_buf_length j : forall k val, 0 <= val < 10 ^ Z.of_nat j -> (length (num_buf k val 10 false) <= j)%nat.
Proof.
  induction j as [|j IH]; intros [|k] val H; simpl; try lia; (destruct (Z.ltb_spec 0 val); simpl; [|lia]); [simpl in H; lia|].
  rewrite Nat2Z.inj_succ, Z.pow_succ_r in H by lia. apply le_n_S, IH.
  split; [apply Z.div_pos; lia|apply Z.div_lt_upper_bound; lia].
Qed.

#[local] Arguments num_buf : simpl never.

(** The text of a number. *)
Definition dec_text (v : Z) : list Z :=
  (if v <? 0 then [45] else []) ++ (if v =? 0 then [48] else reverse (num_buf 64 (Z.abs v) 10 false)).

Lemma emit_signed_text str size o v : - 2 ^ 31 <= v < 2 ^ 31 ->
  emit_signed str size o v = foldl (emit str size) o (dec_text v).
Proof.
  intros Hv. unfold emit_signed, formatNum, dec_text. rewrite foldl_app.
  rewrite u64_id by (unfold is_u64; destruct (Z.ltb_spec v 0); lia).
  assert (E : (if v <? 0 then - v else v) = Z.abs v) by (destruct (Z.ltb_spec v 0); lia). rewrite E.
  replace (Z.abs v =? 0) with (v =? 0) by (destruct (Z.eqb_spec v 0), (Z.eqb_spec (Z.abs v) 0); lia || done).
  by destruct (v <? 0), (v =? 0).
Qed.

Lemma emits_fit str size l : forall o, 0 <= o.2 -> o.2 + Z.of_nat (length l) < size -> Forall (fun c => 0 < c < 256) l ->
  exists m', foldl (emit str size) o l = (m', o.2 + Z.of_nat (length l)) /\
    (forall i c, l !! i = Some c -> rd8 m' (str + o.2 + Z.of_nat i) = c) /\
    (forall x, ~ str + o.2 <= x < str + o.2 + Z.of_nat (length l) -> rd8 m' x = rd8 o.1 x).
Proof.
  induction l as [|c l IH]; intros o H0 Hf Hl; simpl in *.
  - exists o.1. destruct o as [m i]. simpl. rewrite Z.add_0_r. split_and!; done.
  - apply Forall_cons in Hl as [Hc Hl]. unfold emit at 2. destruct (Z.ltb_spec (o.2 + 1) size); [|lia].
    destruct (IH (wr8 o.1 (str + o.2) c, o.2 + 1)) as (m' & E & Hi & Ho); simpl in *; try done; try lia.
    exists m'. split; [rewrite E; f_equal; lia|]. split.
    + intros [|i] c' Hl'; simpl in Hl'; [|rewrite <- (Hi i c' Hl'); f_equal; lia]. simplify_eq. rewrite Ho by lia.
      rewrite rd8_wr8. destruct (Z.eqb_spec (str + o.2 + Z.of_nat 0) (str + o.2)); [|lia]. apply Z.mod_small. lia.
    + intros x Hx. rewrite Ho by lia. rewrite rd8_wr8. destruct (Z.eqb_spec x (str + o.2)); [lia|done].
Qed.

Lemma cstr_of_bytes m a l : (forall i c, l !! i = Some c -> rd8 m (a + Z.of_nat i) = c) -> Forall (fun c => 0 < c < 256) l ->
  rd8 m (a + Z.of_nat (length l)) = 0 -> cstr m a l.
Proof.
  intros H Hl He. rewrite <- (app_nil_r l). apply cstr_app. split; [|by constructor].
  intros i c Hi. split; [by apply H|]. rewrite Forall_lookup in Hl. specialize (Hl i c Hi). simpl in Hl. lia.
Qed.

Lemma dec_text_ok v : - 2 ^ 31 <= v < 2 ^ 31 ->
  Forall (fun c => 0 < c < 256) (dec_text v) /\ (length (dec_text v) <= 11)%nat /\ atoi (dec_text v) = v.
Proof.
  intros Hv. assert (Hdig : forall l, Forall (fun c => is_digit c = true) l -> Forall (fun c => 0 < c < 256) l).
  { intros l Hl. eapply Forall_impl; [exact Hl|]. intros c Hc. simpl in Hc. unfold is_digit in Hc. breflect. lia. }
  set (ds := if v =? 0 then [48] else reverse (num_buf 64 (Z.abs v) 10 false)).
  assert (Hd : Forall (fun c => is_digit c = true) ds /\ dec_value 0 ds = Z.abs v /\ ds <> [] /\ (length ds <= 10)%nat).
  { unfold ds. destruct (Z.eqb_spec v 0) as [->|Hne]; [split_and!; [by repeat constructor|done|done|simpl; lia]|].
    destruct (num_buf_spec 64 (Z.abs v)) as (H1 & H2 & H3); [lia|]. split_and!.
    - by apply Forall_reverse.
    - done.
    - intros E. apply H3; [lia|]. by apply (f_equal reverse) in E; rewrite reverse_involutive in E.
    - rewrite length_reverse. apply num_buf_length. lia. }
  destruct Hd as (H1 & H2 & H3 & H4). unfold dec_text. fold ds. split_and!.
  - apply Forall_app. split; [destruct (v <? 0); by repeat constructor|auto].
  - rewrite length_app. destruct (v <? 0); simpl; lia.
  - destruct ds as [|d r]; [done|]. pose proof (atoi_digits_spec (d :: r) [] (v <? 0) 0 H1 eq_refl ltac:(lia)) as Ha.
    rewrite app_nil_r in Ha. apply Forall_cons in H1 as [Hd _]. unfold is_digit in Hd. breflect.
    assert (Esp : is_space d = false) by (unfold is_space; bsplit; lia || done).
    destruct (Z.ltb_spec v 0); unfold atoi; simpl in Ha |- *.
    + rewrite Ha by lia. unfold dec_value in *. simpl in *. lia.
    + rewrite Esp. destruct (Z.eqb_spec d 45), (Z.eqb_spec d 43); try lia. simpl.
      rewrite Ha by lia. unfold dec_value in *. simpl in *. lia.
Qed.

(** C23: Printing an int with "%d" into a buffer of at least 12 bytes gives a
    terminated string whose length is the result, and atoi of that string is
    the int again. *)
Theorem snprintf_atoi_roundtrip m str size format v :
  str <> 0 -> 12 <= size < 2 ^ 31 -> - 2 ^ 31 <= v < 2 ^ 31 -> cstr m format [37; 100] ->
  (str + size <= format \/ format + 2 < str) ->
  exists m' l, snprintf 3 m str size format [u64 v] = Some (m', Z.of_nat (length l)) /\ cstr m' str l /\ atoi l = v.
Proof.
  intros Hs Hz Hv Hc Hd. destruct (dec_text_ok v Hv) as (Hb & Hlen & Ha).
  inversion Hc as [|? ? ? E1 _ Hc1]; subst. inversion Hc1 as [|? ? ? E2 _ Hc2]; subst. inversion Hc2 as [? E3|]; subst.
  assert (Ev : slot_int false (u64 v) = v).
  { unfold slot_int, s32, signed, u32, u64. rewrite Z.mod_mod by lia.
    replace ((v mod 2 ^ 64) mod 2 ^ 32) with (v mod 2 ^ 32) by (rewrite Z.mod_mod_divide; [done|by exists (2 ^ 32)]).
    destruct (Z.ltb_spec (v mod 2 ^ 32) (2 ^ (32 - 1))); divlia. }
  destruct (emits_fit str size (dec_text v) (m, 0)) as (m1 & Ee & Hi & Ho); simpl in *; try done; try lia. rewrite Z.add_0_r in Hi, Ho.
  exists (wr8 m1 (str + Z.of_nat (length (dec_text v))) 0), (dec_text v). split_and!; [| |done].
  - unfold snprintf, vsnprintf. destruct (Z.eqb_spec str 0); [done|]. destruct (Z.eqb_spec size 0); [lia|]. simpl.
    replace (format + 0) with format by lia. rewrite E1. simpl. change (0 + 1) with 1. destruct (Z.ltb_spec 1 size); [|lia]. simpl. rewrite E2. simpl.
    unfold long_prefix. simpl. rewrite E2. simpl. rewrite E2. unfold conv. simpl. rewrite Ev, emit_signed_text, Ee by done. simpl.
    replace (format + (1 + 1)) with (format + 1 + 1) by lia. rewrite Ho by lia. rewrite E3. simpl. rewrite ?Z.add_0_l. f_equal. f_equal.
    unfold s32, signed. rewrite Z.mod_small by lia. destruct (Z.ltb_spec (Z.of_nat (length (dec_text v))) (2 ^ (32 - 1))); lia.
  - apply cstr_of_bytes; [|done|by rewrite rd8_wr8, Z.eqb_refl]. intros i c Hl. rewrite rd8_wr8.
    pose proof (lookup_lt_Some _ _ _ Hl). destruct (Z.eqb_spec (str + Z.of_nat i) (str + Z.of_nat (length (dec_text v)))); [lia|]. by apply Hi.
Qed.

Definition demo_d : mem := put_bytes ∅ 512 [37; 100; 0].
Lemma demo_d_cstr : cstr demo_d 512 [37; 100].
Proof. repeat (apply cstr_cons; [done|done|]). by apply cstr_nil. Qed.

Lemma snprintf_atoi_roundtrip_witness :
  exists m' l, snprintf 3 demo_d 1024 16 512 [u64 (-2147483648)] = Some (m', Z.of_nat (length l)) /\ cstr m' 1024 l /\ atoi l = -2147483648.
Proof. apply (snprintf_atoi_roundtrip demo_d 1024 16 512); [done|lia|lia|exact demo_d_cstr|lia]. Defined.

(** A format that ends in "%l" is read past its terminator: the text after it
    is copied as if it were part of the format. *)
Lemma vsnprintf_reads_on : exists m',
  vsnprintf 8 (put_bytes ∅ 512 [37; 108; 0; 97; 98; 0]) 1024 16 512 [] = Some (m', 3) /\ bytes_at m' 1024 4 = [0; 97; 98; 0].
Proof. eexists. split; vm_compute; reflexivity. Qed.

(** [printf] never takes the branch that allocates: the length vsnprintf
    returns is less than the size of the stack buffer, so a longer text is
    cut off at 255 bytes. *)
Lemma printf_cuts fuel s mm buf format ap r : buf <> 0 -> printf fuel s mm buf format ap = Some r ->
  r.2 < sizeof_stackBuf /\ exists m', r.1.1 = set_umem s m' /\ r.1.2 = bytes_at m' buf (Z.to_nat r.2).
Proof.
  intros Hb H. unfold printf in H. destruct (vsnprintf _ _ _ _ _ _) as [[m1 len]|] eqn:E; simpl in H; [|done].
  destruct (vsnprintf_in_bounds fuel (u_mem s) buf sizeof_stackBuf format ap m1 len Hb ltac:(unfold sizeof_stackBuf; lia) E) as [Hl _]. unfold sizeof_stackBuf in *.
  destruct (Z.ltb_spec len 256); [|lia]. simplify_eq. simpl. split; [lia|]. by exists m1.
Qed.
