(* ===== verification/Elf.v ===== *)
(** * ELF files in memory (src/boot/uefi/elf.h)

    The records of the ELF format and how they are read from memory.  The
    kernel (modules, program loading), the boot loader and the dynamic
    linker (whose own copy of the header is the same) lay these structures
    over a file image with pointer casts: reading one is reading its fields
    at their offsets. *)

From Stdlib Require Import ZArith Lia Bool.
From stdpp Require Import base list gmap.
From S2P Require Import Prelude Mem.

Record Elf64_Ehdr := mkEhdr {
  e_ident : list Z; e_type : Z; e_machine : Z; e_version : Z; e_entry : Z; e_phoff : Z; e_shoff : Z; e_flags : Z;
  e_ehsize : Z; e_phentsize : Z; e_phnum : Z; e_shentsize : Z; e_shnum : Z; e_shstrndx : Z
}.

Record Elf64_Phdr := mkPhdr {
  p_type : Z; p_flags : Z; p_offset : Z; p_vaddr : Z; p_paddr : Z; p_filesz : Z; p_memsz : Z; p_align : Z
}.

Record Elf64_Shdr := mkShdr {
  sh_name : Z; sh_type : Z; sh_flags : Z; sh_addr : Z; sh_offset : Z; sh_size : Z; sh_link : Z; sh_info : Z;
  sh_addralign : Z; sh_entsize : Z
}.

Record Elf64_Sym := mkSym { st_name : Z; st_info : Z; st_other : Z; st_shndx : Z; st_value : Z; st_size : Z }.

(** [r_addend] is signed. *)
Record Elf64_Rela := mkRela { r_offset : Z; r_info : Z; r_addend : Z }.

Definition sizeof_Ehdr : Z := 64.
Definition sizeof_Phdr : Z := 56.
Definition sizeof_Shdr : Z := 64.
Definition sizeof_Sym : Z := 24.
Definition sizeof_Rela : Z := 24.

Definition PT_LOAD : Z := 1.
Definition PT_DYNAMIC : Z := 2.
Definition PT_INTERP : Z := 3.
Definition PT_PHDR : Z := 6.
Definition PF_X : Z := 1.
Definition PF_W : Z := 2.
Definition PF_R : Z := 4.
Definition ELFCLASS64 : Z := 2.
Definition ELFDATA2LSB : Z := 1.
Definition EM_X86_64 : Z := 62.
Definition ET_REL : Z := 1.
Definition ET_EXEC : Z := 2.
Definition ET_DYN : Z := 3.
Definition SHT_SYMTAB : Z := 2.
Definition SHT_RELA : Z := 4.
Definition SHT_NOBITS : Z := 8.
Definition SHF_ALLOC : Z := 2.
Definition SHN_UNDEF : Z := 0.
Definition SHN_ABS : Z := 0xFFF1.
Definition R_X86_64_NONE : Z := 0.
Definition R_X86_64_64 : Z := 1.
Definition R_X86_64_PC32 : Z := 2.
Definition R_X86_64_PLT32 : Z := 4.
Definition R_X86_64_COPY : Z := 5.
Definition R_X86_64_GLOB_DAT : Z := 6.
Definition R_X86_64_JUMP_SLOT : Z := 7.
Definition R_X86_64_RELATIVE : Z := 8.
Definition R_X86_64_32 : Z := 10.
Definition R_X86_64_32S : Z := 11.

Definition ELF64_ST_BIND (i : Z) : Z := Z.shiftr i 4.
Definition ELF64_ST_TYPE (i : Z) : Z := Z.land i 0xF.
Definition ELF64_R_SYM (i : Z) : Z := Z.shiftr i 32.
Definition ELF64_R_TYPE (i : Z) : Z := Z.land i 0xFFFFFFFF.

(** The structure at an address, and element [i] of an array of them. *)
Definition get_ehdr (m : mem) (p : Z) : Elf64_Ehdr :=
  mkEhdr (bytes_at m p 16) (rd16 m (p + 16)) (rd16 m (p + 18)) (rd32 m (p + 20)) (rd64 m (p + 24)) (rd64 m (p + 32))
    (rd64 m (p + 40)) (rd32 m (p + 48)) (rd16 m (p + 52)) (rd16 m (p + 54)) (rd16 m (p + 56)) (rd16 m (p + 58))
    (rd16 m (p + 60)) (rd16 m (p + 62)).

Definition get_phdr (m : mem) (p : Z) : Elf64_Phdr :=
  mkPhdr (rd32 m p) (rd32 m (p + 4)) (rd64 m (p + 8)) (rd64 m (p + 16)) (rd64 m (p + 24)) (rd64 m (p + 32))
    (rd64 m (p + 40)) (rd64 m (p + 48)).

Definition get_shdr (m : mem) (p : Z) : Elf64_Shdr :=
  mkShdr (rd32 m p) (rd32 m (p + 4)) (rd64 m (p + 8)) (rd64 m (p + 16)) (rd64 m (p + 24)) (rd64 m (p + 32))
    (rd32 m (p + 40)) (rd32 m (p + 44)) (rd64 m (p + 48)) (rd64 m (p + 56)).

Definition get_sym (m : mem) (p : Z) : Elf64_Sym :=
  mkSym (rd32 m p) (rd8 m (p + 4)) (rd8 m (p + 5)) (rd16 m (p + 6)) (rd64 m (p + 8)) (rd64 m (p + 16)).

Definition get_rela (m : mem) (p : Z) : Elf64_Rela :=
  mkRela (rd64 m p) (rd64 m (p + 8)) (s64 (rd64 m (p + 16))).

Definition shdr_at (m : mem) (shdrs i : Z) : Elf64_Shdr := get_shdr m (u64 (shdrs + i * sizeof_Shdr)).
Definition sym_at (m : mem) (symtab i : Z) : Elf64_Sym := get_sym m (u64 (symtab + i * sizeof_Sym)).
Definition rela_at (m : mem) (relas i : Z) : Elf64_Rela := get_rela m (u64 (relas + i * sizeof_Rela)).

(** Byte [i] of [e_ident]. *)
Definition ident (e : Elf64_Ehdr) (i : nat) : Z := default 0 (e_ident e !! i).

(** ** Reading is local: memory that agrees on the bytes gives the same structure. *)
Definition agree (m m' : mem) (a n : Z) : Prop := forall x, a <= x < a + n -> rd8 m x = rd8 m' x.

Lemma agree_sub m m' a n b k : agree m m' a n -> a <= b -> b + k <= a + n -> agree m m' b k.
Proof. intros H H1 H2 x Hx. apply H. lia. Qed.

Lemma agree_refl m a n : agree m m a n.
Proof. by intros x _. Qed.

Lemma agree_trans m1 m2 m3 a n : agree m1 m2 a n -> agree m2 m3 a n -> agree m1 m3 a n.
Proof. intros H1 H2 x Hx. rewrite H1 by done. by apply H2. Qed.

Lemma rd_agree n m m' a k b : agree m m' a k -> a <= b -> b + Z.of_nat n <= a + k -> rd n m b = rd n m' b.
Proof. intros H H1 H2. apply rd_ext. intros x Hx. apply H. lia. Qed.

Ltac rd_agree :=
  unfold rd16, rd32, rd64; repeat match goal with |- s64 _ = s64 _ => f_equal end;
  (eapply rd_agree; [eassumption|lia|simpl; lia]).

Lemma get_shdr_agree m m' p : agree m m' p 64 -> get_shdr m p = get_shdr m' p.
Proof. intros H. unfold get_shdr. f_equal; rd_agree. Qed.

Lemma get_rela_agree m m' p : agree m m' p 24 -> get_rela m p = get_rela m' p.
Proof. intros H. unfold get_rela. f_equal; rd_agree. Qed.

Lemma get_sym_agree m m' p : agree m m' p 24 -> get_sym m p = get_sym m' p.
Proof. intros H. unfold get_sym. f_equal; try rd_agree; apply H; lia. Qed.

Lemma get_phdr_agree m m' p : agree m m' p 56 -> get_phdr m p = get_phdr m' p.
Proof. intros H. unfold get_phdr. f_equal; rd_agree. Qed.
