(* ===== verification/Krsym.v ===== *)
(** * Exported kernel symbols (src/kernel/symbols/krsym.c)

    [EXPORT_SYMBOL] puts a name and an address into a section of the kernel
    image; the table is the list of what the file exports, with the
    addresses the linker gave.  Before [krsym_init] the table counts as
    empty. *)

From Stdlib Require Import ZArith Lia Bool Ascii String.
From stdpp Require Import base list gmap strings.
From S2P Require Import Prelude Mem Str.

Record KernelSymbol := mkKSym { ks_name : list Z; ks_addr : Z }.

(** The bytes of a string literal, without its terminator. *)
Fixpoint text (s : string) : list Z :=
  match s with EmptyString => [] | String c r => Z.of_N (N_of_ascii c) :: text r end.

(** [strcmp] of a constant string with the string at [p]. *)
Fixpoint strcmp_lit (l : list Z) (m : mem) (p : Z) : Z :=
  match l with
  | [] => - rd8 m p
  | c :: r => if c =? rd8 m p then strcmp_lit r m (p + 1) else c - rd8 m p
  end.

Definition exported : list string := [
  "kprintf"; "kmalloc"; "kzalloc"; "krealloc"; "kfree"; "vmm_map_page"; "vmm_unmap_page"; "vmm_get_kernel_pml4";
  "pmm_alloc_frame"; "pmm_free_frame"; "hpet_sleep_ms"; "hpet_sleep_us"; "hpet_get_nanos"; "hpet_get_millis";
  "lapic_eoi"; "idt_register_handler"; "idt_unregister_handler"; "pcie_find_device"; "pcie_find_class";
  "pcie_get_device"; "pcie_get_device_count"; "pcie_read8"; "pcie_read16"; "pcie_read32"; "pcie_write8";
  "pcie_write16"; "pcie_write32"; "pcie_find_capability"; "pcie_find_extended_capability"; "pcie_enable_bus_master";
  "pcie_enable_msi"; "pcie_disable_msi"; "pcie_get_msix_table_size"; "pcie_enable_msix_vector";
  "pcie_mask_msix_vector"; "pcie_enable_msix"; "pcie_disable_msix"; "memcpy"; "memset"; "memmove"; "memcmp";
  "strcmp"; "strlen"; "vmm_map_range"; "vmm_unmap_range"; "vmm_virt_to_phys"; "pmm_alloc_frames";
  "pmm_free_frames"; "fs_read_file"; "fs_stat"; "lapic_get_id"; "fs_read"; "fs_list_dir";
  "pmm_alloc_aligned_frames"; "schedYield"; "schedSleep"; "schedPreemptDisable"; "schedPreemptEnable";
  "schedCurrent"; "schedCreateThread"; "nagRegisterAdapter"; "nagUnregisterAdapter"; "nagGetAdapter"; "nagDispatch";
  "validateUserRange"; "copyFromUser"; "copyToUser"; "driverRegister"; "driverUnregister"; "schedBlockCurrent";
  "schedEnqueueReady"; "vmaCreate"; "vmaDestroy" ]%string.

(** The table, given where the linker placed each symbol. *)
Definition kernel_syms (place : string -> Z) : list KernelSymbol := map (fun s => mkKSym (text s) (place s)) exported.

(** [g_ksym_count] after [krsym_init]. *)
Definition krsym_init (tab : list KernelSymbol) : Z := Z.of_nat (length tab).

(** The scan of the first [count] entries. *)
Fixpoint krsym_scan (tab : list KernelSymbol) (m : mem) (name : Z) : Z :=
  match tab with
  | [] => 0
  | k :: r => if strcmp_lit (ks_name k) m name =? 0 then ks_addr k else krsym_scan r m name
  end.

Definition krsym_lookup (tab : list KernelSymbol) (g_ksym_count : Z) (m : mem) (name : Z) : Z :=
  if name =? 0 then 0 else krsym_scan (take (Z.to_nat g_ksym_count) tab) m name.

(** ** Lemmas *)

(** The comparison is the one of string.c. *)
Lemma strcmp_lit_strcmp l : forall fuel m s p, cstr m s l -> (length l < fuel)%nat ->
  strcmp fuel m s p = Some (strcmp_lit l m p).
Proof.
  induction l as [|c l IH]; intros [|fuel] m s p Hc Hf; simpl in Hf; try lia; inversion Hc as [? E|? ? ? E Hne Hr]; subst; simpl.
  - by rewrite E.
  - destruct (Z.eqb_spec (rd8 m s) 0); [lia|]. cbn [negb andb].
    destruct (Z.eqb_spec (rd8 m s) (rd8 m p)); [apply IH; done || lia|done].
Qed.

Lemma strcmp_lit_zero l : forall m p l', Forall (fun c => c <> 0) l -> cstr m p l' -> strcmp_lit l m p = 0 <-> l = l'.
Proof.
  induction l as [|c l IH]; intros m p l' Hn Hc; inversion Hc as [? E|? ? ? E Hne Hr]; subst; simpl.
  - rewrite E. done.
  - split; [lia|done].
  - rewrite E. apply Forall_cons in Hn as [Hn _]. destruct (Z.eqb_spec c 0); [done|]. split; [lia|done].
  - apply Forall_cons in Hn as [Hn Hl]. destruct (Z.eqb_spec c (rd8 m p)) as [->|Hd].
    + rewrite (IH _ _ _ Hl Hr). split; congruence.
    + split; [lia|congruence].
Qed.

Lemma text_inj s1 : forall s2, text s1 = text s2 -> s1 = s2.
Proof.
  induction s1 as [|c1 s1 IH]; intros [|c2 s2] E; simpl in E; try done.
  injection E as E1 E2. apply N2Z.inj in E1. f_equal; [|by apply IH].
  rewrite <- (ascii_N_embedding c1), <- (ascii_N_embedding c2). by f_equal.
Qed.

Lemma exported_text : Forall (fun s => Forall (fun c => c <> 0) (text s)) exported.
Proof. repeat (constructor; [by repeat constructor|]). constructor. Qed.

Lemma krsym_scan_map (place : string -> Z) m p s ns : Forall (fun s => Forall (fun c => c <> 0) (text s)) ns -> cstr m p (text s) ->
  krsym_scan (map (fun s => mkKSym (text s) (place s)) ns) m p = if decide (s ∈ ns) then place s else 0.
Proof.
  intros Hn Hc. induction ns as [|n ns IH]; [done|]. simpl. apply Forall_cons in Hn as [H1 H2].
  pose proof (strcmp_lit_zero (text n) m p (text s) H1 Hc) as Hz.
  destruct (Z.eqb_spec (strcmp_lit (text n) m p) 0) as [E|E].
  - apply Hz, text_inj in E as ->. rewrite decide_True by left. done.
  - rewrite IH by done. destruct (decide (s ∈ ns)) as [Hi|Hi].
    + rewrite decide_True by by right. done.
    + rewrite decide_False; [done|]. intros [-> |?]%elem_of_cons; [apply E, Hz; done|done].
Qed.

(** Once the symbols are initialised, looking up a name gives the address
    the linker placed that symbol at when it is exported and 0 otherwise,
    whatever the placement; before, every lookup gives 0. *)
Theorem krsym_lookup_correct place m p s : p <> 0 -> cstr m p (text s) ->
  krsym_lookup (kernel_syms place) (krsym_init (kernel_syms place)) m p = (if decide (s ∈ exported) then place s else 0) /\
  krsym_lookup (kernel_syms place) 0 m p = 0.
Proof.
  intros Hp Hc. unfold krsym_lookup. destruct (Z.eqb_spec p 0); [done|]. split; [|done].
  unfold krsym_init. rewrite Nat2Z.id, take_ge by done. apply krsym_scan_map; [exact exported_text|done].
Qed.

Definition demo_name : mem := put_bytes ∅ 64 (text "kfree" ++ [0]).

Lemma krsym_lookup_correct_witness :
  krsym_lookup (kernel_syms (fun s => Z.of_nat (length (text s)))) (krsym_init (kernel_syms (fun s => Z.of_nat (length (text s))))) demo_name 64 = 5 /\
  krsym_lookup (kernel_syms (fun s => Z.of_nat (length (text s)))) 0 demo_name 64 = 0.
Proof.
  apply (krsym_lookup_correct (fun s => Z.of_nat (length (text s))) demo_name 64 "kfree"); [done|].
  repeat (apply cstr_cons; [done|done|]). by apply cstr_nil.
Defined.
