(* ===== verification/Module.v ===== *)
(** * Kernel modules (src/kernel/modules/module.c): operations

    A module is a relocatable ELF file that is laid out in pages of its own
    at [MODULE_BASE_VADDR], relocated against the exported kernel symbols
    and started.  The state is the page tables, memory (the file image and
    the module pages, by kernel address), the list of free address ranges
    and the list of loaded modules.  What [driver_init] and [driver_exit] of
    a module do is an argument.  [None] is an access outside of the array of
    loaded sections, or a name without end. *)

From Stdlib Require Import ZArith Lia Bool String.
From stdpp Require Import base list gmap strings.
From S2P Require Import Prelude Mem Str Frames PageTable KPages Elf Krsym.

Definition MODULE_BASE_VADDR : Z := 0xFFFFFFFF90000000.

Record ModuleSection := mkSec { sec_addr : Z; sec_size : Z; sec_flags : Z }.

(** [mod_ptr] is the address of the structure. *)
Record Module_ := mkModule {
  mod_ptr : Z; mod_name : list Z; mod_init : Z; mod_exit : Z; mod_sections : list ModuleSection; mod_base : Z; mod_pages : Z
}.

(** ** The list of free address ranges: start and number of pages *)

(** The node goes before the first one that does not start below it. *)
Fixpoint insert_range (l : list (Z * Z)) (virt_addr page_count : Z) : list (Z * Z) :=
  match l with
  | (a, c) :: r => if a <? virt_addr then (a, c) :: insert_range r virt_addr page_count else (virt_addr, page_count) :: l
  | [] => [(virt_addr, page_count)]
  end.

(** The merging loop at [it], with the nodes after it. *)
Fixpoint merge_from (it : Z * Z) (r : list (Z * Z)) : list (Z * Z) :=
  match r with
  | [] => [it]
  | nx :: r' =>
      if u64 (it.1 + it.2 * PAGE_SIZE) =? nx.1 then merge_from (it.1, u64 (it.2 + nx.2)) r'
      else it :: merge_from nx r'
  end.

Definition merge_nodes (l : list (Z * Z)) : list (Z * Z) :=
  match l with [] => [] | it :: r => merge_from it r end.

(** Without memory for the node the range is lost. *)
Definition recycle_module_range (node_ok : bool) (l : list (Z * Z)) (virt_addr page_count : Z) : list (Z * Z) :=
  if negb node_ok then l else merge_nodes (insert_range l virt_addr page_count).

(** The first range of at least [page_count] pages, or 0. *)
Fixpoint take_range (l : list (Z * Z)) (page_count : Z) : list (Z * Z) * Z :=
  match l with
  | [] => ([], 0)
  | (a, c) :: r =>
      if c =? page_count then (r, a)
      else if page_count <? c then ((u64 (a + page_count * PAGE_SIZE), c - page_count) :: r, a)
      else let '(r', b) := take_range r page_count in ((a, c) :: r', b)
  end.

(** ** Relocation *)

(** [(x + align - 1) & ~(align - 1)] *)
Definition align_to (x align : Z) : Z := Z.land (u64 (x + align - 1)) (u64 (Z.lnot (align - 1))).

(** The address of a symbol; [None]: an error is returned. *)
Definition symbol_value (tab : list KernelSymbol) (ksyms : Z) (m : mem) (secs : list ModuleSection) (shnum strtab : Z)
    (sym : Elf64_Sym) : option Z :=
  if st_shndx sym =? SHN_UNDEF then
    let s := krsym_lookup tab ksyms m (u64 (strtab + st_name sym)) in
    if s =? 0 then None else Some s
  else if st_shndx sym =? SHN_ABS then Some (st_value sym)
  else if st_shndx sym <? shnum then
    sec ← secs !! Z.to_nat (st_shndx sym); Some (u64 (sec_addr sec + st_value sym))
  else None.

(** The switch over the relocation type, for a symbol at [s], a place [p]
    and an addend [a]. *)
Definition apply_rela (m : mem) (rel_type s p a : Z) : option mem :=
  if rel_type =? R_X86_64_NONE then Some m
  else if rel_type =? R_X86_64_64 then Some (wr64 m p (u64 (s + a)))
  else if rel_type =? R_X86_64_32 then
    let val := u64 (s + a) in
    if 0xFFFFFFFF <? val then None else Some (wr32 m p val)
  else if rel_type =? R_X86_64_32S then
    let val := s64 (s + a) in
    if (val <? -0x80000000) || (0x7FFFFFFF <? val) then None else Some (wr32 m p val)
  else if (rel_type =? R_X86_64_PC32) || (rel_type =? R_X86_64_PLT32) then
    let val := s64 (s + a - p) in
    if (val <? -0x80000000) || (0x7FFFFFFF <? val) then None else Some (wr32 m p val)
  else None.

Section Relocations.
Context (tab : list KernelSymbol) (ksyms : Z) (secs : list ModuleSection) (shnum symtab sym_count strtab : Z).

(** One entry for the section at [target]. *)
Definition rela_step (m : mem) (target : Z) (rel : Elf64_Rela) : option mem :=
  let sym_idx := u32 (ELF64_R_SYM (r_info rel)) in
  let rel_type := u32 (ELF64_R_TYPE (r_info rel)) in
  if sym_count <=? sym_idx then None
  else
    s ← symbol_value tab ksyms m secs shnum strtab (sym_at m symtab sym_idx);
    apply_rela m rel_type s (u64 (target + r_offset rel)) (r_addend rel).

(** The loop, [n] entries to go; [false] is the error. *)
Fixpoint rela_loop (n : nat) (m : mem) (target relas i : Z) : mem * bool :=
  match n with
  | O => (m, true)
  | S k =>
      match rela_step m target (rela_at m relas i) with
      | Some m1 => rela_loop k m1 target relas (i + 1)
      | None => (m, false)
      end
  end.

Definition apply_relocations (m : mem) (raw shdrs rel_idx : Z) : option (mem * bool) :=
  let rel_shdr := shdr_at m shdrs rel_idx in
  target ← secs !! Z.to_nat (sh_info rel_shdr);
  if sec_addr target =? 0 then Some (m, true)
  else Some (rela_loop (Z.to_nat (sh_size rel_shdr / sizeof_Rela)) m (sec_addr target) (u64 (raw + sh_offset rel_shdr)) 0).

(** The loop over the sections, [n] to go. *)
Fixpoint relocate_sections (n : nat) (m : mem) (raw shdrs i : Z) : option (mem * bool) :=
  match n with
  | O => Some (m, true)
  | S k =>
      if sh_type (shdr_at m shdrs i) =? SHT_RELA then
        '(m1, ok) ← apply_relocations m raw shdrs i;
        if (ok : bool) then relocate_sections k m1 raw shdrs (i + 1) else Some (m1, false)
      else relocate_sections k m raw shdrs (i + 1)
  end.

(** [driver_init] and [driver_exit]: the last symbols of these names. *)
Fixpoint find_entry_points (n : nat) (m : mem) (i : Z) (fns : Z * Z) : option (Z * Z) :=
  match n with
  | O => Some fns
  | S k =>
      let sym := sym_at m symtab i in
      let sname := u64 (strtab + st_name sym) in
      if strcmp_lit (text "driver_init") m sname =? 0 then
        sec ← secs !! Z.to_nat (st_shndx sym);
        find_entry_points k m (i + 1) (u64 (sec_addr sec + st_value sym), fns.2)
      else if strcmp_lit (text "driver_exit") m sname =? 0 then
        sec ← secs !! Z.to_nat (st_shndx sym);
        find_entry_points k m (i + 1) (fns.1, u64 (sec_addr sec + st_value sym))
      else find_entry_points k m (i + 1) fns
  end.
End Relocations.

(** ** Layout *)

Definition is_alloc (s : Elf64_Shdr) : bool := sh_flags s &? SHF_ALLOC.
Definition sec_align (s : Elf64_Shdr) : Z := if negb (sh_addralign s =? 0) then sh_addralign s else 1.

(** [total_alloc_size] *)
Definition layout_size (m : mem) (shdrs shnum : Z) : Z :=
  zfor 0 shnum (fun i total =>
    let s := shdr_at m shdrs i in
    if is_alloc s then u64 (align_to total (sec_align s) + sh_size s) else total) 0.

(** Copying the sections in: memory, the array of sections, the offset. *)
Definition place_section (raw shdrs base : Z) (i : Z) (st : mem * list ModuleSection * Z) : mem * list ModuleSection * Z :=
  let '(m, secs, off) := st in
  let s := shdr_at m shdrs i in
  if is_alloc s then
    let off := align_to off (sec_align s) in
    let sec_vaddr := u64 (base + off) in
    let secs := <[Z.to_nat i := mkSec sec_vaddr (sh_size s) (sh_flags s)]> secs in
    let m := if sh_type s =? SHT_NOBITS then (memset m sec_vaddr 0 (sh_size s)).1
             else (memcpy m sec_vaddr (u64 (raw + sh_offset s)) (sh_size s)).1 in
    (m, secs, u64 (off + sh_size s))
  else st.

Definition load_sections (m : mem) (raw shdrs shnum base : Z) : mem * list ModuleSection :=
  (zfor 0 shnum (place_section raw shdrs base) (m, replicate (Z.to_nat shnum) (mkSec 0 0 0), 0)).1.

(** The first symbol table: its address, number of entries and names. *)
Fixpoint find_symtab (n : nat) (m : mem) (raw shdrs i : Z) : Z * Z * Z :=
  match n with
  | O => (0, 0, 0)
  | S k =>
      let s := shdr_at m shdrs i in
      if sh_type s =? SHT_SYMTAB
      then (u64 (raw + sh_offset s), sh_size s / sizeof_Sym, u64 (raw + sh_offset (shdr_at m shdrs (sh_link s))))
      else find_symtab k m raw shdrs (i + 1)
  end.

Definition elf_rel_ok (e : Elf64_Ehdr) : bool :=
  negb (negb (ident e 0 =? 0x7F) || negb (ident e 1 =? 69) || negb (ident e 2 =? 76) || negb (ident e 3 =? 70)
        || negb (ident e 4 =? ELFCLASS64) || negb (ident e 5 =? ELFDATA2LSB) || negb (e_machine e =? EM_X86_64) || negb (e_type e =? ET_REL)).

(** ** Modules *)
Section Loader.
Context {S : Type} `{FrameAllocator S}.

Record Modules := mkModules {
  mo_vm : Vm S; mo_mem : mem; g_module_virt_cursor : Z; g_module_free_ranges : list (Z * Z); g_loaded_modules : list Module_
}.

Definition with_vm (s : Modules) (vm : Vm S) : Modules :=
  mkModules vm (mo_mem s) (g_module_virt_cursor s) (g_module_free_ranges s) (g_loaded_modules s).
Definition with_mem (s : Modules) (m : mem) : Modules :=
  mkModules (mo_vm s) m (g_module_virt_cursor s) (g_module_free_ranges s) (g_loaded_modules s).
Definition with_ranges (s : Modules) (c : Z) (l : list (Z * Z)) : Modules :=
  mkModules (mo_vm s) (mo_mem s) c l (g_loaded_modules s).
Definition with_loaded (s : Modules) (l : list Module_) : Modules :=
  mkModules (mo_vm s) (mo_mem s) (g_module_virt_cursor s) (g_module_free_ranges s) l.

(** The kernel's page directory; whether an allocation of a size succeeds;
    the exported symbols; the code of the modules. *)
Context (pml4 : Z) (km : Z -> bool) (tab : list KernelSymbol) (ksyms : Z).
Context (run_init : Z -> Modules -> Modules * Z) (run_exit : Z -> Modules -> Modules).

Definition module_init (s : Modules) : Modules := with_loaded (with_ranges s MODULE_BASE_VADDR []) [].

Definition recycle (s : Modules) (virt_addr page_count : Z) : Modules :=
  with_ranges s (g_module_virt_cursor s) (recycle_module_range (km 24) (g_module_free_ranges s) virt_addr page_count).

Definition alloc_module_pages (s : Modules) (page_count : Z) : Modules * Z :=
  if page_count =? 0 then (s, 0)
  else
    let '(l, b) := take_range (g_module_free_ranges s) page_count in
    let '(s1, virt_base) :=
      if b =? 0 then (with_ranges s (u64 (g_module_virt_cursor s + page_count * PAGE_SIZE)) l, g_module_virt_cursor s)
      else (with_ranges s (g_module_virt_cursor s) l, b) in
    let '(vm, ok) := kp_map pml4 (Z.to_nat page_count) (mo_vm s1) virt_base 0 in
    if (ok : bool) then (with_vm s1 vm, virt_base) else (recycle (with_vm s1 vm) virt_base page_count, 0).

Definition free_module_pages (s : Modules) (virt_base page_count : Z) : Modules :=
  if (virt_base =? 0) || (page_count =? 0) then s
  else recycle (with_vm s (kp_release pml4 (mo_vm s) virt_base page_count)) virt_base page_count.

(** What follows once the sections are in memory: the module's entry
    points, or [None] inside when an error is returned. *)
Definition link_module (m : mem) (raw shdrs shnum : Z) (secs : list ModuleSection) : option (mem * option (Z * Z)) :=
  let '(symtab, sym_count, strtab) := find_symtab (Z.to_nat shnum) m raw shdrs 0 in
  if (symtab =? 0) || (strtab =? 0) then Some (m, None)
  else
    '(m1, ok) ← relocate_sections tab ksyms secs shnum symtab sym_count strtab (Z.to_nat shnum) m raw shdrs 0;
    if negb ok then Some (m1, None)
    else
      '(init_fn, exit_fn) ← find_entry_points secs symtab strtab (Z.to_nat sym_count) m1 0 (0, 0);
      Some (m1, if init_fn =? 0 then None else Some (init_fn, exit_fn)).

(** [mp] is the address of the new structure, 0 if there is no memory for
    it; [fuel] bounds the length of the name. *)
Definition module_load (fuel : nat) (mp : Z) (s : Modules) (name raw elf_size : Z) : option (Modules * Z) :=
  if (name =? 0) || (raw =? 0) || (elf_size <? sizeof_Ehdr) then Some (s, 0)
  else
    let m := mo_mem s in
    let ehdr := get_ehdr m raw in
    let shnum := e_shnum ehdr in
    if negb (elf_rel_ok ehdr) then Some (s, 0)
    else if elf_size <? u64 (e_shoff ehdr + shnum * e_shentsize ehdr) then Some (s, 0)
    else
      let shdrs := u64 (raw + e_shoff ehdr) in
      let total := layout_size m shdrs shnum in
      if total =? 0 then Some (s, 0)
      else
        let page_count := u64 (total + PAGE_SIZE - 1) / PAGE_SIZE in
        let '(s1, base) := alloc_module_pages s page_count in
        if base =? 0 then Some (s1, 0)
        else if negb (km (shnum * 24)) then Some (free_module_pages s1 base page_count, 0)
        else
          let '(m1, secs) := load_sections m raw shdrs shnum base in
          '(m2, fns) ← link_module m1 raw shdrs shnum secs;
          let s2 := with_mem s1 m2 in
          match fns with
          | None => Some (free_module_pages s2 base page_count, 0)
          | Some (init_fn, exit_fn) =>
              name_len ← strlen fuel m2 name;
              if negb (km (name_len + 1)) then Some (free_module_pages s2 base page_count, 0)
              else if mp =? 0 then Some (free_module_pages s2 base page_count, 0)
              else
                let mod_ := mkModule mp (bytes_at m2 name (Z.to_nat name_len)) init_fn exit_fn secs base page_count in
                let '(s3, res) := run_init init_fn s2 in
                if negb (res =? 0) then Some (free_module_pages s3 base page_count, 0)
                else Some (with_loaded s3 (mod_ :: g_loaded_modules s3), mp)
          end.

(** The list without the first entry at [p]; [None]: not in the list. *)
Fixpoint unlink_module (l : list Module_) (p : Z) : option (Module_ * list Module_) :=
  match l with
  | [] => None
  | x :: r => if mod_ptr x =? p then Some (x, r) else '(y, r') ← unlink_module r p; Some (y, x :: r')
  end.

Definition module_unload (s : Modules) (p : Z) : Modules * Z :=
  if p =? 0 then (s, -1)
  else match unlink_module (g_loaded_modules s) p with
       | None => (s, -1)
       | Some (x, l) =>
           let s1 := with_loaded s l in
           let s2 := if negb (mod_exit x =? 0) then run_exit (mod_exit x) s1 else s1 in
           (free_module_pages s2 (mod_base x) (mod_pages x), 0)
       end.

Fixpoint find_named (l : list Module_) (m : mem) (name : Z) : Z :=
  match l with
  | [] => 0
  | x :: r => if strcmp_lit (mod_name x) m name =? 0 then mod_ptr x else find_named r m name
  end.

Definition module_find (s : Modules) (name : Z) : Z :=
  if name =? 0 then 0 else find_named (g_loaded_modules s) (mo_mem s) name.
End Loader.
Arguments Modules : clear implicits.
