(* ===== verification/ModuleReloc.v ===== *)
(** * Kernel modules: relocation

    What a relocation is for, after the x86-64 ABI: the field at the place
    stands for the symbol's value plus the addend, as a full word, a zero-
    or sign-extended half or a distance.  [apply_relocations] establishes
    that for every entry, or fails where no field value could. *)

From Stdlib Require Import ZArith Lia Bool String.
From stdpp Require Import base list gmap strings.
From S2P Require Import Prelude Mem Str Frames PageTable KPages Elf Krsym Module.

Definition supported (t : Z) : bool :=
  (t =? R_X86_64_NONE) || (t =? R_X86_64_64) || (t =? R_X86_64_32) || (t =? R_X86_64_32S) || (t =? R_X86_64_PC32) || (t =? R_X86_64_PLT32).

(** The bytes of the field. *)
Definition field_width (t : Z) : Z := if t =? R_X86_64_NONE then 0 else if t =? R_X86_64_64 then 8 else 4.

(** The field at [p] stands for [s + a]. *)
Definition meets (m : mem) (t s p a : Z) : Prop :=
  if t =? R_X86_64_NONE then True
  else if t =? R_X86_64_64 then rd64 m p = u64 (s + a)
  else if t =? R_X86_64_32 then rd32 m p = u64 (s + a)
  else if t =? R_X86_64_32S then u64 (s32 (rd32 m p)) = u64 (s + a)
  else u64 (p + s32 (rd32 m p)) = u64 (s + a).

Lemma meets_agree m m' t s p a : agree m m' p (field_width t) -> meets m t s p a -> meets m' t s p a.
Proof.
  unfold meets, field_width. destruct (t =? R_X86_64_NONE); [done|].
  destruct (t =? R_X86_64_64); intros Ha.
  - intros <-. symmetry. eapply (rd_agree 8); [exact Ha|lia|simpl; lia].
  - assert (E : rd32 m p = rd32 m' p) by (eapply (rd_agree 4); [exact Ha|lia|simpl; lia]). by rewrite E.
Qed.

Lemma rd32_wr32 m p v : rd32 (wr32 m p v) p = u32 v.
Proof. unfold rd32, wr32. by rewrite rd_wr_same. Qed.

Lemma s64_small v : -0x80000000 <= s64 v <= 0x7FFFFFFF -> s32 (u32 (s64 v)) = s64 v.
Proof.
  set (w := s64 v). intros Hw. unfold s32, signed, u32. rewrite Z.mod_mod by lia.
  destruct (Z.ltb_spec (w mod 2 ^ 32) (2 ^ (32 - 1))); divlia.
Qed.

Lemma u64_s64 v : u64 (s64 v) = u64 v.
Proof.
  unfold u64, s64, signed. destruct (v mod 2 ^ 64 <? 2 ^ (64 - 1)); [by rewrite Z.mod_mod by lia|].
  replace (v mod 2 ^ 64 - 2 ^ 64) with (v mod 2 ^ 64 + (-1) * 2 ^ 64) by lia. rewrite Z.mod_add by lia. by rewrite Z.mod_mod by lia.
Qed.

Lemma s64_congr v w : u64 v = u64 w -> s64 v = s64 w.
Proof. unfold u64, s64, signed. by intros ->. Qed.

Lemma s64_s32 v : s64 (s32 v) = s32 v.
Proof.
  unfold s64, s32, signed. destruct (Z.ltb_spec (v mod 2 ^ 32) (2 ^ (32 - 1))) as [H|H];
    match goal with |- context [?x mod 2 ^ 64 <? _] => destruct (Z.ltb_spec (x mod 2 ^ 64) (2 ^ (64 - 1))) end; divlia.
Qed.

Lemma u64_add_l a b c : u64 a = u64 b -> u64 (c + a) = u64 (c + b).
Proof. unfold u64. intros E. rewrite Z.add_mod, E, <- Z.add_mod by lia. done. Qed.

(** One relocation: the field stands for the value and nothing else changes;
    an error means the type is unknown or no field value would do. *)
Lemma apply_rela_ok m t s p a m' : apply_rela m t s p a = Some m' ->
  supported t = true /\ meets m' t s p a /\ forall x, ~ p <= x < p + field_width t -> rd8 m' x = rd8 m x.
Proof.
  unfold apply_rela, meets, field_width, supported.
  destruct (t =? R_X86_64_NONE); [intros ?; simplify_eq; done|].
  destruct (t =? R_X86_64_64); [intros ?; simplify_eq; split; [done|split]|].
  { rewrite rd64_wr64_same by apply u64_range. done. }
  { intros x Hx. unfold wr64. rewrite rd8_wr. simpl Z.of_nat. bsplit; done || lia. }
  assert (Hw : forall v x, ~ p <= x < p + 4 -> rd8 (wr32 m p v) x = rd8 m x).
  { intros v x Hx. unfold wr32. rewrite rd8_wr. simpl Z.of_nat. bsplit; done || lia. }
  destruct (t =? R_X86_64_32).
  { destruct (Z.ltb_spec 0xFFFFFFFF (u64 (s + a))) as [Hlt|Hle]; [done|]. intros ?. simplify_eq. split_and!; [done| |by apply Hw].
    rewrite rd32_wr32. apply u32_id. pose proof (u64_range (s + a)) as Hu. unfold is_u64 in Hu. lia. }
  destruct (t =? R_X86_64_32S).
  { destruct (Z.ltb_spec (s64 (s + a)) (-0x80000000)) as [?|H1]; [done|]. destruct (Z.ltb_spec 0x7FFFFFFF (s64 (s + a))) as [?|H2]; [done|].
    cbn [orb]. intros ?. simplify_eq. split_and!; [done| |by apply Hw]. rewrite rd32_wr32, s64_small by lia. apply u64_s64. }
  destruct ((t =? R_X86_64_PC32) || (t =? R_X86_64_PLT32)) eqn:Et; [|done].
  destruct (Z.ltb_spec (s64 (s + a - p)) (-0x80000000)) as [?|H1]; [done|]. destruct (Z.ltb_spec 0x7FFFFFFF (s64 (s + a - p))) as [?|H2]; [done|].
  cbn [orb]. intros ?. simplify_eq. split_and!; [done| |by apply Hw]. rewrite rd32_wr32, s64_small by lia.
  rewrite (u64_add_l _ (s + a - p)) by apply u64_s64. f_equal. lia.
Qed.

Lemma apply_rela_err m t s p a : apply_rela m t s p a = None -> supported t = false \/ forall m', ~ meets m' t s p a.
Proof.
  unfold apply_rela, meets, supported.
  destruct (t =? R_X86_64_NONE); [done|]. destruct (t =? R_X86_64_64); [done|].
  destruct (t =? R_X86_64_32).
  { destruct (Z.ltb_spec 0xFFFFFFFF (u64 (s + a))) as [Hlt|Hle]; [|done]. intros _. right. intros m' E.
    pose proof (rd_range 4 m' p) as Hr. unfold rd32 in E. rewrite E in Hr. simpl in Hr. lia. }
  assert (Hno : forall v w, s64 v < -0x80000000 \/ 0x7FFFFFFF < s64 v -> u64 (s32 w) <> u64 v).
  { intros v w Hv E. apply s64_congr in E. rewrite s64_s32 in E. unfold s32, signed in E. bsplit; divlia. }
  destruct (t =? R_X86_64_32S).
  { intros Hn. right. intros m'. apply Hno. bsplit; try done; lia. }
  destruct ((t =? R_X86_64_PC32) || (t =? R_X86_64_PLT32)) eqn:Et; [|by left].
  intros Hn. right. intros m' E. apply (Hno (s + a - p) (rd32 m' p)); [bsplit; try done; lia|].
  apply (u64_add_l _ _ (- p)) in E. replace (- p + (p + s32 (rd32 m' p))) with (s32 (rd32 m' p)) in E by lia.
  rewrite E. f_equal. lia.
Qed.

(** ** The loop over the entries *)

(** Memory below the module area is the same. *)
Definition low (m m' : mem) : Prop := forall x, x < MODULE_BASE_VADDR -> rd8 m x = rd8 m' x.

Lemma low_agree m m' a n : low m m' -> a + n <= MODULE_BASE_VADDR -> agree m m' a n.
Proof. intros H Ha x Hx. apply H. lia. Qed.

Lemma low_trans m1 m2 m3 : low m1 m2 -> low m2 m3 -> low m1 m3.
Proof. intros H1 H2 x Hx. rewrite H1 by done. by apply H2. Qed.

Lemma strcmp_lit_agree m m' l : forall p, agree m m' p (Z.of_nat (length l) + 1) -> strcmp_lit l m p = strcmp_lit l m' p.
Proof.
  induction l as [|c l IH]; intros p Ha; simpl; [rewrite (Ha p) by (simpl; lia); done|]. rewrite length_cons in Ha.
  rewrite (Ha p) by lia. destruct (c =? rd8 m' p); [|done]. apply IH. eapply agree_sub; [exact Ha|lia|lia].
Qed.

(** Names are shorter than 64 bytes. *)
Definition short_names (tab : list KernelSymbol) : Prop := Forall (fun k => Z.of_nat (length (ks_name k)) < 64) tab.

Lemma krsym_lookup_low tab n m m' name : short_names tab -> low m m' -> name + 64 <= MODULE_BASE_VADDR ->
  krsym_lookup tab n m name = krsym_lookup tab n m' name.
Proof.
  intros Hs Hl Hn. unfold krsym_lookup. destruct (name =? 0); [done|].
  assert (Ht : short_names (take (Z.to_nat n) tab)) by (by apply Forall_take). revert Ht. generalize (take (Z.to_nat n) tab) as l. clear tab Hs.
  induction l as [|k l IH]; intros Hs; [done|]. apply Forall_cons in Hs as [Hk Hs]. simpl.
  rewrite (strcmp_lit_agree m m'); [by rewrite IH|]. apply low_agree; [done|lia].
Qed.

Lemma sym_at_low m m' symtab i n : low m m' -> 0 <= symtab -> symtab + n * 24 <= MODULE_BASE_VADDR -> 0 <= i < n ->
  sym_at m symtab i = sym_at m' symtab i.
Proof.
  intros Hl H0 Hs Hi. unfold sym_at, sizeof_Sym. unfold MODULE_BASE_VADDR in *.
  rewrite u64_id by (unfold is_u64; lia). apply get_sym_agree, low_agree; [done|unfold MODULE_BASE_VADDR; lia].
Qed.

Lemma rela_at_low m m' relas i n : low m m' -> 0 <= relas -> relas + n * 24 <= MODULE_BASE_VADDR -> 0 <= i < n ->
  rela_at m relas i = rela_at m' relas i.
Proof.
  intros Hl H0 Hs Hi. unfold rela_at, sizeof_Rela. unfold MODULE_BASE_VADDR in *.
  rewrite u64_id by (unfold is_u64; lia). apply get_rela_agree, low_agree; [done|unfold MODULE_BASE_VADDR; lia].
Qed.

Section Loop.
Context (tab : list KernelSymbol) (ksyms : Z) (secs : list ModuleSection) (shnum symtab sym_count strtab : Z).
Context (m0 : mem) (target relas n : Z).

(** Entry [i] of the table in the file: symbol, type, place, addend. *)
Definition ent (i : Z) : Elf64_Rela := rela_at m0 relas i.
Definition ent_sym (i : Z) : Z := u32 (ELF64_R_SYM (r_info (ent i))).
Definition ent_type (i : Z) : Z := u32 (ELF64_R_TYPE (r_info (ent i))).
Definition ent_place (i : Z) : Z := u64 (target + r_offset (ent i)).
Definition ent_value (i : Z) : option Z := symbol_value tab ksyms m0 secs shnum strtab (sym_at m0 symtab (ent_sym i)).
Definition in_field (i x : Z) : Prop := ent_place i <= x < ent_place i + field_width (ent_type i).

(** An entry that cannot be served. *)
Definition ent_bad (i : Z) : Prop :=
  sym_count <= ent_sym i \/ ent_value i = None \/ supported (ent_type i) = false \/
  exists s, ent_value i = Some s /\ forall m, ~ meets m (ent_type i) s (ent_place i) (r_addend (ent i)).

(** The tables of the file lie below the module area, the fields in it and
    apart from each other. *)
Record reloc_input : Prop := {
  ri_relas : 0 <= relas /\ relas + n * 24 <= MODULE_BASE_VADDR;
  ri_syms : 0 <= symtab /\ symtab + sym_count * 24 <= MODULE_BASE_VADDR;
  ri_names : Forall (fun j => u64 (strtab + st_name (sym_at m0 symtab j)) + 64 <= MODULE_BASE_VADDR) (seqZ 0 sym_count);
  ri_tab : short_names tab;
  ri_fields : Forall (fun i => MODULE_BASE_VADDR <= ent_place i) (seqZ 0 n);
  ri_apart : Forall (fun i => Forall (fun j => i = j \/ ent_place i + field_width (ent_type i) <= ent_place j \/
                                        ent_place j + field_width (ent_type j) <= ent_place i) (seqZ 0 n)) (seqZ 0 n)
}.

Lemma ent_value_low m i : reloc_input -> low m0 m -> 0 <= ent_sym i < sym_count ->
  symbol_value tab ksyms m secs shnum strtab (sym_at m symtab (ent_sym i)) = ent_value i.
Proof.
  intros R Hl Hi. unfold ent_value. rewrite <- (sym_at_low m0 m symtab (ent_sym i) sym_count Hl) by (done || apply R).
  unfold symbol_value. rewrite (krsym_lookup_low tab ksyms m0 m); [done|apply R|done|].
  pose proof (ri_names R) as Hn. rewrite Forall_forall in Hn. apply Hn, elem_of_seqZ. lia.
Qed.

Lemma ent_sym_range i : 0 <= ent_sym i.
Proof. unfold ent_sym. apply u32_range. Qed.

(** One entry. *)
Lemma rela_step_ok m i : reloc_input -> low m0 m -> 0 <= i < n ->
  match rela_step tab ksyms secs shnum symtab sym_count strtab m target (rela_at m relas i) with
  | Some m' => exists s, ent_sym i < sym_count /\ ent_value i = Some s /\ supported (ent_type i) = true /\
      meets m' (ent_type i) s (ent_place i) (r_addend (ent i)) /\ (forall x, ~ in_field i x -> rd8 m' x = rd8 m x)
  | None => ent_bad i
  end.
Proof.
  intros R Hl Hi. rewrite <- (rela_at_low m0 m relas i n Hl) by (done || apply R). fold (ent i). unfold rela_step.
  fold (ent_sym i). fold (ent_type i). fold (ent_place i).
  destruct (Z.leb_spec sym_count (ent_sym i)) as [Hle|Hlt]; [by left|].
  rewrite ent_value_low by (done || (pose proof (ent_sym_range i); lia)).
  destruct (ent_value i) as [s|] eqn:Ev; cbn [mbind option_bind]; [|right; by left].
  destruct (apply_rela m _ s _ _) as [m'|] eqn:Ea.
  - apply apply_rela_ok in Ea as (H1 & H2 & H3). exists s. done.
  - apply apply_rela_err in Ea as [Hs|Hs]; right; right; [by left|right]. by exists s.
Qed.

Lemma rela_loop_ok k : forall m i, reloc_input -> low m0 m -> n = i + Z.of_nat k -> 0 <= i ->
  let r := rela_loop tab ksyms secs shnum symtab sym_count strtab k m target relas i in
  (forall x, (forall j, i <= j < n -> ~ in_field j x) -> rd8 r.1 x = rd8 m x) /\
  ((r.2 = true /\ forall j, i <= j < n -> exists s, ent_sym j < sym_count /\ ent_value j = Some s /\ supported (ent_type j) = true /\
      meets r.1 (ent_type j) s (ent_place j) (r_addend (ent j))) \/
   (r.2 = false /\ exists j, i <= j < n /\ ent_bad j)).
Proof.
  induction k as [|k IH]; intros m i R Hl Hn Hi; simpl rela_loop.
  { split; [done|]. left. split; [done|]. intros j Hj. lia. }
  pose proof (rela_step_ok m i R Hl ltac:(lia)) as Hs.
  destruct (rela_step _ _ _ _ _ _ _ _ _ _) as [m1|] eqn:Es; [|split; [done|right; split; [done|exists i; split; [lia|done]]]].
  destruct Hs as (s & H1 & H2 & H3 & H4 & H5).
  assert (Hl1 : low m0 m1).
  { intros x Hx. rewrite H5; [by apply Hl|]. pose proof (ri_fields R) as Hf. rewrite Forall_forall in Hf.
    specialize (Hf i). unfold in_field. rewrite elem_of_seqZ in Hf. specialize (Hf ltac:(lia)). lia. }
  destruct (IH m1 (i + 1) R Hl1 ltac:(lia) ltac:(lia)) as [Hfr Hc].
  set (r := rela_loop _ _ _ _ _ _ _ k m1 target relas (i + 1)) in *.
  split; [intros x Hx; rewrite Hfr by (intros j Hj; apply Hx; lia); apply H5, Hx; lia|].
  destruct Hc as [[E Hall]|(E & j & Hj & Hb)]; [left|right; split; [done|exists j; split; [lia|done]]].
  split; [done|]. intros j Hj. destruct (Z.eq_dec j i) as [->|Hne]; [|apply Hall; lia].
  exists s. split_and!; try done. eapply meets_agree; [|exact H4]. intros x Hx. symmetry. apply Hfr. intros j Hj' Hin.
  pose proof (ri_apart R) as Ha. rewrite Forall_forall in Ha. specialize (Ha i). rewrite elem_of_seqZ in Ha. specialize (Ha ltac:(lia)).
  rewrite Forall_forall in Ha. specialize (Ha j). rewrite elem_of_seqZ in Ha. specialize (Ha ltac:(lia)). unfold in_field in Hin. lia.
Qed.
End Loop.

