(* ===== verification/ModuleLayout.v ===== *)
(** * Kernel modules: layout of the sections

    The sections that take up memory are placed one after another, each
    aligned, and filled from the file or with zeros.  [lay_end] is the
    layout in plain integers; with a total below 2^63 the code computes
    exactly it. *)

From Stdlib Require Import ZArith Lia Bool String.
From stdpp Require Import base list gmap strings.
From S2P Require Import Prelude Mem Str Frames PageTable KPages Elf Krsym Module ModuleReloc.

(** The next multiple of [a] from [x] on. *)
Definition round_up (x a : Z) : Z := x + a - 1 - (x + a - 1) mod a.

Lemma round_up_spec x a : 0 < a -> x <= round_up x a < x + a /\ round_up x a mod a = 0.
Proof.
  intros Ha. unfold round_up. pose proof (Z.mod_pos_bound (x + a - 1) a Ha). split; [lia|].
  rewrite Zminus_mod_idemp_r, Z.sub_diag. apply Z.mod_0_l. lia.
Qed.

Lemma align_to_spec x k : 0 <= x < 2 ^ 63 -> 0 <= k <= 63 -> align_to x (2 ^ k) = round_up x (2 ^ k).
Proof.
  intros Hx Hk. assert (0 < 2 ^ k) by lia. assert (2 ^ k <= 2 ^ 63) by (apply Z.pow_le_mono_r; lia).
  unfold align_to, round_up. rewrite u64_id by (unfold is_u64; lia). apply land_mask_pow2; [unfold is_u64; lia|done].
Qed.

(** A power of two that a 64-bit field can hold. *)
Definition pow2 (a : Z) : Prop := Exists (fun k => a = 2 ^ k) (seqZ 0 64).

Lemma pow2_spec a : pow2 a -> exists k, 0 <= k <= 63 /\ a = 2 ^ k.
Proof. intros H. apply Exists_exists in H as (k & Hk & ->). apply elem_of_seqZ in Hk. exists k. split; [lia|done]. Qed.

Section Layout.
Context (m : mem) (raw shdrs shnum base : Z).

Definition hdr (i : Z) : Elf64_Shdr := shdr_at m shdrs i.

(** The end of the first [k] sections. *)
Definition lay_end (k : Z) : Z :=
  zfor 0 k (fun i off => if is_alloc (hdr i) then round_up off (sec_align (hdr i)) + sh_size (hdr i) else off) 0.

(** The offset of section [i]. *)
Definition lay_at (i : Z) : Z := round_up (lay_end i) (sec_align (hdr i)).

(** The section headers and what is to be copied lie below the module area,
    the alignments are powers of two, and all of it fits in memory. *)
Record layout_file : Prop := {
  li_hdrs : 0 <= shdrs /\ 0 <= shnum /\ shdrs + shnum * 64 <= MODULE_BASE_VADDR;
  li_secs : Forall (fun i => is_alloc (hdr i) = true -> pow2 (sec_align (hdr i)) /\
    (sh_type (hdr i) <> SHT_NOBITS -> u64 (raw + sh_offset (hdr i)) + sh_size (hdr i) <= MODULE_BASE_VADDR)) (seqZ 0 shnum);
  li_total : lay_end shnum < 2 ^ 63
}.

(** With pages for it. *)
Record layout_input : Prop := {
  li_file : layout_file;
  li_base : MODULE_BASE_VADDR <= base /\ base + lay_end shnum < 2 ^ 64
}.

Lemma size_nonneg i : 0 <= sh_size (hdr i).
Proof. unfold hdr, shdr_at, get_shdr. cbn [sh_size]. apply rd64_range. Qed.

Lemma lay_end_0 : lay_end 0 = 0.
Proof. apply zfor_empty. lia. Qed.

Lemma lay_end_step k : 0 <= k -> lay_end (k + 1) = if is_alloc (hdr k) then lay_at k + sh_size (hdr k) else lay_end k.
Proof. intros Hk. unfold lay_end. rewrite zfor_snoc by lia. done. Qed.

Context (F : layout_file).

Lemma sec_pow2 i : 0 <= i < shnum -> is_alloc (hdr i) = true -> pow2 (sec_align (hdr i)).
Proof. intros Hi Ha. pose proof (li_secs F) as H. rewrite Forall_forall in H. apply H; [apply elem_of_seqZ; lia|done]. Qed.

Lemma align_pos i : 0 <= i < shnum -> is_alloc (hdr i) = true -> 0 < sec_align (hdr i).
Proof. intros Hi Ha. destruct (pow2_spec _ (sec_pow2 i Hi Ha)) as (k & Hk & ->). lia. Qed.

Lemma lay_at_ge i : 0 <= i < shnum -> is_alloc (hdr i) = true -> lay_end i <= lay_at i.
Proof. intros Hi Ha. apply round_up_spec. by apply align_pos. Qed.

Lemma lay_end_mono i : forall j, 0 <= i <= j -> j <= shnum -> 0 <= lay_end i <= lay_end j.
Proof.
  assert (Hm : forall j, 0 <= j -> j <= shnum -> 0 <= lay_end j /\ forall k, 0 <= k <= j -> lay_end k <= lay_end j).
  { intros j Hj. pattern j. apply natlike_ind; [rewrite lay_end_0; intros _; split; [lia|]; intros k Hk; replace k with 0 by lia; rewrite lay_end_0; lia| |done].
    intros x Hx IH Hs. destruct (IH ltac:(lia)) as [I0 I1]. rewrite <- Z.add_1_r.
    assert (Hst : lay_end x <= lay_end (x + 1)).
    { rewrite lay_end_step by done. destruct (is_alloc (hdr x)) eqn:Ea; [|lia]. pose proof (lay_at_ge x ltac:(lia) Ea). pose proof (size_nonneg x). lia. }
    split; [lia|]. intros k Hk. destruct (Z.eq_dec k (x + 1)) as [->|]; [lia|]. specialize (I1 k ltac:(lia)). lia. }
  intros j Hij Hj. destruct (Hm i ltac:(lia) ltac:(lia)). destruct (Hm j ltac:(lia) Hj) as [_ Hle]. split; [done|]. apply Hle. lia.
Qed.

(** Section [i] lies between the end of those before it and the total. *)
Lemma lay_at_bounds i : 0 <= i < shnum -> is_alloc (hdr i) = true ->
  0 <= lay_end i <= lay_at i /\ lay_at i + sh_size (hdr i) = lay_end (i + 1) /\ lay_end (i + 1) <= lay_end shnum.
Proof.
  intros Hi Ha. pose proof (lay_end_mono i i ltac:(lia) ltac:(lia)). pose proof (lay_at_ge i Hi Ha).
  pose proof (lay_end_mono (i + 1) shnum ltac:(lia) ltac:(lia)). rewrite lay_end_step, Ha in * by lia. lia.
Qed.

Lemma align_to_lay i : 0 <= i < shnum -> is_alloc (hdr i) = true -> align_to (lay_end i) (sec_align (hdr i)) = lay_at i.
Proof.
  intros Hi Ha. destruct (pow2_spec _ (sec_pow2 i Hi Ha)) as (k & Hk & E). unfold lay_at. rewrite E. apply align_to_spec; [|done].
  pose proof (lay_end_mono i shnum ltac:(lia) ltac:(lia)). pose proof (li_total F). lia.
Qed.

(** The size the code computes is the exact one. *)
Lemma layout_size_spec : layout_size m shdrs shnum = lay_end shnum.
Proof.
  unfold layout_size. apply (zfor_ind (fun k total => total = lay_end k)); [apply (li_hdrs F)|by rewrite lay_end_0|].
  intros i total Hi ->. fold (hdr i). rewrite lay_end_step by lia. destruct (is_alloc (hdr i)) eqn:Ea; [|done].
  rewrite align_to_lay by done. pose proof (lay_at_bounds i Hi Ea). pose proof (li_total F). pose proof (size_nonneg i).
  apply u64_id. unfold is_u64. lia.
Qed.

(** What is to be in memory of section [i] once it is placed. *)
Definition sec_contents (m' : mem) (i : Z) : Prop :=
  forall x, 0 <= x < sh_size (hdr i) -> rd8 m' (base + lay_at i + x) =
    if sh_type (hdr i) =? SHT_NOBITS then 0 else rd8 m (u64 (raw + sh_offset (hdr i)) + x).

Definition placed (i : Z) : ModuleSection :=
  if is_alloc (hdr i) then mkSec (base + lay_at i) (sh_size (hdr i)) (sh_flags (hdr i)) else mkSec 0 0 0.

Record loaded (k : Z) (st : mem * list ModuleSection * Z) : Prop := {
  ld_off : st.2 = lay_end k;
  ld_secs : st.1.2 = map placed (seqZ 0 k) ++ replicate (Z.to_nat (shnum - k)) (mkSec 0 0 0);
  ld_frame : forall x, ~ base <= x < base + lay_end k -> rd8 st.1.1 x = rd8 m x;
  ld_contents : forall i, 0 <= i < k -> is_alloc (hdr i) = true -> sec_contents st.1.1 i
}.

Lemma hdr_low m' i : low m m' -> 0 <= i < shnum -> shdr_at m' shdrs i = hdr i.
Proof.
  intros Hl Hi. unfold hdr, shdr_at, sizeof_Shdr. pose proof (li_hdrs F) as Hh. unfold MODULE_BASE_VADDR in *.
  rewrite u64_id by (unfold is_u64; lia). symmetry. apply get_shdr_agree, low_agree; [done|unfold MODULE_BASE_VADDR; lia].
Qed.

Context (B : MODULE_BASE_VADDR <= base /\ base + lay_end shnum < 2 ^ 64).

Lemma load_sections_low m' k : k <= shnum -> 0 <= k -> (forall x, ~ base <= x < base + lay_end k -> rd8 m' x = rd8 m x) -> low m m'.
Proof. intros Hk Hk0 H x Hx. symmetry. apply H. pose proof B. lia. Qed.

(** The bytes of one section. *)
Definition section_image (m1 : mem) (i : Z) : mem :=
  if sh_type (hdr i) =? SHT_NOBITS then (memset m1 (base + lay_at i) 0 (sh_size (hdr i))).1
  else (memcpy m1 (base + lay_at i) (u64 (raw + sh_offset (hdr i))) (sh_size (hdr i))).1.

Lemma section_image_ok m1 i : low m m1 -> 0 <= i < shnum -> is_alloc (hdr i) = true ->
  sec_contents (section_image m1 i) i /\
  forall x, ~ base + lay_at i <= x < base + lay_at i + sh_size (hdr i) -> rd8 (section_image m1 i) x = rd8 m1 x.
Proof.
  intros Hl Hi Ha. pose proof (size_nonneg i) as Hs. pose proof (lay_at_bounds i Hi Ha) as Hb. pose proof B as HB.
  unfold section_image, sec_contents. destruct (Z.eqb_spec (sh_type (hdr i)) SHT_NOBITS) as [|Hn].
  - pose proof (memset_filled m1 (base + lay_at i) 0 (sh_size (hdr i)) Hs) as Hf.
    split; intros x Hx; rewrite Hf; bsplit; done || lia.
  - pose proof (li_secs F) as Hsec. rewrite Forall_forall in Hsec. specialize (Hsec i). rewrite elem_of_seqZ in Hsec.
    destruct (Hsec ltac:(lia) Ha) as [_ Hsrc]. specialize (Hsrc Hn).
    pose proof (memcpy_copied m1 (base + lay_at i) (u64 (raw + sh_offset (hdr i))) (sh_size (hdr i)) Hs) as Hc.
    specialize (Hc ltac:(right; lia)). split; intros x Hx; rewrite Hc; [|bsplit; done || lia].
    destruct (Z.leb_spec (base + lay_at i) (base + lay_at i + x)); [|lia].
    destruct (Z.ltb_spec (base + lay_at i + x) (base + lay_at i + sh_size (hdr i))); [|lia]. cbn [andb].
    replace (base + lay_at i + x - (base + lay_at i)) with x by lia. symmetry. apply Hl. lia.
Qed.

Lemma placed_snoc k : 0 <= k < shnum ->
  map placed (seqZ 0 (k + 1)) ++ replicate (Z.to_nat (shnum - (k + 1))) (mkSec 0 0 0) =
  <[Z.to_nat k := placed k]> (map placed (seqZ 0 k) ++ replicate (Z.to_nat (shnum - k)) (mkSec 0 0 0)).
Proof.
  intros Hk. replace (Z.to_nat (shnum - k)) with (Datatypes.S (Z.to_nat (shnum - (k + 1)))) by lia. cbn [replicate].
  rewrite insert_app_r_alt by (rewrite length_map, length_seqZ; lia). rewrite length_map, length_seqZ, Nat.sub_diag. cbn [list_insert insert].
  rewrite seqZ_app by lia. rewrite map_app. simpl. by rewrite <- app_assoc.
Qed.

Lemma place_section_ok k st : 0 <= k < shnum -> loaded k st -> loaded (k + 1) (place_section raw shdrs base k st).
Proof.
  intros Hk [Ho Hs Hf Hc]. destruct st as [[m1 secs] off]. cbn [fst snd] in *. subst off secs.
  assert (Hl : low m m1) by (apply (load_sections_low m1 k); [lia|lia|done]).
  unfold place_section. rewrite (hdr_low m1 k Hl Hk). destruct (is_alloc (hdr k)) eqn:Ea.
  - rewrite align_to_lay by done. pose proof (lay_at_bounds k Hk Ea) as Hb. pose proof B as HB. pose proof (li_total F) as HT. pose proof (size_nonneg k) as Hz.
    unfold MODULE_BASE_VADDR in HB.
    assert (E1 : u64 (lay_at k + sh_size (hdr k)) = lay_end (k + 1)) by (rewrite (proj1 (proj2 Hb)); apply u64_id; unfold is_u64; lia).
    rewrite (u64_id (base + lay_at k)) by (unfold is_u64; lia). rewrite E1.
    fold (section_image m1 k). destruct (section_image_ok m1 k Hl Hk Ea) as [Hi Hfr]. constructor; cbn [fst snd].
    + done.
    + rewrite placed_snoc by done. f_equal. unfold placed. by rewrite Ea.
    + intros x Hx. rewrite Hfr by lia. apply Hf. lia.
    + intros i Hi0 Hai. destruct (Z.eq_dec i k) as [->|Hne]; [done|]. intros x Hx.
      pose proof (lay_at_bounds i ltac:(lia) Hai) as Hbi. pose proof (lay_end_mono (i + 1) k ltac:(lia) ltac:(lia)).
      rewrite Hfr by lia. apply Hc; [lia|done|done].
  - constructor; cbn [fst snd].
    + rewrite lay_end_step, Ea by lia. done.
    + rewrite placed_snoc by done. symmetry. apply list_insert_id. unfold placed at 2. rewrite Ea.
      rewrite lookup_app_r by (rewrite length_map, length_seqZ; lia). rewrite length_map, length_seqZ. apply lookup_replicate_2. lia.
    + rewrite lay_end_step, Ea by lia. done.
    + intros i Hi0 Hai. destruct (Z.eq_dec i k) as [->|Hne]; [congruence|]. apply Hc; [lia|done].
Qed.

Lemma load_sections_ok : exists m' secs, load_sections m raw shdrs shnum base = (m', secs) /\
  secs = map placed (seqZ 0 shnum) /\ (forall x, ~ base <= x < base + lay_end shnum -> rd8 m' x = rd8 m x) /\
  forall i, 0 <= i < shnum -> is_alloc (hdr i) = true -> sec_contents m' i.
Proof.
  unfold load_sections.
  assert (L : loaded shnum (zfor 0 shnum (place_section raw shdrs base) (m, replicate (Z.to_nat shnum) (mkSec 0 0 0), 0))).
  { apply (zfor_ind loaded); [apply (li_hdrs F)| |intros i st Hi; apply place_section_ok; lia]. constructor; cbn [fst snd]; [by rewrite lay_end_0| |done|intros; lia].
    rewrite Z.sub_0_r, seqZ_nil by lia. done. }
  destruct L as [_ Hs Hf Hc]. destruct (zfor _ _ _ _) as [[m' secs] off]. cbn [fst snd] in *. exists m', secs.
  split; [done|]. rewrite Z.sub_diag, app_nil_r in Hs. done.
Qed.
End Layout.

(** The sections of a module that take up memory are laid out one after
    another from the start of its pages: each at the multiple of its
    alignment that follows the one before, inside of the size computed
    beforehand; each holds the bytes of the file, or zeros, and no byte
    outside of the module's pages changes. *)
Theorem load_sections_correct m raw shdrs shnum base : layout_input m raw shdrs shnum base ->
  exists m' secs, load_sections m raw shdrs shnum base = (m', secs) /\ length secs = Z.to_nat shnum /\
    (forall x, ~ base <= x < base + layout_size m shdrs shnum -> rd8 m' x = rd8 m x) /\
    forall i, 0 <= i < shnum -> is_alloc (hdr m shdrs i) = true -> exists s,
      secs !! Z.to_nat i = Some s /\ sec_size s = sh_size (hdr m shdrs i) /\ sec_flags s = sh_flags (hdr m shdrs i) /\
      (sec_addr s - base) mod sec_align (hdr m shdrs i) = 0 /\ base <= sec_addr s /\
      sec_addr s + sec_size s <= base + layout_size m shdrs shnum /\
      (forall j t, i < j < shnum -> is_alloc (hdr m shdrs j) = true -> secs !! Z.to_nat j = Some t -> sec_addr s + sec_size s <= sec_addr t) /\
      forall x, 0 <= x < sec_size s -> rd8 m' (sec_addr s + x) =
        if sh_type (hdr m shdrs i) =? SHT_NOBITS then 0 else rd8 m (u64 (raw + sh_offset (hdr m shdrs i)) + x).
Proof.
  intros [F B]. destruct (load_sections_ok m raw shdrs shnum base F B) as (m' & secs & E & -> & Hf & Hc).
  rewrite (layout_size_spec m raw shdrs shnum F). eexists _, _. split; [exact E|]. split; [by rewrite length_map, length_seqZ|]. split; [done|].
  assert (Hp : forall i, 0 <= i < shnum -> map (placed m shdrs base) (seqZ 0 shnum) !! Z.to_nat i = Some (placed m shdrs base i)).
  { intros i Hi. change (map ?f ?l) with (f <$> l). rewrite list_lookup_fmap, lookup_seqZ_lt by lia. cbn [fmap option_fmap option_map]. do 2 f_equal. lia. }
  intros i Hi Ha. assert (Ei : placed m shdrs base i = mkSec (base + lay_at m shdrs i) (sh_size (hdr m shdrs i)) (sh_flags (hdr m shdrs i))) by (unfold placed; by rewrite Ha).
  eexists. split; [rewrite Hp by done; by rewrite Ei|]. cbn [sec_addr sec_size sec_flags].
  pose proof (lay_at_bounds m raw shdrs shnum F i Hi Ha) as Hb.
  split_and!; try done; try lia.
  - replace (base + lay_at m shdrs i - base) with (lay_at m shdrs i) by lia. apply round_up_spec. by apply (align_pos m raw shdrs shnum F).
  - intros j t Hj Haj Ht. rewrite Hp in Ht by lia. simplify_eq. unfold placed. rewrite Haj. cbn [sec_addr].
    pose proof (lay_at_bounds m raw shdrs shnum F j ltac:(lia) Haj). pose proof (lay_end_mono m raw shdrs shnum F (i + 1) j ltac:(lia) ltac:(lia)). lia.
  - intros x Hx. by apply Hc.
Qed.
