(* ===== verification/ModuleLink.v ===== *)
(** * Linking of modules and their free ranges

    Symbol tables and resolution of modules/module.c, and its list of free
    address ranges. *)

From Stdlib Require Import ZArith Lia Bool String.
From stdpp Require Import base list gmap strings.
From S2P Require Import Prelude Mem Str Frames PageTable KPages Elf Krsym Module ModuleReloc ModuleLayout.

(** ** Kernel modules: linking

    On a file whose tables name sections of the file and whose relocations
    lie inside of their sections, linking always returns and writes only to
    the module's pages. *)

(** ** Linking writes only to the module's pages *)

Lemma rela_loop_region tab ksyms secs shnum symtab sym_count strtab m0 target relas n lo hi k : forall m i,
  0 <= relas -> relas + n * 24 <= MODULE_BASE_VADDR -> MODULE_BASE_VADDR <= lo ->
  (forall j, 0 <= j < n -> lo <= ent_place m0 target relas j /\ ent_place m0 target relas j + 8 <= hi) ->
  low m0 m -> n = i + Z.of_nat k -> 0 <= i ->
  forall x, ~ lo <= x < hi -> rd8 (rela_loop tab ksyms secs shnum symtab sym_count strtab k m target relas i).1 x = rd8 m x.
Proof.
  induction k as [|k IH]; intros m i H0 H1 Hlo Hp Hl Hn Hi x Hx; simpl rela_loop; [done|].
  rewrite <- (rela_at_low m0 m relas i n Hl) by (done || lia).
  destruct (rela_step _ _ _ _ _ _ _ _ _ _) as [m1|] eqn:Es; [|done].
  assert (Hfr : forall y, ~ lo <= y < hi -> rd8 m1 y = rd8 m y).
  { unfold rela_step in Es. destruct (_ <=? _); [done|]. destruct (symbol_value _ _ _ _ _ _ _) as [v|]; [|done]. cbn [mbind option_bind] in Es.
    apply apply_rela_ok in Es as (_ & _ & Hfr). intros y Hy. apply Hfr. destruct (Hp i ltac:(lia)) as [P1 P2].
    unfold ent_place, ent in P1, P2. unfold field_width. bsplit; lia. }
  rewrite (IH m1 (i + 1)); try done; try lia; [by apply Hfr|]. apply (low_trans _ m); [done|]. intros y Hy. symmetry. apply Hfr. lia.
Qed.

Lemma find_symtab_pos m raw shdrs n : forall i, let r := find_symtab n m raw shdrs i in 0 <= r.1.1 /\ 0 <= r.1.2.
Proof.
  induction n as [|n IH]; intros i; cbn [find_symtab]; [done|]. destruct (_ =? _); [|apply IH]. cbn [fst snd]. split; [apply u64_range|].
  apply Z.div_pos; [apply size_nonneg|done].
Qed.

Section Link.
Context (m : mem) (raw shdrs shnum base : Z).
Abbreviation SH i := (hdr m shdrs i).

(** Relocation sections name a section of the file, and the entries for a
    section in memory lie inside of it. *)
Definition rela_file (i : Z) : Prop :=
  let s := SH i in let n := sh_size s / sizeof_Rela in let relas := u64 (raw + sh_offset s) in
  sh_type s = SHT_RELA -> sh_info s < shnum /\ relas + n * 24 <= MODULE_BASE_VADDR /\
  (is_alloc (SH (sh_info s)) = true -> Forall (fun j => r_offset (rela_at m relas j) + 8 <= sh_size (SH (sh_info s))) (seqZ 0 n)).

Definition is_entry_name (sname : Z) : bool :=
  (strcmp_lit (text "driver_init") m sname =? 0) || (strcmp_lit (text "driver_exit") m sname =? 0).

(** The names of the symbols are low, and the entry points are defined in a
    section of the file. *)
Definition sym_file (symtab strtab j : Z) : Prop :=
  let sym := sym_at m symtab j in let sname := u64 (strtab + st_name sym) in
  sname + 64 <= MODULE_BASE_VADDR /\ (is_entry_name sname = true -> st_shndx sym < shnum).

Record file_ok : Prop := {
  fo_layout : layout_file m raw shdrs shnum;
  fo_rela : Forall rela_file (seqZ 0 shnum);
  fo_link : Forall (fun i => sh_type (SH i) = SHT_SYMTAB -> sh_link (SH i) < shnum) (seqZ 0 shnum);
  fo_syms : let '(symtab, count, strtab) := find_symtab (Z.to_nat shnum) m raw shdrs 0 in
    symtab + count * 24 <= MODULE_BASE_VADDR /\ Forall (sym_file symtab strtab) (seqZ 0 count)
}.

Context (F : file_ok) (B : MODULE_BASE_VADDR <= base /\ base + lay_end m shdrs shnum < 2 ^ 64).
Abbreviation secs := (map (placed m shdrs base) (seqZ 0 shnum)).
Definition in_module (x : Z) : Prop := base <= x < base + lay_end m shdrs shnum.

Lemma sec_at i : 0 <= i < shnum -> secs !! Z.to_nat i = Some (placed m shdrs base i).
Proof. intros Hi. change (map ?f ?l) with (f <$> l). rewrite list_lookup_fmap, lookup_seqZ_lt by lia. cbn [fmap option_fmap option_map]. do 2 f_equal. lia. Qed.

Lemma frame_low m1 : (forall x, ~ in_module x -> rd8 m1 x = rd8 m x) -> low m m1.
Proof. intros Hf x Hx. symmetry. apply Hf. unfold in_module. lia. Qed.

Lemma find_symtab_low m1 n : forall i, low m m1 -> 0 <= i -> i + Z.of_nat n = shnum ->
  find_symtab n m1 raw shdrs i = find_symtab n m raw shdrs i.
Proof.
  induction n as [|n IH]; intros i Hl Hi Hn; [done|]. cbn [find_symtab]. pose proof (hdr_low m raw shdrs shnum (fo_layout F)) as Hh.
  rewrite (Hh m1 i Hl) by lia. fold (SH i). destruct (Z.eqb_spec (sh_type (SH i)) SHT_SYMTAB) as [E|_]; [|apply IH; done || lia].
  pose proof (fo_link F) as Hk. rewrite Forall_forall in Hk. specialize (Hk i). rewrite elem_of_seqZ in Hk. specialize (Hk ltac:(lia) E).
  rewrite (Hh m1 (sh_link (SH i)) Hl); [done|]. split; [|done]. unfold hdr, shdr_at, get_shdr. cbn [sh_link]. apply (rd_range 4).
Qed.

Lemma apply_relocations_region tab ksyms symtab sym_count strtab m1 i : (forall x, ~ in_module x -> rd8 m1 x = rd8 m x) ->
  0 <= i < shnum -> sh_type (SH i) = SHT_RELA ->
  exists m2 ok, apply_relocations tab ksyms secs shnum symtab sym_count strtab m1 raw shdrs i = Some (m2, ok) /\
    forall x, ~ in_module x -> rd8 m2 x = rd8 m x.
Proof.
  intros Hf Hi Et. pose proof (frame_low m1 Hf) as Hl. unfold apply_relocations.
  rewrite (hdr_low m raw shdrs shnum (fo_layout F) m1 i Hl Hi).
  pose proof (fo_rela F) as Hr. rewrite Forall_forall in Hr. specialize (Hr i). rewrite elem_of_seqZ in Hr. destruct (Hr ltac:(lia) Et) as (R1 & R2 & R3).
  assert (R0 : 0 <= sh_info (SH i)) by (unfold hdr, shdr_at, get_shdr; cbn [sh_info]; apply (rd_range 4)).
  rewrite sec_at by lia. cbn [mbind option_bind]. unfold placed. destruct (is_alloc (SH (sh_info (SH i)))) eqn:Ea; cbn [sec_addr]; [|by exists m1, true].
  pose proof (lay_at_bounds m raw shdrs shnum (fo_layout F) (sh_info (SH i)) ltac:(lia) Ea) as Hb. unfold MODULE_BASE_VADDR in B.
  destruct (Z.eqb_spec (base + lay_at m shdrs (sh_info (SH i))) 0) as [|_]; [lia|].
  specialize (R3 eq_refl). rewrite Forall_forall in R3.
  set (n := sh_size (SH i) / sizeof_Rela) in *. set (relas := u64 (raw + sh_offset (SH i))) in *.
  assert (Hn : 0 <= n) by (unfold n, sizeof_Rela; apply Z.div_pos; [apply size_nonneg|lia]).
  destruct (rela_loop _ _ _ _ _ _ _ _ _ _ _ _) as [m2 ok] eqn:El. exists m2, ok. split; [done|]. intros x Hx.
  rewrite <- (Hf x Hx). change m2 with (m2, ok).1. rewrite <- El.
  apply (rela_loop_region tab ksyms secs shnum symtab sym_count strtab m _ relas n base (base + lay_end m shdrs shnum)); try done; try lia.
  - apply u64_range.
  - apply B.
  - intros j Hj. unfold ent_place, ent. specialize (R3 j). rewrite elem_of_seqZ in R3. specialize (R3 ltac:(lia)).
    assert (0 <= r_offset (rela_at m relas j)) by (unfold rela_at, get_rela; cbn [r_offset]; apply rd64_range).
    rewrite u64_id by (unfold is_u64; lia). lia.
Qed.

Lemma relocate_region tab ksyms symtab sym_count strtab n : forall m1 i, (forall x, ~ in_module x -> rd8 m1 x = rd8 m x) ->
  0 <= i -> i + Z.of_nat n = shnum ->
  exists m2 ok, relocate_sections tab ksyms secs shnum symtab sym_count strtab n m1 raw shdrs i = Some (m2, ok) /\
    forall x, ~ in_module x -> rd8 m2 x = rd8 m x.
Proof.
  induction n as [|n IH]; intros m1 i Hf Hi Hn; cbn [relocate_sections]; [by exists m1, true|].
  rewrite (hdr_low m raw shdrs shnum (fo_layout F) m1 i (frame_low m1 Hf)) by lia.
  destruct (Z.eqb_spec (sh_type (SH i)) SHT_RELA) as [Et|_]; [|apply IH; done || lia].
  destruct (apply_relocations_region tab ksyms symtab sym_count strtab m1 i Hf ltac:(lia) Et) as (m2 & [] & -> & Hf2); cbn [mbind option_bind].
  - apply IH; done || lia.
  - by exists m2, false.
Qed.

Lemma entry_points_total m1 symtab strtab count n : low m m1 -> 0 <= symtab -> symtab + count * 24 <= MODULE_BASE_VADDR ->
  Forall (sym_file symtab strtab) (seqZ 0 count) ->
  forall i fns, 0 <= i -> i + Z.of_nat n = count -> is_Some (find_entry_points secs symtab strtab n m1 i fns).
Proof.
  intros Hl H0 H1 Hs. induction n as [|n IH]; intros i fns Hi Hn; cbn [find_entry_points]; [done|].
  rewrite <- (sym_at_low m m1 symtab i count Hl) by (done || lia).
  rewrite Forall_forall in Hs. specialize (Hs i). rewrite elem_of_seqZ in Hs. destruct (Hs ltac:(lia)) as [S1 S2].
  assert (Hx : 0 <= st_shndx (sym_at m symtab i)) by (unfold sym_at, get_sym; cbn [st_shndx]; apply (rd_range 2)).
  set (sname := u64 (strtab + st_name (sym_at m symtab i))) in *. unfold is_entry_name in S2.
  rewrite <- !(strcmp_lit_agree m m1) by (apply low_agree; [done|simpl; lia]).
  destruct (strcmp_lit (text "driver_init") m sname =? 0); [rewrite sec_at by (split; [done|by apply S2]); cbn [mbind option_bind]; apply IH; lia|].
  destruct (strcmp_lit (text "driver_exit") m sname =? 0); [rewrite sec_at by (split; [done|by apply S2]); cbn [mbind option_bind]; apply IH; lia|].
  apply IH; lia.
Qed.

(** Linking returns. *)
Lemma link_module_total tab ksyms m1 : (forall x, ~ in_module x -> rd8 m1 x = rd8 m x) ->
  exists m2 fns, link_module tab ksyms m1 raw shdrs shnum secs = Some (m2, fns) /\ (forall x, ~ in_module x -> rd8 m2 x = rd8 m x) /\
    forall f e, fns = Some (f, e) -> f <> 0.
Proof.
  intros Hf. pose proof (li_hdrs _ _ _ _ (fo_layout F)) as Hh. unfold link_module. rewrite find_symtab_low by (done || lia || by apply frame_low).
  pose proof (fo_syms F) as Hs. destruct (find_symtab (Z.to_nat shnum) m raw shdrs 0) as [[symtab count] strtab] eqn:Ef. destruct Hs as [S1 S2].
  destruct ((symtab =? 0) || (strtab =? 0)); [by exists m1, None|].
  destruct (relocate_region tab ksyms symtab count strtab (Z.to_nat shnum) m1 0 Hf ltac:(lia) ltac:(lia)) as (m2 & ok & -> & Hf2).
  cbn [mbind option_bind]. destruct ok; cbn [negb]; [|by exists m2, None].
  assert (Hpos : 0 <= symtab /\ 0 <= count).
  { pose proof (find_symtab_pos m raw shdrs (Z.to_nat shnum) 0) as Hp. rewrite Ef in Hp. done. }
  destruct (entry_points_total m2 symtab strtab count (Z.to_nat count) (frame_low m2 Hf2) ltac:(lia) S1 S2 0 (0, 0) ltac:(lia) ltac:(lia)) as [[f e] ->].
  cbn [mbind option_bind]. exists m2, (if f =? 0 then None else Some (f, e)). split; [done|]. split; [done|].
  intros f' e' E. destruct (Z.eqb_spec f 0); [done|]. by simplify_eq.
Qed.
End Link.

(** ** Kernel modules: the list of free address ranges

    The list is ordered and its ranges do not overlap; inserting, merging
    and taking act on the set of free addresses. *)

(** The addresses of a range, and of a list of them. *)
Definition rcov (r : Z * Z) (x : Z) : Prop := r.1 <= x < r.1 + r.2 * 4096.
Definition covers (l : list (Z * Z)) (x : Z) : Prop := Exists (fun r => rcov r x) l.

(** Ordered, not empty, page aligned, between [lo] and [hi]. *)
Fixpoint ranges_ok (lo hi : Z) (l : list (Z * Z)) : Prop :=
  match l with
  | [] => lo <= hi
  | (a, c) :: r => lo <= a /\ a mod 4096 = 0 /\ 0 < c /\ ranges_ok (a + c * 4096) hi r
  end.

Lemma covers_cons r l x : covers (r :: l) x <-> rcov r x \/ covers l x.
Proof. apply Exists_cons. Qed.

Lemma covers_nil x : ~ covers [] x.
Proof. intros H. by apply Exists_nil in H. Qed.

Lemma ranges_ok_le lo hi l : ranges_ok lo hi l -> lo <= hi.
Proof. revert lo. induction l as [|[a c] l IH]; intros lo H; [done|]. destruct H as (H1 & _ & H2 & H3). apply IH in H3. lia. Qed.

Lemma ranges_ok_weaken lo lo' hi hi' l : ranges_ok lo hi l -> lo' <= lo -> hi <= hi' -> ranges_ok lo' hi' l.
Proof.
  revert lo lo'. induction l as [|[a c] l IH]; intros lo lo' H H1 H2; simpl in *; [lia|].
  destruct H as (Ha & Hm & Hc & Hr). split_and!; [lia|done|done|]. by apply (IH _ _ Hr).
Qed.

Lemma ranges_ok_bounds lo hi l x : ranges_ok lo hi l -> covers l x -> lo <= x < hi.
Proof.
  revert lo. induction l as [|[a c] l IH]; intros lo H Hx; [by apply covers_nil in Hx|].
  destruct H as (H1 & _ & H2 & H3). apply covers_cons in Hx as [Hx|Hx].
  - unfold rcov in Hx. simpl in Hx. apply ranges_ok_le in H3. lia.
  - specialize (IH _ H3 Hx). lia.
Qed.

Lemma insert_range_ok lo hi l v c : ranges_ok lo hi l -> lo <= v -> v mod 4096 = 0 -> 0 < c -> v + c * 4096 <= hi ->
  (forall x, covers l x -> ~ rcov (v, c) x) ->
  ranges_ok lo hi (insert_range l v c) /\ forall x, covers (insert_range l v c) x <-> rcov (v, c) x \/ covers l x.
Proof.
  revert lo. induction l as [|[a k] l IH]; intros lo H Hv Hm Hc Hh Hd; simpl.
  { split; [by split_and!|]. intros x. rewrite covers_cons. done. }
  destruct H as (H1 & H2 & H3 & H4). destruct (Z.ltb_spec a v) as [Hlt|Hge].
  - assert (Hak : a + k * 4096 <= v).
    { destruct (Z.le_gt_cases (a + k * 4096) v); [done|]. exfalso. apply (Hd v); [|unfold rcov; simpl; lia].
      apply covers_cons. left. unfold rcov. simpl. lia. }
    destruct (IH (a + k * 4096) H4 Hak Hm Hc Hh) as [I1 I2].
    { intros x Hx. apply Hd. apply covers_cons. by right. }
    split; [by split_and!|]. intros x. rewrite !covers_cons, I2. tauto.
  - assert (Hva : v + c * 4096 <= a).
    { destruct (Z.le_gt_cases (v + c * 4096) a); [done|]. exfalso. apply (Hd a); [|unfold rcov; simpl; lia].
      apply covers_cons. left. unfold rcov. simpl. lia. }
    split; [by split_and!|]. intros x. rewrite (covers_cons (v, c)). done.
Qed.

Lemma merge_from_ok hi : hi <= 2 ^ 64 -> forall r lo it, 0 <= lo -> ranges_ok lo hi (it :: r) ->
  ranges_ok lo hi (merge_from it r) /\ (forall x, covers (merge_from it r) x <-> covers (it :: r) x).
Proof.
  intros Hh. induction r as [|[b k] r IH]; intros lo [a c] Hl H; [done|]. destruct H as (H1 & H2 & H3 & H4 & H5 & H6 & H7).
  pose proof (ranges_ok_le _ _ _ H7) as Hle. cbn [merge_from fst snd]. unfold PAGE_SIZE. rewrite u64_id by (unfold is_u64; lia).
  destruct (Z.eqb_spec (a + c * 4096) b) as [<-|Hne].
  - rewrite u64_id by (unfold is_u64; lia). destruct (IH lo (a, c + k)) as [I1 I2]; [done| |].
    { split_and!; [done|done|lia|]. replace (a + (c + k) * 4096) with (a + c * 4096 + k * 4096) by lia. done. }
    split; [done|]. intros x. rewrite I2, !covers_cons. unfold rcov. simpl. intuition lia.
  - destruct (IH (a + c * 4096) (b, k)) as [I1 I2]; [lia|by split_and!|].
    split; [by split_and!|]. intros x. rewrite !(covers_cons (a, c)), I2. done.
Qed.

(** Giving back a range adds exactly its addresses. *)
Lemma recycle_ok ok lo hi l v c : hi <= 2 ^ 64 -> 0 <= lo -> ranges_ok lo hi l -> lo <= v -> v mod 4096 = 0 -> 0 < c -> v + c * 4096 <= hi ->
  (forall x, covers l x -> ~ rcov (v, c) x) ->
  ranges_ok lo hi (recycle_module_range ok l v c) /\
  forall x, covers (recycle_module_range ok l v c) x <-> (ok = true /\ rcov (v, c) x) \/ covers l x.
Proof.
  intros Hh Hl H Hv Hm Hc He Hd. unfold recycle_module_range. destruct ok; cbn [negb]; [|split; [done|]; intros x; intuition congruence].
  destruct (insert_range_ok lo hi l v c H Hv Hm Hc He Hd) as [I1 I2]. unfold merge_nodes.
  destruct (insert_range l v c) as [|it r]; [split; [done|]; intros x; rewrite I2; tauto|].
  destruct (merge_from_ok hi Hh r lo it Hl I1) as [M1 M2]. split; [done|]. intros x. rewrite M2, I2. tauto.
Qed.

(** Taking a range takes exactly its addresses, or fails when no range is
    large enough. *)
Lemma take_range_ok hi l n : hi <= 2 ^ 64 -> 0 < n -> forall lo, 0 < lo -> ranges_ok lo hi l ->
  let r := take_range l n in
  (r = (l, 0) /\ Forall (fun c => c.2 < n) l) \/
  (r.2 <> 0 /\ ranges_ok lo hi r.1 /\ lo <= r.2 /\ r.2 mod 4096 = 0 /\ r.2 + n * 4096 <= hi /\
   (forall x, covers l x <-> rcov (r.2, n) x \/ covers r.1 x) /\ (forall x, covers r.1 x -> ~ rcov (r.2, n) x)).
Proof.
  intros Hh Hn. induction l as [|[a c] l IH]; intros lo Hl H; cbn [take_range]; [by left|].
  destruct H as (H1 & H2 & H3 & H4). pose proof (ranges_ok_le _ _ _ H4) as Hle.
  destruct (Z.eqb_spec c n) as [->|Hne]; [right; cbn [fst snd]; split_and!; try done; try lia|].
  { apply (ranges_ok_weaken (a + n * 4096) lo hi hi); [done|lia|lia]. }
  { intros x. apply covers_cons. }
  { intros x Hx Hr. apply (ranges_ok_bounds _ _ _ _ H4) in Hx. unfold rcov in Hr. simpl in Hr. lia. }
  destruct (Z.ltb_spec n c) as [Hlt|Hge]; [right; cbn [fst snd]; unfold PAGE_SIZE; rewrite u64_id by (unfold is_u64; lia); split_and!; try lia|].
  { split_and!; [lia|rewrite Z.mod_add by lia; done|lia|]. replace (a + n * 4096 + (c - n) * 4096) with (a + c * 4096) by lia. done. }
  { intros x. rewrite !covers_cons. unfold rcov. simpl. intuition lia. }
  { intros x Hx Hr. unfold rcov in Hr. simpl in Hr. apply covers_cons in Hx as [Hx|Hx]; [unfold rcov in Hx; simpl in Hx; lia|].
    apply (ranges_ok_bounds _ _ _ _ H4) in Hx. lia. }
  specialize (IH (a + c * 4096) ltac:(lia) H4). destruct (take_range l n) as [r' b]. cbn [fst snd] in IH |- *.
  destruct IH as [[E IH]|(I0 & I1 & I2 & I3 & I4 & I5 & I6)].
  - left. simplify_eq. split; [done|]. constructor; [simpl; lia|done].
  - right. split_and!; try done; try lia.
    + intros x. rewrite !(covers_cons (a, c)), I5. tauto.
    + intros x Hx Hr. apply covers_cons in Hx as [Hx|Hx]; [|by apply (I6 x)]. unfold rcov in *. simpl in *. lia.
Qed.
