(* ===== verification/ModuleArea.v ===== *)
(** * Kernel modules: their pages

    The module area is the top of the address space.  Every range of it
    below the cursor that a module holds is mapped page by page to frames of
    its own; the free ranges and everything above the cursor are unmapped. *)

From Stdlib Require Import ZArith Lia Bool String.
From stdpp Require Import base list gmap strings.
From S2P Require Import Prelude Dll Mem Str Frames PageTable PtWalk PtOps AddrSpace PageFault KPages Elf Krsym Module ModuleLink.

Section Area.
Context {S : Type} `{FrameAllocator S} `{!FrameAllocatorLaws S}.
Implicit Types (st : Vm S).
Context (root : Z).

(** A range that is held: its start and its frames. *)
Abbreviation held := (Z * list Z)%type.
Definition rng (r : held) : Z * Z := (r.1, Z.of_nat (length r.2)).
Definition rbytes (r : held) : Z * Z := (r.1, Z.of_nat (length r.2) * 4096).

Definition frame_held st (f : Z) : Prop := frame_addr f /\ fa_used (vm_fa st) f /\ not_table (vm_mem st) root f.

Record held_ok st (cursor : Z) (free : list (Z * Z)) (r : held) : Prop := {
  hd_page : r.1 mod 4096 = 0;
  hd_some : r.2 <> [];
  hd_in : MODULE_BASE_VADDR <= r.1 /\ r.1 + Z.of_nat (length r.2) * 4096 <= cursor;
  hd_free : forall x, rcov (rng r) x -> ~ covers free x;
  hd_frames : Forall (frame_held st) r.2;
  hd_map : forall i f, 0 <= i -> r.2 !! Z.to_nat i = Some f ->
    xl (vm_mem st) root (vpath (r.1 + i * 4096)) = Some (leaf_entry f KERNEL_FLAGS, 0%nat)
}.

Record area_ok st (cursor : Z) (free : list (Z * Z)) (R : list held) : Prop := {
  ar_wf : pt_wf st root;
  ar_cursor : MODULE_BASE_VADDR <= cursor < 2 ^ 64 /\ cursor mod 4096 = 0;
  ar_ranges : ranges_ok MODULE_BASE_VADDR cursor free;
  ar_held : Forall (held_ok st cursor free) R;
  ar_apart : apart (map rbytes R);
  ar_nodup : NoDup (concat (map snd R));
  ar_none : forall v, MODULE_BASE_VADDR <= v < 2 ^ 64 -> (forall r, r ∈ R -> ~ rcov (rng r) v) ->
    xl (vm_mem st) root (vpath v) = None
}.

(** Page numbers in the area. *)
Lemma area_vpage v : MODULE_BASE_VADDR <= v < 2 ^ 64 -> vpage v = (v - (2 ^ 64 - 2 ^ 48)) / 4096.
Proof.
  unfold MODULE_BASE_VADDR, vpage. intros Hv. f_equal. symmetry. apply Z.mod_unique with (2 ^ 16 - 1); lia.
Qed.

Lemma area_page_range b n : MODULE_BASE_VADDR <= b -> b mod 4096 = 0 -> 0 <= n -> b + n * 4096 <= 2 ^ 64 -> page_range b n.
Proof.
  unfold MODULE_BASE_VADDR. intros H1 H2 H3 H4. unfold page_range, page_aligned. split_and!; try done; try lia.
  destruct (Z.eq_dec n 0) as [->|]; [pose proof (Z.mod_pos_bound b (2 ^ 48) ltac:(lia)); lia|].
  assert (b mod 2 ^ 48 = b - (2 ^ 64 - 2 ^ 48)) as ->; [|lia]. symmetry. apply Z.mod_unique with (2 ^ 16 - 1); lia.
Qed.

(** A page is in a range if and only if its number is. *)
Lemma area_in_range b n v : MODULE_BASE_VADDR <= b -> b mod 4096 = 0 -> b < 2 ^ 64 -> MODULE_BASE_VADDR <= v < 2 ^ 64 ->
  (vpage b <= vpage v < vpage b + n <-> rcov (b, n) v).
Proof. intros H1 H2 H3 H4. rewrite !area_vpage by lia. unfold rcov. cbn [fst snd]. unfold MODULE_BASE_VADDR in *. divlia. Qed.

Lemma disj_cov r q : 0 < r.2 -> 0 < q.2 -> (forall x, rcov r x -> ~ rcov q x) -> disj (r.1, r.2 * 4096) (q.1, q.2 * 4096).
Proof.
  unfold rcov, disj. cbn [fst snd]. intros Hr Hq Hd. destruct (Z.le_gt_cases r.1 q.1).
  - destruct (Z.le_gt_cases (r.1 + r.2 * 4096) q.1); [by left|]. exfalso. apply (Hd q.1); lia.
  - destruct (Z.le_gt_cases (q.1 + q.2 * 4096) r.1); [by right|]. exfalso. apply (Hd r.1); lia.
Qed.

Lemma held_pos st c free r : held_ok st c free r -> 0 < Z.of_nat (length r.2).
Proof. intros Hh. pose proof (hd_some _ _ _ _ Hh). destruct r.2; [done|simpl; lia]. Qed.

(** Addresses of a range, by page number. *)
Lemma page_of_range b n v : MODULE_BASE_VADDR <= b -> b mod 4096 = 0 -> b + n * 4096 <= 2 ^ 64 -> is_u64 v ->
  vpage b <= vpage v < vpage b + n -> exists w, MODULE_BASE_VADDR <= w < 2 ^ 64 /\ rcov (b, n) w /\ vpath v = vpath w.
Proof.
  intros H1 H2 H3 Hv Hp. pose proof (area_page_range b n H1 H2 ltac:(lia) H3) as Hr.
  destruct (page_range_at b n (vpage v - vpage b) Hr ltac:(lia)) as (Hu & Hvp & _).
  exists (b + (vpage v - vpage b) * 4096). unfold is_u64 in *. split; [lia|]. split; [unfold rcov; cbn [fst snd]; lia|].
  apply vpath_vpage; [done|done|lia].
Qed.

(** A held range under a step that keeps its frames and its pages. *)
Lemma held_ok_step st st' c c' free free' r : held_ok st c free r -> c <= c' -> c' < 2 ^ 64 ->
  (forall f, frame_held st f -> frame_held st' f) -> (forall x, covers free' x -> rcov (rng r) x -> covers free x) ->
  (forall v, MODULE_BASE_VADDR <= v < 2 ^ 64 -> rcov (rng r) v -> xl (vm_mem st') root (vpath v) = xl (vm_mem st) root (vpath v)) ->
  held_ok st' c' free' r.
Proof.
  intros [H1 H2 H3 H4 H5 H6] Hc Hc' Hf Hfr Hx. constructor; try done; try lia.
  - intros x Hx1 Hx2. apply (H4 x); auto.
  - eapply Forall_impl; [exact H5|]. auto.
  - intros i f Hi Hl. rewrite Hx; [by apply H6| |]; apply lookup_lt_Some in Hl as Hlt; unfold rcov, rng; cbn [fst snd]; lia.
Qed.

(** The translations of the area do not change. *)
Lemma area_same st st' c c' free free' R : area_ok st c free R -> c <= c' < 2 ^ 64 -> c' mod 4096 = 0 ->
  ranges_ok MODULE_BASE_VADDR c' free' -> (forall r x, r ∈ R -> rcov (rng r) x -> covers free' x -> covers free x) -> pt_wf st' root ->
  (forall f, frame_held st f -> frame_held st' f) ->
  (forall v, MODULE_BASE_VADDR <= v < 2 ^ 64 -> xl (vm_mem st') root (vpath v) = xl (vm_mem st) root (vpath v)) ->
  area_ok st' c' free' R.
Proof.
  intros A Hc Hcm Hr Hsub W Hf Hx. constructor; [done|split; [destruct (ar_cursor _ _ _ _ A); lia|done]|done| |apply A|apply A|].
  - pose proof (ar_held _ _ _ _ A) as HR. rewrite Forall_forall in HR |- *. intros q Hq.
    apply (held_ok_step st st' c c' free free' q); [by apply HR|lia|lia|done|eauto|]. intros v Hv _. by apply Hx.
  - intros v Hv Hno. rewrite Hx by done. by apply (ar_none _ _ _ _ A).
Qed.

(** A range of the area was mapped. *)
Lemma area_backed st st' c c' free free' R b fs : let n := Z.of_nat (length fs) in
  area_ok st c free R -> c <= c' < 2 ^ 64 -> c' mod 4096 = 0 -> ranges_ok MODULE_BASE_VADDR c' free' ->
  (forall x, covers free' x -> covers free x) -> MODULE_BASE_VADDR <= b -> b mod 4096 = 0 -> 0 < n -> b + n * 4096 <= c' ->
  (forall x, rcov (b, n) x -> ~ covers free' x /\ forall r, r ∈ R -> ~ rcov (rng r) x) ->
  backed root (before root st) st' b fs -> area_ok st' c' free' ((b, fs) :: R).
Proof.
  intros n A Hc Hcm Hr' Hsub Hb Hbm Hn He Hd Hbk. pose proof (area_page_range b n Hb Hbm ltac:(lia) ltac:(lia)) as Hpr.
  assert (Hout : forall v, MODULE_BASE_VADDR <= v < 2 ^ 64 -> ~ rcov (b, n) v -> xl (vm_mem st') root (vpath v) = xl (vm_mem st) root (vpath v)).
  { intros v Hv Hp. rewrite <- area_in_range in Hp by lia. rewrite (bk_xl _ _ _ _ _ Hbk) by (unfold is_u64, MODULE_BASE_VADDR in *; lia). fold n.
    destruct (Z.leb_spec (vpage b) (vpage v)), (Z.ltb_spec (vpage v) (vpage b + n)); cbn [andb]; done || lia. }
  pose proof (ar_held _ _ _ _ A) as HR. rewrite Forall_forall in HR.
  constructor; [apply Hbk|split; [lia|done]|done| | | |].
  - constructor.
    + constructor; cbn [fst snd]; [done|unfold n in Hn; destruct fs; simpl in *; [lia|done]|unfold n in *; lia|intros x Hx; by apply Hd| |].
      * eapply Forall_impl; [apply (bk_frames _ _ _ _ _ Hbk)|]. intros f (F1 & F2 & F3 & F4). done.
      * intros i f Hi Hlf. apply lookup_lt_Some in Hlf as Hlt. destruct (page_range_at b n i Hpr ltac:(lia)) as (Hu & Hvp & _).
        rewrite (bk_xl _ _ _ _ _ Hbk), Hvp by done. fold n. destruct (Z.leb_spec (vpage b) (vpage b + i)); [|lia].
        destruct (Z.ltb_spec (vpage b + i) (vpage b + n)); [|lia]. cbn [andb]. replace (vpage b + i - vpage b) with i by lia. by rewrite Hlf.
    + apply Forall_forall. intros q Hq. apply (held_ok_step st st' c c' free free' q); [by apply HR|lia|lia| |auto|].
      * intros f (F1 & F2 & F3). destruct (bk_used _ _ _ _ _ Hbk f F1 F2 F3). done.
      * intros v Hv Hcov. apply Hout; [done|]. intros Hbad. by apply (proj2 (Hd v Hbad) q Hq).
  - cbn [map apart]. split; [|apply A]. apply Forall_forall. intros q Hq. apply list_elem_of_In, in_map_iff in Hq as (q0 & <- & Hq0). apply list_elem_of_In in Hq0.
    unfold rbytes. cbn [fst snd]. apply (disj_cov (b, n) (rng q0)); [cbn [snd]; lia|cbn [rng snd]; by apply (held_pos st c free), HR|].
    intros x Hx1. by apply Hd.
  - cbn [map concat snd]. apply NoDup_app. split_and!; [apply Hbk| |apply A]. intros f Hf Hc2.
    pose proof (bk_frames _ _ _ _ _ Hbk) as HF. rewrite Forall_forall in HF. destruct (HF f Hf) as (_ & F2 & _). apply F2. cbn [before b_used].
    apply list_elem_of_In, in_concat in Hc2 as (l & Hl1 & Hl2). apply in_map_iff in Hl1 as (q & <- & Hq). apply list_elem_of_In in Hq, Hl2.
    pose proof (hd_frames _ _ _ _ (HR q Hq)) as HF2. rewrite Forall_forall in HF2. by apply HF2.
  - intros v Hv Hno. rewrite Hout; [|done|apply (Hno (b, fs)); left]. apply (ar_none _ _ _ _ A); [done|]. intros q Hq. apply Hno. by right.
Qed.

(** From [st] to [st'] no frame was taken but tables and those of [fs], and
    none was given back but tables. *)
Definition frames_kept st st' (fs : list Z) : Prop :=
  (forall f, frame_addr f -> fa_used (vm_fa st') f -> fa_used (vm_fa st) f \/ f ∈ fs \/ is_table (vm_mem st') root f) /\
  (forall f, frame_addr f -> fa_used (vm_fa st) f -> not_table (vm_mem st) root f ->
     fa_used (vm_fa st') f /\ not_table (vm_mem st') root f).

(** Mapping a range of the area is all or nothing. *)
Lemma area_map st c free R b n c' free' :
  area_ok st c free R -> c <= c' < 2 ^ 64 -> c' mod 4096 = 0 -> ranges_ok MODULE_BASE_VADDR c' free' ->
  (forall x, covers free' x -> covers free x) -> MODULE_BASE_VADDR <= b -> b mod 4096 = 0 -> 0 < n -> b + n * 4096 <= c' ->
  (forall x, rcov (b, n) x -> ~ covers free' x /\ forall r, r ∈ R -> ~ rcov (rng r) x) ->
  let r := kp_map (tbl root) (Z.to_nat n) st b 0 in
  (r.2 = true /\ exists fs, Z.of_nat (length fs) = n /\ area_ok r.1 c' free' ((b, fs) :: R) /\
     Forall (fun f => frame_addr f /\ ~ fa_used (vm_fa st) f) fs /\
     (forall v, is_u64 v -> ~ vpage b <= vpage v < vpage b + n -> xl (vm_mem r.1) root (vpath v) = xl (vm_mem st) root (vpath v)) /\
     frames_kept st r.1 fs) \/
  (r.2 = false /\ area_ok r.1 c' free' R /\ (forall v, is_u64 v -> xl (vm_mem r.1) root (vpath v) = xl (vm_mem st) root (vpath v)) /\
   frames_kept st r.1 []).
Proof.
  intros A Hc Hcm Hr' Hsub Hb Hbm Hn He Hd r.
  assert (Hnone : forall v, is_u64 v -> vpage b <= vpage v < vpage b + n -> xl (vm_mem st) root (vpath v) = None).
  { intros v Hv Hp. destruct (page_of_range b n v Hb Hbm ltac:(lia) Hv Hp) as (w & Hw & Hcov & ->).
    apply (ar_none _ _ _ _ A); [done|]. intros q Hq. by apply (Hd w Hcov). }
  pose proof (area_page_range b n Hb Hbm ltac:(lia) ltac:(lia)) as Hpr.
  pose proof (kp_map_ok root (before root st) b n (Z.to_nat n) st [] Hpr) as Hk. change (Z.of_nat (length [])) with 0 in Hk.
  specialize (Hk ltac:(lia)). cbn [before b_xl] in Hk. fold r in Hk.
  destruct Hk as [[E (fs & Hl & Hbk)]|[E (b' & Hbk)]].
  - intros v Hv Hp e k Hek. cbn [before b_xl] in Hek. rewrite Hnone in Hek by done. done.
  - intros i Hi. destruct (page_range_at b n i Hpr Hi) as (Hu & Hvp & _). apply Hnone; [done|lia].
  - by apply backed_refl, A.
  - by intros f.
  - left. split; [done|]. exists fs. split; [lia|]. assert (En : Z.of_nat (length fs) = n) by lia. rewrite <- En in *. split_and!.
    + by apply (area_backed st r.1 c c' free free' R b fs).
    + eapply Forall_impl; [apply (bk_frames _ _ _ _ _ Hbk)|]. intros f (F1 & F2 & _). done.
    + intros v Hv Hp. rewrite (bk_xl _ _ _ _ _ Hbk) by done.
      destruct (Z.leb_spec (vpage b) (vpage v)), (Z.ltb_spec (vpage v) (vpage b + Z.of_nat (length fs))); cbn [andb]; done || lia.
    + split; [apply (bk_new _ _ _ _ _ Hbk)|apply (bk_used _ _ _ _ _ Hbk)].
  - right. split; [done|].
    assert (Hx : forall v, is_u64 v -> xl (vm_mem r.1) root (vpath v) = xl (vm_mem st) root (vpath v)).
    { intros v Hv. rewrite (bk_xl _ _ _ _ _ Hbk) by done. change (Z.of_nat (length [])) with 0.
      destruct (Z.leb_spec (vpage b') (vpage v)), (Z.ltb_spec (vpage v) (vpage b' + 0)); cbn [andb]; try done. lia. }
    split; [|split; [done|split; [apply (bk_new _ _ _ _ _ Hbk)|apply (bk_used _ _ _ _ _ Hbk)]]].
    apply (area_same st r.1 c c' free free' R); try done; [eauto|apply Hbk| |].
    + intros f (F1 & F2 & F3). destruct (bk_used _ _ _ _ _ Hbk f F1 F2 F3). done.
    + intros v Hv. apply Hx. unfold is_u64, MODULE_BASE_VADDR in *. lia.
Qed.

(** The state before a held range was mapped. *)
Definition without st (b : Z) (fs : list Z) : Before :=
  mkBefore (fun p => if decide (p ∈ map (fun i => vpath (b + i * 4096)) (seqZ 0 (Z.of_nat (length fs)))) then None else xl (vm_mem st) root p)
    (fun f => fa_used (vm_fa st) f /\ f ∉ fs) (not_table (vm_mem st) root) (is_table (vm_mem st) root).

Lemma without_in st b fs v : MODULE_BASE_VADDR <= b -> b mod 4096 = 0 -> b + Z.of_nat (length fs) * 4096 <= 2 ^ 64 -> is_u64 v ->
  b_xl (without st b fs) (vpath v) =
  if (vpage b <=? vpage v) && (vpage v <? vpage b + Z.of_nat (length fs)) then None else xl (vm_mem st) root (vpath v).
Proof.
  intros H1 H2 H3 Hv. set (n := Z.of_nat (length fs)) in *. pose proof (area_page_range b n H1 H2 ltac:(lia) H3) as Hpr. cbn [without b_xl]. fold n.
  destruct (Z.leb_spec (vpage b) (vpage v)) as [Hle|Hlt]; [destruct (Z.ltb_spec (vpage v) (vpage b + n)) as [Hlt|Hge]|]; cbn [andb].
  - rewrite decide_True; [done|]. apply list_elem_of_In, in_map_iff. exists (vpage v - vpage b).
    destruct (page_range_at b n (vpage v - vpage b) Hpr ltac:(lia)) as (Hu & Hvp & _).
    split; [apply vpath_vpage; [done|done|lia]|]. apply list_elem_of_In, elem_of_seqZ. lia.
  - rewrite decide_False; [done|]. intros Hin. apply list_elem_of_In, in_map_iff in Hin as (i & Ei & Hi). apply list_elem_of_In, elem_of_seqZ in Hi.
    destruct (page_range_at b n i Hpr ltac:(lia)) as (Hu & Hvp & _). apply vpath_vpage in Ei; [lia|done|done].
  - rewrite decide_False; [done|]. intros Hin. apply list_elem_of_In, in_map_iff in Hin as (i & Ei & Hi). apply list_elem_of_In, elem_of_seqZ in Hi.
    destruct (page_range_at b n i Hpr ltac:(lia)) as (Hu & Hvp & _). apply vpath_vpage in Ei; [lia|done|done].
Qed.

Lemma held_backed st c free R b fs : area_ok st c free ((b, fs) :: R) -> backed root (without st b fs) st b fs.
Proof.
  intros A. pose proof (ar_held _ _ _ _ A) as HR. apply Forall_cons in HR as [[H1 H2 H3 H4 H5 H6] _]. cbn [fst snd] in *.
  pose proof (ar_cursor _ _ _ _ A) as Hcu. set (n := Z.of_nat (length fs)) in *.
  pose proof (area_page_range b n ltac:(lia) H1 ltac:(lia) ltac:(lia)) as Hpr. constructor.
  - apply A.
  - intros v Hv. rewrite without_in by (done || (fold n; lia)). fold n.
    destruct (Z.leb_spec (vpage b) (vpage v)) as [Hle|Hlt]; [destruct (Z.ltb_spec (vpage v) (vpage b + n)) as [Hlt|Hge]|]; cbn [andb]; try done.
    destruct (page_range_at b n (vpage v - vpage b) Hpr ltac:(lia)) as (Hu & Hvp & _).
    assert (Ev : vpath v = vpath (b + (vpage v - vpage b) * 4096)) by (apply vpath_vpage; [done|done|lia]). rewrite Ev.
    destruct (lookup_lt_is_Some_2 fs (Z.to_nat (vpage v - vpage b)) ltac:(lia)) as [f Hf]. rewrite Hf. cbn [fmap option_fmap option_map]. apply H6; [lia|done].
  - rewrite Forall_forall in H5 |- *. intros f Hf. destruct (H5 f Hf) as (F1 & F2 & F3). cbn [without b_used]. split_and!; try done. by intros [_ ?].
  - pose proof (ar_nodup _ _ _ _ A) as Hnd. cbn [map concat snd] in Hnd. apply NoDup_app in Hnd as (? & _). done.
  - cbn [without b_used b_keep]. intros f F1 [F2 _] F3. done.
  - cbn [without b_used]. intros f F1 F2. destruct (decide (f ∈ fs)); auto.
  - done.
Qed.

(** Giving a held range back: its pages are unmapped, its frames free. *)
Lemma area_release st c free R b fs ok : area_ok st c free ((b, fs) :: R) -> let n := Z.of_nat (length fs) in
  let st' := kp_release (tbl root) st b n in
  area_ok st' c (recycle_module_range ok free b n) R /\ Forall (gone root st') fs /\
  (forall v, is_u64 v -> xl (vm_mem st') root (vpath v) =
    if (vpage b <=? vpage v) && (vpage v <? vpage b + n) then None else xl (vm_mem st) root (vpath v)) /\
  (forall f, frame_addr f -> fa_used (vm_fa st') f -> is_table (vm_mem st') root f \/
     (fa_used (vm_fa st) f /\ (f ∉ fs) /\ (is_table (vm_mem st) root f -> is_table (vm_mem st') root f))) /\
  (forall f, frame_addr f -> fa_used (vm_fa st) f -> f ∉ fs -> not_table (vm_mem st) root f ->
     fa_used (vm_fa st') f /\ not_table (vm_mem st') root f).
Proof.
  intros A n st'. pose proof (held_backed _ _ _ _ _ _ A) as Hbk. pose proof (ar_held _ _ _ _ A) as HR.
  apply Forall_cons in HR as [Hh HR]. pose proof (held_pos _ _ _ _ Hh) as Hpos. destruct Hh as [H1 H2 H3 H4 H5 H6]. cbn [fst snd] in *. fold n in H3, Hpos.
  pose proof (ar_cursor _ _ _ _ A) as [Hcu Hcm].
  pose proof (area_page_range b n ltac:(lia) H1 ltac:(lia) ltac:(lia)) as Hpr.
  destruct (release_mapped_ok root (without st b fs) st b fs Hpr) as [[b' Hb'] Hg].
  { intros i Hi. fold n in Hi. destruct (page_range_at b n i Hpr Hi) as (Hu & Hvp & _). rewrite without_in by (done || (fold n; lia)). fold n. rewrite Hvp.
    destruct (Z.leb_spec (vpage b) (vpage b + i)), (Z.ltb_spec (vpage b + i) (vpage b + n)); cbn [andb]; done || lia. }
  { done. }
  fold n in Hb', Hg. fold st' in Hb', Hg.
  assert (Hx : forall v, is_u64 v -> xl (vm_mem st') root (vpath v) =
    if (vpage b <=? vpage v) && (vpage v <? vpage b + n) then None else xl (vm_mem st) root (vpath v)).
  { intros v Hv. rewrite (bk_xl _ _ _ _ _ Hb') by done. change (Z.of_nat (length [])) with 0.
    rewrite without_in by (done || (fold n; lia)). fold n. destruct (Z.leb_spec (vpage b') (vpage v)), (Z.ltb_spec (vpage v) (vpage b' + 0)); cbn [andb]; done || lia. }
  split.
  2: { split_and!; [done..| |].
       - intros f F1 F2. destruct (bk_new _ _ _ _ _ Hb' f F1 F2) as [Ho|[Hin|]]; [|by apply elem_of_nil in Hin|by left].
         right. pose proof Ho as [Hu Hn]. split_and!; [done..|]. intros Ht. by apply (bk_tab _ _ _ _ _ Hb' f F1 Ho Ht).
       - intros f F1 F2 F3 F4. by apply (bk_used _ _ _ _ _ Hb' f F1). }
  destruct (recycle_ok ok MODULE_BASE_VADDR c free b n) as [R1 R2]; try done; try lia; [apply A|intros x Hx1 Hx2; by apply (H4 x)|].
  pose proof (ar_apart _ _ _ _ A) as Hap. cbn [map apart] in Hap. destruct Hap as [Hap1 Hap2].
  assert (Hsep : forall q, q ∈ R -> forall x, rcov (rng q) x -> ~ rcov (b, n) x).
  { intros q Hq x X1 X2. rewrite Forall_forall in Hap1. specialize (Hap1 (rbytes q)). rewrite list_elem_of_In, in_map_iff in Hap1.
    specialize (Hap1 (ex_intro _ q (conj eq_refl (proj1 (list_elem_of_In _ _) Hq)))). unfold disj, rbytes, rcov, rng in *. cbn [fst snd] in *. fold n in Hap1. lia. }
  pose proof (ar_nodup _ _ _ _ A) as Hnd. cbn [map concat snd] in Hnd. apply NoDup_app in Hnd as (_ & Hnd1 & Hnd2).
  constructor; [apply Hb'|done|done| |done|done|].
  - rewrite Forall_forall in HR |- *. intros q Hq. pose proof (HR q Hq) as Hq0.
    destruct Hq0 as [Q1 Q2 Q3 Q4 Q5 Q6]. constructor; try done.
    + intros x X1 X2. apply R2 in X2 as [[_ X2]|X2]; [by apply (Hsep q Hq x)|by apply (Q4 x)].
    + rewrite Forall_forall in Q5 |- *. intros f Hf. destruct (Q5 f Hf) as (F1 & F2 & F3).
      destruct (bk_used _ _ _ _ _ Hb' f F1) as [U1 U2]; [|done|done]. cbn [without b_used]. split; [done|]. intros Hin. apply (Hnd1 f Hin).
      apply list_elem_of_In, in_concat. exists q.2. split; [apply in_map_iff; exists q; split; [done|by apply list_elem_of_In]|by apply list_elem_of_In].
    + intros i f Hi Hf. rewrite <- (Q6 i f Hi Hf). apply lookup_lt_Some in Hf as Hlt.
      assert (Hv : MODULE_BASE_VADDR <= q.1 + i * 4096 < 2 ^ 64) by lia.
      rewrite Hx by (unfold is_u64, MODULE_BASE_VADDR in *; lia).
      assert (Hno : ~ rcov (b, n) (q.1 + i * 4096)) by (apply (Hsep q Hq); unfold rcov, rng; cbn [fst snd]; lia).
      rewrite <- area_in_range in Hno by lia. destruct (Z.leb_spec (vpage b) (vpage (q.1 + i * 4096))), (Z.ltb_spec (vpage (q.1 + i * 4096)) (vpage b + n)); cbn [andb]; done || lia.
  - intros v Hv Hno. rewrite Hx by (unfold is_u64, MODULE_BASE_VADDR in *; lia).
    destruct (Z.leb_spec (vpage b) (vpage v)) as [L1|L1]; [destruct (Z.ltb_spec (vpage v) (vpage b + n)) as [L2|L2]|]; cbn [andb]; try done;
      (apply (ar_none _ _ _ _ A); [done|]; intros q [-> |Hq]%elem_of_cons; [|by apply Hno]; unfold rng; cbn [fst snd]; fold n; rewrite <- area_in_range by lia; lia).
Qed.

#[global] Instance area_perm st c free : Proper (Permutation ==> iff) (area_ok st c free).
Proof.
  assert (Hp : forall R R', R ≡ₚ R' -> area_ok st c free R -> area_ok st c free R').
  { intros R R' HP A. constructor; try apply A.
    - rewrite <- HP. apply A.
    - eapply apart_perm; [apply fmap_Permutation; symmetry; exact HP|apply A].
    - pose proof (ar_nodup _ _ _ _ A) as Hn. eapply NoDup_Permutation_proper; [|exact Hn].
      clear - HP. induction HP as [|x l l' HP IH|x y l|l1 l2 l3 H1 IH1 H2 IH2]; cbn [map concat].
      + done.
      + by rewrite IH.
      + rewrite !app_assoc. apply Permutation_app_tail, Permutation_app_comm.
      + by etransitivity.
    - intros v Hv Hno. apply (ar_none _ _ _ _ A); [done|]. intros r Hr. apply Hno. by rewrite <- HP. }
  intros R R' HP. split; apply Hp; [done|by symmetry].
Qed.
End Area.
