(* ===== verification/ModuleProps.v ===== *)
(** * Loading of modules

    The theorems on modules/module.c as a whole, and a module that is loaded. *)

From Stdlib Require Import ZArith Lia Bool String.
From stdpp Require Import base list gmap strings.
From S2P Require Import Prelude Mem Str Frames Pmm PageTable PtWalk PtOps AddrSpace PageFault Block Gpt Dll KPages Elf Krsym Module ModuleReloc.
From S2P Require Import ModuleLayout ModuleLink ModuleArea.

(** ** Kernel modules: loading and unloading

    Loading a module takes a range of the module area, or leaves everything
    as it was; unloading gives the range and its frames back. *)

Section Load.
Context {S : Type} `{FrameAllocator S} `{!FrameAllocatorLaws S}.
Implicit Types (s : Modules S).
Context (root : Z) (km : Z -> bool).

Definition modules_area s (R : list (Z * list Z)) : Prop :=
  area_ok root (mo_vm s) (g_module_virt_cursor s) (g_module_free_ranges s) R.

(** What the loader keeps apart from page tables and ranges. *)
Definition same_rest s s' : Prop := mo_mem s' = mo_mem s /\ g_loaded_modules s' = g_loaded_modules s.

Definition same_xl s s' : Prop :=
  forall v, is_u64 v -> xl (vm_mem (mo_vm s')) root (vpath v) = xl (vm_mem (mo_vm s)) root (vpath v).

(** The address is in no module: in a free range or above the cursor. *)
Definition free_addr s (x : Z) : Prop := covers (g_module_free_ranges s) x \/ g_module_virt_cursor s <= x < 2 ^ 64.

(** Address space for [n] more pages. *)
Definition room s (n : Z) : Prop := g_module_virt_cursor s + n * 4096 < 2 ^ 64.

(** The addresses [alloc_module_pages] chooses are free. *)
Lemma choose_range s R n : modules_area s R -> 0 < n -> room s n ->
  let '(l, b) := take_range (g_module_free_ranges s) n in
  let c := g_module_virt_cursor s in
  let c' := if b =? 0 then u64 (c + n * PAGE_SIZE) else c in let b' := if b =? 0 then c else b in
  c <= c' < 2 ^ 64 /\ c' mod 4096 = 0 /\ ranges_ok MODULE_BASE_VADDR c' l /\ (forall x, covers l x -> covers (g_module_free_ranges s) x) /\
  MODULE_BASE_VADDR <= b' /\ b' mod 4096 = 0 /\ b' + n * 4096 <= c' /\
  (forall x, rcov (b', n) x -> ~ covers l x /\ forall r, r ∈ R -> ~ rcov (rng r) x) /\
  (forall x, free_addr s x <-> (covers l x \/ c' <= x < 2 ^ 64) \/ rcov (b', n) x).
Proof.
  intros A Hn Hr. unfold free_addr. destruct (ar_cursor _ _ _ _ _ A) as [Hc Hcm]. pose proof (ar_ranges _ _ _ _ _ A) as Hrg.
  pose proof (ar_held _ _ _ _ _ A) as HR. rewrite Forall_forall in HR. unfold room in Hr.
  set (c := g_module_virt_cursor s) in *. set (free := g_module_free_ranges s) in *.
  pose proof (take_range_ok c free n ltac:(lia) Hn MODULE_BASE_VADDR ltac:(done) Hrg) as Ht. cbn zeta in Ht.
  destruct (take_range free n) as [l b]. cbn [fst snd] in Ht. unfold PAGE_SIZE.
  destruct Ht as [[E _]|(T1 & T2 & T3 & T4 & T5 & T6 & T7)].
  - simplify_eq. cbn [Z.eqb]. rewrite u64_id by (unfold is_u64, MODULE_BASE_VADDR in *; lia). split_and!; try done; try lia.
    + by rewrite Z.mod_add by lia.
    + apply (ranges_ok_weaken MODULE_BASE_VADDR _ c); [done|lia|lia].
    + intros x Hx. unfold rcov in Hx. cbn [fst snd] in Hx. split.
      * intros Hx2. apply (ranges_ok_bounds _ _ _ _ Hrg) in Hx2. lia.
      * intros r Hin Hx2. pose proof (hd_in _ _ _ _ _ (HR r Hin)). unfold rcov, rng in Hx2. cbn [fst snd] in Hx2. lia.
    + intros x. unfold rcov. cbn [fst snd]. split.
      * intros [Hx|Hx]; [by left; left|]. destruct (Z.lt_ge_cases x (c + n * 4096)); [right; lia|left; right; lia].
      * intros [[Hx|Hx]|Hx]; [by left|right; lia|right]. unfold MODULE_BASE_VADDR in *. lia.
  - destruct (Z.eqb_spec b 0); [done|]. split_and!; try done; try lia.
    + intros x Hx. apply T6. by right.
    + intros x Hx. split; [intros Hx2; by apply (T7 x)|]. intros r Hin Hx2. apply (hd_free _ _ _ _ _ (HR r Hin) x Hx2). apply T6. by left.
    + intros x. rewrite T6. tauto.
Qed.

Lemma module_pages_ok s R n : modules_area s R -> 0 < n -> room s n ->
  let r := alloc_module_pages (tbl root) km s n in
  same_rest s r.1 /\
  ((r.2 = 0 /\ modules_area r.1 R /\ same_xl s r.1 /\ frames_kept root (mo_vm s) (mo_vm r.1) [] /\
    (km 24 = true -> forall x, free_addr r.1 x <-> free_addr s x)) \/
   (exists fs, r.2 <> 0 /\ Z.of_nat (length fs) = n /\ modules_area r.1 ((r.2, fs) :: R) /\
      Forall (fun f => frame_addr f /\ ~ fa_used (vm_fa (mo_vm s)) f) fs /\
      (forall v, is_u64 v -> ~ vpage r.2 <= vpage v < vpage r.2 + n ->
        xl (vm_mem (mo_vm r.1)) root (vpath v) = xl (vm_mem (mo_vm s)) root (vpath v)) /\
      frames_kept root (mo_vm s) (mo_vm r.1) fs /\ (forall x, free_addr s x <-> free_addr r.1 x \/ rcov (r.2, n) x))).
Proof.
  intros A Hn Hr. pose proof (choose_range s R n A Hn Hr) as Hch. unfold alloc_module_pages. destruct (Z.eqb_spec n 0); [lia|].
  destruct (take_range (g_module_free_ranges s) n) as [l b].
  set (c' := if b =? 0 then u64 (g_module_virt_cursor s + n * PAGE_SIZE) else g_module_virt_cursor s) in *.
  set (b' := if b =? 0 then g_module_virt_cursor s else b) in *. destruct Hch as (C1 & C2 & C3 & C4 & C5 & C6 & C7 & C8 & C9).
  assert (E : (if b =? 0 then (with_ranges s (u64 (g_module_virt_cursor s + n * PAGE_SIZE)) l, g_module_virt_cursor s)
               else (with_ranges s (g_module_virt_cursor s) l, b)) = (with_ranges s c' l, b')) by (unfold c', b'; by destruct (b =? 0)).
  rewrite E. cbn [with_ranges mo_vm]. pose proof (area_map root _ _ _ _ b' n c' l A C1 C2 C3 C4 C5 C6 Hn C7 C8) as Hm. cbn zeta in Hm.
  destruct (kp_map (tbl root) (Z.to_nat n) (mo_vm s) b' 0) as [vm ok]. cbn [fst snd] in Hm. destruct Hm as [[-> (fs & F1 & F2 & F3 & F4 & F5)]|(-> & F1 & F2 & F5)].
  - split; [done|]. right. exists fs. cbn [fst snd]. split_and!; try done. unfold MODULE_BASE_VADDR in *. lia.
  - split; [done|]. left. split; [done|].
    destruct (recycle_ok (km 24) MODULE_BASE_VADDR c' l b' n) as [R1 R2]; try done; try lia; [intros x Hx Hx2; by apply (C8 x)|].
    split; [|split; [exact F2|split; [exact F5|]]].
    2: { intros Hk x. rewrite C9. unfold free_addr, recycle. cbn [fst with_ranges with_vm mo_vm g_module_virt_cursor g_module_free_ranges].
         rewrite R2, Hk. tauto. }
    unfold modules_area, recycle. cbn [fst with_ranges with_vm mo_vm g_module_virt_cursor g_module_free_ranges].
    apply (area_same root vm vm c' c' l); try done; try lia; [|apply F1]. intros r x Hr1 Hr2 Hx. apply R2 in Hx as [[_ Hx]|Hx]; [|done].
    exfalso. by apply (proj2 (C8 x Hx) r).
Qed.

Lemma free_pages_ok s R b fs : modules_area s ((b, fs) :: R) -> let n := Z.of_nat (length fs) in
  let s' := free_module_pages (tbl root) km s b n in
  same_rest s s' /\ modules_area s' R /\ Forall (gone root (mo_vm s')) fs /\
  (forall v, is_u64 v -> xl (vm_mem (mo_vm s')) root (vpath v) =
    if (vpage b <=? vpage v) && (vpage v <? vpage b + n) then None else xl (vm_mem (mo_vm s)) root (vpath v)) /\
  (forall f, frame_addr f -> fa_used (vm_fa (mo_vm s')) f -> is_table (vm_mem (mo_vm s')) root f \/
     (fa_used (vm_fa (mo_vm s)) f /\ (f ∉ fs) /\ (is_table (vm_mem (mo_vm s)) root f -> is_table (vm_mem (mo_vm s')) root f))) /\
  (forall f, frame_addr f -> fa_used (vm_fa (mo_vm s)) f -> f ∉ fs -> not_table (vm_mem (mo_vm s)) root f ->
     fa_used (vm_fa (mo_vm s')) f /\ not_table (vm_mem (mo_vm s')) root f) /\
  (km 24 = true -> forall x, free_addr s' x <-> free_addr s x \/ rcov (b, n) x).
Proof.
  intros A n s'. pose proof (ar_held _ _ _ _ _ A) as HR. apply Forall_cons in HR as [Hh _]. pose proof (held_pos _ _ _ _ _ Hh) as Hp. cbn [snd] in Hp. fold n in Hp.
  pose proof (hd_in _ _ _ _ _ Hh) as Hi. cbn [fst snd] in Hi. unfold MODULE_BASE_VADDR in Hi.
  unfold s', free_module_pages. destruct (Z.eqb_spec b 0); [lia|]. destruct (Z.eqb_spec n 0); [lia|]. cbn [orb].
  split; [done|]. destruct (area_release root _ _ _ _ b fs (km 24) A) as (A1 & A2 & A3 & A4 & A5). fold n in A1, A2, A3, A4, A5.
  split_and!; try done. intros Hk x. unfold free_addr, recycle. cbn [fst with_ranges with_vm mo_vm g_module_virt_cursor g_module_free_ranges].
  pose proof (ar_cursor _ _ _ _ _ A) as [Hcu _].
  destruct (recycle_ok (km 24) MODULE_BASE_VADDR (g_module_virt_cursor s) (g_module_free_ranges s) b n) as [_ R2]; try lia; [done|apply A|unfold MODULE_BASE_VADDR; lia|apply (hd_page _ _ _ _ _ Hh)| |].
  { intros y Hy Hy2. by apply (hd_free _ _ _ _ _ Hh y). }
  rewrite R2, Hk. tauto.
Qed.

(** ** Loading *)
Context (tab : list KernelSymbol) (ksyms : Z) (run_init : Z -> Modules S -> Modules S * Z).

(** The loader's own state is not touched by a module's code. *)
Definition same_loader s s' : Prop :=
  mo_vm s' = mo_vm s /\ g_module_virt_cursor s' = g_module_virt_cursor s /\ g_module_free_ranges s' = g_module_free_ranges s /\
  g_loaded_modules s' = g_loaded_modules s.

Lemma same_loader_area s s' R : same_loader s s' -> modules_area s R -> modules_area s' R.
Proof. unfold modules_area. by intros (-> & -> & -> & _). Qed.

(** The loaded modules hold the ranges, one each. *)
Definition modules_ok s (R : list (Z * list Z)) : Prop :=
  modules_area s R /\ Forall2 (fun x r => mod_base x = r.1 /\ mod_pages x = Z.of_nat (length r.2)) (g_loaded_modules s) R.

(** A module was loaded: it holds a range of fresh frames, its name and
    address are kept, and it was started with memory changed in its pages
    only. *)
Definition loaded_module s s' (R : list (Z * list Z)) (mp : Z) (name : list Z) : Prop :=
  exists x fs s2, let b := mod_base x in
    g_loaded_modules s' = x :: g_loaded_modules s /\ mod_ptr x = mp /\ mod_name x = name /\ modules_ok s' ((b, fs) :: R) /\
    Forall (fun f => frame_addr f /\ ~ fa_used (vm_fa (mo_vm s)) f) fs /\
    (forall v, is_u64 v -> ~ vpage b <= vpage v < vpage b + mod_pages x ->
      xl (vm_mem (mo_vm s')) root (vpath v) = xl (vm_mem (mo_vm s)) root (vpath v)) /\
    mod_init x <> 0 /\ (run_init (mod_init x) s2).2 = 0 /\
    (forall v, ~ b <= v < b + mod_pages x * 4096 -> rd8 (mo_mem s2) v = rd8 (mo_mem s) v).

(** The same frames are in use, but for page tables, and the same addresses
    are free; these are lost when there is no memory for the node that
    records them. *)
Definition given_back s s' : Prop :=
  (forall f, frame_addr f -> not_table (vm_mem (mo_vm s)) root f -> not_table (vm_mem (mo_vm s')) root f ->
     (fa_used (vm_fa (mo_vm s')) f <-> fa_used (vm_fa (mo_vm s)) f)) /\
  (km 24 = true -> forall x, free_addr s' x <-> free_addr s x).

(** Everything was given back. *)
Definition not_loaded s s' (R : list (Z * list Z)) : Prop :=
  modules_ok s' R /\ same_xl s s' /\ g_loaded_modules s' = g_loaded_modules s /\ given_back s s'.

Lemma not_loaded_refl s R : modules_ok s R -> not_loaded s s R.
Proof. intros H1. split_and!; done. Qed.

Lemma no_table m f : not_table m root f -> ~ is_table m root f.
Proof. intros Hn (q & Hq & Hl & Hw). by apply (Hn q). Qed.

(** Pages that were just taken are given back. *)
Lemma give_back s s1 s2 R b fs : modules_ok s R -> same_rest s s1 -> modules_area s1 ((b, fs) :: R) -> same_loader s1 s2 ->
  (forall v, is_u64 v -> ~ vpage b <= vpage v < vpage b + Z.of_nat (length fs) ->
    xl (vm_mem (mo_vm s1)) root (vpath v) = xl (vm_mem (mo_vm s)) root (vpath v)) ->
  Forall (fun f => frame_addr f /\ ~ fa_used (vm_fa (mo_vm s)) f) fs -> frames_kept root (mo_vm s) (mo_vm s1) fs ->
  (forall x, free_addr s x <-> free_addr s1 x \/ rcov (b, Z.of_nat (length fs)) x) ->
  not_loaded s (free_module_pages (tbl root) km s2 b (Z.of_nat (length fs))) R.
Proof.
  intros [A F2] [_ Hl] A1 Hs Hx Hfr [Fk1 Fk2] Hfa. pose proof (same_loader_area _ _ _ Hs A1) as A2. destruct Hs as (V & Vc & Vf & L).
  destruct (free_pages_ok s2 R b fs A2) as ([_ L'] & A3 & _ & X & T1 & T2 & T3). rewrite L, Hl in L'. split_and!; [split; [done|by rewrite L']| |done|split].
  2: { intros f F1 N1 N2. split.
       - intros Hu. destruct (T1 f F1 Hu) as [Ht|(Hu1 & Hnf & Ht)]; [by apply no_table in N2|]. rewrite V in Hu1, Ht.
         destruct (Fk1 f F1 Hu1) as [|[|Ht1]]; [done|done|]. exfalso. apply (no_table _ _ N2); auto.
       - intros Hu. destruct (Fk2 f F1 Hu N1) as [Hu1 Hn1]. apply T2; rewrite ?V; try done.
         intros Hin. rewrite Forall_forall in Hfr. by apply (Hfr f Hin). }
  2: { intros Hk x. rewrite (T3 Hk), Hfa. unfold free_addr. by rewrite Vc, Vf. }
  intros v Hv. rewrite X by done. rewrite V.
  destruct (Z.leb_spec (vpage b) (vpage v)) as [L1|L1]; [destruct (Z.ltb_spec (vpage v) (vpage b + Z.of_nat (length fs))) as [L2|L2]|]; cbn [andb];
    try (apply Hx; [done|lia]).
  pose proof (ar_held _ _ _ _ _ A1) as HR. apply Forall_cons in HR as [Hh _]. pose proof (hd_in _ _ _ _ _ Hh) as Hi. cbn [fst snd] in Hi.
  destruct (ar_cursor _ _ _ _ _ A1) as [Hc _].
  destruct (page_of_range b (Z.of_nat (length fs)) v) as (w & Hw & Hcov & ->); [lia|apply Hh|lia|done|lia|].
  symmetry. apply (ar_none _ _ _ _ _ A); [done|]. intros r Hr Hc2. pose proof (ar_apart _ _ _ _ _ A1) as Hap. cbn [map apart] in Hap. destruct Hap as [Hap _].
  rewrite Forall_forall in Hap. specialize (Hap (rbytes r)). rewrite list_elem_of_In, in_map_iff in Hap.
  specialize (Hap (ex_intro _ r (conj eq_refl (proj1 (list_elem_of_In _ _) Hr)))). unfold disj, rbytes, rcov, rng in *. cbn [fst snd] in *. lia.
Qed.

Lemma cstr_low m m' a l : low m m' -> a + Z.of_nat (length l) < MODULE_BASE_VADDR -> cstr m a l -> cstr m' a l.
Proof.
  intros Hl Ha Hc. revert Ha. induction Hc as [a E|a c l E Hn Hc IH]; intros Ha.
  - constructor. rewrite <- Hl; [done|simpl in Ha; lia].
  - rewrite length_cons in Ha. constructor; [rewrite <- Hl; [done|lia]|done|apply IH; lia].
Qed.

Lemma cstr_bytes m a l : cstr m a l -> bytes_at m a (length l) = l.
Proof.
  induction 1 as [a E|a c l E Hn Hc IH]; [done|]. unfold bytes_at in *. cbn [length seq map]. rewrite Z.add_0_r, E. f_equal.
  rewrite <- seq_shift, map_map. rewrite <- IH at 2. apply map_ext. intros i. f_equal. lia.
Qed.

Lemma module_load_ok fuel mp s R name raw elf_size l :
  let m := mo_mem s in let e := get_ehdr m raw in let shdrs := u64 (raw + e_shoff e) in let shnum := e_shnum e in
  modules_ok s R -> (forall f s, same_loader s (run_init f s).1) -> cstr m name l -> name + Z.of_nat (length l) < MODULE_BASE_VADDR ->
  (length l < fuel)%nat -> (elf_rel_ok e = true -> file_ok m raw shdrs shnum /\ room s ((lay_end m shdrs shnum + 4095) / 4096)) ->
  exists s' p, module_load (tbl root) km tab ksyms run_init fuel mp s name raw elf_size = Some (s', p) /\
    ((p = 0 /\ not_loaded s s' R) \/ (p = mp /\ mp <> 0 /\ loaded_module s s' R mp l)).
Proof.
  intros m e shdrs shnum HM Hrun Hn Hlow Hf HF. pose proof (not_loaded_refl s R HM) as Hno.
  unfold module_load. fold m. fold e. fold shnum. fold shdrs.
  destruct ((name =? 0) || (raw =? 0) || (elf_size <? sizeof_Ehdr)); [by exists s, 0; auto|].
  destruct (elf_rel_ok e); cbn [negb]; [|by exists s, 0; auto]. destruct (HF eq_refl) as [F Hroom]. clear HF.
  destruct (_ <? _); [by exists s, 0; auto|].
  pose proof (fo_layout _ _ _ _ F) as FL. rewrite (layout_size_spec m raw shdrs shnum FL). set (total := lay_end m shdrs shnum) in *.
  assert (Ht : 0 <= total < 2 ^ 63).
  { split; [|apply FL]. pose proof (li_hdrs _ _ _ _ FL). pose proof (lay_end_mono m raw shdrs shnum FL 0 shnum ltac:(lia) ltac:(lia)) as Hm.
    rewrite lay_end_0 in Hm. unfold total. lia. }
  destruct (Z.eqb_spec total 0) as [|Hne]; [by exists s, 0; auto|].
  unfold PAGE_SIZE. rewrite u64_id by (unfold is_u64; lia). replace (total + 4096 - 1) with (total + 4095) by lia.
  set (pages := (total + 4095) / 4096) in *. assert (Hp : 0 < pages /\ total <= pages * 4096) by (unfold pages; divlia).
  destruct (module_pages_ok s R pages (proj1 HM) ltac:(lia) Hroom) as [[Hm1 Hl1] Hal].
  destruct (alloc_module_pages (tbl root) km s pages) as [s1 b] eqn:Eal. cbn [fst snd] in *.
  destruct Hal as [(-> & A1 & X1 & [K1 K2] & K3)|(fs & Hb & Hlen & A1 & Hfr & X1 & Hfk & Hfa)].
  { exists s1, 0. split; [done|]. left. split; [done|]. split_and!; [split; [done|by rewrite Hl1; apply HM]|done|done|]. split; [|done].
    intros f F1 N1 N2. split; [|intros Hu; by apply K2]. intros Hu. destruct (K1 f F1 Hu) as [|[Hin|Htab]]; [done|by apply elem_of_nil in Hin|by apply no_table in N2]. }
  destruct (Z.eqb_spec b 0); [done|]. subst pages. rewrite <- Hlen in *.
  assert (HG : forall s2, same_loader s1 s2 -> not_loaded s (free_module_pages (tbl root) km s2 b (Z.of_nat (length fs))) R).
  { intros s2 Hs. by apply (give_back s s1). }
  assert (Hfail : forall s2, same_loader s1 s2 -> exists s' p, Some (free_module_pages (tbl root) km s2 b (Z.of_nat (length fs)), 0) = Some (s', p) /\
    ((p = 0 /\ not_loaded s s' R) \/ (p = mp /\ mp <> 0 /\ loaded_module s s' R mp l))).
  { intros s2 Hs. eexists _, 0. split; [done|]. left. auto. }
  destruct (km (shnum * 24)); cbn [negb]; [|by apply Hfail].
  pose proof (ar_held _ _ _ _ _ A1) as HR. apply Forall_cons in HR as [Hh _]. pose proof (hd_in _ _ _ _ _ Hh) as Hin. cbn [fst snd] in Hin.
  pose proof (ar_cursor _ _ _ _ _ A1) as Hcur. pose proof Hcur as [Hcu _].
  assert (B : MODULE_BASE_VADDR <= b /\ b + lay_end m shdrs shnum < 2 ^ 64) by (fold total; lia).
  destruct (load_sections_ok m raw shdrs shnum b FL B) as (m1 & secs & -> & -> & Hfm & _).
  destruct (link_module_total m raw shdrs shnum b F B tab ksyms m1 Hfm) as (m2 & fns & -> & Hfm2 & Hfns). cbn [mbind option_bind].
  assert (Hs2 : same_loader s1 (with_mem s1 m2)) by done.
  destruct fns as [[f x]|]; [|by apply Hfail].
  assert (Hlow2 : low m m2) by (apply (frame_low m shdrs shnum b B); exact Hfm2).
  pose proof (cstr_low _ _ _ _ Hlow2 Hlow Hn) as Hn2. unfold strlen. rewrite (strlen_from_cstr m2 l name 0 fuel Hf) by by rewrite Z.add_0_r.
  cbn [mbind option_bind]. destruct (km _); cbn [negb]; [|by apply Hfail]. destruct (Z.eqb_spec mp 0) as [|Hmp]; [by apply Hfail|].
  destruct (run_init f (with_mem s1 m2)) as [s3 res] eqn:Er. pose proof (Hrun f (with_mem s1 m2)) as Hs3. rewrite Er in Hs3. cbn [fst] in Hs3.
  destruct (Z.eqb_spec res 0) as [->|]; cbn [negb]; [|apply Hfail; done].
  set (x0 := mkModule _ _ _ _ _ _ _). exists (with_loaded s3 (x0 :: g_loaded_modules s3)), mp. split; [done|]. right. split; [done|]. split; [done|].
  pose proof (same_loader_area _ _ _ Hs3 A1) as A3. destruct Hs3 as (V & _ & _ & L3). cbn [with_mem g_loaded_modules] in L3.
  assert (En : mod_name x0 = l) by (unfold x0; cbn [mod_name]; rewrite Z.add_0_l, Nat2Z.id; by apply cstr_bytes).
  exists x0, fs, (with_mem s1 m2). cbn zeta. change (mod_base x0) with b. change (mod_pages x0) with (Z.of_nat (length fs)). change (mod_init x0) with f.
  split; [by cbn [with_loaded g_loaded_modules]; rewrite L3, Hl1|]. split; [done|]. split; [done|].
  split; [split; [exact A3|]; cbn [with_loaded g_loaded_modules]; constructor; [done|]; rewrite L3, Hl1; apply HM|].
  split; [done|]. split_and!.
  - intros v Hv Hp2. cbn [with_loaded mo_vm]. rewrite V. by apply X1.
  - by apply (Hfns f x).
  - by rewrite Er.
  - intros v Hv. apply Hfm2. unfold in_module. fold total. lia.
Qed.

(** ** Unloading *)
Lemma unlink_module_spec l p :
  match unlink_module l p with
  | None => p ∉ map mod_ptr l
  | Some (x, l') => exists l1 l2, l = l1 ++ x :: l2 /\ l' = l1 ++ l2 /\ mod_ptr x = p /\ (p ∉ map mod_ptr l1)
  end.
Proof.
  induction l as [|y l IH]; cbn [unlink_module map]; [apply not_elem_of_nil|].
  destruct (Z.eqb_spec (mod_ptr y) p) as [E|E]; [exists [], l; split_and!; try done; apply not_elem_of_nil|].
  destruct (unlink_module l p) as [[x l']|]; cbn [mbind option_bind].
  - destruct IH as (l1 & l2 & -> & -> & E2 & Hn). exists (y :: l1), l2. split_and!; try done. cbn [map]. apply not_elem_of_cons. split; [congruence|done].
  - apply not_elem_of_cons. split; [congruence|done].
Qed.

Lemma module_unload_ok (run_exit : Z -> Modules S -> Modules S) s R p : modules_ok s R -> (forall f s, same_loader s (run_exit f s)) -> p <> 0 ->
  let r := module_unload (tbl root) km run_exit s p in
  (r = (s, -1) /\ (p ∉ map mod_ptr (g_loaded_modules s))) \/
  (r.2 = 0 /\ exists l1 x l2 R1 fs R2, g_loaded_modules s = l1 ++ x :: l2 /\ mod_ptr x = p /\ (p ∉ map mod_ptr l1) /\
     g_loaded_modules r.1 = l1 ++ l2 /\ R = R1 ++ (mod_base x, fs) :: R2 /\ modules_ok r.1 (R1 ++ R2) /\ Forall (gone root (mo_vm r.1)) fs /\
     forall v, is_u64 v -> xl (vm_mem (mo_vm r.1)) root (vpath v) =
       if (vpage (mod_base x) <=? vpage v) && (vpage v <? vpage (mod_base x) + mod_pages x) then None else xl (vm_mem (mo_vm s)) root (vpath v)).
Proof.
  intros [A F2] Hrun Hp. unfold module_unload. destruct (Z.eqb_spec p 0); [done|].
  pose proof (unlink_module_spec (g_loaded_modules s) p) as Hu. destruct (unlink_module _ p) as [[x l']|]; [|by left].
  destruct Hu as (l1 & l2 & El & -> & Ep & Hn). right. cbn [fst snd]. split; [done|].
  rewrite El in F2. apply Forall2_app_inv_l in F2 as (R1 & R2' & F1 & F2 & ->). apply Forall2_cons_inv_l in F2 as ([b fs] & R2 & [E1 E2] & F3 & ->).
  cbn [fst snd] in E1, E2. subst b.
  set (s1 := with_loaded s (l1 ++ l2)). set (s2 := if negb (mod_exit x =? 0) then run_exit (mod_exit x) s1 else s1).
  assert (Hs : same_loader s1 s2) by (unfold s2; destruct (_ =? 0); cbn [negb]; [done|apply Hrun]).
  assert (A2 : modules_area s2 ((mod_base x, fs) :: R1 ++ R2)).
  { apply (same_loader_area s1); [done|]. change (modules_area s1) with (modules_area s). unfold modules_area. by rewrite Permutation_middle. }
  destruct (free_pages_ok s2 (R1 ++ R2) (mod_base x) fs A2) as ([_ L] & A3 & G & X & _). rewrite <- E2 in *. destruct Hs as (V & _ & _ & L2).
  exists l1, x, l2, R1, fs, R2. split_and!; try done; [by rewrite L, L2| |intros v Hv; rewrite X by done; by rewrite V].
  split; [done|]. rewrite L, L2. cbn [s1 with_loaded g_loaded_modules]. by apply Forall2_app.
Qed.
End Load.

Section Claims.
Context {S : Type} `{FrameAllocator S} `{!FrameAllocatorLaws S}.


(** Unloading a module that is not in the list is an error and changes
    nothing.  Otherwise exactly this module leaves the list, exactly its
    pages are unmapped, all of its frames are free again, and the other
    modules keep their pages and frames. *)
Theorem module_unload_correct root km run_exit (s : Modules S) R p :
  modules_ok root s R -> (forall f s, same_loader s (run_exit f s)) -> p <> 0 ->
  let r := module_unload (tbl root) km run_exit s p in
  (r = (s, -1) /\ (p ∉ map mod_ptr (g_loaded_modules s))) \/
  (r.2 = 0 /\ exists l1 x l2 R1 fs R2, g_loaded_modules s = l1 ++ x :: l2 /\ mod_ptr x = p /\ (p ∉ map mod_ptr l1) /\
     g_loaded_modules r.1 = l1 ++ l2 /\ R = R1 ++ (mod_base x, fs) :: R2 /\ modules_ok root r.1 (R1 ++ R2) /\ Forall (gone root (mo_vm r.1)) fs /\
     forall v, is_u64 v -> xl (vm_mem (mo_vm r.1)) root (vpath v) =
       if (vpage (mod_base x) <=? vpage v) && (vpage v <? vpage (mod_base x) + mod_pages x) then None else xl (vm_mem (mo_vm s)) root (vpath v)).
Proof. apply module_unload_ok. Qed.
End Claims.

(** ** Kernel modules: a module file

    A small relocatable file (one section of code with two relocations, a
    symbol table with [driver_init] and an imported [kfree]) on which the
    theorems about modules are exercised. *)

Definition put_shdr (ty fl off sz link info align : Z) : list Z :=
  le_bytes 4 0 ++ le_bytes 4 ty ++ le_bytes 8 fl ++ le_bytes 8 0 ++ le_bytes 8 off ++ le_bytes 8 sz ++ le_bytes 4 link ++ le_bytes 4 info ++ le_bytes 8 align ++ le_bytes 8 0.
Definition put_sym (name shndx value : Z) : list Z := le_bytes 4 name ++ [0; 0] ++ le_bytes 2 shndx ++ le_bytes 8 value ++ le_bytes 8 0.
Definition put_rela (off sym ty addend : Z) : list Z := le_bytes 8 off ++ le_bytes 8 (sym * 2 ^ 32 + ty) ++ le_bytes 8 addend.

Definition demo_file : list Z :=
  ([0x7F; 69; 76; 70; 2; 1; 1; 0] ++ le_bytes 8 0 ++ le_bytes 2 ET_REL ++ le_bytes 2 EM_X86_64 ++ le_bytes 4 1 ++ le_bytes 8 0 ++ le_bytes 8 0 ++ le_bytes 8 64 ++ le_bytes 4 0 ++
   le_bytes 2 64 ++ le_bytes 2 0 ++ le_bytes 2 0 ++ le_bytes 2 64 ++ le_bytes 2 5 ++ le_bytes 2 0) ++
  (put_shdr 0 0 0 0 0 0 0 ++ put_shdr 1 6 384 16 0 0 16 ++ put_shdr SHT_RELA 0 400 48 3 1 8 ++ put_shdr SHT_SYMTAB 0 448 72 4 2 8 ++
   put_shdr 3 0 520 19 0 0 1) ++
  le_bytes 16 0 ++
  (put_rela 0 2 R_X86_64_PC32 (-4) ++ put_rela 8 1 R_X86_64_64 4) ++
  (put_sym 0 0 0 ++ put_sym 1 1 0 ++ put_sym 13 0 0) ++
  ([0] ++ text "driver_init" ++ [0] ++ text "kfree" ++ [0]).

(** The file at 0x10000, its name at 0x8000. *)
Definition demo_image : mem := put_bytes (put_bytes ∅ 0x8000 (text "demo" ++ [0])) 0x10000 demo_file.

Definition demo_place (s : string) : Z := 0xFFFFFFFF80000000 + 64 * Z.of_nat (length (text s)).
Definition demo_tab : list KernelSymbol := kernel_syms demo_place.
Definition demo_mods : Modules Pmm := module_init (mkModules demo_vm demo_image 0 [] []).
Definition demo_run (f : Z) (s : Modules Pmm) : Modules Pmm * Z := (s, 0).

Definition demo_run_exit (f : Z) (s : Modules Pmm) : Modules Pmm := s.
Definition demo_m1 : mem := (load_sections demo_image 0x10000 0x10040 5 MODULE_BASE_VADDR).1.
Definition demo_secs : list ModuleSection := (load_sections demo_image 0x10000 0x10040 5 MODULE_BASE_VADDR).2.

(** Decides a closed statement by evaluation. *)
Ltac evaluate := refine (bool_decide_unpack _ _); vm_compute; exact I.

Lemma short_demo : short_names demo_tab.
Proof. unfold short_names. evaluate. Qed.

Lemma demo_layout : layout_file demo_image 0x10000 0x10040 5.
Proof. constructor; [unfold MODULE_BASE_VADDR; lia|unfold pow2; evaluate|vm_compute; reflexivity]. Qed.

Lemma demo_file_ok : file_ok demo_image 0x10000 0x10040 5.
Proof.
  constructor; [exact demo_layout|unfold rela_file; cbv zeta; evaluate|evaluate|].
  assert (E : find_symtab (Z.to_nat 5) demo_image 0x10000 0x10040 0 = (0x101C0, 3, 0x10208)) by (vm_compute; reflexivity). rewrite E.
  split; [unfold MODULE_BASE_VADDR; lia|]. unfold sym_file. cbv zeta. evaluate.
Qed.

Lemma demo_modules : modules_ok demo_root demo_mods [].
Proof.
  split; [|constructor]. constructor; [exact demo_wf|vm_compute; split_and!; congruence|vm_compute; congruence|constructor|exact I|constructor|].
  intros v Hv _. apply demo_absent.
Qed.

Lemma demo_name_ok : cstr demo_image 0x8000 (text "demo").
Proof. repeat (apply cstr_cons; [done|done|]). by apply cstr_nil. Qed.

Lemma demo_reloc : reloc_input demo_tab 0x101C0 3 0x10208 demo_m1 MODULE_BASE_VADDR 0x10190 2.
Proof. constructor; [unfold MODULE_BASE_VADDR; lia|unfold MODULE_BASE_VADDR; lia|evaluate|exact short_demo|unfold ent_place; evaluate|unfold ent_place; evaluate]. Qed.


Lemma load_sections_correct_witness :
  exists m' secs, load_sections demo_image 0x10000 0x10040 5 MODULE_BASE_VADDR = (m', secs) /\ length secs = 5%nat.
Proof.
  destruct (load_sections_correct demo_image 0x10000 0x10040 5 MODULE_BASE_VADDR) as (m' & secs & E & Hl & _).
  - constructor; [exact demo_layout|vm_compute; split; congruence].
  - exists m', secs. split; [exact E|exact Hl].
Defined.


(** The file is accepted. *)
Lemma demo_loads :
  option_map snd (module_load (tbl demo_root) (fun _ => true) demo_tab (krsym_init demo_tab) demo_run 10 0x9000 demo_mods 0x8000 0x10000 539) = Some 0x9000.
Proof. vm_compute. reflexivity. Qed.

Lemma module_unload_correct_witness : (module_unload (tbl demo_root) (fun _ => true) demo_run_exit demo_mods 0x9000).2 = -1.
Proof.
  destruct (module_unload_correct demo_root (fun _ => true) demo_run_exit demo_mods [] 0x9000 demo_modules) as [[E _]|(_ & l1 & x & l2 & _ & _ & _ & E & _)].
  - done.
  - done.
  - by rewrite E.
  - by destruct l1.
Defined.

(** A relocation section that names a section the file does not have makes
    the loader read behind the array of sections. *)
Definition bad_image : mem := put_bytes demo_image (0x10000 + 64 + 128 + 44) (le_bytes 4 7).

Lemma reloc_target_out_of_bounds :
  module_load (tbl demo_root) (fun _ => true) demo_tab (krsym_init demo_tab) demo_run 10 0x9000 (with_mem demo_mods bad_image) 0x8000 0x10000 539 = None.
Proof. vm_compute. reflexivity. Qed.
