(* ===== verification/UserSpace.v ===== *)
(** * The user half of an address space

    What the loader and the initial stack rely on: every mapped user page
    lies under a VMA, is a 4 KiB page, and has a frame of its own that is in
    use and is no page table.  [install_page] maps a fresh frame with any
    contents and keeps all of that, the pages mapped before and their bytes. *)

From Stdlib Require Import ZArith Lia Bool.
From stdpp Require Import base list gmap.
From S2P Require Import Prelude Mem Str Frames PageTable PtWalk PtOps AddrSpace Vma PageFault KPages.

Definition user (v : Z) : Prop := 0 <= v < 2 ^ 47.
(** The canonical addresses of the kernel half. *)
Definition kernel_half (v : Z) : Prop := 2 ^ 64 - 2 ^ 47 <= v < 2 ^ 64.

Lemma user_u64 v : user v -> is_u64 v.
Proof. unfold user, is_u64. lia. Qed.
Lemma kernel_half_u64 v : kernel_half v -> is_u64 v.
Proof. unfold kernel_half, is_u64. lia. Qed.
#[export] Hint Resolve user_u64 kernel_half_u64 : nova.

(** Page numbers of user addresses. *)
Lemma user_vpage v : user v -> vpage v = v / 4096.
Proof. unfold user, vpage. intros Hv. by rewrite Z.mod_small by lia. Qed.

Lemma user_kernel_vpage v w : user v -> kernel_half w -> vpage v <> vpage w.
Proof.
  unfold user, kernel_half, vpage. intros Hv Hw. rewrite (Z.mod_small v) by lia.
  replace w with (w - (2 ^ 64 - 2 ^ 48) + (2 ^ 16 - 1) * 2 ^ 48) by lia. rewrite Z.mod_add, Z.mod_small by lia.
  change 4096 with (2 ^ 12). divlia.
Qed.

(** All addresses of a page are under the same VMA. *)
Lemma vmaFind_page l v w : vmas_ok l -> user v -> user w -> vpage v = vpage w -> vmaFind l v = vmaFind l w.
Proof.
  intros Hl Hv Hw E. rewrite !user_vpage in E by done.
  assert (Hio : forall x y, user x -> user y -> x / 4096 = y / 4096 -> forall c, vmaFind l x = Some c -> vmaFind l y = Some c).
  { intros x y Hx Hy Exy c Hc. rewrite (vmaFind_iff l 0) in * by done. destruct Hc as [Hin Hc]. split; [done|].
    destruct (vmas_from_lb 0 l Hl c Hin) as [_ (H1 & H2 & H3)]. unfold vma_in in *. divlia. }
  destruct (vmaFind l v) as [c|] eqn:Ev; [symmetry; eauto|].
  destruct (vmaFind l w) as [c|] eqn:Ew; [|done]. rewrite (Hio w v Hw Hv (eq_sym E) c Ew) in Ev. done.
Qed.

(** ** Frames and their bytes *)
Definition outside (m m' : mem) (f : Z) : Prop := forall x, ~ tbl f <= x < tbl f + 4096 -> rd8 m' x = rd8 m x.

Lemma entry_outside m m' f g i : table_frame f -> table_frame g -> g <> f -> outside m m' f -> 0 <= i < 512 ->
  entry m' g i = entry m g i.
Proof.
  intros Hf Hg Hne Ho Hi. destruct (tbl_aligned f) as [_ Ha]; [apply Hf..|]. destruct (tbl_aligned g) as [_ Hb]; [apply Hg..|].
  assert (tbl g <> tbl f) by (intros E; apply Hne, tbl_inj; [apply Hg|apply Hf|done]).
  apply rd_ext. intros x Hx. change (Z.of_nat 8) with 8 in Hx. apply Ho. divlia.
Qed.

Lemma bytes_entry m m' f : (forall i, 0 <= i < 512 -> entry m' f i = entry m f i) ->
  forall j, 0 <= j < 4096 -> rd8 m' (tbl f + j) = rd8 m (tbl f + j).
Proof.
  intros He j Hj. specialize (He (j / 8) ltac:(divlia)). unfold entry in He.
  pose proof (rd_byte 8 m (tbl f + 8 * (j / 8)) (j mod 8) ltac:(divlia)) as E1.
  pose proof (rd_byte 8 m' (tbl f + 8 * (j / 8)) (j mod 8) ltac:(divlia)) as E2.
  change (rd 8) with rd64 in *. rewrite He, E1 in E2.
  replace (tbl f + 8 * (j / 8) + j mod 8) with (tbl f + j) in E2 by divlia. done.
Qed.

Lemma outside_bytes m m' f g j : table_frame f -> table_frame g -> g <> f -> outside m m' f -> 0 <= j < 4096 ->
  rd8 m' (tbl g + j) = rd8 m (tbl g + j).
Proof. intros Hf Hg Hne Ho. apply bytes_entry. intros i Hi. by apply entry_outside with f. Qed.

Lemma leaf_frame frame flags : is_u64 flags -> nextf flags = 0 -> frame_addr frame -> nextf (leaf_entry frame flags) = frame.
Proof.
  intros Hfl Hfn Hf. assert (0 < frame < 2 ^ 47 /\ frame mod 4096 = 0) as [Hfb Hfm] by apply Hf.
  destruct (leaf_entry_facts frame flags) as (_ & _ & ->); [unfold is_u64; lia|lia|done..|]. apply page_down_id; [unfold is_u64; lia|done].
Qed.

Section Space.
Context {S : Type} `{FrameAllocator S} `{!FrameAllocatorLaws S}.
Context (root : Z).
Implicit Types (st : Vm S).

Definition mapped st (v e : Z) : Prop := xl (vm_mem st) root (vpath v) = Some (e, 0%nat).

Record space_ok st (l : list Vma) : Prop := {
  so_wf : pt_wf st root;
  so_vmas : vmas_ok l;
  so_page : forall v e k, user v -> xl (vm_mem st) root (vpath v) = Some (e, k) ->
    k = 0%nat /\ is_Some (vmaFind l v) /\ frame_addr (nextf e) /\ fa_used (vm_fa st) (nextf e) /\
    not_table (vm_mem st) root (nextf e);
  so_inj : forall v w e e', user v -> user w -> mapped st v e -> mapped st w e' -> nextf e = nextf e' -> vpage v = vpage w
}.

(** The user pages mapped in [st] still are, with their bytes, the kernel
    half is the same, and no frame in use was given back. *)
Record keeps st st' : Prop := {
  ke_page : forall v e, user v -> mapped st v e -> mapped st' v e /\
    forall j, 0 <= j < 4096 -> rd8 (vm_mem st') (tbl (nextf e) + j) = rd8 (vm_mem st) (tbl (nextf e) + j);
  ke_kernel : forall v, kernel_half v -> xl (vm_mem st') root (vpath v) = xl (vm_mem st) root (vpath v);
  ke_used : forall f, frame_addr f -> fa_used (vm_fa st) f -> fa_used (vm_fa st') f
}.

(** Every address space that shares no user table with this one stays as it
    is. *)
Definition spares st st' : Prop := forall B, pt_wf st B -> separate (vm_mem st) root B ->
  pt_wf st' B /\ separate (vm_mem st') root B /\
  forall q, idx_ok q -> (length q <= 4)%nat -> xl (vm_mem st') B q = xl (vm_mem st) B q.

Lemma spares_refl st : spares st st.
Proof. by intros B W Hs. Qed.

Lemma spares_trans st1 st2 st3 : spares st1 st2 -> spares st2 st3 -> spares st1 st3.
Proof.
  intros S1 S2 B W Hs. destruct (S1 B W Hs) as (W2 & Hs2 & X2). destruct (S2 B W2 Hs2) as (W3 & Hs3 & X3).
  split_and!; [done..|]. intros q Hq Hl. by rewrite X3, X2.
Qed.

(** The same of [translate]. *)
Lemma spares_translate st st' B v : spares st st' -> pt_wf st B -> separate (vm_mem st) root B -> translate st' B v = translate st B v.
Proof.
  intros Hsp W Hs. destruct (Hsp B W Hs) as (W' & _ & X). apply translate_ext; [done..|]. apply X; [apply vpath_ok|simpl; lia].
Qed.

Lemma keeps_refl st : keeps st st.
Proof. by split. Qed.

Lemma keeps_trans st1 st2 st3 : keeps st1 st2 -> keeps st2 st3 -> keeps st1 st3.
Proof.
  intros [P1 K1 U1] [P2 K2 U2]. split.
  - intros v e Hv Hm. destruct (P1 v e Hv Hm) as [Hm2 B1]. destruct (P2 v e Hv Hm2) as [Hm3 B2].
    split; [done|]. intros j Hj. by rewrite B2, B1.
  - intros v Hv. by rewrite K2, K1.
  - auto.
Qed.

(** A fresh frame with any contents changes nothing of the tree. *)
Lemma fresh_frame st fa1 frame m2 : pt_wf st root -> fa_alloc (vm_fa st) = (fa1, frame) -> frame <> 0 ->
  outside (vm_mem st) m2 frame ->
  let st1 := mkVm m2 fa1 in
  pt_wf st1 root /\ (forall q, idx_ok q -> (length q <= 4)%nat -> walk m2 root q = walk (vm_mem st) root q /\
     xl m2 root q = xl (vm_mem st) root q).
Proof.
  intros W Ea Hne Ho st1. destruct (alloc_wf root st fa1 frame W Ea Hne) as (Hf & Hfr & Hu1 & W1 & Hnt & Hkeep).
  apply (kept_space st st1 root W).
  - apply (pw_ok _ _ W1).
  - intros f Hfa Hfu _. by apply Hkeep.
  - intros c f i Hc Hl Hw Hi. destruct (pw_used _ _ W c f Hc Hl Hw) as [Hfa Hfu]. apply entry_outside with frame; auto with nova.
    intros ->. done.
Qed.

(** [install_page] of the loader: [vmmMapPage] of a fresh frame, which is
    freed again when there is no memory for a table. *)
Definition installed (r : Vm S * Z) (frame : Z) : Vm S :=
  if r.2 =? 0 then r.1 else mkVm (vm_mem r.1) (fa_free (vm_fa r.1) frame).

Section Install.
Context (st : Vm S) (l : list Vma) (fa1 : S) (frame : Z) (m2 : mem) (va flags : Z).
Hypothesis Hso : space_ok st l.
Hypothesis Ea : fa_alloc (vm_fa st) = (fa1, frame).
Hypothesis Hne : frame <> 0.
Hypothesis Ho : outside (vm_mem st) m2 frame.
Hypothesis Hva : user va.
Hypothesis Hvma : is_Some (vmaFind l va).
Hypothesis Hnone : xl (vm_mem st) root (vpath va) = None.
Hypothesis Hfl : is_u64 flags.
Hypothesis Hfn : nextf flags = 0.

Let r := vmmMapPage (mkVm m2 fa1) (tbl root) va frame flags.

Lemma install_facts : frame_addr frame /\ ~ fa_used (vm_fa st) frame /\ map_frame (mkVm m2 fa1) r.1 root (vpath va) /\
  (forall f, frame_addr f -> fa_used (vm_fa st) f -> fa_used fa1 f) /\ fa_used fa1 frame /\
  (forall f, frame_addr f -> f = frame \/ fa_used (vm_fa st) f -> not_table (vm_mem st) root f -> not_table (vm_mem r.1) root f) /\
  ((r.2 = -1 /\ forall q, idx_ok q -> length q = 4%nat -> xl (vm_mem r.1) root q = xl (vm_mem st) root q) \/
   (r.2 = 0 /\ forall q, idx_ok q -> length q = 4%nat -> xl (vm_mem r.1) root q =
      if decide (q = vpath va) then Some (leaf_entry frame flags, 0%nat) else xl (vm_mem st) root q)).
Proof.
  pose proof (so_wf _ _ Hso) as W. destruct (alloc_wf root st fa1 frame W Ea Hne) as (Hf & Hfr & Hu1 & _ & _ & Hkeep).
  destruct (fresh_frame st fa1 frame m2 W Ea Hne Ho) as [W1 X1]. assert (Hfb : 0 < frame < 2 ^ 47) by apply Hf.
  destruct (vmmMapPage_spec (mkVm m2 fa1) root va frame flags) as [M C]; try done; [auto with nova|unfold is_u64; lia|lia| |].
  { intros e k. cbn [vm_mem]. rewrite (proj2 (X1 (vpath va) (vpath_ok _) ltac:(simpl; lia))), Hnone. done. }
  fold r in M, C. split_and!; try done.
  - intros f Hfa Hfu Hn q Hq Hl Hw. destruct (mf_back _ _ _ _ M q f Hq Hl Hw) as [Hw1|Hw1]; cbn [vm_mem vm_fa] in Hw1.
    + rewrite (proj1 (X1 q Hq ltac:(lia))) in Hw1. by apply (Hn q).
    + destruct Hfu as [-> | Hfu]; [done|]. by apply Hw1, Hkeep.
  - destruct C as [[E X]|[E X]]; [left|right]; (split; [done|]); intros q Hq Hl; rewrite X by done; cbn [vm_mem];
      by rewrite (proj2 (X1 q Hq ltac:(lia))).
Qed.

(** The bytes of frames in use, the new one included. *)
Lemma install_bytes f : frame_addr f -> f = frame \/ fa_used (vm_fa st) f -> not_table (vm_mem st) root f ->
  forall j, 0 <= j < 4096 -> rd8 (vm_mem r.1) (tbl f + j) = rd8 m2 (tbl f + j).
Proof.
  intros Hf Hu Hn. destruct install_facts as (Hfa & Hfr & M & Hk & Hu1 & _). apply bytes_entry. intros i Hi.
  destruct (fresh_frame st fa1 frame m2 (so_wf _ _ Hso) Ea Hne Ho) as [_ X1].
  apply (mf_keep _ _ _ _ M); [done|destruct Hu as [-> | Hu]; [done|by apply Hk]| |done].
  intros (q & r' & E & Hl & Hw). pose proof (vpath_ok va) as Hp. rewrite E in Hp. apply idx_ok_app in Hp as [Hq _].
  cbn [vm_mem] in Hw. rewrite (proj1 (X1 q Hq ltac:(lia))) in Hw. by apply (Hn q).
Qed.

Lemma frame_not_table : not_table (vm_mem st) root frame.
Proof. apply (alloc_wf root st fa1 frame (so_wf _ _ Hso) Ea Hne). Qed.

(** Frames other than the new one keep their use after a release of it. *)
Lemma install_used f : frame_addr f -> fa_used (vm_fa st) f -> fa_used (vm_fa (installed r frame)) f.
Proof.
  intros Hf Hu. destruct install_facts as (Hfa & Hfr & M & Hk & _). assert (Hfb : 0 < frame < 2 ^ 47) by apply Hfa.
  assert (Hur : fa_used (vm_fa r.1) f) by (apply (mf_used _ _ _ _ M); [done|by apply Hk]).
  unfold installed. destruct (r.2 =? 0); [done|]. cbn [vm_fa].
  apply fa_free_used; [apply (mf_wf _ _ _ _ M)|unfold is_u64; lia|done|]. split; [done|]. intros ->. done.
Qed.

Lemma install_mem : vm_mem (installed r frame) = vm_mem r.1.
Proof. unfold installed. by destruct (r.2 =? 0). Qed.

Lemma install_keeps : keeps st (installed r frame).
Proof.
  destruct install_facts as (Hfa & Hfr & M & Hk & Hu1 & Hnt & C). constructor; rewrite ?install_mem.
  - intros v e Hv Hm. destruct (so_page _ _ Hso v e 0%nat Hv Hm) as (_ & _ & F1 & F2 & F3). split.
    + unfold mapped in *. rewrite install_mem. destruct C as [[_ X]|[_ X]]; rewrite X by (done || apply vpath_ok); [done|].
      case_decide as E; [|done]. rewrite E in Hm. congruence.
    + intros j Hj. rewrite install_bytes by auto. apply outside_bytes with frame; auto with nova. intros E. by rewrite E in F2.
  - intros v Hv. destruct C as [[_ X]|[_ X]]; rewrite X by (done || apply vpath_ok); [done|].
    case_decide as E; [|done]. rewrite vpath_vpage in E by auto with nova. exfalso. by apply (user_kernel_vpage va v).
  - intros f. apply install_used.
Qed.

(** It fails only when the allocator has no frame left. *)
Lemma install_none : r.2 <> 0 -> (fa_alloc (vm_fa r.1)).2 = 0.
Proof.
  intros Hr. pose proof (so_wf _ _ Hso) as W. destruct install_facts as (Hfa & Hfr & _). assert (Hfb : 0 < frame < 2 ^ 47) by apply Hfa.
  destruct (fresh_frame st fa1 frame m2 W Ea Hne Ho) as [W1 X1].
  destruct (vmmMapPage_outcome (mkVm m2 fa1) root va frame flags) as [_ C]; try done; [auto with nova|unfold is_u64; lia|lia| |].
  { intros e k. cbn [vm_mem]. rewrite (proj2 (X1 (vpath va) (vpath_ok _) ltac:(simpl; lia))), Hnone. done. }
  fold r in C. by destruct C as [(_ & E & _)|[E _]].
Qed.

Lemma install_full : r.2 <> 0 -> out_of_frames (vm_fa st) (vm_fa (installed r frame)).
Proof.
  intros Hr. destruct install_facts as (Hfa & Hfr & _). exists (vm_fa r.1). split; [by apply install_none|]. right. exists frame.
  split_and!; [done..|]. unfold installed. destruct (Z.eqb_spec r.2 0); done.
Qed.

(** With a frame for the page, one for each table and one more it succeeds. *)
Lemma install_left n : frames_left (5 + n) (vm_fa st) -> r.2 = 0 /\ frames_left (1 + n) (vm_fa r.1).
Proof.
  intros [_ Hl]. rewrite Ea in Hl. cbn [fst] in Hl.
  pose proof (vmmMapPage_left (1 + n) (mkVm m2 fa1) (tbl root) va frame flags Hl) as Hl2. split; [|exact Hl2].
  destruct (Z.eq_dec r.2 0) as [|Hr]; [done|]. destruct Hl2 as [Hx _]. by apply install_none in Hr.
Qed.

Lemma install_other v : user v -> vpage v <> vpage va -> xl (vm_mem (installed r frame)) root (vpath v) = xl (vm_mem st) root (vpath v).
Proof.
  intros Hv Hd. destruct install_facts as (_ & _ & _ & _ & _ & _ & C). rewrite install_mem.
  destruct C as [[_ X]|[_ X]]; rewrite X by (done || apply vpath_ok); [done|].
  case_decide as E; [|done]. rewrite vpath_vpage in E by auto with nova. done.
Qed.

(** Whatever happens, a translation of the new state is an old one or the new
    page. *)
Lemma install_cases v e k : user v -> xl (vm_mem (installed r frame)) root (vpath v) = Some (e, k) ->
  xl (vm_mem st) root (vpath v) = Some (e, k) \/
  (r.2 = 0 /\ vpage v = vpage va /\ e = leaf_entry frame flags /\ k = 0%nat).
Proof.
  intros Hv Hx. destruct install_facts as (_ & _ & _ & _ & _ & _ & C). rewrite install_mem in Hx.
  destruct C as [[E X]|[E X]]; rewrite X in Hx by (done || apply vpath_ok); [by left|].
  case_decide as Ev; [|by left]. rewrite vpath_vpage in Ev by auto with nova. right. by simplify_eq.
Qed.

Lemma install_space : space_ok (installed r frame) l.
Proof.
  destruct install_facts as (Hfa & Hfr & M & Hk & Hu1 & Hnt & C). constructor.
  - unfold installed. destruct (r.2 =? 0); [apply (mf_wf _ _ _ _ M)|].
    apply free_nontable_wf; [apply (mf_wf _ _ _ _ M)|done|]. apply Hnt; auto using frame_not_table.
  - apply Hso.
  - intros v e k Hv Hx. destruct (install_cases v e k Hv Hx) as [Hx0|(E & Ev & -> & ->)].
    + destruct (so_page _ _ Hso v e k Hv Hx0) as (F0 & F1 & F2 & F3 & F4). split_and!; try done; [by apply install_used|].
      rewrite install_mem. apply Hnt; auto.
    + rewrite leaf_frame by done. split_and!; try done.
      * rewrite (vmaFind_page l v va) by (done || apply Hso). done.
      * unfold installed. rewrite E. simpl. by apply (mf_used _ _ _ _ M).
      * rewrite install_mem. apply Hnt; auto using frame_not_table.
  - intros v w e e' Hv Hw Hm Hm' E.
    destruct (install_cases v e _ Hv Hm) as [X1|(_ & V1 & -> & _)], (install_cases w e' _ Hw Hm') as [X2|(_ & V2 & -> & _)].
    + by apply (so_inj _ _ Hso v w e e').
    + rewrite leaf_frame in E by done. destruct (so_page _ _ Hso v e _ Hv X1) as (_ & _ & _ & F & _). by rewrite E in F.
    + rewrite leaf_frame in E by done. destruct (so_page _ _ Hso w e' _ Hw X2) as (_ & _ & _ & F & _). by rewrite <- E in F.
    + congruence.
Qed.

(** The page that was mapped. *)
Lemma install_page : r.2 = 0 -> mapped (installed r frame) va (leaf_entry frame flags) /\ nextf (leaf_entry frame flags) = frame /\
  forall j, 0 <= j < 4096 -> rd8 (vm_mem (installed r frame)) (tbl frame + j) = rd8 m2 (tbl frame + j).
Proof.
  intros Er. destruct install_facts as (Hfa & _ & _ & _ & _ & _ & C). unfold mapped. rewrite install_mem. split_and!.
  - destruct C as [[E _]|[_ X]]; [rewrite Er in E; done|]. rewrite X by (done || apply vpath_ok). by rewrite decide_True.
  - by apply leaf_frame.
  - apply install_bytes; auto using frame_not_table.
Qed.

Lemma install_result : r.2 = 0 \/ r.2 = -1.
Proof. destruct install_facts as (_ & _ & _ & _ & _ & _ & [[E _]|[E _]]); auto. Qed.
End Install.
End Space.

(** Other address spaces do not see a page that is installed. *)
Lemma install_spares {S} `{FrameAllocator S} `{!FrameAllocatorLaws S} root (st : Vm S) l fa1 frame m2 va flags : space_ok root st l ->
  fa_alloc (vm_fa st) = (fa1, frame) -> frame <> 0 -> outside (vm_mem st) m2 frame -> user va ->
  xl (vm_mem st) root (vpath va) = None -> is_u64 flags -> nextf flags = 0 ->
  spares root st (installed (vmmMapPage (mkVm m2 fa1) (tbl root) va frame flags) frame).
Proof.
  intros Hso Ea Hne Ho Hva Hnone Hfl Hfn B WB Hs. pose proof (so_wf _ _ _ Hso) as W.
  destruct (install_facts root st l fa1 frame m2 va flags Hso Ea Hne Ho Hva Hnone Hfl Hfn) as (Hfa & Hfr & M & _).
  destruct (fresh_frame root st fa1 frame m2 W Ea Hne Ho) as [_ X1]. destruct (fresh_frame B st fa1 frame m2 WB Ea Hne Ho) as [WB1 XB].
  assert (Hs1 : separate m2 root B).
  { intros q f Hq Hl Hd Hw c Hc Hlc Hwc. rewrite (proj1 (X1 q Hq ltac:(lia))) in Hw. rewrite (proj1 (XB c Hc ltac:(lia))) in Hwc.
    by apply (Hs q f Hq Hl Hd Hw c). }
  destruct (map_separate (mkVm m2 fa1) _ root B va WB1 Hs1 Hva M) as (W2 & Hs2 & X2).
  pose proof (install_mem root fa1 frame m2 va flags) as Em. cbv zeta in Em.
  set (r := vmmMapPage (mkVm m2 fa1) (tbl root) va frame flags) in *. rewrite Em. split_and!; [|done|].
  - unfold installed. destruct (r.2 =? 0); [done|]. apply free_nontable_wf; [done..|].
    intros q Hq Hl Hw. destruct (map_keeps_space (mkVm m2 fa1) r.1 root B va WB1 Hs1 Hva M) as [_ X].
    rewrite (proj1 (X q Hq ltac:(lia))) in Hw. cbn [vm_mem] in Hw. rewrite (proj1 (XB q Hq ltac:(lia))) in Hw.
    by apply Hfr, (pw_used st B WB q frame).
  - intros q Hq Hl. rewrite X2 by done. cbn [vm_mem]. apply XB; done.
Qed.
