(* ===== verification/Loader.v ===== *)
(** * Starting a program (src/kernel/sched/sched.c): operations

    [loadElfSegments] maps the segments of an ELF file into an address
    space, [schedCreateProcess] makes the process, and [schedSpawn] reads
    the program and its interpreter, maps both, lays out the initial user
    stack and creates the first thread.

    A file that was read is a list of bytes, [image] its bytes in memory
    from address 0.  [None] is an access behind the end of a file, or a loop
    without enough fuel.  Whether a kernel allocation succeeds is [km] of its
    size, or the address it returned ([pp] for the process, [tp] and [stack]
    for the thread), 0 for none. *)

From Stdlib Require Import ZArith Lia Bool String.
From stdpp Require Import base list gmap strings.
From S2P Require Import Prelude Mem Str Frames PageTable Vma Sched Block Gpt Fat32 Elf Krsym.

Definition USER_INTERP_BASE : Z := 0x0000700000000000.
Definition DYN_BASE : Z := 0x0000000000400000.
(** [sizeof(Vma)] and the size of the top page of the stack. *)
Definition VMA_SIZE : Z := 40.

Definition image (data : list Z) : mem := put_bytes ∅ 0 data.
Definition file_size (data : list Z) : Z := Z.of_nat (length data).
Definition slice (data : list Z) (off n : Z) : list Z := take (Z.to_nat n) (drop (Z.to_nat off) data).

(** Program header [i]. *)
Definition file_phdr (data : list Z) (phoff i : Z) : option Elf64_Phdr :=
  let off := u64 (phoff + i * sizeof_Phdr) in
  if off + sizeof_Phdr <=? file_size data then Some (get_phdr (image data) off) else None.

Definition elf_prog_ok (e : Elf64_Ehdr) : bool :=
  negb (negb (ident e 0 =? 0x7F) || negb (ident e 1 =? 69) || negb (ident e 2 =? 76) || negb (ident e 3 =? 70)
        || negb (ident e 4 =? ELFCLASS64) || negb (ident e 5 =? ELFDATA2LSB) || negb (e_machine e =? EM_X86_64)
        || (negb (e_type e =? ET_EXEC) && negb (e_type e =? ET_DYN))).

(** ** Segments *)
Definition seg_vma_flags (p : Elf64_Phdr) : Z :=
  let f := VMA_USER in
  let f := if p_flags p &? PF_R then Z.lor f VMA_READ else f in
  let f := if p_flags p &? PF_W then Z.lor f VMA_WRITE else f in
  if p_flags p &? PF_X then Z.lor f VMA_EXEC else f.

Definition seg_pte_flags (p : Elf64_Phdr) : Z :=
  let f := Z.lor VMM_FLAG_PRESENT VMM_FLAG_USER in
  let f := if p_flags p &? PF_W then Z.lor f VMM_FLAG_WRITABLE else f in
  if negb (p_flags p &? PF_X) then Z.lor f VMM_FLAG_NO_EXECUTE else f.

(** What of the page at [pageV] comes from the file: the position in the
    file, in the page, and the length, which may be negative. *)
Definition page_overlap (p : Elf64_Phdr) (vaddr pageV : Z) : Z * Z * Z :=
  let fileEnd := u64 (vaddr + p_filesz p) in
  let pageEnd := u64 (pageV + PAGE_SIZE) in
  let overlapStart := if vaddr <? pageV then pageV else vaddr in
  let overlapEnd := if pageEnd <? fileEnd then pageEnd else fileEnd in
  (u64 (p_offset p + (overlapStart - vaddr)), overlapStart - pageV, overlapEnd - overlapStart).

Section Load.
Context {S : Type} `{FrameAllocator S}.
Implicit Types (st : Vm S).

(** One page: a zeroed frame, the part of the file, the mapping. *)
Definition load_page st (pml4 : Z) (data : list Z) (p : Elf64_Phdr) (vaddr pageV : Z) : option (Vm S * bool) :=
  let '(fa1, frame) := fa_alloc (vm_fa st) in
  if frame =? 0 then Some (mkVm (vm_mem st) fa1, false)
  else
    let m1 := (memset (vm_mem st) (u64 (frame + HHDM_BASE)) 0 PAGE_SIZE).1 in
    let '(fileOffset, frameOffset, copyLen) := page_overlap p vaddr pageV in
    m2 ← (if 0 <? copyLen then
            if fileOffset + copyLen <=? file_size data
            then Some (put_bytes m1 (u64 (frame + HHDM_BASE + frameOffset)) (slice data fileOffset copyLen))
            else None
          else Some m1);
    let '(st3, rc) := vmmMapPage (mkVm m2 fa1) pml4 pageV frame (seg_pte_flags p) in
    if negb (rc =? 0) then Some (mkVm (vm_mem st3) (fa_free (vm_fa st3) frame), false) else Some (st3, true).

(** [n] pages from [pageV] on. *)
Fixpoint load_pages (n : nat) st (pml4 : Z) (data : list Z) (p : Elf64_Phdr) (vaddr pageV : Z) : option (Vm S * bool) :=
  match n with
  | O => Some (st, true)
  | Datatypes.S k =>
      '(st1, ok) ← load_page st pml4 data p vaddr pageV;
      if (ok : bool) then load_pages k st1 pml4 data p vaddr (u64 (pageV + PAGE_SIZE)) else Some (st1, false)
  end.

(** One segment; [false] is the error. *)
Definition load_segment (vma_ok : bool) st (l : list Vma) (pml4 : Z) (data : list Z) (loadBias : Z) (p : Elf64_Phdr)
    : option (Vm S * list Vma * bool) :=
  if negb (p_type p =? PT_LOAD) then Some (st, l, true)
  else if (file_size data <? u64 (p_offset p + p_filesz p)) || (p_memsz p <? p_filesz p) then Some (st, l, false)
  else
    let vaddr := u64 (p_vaddr p + loadBias) in
    if USER_SPACE_MAX <? u64 (vaddr + p_memsz p) then Some (st, l, false)
    else
      let segStart := page_down vaddr in
      let segEnd := page_up (u64 (vaddr + p_memsz p)) in
      match vmaCreate vma_ok l segStart (u64 (segEnd - segStart)) (seg_vma_flags p) with
      | (l1, None) => Some (st, l1, false)
      | (l1, Some _) =>
          '(st1, ok) ← load_pages (Z.to_nat ((segEnd - segStart) / PAGE_SIZE)) st pml4 data p vaddr segStart;
          Some (st1, l1, ok)
      end.

Fixpoint load_segments (n : nat) (vma_ok : bool) st (l : list Vma) (pml4 : Z) (data : list Z) (loadBias phoff i : Z)
    : option (Vm S * list Vma * bool) :=
  match n with
  | O => Some (st, l, true)
  | Datatypes.S k =>
      p ← file_phdr data phoff i;
      '(st1, l1, ok) ← load_segment vma_ok st l pml4 data loadBias p;
      if (ok : bool) then load_segments k vma_ok st1 l1 pml4 data loadBias phoff (i + 1) else Some (st1, l1, false)
  end.

(** 0 or -1. *)
Definition loadElfSegments (vma_ok : bool) st (l : list Vma) (pml4 : Z) (data : list Z) (loadBias : Z)
    : option (Vm S * list Vma * Z) :=
  let e := get_ehdr (image data) 0 in
  if file_size data <? u64 (e_phoff e + e_phnum e * e_phentsize e) then Some (st, l, -1)
  else
    '(st1, l1, ok) ← load_segments (Z.to_nat (e_phnum e)) vma_ok st l pml4 data loadBias (e_phoff e) 0;
    Some (st1, l1, if (ok : bool) then 0 else -1).
End Load.

(** ** The initial stack

    The top page of the stack is at [page] in memory and at [top] of the
    user's address space; [sp] is the user's stack pointer. *)
Definition AT_PHDR : Z := 3.
Definition AT_PHENT : Z := 4.
Definition AT_PHNUM : Z := 5.
Definition AT_PAGESZ : Z := 6.
Definition AT_BASE : Z := 7.
Definition AT_FLAGS : Z := 8.
Definition AT_ENTRY : Z := 9.
Definition AT_RANDOM : Z := 25.
Definition AT_NULL : Z := 0.

Section Stack.
Context (page top : Z).

(** [stackMem + (sp - topPageVaddr)] *)
Definition at_sp (sp : Z) : Z := u64 (page + u64 (sp - top)).

(** The strings, from the last to the first; their addresses. *)
Fixpoint push_strings (m : mem) (sp : Z) (l : list (list Z)) : mem * Z * list Z :=
  match l with
  | [] => (m, sp, [])
  | a :: r =>
      let '(m1, sp1, ptrs) := push_strings m sp r in
      let sp2 := u64 (sp1 - (Z.of_nat (length a) + 1)) in
      (put_bytes m1 (at_sp sp2) (a ++ [0]), sp2, sp2 :: ptrs)
  end.

(** Words, from the last to the first. *)
Fixpoint push_words (m : mem) (sp : Z) (l : list Z) : mem * Z :=
  match l with
  | [] => (m, sp)
  | w :: r =>
      let '(m1, sp1) := push_words m sp r in
      let sp2 := u64 (sp1 - 8) in
      (wr64 m1 (at_sp sp2) w, sp2)
  end.

(** Pairs of the auxiliary vector. *)
Fixpoint push_auxv (m : mem) (sp : Z) (l : list (Z * Z)) : mem * Z :=
  match l with
  | [] => (m, sp)
  | (t, v) :: r =>
      let '(m1, sp1) := push_auxv m sp r in
      let sp2 := u64 (sp1 - 16) in
      (wr64 (wr64 m1 (at_sp sp2) t) (at_sp sp2 + 8) v, sp2)
  end.

(** The auxiliary vector; the last two fields come from the stack. *)
Definition auxv_of (phdr phent phnum base entry random : Z) : list (Z * Z) :=
  [(AT_PHDR, phdr); (AT_PHENT, phent); (AT_PHNUM, phnum); (AT_PAGESZ, PAGE_SIZE); (AT_BASE, base); (AT_FLAGS, 0);
   (AT_ENTRY, entry); (AT_RANDOM, random); (AT_NULL, 0)].

(** Strings, random bytes, padding, auxiliary vector, environment, arguments
    and their count, from [stackTop] down. *)
Definition build_stack (m : mem) (stackTop tsc pid : Z) (aux : Z -> list (Z * Z)) (argv envp : list (list Z)) : mem * Z :=
  let '(m1, sp1, argp) := push_strings m stackTop argv in
  let '(m2, sp2, envpp) := push_strings m1 sp1 envp in
  let randomPtr := u64 (sp2 - 16) in
  let r0 := Z.lxor tsc 0x9e3779b97f4a7c15 in
  let r1 := Z.lxor (Z.lxor (Z.shiftr r0 17) (u64 (Z.shiftl pid 16))) 0xbf58476d1ce4e5b9 in
  let m3 := wr64 (wr64 m2 (at_sp randomPtr) r0) (at_sp randomPtr + 8) r1 in
  let sp4 := Z.land randomPtr (u64 (Z.lnot 0xF)) in
  let auxv := aux randomPtr in
  let totalQwords := Z.of_nat (length auxv) * 2 + 1 + Z.of_nat (length envp) + 1 + Z.of_nat (length argv) + 1 in
  let '(m5, sp5) :=
    if negb (Z.land (u64 (sp4 - totalQwords * 8)) 0xF =? 0)
    then (wr64 m3 (at_sp (u64 (sp4 - 8))) 0, u64 (sp4 - 8)) else (m3, sp4) in
  let '(m6, sp6) := push_auxv m5 sp5 auxv in
  let '(m7, sp7) := push_words m6 sp6 (envpp ++ [0]) in
  push_words m7 sp7 (Z.of_nat (length argv) :: argp ++ [0]).
End Stack.

(** ** Processes *)
Section Spawn.
Context {S : Type} `{FrameAllocator S} {D : Type} `{BlockDevice D} (km : Z -> bool).

Record Spawn := mkSpawn { sp_vm : Vm S; sp_sched : Sched; sp_root : Root (D := D); gNextPid : Z }.

Definition set_spvm (s : Spawn) (vm : Vm S) : Spawn := mkSpawn vm (sp_sched s) (sp_root s) (gNextPid s).
Definition set_sproot (s : Spawn) (r : Root (D := D)) : Spawn := mkSpawn (sp_vm s) (sp_sched s) r (gNextPid s).
Definition set_spsched (s : Spawn) (x : Sched) : Spawn := mkSpawn (sp_vm s) x (sp_root s) (gNextPid s).

(** The kernel's page directory. *)
Context (gKernelPml4 : Z).

(** A name is cut to 31 bytes. *)
Definition proc_name (name : list Z) : list Z := if 32 <=? Z.of_nat (length name) then take 31 name else name.

(** The new process is at [pp]; 0 when there is no memory for it or for its
    page directory. *)
Definition schedCreateProcess (s : Spawn) (pp : Z) : Spawn * Z :=
  if pp =? 0 then (s, 0)
  else
    let pid := gNextPid s in
    let s1 := mkSpawn (sp_vm s) (sp_sched s) (sp_root s) (u32 (pid + 1)) in
    if pid =? 0 then (set_spsched s1 (set_proc (sp_sched s1) pp (mkProcess pid gKernelPml4 [] 0)), pp)
    else
      let '(vm, pml4) := vmmCreateAddressSpace (sp_vm s1) gKernelPml4 in
      if pml4 =? 0 then (set_spvm s1 vm, 0)
      else (set_spsched (set_spvm s1 vm) (set_proc (sp_sched s1) pp (mkProcess pid pml4 [] 0)), pp).

(** [vmaDestroyAll], [vmmDestroyAddressSpace] and [kfree] of a process that
    could not be started. *)
Definition discard (s : Spawn) (pp : Z) : Spawn :=
  let vm := vmmDestroyAddressSpace (sp_vm s) gKernelPml4 (p_pml4 (pr (sp_sched s) pp)) in
  let sch := sp_sched s in
  mkSpawn vm (mkSched (s_threads sch) (delete pp (s_procs sch)) (gCurrentThread sch) (gIdleThread sch) (gReadyQueueHead sch)
    (gReadyQueueTail sch) (gSleepQueueHead sch) (gSchedTicks sch) (gNextTid sch) (cpu_kstackTop sch) (cpu_currentThread sch) (cr3 sch))
    (sp_root s) (gNextPid s).

Definition set_vmas (s : Spawn) (pp : Z) (l : list Vma) : Spawn :=
  let p := pr (sp_sched s) pp in
  set_spsched s (set_proc (sp_sched s) pp (mkProcess (p_pid p) (p_pml4 p) l (p_threads p))).

(** [loadElfSegments] for the process at [pp]. *)
Definition load_into (s : Spawn) (pp : Z) (data : list Z) (bias : Z) : option (Spawn * Z) :=
  let p := pr (sp_sched s) pp in
  '(vm, l, rc) ← loadElfSegments (km VMA_SIZE) (sp_vm s) (p_vmas p) (p_pml4 p) data bias;
  Some (set_vmas (set_spvm s vm) pp l, rc).

(** ** The program headers *)

(** The C string at [off]; [None] without a terminator before the end. *)
Fixpoint cstring (data : list Z) : option (list Z) :=
  match data with [] => None | c :: r => if c =? 0 then Some [] else l ← cstring r; Some (c :: l) end.

(** Position of the interpreter's path and address of the headers. *)
Fixpoint scan_phdrs (n : nat) (data : list Z) (phoff bias i : Z) (acc : option Z * Z) : option (option Z * Z) :=
  match n with
  | O => Some acc
  | Datatypes.S k =>
      p ← file_phdr data phoff i;
      let acc' :=
        if p_type p =? PT_INTERP then
          if (u64 (p_offset p + p_filesz p) <=? file_size data) && (0 <? p_filesz p) then (Some (p_offset p), acc.2) else acc
        else if p_type p =? PT_PHDR then (acc.1, u64 (p_vaddr p + bias)) else acc in
      scan_phdrs k data phoff bias (i + 1) acc'
  end.

(** The first loaded segment that holds the headers. *)
Fixpoint find_phdrs (n : nat) (data : list Z) (phoff phsize bias i : Z) : option Z :=
  match n with
  | O => Some 0
  | Datatypes.S k =>
      p ← file_phdr data phoff i;
      if (p_type p =? PT_LOAD) && (p_offset p <=? phoff) && (u64 (phoff + phsize) <=? u64 (p_offset p + p_filesz p))
      then Some (u64 (u64 (p_vaddr p + bias) + (phoff - p_offset p)))
      else find_phdrs k data phoff phsize bias (i + 1)
  end.

(** What follows the last separator. *)
Fixpoint base_name (path base : list Z) : list Z :=
  match path with
  | [] => base
  | c :: r => base_name r (if (c =? 47) || (c =? 92) then r else base)
  end.

(** The places an interpreter is looked for, one after the other. *)
Fixpoint read_first (root : Root (D := D)) (paths : list (list Z)) : option (Root (D := D) * option (list Z)) :=
  match paths with
  | [] => Some (root, None)
  | p :: r =>
      '(root1, d) ← fs_read_file km root p;
      match d with Some x => Some (root1, Some x) | None => read_first root1 r end
  end.

Definition interp_paths (path : list Z) : list (list Z) :=
  let base := base_name path path in
  let bLen := Z.of_nat (length base) in
  path :: (match path with c :: r => if c =? 47 then [r] else [] | [] => [] end)
    ++ (if bLen + 5 <? 128 then [text "lib/" ++ base; text "bin/" ++ base] else [])
    ++ (if bLen + 12 <? 128 then [text "EFI/novaos/" ++ base] else []).

(** The interpreter: its entry point and load address, [None] inside for an
    error. *)
Definition load_interp (s : Spawn) (pp : Z) (data : list Z) (off : Z) : option (Spawn * option (Z * Z)) :=
  path ← cstring (drop (Z.to_nat off) data);
  '(root1, r) ← read_first (sp_root s) (interp_paths path);
  let s1 := set_sproot s root1 in
  match r with
  | None => Some (s1, None)
  | Some idata =>
      let ie := get_ehdr (image idata) 0 in
      if file_size idata <? sizeof_Ehdr then Some (s1, None)
      else if negb (elf_prog_ok ie) then Some (s1, None)
      else
        let bias := if e_type ie =? ET_DYN then USER_INTERP_BASE else 0 in
        '(s2, rc) ← load_into s1 pp idata bias;
        Some (s2, if negb (rc =? 0) then None else Some (u64 (e_entry ie + bias), bias))
  end.

(** The stack of the new process: its VMA, a zeroed top page, the layout. *)
Definition make_stack (s : Spawn) (pp tsc : Z) (aux : Z -> list (Z * Z)) (argv envp : list (list Z)) : Spawn * option Z :=
  let p := pr (sp_sched s) pp in
  let stackTop := USER_STACK_TOP_DEFAULT in
  match vmaCreate (km VMA_SIZE) (p_vmas p) (stackTop - USER_STACK_INITIAL_SIZE) USER_STACK_INITIAL_SIZE STACK_FLAGS with
  | (_, None) => (s, None)
  | (l1, Some _) =>
      let s1 := set_vmas s pp l1 in
      let '(fa1, frame) := fa_alloc (vm_fa (sp_vm s1)) in
      if frame =? 0 then (set_spvm s1 (mkVm (vm_mem (sp_vm s1)) fa1), None)
      else
        let page := u64 (frame + HHDM_BASE) in
        let m1 := (memset (vm_mem (sp_vm s1)) page 0 PAGE_SIZE).1 in
        let '(vm, rc) := vmmMapPage (mkVm m1 fa1) (p_pml4 p) (stackTop - PAGE_SIZE) frame
                           (Z.lor (Z.lor VMM_FLAG_PRESENT VMM_FLAG_WRITABLE) VMM_FLAG_USER) in
        if negb (rc =? 0) then (set_spvm s1 (mkVm (vm_mem vm) (fa_free (vm_fa vm) frame)), None)
        else if negb (km ((Z.of_nat (length argv) + 1) * 8)) then (set_spvm s1 vm, None)
        else if negb (km ((Z.of_nat (length envp) + 1) * 8))
        then (set_spvm s1 (mkVm (push_strings page (stackTop - PAGE_SIZE) (vm_mem vm) stackTop argv).1.1 (vm_fa vm)), None)
        else
          let '(m2, sp) := build_stack page (stackTop - PAGE_SIZE) (vm_mem vm) stackTop tsc (p_pid p) aux argv envp in
          (set_spvm s1 (mkVm m2 (vm_fa vm)), Some sp)
  end.

(** The stack and the first thread. *)
Definition start_process (s : Spawn) (proc tp stack tsc entryPoint : Z) (aux : Z -> list (Z * Z)) (argv envp : list (list Z))
    : option (Spawn * Z) :=
  let '(s4, sp) := make_stack s proc tsc aux argv envp in
  match sp with
  | None => Some (discard s4 proc, 0)
  | Some sp =>
      '(sch, t) ← schedCreateUserThread 0 true (sp_sched s4) proc entryPoint sp 0 tp stack;
      let s5 := set_spsched s4 sch in
      if t =? 0 then Some (discard s5 proc, 0) else Some (s5, proc)
  end.

(** [argv] and [envp] are [None] for NULL; [tsc] is the time stamp counter. *)
Definition schedSpawn (s : Spawn) (pp tp stack tsc : Z) (path name : option (list Z)) (argv envp : option (list (list Z)))
    : option (Spawn * Z) :=
  match path with
  | None => Some (s, 0)
  | Some path =>
      '(root1, r) ← fs_read_file km (sp_root s) path;
      let s := set_sproot s root1 in
      match r with
      | None => Some (s, 0)
      | Some data =>
          let e := get_ehdr (image data) 0 in
          let phsize := e_phnum e * e_phentsize e in
          if file_size data <? sizeof_Ehdr then Some (s, 0)
          else if negb (elf_prog_ok e) then Some (s, 0)
          else if file_size data <? u64 (e_phoff e + phsize) then Some (s, 0)
          else
            let bias := if e_type e =? ET_DYN then DYN_BASE else 0 in
            let '(s1, proc) := schedCreateProcess s pp in
            if proc =? 0 then Some (s1, 0)
            else
              '(s2, rc) ← load_into s1 proc data bias;
              if negb (rc =? 0) then Some (discard s2 proc, 0)
              else
                '(interp, ph) ← scan_phdrs (Z.to_nat (e_phnum e)) data (e_phoff e) bias 0 (None, 0);
                phdrAddr ← (if ph =? 0 then find_phdrs (Z.to_nat (e_phnum e)) data (e_phoff e) phsize bias 0 else Some ph);
                '(s3, ent) ← (match interp with
                              | None => Some (s2, Some (u64 (e_entry e + bias), 0))
                              | Some off => load_interp s2 proc data off
                              end);
                match ent with
                | None => Some (discard s3 proc, 0)
                | Some (entryPoint, interpBase) =>
                    let args := default [proc_name (default path name)] argv in
                    let aux random := auxv_of phdrAddr (e_phentsize e) (e_phnum e) interpBase (u64 (e_entry e + bias)) random in
                    start_process s3 proc tp stack tsc entryPoint aux args (default [] envp)
                end
      end
  end.
End Spawn.
