(* ===== verification/LoaderProps.v ===== *)
(** * Starting a program: the segments

    [loadElfSegments] puts the bytes of every loadable segment at its user
    address, with the rights of its flags, zeros after the end of the file
    part, and leaves what was mapped before untouched. *)

From Stdlib Require Import ZArith Lia Bool.
From stdpp Require Import base list gmap.
From S2P Require Import Prelude Mem Str Frames Pmm PageTable PtWalk PtOps AddrSpace Vma PageFault KPages Block Gpt Elf UserSpace Loader.

Section Segments.
Context {S : Type} `{FrameAllocator S} `{!FrameAllocatorLaws S}.
Context (root : Z) (data : list Z) (bias : Z).
Implicit Types (st : Vm S) (p : Elf64_Phdr).

Definition seg_addr (p : Elf64_Phdr) : Z := p_vaddr p + bias.

(** The byte of segment [p] at address [a]. *)
Definition seg_byte p (a : Z) : Z :=
  if (seg_addr p <=? a) && (a <? seg_addr p + p_filesz p) then rd8 (image data) (p_offset p + (a - seg_addr p)) else 0.

(** No sum the loader computes of a header wraps around. *)
Record seg_sane p : Prop := {
  ss_off : 0 <= p_offset p; ss_filesz : 0 <= p_filesz p; ss_memsz : 0 <= p_memsz p; ss_vaddr : 0 <= seg_addr p;
  ss_file : p_offset p + p_filesz p < 2 ^ 64;
  ss_mem : seg_addr p + p_memsz p + 4096 <= 2 ^ 64
}.

(** The page at [va] is mapped with the rights of [p] and holds its bytes. *)
Definition page_loaded st p (va : Z) : Prop :=
  exists f, mapped root st va (leaf_entry f (seg_pte_flags p)) /\ nextf (leaf_entry f (seg_pte_flags p)) = f /\
    forall j, 0 <= j < 4096 -> rd8 (vm_mem st) (tbl f + j) = seg_byte p (va + j).

Lemma page_loaded_keeps st st' p va : user va -> keeps root st st' -> page_loaded st p va -> page_loaded st' p va.
Proof.
  intros Hva K (f & Hm & Hn & B). destruct (ke_page _ _ _ K va _ Hva Hm) as [Hm' B']. rewrite Hn in B'.
  exists f. split_and!; try done. intros j Hj. by rewrite B', B.
Qed.

Lemma seg_pte_flags_ok p : is_u64 (seg_pte_flags p) /\ nextf (seg_pte_flags p) = 0.
Proof. unfold seg_pte_flags. destruct (p_flags p &? PF_W), (p_flags p &? PF_X); vm_compute; by split. Qed.

Lemma rd8_image i : 0 <= i -> rd8 (image data) i = u8 (default 0 (data !! Z.to_nat i)).
Proof.
  intros Hi. unfold image. rewrite rd8_put_bytes, Z.sub_0_r. destruct (Z.ltb_spec i (0 + Z.of_nat (length data))) as [|Hl].
  - destruct (Z.leb_spec 0 i); [done|lia].
  - rewrite andb_false_r. rewrite lookup_ge_None_2 by lia. done.
Qed.

Lemma tbl_offset f k : frame_addr f -> 0 <= k < 4096 -> u64 (f + HHDM_BASE + k) = tbl f + k.
Proof. intros [Hf Hm] Hk. assert (f + 4096 <= 2 ^ 47) by divlia.
  unfold tbl, HHDM_BASE. rewrite !u64_id by (unfold is_u64; lia). lia.
Qed.

(** What the loader computes for a page. *)
Definition ov_start p (va : Z) : Z := Z.max va (seg_addr p).
Definition ov_len p (va : Z) : Z := Z.min (va + 4096) (seg_addr p + p_filesz p) - ov_start p va.

Lemma page_overlap_spec p va : seg_sane p -> user va -> p_filesz p <= p_memsz p -> seg_addr p < va + 4096 ->
  va < seg_addr p + p_memsz p + 4096 ->
  exists off, page_overlap p (seg_addr p) va = (off, ov_start p va - va, ov_len p va) /\
    (0 < ov_len p va -> off = p_offset p + (ov_start p va - seg_addr p) /\ off + ov_len p va <= p_offset p + p_filesz p /\
       0 <= ov_start p va - va < 4096).
Proof.
  intros [H1 H2 H6 H3 H4 H5] Hva Hsz Hlo Hhi. unfold user in Hva. unfold page_overlap, ov_len, ov_start, PAGE_SIZE.
  rewrite (u64_id (seg_addr p + p_filesz p)), (u64_id (va + 4096)) by (unfold is_u64; lia).
  eexists. split.
  - f_equal; [f_equal|]; [destruct (Z.ltb_spec (seg_addr p) va); lia|].
    destruct (Z.ltb_spec (seg_addr p) va), (Z.ltb_spec (va + 4096) (seg_addr p + p_filesz p)); lia.
  - intros Hl. rewrite u64_id; destruct (Z.ltb_spec (seg_addr p) va); unfold is_u64; lia.
Qed.

(** The contents of the frame of a page. *)
Definition page_image (m : mem) p (f va : Z) : mem :=
  let m1 := (memset m (tbl f) 0 PAGE_SIZE).1 in
  if 0 <? ov_len p va
  then put_bytes m1 (tbl f + (ov_start p va - va)) (slice data (p_offset p + (ov_start p va - seg_addr p)) (ov_len p va)) else m1.

Lemma length_slice off n : 0 <= off -> 0 <= n -> off + n <= file_size data -> Z.of_nat (length (slice data off n)) = n.
Proof. unfold slice, file_size. intros. rewrite length_take, length_drop. lia. Qed.

Lemma lookup_slice off n i : 0 <= off -> 0 <= i < n -> slice data off n !! Z.to_nat i = data !! Z.to_nat (off + i).
Proof. intros. unfold slice. rewrite lookup_take_lt by lia. rewrite lookup_drop. f_equal. lia. Qed.

Lemma page_image_spec m p f va : seg_sane p -> user va -> p_filesz p <= p_memsz p -> p_offset p + p_filesz p <= file_size data ->
  outside m (page_image m p f va) f /\
  forall j, 0 <= j < 4096 -> rd8 (page_image m p f va) (tbl f + j) = seg_byte p (va + j).
Proof.
  intros [H1 H2 H6 H3 H4 H5] Hva Hsz Hfile. pose proof (memset_filled m (tbl f) 0 PAGE_SIZE ltac:(done)) as Hm. unfold PAGE_SIZE in Hm.
  unfold page_image, PAGE_SIZE. destruct (Z.ltb_spec 0 (ov_len p va)) as [Hl|Hl].
  - assert (Hb : va <= ov_start p va /\ ov_start p va + ov_len p va <= va + 4096) by (unfold ov_len, ov_start in *; lia).
    assert (Ho : 0 <= ov_start p va - seg_addr p /\ ov_start p va - seg_addr p + ov_len p va <= p_filesz p)
      by (unfold ov_len, ov_start in *; lia).
    split.
    + intros x Hx. rewrite rd8_put_bytes, length_slice by lia. rewrite Hm.
      destruct (Z.leb_spec (tbl f + (ov_start p va - va)) x), (Z.ltb_spec x (tbl f + (ov_start p va - va) + ov_len p va)),
        (Z.leb_spec (tbl f) x), (Z.ltb_spec x (tbl f + 4096)); simpl; done || lia.
    + intros j Hj. rewrite rd8_put_bytes, length_slice by lia. unfold seg_byte.
      destruct (Z.leb_spec (tbl f + (ov_start p va - va)) (tbl f + j)), (Z.ltb_spec (tbl f + j) (tbl f + (ov_start p va - va) + ov_len p va)),
        (Z.leb_spec (seg_addr p) (va + j)), (Z.ltb_spec (va + j) (seg_addr p + p_filesz p)); cbn [andb];
        try (unfold ov_len, ov_start in *; lia).
      1: { rewrite rd8_image by lia. rewrite lookup_slice by lia. do 4 f_equal. lia. }
      all: rewrite Hm; destruct (Z.leb_spec (tbl f) (tbl f + j)), (Z.ltb_spec (tbl f + j) (tbl f + 4096)); simpl; done || lia.
  - split.
    + intros x Hx. rewrite Hm. destruct (Z.leb_spec (tbl f) x), (Z.ltb_spec x (tbl f + 4096)); simpl; done || lia.
    + intros j Hj. rewrite Hm. unfold seg_byte.
      destruct (Z.leb_spec (tbl f) (tbl f + j)), (Z.ltb_spec (tbl f + j) (tbl f + 4096)); simpl; try lia.
      destruct (Z.leb_spec (seg_addr p) (va + j)), (Z.ltb_spec (va + j) (seg_addr p + p_filesz p)); cbn [andb]; try done.
      unfold ov_len, ov_start in *. lia.
Qed.

(** One page. *)
Lemma load_page_ok st l p va : space_ok root st l -> seg_sane p -> p_filesz p <= p_memsz p ->
  p_offset p + p_filesz p <= file_size data -> user va -> seg_addr p < va + 4096 -> va < seg_addr p + p_memsz p + 4096 ->
  is_Some (vmaFind l va) -> xl (vm_mem st) root (vpath va) = None ->
  exists st' ok, load_page st (tbl root) data p (seg_addr p) va = Some (st', ok) /\
    space_ok root st' l /\ keeps root st st' /\
    (forall v, user v -> vpage v <> vpage va -> xl (vm_mem st') root (vpath v) = xl (vm_mem st) root (vpath v)) /\
    (ok = true -> page_loaded st' p va) /\ spares root st st' /\ (ok = false -> out_of_frames (vm_fa st) (vm_fa st')) /\
    (forall n, frames_left (5 + n) (vm_fa st) -> ok = true /\ frames_left (1 + n) (vm_fa st')).
Proof.
  intros Hso Hs Hsz Hfile Hva Hlo Hhi Hvma Hnone. unfold load_page. destruct (fa_alloc (vm_fa st)) as [fa1 frame] eqn:Ea.
  destruct (Z.eqb_spec frame 0) as [-> | Hne].
  - pose proof (fa_alloc_null _ (pw_ok _ _ (so_wf _ _ _ Hso))) as Hn. rewrite Ea in Hn. specialize (Hn eq_refl).
    simpl in Hn. subst fa1. destruct st as [m fa]. eexists _, _. split; [reflexivity|]. cbn [vm_mem vm_fa].
    cbn [vm_fa] in Ea.
    split_and!; [done|apply keeps_refl|done|done|apply spares_refl| |intros n [Hx _]; by rewrite Ea in Hx].
    intros _. exists fa. rewrite Ea. by split; [|left].
  - destruct (page_overlap_spec p va) as (off & -> & Hoff); [done..|]. destruct (seg_pte_flags_ok p) as [Hfl Hfn].
    destruct (page_image_spec (vm_mem st) p frame va) as [Ho Hb]; [done..|].
    assert (Hf : frame_addr frame) by apply (install_facts root st l fa1 frame _ va _ Hso Ea Hne Ho Hva Hnone Hfl Hfn).
    fold (tbl frame).
    assert (E : (if 0 <? ov_len p va then
                   if off + ov_len p va <=? file_size data
                   then Some (put_bytes (memset (vm_mem st) (tbl frame) 0 PAGE_SIZE).1 (u64 (frame + HHDM_BASE + (ov_start p va - va)))
                          (slice data off (ov_len p va))) else None
                 else Some (memset (vm_mem st) (tbl frame) 0 PAGE_SIZE).1) = Some (page_image (vm_mem st) p frame va)).
    { unfold page_image. destruct (Z.ltb_spec 0 (ov_len p va)) as [Hl|]; [|done]. destruct (Hoff Hl) as (-> & H1 & H2).
      destruct (Z.leb_spec (p_offset p + (ov_start p va - seg_addr p) + ov_len p va) (file_size data)); [|lia]. by rewrite tbl_offset. }
    rewrite E. cbn [mbind option_bind]. set (m2 := page_image (vm_mem st) p frame va) in *.
    pose proof (install_space root st l fa1 frame m2 va (seg_pte_flags p) Hso Ea Hne Ho Hva Hvma Hnone Hfl Hfn) as I1.
    pose proof (install_keeps root st l fa1 frame m2 va (seg_pte_flags p) Hso Ea Hne Ho Hva Hnone Hfl Hfn) as I2.
    pose proof (install_other root st l fa1 frame m2 va (seg_pte_flags p) Hso Ea Hne Ho Hva Hnone Hfl Hfn) as I3.
    pose proof (install_page root st l fa1 frame m2 va (seg_pte_flags p) Hso Ea Hne Ho Hva Hnone Hfl Hfn) as I4.
    pose proof (install_full root st l fa1 frame m2 va (seg_pte_flags p) Hso Ea Hne Ho Hva Hnone Hfl Hfn) as I5.
    pose proof (install_spares root st l fa1 frame m2 va (seg_pte_flags p) Hso Ea Hne Ho Hva Hnone Hfl Hfn) as I6.
    pose proof (install_left root st l fa1 frame m2 va (seg_pte_flags p) Hso Ea Hne Ho Hva Hnone Hfl Hfn) as I7.
    cbv zeta in *. destruct (vmmMapPage (mkVm m2 fa1) (tbl root) va frame (seg_pte_flags p)) as [st3 rc]. unfold installed in *. cbn [fst snd] in *.
    destruct (Z.eqb_spec rc 0) as [Hrc|Hrc]; cbn [negb].
    + eexists _, true. split; [reflexivity|]. split_and!; try done; [|intros n Hn; split; [done|by apply I7]]. intros _. destruct (I4 Hrc) as (J1 & J2 & J3).
      exists frame. split_and!; try done. intros j Hj. by rewrite J3, Hb.
    + eexists _, false. split; [reflexivity|]. specialize (I5 Hrc). split_and!; try done. intros n Hn. by destruct (I7 n Hn).
Qed.

Lemma out_of_frames_later (fa fa1 fa2 : S) : (forall f, frame_addr f -> fa_used fa f -> fa_used fa1 f) ->
  out_of_frames fa1 fa2 -> out_of_frames fa fa2.
Proof. intros Hu (x & Hx & [-> | (f & Hf & Hn & ->)]); exists x; (split; [done|]); [by left|right; exists f; split_and!; auto]. Qed.

(** The pages of a segment. *)
Lemma load_pages_ok l p n : forall st va, space_ok root st l -> seg_sane p -> p_filesz p <= p_memsz p ->
  p_offset p + p_filesz p <= file_size data -> va mod 4096 = 0 -> 0 <= va -> va + Z.of_nat n * 4096 <= 2 ^ 47 ->
  seg_addr p < va + 4096 -> va + Z.of_nat n * 4096 < seg_addr p + p_memsz p + 4096 ->
  (forall v, va <= v < va + Z.of_nat n * 4096 -> is_Some (vmaFind l v) /\ xl (vm_mem st) root (vpath v) = None) ->
  exists st' ok, load_pages n st (tbl root) data p (seg_addr p) va = Some (st', ok) /\
    space_ok root st' l /\ keeps root st st' /\
    (ok = true -> forall i, 0 <= i < Z.of_nat n -> page_loaded st' p (va + i * 4096)) /\
    spares root st st' /\ (ok = false -> out_of_frames (vm_fa st) (vm_fa st')) /\
    (forall k, frames_left (4 * n + Datatypes.S k) (vm_fa st) -> ok = true /\ frames_left (Datatypes.S k) (vm_fa st')).
Proof.
  induction n as [|n IH]; intros st va Hso Hs Hsz Hfile Ha H0 Hmax Hlo Hhi Hpg.
  { eexists _, _. split; [reflexivity|]. by split_and!; [|apply keeps_refl|lia|apply spares_refl| |]. }
  assert (Hva : user va) by (unfold user; lia). destruct (Hpg va) as [Hvma Hnone]; [lia|].
  destruct (load_page_ok st l p va) as (st1 & ok & E & Hso1 & K1 & X1 & L1 & S1 & F1 & M1); try done; [lia|].
  assert (M1' : forall k, frames_left (4 * Datatypes.S n + Datatypes.S k) (vm_fa st) -> ok = true /\ frames_left (4 * n + Datatypes.S k) (vm_fa st1)).
  { intros k Hk. replace (4 * Datatypes.S n + Datatypes.S k)%nat with (5 + (4 * n + k))%nat in Hk by lia.
    replace (4 * n + Datatypes.S k)%nat with (1 + (4 * n + k))%nat by lia. by apply M1. }
  cbn [load_pages]. rewrite E. cbn [mbind option_bind]. destruct ok.
  2: { eexists _, _. split; [reflexivity|]. split_and!; try done. intros k Hk. by destruct (M1' k Hk). }
  unfold PAGE_SIZE. rewrite u64_id by (unfold is_u64; lia).
  destruct (IH st1 (va + 4096)) as (st2 & ok & E2 & Hso2 & K2 & L2 & S2 & F2 & M2); try done; try lia.
  - rewrite <- (Z.mul_1_l 4096) at 1. by rewrite Z.mod_add by lia.
  - intros v Hv. destruct (Hpg v) as [Hv1 Hv2]; [lia|]. split; [done|]. rewrite X1; [done|unfold user; lia|].
    rewrite !user_vpage by (unfold user; lia). divlia.
  - rewrite E2. eexists _, _. split; [reflexivity|].
    split_and!; [done|by apply keeps_trans with st1| |by apply spares_trans with st1|
      intros Hf; apply out_of_frames_later with (vm_fa st1); [apply K1|auto]|intros k Hk; by apply M2, M1'].
    intros Hok i Hi. destruct (Z.eq_dec i 0) as [-> | Hi0].
    + rewrite Z.mul_0_l, Z.add_0_r. apply page_loaded_keeps with st1; auto.
    + replace (va + i * 4096) with (va + 4096 + (i - 1) * 4096) by lia. apply L2; [done|lia].
Qed.

(** The VMAs that were there still are. *)
Definition vmas_keep (l l' : list Vma) : Prop := forall a v, vmaFind l a = Some v -> vmaFind l' a = Some v.

(** Every byte of [p] is where it belongs, with its rights. *)
Definition seg_loaded st (l : list Vma) p : Prop := p_type p = PT_LOAD -> forall a, seg_addr p <= a < seg_addr p + p_memsz p ->
  (exists v, vmaFind l a = Some v /\ vflags v = seg_vma_flags p) /\
  exists f, frame_addr f /\ mapped root st a (leaf_entry f (seg_pte_flags p)) /\ translate st root a = f + a mod 4096 /\
    rd8 (vm_mem st) (tbl f + a mod 4096) = if a <? seg_addr p + p_filesz p then rd8 (image data) (p_offset p + (a - seg_addr p)) else 0.

Lemma translate_leaf st a f fl : pt_wf st root -> is_u64 a -> mapped root st a (leaf_entry f fl) -> nextf (leaf_entry f fl) = f ->
  frame_addr f -> is_u64 fl -> nextf fl = 0 -> translate st root a = f + a mod 4096.
Proof.
  intros W Ha Hm Hn Hf Hfl Hfn. rewrite translate_xl by done. unfold mapped in Hm. rewrite Hm.
  assert (0 < f < 2 ^ 47 /\ f mod 4096 = 0) as [Hfb Hfm] by apply Hf.
  rewrite phys_of_leaf by (done || (unfold is_u64; lia) || lia). by rewrite page_down_id by (done || unfold is_u64; lia).
Qed.

Lemma vpath_in_page v a : user v -> v mod 4096 = 0 -> user a -> v <= a < v + 4096 -> vpath a = vpath v.
Proof. intros Hv Hm Ha Hr. apply vpath_vpage; auto with nova. rewrite !user_vpage by done. divlia. Qed.

Lemma seg_loaded_pages st l p n : space_ok root st l -> user (seg_addr p + p_memsz p - 1) -> 0 <= seg_addr p ->
  (forall i, 0 <= i < n -> page_loaded st p (page_down (seg_addr p) + i * 4096)) ->
  seg_addr p + p_memsz p <= page_down (seg_addr p) + n * 4096 -> p_filesz p <= p_memsz p ->
  (forall a, seg_addr p <= a < seg_addr p + p_memsz p -> exists v, vmaFind l a = Some v /\ vflags v = seg_vma_flags p) ->
  seg_loaded st l p.
Proof.
  intros Hso Hu H0 Hpl Hn Hsz Hv _ a Ha. split; [by apply Hv|]. unfold user in Hu.
  assert (Es : page_down (seg_addr p) = seg_addr p - seg_addr p mod 4096) by (apply page_down_spec; unfold is_u64; lia).
  assert (Hk : 0 <= (a - page_down (seg_addr p)) / 4096 < n) by (rewrite Es in *; divlia).
  destruct (Hpl _ Hk) as (f & Hm & Hf & B). set (va := page_down (seg_addr p) + (a - page_down (seg_addr p)) / 4096 * 4096) in *.
  assert (Hva : va mod 4096 = 0 /\ va <= a < va + 4096 /\ 0 <= va) by (unfold va; rewrite Es in *; divlia).
  assert (user va /\ user a) as [Uv Ua] by (unfold user; lia).
  assert (Hma : mapped root st a (leaf_entry f (seg_pte_flags p))) by (unfold mapped; rewrite (vpath_in_page va a) by (done || lia); done).
  destruct (so_page _ _ _ Hso a _ _ Ua Hma) as (_ & _ & Hfa & _). rewrite Hf in Hfa. destruct (seg_pte_flags_ok p) as [Hfl Hfn].
  exists f. split_and!; [done..|by apply translate_leaf with (seg_pte_flags p); auto with nova; apply Hso|].
  replace (a mod 4096) with (a - va) by divlia. rewrite B by lia. replace (va + (a - va)) with a by lia. unfold seg_byte.
  destruct (Z.leb_spec (seg_addr p) a); [done|lia].
Qed.

Lemma seg_loaded_keeps st st' l l' p : space_ok root st l -> space_ok root st' l' -> keeps root st st' -> vmas_keep l l' ->
  0 <= seg_addr p -> seg_addr p + p_memsz p <= 2 ^ 47 ->
  seg_loaded st l p -> seg_loaded st' l' p.
Proof.
  intros Hso Hso' K V H0 H1 Hl Ht a Ha. destruct (Hl Ht a Ha) as [(v & Hv & Hvf) (f & Hf & Hm & Htr & B)]. split; [eauto|].
  assert (Ua : user a) by (unfold user; lia). destruct (ke_page _ _ _ K a _ Ua Hm) as [Hm' B'].
  exists f. assert (Ef : translate st' root a = translate st root a).
  { apply translate_ext; [apply Hso|apply Hso'|]. by rewrite Hm, Hm'. }
  rewrite Ef. split_and!; [done..|]. destruct (seg_pte_flags_ok p) as [Hfl Hfn].
  rewrite leaf_frame in B' by done. rewrite B' by divlia. exact B.
Qed.

(** The page range of a segment. *)
Lemma seg_range p : seg_sane p -> let s := page_down (seg_addr p) in let e := page_up (u64 (seg_addr p + p_memsz p)) in
  0 <= s <= seg_addr p /\ seg_addr p < s + 4096 /\ s mod 4096 = 0 /\ e mod 4096 = 0 /\
  seg_addr p + p_memsz p <= e < seg_addr p + p_memsz p + 4096 /\ s <= e < 2 ^ 64 /\
  range_start s = s /\ range_end s (u64 (e - s)) = e.
Proof.
  intros [H1 H2 H6 H3 H4 H5] s e. assert (Es : s = seg_addr p - seg_addr p mod 4096) by (apply page_down_spec; unfold is_u64; lia).
  assert (Ee : e = seg_addr p + p_memsz p + (- (seg_addr p + p_memsz p)) mod 4096).
  { unfold e. rewrite u64_id by (unfold is_u64; lia). apply page_up_spec; lia. }
  assert (Hs : 0 <= s <= seg_addr p /\ seg_addr p < s + 4096 /\ s mod 4096 = 0) by (rewrite Es; divlia).
  assert (He : e mod 4096 = 0 /\ seg_addr p + p_memsz p <= e < seg_addr p + p_memsz p + 4096) by (rewrite Ee; divlia).
  assert (Hse : s <= e < 2 ^ 64) by divlia.
  split_and!; try lia.
  - apply page_down_id; [unfold is_u64; lia|tauto].
  - unfold range_end, PAGE_SIZE. rewrite (u64_id (e - s)) by (unfold is_u64; lia). replace (s + (e - s) + 4096 - 1) with (e + 4096 - 1) by lia.
    change (page_up e = e). rewrite page_up_spec by divlia. divlia.
Qed.

(** A new VMA keeps the space, and nothing is mapped under it yet. *)
Lemma new_vma ok0 st l l1 v s size flags : space_ok root st l -> is_u64 s -> is_u64 size ->
  vmaCreate ok0 l s size flags = (l1, Some v) ->
  let a := range_start s in let e := range_end s size in
  v = mkVma a e flags /\ a < e <= USER_SPACE_MAX /\ space_ok root st l1 /\ vmas_keep l l1 /\
  (forall x, a <= x < e -> vmaFind l1 x = Some v /\ (user x -> xl (vm_mem st) root (vpath x) = None)) /\
  (forall x, ~ a <= x < e -> vmaFind l1 x = vmaFind l x).
Proof.
  intros Hso Hs Hz E a e. pose proof (vmaCreate_spec ok0 l s size flags (so_vmas _ _ _ Hso) Hs Hz) as V. rewrite E in V.
  fold a e in V. destruct V as (Hl1 & Hbad & -> & Hfind). rewrite !orb_false_iff in Hbad. destruct Hbad as [[[[_ Hb2] Hb3] Hb4] _].
  apply Z.leb_gt in Hb2. apply Z.ltb_ge in Hb3.
  assert (Hout : forall x, a <= x < e -> vmaFind l x = None).
  { intros x Hx. apply vmaFind_none. intros c Hc Hca. apply not_true_iff_false in Hb4. apply Hb4, existsb_exists. exists c.
    split; [by apply list_elem_of_In|]. unfold vma_overlaps, vma_in in *.
    destruct (Z.ltb_spec a (vend c)), (Z.ltb_spec (vstart c) e); done || lia. }
  assert (Hvk : vmas_keep l l1).
  { intros x v Hv. rewrite Hfind. destruct (Z.leb_spec a x), (Z.ltb_spec x e); cbn [andb]; try done. rewrite Hout in Hv by lia. done. }
  split_and!; try done.
  - destruct Hso as [A B C D]. constructor; try done. intros v x k Hv Hx. destruct (C v x k Hv Hx) as (C1 & [w C2] & C3).
    split; [done|]. split; [|done]. exists w. by apply Hvk.
  - intros x Hx. split; [rewrite Hfind; destruct (Z.leb_spec a x), (Z.ltb_spec x e); done || lia|].
    intros Hu. destruct (xl (vm_mem st) root (vpath x)) as [[y k]|] eqn:Ex; [|done].
    destruct (so_page _ _ _ Hso x y k Hu Ex) as (_ & [w Hw] & _). rewrite Hout in Hw by lia. done.
  - intros x Hx. rewrite Hfind. destruct (Z.leb_spec a x), (Z.ltb_spec x e); done || lia.
Qed.

(** The pages of a segment. *)
Definition seg_pages p (x : Z) : Prop := page_down (seg_addr p) <= x < page_up (seg_addr p + p_memsz p).

(** Why a segment is refused: it is not in the file, it is smaller in memory
    than in the file, it ends above the user half, it has no page, there is no
    memory for its VMA, or one of its pages is taken. *)
Definition seg_refused (ok0 : bool) (taken : Z -> Prop) p : Prop := p_type p = PT_LOAD /\
  (file_size data < p_offset p + p_filesz p \/ p_memsz p < p_filesz p \/ USER_SPACE_MAX < seg_addr p + p_memsz p \/
   (forall x, ~ seg_pages p x) \/ ok0 = false \/ exists x, seg_pages p x /\ taken x).

(** It is, or the frames ran out. *)
Definition seg_failed (ok0 : bool) (taken : Z -> Prop) (fa fa' : S) p : Prop :=
  seg_refused ok0 taken p \/ (p_type p = PT_LOAD /\ out_of_frames fa fa').

Lemma seg_refused_more ok0 (taken taken' : Z -> Prop) p : (forall x, taken x -> taken' x) -> seg_refused ok0 taken p -> seg_refused ok0 taken' p.
Proof.
  intros Ht (Hp & C). split; [done|]. destruct C as [C|[C|[C|[C|[C|(x & C1 & C2)]]]]]; [tauto..|]. do 5 right. eauto.
Qed.

Lemma seg_failed_later ok0 (taken taken' : Z -> Prop) (fa fa1 fa2 : S) p : (forall x, taken x -> taken' x) ->
  (forall f, frame_addr f -> fa_used fa f -> fa_used fa1 f) -> seg_failed ok0 taken fa1 fa2 p -> seg_failed ok0 taken' fa fa2 p.
Proof.
  intros Ht Hu [C|[Hp C]]; [left; by apply seg_refused_more with taken|right]. split; [done|]. by apply out_of_frames_later with fa1.
Qed.

(** As many frames as the pages of a segment and their tables may take. *)
Definition seg_frames p : nat :=
  if p_type p =? PT_LOAD then (4 * Z.to_nat ((page_up (seg_addr p + p_memsz p) - page_down (seg_addr p)) / 4096))%nat else O.

(** [vmaCreate] refuses a range of pages in the user half only when it is
    empty, when there is no memory, or when an address of it is taken. *)
Lemma vma_refused ok0 l l1 s e flags : vmas_ok l -> 0 <= s <= e -> e <= USER_SPACE_MAX -> range_start s = s -> range_end s (u64 (e - s)) = e ->
  vmaCreate ok0 l s (u64 (e - s)) flags = (l1, None) -> l1 = l /\ (e <= s \/ ok0 = false \/ exists x, s <= x < e /\ is_Some (vmaFind l x)).
Proof.
  intros Hl Hs He R1 R2 E. unfold USER_SPACE_MAX in *. assert (Hu : is_u64 s) by (unfold is_u64; lia).
  pose proof (vmaCreate_spec ok0 l s (u64 (e - s)) flags Hl Hu (u64_range _)) as V.
  rewrite E in V. rewrite R1, R2 in V. destruct V as (_ & Hb & ->). split; [done|].
  rewrite u64_id in Hb by (unfold is_u64; lia). rewrite !orb_true_iff in Hb. unfold USER_SPACE_MAX in Hb.
  destruct (Z.le_gt_cases e s) as [|Hse]; [by left|right].
  destruct Hb as [[[[Hb|Hb]|Hb]|Hb]|Hb]; [apply Z.eqb_eq in Hb; lia|apply Z.leb_le in Hb; lia|apply Z.ltb_lt in Hb; lia| |by left; destruct ok0].
  right. apply existsb_exists in Hb as (c & Hc & Ho). apply list_elem_of_In in Hc. unfold vma_overlaps in Ho.
  apply andb_true_iff in Ho as [O1 O2]. apply Z.ltb_lt in O1, O2. destruct (vmas_from_lb 0 l Hl c Hc) as [_ (H1 & H2 & H3)].
  exists (Z.max s (vstart c)). split; [lia|]. exists c. apply (vmaFind_iff l 0); [done|]. split; [done|]. unfold vma_in. lia.
Qed.

(** One segment. *)
Lemma load_segment_ok ok0 st l p : space_ok root st l -> seg_sane p ->
  exists st' l' ok, load_segment ok0 st l (tbl root) data bias p = Some (st', l', ok) /\
    space_ok root st' l' /\ keeps root st st' /\ vmas_keep l l' /\
    (ok = true -> p_type p = PT_LOAD -> seg_addr p + p_memsz p <= 2 ^ 47 /\ seg_loaded st' l' p) /\
    spares root st st' /\
    (forall x, is_Some (vmaFind l' x) -> is_Some (vmaFind l x) \/ (p_type p = PT_LOAD /\ seg_pages p x)) /\
    (ok = false -> seg_failed ok0 (fun x => is_Some (vmaFind l x)) (vm_fa st) (vm_fa st') p) /\
    (forall k, frames_left (seg_frames p + Datatypes.S k) (vm_fa st) ->
       if ok then frames_left (Datatypes.S k) (vm_fa st') else seg_refused ok0 (fun x => is_Some (vmaFind l x)) p).
Proof.
  intros Hso Hs. pose proof Hs as [H1 H2 H6 H3 H4 H5]. unfold load_segment.
  assert (Hsame : forall b : bool, (b = true -> p_type p <> PT_LOAD) ->
    (b = false -> seg_refused ok0 (fun x => is_Some (vmaFind l x)) p) -> exists st' l' ok, Some (st, l, b) = Some (st', l', ok) /\
    space_ok root st' l' /\ keeps root st st' /\ vmas_keep l l' /\
    (ok = true -> p_type p = PT_LOAD -> seg_addr p + p_memsz p <= 2 ^ 47 /\ seg_loaded st' l' p) /\ spares root st st' /\
    (forall x, is_Some (vmaFind l' x) -> is_Some (vmaFind l x) \/ (p_type p = PT_LOAD /\ seg_pages p x)) /\
    (ok = false -> seg_failed ok0 (fun x => is_Some (vmaFind l x)) (vm_fa st) (vm_fa st') p) /\
    (forall k, frames_left (seg_frames p + Datatypes.S k) (vm_fa st) ->
       if ok then frames_left (Datatypes.S k) (vm_fa st') else seg_refused ok0 (fun x => is_Some (vmaFind l x)) p)).
  { intros b Hb Hf. exists st, l, b. split_and!; [done|done|apply keeps_refl|by intros a v| |apply spares_refl|by left|by left; auto|].
    - intros E1 E2. by destruct (Hb E1).
    - intros k Hk. destruct b; [|auto]. unfold seg_frames in Hk. destruct (Z.eqb_spec (p_type p) PT_LOAD) as [E|E]; [by destruct (Hb eq_refl)|done]. }
  destruct (Z.eqb_spec (p_type p) PT_LOAD) as [Ht|Ht]; cbn [negb]; [|by apply Hsame].
  rewrite (u64_id (p_offset p + p_filesz p)) by (unfold is_u64; lia).
  destruct (Z.ltb_spec (file_size data) (p_offset p + p_filesz p)), (Z.ltb_spec (p_memsz p) (p_filesz p)); cbn [orb];
    try (apply Hsame; [done|]; intros _; split; [done|tauto]).
  fold (seg_addr p). rewrite (u64_id (seg_addr p)) by (unfold is_u64; lia).
  pose proof (seg_range p Hs) as R. cbv zeta in R. rewrite (u64_id (seg_addr p + p_memsz p)) in * by (unfold is_u64; lia).
  assert (Epg : seg_pages p = fun x => page_down (seg_addr p) <= x < page_up (seg_addr p + p_memsz p)) by done.
  set (s := page_down (seg_addr p)) in *. set (e := page_up (seg_addr p + p_memsz p)) in *.
  destruct (Z.ltb_spec USER_SPACE_MAX (seg_addr p + p_memsz p)) as [|Hmax]; [apply Hsame; [done|]; intros _; split; [done|tauto]|].
  destruct R as (R1 & R2 & R3 & R4 & R5 & R6 & R7 & R8). unfold USER_SPACE_MAX in Hmax. assert (He47 : e <= 2 ^ 47) by divlia.
  pose proof (new_vma ok0 st l) as V. destruct (vmaCreate ok0 l s (u64 (e - s)) (seg_vma_flags p)) as [l1 [v|]] eqn:Ev.
  2: { destruct (vma_refused ok0 l l1 s e (seg_vma_flags p)) as [-> C]; try done; [apply Hso|lia|]. apply Hsame; [done|]. intros _.
       split; [done|]. do 3 right. rewrite Epg. destruct C as [C|[C|C]]; [left; intros x; lia|tauto..]. }
  assert (Hsu : is_u64 s) by (unfold is_u64; lia). destruct (V _ _ _ _ _ Hso Hsu (u64_range _) Ev) as (-> & Hse & Hso1 & Hvk & Hin & Hold). clear V.
  rewrite R7, R8 in *.
  assert (Hn : Z.of_nat (Z.to_nat ((e - s) / PAGE_SIZE)) * 4096 = e - s) by (unfold PAGE_SIZE; rewrite Z2Nat.id; divlia).
  destruct (load_pages_ok l1 p (Z.to_nat ((e - s) / PAGE_SIZE)) st s) as (st1 & ok & E & Hso2 & K & L & Sp & F & M); try done; try lia.
  { intros v Hv. destruct (Hin v) as [Hv1 Hv2]; [rewrite Hn in Hv; lia|]. split; [by eexists|]. apply Hv2. unfold user. lia. }
  rewrite E. eexists _, _, ok. split; [reflexivity|]. split_and!; try done.
  - intros Hok _. split; [lia|]. destruct (Z.eq_dec (p_memsz p) 0) as [Hz|Hz]; [intros _ a Ha; lia|].
    apply seg_loaded_pages with (Z.of_nat (Z.to_nat ((e - s) / PAGE_SIZE))); try done; [unfold user; lia|by apply L|fold s; lia|].
    intros a Ha. eexists. split; [apply Hin; lia|done].
  - intros x Hx. rewrite Epg. destruct (decide (s <= x < e)) as [|Hx0]; [by right|left]. by rewrite <- Hold.
  - intros Hf. right. auto.
  - intros k Hk. unfold seg_frames in Hk. rewrite Ht in Hk. destruct (M k Hk) as [-> Hl]. exact Hl.
Qed.

(** *** All segments *)
Definition phdr_nonneg p : Prop := 0 <= p_offset p /\ 0 <= p_filesz p /\ 0 <= p_memsz p /\ 0 <= p_vaddr p.

Lemma file_phdr_nonneg phoff i p : file_phdr data phoff i = Some p -> phdr_nonneg p.
Proof.
  unfold file_phdr. destruct (_ <=? _); [|done]. intros [= <-]. unfold phdr_nonneg, get_phdr. cbn.
  pose proof (fun a => rd64_range (image data) a) as R. unfold is_u64 in R. split_and!; apply R.
Qed.

(** No sum of header [p] wraps around. *)
Definition no_wrap p : Prop := p_offset p + p_filesz p < 2 ^ 64 /\ p_vaddr p + bias + p_memsz p + 4096 <= 2 ^ 64.

(** [p] lies in the user half. *)
Definition seg_in_user p : Prop := p_type p = PT_LOAD -> 0 <= seg_addr p /\ seg_addr p + p_memsz p <= 2 ^ 47.

(** Address [x] is under a VMA of [l], or in a page of one of the segments
    from header [i] up to header [j]. *)
Definition taken_before (l : list Vma) (phoff i j x : Z) : Prop :=
  is_Some (vmaFind l x) \/ exists k q, i <= k < j /\ file_phdr data phoff k = Some q /\ p_type q = PT_LOAD /\ seg_pages q x.

Lemma taken_before_next l l1 phoff i j p : (forall x, is_Some (vmaFind l1 x) -> is_Some (vmaFind l x) \/ (p_type p = PT_LOAD /\ seg_pages p x)) ->
  file_phdr data phoff i = Some p -> i + 1 <= j -> forall x, taken_before l1 phoff (i + 1) j x -> taken_before l phoff i j x.
Proof.
  intros Hn Ep Hj x [Hx|(k & q & Hk & Ek & Hq)]; [|right; exists k, q; split; [lia|done]].
  destruct (Hn x Hx) as [|[T1 T2]]; [by left|right]. exists i, p. split_and!; done || lia.
Qed.

(** [n] program headers from header [i] on, and the frames they need. *)
Definition phdrs_from (phoff i n : Z) : list Elf64_Phdr := omap (file_phdr data phoff) (seqZ i n).
Definition frames_needed (l : list Elf64_Phdr) : nat := sum_list_with seg_frames l.

Lemma phdrs_from_cons phoff i n p : 0 < n -> file_phdr data phoff i = Some p -> phdrs_from phoff i n = p :: phdrs_from phoff (i + 1) (n - 1).
Proof. intros Hn Ep. unfold phdrs_from. rewrite seqZ_cons by done. cbn [omap list_omap]. rewrite Ep. do 3 f_equal; lia. Qed.

Lemma load_segments_ok ok0 phoff n : forall st l i, space_ok root st l -> 0 <= bias ->
  (forall j, i <= j < i + Z.of_nat n -> exists p, file_phdr data phoff j = Some p /\ no_wrap p) ->
  exists st' l' ok, load_segments n ok0 st l (tbl root) data bias phoff i = Some (st', l', ok) /\
    space_ok root st' l' /\ keeps root st st' /\ vmas_keep l l' /\
    (ok = true -> forall j p, i <= j < i + Z.of_nat n -> file_phdr data phoff j = Some p -> seg_in_user p /\ seg_loaded st' l' p) /\
    spares root st st' /\
    (ok = false -> exists j p, i <= j < i + Z.of_nat n /\ file_phdr data phoff j = Some p /\
       seg_failed ok0 (taken_before l phoff i j) (vm_fa st) (vm_fa st') p) /\
    (forall x, is_Some (vmaFind l' x) -> taken_before l phoff i (i + Z.of_nat n) x) /\
    (forall k, frames_left (frames_needed (phdrs_from phoff i (Z.of_nat n)) + Datatypes.S k) (vm_fa st) ->
       if ok then frames_left (Datatypes.S k) (vm_fa st') else
       exists j p, i <= j < i + Z.of_nat n /\ file_phdr data phoff j = Some p /\ seg_refused ok0 (taken_before l phoff i j) p).
Proof.
  induction n as [|n IH]; intros st l i Hso Hb Hp.
  { eexists _, _, _. split; [reflexivity|]. by split_and!; [|apply keeps_refl|intros a v|lia|apply spares_refl| |left|]. }
  destruct (Hp i) as (p & Ep & W1 & W2); [lia|]. pose proof (file_phdr_nonneg _ _ _ Ep) as (N1 & N2 & N3 & N4).
  assert (Hs : seg_sane p) by (constructor; unfold seg_addr; lia).
  destruct (load_segment_ok ok0 st l p Hso Hs) as (st1 & l1 & ok & E & Hso1 & K1 & V1 & L1 & S1 & N1' & F1 & M1).
  assert (Hfr : forall k, frames_left (frames_needed (phdrs_from phoff i (Z.of_nat (Datatypes.S n))) + Datatypes.S k) (vm_fa st) ->
    if ok then frames_left (frames_needed (phdrs_from phoff (i + 1) (Z.of_nat n)) + Datatypes.S k) (vm_fa st1)
    else seg_refused ok0 (fun x => is_Some (vmaFind l x)) p).
  { intros k Hk. specialize (M1 (frames_needed (phdrs_from phoff (i + 1) (Z.of_nat n)) + k)%nat).
    rewrite (phdrs_from_cons phoff i _ p) in Hk by (done || lia). replace (Z.of_nat (Datatypes.S n) - 1) with (Z.of_nat n) in Hk by lia.
    cbn [frames_needed sum_list_with] in Hk. unfold frames_needed in *. rewrite Nat.add_succ_r. apply M1. by rewrite Nat.add_succ_r, Nat.add_assoc, <- Nat.add_succ_r. }
  cbn [load_segments]. rewrite Ep. cbn [mbind option_bind]. rewrite E. cbn [mbind option_bind]. destruct ok.
  2: { eexists _, _, _. split; [reflexivity|]. split_and!; try done.
       - intros _. exists i, p. split_and!; [lia..|done|].
         apply seg_failed_later with (fun x => is_Some (vmaFind l x)) (vm_fa st); [by left|done|auto].
       - intros x Hx. apply (taken_before_next l l1 phoff i _ p); [done..|lia|by left].
       - intros k Hk. exists i, p. split_and!; [lia..|done|].
         apply seg_refused_more with (fun x => is_Some (vmaFind l x)); [by left|]. by apply (Hfr k). }
  destruct (IH st1 l1 (i + 1) Hso1 Hb) as (st2 & l2 & ok & E2 & Hso2 & K2 & V2 & L2 & S2 & F2 & T2 & M2); [intros j Hj; apply Hp; lia|].
  rewrite E2. eexists _, _, ok. split; [reflexivity|].
  split_and!; [done|by apply keeps_trans with st1|by intros a v Hv; apply V2, V1| |by apply spares_trans with st1| | |].
  2: { intros Hf. destruct (F2 Hf) as (j & q & Hj & Eq & Hq). exists j, q. split_and!; [lia..|done|].
       apply seg_failed_later with (taken_before l1 phoff (i + 1) j) (vm_fa st1); [|apply K1|done].
       apply taken_before_next with p; done || lia. }
  2: { intros x Hx. apply (taken_before_next l l1 phoff i _ p); [done..|lia|].
       replace (i + Z.of_nat (Datatypes.S n)) with (i + 1 + Z.of_nat n) by lia. auto. }
  2: { intros k Hk. specialize (M2 k (Hfr k Hk)). destruct ok; [done|]. destruct M2 as (j & q & Hj & Eq & Hq).
       exists j, q. split_and!; [lia..|done|]. apply seg_refused_more with (taken_before l1 phoff (i + 1) j); [|done].
       apply taken_before_next with p; done || lia. }
  intros Hok j q Hj Eq. destruct (Z.eq_dec j i) as [-> | Hji]; [|apply (L2 Hok j q); [lia|done]].
  rewrite Ep in Eq. injection Eq as <-. split; intros Ht; destruct (L1 eq_refl Ht) as [Hm Hl]; [pose proof (ss_vaddr _ Hs); lia|].
  by apply (seg_loaded_keeps st1 st2 l1 l2 p Hso1 Hso2 K2 V2 (ss_vaddr _ Hs) Hm Hl).
Qed.

(** The program headers of a file: entries of the size the code assumes, and
    no sum of their fields wraps around. *)
Record prog_headers : Prop := {
  ph_entsize : e_phentsize (get_ehdr (image data) 0) = sizeof_Phdr;
  ph_bias : 0 <= bias;
  ph_table : e_phoff (get_ehdr (image data) 0) + e_phnum (get_ehdr (image data) 0) * sizeof_Phdr < 2 ^ 64;
  ph_entries : forall i p, 0 <= i < e_phnum (get_ehdr (image data) 0) ->
    file_phdr data (e_phoff (get_ehdr (image data) 0)) i = Some p -> no_wrap p
}.

(** Why a file is refused: its header table or one of its segments. *)
Definition load_refused (ok0 : bool) (l : list Vma) : Prop :=
  let e := get_ehdr (image data) 0 in
  file_size data < e_phoff e + e_phnum e * sizeof_Phdr \/
  exists i p, 0 <= i < e_phnum e /\ file_phdr data (e_phoff e) i = Some p /\
    seg_refused ok0 (taken_before l (e_phoff e) 0 i) p.

(** It is, or the frames ran out. *)
Definition load_failed (ok0 : bool) (l : list Vma) (fa fa' : S) : Prop :=
  let e := get_ehdr (image data) 0 in
  file_size data < e_phoff e + e_phnum e * sizeof_Phdr \/
  exists i p, 0 <= i < e_phnum e /\ file_phdr data (e_phoff e) i = Some p /\
    seg_failed ok0 (taken_before l (e_phoff e) 0 i) fa fa' p.

(** The program headers. *)
Definition phdrs : list Elf64_Phdr := phdrs_from (e_phoff (get_ehdr (image data) 0)) 0 (e_phnum (get_ehdr (image data) 0)).

Lemma loadElfSegments_ok ok0 st l : space_ok root st l -> prog_headers ->
  exists st' l' rc, loadElfSegments ok0 st l (tbl root) data bias = Some (st', l', rc) /\ (rc = 0 \/ rc = -1) /\
    space_ok root st' l' /\ keeps root st st' /\ vmas_keep l l' /\
    (rc = 0 -> forall i p, 0 <= i < e_phnum (get_ehdr (image data) 0) ->
       file_phdr data (e_phoff (get_ehdr (image data) 0)) i = Some p -> seg_in_user p /\ seg_loaded st' l' p) /\
    spares root st st' /\ (rc <> 0 -> load_failed ok0 l (vm_fa st) (vm_fa st')) /\
    (forall x, is_Some (vmaFind l' x) ->
       taken_before l (e_phoff (get_ehdr (image data) 0)) 0 (e_phnum (get_ehdr (image data) 0)) x) /\
    (forall k, frames_left (frames_needed phdrs + Datatypes.S k) (vm_fa st) ->
       if rc =? 0 then frames_left (Datatypes.S k) (vm_fa st') else load_refused ok0 l).
Proof.
  intros Hso [P1 P2 P3 P4]. unfold loadElfSegments. cbv zeta. rewrite P1. set (e := get_ehdr (image data) 0) in *.
  assert (Hn : 0 <= e_phoff e /\ 0 <= e_phnum e) by (unfold e, get_ehdr; cbn [e_phoff e_phnum]; split; [apply (rd_range 8)|apply (rd_range 2)]).
  unfold sizeof_Phdr in *. rewrite u64_id by (unfold is_u64; lia).
  destruct (Z.ltb_spec (file_size data) (e_phoff e + e_phnum e * 56)) as [Hlt|Hfit].
  { eexists _, _, _. split; [reflexivity|]. by split_and!; [right| |apply keeps_refl|intros a v| |apply spares_refl|left|left|left]. }
  destruct (load_segments_ok ok0 (e_phoff e) (Z.to_nat (e_phnum e)) st l 0 Hso P2) as (st1 & l1 & ok & E & Hso1 & K & V & L & Sp & F & T & M).
  { intros j Hj. destruct (file_phdr data (e_phoff e) j) as [p|] eqn:Ep; [exists p; split; [done|]; apply (P4 j p); [lia|done]|].
    unfold file_phdr, sizeof_Phdr in Ep. rewrite u64_id in Ep by (unfold is_u64; lia).
    destruct (Z.leb_spec (e_phoff e + j * 56 + 56) (file_size data)); [done|lia]. }
  rewrite E. eexists _, _, _. split; [reflexivity|]. split_and!; try done; [destruct ok; auto| | | |].
  - intros Hrc i p Hi Ep. destruct ok; [|done]. apply (L eq_refl i p); [lia|done].
  - intros Hrc. destruct ok; [done|]. destruct (F eq_refl) as (j & p & Hj & Ep & Hf). right. fold e. exists j, p. split; [lia|done].
  - intros x Hx. fold e. replace (e_phnum e) with (0 + Z.of_nat (Z.to_nat (e_phnum e))) by lia. auto.
  - intros k Hk. unfold phdrs in Hk. fold e in Hk. rewrite <- (Z2Nat.id (e_phnum e)) in Hk by lia. specialize (M k Hk).
    destruct ok; [done|]. destruct M as (j & p & Hj & Ep & Hf). right. fold e. exists j, p. split; [lia|done].
Qed.
End Segments.


(** ** A small program: one segment with eight bytes of code, and eight zeros
    after them *)
Definition demo_code : list Z := [0x48; 0x31; 0xC0; 0x0F; 0x05; 0xEB; 0xFE; 0x90].
Definition put_ehdr (ty entry phnum : Z) : list Z :=
  [0x7F; 69; 76; 70; 2; 1; 1; 0; 0; 0; 0; 0; 0; 0; 0; 0] ++ le_bytes 2 ty ++ le_bytes 2 62 ++ le_bytes 4 1 ++ le_bytes 8 entry
  ++ le_bytes 8 64 ++ le_bytes 8 0 ++ le_bytes 4 0 ++ le_bytes 2 64 ++ le_bytes 2 56 ++ le_bytes 2 phnum ++ le_bytes 2 64 ++ le_bytes 2 0 ++ le_bytes 2 0.
Definition put_phdr (ty flags off vaddr filesz memsz : Z) : list Z :=
  le_bytes 4 ty ++ le_bytes 4 flags ++ le_bytes 8 off ++ le_bytes 8 vaddr ++ le_bytes 8 vaddr ++ le_bytes 8 filesz ++ le_bytes 8 memsz ++ le_bytes 8 4096.
Definition demo_prog : list Z :=
  put_ehdr 2 0x400078 1 ++ put_phdr 1 5 120 0x400078 8 16 ++ demo_code ++ repeat 0 472.
Definition demo_phdr : Elf64_Phdr := get_phdr (image demo_prog) 64.

Lemma demo_phdr_eq : file_phdr demo_prog (e_phoff (get_ehdr (image demo_prog) 0)) 0 = Some demo_phdr.
Proof. vm_compute. reflexivity. Qed.
Lemma demo_phnum : e_phnum (get_ehdr (image demo_prog) 0) = 1.
Proof. vm_compute. reflexivity. Qed.

Lemma demo_headers : prog_headers demo_prog 0.
Proof.
  split; [vm_compute; reflexivity|lia|vm_compute; reflexivity|]. intros i p Hi E. rewrite demo_phnum in Hi.
  replace i with 0 in E by lia. rewrite demo_phdr_eq in E. apply Some_inj in E. subst p. vm_compute. split; [reflexivity|discriminate].
Qed.

Lemma demo_space : space_ok demo_root demo_vm [].
Proof.
  constructor; [exact demo_wf|exact I| |].
  - intros v e k _ Hx. rewrite demo_absent in Hx. discriminate Hx.
  - intros v w e e' _ _ Hm. unfold mapped in Hm. rewrite demo_absent in Hm. discriminate Hm.
Qed.

