(* ===== verification/LoaderStack.v ===== *)
(** * Starting a program: the initial stack

    [build_stack] lays out what the C start-up code of a program reads: the
    argument count, the argument and environment pointers, the auxiliary
    vector and the strings, below the top of the stack. *)

From Stdlib Require Import ZArith Lia Bool String.
From stdpp Require Import base list gmap strings.
From S2P Require Import Prelude Mem Str PageTable Elf Krsym Loader.

Section Layout.
Context (page top : Z).
Hypothesis Hpage : 0 <= page /\ page + 4096 <= 2 ^ 64.
Hypothesis Htop : 0 <= top /\ top + 4096 < 2 ^ 64 /\ top mod 16 = 0.

(** The place in memory of the user address [a]. *)
Definition loc (a : Z) : Z := page + (a - top).

Lemma at_sp_loc sp : top <= sp < top + 4096 -> at_sp page top sp = loc sp.
Proof. intros Hs. unfold at_sp, loc. rewrite (u64_id (sp - top)), u64_id by (unfold is_u64; lia). done. Qed.

(** Only the user addresses from [lo] to [hi] were written. *)
Definition only (m m' : mem) (lo hi : Z) : Prop := forall x, ~ loc lo <= x < loc hi -> rd8 m' x = rd8 m x.

Lemma only_trans m1 m2 m3 lo mid hi : lo <= mid <= hi -> only m1 m2 mid hi -> only m2 m3 lo mid -> only m1 m3 lo hi.
Proof. unfold only, loc. intros Hm H1 H2 x Hx. rewrite H2 by lia. apply H1. lia. Qed.

Lemma only_wide m m' lo hi lo' hi' : lo' <= lo -> hi <= hi' -> only m m' lo hi -> only m m' lo' hi'.
Proof. unfold only, loc. intros H1 H2 H3 x Hx. apply H3. lia. Qed.

Lemma only_wr64 m a v hi : a + 8 <= hi -> only m (wr64 m (loc a) v) a hi.
Proof.
  intros Hh x Hx. unfold wr64. rewrite rd8_wr. change (Z.of_nat 8) with 8. unfold loc in *.
  destruct (Z.leb_spec (page + (a - top)) x), (Z.ltb_spec x (page + (a - top) + 8)); cbn [andb]; done || lia.
Qed.

(** The words [l] from the user address [a] on. *)
Definition words (m : mem) (a : Z) (l : list Z) : Prop := forall i w, l !! i = Some w -> rd64 m (loc (a + 8 * Z.of_nat i)) = w.

Lemma words_only m m' lo hi a l : only m m' lo hi -> hi <= a -> words m a l -> words m' a l.
Proof.
  intros Ho Ha Hw i w Hi. rewrite <- (Hw i w Hi). apply rd_ext. intros x Hx. apply Ho. unfold loc in *. lia.
Qed.

Lemma words_app m a l1 l2 : words m a l1 -> words m (a + 8 * Z.of_nat (length l1)) l2 -> words m a (l1 ++ l2).
Proof.
  intros H1 H2 i w Hi. apply lookup_app_Some in Hi as [Hi|[Hl Hi]]; [by apply H1|]. rewrite <- (H2 _ _ Hi). do 2 f_equal. lia.
Qed.

Lemma words_cons m a w l : rd64 m (loc a) = w -> words m (a + 8) l -> words m a (w :: l).
Proof.
  intros H1 H2 [|i] x Hx; simpl in Hx; [simplify_eq; by rewrite Z.mul_0_r, Z.add_0_r|].
  rewrite <- (H2 i x Hx). do 2 f_equal. lia.
Qed.

(** The string [a] with its terminator at the user address [q], below [hi]. *)
Definition string_at (m : mem) (lo hi q : Z) (a : list Z) : Prop :=
  cstr m (loc q) a /\ lo <= q /\ q + Z.of_nat (length a) + 1 <= hi.

Lemma cstr_agree m m' l : forall p, cstr m p l -> agree m m' p (Z.of_nat (length l) + 1) -> cstr m' p l.
Proof.
  induction l as [|c l IH]; intros p Hc Ha; inversion Hc as [? H0|? ? ? H0 H1 H2]; subst.
  - constructor. rewrite <- Ha by (simpl; lia). done.
  - constructor; [by rewrite <- Ha by (simpl; lia)|done|]. apply IH; [done|]. apply (agree_sub _ _ _ _ _ _ Ha); simpl; lia.
Qed.

Lemma string_only m m' lo hi lo' hi' q a : only m m' lo' hi' -> hi' <= lo -> string_at m lo hi q a -> string_at m' lo hi q a.
Proof.
  intros Ho Hl (Hc & H1 & H2). split; [|done]. apply (cstr_agree m m' a _ Hc). intros x Hx. symmetry. apply Ho. unfold loc in *. lia.
Qed.

Lemma put_cstr m p l : Forall (fun c => 0 < c < 256) l -> cstr (put_bytes m p (l ++ [0])) p l.
Proof.
  intros Hl.
  assert (H : forall l p m, Forall (fun c => 0 < c < 256) l -> (forall i, 0 <= i < Z.of_nat (length l) + 1 ->
            rd8 m (p + i) = default 0 ((l ++ [0]) !! Z.to_nat i)) -> cstr m p l).
  { clear. induction l as [|c l IH]; intros p m Hl H.
    - constructor. specialize (H 0 ltac:(simpl; lia)). rewrite Z.add_0_r in H. done.
    - apply Forall_cons in Hl as [Hc Hl]. constructor.
      + specialize (H 0 ltac:(simpl; lia)). rewrite Z.add_0_r in H. done.
      + lia.
      + apply IH; [done|]. intros i Hi. replace (p + 1 + i) with (p + (i + 1)) by lia. rewrite H by (simpl; lia).
        replace (Z.to_nat (i + 1)) with (S (Z.to_nat i)) by lia. done. }
  apply H; [done|]. intros i Hi. rewrite rd8_put_bytes, length_app. simpl length.
  destruct (Z.leb_spec p (p + i)), (Z.ltb_spec (p + i) (p + Z.of_nat (length l + 1))); cbn [andb]; try lia.
  replace (p + i - p) with i by lia. destruct ((l ++ [0]) !! Z.to_nat i) as [c|] eqn:E; [|done]. cbn [default].
  apply lookup_app_Some in E as [E|[_ E]].
  - rewrite Forall_lookup in Hl. specialize (Hl _ _ E). cbn beta in Hl. change (id c) with c. apply Z.mod_small. lia.
  - apply list_lookup_singleton_Some in E as [_ <-]. done.
Qed.

(** ** The parts *)

(** The bytes of a list of strings with their terminators. *)
Definition strings_size (l : list (list Z)) : Z := foldr (fun a n => Z.of_nat (length a) + 1 + n) 0 l.
Definition string_bytes (l : list (list Z)) : Prop := Forall (Forall (fun c => 0 < c < 256)) l.

Lemma strings_size_nonneg l : 0 <= strings_size l.
Proof. induction l; simpl; lia. Qed.

Lemma push_strings_ok l : forall m sp, top + strings_size l <= sp <= top + 4096 -> string_bytes l ->
  exists m' ptrs, push_strings page top m sp l = (m', sp - strings_size l, ptrs) /\
    only m m' (sp - strings_size l) sp /\ Forall2 (string_at m' (sp - strings_size l) sp) ptrs l.
Proof.
  induction l as [|a l IH]; intros m sp Hs Hb; cbn [strings_size foldr push_strings] in *.
  { exists m, []. rewrite Z.sub_0_r. split_and!; [done| |constructor]. by intros x. }
  fold (strings_size l) in *. pose proof (strings_size_nonneg l) as Hn. apply Forall_cons in Hb as [Ha Hb].
  destruct (IH m sp) as (m1 & ptrs & -> & Ho & F); [lia|done|].
  set (sp1 := sp - strings_size l) in *. rewrite u64_id by (unfold is_u64; lia).
  set (q := sp1 - (Z.of_nat (length a) + 1)). rewrite at_sp_loc by lia.
  assert (Ho1 : only m1 (put_bytes m1 (loc q) (a ++ [0])) q sp1).
  { intros x Hx. rewrite rd8_put_bytes, length_app. simpl length. unfold loc in *.
    destruct (Z.leb_spec (page + (q - top)) x), (Z.ltb_spec x (page + (q - top) + Z.of_nat (length a + 1))); cbn [andb]; done || lia. }
  exists (put_bytes m1 (loc q) (a ++ [0])), (q :: ptrs).
  replace (sp - (Z.of_nat (length a) + 1 + strings_size l)) with q by lia. split_and!; [done| |].
  - apply only_trans with m1 sp1; [lia|done..].
  - constructor.
    + split_and!; [by apply put_cstr|lia|lia].
    + eapply Forall2_impl; [exact F|]. intros p s Hp. destruct (string_only m1 _ sp1 sp q sp1 p s Ho1 ltac:(lia) Hp) as (S1 & S2 & S3).
      split_and!; [done|lia|done].
Qed.

Lemma push_words_ok l : forall m sp, top + 8 * Z.of_nat (length l) <= sp <= top + 4096 -> Forall is_u64 l ->
  exists m', push_words page top m sp l = (m', sp - 8 * Z.of_nat (length l)) /\
    only m m' (sp - 8 * Z.of_nat (length l)) sp /\ words m' (sp - 8 * Z.of_nat (length l)) l.
Proof.
  induction l as [|w l IH]; intros m sp Hs Hb; cbn [push_words length] in *.
  { exists m. rewrite Z.mul_0_r, Z.sub_0_r. split_and!; [done|by intros x|by intros i w]. }
  apply Forall_cons in Hb as [Hw Hb]. destruct (IH m sp) as (m1 & -> & Ho & Hws); [lia|done|].
  rewrite Nat2Z.inj_succ in *. set (sp1 := sp - 8 * Z.of_nat (length l)) in *. rewrite u64_id by (unfold is_u64; lia).
  replace (sp - 8 * Z.succ (Z.of_nat (length l))) with (sp1 - 8) by lia. rewrite at_sp_loc by lia.
  assert (Ho1 : only m1 (wr64 m1 (loc (sp1 - 8)) w) (sp1 - 8) sp1) by (apply only_wr64; lia).
  exists (wr64 m1 (loc (sp1 - 8)) w). split_and!; [done|apply only_trans with m1 sp1; [lia|done..]|].
  apply words_cons; [by apply rd64_wr64_same|]. replace (sp1 - 8 + 8) with sp1 by lia. by apply words_only with m1 (sp1 - 8) sp1.
Qed.

Definition flat (l : list (Z * Z)) : list Z := l ≫= fun '(t, v) => [t; v].

Lemma push_auxv_ok l : forall m sp, top + 16 * Z.of_nat (length l) <= sp <= top + 4096 -> Forall is_u64 (flat l) ->
  exists m', push_auxv page top m sp l = (m', sp - 16 * Z.of_nat (length l)) /\
    only m m' (sp - 16 * Z.of_nat (length l)) sp /\ words m' (sp - 16 * Z.of_nat (length l)) (flat l).
Proof.
  induction l as [|[t v] l IH]; intros m sp Hs Hb; cbn [push_auxv length] in *.
  { exists m. rewrite Z.mul_0_r, Z.sub_0_r. split_and!; [done|by intros x|by intros i w]. }
  cbn [flat mbind list_bind app] in Hb |- *. fold (flat l) in *.
  apply Forall_cons in Hb as [Ht Hb]. apply Forall_cons in Hb as [Hv Hb]. destruct (IH m sp) as (m1 & -> & Ho & Hws); [lia|done|].
  rewrite Nat2Z.inj_succ in *. set (sp1 := sp - 16 * Z.of_nat (length l)) in *. rewrite u64_id by (unfold is_u64; lia).
  replace (sp - 16 * Z.succ (Z.of_nat (length l))) with (sp1 - 16) by lia. rewrite at_sp_loc by lia.
  replace (loc (sp1 - 16) + 8) with (loc (sp1 - 8)) by (unfold loc; lia).
  assert (Ho1 : only m1 (wr64 (wr64 m1 (loc (sp1 - 16)) t) (loc (sp1 - 8)) v) (sp1 - 16) sp1).
  { apply only_wide with (sp1 - 16) sp1; [lia..|]. intros x Hx.
    rewrite (only_wr64 _ (sp1 - 8) v sp1) by (unfold loc in *; lia). apply (only_wr64 _ (sp1 - 16) t sp1); unfold loc in *; lia. }
  eexists. split_and!; [done|apply only_trans with m1 sp1; [lia|done..]|].
  apply words_cons; [rewrite rd64_wr64_ne by (unfold loc; lia); by apply rd64_wr64_same|].
  apply words_cons; [replace (sp1 - 16 + 8) with (sp1 - 8) by lia; by apply rd64_wr64_same|].
  replace (sp1 - 16 + 8 + 8) with sp1 by lia. by apply words_only with m1 (sp1 - 16) sp1.
Qed.

(** ** The whole layout *)

(** The most the layout can need: strings, random bytes, two paddings, and
    the words. *)
Definition stack_need (naux : nat) (argv envp : list (list Z)) : Z :=
  strings_size argv + strings_size envp + 16 + 15 + 8 + 16 * Z.of_nat naux +
  8 * (Z.of_nat (length envp) + Z.of_nat (length argv) + 3).

(** What is to be found at [sp], the pointer to the random bytes being
    [random]. *)
Record stack_layout (m : mem) (sp random : Z) (auxv : list (Z * Z)) (argv envp : list (list Z)) : Prop := {
  sl_aligned : sp mod 16 = 0;
  sl_page : top <= sp < top + 4096;
  sl_words : exists argp envpp,
    words m sp (Z.of_nat (length argv) :: argp ++ [0] ++ envpp ++ [0] ++ flat auxv) /\
    Forall2 (string_at m sp (top + 4096)) argp argv /\ Forall2 (string_at m sp (top + 4096)) envpp envp;
  sl_random : sp <= random /\ random + 16 <= top + 4096
}.

Lemma align16 x : is_u64 x -> Z.land x (u64 (Z.lnot 0xF)) = x - x mod 16.
Proof.
  intros Hx. change (u64 (Z.lnot 0xF)) with (Z.ldiff (Z.ones 64) (Z.ones 4)).
  replace (Z.land x (Z.ldiff (Z.ones 64) (Z.ones 4))) with (Z.ldiff (Z.land x (Z.ones 64)) (Z.ones 4)).
  - rewrite Z.land_ones by lia. rewrite Z.mod_small by (unfold is_u64 in Hx; lia). rewrite Z.ldiff_ones_r by lia.
    rewrite Z.shiftl_mul_pow2, Z.shiftr_div_pow2 by lia. change (2 ^ 4) with 16. divlia.
  - apply Z.bits_inj'. intros n Hn. rewrite Z.ldiff_spec, !Z.land_spec, Z.ldiff_spec. by destruct (Z.testbit x n).
Qed.

Lemma strings_keep m m' lo hi lo' hi' ptrs l : only m m' lo' hi' -> hi' <= lo -> Forall2 (string_at m lo hi) ptrs l ->
  Forall2 (string_at m' lo hi) ptrs l.
Proof. intros Ho Hl F. eapply Forall2_impl; [exact F|]. intros q a. by apply string_only with lo' hi'. Qed.

Lemma strings_wide m lo hi lo' hi' ptrs l : lo' <= lo -> hi <= hi' -> Forall2 (string_at m lo hi) ptrs l ->
  Forall2 (string_at m lo' hi') ptrs l.
Proof. intros Hl Hh F. eapply Forall2_impl; [exact F|]. intros q a (H1 & H2 & H3). split_and!; [done|lia..]. Qed.

Lemma ptrs_u64 m lo hi ptrs l : 0 <= lo -> hi <= top + 4096 -> Forall2 (string_at m lo hi) ptrs l -> Forall is_u64 ptrs.
Proof. intros Hl Hh F. induction F as [|q a ptrs l (H1 & H2 & H3) F IH]; constructor; [unfold is_u64; lia|done]. Qed.

(** The aligned place of the auxiliary vector. *)
Lemma pad_ok m sp n : sp mod 16 = 0 -> top + 8 + 8 * n <= sp <= top + 4096 -> 0 <= n ->
  exists m' sp', (if negb (Z.land (u64 (sp - n * 8)) 0xF =? 0)
                  then (wr64 m (at_sp page top (u64 (sp - 8))) 0, u64 (sp - 8)) else (m, sp)) = (m', sp') /\
    sp - 8 <= sp' <= sp /\ (sp' - 8 * n) mod 16 = 0 /\ only m m' sp' sp.
Proof.
  intros Ha Hs Hn. change 0xF with (Z.ones 4). rewrite Z.land_ones by lia. change (2 ^ 4) with 16.
  rewrite u64_id by (unfold is_u64; lia). destruct (Z.eqb_spec ((sp - n * 8) mod 16) 0) as [E|E]; cbn [negb].
  - exists m, sp. split_and!; [done|lia|lia|rewrite <- E; f_equal; lia|by intros x].
  - rewrite u64_id by (unfold is_u64; lia). rewrite at_sp_loc by lia. eexists _, (sp - 8).
    split_and!; [done|lia|lia|divlia|apply only_wr64; lia].
Qed.

Lemma build_stack_ok m tsc pid aux argv envp n : string_bytes argv -> string_bytes envp -> is_u64 tsc -> is_u64 pid ->
  (forall random, is_u64 random -> length (aux random) = n /\ Forall is_u64 (flat (aux random))) ->
  stack_need n argv envp <= 4096 ->
  exists m' sp random, build_stack page top m (top + 4096) tsc pid aux argv envp = (m', sp) /\
    only m m' top (top + 4096) /\ stack_layout m' sp random (aux random) argv envp.
Proof.
  intros Ba Be Ht Hp Haux Hn. unfold stack_need in Hn.
  pose proof (strings_size_nonneg argv) as Na. pose proof (strings_size_nonneg envp) as Ne. unfold build_stack.
  destruct (push_strings_ok argv m (top + 4096)) as (m1 & argp & -> & O1 & F1); [lia|done|]. set (sp1 := top + 4096 - strings_size argv) in *.
  destruct (push_strings_ok envp m1 sp1) as (m2 & envpp & -> & O2 & F2); [lia|done|]. set (sp2 := sp1 - strings_size envp) in *.
  rewrite (u64_id (sp2 - 16)) by (unfold is_u64; lia). set (random := sp2 - 16). rewrite at_sp_loc by lia.
  set (r0 := Z.lxor tsc _). set (r1 := Z.lxor _ 0xbf58476d1ce4e5b9).
  replace (loc random + 8) with (loc (random + 8)) by (unfold loc; lia). set (m3 := wr64 (wr64 m2 (loc random) r0) (loc (random + 8)) r1).
  assert (O3 : only m2 m3 random sp2).
  { intros x Hx. unfold m3. rewrite (only_wr64 _ (random + 8) r1 sp2) by (unfold loc in *; lia).
    apply (only_wr64 _ random r0 sp2); unfold loc in *; lia. }
  rewrite align16 by (unfold is_u64; lia). set (sp4 := random - random mod 16).
  assert (H4 : sp4 mod 16 = 0 /\ random - 15 <= sp4 <= random) by (unfold sp4; divlia).
  destruct (Haux random ltac:(unfold is_u64; lia)) as [Hlen Hau]. rewrite Hlen.
  set (q := Z.of_nat n * 2 + 1 + Z.of_nat (length envp) + 1 + Z.of_nat (length argv) + 1).
  destruct (pad_ok m3 sp4 q) as (m5 & sp5 & -> & H5 & H5a & O5); [tauto|lia|lia|].
  destruct (push_auxv_ok (aux random) m5 sp5) as (m6 & -> & O6 & W6); [lia|done|]. set (sp6 := sp5 - 16 * _) in *.
  pose proof (Forall2_length _ _ _ F1) as L1. pose proof (Forall2_length _ _ _ F2) as L2.
  destruct (push_words_ok (envpp ++ [0]) m6 sp6) as (m7 & -> & O7 & W7).
  { rewrite length_app. simpl length. lia. }
  { apply Forall_app. split; [apply (ptrs_u64 m2 sp2 sp1 envpp envp); done || lia|apply Forall_singleton; unfold is_u64; lia]. }
  set (sp7 := sp6 - 8 * _) in *.
  assert (E7 : sp7 = sp6 - 8 * (Z.of_nat (length envp) + 1)) by (unfold sp7; rewrite length_app; simpl length; lia). clearbody sp7.
  destruct (push_words_ok (Z.of_nat (length argv) :: argp ++ [0]) m7 sp7) as (m8 & -> & O8 & W8).
  { simpl length. rewrite length_app. simpl length. lia. }
  { constructor; [unfold is_u64; lia|]. apply Forall_app. split; [apply (ptrs_u64 m1 sp1 (top + 4096) argp argv); done || lia|apply Forall_singleton; unfold is_u64; lia]. }
  set (sp8 := sp7 - 8 * _) in *.
  assert (E8 : sp8 = sp5 - 8 * q) by (unfold sp8, sp6 in *; simpl length; rewrite length_app; simpl length; lia). clearbody sp8.
  assert (O38 : only m2 m8 sp8 sp2).
  { apply only_trans with m7 sp7; [lia| |done]. apply only_trans with m6 sp6; [lia| |done]. apply only_trans with m5 sp5; [lia| |done].
    apply only_trans with m3 sp4; [lia| |done]. by apply only_wide with random sp2; [lia..|]. }
  exists m8, sp8, random. split_and!; [done| |].
  - apply only_wide with sp8 (top + 4096); [lia..|]. apply only_trans with m1 sp1; [lia|done|]. by apply only_trans with m2 sp2; [lia|..].
  - constructor; [rewrite E8; done|lia| |lia].
    exists argp, envpp. split_and!.
    + replace (Z.of_nat (length argv) :: argp ++ [0] ++ envpp ++ [0] ++ flat (aux random))
        with ((Z.of_nat (length argv) :: argp ++ [0]) ++ (envpp ++ [0]) ++ flat (aux random)) by (simpl; by rewrite <- !app_assoc).
      apply words_app; [done|]. replace (sp8 + 8 * _) with sp7 by (simpl length; rewrite length_app; simpl length; lia).
      apply (words_only m7 m8 sp8 sp7); [done|lia|]. apply words_app; [done|].
      replace (sp7 + 8 * _) with sp6 by (rewrite length_app; simpl length; lia). by apply (words_only m6 m7 sp7 sp6); [|lia|].
    + apply strings_wide with sp1 (top + 4096); [lia..|]. apply (strings_keep m2 m8 _ _ sp8 sp2); [done|lia|].
      by apply (strings_keep m1 m2 _ _ sp2 sp1); [|lia|].
    + apply strings_wide with sp2 sp1; [lia..|]. by apply (strings_keep m2 m8 _ _ sp8 sp2); [|lia|].
Qed.
End Layout.

(** C27: For arguments and an environment that fit in the top page, [build_stack]
    writes nothing outside of that page and leaves, at a stack pointer that
    is a multiple of 16: the argument count, the pointers to the arguments
    and a null, the pointers to the environment and a null, then the
    auxiliary vector; every pointer leads to its string, terminated and
    inside the page above the stack pointer, and so does AT_RANDOM to 16
    bytes. *)
Theorem build_stack_correct page top m tsc pid aux argv envp n :
  0 <= page /\ page + 4096 <= 2 ^ 64 -> 0 <= top /\ top + 4096 < 2 ^ 64 /\ top mod 16 = 0 ->
  string_bytes argv -> string_bytes envp -> is_u64 tsc -> is_u64 pid ->
  (forall random, is_u64 random -> length (aux random) = n /\ Forall is_u64 (flat (aux random))) ->
  stack_need n argv envp <= 4096 ->
  exists m' sp random, build_stack page top m (top + 4096) tsc pid aux argv envp = (m', sp) /\
    (forall x, ~ page <= x < page + 4096 -> rd8 m' x = rd8 m x) /\ stack_layout page top m' sp random (aux random) argv envp.
Proof.
  intros Hp Ht Ba Be Hts Hpid Ha Hn. destruct (build_stack_ok page top Hp Ht m tsc pid aux argv envp n) as (m' & sp & random & E & O & L); try done.
  exists m', sp, random. split_and!; [done| |done]. intros x Hx. apply O. unfold loc. lia.
Qed.

Definition demo_argv : list (list Z) := [text "sh"; text "-c"; text "ls"].
Definition demo_envp : list (list Z) := [text "HOME=/"].
Definition demo_aux (random : Z) : list (Z * Z) := auxv_of 0x400040 56 1 0 0x400078 random.

Lemma demo_aux_ok random : is_u64 random -> length (demo_aux random) = 9%nat /\ Forall is_u64 (flat (demo_aux random)).
Proof.
  intros Hr. split; [reflexivity|]. unfold demo_aux, auxv_of, flat. cbn [mbind list_bind app].
  repeat (apply Forall_cons; split; [exact Hr || (vm_compute; split; congruence)|]). constructor.
Qed.

Lemma build_stack_correct_witness :
  exists m' sp random, build_stack 0x10000 0x7FFFFFFFD000 ∅ 0x7FFFFFFFE000 12345 7 demo_aux demo_argv demo_envp = (m', sp) /\
    sp mod 16 = 0 /\ rd64 m' (0x10000 + (sp - 0x7FFFFFFFD000)) = 3 /\
    stack_layout 0x10000 0x7FFFFFFFD000 m' sp random (demo_aux random) demo_argv demo_envp.
Proof.
  destruct (build_stack_correct 0x10000 0x7FFFFFFFD000 ∅ 12345 7 demo_aux demo_argv demo_envp 9) as (m' & sp & random & E & _ & L).
  - lia.
  - split; [lia|]. split; [lia|reflexivity].
  - unfold string_bytes, demo_argv. repeat constructor; lia.
  - unfold string_bytes, demo_envp. repeat constructor; lia.
  - unfold is_u64. lia.
  - unfold is_u64. lia.
  - exact demo_aux_ok.
  - vm_compute. discriminate.
  - exists m', sp, random. split_and!; [exact E|apply (sl_aligned _ _ _ _ _ _ _ _ L)| |exact L].
    destruct (sl_words _ _ _ _ _ _ _ _ L) as (argp & envpp & W & _). specialize (W 0%nat 3 eq_refl). rewrite <- W. do 2 f_equal. unfold loc. lia.
Defined.

(** Nothing bounds the strings: with an argument longer than the page the
    layout is written below it, over the memory in front of the frame. *)
Theorem stack_strings_overflow :
  let m' := (build_stack 0x10000 0x7FFFFFFFD000 ∅ 0x7FFFFFFFE000 0 1 demo_aux [repeat 65 4200] []).1 in
  rd8 m' (0x10000 - 64) = 65 /\ rd8 ∅ (0x10000 - 64) = 0.
Proof. vm_compute. split; reflexivity. Qed.
