(* ===== verification/Spawn.v ===== *)
(** * Starting programs

    The whole of [schedSpawn] and its theorem, and a program that is started. *)

From Stdlib Require Import ZArith Lia Bool.
From stdpp Require Import base list gmap.
From S2P Require Import Prelude Mem Str Frames Pmm PageTable PtWalk PtOps AddrSpace Vma PageFault Sched SchedQueue Block Gpt Fat32 FatRead FatMount.
From S2P Require Import KPages Elf Krsym UserSpace Loader LoaderProps LoaderStack.

(** ** Starting a program: [schedSpawn]

    The pieces together: what the address space of a new process holds when
    its first thread is created. *)

Section Space.
Context {S : Type} `{FrameAllocator S} `{!FrameAllocatorLaws S}.
Context (root : Z).
Implicit Types (st : Vm S).

Lemma outside_tables st m' l v e : space_ok root st l -> user v -> mapped root st v e -> outside (vm_mem st) m' (nextf e) ->
  pt_wf (mkVm m' (vm_fa st)) root /\ (forall q, idx_ok q -> (length q <= 4)%nat -> walk m' root q = walk (vm_mem st) root q /\
     xl m' root q = xl (vm_mem st) root q).
Proof.
  intros Hso Hv Hm Ho. destruct (so_page _ _ _ Hso v e 0%nat Hv Hm) as (_ & _ & F1 & F2 & F3). pose proof (so_wf _ _ _ Hso) as W.
  apply (kept_space st (mkVm m' (vm_fa st)) root W); cbn [vm_mem vm_fa]; [apply W|done|].
  intros c f i Hc Hl Hw Hi. destruct (pw_used _ _ W c f Hc Hl Hw) as [Hf _].
  apply entry_outside with (nextf e); auto with nova. intros ->. by apply (F3 c).
Qed.

(** Writing into the frame of a mapped page. *)
Lemma write_frame st m' l v e : space_ok root st l -> user v -> mapped root st v e -> outside (vm_mem st) m' (nextf e) ->
  space_ok root (mkVm m' (vm_fa st)) l /\ (forall w, xl m' root (vpath w) = xl (vm_mem st) root (vpath w)) /\
  (forall w x j, user w -> mapped root st w x -> vpage w <> vpage v -> 0 <= j < 4096 ->
     rd8 m' (tbl (nextf x) + j) = rd8 (vm_mem st) (tbl (nextf x) + j)).
Proof.
  intros Hso Hv Hm Ho. destruct (outside_tables st m' l v e Hso Hv Hm Ho) as [W X].
  assert (X4 : forall w, xl m' root (vpath w) = xl (vm_mem st) root (vpath w)) by (intros w; apply X; [apply vpath_ok|simpl; lia]).
  destruct (so_page _ _ _ Hso v e 0%nat Hv Hm) as (_ & _ & F1 & _). split_and!; [|done|].
  - constructor; [done|apply Hso| |].
    + intros w x k Hw Hx. cbn [vm_mem vm_fa] in *. rewrite X4 in Hx. destruct (so_page _ _ _ Hso w x k Hw Hx) as (G1 & G2 & G3 & G4 & G5).
      split_and!; try done. intros q Hq Hl Hwq. rewrite (proj1 (X q Hq ltac:(lia))) in Hwq. by apply (G5 q).
    + intros w y x x' Hw Hy Hmw Hmy. unfold mapped in *. cbn [vm_mem] in *. rewrite X4 in Hmw, Hmy.
      by apply (so_inj _ _ _ Hso w y x x').
  - intros w x j Hw Hx Hne Hj. destruct (so_page _ _ _ Hso w x 0%nat Hw Hx) as (_ & _ & G1 & _).
    apply outside_bytes with (nextf e); auto with nova. intros E. by apply Hne, (so_inj _ _ _ Hso w v x e).
Qed.

(** A page that was not there before may be written. *)
Lemma write_new st0 st m' l v e : space_ok root st l -> user v -> mapped root st v e -> outside (vm_mem st) m' (nextf e) ->
  keeps root st0 st -> xl (vm_mem st0) root (vpath v) = None ->
  space_ok root (mkVm m' (vm_fa st)) l /\ keeps root st0 (mkVm m' (vm_fa st)) /\ mapped root (mkVm m' (vm_fa st)) v e.
Proof.
  intros Hso Hv Hm Ho K Hn. destruct (write_frame st m' l v e Hso Hv Hm Ho) as (Hso' & X & B). split_and!; [done| |].
  - constructor; cbn [vm_mem].
    + intros w x Hw Hx. destruct (ke_page _ _ _ K w x Hw Hx) as [Hx' B']. unfold mapped in *. cbn [vm_mem]. rewrite X. split; [done|].
      intros j Hj. rewrite <- B' by done. apply (B w x j Hw Hx'); [|done]. intros E.
      rewrite <- vpath_vpage in E by auto with nova. rewrite E in Hx. congruence.
    + intros w Hw. rewrite X. by apply (ke_kernel _ _ _ K).
    + apply K.
  - unfold mapped in *. cbn [vm_mem]. by rewrite X.
Qed.
End Space.

(** ** The stack *)
Definition STACK_PAGE : Z := USER_STACK_TOP_DEFAULT - PAGE_SIZE.
Definition STACK_PTE : Z := Z.lor (Z.lor VMM_FLAG_PRESENT VMM_FLAG_WRITABLE) VMM_FLAG_USER.

Section MakeStack.
Context {S : Type} `{FrameAllocator S} `{!FrameAllocatorLaws S} {D : Type} `{BlockDevice D} (km : Z -> bool).
Context (root : Z).
Implicit Types (s : Spawn (S := S) (D := D)).

(** The VMAs and the page directory of the process at [pp]. *)
Definition vmas_of s (pp : Z) : list Vma := p_vmas (pr (sp_sched s) pp).
Definition proc_space s (pp : Z) : Prop := p_pml4 (pr (sp_sched s) pp) = tbl root /\ space_ok root (sp_vm s) (vmas_of s pp).

Lemma pr_set_vmas s pp l : pr (sp_sched (set_vmas s pp l)) pp =
  mkProcess (p_pid (pr (sp_sched s) pp)) (p_pml4 (pr (sp_sched s) pp)) l (p_threads (pr (sp_sched s) pp)).
Proof. unfold pr, set_vmas, set_spsched, set_proc. cbn [sp_sched s_procs]. by rewrite lookup_insert_eq. Qed.

(** The space of a process after an operation on it. *)
Record space_step s s' (pp : Z) : Prop := {
  st_space : proc_space s' pp;
  st_keeps : keeps root (sp_vm s) (sp_vm s');
  st_vmas : vmas_keep (vmas_of s pp) (vmas_of s' pp);
  st_pid : p_pid (pr (sp_sched s') pp) = p_pid (pr (sp_sched s) pp)
}.

Lemma space_step_refl s pp : proc_space s pp -> space_step s s pp.
Proof. intros Hs. split; [done|apply keeps_refl|by intros a v|done]. Qed.

Lemma space_step_trans s1 s2 s3 pp : space_step s1 s2 pp -> space_step s2 s3 pp -> space_step s1 s3 pp.
Proof.
  intros [A1 B1 C1 D1] [A2 B2 C2 D2]. split; [done|by apply keeps_trans with (sp_vm s2)|by intros a v Hv; apply C2, C1|congruence].
Qed.

Lemma space_step_vm s pp vm l : proc_space s pp -> space_ok root vm l -> keeps root (sp_vm s) vm -> vmas_keep (vmas_of s pp) l ->
  space_step s (set_spvm (set_vmas s pp l) vm) pp.
Proof.
  intros [P1 P2] Hso K V.
  assert (E : pr (sp_sched (set_spvm (set_vmas s pp l) vm)) pp = pr (sp_sched (set_vmas s pp l)) pp) by done.
  split; unfold proc_space, vmas_of in *; rewrite ?E, ?pr_set_vmas; done.
Qed.

(** Every segment of the file [data] is in the space of the process. *)
Definition file_loaded s (pp : Z) (data : list Z) (bias : Z) : Prop := forall i p, 0 <= i < e_phnum (get_ehdr (image data) 0) ->
  file_phdr data (e_phoff (get_ehdr (image data) 0)) i = Some p ->
  seg_in_user bias p /\ seg_loaded root data bias (sp_vm s) (vmas_of s pp) p.

Lemma file_loaded_step s s' pp data bias : proc_space s pp -> space_step s s' pp -> file_loaded s pp data bias -> file_loaded s' pp data bias.
Proof.
  intros [_ P] [[_ P'] K V _] Hl i p Hi Ep. destruct (Hl i p Hi Ep) as [Hu L]. split; [done|]. intros Ht. destruct (Hu Ht) as [U1 U2].
  by apply (seg_loaded_keeps root data bias (sp_vm s) (sp_vm s') (vmas_of s pp) (vmas_of s' pp) p P P' K V U1 U2 L).
Qed.

(** Address [x] is in a page of a segment of the file. *)
Definition file_page (data : list Z) (bias x : Z) : Prop := exists p, p ∈ phdrs data /\ p_type p = PT_LOAD /\ seg_pages bias p x.

Lemma taken_file_page data bias l x : taken_before data bias l (e_phoff (get_ehdr (image data) 0)) 0 (e_phnum (get_ehdr (image data) 0)) x ->
  is_Some (vmaFind l x) \/ file_page data bias x.
Proof.
  intros [Hx|(k & q & Hk & Eq & Ht & Hx)]; [by left|right]. exists q. split_and!; try done. apply list_elem_of_omap. exists k.
  split; [apply elem_of_seqZ; lia|done].
Qed.

Lemma load_into_ok s pp data bias : proc_space s pp -> prog_headers data bias ->
  exists s' rc, load_into km s pp data bias = Some (s', rc) /\ (rc = 0 \/ rc = -1) /\ space_step s s' pp /\
    sp_root s' = sp_root s /\
    (rc = 0 -> file_loaded s' pp data bias) /\
    (forall x, is_Some (vmaFind (vmas_of s' pp) x) -> is_Some (vmaFind (vmas_of s pp) x) \/ file_page data bias x) /\
    (forall k, frames_left (frames_needed bias (phdrs data) + Datatypes.S k) (vm_fa (sp_vm s)) ->
       if rc =? 0 then frames_left (Datatypes.S k) (vm_fa (sp_vm s')) else load_refused data bias (km VMA_SIZE) (vmas_of s pp)).
Proof.
  intros [P1 P2] Hp. unfold load_into.
  destruct (loadElfSegments_ok root data bias (km VMA_SIZE) (sp_vm s) (vmas_of s pp) P2 Hp)
    as (vm & l & rc & E & Hrc & Hso & K & V & L & _ & _ & T & M). rewrite P1. unfold vmas_of in E. rewrite E. cbn [mbind option_bind].
  eexists _, rc. split; [reflexivity|]. split_and!; try done.
  - change (set_vmas (set_spvm s vm) pp l) with (set_spvm (set_vmas s pp l) vm). by apply space_step_vm.
  - intros Hz i p Hi Ep. unfold vmas_of. rewrite pr_set_vmas. cbn [p_vmas]. by apply (L Hz i p).
  - intros x Hx. unfold vmas_of in Hx. rewrite pr_set_vmas in Hx. by apply taken_file_page, T.
Qed.

Lemma stack_page_ok f : frame_addr f -> (0 <= tbl f /\ tbl f + 4096 <= 2 ^ 64) /\ (0 <= STACK_PAGE /\ STACK_PAGE + 4096 < 2 ^ 64 /\ STACK_PAGE mod 16 = 0).
Proof.
  intros [Hf Hm]. split; [|done]. assert (f + 4096 <= 2 ^ 47) by divlia. unfold tbl, HHDM_BASE. rewrite u64_id by (unfold is_u64; lia). lia.
Qed.

Lemma only_outside m m' f lo hi : STACK_PAGE <= lo -> hi <= STACK_PAGE + 4096 -> only (tbl f) STACK_PAGE m m' lo hi -> outside m m' f.
Proof. intros Hl Hh Ho x Hx. apply Ho. unfold loc. lia. Qed.

Lemma stack_page_top : STACK_PAGE + 4096 = USER_STACK_TOP_DEFAULT.
Proof. done. Qed.

(** The arguments of a program: strings without zero bytes that fit, and an
    auxiliary vector of [n] pairs of words. *)
Record stack_args (n : nat) (tsc : Z) (aux : Z -> list (Z * Z)) (argv envp : list (list Z)) : Prop := {
  sa_argv : string_bytes argv; sa_envp : string_bytes envp; sa_tsc : is_u64 tsc;
  sa_aux : forall random, is_u64 random -> length (aux random) = n /\ Forall is_u64 (flat (aux random));
  sa_fits : stack_need n argv envp <= 4096
}.

(** The stack of the process: under a VMA with the stack's rights, its top
    page mapped for the user and holding the layout. *)
Definition stack_ready s (pp sp random : Z) (aux : list (Z * Z)) (argv envp : list (list Z)) : Prop :=
  (exists c, vmaFind (vmas_of s pp) sp = Some c /\ vflags c = STACK_FLAGS) /\
  exists f, frame_addr f /\ mapped root (sp_vm s) STACK_PAGE (leaf_entry f STACK_PTE) /\
    stack_layout (tbl f) STACK_PAGE (vm_mem (sp_vm s)) sp random aux argv envp.

(** Mapping the top page. *)
Lemma map_stack st l1 fa1 frame : space_ok root st l1 -> is_Some (vmaFind l1 STACK_PAGE) ->
  xl (vm_mem st) root (vpath STACK_PAGE) = None -> fa_alloc (vm_fa st) = (fa1, frame) -> frame <> 0 ->
  let r := vmmMapPage (mkVm (memset (vm_mem st) (tbl frame) 0 PAGE_SIZE).1 fa1) (tbl root) STACK_PAGE frame STACK_PTE in
  frame_addr frame /\ space_ok root (installed r frame) l1 /\ keeps root st (installed r frame) /\
  (r.2 = 0 -> mapped root (installed r frame) STACK_PAGE (leaf_entry frame STACK_PTE)) /\
  (frames_left 5 (vm_fa st) -> r.2 = 0).
Proof.
  intros Hso Hv Hn Ea Hne r.
  assert (Ho : outside (vm_mem st) (memset (vm_mem st) (tbl frame) 0 PAGE_SIZE).1 frame).
  { intros x Hx. rewrite (memset_filled (vm_mem st) (tbl frame) 0 PAGE_SIZE) by done. unfold PAGE_SIZE.
    destruct (Z.leb_spec (tbl frame) x), (Z.ltb_spec x (tbl frame + 4096)); simpl; done || lia. }
  assert (Hu : user STACK_PAGE) by (vm_compute; split; congruence). assert (Hfl : is_u64 STACK_PTE /\ nextf STACK_PTE = 0) by (vm_compute; by split).
  destruct Hfl as [Hfl Hfn]. split_and!.
  - apply (install_facts root st l1 fa1 frame _ STACK_PAGE STACK_PTE Hso Ea Hne Ho Hu Hn Hfl Hfn).
  - apply (install_space root st l1 fa1 frame _ STACK_PAGE STACK_PTE Hso Ea Hne Ho Hu Hv Hn Hfl Hfn).
  - apply (install_keeps root st l1 fa1 frame _ STACK_PAGE STACK_PTE Hso Ea Hne Ho Hu Hn Hfl Hfn).
  - apply (install_page root st l1 fa1 frame _ STACK_PAGE STACK_PTE Hso Ea Hne Ho Hu Hn Hfl Hfn).
  - apply (install_left root st l1 fa1 frame _ STACK_PAGE STACK_PTE Hso Ea Hne Ho Hu Hn Hfl Hfn 0).
Qed.

(** Writing into the new page: any state of [st] from before the mapping is
    kept. *)
Lemma fill_stack s pp l1 st1 frame m' lo hi : proc_space s pp -> space_ok root st1 l1 -> keeps root (sp_vm s) st1 ->
  vmas_keep (vmas_of s pp) l1 -> xl (vm_mem (sp_vm s)) root (vpath STACK_PAGE) = None -> frame_addr frame ->
  mapped root st1 STACK_PAGE (leaf_entry frame STACK_PTE) -> STACK_PAGE <= lo -> hi <= STACK_PAGE + 4096 ->
  only (tbl frame) STACK_PAGE (vm_mem st1) m' lo hi ->
  let s' := set_spvm (set_vmas s pp l1) (mkVm m' (vm_fa st1)) in
  space_step s s' pp /\ mapped root (sp_vm s') STACK_PAGE (leaf_entry frame STACK_PTE) /\ vmas_of s' pp = l1.
Proof.
  intros Hp Hso K V Hn Hf Hm Hl Hh Ho s'.
  destruct (write_new root (sp_vm s) st1 m' l1 STACK_PAGE (leaf_entry frame STACK_PTE)) as (Hso' & K' & Hm'); try done.
  { rewrite leaf_frame by (done || vm_compute; by split). by apply only_outside with lo hi. }
  split_and!; [by apply space_step_vm|done|]. unfold vmas_of, s'. change (sp_sched (set_spvm ?a ?b)) with (sp_sched a). by rewrite pr_set_vmas.
Qed.

(** Why there is no stack: no memory for its VMA or for the vectors of string
    addresses, or an address of its area is taken. *)
Definition stack_refused (taken : Z -> Prop) (argv envp : list (list Z)) : Prop :=
  km VMA_SIZE = false \/ km ((Z.of_nat (length argv) + 1) * 8) = false \/ km ((Z.of_nat (length envp) + 1) * 8) = false \/
  exists x, USER_STACK_TOP_DEFAULT - USER_STACK_INITIAL_SIZE <= x < USER_STACK_TOP_DEFAULT /\ taken x.

Lemma make_stack_ok s pp tsc aux argv envp n : proc_space s pp -> is_u64 (p_pid (pr (sp_sched s) pp)) -> stack_args n tsc aux argv envp ->
  let '(s', r) := make_stack km s pp tsc aux argv envp in
  space_step s s' pp /\
  match r with
  | None => frames_left 5 (vm_fa (sp_vm s)) -> stack_refused (fun x => is_Some (vmaFind (vmas_of s pp) x)) argv envp
  | Some sp => exists random, stack_ready s' pp sp random (aux random) argv envp
  end.
Proof.
  intros Hp Hpid [A1 A2 A3 A4 A5]. pose proof Hp as [P1 P2]. unfold make_stack. cbv zeta. fold STACK_PAGE.
  assert (Hsu : is_u64 (USER_STACK_TOP_DEFAULT - USER_STACK_INITIAL_SIZE) /\ is_u64 USER_STACK_INITIAL_SIZE) by (vm_compute; repeat split; congruence).
  destruct (vmaCreate _ _ _ _ _) as [l1 [v|]] eqn:Ev.
  2: { split; [by apply space_step_refl|]. intros _.
       destruct (vma_refused (km VMA_SIZE) (vmas_of s pp) l1 (USER_STACK_TOP_DEFAULT - USER_STACK_INITIAL_SIZE) USER_STACK_TOP_DEFAULT STACK_FLAGS)
         as [_ C]; [apply P2|vm_compute; split; congruence|vm_compute; congruence|reflexivity|reflexivity|exact Ev|].
       destruct C as [C|[C|C]]; [by vm_compute in C|by left|by do 3 right]. }
  destruct (new_vma root _ _ _ _ _ _ _ _ P2 (proj1 Hsu) (proj2 Hsu) Ev) as (-> & _ & Hso1 & Hvk & Hin & _).
  assert (R : range_start (USER_STACK_TOP_DEFAULT - USER_STACK_INITIAL_SIZE) <= STACK_PAGE /\
    range_end (USER_STACK_TOP_DEFAULT - USER_STACK_INITIAL_SIZE) USER_STACK_INITIAL_SIZE = STACK_PAGE + 4096) by (vm_compute; split; congruence).
  destruct R as [R1 R2]. assert (Hus : user STACK_PAGE) by (vm_compute; split; congruence).
  destruct (Hin STACK_PAGE) as [Hv1 Hnone]; [rewrite R2; lia|]. specialize (Hnone Hus).
  change (sp_vm (set_vmas s pp l1)) with (sp_vm s). destruct (fa_alloc (vm_fa (sp_vm s))) as [fa1 frame] eqn:Ea.
  destruct (Z.eqb_spec frame 0) as [-> | Hne].
  { pose proof (fa_alloc_null _ (pw_ok _ _ (so_wf _ _ _ P2))) as Hn. rewrite Ea in Hn. specialize (Hn eq_refl). simpl in Hn. subst fa1.
    split; [|intros [Hx _]; by rewrite Ea in Hx].
    replace (mkVm (vm_mem (sp_vm s)) (vm_fa (sp_vm s))) with (sp_vm s) by by destruct (sp_vm s). by apply space_step_vm. }
  destruct (map_stack (sp_vm s) l1 fa1 frame Hso1 ltac:(by eexists) Hnone Ea Hne) as (Hf & Hso2 & K2 & Hm2 & Hl2).
  fold (tbl frame) STACK_PTE. rewrite P1. destruct (vmmMapPage _ _ _ _ _) as [vm rc]. unfold installed in *. cbn [fst snd] in *.
  destruct (Z.eqb_spec rc 0) as [Hrc|Hrc]; cbn [negb]; [|split; [by apply space_step_vm|intros Hl; by destruct (Hrc (Hl2 Hl))]]. specialize (Hm2 Hrc).
  destruct (km ((Z.of_nat (length argv) + 1) * 8)) eqn:Ek1; cbn [negb]; [|split; [by apply space_step_vm|by intros _; right; left]].
  destruct (stack_page_ok frame Hf) as [Hpg Htp]. unfold stack_need in A5.
  pose proof (strings_size_nonneg argv). pose proof (strings_size_nonneg envp).
  destruct (km ((Z.of_nat (length envp) + 1) * 8)) eqn:Ek2; cbn [negb].
  - destruct (build_stack_ok (tbl frame) STACK_PAGE Hpg Htp (vm_mem vm) tsc (p_pid (pr (sp_sched s) pp)) aux argv envp n)
      as (m2 & sp & random & E & Ho & L); try done. change (STACK_PAGE + 4096) with USER_STACK_TOP_DEFAULT in E. rewrite E.
    destruct (fill_stack s pp l1 vm frame m2 STACK_PAGE (STACK_PAGE + 4096) Hp Hso2 K2 Hvk Hnone Hf Hm2 ltac:(lia) ltac:(lia) Ho) as (F1 & F2 & F3).
    split; [done|]. exists random. split; [|by exists frame]. rewrite F3. eexists. split; [apply Hin|done].
    destruct (sl_page _ _ _ _ _ _ _ _ L). rewrite R2. lia.
  - destruct (push_strings_ok (tbl frame) STACK_PAGE Hpg Htp argv (vm_mem vm) USER_STACK_TOP_DEFAULT) as (m2 & ptrs & E & Ho & _);
      [rewrite <- stack_page_top; lia|done|]. rewrite E. cbn [fst]. split; [|by intros _; do 2 right; left].
    rewrite <- stack_page_top in Ho. apply (fill_stack s pp l1 vm frame m2 (STACK_PAGE + 4096 - strings_size argv) (STACK_PAGE + 4096)); done || lia.
Qed.
End MakeStack.

(** ** The program headers that are looked for *)

(** A PT_INTERP header with a path that is in the file, a PT_PHDR header, and
    a loaded segment that holds the table of program headers. *)
Definition names_interp (data : list Z) (p : Elf64_Phdr) : bool :=
  (p_type p =? PT_INTERP) && ((p_offset p + p_filesz p <=? file_size data) && (0 <? p_filesz p)).
Definition is_pt_phdr (p : Elf64_Phdr) : bool := p_type p =? PT_PHDR.
Definition holds_phdrs (data : list Z) (p : Elf64_Phdr) : bool :=
  let e := get_ehdr (image data) 0 in
  (p_type p =? PT_LOAD) && (p_offset p <=? e_phoff e) && (e_phoff e + e_phnum e * sizeof_Phdr <=? p_offset p + p_filesz p).

(** Where in the file the path of the interpreter is: as the last header that
    names one says. *)
Definition interp_off (data : list Z) : option Z := p_offset <$> last (List.filter (names_interp data) (phdrs data)).

(** The user address of the program headers: that of the last PT_PHDR header,
    or else where the first segment that holds them puts them, or else 0. *)
Definition phdr_addr (data : list Z) (bias : Z) : Z :=
  let a := from_option (seg_addr bias) 0 (last (List.filter is_pt_phdr (phdrs data))) in
  if a =? 0 then
    match List.filter (holds_phdrs data) (phdrs data) with
    | p :: _ => u64 (seg_addr bias p + (e_phoff (get_ehdr (image data) 0) - p_offset p)) | [] => 0 end
  else a.

Section Headers.
Context (data : list Z) (bias : Z).
Let e := get_ehdr (image data) 0.
Hypothesis Hp : prog_headers data bias.
Hypothesis Hfit : u64 (e_phoff e + e_phnum e * e_phentsize e) <= file_size data.

Lemma phdr_readable j : 0 <= j < e_phnum e -> is_Some (file_phdr data (e_phoff e) j).
Proof.
  destruct Hp as [P1 P2 P3 P4]. intros Hj. unfold e in Hfit. rewrite P1 in Hfit. fold e in Hfit, P3. unfold sizeof_Phdr in *.
  assert (Hn : 0 <= e_phoff e) by apply (rd_range 8).
  rewrite u64_id in Hfit by (unfold is_u64; lia). unfold file_phdr, sizeof_Phdr. rewrite u64_id by (unfold is_u64; lia).
  destruct (Z.leb_spec (e_phoff e + j * 56 + 56) (file_size data)); [by eexists|lia].
Qed.

Lemma phdrs_next i n p : file_phdr data (e_phoff e) i = Some p ->
  phdrs_from data (e_phoff e) i (Z.of_nat (Datatypes.S n)) = p :: phdrs_from data (e_phoff e) (i + 1) (Z.of_nat n).
Proof. intros Ep. rewrite (phdrs_from_cons data (e_phoff e) i _ p) by (done || lia). do 2 f_equal. lia. Qed.

Lemma scan_phdrs_spec n : forall i o a, 0 <= i -> i + Z.of_nat n <= e_phnum e ->
  scan_phdrs n data (e_phoff e) bias i (o, a) =
    let l := phdrs_from data (e_phoff e) i (Z.of_nat n) in
    Some (match last (List.filter (names_interp data) l) with Some p => Some (p_offset p) | None => o end,
          match last (List.filter is_pt_phdr l) with Some p => seg_addr bias p | None => a end).
Proof.
  induction n as [|n IH]; intros i o a Hi Hn; [done|]. cbn [scan_phdrs].
  destruct (phdr_readable i) as [p Ep]; [lia|]. rewrite Ep. cbn [mbind option_bind]. rewrite (phdrs_next i n p Ep). cbv zeta.
  destruct Hp as [P1 P2 P3 P4]. destruct (P4 i p) as [W1 W2]; [fold e; lia|done|].
  pose proof (file_phdr_nonneg _ _ _ _ Ep) as (N1 & N2 & N3 & N4). rewrite !(u64_id) by (unfold is_u64; lia).
  cbn [List.filter]. unfold names_interp at 1, is_pt_phdr at 1.
  destruct (Z.eqb_spec (p_type p) PT_INTERP) as [Et|Et]; cbn [andb].
  - rewrite Et. change (PT_INTERP =? PT_PHDR) with false.
    destruct ((p_offset p + p_filesz p <=? file_size data) && (0 <? p_filesz p)); cbn [fst snd]; rewrite IH by lia; cbv zeta; rewrite ?last_cons;
      by destruct (last (List.filter (names_interp data) _)).
  - destruct (p_type p =? PT_PHDR); cbn [fst snd]; rewrite IH by lia; cbv zeta; rewrite ?last_cons; by destruct (last (List.filter is_pt_phdr _)).
Qed.

Lemma find_phdrs_spec n : forall i, 0 <= i -> i + Z.of_nat n <= e_phnum e ->
  find_phdrs n data (e_phoff e) (e_phnum e * e_phentsize e) bias i = Some
    match List.filter (holds_phdrs data) (phdrs_from data (e_phoff e) i (Z.of_nat n)) with
    | p :: _ => u64 (seg_addr bias p + (e_phoff e - p_offset p)) | [] => 0 end.
Proof.
  induction n as [|n IH]; intros i Hi Hn; [done|]. cbn [find_phdrs].
  destruct (phdr_readable i) as [p Ep]; [lia|]. rewrite Ep. cbn [mbind option_bind]. rewrite (phdrs_next i n p Ep).
  pose proof Hp as [P1 P2 P3 P4]. destruct (P4 i p) as [W1 W2]; [fold e; lia|done|].
  pose proof (file_phdr_nonneg _ _ _ _ Ep) as (N1 & N2 & N3 & N4). fold e in P1, P3. rewrite P1.
  assert (0 <= e_phoff e) by apply (rd_range 8). unfold sizeof_Phdr in *.
  rewrite (u64_id (p_offset p + p_filesz p)), (u64_id (p_vaddr p + bias)), (u64_id (e_phoff e + _)) by (unfold is_u64; lia).
  cbn [List.filter]. unfold holds_phdrs at 1. fold e. unfold sizeof_Phdr. destruct (_ && _); [done|]. rewrite <- IH by lia. by rewrite P1.
Qed.

Lemma scan_result : exists ph,
  scan_phdrs (Z.to_nat (e_phnum e)) data (e_phoff e) bias 0 (None, 0) = Some (interp_off data, ph) /\
  (if ph =? 0 then find_phdrs (Z.to_nat (e_phnum e)) data (e_phoff e) (e_phnum e * e_phentsize e) bias 0 else Some ph) = Some (phdr_addr data bias).
Proof.
  assert (Hn : 0 <= e_phnum e) by apply (rd_range 2). rewrite scan_phdrs_spec, find_phdrs_spec by lia. cbv zeta. rewrite Z2Nat.id by done.
  eexists. split; [reflexivity|]. unfold phdr_addr. cbv zeta. fold e. change (phdrs_from data (e_phoff e) 0 (e_phnum e)) with (phdrs data).
  destruct (last _) as [p|]; cbn [from_option]; [|done]. by destruct (seg_addr bias p =? 0).
Qed.

Lemma phdr_addr_u64 : is_u64 (phdr_addr data bias).
Proof.
  unfold phdr_addr. cbv zeta. destruct (_ =? 0).
  - destruct (List.filter _ _); [unfold is_u64; lia|apply u64_range].
  - destruct (last (List.filter is_pt_phdr (phdrs data))) as [p|] eqn:El; [|unfold is_u64; simpl; lia]. cbn [from_option].
    apply last_Some_elem_of in El. apply list_elem_of_In, List.filter_In in El as [El _]. apply list_elem_of_In in El.
    apply list_elem_of_omap in El as (i & Hi & Ep). apply elem_of_seqZ in Hi.
    destruct (ph_entries _ _ Hp i p ltac:(lia) Ep) as [_ W]. pose proof (file_phdr_nonneg _ _ _ _ Ep) as (N1 & N2 & N3 & N4).
    pose proof (ph_bias _ _ Hp). unfold is_u64, seg_addr. lia.
Qed.
End Headers.

(** ** [schedSpawn] *)
Definition prog_bias (data : list Z) : Z := if e_type (get_ehdr (image data) 0) =? ET_DYN then DYN_BASE else 0.
Definition interp_bias (data : list Z) : Z := if e_type (get_ehdr (image data) 0) =? ET_DYN then USER_INTERP_BASE else 0.

Section Spawn.
Context {S : Type} `{FrameAllocator S} `{!FrameAllocatorLaws S} {D : Type} `{BlockDevice D} (km : Z -> bool).
Implicit Types (s : Spawn (S := S) (D := D)).

(** The file of the interpreter the program [data] names: the first of the
    places it is looked for that can be read; [None] when it names none or
    when there is none. *)
Definition interp_data (r : Root (D := D)) (data : list Z) : option (list Z) :=
  off ← interp_off data; path ← cstring (drop (Z.to_nat off) data); '(_, f) ← read_first km r (interp_paths path); f.

(** What the files a program names look like on the disk: its interpreter's
    path is a string, reading it returns, and its headers are sane. *)
Definition interp_sane (r : Root (D := D)) (data : list Z) : Prop := forall off, interp_off data = Some off ->
  exists path r2 f, cstring (drop (Z.to_nat off) data) = Some path /\ read_first km r (interp_paths path) = Some (r2, f) /\
    forall idata, f = Some idata -> prog_headers idata (interp_bias idata).

(** The program starts at [entry]: at its own entry point, or at that of the
    interpreter it names, which is loaded at [base]. *)
Definition entry_ready root s (pp : Z) (r : Root (D := D)) (data : list Z) (entry base : Z) : Prop :=
  match interp_off data with
  | None => entry = u64 (e_entry (get_ehdr (image data) 0) + prog_bias data) /\ base = 0
  | Some _ => exists idata, interp_data r data = Some idata /\ base = interp_bias idata /\
      entry = u64 (e_entry (get_ehdr (image idata) 0) + base) /\ file_loaded root s pp idata base
  end.

(** Pages of the program and of its interpreter. *)
Definition image_page (r : Root (D := D)) (data : list Z) (x : Z) : Prop :=
  file_page data (prog_bias data) x \/ exists idata, interp_data r data = Some idata /\ file_page idata (interp_bias idata) x.

(** Frames for the segments of the interpreter. *)
Definition interp_frames (r : Root (D := D)) (data : list Z) : nat :=
  match interp_data r data with Some idata => frames_needed (interp_bias idata) (phdrs idata) | None => O end.

(** Why the interpreter is refused: it is not found, it is no program, or it
    cannot be loaded beside the program. *)
Definition interp_refused (r : Root (D := D)) (data : list Z) : Prop := interp_off data <> None /\
  match interp_data r data with
  | None => True
  | Some idata => file_size idata < sizeof_Ehdr \/ elf_prog_ok (get_ehdr (image idata) 0) = false \/
      exists l, (forall x, is_Some (vmaFind l x) -> file_page data (prog_bias data) x) /\
        load_refused idata (interp_bias idata) (km VMA_SIZE) l
  end.

Lemma load_interp_ok root s pp data off : proc_space root s pp -> interp_sane (sp_root s) data -> interp_off data = Some off ->
  (forall x, is_Some (vmaFind (vmas_of s pp) x) -> file_page data (prog_bias data) x) ->
  exists s' r, load_interp km s pp data off = Some (s', r) /\ space_step root s s' pp /\
    match r with
    | None => frames_left (interp_frames (sp_root s) data + 1) (vm_fa (sp_vm s)) -> interp_refused (sp_root s) data
    | Some (entry, base) => is_u64 base /\ entry_ready root s' pp (sp_root s) data entry base /\
        (forall x, is_Some (vmaFind (vmas_of s' pp) x) -> image_page (sp_root s) data x) /\
        (forall k, frames_left (interp_frames (sp_root s) data + Datatypes.S k) (vm_fa (sp_vm s)) ->
           frames_left (Datatypes.S k) (vm_fa (sp_vm s')))
    end.
Proof.
  intros Hs Hsn Eo Hv. destruct (Hsn off Eo) as (path & r2 & f & Ec & Er & Hi). unfold load_interp. rewrite Ec. cbn [mbind option_bind].
  rewrite Er. cbn [mbind option_bind]. assert (Ei : interp_data (sp_root s) data = f) by (unfold interp_data; rewrite Eo; cbn [mbind option_bind]; rewrite Ec; cbn [mbind option_bind]; by rewrite Er).
  unfold interp_refused, image_page, interp_frames, entry_ready. rewrite Ei, Eo. clear Ec Er Ei.
  assert (Hs2 : space_step root s (set_sproot s r2) pp) by (destruct (space_step_refl root s pp Hs); by split).
  destruct f as [idata|]; [|by eexists _, _]. specialize (Hi idata eq_refl).
  destruct (Z.ltb_spec (file_size idata) sizeof_Ehdr); [by eexists _, _; split; [reflexivity|]; split; [done|]; split; [done|left]|].
  destruct (elf_prog_ok (get_ehdr (image idata) 0)); cbn [negb]; [|by eexists _, _; split; [reflexivity|]; split; [done|]; split; [done|right; left]].
  fold (interp_bias idata). destruct (load_into_ok km root (set_sproot s r2) pp idata (interp_bias idata)) as (s3 & rc & E & Hrc & Hst & _ & L & T & M); [apply Hs2|done|].
  cbv zeta. rewrite E. cbn [mbind option_bind]. eexists _, _. split; [reflexivity|]. split; [by apply space_step_trans with (set_sproot s r2)|].
  change (sp_vm (set_sproot s r2)) with (sp_vm s) in M. change (vmas_of (set_sproot s r2) pp) with (vmas_of s pp) in M, T.
  destruct (Z.eqb_spec rc 0) as [Hz|]; cbn [negb].
  - assert (Hib : is_u64 (interp_bias idata)) by (unfold interp_bias; destruct (_ =? _); vm_compute; split; congruence).
    split; [exact Hib|]. split_and!; [|by intros x Hx; destruct (T x Hx); [left; auto|right; eauto]|done].
    exists idata. split_and!; [done..|]. by apply L.
  - intros Hl. split; [done|]. do 2 right. exists (vmas_of s pp). split; [done|]. by apply (M 0%nat).
Qed.

(** A new process has an empty user half. *)
Lemma create_process_ok s kroot pp : pt_wf (sp_vm s) kroot -> 0 < gNextPid s < 2 ^ 32 ->
  let '(s', r) := schedCreateProcess (tbl kroot) s pp in
  sp_root s' = sp_root s /\ ((r = 0 /\ (pp = 0 \/ (fa_alloc (vm_fa (sp_vm s))).2 = 0)) \/
    (r = pp /\ pp <> 0 /\ vmas_of s' pp = [] /\ vm_fa (sp_vm s') = (fa_alloc (vm_fa (sp_vm s))).1 /\
     exists root, proc_space root s' pp /\ p_pid (pr (sp_sched s') pp) = gNextPid s)).
Proof.
  intros W Hpid. unfold schedCreateProcess. destruct (Z.eqb_spec pp 0); [by split; [|left; split; [|left]]|].
  destruct (Z.eqb_spec (gNextPid s) 0); [lia|]. cbv zeta. destruct (create_isolated (sp_vm s) kroot W) as [Cn C]. cbn [sp_vm] in *.
  assert (Efa : vm_fa (vmmCreateAddressSpace (sp_vm s) (tbl kroot)).1 = (fa_alloc (vm_fa (sp_vm s))).1)
    by (unfold vmmCreateAddressSpace; destruct (fa_alloc _) as [fa1 f1]; by destruct (f1 =? 0)).
  destruct (vmmCreateAddressSpace (sp_vm s) (tbl kroot)) as [vm pml4]. cbn [fst snd] in C, Cn, Efa.
  destruct (Z.eqb_spec pml4 0) as [Hz|Hne]; [by split; [|left; split; [|right; apply Cn]]|]. destruct (C Hne) as (root & -> & Hr & _ & Wr & _ & _ & Hx & _).
  split; [done|]. right. split_and!; try done.
  { unfold vmas_of, pr, set_spsched, set_proc. cbn [sp_sched s_procs sp_vm]. by rewrite lookup_insert_eq. }
  exists root. unfold proc_space, vmas_of, pr, set_spsched, set_proc. cbn [sp_sched s_procs sp_vm].
  rewrite lookup_insert_eq. cbn [default p_pml4 p_vmas p_pid id from_option]. split_and!; [done| |done].
  assert (Hno : forall v, user v -> xl (vm_mem vm) root (vpath v) = None) by (intros v Hv; apply Hx, tidx_user, Hv).
  constructor; [done|done| |].
  - intros v x k Hv Hm. cbn [sp_vm set_spvm vm_mem] in Hm. rewrite Hno in Hm by done. done.
  - intros v w x x' Hv _ Hm. unfold mapped in Hm. cbn [sp_vm set_spvm vm_mem] in Hm. rewrite Hno in Hm by done. done.
Qed.

(** The first thread. *)
Lemma new_thread_ok (sch : Sched) tp stack pp rsp start : let s' := new_thread sch tp stack pp rsp start in
  t_start (th s' tp) = start /\ t_process (th s' tp) = pp /\ t_state (th s' tp) = THREAD_STATE_READY /\ gReadyQueueTail s' = tp /\
  p_pml4 (pr s' pp) = p_pml4 (pr sch pp) /\ p_vmas (pr s' pp) = p_vmas (pr sch pp) /\ p_pid (pr s' pp) = p_pid (pr sch pp).
Proof.
  cbv zeta. unfold new_thread. cbv zeta. set (s2 := set_proc _ pp _).
  assert (E : pr s2 pp = mkProcess (p_pid (pr sch pp)) (p_pml4 (pr sch pp)) (p_vmas (pr sch pp)) tp).
  { unfold s2, pr, set_proc. cbn [s_procs]. by rewrite lookup_insert_eq. }
  assert (Et : th s2 tp = mkThread (gNextTid sch) THREAD_STATE_READY SCHED_DEFAULT_QUANTUM SCHED_DEFAULT_QUANTUM false 0 0 pp
     (p_threads (pr sch pp)) 0 0 stack (Z.land (u64 (stack + SCHED_KSTACK_SIZE)) (u64 (Z.lnot 0xF))) rsp start).
  { unfold s2. change (th (set_proc ?a ?b ?c) tp) with (th a tp). by rewrite th_set_th, Z.eqb_refl. }
  assert (Ep : pr (enqueueReady s2 tp) pp = pr s2 pp) by (unfold enqueueReady; by destruct (negb _)).
  rewrite !Ep, E. split_and!; try done; unfold enqueueReady; destruct (negb (gReadyQueueTail s2 =? 0)); try done;
    rewrite ?th_set_ready, ?th_upd, ?Z.eqb_refl, ?Et; try done;
    (destruct (tp =? gReadyQueueTail s2) eqn:Eq; [|done]); apply Z.eqb_eq in Eq; rewrite <- Eq, Z.eqb_refl; done.
Qed.

(** A process that is ready to run: the program and its interpreter are in
    its address space, the stack holds the arguments, the environment and the
    auxiliary vector, and the new thread, last in the ready queue, starts at
    the entry point with the stack pointer at the layout. *)
Definition started s (pp tp : Z) (r1 : Root (D := D)) (data : list Z) (args envs : list (list Z)) : Prop :=
  let e := get_ehdr (image data) 0 in
  exists root entry base sp random,
    proc_space root s pp /\ file_loaded root s pp data (prog_bias data) /\ entry_ready root s pp r1 data entry base /\
    stack_ready root s pp sp random
      (auxv_of (phdr_addr data (prog_bias data)) (e_phentsize e) (e_phnum e) base (u64 (e_entry e + prog_bias data)) random) args envs /\
    t_start (th (sp_sched s) tp) = mkStart entry 0 (Some sp) /\ t_process (th (sp_sched s) tp) = pp /\
    t_state (th (sp_sched s) tp) = THREAD_STATE_READY /\ gReadyQueueTail (sp_sched s) = tp.

Lemma entry_ready_step root s s' pp r1 data entry base : proc_space root s pp -> space_step root s s' pp ->
  entry_ready root s pp r1 data entry base -> entry_ready root s' pp r1 data entry base.
Proof.
  intros Hs Hst. unfold entry_ready. destruct (interp_off data); [|done]. intros (idata & H1 & H2 & H3 & H4). exists idata.
  split_and!; try done. by apply file_loaded_step with s.
Qed.

Lemma auxv_words phdr phent phnum base entry random : is_u64 phdr -> is_u64 phent -> is_u64 phnum -> is_u64 base -> is_u64 entry ->
  is_u64 random -> length (auxv_of phdr phent phnum base entry random) = 9%nat /\
  Forall is_u64 (flat (auxv_of phdr phent phnum base entry random)).
Proof.
  intros. split; [done|]. unfold auxv_of, flat. cbn [mbind list_bind app].
  repeat (apply Forall_cons; split; [done || (vm_compute; split; congruence)|]). constructor.
Qed.

Definition spawn_args (path : list Z) (name : option (list Z)) (argv : option (list (list Z))) : list (list Z) :=
  default [proc_name (default path name)] argv.

(** Where the first thread starts. *)
Definition spawn_entry (r : Root (D := D)) (data : list Z) : Z :=
  match interp_data r data with
  | Some idata => u64 (e_entry (get_ehdr (image idata) 0) + interp_bias idata)
  | None => u64 (e_entry (get_ehdr (image data) 0) + prog_bias data)
  end.

Lemma entry_is root s pp r1 data entry base : entry_ready root s pp r1 data entry base -> entry = spawn_entry r1 data.
Proof.
  unfold entry_ready, spawn_entry. destruct (interp_off data) eqn:Eo.
  - by intros (idata & -> & -> & -> & _).
  - intros [-> _]. unfold interp_data. by rewrite Eo.
Qed.

(** Why there is no first thread: no stack, no memory, or no entry point. *)
Definition start_refused (r : Root (D := D)) (data : list Z) (tp stack : Z) (args envs : list (list Z)) : Prop :=
  stack_refused km (image_page r data) args envs \/ tp = 0 \/ stack = 0 \/ spawn_entry r data = 0.

(** From the loaded program on. *)
Lemma start_process_ok kpml4 root s pp tp stack tsc r1 data entry base args envs :
  proc_space root s pp -> file_loaded root s pp data (prog_bias data) -> entry_ready root s pp r1 data entry base -> is_u64 base ->
  is_u64 (phdr_addr data (prog_bias data)) -> (forall x, is_Some (vmaFind (vmas_of s pp) x) -> image_page r1 data x) ->
  is_u64 (p_pid (pr (sp_sched s) pp)) -> is_u64 tsc -> string_bytes args -> string_bytes envs -> stack_need 9 args envs <= 4096 -> pp <> 0 ->
  let e := get_ehdr (image data) 0 in
  let aux random := auxv_of (phdr_addr data (prog_bias data)) (e_phentsize e) (e_phnum e) base (u64 (e_entry e + prog_bias data)) random in
  exists s' r, start_process km kpml4 s pp tp stack tsc entry aux args envs = Some (s', r) /\
    ((r = 0 /\ (frames_left 5 (vm_fa (sp_vm s)) -> start_refused r1 data tp stack args envs)) \/
     (r = pp /\ started s' pp tp r1 data args envs)).
Proof.
  intros Hs Hf He Hb Hph Himg Hpid Ht Ha Hv Hn Hpp e aux. unfold start_process, start_refused. rewrite <- (entry_is _ _ _ _ _ _ _ He).
  assert (M : stack_args 9 tsc aux args envs).
  { constructor; try done. intros random Hrd. apply auxv_words; try done; [| |apply u64_range].
    - pose proof (rd_range 2 (image data) (0 + 54)) as R. unfold is_u64, e, get_ehdr. cbn [e_phentsize]. fold rd16 in R. lia.
    - pose proof (rd_range 2 (image data) (0 + 56)) as R. unfold is_u64, e, get_ehdr. cbn [e_phnum]. fold rd16 in R. lia. }
  apply (make_stack_ok km root s pp tsc aux args envs 9 Hs Hpid) in M.
  destruct (make_stack km s pp tsc aux args envs) as [s4 [sp|]].
  2: { destruct M as [_ M]. eexists _, _; split; [reflexivity|left; split; [done|]]. intros Hl. left.
       destruct (M Hl) as [C|[C|[C|(x & C1 & C2)]]]; [by left|by right; left|by do 2 right; left|]. do 3 right. eauto. }
  destruct M as (Hst & random & Hr). unfold schedCreateUserThread. destruct (Z.eqb_spec pp 0); [done|]. cbn [orb].
  destruct (Z.eqb_spec entry 0); [eexists _, _; split; [reflexivity|left; split; [done|by do 3 right]]|].
  assert (Hsp : STACK_PAGE <= sp) by (destruct Hr as [_ (f & _ & _ & L)]; apply (sl_page _ _ _ _ _ _ _ _ L)).
  destruct (Z.eqb_spec sp 0) as [E0|_]; [rewrite E0 in Hsp; done|]. cbn [mbind option_bind].
  destruct (Z.eqb_spec tp 0) as [|Htp]; [eexists _, _; split; [reflexivity|left; split; [done|by right; left]]|].
  destruct (Z.eqb_spec stack 0); [eexists _, _; split; [reflexivity|left; split; [done|by do 2 right; left]]|].
  cbn [mbind option_bind]. destruct (Z.eqb_spec tp 0); [done|]. eexists _, _. split; [reflexivity|]. right. split; [done|].
  destruct (new_thread_ok (sp_sched s4) tp stack pp sp (mkStart entry 0 (Some sp))) as (N1 & N2 & N3 & N4 & N5 & N6 & N7).
  set (s5 := set_spsched s4 _). assert (Hst5 : space_step root s4 s5 pp).
  { destruct (st_space _ _ _ _ Hst) as [P1 P2]. split; unfold proc_space, vmas_of, s5; cbn [sp_sched set_spsched sp_vm]; rewrite ?N5, ?N6, ?N7; try done;
      first [apply keeps_refl | by intros a v]. }
  assert (Hall : space_step root s s5 pp) by by apply space_step_trans with s4.
  exists root, entry, base, sp, random. split_and!; try done.
  - apply Hst5.
  - by apply file_loaded_step with s.
  - by apply entry_ready_step with s.
  - destruct Hr as [R1 R2]. split; [|done]. unfold vmas_of, s5 in *. cbn [sp_sched set_spsched]. rewrite N6. done.
Qed.

(** The program file of [path] can be read and is sane, and the arguments fit
    in the top page of the stack. *)
Record spawn_input s (path : list Z) (data : list Z) (r1 : Root (D := D)) (args envs : list (list Z)) : Prop := {
  si_read : fs_read_file km (sp_root s) path = Some (r1, Some data);
  si_headers : prog_headers data (prog_bias data);
  si_interp : interp_sane r1 data;
  si_args : string_bytes args; si_envs : string_bytes envs;
  si_fits : stack_need 9 args envs <= 4096
}.

(** Why a program is not started: it is no ELF program with a table of
    headers, there is no kernel memory for the process, the program or its
    interpreter is refused, or its first thread is. *)
Definition spawn_refused (pp tp stack : Z) (data : list Z) (r1 : Root (D := D)) (args envs : list (list Z)) : Prop :=
  let e := get_ehdr (image data) 0 in
  file_size data < sizeof_Ehdr \/ elf_prog_ok e = false \/ file_size data < e_phoff e + e_phnum e * sizeof_Phdr \/ pp = 0 \/
  load_refused data (prog_bias data) (km VMA_SIZE) [] \/ interp_refused r1 data \/ start_refused r1 data tp stack args envs.

(** The frames a new process may take: its page directory, the segments, and
    the top page of its stack with its tables and one more. *)
Definition spawn_frames (r1 : Root (D := D)) (data : list Z) : nat :=
  (1 + (frames_needed (prog_bias data) (phdrs data) + (interp_frames r1 data + 5)))%nat.

Lemma phdrs_in_file data bias : prog_headers data bias -> let e := get_ehdr (image data) 0 in
  u64 (e_phoff e + e_phnum e * e_phentsize e) = e_phoff e + e_phnum e * sizeof_Phdr.
Proof.
  intros [P1 _ P3 _] e. fold e in P1, P3. rewrite P1. apply u64_id.
  assert (0 <= e_phoff e /\ 0 <= e_phnum e) by (split; [apply (rd_range 8)|apply (rd_range 2)]). unfold is_u64, sizeof_Phdr in *. lia.
Qed.

Lemma schedSpawn_ok s kroot pp tp stack tsc path name argv envp data r1 :
  pt_wf (sp_vm s) kroot -> 0 < gNextPid s < 2 ^ 32 -> is_u64 tsc ->
  spawn_input s path data r1 (spawn_args path name argv) (default [] envp) ->
  let args := spawn_args path name argv in let envs := default [] envp in
  exists s' r, schedSpawn km (tbl kroot) s pp tp stack tsc (Some path) name argv envp = Some (s', r) /\
    ((r = 0 /\ (frames_left (spawn_frames r1 data) (vm_fa (sp_vm s)) -> spawn_refused pp tp stack data r1 args envs)) \/
     (r = pp /\ started s' pp tp r1 data args envs)).
Proof.
  intros W Hpid Ht [I1 I2 I3 I4 I5 I6] args envs. unfold schedSpawn. rewrite I1. cbn [mbind option_bind]. cbv zeta. fold (prog_bias data).
  set (e := get_ehdr (image data) 0). set (s0 := set_sproot s r1). set (bias := prog_bias data) in *.
  assert (Hzero : forall x, (frames_left (spawn_frames r1 data) (vm_fa (sp_vm s)) -> spawn_refused pp tp stack data r1 args envs) ->
    exists s' r, Some (x, 0) = Some (s', r) /\
    ((r = 0 /\ (frames_left (spawn_frames r1 data) (vm_fa (sp_vm s)) -> spawn_refused pp tp stack data r1 args envs)) \/
     (r = pp /\ started s' pp tp r1 data args envs))) by (intros x Hx; eexists _, _; split; [reflexivity|by left]).
  unfold spawn_refused at 1 in Hzero. fold e in Hzero.
  destruct (Z.ltb_spec (file_size data) sizeof_Ehdr); [apply Hzero; tauto|]. destruct (elf_prog_ok e); cbn [negb]; [|apply Hzero; tauto].
  pose proof (phdrs_in_file data bias I2) as Etab. cbv zeta in Etab. fold e in Etab.
  destruct (Z.ltb_spec (file_size data) (u64 (e_phoff e + e_phnum e * e_phentsize e))) as [Hbad|Hfit]; [rewrite Etab in Hbad; apply Hzero; tauto|].
  pose proof (create_process_ok s0 kroot pp W Hpid) as C. destruct (schedCreateProcess (tbl kroot) s0 pp) as [s1 proc].
  destruct C as [Er1 [[-> C] | (-> & Hpp & Hv1 & Hfa & root & Hs1 & Epid)]].
  { apply Hzero. intros [Hx _]. destruct C as [C|C]; [tauto|done]. }
  change (sp_vm s0) with (sp_vm s) in Hfa. destruct (Z.eqb_spec pp 0); [done|].
  destruct (load_into_ok km root s1 pp data bias Hs1 I2) as (s2 & rc & -> & Hrc & Hst2 & Er2 & L2 & T2 & M2). cbn [mbind option_bind].
  rewrite Hv1 in T2, M2. rewrite Hfa in M2. specialize (M2 (interp_frames r1 data + 4)%nat).
  assert (Hl2 : frames_left (spawn_frames r1 data) (vm_fa (sp_vm s)) ->
    if rc =? 0 then frames_left (interp_frames r1 data + 5) (vm_fa (sp_vm s2)) else load_refused data bias (km VMA_SIZE) []).
  { intros [_ Hl]. rewrite Nat.add_succ_r. by apply M2; rewrite <- Nat.add_succ_r. }
  destruct (Z.eqb_spec rc 0) as [Hz|]; cbn [negb]; [|apply Hzero; tauto]. specialize (L2 Hz).
  destruct (scan_result data bias I2 Hfit) as (ph & Esc & Eph). fold e in Esc, Eph. rewrite Esc. cbn [mbind option_bind]. rewrite Eph. cbn [mbind option_bind].
  assert (Himg : forall x, is_Some (vmaFind (vmas_of s2 pp) x) -> file_page data bias x) by (intros x Hx; by destruct (T2 x Hx) as [[? ?]|]).
  assert (Hroot : sp_root s2 = r1) by by rewrite Er2, Er1.
  assert (exists s3 ent, match interp_off data with None => Some (s2, Some (u64 (e_entry e + bias), 0))
     | Some off => load_interp km s2 pp data off end = Some (s3, ent) /\ space_step root s2 s3 pp /\
     match ent with
     | None => frames_left (spawn_frames r1 data) (vm_fa (sp_vm s)) -> interp_refused r1 data
     | Some (entry, base) => is_u64 base /\ entry_ready root s3 pp r1 data entry base /\
         (forall x, is_Some (vmaFind (vmas_of s3 pp) x) -> image_page r1 data x) /\
         (frames_left (spawn_frames r1 data) (vm_fa (sp_vm s)) -> frames_left 5 (vm_fa (sp_vm s3)))
     end) as (s3 & ent & -> & Hst3 & Hent).
  { destruct (interp_off data) as [off|] eqn:Eo.
    - destruct (load_interp_ok root s2 pp data off (st_space _ _ _ _ Hst2)) as (s3 & ent & E & Hst & Hr); [by rewrite Hroot|done..|].
      exists s3, ent. split_and!; [done..|]. rewrite Hroot in Hr. destruct ent as [[entry base]|].
      + destruct Hr as (R1 & R2 & R3 & R4). split; [exact R1|]. split_and!; [done..|]. intros Hl. apply R4, Hl2, Hl.
      + intros Hl. apply Hr. specialize (Hl2 Hl). replace (interp_frames r1 data + 5)%nat with (4 + (interp_frames r1 data + 1))%nat in Hl2 by lia.
        by do 4 apply frames_left_less in Hl2.
    - eexists _, _. split; [reflexivity|]. split; [apply space_step_refl, Hst2|]. split; [unfold is_u64; lia|].
      split_and!; [unfold entry_ready; by rewrite Eo|by intros x Hx; left; apply Himg|].
      intros Hl. specialize (Hl2 Hl). unfold interp_frames, interp_data in Hl2. rewrite Eo in Hl2. exact Hl2. }
  cbn [mbind option_bind]. destruct ent as [[entry base]|]; [|apply Hzero; tauto]. destruct Hent as (Hbase & Hent & Hpg & Hl3).
  destruct (start_process_ok (tbl kroot) root s3 pp tp stack tsc r1 data entry base args envs) as (s' & r & E & Hr); try done.
  - apply Hst3.
  - apply file_loaded_step with s2; [apply Hst2|done..].
  - by apply phdr_addr_u64.
  - rewrite (st_pid _ _ _ _ Hst3), (st_pid _ _ _ _ Hst2), Epid. unfold is_u64. change (gNextPid s0) with (gNextPid s). lia.
  - exists s', r. split; [exact E|]. destruct Hr as [[-> Hr]|Hr]; [left|by right]. split; [done|]. intros Hl. do 6 right. auto.
Qed.
End Spawn.

(** ** Starting a program: an example

    The disk of the file system's example with a small program in its file,
    and a kernel whose second process is that program. *)


Definition prog_disk : RamDisk := mkDisk 512 [bpb; fat_sector; root_dir; take 512 demo_prog; drop 512 demo_prog ++ repeat 0 424].
Definition prog_vol : Fat32Volume :=
  match fat32_mount (fun _ => true) [(1, prog_disk)] 1 demo_part with Some v => v | None => demo_vol end.
Definition demo_sched : Sched := mkSched ∅ ∅ 0 0 0 0 0 0 1 0 0 0.
Definition demo_spawn : Spawn (S := Pmm) (D := RamDisk) := mkSpawn demo_vm demo_sched (Some (prog_disk, prog_vol)) 1.
Lemma demo_file_read : exists r1, fs_read_file (fun _ => true) (sp_root demo_spawn) demo_path = Some (r1, Some demo_prog).
Proof.
  assert (E : snd <$> fs_read_file (fun _ => true) (sp_root demo_spawn) demo_path = Some (Some demo_prog)) by (vm_compute; reflexivity).
  destruct (fs_read_file (fun _ => true) (sp_root demo_spawn) demo_path) as [[r1 d]|]; [|discriminate E].
  exists r1. f_equal. f_equal. injection E as E. exact E.
Qed.

Lemma demo_spawn_result :
  snd <$> schedSpawn (fun _ => true) (tbl demo_root) demo_spawn 0x5000 0x6000 0x7000 12345 (Some demo_path) None None None = Some 0x5000.
Proof. vm_compute. reflexivity. Qed.

Lemma demo_no_interp : interp_off demo_prog = None.
Proof. vm_compute. reflexivity. Qed.

Lemma demo_prog_headers : prog_headers demo_prog (prog_bias demo_prog).
Proof. assert (E : prog_bias demo_prog = 0) by (vm_compute; reflexivity). rewrite E. exact demo_headers. Qed.

