(* ===== verification/Rtld.v ===== *)
(** * The dynamic linker (src/lib/ldso/rtld.c): operations

    [mem] is the memory of the process.  A [SharedObject] is a record at an
    address of the linker's heap ([r_objs]); [gObjects] is the list of
    objects in the order of their [next] pointers, [gInitOrder] the array of
    initialised objects, 0 for NULL.  Calls of initialisers and finalisers
    are recorded in [r_calls]; that code does not call the linker back.

    The system calls are parameters: [files] gives the contents of the file
    at a path that can be opened, [mmap_ok] whether a mapping at a fixed
    address is granted.

    Loops that end at a terminator in memory get [fuel].  An operation ends
    in [Ok], in [Exited] after [exit(127)], or in [Stuck]: a loop without
    enough fuel, or a division by zero. *)

From Stdlib Require Import ZArith Lia Bool String.
From stdpp Require Import base list gmap strings.
From S2P Require Import Prelude Mem Str Elf Krsym Loader.

Definition RTLD_HEAP_BASE : Z := 0x0000700080000000.
Definition RTLD_LIB_BASE : Z := 0x0000780000000000.
Definition SIZEOF_SHARED_OBJECT : Z := 344.

Record SharedObject := mkObj {
  o_name : list Z; o_base : Z; o_mapBase : Z; o_totalSpan : Z; o_phdrs : Z; o_phnum : Z; o_dynamic : Z;
  o_strtab : Z; o_symtab : Z; o_rela : Z; o_relasz : Z; o_jmprel : Z; o_pltrelsz : Z; o_hash : Z; o_gnuHash : Z;
  o_init : Z; o_initArray : Z; o_initArraySz : Z; o_fini : Z; o_finiArray : Z; o_finiArraySz : Z;
  o_deps : list Z; o_depCapacity : Z;
  o_relocated : bool; o_initCalled : bool; o_finiCalled : bool; o_visiting : bool; o_isPinned : bool; o_refCount : Z
}.

Definition obj0 : SharedObject :=
  mkObj [] 0 0 0 0 0 0 0 0 0 0 0 0 0 0 0 0 0 0 0 0 [] 0 false false false false false 0.

Record Rtld := mkRtld {
  r_mem : mem; r_objs : gmap Z SharedObject; gObjects : list Z; gMainObj : Z; gPageSize : Z; gIsStartingUp : bool;
  gRtldHeapNext : Z; gNextLibAddr : Z; gInitOrder : list Z; gInitOrderCapacity : Z;
  heapCurr : Z; heapLeft : Z; gDlErrorBuf : list Z; gHasDlError : bool; r_calls : list Z
}.

Definition rtld0 (m : mem) : Rtld := mkRtld m ∅ [] 0 4096 true RTLD_HEAP_BASE RTLD_LIB_BASE [] 0 0 0 [] false [].

(** ** Field updates *)
Definition set_rmem (s : Rtld) (m : mem) : Rtld :=
  mkRtld m (r_objs s) (gObjects s) (gMainObj s) (gPageSize s) (gIsStartingUp s) (gRtldHeapNext s) (gNextLibAddr s) (gInitOrder s)
    (gInitOrderCapacity s) (heapCurr s) (heapLeft s) (gDlErrorBuf s) (gHasDlError s) (r_calls s).
Definition set_objs (s : Rtld) (o : gmap Z SharedObject) : Rtld :=
  mkRtld (r_mem s) o (gObjects s) (gMainObj s) (gPageSize s) (gIsStartingUp s) (gRtldHeapNext s) (gNextLibAddr s) (gInitOrder s)
    (gInitOrderCapacity s) (heapCurr s) (heapLeft s) (gDlErrorBuf s) (gHasDlError s) (r_calls s).
Definition set_gObjects (s : Rtld) (l : list Z) : Rtld :=
  mkRtld (r_mem s) (r_objs s) l (gMainObj s) (gPageSize s) (gIsStartingUp s) (gRtldHeapNext s) (gNextLibAddr s) (gInitOrder s)
    (gInitOrderCapacity s) (heapCurr s) (heapLeft s) (gDlErrorBuf s) (gHasDlError s) (r_calls s).
Definition set_gMainObj (s : Rtld) (p : Z) : Rtld :=
  mkRtld (r_mem s) (r_objs s) (gObjects s) p (gPageSize s) (gIsStartingUp s) (gRtldHeapNext s) (gNextLibAddr s) (gInitOrder s)
    (gInitOrderCapacity s) (heapCurr s) (heapLeft s) (gDlErrorBuf s) (gHasDlError s) (r_calls s).
Definition set_page_size (s : Rtld) (z : Z) (starting : bool) : Rtld :=
  mkRtld (r_mem s) (r_objs s) (gObjects s) (gMainObj s) z starting (gRtldHeapNext s) (gNextLibAddr s) (gInitOrder s)
    (gInitOrderCapacity s) (heapCurr s) (heapLeft s) (gDlErrorBuf s) (gHasDlError s) (r_calls s).
Definition set_heap (s : Rtld) (next curr left : Z) : Rtld :=
  mkRtld (r_mem s) (r_objs s) (gObjects s) (gMainObj s) (gPageSize s) (gIsStartingUp s) next (gNextLibAddr s) (gInitOrder s)
    (gInitOrderCapacity s) curr left (gDlErrorBuf s) (gHasDlError s) (r_calls s).
Definition set_lib (s : Rtld) (next : Z) : Rtld :=
  mkRtld (r_mem s) (r_objs s) (gObjects s) (gMainObj s) (gPageSize s) (gIsStartingUp s) (gRtldHeapNext s) next (gInitOrder s)
    (gInitOrderCapacity s) (heapCurr s) (heapLeft s) (gDlErrorBuf s) (gHasDlError s) (r_calls s).
Definition set_order (s : Rtld) (l : list Z) (cap : Z) : Rtld :=
  mkRtld (r_mem s) (r_objs s) (gObjects s) (gMainObj s) (gPageSize s) (gIsStartingUp s) (gRtldHeapNext s) (gNextLibAddr s) l
    cap (heapCurr s) (heapLeft s) (gDlErrorBuf s) (gHasDlError s) (r_calls s).
Definition set_error (s : Rtld) (buf : list Z) (b : bool) : Rtld :=
  mkRtld (r_mem s) (r_objs s) (gObjects s) (gMainObj s) (gPageSize s) (gIsStartingUp s) (gRtldHeapNext s) (gNextLibAddr s) (gInitOrder s)
    (gInitOrderCapacity s) (heapCurr s) (heapLeft s) buf b (r_calls s).
Definition add_call (s : Rtld) (f : Z) : Rtld :=
  mkRtld (r_mem s) (r_objs s) (gObjects s) (gMainObj s) (gPageSize s) (gIsStartingUp s) (gRtldHeapNext s) (gNextLibAddr s) (gInitOrder s)
    (gInitOrderCapacity s) (heapCurr s) (heapLeft s) (gDlErrorBuf s) (gHasDlError s) (r_calls s ++ [f]).

Definition ob (s : Rtld) (p : Z) : SharedObject := default obj0 (r_objs s !! p).
Definition set_ob (s : Rtld) (p : Z) (o : SharedObject) : Rtld := set_objs s (<[p := o]> (r_objs s)).
Definition upd_ob (s : Rtld) (p : Z) (f : SharedObject -> SharedObject) : Rtld := set_ob s p (f (ob s p)).

Definition with_deps (o : SharedObject) (l : list Z) (cap : Z) : SharedObject :=
  mkObj (o_name o) (o_base o) (o_mapBase o) (o_totalSpan o) (o_phdrs o) (o_phnum o) (o_dynamic o) (o_strtab o) (o_symtab o) (o_rela o)
    (o_relasz o) (o_jmprel o) (o_pltrelsz o) (o_hash o) (o_gnuHash o) (o_init o) (o_initArray o) (o_initArraySz o) (o_fini o) (o_finiArray o)
    (o_finiArraySz o) l cap (o_relocated o) (o_initCalled o) (o_finiCalled o) (o_visiting o) (o_isPinned o) (o_refCount o).
Definition with_flags (o : SharedObject) (reloc initc finic visit : bool) : SharedObject :=
  mkObj (o_name o) (o_base o) (o_mapBase o) (o_totalSpan o) (o_phdrs o) (o_phnum o) (o_dynamic o) (o_strtab o) (o_symtab o) (o_rela o)
    (o_relasz o) (o_jmprel o) (o_pltrelsz o) (o_hash o) (o_gnuHash o) (o_init o) (o_initArray o) (o_initArraySz o) (o_fini o) (o_finiArray o)
    (o_finiArraySz o) (o_deps o) (o_depCapacity o) reloc initc finic visit (o_isPinned o) (o_refCount o).
Definition with_ref (o : SharedObject) (n : Z) : SharedObject :=
  mkObj (o_name o) (o_base o) (o_mapBase o) (o_totalSpan o) (o_phdrs o) (o_phnum o) (o_dynamic o) (o_strtab o) (o_symtab o) (o_rela o)
    (o_relasz o) (o_jmprel o) (o_pltrelsz o) (o_hash o) (o_gnuHash o) (o_init o) (o_initArray o) (o_initArraySz o) (o_fini o) (o_finiArray o)
    (o_finiArraySz o) (o_deps o) (o_depCapacity o) (o_relocated o) (o_initCalled o) (o_finiCalled o) (o_visiting o) (o_isPinned o) n.

(** ** Running the linker *)
Inductive outcome (A : Type) : Type := Ok (a : A) | Exited | Stuck.
Arguments Ok {A} a.
Arguments Exited {A}.
Arguments Stuck {A}.

Definition Run (A : Type) : Type := Rtld -> outcome (Rtld * A).
#[export] Instance run_ret : MRet Run := fun A a s => Ok (s, a).
#[export] Instance run_bind : MBind Run := fun A B k c s =>
  match c s with Ok (s1, a) => k a s1 | Exited => Exited | Stuck => Stuck end.

Definition get_s : Run Rtld := fun s => Ok (s, s).
Definition modify (f : Rtld -> Rtld) : Run unit := fun s => Ok (f s, tt).
(** A message and [exit(127)]. *)
Definition rtldError {A} : Run A := fun _ => Exited.
Definition lift {A} (o : option A) : Run A := fun s => match o with Some a => Ok (s, a) | None => Stuck end.

(** A loop over a list. *)
Fixpoint each {A} (l : list A) (body : A -> Run unit) : Run unit :=
  match l with [] => mret tt | x :: r => _ ← body x; each r body end.

(** ** Strings and hashes *)
Fixpoint elf_hash (fuel : nat) (m : mem) (p h : Z) : option Z :=
  match fuel with
  | O => None
  | S k =>
      if rd8 m p =? 0 then Some h
      else
        let h1 := u32 (u32 (Z.shiftl h 4) + rd8 m p) in
        let g := Z.land h1 0xf0000000 in
        let h2 := if negb (g =? 0) then Z.lxor h1 (Z.shiftr g 24) else h1 in
        elf_hash k m (p + 1) (Z.land h2 (u32 (Z.lnot g)))
  end.
Definition rtldElfHash (fuel : nat) (m : mem) (name : Z) : option Z := elf_hash fuel m name 0.

Fixpoint gnu_hash (fuel : nat) (m : mem) (p h : Z) : option Z :=
  match fuel with
  | O => None
  | S k => if rd8 m p =? 0 then Some h else gnu_hash k m (p + 1) (u32 (u32 (Z.shiftl h 5) + h + rd8 m p))
  end.
Definition rtldGnuHash (fuel : nat) (m : mem) (name : Z) : option Z := gnu_hash fuel m name 5381.

Definition rtldStrlen (fuel : nat) (m : mem) (s : Z) : option Z := if s =? 0 then Some 0 else strlen_from fuel m s 0.
Definition rtldStrcmp (fuel : nat) (m : mem) (s1 s2 : Z) : option Z := strcmp fuel m s1 s2.
Fixpoint rtldStrncmp (n : nat) (m : mem) (s1 s2 : Z) : Z :=
  match n with
  | O => 0
  | S k => if negb (rd8 m s1 =? 0) && (rd8 m s1 =? rd8 m s2) then rtldStrncmp k m (s1 + 1) (s2 + 1) else rd8 m s1 - rd8 m s2
  end.
Definition rtldMemcpy (m : mem) (dest src n : Z) : mem := memcpy_bytes (Z.to_nat n) m dest src.
Definition rtldMemset (m : mem) (s c n : Z) : mem := memset_bytes (Z.to_nat n) m s (u8 c).

(** The bytes of the C string at [s]. *)
Fixpoint c_bytes (fuel : nat) (m : mem) (s : Z) : option (list Z) :=
  match fuel with O => None | S k => if rd8 m s =? 0 then Some [] else l ← c_bytes k m (s + 1); Some (rd8 m s :: l) end.

(** ** Symbols *)
Definition DT_NULL : Z := 0.
Definition DT_NEEDED : Z := 1.
Definition DT_PLTRELSZ : Z := 2.
Definition DT_HASH : Z := 4.
Definition DT_STRTAB : Z := 5.
Definition DT_SYMTAB : Z := 6.
Definition DT_RELA : Z := 7.
Definition DT_RELASZ : Z := 8.
Definition DT_INIT : Z := 12.
Definition DT_FINI : Z := 13.
Definition DT_JMPREL : Z := 23.
Definition DT_INIT_ARRAY : Z := 25.
Definition DT_FINI_ARRAY : Z := 26.
Definition DT_INIT_ARRAYSZ : Z := 27.
Definition DT_FINI_ARRAYSZ : Z := 28.
Definition DT_GNU_HASH : Z := 0x6ffffef5.
Definition STB_GLOBAL : Z := 1.
Definition STB_WEAK : Z := 2.
Definition sizeof_Dyn : Z := 16.

(** Entry [i] of an array of 32-bit or 64-bit words. *)
Definition w32 (m : mem) (a i : Z) : Z := rd32 m (u64 (a + 4 * i)).
Definition w64 (m : mem) (a i : Z) : Z := rd64 m (u64 (a + 8 * i)).

Section Lookup.
Context (fuel : nat) (m : mem).

(** Whether symbol [i] of the object is a definition of [name]. *)
Definition sym_matches (o : SharedObject) (name i : Z) : option bool :=
  let sym := sym_at m (o_symtab o) i in
  c ← rtldStrcmp fuel m (u64 (o_strtab o + st_name sym)) name;
  Some ((c =? 0) && negb (st_shndx sym =? SHN_UNDEF)).

(** A run of the GNU table from symbol [symIdx] on, until the low bit. *)
Fixpoint gnu_chain (n : nat) (o : SharedObject) (name hash chains symOffset symIdx : Z) : option Z :=
  match n with
  | O => None
  | S k =>
      let chainVal := w32 m chains (u32 (symIdx - symOffset)) in
      hit ← (if Z.shiftr chainVal 1 =? Z.shiftr hash 1 then sym_matches o name symIdx else Some false);
      if (hit : bool) then Some (u64 (o_symtab o + symIdx * sizeof_Sym))
      else if chainVal &? 1 then Some 0
      else gnu_chain k o name hash chains symOffset (u32 (symIdx + 1))
  end.

Definition gnu_lookup (o : SharedObject) (name : Z) : option Z :=
  let h := o_gnuHash o in
  let nbuckets := w32 m h 0 in
  let symOffset := w32 m h 1 in
  let bloomSize := w32 m h 2 in
  let bloomShift := w32 m h 3 in
  let bloom := u64 (h + 16) in
  let buckets := u64 (bloom + 8 * bloomSize) in
  let chains := u64 (buckets + 4 * nbuckets) in
  hash ← rtldGnuHash fuel m name;
  if bloomSize =? 0 then None
  else
    let word := w64 m bloom (hash / 64 mod bloomSize) in
    let mask := Z.lor (Z.shiftl 1 (hash mod 64)) (Z.shiftl 1 (Z.shiftr hash bloomShift mod 64)) in
    if negb (Z.land word mask =? mask) then Some 0
    else if nbuckets =? 0 then None
    else
      let symIdx := w32 m buckets (hash mod nbuckets) in
      if symIdx <? symOffset then Some 0 else gnu_chain fuel o name hash chains symOffset symIdx.

(** A chain of the System V table. *)
Fixpoint sysv_chain (n : nat) (o : SharedObject) (name chains symIdx : Z) : option Z :=
  match n with
  | O => None
  | S k =>
      if symIdx =? 0 then Some 0
      else
        hit ← sym_matches o name symIdx;
        if (hit : bool) then Some (u64 (o_symtab o + symIdx * sizeof_Sym)) else sysv_chain k o name chains (w32 m chains symIdx)
  end.

Definition sysv_lookup (o : SharedObject) (name : Z) : option Z :=
  let h := o_hash o in
  let nbucket := w32 m h 0 in
  let buckets := u64 (h + 8) in
  let chains := u64 (buckets + 4 * nbucket) in
  hash ← rtldElfHash fuel m name;
  if nbucket =? 0 then None else sysv_chain fuel o name chains (w32 m buckets (hash mod nbucket)).

(** The address of the symbol, 0 for NULL. *)
Definition rtldLookupInObject (o : SharedObject) (name : Z) : option Z :=
  if (o_symtab o =? 0) || (o_strtab o =? 0) then Some 0
  else
    g ← (if negb (o_gnuHash o =? 0) then gnu_lookup o name else Some 0);
    if negb (g =? 0) then Some g
    else if negb (o_hash o =? 0) then sysv_lookup o name else Some 0.

(** The search of the objects one after the other; [weak] is the first weak
    definition so far.  A result is the object and the address of the
    symbol. *)
Fixpoint resolve_in (objs : gmap Z SharedObject) (l : list Z) (name : Z) (weak : option (Z * Z)) : option (option (Z * Z)) :=
  match l with
  | [] => Some weak
  | p :: r =>
      sym ← rtldLookupInObject (default obj0 (objs !! p)) name;
      if sym =? 0 then resolve_in objs r name weak
      else
        let bind := ELF64_ST_BIND (st_info (get_sym m sym)) in
        if bind =? STB_GLOBAL then Some (Some (p, sym))
        else resolve_in objs r name (if (bind =? STB_WEAK) && (match weak with None => true | _ => false end) then Some (p, sym) else weak)
  end.

(** The value (0 for none), the object and the symbol. *)
Definition rtldResolveSymbol (s : Rtld) (name : Z) : option (Z * Z * Z) :=
  let l := (if gMainObj s =? 0 then [] else [gMainObj s]) ++ gObjects s in
  r ← resolve_in (r_objs s) l name None;
  Some match r with
       | Some (p, sym) => (u64 (o_base (ob s p) + st_value (get_sym m sym)), p, sym)
       | None => (0, 0, 0)
       end.

(** ** The dynamic section *)
Definition dyn_tag (d : Z) : Z := rd64 m d.
Definition dyn_val (d : Z) : Z := rd64 m (u64 (d + 8)).

(** The entries up to DT_NULL. *)
Fixpoint dyn_entries (n : nat) (d : Z) : option (list (Z * Z)) :=
  match n with
  | O => None
  | S k => if dyn_tag d =? DT_NULL then Some [] else l ← dyn_entries k (u64 (d + sizeof_Dyn)); Some ((dyn_tag d, dyn_val d) :: l)
  end.
End Lookup.

(** One entry of [rtldParseDynamic]. *)
Definition parse_entry (o : SharedObject) (e : Z * Z) : SharedObject :=
  let '(tag, v) := e in
  let ptr := u64 (o_base o + v) in
  let mk strtab symtab rela relasz jmprel pltrelsz hash gnuHash init initArray initArraySz fini finiArray finiArraySz :=
    mkObj (o_name o) (o_base o) (o_mapBase o) (o_totalSpan o) (o_phdrs o) (o_phnum o) (o_dynamic o) strtab symtab rela
      relasz jmprel pltrelsz hash gnuHash init initArray initArraySz fini finiArray finiArraySz
      (o_deps o) (o_depCapacity o) (o_relocated o) (o_initCalled o) (o_finiCalled o) (o_visiting o) (o_isPinned o) (o_refCount o) in
  let fld t old new := if tag =? t then new else old in
  mk (fld DT_STRTAB (o_strtab o) ptr) (fld DT_SYMTAB (o_symtab o) ptr) (fld DT_RELA (o_rela o) ptr) (fld DT_RELASZ (o_relasz o) v)
    (fld DT_JMPREL (o_jmprel o) ptr) (fld DT_PLTRELSZ (o_pltrelsz o) v) (fld DT_HASH (o_hash o) ptr) (fld DT_GNU_HASH (o_gnuHash o) ptr)
    (fld DT_INIT (o_init o) ptr) (fld DT_INIT_ARRAY (o_initArray o) ptr) (fld DT_INIT_ARRAYSZ (o_initArraySz o) (v / 8))
    (fld DT_FINI (o_fini o) ptr) (fld DT_FINI_ARRAY (o_finiArray o) ptr) (fld DT_FINI_ARRAYSZ (o_finiArraySz o) (v / 8)).

Definition rtldParseDynamic (fuel : nat) (m : mem) (o : SharedObject) : option SharedObject :=
  if o_dynamic o =? 0 then Some o else foldl parse_entry o <$> dyn_entries m fuel (o_dynamic o).

(** The DT_NEEDED entries, as addresses of names. *)
Definition needed_names (fuel : nat) (m : mem) (o : SharedObject) : option (list Z) :=
  if (o_dynamic o =? 0) || (o_strtab o =? 0) then Some []
  else match dyn_entries m fuel (o_dynamic o) with
       | Some l => Some (map (fun e => u64 (o_strtab o + e.2)) (List.filter (fun e => e.1 =? DT_NEEDED) l))
       | None => None
       end.

(** ** Relocation *)
Section Relocate.
Context (fuel : nat).

Definition unresolved (val : Z) (sym : Elf64_Sym) : bool := (val =? 0) && negb (ELF64_ST_BIND (st_info sym) =? 2).

(** Relocation [rel] of object [p]. *)
Definition relocate_one (p : Z) (rel : Elf64_Rela) : Run unit :=
  s ← get_s;
  let o := ob s p in
  let m := r_mem s in
  let type := u32 (ELF64_R_TYPE (r_info rel)) in
  let symIdx := u32 (ELF64_R_SYM (r_info rel)) in
  let target := u64 (o_base o + r_offset rel) in
  if type =? R_X86_64_RELATIVE then modify (fun s => set_rmem s (wr64 m target (u64 (o_base o + r_addend rel))))
  else if (type =? R_X86_64_64) || (type =? R_X86_64_GLOB_DAT) || (type =? R_X86_64_JUMP_SLOT) then
    let sym := sym_at m (o_symtab o) symIdx in
    r ← lift (rtldResolveSymbol fuel m s (u64 (o_strtab o + st_name sym)));
    if unresolved r.1.1 sym then rtldError
    else modify (fun s => set_rmem s (wr64 m target (if type =? R_X86_64_64 then u64 (r.1.1 + r_addend rel) else r.1.1)))
  else if type =? R_X86_64_COPY then
    let sym := sym_at m (o_symtab o) symIdx in
    r ← lift (rtldResolveSymbol fuel m s (u64 (o_strtab o + st_name sym)));
    if negb (r.1.1 =? 0) && negb (r.2 =? 0)
    then let n := if st_size sym <? st_size (get_sym m r.2) then st_size sym else st_size (get_sym m r.2) in
         modify (fun s => set_rmem s (rtldMemcpy m target r.1.1 n))
    else mret tt
  else mret tt.

(** The relocations of the table at [rela]. *)
Definition relocate_table (p rela size : Z) : Run unit :=
  let count := size / sizeof_Rela in
  if (rela =? 0) || (count =? 0) then mret tt
  else each (seqZ 0 count) (fun i => s ← get_s; relocate_one p (rela_at (r_mem s) rela i)).

Definition rtldRelocateObject (p : Z) : Run unit :=
  s ← get_s;
  let o := ob s p in
  if o_relocated o then mret tt
  else
    _ ← relocate_table p (o_rela o) (o_relasz o);
    _ ← relocate_table p (o_jmprel o) (o_pltrelsz o);
    modify (fun s => upd_ob s p (fun o => with_flags o true (o_initCalled o) (o_finiCalled o) (o_visiting o))).

Definition rtldRelocateAll : Run unit :=
  s ← get_s;
  _ ← each (gObjects s) rtldRelocateObject;
  if gMainObj s =? 0 then mret tt else rtldRelocateObject (gMainObj s).
End Relocate.

(** Unlinking the first occurrence; clearing it. *)
Fixpoint remove_first (x : Z) (l : list Z) : list Z :=
  match l with [] => [] | y :: r => if y =? x then r else y :: remove_first x r end.
Fixpoint clear_first (x : Z) (l : list Z) : list Z :=
  match l with [] => [] | y :: r => if y =? x then 0 :: r else y :: clear_first x r end.

(** The memory without the pages that were unmapped. *)
Definition munmap (m : mem) (a n : Z) : mem := filter (fun '(x, _) => ~ a <= x < a + n) m.

(** ** Initialisation and finalisation *)
Section Linker.
Context (fuel : nat) (files : list Z -> option (list Z)) (mmap_ok : Z -> Z -> bool).

(** The linker's heap: chunks at addresses of its own, never returned. *)
Definition rtldAlloc (size : Z) : Run Z :=
  s ← get_s;
  let size := Z.land (u64 (size + 15)) (u64 (Z.lnot 15)) in
  if heapLeft s <? size then
    let chunkSize := Z.max (page_up size) 65536 in
    if negb (mmap_ok (gRtldHeapNext s) chunkSize) then mret 0
    else
      let p := gRtldHeapNext s in
      _ ← modify (fun s => set_heap s (u64 (p + chunkSize)) (u64 (p + size)) (chunkSize - size));
      mret p
  else
    let p := heapCurr s in
    _ ← modify (fun s => set_heap s (gRtldHeapNext s) (u64 (p + size)) (heapLeft s - size));
    mret p.

Definition rtldStrdup (str : Z) : Run Z :=
  s ← get_s;
  len ← lift (rtldStrlen fuel (r_mem s) str);
  d ← rtldAlloc (len + 1);
  if d =? 0 then mret 0
  else _ ← modify (fun s => set_rmem s (rtldMemcpy (r_mem s) d str (len + 1))); mret d.

(** The array of dependencies of an object doubles when it is full. *)
Definition rtldAddDependency (obj dep : Z) : Run unit :=
  s ← get_s;
  let o := ob s obj in
  if (obj =? 0) || (dep =? 0) || (obj =? dep) || bool_decide (dep ∈ o_deps o) then mret tt
  else if o_depCapacity o <=? Z.of_nat (length (o_deps o)) then
    let newCap := if o_depCapacity o =? 0 then 8 else o_depCapacity o * 2 in
    p ← rtldAlloc (newCap * 8);
    if p =? 0 then mret tt else modify (fun s => upd_ob s obj (fun o => with_deps o (o_deps o ++ [dep]) newCap))
  else modify (fun s => upd_ob s obj (fun o => with_deps o (o_deps o ++ [dep]) (o_depCapacity o))).

Definition rtldAppendInitOrder (obj : Z) : Run unit :=
  s ← get_s;
  if gInitOrderCapacity s <=? Z.of_nat (length (gInitOrder s)) then
    let newCap := if gInitOrderCapacity s =? 0 then 16 else gInitOrderCapacity s * 2 in
    p ← rtldAlloc (newCap * 8);
    if p =? 0 then mret tt else modify (fun s => set_order s (gInitOrder s ++ [obj]) newCap)
  else modify (fun s => set_order s (gInitOrder s ++ [obj]) (gInitOrderCapacity s)).

(** The entries of an array of function pointers. *)
Definition fun_array (m : mem) (a n : Z) : list Z := map (w64 m a) (seqZ 0 n).

(** The initialisers of an object, in order. *)
Definition init_calls (m : mem) (o : SharedObject) : list Z :=
  (if o_init o =? 0 then [] else [o_init o]) ++
  (if o_initArray o =? 0 then [] else List.filter (fun f => negb (f =? 0)) (fun_array m (o_initArray o) (o_initArraySz o))).

Fixpoint rtldInitDfs (n : nat) (obj : Z) : Run unit :=
  match n with
  | O => lift None
  | S k =>
      s ← get_s;
      let o := ob s obj in
      if (obj =? 0) || o_initCalled o || o_visiting o then mret tt
      else
        _ ← modify (fun s => upd_ob s obj (fun o => with_flags o (o_relocated o) (o_initCalled o) (o_finiCalled o) true));
        _ ← each (o_deps o) (rtldInitDfs k);
        _ ← modify (fun s => upd_ob s obj (fun o => with_flags o (o_relocated o) true (o_finiCalled o) false));
        s1 ← get_s;
        _ ← each (init_calls (r_mem s1) (ob s1 obj)) (fun f => modify (fun s => add_call s f));
        rtldAppendInitOrder obj
  end.

Definition rtldCallInit : Run unit :=
  s ← get_s;
  _ ← each (gObjects s) (rtldInitDfs fuel);
  if gMainObj s =? 0 then mret tt else rtldInitDfs fuel (gMainObj s).

(** Whether an address lies in the object. *)
Definition in_object (o : SharedObject) (a : Z) : bool := (o_base o <=? a) && (a <? u64 (o_base o + o_totalSpan o)).

(** The finalisers of an object, the array from its end. *)
Definition fini_calls (m : mem) (o : SharedObject) : list Z :=
  (if negb (o_finiArray o =? 0) && (0 <? o_finiArraySz o) && (o_finiArraySz o <? 4096) && in_object o (o_finiArray o)
   then List.filter (fun f => negb (f =? 0) && in_object o f) (rev (fun_array m (o_finiArray o) (o_finiArraySz o))) else []) ++
  (if negb (o_fini o =? 0) && in_object o (o_fini o) then [o_fini o] else []).

Definition rtldExecuteFini (obj : Z) : Run unit :=
  s ← get_s;
  if (obj =? 0) || o_finiCalled (ob s obj) then mret tt
  else
    _ ← modify (fun s => upd_ob s obj (fun o => with_flags o (o_relocated o) (o_initCalled o) true (o_visiting o)));
    s1 ← get_s;
    each (fini_calls (r_mem s1) (ob s1 obj)) (fun f => modify (fun s => add_call s f)).

Definition rtldCallFini : Run unit :=
  s ← get_s;
  each (rev (gInitOrder s)) (fun obj => if obj =? 0 then mret tt else rtldExecuteFini obj).

(** ** Loading *)

(** Where a name is looked for, in order. *)
Definition search_paths (name : list Z) : list (list Z) :=
  match name with
  | 47 :: _ => [name]
  | 46 :: 47 :: _ => [name]
  | _ => List.filter (fun p => Z.of_nat (length p) <? 256)
           (map (fun d => text d ++ name) ["/lib/"; "/bin/"; "/EFI/novaos/"; "/nova/drivers/"]%string)
  end.

Fixpoint open_first (paths : list (list Z)) : option (list Z) :=
  match paths with [] => None | p :: r => match files p with Some d => Some d | None => open_first r end end.

Definition elf_dyn_ok (e : Elf64_Ehdr) : bool :=
  (ident e 0 =? 0x7F) && (ident e 1 =? 69) && (ident e 2 =? 76) && (ident e 3 =? 70) && (e_type e =? ET_DYN) && (e_machine e =? EM_X86_64).

(** Lowest and highest address of the segments. *)
Definition seg_span (phdrs : list Elf64_Phdr) : Z * Z :=
  foldl (fun '(lo, hi) p =>
    if p_type p =? PT_LOAD then (Z.min lo (p_vaddr p), Z.max hi (u64 (p_vaddr p + p_memsz p))) else (lo, hi)) (2 ^ 64 - 1, 0) phdrs.

(** Bytes of a private mapping of a file, zeros behind its end. *)
Definition map_bytes (data : list Z) (off len : Z) : list Z :=
  map (fun i => default 0 (data !! Z.to_nat (off + i))) (seqZ 0 len).

Definition pg (s : Rtld) (x : Z) : Z := Z.land x (u64 (Z.lnot (gPageSize s - 1))).

(** One segment; [false] when the mapping is refused. *)
Definition map_segment (data : list Z) (loadBias : Z) (p : Elf64_Phdr) (s : Rtld) : Rtld * bool :=
  if negb (p_type p =? PT_LOAD) then (s, true)
  else
    let vaddr := u64 (p_vaddr p + loadBias) in
    let segStart := pg s vaddr in
    let segEnd := pg s (u64 (vaddr + p_memsz p + gPageSize s - 1)) in
    let segLen := u64 (segEnd - segStart) in
    let fileOffset := pg s (p_offset p) in
    if (segLen =? 0) || (2 ^ 63 <=? fileOffset) || negb (mmap_ok segStart segLen) then (s, false)
    else
      let m1 := put_bytes (r_mem s) segStart (map_bytes data fileOffset segLen) in
      let m2 := if (p_filesz p <? p_memsz p) && (p_flags p &? PF_W)
                then rtldMemset m1 (u64 (vaddr + p_filesz p)) 0 (p_memsz p - p_filesz p) else m1 in
      (set_rmem s m2, true).

Fixpoint map_segments (data : list Z) (loadBias : Z) (l : list Elf64_Phdr) (s : Rtld) : Rtld * bool :=
  match l with
  | [] => (s, true)
  | p :: r => let '(s1, ok) := map_segment data loadBias p s in if (ok : bool) then map_segments data loadBias r s1 else (s1, false)
  end.

(** The name field holds 127 bytes. *)
Definition obj_name (name : list Z) : list Z := if 128 <=? Z.of_nat (length name) then take 127 name else name.

Definition new_object (s : Rtld) (name : list Z) (loadBias mapBase span phdrs : Z) (l : list Elf64_Phdr) : SharedObject :=
  let dyn := match List.find (fun p => p_type p =? PT_DYNAMIC) l with Some p => u64 (loadBias + p_vaddr p) | None => 0 end in
  mkObj (obj_name name) loadBias mapBase span phdrs (Z.of_nat (length l)) dyn 0 0 0 0 0 0 0 0 0 0 0 0 0 0 [] 0
    false false false false (gIsStartingUp s) 0.

(** The object of that name: the main object, or the first of the list. *)
Definition find_named (s : Rtld) (m : mem) (name : Z) : option Z :=
  if negb (gMainObj s =? 0) && (strcmp_lit (o_name (ob s (gMainObj s))) m name =? 0) then Some (gMainObj s)
  else List.find (fun p => strcmp_lit (o_name (ob s p)) m name =? 0) (gObjects s).

(** Reading the headers and mapping the segments; 0 for an error. *)
Definition map_object (name : list Z) (data : list Z) : Run Z :=
  let e := get_ehdr (image data) 0 in
  if (file_size data <? sizeof_Ehdr) || negb (elf_dyn_ok e) then mret 0
  else
    let phdrsSz := e_phnum e * e_phentsize e in
    phdrs ← rtldAlloc phdrsSz;
    let off := if e_phoff e <? 2 ^ 63 then e_phoff e else sizeof_Ehdr in
    let bytes := slice data off phdrsSz in
    if phdrs =? 0 then mret 0
    else
      _ ← modify (fun s => set_rmem s (put_bytes (r_mem s) phdrs bytes));
      if negb (Z.of_nat (length bytes) =? phdrsSz) then mret 0
      else
        s ← get_s;
        let l := map (fun i => get_phdr (r_mem s) (u64 (phdrs + i * sizeof_Phdr))) (seqZ 0 (e_phnum e)) in
        let '(lo, hi) := seg_span l in
        let minVaddr := pg s lo in
        let maxVaddr := pg s (u64 (hi + gPageSize s - 1)) in
        let span := u64 (maxVaddr - minVaddr) in
        let mapBase := gNextLibAddr s in
        let loadBias := u64 (mapBase - minVaddr) in
        _ ← modify (fun s => set_lib s (Z.land (u64 (mapBase + span + 0x200000 - 1)) (u64 (Z.lnot (0x200000 - 1)))));
        ok ← (fun s => Ok (map_segments data loadBias l s));
        if negb ok then mret 0
        else
          obj ← rtldAlloc SIZEOF_SHARED_OBJECT;
          s1 ← get_s;
          _ ← lift (if obj =? 0 then None else Some tt);
          o ← lift (rtldParseDynamic fuel (r_mem s1) (new_object s1 name loadBias mapBase span phdrs l));
          _ ← modify (fun s => set_gObjects (set_ob s obj o) (obj :: gObjects s));
          mret obj.

(** [n] bounds the depth of dependencies. *)
Fixpoint rtldLoadObject (n : nat) (name : Z) : Run Z :=
  match n with
  | O => lift None
  | S k =>
      s ← get_s;
      match find_named s (r_mem s) name with
      | Some p => mret p
      | None =>
          nm ← lift (c_bytes fuel (r_mem s) name);
          match open_first (search_paths nm) with
          | None => mret 0
          | Some data =>
              obj ← map_object nm data;
              if obj =? 0 then mret 0
              else
                s1 ← get_s;
                names ← lift (needed_names fuel (r_mem s1) (ob s1 obj));
                _ ← each names (fun nmp => dep ← rtldLoadObject k nmp; if dep =? 0 then mret tt else rtldAddDependency obj dep);
                mret obj
          end
      end
  end.

(** ** The dl functions *)
Definition setDlError (msg : list Z) : Run unit := modify (fun s => set_error s (take 127 msg) true).

Definition rtldDlError : Run (option (list Z)) :=
  s ← get_s;
  if negb (gHasDlError s) then mret None
  else _ ← modify (fun s => set_error s (gDlErrorBuf s) false); mret (Some (gDlErrorBuf s)).

Definition ref_up (p : Z) : Run unit := modify (fun s => upd_ob s p (fun o => with_ref o (o_refCount o + 1))).

Definition rtldDlOpen (filename : Z) : Run Z :=
  s ← get_s;
  if filename =? 0 then mret (gMainObj s)
  else match List.find (fun p => strcmp_lit (o_name (ob s p)) (r_mem s) filename =? 0) (gObjects s) with
  | Some p => _ ← ref_up p; mret p
  | None =>
      obj ← rtldLoadObject fuel filename;
      if obj =? 0 then _ ← setDlError (text "Failed to load shared object"); mret 0
      else
        _ ← ref_up obj;
        _ ← rtldRelocateAll fuel;
        _ ← rtldCallInit;
        mret obj
  end.

(** The first definition in an object of one of these names, in order. *)
Fixpoint sym_in_named (s : Rtld) (l : list Z) (depName symbol : Z) : option Z :=
  match l with
  | [] => Some 0
  | p :: r =>
      if strcmp_lit (o_name (ob s p)) (r_mem s) depName =? 0 then
        sym ← rtldLookupInObject fuel (r_mem s) (ob s p) symbol;
        if sym =? 0 then sym_in_named s r depName symbol
        else Some (u64 (o_base (ob s p) + st_value (get_sym (r_mem s) sym)))
      else sym_in_named s r depName symbol
  end.

Fixpoint sym_in_needed (s : Rtld) (names : list Z) (symbol : Z) : option Z :=
  match names with
  | [] => Some 0
  | d :: r => v ← sym_in_named s (gObjects s) d symbol; if v =? 0 then sym_in_needed s r symbol else Some v
  end.

Definition rtldDlSym (handle symbol : Z) : Run Z :=
  s ← get_s;
  if symbol =? 0 then _ ← setDlError (text "Invalid symbol name"); mret 0
  else if handle =? 0 then
    r ← lift (rtldResolveSymbol fuel (r_mem s) s symbol);
    if r.1.1 =? 0 then _ ← setDlError (text "Symbol not found"); mret 0 else mret r.1.1
  else
    sym ← lift (rtldLookupInObject fuel (r_mem s) (ob s handle) symbol);
    if negb (sym =? 0) then mret (u64 (o_base (ob s handle) + st_value (get_sym (r_mem s) sym)))
    else
      names ← lift (needed_names fuel (r_mem s) (ob s handle));
      v ← lift (sym_in_needed s names symbol);
      if v =? 0 then _ ← setDlError (text "Symbol not found in specified object"); mret 0 else mret v.

(** [ldso] is the linker's own object. *)
Context (ldso : Z).

Fixpoint rtldDlClose (n : nat) (handle : Z) : Run unit :=
  match n with
  | O => lift None
  | S k =>
      s ← get_s;
      let o := ob s handle in
      if (handle =? 0) || (handle =? gMainObj s) || (handle =? ldso) || o_isPinned o then mret tt
      else if 1 <? o_refCount o then modify (fun s => upd_ob s handle (fun o => with_ref o (o_refCount o - 1)))
      else
        _ ← modify (fun s => upd_ob s handle (fun o => with_ref o 0));
        _ ← rtldExecuteFini handle;
        _ ← each (o_deps o) (rtldDlClose k);
        _ ← modify (fun s => set_order (set_gObjects s (remove_first handle (gObjects s)))
                               (clear_first handle (gInitOrder s)) (gInitOrderCapacity s));
        if negb (o_mapBase o =? 0) && negb (o_totalSpan o =? 0)
        then modify (fun s => set_rmem s (munmap (r_mem s) (o_mapBase o) (o_totalSpan o))) else mret tt
  end.

(** ** Start-up *)

(** The relocations of the linker itself: only relative ones. *)
Definition selfRelocate (m : mem) (base dyn : Z) : option mem :=
  l ← dyn_entries m fuel dyn;
  let rela := foldl (fun a '(t, v) => if t =? DT_RELA then u64 (base + v) else a) 0 l in
  let relasz := foldl (fun a '(t, v) => if t =? DT_RELASZ then v else a) 0 l in
  if (rela =? 0) || (relasz <=? 0) then Some m
  else Some (foldl (fun m i =>
    let r := rela_at m rela i in
    if ELF64_R_TYPE (r_info r) =? R_X86_64_RELATIVE then wr64 m (u64 (base + r_offset r)) (u64 (base + r_addend r)) else m)
    m (seqZ 0 (relasz / sizeof_Rela))).

(** The end of the environment, and the auxiliary vector behind it. *)
Fixpoint skip_env (n : nat) (m : mem) (p : Z) : option Z :=
  match n with O => None | S k => if rd64 m p =? 0 then Some p else skip_env k m (u64 (p + 8)) end.

Fixpoint aux_entries (n : nat) (m : mem) (p : Z) : option (list (Z * Z)) :=
  match n with
  | O => None
  | S k => if rd64 m p =? AT_NULL then Some [] else l ← aux_entries k m (u64 (p + 16)); Some ((rd64 m p, rd64 m (u64 (p + 8))) :: l)
  end.

(** The last entry of a type, or the default. *)
Definition aux_last (t d : Z) (l : list (Z * Z)) : Z := foldl (fun a '(t', v) => if t' =? t then v else a) d l.

(** The load address of the program from its headers. *)
Definition main_base (appPhdr : Z) (l : list Elf64_Phdr) : Z :=
  let b := match List.find (fun p => p_type p =? PT_PHDR) l with Some p => u64 (appPhdr - p_vaddr p) | None => 0 end in
  if negb (b =? 0) then b
  else match List.find (fun p => (p_type p =? PT_LOAD) && (p_offset p =? 0)) l with
       | Some p => u64 (appPhdr - (p_vaddr p + sizeof_Ehdr))
       | None => 0
       end.

(** The main object and its dependencies. *)
Definition load_main (appPhdr appPhnum : Z) : Run unit :=
  s ← get_s;
  let l := map (fun i => get_phdr (r_mem s) (u64 (appPhdr + i * sizeof_Phdr))) (seqZ 0 appPhnum) in
  let mainBase := main_base appPhdr l in
  let mainDyn := match List.find (fun p => p_type p =? PT_DYNAMIC) l with Some p => u64 (mainBase + p_vaddr p) | None => 0 end in
  if mainDyn =? 0 then mret tt
  else
    obj ← rtldAlloc SIZEOF_SHARED_OBJECT;
    s1 ← get_s;
    _ ← lift (if obj =? 0 then None else Some tt);
    o ← lift (rtldParseDynamic fuel (r_mem s1)
                (mkObj (text "<main>") mainBase 0 0 appPhdr appPhnum mainDyn 0 0 0 0 0 0 0 0 0 0 0 0 0 0 [] 0 false false false false true 0));
    _ ← modify (fun s => set_gMainObj (set_ob s obj o) obj);
    s2 ← get_s;
    names ← lift (needed_names fuel (r_mem s2) o);
    each names (fun nmp => dep ← rtldLoadObject fuel nmp; if dep =? 0 then mret tt else rtldAddDependency obj dep).

(** [sp] is the initial stack; the result is the program's entry point. *)
Definition ldMain (sp dynamic : Z) : Run Z :=
  s ← get_s;
  let m := r_mem s in
  let argc := s32 (rd64 m sp) in
  let argv := u64 (sp + 8) in
  let envp := u64 (argv + (argc + 1) * 8) in
  p ← lift (skip_env fuel m envp);
  aux ← lift (aux_entries fuel m (u64 (p + 8)));
  let ldBase := aux_last AT_BASE 0 aux in
  let appPhdr := aux_last AT_PHDR 0 aux in
  let appPhnum := aux_last AT_PHNUM 0 aux in
  _ ← modify (fun s => set_page_size s (aux_last AT_PAGESZ (gPageSize s) aux) (gIsStartingUp s));
  m1 ← lift (selfRelocate m ldBase dynamic);
  _ ← modify (fun s => set_rmem s m1);
  o ← lift (rtldParseDynamic fuel m1
              (mkObj (text "ld-crow.so") ldBase 0 0 0 0 dynamic 0 0 0 0 0 0 0 0 0 0 0 0 0 0 [] 0 false false false false true 0));
  _ ← modify (fun s => set_gObjects (set_ob s ldso (with_flags o true false false false)) (ldso :: gObjects s));
  _ ← (if negb (appPhdr =? 0) && (0 <? appPhnum) then load_main appPhdr appPhnum else mret tt);
  _ ← rtldRelocateAll fuel;
  _ ← rtldCallInit;
  _ ← modify (fun s => set_page_size s (gPageSize s) false);
  mret (aux_last AT_ENTRY 0 aux).
End Linker.
