(* ===== verification/RtldHash.v ===== *)
(** * The dynamic linker: symbol tables

    The hash tables of an object answer as a search through all its symbols
    would: the GNU table with its Bloom filter and its runs, and the System V
    table with its chains. *)

From Stdlib Require Import ZArith Lia Bool.
From stdpp Require Import base list gmap.
From S2P Require Import Prelude Mem Str Elf Krsym Loader Rtld.

(** ** The hash functions on lists *)
Definition elf_step (h c : Z) : Z :=
  let h1 := u32 (u32 (Z.shiftl h 4) + c) in
  let g := Z.land h1 0xf0000000 in
  Z.land (if negb (g =? 0) then Z.lxor h1 (Z.shiftr g 24) else h1) (u32 (Z.lnot g)).
Definition elf_hash_of (s : list Z) : Z := foldl elf_step 0 s.
Definition gnu_step (h c : Z) : Z := u32 (u32 (Z.shiftl h 5) + h + c).
Definition gnu_hash_of (s : list Z) : Z := foldl gnu_step 5381 s.

Lemma elf_hash_cstr m s : forall p h fuel, cstr m p s -> (length s < fuel)%nat -> elf_hash fuel m p h = Some (foldl elf_step h s).
Proof.
  induction s as [|c s IH]; intros p h [|fuel] Hc Hl; simpl in Hl; try lia; inversion Hc as [? H0|? ? ? H0 H1 H2]; subst; cbn [elf_hash].
  - by rewrite H0.
  - destruct (Z.eqb_spec (rd8 m p) 0); [done|]. rewrite (IH (p + 1)); [done|done|lia].
Qed.

Lemma gnu_hash_cstr m s : forall p h fuel, cstr m p s -> (length s < fuel)%nat -> gnu_hash fuel m p h = Some (foldl gnu_step h s).
Proof.
  induction s as [|c s IH]; intros p h [|fuel] Hc Hl; simpl in Hl; try lia; inversion Hc as [? H0|? ? ? H0 H1 H2]; subst; cbn [gnu_hash].
  - by rewrite H0.
  - destruct (Z.eqb_spec (rd8 m p) 0); [done|]. rewrite (IH (p + 1)); [done|done|lia].
Qed.

Section Table.
Context (fuel : nat) (m : mem) (o : SharedObject).
(** The number of symbols and their names. *)
Context (count : Z) (nm : Z -> list Z).

Definition defined (i : Z) : Prop := st_shndx (sym_at m (o_symtab o) i) <> SHN_UNDEF.
#[local] Instance defined_dec i : Decision (defined i).
Proof. unfold defined. apply _. Defined.

Definition sym_addr (i : Z) : Z := o_symtab o + i * sizeof_Sym.

(** The symbol table and its names. *)
Record names_ok : Prop := {
  no_table : 0 < o_symtab o /\ o_symtab o + count * sizeof_Sym < 2 ^ 64;
  no_strtab : o_strtab o <> 0;
  no_count : 0 <= count < 2 ^ 32;
  no_names : forall i, 0 <= i < count -> cstr m (u64 (o_strtab o + st_name (sym_at m (o_symtab o) i))) (nm i) /\ (length (nm i) < fuel)%nat
}.
Hypothesis Hnames : names_ok.

(** [r] is the answer for the name [s] when only the symbols of [dom] are in
    the table: a definition of it, or none. *)
Definition answers (dom : Z -> Prop) (s : list Z) (r : Z) : Prop :=
  (exists i, 0 <= i < count /\ r = sym_addr i /\ nm i = s /\ defined i) \/
  (r = 0 /\ forall i, dom i -> 0 <= i < count -> nm i = s -> ~ defined i).

Context (name : Z) (s : list Z).
Hypothesis Hname : cstr m name s.
Hypothesis Hlen : (length s < fuel)%nat.

Lemma sym_matches_spec i : 0 <= i < count -> sym_matches fuel m o name i = Some (bool_decide (nm i = s /\ defined i)).
Proof.
  intros Hi. destruct (no_names Hnames i Hi) as [Hc Hl]. unfold sym_matches, rtldStrcmp. rewrite (strcmp_cstr m (nm i) s) by done.
  cbn [mbind option_bind]. f_equal. apply eq_true_iff_eq. rewrite bool_decide_eq_true, andb_true_iff, negb_true_iff, Z.eqb_neq, Z.eqb_eq.
  rewrite lstrcmp_zero by (eapply cstr_byte; done). done.
Qed.

Lemma sym_addr_u64 i : 0 <= i < count -> u64 (o_symtab o + i * sizeof_Sym) = sym_addr i.
Proof. intros Hi. destruct (no_table Hnames). unfold sym_addr, sizeof_Sym in *. apply u64_id. unfold is_u64. lia. Qed.

(** ** The System V table *)
Definition sysv_nbucket : Z := w32 m (o_hash o) 0.
Definition sysv_buckets : Z := u64 (o_hash o + 8).
Definition sysv_chains : Z := u64 (sysv_buckets + 4 * sysv_nbucket).

(** The indices met from [i] on. *)
Inductive chain_from : Z -> list Z -> Prop :=
| cf_end : chain_from 0 []
| cf_step i l : 0 < i < count -> chain_from (w32 m sysv_chains i) l -> chain_from i (i :: l).

Record sysv_ok (chain : Z -> list Z) : Prop := {
  sv_nbucket : sysv_nbucket <> 0;
  sv_chain : forall b, 0 <= b < sysv_nbucket -> chain_from (w32 m sysv_buckets b) (chain b) /\ (length (chain b) < fuel)%nat;
  sv_all : forall i, 0 < i < count -> defined i -> i ∈ chain (elf_hash_of (nm i) mod sysv_nbucket)
}.

Lemma sysv_chain_spec l : forall i n, chain_from i l -> (length l < n)%nat ->
  exists r, sysv_chain fuel m n o name sysv_chains i = Some r /\ answers (fun j => j ∈ l) s r.
Proof.
  induction l as [|j l IH]; intros i [|n] Hc Hn; simpl in Hn; try lia; inversion Hc as [|? ? Hi Hc' E]; subst; cbn [sysv_chain].
  - exists 0. split; [done|]. right. split; [done|]. intros i Hi. by apply not_elem_of_nil in Hi.
  - destruct (Z.eqb_spec j 0); [lia|]. rewrite sym_matches_spec by lia. cbn [mbind option_bind]. case_bool_decide as Hd.
    + exists (sym_addr j). split; [by rewrite sym_addr_u64 by lia|]. left. exists j. split_and!; try done; try lia; apply Hd.
    + destruct (IH _ n Hc' ltac:(lia)) as (r & E & A). exists r. split; [done|]. destruct A as [A|[A1 A2]]; [by left|].
      right. split; [done|]. intros i Hin Hr Hnm Hdef. apply elem_of_cons in Hin as [-> | Hin]; [by apply Hd|]. by apply (A2 i).
Qed.

Lemma sysv_lookup_spec chain : sysv_ok chain -> exists r, sysv_lookup fuel m o name = Some r /\ answers (fun i => 0 < i) s r.
Proof.
  intros [H1 H2 H3]. unfold sysv_lookup, rtldElfHash. rewrite (elf_hash_cstr m s) by done. cbn [mbind option_bind].
  fold sysv_nbucket. fold sysv_buckets. fold sysv_chains. change (foldl elf_step 0 s) with (elf_hash_of s).
  destruct (Z.eqb_spec sysv_nbucket 0); [done|].
  assert (Hb : 0 <= sysv_nbucket) by apply (rd_range 4).
  assert (Hm : 0 <= elf_hash_of s mod sysv_nbucket < sysv_nbucket) by (apply Z.mod_pos_bound; lia).
  destruct (H2 _ Hm) as [Hc Hl]. destruct (sysv_chain_spec _ _ fuel Hc Hl) as (r & E & A). exists r. split; [done|].
  destruct A as [A|[A1 A2]]; [by left|]. right. split; [done|]. intros i Hi Hr Hnm Hd. apply (A2 i); try done.
  rewrite <- Hnm. apply H3; [lia|done].
Qed.

(** ** The GNU table *)
Definition gnu_nbuckets : Z := w32 m (o_gnuHash o) 0.
Definition gnu_symOffset : Z := w32 m (o_gnuHash o) 1.
Definition gnu_bloomSize : Z := w32 m (o_gnuHash o) 2.
Definition gnu_bloomShift : Z := w32 m (o_gnuHash o) 3.
Definition gnu_bloom : Z := u64 (o_gnuHash o + 16).
Definition gnu_buckets : Z := u64 (gnu_bloom + 8 * gnu_bloomSize).
Definition gnu_chains : Z := u64 (gnu_buckets + 4 * gnu_nbuckets).
Definition chain_val (i : Z) : Z := w32 m gnu_chains (u32 (i - gnu_symOffset)).
Definition bloom_word (h : Z) : Z := w64 m gnu_bloom (h / 64 mod gnu_bloomSize).
Definition bloom_mask (h : Z) : Z := Z.lor (Z.shiftl 1 (h mod 64)) (Z.shiftl 1 (Z.shiftr h gnu_bloomShift mod 64)).

(** The symbols of a bucket: a run that ends at a value with the low bit. *)
Inductive gnu_run : Z -> list Z -> Prop :=
| gr_last i : gnu_symOffset <= i < count -> (chain_val i &? 1) = true -> gnu_run i [i]
| gr_more i l : gnu_symOffset <= i < count -> (chain_val i &? 1) = false -> gnu_run (i + 1) l -> gnu_run i (i :: l).

Record gnu_ok (run : Z -> list Z) : Prop := {
  gk_sizes : gnu_bloomSize <> 0 /\ gnu_nbuckets <> 0;
  gk_run : forall b, 0 <= b < gnu_nbuckets -> gnu_symOffset <= w32 m gnu_buckets b -> gnu_run (w32 m gnu_buckets b) (run b) /\ (length (run b) <= fuel)%nat;
  gk_all : forall i, gnu_symOffset <= i < count -> defined i ->
    let h := gnu_hash_of (nm i) in
    Z.land (bloom_word h) (bloom_mask h) = bloom_mask h /\ gnu_symOffset <= w32 m gnu_buckets (h mod gnu_nbuckets) /\
    i ∈ run (h mod gnu_nbuckets) /\ Z.shiftr (chain_val i) 1 = Z.shiftr h 1
}.

Lemma gnu_chain_spec l : forall i n, gnu_run i l -> (length l <= n)%nat ->
  exists r, gnu_chain fuel m n o name (gnu_hash_of s) gnu_chains gnu_symOffset i = Some r /\
    answers (fun j => j ∈ l /\ Z.shiftr (chain_val j) 1 = Z.shiftr (gnu_hash_of s) 1) s r.
Proof.
  assert (H0 : 0 <= gnu_symOffset) by apply (rd_range 4).
  induction l as [|j l IH]; intros i n Hc Hn; [inversion Hc|].
  assert (Hij : i = j) by (inversion Hc; done). subst i.
  assert (Hj : gnu_symOffset <= j < count) by (inversion Hc; done).
  destruct n as [|n]; simpl in Hn; [lia|]. cbn [gnu_chain]. fold (chain_val j).
  assert (Hhit : (if Z.shiftr (chain_val j) 1 =? Z.shiftr (gnu_hash_of s) 1 then sym_matches fuel m o name j else Some false) =
    Some (bool_decide (Z.shiftr (chain_val j) 1 = Z.shiftr (gnu_hash_of s) 1 /\ nm j = s /\ defined j))).
  { destruct (Z.eqb_spec (Z.shiftr (chain_val j) 1) (Z.shiftr (gnu_hash_of s) 1)) as [E|E].
    - rewrite sym_matches_spec by lia. f_equal. apply bool_decide_ext. tauto.
    - f_equal. symmetry. apply bool_decide_eq_false. tauto. }
  rewrite Hhit. cbn [mbind option_bind]. case_bool_decide as Hd.
  { exists (sym_addr j). split; [by rewrite sym_addr_u64 by lia|]. left. exists j. split_and!; try done; try lia; apply Hd. }
  inversion Hc as [? _ Hbit|? ? _ Hbit Hr]; subst; rewrite Hbit.
  - exists 0. split; [done|]. right. split; [done|]. intros i [Hi Hv] Hr Hnm Hdef. apply list_elem_of_singleton in Hi as ->. by apply Hd.
  - assert (Hnext : u32 (j + 1) = j + 1).
    { apply Z.mod_small. assert (j + 1 < count); [inversion Hr; lia|]. pose proof (no_count Hnames). lia. }
    rewrite Hnext. destruct (IH (j + 1) n Hr ltac:(lia)) as (r & E & A). exists r. split; [done|].
    destruct A as [A|[A1 A2]]; [by left|]. right. split; [done|]. intros i [Hin Hv] Hr' Hnm Hdef.
    apply elem_of_cons in Hin as [-> | Hin]; [by apply Hd|]. by apply (A2 i).
Qed.

Lemma gnu_lookup_spec run : gnu_ok run -> exists r, gnu_lookup fuel m o name = Some r /\ answers (fun i => gnu_symOffset <= i) s r.
Proof.
  intros [[H1 H1'] H2 H3]. unfold gnu_lookup, rtldGnuHash. rewrite (gnu_hash_cstr m s) by done. cbn [mbind option_bind].
  fold gnu_nbuckets gnu_symOffset gnu_bloomSize gnu_bloomShift gnu_bloom. fold gnu_buckets. fold gnu_chains.
  change (foldl gnu_step 5381 s) with (gnu_hash_of s). fold (bloom_word (gnu_hash_of s)) (bloom_mask (gnu_hash_of s)).
  destruct (Z.eqb_spec gnu_bloomSize 0); [done|].
  assert (Hnone : (forall i, gnu_symOffset <= i -> 0 <= i < count -> nm i = s -> ~ defined i) -> exists r, Some 0 = Some r /\ answers (fun i => gnu_symOffset <= i) s r)
    by (intros Hn; exists 0; split; [done|]; by right).
  destruct (Z.eqb_spec (Z.land (bloom_word (gnu_hash_of s)) (bloom_mask (gnu_hash_of s))) (bloom_mask (gnu_hash_of s))) as [Eb|Eb]; cbn [negb].
  2: { apply Hnone. intros i Hi Hr Hnm Hd. destruct (H3 i ltac:(lia) Hd) as [F _]. rewrite Hnm in F. done. }
  destruct (Z.eqb_spec gnu_nbuckets 0); [done|].
  assert (Hb : 0 <= gnu_nbuckets) by apply (rd_range 4).
  assert (Hm : 0 <= gnu_hash_of s mod gnu_nbuckets < gnu_nbuckets) by (apply Z.mod_pos_bound; lia).
  destruct (Z.ltb_spec (w32 m gnu_buckets (gnu_hash_of s mod gnu_nbuckets)) gnu_symOffset) as [Hlt|Hge].
  { apply Hnone. intros i Hi Hr Hnm Hd. destruct (H3 i ltac:(lia) Hd) as (_ & F & _). rewrite Hnm in F. lia. }
  destruct (H2 _ Hm Hge) as [Hc Hl]. destruct (gnu_chain_spec _ _ fuel Hc Hl) as (r & E & A). exists r. split; [done|].
  destruct A as [A|[A1 A2]]; [by left|]. right. split; [done|]. intros i Hi Hr Hnm Hd.
  destruct (H3 i ltac:(lia) Hd) as (_ & _ & F1 & F2). rewrite Hnm in F1, F2. by apply (A2 i).
Qed.
End Table.
