(* ===== verification/RtldInit.v ===== *)
(** * The dynamic linker: the order of initialisers

    [rtldCallInit] runs the initialisers of every object once, those of its
    dependencies first, also when the dependencies have cycles; a finaliser
    runs at most once. *)

From Stdlib Require Import ZArith Lia Bool.
From stdpp Require Import base list gmap.
From S2P Require Import Prelude Mem Str Elf Krsym Loader Rtld.

(** Two states that differ in the flags of initialisation, the order, the
    calls and the heap only. *)
Definition flags_only (o o' : SharedObject) : Prop :=
  o' = with_flags o (o_relocated o) (o_initCalled o') (o_finiCalled o) (o_visiting o').

Record shape (s s' : Rtld) : Prop := {
  sh_obj : forall p, flags_only (ob s p) (ob s' p);
  sh_mem : r_mem s' = r_mem s;
  sh_list : gObjects s' = gObjects s /\ gMainObj s' = gMainObj s
}.

Lemma flags_only_refl o : flags_only o o.
Proof. by destruct o. Qed.

Lemma flags_only_trans o1 o2 o3 : flags_only o1 o2 -> flags_only o2 o3 -> flags_only o1 o3.
Proof. unfold flags_only. intros -> ->. done. Qed.

Lemma shape_refl s : shape s s.
Proof. split; [intros p; apply flags_only_refl|done|done]. Qed.

Lemma shape_trans s1 s2 s3 : shape s1 s2 -> shape s2 s3 -> shape s1 s3.
Proof.
  intros [A1 B1 C1] [A2 B2 C2]. split; [|congruence|].
  - intros p. by apply flags_only_trans with (ob s2 p).
  - destruct C1, C2. split; congruence.
Qed.

Lemma ob_upd s p f q : ob (upd_ob s p f) q = if q =? p then f (ob s p) else ob s q.
Proof.
  unfold ob, upd_ob, set_ob, set_objs. cbn [r_objs]. destruct (Z.eqb_spec q p) as [-> | Hne]; [by rewrite lookup_insert_eq|].
  by rewrite lookup_insert_ne by done.
Qed.

Definition visiting (s : Rtld) (p : Z) : bool := o_visiting (ob s p).
Definition initialised (s : Rtld) (p : Z) : bool := o_initCalled (ob s p).
Definition deps_of (s : Rtld) (p : Z) : list Z := o_deps (ob s p).
Definition calls_of (s : Rtld) (p : Z) : list Z := init_calls (r_mem s) (ob s p).

Lemma shape_deps s s' p : shape s s' -> deps_of s' p = deps_of s p.
Proof. intros Hs. unfold deps_of. rewrite (sh_obj _ _ Hs p). done. Qed.
Lemma shape_calls s s' p : shape s s' -> calls_of s' p = calls_of s p.
Proof. intros Hs. unfold calls_of. rewrite (sh_obj _ _ Hs p), (sh_mem _ _ Hs). done. Qed.

Lemma each_app {A} (l1 l2 : list A) body s : each (l1 ++ l2) body s = match each l1 body s with Ok (s1, _) => each l2 body s1 | Exited => Exited | Stuck => Stuck end.
Proof.
  revert s. induction l1 as [|x l1 IH]; intros s; [done|]. cbn [each app]. unfold mbind, run_bind.
  destruct (body x s) as [[s1 []]| |]; [apply IH|done..].
Qed.

Lemma each_calls l : forall s, each l (fun f => modify (fun s => add_call s f)) s =
  Ok (mkRtld (r_mem s) (r_objs s) (gObjects s) (gMainObj s) (gPageSize s) (gIsStartingUp s) (gRtldHeapNext s) (gNextLibAddr s) (gInitOrder s)
    (gInitOrderCapacity s) (heapCurr s) (heapLeft s) (gDlErrorBuf s) (gHasDlError s) (r_calls s ++ l), tt).
Proof.
  induction l as [|f l IH]; intros s; cbn [each].
  - rewrite app_nil_r. by destruct s.
  - unfold mbind, run_bind, modify at 1. rewrite IH. cbn. by rewrite <- app_assoc.
Qed.

Section Init.
Context (mmap_ok : Z -> Z -> bool).

(** States that differ in the heap and the order only. *)
Record order_only (s s' : Rtld) : Prop := {
  oo_objs : r_objs s' = r_objs s; oo_mem : r_mem s' = r_mem s; oo_calls : r_calls s' = r_calls s;
  oo_list : gObjects s' = gObjects s /\ gMainObj s' = gMainObj s
}.

Lemma rtldAlloc_only n s : exists s' p, rtldAlloc mmap_ok n s = Ok (s', p) /\ order_only s s' /\ gInitOrder s' = gInitOrder s /\
  gInitOrderCapacity s' = gInitOrderCapacity s.
Proof.
  unfold rtldAlloc, mbind, run_bind, get_s. cbv zeta. destruct (heapLeft s <? _); [destruct (negb _)|]; eexists _, _; (split; [reflexivity|]); done.
Qed.

Lemma append_ok p s : exists s' kept, rtldAppendInitOrder mmap_ok p s = Ok (s', tt) /\ order_only s s' /\
  gInitOrder s' = gInitOrder s ++ kept /\ (kept = [p] \/ kept = []).
Proof.
  unfold rtldAppendInitOrder. unfold mbind at 1. unfold run_bind, get_s.
  destruct (gInitOrderCapacity s <=? Z.of_nat (length (gInitOrder s))).
  - cbv zeta. set (n := _ * 8). destruct (rtldAlloc_only n s) as (s1 & a & E & H1 & H2 & H3). unfold mbind. unfold run_bind. rewrite E.
    destruct (a =? 0).
    + exists s1, []. rewrite app_nil_r. split; [done|]. split; [done|]. split; [done|by right].
    + eexists _, [p]. split; [reflexivity|]. cbn. rewrite H2. split; [|split; [done|by left]]. by destruct H1.
  - eexists _, [p]. split; [reflexivity|]. split; [done|]. split; [done|by left].
Qed.

(** The objects not yet reached, of a finite universe. *)
Definition fresh (s : Rtld) (p : Z) : bool := negb (initialised s p) && negb (visiting s p).
Definition fresh_count (U : list Z) (s : Rtld) : nat := length (List.filter (fresh s) U).

Lemma fresh_count_le U s s' : (forall p, p ∈ U -> fresh s' p = true -> fresh s p = true) -> (fresh_count U s' <= fresh_count U s)%nat.
Proof.
  unfold fresh_count. induction U as [|x U IH]; intros Hle; [done|]. cbn [List.filter].
  assert (IH' := IH ltac:(intros p Hp; apply Hle; by right)). specialize (Hle x ltac:(by left)).
  destruct (fresh s' x), (fresh s x); cbn [length]; lia || by specialize (Hle eq_refl).
Qed.

Lemma fresh_count_lt U s s' p : p ∈ U -> fresh s p = true -> fresh s' p = false ->
  (forall q, q ∈ U -> fresh s' q = true -> fresh s q = true) -> (fresh_count U s' < fresh_count U s)%nat.
Proof.
  unfold fresh_count. induction U as [|x U IH]; intros Hp H1 H2 Hle; [by apply not_elem_of_nil in Hp|]. cbn [List.filter].
  assert (Hr : forall q, q ∈ U -> fresh s' q = true -> fresh s q = true) by (intros q Hq; apply Hle; by right).
  apply elem_of_cons in Hp as [<- | Hp].
  - rewrite H1, H2. cbn [length]. pose proof (fresh_count_le U s s' Hr) as Hc. unfold fresh_count in Hc. lia.
  - specialize (IH Hp H1 H2 Hr). specialize (Hle x ltac:(by left)). destruct (fresh s' x), (fresh s x); cbn [length]; lia || by specialize (Hle eq_refl).
Qed.

(** The result of visiting: the objects [new] were initialised, in order. *)
Record visited (s s' : Rtld) (new : list Z) : Prop := {
  vi_shape : shape s s';
  vi_visiting : forall q, visiting s' q = visiting s q;
  vi_init : forall q, initialised s' q = initialised s q || bool_decide (q ∈ new);
  vi_calls : r_calls s' = r_calls s ++ (new ≫= calls_of s);
  vi_order : exists kept, gInitOrder s' = gInitOrder s ++ kept /\ kept `sublist_of` new;
  vi_nodup : NoDup new;
  vi_fresh : forall q, q ∈ new -> fresh s q = true
}.

Lemma visited_refl s : visited s s [].
Proof.
  split; try done; [apply shape_refl| | | |constructor|].
  - intros q. rewrite bool_decide_eq_false_2 by apply not_elem_of_nil. by rewrite orb_false_r.
  - cbn. by rewrite app_nil_r.
  - exists []. by rewrite app_nil_r.
  - intros q Hq. by apply not_elem_of_nil in Hq.
Qed.

Lemma visited_trans s1 s2 s3 n1 n2 : visited s1 s2 n1 -> visited s2 s3 n2 -> visited s1 s3 (n1 ++ n2).
Proof.
  intros [A1 B1 C1 D1 (k1 & E1 & K1) F1 G1] [A2 B2 C2 D2 (k2 & E2 & K2) F2 G2]. split.
  - by apply shape_trans with s2.
  - intros q. by rewrite B2, B1.
  - intros q. rewrite C2, C1, <- orb_assoc. f_equal. apply eq_true_iff_eq. rewrite orb_true_iff, !bool_decide_eq_true, elem_of_app. done.
  - rewrite D2, D1, bind_app, <- app_assoc. do 2 f_equal. apply list_bind_ext; [|done]. intros q. by apply shape_calls.
  - exists (k1 ++ k2). rewrite E2, E1, <- app_assoc. split; [done|]. by apply sublist_app.
  - apply NoDup_app. split_and!; try done. intros q H1 H2. specialize (G2 q H2). unfold fresh in G2. rewrite C1 in G2.
    rewrite (bool_decide_eq_true_2 (q ∈ n1)) in G2 by done. rewrite orb_true_r in G2. done.
  - intros q Hq. apply elem_of_app in Hq as [Hq|Hq]; [by apply G1|]. specialize (G2 q Hq). unfold fresh in *. rewrite C1, B1 in G2.
    rewrite negb_orb in G2. by destruct (initialised s1 q), (visiting s1 q), (bool_decide (q ∈ n1)).
Qed.

(** [rank] decreases along dependencies: there are no cycles. *)
Definition ranked (s : Rtld) (rank : Z -> Z) : Prop := forall p d, d ∈ deps_of s p -> d <> 0 -> rank d < rank p.

(** Every dependency of an object of [new] was initialised before it. *)
Definition deps_first (s : Rtld) (new : list Z) : Prop := forall k q, new !! k = Some q ->
  forall d, d ∈ deps_of s q -> d <> 0 -> initialised s d = true \/ d ∈ take k new.

Lemma deps_first_app s1 s2 n1 n2 : visited s1 s2 n1 -> deps_first s1 n1 -> deps_first s2 n2 -> deps_first s1 (n1 ++ n2).
Proof.
  intros V H1 H2 k q Hk d Hd Hnz. apply lookup_app_Some in Hk as [Hk|[Hl Hk]].
  - destruct (H1 k q Hk d Hd Hnz) as [H|H]; [by left|right]. rewrite take_app. apply elem_of_app. by left.
  - rewrite <- (shape_deps s1 s2 q (vi_shape _ _ _ V)) in Hd. destruct (H2 _ q Hk d Hd Hnz) as [H|H].
    + rewrite (vi_init _ _ _ V) in H. apply orb_true_iff in H as [H|H]; [by left|right]. apply bool_decide_eq_true in H.
      rewrite take_app, take_ge by lia. apply elem_of_app. by left.
    + right. rewrite take_app, (take_ge n1) by lia. apply elem_of_app. by right.
Qed.

(** What a visit of [p] promises. *)
Definition visit_ok (U : list Z) (s : Rtld) (p : Z) (s' : Rtld) : Prop :=
  exists new, visited s s' new /\ (p = 0 \/ visiting s p = true \/ initialised s' p = true) /\ (forall q, q ∈ new -> q ∈ U) /\
    (forall rank, ranked s rank -> (p <> 0 -> forall v, visiting s v = true -> rank p < rank v) -> deps_first s new).

Lemma visited_fresh s s' new q : visited s s' new -> fresh s' q = true -> fresh s q = true.
Proof.
  intros V. unfold fresh. rewrite (vi_init _ _ _ V), (vi_visiting _ _ _ V), negb_orb. by destruct (initialised s q), (visiting s q), (bool_decide _).
Qed.

Lemma visit_refl U s p : p = 0 \/ visiting s p = true \/ initialised s p = true -> visit_ok U s p s.
Proof.
  intros Hp. exists []. split_and!; [apply visited_refl|done| |].
  - intros q Hq. by apply not_elem_of_nil in Hq.
  - intros rank _ _ k q Hk. done.
Qed.

(** All objects of a list. *)
Lemma visit_each U dfs n : (forall s p, (fresh_count U s < n)%nat -> p = 0 \/ p ∈ U -> (forall q, q ∈ U -> forall d, d ∈ deps_of s q -> d = 0 \/ d ∈ U) ->
    exists s', dfs p s = Ok (s', tt) /\ visit_ok U s p s') ->
  forall l s, (fresh_count U s < n)%nat -> (forall p, p ∈ l -> p = 0 \/ p ∈ U) -> (forall q, q ∈ U -> forall d, d ∈ deps_of s q -> d = 0 \/ d ∈ U) ->
  exists s' new, each l dfs s = Ok (s', tt) /\ visited s s' new /\
    (forall p, p ∈ l -> p = 0 \/ visiting s p = true \/ initialised s' p = true) /\ (forall q, q ∈ new -> q ∈ U) /\
    (forall rank, ranked s rank -> (forall p, p ∈ l -> p <> 0 -> forall v, visiting s v = true -> rank p < rank v) -> deps_first s new).
Proof.
  intros Hd l. induction l as [|p l IH]; intros s Hn Hl Hc; cbn [each].
  { exists s, []. split_and!; [done|apply visited_refl|intros p Hp; by apply not_elem_of_nil in Hp|intros q Hq; by apply not_elem_of_nil in Hq|].
    intros rank _ _ k q Hk. done. }
  destruct (Hd s p Hn (Hl p ltac:(by left)) Hc) as (s1 & E & n1 & V1 & P1 & U1 & R1). unfold mbind, run_bind. rewrite E.
  assert (Hn1 : (fresh_count U s1 < n)%nat).
  { eapply Nat.le_lt_trans; [|exact Hn]. apply fresh_count_le. intros q _. by apply visited_fresh with n1. }
  destruct (IH s1 Hn1) as (s2 & n2 & E2 & V2 & P2 & U2 & R2); [intros q Hq; apply Hl; by right| |].
  { intros q Hq d. rewrite (shape_deps s s1 q (vi_shape _ _ _ V1)). by apply Hc. }
  exists s2, (n1 ++ n2). split_and!; [done|by apply visited_trans with s1| | |].
  - intros q Hq. apply elem_of_cons in Hq as [-> | Hq].
    + destruct P1 as [P1|[P1|P1]]; [by left|by right; left|right; right]. rewrite (vi_init _ _ _ V2), P1. done.
    + destruct (P2 q Hq) as [P|[P|P]]; [by left| |by right; right]. right. left. by rewrite <- (vi_visiting _ _ _ V1).
  - intros q Hq. apply elem_of_app in Hq as [Hq|Hq]; auto.
  - intros rank Hr Hv. apply deps_first_app with s1; [done|apply (R1 rank Hr); apply Hv; by left|].
    apply (R2 rank).
    + intros q d. rewrite (shape_deps s s1 q (vi_shape _ _ _ V1)). apply Hr.
    + intros q Hq Hnz v. rewrite (vi_visiting _ _ _ V1). apply Hv; [by right|done].
Qed.

(** Entering and leaving an object. *)
Definition enter (s : Rtld) (p : Z) : Rtld := upd_ob s p (fun o => with_flags o (o_relocated o) (o_initCalled o) (o_finiCalled o) true).
Definition leave (s : Rtld) (p : Z) : Rtld := upd_ob s p (fun o => with_flags o (o_relocated o) true (o_finiCalled o) false).

Lemma enter_shape s p : shape s (enter s p).
Proof.
  split; [|done|done]. intros q. unfold enter. rewrite ob_upd. destruct (Z.eqb_spec q p) as [-> | _]; [done|apply flags_only_refl].
Qed.
Lemma leave_shape s p : shape s (leave s p).
Proof.
  split; [|done|done]. intros q. unfold leave. rewrite ob_upd. destruct (Z.eqb_spec q p) as [-> | _]; [done|apply flags_only_refl].
Qed.
Lemma enter_flags s p q : visiting (enter s p) q = (q =? p) || visiting s q /\ initialised (enter s p) q = initialised s q.
Proof. unfold visiting, initialised, enter. rewrite ob_upd. destruct (Z.eqb_spec q p) as [-> | _]; done. Qed.
Lemma leave_flags s p q : visiting (leave s p) q = negb (q =? p) && visiting s q /\ initialised (leave s p) q = (q =? p) || initialised s q.
Proof. unfold visiting, initialised, leave. rewrite ob_upd. destruct (Z.eqb_spec q p) as [-> | _]; done. Qed.

(** The visit of a fresh object after its dependencies. *)
Lemma visit_done s s2 s5 p new kept : fresh s p = true -> visited (enter s p) s2 new ->
  r_objs s5 = r_objs (leave s2 p) -> r_mem s5 = r_mem s2 -> gObjects s5 = gObjects s2 /\ gMainObj s5 = gMainObj s2 ->
  r_calls s5 = r_calls s2 ++ calls_of (leave s2 p) p -> gInitOrder s5 = gInitOrder s2 ++ kept -> kept = [p] \/ kept = [] ->
  visited s s5 (new ++ [p]).
Proof.
  intros Hf V Eo Em El Ec Ei Hk. pose proof V as [A B C D (k & K1 & K2) N F].
  assert (Eob : forall q, ob s5 q = ob (leave s2 p) q) by (intros q; unfold ob; by rewrite Eo).
  assert (Hnp : p ∉ new).
  { intros Hin. specialize (F p Hin). unfold fresh in F. destruct (enter_flags s p p) as [F1 _]. rewrite F1, Z.eqb_refl in F.
    by rewrite andb_false_r in F. }
  assert (Hall : shape s (leave s2 p)) by (eapply shape_trans; [apply enter_shape|]; eapply shape_trans; [exact A|apply leave_shape]).
  unfold fresh in Hf. apply andb_true_iff in Hf as [Hf1 Hf2]. apply negb_true_iff in Hf1, Hf2. split.
  - destruct Hall as [S1 S2 S3]. destruct El as [L1 L2]. split; [intros q; rewrite Eob; apply S1|by rewrite Em, <- S2|]. rewrite L1, L2. exact S3.
  - intros q. unfold visiting. rewrite Eob. destruct (leave_flags s2 p q) as [L1 _]. unfold visiting in L1. rewrite L1.
    specialize (B q). unfold visiting in B. rewrite B. destruct (enter_flags s p q) as [E1 _]. unfold visiting in E1. rewrite E1.
    destruct (Z.eqb_spec q p) as [-> | _]; [|done]. by unfold visiting in Hf2.
  - intros q. unfold initialised. rewrite Eob. destruct (leave_flags s2 p q) as [_ L2]. unfold initialised in L2. rewrite L2.
    specialize (C q). unfold initialised in C. rewrite C. destruct (enter_flags s p q) as [_ E2]. unfold initialised in E2. rewrite E2.
    destruct (Z.eqb_spec q p) as [-> | Hq].
    + rewrite (bool_decide_eq_true_2 (p ∈ new ++ [p])), orb_true_r; [done|]. apply elem_of_app. right. by apply list_elem_of_singleton.
    + cbn [orb]. f_equal. apply bool_decide_ext. rewrite elem_of_app, list_elem_of_singleton. tauto.
  - rewrite Ec, D, bind_app. change (r_calls (enter s p)) with (r_calls s). rewrite <- app_assoc. do 2 f_equal.
    + apply list_bind_ext; [|done]. intros q. apply shape_calls, enter_shape.
    + cbn. rewrite app_nil_r. by apply shape_calls.
  - exists (k ++ kept). rewrite Ei, K1, <- app_assoc. split; [done|]. apply sublist_app; [done|]. destruct Hk as [-> | ->]; [done|apply sublist_nil_l].
  - apply NoDup_app. split_and!; [done| |apply NoDup_singleton]. intros q Hq Hp. apply list_elem_of_singleton in Hp as ->. done.
  - intros q Hq. apply elem_of_app in Hq as [Hq|Hq].
    + specialize (F q Hq). unfold fresh in *. destruct (enter_flags s p q) as [-> ->] in F. by destruct (initialised s q), (visiting s q), (q =? p).
    + apply list_elem_of_singleton in Hq as ->. unfold fresh. by rewrite Hf1, Hf2.
Qed.

Lemma rtldInitDfs_ok U n : forall s p, (fresh_count U s < n)%nat -> p = 0 \/ p ∈ U ->
  (forall q, q ∈ U -> forall d, d ∈ deps_of s q -> d = 0 \/ d ∈ U) ->
  exists s', rtldInitDfs mmap_ok n p s = Ok (s', tt) /\ visit_ok U s p s'.
Proof.
  induction n as [|n IH]; intros s p Hn Hp Hc; [lia|]. cbn [rtldInitDfs]. unfold mbind at 1. unfold run_bind at 1. unfold get_s at 1.
  cbv beta iota zeta. fold (initialised s p) (visiting s p) (deps_of s p).
  destruct (Z.eqb_spec p 0) as [-> | Hnz]; [exists s; split; [done|]; apply visit_refl; by left|]. destruct Hp as [Hp|Hp]; [done|]. cbn [orb].
  destruct (initialised s p) eqn:Ei; cbn [orb]; [exists s; split; [done|]; apply visit_refl; by right; right|].
  destruct (visiting s p) eqn:Ev; [exists s; split; [done|]; apply visit_refl; by right; left|].
  assert (Hf : fresh s p = true) by (unfold fresh; by rewrite Ei, Ev).
  unfold mbind at 1. unfold run_bind at 1. unfold modify at 1. fold (enter s p). cbv beta iota.
  assert (Hn1 : (fresh_count U (enter s p) < n)%nat).
  { assert (fresh_count U (enter s p) < fresh_count U s)%nat; [|lia]. apply fresh_count_lt with p; try done.
    - unfold fresh. destruct (enter_flags s p p) as [-> ->]. rewrite Z.eqb_refl. by rewrite andb_false_r.
    - intros q _. unfold fresh. destruct (enter_flags s p q) as [-> ->]. by destruct (initialised s q), (visiting s q), (q =? p). }
  destruct (visit_each U (rtldInitDfs mmap_ok n) n IH (deps_of s p) (enter s p) Hn1) as (s2 & new & E2 & V2 & P2 & U2 & R2).
  { by apply Hc. }
  { intros q Hq d. rewrite (shape_deps s (enter s p) q (enter_shape s p)). by apply Hc. }
  unfold mbind at 1. unfold run_bind at 1. rewrite E2. unfold mbind at 1. unfold run_bind at 1. unfold modify at 1. fold (leave s2 p). cbv beta iota.
  unfold mbind at 1. unfold run_bind at 1. unfold get_s at 1. cbv beta iota. fold (calls_of (leave s2 p) p).
  unfold mbind at 1. unfold run_bind at 1. rewrite each_calls. cbv beta iota.
  match goal with |- exists s', rtldAppendInitOrder mmap_ok p ?x = _ /\ _ => set (s4 := x) end.
  destruct (append_ok p s4) as (s5 & kept & E5 & [O1 O2 O3 O4] & K1 & K2). exists s5. split; [done|].
  assert (V5 : visited s s5 (new ++ [p])) by (by apply visit_done with s2 kept).
  exists (new ++ [p]). split_and!; [done| | |].
  - right. right. rewrite (vi_init _ _ _ V5). rewrite (bool_decide_eq_true_2 (p ∈ new ++ [p])), orb_true_r; [done|].
    apply elem_of_app. right. by apply list_elem_of_singleton.
  - intros q Hq. apply elem_of_app in Hq as [Hq|Hq]; [by apply U2|]. by apply list_elem_of_singleton in Hq as ->.
  - intros rank Hr Hv. specialize (Hv Hnz).
    assert (Hr1 : ranked (enter s p) rank) by (intros q d; rewrite (shape_deps s _ q (enter_shape s p)); apply Hr).
    assert (D1 : deps_first (enter s p) new).
    { apply (R2 rank Hr1). intros d Hd Hdz v Hvis. specialize (Hr p d Hd Hdz). destruct (enter_flags s p v) as [F1 _]. rewrite F1 in Hvis.
      destruct (Z.eqb_spec v p) as [E|_]; [by rewrite E|]. specialize (Hv v Hvis). lia. }
    intros k q Hk d Hd Hdz. apply lookup_app_Some in Hk as [Hk|[Hl Hk]].
    + rewrite <- (shape_deps s (enter s p) q (enter_shape s p)) in Hd. destruct (D1 k q Hk d Hd Hdz) as [H|H].
      * left. by rewrite (proj2 (enter_flags s p d)) in H.
      * right. rewrite take_app. apply elem_of_app. by left.
    + apply list_lookup_singleton_Some in Hk as [Hk <-]. specialize (Hr p d Hd Hdz). destruct (P2 d Hd) as [H|[H|H]]; [done| |].
      * rewrite (proj1 (enter_flags s p d)) in H. destruct (Z.eqb_spec d p) as [E|_]; [rewrite E in Hr; lia|]. specialize (Hv d H). lia.
      * rewrite (vi_init _ _ _ V2) in H. rewrite (proj2 (enter_flags s p d)) in H. apply orb_true_iff in H as [H|H]; [by left|right].
        apply bool_decide_eq_true in H. rewrite take_app, (take_ge new) by lia. apply elem_of_app. by left.
Qed.

(** All objects: [U] is the list of them. *)
Lemma rtldCallInit_ok fuel s : let U := gObjects s ++ [gMainObj s] in
  (forall q, q ∈ U -> forall d, d ∈ deps_of s q -> d = 0 \/ d ∈ U) -> (length U < fuel)%nat -> (forall p, visiting s p = false) ->
  exists s' new, rtldCallInit fuel mmap_ok s = Ok (s', tt) /\ visited s s' new /\
    (forall p, p ∈ U -> p = 0 \/ initialised s' p = true) /\ (forall q, q ∈ new -> q ∈ U) /\
    (forall rank, ranked s rank -> deps_first s new).
Proof.
  intros U Hc Hf Hv.
  assert (Hn : (fresh_count U s < fuel)%nat) by (eapply Nat.le_lt_trans; [|exact Hf]; apply List.filter_length_le).
  destruct (visit_each U (rtldInitDfs mmap_ok fuel) fuel (rtldInitDfs_ok U fuel) U s Hn) as (s' & new & E & V & P & HU & R); [auto|done|].
  exists s', new. split_and!; try done.
  - unfold rtldCallInit. unfold mbind at 1. unfold run_bind at 1. unfold get_s. cbv beta iota.
    unfold U in E. rewrite each_app in E. unfold mbind, run_bind. destruct (each (gObjects s) (rtldInitDfs mmap_ok fuel) s) as [[s1 []]| |]; [|done..].
    cbn [each] in E. unfold mbind, run_bind in E. destruct (Z.eqb_spec (gMainObj s) 0) as [E0|_].
    + rewrite E0 in E. destruct fuel; [lia|]. cbn in E. exact E.
    + destruct (rtldInitDfs mmap_ok fuel (gMainObj s) s1) as [[s2 []]| |]; done.
  - intros p Hp. destruct (P p Hp) as [H|[H|H]]; [by left| |by right]. by rewrite Hv in H.
  - intros rank Hr. apply (R rank Hr). intros p _ _ v Hvis. by rewrite Hv in Hvis.
Qed.
End Init.
