(* ===== verification/RtldClose.v ===== *)
(** * The dynamic linker: initialisers, finalisers and [dlclose] *)

From Stdlib Require Import ZArith Lia Bool String.
From stdpp Require Import base list gmap strings.
From S2P Require Import Prelude Mem Str Elf Krsym Loader Rtld RtldInit.

(** ** Initialisers *)

(** What initialising an object calls: [array_called m a i n l] when [l] are
    the functions of the entries [i] to [i + n - 1] of the array at [a], in
    this order, without the empty ones. *)
Inductive array_called (m : mem) (a : Z) : Z -> nat -> list Z -> Prop :=
| array_end i : array_called m a i 0 []
| array_null i n l : rd64 m (u64 (a + 8 * i)) = 0 -> array_called m a (i + 1) n l -> array_called m a i (S n) l
| array_call i n l : rd64 m (u64 (a + 8 * i)) <> 0 -> array_called m a (i + 1) n l ->
    array_called m a i (S n) (rd64 m (u64 (a + 8 * i)) :: l).

(** The function of DT_INIT, if there is one, and then those of the array of
    DT_INIT_ARRAY, if there is one. *)
Definition initialisers (m : mem) (o : SharedObject) (l : list Z) : Prop := exists l1 l2, l = l1 ++ l2 /\
  ((o_init o = 0 /\ l1 = []) \/ (o_init o <> 0 /\ l1 = [o_init o])) /\
  ((o_initArray o = 0 /\ l2 = []) \/ (o_initArray o <> 0 /\ array_called m (o_initArray o) 0 (Z.to_nat (o_initArraySz o)) l2)).

Lemma fun_array_called m a n : forall i,
  array_called m a i n (List.filter (fun f => negb (f =? 0)) (map (w64 m a) (seqZ i (Z.of_nat n)))).
Proof.
  induction n as [|n IH]; intros i; [constructor|]. rewrite seqZ_cons by lia. cbn [map List.filter].
  replace (Z.succ i) with (i + 1) by lia. replace (Z.pred (Z.of_nat (S n))) with (Z.of_nat n) by lia.
  destruct (Z.eqb_spec (w64 m a i) 0) as [E|E]; cbn [negb]; [by apply array_null|by apply array_call].
Qed.

Lemma init_calls_initialisers m o : initialisers m o (init_calls m o).
Proof.
  eexists _, _. split; [reflexivity|]. split.
  - destruct (Z.eqb_spec (o_init o) 0); [by left|by right].
  - destruct (Z.eqb_spec (o_initArray o) 0); [by left|right]. split; [done|]. unfold fun_array.
    destruct (Z.le_gt_cases (o_initArraySz o) 0) as [Hz|Hz]; [rewrite seqZ_nil, Z2Nat.nonpos by lia; constructor|].
    rewrite <- (Z2Nat.id (o_initArraySz o)) at 2 by lia. apply fun_array_called.
Qed.

(** C31: [rtldCallInit] returns with fuel for one visit per object, whatever the
    dependencies, cycles included.  The objects [new] it initialises are
    exactly those of the list of objects and the program that were not
    initialised, each once, and all are marked so.  For each of them, in the
    order of [new], it calls the function of DT_INIT and then those of
    DT_INIT_ARRAY in their order, the empty ones left out, and nothing else;
    the objects recorded for the finalisers keep that order.  When the
    dependencies have no cycle, each object comes after all objects it
    depends on. *)
Theorem rtldCallInit_correct mmap_ok fuel s : let U := gObjects s ++ [gMainObj s] in
  (forall q d, q ∈ U -> d ∈ o_deps (ob s q) -> d = 0 \/ d ∈ U) -> (length U < fuel)%nat -> (forall p, o_visiting (ob s p) = false) ->
  exists s' new calls, rtldCallInit fuel mmap_ok s = Ok (s', tt) /\
    NoDup new /\ (forall q, q ∈ new -> q ∈ U /\ o_initCalled (ob s q) = false) /\
    (forall q, q ∈ U -> q <> 0 -> o_initCalled (ob s q) = false -> q ∈ new) /\
    (forall q, o_initCalled (ob s' q) = o_initCalled (ob s q) || bool_decide (q ∈ new)) /\
    Forall2 (fun q l => initialisers (r_mem s) (ob s q) l) new calls /\ r_calls s' = r_calls s ++ concat calls /\
    (exists kept, gInitOrder s' = gInitOrder s ++ kept /\ kept `sublist_of` new) /\
    (forall rank, (forall p d, d ∈ o_deps (ob s p) -> d <> 0 -> (rank d : Z) < rank p) ->
       forall k q d, new !! k = Some q -> d ∈ o_deps (ob s q) -> d <> 0 -> o_initCalled (ob s d) = true \/ d ∈ take k new).
Proof.
  intros U Hc Hf Hv. destruct (rtldCallInit_ok mmap_ok fuel s ltac:(intros q Hq d; by apply Hc) Hf Hv) as (s' & new & E & V & P & HU & R).
  exists s', new, (calls_of s <$> new). pose proof (vi_init _ _ _ V) as Hi. unfold initialised in Hi.
  split_and!; [done|apply (vi_nodup _ _ _ V)| | |done| | |apply (vi_order _ _ _ V)|].
  - intros q Hq. split; [by apply HU|]. pose proof (vi_fresh _ _ _ V q Hq) as Hfr. unfold fresh, initialised in Hfr. by destruct (o_initCalled (ob s q)).
  - intros q Hq Hnz Hn. destruct (P q Hq) as [|Hp]; [done|]. unfold initialised in Hp. rewrite Hi, Hn in Hp. by apply bool_decide_eq_true in Hp.
  - apply Forall2_fmap_r, Forall_Forall2_diag, Forall_true. intros q. apply init_calls_initialisers.
  - rewrite (vi_calls _ _ _ V). f_equal. clear. induction new as [|q new IH]; [done|]. cbn. by rewrite IH.
  - intros rank Hr k q d Hk Hd Hnz. by apply (R rank Hr k q Hk d Hd Hnz).
Qed.

(** Four objects: the program needs two libraries that both need a third. *)
Definition demo_obj (init : Z) (deps : list Z) : SharedObject :=
  mkObj [] 0x1000 0 0 0 0 0 0 0 0 0 0 0 0 0 init 0 0 0 0 0 deps 8 true false false false false 0.
Definition demo_linker : Rtld :=
  let s := rtld0 ∅ in
  set_gMainObj (set_gObjects (set_objs s (<[0x10 := demo_obj 0xA0 [0x20; 0x30]]> (<[0x20 := demo_obj 0xB0 [0x40]]>
    (<[0x30 := demo_obj 0xC0 [0x40]]> (<[0x40 := demo_obj 0xD0 []]> ∅))))) [0x40; 0x30; 0x20]) 0x10.

Lemma rtldCallInit_correct_witness :
  exists s', rtldCallInit 8 (fun _ _ => true) demo_linker = Ok (s', tt) /\ o_initCalled (ob s' 0x10) = true /\ r_calls s' = [0xD0; 0xC0; 0xB0; 0xA0].
Proof.
  destruct (rtldCallInit_correct (fun _ _ => true) 8 demo_linker) as (s' & new & calls & E & _ & _ & N & I & _).
  - intros q d Hq. apply list_elem_of_In in Hq. cbn in Hq. destruct Hq as [<- |[<- |[<- |[<- |[]]]]]; intros Hd; apply list_elem_of_In in Hd; vm_compute in Hd;
      right; apply list_elem_of_In; cbn; tauto.
  - cbn. lia.
  - intros p. unfold ob. cbn [demo_linker r_objs set_gMainObj set_gObjects set_objs].
    repeat (rewrite lookup_insert; destruct (decide _); [reflexivity|]). reflexivity.
  - exists s'. split; [exact E|]. split.
    + rewrite I, bool_decide_eq_true_2, orb_true_r; [reflexivity|]. apply N; [apply list_elem_of_In; cbn; tauto|discriminate|reflexivity].
    + assert (Ec : match rtldCallInit 8 (fun _ _ => true) demo_linker with Ok (x, _) => r_calls x | _ => [] end = [0xD0; 0xC0; 0xB0; 0xA0]) by (vm_compute; reflexivity).
      rewrite E in Ec. exact Ec.
Defined.

(** ** Finalisers *)
Definition fini_of (s : Rtld) (p : Z) : list Z := fini_calls (r_mem s) (ob s p).
Definition finished (s : Rtld) (p : Z) : bool := o_finiCalled (ob s p).

(** States that differ in the flags of finalisation and the calls. *)
Definition fini_only (o o' : SharedObject) : Prop :=
  o' = with_flags o (o_relocated o) (o_initCalled o) (o_finiCalled o') (o_visiting o).
Record fini_shape (s s' : Rtld) : Prop := {
  fs_obj : forall p, fini_only (ob s p) (ob s' p);
  fs_mem : r_mem s' = r_mem s;
  fs_order : gInitOrder s' = gInitOrder s;
  fs_list : gObjects s' = gObjects s /\ gMainObj s' = gMainObj s
}.

Lemma fini_shape_refl s : fini_shape s s.
Proof. split; try done. intros p. unfold fini_only. by destruct (ob s p). Qed.
Lemma fini_shape_trans s1 s2 s3 : fini_shape s1 s2 -> fini_shape s2 s3 -> fini_shape s1 s3.
Proof.
  intros [A1 B1 C1 D1] [A2 B2 C2 D2]. split; [|congruence|congruence|destruct D1, D2; split; congruence].
  intros p. specialize (A1 p). specialize (A2 p). unfold fini_only in *. rewrite A2, A1. done.
Qed.
Lemma fini_shape_calls s s' p : fini_shape s s' -> fini_of s' p = fini_of s p.
Proof. intros [A B _ _]. unfold fini_of. rewrite B, (A p). done. Qed.

Lemma rtldExecuteFini_ok p s : p <> 0 -> exists s', rtldExecuteFini p s = Ok (s', tt) /\ fini_shape s s' /\
  (forall q, finished s' q = finished s q || (q =? p)) /\ r_calls s' = r_calls s ++ (if finished s p then [] else fini_of s p).
Proof.
  intros Hp. unfold rtldExecuteFini. unfold mbind at 1. unfold run_bind, get_s. cbv beta iota. fold (finished s p).
  destruct (Z.eqb_spec p 0); [done|]. cbn [orb]. destruct (finished s p) eqn:Ef.
  - exists s. split; [done|]. split; [apply fini_shape_refl|]. split; [|by rewrite app_nil_r].
    intros q. destruct (Z.eqb_spec q p) as [-> | _]; [by rewrite Ef|by rewrite orb_false_r].
  - unfold mbind. unfold run_bind, modify at 1. unfold get_s. cbv beta iota. set (s1 := upd_ob s p _).
    assert (S1 : fini_shape s s1).
    { split; [|done..]. intros q. unfold s1. rewrite ob_upd. destruct (Z.eqb_spec q p) as [-> | _]; [done|]. unfold fini_only. by destruct (ob s q). }
    rewrite each_calls. fold (fini_of s1 p). rewrite (fini_shape_calls s s1 p S1). eexists. split; [reflexivity|]. split_and!.
    + destruct S1 as [A B C D]. by split.
    + intros q. change (finished s1 q = finished s q || (q =? p)). unfold finished, s1. rewrite ob_upd.
      destruct (Z.eqb_spec q p) as [-> | _]; [by rewrite orb_true_r|by rewrite orb_false_r].
    + done.
Qed.

(** The objects of [l] not finished yet, the first occurrence of each. *)
Lemma fini_loop_ok l : forall s, NoDup (List.filter (fun p => negb (p =? 0)) l) ->
  exists s', each l (fun obj => if obj =? 0 then mret tt else rtldExecuteFini obj) s = Ok (s', tt) /\ fini_shape s s' /\
    (forall q, finished s' q = finished s q || bool_decide (q <> 0 /\ q ∈ l)) /\
    r_calls s' = r_calls s ++ (List.filter (fun p => negb (p =? 0) && negb (finished s p)) l ≫= fini_of s).
Proof.
  induction l as [|p l IH]; intros s Hn; cbn [each List.filter].
  - exists s. split; [done|]. split; [apply fini_shape_refl|]. split; [|cbn; by rewrite app_nil_r].
    intros q. rewrite bool_decide_eq_false_2, orb_false_r; [done|]. intros [_ Hq]. by apply not_elem_of_nil in Hq.
  - cbn [List.filter] in Hn. unfold mbind, run_bind. destruct (Z.eqb_spec p 0) as [-> | Hp]; cbn [negb andb] in *.
    + destruct (IH s Hn) as (s' & E & A & B & C). exists s'. split; [done|]. split; [done|]. split; [|done].
      intros q. rewrite B. f_equal. apply bool_decide_ext. rewrite elem_of_cons. split; [tauto|]. intros [H1 [H2|H2]]; [done|tauto].
    + apply NoDup_cons in Hn as [Hni Hn]. destruct (rtldExecuteFini_ok p s Hp) as (s1 & E1 & A1 & B1 & C1). rewrite E1.
      destruct (IH s1 Hn) as (s' & E & A & B & C). exists s'. split; [done|]. split; [by apply fini_shape_trans with s1|]. split.
      * intros q. rewrite B, B1, <- orb_assoc. f_equal. apply eq_true_iff_eq. rewrite orb_true_iff, Z.eqb_eq, !bool_decide_eq_true, elem_of_cons.
        split; [intros [-> | [H1 H2]]; tauto|intros [H1 [-> | H2]]; tauto].
      * rewrite C, C1. rewrite <- app_assoc. f_equal.
        assert (Ef : List.filter (fun x => negb (x =? 0) && negb (finished s1 x)) l = List.filter (fun x => negb (x =? 0) && negb (finished s x)) l).
        { apply List.filter_ext_in. intros x Hx. rewrite B1. destruct (Z.eqb_spec x p) as [-> | _]; [|by rewrite orb_false_r].
          exfalso. apply Hni. apply list_elem_of_In, filter_In. split; [done|]. by destruct (Z.eqb_spec p 0). }
        rewrite Ef. destruct (finished s p); cbn [negb]; [|cbn [mbind list_bind]]; [|f_equal]; apply list_bind_ext; try done;
          intros q; by apply fini_shape_calls.
Qed.

(** [rtldCallFini] runs the finalisers of the initialised objects in the
    reverse order of their initialisation, each object at most once: those
    finished before, by [dlclose], are not run again. *)
Theorem rtldCallFini_correct s : NoDup (List.filter (fun p => negb (p =? 0)) (gInitOrder s)) ->
  exists s', rtldCallFini s = Ok (s', tt) /\
    r_calls s' = r_calls s ++ (rev (List.filter (fun p => negb (p =? 0) && negb (o_finiCalled (ob s p))) (gInitOrder s)) ≫=
                                 fun p => fini_calls (r_mem s) (ob s p)) /\
    (forall p, p ∈ gInitOrder s -> p <> 0 -> o_finiCalled (ob s' p) = true).
Proof.
  intros Hn. unfold rtldCallFini. unfold mbind at 1. unfold run_bind, get_s. cbv beta iota.
  assert (Hrev : forall f, List.filter f (rev (gInitOrder s)) = rev (List.filter f (gInitOrder s))) by (intros f; apply List.filter_rev).
  destruct (fini_loop_ok (rev (gInitOrder s)) s) as (s' & E & A & B & C).
  { rewrite Hrev. by rewrite <- Permutation_rev. }
  exists s'. split; [done|]. split.
  - rewrite C, Hrev. done.
  - intros p Hp Hnz. specialize (B p). unfold finished in B. rewrite B, bool_decide_eq_true_2, orb_true_r; [done|].
    split; [done|]. apply list_elem_of_In. rewrite <- in_rev. by apply list_elem_of_In.
Qed.

Definition fini_linker : Rtld := set_order demo_linker [0x40; 0x30; 0x20; 0x10] 16.

Lemma rtldCallFini_correct_witness : exists s', rtldCallFini fini_linker = Ok (s', tt) /\ o_finiCalled (ob s' 0x30) = true.
Proof.
  destruct (rtldCallFini_correct fini_linker) as (s' & E & _ & F).
  - refine (bool_decide_unpack _ _). vm_compute. exact I.
  - exists s'. split; [exact E|]. apply F; [apply list_elem_of_In; cbn; tauto|discriminate].
Defined.

(** ** Closing *)
Section Close.
Context (ldso : Z).

(** An object [dlclose] takes apart. *)
Definition closable (s : Rtld) (p : Z) : Prop :=
  p <> 0 /\ p <> gMainObj s /\ p <> ldso /\ o_isPinned (ob s p) = false /\ o_refCount (ob s p) <= 1.

Lemma close_eq k s p : closable s p ->
  rtldDlClose ldso (S k) p s =
  match rtldExecuteFini p (upd_ob s p (fun o => with_ref o 0)) with
  | Ok (s1, _) =>
      match each (o_deps (ob s p)) (rtldDlClose ldso k) s1 with
      | Ok (s2, _) =>
          let s3 := set_order (set_gObjects s2 (remove_first p (gObjects s2))) (clear_first p (gInitOrder s2)) (gInitOrderCapacity s2) in
          if negb (o_mapBase (ob s p) =? 0) && negb (o_totalSpan (ob s p) =? 0)
          then Ok (set_rmem s3 (munmap (r_mem s3) (o_mapBase (ob s p)) (o_totalSpan (ob s p))), tt) else Ok (s3, tt)
      | Exited => Exited | Stuck => Stuck
      end
  | Exited => Exited | Stuck => Stuck
  end.
Proof.
  intros (H1 & H2 & H3 & H4 & H5). cbn [rtldDlClose]. unfold mbind at 1. unfold run_bind at 1. unfold get_s. cbv beta iota zeta.
  destruct (Z.eqb_spec p 0); [done|]. destruct (Z.eqb_spec p (gMainObj s)); [done|]. destruct (Z.eqb_spec p ldso); [done|].
  rewrite H4. cbn [orb]. destruct (Z.ltb_spec 1 (o_refCount (ob s p))); [lia|].
  unfold mbind, run_bind, modify. cbv beta iota. destruct (rtldExecuteFini p _) as [[s1 []]| |]; [|done..].
  destruct (each _ _ s1) as [[s2 []]| |]; [|done..]. by destruct (_ && _).
Qed.

(** Closing one object of a pair that need each other never returns. *)
Lemma close_entered s p : closable s p -> exists s1, rtldExecuteFini p (upd_ob s p (fun o => with_ref o 0)) = Ok (s1, tt) /\
  gMainObj s1 = gMainObj s /\ (forall q, o_deps (ob s1 q) = o_deps (ob s q) /\ o_isPinned (ob s1 q) = o_isPinned (ob s q) /\
    (o_refCount (ob s q) <= 1 -> o_refCount (ob s1 q) <= 1)).
Proof.
  intros (Hp & _). destruct (rtldExecuteFini_ok p (upd_ob s p (fun o => with_ref o 0)) Hp) as (s1 & E & [A B _ [_ D]] & _).
  exists s1. split; [done|]. split; [by rewrite D|]. intros q. specialize (A q). unfold fini_only in A. rewrite A. cbn.
  rewrite ob_upd. destruct (Z.eqb_spec q p) as [-> | _]; cbn; [|done]. split; [done|]. split; [done|lia].
Qed.

Lemma closable_entered s s1 q : gMainObj s1 = gMainObj s -> o_isPinned (ob s1 q) = o_isPinned (ob s q) ->
  (o_refCount (ob s q) <= 1 -> o_refCount (ob s1 q) <= 1) -> closable s q -> closable s1 q.
Proof. intros E1 E2 E3 (H1 & H2 & H3 & H4 & H5). split_and!; try done; [by rewrite E1|by rewrite E2|by apply E3]. Qed.

Lemma close_cycle_stuck n : forall s a b, closable s a -> closable s b -> o_deps (ob s a) = [b] -> o_deps (ob s b) = [a] ->
  rtldDlClose ldso n a s = Stuck.
Proof.
  induction n as [|n IH]; intros s a b Ca Cb Da Db; [done|]. rewrite close_eq by done.
  destruct (close_entered s a Ca) as (s1 & -> & Em & Hk). rewrite Da. cbn [each]. unfold mbind, run_bind.
  rewrite (IH s1 b a); [done|..].
  - destruct (Hk b) as (_ & P & R). by apply closable_entered with s.
  - destruct (Hk a) as (_ & P & R). by apply closable_entered with s.
  - by rewrite (proj1 (Hk b)).
  - by rewrite (proj1 (Hk a)).
Qed.
End Close.

(** Two libraries that need each other cannot be closed: [rtldDlClose] marks
    nothing before it closes the dependencies, and calls itself without
    end. *)
Theorem rtldDlClose_cycle_diverges ldso s a b n : closable ldso s a -> closable ldso s b ->
  o_deps (ob s a) = [b] -> o_deps (ob s b) = [a] -> rtldDlClose ldso n a s = Stuck.
Proof. apply close_cycle_stuck. Qed.

Definition cycle_linker : Rtld :=
  set_gObjects (set_objs (rtld0 ∅) (<[0x20 := demo_obj 0 [0x30]]> (<[0x30 := demo_obj 0 [0x20]]> ∅))) [0x20; 0x30].

Lemma rtldDlClose_cycle_diverges_witness : rtldDlClose 0x90 1000 0x20 cycle_linker = Stuck.
Proof.
  apply (rtldDlClose_cycle_diverges 0x90 cycle_linker 0x20 0x30 1000);
    [split_and!; try discriminate; vm_compute; try reflexivity; discriminate..|reflexivity|reflexivity].
Defined.

(** A library that two others need is taken away with the first of them: its
    users are not counted. *)
Theorem dlclose_takes_shared_dependency :
  let s := set_gObjects (set_objs (rtld0 ∅) (<[0x20 := with_ref (demo_obj 0 [0x40]) 1]> (<[0x30 := with_ref (demo_obj 0 [0x40]) 1]>
             (<[0x40 := demo_obj 0 []]> ∅)))) [0x20; 0x30; 0x40] in
  exists s', rtldDlClose 0x90 10 0x20 s = Ok (s', tt) /\ gObjects s' = [0x30] /\ o_refCount (ob s' 0x30) = 1 /\ o_deps (ob s' 0x30) = [0x40].
Proof. eexists. split; [vm_compute; reflexivity|]. vm_compute. split_and!; reflexivity. Qed.
