(* ===== verification/RtldProps.v ===== *)
(** * Resolution and relocation in the dynamic linker

    What lib/ldso/rtld.c resolves symbols to and writes when it relocates an
    object. *)

From Stdlib Require Import ZArith Lia Bool String.
From stdpp Require Import base list gmap strings.
From S2P Require Import Prelude Mem Str Block Gpt Dll Elf Krsym Loader LoaderStack Rtld RtldHash RtldInit.

(** ** The dynamic linker: symbol resolution and relocation

    An object whose tables are sound ([object_ok]) answers a look-up as a
    search through all its symbols does; tables lie in memory [R] that
    relocation does not write, so that the answers stay the same while
    objects are relocated, and every slot gets the value of its symbol. *)

(** ** Look-ups *)
Section Object.
Context (fuel : nat) (m : mem) (o : SharedObject) (count : Z) (nm : Z -> list Z).

(** The symbols the hash tables of the object know. *)
Definition hashed (i : Z) : Prop :=
  (o_gnuHash o <> 0 /\ gnu_symOffset m o <= i) \/ (o_hash o <> 0 /\ 0 < i).

Record tables_ok : Prop := {
  to_names : names_ok fuel m o count nm;
  to_gnu : o_gnuHash o <> 0 -> exists run, gnu_ok fuel m o count nm run;
  to_sysv : o_hash o <> 0 -> exists chain, sysv_ok fuel m o count nm chain;
  to_cover : forall i, 0 <= i < count -> defined m o i -> hashed i;
  to_unique : forall i j, 0 <= i < count -> 0 <= j < count -> defined m o i -> defined m o j -> nm i = nm j -> i = j
}.

(** The search through all symbols. *)
Definition is_def (s : list Z) (i : Z) : bool := negb (st_shndx (sym_at m (o_symtab o) i) =? SHN_UNDEF) && bool_decide (nm i = s).
Definition lookup_ref (s : list Z) : Z := match List.find (is_def s) (seqZ 0 count) with Some i => sym_addr o i | None => 0 end.

Lemma is_def_spec s i : is_def s i = true <-> defined m o i /\ nm i = s.
Proof. unfold is_def, defined. rewrite andb_true_iff, negb_true_iff, Z.eqb_neq, bool_decide_eq_true. done. Qed.

Lemma lookup_ref_some s i : tables_ok -> 0 <= i < count -> defined m o i -> nm i = s -> lookup_ref s = sym_addr o i.
Proof.
  intros T Hi Hd Hn. unfold lookup_ref. destruct (List.find (is_def s) (seqZ 0 count)) as [j|] eqn:E.
  - apply find_some in E as [E1 E2]. apply is_def_spec in E2 as [E2 E3]. apply list_elem_of_In, elem_of_seqZ in E1.
    f_equal. apply (to_unique T); try done; try lia. congruence.
  - pose proof (find_none _ _ E i ltac:(apply list_elem_of_In, elem_of_seqZ; lia)) as F.
    by rewrite (proj2 (is_def_spec s i)) in F.
Qed.

Lemma lookup_ref_none s : (forall i, 0 <= i < count -> nm i = s -> ~ defined m o i) -> lookup_ref s = 0.
Proof.
  intros Hn. unfold lookup_ref. destruct (List.find (is_def s) (seqZ 0 count)) as [j|] eqn:E; [|done].
  apply find_some in E as [E1 E2]. apply is_def_spec in E2 as [E2 E3]. apply list_elem_of_In, elem_of_seqZ in E1. exfalso. apply (Hn j); [lia|done..].
Qed.

Lemma answers_ref dom s r : tables_ok -> answers m o count nm dom s r -> r <> 0 -> r = lookup_ref s.
Proof. intros T [(i & Hi & -> & Hn & Hd)|[-> _]] Hr; [|done]. symmetry. by apply lookup_ref_some. Qed.

Lemma rtldLookupInObject_ok name s : tables_ok -> cstr m name s -> (length s < fuel)%nat ->
  rtldLookupInObject fuel m o name = Some (lookup_ref s).
Proof.
  intros T Hc Hl. pose proof (to_names T) as N. pose proof (no_table _ _ _ _ _ N) as [Ht _]. unfold rtldLookupInObject.
  destruct (Z.eqb_spec (o_symtab o) 0); [lia|]. destruct (Z.eqb_spec (o_strtab o) 0); [by destruct (no_strtab _ _ _ _ _ N)|]. cbn [orb].
  assert (G : exists g, (if negb (o_gnuHash o =? 0) then gnu_lookup fuel m o name else Some 0) = Some g /\
    (g <> 0 -> g = lookup_ref s) /\ (g = 0 -> forall i, o_gnuHash o <> 0 -> gnu_symOffset m o <= i -> 0 <= i < count -> nm i = s -> ~ defined m o i)).
  { destruct (Z.eqb_spec (o_gnuHash o) 0) as [E|E]; cbn [negb]; [by exists 0|]. destruct (to_gnu T E) as [run Hg].
    destruct (gnu_lookup_spec fuel m o count nm N name s Hc Hl run Hg) as (g & -> & A). exists g. split; [done|]. split; [by apply (answers_ref _ s g T A)|].
    intros -> i _ Hi Hr Hn. destruct A as [(j & Hj & Ej & _)|[_ A]]; [|by apply A]. unfold sym_addr, sizeof_Sym in Ej. lia. }
  destruct G as (g & -> & G1 & G2). cbn [mbind option_bind]. destruct (Z.eqb_spec g 0) as [Eg|Eg]; cbn [negb]; [|by rewrite G1].
  specialize (G2 Eg).
  destruct (Z.eqb_spec (o_hash o) 0) as [E|E]; cbn [negb].
  - f_equal. symmetry. apply lookup_ref_none. intros i Hi Hn Hd. destruct (to_cover T i Hi Hd) as [[F1 F2]|[F1 _]]; [|done]. by apply (G2 i).
  - destruct (to_sysv T E) as [chain Hs]. destruct (sysv_lookup_spec fuel m o count nm N name s Hc Hl chain Hs) as (r & -> & A). f_equal.
    destruct (decide (r = 0)) as [-> | Hr]; [|by apply (answers_ref _ s r T A)]. symmetry. apply lookup_ref_none. intros i Hi Hn Hd.
    destruct A as [(j & Hj & Ej & _)|[_ A]]; [unfold sym_addr, sizeof_Sym in Ej; lia|].
    destruct (to_cover T i Hi Hd) as [[F1 F2]|[_ F2]]; [by apply (G2 i)|by apply (A i)].
Qed.
End Object.

(** ** Memory that relocation does not write *)
Definition range_in (R : Z -> Prop) (a n : Z) : Prop := forall x, a <= x < a + n -> R x.
Definition agree_on (R : Z -> Prop) (m m' : mem) : Prop := forall x, R x -> rd8 m x = rd8 m' x.

Lemma agree_on_range R m m' a n : agree_on R m m' -> range_in R a n -> agree m m' a n.
Proof. intros A H x Hx. by apply A, H. Qed.

Lemma agree_on_refl R m : agree_on R m m.
Proof. done. Qed.

Lemma w32_frame R m m' a i : agree_on R m m' -> is_u64 (a + 4 * i) -> range_in R (a + 4 * i) 4 -> w32 m' a i = w32 m a i.
Proof. intros A Hu H. unfold w32. rewrite u64_id by done. symmetry. by apply (rd_agree 4 m m' (a + 4 * i) 4); [apply agree_on_range with R|lia|]. Qed.
Lemma w64_frame R m m' a i : agree_on R m m' -> is_u64 (a + 8 * i) -> range_in R (a + 8 * i) 8 -> w64 m' a i = w64 m a i.
Proof. intros A Hu H. unfold w64. rewrite u64_id by done. symmetry. by apply (rd_agree 8 m m' (a + 8 * i) 8); [apply agree_on_range with R|lia|]. Qed.

Definition gnu_bytes (m : mem) (o : SharedObject) (count : Z) : Z :=
  16 + 8 * gnu_bloomSize m o + 4 * gnu_nbuckets m o + 4 * (count - gnu_symOffset m o).
Definition sysv_bytes (m : mem) (o : SharedObject) (count : Z) : Z := 8 + 4 * sysv_nbucket m o + 4 * count.

(** The tables of an object lie in [R]. *)
Record tables_in (R : Z -> Prop) (m : mem) (o : SharedObject) (count : Z) (nm : Z -> list Z) : Prop := {
  ti_sym : range_in R (o_symtab o) (count * sizeof_Sym);
  ti_str : forall i, 0 <= i < count -> range_in R (u64 (o_strtab o + st_name (sym_at m (o_symtab o) i))) (Z.of_nat (length (nm i)) + 1);
  ti_gnu : o_gnuHash o <> 0 -> 0 <= o_gnuHash o /\ gnu_symOffset m o <= count /\
    o_gnuHash o + gnu_bytes m o count < 2 ^ 64 /\ range_in R (o_gnuHash o) (gnu_bytes m o count);
  ti_sysv : o_hash o <> 0 -> 0 <= o_hash o /\ o_hash o + sysv_bytes m o count < 2 ^ 64 /\ range_in R (o_hash o) (sysv_bytes m o count)
}.

Section Frame.
Context (R : Z -> Prop) (fuel : nat) (m m' : mem) (o : SharedObject) (count : Z) (nm : Z -> list Z).
Hypothesis T : tables_ok fuel m o count nm.
Hypothesis I : tables_in R m o count nm.
Hypothesis A : agree_on R m m'.

Lemma range_sub a n b k : range_in R a n -> a <= b -> b + k <= a + n -> range_in R b k.
Proof. intros H H1 H2 x Hx. apply H. lia. Qed.

Lemma sym_frame i : 0 <= i < count -> sym_at m' (o_symtab o) i = sym_at m (o_symtab o) i.
Proof.
  intros Hi. destruct (no_table _ _ _ _ _ (to_names _ _ _ _ _ T)) as [H1 H2]. unfold sym_at, sizeof_Sym in *.
  rewrite u64_id by (unfold is_u64; lia). symmetry. apply get_sym_agree. apply agree_on_range with R; [done|].
  apply (range_sub (o_symtab o) (count * 24)); [apply (ti_sym _ _ _ _ _ I)|lia..].
Qed.

Lemma defined_frame i : 0 <= i < count -> defined m' o i <-> defined m o i.
Proof. intros Hi. unfold defined. by rewrite sym_frame. Qed.

Lemma names_frame : names_ok fuel m' o count nm.
Proof.
  destruct (to_names _ _ _ _ _ T) as [H1 H2 H3 H4]. split; try done. intros i Hi. rewrite sym_frame by done. destruct (H4 i Hi) as [Hc Hl].
  split; [|done]. apply (cstr_agree m m' _ _ Hc). apply agree_on_range with R; [done|]. by apply (ti_str _ _ _ _ _ I).
Qed.

Lemma u32_nonneg a i : 0 <= w32 m a i < 2 ^ 32.
Proof. apply (rd_range 4). Qed.

Section Gnu.
Hypothesis Hg : o_gnuHash o <> 0.

Lemma gnu_frame_sizes : gnu_nbuckets m' o = gnu_nbuckets m o /\ gnu_symOffset m' o = gnu_symOffset m o /\
  gnu_bloomSize m' o = gnu_bloomSize m o /\ gnu_bloomShift m' o = gnu_bloomShift m o.
Proof.
  destruct (ti_gnu _ _ _ _ _ I Hg) as (H0 & H1 & H2 & H3). unfold gnu_bytes in *.
  pose proof (u32_nonneg (o_gnuHash o) 0) as N0. pose proof (u32_nonneg (o_gnuHash o) 2) as N2.
  fold (gnu_nbuckets m o) in N0. fold (gnu_bloomSize m o) in N2.
  unfold gnu_nbuckets at 1, gnu_symOffset at 1, gnu_bloomSize at 1, gnu_bloomShift at 1.
  split_and!; (rewrite (w32_frame R m m'); [done|done|unfold is_u64; lia|]; apply (range_sub (o_gnuHash o) _ _ _ H3); lia).
Qed.

Lemma gnu_frame_addrs : gnu_bloom o = o_gnuHash o + 16 /\ gnu_buckets m o = o_gnuHash o + 16 + 8 * gnu_bloomSize m o /\
  gnu_chains m o = o_gnuHash o + 16 + 8 * gnu_bloomSize m o + 4 * gnu_nbuckets m o /\
  gnu_buckets m' o = gnu_buckets m o /\ gnu_chains m' o = gnu_chains m o.
Proof.
  destruct (ti_gnu _ _ _ _ _ I Hg) as (H0 & H1 & H2 & H3). unfold gnu_bytes in *.
  pose proof (u32_nonneg (o_gnuHash o) 0) as N0. pose proof (u32_nonneg (o_gnuHash o) 2) as N2.
  fold (gnu_nbuckets m o) in N0. fold (gnu_bloomSize m o) in N2. destruct gnu_frame_sizes as (S1 & S2 & S3 & S4).
  unfold gnu_chains, gnu_buckets, gnu_bloom. rewrite S1, S3. rewrite (u64_id (o_gnuHash o + 16)) by (unfold is_u64; lia).
  rewrite (u64_id (o_gnuHash o + 16 + 8 * gnu_bloomSize m o)) by (unfold is_u64; lia).
  rewrite (u64_id (o_gnuHash o + 16 + 8 * gnu_bloomSize m o + 4 * gnu_nbuckets m o)) by (unfold is_u64; lia). done.
Qed.

Lemma chain_val_frame i : gnu_symOffset m o <= i < count -> chain_val m' o i = chain_val m o i.
Proof.
  intros Hi. destruct (ti_gnu _ _ _ _ _ I Hg) as (H0 & H1 & H2 & H3). unfold gnu_bytes in *.
  pose proof (u32_nonneg (o_gnuHash o) 0) as N0. pose proof (u32_nonneg (o_gnuHash o) 2) as N2. pose proof (u32_nonneg (o_gnuHash o) 1) as N1.
  fold (gnu_nbuckets m o) in N0. fold (gnu_bloomSize m o) in N2. fold (gnu_symOffset m o) in N1.
  pose proof (no_count _ _ _ _ _ (to_names _ _ _ _ _ T)) as Hc.
  destruct gnu_frame_sizes as (_ & S2 & _). destruct gnu_frame_addrs as (_ & _ & E3 & _ & E5). unfold chain_val. rewrite S2, E5.
  replace (u32 (i - gnu_symOffset m o)) with (i - gnu_symOffset m o) by (symmetry; apply Z.mod_small; lia).
  rewrite (w32_frame R m m'); [done|done|unfold is_u64; lia|]. apply (range_sub (o_gnuHash o) _ _ _ H3); lia.
Qed.

Lemma bucket_frame b : 0 <= b < gnu_nbuckets m o -> w32 m' (gnu_buckets m o) b = w32 m (gnu_buckets m o) b.
Proof.
  intros Hb. destruct (ti_gnu _ _ _ _ _ I Hg) as (H0 & H1 & H2 & H3). unfold gnu_bytes in *.
  pose proof (u32_nonneg (o_gnuHash o) 2) as N2. fold (gnu_bloomSize m o) in N2. destruct gnu_frame_addrs as (_ & E2 & _).
  apply (w32_frame R); [done|unfold is_u64; lia|]. apply (range_sub (o_gnuHash o) _ _ _ H3); lia.
Qed.

Lemma bloom_frame h : gnu_bloomSize m o <> 0 -> bloom_word m' o h = bloom_word m o h.
Proof.
  intros Hb. destruct (ti_gnu _ _ _ _ _ I Hg) as (H0 & H1 & H2 & H3). unfold gnu_bytes in *.
  pose proof (u32_nonneg (o_gnuHash o) 2) as N2. pose proof (u32_nonneg (o_gnuHash o) 0) as N0. fold (gnu_bloomSize m o) in N2. fold (gnu_nbuckets m o) in N0.
  destruct gnu_frame_addrs as (E1 & _). destruct gnu_frame_sizes as (_ & _ & S3 & _). unfold bloom_word. rewrite S3.
  pose proof (Z.mod_pos_bound (h / 64) (gnu_bloomSize m o) ltac:(lia)).
  apply (w64_frame R); [done|unfold is_u64; lia|]. apply (range_sub (o_gnuHash o) _ _ _ H3); lia.
Qed.

Lemma gnu_run_frame i l : gnu_run m o count i l -> gnu_run m' o count i l.
Proof.
  destruct gnu_frame_sizes as (_ & S2 & _). induction 1 as [i Hi Hb|i l Hi Hb Hr IH].
  - apply gr_last; [by rewrite S2|by rewrite chain_val_frame].
  - apply gr_more; [by rewrite S2|by rewrite chain_val_frame|done].
Qed.

Lemma gnu_ok_frame run : gnu_ok fuel m o count nm run -> gnu_ok fuel m' o count nm run.
Proof.
  intros [[K1 K1'] K2 K3]. destruct gnu_frame_sizes as (S1 & S2 & S3 & S4). destruct gnu_frame_addrs as (E1 & E2 & E3 & E4 & E5).
  pose proof (u32_nonneg (o_gnuHash o) 0) as N0. fold (gnu_nbuckets m o) in N0. split.
  - by rewrite S1, S3.
  - intros b Hb. rewrite S1 in Hb. rewrite S2, E4, bucket_frame by done. intros Hs. destruct (K2 b Hb Hs) as [Hr Hl]. split; [by apply gnu_run_frame|done].
  - intros i Hi Hd. rewrite S2 in Hi. pose proof (u32_nonneg (o_gnuHash o) 1) as N1. fold (gnu_symOffset m o) in N1.
    rewrite defined_frame in Hd by lia. destruct (K3 i Hi Hd) as (F1 & F2 & F3 & F4). cbv zeta.
    unfold bloom_mask in *. rewrite S1, S2, S4, E4, bloom_frame, chain_val_frame by done.
    rewrite bucket_frame by (apply Z.mod_pos_bound; lia). done.
Qed.
End Gnu.

Section Sysv.
Hypothesis Hs : o_hash o <> 0.

Lemma sysv_frame_sizes : sysv_nbucket m' o = sysv_nbucket m o /\ sysv_buckets o = o_hash o + 8 /\
  sysv_chains m o = o_hash o + 8 + 4 * sysv_nbucket m o /\ sysv_chains m' o = sysv_chains m o.
Proof.
  destruct (ti_sysv _ _ _ _ _ I Hs) as (H0 & H2 & H3). unfold sysv_bytes in *. pose proof (u32_nonneg (o_hash o) 0) as N0. fold (sysv_nbucket m o) in N0.
  pose proof (no_count _ _ _ _ _ (to_names _ _ _ _ _ T)) as Hc.
  assert (E1 : sysv_nbucket m' o = sysv_nbucket m o).
  { unfold sysv_nbucket at 1. rewrite (w32_frame R m m'); [done|done|unfold is_u64; lia|]. apply (range_sub (o_hash o) _ _ _ H3); lia. }
  unfold sysv_chains, sysv_buckets. rewrite E1. rewrite (u64_id (o_hash o + 8)) by (unfold is_u64; lia).
  rewrite u64_id by (unfold is_u64; lia). done.
Qed.

Lemma sysv_chain_frame i l : chain_from m o count i l -> chain_from m' o count i l.
Proof.
  destruct (ti_sysv _ _ _ _ _ I Hs) as (H0 & H2 & H3). unfold sysv_bytes in *. pose proof (u32_nonneg (o_hash o) 0) as N0. fold (sysv_nbucket m o) in N0.
  destruct sysv_frame_sizes as (E1 & E2 & E3 & E4). induction 1 as [|i l Hi Hc IH]; constructor; [done|]. rewrite E4.
  rewrite (w32_frame R m m'); [done|done|unfold is_u64; lia|]. apply (range_sub (o_hash o) _ _ _ H3); lia.
Qed.

Lemma sysv_ok_frame chain : sysv_ok fuel m o count nm chain -> sysv_ok fuel m' o count nm chain.
Proof.
  intros [K1 K2 K3]. destruct (ti_sysv _ _ _ _ _ I Hs) as (H0 & H2 & H3). unfold sysv_bytes in *.
  destruct sysv_frame_sizes as (E1 & E2 & E3 & E4). pose proof (no_count _ _ _ _ _ (to_names _ _ _ _ _ T)) as Hc. split.
  - by rewrite E1.
  - intros b Hb. rewrite E1 in Hb. destruct (K2 b Hb) as [Hr Hl]. split; [|done]. rewrite (w32_frame R m m'); [by apply sysv_chain_frame|done|unfold is_u64; lia|].
    apply (range_sub (o_hash o) _ _ _ H3); lia.
  - intros i Hi Hd. rewrite defined_frame in Hd by lia. rewrite E1. by apply K3.
Qed.
End Sysv.

Lemma tables_frame : tables_ok fuel m' o count nm.
Proof.
  destruct T as [T1 T2 T3 T4 T5]. split.
  - apply names_frame.
  - intros Hg. destruct (T2 Hg) as [run Hr]. exists run. by apply gnu_ok_frame.
  - intros Hs. destruct (T3 Hs) as [chain Hc]. exists chain. by apply sysv_ok_frame.
  - intros i Hi Hd. rewrite defined_frame in Hd by done. destruct (T4 i Hi Hd) as [[F1 F2]|F]; [left|by right].
    split; [done|]. by rewrite (proj1 (proj2 (gnu_frame_sizes F1))).
  - intros i j Hi Hj Hdi Hdj. rewrite defined_frame in Hdi, Hdj by done. by apply T5.
Qed.

Lemma lookup_ref_frame s : lookup_ref m' o count nm s = lookup_ref m o count nm s.
Proof.
  unfold lookup_ref. replace (List.find (is_def m' o nm s) (seqZ 0 count)) with (List.find (is_def m o nm s) (seqZ 0 count)); [done|].
  assert (H : forall l, (forall i, i ∈ l -> 0 <= i < count) -> List.find (is_def m o nm s) l = List.find (is_def m' o nm s) l).
  { clear -T I A. induction l as [|i l IH]; intros Hl; [done|]. cbn [List.find]. unfold is_def at 1 3. rewrite (sym_frame i) by (apply Hl; by left).
    destruct (negb _ && _); [done|]. apply IH. intros j Hj. apply Hl. by right. }
  apply H. intros i Hi. apply elem_of_seqZ in Hi. lia.
Qed.
End Frame.

(** ** Resolution *)
Section Resolve.
Context (R : Z -> Prop) (fuel : nat) (m : mem) (s : Rtld) (count : Z -> Z) (nm : Z -> Z -> list Z).

(** The objects that are searched, in order. *)
Definition scope : list Z := (if gMainObj s =? 0 then [] else [gMainObj s]) ++ gObjects s.

Hypothesis Hobjs : forall p, p ∈ scope -> tables_ok fuel m (ob s p) (count p) (nm p) /\ tables_in R m (ob s p) (count p) (nm p).

(** The definition of a name in object [p]: the address of the symbol, and
    its binding. *)
Definition sym_of (n : list Z) (p : Z) : Z := lookup_ref m (ob s p) (count p) (nm p) n.
Definition binds (b : Z) (n : list Z) (p : Z) : bool :=
  negb (sym_of n p =? 0) && (ELF64_ST_BIND (st_info (get_sym m (sym_of n p))) =? b).

(** The first global definition, or else the first weak one. *)
Definition resolve_ref (n : list Z) : option Z :=
  match List.find (binds STB_GLOBAL n) scope with Some p => Some p | None => List.find (binds STB_WEAK n) scope end.
Definition resolve_value (n : list Z) : Z :=
  match resolve_ref n with Some p => u64 (o_base (ob s p) + st_value (get_sym m (sym_of n p))) | None => 0 end.

Section Now.
Context (m' : mem) (name : Z) (n : list Z).
Hypothesis A : agree_on R m m'.
Hypothesis Hname : cstr m' name n.
Hypothesis Hlen : (length n < fuel)%nat.

Lemma sym_now p : p ∈ scope -> rtldLookupInObject fuel m' (ob s p) name = Some (sym_of n p) /\
  (sym_of n p <> 0 -> get_sym m' (sym_of n p) = get_sym m (sym_of n p)).
Proof.
  intros Hp. destruct (Hobjs p Hp) as [T I]. split.
  - rewrite (rtldLookupInObject_ok fuel m' (ob s p) (count p) (nm p) name n); [|by apply tables_frame with R m|done..].
    f_equal. by apply (lookup_ref_frame R fuel).
  - unfold sym_of, lookup_ref. destruct (List.find _ _) as [i|] eqn:E; [|done]. intros _. apply find_some in E as [E _].
    apply list_elem_of_In, elem_of_seqZ in E. pose proof (sym_frame R fuel m m' _ _ _ T I A i ltac:(lia)) as F. unfold sym_at in F.
    destruct (no_table _ _ _ _ _ (to_names _ _ _ _ _ T)) as [N1 N2]. unfold sizeof_Sym in *. by rewrite u64_id in F by (unfold is_u64; lia).
Qed.

Lemma resolve_in_ok l : forall weak, (forall p, p ∈ l -> p ∈ scope) ->
  resolve_in fuel m' (r_objs s) l name weak = Some
    match List.find (binds STB_GLOBAL n) l with
    | Some p => Some (p, sym_of n p)
    | None => match weak with Some w => Some w | None => (fun p => (p, sym_of n p)) <$> List.find (binds STB_WEAK n) l end
    end.
Proof.
  induction l as [|p l IH]; intros weak Hl; [by destruct weak|]. cbn [resolve_in List.find]. fold (ob s p).
  destruct (sym_now p (Hl p ltac:(by left))) as [-> Hg]. cbn [mbind option_bind]. unfold binds at 1 3.
  assert (Hr : forall q, q ∈ l -> q ∈ scope) by (intros q Hq; apply Hl; by right).
  destruct (Z.eqb_spec (sym_of n p) 0) as [E|E]; cbn [negb andb]; [by apply IH|]. rewrite Hg by done.
  destruct (ELF64_ST_BIND (st_info (get_sym m (sym_of n p))) =? STB_GLOBAL) eqn:Eb; [done|]. rewrite IH by done.
  destruct (List.find (binds STB_GLOBAL n) l); [done|].
  destruct (_ =? STB_WEAK), weak; done.
Qed.

Lemma rtldResolveSymbol_ok s' : gMainObj s' = gMainObj s -> gObjects s' = gObjects s -> r_objs s' = r_objs s ->
  exists p sym, rtldResolveSymbol fuel m' s' name = Some (resolve_value n, p, sym) /\
    match resolve_ref n with Some q => p = q /\ sym = sym_of n q | None => p = 0 /\ sym = 0 end.
Proof.
  intros E1 E2 E3. unfold rtldResolveSymbol, ob. rewrite E1, E2, E3. fold scope. rewrite resolve_in_ok by auto. cbn [mbind option_bind].
  unfold resolve_value, resolve_ref. destruct (List.find (binds STB_GLOBAL n) scope) as [p|] eqn:Ef.
  - apply find_some in Ef as [Ef1 Ef2]. apply list_elem_of_In in Ef1. destruct (sym_now p Ef1) as [_ Hg].
    unfold binds in Ef2. apply andb_true_iff in Ef2 as [Ef2 _]. apply negb_true_iff, Z.eqb_neq in Ef2. rewrite Hg by done.
    by eexists _, _.
  - destruct (List.find (binds STB_WEAK n) scope) as [p|] eqn:Ew; cbn [fmap option_fmap option_map]; [|by eexists _, _].
    apply find_some in Ew as [Ew1 Ew2]. apply list_elem_of_In in Ew1. destruct (sym_now p Ew1) as [_ Hg].
    unfold binds in Ew2. apply andb_true_iff in Ew2 as [Ew2 _]. apply negb_true_iff, Z.eqb_neq in Ew2. rewrite Hg by done.
    by eexists _, _.
Qed.
End Now.

(** ** Relocation *)
Context (p0 : Z).
Hypothesis Hp0 : p0 ∈ scope.
Let o := ob s p0.

Definition rel_type (r : Elf64_Rela) : Z := u32 (ELF64_R_TYPE (r_info r)).
Definition rel_sym (r : Elf64_Rela) : Z := u32 (ELF64_R_SYM (r_info r)).
Definition symbolic (r : Elf64_Rela) : bool :=
  (rel_type r =? R_X86_64_64) || (rel_type r =? R_X86_64_GLOB_DAT) || (rel_type r =? R_X86_64_JUMP_SLOT).
Definition rel_value (r : Elf64_Rela) : Z := resolve_value (nm p0 (rel_sym r)).
Definition rel_target (r : Elf64_Rela) : Z := u64 (o_base o + r_offset r).

(** What a relocation writes and where, if anything. *)
Definition rel_write (r : Elf64_Rela) : list (Z * Z) :=
  if rel_type r =? R_X86_64_RELATIVE then [(rel_target r, u64 (o_base o + r_addend r))]
  else if symbolic r then [(rel_target r, if rel_type r =? R_X86_64_64 then u64 (rel_value r + r_addend r) else rel_value r)]
  else [].
(** A strong symbol that no object defines. *)
Definition rel_fails (r : Elf64_Rela) : bool :=
  negb (rel_type r =? R_X86_64_RELATIVE) && symbolic r && unresolved (rel_value r) (sym_at m (o_symtab o) (rel_sym r)).

Definition write_all (m : mem) (l : list (Z * Z)) : mem := foldl (fun m '(t, v) => wr64 m t v) m l.

(** A relocation the theorem is about: no copy relocation, a symbol of the
    table, and a slot outside of the tables. *)
Definition rel_ok (r : Elf64_Rela) : Prop :=
  rel_type r <> R_X86_64_COPY /\ (symbolic r = true -> rel_sym r < count p0) /\
  forall x, rel_target r <= x < rel_target r + 8 -> ~ R x.

Lemma write_all_frame l : forall m1, (forall t v x, (t, v) ∈ l -> t <= x < t + 8 -> ~ R x) -> agree_on R m m1 -> agree_on R m (write_all m1 l).
Proof.
  induction l as [|[t v] l IH]; intros m1 Hl Ha; [done|]. cbn [write_all foldl]. apply IH.
  - intros t' v' x Hin. apply (Hl t' v' x). by right.
  - intros x Hx. rewrite (Ha x Hx). unfold wr64. rewrite rd8_wr. change (Z.of_nat 8) with 8.
    destruct (Z.leb_spec t x), (Z.ltb_spec x (t + 8)); cbn [andb]; try done. exfalso. apply (Hl t v x); [by left|lia|done].
Qed.

Lemma relocate_one_ok r m1 : rel_ok r -> agree_on R m m1 ->
  relocate_one fuel p0 r (set_rmem s m1) = if rel_fails r then Exited else Ok (set_rmem s (write_all m1 (rel_write r)), tt).
Proof.
  intros (Hc & Hs & Ht) Ha. unfold relocate_one. unfold mbind at 1. unfold run_bind at 1. unfold get_s. cbv beta iota zeta.
  change (ob (set_rmem s m1) p0) with o. cbn [r_mem set_rmem]. fold (rel_type r) (rel_sym r) (rel_target r).
  unfold rel_fails, rel_write. destruct (rel_type r =? R_X86_64_RELATIVE) eqn:Er; cbn [negb andb]; [done|]. fold (symbolic r).
  destruct (symbolic r) eqn:Es; cbn [andb].
  - destruct (Hobjs p0 Hp0) as [T I]. assert (Hi : 0 <= rel_sym r < count p0).
    { split; [|by apply Hs]. apply Z.mod_pos_bound. lia. }
    fold o in T, I. rewrite (sym_frame R fuel m m1 o (count p0) (nm p0) T I Ha (rel_sym r) Hi).
    destruct (no_names _ _ _ _ _ (names_frame R fuel m m1 o (count p0) (nm p0) T I Ha) (rel_sym r) Hi) as [Hn Hl].
    rewrite (sym_frame R fuel m m1 o (count p0) (nm p0) T I Ha (rel_sym r) Hi) in Hn.
    destruct (rtldResolveSymbol_ok m1 _ _ Ha Hn Hl (set_rmem s m1) eq_refl eq_refl eq_refl) as (q & sym & E & _).
    unfold mbind, run_bind, lift. rewrite E. cbn [fst snd]. fold (rel_value r).
    destruct (unresolved (rel_value r) (sym_at m (o_symtab o) (rel_sym r))); done.
  - destruct (Z.eqb_spec (rel_type r) R_X86_64_COPY); [done|]. done.
Qed.

(** A list of relocations. *)
Lemma relocate_list_ok rela l : forall m1,
  (forall i, i ∈ l -> rel_ok (rela_at m rela i)) ->
  (forall i m2, i ∈ l -> agree_on R m m2 -> rela_at m2 rela i = rela_at m rela i) -> agree_on R m m1 ->
  each l (fun i => s ← get_s; relocate_one fuel p0 (rela_at (r_mem s) rela i)) (set_rmem s m1) =
  if existsb (fun i => rel_fails (rela_at m rela i)) l then Exited
  else Ok (set_rmem s (write_all m1 (l ≫= fun i => rel_write (rela_at m rela i))), tt).
Proof.
  induction l as [|i l IH]; intros m1 Hok Hrd Ha; [done|]. cbn [each existsb]. unfold mbind at 1. unfold run_bind at 1.
  unfold mbind at 1. unfold run_bind at 1. unfold get_s at 1. cbv beta iota. cbn [r_mem set_rmem].
  rewrite (Hrd i m1) by (done || by left). rewrite relocate_one_ok by (apply Hok || done; by left).
  destruct (rel_fails (rela_at m rela i)); [done|]. cbn [orb]. rewrite IH; try auto.
  - destruct (existsb _ l); [done|]. cbn [mbind list_bind]. unfold write_all. by rewrite foldl_app.
  - intros j Hj. apply Hok. by right.
  - intros j m2 Hj. apply Hrd. by right.
  - apply write_all_frame; [|done]. intros t v x Hin. destruct (Hok i ltac:(by left)) as (_ & _ & Ht). unfold rel_write in Hin.
    destruct (_ =? R_X86_64_RELATIVE); [|destruct (symbolic _)]; try (by apply not_elem_of_nil in Hin); apply list_elem_of_singleton in Hin; simplify_eq; apply Ht.
Qed.
End Resolve.

(** ** Slots *)
Definition slot (w : Z * Z) : Z * Z := (w.1, 8).

Lemma write_all_outside l : forall m x, (forall w, w ∈ l -> ~ w.1 <= x < w.1 + 8) -> rd8 (write_all m l) x = rd8 m x.
Proof.
  induction l as [|[t v] l IH]; intros m x Hx; [done|]. cbn [write_all foldl]. fold (write_all (wr64 m t v) l).
  rewrite IH by (intros w Hw; apply Hx; by right). specialize (Hx (t, v) ltac:(by left)). cbn in Hx. unfold wr64. rewrite rd8_wr. change (Z.of_nat 8) with 8.
  destruct (Z.leb_spec t x), (Z.ltb_spec x (t + 8)); cbn [andb]; done || lia.
Qed.

Lemma write_all_read l : forall m t v, apart (slot <$> l) -> (t, v) ∈ l -> is_u64 v -> rd64 (write_all m l) t = v.
Proof.
  induction l as [|[t' v'] l IH]; intros m t v Ha Hin Hv; [by apply not_elem_of_nil in Hin|]. destruct Ha as [Hd Ha]. cbn [write_all foldl]. fold (write_all (wr64 m t' v') l).
  apply elem_of_cons in Hin as [Hin|Hin]; [|by apply IH]. simplify_eq. transitivity (rd64 (wr64 m t' v') t'); [|by apply rd64_wr64_same]. apply rd_ext.
  intros x Hx. apply write_all_outside. intros w Hw Hwx. rewrite Forall_forall in Hd. specialize (Hd (slot w) (list_elem_of_fmap_2 _ _ _ Hw)).
  unfold disj, slot in Hd. cbn in Hd. change (Z.of_nat 8) with 8 in Hx. lia.
Qed.

(** ** [rtldRelocateObject] *)

(** The relocations of a table. *)
Definition table_rels (m : mem) (rela size : Z) : list Elf64_Rela :=
  if rela =? 0 then [] else map (rela_at m rela) (seqZ 0 (size / sizeof_Rela)).
Definition all_rels (m : mem) (o : SharedObject) : list Elf64_Rela :=
  table_rels m (o_rela o) (o_relasz o) ++ table_rels m (o_jmprel o) (o_pltrelsz o).

(** What relocating the object at [p] relies on: sound tables of all objects
    in [R], its relocations too, and slots outside of [R]. *)
Record reloc_input (R : Z -> Prop) (fuel : nat) (s : Rtld) (count : Z -> Z) (nm : Z -> Z -> list Z) (p : Z) : Prop := {
  ri_objs : forall q, q ∈ scope s -> tables_ok fuel (r_mem s) (ob s q) (count q) (nm q) /\ tables_in R (r_mem s) (ob s q) (count q) (nm q);
  ri_scope : p ∈ scope s;
  ri_fresh : o_relocated (ob s p) = false;
  ri_table : forall rela size, rela <> 0 -> (rela, size) = (o_rela (ob s p), o_relasz (ob s p)) \/ (rela, size) = (o_jmprel (ob s p), o_pltrelsz (ob s p)) ->
    0 <= rela /\ 0 <= size /\ rela + size < 2 ^ 64 /\ range_in R rela size;
  ri_rels : forall r, r ∈ all_rels (r_mem s) (ob s p) -> rel_ok R s count p r
}.

Section Relocated.
Context (R : Z -> Prop) (fuel : nat) (s : Rtld) (count : Z -> Z) (nm : Z -> Z -> list Z) (p : Z).
Hypothesis Hin : reloc_input R fuel s count nm p.
Let m := r_mem s.
Let fails := rel_fails m s count nm p.
Let writes := rel_write m s count nm p.

Lemma relocate_table_ok rela size m1 :
  (rela, size) = (o_rela (ob s p), o_relasz (ob s p)) \/ (rela, size) = (o_jmprel (ob s p), o_pltrelsz (ob s p)) -> agree_on R m m1 ->
  (forall r, r ∈ table_rels m rela size -> rel_ok R s count p r) ->
  relocate_table fuel p rela size (set_rmem s m1) =
  if existsb fails (table_rels m rela size) then Exited else Ok (set_rmem s (write_all m1 (table_rels m rela size ≫= writes)), tt).
Proof.
  intros Ht Ha Hok. unfold relocate_table, table_rels in *. destruct (Z.eqb_spec rela 0) as [E|E]; [done|]. cbn [orb].
  destruct (ri_table _ _ _ _ _ _ Hin rela size E Ht) as (T1 & T2 & T3 & T4). unfold sizeof_Rela in *.
  destruct (Z.eqb_spec (size / 24) 0) as [E0|E0]; [by rewrite E0|].
  assert (Hrange : forall i, i ∈ seqZ 0 (size / 24) -> 0 <= i /\ i * 24 + 24 <= size) by (intros i Hi; apply elem_of_seqZ in Hi; divlia).
  rewrite (relocate_list_ok R fuel m s count nm (ri_objs _ _ _ _ _ _ Hin) p (ri_scope _ _ _ _ _ _ Hin) rela (seqZ 0 (size / 24)) m1).
  - assert (Ee : forall l, existsb fails (map (rela_at m rela) l) = existsb (fun i => rel_fails m s count nm p (rela_at m rela i)) l).
    { induction l as [|i l IH]; [done|]. cbn [map existsb]. by rewrite IH. }
    assert (Ew : forall l, (map (rela_at m rela) l) ≫= writes = l ≫= (fun i => rel_write m s count nm p (rela_at m rela i))).
    { induction l as [|i l IH]; [done|]. cbn [map mbind list_bind]. f_equal. exact IH. }
    by rewrite Ee, Ew.
  - intros i Hi. apply Hok. apply list_elem_of_In, in_map, list_elem_of_In, Hi.
  - intros i m2 Hi A2. destruct (Hrange i Hi). unfold rela_at, sizeof_Rela. rewrite u64_id by (unfold is_u64; lia).
    symmetry. apply get_rela_agree, agree_on_range with R; [done|]. apply (range_sub R rela size); [done|lia..].
  - done.
Qed.

Lemma rtldRelocateObject_ok :
  rtldRelocateObject fuel p s =
  if existsb fails (all_rels m (ob s p)) then Exited
  else Ok (upd_ob (set_rmem s (write_all m (all_rels m (ob s p) ≫= writes))) p
             (fun o => with_flags o true (o_initCalled o) (o_finiCalled o) (o_visiting o)), tt).
Proof.
  unfold rtldRelocateObject. unfold mbind at 1. unfold run_bind at 1. unfold get_s. cbv beta iota zeta. rewrite (ri_fresh _ _ _ _ _ _ Hin).
  assert (Es : s = set_rmem s m) by by destruct s. unfold mbind, run_bind, all_rels. rewrite existsb_app, bind_app.
  assert (Hr1 : forall r, r ∈ table_rels m (o_rela (ob s p)) (o_relasz (ob s p)) -> rel_ok R s count p r)
    by (intros r Hr; apply (ri_rels _ _ _ _ _ _ Hin), elem_of_app; by left).
  assert (Hr2 : forall r, r ∈ table_rels m (o_jmprel (ob s p)) (o_pltrelsz (ob s p)) -> rel_ok R s count p r)
    by (intros r Hr; apply (ri_rels _ _ _ _ _ _ Hin), elem_of_app; by right).
  pose proof (relocate_table_ok (o_rela (ob s p)) (o_relasz (ob s p)) m (or_introl eq_refl) (agree_on_refl R m) Hr1) as E1.
  rewrite <- Es in E1. rewrite E1. destruct (existsb fails (table_rels m (o_rela (ob s p)) _)); cbn [orb]; [done|].
  rewrite (relocate_table_ok (o_jmprel (ob s p)) (o_pltrelsz (ob s p)) _ (or_intror eq_refl)); [|apply write_all_frame; [|apply agree_on_refl]|done].
  - destruct (existsb fails _); [done|]. unfold modify, write_all. by rewrite foldl_app.
  - intros t v x Hw Hx. apply list_elem_of_bind in Hw as (r & Hw & Hr). destruct (Hr1 r Hr) as (_ & _ & Hs). unfold writes, rel_write in Hw.
    destruct (_ =? R_X86_64_RELATIVE); [|destruct (symbolic _)]; try (by apply not_elem_of_nil in Hw); apply list_elem_of_singleton in Hw; simplify_eq; by apply Hs.
Qed.
End Relocated.

(** ** The dynamic linker: properties

    Look-up against a search through all symbols, relocation of an object,
    and copy relocations; with a small object on which they are used. *)

(** C29: For an object with sound tables the look-up through the GNU table, with
    its Bloom filter, and then the System V table returns, and gives exactly
    the symbol that a search through all symbols of the object gives: the
    address of the defined symbol of that name, or NULL when there is
    none. *)
Theorem rtldLookupInObject_correct fuel m o count nm name s :
  tables_ok fuel m o count nm -> cstr m name s -> (length s < fuel)%nat ->
  rtldLookupInObject fuel m o name = Some (lookup_ref m o count nm s).
Proof. apply rtldLookupInObject_ok. Qed.

(** C30: Relocating an object, with sound tables of all objects in memory that no
    slot overlaps and no copy relocation: it exits exactly when a strong
    symbol has no definition in any object.  Otherwise it returns, changes
    no byte outside of the slots, marks the object, and, for slots that do
    not overlap, each slot holds its value: the load address plus the addend
    for a relative relocation; and for a symbol the address in the first
    object (the program first) with a global definition of the name, or else
    the first with a weak one, plus the addend for R_X86_64_64. *)
Theorem rtldRelocateObject_correct R fuel s count nm p : reloc_input R fuel s count nm p ->
  let m := r_mem s in
  let rels := all_rels m (ob s p) in
  let writes := rels ≫= rel_write m s count nm p in
  if existsb (rel_fails m s count nm p) rels then rtldRelocateObject fuel p s = Exited
  else exists s', rtldRelocateObject fuel p s = Ok (s', tt) /\ o_relocated (ob s' p) = true /\
    (forall x, (forall w, w ∈ writes -> ~ w.1 <= x < w.1 + 8) -> rd8 (r_mem s') x = rd8 m x) /\
    (apart (slot <$> writes) -> forall r, r ∈ rels ->
       (rel_type r = R_X86_64_RELATIVE -> rd64 (r_mem s') (rel_target s p r) = u64 (o_base (ob s p) + r_addend r)) /\
       (rel_type r = R_X86_64_64 -> rd64 (r_mem s') (rel_target s p r) = u64 (resolve_value m s count nm (nm p (rel_sym r)) + r_addend r)) /\
       (rel_type r = R_X86_64_GLOB_DAT \/ rel_type r = R_X86_64_JUMP_SLOT ->
          rd64 (r_mem s') (rel_target s p r) = resolve_value m s count nm (nm p (rel_sym r)))).
Proof.
  intros Hin m rels writes. rewrite (rtldRelocateObject_ok R fuel s count nm p Hin). fold m rels writes.
  destruct (existsb (rel_fails m s count nm p) rels); [done|]. eexists. split; [reflexivity|]. split_and!.
  - by rewrite ob_upd, Z.eqb_refl.
  - intros x Hx. cbn [r_mem upd_ob set_ob set_objs set_rmem]. by apply write_all_outside.
  - intros Ha r Hr. cbn [r_mem upd_ob set_ob set_objs set_rmem].
    assert (Hw : forall t v, (t, v) ∈ rel_write m s count nm p r -> is_u64 v -> rd64 (write_all m writes) t = v).
    { intros t v Hin' Hv. apply write_all_read; [done| |done]. apply list_elem_of_bind. by exists r. }
    assert (Hval : is_u64 (resolve_value m s count nm (nm p (rel_sym r)))).
    { unfold resolve_value. destruct (resolve_ref _ _ _ _ _); [apply u64_range|unfold is_u64; lia]. }
    unfold rel_write, symbolic, rel_value in Hw. split_and!.
    + intros E. rewrite E in Hw. apply Hw; [by apply list_elem_of_singleton|apply u64_range].
    + intros E. rewrite E in Hw. apply Hw; [by apply list_elem_of_singleton|apply u64_range].
    + intros [E|E]; rewrite E in Hw; (apply Hw; [by apply list_elem_of_singleton|done]).
Qed.

(** ** A small object: [foo] at 0x500 of the object, both kinds of table, and
    one slot *)
Definition foo : list Z := text "foo".
Definition demo_so : mem :=
  put_bytes (put_bytes (put_bytes (put_bytes (put_bytes ∅
    0x1000 (repeat 0 24 ++ le_bytes 4 1 ++ [0x11; 0] ++ le_bytes 2 5 ++ le_bytes 8 0x500 ++ le_bytes 8 16))
    0x1100 ([0] ++ foo ++ [0]))
    0x1200 (le_bytes 4 1 ++ le_bytes 4 2 ++ le_bytes 4 1 ++ le_bytes 4 0 ++ le_bytes 4 0))
    0x1240 (le_bytes 4 1 ++ le_bytes 4 1 ++ le_bytes 4 1 ++ le_bytes 4 6 ++ le_bytes 8 (2 ^ 64 - 1) ++ le_bytes 4 1 ++ le_bytes 4 (Z.lor (gnu_hash_of foo) 1)))
    0x1300 (le_bytes 8 0x800 ++ le_bytes 8 (1 * 2 ^ 32 + 6) ++ le_bytes 8 0).
Definition demo_object : SharedObject :=
  mkObj (text "<main>") 0x10000 0 0 0 0 0 0x1100 0x1000 0x1300 24 0 0 0x1200 0x1240 0 0 0 0 0 0 [] 0 false false false false true 0.
Definition demo_nm (i : Z) : list Z := if i =? 1 then foo else [].
Definition demo_rtld : Rtld := set_gMainObj (set_objs (rtld0 demo_so) (<[0x10 := demo_object]> ∅)) 0x10.
Definition demo_R (x : Z) : Prop := 0x1000 <= x < 0x1400.

Lemma demo_only_foo i : 0 <= i < 2 -> defined demo_so demo_object i -> i = 1.
Proof. intros Hi Hd. assert (i = 0 \/ i = 1) as [-> | ->] by lia; [|done]. exfalso. apply Hd. vm_compute. reflexivity. Qed.

Lemma demo_names : names_ok 16 demo_so demo_object 2 demo_nm.
Proof.
  split; [vm_compute; split; reflexivity|discriminate|lia|]. intros i Hi. assert (i = 0 \/ i = 1) as [-> | ->] by lia.
  - split; [apply cstr_nil; vm_compute; reflexivity|simpl; lia].
  - split; [|simpl; lia]. change (demo_nm 1) with foo. vm_compute (u64 _). unfold foo. cbn [text].
    repeat (apply cstr_cons; [vm_compute; reflexivity|discriminate|]). apply cstr_nil. vm_compute. reflexivity.
Qed.

Lemma demo_gnu : gnu_ok 16 demo_so demo_object 2 demo_nm (fun _ => [1]).
Proof.
  split.
  - split; vm_compute; discriminate.
  - intros b Hb _. assert (b = 0) as -> by (change (gnu_nbuckets demo_so demo_object) with 1 in Hb; lia). split; [|simpl; lia].
    vm_compute (w32 _ _ _). apply gr_last; [vm_compute; split; congruence|vm_compute; reflexivity].
  - intros i Hi Hd. assert (i = 1) as -> by (apply demo_only_foo; [change (gnu_symOffset demo_so demo_object) with 1 in Hi; lia|done]).
    split_and!; [vm_compute; reflexivity|vm_compute; discriminate|by left|vm_compute; reflexivity].
Qed.

Lemma demo_sysv : sysv_ok 16 demo_so demo_object 2 demo_nm (fun _ => [1]).
Proof.
  split.
  - vm_compute. discriminate.
  - intros b Hb. assert (b = 0) as -> by (change (sysv_nbucket demo_so demo_object) with 1 in Hb; lia). split; [|simpl; lia].
    vm_compute (w32 _ _ _). apply cf_step; [lia|]. vm_compute (w32 _ _ _). apply cf_end.
  - intros i Hi Hd. assert (i = 1) as -> by lia. by left.
Qed.

Lemma demo_tables : tables_ok 16 demo_so demo_object 2 demo_nm.
Proof.
  split; [exact demo_names|intros _; exists (fun _ => [1]); exact demo_gnu|intros _; exists (fun _ => [1]); exact demo_sysv| |].
  - intros i Hi Hd. right. split; [discriminate|]. rewrite (demo_only_foo i Hi Hd). lia.
  - intros i j Hi Hj Hdi Hdj _. by rewrite (demo_only_foo i Hi Hdi), (demo_only_foo j Hj Hdj).
Qed.

Lemma rtldLookupInObject_correct_witness : rtldLookupInObject 16 demo_so demo_object 0x1101 = Some 0x1018.
Proof.
  rewrite (rtldLookupInObject_correct 16 demo_so demo_object 2 demo_nm 0x1101 foo demo_tables); [vm_compute; reflexivity| |simpl; lia].
  unfold foo. cbn [text]. repeat (apply cstr_cons; [vm_compute; reflexivity|discriminate|]). apply cstr_nil. vm_compute. reflexivity.
Defined.

Lemma demo_tables_in : tables_in demo_R demo_so demo_object 2 demo_nm.
Proof.
  split.
  - intros x Hx. unfold demo_R, sizeof_Sym in *. cbn [o_symtab demo_object] in Hx. lia.
  - intros i Hi. assert (i = 0 \/ i = 1) as [-> | ->] by lia; intros x Hx; unfold demo_R; vm_compute (u64 _) in Hx; simpl in Hx; lia.
  - intros _. change (gnu_bytes demo_so demo_object 2) with 32. change (gnu_symOffset demo_so demo_object) with 1. cbn [o_gnuHash demo_object].
    split_and!; try lia. intros x Hx. unfold demo_R. lia.
  - intros _. change (sysv_bytes demo_so demo_object 2) with 20. cbn [o_hash demo_object]. split_and!; try lia. intros x Hx. unfold demo_R. lia.
Qed.

Definition demo_rel : Elf64_Rela := mkRela 0x800 0x100000006 0.

Lemma demo_rels : all_rels (r_mem demo_rtld) (ob demo_rtld 0x10) = [demo_rel].
Proof. vm_compute. reflexivity. Qed.

Lemma demo_reloc_input : reloc_input demo_R 16 demo_rtld (fun _ => 2) (fun _ => demo_nm) 0x10.
Proof.
  split.
  - intros q Hq. change (scope demo_rtld) with [0x10] in Hq. apply list_elem_of_singleton in Hq as ->. exact (conj demo_tables demo_tables_in).
  - change (scope demo_rtld) with [0x10]. by apply list_elem_of_singleton.
  - reflexivity.
  - intros rela size Hz [E|E]; change (ob demo_rtld 0x10) with demo_object in E; cbn [o_rela o_relasz o_jmprel o_pltrelsz demo_object] in E;
      injection E as -> ->; [|done]. split_and!; try lia. intros x Hx. unfold demo_R. lia.
  - intros r Hr. rewrite demo_rels in Hr. apply list_elem_of_singleton in Hr as ->. split_and!; [vm_compute; discriminate|intros _; vm_compute; reflexivity|].
    intros x Hx. change (rel_target demo_rtld 0x10 demo_rel) with 0x10800 in Hx. unfold demo_R. lia.
Qed.

Lemma rtldRelocateObject_correct_witness :
  exists s', rtldRelocateObject 16 0x10 demo_rtld = Ok (s', tt) /\ rd64 (r_mem s') 0x10800 = 0x10500.
Proof.
  pose proof (rtldRelocateObject_correct demo_R 16 demo_rtld (fun _ => 2) (fun _ => demo_nm) 0x10 demo_reloc_input) as T. cbv zeta in T.
  rewrite demo_rels in T.
  assert (E : existsb (rel_fails (r_mem demo_rtld) demo_rtld (fun _ => 2) (fun _ => demo_nm) 0x10) [demo_rel] = false) by (vm_compute; reflexivity).
  rewrite E in T. destruct T as (s' & Er & _ & _ & V). exists s'. split; [exact Er|].
  destruct (V ltac:(vm_compute; split; [constructor|exact I]) demo_rel) as (_ & _ & V3); [by left|].
  assert (Ev : resolve_value (r_mem demo_rtld) demo_rtld (fun _ => 2) (fun _ => demo_nm) (demo_nm (rel_sym demo_rel)) = 0x10500) by (vm_compute; reflexivity).
  rewrite <- Ev. apply V3. left. vm_compute. reflexivity.
Defined.

(** ** Copy relocations *)
Lemma memcpy_self n : forall m a x, rd8 (memcpy_bytes n m a a) x = rd8 m x.
Proof.
  induction n as [|n IH]; intros m a x; [done|]. cbn [memcpy_bytes]. rewrite IH, rd8_wr8.
  destruct (Z.eqb_spec x a) as [-> | _]; [apply u8_rd8|done].
Qed.

(** A copy relocation of the program is for a variable the program defines
    (at the slot) and initialises from a library.  The search for its source
    starts at the program, so the source is the slot itself: the variable is
    never initialised, whatever the libraries define. *)
Theorem copy_relocation_copies_itself R fuel s count nm r i : let p := gMainObj s in
  (forall q, q ∈ scope s -> tables_ok fuel (r_mem s) (ob s q) (count q) (nm q) /\ tables_in R (r_mem s) (ob s q) (count q) (nm q)) ->
  p <> 0 -> rel_type r = R_X86_64_COPY -> rel_sym r = i -> 0 <= i < count p -> defined (r_mem s) (ob s p) i ->
  ELF64_ST_BIND (st_info (sym_at (r_mem s) (o_symtab (ob s p)) i)) = STB_GLOBAL ->
  r_offset r = st_value (sym_at (r_mem s) (o_symtab (ob s p)) i) ->
  exists m', relocate_one fuel p r s = Ok (set_rmem s m', tt) /\ forall x, rd8 m' x = rd8 (r_mem s) x.
Proof.
  intros p Hobjs Hp Ht Hi Hr Hd Hb Ho.
  assert (Hsc : p ∈ scope s) by (unfold scope; fold p; destruct (Z.eqb_spec p 0); [done|by left]). destruct (Hobjs p Hsc) as [T I].
  destruct (no_names _ _ _ _ _ (to_names _ _ _ _ _ T) i Hr) as [Hn Hl].
  destruct (no_table _ _ _ _ _ (to_names _ _ _ _ _ T)) as [N1 N2]. unfold sizeof_Sym in *.
  assert (Esym : sym_of (r_mem s) s count nm (nm p i) p = sym_addr (ob s p) i) by (unfold sym_of; by apply (lookup_ref_some fuel)).
  assert (Eget : get_sym (r_mem s) (sym_addr (ob s p) i) = sym_at (r_mem s) (o_symtab (ob s p)) i)
    by (unfold sym_at, sym_addr, sizeof_Sym; rewrite u64_id by (unfold is_u64; lia); done).
  assert (Eref : resolve_ref (r_mem s) s count nm (nm p i) = Some p).
  { assert (Ebind : binds (r_mem s) s count nm STB_GLOBAL (nm p i) p = true).
    { unfold binds. rewrite Esym, Eget, Hb. unfold sym_addr, sizeof_Sym. by destruct (Z.eqb_spec (o_symtab (ob s p) + i * 24) 0); [lia|]. }
    unfold resolve_ref, scope. fold p. destruct (Z.eqb_spec p 0); [done|]. cbn [app List.find]. by rewrite Ebind. }
  destruct (rtldResolveSymbol_ok R fuel (r_mem s) s count nm Hobjs (r_mem s) _ _ (agree_on_refl R _) Hn Hl s eq_refl eq_refl eq_refl)
    as (q & sym & E & Eq). rewrite Eref in Eq. destruct Eq as [-> ->].
  assert (Ev : resolve_value (r_mem s) s count nm (nm p i) = u64 (o_base (ob s p) + r_offset r)) by (unfold resolve_value; by rewrite Eref, Esym, Eget, Ho).
  unfold relocate_one. unfold mbind at 1. unfold run_bind at 1. unfold get_s. cbv beta iota zeta. fold (rel_type r) (rel_sym r). rewrite Ht, Hi. cbn [Z.eqb orb].
  unfold mbind, run_bind, lift. rewrite E. cbn [fst snd]. rewrite Ev.
  destruct (negb _ && negb _).
  - eexists. split; [reflexivity|]. intros x. apply memcpy_self.
  - exists (r_mem s). split; [by destruct s|done].
Qed.
