(* ===== verification/Machine.v ===== *)
(** * The machine under the device drivers

    What the drivers for NVMe (krdrivers/nvme/nvme.c), PCI Express
    (pcie/pcie.c) and the VirtIO GPU (drivers/virtiogpu) use of the machine
    besides ordinary memory: registers of a device, the clock
    ([hpet_get_millis]), and memory that a device changes on its own.  A
    state [w] of the machine holds the memory; [elapse] lets time pass, in
    which devices may act.  Devices are not code of the kernel: what a
    theorem needs of one is a hypothesis on an instance. *)

From Stdlib Require Import ZArith Lia Bool.
From stdpp Require Import base list gmap.
From S2P Require Import Prelude Mem.

Definition wr16 := wr 2.

Class Machine (W : Type) := {
  mm : W -> mem;
  set_mm : W -> mem -> W;
  (** time passes, devices act *)
  elapse : W -> W;
  (** the clock, in milliseconds *)
  millis : W -> Z;
  (** a load from and a store to a device register of [n] bytes *)
  io_rd : W -> nat -> Z -> W * Z;
  io_wr : W -> nat -> Z -> Z -> W
}.

Class MachineLaws (W : Type) `{Machine W} := {
  mm_set w m : mm (set_mm w m) = m;
  millis_set w m : millis (set_mm w m) = millis w;
  (** register accesses are not memory accesses: what they cause, a device
      does while time passes *)
  mm_io_rd w n a : mm (io_rd w n a).1 = mm w;
  mm_io_wr w n a v : mm (io_wr w n a v) = mm w
}.

Section Access.
Context {W : Type} `{Machine W}.

(** A read of memory that a device may have changed in the meantime. *)
Definition shared_rd (w : W) (n : nat) (a : Z) : W * Z := let w1 := elapse w in (w1, rd n (mm w1) a).
Definition hpet_get_millis (w : W) : W * Z := let w1 := elapse w in (w1, u64 (millis w1)).
Definition upd (w : W) (f : mem -> mem) : W := set_mm w (f (mm w)).
End Access.

(** ** Memory that agrees *)

Definition agree (m m' : mem) (a n : Z) : Prop := forall x, a <= x < a + n -> rd8 m' x = rd8 m x.

Lemma mem_agree_refl m a n : agree m m a n.
Proof. done. Qed.

Lemma mem_agree_trans m1 m2 m3 a n : agree m1 m2 a n -> agree m2 m3 a n -> agree m1 m3 a n.
Proof. intros H1 H2 x Hx. rewrite H2, H1 by done. done. Qed.

Lemma mem_agree_sub m m' a n b k : agree m m' a n -> a <= b -> b + k <= a + n -> agree m m' b k.
Proof. intros Hag H1 H2 x Hx. apply Hag. lia. Qed.

Lemma agree_rd m m' a k b n : agree m m' b n -> b <= a -> a + Z.of_nat k <= b + n -> rd k m' a = rd k m a.
Proof. intros Hag H1 H2. apply rd_ext. intros x Hx. apply Hag. lia. Qed.

Lemma agree_wr m k a v b n : a + Z.of_nat k <= b \/ b + n <= a -> agree m (wr k m a v) b n.
Proof.
  intros Hd x Hx. rewrite rd8_wr. destruct (Z.leb_spec a x), (Z.ltb_spec x (a + Z.of_nat k)); cbn [andb]; done || lia.
Qed.

Lemma rd16_wr16_same m a v : 0 <= v < 2 ^ 16 -> rd16 (wr16 m a v) a = v.
Proof. intros Hv. unfold rd16, wr16. rewrite rd_wr_same. apply Z.mod_small. exact Hv. Qed.

Lemma rd32_wr32_same m a v : 0 <= v < 2 ^ 32 -> rd32 (wr32 m a v) a = v.
Proof. intros Hv. unfold rd32, wr32. rewrite rd_wr_same. apply Z.mod_small. exact Hv. Qed.

Lemma rd16_range m a : 0 <= rd16 m a < 2 ^ 16.
Proof. apply (rd_range 2). Qed.

Lemma u16_range z : 0 <= u16 z < 2 ^ 16.
Proof. apply Z.mod_pos_bound. lia. Qed.

Lemma u16_id z : 0 <= z < 2 ^ 16 -> u16 z = z.
Proof. apply Z.mod_small. Qed.
