(* ===== verification/Virtqueue.v ===== *)
(** * Split virtqueues

    drivers/virtiogpu/virtqueue.c.  The descriptor table, the ring of
    available chains and the ring of used chains lie in memory shared with
    the device, at the addresses the driver computed. *)

From Stdlib Require Import ZArith Lia Bool.
From stdpp Require Import base list gmap.
From S2P Require Import Prelude Mem Str Pmm Machine.

Definition VIRTQ_DESC_F_NEXT : Z := 1.
Definition VIRTQ_DESC_F_WRITE : Z := 2.

Record VirtqBuf := mkBuf { physAddr : Z; buf_len : Z; buf_write : Z }.

Record Virtqueue := mkVq {
  queueIndex : Z; queueSize : Z; numFree : Z; freeHead : Z; lastUsedIdx : Z;
  physBase : Z; vq_pageCount : Z;
  descTable : Z; availRing : Z; usedRing : Z; notifyAddr : Z
}.

Definition set_free (vq : Virtqueue) (n h : Z) : Virtqueue :=
  mkVq (queueIndex vq) (queueSize vq) n h (lastUsedIdx vq) (physBase vq) (vq_pageCount vq) (descTable vq) (availRing vq) (usedRing vq) (notifyAddr vq).
Definition set_lastUsed (vq : Virtqueue) (i : Z) : Virtqueue :=
  mkVq (queueIndex vq) (queueSize vq) (numFree vq) (freeHead vq) i (physBase vq) (vq_pageCount vq) (descTable vq) (availRing vq) (usedRing vq) (notifyAddr vq).

(** ** The structures in memory: [VirtqDesc], [VirtqAvail], [VirtqUsed] *)
Definition desc (vq : Virtqueue) (i : Z) : Z := descTable vq + 16 * i.
Definition d_addr (m : mem) vq i : Z := rd64 m (desc vq i).
Definition d_len (m : mem) vq i : Z := rd32 m (desc vq i + 8).
Definition d_flags (m : mem) vq i : Z := rd16 m (desc vq i + 12).
Definition d_next (m : mem) vq i : Z := rd16 m (desc vq i + 14).
Definition set_next (m : mem) vq i v : mem := wr16 m (desc vq i + 14) v.
Definition avail_idx (m : mem) vq : Z := rd16 m (availRing vq + 2).
Definition avail_slot vq i : Z := availRing vq + 4 + 2 * i.
Definition used_idx (m : mem) vq : Z := rd16 m (usedRing vq + 2).
Definition used_slot vq i : Z := usedRing vq + 4 + 8 * i.

(** ** Submission *)

(** The body of the loop: buffer [b] into the descriptor; [more]: another
    buffer follows. *)
Definition fill_desc (m : mem) vq (i : Z) (b : VirtqBuf) (more : bool) : mem :=
  let m1 := wr64 m (desc vq i) (physAddr b) in
  let m2 := wr32 m1 (desc vq i + 8) (buf_len b) in
  let m3 := wr16 m2 (desc vq i + 12) (if negb (buf_write b =? 0) then VIRTQ_DESC_F_WRITE else 0) in
  if more then wr16 m3 (desc vq i + 12) (Z.lor (d_flags m3 vq i) VIRTQ_DESC_F_NEXT) else m3.

(** The loop over the buffers: memory, [currIdx] and [prevIdx] after it. *)
Fixpoint fill_chain (m : mem) vq (bufs : list VirtqBuf) (curr prev : Z) : mem * Z * Z :=
  match bufs with
  | [] => (m, curr, prev)
  | b :: r =>
      let m1 := fill_desc m vq curr b (match r with [] => false | _ => true end) in
      fill_chain m1 vq r (d_next m1 vq curr) curr
  end.

(** [virtqueueSubmitSg]; [bufs] is the array of [count] buffers. *)
Definition virtqueueSubmitSg (m : mem) (vq : Virtqueue) (bufs : list VirtqBuf) : mem * Virtqueue * Z :=
  let count := Z.of_nat (length bufs) in
  if (count =? 0) || (queueSize vq <? count) then (m, vq, -1)
  else if numFree vq <? count then (m, vq, -1)
  else
    let headIdx := freeHead vq in
    let '(m1, currIdx, prevIdx) := fill_chain m vq bufs headIdx 0xFFFF in
    let m2 := set_next m1 vq prevIdx 0xFFFF in
    let vq1 := set_free vq (u16 (numFree vq - u16 count)) currIdx in
    let availIdx := avail_idx m2 vq in
    let m3 := wr16 m2 (avail_slot vq (availIdx mod queueSize vq)) headIdx in
    let m4 := wr16 m3 (availRing vq + 2) (u16 (availIdx + 1)) in
    (m4, vq1, 0).

Definition virtqueueSubmit (m : mem) vq (reqPhys reqLen respPhys respLen : Z) : mem * Virtqueue * Z :=
  virtqueueSubmitSg m vq [mkBuf reqPhys reqLen 0; mkBuf respPhys respLen 1].

(** ** Completion *)

(** The walk to the last descriptor of a chain: its index and the number of
    descriptors. *)
Fixpoint chain_tail (fuel : nat) (m : mem) vq (tail count : Z) : option (Z * Z) :=
  match fuel with
  | O => None
  | S k =>
      if has (d_flags m vq tail) VIRTQ_DESC_F_NEXT
      then chain_tail k m vq (d_next m vq tail) (u16 (count + 1))
      else Some (tail, count)
  end.

Section Poll.
Context {W : Type} `{Machine W}.
Implicit Types (w : W).

(** One round of the inner loop: the chain of the next used element goes
    back to the free descriptors. *)
Definition reap_one (fuel : nat) (w : W) (vq : Virtqueue) : option (W * Virtqueue) :=
  let usedSlot := lastUsedIdx vq mod queueSize vq in
  let curr := u16 (rd32 (mm w) (used_slot vq usedSlot)) in
  match chain_tail fuel (mm w) vq curr 1 with
  | None => None
  | Some (tail, count) =>
      Some (upd w (fun m => set_next m vq tail (freeHead vq)),
            set_lastUsed (set_free vq (u16 (numFree vq + count)) curr) (u16 (lastUsedIdx vq + 1)))
  end.

Fixpoint reap (fuel : nat) (w : W) (vq : Virtqueue) : option (W * Virtqueue) :=
  match fuel with
  | O => None
  | S k =>
      let '(w1, idx) := shared_rd w 2 (usedRing vq + 2) in
      if lastUsedIdx vq =? idx then Some (w1, vq)
      else match reap_one (Z.to_nat (queueSize vq)) w1 vq with
           | None => None
           | Some (w2, vq2) => reap k w2 vq2
           end
  end.

Fixpoint poll_loop (fuel : nat) (w : W) (vq : Virtqueue) (start timeoutMs : Z) : option (W * Virtqueue * Z) :=
  match fuel with
  | O => None
  | S k =>
      let '(w1, idx) := shared_rd w 2 (usedRing vq + 2) in
      if negb (lastUsedIdx vq =? idx) then
        match reap (S (Z.to_nat (queueSize vq))) w1 vq with
        | None => None
        | Some (w2, vq2) => Some (w2, vq2, 0)
        end
      else
        let '(w2, now) := hpet_get_millis w1 in
        if timeoutMs <=? u64 (now - start) then Some (w2, vq, -1)
        else poll_loop k w2 vq start timeoutMs
  end.

Definition virtqueuePoll (fuel : nat) (w : W) (vq : Virtqueue) (timeoutMs : Z) : option (W * Virtqueue * Z) :=
  let '(w1, start) := hpet_get_millis w in poll_loop fuel w1 vq start timeoutMs.

Definition virtqueueKick (w : W) (vq : Virtqueue) : W := io_wr w 2 (notifyAddr vq) (queueIndex vq).

(** ** Creation and release *)

(** [VirtioPciCommonCfg] *)
Definition cfg_queueSelect (cfg : Z) : Z := cfg + 22.
Definition cfg_queueSize (cfg : Z) : Z := cfg + 24.
Definition cfg_queueEnable (cfg : Z) : Z := cfg + 28.
Definition cfg_queueNotifyOff (cfg : Z) : Z := cfg + 30.
Definition cfg_queueDesc (cfg : Z) : Z := cfg + 32.
Definition cfg_queueDriver (cfg : Z) : Z := cfg + 40.
Definition cfg_queueDevice (cfg : Z) : Z := cfg + 48.

(** Where the two rings lie behind the table, and the pages for all. *)
Definition avail_offset (size : Z) : Z := Z.land (u64 (16 * size + 1)) (u64 (Z.lnot 1)).
Definition used_offset (size : Z) : Z := Z.land (u64 (avail_offset size + (4 + 2 * size + 2) + 63)) (u64 (Z.lnot 63)).
Definition queue_pages (size : Z) : Z := (used_offset size + (4 + 8 * size + 2) + PAGE_SIZE - 1) / PAGE_SIZE.

(** The chain of all descriptors. *)
Definition link_all (m : mem) vq : mem :=
  set_next (zfor 0 (queueSize vq - 1) (fun i m => set_next m vq i (i + 1)) m) vq (queueSize vq - 1) 0xFFFF.

(** [virtqueueCreate], with the registers at [cfg] and the notification area
    at [notifyBase]; [kz]: whether the queue's record can be allocated.  [None]
    is the result -1. *)
Definition virtqueueCreate (kz : Z -> bool) (w : W) (p : Pmm) (cfg notifyBase notifyOffMultiplier queueIdx : Z) : W * Pmm * option Virtqueue :=
  let w1 := io_wr w 2 (cfg_queueSelect cfg) queueIdx in
  let '(w2, size) := io_rd w1 2 (cfg_queueSize cfg) in
  if size =? 0 then (w2, p, None)
  else
    let pageCount := queue_pages size in
    let '(p1, base) := pmm_alloc_frames p pageCount in
    if base =? 0 then (w2, p1, None)
    else
      let virtBase := u64 (base + HHDM_BASE) in
      let w3 := upd w2 (fun m => (memset m virtBase 0 (pageCount * PAGE_SIZE)).1) in
      if negb (kz 72) then (w3, pmm_free_frames p1 base pageCount, None)
      else
        let '(w4, notifyOffset) := io_rd (upd w3 (fun m => link_all m
            (mkVq queueIdx size size 0 0 base pageCount virtBase (virtBase + avail_offset size) (virtBase + used_offset size) 0)))
            2 (cfg_queueNotifyOff cfg) in
        let vq := mkVq queueIdx size size 0 0 base pageCount virtBase (virtBase + avail_offset size) (virtBase + used_offset size)
          (u64 (notifyBase + u32 (notifyOffset * notifyOffMultiplier))) in
        let w5 := io_wr w4 8 (cfg_queueDesc cfg) base in
        let w6 := io_wr w5 8 (cfg_queueDriver cfg) (base + avail_offset size) in
        let w7 := io_wr w6 8 (cfg_queueDevice cfg) (base + used_offset size) in
        let w8 := io_wr w7 2 (cfg_queueSize cfg) size in
        let w9 := io_wr w8 2 (cfg_queueEnable cfg) 1 in
        (w9, p1, Some vq).
End Poll.

Definition virtqueueDestroy (p : Pmm) (vq : option Virtqueue) : Pmm :=
  match vq with
  | None => p
  | Some q => if negb (physBase q =? 0) && (0 <? vq_pageCount q) then pmm_free_frames p (physBase q) (vq_pageCount q) else p
  end.
