(* ===== verification/VirtqProps.v ===== *)
(** * Theorems on virtqueues

    The descriptors of a queue are at any time split between the list of
    free ones, the chains the device works on and the chains it has
    finished; what the driver has published and the device has not fetched
    is never overwritten. *)

From Stdlib Require Import ZArith Lia Bool.
From stdpp Require Import base list gmap.
From S2P Require Import Prelude Mem Str Pmm Machine Virtqueue.

(** ** Chains *)
Section Chains.
Context (m : mem) (vq : Virtqueue).

(** The descriptors linked from [start]; 0xFFFF ends the list. *)
Fixpoint lseg (start : Z) (l : list Z) : Prop :=
  match l with
  | [] => start = 0xFFFF
  | i :: r => start = i /\ lseg (d_next m vq i) r
  end.

Definition more (i : Z) : bool := has (d_flags m vq i) VIRTQ_DESC_F_NEXT.

(** A chain as the flags spell it. *)
Fixpoint is_chain (c : list Z) : Prop :=
  match c with
  | [] => False
  | i :: r => match r with
              | [] => more i = false
              | j :: _ => more i = true /\ d_next m vq i = j /\ is_chain r
              end
  end.

(** The buffers a device finds that follows the chain from [i]. *)
Definition desc_buf (i : Z) : VirtqBuf :=
  mkBuf (d_addr m vq i) (d_len m vq i) (if has (d_flags m vq i) VIRTQ_DESC_F_WRITE then 1 else 0).

Fixpoint device_chain (fuel : nat) (i : Z) : option (list VirtqBuf) :=
  match fuel with
  | O => None
  | S k => if more i then cons (desc_buf i) <$> device_chain k (d_next m vq i) else Some [desc_buf i]
  end.
End Chains.

Definition head (c : list Z) : Z := default 0 (c !! 0%nat).

Record Ghost := mkGhost {
  g_free : list Z;              (** free descriptors, in list order *)
  g_flight : list (list Z);     (** chains given to the device *)
  g_done : list (list Z);       (** finished chains not yet taken back *)
  g_pend : list Z               (** published heads the device has not fetched *)
}.

(** Where the parts of a queue lie. *)
Record vq_placed (vq : Virtqueue) : Prop := {
  vp_size : 0 < queueSize vq < 2 ^ 16;
  vp_pow : 2 ^ 16 mod queueSize vq = 0;
  vp_desc : 0 <= descTable vq;
  vp_avail : descTable vq + 16 * queueSize vq <= availRing vq;
  vp_used : availRing vq + 6 + 2 * queueSize vq <= usedRing vq
}.

(** The last entries of the available ring are [l]; the used ring holds, from
    [lastUsedIdx] on, the heads of the chains [l]. *)
Definition pending (m : mem) (vq : Virtqueue) (l : list Z) : Prop := forall k h, l !! k = Some h ->
  rd16 m (avail_slot vq (u16 (avail_idx m vq - Z.of_nat (length l) + Z.of_nat k) mod queueSize vq)) = h.
Definition finished (m : mem) (vq : Virtqueue) (l : list (list Z)) : Prop :=
  used_idx m vq = u16 (lastUsedIdx vq + Z.of_nat (length l)) /\
  forall k c, l !! k = Some c -> rd32 m (used_slot vq (u16 (lastUsedIdx vq + Z.of_nat k) mod queueSize vq)) = head c.

Record vq_inv (m : mem) (vq : Virtqueue) (g : Ghost) : Prop := {
  vi_placed : vq_placed vq;
  vi_free : lseg m vq (freeHead vq) (g_free g);
  vi_num : numFree vq = Z.of_nat (length (g_free g));
  vi_chains : Forall (is_chain m vq) (g_flight g ++ g_done g);
  vi_all : g_free g ++ concat (g_flight g ++ g_done g) ≡ₚ seqZ 0 (queueSize vq);
  vi_last : 0 <= lastUsedIdx vq < 2 ^ 16;
  vi_done : finished m vq (g_done g);
  vi_heads : g_pend g ⊆+ (head <$> g_flight g);
  vi_pend : pending m vq (g_pend g)
}.

(** ** What memory accesses leave alone *)
Section Frame.
Context (vq : Virtqueue).
Implicit Types (m : mem) (i j : Z) (l c : list Z).

Definition same_desc m m' i : Prop := agree m m' (desc vq i) 16.

Lemma same_next m m' i : same_desc m m' i -> d_next m' vq i = d_next m vq i.
Proof. intros S. unfold d_next, rd16. apply (agree_rd m m' _ 2 _ 16 S); lia. Qed.
Lemma same_flags m m' i : same_desc m m' i -> d_flags m' vq i = d_flags m vq i.
Proof. intros S. unfold d_flags, rd16. apply (agree_rd m m' _ 2 _ 16 S); lia. Qed.
Lemma same_buf m m' i : same_desc m m' i -> desc_buf m' vq i = desc_buf m vq i.
Proof.
  intros S. unfold desc_buf. rewrite (same_flags m m') by done. f_equal.
  - apply (agree_rd m m' _ 8 _ 16 S); lia.
  - apply (agree_rd m m' _ 4 _ 16 S); lia.
Qed.

Lemma lseg_same m m' l : forall s, (forall i, i ∈ l -> d_next m' vq i = d_next m vq i) -> lseg m vq s l -> lseg m' vq s l.
Proof.
  induction l as [|i l IH]; intros s E; [done|]. cbn [lseg]. intros [-> H]. split; [done|].
  rewrite E by left. apply IH; [|done]. intros j Hj. apply E. by right.
Qed.

Lemma is_chain_same m m' c : (forall i, i ∈ c -> same_desc m m' i) -> is_chain m vq c -> is_chain m' vq c.
Proof.
  induction c as [|i c IH]; [done|]. intros E. cbn [is_chain].
  assert (Hi : same_desc m m' i) by (apply E; left). unfold more. rewrite (same_flags m m') by done.
  destruct c as [|j c]; [done|]. rewrite (same_next m m') by done. intros (H1 & H2 & H3).
  split_and!; [done|done|]. apply IH; [|done]. intros k Hk. apply E. by right.
Qed.

Lemma same_wr_ne m k a v i : a + Z.of_nat k <= desc vq i \/ desc vq i + 16 <= a -> same_desc m (wr k m a v) i.
Proof. apply agree_wr. Qed.

Lemma same_desc_trans m1 m2 m3 i : same_desc m1 m2 i -> same_desc m2 m3 i -> same_desc m1 m3 i.
Proof. apply mem_agree_trans. Qed.

(** Writes inside of a descriptor leave the others alone. *)
Lemma same_wr_other m k o v i j : i <> j -> 0 <= o -> o + Z.of_nat k <= 16 -> same_desc m (wr k m (desc vq i + o) v) j.
Proof. intros Hne H1 H2. apply same_wr_ne. unfold desc. lia. Qed.

Lemma set_next_other m i j v : i <> j -> same_desc m (set_next m vq i v) j.
Proof. intros Hne. apply same_wr_other; [done|lia|lia]. Qed.

Lemma set_next_next m i v : 0 <= v < 2 ^ 16 -> d_next (set_next m vq i v) vq i = v.
Proof. intros Hv. by apply rd16_wr16_same. Qed.

Lemma set_next_flags m i v : d_flags (set_next m vq i v) vq i = d_flags m vq i.
Proof. unfold d_flags, set_next, rd16, wr16. apply rd_wr_disj. lia. Qed.

Lemma set_next_buf m i v : desc_buf (set_next m vq i v) vq i = desc_buf m vq i.
Proof.
  unfold desc_buf. rewrite set_next_flags. f_equal; unfold d_addr, d_len, set_next, rd64, rd32, wr16; apply rd_wr_disj; lia.
Qed.

(** Filling a descriptor. *)
Definition buf_ok (b : VirtqBuf) : Prop := is_u64 (physAddr b) /\ 0 <= buf_len b < 2 ^ 32 /\ (buf_write b = 0 \/ buf_write b = 1).

Lemma fill_desc_other m i b mo j : i <> j -> same_desc m (fill_desc m vq i b mo) j.
Proof.
  intros Hne. unfold fill_desc. set (m1 := wr64 m (desc vq i) _). set (m2 := wr32 m1 _ _). set (m3 := wr16 m2 _ _).
  assert (same_desc m m3 j).
  { apply same_desc_trans with m2; [|apply same_wr_other; [done|lia|lia]]. apply same_desc_trans with m1; [|apply same_wr_other; [done|lia|lia]].
    unfold m1, wr64. replace (desc vq i) with (desc vq i + 0) by lia. apply same_wr_other; [done|lia|lia]. }
  destruct mo; [|done]. apply same_desc_trans with m3; [done|]. apply same_wr_other; [done|lia|lia].
Qed.

Lemma fill_desc_outside m i b mo x : ~ desc vq i <= x < desc vq i + 16 -> rd8 (fill_desc m vq i b mo) x = rd8 m x.
Proof.
  intros Hx. unfold fill_desc, wr64, wr32, wr16. destruct mo; rewrite !rd8_wr;
    repeat (match goal with |- context[?a <=? ?b] => destruct (Z.leb_spec a b) | |- context[?a <? ?b] => destruct (Z.ltb_spec a b) end; cbn [andb]); done || lia.
Qed.

Lemma fill_desc_next m i b mo : d_next (fill_desc m vq i b mo) vq i = d_next m vq i.
Proof.
  unfold fill_desc, d_next, rd16, wr64, wr32, wr16. destruct mo; repeat (rewrite rd_wr_disj by lia); done.
Qed.

Lemma fill_desc_flags m i b mo : d_flags (fill_desc m vq i b mo) vq i =
  (if negb (buf_write b =? 0) then 2 else 0) + (if mo then 1 else 0).
Proof.
  unfold fill_desc. set (m2 := wr32 _ _ _). set (f := if negb _ then _ else _).
  assert (Hf : f = 2 \/ f = 0) by (unfold f, VIRTQ_DESC_F_WRITE; destruct (buf_write b =? 0); cbn [negb]; lia).
  assert (E : d_flags (wr16 m2 (desc vq i + 12) f) vq i = f) by (apply rd16_wr16_same; lia).
  change (if negb (buf_write b =? 0) then 2 else 0) with f. destruct mo; [|rewrite E; lia].
  rewrite E. unfold d_flags. rewrite rd16_wr16_same; [|destruct Hf as [-> | ->]; vm_compute; split; congruence].
  destruct Hf as [-> | ->]; done.
Qed.

Lemma fill_desc_more m i b mo : more (fill_desc m vq i b mo) vq i = mo.
Proof. unfold more. rewrite fill_desc_flags. destruct (negb _), mo; done. Qed.

Lemma fill_desc_buf m i b mo : buf_ok b -> desc_buf (fill_desc m vq i b mo) vq i = b.
Proof.
  intros (H1 & H2 & H3). unfold desc_buf. rewrite fill_desc_flags. destruct b as [pa ln wr]. cbn [physAddr buf_len buf_write] in *.
  f_equal.
  - unfold d_addr, fill_desc, rd64, wr64, wr32, wr16. cbn [physAddr buf_len buf_write].
    destruct mo; repeat (rewrite rd_wr_disj by lia); by apply rd64_wr64_same.
  - unfold d_len, fill_desc, rd32, wr64, wr32, wr16. cbn [physAddr buf_len buf_write].
    destruct mo; repeat (rewrite rd_wr_disj by lia); by apply rd32_wr32_same.
  - destruct H3 as [-> | ->], mo; done.
Qed.
End Frame.

(** ** Submission *)
Section Submit.
Context (vq : Virtqueue).

(** The chain that the loop over the buffers builds from the first free
    descriptors. *)
Lemma fill_chain_ok bufs : forall m l s p, Forall buf_ok bufs -> lseg m vq s l -> NoDup l -> (length bufs <= length l)%nat ->
  let c := take (length bufs) l in
  let '(m1, curr, prev) := fill_chain m vq bufs s p in
  lseg m1 vq curr (drop (length bufs) l) /\ prev = default p (last c) /\
  (forall x, (forall i, i ∈ c -> ~ desc vq i <= x < desc vq i + 16) -> rd8 m1 x = rd8 m x) /\
  (forall i, d_next m1 vq i = d_next m vq i) /\
  desc_buf m1 vq <$> c = bufs /\ (bufs <> [] -> is_chain m1 vq c).
Proof.
  induction bufs as [|b bufs IH]; intros m l s p Hb Hs Hn Hl.
  { cbn [length take drop fill_chain]. split_and!; try done. }
  destruct l as [|i l]; [cbn [length] in Hl; lia|]. cbn [length take drop fill_chain] in *. destruct Hs as [-> Hs].
  apply Forall_cons in Hb as [Hb Hbs]. apply NoDup_cons in Hn as [Hni Hn].
  set (mo := match bufs with [] => false | _ => true end). set (m1 := fill_desc m vq i b mo).
  assert (Hnx : forall j, d_next m1 vq j = d_next m vq j).
  { intros j. destruct (Z.eq_dec i j) as [->|Hne]; [apply fill_desc_next|apply same_next, fill_desc_other; done]. }
  assert (Hs1 : lseg m1 vq (d_next m1 vq i) l) by (rewrite Hnx; apply (lseg_same vq m m1); [auto|done]).
  specialize (IH m1 l (d_next m1 vq i) i Hbs Hs1 Hn ltac:(lia)). cbn zeta in IH |- *.
  destruct (fill_chain m1 vq bufs (d_next m1 vq i) i) as [[m2 curr] prev] eqn:E2. destruct IH as (I1 & I2 & I3 & I4 & I5 & I6).
  assert (Hsi : same_desc vq m1 m2 i).
  { intros x Hx. apply I3. intros j Hj. assert (j <> i). { intros ->. apply Hni. by eapply elem_of_take in Hj as (k & Hk%list_elem_of_lookup_2 & _). }
    unfold desc in *. lia. }
  split_and!; [done| | | | |].
  - rewrite I2. destruct (take (length bufs) l) as [|j r]; [done|]. cbn [last]. by destruct (last (j :: r)) eqn:El; [|apply last_None in El].
  - intros x Hx. rewrite I3 by (intros j Hj; apply Hx; by right). apply fill_desc_outside. apply Hx. left.
  - intros j. by rewrite I4.
  - cbn [fmap list_fmap]. rewrite I5. f_equal. rewrite (same_buf vq m1 m2) by done. by apply fill_desc_buf.
  - intros _. destruct bufs as [|b2 bufs].
    + cbn [length take is_chain]. unfold more. rewrite (same_flags vq m1 m2) by done. apply (fill_desc_more vq m i b false).
    + destruct l as [|j l]; [cbn [length] in Hl; lia|]. specialize (I6 ltac:(done)). cbn [length take] in *.
      cbn [is_chain]. split_and!; [|rewrite I4; exact (proj1 Hs1)|done].
      unfold more. rewrite (same_flags vq m1 m2) by done. apply (fill_desc_more vq m i b true).
Qed.

Lemma chain_device m c : forall n, is_chain m vq c -> (length c <= n)%nat -> device_chain m vq n (head c) = Some (desc_buf m vq <$> c).
Proof.
  induction c as [|i c IH]; intros n Hc Hn; [done|]. destruct n as [|n]; [cbn [length] in Hn; lia|].
  cbn [device_chain]. change (head (i :: c)) with i. cbn [is_chain] in Hc. destruct c as [|j c].
  - by rewrite Hc.
  - destruct Hc as (H1 & H2 & H3). rewrite H1, H2. change j with (head (j :: c)). rewrite IH; [done|done|cbn [length] in *; lia].
Qed.

(** Changing the link of the last descriptor does not change the chain. *)
Lemma is_chain_last m c t v : is_chain m vq c -> NoDup c -> last c = Some t -> is_chain (set_next m vq t v) vq c.
Proof.
  induction c as [|i c IH]; [done|]. intros Hc Hn Hl. apply NoDup_cons in Hn as [Hi Hn]. cbn [is_chain] in *. destruct c as [|j c].
  - cbn in Hl. simplify_eq. unfold more. by rewrite set_next_flags.
  - destruct Hc as (H1 & H2 & H3). rewrite last_cons_cons in Hl.
    assert (Hti : t <> i). { intros ->. apply Hi. rewrite last_lookup in Hl. by eapply list_elem_of_lookup_2. }
    unfold more. rewrite (same_flags vq m), (same_next vq m) by by apply set_next_other. split_and!; [done|done|auto].
Qed.

End Submit.

Lemma mod_mod_pow a n : 0 < n -> 2 ^ 16 mod n = 0 -> u16 a mod n = a mod n.
Proof.
  intros Hn Hd. unfold u16. apply Z.mod_divide in Hd as [k Hk]; [|lia].
  rewrite (Z.div_mod a (2 ^ 16)) at 2 by lia. rewrite Hk at 2.
  replace (k * n * (a / 2 ^ 16) + a mod 2 ^ 16) with (a mod 2 ^ 16 + (k * (a / 2 ^ 16)) * n) by ring. by rewrite Z.mod_add by lia.
Qed.

Lemma mod_shift_ne a d n : 0 < d < n -> (a - d) mod n <> a mod n.
Proof.
  intros Hd E. assert (Hz : ((a - d) - a) mod n = 0). { rewrite Zminus_mod, E, Z.sub_diag. apply Z.mod_0_l. lia. }
  replace (a - d - a) with (- d) in Hz by lia. apply Z.mod_opp_l_z in Hz; [|lia].
  rewrite Z.opp_involutive, Z.mod_small in Hz by lia. lia.
Qed.

Lemma u16_shift a j : u16 (u16 a + j) = u16 (a + j).
Proof. unfold u16. apply Zplus_mod_idemp_l. Qed.

Lemma chains_length m vq l : Forall (is_chain m vq) l -> (length l <= length (concat l))%nat.
Proof.
  induction 1 as [|c l Hc _ IH]; [done|]. cbn [concat length]. rewrite length_app. destruct c; [done|]. cbn [length]. lia.
Qed.

(** ** Consequences of the invariant *)
Section Inv.
Context {m : mem} {vq : Virtqueue} {g : Ghost}.
Context (I : vq_inv m vq g).

Lemma inv_nodup : NoDup (g_free g ++ concat (g_flight g ++ g_done g)).
Proof. rewrite (vi_all _ _ _ I). apply NoDup_seqZ. Qed.

Lemma inv_index i : i ∈ g_free g ++ concat (g_flight g ++ g_done g) <-> 0 <= i < queueSize vq.
Proof. rewrite (vi_all _ _ _ I), elem_of_seqZ. lia. Qed.

Lemma inv_count : Z.of_nat (length (g_free g)) + Z.of_nat (length (concat (g_flight g ++ g_done g))) = queueSize vq.
Proof.
  pose proof (vp_size _ (vi_placed _ _ _ I)). rewrite <- Nat2Z.inj_add, <- length_app, (vi_all _ _ _ I), length_seqZ. lia.
Qed.

Lemma inv_flight : Z.of_nat (length (g_free g)) + Z.of_nat (length (g_flight g)) + Z.of_nat (length (g_done g)) <= queueSize vq.
Proof.
  pose proof inv_count. pose proof (chains_length _ _ _ (vi_chains _ _ _ I)) as Hc. rewrite length_app in Hc. lia.
Qed.

Lemma inv_pend : Z.of_nat (length (g_free g)) + Z.of_nat (length (g_pend g)) <= queueSize vq.
Proof.
  pose proof inv_flight. pose proof (submseteq_length _ _ (vi_heads _ _ _ I)) as Hp. rewrite length_fmap in Hp. lia.
Qed.

Lemma inv_ring_desc k a v i : availRing vq <= a -> 0 <= i < queueSize vq -> same_desc vq m (wr k m a v) i.
Proof. intros Ha Hi. apply same_wr_ne. pose proof (vp_avail _ (vi_placed _ _ _ I)). unfold desc. lia. Qed.
End Inv.

Definition taken (g : Ghost) (n : nat) : Ghost :=
  mkGhost (drop n (g_free g)) (g_flight g ++ [take n (g_free g)]) (g_done g) (g_pend g ++ [head (take n (g_free g))]).

(** The bytes of the table and of the available ring. *)
Definition driver_area (vq : Virtqueue) (x : Z) : Prop :=
  descTable vq <= x < descTable vq + 16 * queueSize vq \/ availRing vq <= x < availRing vq + 6 + 2 * queueSize vq.

Lemma rd8_wr16 m a v x : ~ a <= x < a + 2 -> rd8 (wr16 m a v) x = rd8 m x.
Proof.
  intros Hx. unfold wr16. rewrite rd8_wr. destruct (Z.leb_spec a x), (Z.ltb_spec x (a + Z.of_nat 2)); cbn [andb]; done || lia.
Qed.

(** Publishing a head: the entry and the index of the available ring. *)
Definition publish (m : mem) vq (h : Z) : mem :=
  wr16 (wr16 m (avail_slot vq (avail_idx m vq mod queueSize vq)) h) (availRing vq + 2) (u16 (avail_idx m vq + 1)).

Lemma publish_outside m vq h x : 0 < queueSize vq -> ~ availRing vq <= x < availRing vq + 6 + 2 * queueSize vq -> rd8 (publish m vq h) x = rd8 m x.
Proof.
  intros Hs Hx. pose proof (Z.mod_pos_bound (avail_idx m vq) (queueSize vq) ltac:(lia)). unfold publish.
  rewrite !rd8_wr16; [done| |]; unfold avail_slot; lia.
Qed.

Lemma publish_idx m vq h : avail_idx (publish m vq h) vq = u16 (avail_idx m vq + 1).
Proof. apply rd16_wr16_same, u16_range. Qed.

Lemma publish_slot m vq h j : 0 < queueSize vq -> 0 <= h < 2 ^ 16 -> 0 <= j ->
  rd16 (publish m vq h) (avail_slot vq j) = if j =? avail_idx m vq mod queueSize vq then h else rd16 m (avail_slot vq j).
Proof.
  intros Hs Hh Hj. unfold publish. set (k := avail_idx m vq mod queueSize vq). assert (0 <= k) by (apply Z.mod_pos_bound; lia).
  unfold rd16 at 1, wr16 at 1. rewrite rd_wr_disj by (unfold avail_slot; lia). destruct (Z.eqb_spec j k) as [->|Hne].
  - by apply rd16_wr16_same.
  - apply rd_wr_disj. unfold avail_slot. lia.
Qed.

Lemma pending_same m m' vq l : 0 < queueSize vq -> agree m m' (availRing vq) (6 + 2 * queueSize vq) -> pending m vq l -> pending m' vq l.
Proof.
  intros Hs Ha Hp k h Hk. rewrite <- (Hp k h Hk). assert (E : avail_idx m' vq = avail_idx m vq) by (apply (agree_rd m m' _ 2 _ _ Ha); lia).
  rewrite E. set (j := u16 _). pose proof (Z.mod_pos_bound j (queueSize vq) ltac:(lia)). apply (agree_rd m m' _ 2 _ _ Ha); unfold avail_slot; lia.
Qed.

Lemma finished_same m m' vq l : 0 < queueSize vq -> agree m m' (usedRing vq) (6 + 8 * queueSize vq) -> finished m vq l -> finished m' vq l.
Proof.
  intros Hs Ha [Hi Hf]. split; [rewrite <- Hi; apply (agree_rd m m' _ 2 _ _ Ha); lia|].
  intros k c Hk. rewrite <- (Hf k c Hk). set (j := u16 _). pose proof (Z.mod_pos_bound j (queueSize vq) ltac:(lia)).
  apply (agree_rd m m' _ 4 _ _ Ha); unfold used_slot; lia.
Qed.

(** Publishing keeps what was pending while the ring has room. *)
Lemma publish_pending m vq h l : vq_placed vq -> Z.of_nat (length l) < queueSize vq -> 0 <= h < 2 ^ 16 -> pending m vq l ->
  pending (publish m vq h) vq (l ++ [h]).
Proof.
  intros P Hl Hh Hp k x Hk. pose proof (vp_size _ P) as Hs. rewrite publish_idx, length_app. cbn [length].
  set (a := avail_idx m vq). set (L := Z.of_nat (length l)).
  replace (u16 (a + 1) - Z.of_nat (length l + 1) + Z.of_nat k) with (u16 (a + 1) + (Z.of_nat k - L - 1)) by lia.
  rewrite u16_shift, mod_mod_pow by (apply P || lia). replace (a + 1 + (Z.of_nat k - L - 1)) with (a - (L - Z.of_nat k)) by lia.
  rewrite publish_slot by (done || lia || (apply Z.mod_pos_bound; lia)). fold a.
  apply lookup_app_Some in Hk as [Hk|[Hge Hk]].
  - pose proof (lookup_lt_Some _ _ _ Hk). destruct (Z.eqb_spec ((a - (L - Z.of_nat k)) mod queueSize vq) (a mod queueSize vq)) as [Eq|_].
    { exfalso. revert Eq. apply mod_shift_ne. lia. }
    rewrite <- (Hp k x Hk), mod_mod_pow by (apply P || lia). do 3 f_equal. unfold a, L. lia.
  - apply list_lookup_singleton_Some in Hk as [Hk <-]. replace (a - (L - Z.of_nat k)) with a by lia. by rewrite Z.eqb_refl.
Qed.

Lemma chains_same m m' vq l : (forall i, i ∈ concat l -> same_desc vq m m' i) -> Forall (is_chain m vq) l -> Forall (is_chain m' vq) l.
Proof.
  intros Hs Hl. rewrite Forall_forall in Hl |- *. intros d Hd. apply (is_chain_same vq m); [|by apply Hl]. intros i Hi. apply Hs.
  apply list_elem_of_In, in_concat. exists d. split; by apply list_elem_of_In.
Qed.

Lemma submit_eq m vq bufs : bufs <> [] -> Z.of_nat (length bufs) <= numFree vq -> Z.of_nat (length bufs) <= queueSize vq ->
  virtqueueSubmitSg m vq bufs =
  let '(m1, curr, prev) := fill_chain m vq bufs (freeHead vq) 0xFFFF in
  (publish (set_next m1 vq prev 0xFFFF) vq (freeHead vq), set_free vq (u16 (numFree vq - u16 (Z.of_nat (length bufs)))) curr, 0).
Proof.
  intros Hb Hn Hq. unfold virtqueueSubmitSg. destruct (Z.eqb_spec (Z.of_nat (length bufs)) 0); [destruct bufs; [done|cbn [length] in *; lia]|].
  destruct (Z.ltb_spec (queueSize vq) (Z.of_nat (length bufs))); [lia|]. destruct (Z.ltb_spec (numFree vq) (Z.of_nat (length bufs))); [lia|]. done.
Qed.

(** The table after the chain is built. *)
Lemma build_chain_ok m vq g bufs (n := length bufs) : vq_inv m vq g -> Forall buf_ok bufs -> bufs <> [] -> (n <= length (g_free g))%nat ->
  exists m2 curr prev, (let '(m1, curr, prev) := fill_chain m vq bufs (freeHead vq) 0xFFFF in (set_next m1 vq prev 0xFFFF, curr, prev)) = (m2, curr, prev) /\
    lseg m2 vq curr (drop n (g_free g)) /\ is_chain m2 vq (take n (g_free g)) /\ desc_buf m2 vq <$> take n (g_free g) = bufs /\
    (forall x, (forall i, i ∈ take n (g_free g) -> ~ desc vq i <= x < desc vq i + 16) -> rd8 m2 x = rd8 m x).
Proof.
  intros I Hb Hne Hn. pose proof (inv_nodup I) as Hd. apply NoDup_app in Hd as (Hd & _ & _).
  pose proof (fill_chain_ok vq bufs m (g_free g) (freeHead vq) 0xFFFF Hb (vi_free _ _ _ I) Hd Hn) as F. cbn zeta in F.
  destruct (fill_chain m vq bufs (freeHead vq) 0xFFFF) as [[m1 curr] prev] eqn:E. destruct F as (F1 & F2 & F3 & F4 & F5 & F6).
  fold n in F1, F2, F3, F5, F6. specialize (F6 Hne). set (c := take n (g_free g)) in *.
  assert (Hcd : NoDup (c ++ drop n (g_free g))) by (unfold c; by rewrite take_drop).
  apply NoDup_app in Hcd as (Hc & Hdis & _).
  destruct (last c) as [t|] eqn:El; [|apply last_None in El; rewrite El in F6; done].
  cbn [default] in F2. subst prev. assert (Ht : t ∈ c) by (rewrite last_lookup in El; by eapply list_elem_of_lookup_2).
  exists (set_next m1 vq t 0xFFFF), curr, t. split; [done|]. split_and!.
  - apply (lseg_same vq m1); [|done]. intros i Hi. apply same_next, set_next_other. intros ->. by apply (Hdis i).
  - by apply is_chain_last.
  - rewrite <- F5. apply list_fmap_ext. intros k i Hk. destruct (Z.eq_dec i t) as [->|Hi]; [apply set_next_buf|].
    apply same_buf, set_next_other. done.
  - intros x Hx. rewrite <- F3 by done. unfold set_next. apply rd8_wr16. specialize (Hx t Ht). lia.
Qed.

Lemma perm_taken (F c r : list Z) (a b : list (list Z)) : F = c ++ r -> r ++ concat ((a ++ [c]) ++ b) ≡ₚ F ++ concat (a ++ b).
Proof.
  intros ->. rewrite !concat_app. cbn [concat]. rewrite app_nil_r. rewrite <- !app_assoc.
  rewrite (app_assoc r), (app_assoc (r ++ concat a)), (Permutation_app_comm (r ++ concat a) c).
  by rewrite <- !app_assoc.
Qed.

(** The head of the new chain and the indices of its descriptors. *)
Lemma taken_range m vq g n : vq_inv m vq g -> (0 < n <= length (g_free g))%nat ->
  freeHead vq = head (take n (g_free g)) /\ 0 <= freeHead vq < 2 ^ 16 /\
  (forall i, i ∈ take n (g_free g) -> 0 <= i < queueSize vq /\ i ∉ concat (g_flight g ++ g_done g)) /\
  (forall i, i ∈ drop n (g_free g) -> 0 <= i < queueSize vq).
Proof.
  intros I Hn. pose proof (vp_size _ (vi_placed _ _ _ I)). pose proof (inv_nodup I) as Hd. apply NoDup_app in Hd as (_ & Hd & _).
  assert (Ht : forall i, i ∈ take n (g_free g) -> i ∈ g_free g) by (intros i Hi; rewrite <- (take_drop n (g_free g)); apply elem_of_app; by left).
  assert (Hdr : forall i, i ∈ drop n (g_free g) -> i ∈ g_free g) by (intros i Hi; rewrite <- (take_drop n (g_free g)); apply elem_of_app; by right).
  assert (Hr : forall i, i ∈ g_free g -> 0 <= i < queueSize vq) by (intros i Hi; apply (inv_index I), elem_of_app; by left).
  assert (Hh : freeHead vq = head (take n (g_free g))).
  { pose proof (vi_free _ _ _ I) as Hf. destruct (g_free g) as [|i r]; [cbn [length] in Hn; lia|]. destruct n; [lia|]. apply Hf. }
  split_and!; auto.
  - assert (freeHead vq ∈ g_free g); [|specialize (Hr (freeHead vq)); naive_solver lia].
    pose proof (vi_free _ _ _ I) as Hf. destruct (g_free g) as [|i r]; [cbn [length] in Hn; lia|]. destruct Hf as [-> _]. left.
  - assert (freeHead vq ∈ g_free g); [|specialize (Hr (freeHead vq)); naive_solver lia].
    pose proof (vi_free _ _ _ I) as Hf. destruct (g_free g) as [|i r]; [cbn [length] in Hn; lia|]. destruct Hf as [-> _]. left.
Qed.

Lemma submit_ok m vq g bufs (n := length bufs) : vq_inv m vq g -> Forall buf_ok bufs -> bufs <> [] -> (n <= length (g_free g))%nat ->
  exists m' vq', virtqueueSubmitSg m vq bufs = (m', vq', 0) /\ vq_inv m' vq' (taken g n) /\
    desc_buf m' vq' <$> take n (g_free g) = bufs /\ avail_idx m' vq' = u16 (avail_idx m vq + 1) /\
    rd16 m' (avail_slot vq (avail_idx m vq mod queueSize vq)) = head (take n (g_free g)) /\
    (forall x, ~ driver_area vq x -> rd8 m' x = rd8 m x) /\
    (forall i, i ∈ concat (g_flight g ++ g_done g) -> same_desc vq m m' i) /\ exists nf h, vq' = set_free vq nf h.
Proof.
  intros I Hb Hne Hn. pose proof (vi_placed _ _ _ I) as P. pose proof (vp_size _ P) as Hs. pose proof (vp_avail _ P) as Hav. pose proof (vp_used _ P) as Hus.
  pose proof (vi_num _ _ _ I) as Hnum. pose proof (inv_count I) as Hcnt. pose proof (inv_pend I) as Hpn.
  assert (Hn0 : (0 < n)%nat) by (unfold n; destruct bufs; [done|cbn [length]; lia]).
  rewrite submit_eq by (done || fold n; lia). fold n.
  destruct (build_chain_ok m vq g bufs I Hb Hne Hn) as (m2 & curr & prev & E & B1 & B2 & B3 & B4). fold n in B1, B2, B3, B4.
  destruct (fill_chain m vq bufs (freeHead vq) 0xFFFF) as [[m1 curr'] prev']. simplify_eq.
  set (m2 := set_next m1 vq prev 0xFFFF) in *.
  destruct (taken_range m vq g n I ltac:(lia)) as (Hh & Hhr & Hci & Hdi). set (c := take n (g_free g)) in *.
  assert (Hring : forall x, availRing vq <= x -> rd8 m2 x = rd8 m x).
  { intros x Hx. apply B4. intros i Hi. destruct (Hci i Hi). unfold desc. lia. }
  assert (Hai : avail_idx m2 vq = avail_idx m vq) by (apply rd_ext; intros x Hx; apply Hring; lia).
  set (m' := publish m2 vq (freeHead vq)).
  assert (Hout : forall x, ~ availRing vq <= x < availRing vq + 6 + 2 * queueSize vq -> rd8 m' x = rd8 m2 x) by (intros; apply publish_outside; [lia|done]).
  assert (Hd2 : forall i, 0 <= i < queueSize vq -> same_desc vq m2 m' i) by (intros i Hi x Hx; apply Hout; unfold desc in Hx; lia).
  assert (Hfl : forall i, i ∈ concat (g_flight g ++ g_done g) -> same_desc vq m m' i).
  { intros i Hi. apply (same_desc_trans vq m m2); [|apply Hd2, (inv_index I), elem_of_app; by right]. intros x Hx. apply B4. intros j Hj.
    assert (i <> j) by (intros ->; by apply (Hci j)). unfold desc in *. lia. }
  exists m', (set_free vq (u16 (numFree vq - u16 (Z.of_nat n))) curr). split; [done|]. split_and!.
  - constructor; cbn [g_free g_flight g_done g_pend taken]; cbn [set_free queueSize numFree freeHead lastUsedIdx]; fold c.
    + destruct P. constructor; done.
    + apply (lseg_same vq m2); [|done]. intros i Hi. apply same_next, Hd2, Hdi, Hi.
    + rewrite length_drop, Hnum, u16_id; [|rewrite u16_id by lia; lia]. rewrite u16_id by lia. lia.
    + change (Forall (is_chain m' vq) ((g_flight g ++ [c]) ++ g_done g)). pose proof (chains_same m m' vq _ Hfl (vi_chains _ _ _ I)) as Hch.
      apply Forall_app in Hch as [Hc1 Hc2]. rewrite !Forall_app. split_and!; [done| |done].
      apply Forall_singleton. apply (is_chain_same vq m2); [|done]. intros i Hi. apply Hd2. by apply Hci.
    + rewrite (perm_taken (g_free g) c) by (symmetry; apply take_drop). apply (vi_all _ _ _ I).
    + apply (vi_last _ _ _ I).
    + apply (finished_same m m' vq); [lia| |apply (vi_done _ _ _ I)]. intros x Hx. rewrite Hout by lia. apply Hring. lia.
    + rewrite fmap_app. apply submseteq_app; [apply (vi_heads _ _ _ I)|done].
    + rewrite <- Hh. apply (publish_pending m2 vq); [done|lia|done|]. apply (pending_same m m2 vq); [lia| |apply (vi_pend _ _ _ I)].
      intros x Hx. apply Hring. lia.
  - transitivity (desc_buf m2 vq <$> c); [|done]. apply list_fmap_ext. intros k i Hk. apply (same_buf vq m2), Hd2, Hci. by eapply list_elem_of_lookup_2.
  - change (avail_idx m' vq = u16 (avail_idx m vq + 1)). unfold m'. by rewrite publish_idx, Hai.
  - unfold m'. rewrite publish_slot, Hai, Z.eqb_refl by (done || lia || (apply Z.mod_pos_bound; lia)). done.
  - intros x Hx. unfold driver_area in Hx. rewrite Hout by tauto. apply B4. intros i Hi. destruct (Hci i Hi). unfold desc. lia.
  - done.
  - eauto.
Qed.
