(* ===== verification/VirtqPoll.v ===== *)
(** * Completion of requests on a virtqueue

    What a VirtIO device does to the shared memory, as steps; the driver's
    invariant under these steps; and polling. *)

From Stdlib Require Import ZArith Lia Bool.
From stdpp Require Import base list gmap relations.
From S2P Require Import Prelude Mem Str Pmm Machine Virtqueue VirtqProps.

(** ** The device

    It fetches published heads in order; it finishes a chain it has fetched
    by an entry of the used ring and the index of that ring; and it writes
    to memory outside of the queue (the buffers).  It writes neither the
    descriptors nor the available ring. *)
Inductive dev_step (vq : Virtqueue) : mem * Ghost -> mem * Ghost -> Prop :=
| dev_fetch m g h p : g_pend g = h :: p ->
    dev_step vq (m, g) (m, mkGhost (g_free g) (g_flight g) (g_done g) p)
| dev_finish m m' g c f1 f2 : g_flight g = f1 ++ c :: f2 -> head c ∉ g_pend g ->
    (forall x, driver_area vq x -> rd8 m' x = rd8 m x) -> used_idx m' vq = u16 (used_idx m vq + 1) ->
    (forall j, 0 <= j < queueSize vq -> rd32 m' (used_slot vq j) =
       if j =? used_idx m vq mod queueSize vq then head c else rd32 m (used_slot vq j)) ->
    dev_step vq (m, g) (m', mkGhost (g_free g) (f1 ++ f2) (g_done g ++ [c]) (g_pend g))
| dev_buffers m m' g : (forall x, driver_area vq x \/ usedRing vq <= x < usedRing vq + 6 + 8 * queueSize vq -> rd8 m' x = rd8 m x) ->
    dev_step vq (m, g) (m', g).

Section Steps.
Context (vq : Virtqueue).

Lemma area_desc m m' i : (forall x, driver_area vq x -> rd8 m' x = rd8 m x) -> 0 <= i < queueSize vq -> same_desc vq m m' i.
Proof. intros Ha Hi x Hx. apply Ha. left. unfold desc in Hx. lia. Qed.

Lemma area_inv m m' g g' : vq_inv m vq g -> (forall x, driver_area vq x -> rd8 m' x = rd8 m x) ->
  g_free g' = g_free g -> concat (g_flight g' ++ g_done g') ≡ₚ concat (g_flight g ++ g_done g) ->
  (forall c, c ∈ g_flight g' ++ g_done g' -> c ∈ g_flight g ++ g_done g) ->
  finished m' vq (g_done g') -> g_pend g' ⊆+ (head <$> g_flight g') -> pending m vq (g_pend g') -> vq_inv m' vq g'.
Proof.
  intros I Ha Hf Hp Hs Hd Hh Hpe. pose proof (vi_placed _ _ _ I) as P. pose proof (vp_size _ P) as Hsz.
  assert (Hds : forall i, i ∈ g_free g ++ concat (g_flight g ++ g_done g) -> same_desc vq m m' i).
  { intros i Hi. apply area_desc; [done|]. by apply (inv_index I). }
  constructor; rewrite ?Hf; try done.
  - apply (lseg_same vq m); [|apply (vi_free _ _ _ I)]. intros i Hi. apply same_next, Hds, elem_of_app. by left.
  - apply (vi_num _ _ _ I).
  - pose proof (vi_chains _ _ _ I) as Hc. rewrite Forall_forall in Hc |- *. intros c Hcc. apply (is_chain_same vq m); [|by apply Hc, Hs].
    intros i Hi. apply Hds, elem_of_app. right. apply list_elem_of_In, in_concat. exists c. split; apply list_elem_of_In; auto.
  - rewrite Hp. apply (vi_all _ _ _ I).
  - apply (vi_last _ _ _ I).
  - apply (pending_same m m' vq); [lia| |done]. intros x Hx. apply Ha. right. lia.
Qed.

Lemma used_shift last k : u16 (u16 (last + 1) + k) = u16 (last + (k + 1)).
Proof. rewrite u16_shift. f_equal. lia. Qed.

Lemma finish_finished m m' l c : vq_placed vq -> Z.of_nat (length l) < queueSize vq -> finished m vq l ->
  used_idx m' vq = u16 (used_idx m vq + 1) ->
  (forall j, 0 <= j < queueSize vq -> rd32 m' (used_slot vq j) =
       if j =? used_idx m vq mod queueSize vq then head c else rd32 m (used_slot vq j)) ->
  finished m' vq (l ++ [c]).
Proof.
  intros P Hl [Hi Hf] Hu Hs. pose proof (vp_size _ P) as Hsz. split.
  - rewrite Hu, Hi, length_app, u16_shift. f_equal. cbn [length]. lia.
  - intros k d Hk. rewrite Hs by (apply Z.mod_pos_bound; lia). rewrite Hi, !mod_mod_pow by (apply P || lia).
    apply lookup_app_Some in Hk as [Hk|[Hge Hk]].
    + pose proof (lookup_lt_Some _ _ _ Hk). set (b := lastUsedIdx vq + Z.of_nat (length l)).
      destruct (Z.eqb_spec ((lastUsedIdx vq + Z.of_nat k) mod queueSize vq) (b mod queueSize vq)) as [E|_].
      { exfalso. revert E. replace (lastUsedIdx vq + Z.of_nat k) with (b - (Z.of_nat (length l) - Z.of_nat k)) by lia. apply mod_shift_ne. lia. }
      rewrite <- (Hf k d Hk). rewrite mod_mod_pow by (apply P || lia). done.
    + apply list_lookup_singleton_Some in Hk as [Hk <-]. replace (Z.of_nat k) with (Z.of_nat (length l)) by lia. by rewrite Z.eqb_refl.
Qed.

Lemma pending_tail m h p : pending m vq (h :: p) -> pending m vq p.
Proof.
  intros Hp k x Hk. rewrite <- (Hp (S k) x Hk). do 4 f_equal. cbn [length]. lia.
Qed.

(** Every step of the device keeps the driver's invariant. *)
Lemma dev_step_inv m g m' g' : dev_step vq (m, g) (m', g') -> vq_inv m vq g -> vq_inv m' vq g'.
Proof.
  intros Hst I. pose proof (vi_placed _ _ _ I) as P. pose proof (vp_size _ P) as Hsz. inversion Hst; subst.
  - match goal with H : g_pend g = _ |- _ => rename H into E end. pose proof (vi_heads _ _ _ I) as Hh. pose proof (vi_pend _ _ _ I) as Hp. rewrite E in Hh, Hp.
    apply (area_inv m' m' g); cbn [g_free g_flight g_done g_pend]; try done; [apply (vi_done _ _ _ I)| |by apply pending_tail in Hp].
    etrans; [|exact Hh]. apply submseteq_cons. done.
  - match goal with H : g_flight g = _ |- _ => rename H into E end.
    match goal with H : head c ∉ _ |- _ => rename H into Hc end.
    pose proof (inv_flight I) as Hl. rewrite E, length_app in Hl. cbn [length] in Hl.
    apply (area_inv m m' g); cbn [g_free g_flight g_done g_pend]; try done.
    + rewrite E, !concat_app. cbn [concat]. rewrite app_nil_r. solve_Permutation.
    + rewrite E. intros d. set_solver.
    + apply (finish_finished m); [done|lia|apply (vi_done _ _ _ I)|done|done].
    + pose proof (vi_heads _ _ _ I) as Hh. rewrite E, fmap_app in Hh. cbn [fmap list_fmap] in Hh. rewrite fmap_app.
      rewrite <- Permutation_middle in Hh. apply submseteq_cons_r in Hh as [Hh|(l & Hl' & _)]; [done|].
      exfalso. apply Hc. rewrite Hl'. left.
    + apply (vi_pend _ _ _ I).
  - apply (area_inv m m' g'); try done; [by auto| |apply (vi_heads _ _ _ I)|apply (vi_pend _ _ _ I)].
    apply (finished_same m m' vq); [lia| |apply (vi_done _ _ _ I)]. intros x Hx. match goal with H : forall x, _ \/ _ -> _ |- _ => apply H end. right. lia.
Qed.

Lemma dev_steps_inv s s' : rtc (dev_step vq) s s' -> vq_inv s.1 vq s.2 -> vq_inv s'.1 vq s'.2.
Proof. induction 1 as [|[m g] [m1 g1] s' Hst _ IH]; [done|]. intros I. apply IH. by apply (dev_step_inv m g). Qed.

(** What the device does not take away: free descriptors and finished chains. *)
Lemma dev_steps_keep s s' : rtc (dev_step vq) s s' -> g_free s'.2 = g_free s.2 /\ exists l, g_done s'.2 = g_done s.2 ++ l.
Proof.
  induction 1 as [|s s1 s' Hst _ [IH1 [l IH2]]]; [split; [done|exists []; by rewrite app_nil_r]|].
  rewrite IH1, IH2. inversion Hst; subst; cbn [fst snd g_free g_done]; split; eauto. exists (c :: l). by rewrite <- app_assoc.
Qed.
End Steps.

(** ** Taking a finished chain back *)
Section Reap.
Context (vq : Virtqueue).

Lemma chain_tail_ok m c : forall fuel k, is_chain m vq c -> (length c <= fuel)%nat -> 0 <= k -> k + Z.of_nat (length c) <= 2 ^ 16 ->
  exists t, chain_tail fuel m vq (head c) k = Some (t, k + Z.of_nat (length c) - 1) /\ last c = Some t.
Proof.
  induction c as [|i c IH]; intros fuel k Hc Hf Hk0 Hk; [done|]. destruct fuel as [|fuel]; [cbn [length] in Hf; lia|].
  cbn [chain_tail]. change (head (i :: c)) with i. cbn [is_chain length] in *. fold (more m vq i). destruct c as [|j c].
  - rewrite Hc. exists i. split; [|done]. do 2 f_equal. cbn [length]. lia.
  - destruct Hc as (-> & -> & Hc). cbn [length] in *. destruct (IH fuel (u16 (k + 1)) Hc) as (t & E & L); [cbn [length]; lia|rewrite u16_id by lia; lia..|].
    exists t. change j with (head (j :: c)). rewrite E. split; [|by rewrite last_cons_cons]. rewrite u16_id by lia. do 2 f_equal. cbn [length]. lia.
Qed.

(** A chain in front of the free list. *)
Lemma lseg_chain m c : forall F s t, is_chain m vq c -> NoDup c -> (forall i, i ∈ c -> i ∉ F) -> last c = Some t -> 0 <= s < 2 ^ 16 ->
  lseg m vq s F -> lseg (set_next m vq t s) vq (head c) (c ++ F).
Proof.
  induction c as [|i c IH]; intros F s t Hc Hn Hd Hl Hs HF; [done|]. apply NoDup_cons in Hn as [Hi Hn]. cbn [is_chain] in Hc.
  change (head (i :: c)) with i. cbn [app lseg]. split; [done|]. destruct c as [|j c].
  - cbn in Hl. simplify_eq. rewrite set_next_next by done. apply (lseg_same vq m); [|done]. intros k Hk.
    apply same_next, set_next_other. intros ->. by apply (Hd k); [left|].
  - destruct Hc as (_ & H2 & Hc). rewrite last_cons_cons in Hl.
    assert (Hti : t <> i). { intros ->. apply Hi. rewrite last_lookup in Hl. by eapply list_elem_of_lookup_2. }
    rewrite (same_next vq m) by (by apply set_next_other). rewrite H2. change j with (head (j :: c)) at 1. apply IH; try done.
    intros k Hk. apply Hd. by right.
Qed.

Definition reaped (g : Ghost) (c : list Z) (d : list (list Z)) : Ghost := mkGhost (c ++ g_free g) (g_flight g) d (g_pend g).

Definition after_reap (c : list Z) : Virtqueue :=
  set_lastUsed (set_free vq (u16 (numFree vq + Z.of_nat (length c))) (head c)) (u16 (lastUsedIdx vq + 1)).

(** The index a chain or the free list starts with. *)
Lemma free_head_range m g : vq_inv m vq g -> 0 <= freeHead vq < 2 ^ 16.
Proof.
  intros I. pose proof (vp_size _ (vi_placed _ _ _ I)). pose proof (vi_free _ _ _ I) as Hf. destruct (g_free g) as [|i r] eqn:E; cbn [lseg] in Hf; [lia|].
  destruct Hf as [-> _]. assert (0 <= i < queueSize vq); [|lia]. apply (inv_index I). rewrite E. left.
Qed.

Lemma inv_reap m g c d t : vq_inv m vq g -> g_done g = c :: d -> last c = Some t ->
  vq_inv (set_next m vq t (freeHead vq)) (after_reap c) (reaped g c d).
Proof.
  intros I Ed Hl. pose proof (vi_placed _ _ _ I) as P. pose proof (vp_size _ P) as Hs. pose proof (vp_avail _ P). pose proof (vp_used _ P).
  pose proof (inv_nodup I) as Hn. pose proof (vi_chains _ _ _ I) as Hc. pose proof (inv_count I) as Hcnt.
  rewrite Ed, concat_app in Hn, Hcnt. cbn [concat] in Hn, Hcnt. rewrite !length_app in Hcnt.
  assert (Hcc : is_chain m vq c) by (rewrite Forall_forall in Hc; apply Hc; rewrite Ed; set_solver).
  assert (Ht : t ∈ c) by (rewrite last_lookup in Hl; by eapply list_elem_of_lookup_2).
  assert (Htr : 0 <= t < queueSize vq). { apply (inv_index I). rewrite Ed, concat_app. cbn [concat]. set_solver. }
  assert (Hn' : NoDup (c ++ g_free g ++ concat (g_flight g) ++ concat d)).
  { eapply NoDup_Permutation_proper; [|exact Hn]. solve_Permutation. }
  apply NoDup_app in Hn' as (Hnc & Hdis & _). assert (Hds : forall i, i ∉ c -> same_desc vq m (set_next m vq t (freeHead vq)) i).
  { intros i Hi. apply set_next_other. intros ->. done. }
  constructor; cbn [reaped g_free g_flight g_done g_pend]; unfold after_reap; cbn [set_lastUsed set_free queueSize numFree freeHead lastUsedIdx].
  - destruct P. constructor; done.
  - change (lseg (set_next m vq t (freeHead vq)) vq (head c) (c ++ g_free g)). apply lseg_chain; try done.
    + intros i Hi Hf. apply (Hdis i Hi). set_solver.
    + by apply (free_head_range m g).
    + apply (vi_free _ _ _ I).
  - rewrite (vi_num _ _ _ I), length_app, u16_id; lia.
  - change (Forall (is_chain (set_next m vq t (freeHead vq)) vq) (g_flight g ++ d)). apply (chains_same m).
    + intros i Hi. apply Hds. intros Hic. apply (Hdis i Hic). rewrite concat_app in Hi. set_solver.
    + rewrite Ed in Hc. rewrite Forall_app in Hc |- *. destruct Hc as [? Hc]. apply Forall_cons in Hc as [_ ?]. done.
  - rewrite <- (vi_all _ _ _ I), Ed, !concat_app. cbn [concat]. solve_Permutation.
  - apply u16_range.
  - pose proof (finished_same m (set_next m vq t (freeHead vq)) vq (g_done g) ltac:(lia)) as Hf. destruct Hf as [F1 F2].
    { apply agree_wr. unfold desc. lia. } { apply (vi_done _ _ _ I). }
    rewrite Ed in F1, F2. split.
    + change (used_idx (set_next m vq t (freeHead vq)) vq = u16 (u16 (lastUsedIdx vq + 1) + Z.of_nat (length d))). rewrite F1, used_shift. cbn [length]. f_equal. lia.
    + intros k x Hk. rewrite <- (F2 (S k) x Hk). cbn [set_lastUsed set_free queueSize lastUsedIdx]. rewrite used_shift. do 4 f_equal. lia.
  - apply (vi_heads _ _ _ I).
  - apply (pending_same m _ vq); [lia| |apply (vi_pend _ _ _ I)]. apply agree_wr. unfold desc. lia.
Qed.
End Reap.

(** ** Polling *)

(** The parts of a queue that never change. *)
Definition place (vq : Virtqueue) : Virtqueue := set_lastUsed (set_free vq 0 0) 0.

Section Poll.
Context {W : Type} `{Machine W} `{!MachineLaws W}.
Implicit Types (w : W) (g : Ghost).

(** A device on the queue at [q] whose own state agrees with [g] when [R w g]:
    while time passes it takes steps, and the driver may change the links of
    descriptors that the device does not hold. *)
Record virtio_device (q : Virtqueue) (R : W -> Ghost -> Prop) : Prop := {
  vd_acts : forall vq w g, place vq = q -> vq_inv (mm w) vq g -> R w g ->
    exists g', rtc (dev_step vq) (mm w, g) (mm (elapse w), g') /\ R (elapse w) g';
  vd_links : forall w g t v F d, R w g -> 0 <= t < queueSize q -> t ∉ concat (g_flight g) ->
    R (set_mm w (set_next (mm w) q t v)) (mkGhost F (g_flight g) d (g_pend g))
}.

(** The clock does not go back, and gains a millisecond in [k] readings. *)
Record clock_runs (k : nat) : Prop := {
  ck_mono : forall w, millis w <= millis (elapse w) <= millis w + 2 ^ 32;
  ck_gain : forall w, millis w + 1 <= millis (Nat.iter k elapse w)
}.

Context (q : Virtqueue) (R : W -> Ghost -> Prop) (D : virtio_device q R).

Lemma elapse_ok vq w g : place vq = q -> vq_inv (mm w) vq g -> R w g ->
  exists g' l, vq_inv (mm (elapse w)) vq g' /\ R (elapse w) g' /\ g_free g' = g_free g /\ g_done g' = g_done g ++ l.
Proof.
  intros Hq I HR. destruct (vd_acts q R D vq w g Hq I HR) as (g' & Hst & HR').
  destruct (dev_steps_keep vq _ _ Hst) as [E1 [l E2]]. exists g', l. split_and!; try done.
  by apply (dev_steps_inv vq _ _ Hst).
Qed.

Lemma used_read vq w g : vq_inv (mm w) vq g -> (lastUsedIdx vq =? used_idx (mm w) vq) = true <-> g_done g = [].
Proof.
  intros I. pose proof (vi_last _ _ _ I). pose proof (inv_flight I). pose proof (vp_size _ (vi_placed _ _ _ I)). destruct (vi_done _ _ _ I) as [-> _].
  rewrite Z.eqb_eq. split.
  - intros E. destruct (g_done g) as [|c d]; [done|]. exfalso. cbn [length] in *. unfold u16 in E.
    assert (0 < Z.of_nat (S (length d)) < 2 ^ 16) as Hd by lia. symmetry in E.
    apply (mod_shift_ne (lastUsedIdx vq + Z.of_nat (S (length d))) (Z.of_nat (S (length d))) (2 ^ 16) Hd).
    rewrite Z.add_simpl_r. rewrite E. apply Z.mod_small. lia.
  - intros ->. cbn [length]. rewrite Z.add_0_r, u16_id by done. done.
Qed.

Lemma reap_one_ok vq w g c d : place vq = q -> vq_inv (mm w) vq g -> R w g -> g_done g = c :: d ->
  exists w', reap_one (Z.to_nat (queueSize vq)) w vq = Some (w', after_reap vq c) /\ vq_inv (mm w') (after_reap vq c) (reaped g c d) /\
    R w' (reaped g c d) /\ place (after_reap vq c) = q /\ millis w' = millis w.
Proof.
  intros Hq I HR Ed. pose proof (vp_size _ (vi_placed _ _ _ I)) as Hs. pose proof (inv_count I) as Hcnt. pose proof (inv_nodup I) as Hn.
  pose proof (vi_chains _ _ _ I) as Hc. rewrite Forall_forall in Hc. specialize (Hc c ltac:(rewrite Ed; set_solver)).
  rewrite Ed, concat_app in Hcnt, Hn. cbn [concat] in Hcnt, Hn. rewrite !length_app in Hcnt.
  destruct (chain_tail_ok vq (mm w) c (Z.to_nat (queueSize vq)) 1 Hc) as (t & E & Hl); [lia|lia|lia|].
  assert (Ht : t ∈ c) by (rewrite last_lookup in Hl; by eapply list_elem_of_lookup_2).
  assert (Htr : 0 <= t < queueSize vq). { apply (inv_index I). rewrite Ed, concat_app. cbn [concat]. set_solver. }
  destruct (vi_done _ _ _ I) as [_ Hd]. specialize (Hd 0%nat c ltac:(by rewrite Ed)). rewrite Z.add_0_r, u16_id in Hd by apply (vi_last _ _ _ I).
  assert (Hhc : u16 (head c) = head c).
  { apply u16_id. destruct c as [|i r]; [done|]. change (head (i :: r)) with i. assert (0 <= i < queueSize vq); [|lia].
    apply (inv_index I). rewrite Ed, concat_app. cbn [concat]. set_solver. }
  unfold reap_one. rewrite Hd, Hhc, E. eexists. split.
  { unfold after_reap. do 6 f_equal. lia. }
  unfold upd. rewrite mm_set. split_and!.
  - by apply (inv_reap vq (mm w) g).
  - assert (Heq : set_next (mm w) vq t (freeHead vq) = set_next (mm w) q t (freeHead vq)) by (by rewrite <- Hq). rewrite Heq.
    apply (vd_links q R D); [done|by rewrite <- Hq|]. intros Hf. apply NoDup_app in Hn as (_ & _ & Hn). apply NoDup_app in Hn as (_ & Hn & _).
    apply (Hn t Hf). set_solver.
  - done.
  - apply millis_set.
Qed.

(** Each round of the inner loop frees at least one descriptor. *)
Lemma reap_ok n : forall vq w g, place vq = q -> vq_inv (mm w) vq g -> R w g -> queueSize vq - numFree vq < Z.of_nat n ->
  exists w' vq' g', reap n w vq = Some (w', vq') /\ place vq' = q /\ vq_inv (mm w') vq' g' /\ R w' g' /\ g_done g' = [] /\
    numFree vq <= numFree vq' /\ (g_done g <> [] -> numFree vq < numFree vq').
Proof.
  induction n as [|n IH]; intros vq w g Hq I HR Hn.
  { pose proof (inv_count I). rewrite (vi_num _ _ _ I) in Hn. lia. }
  cbn [reap]. unfold shared_rd. destruct (elapse_ok vq w g Hq I HR) as (g1 & l & I1 & R1 & Ef & Ed).
  fold rd16. fold (used_idx (mm (elapse w)) vq). pose proof (used_read vq (elapse w) g1 I1) as Hu.
  destruct (lastUsedIdx vq =? used_idx (mm (elapse w)) vq) eqn:Eu.
  - exists (elapse w), vq, g1. split_and!; try done; [by apply Hu|]. intros Hne. exfalso. rewrite (proj1 Hu eq_refl) in Ed. by destruct (g_done g).
  - destruct (g_done g1) as [|c d] eqn:Ed1; [discriminate (proj2 Hu eq_refl)|].
    destruct (reap_one_ok vq (elapse w) g1 c d Hq I1 R1 Ed1) as (w2 & E2 & I2 & R2 & Q2 & _). rewrite E2.
    assert (Hnf : numFree vq < numFree (after_reap vq c)).
    { rewrite (vi_num _ _ _ I1), (vi_num _ _ _ I2). cbn [reaped g_free]. rewrite length_app.
      pose proof (vi_chains _ _ _ I1) as Hc. rewrite Forall_forall in Hc. specialize (Hc c ltac:(rewrite Ed1; set_solver)). destruct c; [done|]. cbn [length]. lia. }
    destruct (IH (after_reap vq c) w2 (reaped g1 c d) Q2 I2 R2) as (w' & vq' & g' & E & Hq' & I' & R' & Hd' & Hm & _); [change (queueSize (after_reap vq c)) with (queueSize vq); lia|].
    exists w', vq', g'. split_and!; try done; lia.
Qed.

Lemma iter_two n w : Nat.iter (2 * S n) elapse w = Nat.iter (2 * n) elapse (elapse (elapse w)).
Proof. replace (2 * S n)%nat with (S (S (2 * n))) by lia. by rewrite !Nat.iter_succ_r. Qed.

Lemma poll_loop_ok k start timeout : clock_runs k -> 0 <= timeout < 2 ^ 63 -> forall n vq w g,
  (0 < n)%nat -> place vq = q -> vq_inv (mm w) vq g -> R w g -> start <= millis w <= start + timeout + 2 ^ 33 ->
  start + timeout <= millis (Nat.iter (2 * n) elapse w) ->
  exists w' vq' g' r, poll_loop n w vq (u64 start) timeout = Some (w', vq', r) /\ place vq' = q /\ vq_inv (mm w') vq' g' /\ R w' g' /\
    ((r = 0 /\ g_done g' = [] /\ numFree vq < numFree vq') \/
     (r = -1 /\ vq' = vq /\ g_done g = [] /\ start + timeout <= millis w')).
Proof.
  intros Ck Ht. induction n as [|n IH]; intros vq w g Hn Hq I HR Hw Hend; [lia|].
  destruct (elapse_ok vq w g Hq I HR) as (g1 & l & I1 & R1 & Ef & Ed). pose proof (used_read vq (elapse w) g1 I1) as Hu.
  destruct (elapse_ok vq (elapse w) g1 Hq I1 R1) as (g2 & l2 & I2 & R2 & Ef2 & Ed2).
  cbn [poll_loop]. unfold shared_rd, hpet_get_millis. fold rd16. fold (used_idx (mm (elapse w)) vq).
  destruct (lastUsedIdx vq =? used_idx (mm (elapse w)) vq) eqn:Eu; cbn [negb].
  - pose proof (proj1 Hu eq_refl) as Hd1. assert (Hd0 : g_done g = []) by (rewrite Hd1 in Ed; by destruct (g_done g)).
    pose proof (ck_mono k Ck w) as M1. pose proof (ck_mono k Ck (elapse w)) as M2. set (w2 := elapse (elapse w)) in *.
    assert (Eq : u64 (u64 (millis w2) - u64 start) = millis w2 - start).
    { unfold u64. rewrite Zminus_mod_idemp_l, Zminus_mod_idemp_r. apply Z.mod_small. lia. }
    rewrite Eq. destruct (Z.leb_spec timeout (millis w2 - start)).
    + exists w2, vq, g2, (-1). split_and!; try done. right. split_and!; try done. lia.
    + rewrite iter_two in Hend. fold w2 in Hend. destruct n as [|n]; [change (Nat.iter (2 * 0) elapse w2) with w2 in Hend; lia|].
      destruct (IH vq w2 g2) as (w' & vq' & g' & r & E & Hq' & I' & R' & Hr); try done; [lia|lia|].
      exists w', vq', g', r. split_and!; try done. destruct Hr as [Hr|(? & ? & ? & ?)]; [by left|right; by split_and!].
  - destruct (reap_ok (S (Z.to_nat (queueSize vq))) vq (elapse w) g1 Hq I1 R1) as (w' & vq' & g' & E & Hq' & I' & R' & Hd' & _ & Hlt).
    { pose proof (vp_size _ (vi_placed _ _ _ I)). rewrite (vi_num _ _ _ I). lia. }
    rewrite E. exists w', vq', g', 0. split_and!; try done. left. split_and!; try done. apply Hlt. intros Hz. discriminate (proj2 Hu Hz).
Qed.

Lemma clock_gain k n : clock_runs k -> forall w, millis w + Z.of_nat n <= millis (Nat.iter (k * n) elapse w).
Proof.
  intros Ck. induction n as [|n IH]; intros w; [rewrite Nat.mul_0_r; change (Nat.iter 0 elapse w) with w; lia|].
  rewrite Nat.mul_succ_r, Nat.iter_add. pose proof (ck_gain k Ck w). specialize (IH (Nat.iter k elapse w)). lia.
Qed.

Lemma clock_mono k n : clock_runs k -> forall w, millis w <= millis (Nat.iter n elapse w).
Proof.
  intros Ck. induction n as [|n IH]; intros w; [change (Nat.iter 0 elapse w) with w; lia|]. rewrite Nat.iter_succ_r. pose proof (ck_mono k Ck w). specialize (IH (elapse w)). lia.
Qed.

(** The loop with enough rounds for the time-out. *)
Lemma poll_from k w vq g timeout fuel : clock_runs k -> place vq = q -> vq_inv (mm w) vq g -> R w g -> 0 <= timeout < 2 ^ 63 ->
  (k * Z.to_nat timeout < fuel)%nat ->
  exists w' vq' g' r, poll_loop fuel w vq (u64 (millis w)) timeout = Some (w', vq', r) /\ vq_inv (mm w') vq' g' /\ R w' g' /\ place vq' = q /\
    ((r = 0 /\ g_done g' = [] /\ numFree vq < numFree vq') \/
     (r = -1 /\ vq' = vq /\ g_done g = [] /\ millis w + timeout <= millis w')).
Proof.
  intros Ck Hq I HR Ht Hf.
  destruct (poll_loop_ok k (millis w) timeout Ck Ht fuel vq w g) as (w' & vq' & g' & r & E & Hq' & I' & R' & Hr); try done; [lia|lia| |by exists w', vq', g', r].
  pose proof (clock_gain k (Z.to_nat timeout) Ck w) as Hg. rewrite Z2Nat.id in Hg by lia.
  replace (2 * fuel)%nat with ((2 * fuel - k * Z.to_nat timeout) + k * Z.to_nat timeout)%nat by lia. rewrite Nat.iter_add.
  pose proof (clock_mono k (2 * fuel - k * Z.to_nat timeout) Ck (Nat.iter (k * Z.to_nat timeout) elapse w)). lia.
Qed.

Lemma virtqueuePoll_ok k w vq g timeout fuel : clock_runs k -> place vq = q -> vq_inv (mm w) vq g -> R w g -> 0 <= timeout < 2 ^ 63 ->
  (k * Z.to_nat timeout < fuel)%nat ->
  exists w' vq' g' r, virtqueuePoll fuel w vq timeout = Some (w', vq', r) /\ vq_inv (mm w') vq' g' /\ R w' g' /\ place vq' = q /\
    ((r = 0 /\ g_done g' = [] /\ numFree vq < numFree vq') \/
     (r = -1 /\ vq' = vq /\ g_done g = [] /\ millis w + timeout <= millis w')).
Proof.
  intros Ck Hq I HR Ht Hf. destruct (elapse_ok vq w g Hq I HR) as (g1 & l & I1 & R1 & _ & Ed).
  destruct (poll_from k (elapse w) vq g1 timeout fuel Ck Hq I1 R1 Ht Hf) as (w' & vq' & g' & r & E & I' & R' & Hq' & Hr).
  exists w', vq', g', r. split_and!; try done. destruct Hr as [Hr|(-> & -> & Hd & Hm)]; [by left|right]. split_and!; try done.
  - rewrite Hd in Ed. by destruct (g_done g).
  - pose proof (ck_mono k Ck w). lia.
Qed.
End Poll.
