(* ===== verification/VirtqDemo.v ===== *)
(** * Virtqueues: creation and theorems

    The creation of a queue, the theorems on drivers/virtiogpu/virtqueue.c and
    a device that satisfies their hypotheses. *)

From Stdlib Require Import ZArith Lia Bool.
From stdpp Require Import base list gmap relations.
From S2P Require Import Prelude Mem Str Frames Pmm Machine Virtqueue VirtqProps VirtqPoll.

(** ** Creating and releasing a virtqueue

    [virtqueueCreate] lays the table and the rings out in frames of its own;
    the queue it returns has all descriptors free.  Runs of frames
    ([pmm_alloc_frames], [pmm_free_frames]) as sets. *)

(** ** Runs of frames *)

Definition run_at (a n f : Z) : Prop := a / PAGE_SIZE <= f < a / PAGE_SIZE + n.

(** [q] is [p] without the run of [n] frames at [a]. *)
Record run_taken (p q : Pmm) (a n : Z) : Prop := {
  rt_ok : pmm_phys_ok q;
  rt_total : g_total_frames q = g_total_frames p;
  rt_addr : a = a / PAGE_SIZE * PAGE_SIZE /\ 0 < a /\ a + n * PAGE_SIZE <= g_total_frames p * PAGE_SIZE;
  rt_was : forall f, run_at a n f -> frame_free p f;
  rt_free : forall f, frame_free q f <-> frame_free p f /\ ~ run_at a n f
}.

Lemma pmm_alloc_frames_run p n : pmm_phys_ok p -> 0 < n < 2 ^ 62 ->
  let '(q, a) := pmm_alloc_frames p n in
  (a = 0 /\ pmm_phys_ok q /\ g_total_frames q = g_total_frames p /\ forall f, frame_free q f <-> frame_free p f) \/
  (a <> 0 /\ run_taken p q a n).
Proof.
  intros [W Hl] Hn. destruct (pmm_step_refines p (AllocFrames n) W) as (q & a & E & Wq & T & Sp); [cbn [op_ok]; lia|].
  cbn [pmm_run] in E. injection E as E. rewrite E. unfold pmm_phys_ok. rewrite T. inversion Sp as [? ? ? ? Hf|? lo ? ? ? H0 H1 H2 H3|? a' ? ? Ho ?]; subst.
  - left. done.
  - right. cbn [op_count] in *. unfold PAGE_SIZE in *. split; [lia|]. assert (Ed : lo * 4096 / 4096 = lo) by (apply Z.div_mul; lia).
    constructor; unfold run_at, PAGE_SIZE, pmm_phys_ok; rewrite ?Ed, ?T; try done. lia.
  - destruct Ho as [?|[? _]]; discriminate.
Qed.

(** Releasing the run gives back exactly it. *)
Lemma pmm_free_frames_run p q a n : run_taken p q a n -> 0 < n < 2 ^ 62 ->
  let r := pmm_free_frames q a n in
  pmm_phys_ok r /\ g_total_frames r = g_total_frames p /\ forall f, frame_free r f <-> frame_free p f.
Proof.
  intros [[W Hl] T (Ha & Hp & Hm) Hw Hf] Hn r. unfold PAGE_SIZE in *.
  assert (Hu : is_u64 a) by (unfold is_u64; lia).
  destruct (pmm_step_refines q (FreeFrames a n) W) as (r' & z & E & Wr & Tr & Sp); [cbn [op_ok]; split; [done|lia]|].
  cbn [pmm_run] in E. injection E as E <-. fold r in E. subst r'. unfold pmm_phys_ok. rewrite Tr. split; [done|]. split; [done|].
  inversion Sp as [? ? Hno|? ? ? Hno|? a' n' ? Ho Hfr]; subst; [by destruct (Hno a n)|by destruct (Hno a n)|].
  destruct Ho as [Ho|[Ho _]]; [|discriminate]. injection Ho as <- <-. intros f. rewrite Hfr, Hf.
  assert (Hd : freed (g_total_frames q) a n f = true <-> run_at a n f).
  { unfold freed, in_range, run_at, PAGE_SIZE. destruct (Z.eqb_spec a 0); [lia|]. destruct (Z.eqb_spec (a mod 4096) 0); [|divlia]. cbn [negb andb].
    rewrite Z.min_l by (rewrite T; divlia). rewrite andb_true_iff, Z.leb_le, Z.ltb_lt. done. }
  rewrite Hd. split; [|intros Hff; destruct (decide (run_at a n f)); [right|left]; done || (split; [|done]; destruct Hff as [Hff _]; by rewrite T)].
  intros [[? _]|[_ Hr]]; [done|by apply Hw].
Qed.

(** ** Layout *)
Section Layout.
Context (size : Z) (Hs : 0 < size < 2 ^ 16).

Lemma avail_offset_eq : avail_offset size = 16 * size.
Proof.
  unfold avail_offset. rewrite u64_id by (unfold is_u64; lia). change (Z.lnot 1) with (Z.lnot (2 ^ 1 - 1)).
  rewrite land_mask_pow2 by (unfold is_u64; lia). change (2 ^ 1) with 2. divlia.
Qed.

Lemma used_offset_range : 18 * size + 6 <= used_offset size < 18 * size + 70.
Proof.
  unfold used_offset. rewrite avail_offset_eq, u64_id by (unfold is_u64; lia). change (Z.lnot 63) with (Z.lnot (2 ^ 6 - 1)).
  rewrite land_mask_pow2 by (unfold is_u64; lia). change (2 ^ 6) with 64. divlia.
Qed.

Lemma queue_pages_range : 0 < queue_pages size < 1024 /\ used_offset size + 6 + 8 * size <= queue_pages size * PAGE_SIZE.
Proof. pose proof used_offset_range. unfold queue_pages, PAGE_SIZE. divlia. Qed.
End Layout.

Section Link.
Context (vq : Virtqueue).

Lemma lseg_seq m n : forall k, (forall j, k <= j < k + Z.of_nat n -> d_next m vq j = if j + 1 =? k + Z.of_nat n then 0xFFFF else j + 1) ->
  lseg m vq (if (n =? 0)%nat then 0xFFFF else k) (seqZ k (Z.of_nat n)).
Proof.
  induction n as [|n IH]; intros k Hj; [done|]. rewrite seqZ_cons by lia. cbn [lseg Nat.eqb]. split; [done|].
  replace (Z.pred (Z.of_nat (S n))) with (Z.of_nat n) by lia. rewrite Hj by lia. replace (Z.succ k) with (k + 1) by lia.
  specialize (IH (k + 1)). destruct n as [|n].
  - destruct (Z.eqb_spec (k + 1) (k + Z.of_nat 1)); [apply IH; lia|lia].
  - destruct (Z.eqb_spec (k + 1) (k + Z.of_nat (S (S n)))); [lia|]. apply IH. intros j Hjr. rewrite Hj by lia.
    replace (k + 1 + Z.of_nat (S n)) with (k + Z.of_nat (S (S n))) by lia. done.
Qed.

Lemma link_all_ok m : 0 < queueSize vq < 2 ^ 16 ->
  lseg (link_all m vq) vq 0 (seqZ 0 (queueSize vq)) /\
  forall x, ~ descTable vq <= x < descTable vq + 16 * queueSize vq -> rd8 (link_all m vq) x = rd8 m x.
Proof.
  intros Hs. unfold link_all.
  set (P := fun i m' => (forall j, 0 <= j < i -> d_next m' vq j = j + 1) /\
    forall x, ~ descTable vq <= x < descTable vq + 16 * queueSize vq -> rd8 m' x = rd8 m x).
  assert (HP : P (queueSize vq - 1) (zfor 0 (queueSize vq - 1) (fun i m => set_next m vq i (i + 1)) m)).
  { apply (zfor_ind P); [lia| |].
    - split; [intros; lia|done].
    - intros i m' Hi [H1 H2]. split.
      + intros j Hj. destruct (Z.eq_dec i j) as [->|Hne]; [apply set_next_next; lia|]. rewrite (same_next vq m') by by apply set_next_other. apply H1. lia.
      + intros x Hx. unfold set_next. rewrite rd8_wr16; [by apply H2|]. unfold desc. lia. }
  destruct HP as [H1 H2]. set (m1 := zfor _ _ _ _) in *. split.
  - pose proof (lseg_seq (set_next m1 vq (queueSize vq - 1) 0xFFFF) (Z.to_nat (queueSize vq)) 0) as HL. rewrite Z2Nat.id in HL by lia.
    destruct (Nat.eqb_spec (Z.to_nat (queueSize vq)) 0); [lia|]. apply HL. intros j Hj. rewrite Z.add_0_l.
    destruct (Z.eqb_spec (j + 1) (queueSize vq)) as [E|Hne].
    + replace j with (queueSize vq - 1) by lia. by apply set_next_next.
    + rewrite (same_next vq m1) by (apply set_next_other; lia). apply H1. lia.
  - intros x Hx. unfold set_next. rewrite rd8_wr16; [by apply H2|]. unfold desc. lia.
Qed.
End Link.

Lemma rd_zero n : forall m a, (forall x, a <= x < a + Z.of_nat n -> rd8 m x = 0) -> rd n m a = 0.
Proof.
  induction n as [|n IH]; intros m a Hz; [done|]. cbn [rd]. rewrite Hz by lia. rewrite IH; [done|]. intros x Hx. apply Hz. lia.
Qed.

Definition all_free (size : Z) : Ghost := mkGhost (seqZ 0 size) [] [] [].

(** The state the loop leaves in cleared memory. *)
Lemma fresh_inv m vq : vq_placed vq -> numFree vq = queueSize vq -> freeHead vq = 0 -> lastUsedIdx vq = 0 ->
  (forall x, descTable vq <= x < usedRing vq + 6 + 8 * queueSize vq -> rd8 m x = 0) -> vq_inv (link_all m vq) vq (all_free (queueSize vq)).
Proof.
  intros P Hn Hf Hl Hz. pose proof (vp_size _ P) as Hs. pose proof (vp_avail _ P). pose proof (vp_used _ P).
  destruct (link_all_ok vq m Hs) as [L O]. constructor; cbn [all_free g_free g_flight g_done g_pend]; try done.
  - by rewrite Hf.
  - rewrite Hn, length_seqZ. lia.
  - by rewrite app_nil_r.
  - lia.
  - split; [|intros k c Hk; done]. rewrite Hl. cbn [length]. apply rd_zero. intros x Hx. rewrite O by lia. apply Hz. lia.
Qed.

Lemma inv_notify m a b c d e f h i j k n n' g : vq_inv m (mkVq a b c d e f h i j k n) g -> vq_inv m (mkVq a b c d e f h i j k n') g.
Proof. intros [[] ? ? ? ? ? ? ? ?]. constructor; [constructor|..]; done. Qed.

Section Create.
Context {W : Type} `{Machine W} `{!MachineLaws W}.

(** [virtqueueCreate] with an allocator in order and a device that offers a
    queue whose size is a power of two, or none: on failure exactly the
    frames that were free before are free; on success the queue lies in
    frames of its own, has all descriptors free, and only these frames are
    taken and only their bytes written. *)
Lemma virtqueueCreate_ok kz (w : W) p cfg nb mult qi (size := (io_rd (io_wr w 2 (cfg_queueSelect cfg) qi) 2 (cfg_queueSize cfg)).2) :
  pmm_phys_ok p -> 0 <= size < 2 ^ 16 -> (size <> 0 -> 2 ^ 16 mod size = 0) ->
  exists w' p' r, virtqueueCreate kz w p cfg nb mult qi = (w', p', r) /\ pmm_phys_ok p' /\
    match r with
    | None => forall f, frame_free p' f <-> frame_free p f
    | Some vq => run_taken p p' (physBase vq) (vq_pageCount vq) /\ queueSize vq = size /\ queueIndex vq = qi /\
        descTable vq = physBase vq + HHDM_BASE /\ usedRing vq + 6 + 8 * size <= descTable vq + vq_pageCount vq * PAGE_SIZE /\
        vq_inv (mm w') vq (all_free size) /\
        (forall x, ~ descTable vq <= x < descTable vq + vq_pageCount vq * PAGE_SIZE -> rd8 (mm w') x = rd8 (mm w) x)
    end.
Proof.
  intros Hp Hs Hd. unfold virtqueueCreate. subst size. destruct (io_rd (io_wr w 2 (cfg_queueSelect cfg) qi) 2 (cfg_queueSize cfg)) as [w2 size] eqn:E2. cbn [snd] in *.
  assert (M2 : mm w2 = mm w). { pose proof (mm_io_rd (io_wr w 2 (cfg_queueSelect cfg) qi) 2 (cfg_queueSize cfg)) as M. rewrite E2, mm_io_wr in M. done. }
  destruct (Z.eqb_spec size 0); [exists w2, p, None; split_and!; done|]. specialize (Hd ltac:(done)).
  destruct (queue_pages_range size ltac:(lia)) as [Hq1 Hq2]. pose proof (used_offset_range size ltac:(lia)) as Hu. pose proof (avail_offset_eq size ltac:(lia)) as Ha.
  pose proof (pmm_alloc_frames_run p (queue_pages size) Hp ltac:(lia)) as R. destruct (pmm_alloc_frames p (queue_pages size)) as [p1 base].
  destruct R as [(-> & Hp1 & T & Hf)|(Hb & R)]; [exists w2, p1, None; done|]. destruct (Z.eqb_spec base 0); [done|].
  destruct (rt_addr _ _ _ _ R) as (_ & Hb0 & Hb1). assert (Hg : g_total_frames p <= 2 ^ 35) by apply Hp.
  assert (Ev : u64 (base + HHDM_BASE) = base + HHDM_BASE) by (apply u64_id; unfold is_u64, HHDM_BASE, PAGE_SIZE in *; lia). rewrite Ev.
  destruct (kz 72); cbn [negb].
  2:{ destruct (pmm_free_frames_run p p1 base (queue_pages size) R ltac:(lia)) as (? & ? & ?). eexists _, _, None. split; [done|]. split; done. }
  set (w3 := upd w2 _). set (vq0 := mkVq qi size size 0 0 base (queue_pages size) (base + HHDM_BASE) (base + HHDM_BASE + avail_offset size) (base + HHDM_BASE + used_offset size) 0).
  destruct (io_rd (upd w3 _) 2 (cfg_queueNotifyOff cfg)) as [w4 off] eqn:E4.
  assert (M4 : mm w4 = link_all (mm w3) vq0).
  { pose proof (mm_io_rd (upd w3 (fun m => link_all m vq0)) 2 (cfg_queueNotifyOff cfg)) as M. rewrite E4 in M. cbn [fst] in M. rewrite M. unfold upd. by rewrite mm_set. }
  assert (F3 : filled (mm w) (mm w3) (base + HHDM_BASE) 0 (queue_pages size * PAGE_SIZE)).
  { unfold w3, upd. rewrite mm_set, M2. apply (memset_filled _ _ 0). unfold PAGE_SIZE. lia. }
  assert (P0 : vq_placed vq0).
  { constructor; unfold vq0; cbn [queueSize descTable availRing usedRing]; rewrite ?Ha; unfold HHDM_BASE; try lia. }
  eexists _, p1, (Some _). split; [reflexivity|]. split; [apply R|]. cbn [physBase vq_pageCount queueSize queueIndex descTable usedRing]. rewrite !mm_io_wr, M4.
  split_and!; try done; [unfold PAGE_SIZE in *; lia| |].
  - apply inv_notify with (n := 0). apply (fresh_inv (mm w3) vq0); try done. intros x Hx. rewrite F3. cbn [vq0 descTable usedRing queueSize] in Hx.
    destruct (Z.leb_spec (base + HHDM_BASE) x), (Z.ltb_spec x (base + HHDM_BASE + queue_pages size * PAGE_SIZE)); cbn [andb]; done || (unfold PAGE_SIZE in *; lia).
  - intros x Hx. destruct (link_all_ok vq0 (mm w3)) as [_ O]; [cbn [vq0 queueSize]; lia|]. rewrite O.
    + rewrite F3. destruct (Z.leb_spec (base + HHDM_BASE) x), (Z.ltb_spec x (base + HHDM_BASE + queue_pages size * PAGE_SIZE)); cbn [andb]; done || lia.
    + cbn [vq0 descTable queueSize]. unfold PAGE_SIZE in *. lia.
Qed.
End Create.

(** ** Virtqueues: the theorems, and a device to use them with *)

(** Submitting buffers to a queue in order: it is refused, and changes
    nothing, exactly when there are no buffers or fewer free descriptors
    than buffers.  Otherwise the next entry of the available ring leads a
    device that follows the chain to exactly these buffers in their order;
    the chains that are with the device, the used ring and the entries not
    yet fetched stay as they are, and the queue stays in order. *)
Theorem virtqueueSubmitSg_correct m vq g bufs : vq_inv m vq g -> Forall buf_ok bufs ->
  let n := length bufs in
  if decide (bufs = [] \/ numFree vq < Z.of_nat n) then virtqueueSubmitSg m vq bufs = (m, vq, -1)
  else exists m' vq', virtqueueSubmitSg m vq bufs = (m', vq', 0) /\ vq_inv m' vq' (taken g n) /\
    avail_idx m' vq' = u16 (avail_idx m vq + 1) /\
    (let h := rd16 m' (avail_slot vq (avail_idx m vq mod queueSize vq)) in
     device_chain m' vq' n h = Some bufs /\ h = head (take n (g_free g))) /\
    (forall c, c ∈ g_flight g ++ g_done g -> device_chain m' vq' (length c) (head c) = device_chain m vq (length c) (head c)) /\
    (forall x, ~ driver_area vq x -> rd8 m' x = rd8 m x).
Proof.
  intros I Hb n. pose proof (inv_count I) as Hcnt. pose proof (vi_num _ _ _ I) as Hnum. case_decide as Hd.
  - unfold virtqueueSubmitSg. fold n. destruct (Z.eqb_spec (Z.of_nat n) 0); [done|].
    destruct (Z.ltb_spec (queueSize vq) (Z.of_nat n)); [done|]. cbn [orb].
    destruct (Z.ltb_spec (numFree vq) (Z.of_nat n)); [done|]. destruct Hd as [->|?]; [done|lia].
  - assert (Hne : bufs <> []) by tauto. destruct (submit_ok m vq g bufs I Hb Hne) as (m' & vq' & E & I' & Hbuf & Ha & Hsl & Ho & Hc & nf & h & ->); [fold n; lia|].
    fold n in Hbuf, Hsl, I', E. exists m', (set_free vq nf h). split_and!; try done.
    + cbn zeta. rewrite Hsl. split; [|done]. pose proof (vi_chains _ _ _ I') as Hch. rewrite Forall_forall in Hch.
      rewrite (chain_device (set_free vq nf h) m'); [by rewrite Hbuf| |rewrite length_take; lia]. apply Hch. cbn [taken g_flight g_done]. set_solver.
    + intros c Hcc. pose proof (vi_chains _ _ _ I) as Hch. rewrite Forall_forall in Hch. specialize (Hch c Hcc).
      assert (Hsd : forall i, i ∈ c -> same_desc vq m m' i). { intros i Hi. apply Hc. apply list_elem_of_In, in_concat. exists c. split; by apply list_elem_of_In. }
      rewrite (chain_device vq m c) by (done || lia). change (device_chain m' (set_free vq nf h)) with (device_chain m' vq).
      rewrite (chain_device vq m' c) by (lia || by apply (is_chain_same vq m)). f_equal. apply list_fmap_ext. intros k i Hk.
      apply (same_buf vq m), Hsd. by eapply list_elem_of_lookup_2.
Qed.

(** C10: Polling, with a device that keeps to the protocol and a clock that gains
    a millisecond in [k] readings: it returns.  With 0 every chain the device
    had finished is free again, at least one; with -1 nothing has changed,
    nothing was finished when the poll began and the time is over.  Either
    way the queue is in order. *)
Theorem virtqueuePoll_correct {W} `{Machine W} `{!MachineLaws W} q (R : W -> Ghost -> Prop) k w vq g timeout fuel :
  virtio_device q R -> clock_runs (W := W) k -> place vq = q -> vq_inv (mm w) vq g -> R w g -> 0 <= timeout < 2 ^ 63 ->
  (k * Z.to_nat timeout < fuel)%nat ->
  exists w' vq' g' r, virtqueuePoll fuel w vq timeout = Some (w', vq', r) /\ vq_inv (mm w') vq' g' /\ R w' g' /\ place vq' = q /\
    ((r = 0 /\ g_done g' = [] /\ numFree vq < numFree vq') \/
     (r = -1 /\ vq' = vq /\ g_done g = [] /\ millis w + timeout <= millis w')).
Proof.
  intros D. by apply virtqueuePoll_ok.
Qed.

(** Creating a queue, with an allocator in order and a device that offers a
    queue whose size is a power of two, or none: on failure exactly the
    frames that were free before are free; on success the table and the
    rings lie apart in frames of their own, every descriptor is free, and no
    byte outside of these frames has changed. *)
Theorem virtqueueCreate_correct {W} `{Machine W} `{!MachineLaws W} kz (w : W) p cfg nb mult qi :
  let size := (io_rd (io_wr w 2 (cfg_queueSelect cfg) qi) 2 (cfg_queueSize cfg)).2 in
  pmm_phys_ok p -> 0 <= size < 2 ^ 16 -> (size <> 0 -> 2 ^ 16 mod size = 0) ->
  exists w' p' r, virtqueueCreate kz w p cfg nb mult qi = (w', p', r) /\ pmm_phys_ok p' /\
    match r with
    | None => forall f, frame_free p' f <-> frame_free p f
    | Some vq => run_taken p p' (physBase vq) (vq_pageCount vq) /\ queueSize vq = size /\ queueIndex vq = qi /\
        descTable vq = physBase vq + HHDM_BASE /\ usedRing vq + 6 + 8 * size <= descTable vq + vq_pageCount vq * PAGE_SIZE /\
        vq_inv (mm w') vq (all_free size) /\
        (forall x, ~ descTable vq <= x < descTable vq + vq_pageCount vq * PAGE_SIZE -> rd8 (mm w') x = rd8 (mm w) x)
    end.
Proof. apply virtqueueCreate_ok. Qed.

(** ** A device that finishes requests in order *)

Record Sim := mkSim { s_mem : mem; s_time : Z; s_regs : gmap Z Z }.

Definition demo_vq (nf h last : Z) : Virtqueue := mkVq 0 4 nf h last 0x1000 1 0x1000 0x1040 0x1080 0x9000.

(** One request of the queue [q], when there is one. *)
Definition serve (q : Virtqueue) (m : mem) : mem :=
  let u := used_idx m q in
  if u =? avail_idx m q then m
  else wr16 (wr32 m (used_slot q (u mod queueSize q)) (rd16 m (avail_slot q (u mod queueSize q)))) (usedRing q + 2) (u16 (u + 1)).

#[export] Instance sim_machine : Machine Sim := {
  mm := s_mem;
  set_mm s m := mkSim m (s_time s) (s_regs s);
  elapse s := mkSim (serve (demo_vq 0 0 0) (s_mem s)) (s_time s + 1) (s_regs s);
  millis := s_time;
  io_rd s n a := (s, default 0 (s_regs s !! a));
  io_wr s n a v := mkSim (s_mem s) (s_time s) (<[a := v]> (s_regs s))
}.
#[export] Instance sim_laws : MachineLaws Sim.
Proof. constructor; done. Qed.

Lemma sim_clock : clock_runs (W := Sim) 1.
Proof. constructor; intros w; cbn; lia. Qed.

(** All requests with the device are in the available ring, in order. *)
Definition in_order (w : Sim) (g : Ghost) : Prop :=
  g_pend g = head <$> g_flight g /\ avail_idx (s_mem w) (demo_vq 0 0 0) = u16 (used_idx (s_mem w) (demo_vq 0 0 0) + Z.of_nat (length (g_pend g))).

Lemma heads_nodup m vq l : Forall (is_chain m vq) l -> NoDup (concat l) -> NoDup (head <$> l).
Proof.
  induction 1 as [|c l Hc Hl IH]; [intros; apply NoDup_nil; done|]. cbn [concat fmap list_fmap]. intros (H1 & H2 & H3)%NoDup_app. constructor; [|auto].
  intros (d & Hd & Hin)%list_elem_of_fmap_1. destruct c as [|i c]; [done|]. change (head (i :: c)) with i in Hd. apply (H2 i); [left|].
  apply list_elem_of_In, in_concat. exists d. split; [by apply list_elem_of_In|]. apply list_elem_of_In. rewrite Forall_forall in Hl. specialize (Hl d Hin).
  destruct d as [|j d]; [done|]. change (head (j :: d)) with j in Hd. subst. left.
Qed.

Section Serve.
Context (nf h last : Z) (m : mem) (g : Ghost).
Context (I : vq_inv m (demo_vq nf h last) g).
Context (Hp : g_pend g = head <$> g_flight g).
Context (Ha : avail_idx m (demo_vq 0 0 0) = u16 (used_idx m (demo_vq 0 0 0) + Z.of_nat (length (g_pend g)))).
Let u := used_idx m (demo_vq 0 0 0).

Lemma serve_idle : g_flight g = [] -> serve (demo_vq 0 0 0) m = m.
Proof.
  intros E. unfold serve. fold u. rewrite Ha, Hp, E. cbn [fmap list_fmap length]. fold u. rewrite Z.add_0_r, u16_id by apply rd16_range. by rewrite Z.eqb_refl.
Qed.

Lemma serve_step c fl : g_flight g = c :: fl ->
  rtc (dev_step (demo_vq nf h last)) (m, g) (serve (demo_vq 0 0 0) m, mkGhost (g_free g) fl (g_done g ++ [c]) (head <$> fl)) /\
  avail_idx (serve (demo_vq 0 0 0) m) (demo_vq 0 0 0) =
    u16 (used_idx (serve (demo_vq 0 0 0) m) (demo_vq 0 0 0) + Z.of_nat (length (head <$> fl))).
Proof.
  intros E. rewrite E in Hp. cbn [fmap list_fmap] in Hp. pose proof (rd16_range m (0x1080 + 2)) as Hu. change (rd16 m (0x1080 + 2)) with u in Hu.
  pose proof (inv_flight I) as Hl. rewrite E in Hl. cbn [length queueSize demo_vq] in Hl. rewrite Hp in Ha. cbn [length] in Ha. rewrite length_fmap in *. fold u in Ha.
  assert (Hne : u <> avail_idx m (demo_vq 0 0 0)).
  { rewrite Ha. intros Hc. apply (mod_shift_ne (u + Z.of_nat (S (length fl))) (Z.of_nat (S (length fl))) (2 ^ 16)); [lia|].
    rewrite Z.add_simpl_r. unfold u16 in Hc. rewrite <- Hc. apply Z.mod_small. lia. }
  set (v := rd16 m (avail_slot (demo_vq 0 0 0) (u mod 4))).
  assert (Hv : v = head c).
  { pose proof (vi_pend _ _ _ I 0%nat (head c) ltac:(by rewrite Hp)) as Hk. rewrite Hp in Hk. cbn [length queueSize demo_vq] in Hk. rewrite length_fmap in Hk.
    change (avail_idx m (demo_vq nf h last)) with (avail_idx m (demo_vq 0 0 0)) in Hk. rewrite Ha in Hk.
    rewrite <- Hk. unfold v. change (avail_slot (demo_vq nf h last)) with (avail_slot (demo_vq 0 0 0)). do 3 f_equal.
    replace (u16 (u + Z.of_nat (S (length fl))) - Z.of_nat (S (length fl)) + Z.of_nat 0) with (u16 (u + Z.of_nat (S (length fl))) + - Z.of_nat (S (length fl))) by lia.
    rewrite u16_shift, Z.add_opp_r, Z.add_simpl_r. by rewrite u16_id. }
  assert (Hm : 0 <= u mod 4 < 4) by (apply Z.mod_pos_bound; lia).
  assert (Es : serve (demo_vq 0 0 0) m = wr16 (wr32 m (used_slot (demo_vq 0 0 0) (u mod 4)) v) (0x1080 + 2) (u16 (u + 1))).
  { unfold serve. fold u. destruct (Z.eqb_spec u (avail_idx m (demo_vq 0 0 0))); [done|]. done. }
  rewrite Es. set (m' := wr16 _ _ _). set (m1 := wr32 m _ _) in m'.
  assert (Hui : used_idx m' (demo_vq 0 0 0) = u16 (u + 1)) by (apply rd16_wr16_same, u16_range).
  assert (Hout : forall x, x < 0x1080 -> rd8 m' x = rd8 m x).
  { intros x Hx. unfold m', m1, wr16, wr32. rewrite !rd8_wr. unfold used_slot. cbn [usedRing demo_vq].
    destruct (Z.leb_spec (0x1080 + 2) x); [lia|]. destruct (Z.leb_spec (0x1080 + 4 + 8 * (u mod 4)) x); [lia|]. done. }
  split.
  - eapply rtc_l; [apply (dev_fetch _ m g (head c) (head <$> fl)); done|]. apply rtc_once.
    refine (dev_finish (demo_vq nf h last) m m' (mkGhost (g_free g) (g_flight g) (g_done g) (head <$> fl)) c [] fl _ _ _ _ _).
    + exact E.
    + pose proof (vi_chains _ _ _ I) as Hc. pose proof (inv_nodup I) as Hn. apply Forall_app in Hc as [Hc _]. apply NoDup_app in Hn as (_ & _ & Hn).
      rewrite concat_app in Hn. apply NoDup_app in Hn as (Hn & _ & _). pose proof (heads_nodup _ _ _ Hc Hn) as Hh. rewrite E in Hh. cbn [fmap list_fmap] in Hh. by apply NoDup_cons in Hh as [Hh _].
    + intros x [Hx|Hx]; cbn [descTable availRing queueSize demo_vq] in Hx; apply Hout; lia.
    + exact Hui.
    + intros j Hj. cbn [queueSize demo_vq] in *. change (used_idx m (demo_vq nf h last)) with u. unfold m'. unfold rd32 at 1, wr16.
      rewrite rd_wr_disj by (unfold used_slot; cbn [usedRing demo_vq]; lia). destruct (Z.eqb_spec j (u mod 4)) as [->|Hj'].
      * rewrite <- Hv. apply rd32_wr32_same. pose proof (rd16_range m (avail_slot (demo_vq 0 0 0) (u mod 4))). fold v in H. lia.
      * apply rd_wr_disj. unfold used_slot. cbn [usedRing demo_vq]. lia.
  - rewrite Hui, u16_shift.
    assert (Hai : avail_idx m' (demo_vq 0 0 0) = avail_idx m (demo_vq 0 0 0)) by (apply rd_ext; intros x Hx; apply Hout; cbn [availRing demo_vq] in Hx; lia).
    rewrite Hai, Ha. f_equal. lia.
Qed.
End Serve.

Lemma sim_device : virtio_device (W := Sim) (demo_vq 0 0 0) in_order.
Proof.
  constructor.
  - intros vq w g Hq I [Hp Ha]. destruct vq as [qi qs nf h last pb pc dt ar ur na]. unfold place, set_lastUsed, set_free, demo_vq in Hq. cbn in Hq. injection Hq as -> -> -> -> -> -> -> ->.
    fold (demo_vq nf h last) in I |- *. unfold in_order. cbn [mm elapse sim_machine s_mem]. destruct (g_flight g) as [|c fl] eqn:E.
    + exists g. rewrite (serve_idle (s_mem w) g ltac:(by rewrite E) Ha E). split; [apply rtc_refl|]. split; [by rewrite E|exact Ha].
    + destruct (serve_step nf h last (s_mem w) g I ltac:(by rewrite E) Ha c fl E) as [Hst Hai].
      eexists. split; [exact Hst|]. cbn [g_pend g_flight]. split; [done|]. exact Hai.
  - intros w g t v F d [Hp Ha] Ht Hn. unfold in_order. cbn [mm set_mm sim_machine s_mem g_pend g_flight]. split; [done|].
    cbn [queueSize demo_vq] in Ht. unfold avail_idx, used_idx, set_next, rd16, wr16, desc. cbn [availRing usedRing descTable demo_vq].
    rewrite !rd_wr_disj by lia. exact Ha.
Qed.

(** ** Use *)
Definition demo_mem : mem := link_all ∅ (demo_vq 4 0 0).
Definition demo_bufs : list VirtqBuf := [mkBuf 0x5000 24 0; mkBuf 0x6000 24 1].

Lemma demo_vq_inv : vq_inv demo_mem (demo_vq 4 0 0) (all_free 4).
Proof.
  apply (fresh_inv ∅ (demo_vq 4 0 0)); try done.
Qed.

Lemma demo_bufs_ok : Forall buf_ok demo_bufs.
Proof. repeat constructor; cbn; unfold is_u64; lia. Qed.

Lemma virtqueueSubmitSg_correct_witness : exists m' vq', virtqueueSubmitSg demo_mem (demo_vq 4 0 0) demo_bufs = (m', vq', 0) /\
  device_chain m' vq' 2 0 = Some demo_bufs /\ numFree vq' = 2.
Proof.
  pose proof (virtqueueSubmitSg_correct demo_mem (demo_vq 4 0 0) (all_free 4) demo_bufs demo_vq_inv demo_bufs_ok) as T. cbn zeta in T.
  rewrite decide_False in T by (intros [?|?]; [done|cbn in *; lia]). destruct T as (m' & vq' & E & I & _ & [Hd Hh] & _).
  exists m', vq'. split; [exact E|]. rewrite Hh in Hd. split; [exact Hd|]. exact (vi_num _ _ _ I).
Defined.

Definition one_out : mem * Virtqueue * Z := virtqueueSubmitSg demo_mem (demo_vq 4 0 0) demo_bufs.

Lemma one_out_eq : one_out = (one_out.1.1, demo_vq 2 2 0, 0).
Proof. vm_compute. reflexivity. Qed.

Lemma one_out_inv : vq_inv one_out.1.1 (demo_vq 2 2 0) (taken (all_free 4) 2).
Proof.
  destruct (submit_ok demo_mem (demo_vq 4 0 0) (all_free 4) demo_bufs demo_vq_inv demo_bufs_ok) as (m' & vq' & E & I & _); [done|vm_compute; lia|].
  fold one_out in E. pose proof one_out_eq as E2. rewrite E in E2 |- *. injection E2 as Ev. rewrite Ev in I. exact I.
Qed.

Lemma one_out_order : in_order (mkSim one_out.1.1 0 ∅) (taken (all_free 4) 2).
Proof. split; [done|]. vm_compute. reflexivity. Qed.

Lemma virtqueuePoll_correct_witness : exists w' vq' g' r, virtqueuePoll 11 (mkSim one_out.1.1 0 ∅) (demo_vq 2 2 0) 10 = Some (w', vq', r) /\ vq_inv (s_mem w') vq' g'.
Proof.
  destruct (virtqueuePoll_correct (demo_vq 0 0 0) in_order 1 (mkSim one_out.1.1 0 ∅) (demo_vq 2 2 0) (taken (all_free 4) 2) 10 11
    sim_device sim_clock eq_refl one_out_inv one_out_order) as (w' & vq' & g' & r & E & I & _); [lia|lia|].
  exists w', vq', g', r. split; [exact E|exact I].
Defined.

Definition demo_sim : Sim := mkSim ∅ 0 (<[cfg_queueSize 0x8000 := 64]> ∅).

Lemma virtqueueCreate_correct_witness : exists w' p' r, virtqueueCreate (fun _ => true) demo_sim (pmm_init demo_boot) 0x8000 0x9000 4 0 = (w', p', r) /\ pmm_phys_ok p'.
Proof.
  destruct (virtqueueCreate_correct (fun _ => true) demo_sim (pmm_init demo_boot) 0x8000 0x9000 4 0) as (w' & p' & r & E & Hp & _).
  - split; [exact (proj1 (pmm_init_spec demo_boot demo_boot_ok))|]. vm_compute. congruence.
  - vm_compute. split; congruence.
  - intros _. vm_compute. reflexivity.
  - exists w', p', r. split; [exact E|exact Hp].
Defined.

(** The poll returns 0 for any finished chain.  After a request that timed
    out was finished late, the poll for the next request returns 0 at once
    although that request (descriptors 2 and 3) is still with the device. *)
Definition late_mem : mem := (virtqueueSubmitSg (serve (demo_vq 0 0 0) one_out.1.1) (demo_vq 2 2 0) demo_bufs).1.1.

Definition slow_sim : Sim := mkSim late_mem 0 ∅.

(** A device that is busy: only time passes. *)
Definition busy : Machine Sim := {|
  mm := s_mem; set_mm s m := mkSim m (s_time s) (s_regs s);
  elapse s := mkSim (s_mem s) (s_time s + 1) (s_regs s); millis := s_time;
  io_rd s n a := (s, 0); io_wr s n a v := s |}.

Lemma poll_takes_late_completion : exists w' vq',
  virtqueuePoll (H := busy) 5 slow_sim (demo_vq 0 0xFFFF 0) 10 = Some (w', vq', 0) /\
  used_idx (s_mem w') vq' = 1 /\ avail_idx (s_mem w') vq' = 2 /\ numFree vq' = 2.
Proof. eexists _, _. split; [vm_compute; reflexivity|]. vm_compute. done. Qed.
