(* ===== verification/Pcie.v ===== *)
(** * PCI Express

    pcie/pcie.c: access to the configuration space of a function through
    the memory-mapped window of its segment, the base address registers,
    enumeration, capabilities and message-signalled interrupts.  The window
    is mapped page by page when it is first used.

    The operations run in a small state monad over the machine, the frame
    allocator and the driver's tables. *)

From Stdlib Require Import ZArith Lia Bool.
From stdpp Require Import base list gmap.
From S2P Require Import Prelude Mem Frames PageTable Machine.

Definition VMM_FLAG_NO_CACHE : Z := 2 ^ 4.
Definition PCIE_INVALID_VENDOR_ID : Z := 0xFFFF.
Definition PCI_REG_VENDOR_ID : Z := 0x00.
Definition PCI_REG_DEVICE_ID : Z := 0x02.
Definition PCI_REG_COMMAND : Z := 0x04.
Definition PCI_REG_STATUS : Z := 0x06.
Definition PCI_REG_REVISION_ID : Z := 0x08.
Definition PCI_REG_PROG_IF : Z := 0x09.
Definition PCI_REG_SUBCLASS : Z := 0x0A.
Definition PCI_REG_CLASS_CODE : Z := 0x0B.
Definition PCI_REG_HEADER_TYPE : Z := 0x0E.
Definition PCI_REG_BAR0 : Z := 0x10.
Definition PCI_REG_CAPABILITIES : Z := 0x34.
Definition PCI_REG_INTERRUPT_LINE : Z := 0x3C.
Definition PCI_REG_INTERRUPT_PIN : Z := 0x3D.
Definition PCI_CMD_IO_ENABLE : Z := 1.
Definition PCI_CMD_MEM_ENABLE : Z := 2.
Definition PCI_CMD_BUS_MASTER : Z := 4.
Definition PCI_STATUS_CAPABILITIES : Z := 2 ^ 4.
Definition PCI_HEADER_TYPE_MASK : Z := 0x7F.
Definition PCI_HEADER_TYPE_NORMAL : Z := 0.
Definition PCI_HEADER_TYPE_BRIDGE : Z := 1.
Definition PCI_HEADER_TYPE_MULTIFUNC : Z := 2 ^ 7.
Definition PCI_BAR_TYPE_IO : Z := 1.
Definition PCI_BAR_MEM_TYPE_MASK : Z := 6.
Definition PCI_BAR_MEM_TYPE_64 : Z := 4.
Definition PCI_BAR_MEM_PREFETCH : Z := 8.
Definition PCI_CAP_ID_MSI : Z := 0x05.
Definition PCI_CAP_ID_MSIX : Z := 0x11.
Definition PCI_MSI_CTRL_ENABLE : Z := 1.
Definition PCI_MSI_CTRL_64BIT : Z := 2 ^ 7.
Definition PCI_MSIX_CTRL_ENABLE : Z := 2 ^ 15.
Definition PCI_MSIX_CTRL_MASK_ALL : Z := 2 ^ 14.
Definition PCI_MSIX_CTRL_TABLE_SIZE : Z := 0x07FF.
Definition PCI_MSIX_ENTRY_MASKED : Z := 1.

Record AcpiMcfgAllocation := mkSegment { base_address : Z; segment_group : Z; start_bus : Z; end_bus : Z }.
Record PciBar := mkBar { phys_addr : Z; bar_size : Z; is_io : Z; is_64bit : Z; is_prefetchable : Z }.

(** Which function: the first four fields of [PciDevice]. *)
Record Bdf := mkBdf { segment : Z; bus : Z; device : Z; function : Z }.
Record PciDevice := mkDevice {
  bdf : Bdf; vendor_id : Z; device_id : Z; revision_id : Z; prog_if : Z; subclass : Z; class_code : Z; header_type : Z;
  subsystem_vendor_id : Z; subsystem_id : Z; interrupt_line : Z; interrupt_pin : Z; bars : list PciBar; bar_count : Z
}.
Definition sizeof_PciDevice : Z := 176.

Definition set_bars (d : PciDevice) (b : list PciBar) : PciDevice :=
  mkDevice (bdf d) (vendor_id d) (device_id d) (revision_id d) (prog_if d) (subclass d) (class_code d) (header_type d)
    (subsystem_vendor_id d) (subsystem_id d) (interrupt_line d) (interrupt_pin d) b (bar_count d).
Definition set_bar_count (d : PciDevice) (n : Z) : PciDevice :=
  mkDevice (bdf d) (vendor_id d) (device_id d) (revision_id d) (prog_if d) (subclass d) (class_code d) (header_type d)
    (subsystem_vendor_id d) (subsystem_id d) (interrupt_line d) (interrupt_pin d) (bars d) n.

(** ** State *)
Record Pci (W S : Type) := mkPci {
  pc_w : W; pc_fa : S; g_segments : list AcpiMcfgAllocation; g_devices : list PciDevice; g_device_capacity : Z
}.
Arguments mkPci {_ _}. Arguments pc_w {_ _}. Arguments pc_fa {_ _}. Arguments g_segments {_ _}. Arguments g_devices {_ _}. Arguments g_device_capacity {_ _}.

Definition Pc (W S A : Type) : Type := Pci W S -> Pci W S * A.
#[export] Instance pc_ret W S : MRet (Pc W S) := fun A a s => (s, a).
#[export] Instance pc_fmap W S : FMap (Pc W S) := fun A B h c s => let '(s1, a) := c s in (s1, h a).
#[export] Instance pc_bind W S : MBind (Pc W S) := fun A B k c s => let '(s1, a) := c s in k a s1.

Section Ops.
Context {W : Type} `{Machine W} {S : Type} `{FrameAllocator S}.
(** The kernel's page directory. *)
Context (pml4 : Z).
Abbreviation Pc := (Pc W S).

Definition with_w (s : Pci W S) (w : W) : Pci W S := mkPci w (pc_fa s) (g_segments s) (g_devices s) (g_device_capacity s).

(** The page at [virt], mapped to [phys] unless it is mapped already; false
    when there is no memory for a page table. *)
Definition map_window (virt phys : Z) : Pc bool := fun s =>
  if vmmVirtToPhys (mm (pc_w s)) pml4 virt =? 0 then
    let '(vm, rc) := vmmMapPage (mkVm (mm (pc_w s)) (pc_fa s)) pml4 virt phys
      (Z.lor (Z.lor VMM_FLAG_PRESENT VMM_FLAG_WRITABLE) VMM_FLAG_NO_CACHE) in
    (mkPci (set_mm (pc_w s) (vm_mem vm)) (vm_fa vm) (g_segments s) (g_devices s) (g_device_capacity s), rc =? 0)
  else (s, true).

Definition find_segment (l : list AcpiMcfgAllocation) (seg b : Z) : option AcpiMcfgAllocation :=
  List.find (fun a => (segment_group a =? seg) && (start_bus a <=? b) && (b <=? end_bus a)) l.

(** The address of the page of a function inside of a segment's window. *)
Definition ecam_page (a : AcpiMcfgAllocation) (f : Bdf) : Z :=
  u64 (u64 (u64 (base_address a + Z.shiftl (bus f - start_bus a) 20) + Z.shiftl (device f) 15) + Z.shiftl (function f) 12).

(** 0 is NULL. *)
Definition pcie_get_reg_addr (f : Bdf) (offset : Z) : Pc Z := fun s =>
  if (32 <=? device f) || (8 <=? function f) || (4096 <=? offset) then (s, 0)
  else match find_segment (g_segments s) (segment f) (bus f) with
       | None => (s, 0)
       | Some a =>
           let page_phys := ecam_page a f in
           let page_virt := u64 (page_phys + HHDM_BASE) in
           let '(s1, ok) := map_window page_virt page_phys s in
           (s1, if ok then u64 (page_virt + offset) else 0)
       end.

(** A load of [n] bytes; all ones when there is no address. *)
Definition cfg_load (n : nat) (f : Bdf) (offset : Z) : Pc Z := fun s =>
  let '(s1, addr) := pcie_get_reg_addr f offset s in
  if addr =? 0 then (s1, 256 ^ Z.of_nat n - 1)
  else let '(w, v) := io_rd (pc_w s1) n addr in (with_w s1 w, v).

Definition cfg_store (n : nat) (f : Bdf) (offset value : Z) : Pc unit := fun s =>
  let '(s1, addr) := pcie_get_reg_addr f offset s in
  if addr =? 0 then (s1, tt) else (with_w s1 (io_wr (pc_w s1) n addr value), tt).

Definition pcie_read8 (f : Bdf) (offset : Z) : Pc Z := cfg_load 1 f offset.
Definition pcie_read16 (f : Bdf) (offset : Z) : Pc Z := if has offset 1 then mret 0xFFFF else cfg_load 2 f offset.
Definition pcie_read32 (f : Bdf) (offset : Z) : Pc Z := if has offset 3 then mret 0xFFFFFFFF else cfg_load 4 f offset.
Definition pcie_write8 (f : Bdf) (offset value : Z) : Pc unit := cfg_store 1 f offset value.
Definition pcie_write16 (f : Bdf) (offset value : Z) : Pc unit := if has offset 1 then mret tt else cfg_store 2 f offset value.
Definition pcie_write32 (f : Bdf) (offset value : Z) : Pc unit := if has offset 3 then mret tt else cfg_store 4 f offset value.

(** ** Base address registers *)

(** The mask of a register: what it reads after all ones were written; the
    register is restored. *)
Definition probe_mask (f : Bdf) (offset old : Z) : Pc Z :=
  pcie_write32 f offset 0xFFFFFFFF;;
  mask ← pcie_read32 f offset;
  pcie_write32 f offset old;;
  mret mask.

(** Both halves of a 64-bit register. *)
Definition probe_mask64 (f : Bdf) (offset low high : Z) : Pc (Z * Z) :=
  pcie_write32 f offset 0xFFFFFFFF;;
  pcie_write32 f (offset + 4) 0xFFFFFFFF;;
  mask_low ← pcie_read32 f offset;
  mask_high ← pcie_read32 f (offset + 4);
  pcie_write32 f offset low;;
  pcie_write32 f (offset + 4) high;;
  mret (mask_low, mask_high).

(** Bits of a 32-bit value without the low ones [k]. *)
Definition clear32 (v k : Z) : Z := Z.land v (u32 (Z.lnot k)).
Definition size32 (mask k : Z) : Z := u32 (u32 (Z.lnot (clear32 mask k)) + 1).
Definition size64 (full_mask : Z) : Z := u64 (u64 (Z.lnot full_mask) + 1).

(** Register [i] of [max_bars]: the updated registers and how many of them it
    takes.  A field that is not assigned keeps what [bs] holds. *)
Definition parse_bar (f : Bdf) (max_bars i : Z) (bs : list PciBar) : Pc (list PciBar * Z) :=
  let bar_offset := PCI_REG_BAR0 + i * 4 in
  let b := nth (Z.to_nat i) bs (mkBar 0 0 0 0 0) in
  bar_low ← pcie_read32 f bar_offset;
  if (bar_low =? 0) || (bar_low =? 0xFFFFFFFF) then
    mret (<[Z.to_nat i := mkBar 0 0 (is_io b) (is_64bit b) (is_prefetchable b)]> bs, 1)
  else if has bar_low PCI_BAR_TYPE_IO then
    mask ← probe_mask f bar_offset bar_low;
    mret (<[Z.to_nat i := mkBar (clear32 bar_low 3) (size32 mask 3) 1 0 0]> bs, 1)
  else
    let pf := if has bar_low PCI_BAR_MEM_PREFETCH then 1 else 0 in
    if (Z.land bar_low PCI_BAR_MEM_TYPE_MASK =? PCI_BAR_MEM_TYPE_64) && (i + 1 <? max_bars) then
      bar_high ← pcie_read32 f (bar_offset + 4);
      masks ← probe_mask64 f bar_offset bar_low bar_high;
      let full_mask := Z.lor (Z.shiftl masks.2 32) (clear32 masks.1 15) in
      let n := nth (Z.to_nat (i + 1)) bs (mkBar 0 0 0 0 0) in
      mret (<[Z.to_nat (i + 1) := mkBar 0 0 (is_io n) 1 (is_prefetchable n)]>
            (<[Z.to_nat i := mkBar (Z.lor (Z.shiftl bar_high 32) (clear32 bar_low 15)) (size64 full_mask) 0 1 pf]> bs), 2)
    else
      mask ← probe_mask f bar_offset bar_low;
      mret (<[Z.to_nat i := mkBar (clear32 bar_low 15) (size32 mask 15) 0 0 pf]> bs, 1).

(** The loop from register [i] on. *)
Fixpoint parse_loop (fuel : nat) (f : Bdf) (max_bars i : Z) (bs : list PciBar) : Pc (list PciBar) :=
  match fuel with
  | O => mret bs
  | Datatypes.S k =>
      if i <? max_bars then
        r ← parse_bar f max_bars i bs;
        parse_loop k f max_bars (i + r.2) r.1
      else mret bs
  end.

Definition max_bars_of (header : Z) : Z := if Z.land header PCI_HEADER_TYPE_MASK =? PCI_HEADER_TYPE_BRIDGE then 2 else 6.

Definition pcie_parse_bars (dev : PciDevice) : Pc PciDevice :=
  let max_bars := max_bars_of (header_type dev) in
  let f := bdf dev in
  orig_cmd ← pcie_read16 f PCI_REG_COMMAND;
  pcie_write16 f PCI_REG_COMMAND (u16 (Z.land orig_cmd (Z.lnot (Z.lor PCI_CMD_IO_ENABLE PCI_CMD_MEM_ENABLE))));;
  bs ← parse_loop 6 f max_bars 0 (bars dev);
  pcie_write16 f PCI_REG_COMMAND orig_cmd;;
  mret (set_bar_count (set_bars dev bs) max_bars).

(** ** Enumeration *)

(** [krealloc] of the table to a number of bytes. *)
Context (krealloc_ok : Z -> bool).

Definition pcie_register_device (dev : PciDevice) : Pc unit := fun s =>
  if g_device_capacity s <=? Z.of_nat (length (g_devices s)) then
    let new_cap := if g_device_capacity s =? 0 then 16 else u64 (g_device_capacity s * 2) in
    if krealloc_ok (u64 (new_cap * sizeof_PciDevice)) then
      (mkPci (pc_w s) (pc_fa s) (g_segments s) (g_devices s ++ [dev]) new_cap, tt)
    else (s, tt)
  else (mkPci (pc_w s) (pc_fa s) (g_segments s) (g_devices s ++ [dev]) (g_device_capacity s), tt).

(** [stack]: what the record on the stack held before; all registers are
    parsed into it. *)
Definition pcie_probe_function (stack : list PciBar) (f : Bdf) : Pc unit :=
  vendor ← pcie_read16 f PCI_REG_VENDOR_ID;
  if vendor =? PCIE_INVALID_VENDOR_ID then mret tt
  else
    dev_id ← pcie_read16 f PCI_REG_DEVICE_ID;
    rev ← pcie_read8 f PCI_REG_REVISION_ID;
    pif ← pcie_read8 f PCI_REG_PROG_IF;
    sub ← pcie_read8 f PCI_REG_SUBCLASS;
    cls ← pcie_read8 f PCI_REG_CLASS_CODE;
    hdr ← pcie_read8 f PCI_REG_HEADER_TYPE;
    line ← pcie_read8 f PCI_REG_INTERRUPT_LINE;
    pin ← pcie_read8 f PCI_REG_INTERRUPT_PIN;
    sv ← (if Z.land hdr PCI_HEADER_TYPE_MASK =? PCI_HEADER_TYPE_NORMAL then pcie_read16 f 0x2C else mret 0);
    sid ← (if Z.land hdr PCI_HEADER_TYPE_MASK =? PCI_HEADER_TYPE_NORMAL then pcie_read16 f 0x2E else mret 0);
    dev ← pcie_parse_bars (mkDevice f vendor dev_id rev pif sub cls hdr sv sid line pin stack 0);
    pcie_register_device dev.

(** The calls of a loop, in order. *)
Fixpoint each (l : list Z) (body : Z -> Pc unit) : Pc unit :=
  match l with
  | [] => mret tt
  | x :: r => body x;; each r body
  end.

Definition pcie_probe_device (stack : list PciBar) (seg b d : Z) : Pc unit :=
  vendor ← pcie_read16 (mkBdf seg b d 0) PCI_REG_VENDOR_ID;
  if vendor =? PCIE_INVALID_VENDOR_ID then mret tt
  else
    hdr ← pcie_read8 (mkBdf seg b d 0) PCI_REG_HEADER_TYPE;
    let num_funcs := if has hdr PCI_HEADER_TYPE_MULTIFUNC then 8 else 1 in
    each (seqZ 0 num_funcs) (fun func => pcie_probe_function stack (mkBdf seg b d func)).

Fixpoint scan_segments (stack : list PciBar) (l : list AcpiMcfgAllocation) : Pc unit :=
  match l with
  | [] => mret tt
  | a :: r =>
      each (seqZ (start_bus a) (end_bus a + 1 - start_bus a)) (fun b =>
        each (seqZ 0 32) (fun d => pcie_probe_device stack (segment_group a) b d));;
      scan_segments stack r
  end.

Definition pcie_scan_all (stack : list PciBar) : Pc unit := fun s =>
  scan_segments stack (g_segments s) (mkPci (pc_w s) (pc_fa s) (g_segments s) [] (g_device_capacity s)).

(** [allocs]: the result of [acpi_get_mcfg_allocations], [None] for NULL;
    [kmalloc_ok]: whether the cache can be allocated. *)
Definition pcie_init (kmalloc_ok : Z -> bool) (stack : list PciBar) (allocs : option (list AcpiMcfgAllocation)) : Pc unit := fun s =>
  match allocs with
  | None => (s, tt)
  | Some l =>
      if (length l =? 0)%nat then (s, tt)
      else if negb (kmalloc_ok (16 * Z.of_nat (length l))) then
        (mkPci (pc_w s) (pc_fa s) [] (g_devices s) (g_device_capacity s), tt)
      else pcie_scan_all stack (mkPci (pc_w s) (pc_fa s) l (g_devices s) (g_device_capacity s))
  end.

Definition pcie_get_device_count (s : Pci W S) : Z := Z.of_nat (length (g_devices s)).
Definition pcie_get_device (s : Pci W S) (index : Z) : option PciDevice :=
  if pcie_get_device_count s <=? index then None else g_devices s !! Z.to_nat index.
Definition pcie_find_device (s : Pci W S) (vendor dev_id : Z) : option PciDevice :=
  List.find (fun d => (vendor_id d =? vendor) && (device_id d =? dev_id)) (g_devices s).
Definition pcie_find_class (s : Pci W S) (cls sub pif : Z) : option PciDevice :=
  List.find (fun d => (class_code d =? cls) && (subclass d =? sub) && ((pif =? 0xFF) || (prog_if d =? pif))) (g_devices s).

(** ** Capabilities *)

(** The walk over the list; [None] without fuel: nothing in the code bounds
    the number of rounds. *)
Fixpoint cap_loop (fuel : nat) (f : Bdf) (cap_id cap_ptr : Z) : Pc (option Z) :=
  match fuel with
  | O => mret None
  | Datatypes.S k =>
      if (0x40 <=? cap_ptr) && (cap_ptr <=? 0xFC) then
        current_id ← pcie_read8 f cap_ptr;
        if current_id =? cap_id then mret (Some cap_ptr)
        else
          next ← pcie_read8 f (cap_ptr + 1);
          cap_loop k f cap_id (Z.land next (u8 (Z.lnot 3)))
      else mret (Some 0)
  end.

Definition pcie_find_capability (fuel : nat) (f : Bdf) (cap_id : Z) : Pc (option Z) :=
  status ← pcie_read16 f PCI_REG_STATUS;
  if negb (has status PCI_STATUS_CAPABILITIES) then mret (Some 0)
  else
    p ← pcie_read8 f PCI_REG_CAPABILITIES;
    cap_loop fuel f cap_id (Z.land p (u8 (Z.lnot 3))).

Fixpoint ext_loop (fuel : nat) (f : Bdf) (cap_id offset : Z) : Pc (option Z) :=
  match fuel with
  | O => mret None
  | Datatypes.S k =>
      if (0x100 <=? offset) && (offset <=? 0xFFC) then
        header ← pcie_read32 f offset;
        if (header =? 0) || (header =? 0xFFFFFFFF) then mret (Some 0)
        else if Z.land header 0xFFFF =? cap_id then mret (Some offset)
        else
          let next_offset := Z.land (Z.shiftr header 20) 0xFFF in
          if (next_offset =? 0) || (next_offset <=? offset) then mret (Some 0)
          else ext_loop k f cap_id next_offset
      else mret (Some 0)
  end.

Definition pcie_find_extended_capability (f : Bdf) (cap_id : Z) : Pc (option Z) := ext_loop (Z.to_nat 0x1000) f cap_id 0x100.

(** ** Interrupts *)

Definition pcie_enable_bus_master (f : Bdf) : Pc unit :=
  cmd ← pcie_read16 f PCI_REG_COMMAND;
  pcie_write16 f PCI_REG_COMMAND (Z.lor cmd (Z.lor PCI_CMD_BUS_MASTER PCI_CMD_MEM_ENABLE)).

(** What to do with the capability found; -1 when there is none. *)
Definition with_cap (fuel : nat) (f : Bdf) (cap_id : Z) (body : Z -> Pc Z) : Pc (option Z) :=
  cap ← pcie_find_capability fuel f cap_id;
  match cap with
  | None => mret None
  | Some c => if c =? 0 then mret (Some (-1)) else Some <$> body c
  end.

Definition msg_addr (lapic_id : Z) : Z := Z.lor 0xFEE00000 (u32 (Z.shiftl lapic_id 12)).

Definition pcie_enable_msi (fuel : nat) (f : Bdf) (vector lapic_id : Z) : Pc (option Z) :=
  with_cap fuel f PCI_CAP_ID_MSI (fun cap =>
    ctrl ← pcie_read16 f (cap + 2);
    pcie_write32 f (cap + 4) (msg_addr lapic_id);;
    (if has ctrl PCI_MSI_CTRL_64BIT
     then pcie_write32 f (cap + 8) 0;; pcie_write16 f (cap + 12) vector
     else pcie_write16 f (cap + 8) vector);;
    pcie_write16 f (cap + 2) (Z.lor ctrl PCI_MSI_CTRL_ENABLE);;
    pcie_enable_bus_master f;;
    mret 0).

Definition pcie_disable_msi (fuel : nat) (f : Bdf) : Pc (option Z) :=
  with_cap fuel f PCI_CAP_ID_MSI (fun cap =>
    ctrl ← pcie_read16 f (cap + 2);
    pcie_write16 f (cap + 2) (u16 (Z.land ctrl (Z.lnot PCI_MSI_CTRL_ENABLE)));;
    mret 0).

Definition pcie_get_msix_table_size (fuel : nat) (f : Bdf) : Pc (option Z) :=
  cap ← pcie_find_capability fuel f PCI_CAP_ID_MSIX;
  match cap with
  | None => mret None
  | Some c =>
      if c =? 0 then mret (Some 0)
      else
        ctrl ← pcie_read16 f (c + 2);
        mret (Some (Z.land ctrl PCI_MSIX_CTRL_TABLE_SIZE + 1))
  end.

(** The address of an entry of the table, 0 for NULL. *)
Definition pcie_get_msix_entry (fuel : nat) (dev : PciDevice) (table_index : Z) : Pc (option Z) :=
  let f := bdf dev in
  cap ← pcie_find_capability fuel f PCI_CAP_ID_MSIX;
  match cap with
  | None => mret None
  | Some c =>
      if c =? 0 then mret (Some 0)
      else
        size ← pcie_get_msix_table_size fuel f;
        match size with
        | None => mret None
        | Some table_size =>
            if table_size <=? table_index then mret (Some 0)
            else
              table_info ← pcie_read32 f (c + 4);
              let bir := Z.land table_info 7 in
              let table_offset := clear32 table_info 7 in
              let b := nth (Z.to_nat bir) (bars dev) (mkBar 0 0 0 0 0) in
              if (bar_count dev <=? bir) || (phys_addr b =? 0) then mret (Some 0)
              else
                let entry_phys := u64 (phys_addr b + table_offset + table_index * 16) in
                let page_phys := page_down entry_phys in
                ok ← map_window (u64 (page_phys + HHDM_BASE)) page_phys;
                mret (Some (if (ok : bool) then u64 (entry_phys + HHDM_BASE) else 0))
        end
  end.

(** Registers of an entry: message address (low, high), data, control. *)
Definition io_load (n : nat) (a : Z) : Pc Z := fun s => let '(w, v) := io_rd (pc_w s) n a in (with_w s w, v).
Definition io_store (n : nat) (a v : Z) : Pc unit := fun s => (with_w s (io_wr (pc_w s) n a v), tt).

Definition set_vector_ctrl (entry : Z) (change : Z -> Z) : Pc unit :=
  ctrl ← io_load 4 (entry + 12);
  io_store 4 (entry + 12) (change ctrl).

Definition pcie_enable_msix_vector (fuel : nat) (dev : PciDevice) (table_index vector lapic_id : Z) : Pc (option Z) :=
  e ← pcie_get_msix_entry fuel dev table_index;
  match e with
  | None => mret None
  | Some entry =>
      if entry =? 0 then mret (Some (-1))
      else
        io_store 4 entry (msg_addr lapic_id);;
        io_store 4 (entry + 4) 0;;
        io_store 4 (entry + 8) vector;;
        set_vector_ctrl entry (fun c => u32 (Z.land c (Z.lnot PCI_MSIX_ENTRY_MASKED)));;
        mret (Some 0)
  end.

Definition pcie_mask_msix_vector (fuel : nat) (dev : PciDevice) (table_index masked : Z) : Pc (option Z) :=
  e ← pcie_get_msix_entry fuel dev table_index;
  match e with
  | None => mret None
  | Some entry =>
      if entry =? 0 then mret (Some (-1))
      else
        set_vector_ctrl entry (fun c => if negb (masked =? 0) then Z.lor c PCI_MSIX_ENTRY_MASKED else u32 (Z.land c (Z.lnot PCI_MSIX_ENTRY_MASKED)));;
        mret (Some 0)
  end.

Definition pcie_enable_msix (fuel : nat) (f : Bdf) : Pc (option Z) :=
  cap ← pcie_find_capability fuel f PCI_CAP_ID_MSIX;
  match cap with
  | None => mret None
  | Some c =>
      if c =? 0 then mret (Some (-1))
      else
        off ← pcie_disable_msi fuel f;
        match off with
        | None => mret None
        | Some _ =>
            ctrl ← pcie_read16 f (c + 2);
            pcie_write16 f (c + 2) (u16 (Z.land (Z.lor ctrl PCI_MSIX_CTRL_ENABLE) (Z.lnot PCI_MSIX_CTRL_MASK_ALL)));;
            pcie_enable_bus_master f;;
            mret (Some 0)
        end
  end.

Definition pcie_disable_msix (fuel : nat) (f : Bdf) : Pc (option Z) :=
  with_cap fuel f PCI_CAP_ID_MSIX (fun cap =>
    ctrl ← pcie_read16 f (cap + 2);
    pcie_write16 f (cap + 2) (u16 (Z.land ctrl (Z.lnot PCI_MSIX_CTRL_ENABLE)));;
    mret 0).
End Ops.
