(* ===== verification/PcieBars.v ===== *)
(** * Base address registers

    Sizing a register: write all ones, read the mask, restore.  Against a
    function whose registers behave as the PCI specification says, while
    decoding is disabled, the sizes and addresses are those of the function
    and every register is as before. *)

From Stdlib Require Import ZArith Lia Bool.
From stdpp Require Import base list gmap.
From S2P Require Import Prelude Mem Frames PageTable Machine Pcie.

(** ** Bits *)

Lemma land_high x w k : 0 <= x < 2 ^ w -> 0 <= k <= w -> Z.land x (2 ^ w - 2 ^ k) = x - x mod 2 ^ k.
Proof.
  intros Hx Hk. assert (E : 2 ^ w - 2 ^ k = Z.shiftl (Z.ones (w - k)) k).
  { rewrite Z.shiftl_mul_pow2, Z.ones_equiv by lia. rewrite <- Z.sub_1_r, Z.mul_sub_distr_r, <- Z.pow_add_r by lia. do 2 f_equal; [f_equal|]; lia. }
  assert (E2 : x - x mod 2 ^ k = Z.shiftl (Z.shiftr x k) k).
  { rewrite Z.shiftl_mul_pow2, Z.shiftr_div_pow2 by lia. pose proof (Z.div_mod x (2 ^ k) ltac:(lia)). lia. }
  rewrite E, E2. apply Z.bits_inj'. intros n Hn. rewrite Z.land_spec, !Z.shiftl_spec by lia.
  destruct (Z.lt_ge_cases n k) as [Hlt|Hge].
  - rewrite !(Z.testbit_neg_r _ (n - k)) by lia. by rewrite andb_false_r.
  - rewrite Z.shiftr_spec by lia. replace (n - k + k) with n by lia. destruct (Z.lt_ge_cases n w) as [Hw|Hw].
    + rewrite Z.ones_spec_low by lia. by rewrite andb_true_r.
    + rewrite (testbit_above x n w) by done. done.
Qed.

Lemma lor_low a f k : 0 <= k -> a mod 2 ^ k = 0 -> 0 <= f < 2 ^ k -> Z.lor a f = a + f.
Proof.
  intros Hk Ha Hf. assert (Hl : Z.land a f = 0).
  { apply Z.bits_inj'. intros n Hn. rewrite Z.land_spec, Z.bits_0. destruct (Z.lt_ge_cases n k).
    - rewrite <- (Z.mod_pow2_bits_low a k n) by lia. rewrite Ha, Z.bits_0. done.
    - rewrite (testbit_above f n k) by done. apply andb_false_r. }
  pose proof (Z.add_lor_land a f). lia.
Qed.

Lemma clear32_mod v j : 0 <= v < 2 ^ 32 -> 0 <= j <= 31 -> clear32 v (2 ^ j - 1) = v - v mod 2 ^ j.
Proof.
  intros Hv Hj. unfold clear32. assert (u32 (Z.lnot (2 ^ j - 1)) = 2 ^ 32 - 2 ^ j) as ->; [|apply land_high; lia].
  unfold u32, Z.lnot. assert (0 < 2 ^ j <= 2 ^ 31) by (split; [lia|apply Z.pow_le_mono_r; lia]).
  symmetry. apply Z.mod_unique with (-1); lia.
Qed.

(** ** Access to the registers of one function *)
Section Access.
Context {W : Type} `{Machine W} `{!MachineLaws W} {S : Type} `{FrameAllocator S}.
Context (pml4 : Z).
Implicit Types (s : Pci W S) (w : W) (f : Bdf).

(** The registers of [f] are at [A], mapped. *)
Record at_page s f (A : Z) : Prop := {
  ap_seg : exists a, find_segment (g_segments s) (segment f) (bus f) = Some a /\ A = u64 (ecam_page a f + HHDM_BASE);
  ap_fn : device f < 32 /\ function f < 8;
  ap_addr : 0 < A /\ A + 4096 <= 2 ^ 64;
  ap_mapped : vmmVirtToPhys (mm (pc_w s)) pml4 A <> 0
}.

Lemma at_page_with s f A w : at_page s f A -> mm w = mm (pc_w s) -> at_page (with_w s w) f A.
Proof. intros [Hs Hf Ha Hm] E. constructor; cbn [with_w g_segments pc_w]; [done..|by rewrite E]. Qed.

Lemma reg_addr_at s f A off : at_page s f A -> 0 <= off < 4096 -> pcie_get_reg_addr pml4 f off s = (s, A + off).
Proof.
  intros [(a & Ha & EA) [Hd Hfn] Hb Hm] Ho. unfold pcie_get_reg_addr.
  destruct (Z.leb_spec 32 (device f)); [lia|]. destruct (Z.leb_spec 8 (function f)); [lia|]. destruct (Z.leb_spec 4096 off); [lia|]. cbn [orb].
  rewrite Ha, <- EA. unfold map_window. destruct (Z.eqb_spec (vmmVirtToPhys (mm (pc_w s)) pml4 A) 0); [done|].
  f_equal. apply u64_id. unfold is_u64. lia.
Qed.

Lemma cfg_load_at s f A n off : at_page s f A -> 0 <= off < 4096 ->
  cfg_load pml4 n f off s = (with_w s (io_rd (pc_w s) n (A + off)).1, (io_rd (pc_w s) n (A + off)).2).
Proof.
  intros P Ho. unfold cfg_load. rewrite (reg_addr_at s f A) by done. destruct (ap_addr _ _ _ P). destruct (Z.eqb_spec (A + off) 0); [lia|].
  by destruct (io_rd _ _ _).
Qed.

Lemma cfg_store_at s f A n off v : at_page s f A -> 0 <= off < 4096 ->
  cfg_store pml4 n f off v s = (with_w s (io_wr (pc_w s) n (A + off) v), tt).
Proof.
  intros P Ho. unfold cfg_store. rewrite (reg_addr_at s f A) by done. destruct (ap_addr _ _ _ P). destruct (Z.eqb_spec (A + off) 0); [lia|]. done.
Qed.

Lemma has3 off : off mod 4 = 0 -> has off 3 = false.
Proof. intros Ho. unfold has. change 3 with (Z.ones 2). rewrite Z.land_ones by lia. change (2 ^ 2) with 4. by rewrite Ho. Qed.
Lemma has1 off : off mod 2 = 0 -> has off 1 = false.
Proof. intros Ho. unfold has. change 1 with (Z.ones 1) at 1. rewrite Z.land_ones by lia. change (2 ^ 1) with 2. by rewrite Ho. Qed.

(** ** What a function does with its registers

    [B w i] is base address register [i] of [n], of which the bits [mask i]
    can be written and the others read [fixd i]; [C w] is the command
    register.  A base address register may be written while decoding is
    disabled. *)
Record bar_regs (A n : Z) (mask fixd : Z -> Z) (B : W -> Z -> Z) (C : W -> Z) : Prop := {
  br_rd : forall w i, 0 <= i < n -> let r := io_rd w 4 (A + (PCI_REG_BAR0 + i * 4)) in
    r.2 = B w i /\ (forall j, 0 <= j < n -> B r.1 j = B w j) /\ C r.1 = C w;
  br_wr : forall w i v, 0 <= i < n -> Z.land (C w) 3 = 0 -> let w' := io_wr w 4 (A + (PCI_REG_BAR0 + i * 4)) v in
    (forall j, 0 <= j < n -> B w' j = if j =? i then Z.lor (Z.land v (mask i)) (fixd i) else B w j) /\ C w' = C w;
  br_cmd_rd : forall w, let r := io_rd w 2 (A + PCI_REG_COMMAND) in
    r.2 = C w /\ (forall j, 0 <= j < n -> B r.1 j = B w j) /\ C r.1 = C w;
  br_cmd_wr : forall w v, 0 <= v < 2 ^ 16 -> let w' := io_wr w 2 (A + PCI_REG_COMMAND) v in
    C w' = v /\ (forall j, 0 <= j < n -> B w' j = B w j);
  br_cmd_range : forall w, 0 <= C w < 2 ^ 16
}.

Context (f : Bdf) (A n : Z) (mask fixd : Z -> Z) (B : W -> Z -> Z) (C : W -> Z) (HB : bar_regs A n mask fixd B C) (Hn : n <= 6).

(** Nothing but time has passed. *)
Definition quiet (w w' : W) : Prop := mm w' = mm w /\ (forall j, 0 <= j < n -> B w' j = B w j) /\ C w' = C w.

Lemma quiet_refl w : quiet w w.
Proof. done. Qed.
Lemma quiet_trans w1 w2 w3 : quiet w1 w2 -> quiet w2 w3 -> quiet w1 w3.
Proof. intros (A1 & A2 & A3) (B1 & B2 & B3). split_and!; [congruence| |congruence]. intros j Hj. rewrite B2, A2 by done. done. Qed.

Lemma read_bar s i : at_page s f A -> 0 <= i < n ->
  exists w', pcie_read32 pml4 f (PCI_REG_BAR0 + i * 4) s = (with_w s w', B (pc_w s) i) /\ quiet (pc_w s) w' /\ at_page (with_w s w') f A.
Proof.
  intros P Hi. unfold pcie_read32. rewrite has3 by (unfold PCI_REG_BAR0; divlia). rewrite (cfg_load_at s f A) by (done || unfold PCI_REG_BAR0; lia).
  destruct (br_rd _ _ _ _ _ _ HB (pc_w s) i Hi) as (-> & E2 & E3). pose proof (mm_io_rd (pc_w s) 4 (A + (PCI_REG_BAR0 + i * 4))) as E1.
  eexists. split; [done|]. split; [done|]. by apply at_page_with.
Qed.

Lemma write_bar s i v : at_page s f A -> 0 <= i < n -> Z.land (C (pc_w s)) 3 = 0 ->
  exists w', pcie_write32 pml4 f (PCI_REG_BAR0 + i * 4) v s = (with_w s w', tt) /\ mm w' = mm (pc_w s) /\ C w' = C (pc_w s) /\
    (forall j, 0 <= j < n -> B w' j = if j =? i then Z.lor (Z.land v (mask i)) (fixd i) else B (pc_w s) j) /\ at_page (with_w s w') f A.
Proof.
  intros P Hi Hc. unfold pcie_write32. rewrite has3 by (unfold PCI_REG_BAR0; divlia). rewrite (cfg_store_at s f A) by (done || unfold PCI_REG_BAR0; lia).
  destruct (br_wr _ _ _ _ _ _ HB (pc_w s) i v Hi Hc) as [E2 E3]. pose proof (mm_io_wr (pc_w s) 4 (A + (PCI_REG_BAR0 + i * 4)) v) as E1.
  eexists. split; [done|]. split_and!; try done. by apply at_page_with.
Qed.

Lemma with_w_w s w w' : with_w (with_w s w) w' = with_w s w'.
Proof. done. Qed.

(** A register that reads back what was written, restored. *)
Lemma probe_mask_ok s i : at_page s f A -> 0 <= i < n -> Z.land (C (pc_w s)) 3 = 0 ->
  Z.lor (Z.land (B (pc_w s) i) (mask i)) (fixd i) = B (pc_w s) i ->
  exists w', probe_mask pml4 f (PCI_REG_BAR0 + i * 4) (B (pc_w s) i) s = (with_w s w', Z.lor (Z.land 0xFFFFFFFF (mask i)) (fixd i)) /\
    quiet (pc_w s) w' /\ at_page (with_w s w') f A.
Proof.
  intros P Hi Hc Hold. unfold probe_mask, mbind, pc_bind.
  destruct (write_bar s i 0xFFFFFFFF P Hi Hc) as (w1 & -> & M1 & C1 & B1 & P1).
  destruct (read_bar (with_w s w1) i P1 Hi) as (w2 & -> & (M2 & B2 & C2) & P2). cbn [pc_w with_w] in *.
  destruct (write_bar (with_w s w2) i (B (pc_w s) i) P2 Hi ltac:(cbn [pc_w with_w]; congruence)) as (w3 & E3 & M3 & C3 & B3 & P3).
  rewrite with_w_w in E3. rewrite !with_w_w. rewrite E3. cbn [pc_w with_w] in *. exists w3. rewrite B1, Z.eqb_refl by done.
  split; [done|]. split; [|done]. split_and!; [congruence| |congruence]. intros j Hj. rewrite B3 by done. destruct (Z.eqb_spec j i) as [->|Hne]; [done|].
  rewrite B2, B1 by done. by destruct (Z.eqb_spec j i).
Qed.

Lemma probe_mask64_ok s i : at_page s f A -> 0 <= i -> i + 1 < n -> Z.land (C (pc_w s)) 3 = 0 ->
  Z.lor (Z.land (B (pc_w s) i) (mask i)) (fixd i) = B (pc_w s) i ->
  Z.lor (Z.land (B (pc_w s) (i + 1)) (mask (i + 1))) (fixd (i + 1)) = B (pc_w s) (i + 1) ->
  exists w', probe_mask64 pml4 f (PCI_REG_BAR0 + i * 4) (B (pc_w s) i) (B (pc_w s) (i + 1)) s =
      (with_w s w', (Z.lor (Z.land 0xFFFFFFFF (mask i)) (fixd i), Z.lor (Z.land 0xFFFFFFFF (mask (i + 1))) (fixd (i + 1)))) /\
    quiet (pc_w s) w' /\ at_page (with_w s w') f A.
Proof.
  intros P Hi Hi1 Hc Ho1 Ho2. unfold probe_mask64, mbind, pc_bind. assert (Hk0 : 0 <= i < n) by lia. assert (Hk1 : 0 <= i + 1 < n) by lia.
  replace (PCI_REG_BAR0 + i * 4 + 4) with (PCI_REG_BAR0 + (i + 1) * 4) by lia.
  destruct (write_bar s i 0xFFFFFFFF P Hk0 Hc) as (w1 & -> & M1 & C1 & B1 & P1).
  destruct (write_bar (with_w s w1) (i + 1) 0xFFFFFFFF P1 Hk1 ltac:(cbn [pc_w with_w]; congruence)) as (w2 & -> & M2 & C2 & B2 & P2). cbn [pc_w with_w] in *.
  rewrite with_w_w in *. destruct (read_bar (with_w s w2) i P2 Hk0) as (w3 & -> & (M3 & B3 & C3) & P3). cbn [pc_w with_w] in *.
  rewrite with_w_w in *. destruct (read_bar (with_w s w3) (i + 1) P3 Hk1) as (w4 & -> & (M4 & B4 & C4) & P4). cbn [pc_w with_w] in *.
  rewrite with_w_w in *. destruct (write_bar (with_w s w4) i (B (pc_w s) i) P4 Hk0 ltac:(cbn [pc_w with_w]; congruence)) as (w5 & -> & M5 & C5 & B5 & P5). cbn [pc_w with_w] in *.
  rewrite with_w_w in *. destruct (write_bar (with_w s w5) (i + 1) (B (pc_w s) (i + 1)) P5 Hk1 ltac:(cbn [pc_w with_w]; congruence)) as (w6 & -> & M6 & C6 & B6 & P6). cbn [pc_w with_w] in *.
  rewrite with_w_w in *. exists w6. split.
  - unfold mret, pc_ret. do 2 f_equal.
    + rewrite B2 by done. destruct (Z.eqb_spec i (i + 1)); [lia|]. rewrite B1 by done. by rewrite Z.eqb_refl.
    + rewrite B3, B2 by done. by rewrite Z.eqb_refl.
  - split; [|done]. split_and!; [congruence| |congruence]. intros j Hj. rewrite B6 by done. destruct (Z.eqb_spec j (i + 1)) as [->|Hne]; [done|].
    rewrite B5 by done. destruct (Z.eqb_spec j i) as [->|Hne']; [done|]. rewrite B4, B3, B2 by done.
    destruct (Z.eqb_spec j (i + 1)); [done|]. rewrite B1 by done. by destruct (Z.eqb_spec j i).
Qed.
End Access.

(** ** The kinds of registers *)
Inductive BarKind :=
| NoBar
| IoBar (k base : Z)
| Mem32Bar (k base : Z) (pf : bool)
| Mem64Bar (k base : Z) (pf : bool).

Definition bar_width (b : BarKind) : Z := match b with Mem64Bar _ _ _ => 2 | _ => 1 end.

(** The record for a register of the kind, of size [2^k]. *)
Definition bar_record (b : BarKind) (old : PciBar) : PciBar :=
  match b with
  | NoBar => mkBar 0 0 (is_io old) (is_64bit old) (is_prefetchable old)
  | IoBar k base => mkBar base (2 ^ k) 1 0 0
  | Mem32Bar k base pf => mkBar base (2 ^ k) 0 0 (Z.b2z pf)
  | Mem64Bar k base pf => mkBar base (2 ^ k) 0 1 (Z.b2z pf)
  end.

(** Registers [i] on in the array. *)
Definition bar_entries (i : Z) (b : BarKind) (bs : list PciBar) : list PciBar :=
  let old j := nth (Z.to_nat j) bs (mkBar 0 0 0 0 0) in
  let bs1 := <[Z.to_nat i := bar_record b (old i)]> bs in
  match b with
  | Mem64Bar _ _ _ => <[Z.to_nat (i + 1) := mkBar 0 0 (is_io (old (i + 1))) 1 (is_prefetchable (old (i + 1)))]> bs1
  | _ => bs1
  end.

Lemma low_restore b t k : 0 <= k <= 32 -> 0 <= b < 2 ^ 32 -> b mod 2 ^ k = 0 -> 0 <= t < 2 ^ k \/ b = 0 /\ k = 32 /\ 0 <= t < 16 ->
  Z.lor (Z.land (b + t) (2 ^ 32 - 2 ^ k)) t = b + t.
Proof.
  intros Hk Hb Hm [Ht|(-> & -> & Ht)].
  - assert (Hle : b + t < 2 ^ 32).
    { pose proof (Z.div_mod b (2 ^ k) ltac:(lia)). assert (Hd : b / 2 ^ k < 2 ^ (32 - k)) by (apply Z.div_lt_upper_bound; [lia|]; rewrite <- Z.pow_add_r by lia; replace (k + (32 - k)) with 32 by lia; lia).
      assert (He : 2 ^ 32 = 2 ^ k * 2 ^ (32 - k)) by (rewrite <- Z.pow_add_r by lia; f_equal; lia). rewrite He. nia. }
    rewrite land_high by lia. assert (E : (b + t) mod 2 ^ k = t) by (rewrite Z.add_mod, Hm, Z.add_0_l, Z.mod_mod by lia; apply Z.mod_small; lia).
    rewrite E, Z.add_simpl_r. apply (lor_low b t k); lia.
  - rewrite Z.sub_diag, Z.land_0_r. done.
Qed.

Lemma ones_mask k t j : 0 <= j <= k -> k <= 32 -> 0 <= t < 2 ^ j -> Z.lor (Z.land 0xFFFFFFFF (2 ^ 32 - 2 ^ k)) t = 2 ^ 32 - 2 ^ k + t.
Proof.
  intros Hj Hk Ht. rewrite (land_high 0xFFFFFFFF 32 k) by lia.
  assert (E : 0xFFFFFFFF mod 2 ^ k = 2 ^ k - 1).
  { symmetry. apply Z.mod_unique with (2 ^ (32 - k) - 1); [lia|]. rewrite Z.mul_sub_distr_l, <- Z.pow_add_r by lia. replace (k + (32 - k)) with 32 by lia. lia. }
  rewrite E. replace (0xFFFFFFFF - (2 ^ k - 1)) with (2 ^ 32 - 2 ^ k) by lia. apply (lor_low _ t j); [lia| |done].
  replace (2 ^ 32 - 2 ^ k) with ((2 ^ (32 - j) - 2 ^ (k - j)) * 2 ^ j); [apply Z.mod_mul; lia|].
  rewrite Z.mul_sub_distr_r, <- !Z.pow_add_r by lia. f_equal; f_equal; lia.
Qed.

Lemma mask_mod k t j : 0 <= j <= k -> k <= 32 -> 0 <= t < 2 ^ j -> (2 ^ 32 - 2 ^ k + t) mod 2 ^ j = t.
Proof.
  intros Hj Hk Ht. replace (2 ^ 32 - 2 ^ k + t) with (t + (2 ^ (32 - j) - 2 ^ (k - j)) * 2 ^ j).
  - rewrite Z.mod_add by lia. apply Z.mod_small. lia.
  - rewrite Z.mul_sub_distr_r, <- !Z.pow_add_r by lia. replace (32 - j + j) with 32 by lia. replace (k - j + j) with k by lia. lia.
Qed.

Lemma mask_bound k t j : 0 <= j <= k -> k <= 32 -> 0 <= t < 2 ^ j -> (k < 32 \/ t < 2 ^ 32) -> 0 <= 2 ^ 32 - 2 ^ k + t < 2 ^ 32.
Proof.
  intros Hj Hk Ht _. assert (2 ^ k <= 2 ^ 32) by (apply Z.pow_le_mono_r; lia). assert (2 ^ j <= 2 ^ k) by (apply Z.pow_le_mono_r; lia). lia.
Qed.

Lemma size32_ok k t j : 0 <= j <= k -> k < 32 -> j <= 31 -> 0 <= t < 2 ^ j -> size32 (2 ^ 32 - 2 ^ k + t) (2 ^ j - 1) = 2 ^ k.
Proof.
  intros Hj Hk Hj31 Ht. assert (0 < 2 ^ k <= 2 ^ 31) by (split; [lia|apply Z.pow_le_mono_r; lia]).
  unfold size32. rewrite clear32_mod by (lia || (apply (mask_bound k t j); lia)). rewrite mask_mod by lia.
  replace (2 ^ 32 - 2 ^ k + t - t) with (2 ^ 32 - 2 ^ k) by lia. unfold Z.lnot, u32.
  assert (E : Z.pred (- (2 ^ 32 - 2 ^ k)) mod 2 ^ 32 = 2 ^ k - 1) by (symmetry; apply Z.mod_unique with (-1); lia).
  rewrite E, Z.sub_add. apply Z.mod_small. lia.
Qed.

(** The halves of a 64-bit register of size [2^k]. *)
Definition kl (k : Z) : Z := Z.min k 32.
Definition kh (k : Z) : Z := Z.max 0 (k - 32).

Lemma mask64_join k : 4 <= k < 64 -> (2 ^ 32 - 2 ^ kh k) * 2 ^ 32 + (2 ^ 32 - 2 ^ kl k) = 2 ^ 64 - 2 ^ k.
Proof.
  intros Hk. unfold kh, kl. destruct (Z.le_gt_cases 32 k).
  - rewrite Z.max_r, Z.min_r by lia. rewrite Z.mul_sub_distr_r, <- !Z.pow_add_r by lia. replace (k - 32 + 32) with k by lia. change (2 ^ (32 + 32)) with (2 ^ 64). lia.
  - rewrite Z.max_l, Z.min_l by lia. lia.
Qed.

Lemma base_halves k b : 4 <= k < 64 -> b mod 2 ^ k = 0 -> (b mod 2 ^ 32) mod 2 ^ kl k = 0 /\ (b / 2 ^ 32) mod 2 ^ kh k = 0.
Proof.
  intros Hk Hb. apply Z.mod_divide in Hb as [c ->]; [|lia]. unfold kl, kh. destruct (Z.le_gt_cases 32 k).
  - rewrite Z.min_r, Z.max_r by lia. replace (c * 2 ^ k) with (c * 2 ^ (k - 32) * 2 ^ 32) by (rewrite <- Z.mul_assoc, <- Z.pow_add_r by lia; do 2 f_equal; lia).
    rewrite Z.mod_mul, Z.div_mul by lia. split; [done|]. apply Z.mod_mul. lia.
  - rewrite Z.min_l, Z.max_l by lia. split; [|apply Z.mod_1_r].
    assert (E : 2 ^ 32 = 2 ^ k * 2 ^ (32 - k)) by (rewrite <- Z.pow_add_r by lia; f_equal; lia).
    rewrite E, (Z.mul_comm c), Z.mul_mod_distr_l by lia. rewrite Z.mul_comm. apply Z.mod_mul. lia.
Qed.

Lemma size64_ok k : 0 <= k < 64 -> size64 (2 ^ 64 - 2 ^ k) = 2 ^ k.
Proof.
  intros Hk. assert (0 < 2 ^ k <= 2 ^ 63) by (split; [lia|apply Z.pow_le_mono_r; lia]). unfold size64, u64, Z.lnot.
  assert (E : Z.pred (- (2 ^ 64 - 2 ^ k)) mod 2 ^ 64 = 2 ^ k - 1) by (symmetry; apply Z.mod_unique with (-1); lia).
  rewrite E, Z.sub_add. apply Z.mod_small. lia.
Qed.

Lemma join_halves h l : 0 <= l < 2 ^ 32 -> 0 <= h -> Z.lor (Z.shiftl h 32) l = h * 2 ^ 32 + l.
Proof. intros Hl Hh. rewrite Z.shiftl_mul_pow2 by lia. apply (lor_low _ l 32); [lia|apply Z.mod_mul; lia|done]. Qed.

Lemma bar_type_bits t : 0 <= t < 16 -> forall b, b mod 16 = 0 -> Z.land (b + t) PCI_BAR_MEM_TYPE_MASK = Z.land t 6 /\
  has (b + t) PCI_BAR_TYPE_IO = has t 1 /\ has (b + t) PCI_BAR_MEM_PREFETCH = has t 8.
Proof.
  intros Ht b Hb. rewrite <- (lor_low b t 4) by (lia || done).
  assert (E : forall x, 0 <= x < 16 -> Z.land (Z.lor b t) x = Z.land t x).
  { intros x Hx. rewrite Z.land_lor_distr_l. assert (Z.land b x = 0) as ->; [|done]. apply Z.bits_inj'. intros n Hn. rewrite Z.land_spec, Z.bits_0.
    destruct (Z.lt_ge_cases n 4); [|rewrite (testbit_above x n 4) by done; apply andb_false_r].
    rewrite <- (Z.mod_pow2_bits_low b 4 n) by lia. change (2 ^ 4) with 16. by rewrite Hb, Z.bits_0. }
  unfold has, PCI_BAR_MEM_TYPE_MASK, PCI_BAR_TYPE_IO, PCI_BAR_MEM_PREFETCH. rewrite !E by lia. done.
Qed.

Lemma mod16 b k : 4 <= k -> b mod 2 ^ k = 0 -> b mod 16 = 0.
Proof.
  intros Hk Hb. apply Z.mod_divide in Hb as [c ->]; [|lia]. replace k with (k - 4 + 4) by lia. rewrite Z.pow_add_r, Z.mul_assoc by lia.
  change (2 ^ 4) with 16. apply Z.mod_mul. lia.
Qed.

Section Parse.
Context {W : Type} `{Machine W} `{!MachineLaws W} {S : Type} `{FrameAllocator S}.
Context (pml4 : Z) (f : Bdf) (A n : Z) (mask fixd : Z -> Z) (B : W -> Z -> Z) (C : W -> Z) (HB : bar_regs A n mask fixd B C) (Hn : n <= 6).
Implicit Types (s : Pci W S) (w : W) (b : BarKind).

(** Register [i] (and [i + 1]) is of the kind. *)
Definition regs_of w (i : Z) b : Prop :=
  match b with
  | NoBar => B w i = 0
  | IoBar k base => 2 <= k < 32 /\ 0 <= base < 2 ^ 32 /\ base mod 2 ^ k = 0 /\ B w i = base + 1 /\ mask i = 2 ^ 32 - 2 ^ k /\ fixd i = 1
  | Mem32Bar k base pf => 4 <= k < 32 /\ 0 < base < 2 ^ 32 /\ base mod 2 ^ k = 0 /\ B w i = base + 8 * Z.b2z pf /\
      mask i = 2 ^ 32 - 2 ^ k /\ fixd i = 8 * Z.b2z pf
  | Mem64Bar k base pf => 4 <= k < 64 /\ 0 <= base < 2 ^ 64 /\ base mod 2 ^ k = 0 /\ i + 1 < n /\
      B w i = base mod 2 ^ 32 + (4 + 8 * Z.b2z pf) /\ mask i = 2 ^ 32 - 2 ^ kl k /\ fixd i = 4 + 8 * Z.b2z pf /\
      B w (i + 1) = base / 2 ^ 32 /\ mask (i + 1) = 2 ^ 32 - 2 ^ kh k /\ fixd (i + 1) = 0
  end.

Definition parsed_one s i b (bs : list PciBar) : Prop :=
  exists w', parse_bar pml4 f n i bs s = (with_w s w', (bar_entries i b bs, bar_width b)) /\ quiet n B C (pc_w s) w' /\ at_page pml4 (with_w s w') f A.

Lemma parse_io s i bs k base : at_page pml4 s f A -> 0 <= i < n -> Z.land (C (pc_w s)) 3 = 0 -> regs_of (pc_w s) i (IoBar k base) -> parsed_one s i (IoBar k base) bs.
Proof.
  intros P Hi Hc (Hk & Hb & Hm & EB & EM & EF). unfold parsed_one, parse_bar, mbind, pc_bind.
  destruct (read_bar pml4 f A n mask fixd B C HB Hn s i P Hi) as (w1 & -> & Q1 & P1). rewrite EB.
  assert (H4 : base mod 4 = 0).
  { apply Z.mod_divide in Hm as [c ->]; [|lia]. replace k with (k - 2 + 2) by lia. rewrite Z.pow_add_r, Z.mul_assoc by lia. apply Z.mod_mul. lia. }
  destruct (Z.eqb_spec (base + 1) 0); [lia|]. destruct (Z.eqb_spec (base + 1) 0xFFFFFFFF) as [E|_]; [divlia|]. cbn [orb].
  assert (Hio : has (base + 1) PCI_BAR_TYPE_IO = true).
  { unfold has, PCI_BAR_TYPE_IO. change 1 with (Z.ones 1) at 2. rewrite Z.land_ones by lia. change (2 ^ 1) with 2.
    destruct (Z.eqb_spec ((base + 1) mod 2) 0); [divlia|done]. }
  rewrite Hio. assert (H2k : 2 ^ 2 <= 2 ^ k) by (apply Z.pow_le_mono_r; lia). change (2 ^ 2) with 4 in H2k.
  pose proof Q1 as (M1 & B1 & C1).
  destruct (probe_mask_ok pml4 f A n mask fixd B C HB Hn (with_w s w1) i P1 Hi) as (w2 & E2 & Q2 & P2); cbn [pc_w with_w].
  { congruence. } { rewrite B1, EB, EM, EF by done. apply low_restore; lia. }
  cbn [pc_w with_w] in E2, Q2. rewrite B1, EB in E2 by done. rewrite E2. exists w2. rewrite EM, EF, (ones_mask k 1 2) by lia.
  split; [|split; [by apply (quiet_trans n B C (pc_w s) w1)|done]]. unfold mret, pc_ret, bar_entries, bar_record, bar_width. rewrite with_w_w.
  change 3 with (2 ^ 2 - 1). assert (base + 1 < 2 ^ 32) by divlia. rewrite size32_ok, clear32_mod by lia. change (2 ^ 2) with 4. replace (base + 1 - (base + 1) mod 4) with base by divlia. done.
Qed.

Lemma parse_none s i bs : at_page pml4 s f A -> 0 <= i < n -> regs_of (pc_w s) i NoBar -> parsed_one s i NoBar bs.
Proof.
  intros P Hi EB. cbn [regs_of] in EB. unfold parsed_one, parse_bar, mbind, pc_bind.
  destruct (read_bar pml4 f A n mask fixd B C HB Hn s i P Hi) as (w1 & -> & Q1 & P1). rewrite EB. cbn [Z.eqb orb]. exists w1. done.
Qed.

Lemma parse_mem32 s i bs k base pf : at_page pml4 s f A -> 0 <= i < n -> Z.land (C (pc_w s)) 3 = 0 ->
  regs_of (pc_w s) i (Mem32Bar k base pf) -> parsed_one s i (Mem32Bar k base pf) bs.
Proof.
  intros P Hi Hc (Hk & Hb & Hm & EB & EM & EF). unfold parsed_one, parse_bar, mbind, pc_bind.
  destruct (read_bar pml4 f A n mask fixd B C HB Hn s i P Hi) as (w1 & -> & Q1 & P1). rewrite EB.
  set (t := 8 * Z.b2z pf) in *. assert (Ht : t = 0 \/ t = 8) by (unfold t; destruct pf; cbn; lia).
  pose proof (mod16 base k ltac:(lia) Hm) as H16. assert (H2k : 2 ^ 4 <= 2 ^ k) by (apply Z.pow_le_mono_r; lia). change (2 ^ 4) with 16 in H2k.
  destruct (Z.eqb_spec (base + t) 0); [lia|]. destruct (Z.eqb_spec (base + t) 0xFFFFFFFF) as [E|_]; [divlia|]. cbn [orb].
  destruct (bar_type_bits t ltac:(lia) base H16) as (T1 & T2 & T3). rewrite T1, T2, T3.
  assert (Hhi : has t 1 = false) by (destruct Ht as [-> | ->]; done). assert (H64 : (Z.land t 6 =? PCI_BAR_MEM_TYPE_64) = false) by (destruct Ht as [-> | ->]; done).
  assert (Hpf : (if has t 8 then 1 else 0) = Z.b2z pf) by (unfold t; destruct pf; done).
  rewrite Hhi, H64, Hpf. cbn [andb]. pose proof Q1 as (M1 & B1 & C1).
  destruct (probe_mask_ok pml4 f A n mask fixd B C HB Hn (with_w s w1) i P1 Hi) as (w2 & E2 & Q2 & P2); cbn [pc_w with_w].
  { congruence. } { rewrite B1, EB, EM, EF by done. apply low_restore; lia. }
  cbn [pc_w with_w] in E2, Q2. rewrite B1, EB in E2 by done. rewrite E2. exists w2. rewrite EM, EF, (ones_mask k t 4) by lia.
  split; [|split; [by apply (quiet_trans n B C (pc_w s) w1)|done]]. unfold mret, pc_ret, bar_entries, bar_record, bar_width. rewrite with_w_w.
  change 15 with (2 ^ 4 - 1). assert (base + t < 2 ^ 32) by divlia. rewrite size32_ok, clear32_mod by lia. change (2 ^ 4) with 16.
  replace (base + t - (base + t) mod 16) with base by divlia. done.
Qed.

Lemma parse_mem64 s i bs k base pf : at_page pml4 s f A -> 0 <= i < n -> Z.land (C (pc_w s)) 3 = 0 ->
  regs_of (pc_w s) i (Mem64Bar k base pf) -> parsed_one s i (Mem64Bar k base pf) bs.
Proof.
  intros P Hi Hc (Hk & Hb & Hm & Hi1 & EB & EM & EF & EB2 & EM2 & EF2). unfold parsed_one, parse_bar, mbind, pc_bind.
  destruct (read_bar pml4 f A n mask fixd B C HB Hn s i P Hi) as (w1 & -> & Q1 & P1). rewrite EB.
  set (t := 4 + 8 * Z.b2z pf) in *. assert (Ht : t = 4 \/ t = 12) by (unfold t; destruct pf; cbn; lia).
  pose proof (mod16 base k ltac:(lia) Hm) as H16. destruct (base_halves k base Hk Hm) as [Hl Hh]. set (lo := base mod 2 ^ 32) in *. set (hi := base / 2 ^ 32) in *.
  assert (Hlo : 0 <= lo < 2 ^ 32) by (apply Z.mod_pos_bound; lia). assert (Hhi : 0 <= hi < 2 ^ 32) by (unfold hi; divlia).
  assert (Hlo16 : lo mod 16 = 0) by (unfold lo; divlia). assert (Hkl : 4 <= kl k <= 32) by (unfold kl; lia). assert (Hkh : 0 <= kh k <= 32) by (unfold kh; lia).
  destruct (Z.eqb_spec (lo + t) 0); [lia|]. destruct (Z.eqb_spec (lo + t) 0xFFFFFFFF) as [E|_]; [divlia|]. cbn [orb].
  destruct (bar_type_bits t ltac:(lia) lo Hlo16) as (T1 & T2 & T3). rewrite T1, T2, T3.
  assert (Hio : has t 1 = false) by (destruct Ht as [-> | ->]; done). assert (H64 : (Z.land t 6 =? PCI_BAR_MEM_TYPE_64) = true) by (destruct Ht as [-> | ->]; done).
  assert (Hpf : (if has t 8 then 1 else 0) = Z.b2z pf) by (unfold t; destruct pf; done).
  rewrite Hio, H64, Hpf. destruct (Z.ltb_spec (i + 1) n); [|lia]. cbn [andb]. replace (PCI_REG_BAR0 + i * 4 + 4) with (PCI_REG_BAR0 + (i + 1) * 4) by lia.
  destruct (read_bar pml4 f A n mask fixd B C HB Hn (with_w s w1) (i + 1) P1 ltac:(lia)) as (w2 & -> & Q2 & P2). rewrite with_w_w in P2 |- *. cbn [pc_w with_w] in Q2 |- *.
  pose proof (quiet_trans n B C (pc_w s) w1 w2 Q1 Q2) as Q12. destruct Q1 as (_ & B1 & _). pose proof Q12 as (M2 & B2 & C2).
  assert (H2l : 2 ^ 4 <= 2 ^ kl k) by (apply Z.pow_le_mono_r; lia). change (2 ^ 4) with 16 in H2l.
  destruct (probe_mask64_ok pml4 f A n mask fixd B C HB Hn (with_w s w2) i P2) as (w3 & E3 & Q3 & P3); cbn [pc_w with_w]; [lia|lia|congruence| | |].
  { rewrite B2, EB, EM, EF by lia. apply low_restore; lia. }
  { rewrite B2, EB2, EM2, EF2 by lia. rewrite Z.lor_0_r, land_high by lia. lia. }
  cbn [pc_w with_w] in E3, Q3. rewrite !B2, EB, EB2 in E3 by lia. rewrite B1, EB2 by lia. rewrite E3. exists w3. cbn [fst snd].
  rewrite EM, EF, EM2, EF2, (ones_mask (kl k) t 4), (ones_mask (kh k) 0 0) by lia.
  split; [|split; [by apply (quiet_trans n B C (pc_w s) w2)|done]]. unfold mret, pc_ret, bar_entries, bar_record, bar_width. rewrite with_w_w.
  change 15 with (2 ^ 4 - 1). rewrite !clear32_mod by (lia || divlia || (apply (mask_bound (kl k) t 4); lia)). rewrite mask_mod by lia.
  assert (Em : (lo + t) mod 2 ^ 4 = t) by (change (2 ^ 4) with 16; divlia). rewrite Em, !Z.add_simpl_r, Z.add_0_r, !join_halves by (lia || (assert (2 ^ kl k <= 2 ^ 32) by (apply Z.pow_le_mono_r; lia); assert (2 ^ kh k <= 2 ^ 32) by (apply Z.pow_le_mono_r; lia); lia)).
  rewrite mask64_join, size64_ok by lia. assert (hi * 2 ^ 32 + lo = base) as -> by (unfold hi, lo; divlia). done.
Qed.
Lemma parse_bar_ok s i b bs : at_page pml4 s f A -> 0 <= i < n -> Z.land (C (pc_w s)) 3 = 0 -> regs_of (pc_w s) i b -> parsed_one s i b bs.
Proof. destruct b; intros; [by apply parse_none|by apply parse_io|by apply parse_mem32|by apply parse_mem64]. Qed.

(** The registers from [i] on are of these kinds. *)
Fixpoint layout w (i : Z) (kinds : list BarKind) : Prop :=
  match kinds with
  | [] => i = n
  | b :: r => 0 <= i < n /\ regs_of w i b /\ layout w (i + bar_width b) r
  end.

Fixpoint parsed (i : Z) (kinds : list BarKind) (bs : list PciBar) : list PciBar :=
  match kinds with
  | [] => bs
  | b :: r => parsed (i + bar_width b) r (bar_entries i b bs)
  end.

Lemma regs_same w w' i b : (forall j, 0 <= j < n -> B w' j = B w j) -> 0 <= i < n -> regs_of w i b -> regs_of w' i b.
Proof.
  intros Q Hi. destruct b; cbn [regs_of]; rewrite ?(Q i) by done; try done. intros (? & ? & ? & Hi1 & R). rewrite (Q (i + 1)) by lia. done.
Qed.

Lemma layout_same w w' kinds : (forall j, 0 <= j < n -> B w' j = B w j) -> forall i, layout w i kinds -> layout w' i kinds.
Proof.
  intros Q. induction kinds as [|b r IH]; intros i; [done|]. cbn [layout]. intros (Hi & Hr & Hl). split_and!; [lia..|by apply (regs_same w)|auto].
Qed.

Lemma layout_length w kinds : forall i, layout w i kinds -> Z.of_nat (length kinds) <= n - i.
Proof.
  induction kinds as [|b r IH]; intros i; cbn [layout length]; [lia|]. intros (Hi & _ & Hl). apply IH in Hl. destruct b; cbn [bar_width] in Hl; lia.
Qed.

Lemma parse_loop_ok kinds : forall fuel s i bs, (length kinds <= fuel)%nat -> at_page pml4 s f A -> Z.land (C (pc_w s)) 3 = 0 -> layout (pc_w s) i kinds ->
  exists w', parse_loop pml4 fuel f n i bs s = (with_w s w', parsed i kinds bs) /\ quiet n B C (pc_w s) w' /\ at_page pml4 (with_w s w') f A.
Proof.
  induction kinds as [|b r IH]; intros fuel s i bs Hf P Hc Hl.
  - cbn [layout] in Hl. subst i. exists (pc_w s). split; [|split; [done|by apply at_page_with]]. destruct s. destruct fuel; [done|]. cbn [parse_loop]. by rewrite Z.ltb_irrefl.
  - destruct fuel as [|fuel]; [cbn [length] in Hf; lia|]. cbn [length] in Hf. destruct Hl as (Hi & Hr & Hl). cbn [parse_loop].
    destruct (Z.ltb_spec i n); [|lia]. unfold mbind, pc_bind. destruct (parse_bar_ok s i b bs P Hi Hc Hr) as (w1 & -> & Q1 & P1). cbn [fst snd].
    destruct (IH fuel (with_w s w1) (i + bar_width b) (bar_entries i b bs) ltac:(lia) P1) as (w2 & -> & Q2 & P2).
    + destruct Q1 as (_ & _ & E). cbn [pc_w with_w]. congruence.
    + cbn [pc_w with_w]. apply (layout_same (pc_w s)); [apply Q1|done].
    + exists w2. split; [done|]. split; [|done]. by apply (quiet_trans n B C (pc_w s) w1).
Qed.

Lemma land_not3 c : 0 <= c < 2 ^ 16 -> Z.land (u16 (Z.land c (Z.lnot 3))) 3 = 0.
Proof.
  intros Hc. unfold u16. rewrite <- Z.land_ones by lia. apply Z.bits_inj'. intros k Hk. rewrite !Z.land_spec, Z.lnot_spec, Z.bits_0 by lia.
  destruct (Z.testbit 3 k); [|by rewrite andb_false_r]. by rewrite andb_false_r.
Qed.

Lemma pcie_parse_bars_ok s dev kinds : bdf dev = f -> max_bars_of (header_type dev) = n -> at_page pml4 s f A -> layout (pc_w s) 0 kinds ->
  exists w', pcie_parse_bars pml4 dev s = (with_w s w', set_bar_count (set_bars dev (parsed 0 kinds (bars dev))) n) /\
    quiet n B C (pc_w s) w' /\ at_page pml4 (with_w s w') f A.
Proof.
  intros Ef En P Hl. unfold pcie_parse_bars. rewrite Ef, En. unfold mbind, pc_bind, pcie_read16, pcie_write16. rewrite !has1 by done.
  rewrite (cfg_load_at pml4 s f A) by (done || (unfold PCI_REG_COMMAND; lia)).
  destruct (br_cmd_rd _ _ _ _ _ _ HB (pc_w s)) as (-> & B1 & C1). pose proof (mm_io_rd (pc_w s) 2 (A + PCI_REG_COMMAND)) as M1.
  set (w1 := (io_rd (pc_w s) 2 (A + PCI_REG_COMMAND)).1) in *.
  assert (P1 : at_page pml4 (with_w s w1) f A) by (by apply at_page_with).
  pose proof (br_cmd_range _ _ _ _ _ _ HB (pc_w s)) as Hr. rewrite (cfg_store_at pml4 (with_w s w1) f A) by (done || (unfold PCI_REG_COMMAND; lia)). cbn [pc_w with_w].
  set (c := u16 _). destruct (br_cmd_wr _ _ _ _ _ _ HB w1 c (u16_range _)) as [C2 B2]. pose proof (mm_io_wr w1 2 (A + PCI_REG_COMMAND) c) as M2.
  set (w2 := io_wr w1 2 (A + PCI_REG_COMMAND) c) in *. rewrite with_w_w.
  assert (P2 : at_page pml4 (with_w s w2) f A) by (apply at_page_with; [done|congruence]).
  assert (Hkl : (length kinds <= 6)%nat) by (pose proof (layout_length _ _ _ Hl); lia).
  destruct (parse_loop_ok kinds 6 (with_w s w2) 0 (bars dev) Hkl P2) as (w3 & -> & (M3 & B3 & C3) & P3); cbn [pc_w with_w].
  { rewrite C2. by apply land_not3. }
  { apply (layout_same (pc_w s)); [|done]. intros j Hj. rewrite B2, B1 by done. done. }
  rewrite with_w_w in P3 |- *. rewrite (cfg_store_at pml4 (with_w s w3) f A) by (done || (unfold PCI_REG_COMMAND; lia)). cbn [pc_w with_w] in *.
  destruct (br_cmd_wr _ _ _ _ _ _ HB w3 (C (pc_w s)) Hr) as [C4 B4]. pose proof (mm_io_wr w3 2 (A + PCI_REG_COMMAND) (C (pc_w s))) as M4.
  eexists. split; [done|]. split; [|apply at_page_with; [done|cbn [pc_w with_w]; congruence]]. split_and!; [congruence| |done].
  intros j Hj. rewrite B4, B3, B2, B1 by done. done.
Qed.
End Parse.
