(* ===== verification/PcieProps.v ===== *)
(** * PCI Express: register access and the scan

    Addresses of configuration registers, capabilities, and the scan of the
    buses of pcie/pcie.c. *)

From Stdlib Require Import ZArith Lia Bool.
From stdpp Require Import base list gmap.
From S2P Require Import Prelude Mem Frames Pmm PageTable PtWalk PtOps AddrSpace Machine Pcie PcieBars.

(** ** Theorems on PCI Express

    Addresses of configuration registers, enumeration, capability lists. *)

(** ** Addresses *)

(** A segment of the MCFG table: its window is below the direct map's end. *)
Definition segment_ok (a : AcpiMcfgAllocation) : Prop :=
  0 < base_address a /\ base_address a mod 2 ^ 20 = 0 /\ 0 <= start_bus a <= end_bus a /\ end_bus a < 256 /\
  base_address a + (end_bus a - start_bus a + 1) * 2 ^ 20 <= 2 ^ 47.

Definition bdf_ok (f : Bdf) : Prop := 0 <= bus f < 256 /\ 0 <= device f < 256 /\ 0 <= function f < 256.

Lemma find_segment_some l seg b a : find_segment l seg b = Some a -> a ∈ l /\ segment_group a = seg /\ start_bus a <= b <= end_bus a.
Proof.
  intros E. apply List.find_some in E as [Hin E]. apply andb_prop in E as [E E3]. apply andb_prop in E as [E1 E2].
  apply Z.eqb_eq in E1. apply Z.leb_le in E2, E3. split; [by apply list_elem_of_In|]. done.
Qed.

Lemma ecam_page_eq a f : segment_ok a -> start_bus a <= bus f <= end_bus a -> 0 <= device f < 32 -> 0 <= function f < 8 ->
  ecam_page a f = base_address a + ((bus f - start_bus a) * 256 + device f * 8 + function f) * 4096 /\
  0 < ecam_page a f /\ ecam_page a f + 4096 <= 2 ^ 47 /\ ecam_page a f mod 4096 = 0.
Proof.
  intros (H1 & H2 & H3 & H4 & H5) Hb Hd Hf. unfold ecam_page. rewrite !Z.shiftl_mul_pow2 by lia.
  change (2 ^ 20) with 1048576 in *. change (2 ^ 15) with 32768. change (2 ^ 12) with 4096.
  assert (E : forall x y z, u64 (u64 (u64 x + y) + z) = u64 (x + y + z)).
  { intros x y z. unfold u64. rewrite Zplus_mod_idemp_l, <- Z.add_assoc, Zplus_mod_idemp_l. f_equal. lia. }
  rewrite E, u64_id by (unfold is_u64; lia). split; [lia|]. split; [lia|]. split; [lia|]. divlia.
Qed.

(** Two registers have the same address only if they are the same register
    of the same function. *)
Lemma ecam_injective a f g off off' : segment_ok a ->
  start_bus a <= bus f <= end_bus a -> 0 <= device f < 32 -> 0 <= function f < 8 -> 0 <= off < 4096 ->
  start_bus a <= bus g <= end_bus a -> 0 <= device g < 32 -> 0 <= function g < 8 -> 0 <= off' < 4096 ->
  ecam_page a f + off = ecam_page a g + off' -> bus f = bus g /\ device f = device g /\ function f = function g /\ off = off'.
Proof.
  intros Ha Hb Hd Hf Ho Hb' Hd' Hf' Ho' E. destruct (ecam_page_eq a f Ha Hb Hd Hf) as [E1 _]. destruct (ecam_page_eq a g Ha Hb' Hd' Hf') as [E2 _].
  rewrite E1, E2 in E. lia.
Qed.

Definition WINDOW_FLAGS : Z := Z.lor (Z.lor VMM_FLAG_PRESENT VMM_FLAG_WRITABLE) VMM_FLAG_NO_CACHE.
Lemma window_flags_ok : is_u64 WINDOW_FLAGS /\ nextf WINDOW_FLAGS = 0.
Proof. split; [vm_compute; split; congruence|done]. Qed.

(** A page's translation, at any offset. *)
Lemma phys_small v e : 0 <= v -> phys_of v (Some (e, 0%nat)) = Z.land e PTE_ADDR_MASK + v mod 4096.
Proof.
  intros Hv. cbn [phys_of]. change (PAGE_SIZE - 1) with (Z.ones 12). rewrite Z.land_ones by lia. change (2 ^ 12) with 4096.
  apply (lor_low _ _ 12); [lia| |change (2 ^ 12) with 4096; apply Z.mod_pos_bound; lia].
  rewrite <- Z.land_ones by lia. apply Z.bits_inj'. intros n Hn. rewrite !Z.land_spec, Z.bits_0, mask_bit by lia.
  rewrite Z.testbit_ones_nonneg by lia. destruct (Z.leb_spec 12 n), (Z.ltb_spec n 12); cbn [andb]; try lia; by rewrite ?andb_false_r.
Qed.

Section Addr.
Context {W : Type} `{Machine W} `{!MachineLaws W} {S : Type} `{FrameAllocator S} `{!FrameAllocatorLaws S}.
Context (root : Z).
Implicit Types (s : Pci W S).

Definition vm_of s : Vm S := mkVm (mm (pc_w s)) (pc_fa s).

(** Kernel addresses translate to themselves less the base of the direct
    map, where they translate at all. *)
Definition direct s : Prop := forall v, HHDM_BASE <= v < 2 ^ 64 -> translate (vm_of s) root v = 0 \/ translate (vm_of s) root v = v - HHDM_BASE.

Lemma window_no_wrap p : 0 <= p -> p + 4096 <= 2 ^ 47 -> p mod 4096 = 0 -> let v := u64 (p + HHDM_BASE) in
  v = p + HHDM_BASE /\ is_u64 v /\ page_down v = v /\ page_down p = p.
Proof.
  intros K0 K1 K2 v. assert (E : v = p + HHDM_BASE) by (apply u64_id; unfold is_u64, HHDM_BASE; lia). rewrite E.
  assert (Hu : is_u64 (p + HHDM_BASE)) by (unfold is_u64, HHDM_BASE; lia). split_and!; [done|done| |apply page_down_id; [unfold is_u64; lia|done]].
  apply page_down_id; [done|]. unfold HHDM_BASE. divlia.
Qed.

Lemma vpage_window p v : 0 <= p -> p + 4096 <= 2 ^ 47 -> p mod 4096 = 0 -> HHDM_BASE <= v < 2 ^ 64 -> vpage v = vpage (p + HHDM_BASE) -> v - v mod 4096 = p + HHDM_BASE.
Proof. intros K0 K1 H2 Hv E. unfold vpage, HHDM_BASE in *. divlia. Qed.

(** Mapping a page of a window. *)
Lemma map_window_ok s p : pt_wf (vm_of s) root -> direct s -> 0 < p -> p + 4096 <= 2 ^ 47 -> p mod 4096 = 0 ->
  no_huge (mm (pc_w s)) root (p + HHDM_BASE) ->
  exists s' ok, map_window (tbl root) (p + HHDM_BASE) p s = (s', ok) /\ pt_wf (vm_of s') root /\ direct s' /\
    g_segments s' = g_segments s /\ g_devices s' = g_devices s /\ g_device_capacity s' = g_device_capacity s /\
    (forall v, is_u64 v -> vpage v <> vpage (p + HHDM_BASE) \/ ok = false -> translate (vm_of s') root v = translate (vm_of s) root v) /\
    (ok = true -> forall off, 0 <= off < 4096 -> translate (vm_of s') root (p + HHDM_BASE + off) = p + off).
Proof.
  intros Wf Dr Hp0 Hp1 Hp2 Hh. destruct (window_no_wrap p ltac:(lia) Hp1 Hp2) as (E & Hu & Hd & Hdp). cbn zeta in E. rewrite E in Hu, Hd.
  assert (Hvo : forall off, 0 <= off < 4096 -> is_u64 (p + HHDM_BASE + off) /\ vpage (p + HHDM_BASE + off) = vpage (p + HHDM_BASE) /\ (p + HHDM_BASE + off) mod 4096 = off).
  { intros off Ho. unfold is_u64, vpage, HHDM_BASE. split_and!; divlia. }
  unfold map_window. change (vmmVirtToPhys (mm (pc_w s)) (tbl root) (p + HHDM_BASE)) with (translate (vm_of s) root (p + HHDM_BASE)).
  destruct (Z.eqb_spec (translate (vm_of s) root (p + HHDM_BASE)) 0) as [Ez|Hnz].
  - destruct window_flags_ok as [Wf1 Wf2]. pose proof (vmmMapPage_spec (vm_of s) root (p + HHDM_BASE) p WINDOW_FLAGS Wf Hu ltac:(unfold is_u64; lia) ltac:(lia) Wf1 Wf2 Hh) as [M Cs].
    fold WINDOW_FLAGS. fold (vm_of s). destruct (vmmMapPage (vm_of s) (tbl root) (p + HHDM_BASE) p WINDOW_FLAGS) as [vm rc]. cbn [fst snd] in M, Cs.
    pose proof (mf_wf _ _ _ _ M) as Wf'. eexists _, _. split; [done|].
    assert (Evm : vm_of (mkPci (set_mm (pc_w s) (vm_mem vm)) (vm_fa vm) (g_segments s) (g_devices s) (g_device_capacity s)) = vm) by (unfold vm_of; cbn [pc_w pc_fa]; rewrite mm_set; by destruct vm).
    set (s' := mkPci _ _ _ _ _) in *. unfold direct. rewrite Evm. split; [done|].
    assert (Hother : forall v, is_u64 v -> vpage v <> vpage (p + HHDM_BASE) \/ (rc =? 0) = false -> translate vm root v = translate (vm_of s) root v).
    { intros v Hv Ho. destruct Cs as [[Er X]|[Er X]]; (apply translate_ext; [done..|]); [by apply X; [apply vpath_ok|]|]. rewrite X by (done || apply vpath_ok).
      rewrite decide_False; [done|]. intros Ev. rewrite vpath_vpage in Ev by done. destruct Ho as [Ho|Ho]; [done|]. by rewrite Er in Ho. }
    assert (Hmap : (rc =? 0) = true -> forall v, is_u64 v -> vpage v = vpage (p + HHDM_BASE) -> translate vm root v = p + v mod 4096).
    { intros Er v Hv Ev. destruct Cs as [[Er' _]|[_ X]]; [by rewrite Er' in Er|]. rewrite translate_xl, X by (done || apply vpath_ok).
      rewrite decide_True by (by apply vpath_vpage). rewrite phys_of_leaf by (done || unfold is_u64; lia). by rewrite Hdp. }
    split_and!; try done.
    + intros v Hv. destruct (decide (vpage v = vpage (p + HHDM_BASE))) as [Ev|Ev]; [|rewrite Hother; [by apply Dr|unfold is_u64, HHDM_BASE in *; lia|by left]].
      destruct (rc =? 0) eqn:Er; [|rewrite Hother; [by apply Dr|unfold is_u64, HHDM_BASE in *; lia|by right]]. right.
      pose proof (vpage_window p v ltac:(lia) Hp1 Hp2 Hv Ev). rewrite Hmap by (done || unfold is_u64, HHDM_BASE in *; lia). lia.
    + intros Er off Ho. destruct (Hvo off Ho) as (V1 & V2 & V3). rewrite Hmap by done. by rewrite V3.
  - exists s, true. split_and!; try done. intros _ off Ho. destruct (Hvo off Ho) as (V1 & V2 & V3).
    assert (Ht : translate (vm_of s) root (p + HHDM_BASE) = p) by (destruct (Dr (p + HHDM_BASE)); [unfold HHDM_BASE; lia|done|lia]).
    destruct (xl (mm (pc_w s)) root (vpath (p + HHDM_BASE))) as [[e k]|] eqn:Ex; [|rewrite translate_xl in Hnz by done; cbn [vm_of vm_mem] in Hnz; by rewrite Ex in Hnz].
    pose proof (Hh e k Ex). subst k. rewrite translate_xl in Ht |- * by done. cbn [vm_of vm_mem] in *.
    assert (Ep : vpath (p + HHDM_BASE + off) = vpath (p + HHDM_BASE)) by (by apply vpath_vpage). rewrite Ep, Ex in *.
    rewrite phys_small in Ht |- * by (unfold is_u64 in *; lia). rewrite V3. assert (Hz : (p + HHDM_BASE) mod 4096 = 0) by (unfold HHDM_BASE; divlia). lia.
Qed.

Definition reg_segment s (f : Bdf) (off : Z) : option AcpiMcfgAllocation :=
  if (device f <? 32) && (function f <? 8) && (off <? 4096) then find_segment (g_segments s) (segment f) (bus f) else None.

(** The address of a register of a function: NULL, and nothing changes, when
    there is no such register or no segment for the bus.  Otherwise the page
    of the function in the window of the segment is mapped uncached at its
    place in the direct map, unless it was, and the address leads exactly to
    the register; or a page table cannot be allocated, and the result is
    NULL.  No other address translates differently. *)
Theorem pcie_get_reg_addr_correct s f off : pt_wf (vm_of s) root -> direct s -> Forall segment_ok (g_segments s) -> bdf_ok f -> 0 <= off ->
  (forall a, reg_segment s f off = Some a -> no_huge (mm (pc_w s)) root (ecam_page a f + HHDM_BASE)) ->
  exists s' r, pcie_get_reg_addr (tbl root) f off s = (s', r) /\ pt_wf (vm_of s') root /\ direct s' /\
    match reg_segment s f off with
    | None => r = 0 /\ s' = s
    | Some a =>
        (r = 0 /\ forall v, is_u64 v -> translate (vm_of s') root v = translate (vm_of s) root v) \/
        (r = ecam_page a f + HHDM_BASE + off /\ translate (vm_of s') root r = ecam_page a f + off /\
         forall v, is_u64 v -> vpage v <> vpage r -> translate (vm_of s') root v = translate (vm_of s) root v)
    end.
Proof.
  intros Wf Dr Hs (Hb & Hd & Hf) Ho Hh. unfold reg_segment, pcie_get_reg_addr in *.
  destruct (Z.leb_spec 32 (device f)), (Z.ltb_spec (device f) 32); try lia; [by exists s, 0|].
  destruct (Z.leb_spec 8 (function f)), (Z.ltb_spec (function f) 8); try lia; [by exists s, 0|].
  destruct (Z.leb_spec 4096 off), (Z.ltb_spec off 4096); try lia; [by exists s, 0|]. cbn [andb orb] in *.
  destruct (find_segment (g_segments s) (segment f) (bus f)) as [a|] eqn:E; [|by exists s, 0].
  destruct (find_segment_some _ _ _ _ E) as (Hin & _ & Hbus). rewrite Forall_forall in Hs. specialize (Hs a Hin).
  destruct (ecam_page_eq a f Hs Hbus ltac:(lia) ltac:(lia)) as (_ & Hp0 & Hp1 & Hp2).
  destruct (window_no_wrap (ecam_page a f) ltac:(lia) Hp1 Hp2) as (Ev & Hu & _). cbn zeta in Ev. rewrite Ev.
  destruct (map_window_ok s (ecam_page a f) Wf Dr Hp0 Hp1 Hp2 (Hh a eq_refl)) as (s' & ok & -> & Wf' & Dr' & _ & _ & _ & Ho' & Hm).
  eexists s', _. split; [reflexivity|]. split; [done|]. split; [done|]. destruct ok; [right|left; auto].
  rewrite u64_id by (unfold is_u64, HHDM_BASE; lia). split; [done|]. split; [by apply Hm|].
  assert (Hvp : vpage (ecam_page a f + HHDM_BASE + off) = vpage (ecam_page a f + HHDM_BASE)) by (unfold vpage, HHDM_BASE; divlia).
  intros v Hv Hne. rewrite Hvp in Hne. apply Ho'; [done|by left].
Qed.
End Addr.

(** ** Capabilities *)
Section Caps.
Context {W : Type} `{Machine W} `{!MachineLaws W} {S : Type} `{FrameAllocator S}.
Context (pml4 : Z) (f : Bdf) (A : Z).
Implicit Types (s : Pci W S).

(** The bytes of the function's registers are [c], in every state [R] that
    reading them leads to. *)
Record cfg_bytes (c : Z -> Z) (R : W -> Prop) : Prop := {
  cb_read : forall w n off, R w -> 0 <= off < 4096 -> 1 <= Z.of_nat n <= 4 -> R (io_rd w n (A + off)).1 /\
    (io_rd w n (A + off)).2 = foldr (fun i v => c (off + i) + 256 * v) 0 (seqZ 0 (Z.of_nat n));
  cb_byte : forall off, 0 <= c off < 256
}.
Context (c : Z -> Z) (R : W -> Prop) (HC : cfg_bytes c R).

Lemma load_at s n off : at_page pml4 s f A -> R (pc_w s) -> 0 <= off < 4096 -> 1 <= Z.of_nat n <= 4 -> exists w',
  cfg_load pml4 n f off s = (with_w s w', foldr (fun i v => c (off + i) + 256 * v) 0 (seqZ 0 (Z.of_nat n))) /\ R w' /\ at_page pml4 (with_w s w') f A.
Proof.
  intros P HR Ho Hn. rewrite (cfg_load_at pml4 s f A) by done. destruct (cb_read _ _ HC (pc_w s) n off HR Ho Hn) as [HR' ->].
  eexists. split; [done|]. split; [done|]. apply at_page_with; [done|]. apply mm_io_rd.
Qed.

Lemma read8_at s off : at_page pml4 s f A -> R (pc_w s) -> 0 <= off < 4096 -> exists w',
  pcie_read8 pml4 f off s = (with_w s w', c off) /\ R w' /\ at_page pml4 (with_w s w') f A.
Proof.
  intros P HR Ho. destruct (load_at s 1 off P HR Ho ltac:(lia)) as (w' & E & HR' & P'). exists w'. split; [|done]. unfold pcie_read8. rewrite E. f_equal.
  change (seqZ 0 (Z.of_nat 1)) with [0]. cbn [foldr]. by rewrite Z.mul_0_r, !Z.add_0_r.
Qed.

(** The list of capabilities from a pointer on. *)
Definition in_caps (p : Z) : bool := (0x40 <=? p) && (p <=? 0xFC).
Definition next_cap (p : Z) : Z := Z.land (c (p + 1)) (u8 (Z.lnot 3)).
Inductive cap_list : Z -> list Z -> Prop :=
| caps_end p : in_caps p = false -> cap_list p []
| caps_cons p l : in_caps p = true -> cap_list (next_cap p) l -> cap_list p (p :: l).

Definition first_cap (cap_id : Z) (l : list Z) : Z := default 0 (List.find (fun p => c p =? cap_id) l).

Lemma cap_loop_ok cap_id l : forall p fuel s, cap_list p l -> (length l < fuel)%nat -> at_page pml4 s f A -> R (pc_w s) ->
  exists w', cap_loop pml4 fuel f cap_id p s = (with_w s w', Some (first_cap cap_id l)) /\ R w' /\ at_page pml4 (with_w s w') f A.
Proof.
  induction l as [|q l IH]; intros p fuel s Hl Hf P HR; (destruct fuel as [|fuel]; [lia|]); inversion Hl as [? Hi|? ? Hi Hl']; subst; cbn [cap_loop]; unfold in_caps in Hi; rewrite Hi.
  - exists (pc_w s). unfold mret, pc_ret. split; [by destruct s|]. split; [done|]. by apply at_page_with.
  - apply andb_prop in Hi as [Hi1%Z.leb_le Hi2%Z.leb_le]. unfold mbind, pc_bind. destruct (read8_at s q P HR ltac:(lia)) as (w1 & -> & R1 & P1).
    unfold first_cap. cbn [List.find]. destruct (Z.eqb_spec (c q) cap_id).
    + exists w1. done.
    + destruct (read8_at (with_w s w1) (q + 1) P1 R1 ltac:(lia)) as (w2 & -> & R2 & P2). rewrite with_w_w in P2 |- *. cbn [length] in Hf.
      destruct (IH (next_cap q) fuel (with_w s w2) Hl' ltac:(lia) P2 R2) as (w3 & E3 & R3 & P3). exists w3. split; [exact E3|done].
Qed.

(** A capability list that leads back to itself. *)
Lemma cap_loop_cycle cap_id p : in_caps p = true -> next_cap p = p -> c p <> cap_id -> forall fuel s, at_page pml4 s f A -> R (pc_w s) ->
  exists w', cap_loop pml4 fuel f cap_id p s = (with_w s w', None).
Proof.
  intros Hi Hn Hne. induction fuel as [|fuel IH]; intros s P HR; cbn [cap_loop].
  - exists (pc_w s). by destruct s.
  - pose proof Hi as Hi'. unfold in_caps in Hi. rewrite Hi. apply andb_prop in Hi as [Hi1%Z.leb_le Hi2%Z.leb_le]. unfold mbind, pc_bind.
    destruct (read8_at s p P HR ltac:(lia)) as (w1 & -> & R1 & P1). destruct (Z.eqb_spec (c p) cap_id); [done|].
    destruct (read8_at (with_w s w1) (p + 1) P1 R1 ltac:(lia)) as (w2 & -> & R2 & P2). rewrite with_w_w in P2 |- *.
    fold (next_cap p). rewrite Hn. destruct (IH (with_w s w2) P2 R2) as (w3 & ->). by exists w3.
Qed.

Definition cfg32 (off : Z) : Z := c off + 256 * (c (off + 1) + 256 * (c (off + 2) + 256 * c (off + 3))).

Lemma read32_at s off : at_page pml4 s f A -> R (pc_w s) -> 0 <= off < 4096 -> exists w' v,
  pcie_read32 pml4 f off s = (with_w s w', v) /\ R w' /\ at_page pml4 (with_w s w') f A /\ (off mod 4 = 0 -> v = cfg32 off).
Proof.
  intros P HR Ho. unfold pcie_read32. destruct (has off 3) eqn:E3.
  - exists (pc_w s), 0xFFFFFFFF. split; [by destruct s|]. split; [done|]. split; [by apply at_page_with|]. intros H4. by rewrite has3 in E3.
  - destruct (load_at s 4 off P HR Ho ltac:(lia)) as (w' & -> & HR' & P'). eexists w', _. split; [done|]. split; [done|]. split; [done|]. intros _.
    change (seqZ 0 (Z.of_nat 4)) with [0; 1; 2; 3]. cbn [foldr]. unfold cfg32. rewrite Z.add_0_r. lia.
Qed.

(** The walk over extended capabilities always ends: the offsets grow. *)
Lemma ext_loop_ends cap_id : forall fuel off s, 0 <= off -> 0 < Z.of_nat fuel -> 0x1000 - off <= Z.of_nat fuel -> at_page pml4 s f A -> R (pc_w s) ->
  exists w' r, ext_loop pml4 fuel f cap_id off s = (with_w s w', Some r) /\
    (r = 0 \/ (0x100 <= r <= 0xFFC /\ (r mod 4 = 0 -> cfg32 r mod 2 ^ 16 = cap_id))).
Proof.
  induction fuel as [|fuel IH]; intros off s H0' Hf0 Hf P HR.
  - lia.
  - cbn [ext_loop]. destruct (Z.leb_spec 0x100 off), (Z.leb_spec off 0xFFC); cbn [andb]; try (exists (pc_w s), 0; split; [by destruct s|by left]).
    unfold mbind, pc_bind. destruct (read32_at s off P HR ltac:(lia)) as (w1 & v & -> & R1 & P1 & Hv).
    destruct ((v =? 0) || (v =? 0xFFFFFFFF)); [exists w1, 0; split; [done|by left]|].
    destruct (Z.eqb_spec (Z.land v 0xFFFF) cap_id) as [Ec|_].
    + exists w1, off. split; [done|]. right. split; [lia|]. intros H4. rewrite <- (Hv H4), <- Ec. change 0xFFFF with (Z.ones 16). by rewrite Z.land_ones by lia.
    + set (nx := Z.land (Z.shiftr v 20) 0xFFF). destruct ((nx =? 0) || (nx <=? off)) eqn:En; [exists w1, 0; split; [done|by left]|].
      apply orb_false_elim in En as [_ En%Z.leb_gt]. assert (nx <= 0xFFF) by (apply land_le_r; lia).
      destruct (IH nx (with_w s w1) ltac:(lia) ltac:(lia) ltac:(lia) P1 R1) as (w2 & r & E & Hr). exists w2, r. split; [exact E|done].
Qed.
End Caps.

(** ** Enumeration of PCI Express functions *)

Definition fn_ok (f : Bdf) : Prop := 0 <= device f /\ 0 <= function f.

Section Scan.
Context {W : Type} `{Machine W} {S : Type} `{FrameAllocator S}.
Context (pml4 : Z) (krealloc_ok : Z -> bool).
Implicit Types (s : Pci W S).

(** In every state the scan goes through ([R]) a function answers with the
    same vendor and header type; a missing function answers all ones. *)
Record answers (R : Pci W S -> Prop) (V Hd : Bdf -> Z) : Prop := {
  an_vendor : forall s f, fn_ok f -> R s -> (pcie_read16 pml4 f PCI_REG_VENDOR_ID s).2 = V f;
  an_header : forall s f, fn_ok f -> R s -> (pcie_read8 pml4 f PCI_REG_HEADER_TYPE s).2 = Hd f;
  an_load : forall s n f off, fn_ok f -> R s -> R (cfg_load pml4 n f off s).1;
  an_store : forall s n f off v, fn_ok f -> R s -> R (cfg_store pml4 n f off v s).1;
  an_table : forall s ds cap, R s -> R (mkPci (pc_w s) (pc_fa s) (g_segments s) ds cap)
}.
Context (R : Pci W S -> Prop) (V Hd : Bdf -> Z) (HA : answers R V Hd).

(** Actions that leave the table of devices alone. *)
Definition keeps {A} (c : Pc W S A) : Prop := forall s, R s ->
  R (c s).1 /\ g_devices (c s).1 = g_devices s /\ g_device_capacity (c s).1 = g_device_capacity s.

Lemma keeps_ret {A} (a : A) : keeps (mret a).
Proof. intros s HR. done. Qed.

Lemma keeps_bind {A B} (c : Pc W S A) (k : A -> Pc W S B) : keeps c -> (forall a, keeps (k a)) -> keeps (c ≫= k).
Proof.
  intros Hc Hk s HR. unfold mbind, pc_bind. destruct (Hc s HR) as (R1 & D1 & C1). destruct (c s) as [s1 a]. cbn [fst] in *.
  destruct (Hk a s1 R1) as (R2 & D2 & C2). split_and!; [done|congruence..].
Qed.

Lemma reg_addr_table s f off : g_devices (pcie_get_reg_addr pml4 f off s).1 = g_devices s /\ g_device_capacity (pcie_get_reg_addr pml4 f off s).1 = g_device_capacity s.
Proof.
  unfold pcie_get_reg_addr. destruct (_ || _); [done|]. destruct (find_segment _ _ _); [|done]. unfold map_window. destruct (_ =? 0); [|done].
  destruct (vmmMapPage _ _ _ _ _). done.
Qed.

Lemma keeps_load n f off : fn_ok f -> keeps (cfg_load pml4 n f off).
Proof.
  intros Hf s HR. split; [by apply (an_load _ _ _ HA)|]. unfold cfg_load. destruct (reg_addr_table s f off) as [E1 E2]. destruct (pcie_get_reg_addr pml4 f off s) as [s1 a]. cbn [fst] in *.
  destruct (a =? 0); [done|]. destruct (io_rd _ _ _). done.
Qed.

Lemma keeps_store n f off v : fn_ok f -> keeps (cfg_store pml4 n f off v).
Proof.
  intros Hf s HR. split; [by apply (an_store _ _ _ HA)|]. unfold cfg_store. destruct (reg_addr_table s f off) as [E1 E2]. destruct (pcie_get_reg_addr pml4 f off s) as [s1 a]. cbn [fst] in *.
  by destruct (a =? 0).
Qed.

Ltac keep := repeat (apply keeps_ret || (apply keeps_load; assumption) || (apply keeps_store; assumption) || (apply keeps_bind; [|intros ?]) || case_match).

Lemma keeps_read8 f off : fn_ok f -> keeps (pcie_read8 pml4 f off).
Proof. intros Hf. unfold pcie_read8. keep. Qed.
Lemma keeps_read16 f off : fn_ok f -> keeps (pcie_read16 pml4 f off).
Proof. intros Hf. unfold pcie_read16. keep. Qed.
Lemma keeps_read32 f off : fn_ok f -> keeps (pcie_read32 pml4 f off).
Proof. intros Hf. unfold pcie_read32. keep. Qed.
Lemma keeps_write16 f off v : fn_ok f -> keeps (pcie_write16 pml4 f off v).
Proof. intros Hf. unfold pcie_write16. keep. Qed.
Lemma keeps_write32 f off v : fn_ok f -> keeps (pcie_write32 pml4 f off v).
Proof. intros Hf. unfold pcie_write32. keep. Qed.

Ltac keep_all := repeat (apply keeps_ret || (apply keeps_read8; assumption) || (apply keeps_read16; assumption) || (apply keeps_read32; assumption) || (apply keeps_write16; assumption) || (apply keeps_write32; assumption) ||
  (apply keeps_bind; [|intros ?]) || case_match).

Lemma keeps_parse_bar f n i bs : fn_ok f -> keeps (parse_bar pml4 f n i bs).
Proof. intros Hf. unfold parse_bar, probe_mask, probe_mask64. keep_all. Qed.

Lemma keeps_parse_loop f n : fn_ok f -> forall fuel i bs, keeps (parse_loop pml4 fuel f n i bs).
Proof.
  intros Hf. induction fuel as [|fuel IH]; intros i bs; cbn [parse_loop]; [apply keeps_ret|]. destruct (i <? n); [|apply keeps_ret].
  apply keeps_bind; [by apply keeps_parse_bar|intros a; apply IH].
Qed.

Lemma keeps_parse_bars dev : fn_ok (bdf dev) -> keeps (pcie_parse_bars pml4 dev).
Proof.
  intros Hf. unfold pcie_parse_bars. apply keeps_bind; [by apply keeps_read16|intros ?]. apply keeps_bind; [by apply keeps_write16|intros ?].
  apply keeps_bind; [by apply keeps_parse_loop|intros ?]. keep_all.
Qed.

(** What the record holds besides the registers. *)
Lemma parse_bars_dev dev s : let d := (pcie_parse_bars pml4 dev s).2 in bdf d = bdf dev /\ vendor_id d = vendor_id dev /\ header_type d = header_type dev.
Proof.
  unfold pcie_parse_bars, mbind, pc_bind. destruct (pcie_read16 _ _ _ _) as [s1 c]. destruct (pcie_write16 _ _ _ _ _) as [s2 u].
  destruct (parse_loop _ _ _ _ _ _ _) as [s3 bs]. destruct (pcie_write16 _ _ _ _ _) as [s4 u4]. done.
Qed.

Definition recorded (d : PciDevice) : Prop := vendor_id d = V (bdf d) /\ header_type d = Hd (bdf d).

(** Action [c] adds exactly the functions [l] to the table. *)
Definition adds (c : Pc W S unit) (l : list Bdf) : Prop := forall s, R s -> exists ds,
  R (c s).1 /\ g_devices (c s).1 = g_devices s ++ ds /\ bdf <$> ds = l /\ Forall recorded ds.

Lemma adds_nil c : keeps c -> adds c [].
Proof. intros Hc s HR. destruct (Hc s HR) as (? & E & _). exists []. rewrite app_nil_r. done. Qed.

Lemma adds_seq c1 c2 l1 l2 : adds c1 l1 -> adds c2 l2 -> adds (c1;; c2) (l1 ++ l2).
Proof.
  intros A1 A2 s HR. unfold mbind, pc_bind. destruct (A1 s HR) as (d1 & R1 & E1 & L1 & F1). destruct (c1 s) as [s1 []]. cbn [fst] in *.
  destruct (A2 s1 R1) as (d2 & R2 & E2 & L2 & F2). exists (d1 ++ d2). rewrite E2, E1, app_assoc, fmap_app, L1, L2. split_and!; try done. by apply Forall_app.
Qed.

Lemma adds_after {A} (c : Pc W S A) (k : A -> Pc W S unit) l : keeps c -> (forall a, adds (k a) l) -> adds (c ≫= k) l.
Proof.
  intros Hc Hk s HR. unfold mbind, pc_bind. destruct (Hc s HR) as (R1 & D1 & C1). destruct (c s) as [s1 a]. cbn [fst] in *.
  destruct (Hk a s1 R1) as (ds & R2 & E2 & L2 & F2). exists ds. rewrite E2, D1. done.
Qed.

Lemma adds_each body l (L : Z -> list Bdf) : (forall x, x ∈ l -> adds (body x) (L x)) -> adds (each l body) (l ≫= L).
Proof.
  induction l as [|x l IH]; intros Hb; [apply adds_nil, keeps_ret|]. cbn [each]. rewrite bind_cons. apply adds_seq; [apply Hb; left|]. apply IH. intros y Hy. apply Hb. by right.
Qed.

Context (Hkr : forall n, krealloc_ok n = true).

Lemma adds_register d : recorded d -> adds (pcie_register_device krealloc_ok d) [bdf d].
Proof.
  intros Hd' s HR. exists [d]. unfold pcie_register_device. destruct (_ <=? _); rewrite ?Hkr; cbn [fst g_devices]; (split_and!; [by apply (an_table _ _ _ HA)|done|done|by constructor]).
Qed.

Definition present_at (f : Bdf) : bool := negb (V f =? PCIE_INVALID_VENDOR_ID).

(** Reading a value that is known. *)
Lemma adds_known {A} (c : Pc W S A) (k : A -> Pc W S unit) l (v : A) : keeps c -> (forall s, R s -> (c s).2 = v) -> adds (k v) l -> adds (c ≫= k) l.
Proof.
  intros Hc Hv Hk s HR. unfold mbind, pc_bind. destruct (Hc s HR) as (R1 & D1 & C1). specialize (Hv s HR). destruct (c s) as [s1 a]. cbn [fst snd] in *. subst a.
  destruct (Hk s1 R1) as (ds & R2 & E2 & L2 & F2). exists ds. rewrite E2, D1. done.
Qed.

Lemma probe_function_adds stack f : fn_ok f -> adds (pcie_probe_function pml4 krealloc_ok stack f) (if present_at f then [f] else []).
Proof.
  intros Hf. unfold pcie_probe_function, present_at. eapply adds_known; [by apply keeps_read16|intros s; by apply (an_vendor _ _ _ HA)|].
  destruct (V f =? PCIE_INVALID_VENDOR_ID); cbn [negb]; [apply adds_nil, keeps_ret|].
  do 5 (apply adds_after; [(apply keeps_read8; assumption) || by apply keeps_read16|intros ?]). eapply adds_known; [by apply keeps_read8|intros s; by apply (an_header _ _ _ HA)|].
  do 2 (apply adds_after; [by apply keeps_read8|intros ?]). do 2 (apply adds_after; [keep_all|intros ?]).
  intros s HR. unfold mbind, pc_bind. set (d0 := mkDevice _ _ _ _ _ _ _ _ _ _ _ _ _ _). destruct (keeps_parse_bars d0 Hf s HR) as (R1 & D1 & C1).
  pose proof (parse_bars_dev d0 s) as (E1 & E2 & E3). destruct (pcie_parse_bars pml4 d0 s) as [s1 d]. cbn [fst snd] in *.
  assert (Hr : recorded d) by (unfold recorded; rewrite E2, E3, E1; done). destruct (adds_register d Hr s1 R1) as (ds & R2 & E4 & L & F).
  exists ds. rewrite E4, D1, L, E1. done.
Qed.

(** The functions of one device, of the buses of a segment, of all. *)
Definition device_functions (seg b d : Z) : list Bdf :=
  if present_at (mkBdf seg b d 0) then
    seqZ 0 (if has (Hd (mkBdf seg b d 0)) PCI_HEADER_TYPE_MULTIFUNC then 8 else 1) ≫= (fun fn => if present_at (mkBdf seg b d fn) then [mkBdf seg b d fn] else [])
  else [].
Definition segment_functions (a : AcpiMcfgAllocation) : list Bdf :=
  seqZ (start_bus a) (end_bus a + 1 - start_bus a) ≫= (fun b => seqZ 0 32 ≫= device_functions (segment_group a) b).

Lemma probe_device_adds stack seg b d : 0 <= d -> adds (pcie_probe_device pml4 krealloc_ok stack seg b d) (device_functions seg b d).
Proof.
  intros Hd'. assert (Hf0 : fn_ok (mkBdf seg b d 0)) by (split; cbn; lia). unfold pcie_probe_device, device_functions.
  eapply adds_known; [by apply keeps_read16|intros s; by apply (an_vendor _ _ _ HA)|].
  unfold present_at at 1. destruct (V (mkBdf seg b d 0) =? PCIE_INVALID_VENDOR_ID); cbn [negb]; [apply adds_nil, keeps_ret|].
  eapply adds_known; [by apply keeps_read8|intros s; by apply (an_header _ _ _ HA)|]. apply adds_each. intros fn Hfn%elem_of_seqZ. apply probe_function_adds. split; cbn; lia.
Qed.

Lemma scan_segments_adds stack l : adds (scan_segments pml4 krealloc_ok stack l) (l ≫= segment_functions).
Proof.
  induction l as [|a l IH]; [apply adds_nil, keeps_ret|]. cbn [scan_segments]. rewrite bind_cons. apply adds_seq; [|exact IH].
  apply adds_each. intros b _. apply adds_each. intros d Hd'%elem_of_seqZ. apply probe_device_adds. lia.
Qed.

(** C35: A scan, with memory for the table, records exactly the functions that
    answer, in the order of segments, buses, devices and functions (those
    above 0 only for a device that says it has several), each with the
    vendor and the header type it answers with. *)
Theorem pcie_scan_all_correct stack s : R s ->
  let s' := (pcie_scan_all pml4 krealloc_ok stack s).1 in
  R s' /\ bdf <$> g_devices s' = g_segments s ≫= segment_functions /\ Forall recorded (g_devices s').
Proof.
  intros HR s'. unfold s', pcie_scan_all.
  destruct (scan_segments_adds stack (g_segments s) (mkPci (pc_w s) (pc_fa s) (g_segments s) [] (g_device_capacity s))) as (ds & R' & -> & L & F); [by apply (an_table _ _ _ HA)|].
  done.
Qed.
End Scan.
