(* ===== verification/PcieDemo.v ===== *)
(** * PCI Express: the theorems, and a bus to use them with *)

From Stdlib Require Import ZArith Lia Bool.
From stdpp Require Import base list gmap.
From S2P Require Import Prelude Mem Frames Pmm PageTable PtWalk PtOps AddrSpace Machine Pcie PcieBars PcieProps.

(** C34: Sizing the base address registers of a function whose registers are as
    the PCI specification says: each memory or I/O register (32 or 64 bits)
    is recorded with its address and its size, unassigned ones with none;
    afterwards every register, the command register included, holds what it
    held, and no base address register is written while the function
    decodes addresses. *)
Theorem pcie_parse_bars_correct {W} `{Machine W} `{!MachineLaws W} {S} `{FrameAllocator S} pml4 A mask fixd (B : W -> Z -> Z) C (s : Pci W S) dev kinds :
  let n := max_bars_of (header_type dev) in
  bar_regs A n mask fixd B C -> at_page pml4 s (bdf dev) A -> layout n mask fixd B (pc_w s) 0 kinds ->
  exists w', pcie_parse_bars pml4 dev s = (with_w s w', set_bar_count (set_bars dev (parsed 0 kinds (bars dev))) n) /\ quiet n B C (pc_w s) w'.
Proof.
  intros n HB P L. assert (Hn : n <= 6) by (unfold n, max_bars_of; destruct (_ =? _); lia).
  destruct (pcie_parse_bars_ok pml4 (bdf dev) A n mask fixd B C HB Hn s dev kinds eq_refl eq_refl P L) as (w' & E & Q & _). by exists w'.
Qed.

(** Looking for a capability in a list that ends: the walk finds the first
    entry with the id, or 0. *)
Theorem pcie_find_capability_correct {W} `{Machine W} `{!MachineLaws W} {S} `{FrameAllocator S} pml4 f A c R (s : Pci W S) cap_id l fuel :
  cfg_bytes A c R -> at_page pml4 s f A -> R (pc_w s) -> has (c PCI_REG_STATUS + 256 * c (PCI_REG_STATUS + 1)) PCI_STATUS_CAPABILITIES = true ->
  cap_list c (Z.land (c PCI_REG_CAPABILITIES) (u8 (Z.lnot 3))) l -> (length l < fuel)%nat ->
  exists w', pcie_find_capability pml4 fuel f cap_id s = (with_w s w', Some (first_cap c cap_id l)) /\ R w'.
Proof.
  intros HC P HR Hst Hl Hf. unfold pcie_find_capability, mbind, pc_bind, pcie_read16. rewrite has1 by done.
  destruct (load_at pml4 f A c R HC s 2 PCI_REG_STATUS P HR ltac:(unfold PCI_REG_STATUS; lia) ltac:(lia)) as (w1 & -> & R1 & P1).
  change (seqZ 0 (Z.of_nat 2)) with [0; 1]. cbn [foldr]. rewrite Z.mul_0_r, !Z.add_0_r, Hst. cbn [negb].
  destruct (read8_at pml4 f A c R HC (with_w s w1) PCI_REG_CAPABILITIES P1 R1 ltac:(unfold PCI_REG_CAPABILITIES; lia)) as (w2 & -> & R2 & P2). rewrite with_w_w in P2 |- *.
  destruct (cap_loop_ok pml4 f A c R HC cap_id l _ fuel (with_w s w2) Hl Hf P2 R2) as (w3 & E & R3 & _). exists w3. split; [exact E|done].
Qed.

(** A capability that points to itself keeps the walk going without end, for
    every number of rounds, when the function has no such capability. *)
Theorem pcie_find_capability_diverges {W} `{Machine W} `{!MachineLaws W} {S} `{FrameAllocator S} pml4 f A c R (s : Pci W S) cap_id fuel :
  cfg_bytes A c R -> at_page pml4 s f A -> R (pc_w s) -> has (c PCI_REG_STATUS + 256 * c (PCI_REG_STATUS + 1)) PCI_STATUS_CAPABILITIES = true ->
  let p := Z.land (c PCI_REG_CAPABILITIES) (u8 (Z.lnot 3)) in in_caps p = true -> next_cap c p = p -> c p <> cap_id ->
  (pcie_find_capability pml4 fuel f cap_id s).2 = None.
Proof.
  intros HC P HR Hst p Hi Hn Hne. unfold pcie_find_capability, mbind, pc_bind, pcie_read16. rewrite has1 by done.
  destruct (load_at pml4 f A c R HC s 2 PCI_REG_STATUS P HR ltac:(unfold PCI_REG_STATUS; lia) ltac:(lia)) as (w1 & -> & R1 & P1).
  change (seqZ 0 (Z.of_nat 2)) with [0; 1]. cbn [foldr]. rewrite Z.mul_0_r, !Z.add_0_r, Hst. cbn [negb].
  destruct (read8_at pml4 f A c R HC (with_w s w1) PCI_REG_CAPABILITIES P1 R1 ltac:(unfold PCI_REG_CAPABILITIES; lia)) as (w2 & -> & R2 & P2). rewrite with_w_w in P2 |- *.
  fold p. destruct (cap_loop_cycle pml4 f A c R HC cap_id p Hi Hn Hne fuel (with_w s w2) P2 R2) as (w3 & ->). done.
Qed.

(** The walk over the extended capabilities ends for every contents of the
    registers, at a capability with the id or with 0. *)
Theorem pcie_find_extended_capability_total {W} `{Machine W} `{!MachineLaws W} {S} `{FrameAllocator S} pml4 f A c R (s : Pci W S) cap_id :
  cfg_bytes A c R -> at_page pml4 s f A -> R (pc_w s) ->
  exists w' r, pcie_find_extended_capability pml4 f cap_id s = (with_w s w', Some r) /\
    (r = 0 \/ (0x100 <= r <= 0xFFC /\ (r mod 4 = 0 -> cfg32 c r mod 2 ^ 16 = cap_id))).
Proof.
  intros HC P HR. unfold pcie_find_extended_capability. assert (Hf : Z.of_nat (Z.to_nat 0x1000) = 0x1000) by (apply Z2Nat.id; lia).
  generalize dependent (Z.to_nat 0x1000). intros fuel Hf. apply (ext_loop_ends pml4 f A c R HC cap_id fuel 0x100 s); [lia..|done|done].
Qed.

(** ** A bus with one function

    The window of segment 0 (bus 0) is at 0xE0000000, under a 1 GiB page. *)
Definition bus_mem : mem := wr64 (wr64 ∅ (tbl 0x1000 + 8 * 256) (Z.lor 0x2000 3)) (tbl 0x2000 + 8 * 3) (Z.lor 0xC0000000 0x83).
Definition seg0 : AcpiMcfgAllocation := mkSegment 0xE0000000 0 0 0.
Definition fn0 : Bdf := mkBdf 0 0 0 0.
Definition fn0_at : Z := HHDM_BASE + 0xE0000000.

Lemma window_mapped v : HHDM_BASE + 0xC0000000 <= v < HHDM_BASE + 0x100000000 -> vmmVirtToPhys bus_mem (tbl 0x1000) v <> 0.
Proof.
  intros Hv. assert (E4 : tidx v 39 = 256).
  { unfold tidx. change 0x1FF with (Z.ones 9). rewrite Z.land_ones, Z.shiftr_div_pow2 by lia. unfold HHDM_BASE in Hv. divlia. }
  assert (E3 : tidx v 30 = 3).
  { unfold tidx. change 0x1FF with (Z.ones 9). rewrite Z.land_ones, Z.shiftr_div_pow2 by lia. unfold HHDM_BASE in Hv. divlia. }
  unfold vmmVirtToPhys. rewrite E4, E3. set (e4 := rd64 bus_mem (tbl 0x1000 + 8 * 256)). assert (H4 : e4 = 0x2003) by (vm_compute; reflexivity). rewrite H4.
  set (e3 := rd64 bus_mem _). assert (H3 : e3 = 0xC0000083) by (vm_compute; reflexivity). rewrite H3.
  change (negb (0x2003 &? VMM_FLAG_PRESENT)) with false. change (negb (0xC0000083 &? VMM_FLAG_PRESENT)) with false. change (0xC0000083 &? VMM_FLAG_HUGE) with true. cbv iota.
  intros Hz. apply Z.lor_eq_0_iff in Hz as [Hz _]. vm_compute in Hz. discriminate Hz.
Qed.

(** The registers of every function of bus 0. *)
Lemma bus_page {W} `{Machine W} {S} `{FrameAllocator S} (s : Pci W S) f : mm (pc_w s) = bus_mem -> g_segments s = [seg0] ->
  segment f = 0 -> bus f = 0 -> 0 <= device f < 32 -> 0 <= function f < 8 -> at_page (tbl 0x1000) s f (fn0_at + (device f * 8 + function f) * 4096).
Proof.
  intros Em Es Hs Hb Hd Hf.
  assert (Hok : segment_ok seg0) by (vm_compute; repeat split; congruence || discriminate).
  destruct (ecam_page_eq seg0 f Hok ltac:(cbn; lia) Hd Hf) as [Ep _]. cbn [base_address start_bus seg0] in Ep.
  assert (Ea : fn0_at + (device f * 8 + function f) * 4096 = ecam_page seg0 f + HHDM_BASE) by (rewrite Ep, Hb; unfold fn0_at; lia).
  constructor.
  - exists seg0. rewrite Es, Hs, Hb. split; [done|]. rewrite Ea. symmetry. apply u64_id. rewrite <- Ea. unfold is_u64, fn0_at, HHDM_BASE. lia.
  - lia.
  - unfold fn0_at, HHDM_BASE. lia.
  - rewrite Em. apply window_mapped. unfold fn0_at. lia.
Qed.

(** *** Base address registers *)
Record Bus := mkBus { bus_m : mem; bus_cmd : Z; bus_bars : Z -> Z }.

Definition fn0_mask (i : Z) : Z :=
  match i with 0 => 2 ^ 32 - 2 ^ 14 | 1 => 2 ^ 32 - 2 ^ 0 | 2 => 2 ^ 32 - 2 ^ 5 | 4 => 2 ^ 32 - 2 ^ 12 | _ => 0 end.
Definition fn0_fixed (i : Z) : Z := match i with 0 => 4 | 2 => 1 | 4 => 8 | _ => 0 end.
Definition fn0_bars (i : Z) : Z := match i with 0 => 0xFEBF0004 | 1 => 1 | 2 => 0xC001 | 4 => 0xFD000008 | _ => 0 end.

Definition bar_of (a : Z) : option Z :=
  let o := a - fn0_at - PCI_REG_BAR0 in if (0 <=? o) && (o <? 24) && (o mod 4 =? 0) then Some (o / 4) else None.

#[export] Instance bus_machine : Machine Bus := {
  mm := bus_m;
  set_mm w m := mkBus m (bus_cmd w) (bus_bars w);
  elapse w := w;
  millis w := 0;
  io_rd w n a := (w, match bar_of a with
                     | Some i => bus_bars w i
                     | None => if a =? fn0_at + PCI_REG_COMMAND then u16 (bus_cmd w) else 0
                     end);
  io_wr w n a v :=
    match bar_of a with
    | Some i => mkBus (bus_m w) (bus_cmd w) (fun j => if j =? i then Z.lor (Z.land v (fn0_mask i)) (fn0_fixed i) else bus_bars w j)
    | None => if a =? fn0_at + PCI_REG_COMMAND then mkBus (bus_m w) v (bus_bars w) else w
    end
}.
#[export] Instance bus_laws : MachineLaws Bus.
Proof.
  constructor; try done. intros w n a v. cbn [io_wr bus_machine mm]. destruct (bar_of a); [done|]. by destruct (a =? _).
Qed.

Lemma bar_of_bar i : 0 <= i < 6 -> bar_of (fn0_at + (PCI_REG_BAR0 + i * 4)) = Some i.
Proof.
  intros Hi. unfold bar_of. replace (fn0_at + (PCI_REG_BAR0 + i * 4) - fn0_at - PCI_REG_BAR0) with (i * 4) by lia.
  destruct (Z.leb_spec 0 (i * 4)); [|lia]. destruct (Z.ltb_spec (i * 4) 24); [|lia]. rewrite Z.mod_mul, Z.div_mul by lia. done.
Qed.

Lemma bus_bar_regs : bar_regs fn0_at 6 fn0_mask fn0_fixed bus_bars (fun w => u16 (bus_cmd w)).
Proof.
  constructor.
  - intros w i Hi. cbn [io_rd bus_machine fst snd]. rewrite bar_of_bar by done. done.
  - intros w i v Hi _. cbn [io_wr bus_machine]. rewrite bar_of_bar by done. done.
  - intros w. cbn [io_rd bus_machine fst snd]. done.
  - intros w v Hv. cbn [io_wr bus_machine]. split; [|done]. by apply u16_id.
  - intros w. apply u16_range.
Qed.

Definition bus0 : Pci Bus Pmm := mkPci (mkBus bus_mem 7 fn0_bars) (pmm_init demo_boot) [seg0] [] 0.
Definition dev0 : PciDevice := mkDevice fn0 0x1234 0 0 0 0 0 0 0 0 0 0 (repeat (mkBar 0 0 0 0 0) 6) 0.
Definition fn0_kinds : list BarKind := [Mem64Bar 14 0x1FEBF0000 false; IoBar 5 0xC000; NoBar; Mem32Bar 12 0xFD000000 true; NoBar].

Lemma bus0_layout : layout 6 fn0_mask fn0_fixed bus_bars (pc_w bus0) 0 fn0_kinds.
Proof. vm_compute. repeat split; congruence || discriminate || lia. Qed.

Lemma pcie_parse_bars_correct_witness : exists w',
  pcie_parse_bars (tbl 0x1000) dev0 bus0 = (with_w bus0 w', set_bar_count (set_bars dev0
    [mkBar 0x1FEBF0000 0x4000 0 1 0; mkBar 0 0 0 1 0; mkBar 0xC000 32 1 0 0; mkBar 0 0 0 0 0; mkBar 0xFD000000 0x1000 0 0 1; mkBar 0 0 0 0 0]) 6).
Proof.
  destruct (pcie_parse_bars_correct (tbl 0x1000) fn0_at fn0_mask fn0_fixed bus_bars (fun w => u16 (bus_cmd w)) bus0 dev0 fn0_kinds bus_bar_regs) as (w' & E & _).
  - exact (bus_page bus0 fn0 eq_refl eq_refl eq_refl eq_refl ltac:(cbn; lia) ltac:(cbn; lia)).
  - exact bus0_layout.
  - exists w'. exact E.
Defined.

(** *** A function with constant registers *)
Inductive Rom := mkRom (m : mem).
Definition rom_mem (r : Rom) : mem := let '(mkRom m) := r in m.

(** Vendor, status, capability pointer and two capabilities. *)
Definition fn0_byte (off : Z) : Z :=
  match off with 0 => 0x34 | 1 => 0x12 | 6 => 0x10 | 0x34 => 0x40 | 0x40 => 5 | 0x41 => 0x50 | 0x50 => 0x11 | _ => 0 end.

#[export] Instance rom_machine : Machine Rom := {
  mm := rom_mem; set_mm _ m := mkRom m; elapse w := w; millis w := 0;
  io_rd w n a := (w, if (fn0_at <=? a) && (a <? fn0_at + 4096)
                     then foldr (fun i v => fn0_byte (a - fn0_at + i) + 256 * v) 0 (seqZ 0 (Z.of_nat n)) else 256 ^ Z.of_nat n - 1);
  io_wr w n a v := w
}.
#[export] Instance rom_laws : MachineLaws Rom.
Proof. constructor; done. Qed.

Lemma fn0_byte_range off : 0 <= fn0_byte off < 256.
Proof. unfold fn0_byte. repeat (case_match; try lia). Qed.

Lemma rom_bytes : cfg_bytes fn0_at fn0_byte (fun _ : Rom => True).
Proof.
  constructor; [|apply fn0_byte_range]. intros w n off _ Ho Hn. cbn [io_rd rom_machine fst snd]. split; [done|].
  destruct (Z.leb_spec fn0_at (fn0_at + off)); [|lia]. destruct (Z.ltb_spec (fn0_at + off) (fn0_at + 4096)); [|lia]. cbn [andb].
  by replace (fn0_at + off - fn0_at) with off by lia.
Qed.

Definition rom0 : Pci Rom Pmm := mkPci (mkRom bus_mem) (pmm_init demo_boot) [seg0] [] 0.
Lemma rom0_page : at_page (tbl 0x1000) rom0 fn0 fn0_at.
Proof. exact (bus_page rom0 fn0 eq_refl eq_refl eq_refl eq_refl ltac:(cbn; lia) ltac:(cbn; lia)). Qed.

Lemma rom_caps : cap_list fn0_byte 0x40 [0x40; 0x50].
Proof. constructor; [done|]. change (next_cap fn0_byte 0x40) with 0x50. constructor; [done|]. by constructor. Qed.

Lemma pcie_find_capability_correct_witness : exists w', pcie_find_capability (tbl 0x1000) 3 fn0 PCI_CAP_ID_MSIX rom0 = (with_w rom0 w', Some 0x50).
Proof.
  destruct (pcie_find_capability_correct (tbl 0x1000) fn0 fn0_at fn0_byte (fun _ => True) rom0 PCI_CAP_ID_MSIX [0x40; 0x50] 3 rom_bytes rom0_page I eq_refl rom_caps ltac:(cbn; lia)) as (w' & E & _).
  exists w'. exact E.
Defined.

Lemma pcie_find_extended_capability_total_witness : exists w' r, pcie_find_extended_capability (tbl 0x1000) fn0 1 rom0 = (with_w rom0 w', Some r).
Proof.
  destruct (pcie_find_extended_capability_total (tbl 0x1000) fn0 fn0_at fn0_byte (fun _ => True) rom0 1 rom_bytes rom0_page I) as (w' & r & E & _).
  exists w', r. exact E.
Defined.

(** A function whose only capability points to itself. *)
Definition loop_byte (off : Z) : Z := match off with 6 => 0x10 | 0x34 => 0x40 | 0x40 => 5 | 0x41 => 0x40 | _ => 0 end.
Inductive Loop := mkLoop (m : mem).
#[export] Instance loop_machine : Machine Loop := {
  mm w := let '(mkLoop m) := w in m; set_mm _ m := mkLoop m; elapse w := w; millis w := 0;
  io_rd w n a := (w, foldr (fun i v => loop_byte (a - fn0_at + i) + 256 * v) 0 (seqZ 0 (Z.of_nat n)));
  io_wr w n a v := w
}.
#[export] Instance loop_laws : MachineLaws Loop.
Proof. constructor; done. Qed.

Lemma loop_bytes : cfg_bytes fn0_at loop_byte (fun _ : Loop => True).
Proof.
  constructor; [|intros off; unfold loop_byte; repeat (case_match; try lia)]. intros w n off _ Ho Hn. cbn [io_rd loop_machine fst snd]. split; [done|].
  by replace (fn0_at + off - fn0_at) with off by lia.
Qed.

Definition loop0 : Pci Loop Pmm := mkPci (mkLoop bus_mem) (pmm_init demo_boot) [seg0] [] 0.

Lemma pcie_find_capability_diverges_witness : (pcie_find_capability (tbl 0x1000) 500 fn0 PCI_CAP_ID_MSIX loop0).2 = None.
Proof.
  apply (pcie_find_capability_diverges (tbl 0x1000) fn0 fn0_at loop_byte (fun _ => True) loop0 PCI_CAP_ID_MSIX 500 loop_bytes).
  - exact (bus_page loop0 fn0 eq_refl eq_refl eq_refl eq_refl ltac:(cbn; lia) ltac:(cbn; lia)).
  - exact I.
  - reflexivity.
  - reflexivity.
  - reflexivity.
  - discriminate.
Defined.

(** *** Addresses and enumeration *)
Definition empty0 : Pci Rom Pmm := mkPci (mkRom (vm_mem demo_vm)) (vm_fa demo_vm) [seg0] [] 0.

Lemma empty0_vm : vm_of empty0 = demo_vm.
Proof. unfold vm_of, empty0. cbn [pc_w pc_fa mm rom_machine rom_mem]. generalize demo_vm. by intros []. Qed.

Lemma empty0_wf : pt_wf (vm_of empty0) demo_root.
Proof. rewrite empty0_vm. exact demo_wf. Qed.

Lemma empty0_direct : direct demo_root empty0.
Proof. intros v Hv. left. rewrite empty0_vm, translate_xl by exact demo_wf. by rewrite demo_absent. Qed.

Lemma pcie_get_reg_addr_correct_witness : exists s' r, pcie_get_reg_addr (tbl demo_root) fn0 0x10 empty0 = (s', r) /\ pt_wf (vm_of s') demo_root.
Proof.
  destruct (pcie_get_reg_addr_correct demo_root empty0 fn0 0x10 empty0_wf empty0_direct) as (s' & r & E & Wf & _).
  - constructor; [|constructor]. vm_compute. repeat split; congruence || discriminate.
  - vm_compute. repeat split; congruence || discriminate.
  - lia.
  - intros a _. apply demo_no_huge.
  - exists s', r. split; [exact E|exact Wf].
Defined.

Definition fn0_vendor (f : Bdf) : Z := if (segment f =? 0) && (bus f =? 0) && (device f =? 0) && (function f =? 0) then 0x1234 else 0xFFFF.
Definition fn0_header (f : Bdf) : Z := if (segment f =? 0) && (bus f =? 0) && (device f =? 0) && (function f =? 0) then 0 else 0xFF.
Definition rom_state (s : Pci Rom Pmm) : Prop := rom_mem (pc_w s) = bus_mem /\ g_segments s = [seg0].

(** The accesses to the window change nothing, and reach only [fn0]. *)
Lemma rom_addr s f off : rom_state s -> fn_ok f -> exists r, pcie_get_reg_addr (tbl 0x1000) f off s = (s, r) /\
  (0 <= off < 4096 -> r = if (segment f =? 0) && (bus f =? 0) && (device f <? 32) && (function f <? 8) then fn0_at + (device f * 8 + function f) * 4096 + off else 0).
Proof.
  intros [Em Es] [Hd Hf]. unfold pcie_get_reg_addr. destruct (Z.leb_spec 32 (device f)), (Z.leb_spec 8 (function f)), (Z.leb_spec 4096 off); cbn [orb];
    try (exists 0; split; [done|]; intros Ho; destruct (Z.ltb_spec (device f) 32), (Z.ltb_spec (function f) 8); rewrite ?andb_false_r; cbn [andb]; done || lia).
  destruct (Z.ltb_spec (device f) 32); [|lia]. destruct (Z.ltb_spec (function f) 8); [|lia]. rewrite !andb_true_r.
  destruct (find_segment (g_segments s) (segment f) (bus f)) as [a|] eqn:E.
  - pose proof E as E'. rewrite Es in E'. destruct (find_segment_some _ _ _ _ E') as (Ha%list_elem_of_singleton & Hs & Hb). subst a. cbn [seg0 segment_group start_bus end_bus] in Hs, Hb.
    assert (Em' : mm (pc_w s) = bus_mem) by exact Em. destruct (bus_page s f Em' Es ltac:(lia) ltac:(lia) ltac:(lia) ltac:(lia)) as [(a & Ea & EA) _ Hr Hm]. rewrite E in Ea. injection Ea as <-. rewrite <- EA.
    unfold map_window. change (mm (pc_w s)) with (rom_mem (pc_w s)) in Hm |- *. destruct (Z.eqb_spec (vmmVirtToPhys (rom_mem (pc_w s)) (tbl 0x1000) (fn0_at + (device f * 8 + function f) * 4096)) 0); [done|].
    eexists. split; [reflexivity|]. intros Ho. destruct (Z.eqb_spec (segment f) 0); [|lia]. destruct (Z.eqb_spec (bus f) 0); [|lia]. cbn [andb]. apply u64_id. unfold is_u64. lia.
  - exists 0. split; [done|]. intros Ho. destruct (Z.eqb_spec (segment f) 0) as [E0|]; [|done]. destruct (Z.eqb_spec (bus f) 0) as [E1|]; [|done].
    rewrite Es, E0, E1 in E. vm_compute in E. discriminate E.
Qed.

Lemma rom_load s n f off : rom_state s -> fn_ok f -> (cfg_load (tbl 0x1000) n f off s).1 = s.
Proof.
  intros Hs Hf. unfold cfg_load. destruct (rom_addr s f off Hs Hf) as (r & -> & _). destruct (r =? 0); [done|]. cbn [io_rd rom_machine]. by destruct s.
Qed.

(** What a function answers at the start of its page. *)
Lemma rom_value s n f off v0 : rom_state s -> fn_ok f -> 0 <= off < 4096 ->
  foldr (fun i v => fn0_byte (off + i) + 256 * v) 0 (seqZ 0 (Z.of_nat n)) = v0 ->
  (cfg_load (tbl 0x1000) n f off s).2 = if (segment f =? 0) && (bus f =? 0) && (device f =? 0) && (function f =? 0) then v0 else 256 ^ Z.of_nat n - 1.
Proof.
  intros Hs Hf Ho Hv. unfold cfg_load. destruct (rom_addr s f off Hs Hf) as (r & -> & Hr). rewrite Hr by done. destruct Hf as [Hd Hfn].
  destruct (Z.eqb_spec (segment f) 0), (Z.eqb_spec (bus f) 0); cbn [andb]; try done.
  destruct (Z.ltb_spec (device f) 32), (Z.ltb_spec (function f) 8); cbn [andb].
  2-4: destruct (Z.eqb_spec (device f) 0), (Z.eqb_spec (function f) 0); cbn [andb]; done || lia.
  set (a := fn0_at + (device f * 8 + function f) * 4096 + off). assert (Ha : 0 < a) by (unfold a, fn0_at, HHDM_BASE; lia). destruct (Z.eqb_spec a 0); [lia|]. cbn [io_rd rom_machine].
  destruct (Z.leb_spec fn0_at a); [|unfold a in *; lia]. cbn [andb].
  destruct (Z.eqb_spec (device f) 0) as [E0|Hne], (Z.eqb_spec (function f) 0) as [E1|Hne1]; cbn [andb]; destruct (Z.ltb_spec a (fn0_at + 4096)); try (unfold a in *; lia); try done.
  assert (Ea : a - fn0_at = off) by (unfold a; lia). by rewrite Ea.
Qed.

Lemma rom_answers : answers (tbl 0x1000) rom_state fn0_vendor fn0_header.
Proof.
  constructor.
  - intros s f Hf Hs. unfold pcie_read16. rewrite has1 by done. by apply (rom_value s 2 f 0 0x1234).
  - intros s f Hf Hs. unfold pcie_read8. by apply (rom_value s 1 f 0xE 0).
  - intros s n f off Hf Hs. by rewrite rom_load.
  - intros s n f off v Hf Hs. unfold cfg_store. destruct (rom_addr s f off Hs Hf) as (r & -> & _). destruct (r =? 0); [done|]. exact Hs.
  - intros s ds cap Hs. exact Hs.
Qed.

Lemma pcie_scan_all_correct_witness : bdf <$> g_devices (pcie_scan_all (tbl 0x1000) (fun _ => true) [] rom0).1 = [fn0].
Proof.
  destruct (pcie_scan_all_correct (tbl 0x1000) (fun _ => true) rom_state fn0_vendor fn0_header rom_answers (fun _ => eq_refl) [] rom0 (conj eq_refl eq_refl)) as (_ & E & _).
  rewrite E. vm_compute. reflexivity.
Defined.
