(* ===== verification/Nvme.v ===== *)
(** * NVMe driver

    krdrivers/nvme/nvme.c: controller set-up, admin and I/O queues, the
    interrupt handler, and reading blocks with physical region pages (PRPs).
    Submission and completion queues lie in frames that the controller
    reads and writes; controller registers are accessed through the
    machine. *)

From Stdlib Require Import ZArith Lia Bool.
From stdpp Require Import base list gmap.
From S2P Require Import Prelude Mem Str Frames PageTable Machine Pcie.

Definition NVME_CC_EN : Z := 1.
Definition NVME_CC_IOSQES_64 : Z := Z.shiftl 6 16.
Definition NVME_CC_IOCQES_16 : Z := Z.shiftl 4 20.
Definition NVME_CSTS_RDY : Z := 1.
Definition NVME_CSTS_CFS : Z := 2.
Definition NVME_ADMIN_QUEUE_ENTRIES : Z := 64.
Definition NVME_IO_QUEUE_ENTRIES : Z := 64.
Definition NVME_ADMIN_OP_IDENTIFY : Z := 0x06.
Definition NVME_ADMIN_OP_CREATE_IOSQ : Z := 0x01.
Definition NVME_ADMIN_OP_CREATE_IOCQ : Z := 0x05.
Definition NVME_NVM_OP_READ : Z := 0x02.
Definition NVME_IRQ_VECTOR : Z := 0x30.
Definition PCI_CLASS_STORAGE : Z := 0x01.
Definition PCI_SUBCLASS_NVM : Z := 0x08.
Definition PCI_PROGIF_NVME : Z := 0x02.

(** Registers. *)
Definition reg_cap (r : Z) : Z := r.
Definition reg_vs (r : Z) : Z := r + 8.
Definition reg_cc (r : Z) : Z := r + 0x14.
Definition reg_csts (r : Z) : Z := r + 0x1C.
Definition reg_aqa (r : Z) : Z := r + 0x24.
Definition reg_asq (r : Z) : Z := r + 0x28.
Definition reg_acq (r : Z) : Z := r + 0x30.

(** ** Data *)
Record NvmeSqe := mkSqe { cdw0 : Z; sqe_nsid : Z; dptr0 : Z; dptr1 : Z; cdw10 : Z; cdw11 : Z; cdw12 : Z }.
Definition sqe0 : NvmeSqe := mkSqe 0 0 0 0 0 0 0.
Definition set_cdw0 (e : NvmeSqe) (v : Z) : NvmeSqe := mkSqe v (sqe_nsid e) (dptr0 e) (dptr1 e) (cdw10 e) (cdw11 e) (cdw12 e).

(** [q->sq[i] = *cmd]: 64 bytes. *)
Definition write_sqe (m : mem) (a : Z) (e : NvmeSqe) : mem :=
  let m := wr32 (wr32 m a (cdw0 e)) (a + 4) (sqe_nsid e) in
  let m := wr64 (wr64 m (a + 8) 0) (a + 16) 0 in
  let m := wr64 (wr64 m (a + 24) (dptr0 e)) (a + 32) (dptr1 e) in
  let m := wr32 (wr32 (wr32 m (a + 40) (cdw10 e)) (a + 44) (cdw11 e)) (a + 48) (cdw12 e) in
  wr32 (wr32 (wr32 m (a + 52) 0) (a + 56) 0) (a + 60) 0.

Record NvmeCqe := mkCqe { cqe_cdw0 : Z; sq_head : Z; sq_id : Z; command_id : Z; status : Z }.
Definition read_cqe (m : mem) (a : Z) : NvmeCqe :=
  mkCqe (rd32 m a) (rd16 m (a + 8)) (rd16 m (a + 10)) (rd16 m (a + 12)) (rd16 m (a + 14)).

Record NvmeCommandContext := mkCtx { done : Z; ctx_status : Z; ctx_cqe : NvmeCqe }.
Definition ctx0 : NvmeCommandContext := mkCtx 0 0 (mkCqe 0 0 0 0 0).

Record NvmeQueue := mkQueue {
  sq : Z; sq_phys : Z; cq : Z; cq_phys : Z; sq_doorbell : Z; cq_doorbell : Z;
  q_size : Z; sq_tail : Z; cq_head : Z; cq_phase : Z; contexts : option (list NvmeCommandContext)
}.
Definition queue0 : NvmeQueue := mkQueue 0 0 0 0 0 0 0 0 0 0 None.
Definition set_tail (q : NvmeQueue) (t : Z) : NvmeQueue :=
  mkQueue (sq q) (sq_phys q) (cq q) (cq_phys q) (sq_doorbell q) (cq_doorbell q) (q_size q) t (cq_head q) (cq_phase q) (contexts q).
Definition set_head (q : NvmeQueue) (h p : Z) : NvmeQueue :=
  mkQueue (sq q) (sq_phys q) (cq q) (cq_phys q) (sq_doorbell q) (cq_doorbell q) (q_size q) (sq_tail q) h p (contexts q).
Definition set_contexts (q : NvmeQueue) (c : option (list NvmeCommandContext)) : NvmeQueue :=
  mkQueue (sq q) (sq_phys q) (cq q) (cq_phys q) (sq_doorbell q) (cq_doorbell q) (q_size q) (sq_tail q) (cq_head q) (cq_phase q) c.
Definition set_context (q : NvmeQueue) (cid : Z) (c : NvmeCommandContext) : NvmeQueue :=
  set_contexts q (fmap (fun l => <[Z.to_nat cid := c]> l) (contexts q)).
Definition get_context (q : NvmeQueue) (cid : Z) : NvmeCommandContext := nth (Z.to_nat cid) (default [] (contexts q)) ctx0.

Record NvmeNamespace := mkNs { ns_nsid : Z; block_count : Z; block_size : Z }.

Record NvmeController := mkCtrl {
  pci_dev : PciDevice; regs : Z; bar_phys : Z; ct_bar_size : Z; cap : Z; vs : Z; dstrd : Z; max_queue_entries : Z;
  admin_queue : NvmeQueue; io_queue : NvmeQueue; timeout_ms : Z; max_transfer_bytes : Z;
  namespaces : list NvmeNamespace; use_msix : Z
}.
Definition set_admin (c : NvmeController) (q : NvmeQueue) : NvmeController :=
  mkCtrl (pci_dev c) (regs c) (bar_phys c) (ct_bar_size c) (cap c) (vs c) (dstrd c) (max_queue_entries c) q (io_queue c) (timeout_ms c) (max_transfer_bytes c) (namespaces c) (use_msix c).
Definition set_io (c : NvmeController) (q : NvmeQueue) : NvmeController :=
  mkCtrl (pci_dev c) (regs c) (bar_phys c) (ct_bar_size c) (cap c) (vs c) (dstrd c) (max_queue_entries c) (admin_queue c) q (timeout_ms c) (max_transfer_bytes c) (namespaces c) (use_msix c).
Definition set_mdts (c : NvmeController) (n : Z) : NvmeController :=
  mkCtrl (pci_dev c) (regs c) (bar_phys c) (ct_bar_size c) (cap c) (vs c) (dstrd c) (max_queue_entries c) (admin_queue c) (io_queue c) (timeout_ms c) n (namespaces c) (use_msix c).
Definition set_namespaces (c : NvmeController) (l : list NvmeNamespace) : NvmeController :=
  mkCtrl (pci_dev c) (regs c) (bar_phys c) (ct_bar_size c) (cap c) (vs c) (dstrd c) (max_queue_entries c) (admin_queue c) (io_queue c) (timeout_ms c) (max_transfer_bytes c) l (use_msix c).

Section Ops.
Context {W : Type} `{Machine W} {S : Type} `{FrameAllocator S}.
Implicit Types (w : W) (fa : S).

(** ** Waiting *)

(** Waiting until the status register has the value under the mask; [None]
    without fuel. *)
Fixpoint wait_csts (fuel : nat) w (ctrl : NvmeController) (mask expected start : Z) : option (W * Z) :=
  match fuel with
  | O => None
  | Datatypes.S k =>
      let '(w1, csts) := io_rd (elapse w) 4 (reg_csts (regs ctrl)) in
      if Z.land csts mask =? expected then Some (w1, 0)
      else
        let '(w2, csts2) := io_rd w1 4 (reg_csts (regs ctrl)) in
        if has csts2 NVME_CSTS_CFS then Some (w2, -1)
        else
          let '(w3, now) := hpet_get_millis w2 in
          if timeout_ms ctrl <=? u64 (now - start) then Some (w3, -1) else wait_csts k w3 ctrl mask expected start
  end.

Definition nvme_wait_csts (fuel : nat) w (ctrl : NvmeController) (mask expected : Z) : option (W * Z) :=
  let '(w1, start) := hpet_get_millis w in wait_csts fuel w1 ctrl mask expected start.

Definition nvme_reset_controller (fuel : nat) w (ctrl : NvmeController) : option (W * Z) :=
  let '(w1, cc) := io_rd w 4 (reg_cc (regs ctrl)) in
  let w2 := if has cc NVME_CC_EN then
      let '(w2, cc2) := io_rd w1 4 (reg_cc (regs ctrl)) in io_wr w2 4 (reg_cc (regs ctrl)) (u32 (Z.land cc2 (Z.lnot NVME_CC_EN)))
    else w1 in
  nvme_wait_csts fuel w2 ctrl NVME_CSTS_RDY 0.

Definition nvme_enable_controller (fuel : nat) w (ctrl : NvmeController) : option (W * Z) :=
  let w1 := io_wr w 4 (reg_cc (regs ctrl)) (Z.lor (Z.lor NVME_CC_EN NVME_CC_IOSQES_64) NVME_CC_IOCQES_16) in
  nvme_wait_csts fuel w1 ctrl NVME_CSTS_RDY NVME_CSTS_RDY.

(** ** Queues *)

(** Waiting for the completion entry at the head to carry the phase. *)
Fixpoint wait_phase (fuel : nat) w (ctrl : NvmeController) (q : NvmeQueue) (start : Z) : option (W * bool) :=
  match fuel with
  | O => None
  | Datatypes.S k =>
      let '(w1, st) := shared_rd w 2 (cq q + 16 * cq_head q + 14) in
      if Z.land st 1 =? cq_phase q then Some (w1, true)
      else
        let '(w2, csts) := io_rd w1 4 (reg_csts (regs ctrl)) in
        if has csts NVME_CSTS_CFS then Some (w2, false)
        else
          let '(w3, now) := hpet_get_millis w2 in
          if timeout_ms ctrl <=? u64 (now - start) then Some (w3, false) else wait_phase k w3 ctrl q start
  end.

(** Past the entry at the head: the phase changes when the queue wraps. *)
Definition next_head (q : NvmeQueue) : NvmeQueue :=
  let h := (cq_head q + 1) mod q_size q in
  set_head q h (if h =? 0 then Z.lxor (cq_phase q) 1 else cq_phase q).

(** The entry into the submission queue and the doorbell. *)
Definition push_sqe w (q : NvmeQueue) (cmd : NvmeSqe) : W * NvmeQueue :=
  let cid := sq_tail q in
  let cmd := set_cdw0 cmd (Z.lor (Z.land (cdw0 cmd) 0xFFFF) (Z.shiftl cid 16)) in
  let w1 := upd w (fun m => write_sqe m (sq q + 64 * sq_tail q) cmd) in
  let q1 := set_tail q ((sq_tail q + 1) mod q_size q) in
  (io_wr w1 4 (sq_doorbell q1) (sq_tail q1), q1).

(** Polling for the completion: result and queue. *)
Definition poll_completion (fuel : nat) w (ctrl : NvmeController) (q : NvmeQueue) (start : Z) : option (W * NvmeQueue * Z) :=
  match wait_phase fuel w ctrl q start with
  | None => None
  | Some (w1, false) => Some (w1, q, -1)
  | Some (w1, true) =>
      let st := Z.shiftr (rd16 (mm w1) (cq q + 16 * cq_head q + 14)) 1 in
      let q1 := next_head q in
      let w2 := io_wr w1 4 (cq_doorbell q1) (cq_head q1) in
      Some (w2, q1, if negb (st =? 0) then -1 else 0)
  end.

(** [cqe_out] is NULL in every call. *)
Definition nvme_submit_admin_cmd (fuel : nat) w (ctrl : NvmeController) (cmd : NvmeSqe) : option (W * NvmeController * Z) :=
  let '(w1, q1) := push_sqe w (admin_queue ctrl) cmd in
  let '(w2, start) := hpet_get_millis w1 in
  match poll_completion fuel w2 ctrl q1 start with
  | None => None
  | Some (w3, q2, r) => Some (w3, set_admin ctrl q2, r)
  end.

(** ** The interrupt handler *)

(** The completions of one queue: the memory is that of the moment of the
    interrupt. *)
Fixpoint drain (fuel : nat) (m : mem) (q : NvmeQueue) (processed : Z) : option (NvmeQueue * Z) :=
  match fuel with
  | O => None
  | Datatypes.S k =>
      let a := cq q + 16 * cq_head q in
      if Z.land (rd16 m (a + 14)) 1 =? cq_phase q then
        let cqe := read_cqe m a in
        let cid := command_id cqe in
        let q1 := if cid <? q_size q then set_context q cid (mkCtx 1 (Z.shiftr (status cqe) 1) cqe) else q in
        drain k m (next_head q1) (u16 (processed + 1))
      else Some (q, processed)
  end.

(** The handler on one controller, then on all. *)
Definition irq_controller (fuel : nat) w (ctrl : NvmeController) : option (W * NvmeController) :=
  let q := io_queue ctrl in
  if use_msix ctrl =? 0 then Some (w, ctrl)
  else if (cq q =? 0) || match contexts q with None => true | Some _ => false end then Some (w, ctrl)
  else match drain fuel (mm w) q 0 with
       | None => None
       | Some (q1, processed) => Some (if 0 <? processed then io_wr w 4 (cq_doorbell q1) (cq_head q1) else w, set_io ctrl q1)
       end.

Fixpoint nvme_irq_handler (fuel : nat) w (l : list NvmeController) : option (W * list NvmeController) :=
  match l with
  | [] => Some (w, [])
  | c :: r =>
      '(w1, c1) ← irq_controller fuel w c;
      '(w2, r1) ← nvme_irq_handler fuel w1 r;
      Some (w2, c1 :: r1)
  end.

(** ** I/O commands *)

(** Whether the controller's interrupt is delivered at this moment. *)
Context (irq : W -> bool).

(** Waiting for the interrupt handler to mark the context. *)
Fixpoint wait_done (fuel : nat) w (ctrl : NvmeController) (cid start : Z) : option (W * NvmeController * bool) :=
  match fuel with
  | O => None
  | Datatypes.S k =>
      let w0 := elapse w in
      match (if irq w0 then irq_controller (Z.to_nat (q_size (io_queue ctrl)) + 1) w0 ctrl else Some (w0, ctrl)) with
      | None => None
      | Some (w1, ctrl1) =>
          if negb (done (get_context (io_queue ctrl1) cid) =? 0) then Some (w1, ctrl1, true)
          else
            let '(w2, csts) := io_rd w1 4 (reg_csts (regs ctrl1)) in
            if has csts NVME_CSTS_CFS then Some (w2, ctrl1, false)
            else
              let '(w3, now) := hpet_get_millis w2 in
              if timeout_ms ctrl <=? u64 (now - start) then Some (w3, ctrl1, false) else wait_done k w3 ctrl1 cid start
      end
  end.

Definition nvme_submit_io_cmd (fuel : nat) w (ctrl : NvmeController) (cmd : NvmeSqe) : option (W * NvmeController * Z) :=
  let q := io_queue ctrl in
  let cid := sq_tail q in
  let q0 := match contexts q with
            | None => q
            | Some _ => set_context q cid (mkCtx 0 0 (ctx_cqe (get_context q cid)))
            end in
  let '(w1, q1) := push_sqe w q0 cmd in
  let '(w2, start) := hpet_get_millis w1 in
  if negb (use_msix ctrl =? 0) && match contexts q1 with None => false | Some _ => true end then
    match wait_done fuel w2 (set_io ctrl q1) cid start with
    | None => None
    | Some (w3, c3, false) => Some (w3, c3, -1)
    | Some (w3, c3, true) => Some (w3, c3, if negb (ctx_status (get_context (io_queue c3) cid) =? 0) then -1 else 0)
    end
  else
    match poll_completion fuel w2 ctrl q1 start with
    | None => None
    | Some (w3, q2, r) => Some (w3, set_io ctrl q2, r)
    end.

(** ** Set-up *)

(** Two frames, or none; the frames that were had are returned. *)
Definition two_frames fa : S * option (Z * Z) :=
  let '(fa1, f1) := fa_alloc fa in
  let '(fa2, f2) := fa_alloc fa1 in
  if (f1 =? 0) || (f2 =? 0) then
    let fa3 := if negb (f1 =? 0) then fa_free fa2 f1 else fa2 in
    (if negb (f2 =? 0) then fa_free fa3 f2 else fa3, None)
  else (fa2, Some (f1, f2)).

Definition queue_entries (wanted : Z) (ctrl : NvmeController) : Z :=
  if max_queue_entries ctrl <? wanted then u16 (max_queue_entries ctrl) else wanted.

Definition doorbell (ctrl : NvmeController) (i : Z) : Z := u64 (regs ctrl + 0x1000 + u32 (i * u32 (Z.shiftl 4 (dstrd ctrl)))).

Definition clear_page w (f : Z) : W := upd w (fun m => (memset m (u64 (f + HHDM_BASE)) 0 PAGE_SIZE).1).

Definition new_queue (ctrl : NvmeController) (qid f1 f2 entries : Z) (ctxs : option (list NvmeCommandContext)) : NvmeQueue :=
  mkQueue (u64 (f1 + HHDM_BASE)) f1 (u64 (f2 + HHDM_BASE)) f2 (doorbell ctrl (2 * qid)) (doorbell ctrl (2 * qid + 1)) entries 0 0 1 ctxs.

Definition nvme_setup_admin_queue w fa (ctrl : NvmeController) : W * S * NvmeController * Z :=
  let q_entries := queue_entries NVME_ADMIN_QUEUE_ENTRIES ctrl in
  match two_frames fa with
  | (fa1, None) => (w, fa1, ctrl, -1)
  | (fa1, Some (f1, f2)) =>
      let w1 := clear_page (clear_page w f1) f2 in
      let q := new_queue ctrl 0 f1 f2 q_entries (contexts (admin_queue ctrl)) in
      let w2 := io_wr w1 4 (reg_aqa (regs ctrl)) (Z.lor (u32 (Z.shiftl (u32 (q_entries - 1)) 16)) (u32 (q_entries - 1))) in
      let w3 := io_wr w2 8 (reg_asq (regs ctrl)) (sq_phys q) in
      let w4 := io_wr w3 8 (reg_acq (regs ctrl)) (cq_phys q) in
      (w4, fa1, set_admin ctrl q, 0)
  end.

(** [kmalloc_ok]: whether an allocation of that size succeeds. *)
Context (kmalloc_ok : Z -> bool).

Definition identify_cmd (nsid buf_phys cns : Z) : NvmeSqe := mkSqe NVME_ADMIN_OP_IDENTIFY nsid buf_phys 0 cns 0 0.

Definition nvme_probe_namespace (fuel : nat) w (ctrl : NvmeController) (nsid buf buf_phys : Z) : option (W * NvmeController) :=
  let w1 := upd w (fun m => (memset m buf 0 PAGE_SIZE).1) in
  match nvme_submit_admin_cmd fuel w1 ctrl (identify_cmd nsid buf_phys 0) with
  | None => None
  | Some (w2, c2, r) =>
      if negb (r =? 0) then Some (w2, c2)
      else
        let nsze := rd64 (mm w2) buf in
        if nsze =? 0 then Some (w2, c2)
        else
          let flbas_idx := Z.land (rd8 (mm w2) (buf + 26)) 0xF in
          let lba_ds := rd8 (mm w2) (buf + 128 + 4 * flbas_idx + 2) in
          if lba_ds =? 0 then Some (w2, c2)
          else if negb (kmalloc_ok 32) then Some (w2, c2)
          else Some (w2, set_namespaces c2 (mkNs nsid nsze (u32 (Z.shiftl 1 lba_ds)) :: namespaces c2))
  end.

(** One page of the list of active namespaces: the entries from [i] on.  The
    result says whether the search is over, and the last id. *)
Fixpoint probe_list (n : nat) (fuel : nat) w fa (ctrl : NvmeController) (buf nn i last : Z) : option (W * S * NvmeController * bool * Z) :=
  match n with
  | O => Some (w, fa, ctrl, false, last)
  | Datatypes.S k =>
      let nsid := rd32 (mm w) (buf + 4 * i) in
      if nsid =? 0 then Some (w, fa, ctrl, true, last)
      else
        let '(fa1, frame) := fa_alloc fa in
        match (if negb (frame =? 0) then
                 match nvme_probe_namespace fuel w ctrl nsid (u64 (frame + HHDM_BASE)) frame with
                 | None => None
                 | Some (w1, c1) => Some (w1, fa_free fa1 frame, c1)
                 end
               else Some (w, fa1, ctrl)) with
        | None => None
        | Some (w1, fa2, c1) => if nn <=? nsid then Some (w1, fa2, c1, true, nsid) else probe_list k fuel w1 fa2 c1 buf nn (i + 1) nsid
        end
  end.

Fixpoint scan_active (rounds fuel : nat) w fa (ctrl : NvmeController) (buf buf_phys nn last : Z) : option (W * S * NvmeController) :=
  match rounds with
  | O => None
  | Datatypes.S k =>
      let w1 := upd w (fun m => (memset m buf 0 PAGE_SIZE).1) in
      match nvme_submit_admin_cmd fuel w1 ctrl (identify_cmd last buf_phys 2) with
      | None => None
      | Some (w2, c2, r) =>
          if negb (r =? 0) then Some (w2, fa, c2)
          else if rd32 (mm w2) buf =? 0 then Some (w2, fa, c2)
          else match probe_list 1024 fuel w2 fa c2 buf nn 0 last with
               | None => None
               | Some (w3, fa3, c3, fin, last3) => if fin then Some (w3, fa3, c3) else scan_active k fuel w3 fa3 c3 buf buf_phys nn last3
               end
      end
  end.

Fixpoint probe_all (l : list Z) (fuel : nat) w (ctrl : NvmeController) (buf buf_phys : Z) : option (W * NvmeController) :=
  match l with
  | [] => Some (w, ctrl)
  | nsid :: r => '(w1, c1) ← nvme_probe_namespace fuel w ctrl nsid buf buf_phys; probe_all r fuel w1 c1 buf buf_phys
  end.

Definition nvme_identify (rounds fuel : nat) w fa (ctrl : NvmeController) : option (W * S * NvmeController * Z) :=
  let '(fa1, frame) := fa_alloc fa in
  if frame =? 0 then Some (w, fa1, ctrl, -1)
  else
    let buf := u64 (frame + HHDM_BASE) in
    let w1 := upd w (fun m => (memset m buf 0 PAGE_SIZE).1) in
    match nvme_submit_admin_cmd fuel w1 ctrl (identify_cmd 0 frame 1) with
    | None => None
    | Some (w2, c2, r) =>
        if negb (r =? 0) then Some (w2, fa_free fa1 frame, c2, -1)
        else
          let nn := rd32 (mm w2) (buf + 516) in
          let mdts := rd8 (mm w2) (buf + 77) in
          let c3 := set_namespaces (set_mdts c2 (if 0 <? mdts then u32 (Z.shiftl PAGE_SIZE mdts) else 0)) [] in
          match (if 0x00010100 <=? vs c3 then scan_active rounds fuel w2 fa1 c3 buf frame nn 0 else Some (w2, fa1, c3)) with
          | None => None
          | Some (w4, fa4, c4) =>
              match (if (length (namespaces c4) =? 0)%nat && (0 <? nn) then probe_all (seqZ 1 nn) fuel w4 c4 buf frame else Some (w4, c4)) with
              | None => None
              | Some (w5, c5) => Some (w5, fa_free fa4 frame, c5, 0)
              end
          end
    end.

Definition nvme_setup_io_queue (fuel : nat) w fa (ctrl : NvmeController) (qid : Z) : option (W * S * NvmeController * Z) :=
  let q_entries := queue_entries NVME_IO_QUEUE_ENTRIES ctrl in
  match two_frames fa with
  | (fa1, None) => Some (w, fa1, ctrl, -1)
  | (fa1, Some (f1, f2)) =>
      let w1 := clear_page (clear_page w f1) f2 in
      if negb (kmalloc_ok (q_entries * 20)) then
        Some (w1, fa_free (fa_free fa1 f1) f2, set_io ctrl (mkQueue (u64 (f1 + HHDM_BASE)) f1 (u64 (f2 + HHDM_BASE)) f2
          (sq_doorbell (io_queue ctrl)) (cq_doorbell (io_queue ctrl)) (q_size (io_queue ctrl)) (sq_tail (io_queue ctrl)) (cq_head (io_queue ctrl)) (cq_phase (io_queue ctrl)) None), -1)
      else
        let c1 := set_io ctrl (new_queue ctrl qid f1 f2 q_entries (Some (repeat ctx0 (Z.to_nat q_entries)))) in
        let ids := Z.lor (u32 (Z.shiftl (u32 (q_entries - 1)) 16)) qid in
        let cq_cdw11 := if negb (use_msix ctrl =? 0) then 3 else 1 in
        let failed w c := Some (w, fa_free (fa_free fa1 f1) f2, c, -1) in
        match nvme_submit_admin_cmd fuel w1 c1 (mkSqe NVME_ADMIN_OP_CREATE_IOCQ 0 f2 0 ids cq_cdw11 0) with
        | None => None
        | Some (w2, c2, r) =>
            if negb (r =? 0) then failed w2 c2
            else match nvme_submit_admin_cmd fuel w2 c2 (mkSqe NVME_ADMIN_OP_CREATE_IOSQ 0 f1 0 ids (Z.lor 1 (u32 (Z.shiftl qid 16))) 0) with
                 | None => None
                 | Some (w3, c3, r) => if negb (r =? 0) then failed w3 c3 else Some (w3, fa1, c3, 0)
                 end
        end
  end.

(** ** Reading *)

(** The kernel's page directory. *)
Context (pml4 : Z).

Definition free_all fa (l : list Z) : S := foldl fa_free fa l.

(** [n] more frames after those in [got]; when there are no more, those that
    were had are returned in order. *)
Fixpoint alloc_frames (n : nat) fa (got : list Z) : S * option (list Z) :=
  match n with
  | O => (fa, Some got)
  | Datatypes.S k =>
      let '(fa1, f) := fa_alloc fa in
      if f =? 0 then (free_all fa1 got, None) else alloc_frames k fa1 (got ++ [f])
  end.

(** The number of pages a PRP list takes for this many entries. *)
Definition prp_pages_for (pages_needed : Z) : Z := if 512 <? pages_needed then 1 + (pages_needed - 512 + 510) / 511 else 1.

(** The loop that writes the list, at entry [cur_entry] of the list page
    [cur_page]; false when a page of the buffer is not mapped. *)
Fixpoint fill_prps (fuel : nat) (m : mem) (frames : list Z) (cur_page cur_entry next_page_virt bytes_left : Z) : option (mem * bool) :=
  if bytes_left <=? 0 then Some (m, true)
  else
    match fuel with
    | O => None
    | Datatypes.S k =>
        let num := Z.of_nat (length frames) in
        let frame j := u64 (nth (Z.to_nat j) frames 0 + HHDM_BASE) in
        let '(m1, page, entry) :=
          if (cur_entry =? 511) && (cur_page + 1 <? num) then
            let m1 := wr64 m (frame cur_page + 8 * 511) (nth (Z.to_nat (cur_page + 1)) frames 0) in
            ((memset m1 (frame (cur_page + 1)) 0 PAGE_SIZE).1, cur_page + 1, 0)
          else (m, cur_page, cur_entry) in
        let phys := vmmVirtToPhys m1 pml4 next_page_virt in
        if phys =? 0 then Some (m1, false)
        else
          let m2 := wr64 m1 (frame page + 8 * entry) phys in
          let step := if PAGE_SIZE <? bytes_left then PAGE_SIZE else bytes_left in
          fill_prps k m2 frames page (entry + 1) (u64 (next_page_virt + step)) (bytes_left - step)
    end.

(** The second data pointer of a command for [chunk_bytes] at [virt], the
    frames it uses and the memory; [None]: no such mapping or no memory, with
    what was allocated released. *)
Definition build_prps w fa (virt chunk_bytes : Z) : option (W * S * option (Z * list Z)) :=
  let first_page_bytes := PAGE_SIZE - Z.land virt (PAGE_SIZE - 1) in
  if chunk_bytes <=? first_page_bytes then Some (w, fa, Some (0, []))
  else
    let next_page_virt := u64 (virt + first_page_bytes) in
    let bytes_left := chunk_bytes - first_page_bytes in
    if bytes_left <=? PAGE_SIZE then
      let prp2 := vmmVirtToPhys (mm w) pml4 next_page_virt in
      Some (w, fa, if prp2 =? 0 then None else Some (prp2, []))
    else
      let pages_needed := (bytes_left + PAGE_SIZE - 1) / PAGE_SIZE in
      match alloc_frames (Z.to_nat (prp_pages_for pages_needed)) fa [] with
      | (fa1, None) => Some (w, fa1, None)
      | (fa1, Some frames) =>
          let w1 := upd w (fun m => (memset m (u64 (nth 0 frames 0 + HHDM_BASE)) 0 PAGE_SIZE).1) in
          match fill_prps (Z.to_nat pages_needed) (mm w1) frames 0 0 next_page_virt bytes_left with
          | None => None
          | Some (m2, ok) =>
              let w2 := set_mm w1 m2 in
              Some (w2, if ok then fa1 else free_all fa1 frames, if ok then Some (nth 0 frames 0, frames) else None)
          end
      end.

Definition read_cmd (nsid lba chunk_blocks prp1 prp2 : Z) : NvmeSqe :=
  mkSqe NVME_NVM_OP_READ nsid prp1 prp2 (Z.land lba 0xFFFFFFFF) (u32 (Z.shiftr lba 32)) (chunk_blocks - 1).

(** One command. *)
Definition read_chunk (fuel : nat) w fa (ctrl : NvmeController) (nsid lba chunk_blocks chunk_bytes virt : Z) : option (W * S * NvmeController * Z) :=
  let prp1 := vmmVirtToPhys (mm w) pml4 virt in
  if prp1 =? 0 then Some (w, fa, ctrl, -1)
  else match build_prps w fa virt chunk_bytes with
       | None => None
       | Some (w1, fa1, None) => Some (w1, fa1, ctrl, -1)
       | Some (w1, fa1, Some (prp2, frames)) =>
           match nvme_submit_io_cmd fuel w1 ctrl (read_cmd nsid lba chunk_blocks prp1 prp2) with
           | None => None
           | Some (w2, c2, r) => Some (w2, free_all fa1 frames, c2, if negb (r =? 0) then -1 else 0)
           end
       end.

Fixpoint read_chunks (rounds fuel : nat) w fa (ctrl : NvmeController) (ns : NvmeNamespace) (max_chunk_blocks lba remaining virt : Z) : option (W * S * NvmeController * Z) :=
  if remaining =? 0 then Some (w, fa, ctrl, 0)
  else
    match rounds with
    | O => None
    | Datatypes.S k =>
        let chunk_blocks := if max_chunk_blocks <? remaining then max_chunk_blocks else remaining in
        let chunk_bytes := u32 (chunk_blocks * block_size ns) in
        match read_chunk fuel w fa ctrl (ns_nsid ns) lba chunk_blocks chunk_bytes virt with
        | None => None
        | Some (w1, fa1, c1, r) =>
            if negb (r =? 0) then Some (w1, fa1, c1, -1)
            else read_chunks k fuel w1 fa1 c1 ns max_chunk_blocks (u64 (lba + chunk_blocks)) (remaining - chunk_blocks) (u64 (virt + chunk_bytes))
        end
    end.

Definition chunk_limit (ctrl : NvmeController) (ns : NvmeNamespace) : Z :=
  let mdts_blocks := max_transfer_bytes ctrl / block_size ns in
  if (0 <? max_transfer_bytes ctrl) && (0 <? mdts_blocks) && (mdts_blocks <? 0x10000) then mdts_blocks else 0x10000.

Definition find_ns (l : list NvmeNamespace) (nsid : Z) : option NvmeNamespace := List.find (fun ns => ns_nsid ns =? nsid) l.

Definition nvme_read (fuel : nat) w fa (ctrl : NvmeController) (nsid lba count buf : Z) : option (W * S * NvmeController * Z) :=
  if (buf =? 0) || (count =? 0) then Some (w, fa, ctrl, -1)
  else match find_ns (namespaces ctrl) nsid with
       | None => Some (w, fa, ctrl, -1)
       | Some ns => if block_size ns =? 0 then Some (w, fa, ctrl, -1)
                    else read_chunks (Z.to_nat count) fuel w fa ctrl ns (chunk_limit ctrl ns) lba count buf
       end.

(** ** Bringing up a controller *)

(** The driver's state: that of the bus, the controllers in list order, and
    the interrupt vectors whose handler is [nvme_irq_handler]. *)
Record Nv := mkNv { nv_pci : Pci W S; g_controllers : list NvmeController; irq_vectors : list Z }.

(** Interrupts, where the device can have them of its own; the result is
    [use_msix]. *)
Definition setup_msix (fuel : nat) (dev : PciDevice) (lapic_id : Z) : Pc W S (option Z) :=
  found ← pcie_find_capability pml4 fuel (bdf dev) PCI_CAP_ID_MSIX;
  match found with
  | None => mret None
  | Some c =>
      if c =? 0 then mret (Some 0)
      else
        on ← pcie_enable_msix pml4 fuel (bdf dev);
        match on with
        | None => mret None
        | Some r =>
            if negb (r =? 0) then mret (Some 0)
            else
              vec ← pcie_enable_msix_vector pml4 fuel dev 0 NVME_IRQ_VECTOR lapic_id;
              mret ((fun r => if r =? 0 then 1 else 0) <$> vec)
        end
  end.

(** The window of the registers, at least two pages. *)
Definition map_bar (bar : PciBar) : Pc W S bool := fun s =>
  let size := if bar_size bar <? 2 * PAGE_SIZE then 2 * PAGE_SIZE else bar_size bar in
  let '(vm, rc) := vmmMapRange (mkVm (mm (pc_w s)) (pc_fa s)) pml4 (u64 (phys_addr bar + HHDM_BASE)) (phys_addr bar) size
    (Z.lor (Z.lor VMM_FLAG_PRESENT VMM_FLAG_WRITABLE) VMM_FLAG_NO_CACHE) in
  (mkPci (set_mm (pc_w s) (vm_mem vm)) (vm_fa vm) (g_segments s) (g_devices s) (g_device_capacity s), rc =? 0).

(** The controller's record, from its registers. *)
Definition read_caps (dev : PciDevice) (bar : PciBar) : Pc W S NvmeController :=
  let r := u64 (phys_addr bar + HHDM_BASE) in
  cap ← io_load 8 (reg_cap r);
  vs ← io_load 4 (reg_vs r);
  let cap_to := Z.land (Z.shiftr cap 24) 0xFF in
  mret (mkCtrl dev r (phys_addr bar) (if bar_size bar <? 2 * PAGE_SIZE then 2 * PAGE_SIZE else bar_size bar) cap vs
    (Z.land (Z.shiftr cap 32) 0xF) (Z.land cap 0xFFFF + 1) queue0 queue0 (if cap_to =? 0 then 1000 else cap_to * 500) 0 [] 0).

Definition set_msix (c : NvmeController) (v : Z) : NvmeController :=
  mkCtrl (pci_dev c) (regs c) (bar_phys c) (ct_bar_size c) (cap c) (vs c) (dstrd c) (max_queue_entries c) (admin_queue c) (io_queue c) (timeout_ms c) (max_transfer_bytes c) (namespaces c) v.

Definition sizeof_NvmeController : Z := 216.

Definition with_fa (s : Pci W S) (w : W) (fa : S) : Pci W S := mkPci w fa (g_segments s) (g_devices s) (g_device_capacity s).

(** From the reset on: the controller, or nothing when a step failed. *)
Definition start_controller (rounds fuel : nat) (s : Pci W S) (c : NvmeController) : option (Pci W S * option NvmeController) :=
  let drop_admin (c : NvmeController) (fa : S) := fa_free (fa_free fa (sq_phys (admin_queue c))) (cq_phys (admin_queue c)) in
  '(w1, r) ← nvme_reset_controller fuel (pc_w s) c;
  if negb (r =? 0) then Some (with_fa s w1 (pc_fa s), None)
  else
    let '(w2, fa2, c2, r) := nvme_setup_admin_queue w1 (pc_fa s) c in
    if negb (r =? 0) then Some (with_fa s w2 fa2, None)
    else
      '(w3, r) ← nvme_enable_controller fuel w2 c2;
      if negb (r =? 0) then Some (with_fa s w3 (drop_admin c2 fa2), None)
      else
        '(w4, fa4, c4, r) ← nvme_identify rounds fuel w3 fa2 (set_namespaces c2 []);
        if negb (r =? 0) then Some (with_fa s w4 (drop_admin c4 fa4), None)
        else
          '(w5, fa5, c5, r) ← nvme_setup_io_queue fuel w4 fa4 c4 1;
          if negb (r =? 0) then Some (with_fa s w5 (drop_admin c5 fa5), None)
          else Some (with_fa s w5 fa5, Some c5).

Definition nvme_init_device (rounds fuel : nat) (lapic_id : Z) (st : Nv) (dev : PciDevice) : option Nv :=
  let bar := nth 0 (bars dev) (mkBar 0 0 0 0 0) in
  if negb (is_io bar =? 0) || (phys_addr bar =? 0) then Some st
  else
    let '(s1, _) := pcie_enable_bus_master pml4 (bdf dev) (nv_pci st) in
    let '(s2, mapped) := map_bar bar s1 in
    let quit s := Some (mkNv s (g_controllers st) (irq_vectors st)) in
    if negb mapped then quit s2
    else if negb (kmalloc_ok sizeof_NvmeController) then quit s2
    else
      let '(s3, c) := read_caps dev bar s2 in
      let '(s4, msix) := setup_msix fuel dev lapic_id s3 in
      msix ← msix;
      '(s5, started) ← start_controller rounds fuel s4 (set_msix c msix);
      match started with
      | None => quit s5
      | Some c5 => Some (mkNv s5 (c5 :: g_controllers st) (irq_vectors st))
      end.

Fixpoint init_devices (rounds fuel : nat) (lapic_id : Z) (st : Nv) (devs : list PciDevice) : option Nv :=
  match devs with
  | [] => Some st
  | dev :: r =>
      st1 ← (if (class_code dev =? PCI_CLASS_STORAGE) && (subclass dev =? PCI_SUBCLASS_NVM) && (prog_if dev =? PCI_PROGIF_NVME)
             then nvme_init_device rounds fuel lapic_id st dev else Some st);
      init_devices rounds fuel lapic_id st1 r
  end.

Definition nvme_init (rounds fuel : nat) (lapic_id : Z) (st : Nv) : option Nv :=
  init_devices rounds fuel lapic_id (mkNv (nv_pci st) [] (NVME_IRQ_VECTOR :: irq_vectors st)) (g_devices (nv_pci st)).

Definition nvme_get_controllers (st : Nv) : list NvmeController := g_controllers st.
End Ops.
