(* ===== verification/NvmePrp.v ===== *)
(** * Data pointers of NVMe commands

    What the driver needs of page tables, and the lists of physical pages that
    describe a buffer to the controller. *)

From Stdlib Require Import ZArith Lia Bool.
From stdpp Require Import base list gmap.
From S2P Require Import Prelude Mem Str Frames PageTable PtWalk PtOps AddrSpace Machine Nvme.

(** ** Translations and the rest of memory

    A translation reads page tables only; inside of a page it adds the
    offset. *)

Definition is_table (m : mem) (root f : Z) : Prop := exists p, idx_ok p /\ (length p <= 3)%nat /\ walk m root p = Some f.

Definition in_pages (l : list Z) (x : Z) : Prop := exists f, f ∈ l /\ in_page f x.

Section Mem.
Context {S : Type} `{FrameAllocator S} `{!FrameAllocatorLaws S}.

(** What keeps the tables, and keeps them allocated, keeps the address space. *)
Lemma tables_kept m m' fa fa' root : pt_wf (mkVm m fa) root -> fa_ok fa' ->
  (forall f, frame_addr f -> is_table m root f -> fa_used fa f -> fa_used fa' f) ->
  (forall f x, is_table m root f -> frame_addr f -> fa_used fa f -> in_page f x -> rd8 m' x = rd8 m x) ->
  pt_wf (mkVm m' fa') root /\ (forall v, vmmVirtToPhys m' (tbl root) v = vmmVirtToPhys m (tbl root) v) /\
  (forall f, is_table m' root f <-> is_table m root f).
Proof.
  intros W Hok Hu Hm.
  assert (He : forall c f i, idx_ok c -> (length c <= 3)%nat -> walk m root c = Some f -> 0 <= i < 512 -> entry m' f i = entry m f i).
  { intros c f i Hc Hl Hw Hi. destruct (pw_used _ _ W c f Hc Hl Hw) as [Hf Hus]. apply rd_ext. intros x Hx.
    apply (Hm f); [by exists c|done|done|]. unfold in_page, PAGE_SIZE. lia. }
  pose proof (fun q => walk_ext _ _ root q He) as Hx.
  assert (W' : pt_wf (mkVm m' fa') root).
  { constructor; cbn [vm_mem vm_fa]; [done| | |].
    - intros p f Hp Hl. destruct (Hx p) as [-> _]; [done|lia|]. intros Hw. destruct (pw_used _ _ W p f Hp Hl Hw) as [Hf Hus].
      split; [done|]. apply Hu; try done. by exists p.
    - intros p q f Hp Hq Hlp Hlq. destruct (Hx p) as [-> _]; [done|lia|]. destruct (Hx q) as [-> _]; [done|lia|]. by apply (pw_inj _ _ W).
    - intros i Hi. rewrite (He [] root i) by (done || (simpl; lia) || constructor). by apply (pw_top _ _ W). }
  split_and!; [done| |].
  - intros v. apply (translate_ext (mkVm m fa) (mkVm m' fa') root v W W'). apply Hx; [apply vpath_ok|simpl; lia].
  - intros f. unfold is_table. split; intros (p & Hp & Hl & Hw); exists p; (split; [done|]; split; [done|]); destruct (Hx p) as [E _]; try done; try lia; congruence.
Qed.

(** ** Inside of a page *)

Lemma tidx_page v o s : 0 <= v -> 0 <= o -> v mod 4096 + o < 4096 -> 12 <= s -> tidx (v + o) s = tidx v s.
Proof.
  intros Hv Ho Hlt Hs. unfold tidx. f_equal. replace s with (12 + (s - 12)) by lia. rewrite <- !Z.shiftr_shiftr by lia. f_equal.
  rewrite !Z.shiftr_div_pow2 by lia. change (2 ^ 12) with 4096. divlia.
Qed.

Lemma lor_low_mask e M k v : 0 <= k -> (forall i, 0 <= i < k -> Z.testbit M i = false) ->
  Z.lor (Z.land e M) (Z.land v (Z.ones k)) = Z.land e M + v mod 2 ^ k.
Proof.
  intros Hk HM. rewrite Z.land_ones by lia. assert (E0 : Z.land (Z.land e M) (v mod 2 ^ k) = 0); [|rewrite <- Z.add_lor_land, E0; lia].
  apply Z.bits_inj'. intros i Hi. rewrite !Z.land_spec, Z.testbit_0_l. destruct (Z.ltb_spec i k).
  - rewrite HM by lia. by rewrite andb_false_r.
  - rewrite (testbit_above (v mod 2 ^ k) i k); [apply andb_false_r|apply Z.mod_pos_bound; lia|lia].
Qed.

(** What an entry and an address give, by the size of the page. *)
Lemma phys_of_sum v r : match r with
  | Some (e, 0%nat) => phys_of v r = Z.land e PTE_ADDR_MASK + v mod 2 ^ 12
  | Some (e, 1%nat) => phys_of v r = Z.land e 0x000FFFFFFFE00000 + v mod 2 ^ 21
  | Some (e, 2%nat) => phys_of v r = Z.land e 0x000FFFFFC0000000 + v mod 2 ^ 30
  | _ => phys_of v r = 0
  end.
Proof.
  destruct r as [[e [|[|[|k]]]]|]; cbn [phys_of]; try done.
  - change (PAGE_SIZE - 1) with (Z.ones 12). apply lor_low_mask; [lia|]. intros i Hi. change PTE_ADDR_MASK with (Z.shiftl 0xFFFFFFFFFF 12). apply Z.shiftl_spec_low; lia.
  - change 0x1FFFFF with (Z.ones 21). apply lor_low_mask; [lia|]. intros i Hi. change 0x000FFFFFFFE00000 with (Z.shiftl 0x7FFFFFFF 21). apply Z.shiftl_spec_low; lia.
  - change 0x3FFFFFFF with (Z.ones 30). apply lor_low_mask; [lia|]. intros i Hi. change 0x000FFFFFC0000000 with (Z.shiftl 0x3FFFFF 30). apply Z.shiftl_spec_low; lia.
Qed.

Lemma land_mask e M k : 0 <= k -> 0 <= M < 2 ^ k -> 0 <= Z.land e M < 2 ^ k.
Proof.
  intros Hk HM. replace M with (Z.land M (Z.ones k)) by (rewrite Z.land_ones by lia; by apply Z.mod_small).
  rewrite Z.land_assoc, Z.land_ones by lia. apply Z.mod_pos_bound. lia.
Qed.

Lemma translate_offset m fa root v o : pt_wf (mkVm m fa) root -> 0 <= v -> 0 <= o -> v mod 4096 + o < 4096 -> vmmVirtToPhys m (tbl root) v <> 0 ->
  vmmVirtToPhys m (tbl root) (v + o) = vmmVirtToPhys m (tbl root) v + o.
Proof.
  intros W Hv Ho Hlt Hne. pose proof (translate_xl _ _ v W) as E1. pose proof (translate_xl _ _ (v + o) W) as E2. unfold translate in *. cbn [vm_mem] in *.
  assert (Ep : vpath (v + o) = vpath v) by (unfold vpath; by rewrite !tidx_page by (done || lia)). rewrite Ep in E2. rewrite E1 in Hne |- *. rewrite E2.
  pose proof (phys_of_sum v (xl m root (vpath v))) as A. pose proof (phys_of_sum (v + o) (xl m root (vpath v))) as B.
  destruct (xl m root (vpath v)) as [[e [|[|[|k]]]]|]; try done; rewrite A, B.
  - change (2 ^ 12) with 4096. divlia.
  - change (2 ^ 21) with 2097152. divlia.
  - change (2 ^ 30) with 1073741824. divlia.
Qed.

Lemma translate_range m fa root v : pt_wf (mkVm m fa) root -> 0 <= vmmVirtToPhys m (tbl root) v < 2 ^ 53.
Proof.
  intros W. pose proof (translate_xl _ _ v W) as E1. unfold translate in E1. cbn [vm_mem] in E1. rewrite E1. pose proof (phys_of_sum v (xl m root (vpath v))) as E.
  destruct (xl m root (vpath v)) as [[e [|[|[|k]]]]|]; rewrite E; try lia.
  - pose proof (land_mask e PTE_ADDR_MASK 52 ltac:(lia) ltac:(done)). pose proof (Z.mod_pos_bound v (2 ^ 12) ltac:(lia)). lia.
  - pose proof (land_mask e 0x000FFFFFFFE00000 52 ltac:(lia) ltac:(done)). pose proof (Z.mod_pos_bound v (2 ^ 21) ltac:(lia)). lia.
  - pose proof (land_mask e 0x000FFFFFC0000000 52 ltac:(lia) ltac:(done)). pose proof (Z.mod_pos_bound v (2 ^ 30) ltac:(lia)). lia.
Qed.

(** Pages and their physical addresses have the same offset. *)
Lemma translate_mod m fa root v : pt_wf (mkVm m fa) root -> 0 <= v -> vmmVirtToPhys m (tbl root) v <> 0 ->
  vmmVirtToPhys m (tbl root) v mod 4096 = v mod 4096.
Proof.
  intros W Hv Hne. pose proof (translate_xl _ _ v W) as E1. unfold translate in E1. cbn [vm_mem] in E1. rewrite E1 in Hne |- *. pose proof (phys_of_sum v (xl m root (vpath v))) as E.
  assert (HM : forall e c k, 12 <= k -> Z.land e (Z.shiftl c k) mod 4096 = 0).
  { intros e c k Hk. change 4096 with (2 ^ 12). rewrite <- Z.land_ones, <- Z.land_assoc by lia. replace (Z.land (Z.shiftl c k) (Z.ones 12)) with 0; [by rewrite Z.land_0_r|].
    symmetry. rewrite Z.land_ones, Z.shiftl_mul_pow2 by lia. replace k with (k - 12 + 12) by lia. rewrite Z.pow_add_r, Z.mul_assoc by lia. apply Z.mod_mul. lia. }
  destruct (xl m root (vpath v)) as [[e [|[|[|k]]]]|]; try done; rewrite E.
  - pose proof (HM e 0xFFFFFFFFFF 12 ltac:(lia)) as Hm. change (Z.shiftl 0xFFFFFFFFFF 12) with PTE_ADDR_MASK in Hm. change (2 ^ 12) with 4096. divlia.
  - pose proof (HM e 0x7FFFFFFF 21 ltac:(lia)) as Hm. change (Z.shiftl 0x7FFFFFFF 21) with 0x000FFFFFFFE00000 in Hm. change (2 ^ 21) with 2097152. divlia.
  - pose proof (HM e 0x3FFFFF 30 ltac:(lia)) as Hm. change (Z.shiftl 0x3FFFFF 30) with 0x000FFFFFC0000000 in Hm. change (2 ^ 30) with 1073741824. divlia.
Qed.
End Mem.

(** ** Physical region pages

    What a controller makes of the two data pointers of a command, and the
    theorem that the driver's pointers and lists describe exactly the pages
    of the buffer. *)

(** ** The controller's side *)

(** [n] entries of a list, from entry [e] of the list page [page]: when more
    than one is left, the last entry of a page points to the next page. *)
Fixpoint prp_list (m : mem) (n : nat) (page e : Z) : list Z :=
  match n with
  | O => []
  | S k =>
      if (e =? 511) && negb (k =? 0)%nat
      then let next := rd64 m (tbl page + 8 * 511) in rd64 m (tbl next) :: prp_list m k next 1
      else rd64 m (tbl page + 8 * e) :: prp_list m k page (e + 1)
  end.

(** The page entries of a transfer of [len] bytes. *)
Definition prp_entries (m : mem) (prp1 prp2 len : Z) : list Z :=
  let first := PAGE_SIZE - prp1 mod PAGE_SIZE in
  if len <=? first then [prp1]
  else if len - first <=? PAGE_SIZE then [prp1; prp2]
  else prp1 :: prp_list m (Z.to_nat ((len - first + PAGE_SIZE - 1) / PAGE_SIZE)) prp2 0.

(** The number of list pages is enough, and not one too many. *)
Lemma prp_pages_pos n : 1 <= prp_pages_for n.
Proof. unfold prp_pages_for. destruct (Z.ltb_spec 512 n); [|lia]. pose proof (Z.div_pos (n - 512 + 510) 511). lia. Qed.

Lemma prp_pages_next n p : 0 < n -> 0 <= p -> p + 1 < prp_pages_for n <-> 511 * (p + 1) + 1 < n.
Proof.
  intros Hn Hp. unfold prp_pages_for. destruct (Z.ltb_spec 512 n); [|lia].
  pose proof (Z.div_mod (n - 512 + 510) 511 ltac:(lia)). pose proof (Z.mod_pos_bound (n - 512 + 510) 511 ltac:(lia)). lia.
Qed.

Lemma prp_pages_bound n : 0 < n <= 65536 -> prp_pages_for n <= 130.
Proof.
  intros Hn. unfold prp_pages_for. destruct (Z.ltb_spec 512 n); [|lia].
  pose proof (Z.div_lt_upper_bound (n - 512 + 510) 511 129). lia.
Qed.

(** ** Writing a list *)
Section Fill.
Context (pml4 : Z) (frames : list Z) (m0 : mem) (T : Z -> Z).
Context (Fa : Forall frame_addr frames) (Nd : NoDup frames).
(** The page tables are not in the frames of the list. *)
Context (HT : forall m v, (forall x, ~ in_pages frames x -> rd8 m x = rd8 m0 x) -> vmmVirtToPhys m pml4 v = T v).
Context (HTu : forall v, is_u64 (T v)).

Abbreviation fr j := (nth (Z.to_nat j) frames 0).
Abbreviation num := (Z.of_nat (length frames)).

Lemma fr_elem j : 0 <= j < num -> fr j ∈ frames.
Proof. intros Hj. apply list_elem_of_In, nth_In. lia. Qed.

Lemma fr_addr j : 0 <= j < num -> frame_addr (fr j).
Proof. intros Hj. rewrite Forall_forall in Fa. by apply Fa, fr_elem. Qed.

Lemma fr_inj i j : 0 <= i < num -> 0 <= j < num -> fr i = fr j -> i = j.
Proof.
  intros Hi Hj E. assert (Z.to_nat i = Z.to_nat j); [|lia]. apply NoDup_ListNoDup in Nd. apply (proj1 (NoDup_nth frames 0) Nd); [lia|lia|done].
Qed.

Lemma fr_page_inj i j x : 0 <= i < num -> 0 <= j < num -> in_page (fr i) x -> in_page (fr j) x -> i = j.
Proof. intros Hi Hj H1 H2. apply fr_inj; try done. apply (in_page_inj _ _ x); auto using fr_addr. Qed.

(** What has been written and what may still be: entry [e] of page [p] and
    everything after it. *)
Definition ahead (p e x : Z) : Prop := exists j, p <= j < num /\ in_page (fr j) x /\ (j = p -> tbl (fr p) + 8 * e <= x).

Lemma ahead_intro j p e x : p <= j < num -> in_page (fr j) x -> (j = p -> tbl (fr p) + 8 * e <= x) -> ahead p e x.
Proof. intros H1 H2 H3. by exists j. Qed.

Lemma ahead_pages p e x : 0 <= p -> ahead p e x -> in_pages frames x.
Proof. intros Hp (j & Hj & Hx & _). exists (fr j). split; [apply fr_elem; lia|done]. Qed.

Lemma ahead_le p e p' e' x : 0 <= p -> p < p' \/ (p = p' /\ e <= e') -> ahead p' e' x -> ahead p e x.
Proof.
  intros Hp H (j & Hj & Hx & Hs). apply (ahead_intro j); [lia|done|]. intros ->. destruct H as [H|[-> H]]; [lia|]. specialize (Hs eq_refl). lia.
Qed.

(** An entry of a list page lies in that page. *)
Lemma entry_in_page f e x : 0 <= e < 512 -> tbl f + 8 * e <= x < tbl f + 8 * e + 8 -> in_page f x.
Proof. unfold in_page, PAGE_SIZE. lia. Qed.

Lemma not_ahead_entry p e p' e' x : 0 <= p < num -> 0 <= e < 512 -> tbl (fr p) + 8 * e <= x < tbl (fr p) + 8 * e + 8 ->
  p < p' \/ (p = p' /\ e < e') -> 0 <= p' -> ~ ahead p' e' x.
Proof.
  intros Hp He Hx H Hp' (j & Hj & Hxj & Hs). assert (p = j) as <- by (apply (fr_page_inj p j x); [done|lia| |done]; by apply (entry_in_page _ e)).
  destruct H as [H|[-> H]]; [lia|]. specialize (Hs eq_refl). lia.
Qed.

Lemma rd64_ext m m' a : (forall x, a <= x < a + 8 -> rd8 m' x = rd8 m x) -> rd64 m' a = rd64 m a.
Proof. intros E. apply rd_ext. intros x Hx. apply E. lia. Qed.

(** The entries the list should hold. *)
Definition pages_from (v : Z) (r : nat) : list Z := (fun i => T (u64 (v + PAGE_SIZE * i))) <$> seqZ 0 (Z.of_nat r).

Lemma pages_from_S v r : is_u64 v -> pages_from v (S r) = T v :: pages_from (u64 (v + PAGE_SIZE)) r.
Proof.
  intros Hv. unfold pages_from. rewrite Nat2Z.inj_succ, seqZ_cons by lia. cbn [fmap list_fmap]. f_equal.
  - rewrite Z.mul_0_r, Z.add_0_r. by rewrite u64_id.
  - rewrite Z.pred_succ. change (Z.succ 0) with (1 + 0). rewrite <- (fmap_add_seqZ 1 0), <- list_fmap_compose. apply list_fmap_ext. intros k x _. unfold compose.
    f_equal. unfold u64. rewrite Z.add_mod_idemp_l by lia. f_equal. lia.
Qed.

(** Writing one entry of page [p], maybe after the link to that page. *)
Lemma put_entry m p e v : 0 <= p < num -> 0 <= e < 512 -> is_u64 v ->
  let m' := wr64 m (tbl (fr p) + 8 * e) v in
  rd64 m' (tbl (fr p) + 8 * e) = v /\ (forall x, ~ ahead p e x -> rd8 m' x = rd8 m x).
Proof.
  intros Hp He Hv m'. split.
  - unfold m', rd64, wr64. rewrite rd_wr_same. apply Z.mod_small. exact Hv.
  - intros x Hx. unfold m', wr64. rewrite rd8_wr. destruct (Z.leb_spec (tbl (fr p) + 8 * e) x), (Z.ltb_spec x (tbl (fr p) + 8 * e + Z.of_nat 8)); try done.
    exfalso. apply Hx. apply (ahead_intro p); [lia| |lia]. apply (entry_in_page _ e); lia.
Qed.

Lemma put_link m p : 0 <= p -> p + 1 < num ->
  let m1 := wr64 m (tbl (fr p) + 8 * 511) (fr (p + 1)) in
  let m' := (memset m1 (tbl (fr (p + 1))) 0 PAGE_SIZE).1 in
  rd64 m' (tbl (fr p) + 8 * 511) = fr (p + 1) /\ (forall x, ~ ahead p 511 x -> rd8 m' x = rd8 m x).
Proof.
  intros Hp Hp1 m1 m'. destruct (fr_addr (p + 1) ltac:(lia)) as [Ha _].
  destruct (put_entry m p 511 (fr (p + 1))) as [E1 E2]; [lia|lia|unfold is_u64; lia|]. fold m1 in E1, E2.
  pose proof (memset_filled m1 (tbl (fr (p + 1))) 0 PAGE_SIZE ltac:(done)) as F. fold m' in F.
  assert (F' : forall x, ~ in_page (fr (p + 1)) x -> rd8 m' x = rd8 m1 x).
  { intros x Hx. rewrite F. unfold in_page in Hx. destruct (Z.leb_spec (tbl (fr (p + 1))) x), (Z.ltb_spec x (tbl (fr (p + 1)) + PAGE_SIZE)); tauto || done. }
  split.
  - transitivity (rd64 m1 (tbl (fr p) + 8 * 511)); [|done]. apply rd64_ext. intros x Hx. apply F'. intros Hin.
    assert (p = p + 1); [|lia]. apply (fr_page_inj p (p + 1) x); [lia|lia|by apply (entry_in_page _ 511); [lia|]|done].
  - intros x Hx. rewrite F', E2; [done|done|]. intros Hin. apply Hx. apply (ahead_intro (p + 1)); [lia|done|lia].
Qed.

Context (n : Z) (Hnum : num = prp_pages_for n).
Abbreviation pages_of b := ((b + PAGE_SIZE - 1) / PAGE_SIZE).

Lemma pages_of_step b : PAGE_SIZE < b -> pages_of b = pages_of (b - PAGE_SIZE) + 1.
Proof. intros Hb. replace (b + PAGE_SIZE - 1) with (b - PAGE_SIZE + PAGE_SIZE - 1 + 1 * PAGE_SIZE) by lia. by rewrite Z.div_add by done. Qed.

(** Where the next entry goes: the first of the next page, behind the link,
    when this page has only room for the link. *)
Definition linked (m : mem) (p e : Z) : mem * Z * Z :=
  if (e =? 511) && (p + 1 <? num)
  then ((memset (wr64 m (tbl (fr p) + 8 * 511) (fr (p + 1))) (tbl (fr (p + 1))) 0 PAGE_SIZE).1, p + 1, 0)
  else (m, p, e).

Lemma linked_ok m p e r m1 p1 e1 : 0 <= p < num -> 0 <= e <= 511 -> 511 * p + e + Z.of_nat (S r) = n -> linked m p e = (m1, p1, e1) ->
  0 <= p1 < num /\ 0 <= e1 < 512 /\ 511 * p1 + e1 + Z.of_nat (S r) = n /\
  (forall x, ~ ahead p e x -> rd8 m1 x = rd8 m x) /\ (forall x, ahead p1 e1 x -> ahead p e x) /\
  (e1 + 1 <= 511 \/ r = 0%nat) /\
  forall m2, (forall x, in_pages frames x -> ~ ahead p1 e1 x -> rd8 m2 x = rd8 m1 x) ->
    prp_list m2 (S r) (fr p) e = rd64 m2 (tbl (fr p1) + 8 * e1) :: prp_list m2 r (fr p1) (e1 + 1).
Proof.
  intros Hp He Hn. pose proof (prp_pages_next n p ltac:(lia) ltac:(lia)) as Hnx. rewrite <- Hnum in Hnx. unfold linked.
  destruct (Z.eqb_spec e 511) as [->|Hne]; cbn [andb]; [destruct (Z.ltb_spec (p + 1) num) as [Hlt|Hge]|]; intros [= <- <- <-].
  - destruct (put_link m p ltac:(lia) Hlt) as [E1 E2]. split_and!; [lia|lia|lia|lia|lia|done| |lia|].
    + intros x. apply ahead_le; lia.
    + intros m2 Hm2. cbn [prp_list]. rewrite Z.eqb_refl. destruct (Nat.eqb_spec r 0); [lia|]. cbn [negb andb].
      replace (rd64 m2 (tbl (fr p) + 8 * 511)) with (fr (p + 1)). { cbn zeta. by rewrite Z.mul_0_r, Z.add_0_r. }
      rewrite <- E1. symmetry. apply rd64_ext. intros x Hx. apply Hm2.
      * exists (fr p). split; [apply fr_elem; lia|]. by apply (entry_in_page _ 511); [lia|].
      * apply (not_ahead_entry p 511); lia.
  - split_and!; try done; try lia. intros m2 _. cbn [prp_list]. rewrite Z.eqb_refl. destruct (Nat.eqb_spec r 0) as [->|]; [done|lia].
  - split_and!; try done; try lia. intros m2 _. cbn [prp_list]. by destruct (Z.eqb_spec e 511).
Qed.

(** The step of the loop. *)
Lemma step_ok b r : 0 < b -> pages_of b = Z.of_nat (S r) ->
  let step := if PAGE_SIZE <? b then PAGE_SIZE else b in
  0 <= b - step /\ pages_of (b - step) = Z.of_nat r /\ (r <> 0%nat -> step = PAGE_SIZE).
Proof.
  intros Hb Hr. cbn zeta. destruct (Z.ltb_spec PAGE_SIZE b) as [Hlt|Hge].
  - rewrite pages_of_step in Hr by done. split_and!; lia.
  - assert (pages_of b = 1). { symmetry. apply (Z.div_unique _ _ _ (b - 1)); lia. }
    replace r with 0%nat by lia. replace (b - b) with 0 by lia. done.
Qed.

(** The loop writes the list and nothing else; it stops early only at a page
    that is not mapped. *)
Lemma fill_prps_ok r : forall m p e v b, 0 <= b -> pages_of b = Z.of_nat r -> 0 <= p < num -> 0 <= e -> e <= 511 \/ r = 0%nat ->
  511 * p + e + Z.of_nat r = n -> is_u64 v -> (forall x, ~ in_pages frames x -> rd8 m x = rd8 m0 x) ->
  exists m' ok, fill_prps pml4 r m frames p e v b = Some (m', ok) /\ (forall x, ~ ahead p e x -> rd8 m' x = rd8 m x) /\
    if ok : bool then forall m2, (forall x, in_pages frames x -> rd8 m2 x = rd8 m' x) -> prp_list m2 r (fr p) e = pages_from v r /\ Forall (fun a => a <> 0) (pages_from v r)
    else exists i, 0 <= i < Z.of_nat r /\ T (u64 (v + PAGE_SIZE * i)) = 0.
Proof.
  induction r as [|r IH]; intros m p e v b Hb Hr Hp He He' Hn Hv Hm.
  - assert (b = 0) as ->. { pose proof (Z.div_mod (b + PAGE_SIZE - 1) PAGE_SIZE ltac:(done)). pose proof (Z.mod_pos_bound (b + PAGE_SIZE - 1) PAGE_SIZE ltac:(done)). lia. }
    exists m, true. split_and!; [done|done|]. intros m2 _. split; [done|constructor].
  - destruct He' as [He'|]; [|done].
    assert (Hbp : 0 < b). { destruct (Z.eq_dec b 0) as [->|]; [done|lia]. }
    cbn [fill_prps]. destruct (Z.leb_spec b 0); [lia|]. fold (tbl (fr p)) (tbl (fr (p + 1))). fold (linked m p e).
    destruct (linked m p e) as [[m1 p1] e1] eqn:El. destruct (linked_ok m p e r m1 p1 e1) as (Hp1 & He1 & Hn1 & Hm1 & Hah & Hnext & Hlist); try done.
    assert (Hm1' : forall x, ~ in_pages frames x -> rd8 m1 x = rd8 m0 x).
    { intros x Hx. rewrite Hm1; [by apply Hm|]. intros Ha. apply Hx. by apply (ahead_pages p e); [lia|]. }
    rewrite (HT m1 v Hm1'). destruct (Z.eqb_spec (T v) 0) as [E0|E0].
    { exists m1, false. split_and!; [done|done|]. exists 0. split; [lia|]. by rewrite Z.mul_0_r, Z.add_0_r, u64_id. }
    fold (tbl (fr p1)). destruct (put_entry m1 p1 e1 (T v) Hp1 He1 (HTu v)) as [E1 E2]. set (m2 := wr64 _ _ _) in *.
    set (step := if PAGE_SIZE <? b then PAGE_SIZE else b).
    destruct (step_ok b r Hbp Hr) as (Hs1 & Hs2 & Hs3). fold step in Hs1, Hs2, Hs3.
    destruct (IH m2 p1 (e1 + 1) (u64 (v + step)) (b - step)) as (m' & ok & Ef & Ho & Hok); try done; try lia; [apply u64_range| |].
    { intros x Hx. rewrite E2; [by apply Hm1'|]. intros Ha. apply Hx. by apply (ahead_pages p1 e1); [lia|]. }
    exists m', ok. split; [exact Ef|]. split.
    { intros x Hx. rewrite Ho, E2, Hm1; try done; intros Ha; apply Hx, Hah; [done|]. revert Ha. apply ahead_le; lia. }
    destruct ok.
    + intros m3 Hm3. rewrite Hlist, pages_from_S by first [done | intros x Hx Hna; rewrite Hm3, Ho, E2 by (done || intros Ha; apply Hna; revert Ha; apply ahead_le; lia); done].
      destruct (Hok m3 Hm3) as [Hl Hf]. assert (Ev : pages_from (u64 (v + step)) r = pages_from (u64 (v + PAGE_SIZE)) r).
      { destruct r as [|r]; [done|]. by rewrite Hs3 by done. }
      rewrite Ev in Hl, Hf. split; [|by constructor]. f_equal; [|done].
      rewrite <- E1. apply rd64_ext. intros x Hx. rewrite Hm3, Ho; [done| |].
      * apply (not_ahead_entry p1 e1); lia.
      * exists (fr p1). split; [by apply fr_elem|]. by apply (entry_in_page _ e1).
    + destruct Hok as (i & Hi & Ei). exists (i + 1). split; [lia|]. rewrite <- Ei. f_equal. rewrite Hs3 by lia. unfold u64. rewrite Z.add_mod_idemp_l by lia. f_equal. lia.
Qed.
End Fill.

(** ** Frames for the lists *)
Section Frames.
Context {S : Type} `{FrameAllocator S} `{!FrameAllocatorLaws S}.
Implicit Types (fa : S) (l : list Z).

Lemma frame_u64 f : frame_addr f -> is_u64 f.
Proof. intros [Hf _]. unfold is_u64. lia. Qed.

Lemma free_all_ok l : forall fa, fa_ok fa -> Forall frame_addr l ->
  fa_ok (free_all fa l) /\ (forall a, frame_addr a -> fa_used (free_all fa l) a <-> fa_used fa a /\ a ∉ l).
Proof.
  induction l as [|f l IH]; intros fa Hok Hl; cbn [free_all foldl].
  - split; [done|]. intros a _. split; [|tauto]. intros Hu. split; [done|]. apply not_elem_of_nil.
  - apply Forall_cons in Hl as [Hf Hl]. destruct (IH (fa_free fa f)) as [H1 H2]; [apply fa_free_ok; auto using frame_u64|done|].
    split; [done|]. intros a Ha. rewrite H2, fa_free_used by auto using frame_u64. rewrite not_elem_of_cons. split; intros ((? & ?) & ?) || intros (? & ? & ?); auto.
Qed.

(** Frames taken from [fa0] by [fa1]: new ones, no two the same. *)
Record taken (fa0 fa1 : S) (l : list Z) : Prop := {
  tk_ok : fa_ok fa1;
  tk_frames : Forall frame_addr l;
  tk_nodup : NoDup l;
  tk_fresh : forall f, f ∈ l -> ~ fa_used fa0 f;
  tk_used : forall a, frame_addr a -> fa_used fa1 a <-> a ∈ l \/ fa_used fa0 a
}.

Lemma taken_nil fa : fa_ok fa -> taken fa fa [].
Proof. intros Hok. constructor; [done|constructor|constructor| |]; intros a; set_solver. Qed.

Lemma taken_snoc fa0 fa1 l : taken fa0 fa1 l -> (fa_alloc fa1).2 <> 0 -> taken fa0 (fa_alloc fa1).1 (l ++ [(fa_alloc fa1).2]).
Proof.
  intros [Hok Hf Hn Hfr Hu] Hne. pose proof (fa_alloc_frame fa1 Hok Hne) as Ha. pose proof (fa_alloc_fresh fa1 Hok Hne) as Hx. rewrite Hu in Hx by done.
  constructor.
  - by apply fa_alloc_ok.
  - apply Forall_app. split; [done|]. by constructor.
  - apply NoDup_app. split_and!; [done| |apply NoDup_singleton]. intros x Hx1 ->%list_elem_of_singleton. tauto.
  - intros f [Hl| ->%list_elem_of_singleton]%elem_of_app; [auto|tauto].
  - intros a Hfa. rewrite fa_alloc_used, Hu, elem_of_app, list_elem_of_singleton by done. tauto.
Qed.

Lemma taken_free fa0 fa1 l : taken fa0 fa1 l -> fa_ok (free_all fa1 l) /\ (forall a, frame_addr a -> fa_used (free_all fa1 l) a <-> fa_used fa0 a).
Proof.
  intros [Hok Hf Hn Hfr Hu]. destruct (free_all_ok l fa1 Hok Hf) as [H1 H2]. split; [done|]. intros a Ha. rewrite H2, Hu by done.
  split; [tauto|]. intros Ha'. split; [tauto|]. intros Hl. by apply (Hfr a).
Qed.

Lemma alloc_frames_ok n : forall fa0 fa got, taken fa0 fa got ->
  match alloc_frames n fa got with
  | (fa', None) => fa_ok fa' /\ (forall a, frame_addr a -> fa_used fa' a <-> fa_used fa0 a)
  | (fa', Some l) => taken fa0 fa' l /\ length l = (length got + n)%nat
  end.
Proof.
  induction n as [|n IH]; intros fa0 fa got Ht; cbn [alloc_frames]; [split; [done|lia]|].
  pose proof (fa_alloc_null fa (tk_ok _ _ _ Ht)) as Hnull. pose proof (taken_snoc fa0 fa got Ht) as Hs.
  destruct (fa_alloc fa) as [fa1 f]. cbn [fst snd] in *. destruct (Z.eqb_spec f 0) as [->|Hne].
  - rewrite Hnull by done. by apply taken_free.
  - specialize (IH fa0 fa1 (got ++ [f]) (Hs Hne)). destruct (alloc_frames n fa1 (got ++ [f])) as [fa' [l|]]; [|done].
    rewrite length_app in IH. cbn [length] in IH. split; [tauto|]. destruct IH as [_ ->]. lia.
Qed.
End Frames.

(** ** The data pointers of a command *)

(** Where byte [o] of a transfer goes. *)
Definition prp_addr (l : list Z) (o : Z) : Z :=
  let first := PAGE_SIZE - nth 0 l 0 mod PAGE_SIZE in
  if o <? first then nth 0 l 0 + o else nth (S (Z.to_nat ((o - first) / PAGE_SIZE))) l 0 + (o - first) mod PAGE_SIZE.

Section Build.
Context {W : Type} `{Machine W} `{!MachineLaws W} {S : Type} `{FrameAllocator S} `{!FrameAllocatorLaws S}.
Context (w : W) (fa : S) (root virt len : Z).
Context (Wf : pt_wf (mkVm (mm w) fa) root) (Hv : 0 <= virt) (Hlen : 0 < len) (Hend : virt + len <= 2 ^ 64).
Abbreviation T := (vmmVirtToPhys (mm w) (tbl root)).
Context (Hmap : T virt <> 0).
Let first := PAGE_SIZE - virt mod PAGE_SIZE.

Lemma first_range : 0 < first <= PAGE_SIZE /\ (virt + first) mod PAGE_SIZE = 0.
Proof. unfold first, PAGE_SIZE. divlia. Qed.

(** A page further on. *)
Lemma page_addr i o : 0 <= i -> 0 <= o < PAGE_SIZE -> T (virt + first + PAGE_SIZE * i) <> 0 ->
  T (virt + first + PAGE_SIZE * i + o) = T (virt + first + PAGE_SIZE * i) + o.
Proof.
  intros Hi Ho Hne. pose proof first_range as [Hf1 Hf2]. unfold PAGE_SIZE in *. apply (translate_offset _ fa); [done|lia|lia|divlia|done].
Qed.

(** Entries for the pages after the first one that lead to the right bytes. *)
Lemma prp_addr_ok l : (forall i, 0 <= i -> first + PAGE_SIZE * i < len ->
    nth (Z.to_nat i) l 0 = T (virt + first + PAGE_SIZE * i) /\ T (virt + first + PAGE_SIZE * i) <> 0) ->
  forall o, 0 <= o < len -> prp_addr (T virt :: l) o = T (virt + o) /\ T (virt + o) <> 0.
Proof.
  intros Hl o Ho. pose proof first_range as [Hf1 Hf2]. pose proof (translate_range _ _ _ virt Wf) as Hr.
  unfold prp_addr. cbn [nth]. change PAGE_SIZE with 4096 in *. rewrite (translate_mod _ fa root virt) by done. fold first.
  change 4096 with PAGE_SIZE in *. fold first. destruct (Z.ltb_spec o first) as [Hlt|Hge].
  - rewrite (translate_offset _ fa) by (done || lia || (unfold first, PAGE_SIZE in *; lia)). split; [done|lia].
  - set (i := (o - first) / PAGE_SIZE). pose proof (Z.div_mod (o - first) PAGE_SIZE ltac:(done)) as Hdm. fold i in Hdm.
    pose proof (Z.mod_pos_bound (o - first) PAGE_SIZE ltac:(done)) as Hm. assert (0 <= i) by (apply Z.div_pos; [lia|done]).
    destruct (Hl i) as [-> Hne]; [done|lia|]. pose proof (translate_range _ _ _ (virt + first + PAGE_SIZE * i) Wf).
    replace (virt + o) with (virt + first + PAGE_SIZE * i + (o - first) mod PAGE_SIZE) by lia.
    rewrite page_addr by done. split; [done|lia].
Qed.

(** What the driver builds: the frames of the lists, and pointers that lead
    a controller to the buffer, whatever happens to the rest of memory. *)
Record prps_built (w' : W) (fa' : S) (prp2 : Z) (frames : list Z) : Prop := {
  pb_taken : taken fa fa' frames;
  pb_prp2 : is_u64 prp2;
  pb_count : len <= 2 ^ 28 -> (length frames <= 130)%nat;
  pb_other : forall x, ~ in_pages frames x -> rd8 (mm w') x = rd8 (mm w) x;
  pb_addr : forall m, (forall x, in_pages frames x -> rd8 m x = rd8 (mm w') x) ->
    forall o, 0 <= o < len -> prp_addr (prp_entries m (T virt) prp2 len) o = T (virt + o) /\ T (virt + o) <> 0
}.

Lemma built_direct prp2 l : is_u64 prp2 -> (forall m, prp_entries m (T virt) prp2 len = T virt :: l) ->
  (forall i, 0 <= i -> first + PAGE_SIZE * i < len ->
    nth (Z.to_nat i) l 0 = T (virt + first + PAGE_SIZE * i) /\ T (virt + first + PAGE_SIZE * i) <> 0) -> prps_built w fa prp2 [].
Proof.
  intros Hp2 El Hl. constructor; [apply taken_nil, (pw_ok _ _ Wf)|done|cbn; lia|done|]. intros m _ o Ho. rewrite El. by apply prp_addr_ok.
Qed.

(** The frames of a list hold no page tables. *)
Lemma list_translate fa' frames m v : taken fa fa' frames -> (forall x, ~ in_pages frames x -> rd8 m x = rd8 (mm w) x) ->
  vmmVirtToPhys m (tbl root) v = T v.
Proof.
  intros Ht Hm. apply (tables_kept (mm w) m fa fa root Wf); [apply (pw_ok _ _ Wf)|done|].
  intros f x _ Hf Hu Hx. apply Hm. intros (g & Hg & Hgx). apply (tk_fresh _ _ _ Ht g Hg).
  assert (g = f) as ->; [|done]. apply (in_page_inj g f x); try done. pose proof (tk_frames _ _ _ Ht) as Hfr. rewrite Forall_forall in Hfr. auto.
Qed.

Abbreviation count := ((len - first + PAGE_SIZE - 1) / PAGE_SIZE).

Lemma count_spec i : 0 <= i -> first + PAGE_SIZE * i < len <-> i < count.
Proof. intros Hi. unfold PAGE_SIZE in *. divlia. Qed.

Lemma count_bound : 0 < count -> len <= 2 ^ 28 -> prp_pages_for count <= 130.
Proof.
  intros Hc H28. apply prp_pages_bound. pose proof first_range as [Hf1 _].
  pose proof (Z.div_lt_upper_bound (len - first + PAGE_SIZE - 1) PAGE_SIZE 65537 ltac:(done)) as Hd. unfold PAGE_SIZE in *. lia.
Qed.

Lemma built_list fa' frames : PAGE_SIZE < len - first -> taken fa fa' frames -> Z.of_nat (length frames) = prp_pages_for count ->
  let w1 := upd w (fun m => (memset m (tbl (nth 0 frames 0)) 0 PAGE_SIZE).1) in
  exists m2 ok, fill_prps (tbl root) (Z.to_nat count) (mm w1) frames 0 0 (u64 (virt + first)) (len - first) = Some (m2, ok) /\
    (forall x, ~ in_pages frames x -> rd8 m2 x = rd8 (mm w) x) /\
    if ok : bool then prps_built (set_mm w1 m2) fa' (nth 0 frames 0) frames else exists o, 0 <= o < len /\ T (virt + o) = 0.
Proof.
  intros Hl Ht Hnum. cbn zeta. set (w1 := upd _ _). pose proof first_range as [Hf1 Hf2]. pose proof (tk_frames _ _ _ Ht) as Hfr.
  pose proof (prp_pages_pos count) as Hpos. assert (Hc : 1 < count) by (apply count_spec; unfold PAGE_SIZE in *; lia).
  assert (Hw1 : forall x, ~ in_pages frames x -> rd8 (mm w1) x = rd8 (mm w) x).
  { intros x Hx. unfold w1, upd. rewrite mm_set. pose proof (memset_filled (mm w) (tbl (nth 0 frames 0)) 0 PAGE_SIZE ltac:(done)) as F. rewrite F.
    destruct (Z.leb_spec (tbl (nth 0 frames 0)) x), (Z.ltb_spec x (tbl (nth 0 frames 0) + PAGE_SIZE)); cbn [andb]; try done.
    exfalso. apply Hx. exists (nth 0 frames 0). split; [|done]. apply list_elem_of_In, nth_In. lia. }
  assert (HTu : forall v, is_u64 (T v)). { intros v. pose proof (translate_range _ _ _ v Wf). unfold is_u64. lia. }
  destruct (fill_prps_ok (tbl root) frames (mm w) T Hfr (tk_nodup _ _ _ Ht)
    (fun m v => list_translate fa' frames m v Ht)
    HTu count Hnum (Z.to_nat count) (mm w1) 0 0 (u64 (virt + first)) (len - first)) as (m2 & ok & E & Ho & Hok); try done; try lia; [apply u64_range|].
  exists m2, ok. split; [done|].
  assert (Hm2 : forall x, ~ in_pages frames x -> rd8 m2 x = rd8 (mm w) x).
  { intros x Hx. rewrite Ho; [by apply Hw1|]. intros Ha. apply Hx. by apply (ahead_pages frames 0 0). }
  split; [done|]. destruct ok; cycle 1.
  { destruct Hok as (i & Hi & E0). exists (first + PAGE_SIZE * i). assert (Hlt : first + PAGE_SIZE * i < len) by (apply count_spec; lia).
    split; [unfold PAGE_SIZE in *; lia|]. rewrite <- E0. f_equal. rewrite (u64_id (virt + first)) by (unfold is_u64, PAGE_SIZE in *; lia).
    rewrite u64_id by (unfold is_u64, PAGE_SIZE in *; lia). lia. }
  constructor; [done| | | |].
  - rewrite Forall_forall in Hfr. apply frame_u64, Hfr, list_elem_of_In, nth_In. lia.
  - intros H28. pose proof (count_bound ltac:(lia) H28). lia.
  - by rewrite mm_set.
  - rewrite mm_set. intros m Hm. unfold prp_entries. change PAGE_SIZE with 4096 in *. rewrite (translate_mod _ fa root virt) by done.
    change 4096 with PAGE_SIZE in *. fold first.
    destruct (Z.leb_spec len first); [unfold PAGE_SIZE in *; lia|]. destruct (Z.leb_spec (len - first) PAGE_SIZE); [lia|].
    destruct (Hok m Hm) as [El Hnz]. change (nth (Z.to_nat 0) frames 0) with (nth 0 frames 0) in El. rewrite El. apply prp_addr_ok. intros i Hi Hlt. pose proof (proj1 (count_spec i Hi) Hlt) as Hic.
    assert (Elk : pages_from T (u64 (virt + first)) (Z.to_nat count) !! Z.to_nat i = Some (T (virt + first + PAGE_SIZE * i))).
    { unfold pages_from. rewrite list_lookup_fmap, lookup_seqZ_lt by lia. cbn. do 2 f_equal. rewrite Z2Nat.id by lia.
      rewrite (u64_id (virt + first)), Z.add_0_l by (unfold is_u64, PAGE_SIZE in *; lia). apply u64_id. unfold is_u64, PAGE_SIZE in *. lia. }
    split; [apply nth_lookup_Some with (d := 0) in Elk; done|]. rewrite Forall_forall in Hnz. apply Hnz. by eapply list_elem_of_lookup_2.
Qed.

(** Building the pointers: they lead to the buffer, or nothing is left
    allocated and only memory that was free has changed. *)
Lemma build_prps_ok : exists w' fa' r, build_prps (tbl root) w fa virt len = Some (w', fa', r) /\
  (forall P : W -> Prop, (forall w m, P w -> P (set_mm w m)) -> P w -> P w') /\
  match r with
  | None => fa_ok fa' /\ (forall a, frame_addr a -> fa_used fa' a <-> fa_used fa a) /\
      (forall x, (forall f, frame_addr f -> ~ fa_used fa f -> ~ in_page f x) -> rd8 (mm w') x = rd8 (mm w) x) /\
      ((exists o, 0 <= o < len /\ T (virt + o) = 0) \/
       (PAGE_SIZE < len /\ exists n, (len <= 2 ^ 28 -> (n <= 130)%nat) /\ (alloc_frames n fa []).2 = None))
  | Some (prp2, frames) => prps_built w' fa' prp2 frames
  end.
Proof.
  pose proof first_range as [Hf1 Hf2]. pose proof (pw_ok _ _ Wf) as Hok. cbn [vm_fa] in Hok. unfold build_prps.
  change (Z.land virt (PAGE_SIZE - 1)) with (Z.land virt (Z.ones 12)). rewrite Z.land_ones by lia. change (2 ^ 12) with PAGE_SIZE. fold first.
  assert (Em : forall m prp2, prp_entries m (T virt) prp2 len = if len <=? first then [T virt] else if len - first <=? PAGE_SIZE then [T virt; prp2]
    else T virt :: prp_list m (Z.to_nat count) prp2 0).
  { intros m prp2. unfold prp_entries. change PAGE_SIZE with 4096. by rewrite (translate_mod _ fa root virt). }
  destruct (Z.leb_spec len first) as [Hl1|Hl1].
  { exists w, fa, (Some (0, [])). split_and!; [done|done|]. apply (built_direct 0 []); [done|intros m; apply Em|]. unfold PAGE_SIZE. intros i Hi Hlt. lia. }
  destruct (Z.leb_spec (len - first) PAGE_SIZE) as [Hl2|Hl2].
  { rewrite u64_id by (unfold is_u64; lia). destruct (Z.eqb_spec (T (virt + first)) 0) as [E|E].
    - exists w, fa, None. split_and!; try done. left. exists first. lia.
    - exists w, fa, (Some (T (virt + first), [])). split_and!; [done|done|]. apply (built_direct _ [T (virt + first)]); [pose proof (translate_range _ _ _ (virt + first) Wf); unfold is_u64; lia|intros m; apply Em|].
      intros i Hi Hlt. assert (i = 0) as -> by (unfold PAGE_SIZE in *; lia). rewrite Z.mul_0_r, Z.add_0_r. done. }
  pose proof (alloc_frames_ok (Z.to_nat (prp_pages_for count)) fa fa [] (taken_nil fa Hok)) as Ha. pose proof (prp_pages_pos count).
  assert (Hc : 0 < count) by (apply count_spec; unfold PAGE_SIZE in *; lia).
  destruct (alloc_frames _ _ _) as [fa1 [frames|]] eqn:Eal.
  2: { exists w, fa1, None. split_and!; try done; try apply Ha. right. split; [lia|]. exists (Z.to_nat (prp_pages_for count)). rewrite Eal. split; [|done].
       intros H28. pose proof (count_bound Hc H28). lia. }
  destruct Ha as [Ht Hlenf]. cbn [length Nat.add] in Hlenf.
  destruct (built_list fa1 frames Hl2 Ht ltac:(lia)) as (m2 & ok & E & Ho & Hb). cbn zeta in E, Hb. fold (tbl (nth 0 frames 0)). rewrite E.
  eexists _, _, _. split; [done|]. split; [intros P HP Hw; by apply HP, HP|]. destruct ok; [done|].
  destruct (taken_free _ _ _ Ht) as [H1' H2']. split_and!; [done|done| |by left]. rewrite mm_set. intros x Hx. apply Ho.
  intros (f & Hf & Hfx). pose proof (tk_frames _ _ _ Ht) as Hfr. rewrite Forall_forall in Hfr. by apply (Hx f); [auto|apply (tk_fresh _ _ _ Ht)|].
Qed.
End Build.

(** Without a limit on transfers, a namespace with blocks of 8 KiB takes
    commands whose lists need more frames than the driver's array holds. *)
Lemma prp_frames_overflow c nsid blocks : max_transfer_bytes c = 0 -> let ns := mkNs nsid blocks 8192 in
  let bytes := chunk_limit c ns * block_size ns in prp_pages_for ((bytes - PAGE_SIZE + PAGE_SIZE - 1) / PAGE_SIZE) = 257.
Proof. intros E. unfold chunk_limit. rewrite E. reflexivity. Qed.
