(* ===== verification/NvmeQueue.v ===== *)
(** * NVMe queues

    Phases and the interrupt handler, and one command from its submission to
    its completion. *)

From Stdlib Require Import ZArith Lia Bool.
From stdpp Require Import base list gmap.
From S2P Require Import Prelude Mem Str Frames PageTable PtWalk PtOps Machine Nvme NvmePrp.

(** ** NVMe queues

    Completions carry a phase that changes each time the queue wraps; by it
    the driver knows new entries.  The interrupt handler takes exactly the
    entries the controller has posted. *)

(** ** Entries *)

(** The command a controller reads from a slot. *)
Definition read_sqe (m : mem) (a : Z) : NvmeSqe :=
  mkSqe (rd32 m a) (rd32 m (a + 4)) (rd64 m (a + 24)) (rd64 m (a + 32)) (rd32 m (a + 40)) (rd32 m (a + 44)) (rd32 m (a + 48)).

Definition is_u32 (z : Z) : Prop := 0 <= z < 2 ^ 32.
Record sqe_ok (e : NvmeSqe) : Prop := {
  so_cdw0 : is_u32 (cdw0 e); so_nsid : is_u32 (sqe_nsid e); so_dptr0 : is_u64 (dptr0 e); so_dptr1 : is_u64 (dptr1 e);
  so_cdw10 : is_u32 (cdw10 e); so_cdw11 : is_u32 (cdw11 e); so_cdw12 : is_u32 (cdw12 e)
}.

Lemma rd_wr_field m k a v : 0 <= v < 256 ^ Z.of_nat k -> rd k (wr k m a v) a = v.
Proof. intros Hv. rewrite rd_wr_same. by apply Z.mod_small. Qed.

(** A command read back is the one written. *)
Lemma read_write_sqe m a e : sqe_ok e -> read_sqe (write_sqe m a e) a = e.
Proof.
  intros [H0 H1 H2 H3 H4 H5 H6]. unfold read_sqe, write_sqe, rd32, wr32, rd64, wr64. destruct e as [e0 e1 e2 e3 e4 e5 e6]; cbn [cdw0 sqe_nsid dptr0 dptr1 cdw10 cdw11 cdw12] in *.
  f_equal; repeat first [ rewrite rd_wr_field by assumption; reflexivity | rewrite rd_wr_disj by lia ].
Qed.

Lemma write_sqe_other m a e x : ~ a <= x < a + 64 -> rd8 (write_sqe m a e) x = rd8 m x.
Proof.
  intros Hx. unfold write_sqe, wr32, wr64. cbn zeta.
  repeat (rewrite rd8_wr; match goal with |- context [if (?p <=? x) && (x <? ?r) then _ else _] =>
    destruct (Z.leb_spec p x), (Z.ltb_spec x r); cbn [andb]; try lia end); done.
Qed.

(** ** Phases *)

(** The phase of completion number [n] (from 0) in a queue of [N] entries. *)
Definition phase (N n : Z) : Z := 1 - (n / N) mod 2.

Lemma phase_flip N n : 0 < N -> phase N (n - N) <> phase N n.
Proof.
  intros HN. unfold phase. replace (n - N) with (n + (-1) * N) by lia. rewrite Z.div_add by lia. divlia.
Qed.

Record head_at (q : NvmeQueue) (n : Z) : Prop := {
  ha_head : cq_head q = n mod q_size q;
  ha_phase : cq_phase q = phase (q_size q) n
}.

(** The same rings: everything but the positions and the contexts. *)
Definition ring (q : NvmeQueue) : NvmeQueue := mkQueue (sq q) (sq_phys q) (cq q) (cq_phys q) (sq_doorbell q) (cq_doorbell q) (q_size q) 0 0 0 None.

Lemma succ_mod n N : 0 < N -> (n mod N + 1) mod N = (n + 1) mod N.
Proof. intros HN. by rewrite Z.add_mod_idemp_l by lia. Qed.

Lemma next_head_at q n : 0 < q_size q -> head_at q n -> head_at (next_head q) (n + 1).
Proof.
  intros HN [Hh Hp]. unfold next_head. rewrite Hh, Hp. constructor; cbn [cq_head cq_phase set_head q_size]; [by apply succ_mod|].
  rewrite succ_mod by done. set (N := q_size q) in *. unfold phase.
  assert (Hd : (n + 1) / N = if (n + 1) mod N =? 0 then n / N + 1 else n / N).
  { pose proof (Z.div_mod n N ltac:(lia)). pose proof (Z.mod_pos_bound n N HN). pose proof (succ_mod n N HN) as Es.
    destruct (Z.eq_dec (n mod N + 1) N) as [E|E].
    - rewrite E, Z.mod_same in Es by lia. rewrite <- Es. cbn. symmetry. apply (Z.div_unique _ _ _ 0); lia.
    - rewrite Z.mod_small in Es by lia. rewrite <- Es. destruct (Z.eqb_spec (n mod N + 1) 0); [lia|]. symmetry. apply (Z.div_unique _ _ _ (n mod N + 1)); lia. }
  rewrite Hd. destruct ((n + 1) mod N =? 0); [|done].
  assert (Hc : n / N mod 2 = 0 \/ n / N mod 2 = 1) by divlia. rewrite Z.add_mod by lia. destruct Hc as [-> | ->]; done.
Qed.

(** The slots of the completion queue when [P] completions were posted: each
    has the phase of the last one posted there (slots are clear at first). *)
Definition posted (m : mem) (q : NvmeQueue) (P : Z) : Prop :=
  forall j, P - q_size q <= j < P -> Z.land (rd16 m (cq q + 16 * (j mod q_size q) + 14)) 1 = phase (q_size q) j.

(** The entry at the head is new exactly when it was posted. *)
Lemma head_new m q C P : 0 < q_size q -> head_at q C -> posted m q P -> C <= P <= C + q_size q ->
  (Z.land (rd16 m (cq q + 16 * cq_head q + 14)) 1 =? cq_phase q) = (C <? P).
Proof.
  intros HN [Hh Hp] Hs HC. rewrite Hh, Hp. destruct (Z.ltb_spec C P) as [Hlt|Hge].
  - rewrite Hs by lia. apply Z.eqb_refl.
  - assert (C = P) as <- by lia. replace (C mod q_size q) with ((C - q_size q) mod q_size q).
    + rewrite Hs by lia. apply Z.eqb_neq. by apply phase_flip.
    + replace (C - q_size q) with (C + (-1) * q_size q) by lia. apply Z.mod_add. lia.
Qed.

(** Completion number [i] posted in the queue. *)
Definition cqe_at (m : mem) (q : NvmeQueue) (i : Z) : NvmeCqe := read_cqe m (cq q + 16 * (i mod q_size q)).

(** What the handler does with one entry. *)
Definition complete (q : NvmeQueue) (e : NvmeCqe) : NvmeQueue :=
  if command_id e <? q_size q then set_context q (command_id e) (mkCtx 1 (Z.shiftr (status e) 1) e) else q.

Lemma complete_ring q e : ring (complete q e) = ring q.
Proof. unfold complete. by destruct (_ <? _). Qed.
Lemma next_head_ring q : ring (next_head q) = ring q.
Proof. done. Qed.
Lemma ring_eq q q' : ring q' = ring q -> q_size q' = q_size q /\ cq q' = cq q /\ sq q' = sq q /\ cq_doorbell q' = cq_doorbell q /\ sq_doorbell q' = sq_doorbell q.
Proof. unfold ring. intros [= E1 E2 E3 E4 E5 E6 E7]. done. Qed.

Lemma complete_head q e n : head_at q n -> head_at (complete q e) n.
Proof. intros [Hh Hp]. unfold complete. destruct (_ <? _); by constructor. Qed.

Lemma complete_all_ext l : forall a b, contexts a = contexts b -> q_size a = q_size b -> contexts (foldl complete a l) = contexts (foldl complete b l).
Proof.
  induction l as [|x l IHl]; intros a b Ha Hb; [done|]. cbn [foldl]. unfold complete at 2 4. rewrite Hb. destruct (command_id x <? q_size b); apply IHl; try done.
  unfold set_context, set_contexts. cbn [contexts]. by rewrite Ha.
Qed.

Lemma complete_all_ring l : forall q, ring (foldl complete q l) = ring q.
Proof. induction l as [|e l IH]; intros q; [done|]. cbn [foldl]. by rewrite IH, complete_ring. Qed.

(** After some completions the context of a command is that of its last one. *)
Lemma complete_all_context l q cs cid : contexts q = Some cs -> Z.of_nat (length cs) = q_size q -> 0 <= cid < q_size q ->
  Forall (fun e => 0 <= command_id e) l ->
  get_context (foldl complete q l) cid =
    match last (filter (fun e => command_id e = cid) l) with
    | Some e => mkCtx 1 (Z.shiftr (status e) 1) e
    | None => get_context q cid
    end /\
  exists cs', contexts (foldl complete q l) = Some cs' /\ length cs' = length cs.
Proof.
  intros Hcs Hl Hcid. induction l as [|e l IH] using rev_ind; [intros _; cbn; eauto|]. intros [Hf He]%Forall_app. apply Forall_cons in He as [He _].
  destruct (IH Hf) as [E (cs' & Ec & El)]. rewrite foldl_snoc, filter_app. set (q' := foldl complete q l) in *.
  destruct (ring_eq q q' (complete_all_ring l q)) as (Es & _). unfold complete. rewrite Es. destruct (Z.ltb_spec (command_id e) (q_size q)) as [Hlt|Hge].
  - split; [|unfold set_context, set_contexts; cbn [contexts]; rewrite Ec; cbn; eexists; split; [done|]; by rewrite length_insert].
    assert (Eq : forall c, get_context (set_context q' (command_id e) c) cid = nth (Z.to_nat cid) (<[Z.to_nat (command_id e) := c]> cs') ctx0).
    { intros c. unfold get_context, set_context, set_contexts. cbn [contexts]. by rewrite Ec. }
    rewrite Eq. destruct (decide (command_id e = cid)) as [<-|Hne].
    + rewrite filter_cons_True, filter_nil, last_snoc by done. erewrite nth_lookup_Some; [done|]. apply list_lookup_insert_eq. lia.
    + rewrite filter_cons_False, filter_nil, app_nil_r by done. rewrite <- E. unfold get_context at 1. rewrite Ec. cbn [default].
      rewrite !nth_lookup, list_lookup_insert_ne by lia. done.
  - split; [|eauto]. rewrite filter_cons_False, filter_nil, app_nil_r by lia. done.
Qed.

(** The handler takes exactly the posted entries, in order. *)
Lemma drain_ok fuel : forall m q k C P, 0 < q_size q -> head_at q C -> posted m q P -> C <= P <= C + q_size q -> P - C < Z.of_nat fuel ->
  exists q', drain fuel m q k = Some (q', if C <? P then u16 (k + (P - C)) else k) /\ head_at q' P /\ ring q' = ring q /\ sq_tail q' = sq_tail q /\
    contexts q' = contexts (foldl complete q (cqe_at m q <$> seqZ C (P - C))).
Proof.
  induction fuel as [|fuel IH]; intros m q k C P HN Hh Hs HC Hf; [lia|]. cbn [drain]. rewrite (head_new m q C P) by done.
  destruct (Z.ltb_spec C P) as [Hlt|Hge].
  - rewrite (ha_head _ _ Hh). fold (cqe_at m q C). set (e := cqe_at m q C). change (if command_id e <? q_size q then _ else q) with (complete q e).
    set (q1 := next_head (complete q e)). assert (Hr : ring q1 = ring q) by apply complete_ring. destruct (ring_eq q q1 Hr) as (E1 & E2 & _).
    destruct (IH m q1 (u16 (k + 1)) (C + 1) P) as (q' & E & Hh' & Hr' & Ht' & Hc').
    + by rewrite E1.
    + apply next_head_at; [|by apply complete_head]. destruct (ring_eq q (complete q e) (complete_ring _ _)) as (-> & _). done.
    + unfold posted. rewrite E1, E2. exact Hs.
    + rewrite E1. lia.
    + lia.
    + exists q'. split_and!; [|done|congruence| |].
      * rewrite E. do 2 f_equal. destruct (Z.ltb_spec (C + 1) P).
        -- unfold u16. rewrite Z.add_mod_idemp_l by lia. f_equal. lia.
        -- f_equal. lia.
      * rewrite Ht'. unfold q1, complete. by destruct (command_id e <? q_size q).
      * rewrite Hc'. rewrite (seqZ_cons C) by lia. cbn [fmap list_fmap foldl]. fold e.
        replace (Z.succ C) with (C + 1) by lia. replace (Z.pred (P - C)) with (P - (C + 1)) by lia.
        replace (cqe_at m q1) with (cqe_at m q) by (unfold cqe_at; by rewrite E1, E2). by apply complete_all_ext.
  - exists q. assert (C = P) as <- by lia. split_and!; try done. by rewrite Z.sub_diag.
Qed.

(** ** Submitting a command to an NVMe controller

    What a controller does with a command, as laws of the machine; waiting,
    with and without interrupts; and the theorem that a command the driver
    reports as done has been executed. *)

(** ** The clock *)
Section Clock.
Context {W : Type} `{Machine W} `{!MachineLaws W}.

(** A counter that runs on while time passes, [k] ticks to a millisecond;
    register accesses take no time. *)
Record hpet_clock (k : Z) (ticks : W -> Z) : Prop := {
  hc_pos : 0 < k;
  hc_millis : forall w, millis w = ticks w / k;
  hc_step : forall w, ticks w + 1 <= ticks (elapse w) <= ticks w + k * 2 ^ 32;
  hc_rd : forall w n a, ticks (io_rd w n a).1 = ticks w;
  hc_wr : forall w n a v, ticks (io_wr w n a v) = ticks w
}.

Context (k : Z) (ticks : W -> Z) (C : hpet_clock k ticks).

Lemma clock_step w : millis w <= millis (elapse w) <= millis w + 2 ^ 32.
Proof.
  pose proof (hc_pos _ _ C). pose proof (hc_step _ _ C w). rewrite !(hc_millis _ _ C). split; [apply Z.div_le_mono; lia|].
  rewrite <- Z.div_add by lia. apply Z.div_le_mono; lia.
Qed.

Lemma clock_rd w n a : millis (io_rd w n a).1 = millis w.
Proof. by rewrite !(hc_millis _ _ C), (hc_rd _ _ C). Qed.

(** The test for a time-out, as long as the clock has not run away. *)
Lemma late_iff s w t : 0 <= t < 2 ^ 32 -> s <= millis w <= s + t + 2 ^ 34 -> (t <=? u64 (u64 (millis w) - u64 s)) = (s + t <=? millis w).
Proof.
  intros Ht Hm. assert (E : u64 (u64 (millis w) - u64 s) = millis w - s).
  { unfold u64. rewrite <- Zminus_mod. apply Z.mod_small. lia. }
  rewrite E. apply eq_true_iff_eq. rewrite !Z.leb_le. lia.
Qed.

Lemma not_late s w t : millis w < s + t -> ticks w < k * (s + t).
Proof. pose proof (hc_pos _ _ C). rewrite (hc_millis _ _ C). intros Hm. pose proof (Z.div_mod (ticks w) k ltac:(lia)). pose proof (Z.mod_pos_bound (ticks w) k ltac:(lia)). nia. Qed.
End Clock.

(** ** The controller *)
Section Device.
Context {W : Type} `{Machine W} `{!MachineLaws W}.
(** The rings; per namespace the size of a block and the bytes on the medium. *)
Context (q : NvmeQueue) (bs : Z -> Z) (disk : Z -> Z -> Z).
Abbreviation N := (q_size q).

Definition sq_slot (n : Z) : Z := sq q + 64 * (n mod N).
Definition cq_slot (n : Z) : Z := cq q + 16 * (n mod N).

Definition xfer_len (cmd : NvmeSqe) : Z := (Z.land (cdw12 cmd) 0xFFFF + 1) * bs (sqe_nsid cmd).
Definition xfer_addr (m : mem) (cmd : NvmeSqe) (o : Z) : Z := tbl (prp_addr (prp_entries m (dptr0 cmd) (dptr1 cmd) (xfer_len cmd)) o).

(** Command number [n] is executed with memory [m] before and [m'] after: a
    completion with its phase and its id is posted; a read that succeeds has
    put the bytes of its blocks where its pointers lead; nothing else is
    written. *)
Record executes (m m' : mem) (n : Z) (cmd : NvmeSqe) (st : Z) : Prop := {
  ex_status : rd16 m' (cq_slot n + 14) = st;
  ex_phase : Z.land st 1 = phase N n;
  ex_id : rd16 m' (cq_slot n + 12) = Z.shiftr (cdw0 cmd) 16;
  ex_data : Z.shiftr st 1 = 0 -> Z.land (cdw0 cmd) 0xFF = NVME_NVM_OP_READ -> forall o, 0 <= o < xfer_len cmd ->
    (forall o', 0 <= o' < xfer_len cmd -> xfer_addr m cmd o' = xfer_addr m cmd o -> o' = o) ->
    ~ cq_slot n <= xfer_addr m cmd o < cq_slot n + 16 ->
    rd8 m' (xfer_addr m cmd o) = disk (sqe_nsid cmd) ((cdw10 cmd + 2 ^ 32 * cdw11 cmd) * bs (sqe_nsid cmd) + o);
  ex_other : forall x, (forall o, 0 <= o < xfer_len cmd -> x <> xfer_addr m cmd o) -> ~ cq_slot n <= x < cq_slot n + 16 -> rd8 m' x = rd8 m x
}.

(** [D w n p]: the controller has executed [n] commands, and [p] says whether
    there is another one in the queue.  It finds it there at the doorbell and
    executes it at some time; otherwise it leaves memory alone. *)
Record nvme_device (D : W -> Z -> bool -> Prop) : Prop := {
  nd_set : forall w m n p, D w n p -> D (set_mm w m) n p;
  nd_read : forall w k a n p, D w n p -> D (io_rd w k a).1 n p;
  nd_head : forall w v n p, D w n p -> D (io_wr w 4 (cq_doorbell q) v) n p;
  nd_tail : forall w n, D w n false -> D (io_wr w 4 (sq_doorbell q) ((n + 1) mod N)) n true;
  nd_idle : forall w n, D w n false -> mm (elapse w) = mm w /\ D (elapse w) n false;
  nd_busy : forall w n, D w n true -> (mm (elapse w) = mm w /\ D (elapse w) n true) \/
    exists st, executes (mm w) (mm (elapse w)) n (read_sqe (mm w) (sq_slot n)) st /\ D (elapse w) (n + 1) false
}.

Record rings_placed : Prop := {
  rp_size : 0 < N <= 2 ^ 16;
  rp_apart : sq q + 64 * N <= cq q \/ cq q + 16 * N <= sq q;
  rp_cq : 0 < cq q
}.

Context (D : W -> Z -> bool -> Prop) (Dev : nvme_device D) (Pl : rings_placed).

(** The driver and the controller between two commands: [n] were done. *)
Record ready (w : W) (c : NvmeController) (n : Z) : Prop := {
  rd_ring : ring (io_queue c) = ring q;
  rd_head : head_at (io_queue c) n;
  rd_tail : sq_tail (io_queue c) = n mod N;
  rd_posted : posted (mm w) q n;
  rd_dev : D w n false;
  rd_ctx : match contexts (io_queue c) with Some cs => Z.of_nat (length cs) = N | None => True end
}.

Lemma slot_range n : 0 <= n mod N < N.
Proof. apply Z.mod_pos_bound. pose proof (rp_size Pl). lia. Qed.

Lemma posted_ring m q1 q2 n : ring q1 = ring q2 -> posted m q2 n -> posted m q1 n.
Proof. intros (E1 & E2 & _)%ring_eq Hp. unfold posted. by rewrite E1, E2. Qed.

(** ** One command under way *)
Section Command.
Context (n : Z) (m1 : mem) (cmd : NvmeSqe).
Context (Hcmd : read_sqe m1 (sq_slot n) = cmd) (Hpost : posted m1 q n).
(** The data does not go into the completion queue. *)
Context (Hx : forall o, 0 <= o < xfer_len cmd -> ~ cq q <= xfer_addr m1 cmd o < cq q + 16 * N).

Definition waiting (w : W) : Prop := mm w = m1 /\ D w n true.
(** Done without an error. *)
Definition succeeded (w : W) : Prop := exists st, executes m1 (mm w) n cmd st /\ Z.shiftr st 1 = 0.
Definition executed (w : W) : Prop := (exists st, executes m1 (mm w) n cmd st) /\ D w (n + 1) false.

Lemma progress_elapse w : waiting w \/ executed w -> waiting (elapse w) \/ executed (elapse w).
Proof.
  intros [[Hm HD]|[He HD]].
  - destruct (nd_busy _ Dev w n HD) as [[E HD']|(st & E & HD')].
    + left. split; [congruence|done].
    + right. rewrite Hm in E. rewrite Hcmd in E. split; [by exists st|done].
  - right. destruct (nd_idle _ Dev w _ HD) as [E HD']. split; [by rewrite E|done].
Qed.

Lemma progress_read w k a : waiting w \/ executed w -> waiting (io_rd w k a).1 \/ executed (io_rd w k a).1.
Proof.
  intros [[Hm HD]|[He HD]]; [left|right]; (split; [|by apply (nd_read _ Dev)]); by rewrite mm_io_rd.
Qed.

(** The completion is posted, and the older ones are still there. *)
Lemma executes_posted m' st : executes m1 m' n cmd st -> posted m' q (n + 1).
Proof.
  intros E j Hj. pose proof (rp_size Pl) as HN. pose proof (slot_range j) as Hsj. pose proof (slot_range n) as Hsn.
  destruct (Z.eq_dec j n) as [->|Hne]; [pose proof (ex_status _ _ _ _ _ E) as Es; unfold cq_slot in Es; rewrite Es; apply (ex_phase _ _ _ _ _ E)|].
  assert (Hmod : j mod N <> n mod N).
  { intros Em. assert (Hd : (n - j) mod N = 0) by (rewrite Zminus_mod, Em, Z.sub_diag; apply Z.mod_0_l; lia). rewrite Z.mod_small in Hd by lia. lia. }
  rewrite <- (Hpost j) by lia. f_equal. apply rd_ext. intros x Hxx. apply (ex_other _ _ _ _ _ E).
  - intros o Ho ->. apply (Hx o Ho). lia.
  - unfold cq_slot. lia.
Qed.

(** Once it is executed, it is not waiting, and memory stays. *)
Lemma executes_differ st : ~ executes m1 m1 n cmd st.
Proof.
  intros Ex. pose proof (rp_size Pl) as HN. pose proof (executes_posted _ _ Ex n ltac:(lia)) as H1'. pose proof (Hpost (n - N) ltac:(lia)) as H2'.
  apply (phase_flip N n); [lia|]. rewrite <- H1', <- H2'. do 4 f_equal. replace (n - N) with (n + (-1) * N) by lia. by rewrite Z.mod_add by lia.
Qed.

Lemma executed_stays w : executed w -> mm (elapse w) = mm w /\ ~ waiting (elapse w).
Proof.
  intros [[st Ex] HD]. destruct (nd_idle _ Dev w _ HD) as [E _]. split; [done|]. intros [Em _]. apply (executes_differ st). congruence.
Qed.

Lemma progress_new w q1 : ring q1 = ring q -> head_at q1 n -> waiting w \/ executed w ->
  if Z.land (rd16 (mm w) (cq q1 + 16 * cq_head q1 + 14)) 1 =? cq_phase q1 then executed w else waiting w.
Proof.
  intros Hr Hh Hp. destruct (ring_eq q q1 Hr) as (E1 & E2 & _). pose proof (rp_size Pl) as HN. destruct Hp as [Hw|Hw].
  - rewrite (head_new _ _ n n), Z.ltb_irrefl; [done|lia|done| |lia]. apply (posted_ring _ _ q); [done|]. by destruct Hw as [-> _].
  - destruct Hw as [[st E] HD]. rewrite (head_new _ _ n (n + 1)); [|lia|done| |lia].
    + destruct (Z.ltb_spec n (n + 1)); [|lia]. split; [by exists st|done].
    + apply (posted_ring _ _ q); [done|]. by apply (executes_posted _ st).
Qed.

(** *** Waiting *)
Context (k : Z) (ticks : W -> Z) (Ck : hpet_clock k ticks).
Context (ctrl : NvmeController) (s : Z) (Ht : 0 <= timeout_ms ctrl < 2 ^ 32).
Abbreviation t := (timeout_ms ctrl).

(** The clock before a turn of a waiting loop, with fuel for more turns. *)
Definition in_time (fuel : nat) (w : W) : Prop := s <= millis w < s + t /\ k * (s + t) <= ticks w + Z.of_nat fuel.

Lemma in_time_fuel w : ~ in_time 0 w.
Proof. intros [Hm Hf]. pose proof (not_late k ticks Ck s w t ltac:(lia)). lia. Qed.

(** A turn: time passes, registers are read, and time passes again. *)
Lemma in_time_turn fuel w w1 : in_time (S fuel) w -> ticks w1 = ticks (elapse w) ->
  (t <=? u64 (u64 (millis (elapse w1)) - u64 s)) = (s + t <=? millis (elapse w1)) /\
  (millis (elapse w1) < s + t -> in_time fuel (elapse w1)).
Proof.
  intros [Hm Hf] E. pose proof (clock_step k ticks Ck w) as C1. pose proof (clock_step k ticks Ck w1) as C2.
  assert (E1 : millis w1 = millis (elapse w)) by (rewrite !(hc_millis _ _ Ck); by rewrite E).
  pose proof (hc_step _ _ Ck w) as T1. pose proof (hc_step _ _ Ck w1) as T2. split; [apply late_iff; lia|]. intros Hlt. split; lia.
Qed.

Lemma wait_phase_ok q1 fuel : ring q1 = ring q -> head_at q1 n -> forall w, waiting w \/ executed w -> in_time fuel w ->
  exists w' b, wait_phase fuel w ctrl q1 (u64 s) = Some (w', b) /\ (b = true -> executed w') /\ (executed w -> b = true /\ mm w' = mm w).
Proof.
  intros Hr Hh. induction fuel as [|fuel IH]; intros w Hp Hin; [by apply in_time_fuel in Hin|]. cbn [wait_phase]. unfold shared_rd.
  pose proof (progress_elapse w Hp) as Hp1. pose proof (progress_new (elapse w) q1 Hr Hh Hp1) as Hnew.
  change (rd 2) with rd16. assert (Hnow : executed w -> mm (elapse w) = mm w /\ ~ waiting (elapse w)) by apply executed_stays.
  destruct (_ =? cq_phase q1); [exists (elapse w), true; split_and!; [done|done|]; intros Hx'; split; [done|by apply Hnow]|].
  assert (Hnot : ~ executed w) by (intros Hx'; by apply (Hnow Hx')).
  pose proof (progress_read (elapse w) 4 (reg_csts (regs ctrl)) Hp1) as Hp2. pose proof (hc_rd _ _ Ck (elapse w) 4 (reg_csts (regs ctrl))) as Hck.
  destruct (io_rd (elapse w) 4 _) as [w2 csts]. cbn [fst] in *. destruct (has csts NVME_CSTS_CFS); [by eexists _, false|].
  unfold hpet_get_millis. cbv zeta iota beta. destruct (in_time_turn fuel w w2 Hin Hck) as [El Hin2]. rewrite El. destruct (Z.leb_spec (s + t) (millis (elapse w2))); [by eexists _, false|].
  destruct (IH (elapse w2)) as (w' & b & E & Hb & _); [by apply progress_elapse|auto|]. exists w', b. done.
Qed.

(** *** With interrupts *)
Context (irq : W -> bool) (Hio : use_msix ctrl <> 0) (Hid : Z.shiftr (cdw0 cmd) 16 = n mod N).

(** The queue once the handler has seen the completion. *)
Record drained (w : W) (q1 q2 : NvmeQueue) : Prop := {
  dr_ring : ring q2 = ring q;
  dr_head : head_at q2 (n + 1);
  dr_tail : sq_tail q2 = sq_tail q1;
  dr_ctx : exists cs, contexts q2 = Some cs /\ Z.of_nat (length cs) = N;
  dr_status : get_context q2 (n mod N) = mkCtx 1 (Z.shiftr (rd16 (mm w) (cq_slot n + 14)) 1) (cqe_at (mm w) q n)
}.

Lemma irq_ok w q1 cs : ring q1 = ring q -> head_at q1 n -> contexts q1 = Some cs -> Z.of_nat (length cs) = N ->
  waiting w \/ executed w -> exists w' q2, irq_controller (Z.to_nat (q_size q1) + 1) w (set_io ctrl q1) = Some (w', set_io ctrl q2) /\ ticks w' = ticks w /\ mm w' = mm w /\
    ((waiting w' /\ q2 = q1) \/ (executed w' /\ drained w' q1 q2)).
Proof.
  intros Hr Hh Hcs Hl Hp. destruct (ring_eq q q1 Hr) as (E1 & E2 & _ & E4 & _). pose proof (rp_size Pl) as HN. pose proof (rp_cq Pl) as Hcq.
  unfold irq_controller. cbn [use_msix io_queue set_io cq]. destruct (Z.eqb_spec (use_msix ctrl) 0); [done|]. rewrite Hcs. rewrite E2. destruct (Z.eqb_spec (cq q) 0); [lia|]. cbn [orb].
  destruct Hp as [Hw|Hw].
  - assert (E' : drain (Z.to_nat (q_size q1) + 1) (mm w) q1 0 = Some (q1, 0)).
    { replace (Z.to_nat (q_size q1) + 1)%nat with (S (Z.to_nat (q_size q1))) by lia. cbn [drain]. rewrite (head_new _ _ n n), Z.ltb_irrefl; [done|lia|done| |lia].
      apply (posted_ring _ _ q); [done|]. by destruct Hw as [-> _]. }
    rewrite E'. exists w, q1. split_and!; [done|done|done|by left].
  - destruct Hw as [[st Ex] HD].
    destruct (drain_ok (Z.to_nat (q_size q1) + 1) (mm w) q1 0 n (n + 1)) as (q2 & E & Hh2 & Hr2 & Ht2 & Hc2); [lia|done| |lia|lia|].
    { apply (posted_ring _ _ q); [done|]. by apply (executes_posted _ st). }
    rewrite E. destruct (Z.ltb_spec n (n + 1)); [|lia]. replace (0 + (n + 1 - n)) with 1 by lia. change (0 <? u16 1) with true.
    replace (n + 1 - n) with 1 in Hc2 by lia. change (seqZ n 1) with [n] in Hc2.
    assert (Ee : cqe_at (mm w) q1 n = cqe_at (mm w) q n) by (unfold cqe_at; by rewrite E1, E2).
    cbn [fmap list_fmap foldl] in Hc2. rewrite Ee in Hc2.
    eexists _, q2. split; [done|]. destruct (ring_eq q q2 ltac:(congruence)) as (_ & _ & _ & E6 & _). rewrite E6. split; [apply (hc_wr _ _ Ck)|]. split; [apply mm_io_wr|].
    right. split; [split; [rewrite mm_io_wr; eauto|by apply (nd_head _ Dev)]|].
    assert (Hcid : command_id (cqe_at (mm w) q n) = n mod N) by (rewrite <- Hid; apply (ex_id _ _ _ _ _ Ex)).
    pose proof (slot_range n) as Hsn.
    destruct (complete_all_context [cqe_at (mm w) q n] q1 cs (n mod N) Hcs) as [Hg (cs' & Hcs' & Hl')]; [lia|lia|constructor; [lia|done]|].
    cbn [foldl] in Hg, Hcs'. constructor; [congruence|done|done|exists cs'; split; [congruence|lia]|].
    unfold get_context in Hg |- *. rewrite Hc2, mm_io_wr, Hg. rewrite filter_cons_True by done. done.
Qed.

Lemma wait_done_ok q1 cs fuel : ring q1 = ring q -> head_at q1 n -> contexts q1 = Some cs -> Z.of_nat (length cs) = N ->
  Nvme.done (get_context q1 (n mod N)) = 0 -> forall w, waiting w \/ executed w -> in_time fuel w ->
  exists w' q2 b, wait_done irq fuel w (set_io ctrl q1) (n mod N) (u64 s) = Some (w', set_io ctrl q2, b) /\
    (b = true -> executed w' /\ drained w' q1 q2) /\ (executed w -> (forall w, irq w = true) -> b = true /\ mm w' = mm w).
Proof.
  intros Hr Hh Hcs Hl Hd. induction fuel as [|fuel IH]; intros w Hp Hin; [by apply in_time_fuel in Hin|]. cbn [wait_done]. cbn zeta.
  pose proof (progress_elapse w Hp) as Hp1. cbn [io_queue set_io].
  assert (Hirq : exists w1 q2, (if irq (elapse w) then irq_controller (Z.to_nat (q_size q1) + 1) (elapse w) (set_io ctrl q1) else Some (elapse w, set_io ctrl q1))
     = Some (w1, set_io ctrl q2) /\ ticks w1 = ticks (elapse w) /\ mm w1 = mm (elapse w) /\
    (((waiting w1 \/ executed w1) /\ q2 = q1 /\ (executed w -> irq (elapse w) = false)) \/ (executed w1 /\ drained w1 q1 q2))).
  { destruct (irq (elapse w)) eqn:Eirq.
    - destruct (irq_ok (elapse w) q1 cs Hr Hh Hcs Hl Hp1) as (w1 & q2 & E & Et & Em & [[Hw ->]|Hw]); [|exists w1; eauto 10]. exists w1, q1. split_and!; try done.
      left. split_and!; [by left|done|]. intros Hx'. exfalso. destruct (executed_stays w Hx') as [Es Hns].
      destruct Hw as [Hm HD]. destruct Hx' as [[st Ex] _]. apply (executes_differ st). assert (Ew : mm w = m1) by congruence. by rewrite Ew in Ex.
    - exists (elapse w), q1. eauto 10. }
  destruct Hirq as (w1 & q2 & -> & Et & Em & Hq). cbn [io_queue set_io].
  destruct Hq as [(Hp2 & -> & Hni)|[He Hdr]].
  - assert (Hnot : executed w -> ~ forall w, irq w = true) by (intros Hx' Hall; specialize (Hni Hx'); by rewrite Hall in Hni). rewrite Hd. cbn [negb Z.eqb]. change (regs (set_io ctrl q1)) with (regs ctrl). change (timeout_ms (set_io ctrl q1)) with t.
    pose proof (progress_read w1 4 (reg_csts (regs ctrl)) Hp2) as Hp3. pose proof (hc_rd _ _ Ck w1 4 (reg_csts (regs ctrl))) as Hck.
    destruct (io_rd w1 4 _) as [w2 csts]. cbn [fst] in *. destruct (has csts NVME_CSTS_CFS); [by eexists _, _, false; split_and!; [| |intros H1' H2'; by destruct (Hnot H1')]|].
    unfold hpet_get_millis. cbv zeta iota beta. destruct (in_time_turn fuel w w2 Hin ltac:(congruence)) as [El Hin2]. rewrite El.
    destruct (Z.leb_spec (s + t) (millis (elapse w2))); [by eexists _, _, false; split_and!; [| |intros H1' H2'; by destruct (Hnot H1')]|].
    destruct (IH (elapse w2)) as (w' & q2 & b & E & Hb & _); [by apply progress_elapse|auto|]. exists w', q2, b. split_and!; [done|done|]. intros H1' H2'. by destruct (Hnot H1').
  - rewrite (dr_status _ _ _ Hdr). cbn [Nvme.done negb Z.eqb]. eexists _, _, true. split_and!; [done|done|]. intros Hx' _. split; [done|]. rewrite Em. by apply executed_stays.
Qed.
End Command.

(** ** Submitting *)
Section Submit.
Context (k : Z) (ticks : W -> Z) (Ck : hpet_clock k ticks) (irq : W -> bool).

(** The command as it is written into the queue. *)
Definition tagged (cmd : NvmeSqe) (n : Z) : NvmeSqe := set_cdw0 cmd (Z.lor (Z.land (cdw0 cmd) 0xFFFF) (Z.shiftl (n mod N) 16)).

Lemma tag_cdw0 a b : 0 <= a < 2 ^ 16 -> 0 <= b < 2 ^ 16 -> Z.lor (Z.land a 0xFFFF) (Z.shiftl b 16) = a + b * 2 ^ 16.
Proof.
  intros Ha Hb. change 0xFFFF with (Z.ones 16). rewrite Z.land_ones, (Z.mod_small a), Z.shiftl_mul_pow2 by lia.
  rewrite Z.lor_comm. replace (Z.lor (b * 2 ^ 16) a) with (b * 2 ^ 16 + a); [lia|]. rewrite <- Z.add_lor_land.
  replace (Z.land (b * 2 ^ 16) a) with 0; [lia|]. symmetry. apply Z.bits_inj'. intros i Hi. rewrite Z.land_spec, Z.testbit_0_l. destruct (Z.ltb_spec i 16).
  - by rewrite Z.mul_pow2_bits_low by lia.
  - rewrite (testbit_above a i 16) by lia. apply andb_false_r.
Qed.

Lemma tagged_ok cmd n : sqe_ok cmd -> cdw0 cmd < 2 ^ 16 -> sqe_ok (tagged cmd n) /\ Z.shiftr (cdw0 (tagged cmd n)) 16 = n mod N /\
  Z.land (cdw0 (tagged cmd n)) 0xFF = Z.land (cdw0 cmd) 0xFF.
Proof.
  intros [H0 H1 H2 H3 H4 H5 H6] Hc. pose proof (slot_range n) as Hn. pose proof (rp_size Pl) as HN. unfold is_u32 in H0.
  unfold tagged. cbn [cdw0 set_cdw0]. rewrite tag_cdw0 by lia. split_and!.
  - constructor; cbn [cdw0 set_cdw0 sqe_nsid dptr0 dptr1 cdw10 cdw11 cdw12]; try done. unfold is_u32. lia.
  - rewrite Z.shiftr_div_pow2, Z.div_add by lia. rewrite Z.div_small; lia.
  - change 0xFF with (Z.ones 8). rewrite !Z.land_ones by lia. replace (n mod N * 2 ^ 16) with (n mod N * 2 ^ 8 * 2 ^ 8) by lia. apply Z.mod_add. lia.
Qed.

Lemma nth_context q1 cs cid : contexts q1 = Some cs -> 0 <= cid < Z.of_nat (length cs) -> forall x,
  get_context (set_context q1 cid x) cid = x.
Proof.
  intros Hcs Hc x. unfold get_context, set_context, set_contexts. cbn [contexts]. rewrite Hcs. cbn [fmap option_fmap option_map default].
  apply nth_lookup_Some, list_lookup_insert_eq. lia.
Qed.

(** A controller that executes at once and without errors, with interrupts
    delivered at once where they are used. *)
Definition prompt (c : NvmeController) : Prop :=
  (forall w n, D w n true -> D (elapse w) (n + 1) false /\
    exists st, executes (mm w) (mm (elapse w)) n (read_sqe (mm w) (sq_slot n)) st /\ Z.shiftr st 1 = 0) /\
  (use_msix c = 0 \/ forall w, irq w = true).

(** Submitting a command between two others: it returns; when it reports
    success the controller has executed the command and both are ready for
    the next one. *)
Lemma io_submit_ok w c n cmd fuel : ready w c n -> sqe_ok cmd -> cdw0 cmd < 2 ^ 16 -> 0 < timeout_ms c < 2 ^ 32 -> k * timeout_ms c <= Z.of_nat fuel ->
  let m1 := write_sqe (mm w) (sq_slot n) (tagged cmd n) in
  (forall o, 0 <= o < xfer_len (tagged cmd n) -> ~ cq q <= xfer_addr m1 (tagged cmd n) o < cq q + 16 * N) ->
  exists w' q' r, nvme_submit_io_cmd irq fuel w c cmd = Some (w', set_io c q', r) /\ (r = 0 \/ r = -1) /\
    (r = 0 -> ready w' (set_io c q') (n + 1) /\ exists st, executes m1 (mm w') n (tagged cmd n) st /\ Z.shiftr st 1 = 0) /\
    (prompt c -> r = 0).
Proof.
  intros [Hr Hh Ht Hp HD Hc] Hok Hc0 Htm Hf m1 Hx. destruct (tagged_ok cmd n Hok Hc0) as (Htok & Hid & _). pose proof (rp_size Pl) as HN. pose proof (slot_range n) as Hsn.
  set (io := io_queue c) in *. destruct (ring_eq q io Hr) as (E1 & E2 & E3 & E4 & E5).
  assert (Hcmd : read_sqe m1 (sq_slot n) = tagged cmd n) by (by apply read_write_sqe).
  assert (Hp1 : posted m1 q n).
  { intros j Hj. rewrite <- (Hp j Hj). f_equal. apply rd_ext. intros x Hxx. apply write_sqe_other. pose proof (slot_range j). pose proof (rp_apart Pl). unfold sq_slot. lia. }
  (* the entry and the doorbell *)
  set (io0 := match contexts io with None => io | Some _ => set_context io (sq_tail io) (mkCtx 0 0 (ctx_cqe (get_context io (sq_tail io)))) end).
  assert (Hio0 : ring io0 = ring q /\ head_at io0 n /\ sq_tail io0 = n mod N /\ match contexts io0 with
    | Some cs => Z.of_nat (length cs) = N /\ Nvme.done (get_context io0 (n mod N)) = 0 | None => True end).
  { unfold io0. destruct (contexts io) as [cs|] eqn:Ecs; [|by rewrite Ecs]. split_and!; [done|by destruct Hh; constructor|done|].
    rewrite Ht. rewrite (nth_context io cs) by (done || lia). unfold set_context, set_contexts. cbn [contexts]. rewrite Ecs. cbn. by rewrite length_insert. }
  destruct Hio0 as (Hr0 & Hh0 & Ht0 & Hc0'). destruct (ring_eq q io0 Hr0) as (F1 & F2 & F3 & F4 & F5).
  unfold nvme_submit_io_cmd. fold io. fold io0. unfold push_sqe. rewrite Ht0, F1, F3, Ht. fold (sq_slot n). fold (tagged cmd n).
  set (io1 := set_tail io0 ((n mod N + 1) mod N)). change (sq_doorbell io1) with (sq_doorbell io0). change (sq_tail io1) with ((n mod N + 1) mod N).
  rewrite F5, succ_mod by lia. set (w1 := io_wr _ _ _ _).
  assert (Hw : waiting n m1 w1).
  { split; [unfold w1, upd; by rewrite mm_io_wr, mm_set|]. apply (nd_tail _ Dev). by apply (nd_set _ Dev). }
  unfold hpet_get_millis. cbv zeta iota beta. set (s := millis (elapse w1)).
  assert (Hin : in_time k ticks c s fuel (elapse w1)).
  { split; [fold s; lia|]. pose proof (hc_pos _ _ Ck). unfold s. rewrite (hc_millis _ _ Ck). pose proof (Z.div_mod (ticks (elapse w1)) k ltac:(lia)).
    pose proof (Z.mod_pos_bound (ticks (elapse w1)) k ltac:(lia)). nia. }
  assert (Hpr : waiting n m1 (elapse w1) \/ executed n m1 (tagged cmd n) (elapse w1)) by (apply (progress_elapse n m1 (tagged cmd n) Hcmd); by left).
  assert (Hpp : prompt c -> executed n m1 (tagged cmd n) (elapse w1) /\ succeeded n m1 (tagged cmd n) (elapse w1)).
  { intros [Hpm _]. destruct Hw as [Em Hdw]. destruct (Hpm w1 n Hdw) as [Hd' (st & Ex & Hst)]. rewrite Em, Hcmd in Ex. split; [split; eauto|by exists st]. }
  assert (Hres : forall w' st, prompt c -> mm w' = mm (elapse w1) -> executes m1 (mm w') n (tagged cmd n) st -> Z.shiftr st 1 = 0).
  { intros w' st Hpm Em Ex. destruct (Hpp Hpm) as [_ (st' & Ex' & Hst')]. rewrite <- Hst'. rewrite <- (ex_status _ _ _ _ _ Ex), <- (ex_status _ _ _ _ _ Ex'). by rewrite Em. }
  assert (Hfin : forall w' st, D w' (n + 1) false -> executes m1 (mm w') n (tagged cmd n) st -> forall q', ring q' = ring q -> head_at q' (n + 1) -> sq_tail q' = (n + 1) mod N ->
    match contexts q' with Some cs => Z.of_nat (length cs) = N | None => True end -> ready w' (set_io c q') (n + 1)).
  { intros w' st HD' Ex q' Hr' Hh' Ht' Hc'. constructor; try done. by apply (executes_posted n m1 (tagged cmd n) Hp1 Hx _ st). }
  change (contexts io1) with (contexts io0). destruct (negb (use_msix c =? 0) && _) eqn:Em.
  - apply andb_prop in Em as [Em Ec]. destruct (contexts io0) as [cs|] eqn:Ecs; [|done]. destruct Hc0' as [Hl Hd0].
    destruct (wait_done_ok n m1 (tagged cmd n) Hcmd Hp1 Hx k ticks Ck c s ltac:(lia) irq ltac:(apply negb_true_iff, Z.eqb_neq in Em; done) Hid io1 cs fuel)
      with (w := elapse w1) as (w' & q2 & b & E & Hb & Hbp); try done; [by destruct Hh0; constructor|].
    assert (Hmx : prompt c -> b = true /\ mm w' = mm (elapse w1)).
    { intros Hpm. apply Hbp; [by apply Hpp|]. destruct Hpm as [_ [Hz|]]; [|done]. apply negb_true_iff, Z.eqb_neq in Em. done. }
    rewrite E. destruct b; [|eexists _, _, (-1); split_and!; [done|by right|done|]; intros Hpm; by destruct (Hmx Hpm)].
    destruct (Hb eq_refl) as [[[st Ex] HD'] Hdr]. cbn [io_queue set_io]. rewrite (dr_status _ _ _ _ Hdr). cbn [ctx_status].
    rewrite (ex_status _ _ _ _ _ Ex). eexists _, q2, _. split; [done|]. destruct (Z.eqb_spec (Z.shiftr st 1) 0); cbn [negb]; (split; [auto|]);
      [|split; [done|]; intros Hpm; destruct (Hmx Hpm) as [_ Em']; by destruct (Hres w' st Hpm Em' Ex)]. split; [|done]. intros _.
    split; [|eauto]. destruct Hdr as [D1 D2 D3 (cs' & D4 & D5) D6]. apply (Hfin w' st); try done; [rewrite D3; by apply succ_mod; lia|by rewrite D4].
  - destruct (wait_phase_ok n m1 (tagged cmd n) Hcmd Hp1 Hx k ticks Ck c s ltac:(lia) io1 fuel) with (w := elapse w1) as (w' & b & E & Hb & Hbp); try done; [by destruct Hh0; constructor|].
    unfold poll_completion. rewrite E. destruct b; [|eexists _, _, (-1); split_and!; [done|by right|done|]; intros Hpm; by destruct (Hbp (proj1 (Hpp Hpm)))].
    destruct (Hb eq_refl) as [[st Ex] HD']. change (cq io1) with (cq io0). rewrite F2. change (cq_head io1) with (cq_head io0). rewrite (ha_head _ _ Hh0), F1. fold (cq_slot n). rewrite (ex_status _ _ _ _ _ Ex).
    assert (Hn1 : head_at (next_head io1) (n + 1)) by (apply next_head_at; [change (q_size io1) with (q_size io0); lia|by destruct Hh0; constructor]).
    eexists _, _, _. split; [done|]. destruct (Z.eqb_spec (Z.shiftr st 1) 0); cbn [negb]; (split; [auto|]);
      [|split; [done|]; intros Hpm; destruct (Hbp (proj1 (Hpp Hpm))) as [_ Em']; by destruct (Hres w' st Hpm Em' Ex)]. split; [|done]. intros _.
    split; [|exists st; split; [by rewrite mm_io_wr|done]]. change (cq_doorbell (next_head io1)) with (cq_doorbell io0). rewrite F4.
    apply (Hfin _ st); try done; [by apply (nd_head _ Dev)|by rewrite mm_io_wr|apply succ_mod; lia|]. change (contexts (next_head io1)) with (contexts io0). destruct (contexts io0); tauto.
Qed.
End Submit.
End Device.
