(* ===== verification/NvmeRead.v ===== *)
(** * Reading blocks through NVMe

    The composition: translation of the buffer, pointers, command,
    completion.  Bytes are those of physical memory, at the addresses the
    buffer's pages translate to. *)

From Stdlib Require Import ZArith Lia Bool.
From stdpp Require Import base list gmap.
From S2P Require Import Prelude Mem Str Frames PageTable PtWalk PtOps AddrSpace Machine Nvme NvmePrp NvmeQueue.

Section Read.
Context {W : Type} `{Machine W} `{!MachineLaws W} {S : Type} `{FrameAllocator S} `{!FrameAllocatorLaws S}.
Context (q : NvmeQueue) (bs : Z -> Z) (disk : Z -> Z -> Z) (D : W -> Z -> bool -> Prop) (Dev : nvme_device q bs disk D).
Context (k : Z) (ticks : W -> Z) (Ck : hpet_clock k ticks) (irq : W -> bool).
(** The address space: its root, translation and tables; the frames in use. *)
Context (root : Z) (T : Z -> Z) (Tab U : Z -> Prop).

(** The rings lie in two frames of their own. *)
Record rings_in (sqf cqf : Z) : Prop := {
  ri_size : 0 < q_size q <= 64;
  ri_sq : sq q = tbl sqf;
  ri_cq : cq q = tbl cqf;
  ri_frames : Forall (fun f => frame_addr f /\ U f /\ ~ Tab f) [sqf; cqf];
  ri_ne : sqf <> cqf
}.
Context (sqf cqf : Z) (Ri : rings_in sqf cqf).

(** The driver between two commands, in this address space. *)
Record env (w : W) (fa : S) (c : NvmeController) (n : Z) : Prop := {
  en_ready : ready q D w c n;
  en_wf : pt_wf (mkVm (mm w) fa) root;
  en_T : forall v, vmmVirtToPhys (mm w) (tbl root) v = T v;
  en_tab : forall f, is_table (mm w) root f <-> Tab f;
  en_used : forall f, frame_addr f -> fa_used fa f <-> U f
}.

(** A frame for data. *)
Definition data_frame (f : Z) : Prop := frame_addr f /\ U f /\ ~ Tab f /\ f <> sqf /\ f <> cqf.

(** A buffer: every byte of it is mapped, no two to the same place. *)
Record buffer (virt len : Z) : Prop := {
  bf_mapped : forall o, 0 <= o < len -> exists f, data_frame f /\ T (virt + o) = f + (virt + o) mod PAGE_SIZE;
  bf_inj : forall o o', 0 <= o < len -> 0 <= o' < len -> T (virt + o) = T (virt + o') -> o = o';
  bf_range : 0 <= virt /\ virt + len < 2 ^ 64
}.

Lemma buffer_sub virt len a n : buffer virt len -> 0 <= a -> 0 <= n -> a + n <= len -> buffer (virt + a) n.
Proof.
  intros [Hm Hi Hr] Ha Hn Hl. constructor; [| |lia].
  - intros o Ho. rewrite <- Z.add_assoc. apply Hm. lia.
  - intros o o' Ho Ho' E. rewrite <- !Z.add_assoc in E. pose proof (Hi (a + o) (a + o') ltac:(lia) ltac:(lia) E). lia.
Qed.

(** The physical byte behind byte [o] of the buffer. *)
Definition byte_at (virt o : Z) : Z := tbl (T (virt + o)).

Lemma byte_at_page virt len o : buffer virt len -> 0 <= o < len -> exists f, data_frame f /\ in_page f (byte_at virt o) /\
  byte_at virt o = T (virt + o) + HHDM_BASE /\ T (virt + o) <> 0.
Proof.
  intros B Ho. destruct (bf_mapped _ _ B o Ho) as (f & Hf & E). exists f. split; [done|]. destruct Hf as [Hfa _].
  assert (Hm : 0 <= (virt + o) mod PAGE_SIZE < PAGE_SIZE) by (apply Z.mod_pos_bound; done). destruct Hfa as [Hf0 Hf1].
  pose proof (Z.div_mod f 4096 ltac:(lia)) as Hdm. rewrite Hf1 in Hdm.
  assert (Eb : byte_at virt o = T (virt + o) + HHDM_BASE). { unfold byte_at, tbl. apply u64_id. unfold is_u64, HHDM_BASE. rewrite E. unfold PAGE_SIZE in *. lia. }
  split; [|split; [done|rewrite E; lia]]. unfold in_page. rewrite Eb, E, tbl_frame by done. lia.
Qed.

Lemma byte_at_inj virt len o o' : buffer virt len -> 0 <= o < len -> 0 <= o' < len -> byte_at virt o = byte_at virt o' -> o = o'.
Proof.
  intros B Ho Ho' E. destruct (byte_at_page virt len o B Ho) as (_ & _ & _ & E1 & _). destruct (byte_at_page virt len o' B Ho') as (_ & _ & _ & E2 & _).
  apply (bf_inj _ _ B o o' Ho Ho'). lia.
Qed.

Lemma rings_ok : rings_placed q.
Proof.
  destruct Ri as [Hs E1 E2 Hf Hne]. apply Forall_cons in Hf as [(F1 & _) Hf]. apply Forall_cons in Hf as [(F2 & _) _].
  rewrite !tbl_frame in * by done. constructor; [lia| |rewrite E2; unfold HHDM_BASE; destruct F2; lia].
  destruct F1 as [F1 M1], F2 as [F2 M2]. pose proof (Z.div_mod sqf 4096 ltac:(lia)). pose proof (Z.div_mod cqf 4096 ltac:(lia)). lia.
Qed.

Lemma sq_in n x : sq_slot q n <= x < sq_slot q n + 64 -> in_page sqf x.
Proof. intros Hx. pose proof (slot_range q rings_ok n). unfold in_page, sq_slot, PAGE_SIZE in *. rewrite (ri_sq _ _ Ri) in Hx. pose proof (ri_size _ _ Ri). lia. Qed.
Lemma cq_in x : cq q <= x < cq q + 16 * q_size q -> in_page cqf x.
Proof. intros Hx. unfold in_page, PAGE_SIZE in *. rewrite (ri_cq _ _ Ri) in Hx. pose proof (ri_size _ _ Ri). lia. Qed.
Lemma cq_slot_in n x : cq_slot q n <= x < cq_slot q n + 16 -> in_page cqf x.
Proof. intros Hx. apply cq_in. pose proof (slot_range q rings_ok n). unfold cq_slot in *. lia. Qed.

Lemma ring_frames : (frame_addr sqf /\ U sqf /\ ~ Tab sqf) /\ (frame_addr cqf /\ U cqf /\ ~ Tab cqf).
Proof. pose proof (ri_frames _ _ Ri) as Hf. apply Forall_cons in Hf as [F1 Hf]. by apply Forall_cons in Hf as [F2 _]. Qed.

(** Which bytes a command may change, besides its data: those of frames not
    in use and those of the rings. *)
Definition untouched (x : Z) : Prop := exists f, frame_addr f /\ U f /\ f <> sqf /\ f <> cqf /\ in_page f x.

(** *** One command *)
Section Chunk.
Context (w : W) (fa : S) (c : NvmeController) (n : Z) (E : env w fa c n).
Context (nsid lba blocks virt : Z).
Let len := blocks * bs nsid.
Context (Hns : is_u32 nsid) (Hlba : is_u64 lba) (Hbl : 0 < blocks <= 65536) (Hbs : 0 < bs nsid <= 4096) (B : buffer virt len).
Context (w1 : W) (fa1 : S) (prp2 : Z) (frames : list Z) (HD : D w1 n false).
Context (Pb : prps_built w fa root virt len w1 fa1 prp2 frames).
Let Hprp2 := pb_prp2 _ _ _ _ _ _ _ _ _ Pb.

Let cmd := tagged q (read_cmd nsid lba blocks (T virt) prp2) n.
Let m1 := write_sqe (mm w1) (sq_slot q n) cmd.

Lemma list_frames_fresh f g x : g ∈ frames -> frame_addr f -> U f -> in_page f x -> in_page g x -> False.
Proof.
  intros Hg Hf Hu H1' H2'. pose proof (pb_taken _ _ _ _ _ _ _ _ _ Pb) as Ht. pose proof (tk_frames _ _ _ Ht) as Hfr. rewrite Forall_forall in Hfr.
  assert (f = g) as -> by (apply (in_page_inj f g x); auto). apply (tk_fresh _ _ _ Ht g Hg). by apply (en_used _ _ _ _ E).
Qed.

(** Memory in use is as before when the command is submitted, but for its slot. *)
Lemma before_submit f x : frame_addr f -> U f -> in_page f x -> rd8 (mm w1) x = rd8 (mm w) x.
Proof.
  intros Hf Hu Hx. apply (pb_other _ _ _ _ _ _ _ _ _ Pb). intros (g & Hg & Hgx). by apply (list_frames_fresh f g x).
Qed.

Lemma chunk_len : xfer_len bs cmd = len.
Proof.
  unfold xfer_len, cmd, tagged, read_cmd, len. cbn [cdw12 set_cdw0 sqe_nsid]. change 0xFFFF with (Z.ones 16). rewrite Z.land_ones, Z.mod_small by lia. f_equal. lia.
Qed.

Lemma chunk_addr o : 0 <= o < len -> xfer_addr bs m1 cmd o = byte_at virt o.
Proof.
  intros Ho. unfold xfer_addr. rewrite chunk_len. unfold cmd at 1 2. cbn [dptr0 dptr1 tagged set_cdw0 read_cmd]. unfold byte_at. f_equal.
  rewrite <- !(en_T _ _ _ _ E). apply (pb_addr _ _ _ _ _ _ _ _ _ Pb m1); [|done].
  intros x (g & Hg & Hgx). unfold m1. apply write_sqe_other. intros Hs%sq_in. destruct ring_frames as [(F1 & F2 & F3) _]. by apply (list_frames_fresh sqf g x).
Qed.

Lemma chunk_away o : 0 <= o < xfer_len bs cmd -> ~ cq q <= xfer_addr bs m1 cmd o < cq q + 16 * q_size q.
Proof.
  rewrite chunk_len. intros Ho. rewrite chunk_addr by done. intros Hc%cq_in. destruct (byte_at_page virt len o B Ho) as (f & (Hf & Hu & Ht & Hs & Hq) & Hin & _).
  apply Hq. destruct ring_frames as [_ (F & _)]. by apply (in_page_inj f cqf (byte_at virt o)).
Qed.

Lemma chunk_ready : ready q D w1 c n.
Proof.
  destruct (en_ready _ _ _ _ E) as [R1 R2 R3 R4 R5 R6]. constructor; try done. intros j Hj. rewrite <- (R4 j Hj). f_equal. apply rd_ext. intros x Hx.
  destruct ring_frames as [_ (F1 & F2 & _)]. apply (before_submit cqf); try done. apply cq_in. pose proof (slot_range q rings_ok j). lia.
Qed.

Lemma chunk_cmd_ok : sqe_ok (read_cmd nsid lba blocks (T virt) prp2) /\ cdw0 (read_cmd nsid lba blocks (T virt) prp2) < 2 ^ 16.
Proof.
  unfold read_cmd. split; [|done]. constructor; cbn [cdw0 sqe_nsid dptr0 dptr1 cdw10 cdw11 cdw12]; try done; unfold is_u32.
  - rewrite <- (en_T _ _ _ _ E). pose proof (translate_range _ _ _ virt (en_wf _ _ _ _ E)). unfold is_u64. lia.
  - change 0xFFFFFFFF with (Z.ones 32). rewrite Z.land_ones by lia. apply Z.mod_pos_bound. lia.
  - apply Z.mod_pos_bound. lia.
  - lia.
Qed.

(** After the command. *)
Context (w' : W) (c' : NvmeController) (st : Z) (Rd : ready q D w' c' (n + 1)).
Context (Ex : executes q bs disk m1 (mm w') n cmd st) (Hst : Z.shiftr st 1 = 0).

Lemma chunk_data o : 0 <= o < len -> rd8 (mm w') (byte_at virt o) = disk nsid (lba * bs nsid + o).
Proof.
  intros Ho. rewrite <- chunk_addr by done. destruct (tagged_ok q rings_ok (read_cmd nsid lba blocks (T virt) prp2) n) as (_ & _ & Ht); [apply chunk_cmd_ok..|].
  rewrite (ex_data _ _ _ _ _ _ _ _ Ex Hst); fold cmd in Ht; rewrite ?chunk_len; try done.
  - unfold cmd. cbn [sqe_nsid tagged set_cdw0 read_cmd cdw10 cdw11]. do 3 f_equal. change 0xFFFFFFFF with (Z.ones 32).
    rewrite Z.land_ones, Z.shiftr_div_pow2 by lia. unfold u32. unfold is_u64 in Hlba. rewrite (Z.mod_small (lba / 2 ^ 32)) by (split; [apply Z.div_pos|apply Z.div_lt_upper_bound]; lia).
    pose proof (Z.div_mod lba (2 ^ 32) ltac:(lia)). lia.
  - intros o' Ho' Ea. rewrite !chunk_addr in Ea by done. by apply (byte_at_inj virt len).
  - intros Hc. apply (chunk_away o); [by rewrite chunk_len|]. pose proof (slot_range q rings_ok n). unfold cq_slot in Hc. lia.
Qed.

Lemma chunk_other x : untouched x -> (forall o, 0 <= o < len -> x <> byte_at virt o) -> rd8 (mm w') x = rd8 (mm w) x.
Proof.
  intros (f & Hf & Hu & Hs & Hq & Hin) Hx. destruct ring_frames as [(F1 & _) (F2 & _)].
  rewrite (ex_other _ _ _ _ _ _ _ _ Ex).
  - unfold m1. rewrite write_sqe_other; [by apply (before_submit f)|]. intros Hsl%sq_in. apply Hs. by apply (in_page_inj f sqf x).
  - rewrite chunk_len. intros o Ho. rewrite chunk_addr by done. by apply Hx.
  - intros Hc%cq_slot_in. apply Hq. by apply (in_page_inj f cqf x).
Qed.

Lemma chunk_env : env w' (free_all fa1 frames) c' (n + 1).
Proof.
  destruct (taken_free _ _ _ (pb_taken _ _ _ _ _ _ _ _ _ Pb)) as [Hok Hus].
  destruct (tables_kept (mm w) (mm w') fa (free_all fa1 frames) root (en_wf _ _ _ _ E)) as (Wf' & HT' & Htab'); [done|intros f Hf _; by apply Hus| |].
  - intros f x Hf Hfa Hfu Hin. rewrite (en_tab _ _ _ _ E) in Hf. rewrite (en_used _ _ _ _ E) in Hfu by done.
    destruct ring_frames as [(_ & _ & F1) (_ & _ & F2)]. apply chunk_other.
    + exists f. split_and!; try done; by intros ->.
    + intros o Ho ->. destruct (byte_at_page virt len o B Ho) as (g & (Hg & Hgu & Hgt & _) & Hgin & _). apply Hgt. by rewrite <- (in_page_inj f g (byte_at virt o)).
  - constructor; try done.
    + intros v. rewrite HT'. apply (en_T _ _ _ _ E).
    + intros f. rewrite Htab'. apply (en_tab _ _ _ _ E).
    + intros f Hf. rewrite Hus by done. by apply (en_used _ _ _ _ E).
Qed.
End Chunk.

(** Progress of a read: the driver is ready again, the bytes of [len] bytes
    of the buffer are those of the medium from byte [pos] on, and nothing
    else in use has changed. *)
Record filled_from (w : W) (w' : W) (fa' : S) (c' : NvmeController) (nsid pos virt len : Z) : Prop := {
  fi_env : exists n', env w' fa' c' n';
  fi_data : forall o, 0 <= o < len -> rd8 (mm w') (byte_at virt o) = disk nsid (pos + o);
  fi_other : forall x, untouched x -> (forall o, 0 <= o < len -> x <> byte_at virt o) -> rd8 (mm w') x = rd8 (mm w) x
}.

Section Controller.
Context (c : NvmeController) (fuel : nat) (Htm : 0 < timeout_ms c < 2 ^ 32) (Hf : k * timeout_ms c <= Z.of_nat fuel).
Context (nsid : Z) (Hns : is_u32 nsid) (Hbs : 0 < bs nsid <= 4096).
Abbreviation size := (bs nsid).

(** Nothing stands in the way of [total] bytes: a prompt controller, and
    frames for the lists of a transfer over several pages. *)
Definition healthy (total : Z) : Prop := prompt q bs disk D irq c /\
  (PAGE_SIZE < total -> forall fa n, fa_ok fa -> (forall f, frame_addr f -> fa_used fa f <-> U f) -> (n <= 130)%nat -> (alloc_frames n fa []).2 <> None).

Lemma healthy_le a b : healthy b -> a <= b -> healthy a.
Proof. intros [H1' H2'] Hle. split; [done|]. intros Ha. apply H2'. lia. Qed.

Lemma set_io_same (c' : NvmeController) : set_io c' (io_queue c') = c'.
Proof. by destruct c'. Qed.

Lemma read_chunk_ok w fa q1 n lba blocks virt : env w fa (set_io c q1) n -> is_u64 lba -> 0 < blocks <= 65536 -> buffer virt (blocks * size) ->
  exists w' fa' q' r, read_chunk irq (tbl root) fuel w fa (set_io c q1) nsid lba blocks (blocks * size) virt = Some (w', fa', set_io c q', r) /\
    (r = 0 \/ r = -1) /\ (r = 0 -> filled_from w w' fa' (set_io c q') nsid (lba * size) virt (blocks * size)) /\
    (healthy (blocks * size) -> r = 0).
Proof.
  intros E Hl Hb B. unfold read_chunk. rewrite (en_T _ _ _ _ E). destruct (byte_at_page virt _ 0 B ltac:(nia)) as (f0 & _ & _ & _ & Ht0). rewrite Z.add_0_r in Ht0.
  destruct (Z.eqb_spec (T virt) 0); [done|]. pose proof (bf_range _ _ B) as Hr.
  destruct (build_prps_ok w fa root virt (blocks * size) (en_wf _ _ _ _ E)) as (w1 & fa1 & r1 & E1 & HP & Hr1); [lia|nia|lia|by rewrite (en_T _ _ _ _ E)|]. rewrite E1.
  destruct r1 as [[prp2 frames]|].
  2: { exists w1, fa1, q1, (-1). split_and!; [done|by right|done|]. intros [_ Hfr]. exfalso. destruct Hr1 as (_ & _ & _ & [(o & Ho & E0)|(Hpg & j & Hj & E0)]).
       - destruct (byte_at_page virt _ o B Ho) as (_ & _ & _ & _ & Hne). apply Hne. by rewrite <- (en_T _ _ _ _ E).
       - apply (Hfr Hpg fa j); [apply (pw_ok _ _ (en_wf _ _ _ _ E))|apply (en_used _ _ _ _ E)|apply Hj; nia|done]. }
  assert (HD1 : D w1 n false) by (apply (HP (fun w => D w n false)); [intros; by apply (nd_set _ _ _ _ Dev)|apply (en_ready _ _ _ _ E)]).
  destruct (chunk_cmd_ok w fa (set_io c q1) n E nsid lba blocks virt Hns Hb w1 fa1 prp2 frames Hr1) as [Hok Hc0].
  destruct (io_submit_ok q bs disk D Dev rings_ok k ticks Ck irq w1 (set_io c q1) n (read_cmd nsid lba blocks (T virt) prp2) fuel) as (w2 & q' & r & E2 & Hr2 & Hz & Hpr); try done.
  - by apply (chunk_ready w fa _ n E nsid blocks virt w1 fa1 prp2 frames).
  - intros o. by apply (chunk_away w fa (set_io c q1) n E nsid lba blocks virt Hb B w1 fa1 prp2 frames).
  - rewrite E2. eexists w2, _, q', _. split; [done|]. destruct (Z.eqb_spec r 0) as [->|]; cbn [negb]; (split; [auto|]).
    2: { split; [done|]. intros [Hp _]. by specialize (Hpr Hp). }
    split; [|done]. intros _. destruct (Hz eq_refl) as [Rd (st & Ex & Hst)].
    constructor.
    + exists (n + 1). by apply (chunk_env w fa (set_io c q1) n E nsid lba blocks virt Hb B w1 fa1 prp2 frames Hr1 w2 _ st).
    + intros o Ho. by apply (chunk_data w fa (set_io c q1) n E nsid lba blocks virt Hns Hl Hb B w1 fa1 prp2 frames Hr1 w2 st).
    + intros x Hx Ho. by apply (chunk_other w fa (set_io c q1) n E nsid lba blocks virt Hb w1 fa1 prp2 frames Hr1 w2 st).
Qed.

(** Two pieces make one. *)
Lemma filled_app w w1 w2 fa2 c1 fa1 c2 pos virt a b : 0 <= a -> 0 <= b -> buffer virt (a + b) ->
  filled_from w w1 fa1 c1 nsid pos virt a -> filled_from w1 w2 fa2 c2 nsid (pos + a) (virt + a) b -> filled_from w w2 fa2 c2 nsid pos virt (a + b).
Proof.
  intros Ha Hb B F1 F2. assert (Es : forall o, byte_at (virt + a) o = byte_at virt (a + o)) by (intros o; unfold byte_at; by rewrite Z.add_assoc).
  constructor; [apply (fi_env _ _ _ _ _ _ _ _ F2)| |].
  - intros o Ho. destruct (Z.lt_ge_cases o a) as [Hlt|Hge].
    + rewrite (fi_other _ _ _ _ _ _ _ _ F2); [apply (fi_data _ _ _ _ _ _ _ _ F1); lia| |].
      * destruct (byte_at_page virt _ o B Ho) as (f & (G1 & G2 & G3 & G4 & G5) & Hin & _). by exists f.
      * intros o' Ho'. rewrite Es. intros Ee%(byte_at_inj virt (a + b)); [lia|done|lia|lia].
    + pose proof (fi_data _ _ _ _ _ _ _ _ F2 (o - a) ltac:(lia)) as Hd. rewrite Es in Hd. replace (a + (o - a)) with o in Hd by lia. rewrite Hd. f_equal. lia.
  - intros x Hx Ho. rewrite (fi_other _ _ _ _ _ _ _ _ F2), (fi_other _ _ _ _ _ _ _ _ F1); try done.
    + intros o Hoo. apply Ho. lia.
    + intros o Hoo. rewrite Es. apply Ho. lia.
Qed.

Lemma read_chunks_ok rounds : forall w fa q1 n ns limit lba remaining virt, env w fa (set_io c q1) n -> ns_nsid ns = nsid -> block_size ns = size ->
  0 < limit <= 65536 -> 0 <= remaining <= Z.of_nat rounds -> 0 <= lba -> lba + remaining < 2 ^ 64 -> buffer virt (remaining * size) ->
  exists w' fa' q' r, read_chunks irq (tbl root) rounds fuel w fa (set_io c q1) ns limit lba remaining virt = Some (w', fa', set_io c q', r) /\
    (r = 0 \/ r = -1) /\ (r = 0 -> filled_from w w' fa' (set_io c q') nsid (lba * size) virt (remaining * size)) /\
    (healthy (remaining * size) -> r = 0).
Proof.
  induction rounds as [|rounds IH]; intros w fa q1 n ns limit lba remaining virt E En Es Hlim Hrem Hl0 Hl1 B.
  - assert (remaining = 0) as -> by lia. exists w, fa, q1, 0. split_and!; [done|by left| |done]. intros _. constructor; [by exists n| |done]. intros o Ho. lia.
  - cbn [read_chunks]. destruct (Z.eqb_spec remaining 0) as [->|Hne].
    { exists w, fa, q1, 0. split_and!; [done|by left| |done]. intros _. constructor; [by exists n| |done]. intros o Ho. lia. }
    rewrite En, Es. set (b := if limit <? remaining then limit else remaining).
    assert (Hb : 0 < b <= 65536 /\ b <= remaining). { unfold b. destruct (Z.ltb_spec limit remaining); lia. }
    assert (Hu : u32 (b * size) = b * size). { unfold u32. apply Z.mod_small. nia. }
    rewrite Hu. pose proof (bf_range _ _ B) as Hr.
    destruct (read_chunk_ok w fa q1 n lba b virt E ltac:(unfold is_u64; lia) ltac:(lia)) as (w1 & fa1 & q2 & r & Er & Hr1 & Hz & Hh).
    { replace virt with (virt + 0) by lia. apply (buffer_sub _ _ _ _ B); nia. }
    rewrite Er. destruct Hr1 as [-> | ->]; [|exists w1, fa1, q2, (-1); split_and!; [done|by right|done|]; intros Hhe; assert (-1 = 0) by (apply Hh, (healthy_le _ _ Hhe); nia); done]. cbn [negb Z.eqb]. specialize (Hz eq_refl).
    rewrite !u64_id by (unfold is_u64; nia). destruct (fi_env _ _ _ _ _ _ _ _ Hz) as [n1 E1].
    destruct (IH w1 fa1 q2 n1 ns limit (lba + b) (remaining - b) (virt + b * size)) as (w2 & fa2 & q3 & r2 & E2 & Hr2 & Hz2 & Hh2); try done; try lia.
    { apply (buffer_sub _ _ _ _ B); nia. }
    exists w2, fa2, q3, r2. split_and!; [done|done| |intros Hhe; apply Hh2, (healthy_le _ _ Hhe); nia]. intros ->. replace (remaining * size) with (b * size + (remaining - b) * size) by lia.
    apply (filled_app w w1 w2 fa2 (set_io c q2) fa1 (set_io c q3)); [nia|nia| |done|].
    { replace (b * size + (remaining - b) * size) with (remaining * size) by lia. done. }
    replace (lba * size + b * size) with ((lba + b) * size) by lia. by apply Hz2.
Qed.
End Controller.
End Read.
