(* ===== verification/NvmeDemo.v ===== *)
(** * NVMe: the theorems, and a controller to use them with *)

From Stdlib Require Import ZArith Lia Bool.
From stdpp Require Import base list gmap.
From S2P Require Import Prelude Mem Str Frames Pmm PageTable PtWalk PtOps AddrSpace Machine Pcie Nvme NvmePrp NvmeQueue NvmeRead.

(** C9: [nvme_read] with a controller that keeps to the protocol and a buffer
    that is mapped, for blocks of at most a page: it returns, with 0 or -1,
    whether completions are polled or come by interrupt.  When it returns 0,
    every byte of the buffer, in physical memory behind the buffer's pages,
    is the byte of the medium it should be, the driver is ready for the next
    command with the frames of its lists released, and no other memory in
    use has changed but the rings.  With a prompt controller and frames for
    the lists it does return 0. *)
Theorem nvme_read_correct {W} `{Machine W} `{!MachineLaws W} {S} `{FrameAllocator S} `{!FrameAllocatorLaws S}
    q bs disk (D : W -> Z -> bool -> Prop) k ticks irq root T Tab U sqf cqf (w : W) (fa : S) c n fuel ns nsid lba count buf :
  nvme_device q bs disk D -> hpet_clock k ticks -> rings_in q Tab U sqf cqf -> env q D root T Tab U w fa c n ->
  0 < timeout_ms c < 2 ^ 32 -> k * timeout_ms c <= Z.of_nat fuel ->
  find_ns (namespaces c) nsid = Some ns -> block_size ns = bs nsid -> 0 < bs nsid <= 4096 -> is_u32 nsid ->
  0 < count < 2 ^ 32 -> 0 <= lba -> lba + count < 2 ^ 64 -> buf <> 0 -> buffer T Tab U sqf cqf buf (count * bs nsid) ->
  exists w' fa' q' r, nvme_read irq (tbl root) fuel w fa c nsid lba count buf = Some (w', fa', set_io c q', r) /\ (r = 0 \/ r = -1) /\
    (r = 0 -> filled_from q disk D root T Tab U sqf cqf w w' fa' (set_io c q') nsid (lba * bs nsid) buf (count * bs nsid)) /\
    (healthy q bs disk D irq U c (count * bs nsid) -> r = 0).
Proof.
  intros Dev Ck Ri E Htm Hf Hns Hsz Hbs Hid Hc Hl0 Hl1 Hbuf B. unfold nvme_read. destruct (Z.eqb_spec buf 0); [done|]. destruct (Z.eqb_spec count 0); [lia|]. cbn [orb].
  rewrite Hns, Hsz. destruct (Z.eqb_spec (bs nsid) 0); [lia|].
  assert (Hlim : 0 < chunk_limit c ns <= 65536).
  { unfold chunk_limit. destruct (0 <? max_transfer_bytes c); [|done]. cbn [andb]. destruct (Z.ltb_spec 0 (max_transfer_bytes c / block_size ns)); [|done]. cbn [andb].
    destruct (Z.ltb_spec (max_transfer_bytes c / block_size ns) 0x10000); lia. }
  assert (Hnm : ns_nsid ns = nsid). { apply List.find_some in Hns as [_ Hn]. by apply Z.eqb_eq. }
  pose proof (read_chunks_ok q bs disk D Dev k ticks Ck irq root T Tab U sqf cqf Ri c fuel Htm Hf nsid Hid Hbs (Z.to_nat count) w fa (io_queue c) n) as Hrc.
  rewrite set_io_same in Hrc. apply Hrc; try done; lia.
Qed.

(** C32: The two data pointers of a command, built in an address space in order
    for a buffer of at most 256 MiB whose first page is mapped: a controller
    that follows them, and the lists they lead to, finds for every byte of
    the buffer the physical address the page tables give it, even when the
    memory outside of the lists' frames changes.  At most 130 frames are
    used, all new, and only they are written.  Where a page is not mapped or
    memory runs out, exactly the frames used before are used after, and no
    memory in use has changed. *)
Theorem build_prps_correct {W} `{Machine W} `{!MachineLaws W} {S} `{FrameAllocator S} `{!FrameAllocatorLaws S} (w : W) (fa : S) root virt len :
  pt_wf (mkVm (mm w) fa) root -> 0 <= virt -> 0 < len <= 2 ^ 28 -> virt + len <= 2 ^ 64 ->
  let T := vmmVirtToPhys (mm w) (tbl root) in T virt <> 0 ->
  exists w' fa' r, build_prps (tbl root) w fa virt len = Some (w', fa', r) /\
    match r with
    | Some (prp2, frames) => (length frames <= 130)%nat /\ taken fa fa' frames /\ (forall x, ~ in_pages frames x -> rd8 (mm w') x = rd8 (mm w) x) /\
        forall m, (forall x, in_pages frames x -> rd8 m x = rd8 (mm w') x) ->
        forall o, 0 <= o < len -> prp_addr (prp_entries m (T virt) prp2 len) o = T (virt + o) /\ T (virt + o) <> 0
    | None => (forall a, frame_addr a -> fa_used fa' a <-> fa_used fa a) /\
        (forall f x, frame_addr f -> fa_used fa f -> in_page f x -> rd8 (mm w') x = rd8 (mm w) x) /\
        ((exists o, 0 <= o < len /\ T (virt + o) = 0) \/ exists j, (alloc_frames j fa []).2 = None)
    end.
Proof.
  intros Wf Hv Hl He T Ht. destruct (build_prps_ok w fa root virt len Wf Hv) as (w' & fa' & r & E & _ & Hr); [lia|done|done|].
  exists w', fa', r. split; [done|]. destruct r as [[prp2 frames]|].
  - destruct Hr as [H1' _ H2' H3' H4']. split_and!; try done. apply H2'. lia.
  - destruct Hr as (_ & H1' & H2' & H3'). split_and!; [done| |].
    + intros f x Hf Hu Hx. apply H2'. intros g Hg Hgu Hgx. apply Hgu. by rewrite (in_page_inj g f x).
    + destruct H3' as [H3'|(_ & j & _ & H3')]; [by left|right; by exists j].
Qed.

(** C33: The interrupt handler on a controller whose driver has seen [C] of the
    [P] completions posted so far: it takes exactly those from [C] to [P],
    across the end of the queue as well, tells the controller when there were
    any, and the context of each command is then that of its last
    completion among them, or what it was. *)
Theorem nvme_irq_correct {W} `{Machine W} (w : W) c cs C P fuel : let q := io_queue c in
  use_msix c <> 0 -> cq q <> 0 -> contexts q = Some cs -> Z.of_nat (length cs) = q_size q -> 0 < q_size q < 2 ^ 16 ->
  head_at q C -> posted (mm w) q P -> C <= P <= C + q_size q -> q_size q < Z.of_nat fuel ->
  exists q', irq_controller fuel w c = Some (if C <? P then io_wr w 4 (cq_doorbell q) (P mod q_size q) else w, set_io c q') /\
    head_at q' P /\ ring q' = ring q /\ sq_tail q' = sq_tail q /\
    forall cid, 0 <= cid < q_size q -> get_context q' cid =
      match last (filter (fun e => command_id e = cid) (cqe_at (mm w) q <$> seqZ C (P - C))) with
      | Some e => mkCtx 1 (Z.shiftr (status e) 1) e
      | None => get_context q cid
      end.
Proof.
  intros q Hm Hcq Hcs Hl HN Hh Hp HC Hf. destruct (drain_ok fuel (mm w) q 0 C P) as (q' & E & Hh' & Hr & Ht & Hc); [lia|done|done|done|lia|].
  unfold irq_controller. fold q. destruct (Z.eqb_spec (use_msix c) 0); [done|]. rewrite Hcs. destruct (Z.eqb_spec (cq q) 0); [done|]. cbn [orb]. rewrite E.
  exists q'. destruct (ring_eq q q' Hr) as (E1 & _ & _ & E4 & _). split_and!; try done.
  - do 2 f_equal. rewrite E4, (ha_head _ _ Hh'), E1. destruct (Z.ltb_spec C P) as [Hlt|_]; [|done].
    unfold u16. rewrite Z.add_0_l, Z.mod_small by lia. destruct (Z.ltb_spec 0 (P - C)); [done|lia].
  - intros cid Hcid. replace (get_context q' cid) with (get_context (foldl complete q (cqe_at (mm w) q <$> seqZ C (P - C))) cid).
    + apply (complete_all_context _ q cs); try done. apply Forall_fmap, Forall_true. intros i. apply rd16_range.
    + unfold get_context. by rewrite Hc.
Qed.

(** ** A controller that executes a command as soon as it may *)

Record Nsim := mkNsim { v_mem : mem; v_tick : Z; v_done : Z; v_pend : bool }.

Definition demo_q : NvmeQueue := mkQueue (tbl 0x202000) 0x202000 (tbl 0x203000) 0x203000 0x9000 0x9004 4 0 0 1 None.
Definition demo_bs (nsid : Z) : Z := 512.
Definition demo_disk (nsid i : Z) : Z := u8 (nsid + i).

Definition poke (A V : Z -> Z) (m : mem) (l : list Z) : mem := foldl (fun m o => wr8 m (A o) (V o)) m l.

Definition serve (m : mem) (n : Z) : mem :=
  let cmd := read_sqe m (sq_slot demo_q n) in
  let m1 := poke (xfer_addr demo_bs m cmd) (fun o => demo_disk (sqe_nsid cmd) ((cdw10 cmd + 2 ^ 32 * cdw11 cmd) * demo_bs (sqe_nsid cmd) + o))
              m (seqZ 0 (xfer_len demo_bs cmd)) in
  wr16 (wr16 m1 (cq_slot demo_q n + 12) (Z.shiftr (cdw0 cmd) 16)) (cq_slot demo_q n + 14) (phase 4 n).

#[export] Instance nsim_machine : Machine Nsim := {
  mm := v_mem;
  set_mm s m := mkNsim m (v_tick s) (v_done s) (v_pend s);
  elapse s := if v_pend s then mkNsim (serve (v_mem s) (v_done s)) (v_tick s + 1) (v_done s + 1) false
              else mkNsim (v_mem s) (v_tick s + 1) (v_done s) false;
  millis := v_tick;
  io_rd s _ _ := (s, 0);
  io_wr s _ a v := mkNsim (v_mem s) (v_tick s) (v_done s) (if a =? 0x9000 then true else v_pend s)
}.
#[export] Instance nsim_laws : MachineLaws Nsim.
Proof. by constructor. Qed.

Definition nsim_state (s : Nsim) (n : Z) (p : bool) : Prop := v_done s = n /\ v_pend s = p.

Lemma poke_other A V l m x : (forall o, o ∈ l -> A o <> x) -> rd8 (poke A V m l) x = rd8 m x.
Proof.
  induction l as [|o l IH] using rev_ind; intros Hx; [done|]. unfold poke in *. rewrite foldl_snoc, rd8_wr8.
  destruct (Z.eqb_spec x (A o)) as [E|_]; [exfalso; apply (Hx o); [set_solver|done]|]. apply IH. set_solver.
Qed.

Lemma poke_at A V l m o : o ∈ l -> (forall o', o' ∈ l -> A o' = A o -> o' = o) -> rd8 (poke A V m l) (A o) = u8 (V o).
Proof.
  induction l as [|o1 l IH] using rev_ind; intros Ho Hu; [by apply elem_of_nil in Ho|]. unfold poke in *. rewrite foldl_snoc, rd8_wr8.
  destruct (Z.eqb_spec (A o) (A o1)) as [E|Hne]; [by rewrite (Hu o1) by (done || set_solver)|]. apply IH; [|set_solver].
  apply elem_of_app in Ho as [Ho|Ho]; [done|]. by apply list_elem_of_singleton in Ho as ->.
Qed.

Lemma u8_u8 z : u8 (u8 z) = u8 z.
Proof. unfold u8. apply Z.mod_mod. lia. Qed.

Lemma serve_executes m n : executes demo_q demo_bs demo_disk m (serve m n) n (read_sqe m (sq_slot demo_q n)) (phase 4 n).
Proof.
  unfold serve. cbn zeta. set (cmd := read_sqe m _). set (m1 := poke _ _ _ _). set (a := cq_slot demo_q n).
  assert (Hph : 0 <= phase 4 n < 2) by (unfold phase; divlia).
  assert (Hid : 0 <= Z.shiftr (cdw0 cmd) 16 < 2 ^ 16).
  { pose proof (rd_range 4 m (sq_slot demo_q n)) as Hr. change (rd 4 m (sq_slot demo_q n)) with (cdw0 cmd) in Hr. rewrite Z.shiftr_div_pow2 by lia.
    split; [apply Z.div_pos; lia|]. apply Z.div_lt_upper_bound; [lia|]. exact (proj2 Hr). }
  assert (Ho : forall x, ~ a <= x < a + 16 -> rd8 (wr16 (wr16 m1 (a + 12) (Z.shiftr (cdw0 cmd) 16)) (a + 14) (phase 4 n)) x = rd8 m1 x).
  { intros x Hx. unfold wr16. rewrite !rd8_wr. destruct (Z.leb_spec (a + 14) x), (Z.ltb_spec x (a + 14 + Z.of_nat 2)), (Z.leb_spec (a + 12) x), (Z.ltb_spec x (a + 12 + Z.of_nat 2)); cbn [andb]; done || lia. }
  constructor; fold a.
  - apply rd16_wr16_same. lia.
  - change (q_size demo_q) with 4. assert (phase 4 n = 0 \/ phase 4 n = 1) as [-> | ->] by lia; done.
  - unfold rd16, wr16. rewrite rd_wr_disj by lia. by apply rd16_wr16_same.
  - intros _ _ o Hr Hu Hs. rewrite Ho by done. unfold m1. rewrite poke_at; [apply u8_u8| |].
    + apply elem_of_seqZ. lia.
    + intros o' Ho'%elem_of_seqZ. apply Hu. lia.
  - intros x Hx Hs. rewrite Ho by done. apply poke_other. intros o Ho'%elem_of_seqZ. apply not_eq_sym, Hx. lia.
Qed.

Lemma nsim_device : nvme_device demo_q demo_bs demo_disk nsim_state.
Proof.
  constructor; try done.
  - intros w n [Hd Hp]. split; [done|reflexivity].
  - intros w n [Hd Hp]. unfold elapse, mm, nsim_machine, nsim_state. rewrite Hp. done.
  - intros w n [Hd Hp]. right. exists (phase 4 n). unfold elapse, mm, nsim_machine, nsim_state. rewrite Hp. cbn [v_mem v_done v_pend]. rewrite Hd. split; [apply serve_executes|done].
Qed.

Lemma nsim_clock : hpet_clock 1 v_tick.
Proof.
  constructor; try done.
  - intros w. cbn. by rewrite Z.div_1_r.
  - intros w. unfold elapse, nsim_machine. destruct (v_pend w); cbn [v_tick]; lia.
Qed.

(** ** A machine with a page mapped for the buffer *)

Definition demo_frames : Pmm := (alloc_frames 3 (vm_fa demo_vm) []).1.
Lemma demo_frames_are : alloc_frames 3 (vm_fa demo_vm) [] = (demo_frames, Some [0x202000; 0x203000; 0x204000]).
Proof. vm_compute. reflexivity. Qed.

Lemma demo_taken : taken (vm_fa demo_vm) demo_frames [0x202000; 0x203000; 0x204000].
Proof.
  pose proof (alloc_frames_ok 3 (vm_fa demo_vm) (vm_fa demo_vm) [] (taken_nil _ (pw_ok _ _ demo_wf))) as Ha.
  rewrite demo_frames_are in Ha. apply Ha.
Qed.

Lemma demo_vm_eta : mkVm (vm_mem demo_vm) (vm_fa demo_vm) = demo_vm.
Proof. generalize demo_vm. by intros []. Qed.

Definition demo_before : Vm Pmm := mkVm (vm_mem demo_vm) demo_frames.
Lemma vm_fa_mk {S} m (f : S) : vm_fa (mkVm m f) = f.
Proof. reflexivity. Qed.
Lemma vm_mem_mk {S} m (f : S) : vm_mem (mkVm m f) = m.
Proof. reflexivity. Qed.
Lemma demo_before_fa : vm_fa demo_before = demo_frames.
Proof. unfold demo_before. exact (vm_fa_mk (vm_mem demo_vm) demo_frames). Qed.
Lemma demo_before_mem : vm_mem demo_before = vm_mem demo_vm.
Proof. unfold demo_before. exact (vm_mem_mk (vm_mem demo_vm) demo_frames). Qed.
Lemma demo_before_wf : pt_wf demo_before demo_root.
Proof.
  pose proof demo_wf as W. rewrite <- demo_vm_eta in W. destruct (tables_kept _ (vm_mem demo_vm) _ demo_frames demo_root W) as [W' _]; [apply demo_taken| |done|exact W'].
  intros f Hf _ Hu. apply (tk_used _ _ _ demo_taken); [done|]. by right.
Qed.

Definition demo_page : Z := 0x400000.
Definition demo_mapped : Vm Pmm := (vmmMapPage demo_before (tbl demo_root) demo_page 0x204000 3).1.

Lemma map_ok (st : Vm Pmm) root v p : pt_wf st root -> no_huge (vm_mem st) root v -> is_u64 v -> is_u64 p -> p < 2 ^ 52 ->
  (vmmMapPage st (tbl root) v p 3).2 = 0 ->
  map_frame st (vmmMapPage st (tbl root) v p 3).1 root (vpath v) /\
  xl (vm_mem (vmmMapPage st (tbl root) v p 3).1) root (vpath v) = Some (leaf_entry p 3, 0%nat).
Proof.
  intros W Hh Hv Hp Hl E0. destruct (vmmMapPage_spec st root v p 3 W Hv Hp Hl) as [M [[E _]|[_ X]]]; try done.
  - rewrite E0 in E. done.
  - split; [done|]. rewrite X by (apply vpath_ok || done). by rewrite decide_True.
Qed.

Lemma demo_returns : (vmmMapPage demo_before (tbl demo_root) demo_page 0x204000 3).2 = 0.
Proof. vm_compute. reflexivity. Qed.

Lemma demo_before_huge v (fa : Pmm) : no_huge (vm_mem (mkVm (vm_mem demo_vm) fa)) demo_root v.
Proof. cbn [vm_mem]. apply demo_no_huge. Qed.

Lemma demo_map_spec : map_frame demo_before demo_mapped demo_root (vpath demo_page) /\
  xl (vm_mem demo_mapped) demo_root (vpath demo_page) = Some (leaf_entry 0x204000 3, 0%nat).
Proof.
  unfold demo_mapped. apply map_ok; [exact demo_before_wf|exact (demo_before_huge _ _)|unfold is_u64, demo_page; lia|unfold is_u64; lia|lia|exact demo_returns].
Qed.

(** The three frames are in use and not page tables. *)
Lemma demo_frame f : f ∈ [0x202000; 0x203000; 0x204000] -> frame_addr f /\ fa_used (vm_fa demo_mapped) f /\ ~ is_table (vm_mem demo_mapped) demo_root f.
Proof.
  intros Hf. pose proof demo_taken as Tk. pose proof (tk_frames _ _ _ Tk) as Hfr. rewrite Forall_forall in Hfr. specialize (Hfr f Hf).
  destruct demo_map_spec as [M _]. assert (Hu : fa_used demo_frames f) by (apply (tk_used _ _ _ Tk); auto).
  rewrite <- demo_before_fa in Hu. split; [exact Hfr|]. split; [exact (mf_used _ _ _ _ M f Hfr Hu)|]. intros (p & Hp & Hl & Hw).
  destruct (mf_back _ _ _ _ M p f Hp Hl Hw) as [Hb|Hb]; [|exact (Hb Hu)]. rewrite demo_before_mem in Hb.
  apply (tk_fresh _ _ _ Tk f Hf). exact (proj2 (pw_used _ _ demo_wf p f Hp Hl Hb)).
Qed.

(** Clearing a frame that is not a page table. *)
Lemma clear_kept {S} `{FrameAllocator S} `{!FrameAllocatorLaws S} (st : Vm S) root g : pt_wf st root -> frame_addr g -> ~ is_table (vm_mem st) root g ->
  let m' := (memset (vm_mem st) (tbl g) 0 PAGE_SIZE).1 in
  pt_wf (mkVm m' (vm_fa st)) root /\ (forall v, vmmVirtToPhys m' (tbl root) v = vmmVirtToPhys (vm_mem st) (tbl root) v) /\
  (forall f, is_table m' root f <-> is_table (vm_mem st) root f).
Proof.
  destruct st as [m fa]. rewrite vm_fa_mk, vm_mem_mk. intros W Hg Ht m'. apply (tables_kept _ _ _ _ _ W); [apply (pw_ok _ _ W)|done|]. intros f x Hf Hfa Hfu Hin.
  pose proof (memset_filled m (tbl g) 0 PAGE_SIZE ltac:(done)) as Fl. unfold m'. rewrite Fl.
  destruct (Z.leb_spec (tbl g) x), (Z.ltb_spec x (tbl g + PAGE_SIZE)); cbn [andb]; try done.
  exfalso. apply Ht. by rewrite <- (in_page_inj f g x).
Qed.

(** The completion queue is cleared. *)
Definition demo_mem : mem := (memset (vm_mem demo_mapped) (tbl 0x203000) 0 PAGE_SIZE).1.

Lemma demo_mem_kept : pt_wf (mkVm demo_mem (vm_fa demo_mapped)) demo_root /\
  (forall v, vmmVirtToPhys demo_mem (tbl demo_root) v = vmmVirtToPhys (vm_mem demo_mapped) (tbl demo_root) v) /\
  (forall f, is_table demo_mem demo_root f <-> is_table (vm_mem demo_mapped) demo_root f).
Proof.
  destruct (demo_frame 0x203000 ltac:(set_solver)) as (F1 & F2 & F3).
  exact (clear_kept demo_mapped demo_root 0x203000 (mf_wf _ _ _ _ (proj1 demo_map_spec)) F1 F3).
Qed.
Lemma memset_clear m a n x : a <= x < a + n -> rd8 (memset m a 0 n).1 x = 0.
Proof.
  intros Hx. pose proof (memset_filled m a 0 n ltac:(lia)) as Fl. rewrite Fl. destruct (Z.leb_spec a x), (Z.ltb_spec x (a + n)); done || lia.
Qed.

Lemma demo_clear x : tbl 0x203000 <= x < tbl 0x203000 + PAGE_SIZE -> rd8 demo_mem x = 0.
Proof. exact (memset_clear (vm_mem demo_mapped) (tbl 0x203000) PAGE_SIZE x). Qed.
#[local] Opaque demo_mapped demo_mem.

Definition demo_T (v : Z) : Z := vmmVirtToPhys demo_mem (tbl demo_root) v.

Lemma demo_translate o : 0 <= o < 4096 -> demo_T (demo_page + o) = 0x204000 + o.
Proof.
  intros Ho. unfold demo_T. destruct demo_mem_kept as (W & HT & _).
  assert (E0 : vmmVirtToPhys demo_mem (tbl demo_root) demo_page = 0x204000).
  { rewrite HT. destruct demo_map_spec as [M X]. pose proof (translate_xl _ _ demo_page (mf_wf _ _ _ _ M)) as Et. unfold translate in Et. rewrite Et, X. reflexivity. }
  rewrite (translate_offset _ _ _ _ _ W), E0; [done|done|lia|exact (proj2 Ho)|by rewrite E0].
Qed.

Definition demo_dev : PciDevice := mkDevice (mkBdf 0 0 0 0) 0 0 0 2 8 1 0 0 0 0 0 [] 0.
Definition demo_ctrl : NvmeController :=
  mkCtrl demo_dev 0x8000 0 0 0 0 0 64 queue0 (set_contexts demo_q (Some (repeat ctx0 4))) 500 0 [mkNs 1 100 512] 1.
Definition demo_w : Nsim := mkNsim demo_mem 0 0 false.
Definition demo_tab := is_table demo_mem demo_root.
Definition demo_used := fa_used (vm_fa demo_mapped).

Lemma demo_data_frame f : f ∈ [0x202000; 0x203000; 0x204000] -> frame_addr f /\ demo_used f /\ ~ demo_tab f.
Proof.
  intros Hf. destruct (demo_frame f Hf) as (H1 & H2 & H3). split; [exact H1|]. split; [exact H2|]. intros Ht. exact (H3 (proj1 (proj2 (proj2 demo_mem_kept) f) Ht)).
Qed.

Lemma demo_rings : rings_in demo_q demo_tab demo_used 0x202000 0x203000.
Proof.
  constructor; [done|done|done| |done]. constructor; [apply demo_data_frame; set_solver|]. constructor; [apply demo_data_frame; set_solver|constructor].
Qed.

Lemma demo_posted : posted demo_mem demo_q 0.
Proof.
  intros j Hj. change (q_size demo_q) with 4 in *. change (cq demo_q) with (tbl 0x203000). pose proof (Z.mod_pos_bound j 4 ltac:(lia)) as Hm.
  assert (E : rd16 demo_mem (tbl 0x203000 + 16 * (j mod 4) + 14) = 0).
  { unfold rd16. cbn [rd]. rewrite !demo_clear by (unfold PAGE_SIZE; lia). done. }
  rewrite E. clear E. assert (Ej : j / 4 = -1) by (clear -Hj; divlia). unfold phase. rewrite Ej. reflexivity.
Qed.

Lemma demo_env : env demo_q nsim_state demo_root demo_T demo_tab demo_used demo_w (vm_fa demo_mapped) demo_ctrl 0.
Proof.
  constructor.
  - constructor; [reflexivity|by constructor|reflexivity|exact demo_posted|by split|reflexivity].
  - exact (proj1 demo_mem_kept).
  - intros v. reflexivity.
  - intros f. reflexivity.
  - intros f _. reflexivity.
Qed.

Lemma demo_buffer : buffer demo_T demo_tab demo_used 0x202000 0x203000 demo_page 1024.
Proof.
  constructor.
  - intros o Ho. exists 0x204000. destruct (demo_data_frame 0x204000 ltac:(set_solver)) as (F1 & F2 & F3). split; [split; [exact F1|split; [exact F2|split; [exact F3|by split]]]|].
    rewrite demo_translate by lia. f_equal. unfold demo_page, PAGE_SIZE. divlia.
  - intros o o' Ho Ho' E. rewrite (demo_translate o ltac:(clear -Ho; lia)), (demo_translate o' ltac:(clear -Ho'; lia)) in E. clear -E. lia.
  - unfold demo_page. lia.
Qed.

Lemma demo_healthy : healthy demo_q demo_bs demo_disk nsim_state (fun _ => true) demo_used demo_ctrl 1024.
Proof.
  split; [|done]. split; [|by right]. intros w n [Hd Hp]. unfold elapse, mm, nsim_machine, nsim_state. rewrite Hp. cbn [v_mem v_done v_pend]. rewrite Hd.
  split; [done|]. exists (phase 4 n). split; [apply serve_executes|]. unfold phase. assert (E : (n / 4) mod 2 = 0 \/ (n / 4) mod 2 = 1) by divlia. by destruct E as [-> | ->].
Qed.

(** Two blocks, read by interrupt. *)
Lemma nvme_read_correct_witness : exists w' fa' q', nvme_read (fun _ => true) (tbl demo_root) (Z.to_nat 500) demo_w (vm_fa demo_mapped) demo_ctrl 1 3 2 demo_page =
    Some (w', fa', set_io demo_ctrl q', 0) /\
  forall o, 0 <= o < 1024 -> rd8 (mm w') (tbl (0x204000 + o)) = demo_disk 1 (3 * 512 + o).
Proof.
  destruct (nvme_read_correct demo_q demo_bs demo_disk nsim_state 1 v_tick (fun _ => true) demo_root demo_T demo_tab demo_used 0x202000 0x203000
    demo_w (vm_fa demo_mapped) demo_ctrl 0 (Z.to_nat 500) (mkNs 1 100 512) 1 3 2 demo_page nsim_device nsim_clock demo_rings demo_env) as (w' & fa' & q' & r & E & _ & Hz & Hh).
  - done.
  - rewrite Z2Nat.id; done.
  - reflexivity.
  - reflexivity.
  - done.
  - done.
  - done.
  - done.
  - done.
  - done.
  - exact demo_buffer.
  - rewrite (Hh demo_healthy) in E, Hz. exists w', fa', q'. split; [exact E|]. intros o Ho. rewrite <- demo_translate by lia. exact (fi_data _ _ _ _ _ _ _ _ _ _ _ _ _ _ _ _ _ (Hz eq_refl) o Ho).
Defined.

Lemma build_prps_correct_witness : exists w' fa' r, build_prps (tbl demo_root) demo_w (vm_fa demo_mapped) (demo_page + 3072) 2048 = Some (w', fa', r).
Proof.
  destruct (build_prps_correct demo_w (vm_fa demo_mapped) demo_root (demo_page + 3072) 2048) as (w' & fa' & r & E & _).
  - exact (proj1 demo_mem_kept).
  - done.
  - done.
  - done.
  - change (vmmVirtToPhys (mm demo_w) (tbl demo_root) (demo_page + 3072)) with (demo_T (demo_page + 3072)). rewrite demo_translate; done.
  - exists w', fa', r. exact E.
Defined.

(** One completion of command 2 has been posted. *)
Definition irq_mem : mem := wr16 (wr16 ∅ (tbl 0x203000 + 12) 2) (tbl 0x203000 + 14) 1.

Lemma irq_posted : posted irq_mem demo_q 1.
Proof.
  intros j Hj. assert (j = -3 \/ j = -2 \/ j = -1 \/ j = 0) as [-> | [-> | [-> | ->]]] by (change (q_size demo_q) with 4 in *; lia); vm_compute; reflexivity.
Qed.

Lemma irq_cid2 : 0 <= 2 < q_size (io_queue demo_ctrl).
Proof. done. Qed.
Lemma irq_cid3 : 0 <= 3 < q_size (io_queue demo_ctrl).
Proof. done. Qed.

Lemma nvme_irq_correct_witness : exists q', irq_controller 5 (mkNsim irq_mem 0 0 false) demo_ctrl = Some (mkNsim irq_mem 0 0 false, set_io demo_ctrl q') /\
  head_at q' 1 /\ Nvme.done (get_context q' 2) = 1 /\ Nvme.done (get_context q' 3) = 0.
Proof.
  destruct (nvme_irq_correct (mkNsim irq_mem 0 0 false) demo_ctrl (repeat ctx0 4) 0 1 5) as (q' & E & Hh & _ & _ & Hc).
  - done.
  - done.
  - reflexivity.
  - reflexivity.
  - done.
  - by constructor.
  - exact irq_posted.
  - done.
  - done.
  - exists q'. split; [exact E|]. split; [exact Hh|]. split.
    + rewrite (Hc 2 irq_cid2). vm_compute. reflexivity.
    + rewrite (Hc 3 irq_cid3). vm_compute. reflexivity.
Defined.
