(* ===== verification/Acpi.v ===== *)
(** * Firmware tables and timers

    ACPI/acpi.c: the tables the firmware lists, checked by their checksums,
    and the look-up by signature.  ACPI/hpet.c: the counter the kernel tells
    the time by.  ACPI/lapic.c: finding and starting the local interrupt
    controller and its timer.  Tables lie in physical memory, which the
    kernel reads through the direct map; device registers are accessed
    through the machine. *)

From Stdlib Require Import ZArith Lia Bool.
From stdpp Require Import base list gmap.
From S2P Require Import Prelude Mem Frames PageTable Machine Pcie.

(** ** Tables *)

Record AcpiTableEntry := mkEntry { tab_phys : Z; tab_sig : list Z }.
(** [g_tables]: [None] for NULL; its first [g_table_count] entries. *)
Record Acpi := mkAcpi { g_tables : option (list AcpiTableEntry); g_table_count : Z; g_acpi_rev : Z }.

Definition sig_rsdp : list Z := [82; 83; 68; 32; 80; 84; 82; 32].
Definition sig_mcfg : list Z := [77; 67; 70; 71].
Definition sig_hpet : list Z := [72; 80; 69; 84].
Definition sig_apic : list Z := [65; 80; 73; 67].
Definition sig_facp : list Z := [70; 65; 67; 80].

Fixpoint sum_bytes (n : nat) (m : mem) (a sum : Z) : Z :=
  match n with
  | O => sum
  | S k => sum_bytes k m (a + 1) (u8 (sum + rd8 m a))
  end.

Definition acpi_verify_checksum (m : mem) (addr length : Z) : bool := sum_bytes (Z.to_nat length) m addr 0 =? 0.

(** 0 is NULL. *)
Definition acpi_map_table (addr : Z) : Z :=
  if addr =? 0 then 0 else if HHDM_BASE <=? addr then addr else u64 (addr + HHDM_BASE).

(** Fields of the root pointer and of a table header. *)
Definition rsdp_revision (m : mem) (r : Z) : Z := rd8 m (r + 15).
Definition rsdp_length (m : mem) (r : Z) : Z := rd32 m (r + 20).
Definition rsdp_xsdt (m : mem) (r : Z) : Z := rd64 m (r + 24).
Definition hdr_length (m : mem) (h : Z) : Z := rd32 m (h + 4).
Definition hdr_sig (m : mem) (h : Z) : list Z := bytes_at m h 4.
Definition sizeof_AcpiSdtHeader : Z := 36.

(** The loop over the entries of the XSDT: those that are indexed. *)
Fixpoint index_tables (n : nat) (m : mem) (entry : Z) : list AcpiTableEntry :=
  match n with
  | O => []
  | S k =>
      let phys := rd64 m entry in
      let rest := index_tables k m (entry + 8) in
      if phys =? 0 then rest
      else
        let hdr := acpi_map_table phys in
        if hdr =? 0 then rest
        else if negb (acpi_verify_checksum m hdr (hdr_length m hdr)) then rest
        else mkEntry phys (hdr_sig m hdr) :: rest
  end.

(** How many entries the XSDT at [x] says it has. *)
Definition xsdt_count (m : mem) (x : Z) : Z := u64 (hdr_length m x - sizeof_AcpiSdtHeader) / 8.

Definition acpi_init (m : mem) (kmalloc_ok : Z -> bool) (st : Acpi) (rsdp_phys : Z) : Acpi :=
  if rsdp_phys =? 0 then st
  else
    let rsdp := acpi_map_table rsdp_phys in
    if rsdp =? 0 then st
    else if negb (bool_decide (bytes_at m rsdp 8 = sig_rsdp)) then st
    else if negb (acpi_verify_checksum m rsdp 20) then st
    else
      let st1 := mkAcpi (g_tables st) (g_table_count st) (rsdp_revision m rsdp) in
      if (rsdp_revision m rsdp <? 2) || (rsdp_xsdt m rsdp =? 0) then st1
      else if negb (acpi_verify_checksum m rsdp (rsdp_length m rsdp)) then st1
      else
        let xsdt := acpi_map_table (rsdp_xsdt m rsdp) in
        if xsdt =? 0 then st1
        else if negb (acpi_verify_checksum m xsdt (hdr_length m xsdt)) then st1
        else
          let count := xsdt_count m xsdt in
          let st2 := mkAcpi (g_tables st) count (g_acpi_rev st1) in
          if count =? 0 then st2
          else if negb (kmalloc_ok (u64 (count * 16))) then mkAcpi None count (g_acpi_rev st1)
          else
            let l := index_tables (Z.to_nat count) m (xsdt + 36) in
            mkAcpi (Some l) (Z.of_nat (length l)) (g_acpi_rev st1).

(** The search for the [index]-th table with the signature. *)
Fixpoint find_entry (l : list AcpiTableEntry) (sig : list Z) (index match_count : Z) : Z :=
  match l with
  | [] => 0
  | e :: r =>
      if bool_decide (tab_sig e = sig) then
        if match_count =? index then acpi_map_table (tab_phys e) else find_entry r sig index (match_count + 1)
      else find_entry r sig index match_count
  end.

Definition acpi_find_table (st : Acpi) (sig : list Z) (index : Z) : Z :=
  match g_tables st with
  | None => 0
  | Some l => find_entry (take (Z.to_nat (g_table_count st)) l) sig index 0
  end.

Definition read_allocation (m : mem) (a : Z) : AcpiMcfgAllocation :=
  mkSegment (rd64 m a) (rd16 m (a + 8)) (rd8 m (a + 10)) (rd8 m (a + 11)).

(** The windows the MCFG table lists; [None] for NULL. *)
Definition acpi_get_mcfg_allocations (m : mem) (st : Acpi) : option (list AcpiMcfgAllocation) :=
  let mcfg := acpi_find_table st sig_mcfg 0 in
  if (mcfg =? 0) || (hdr_length m mcfg <? 44) then None
  else
    let num := (hdr_length m mcfg - 44) / 16 in
    Some ((fun i => read_allocation m (mcfg + 44 + 16 * i)) <$> seqZ 0 num).

(** ** The HPET *)

Definition FEMTOSECONDS_PER_SECOND : Z := 1000000000000000.
Definition FEMTOSECONDS_PER_MICRO : Z := 1000000000.
Definition FEMTOSECONDS_PER_MILLI : Z := 1000000000000.
Definition FEMTOSECONDS_PER_NANO : Z := 1000000.

Record Hpet := mkHpet { g_hpet_base : Z; g_period_fs : Z; g_frequency_hz : Z; g_is_64bit : bool }.
Definition hpet0 : Hpet := mkHpet 0 0 0 false.

Section Timers.
Context {W : Type} `{Machine W} {S : Type} `{FrameAllocator S}.
Context (pml4 : Z).
Abbreviation Pc := (Pc W S).

Definition hpet_read_reg (h : Hpet) (offset : Z) : Pc Z := io_load 8 (g_hpet_base h + offset).
Definition hpet_write_reg (h : Hpet) (offset value : Z) : Pc unit := io_store 8 (g_hpet_base h + offset) value.

(** [table]: the address of the HPET table, 0 when there is none.  A window
    that cannot be mapped is used all the same. *)
Definition hpet_init (table : Z) (h : Hpet) : Pc Hpet := fun s =>
  if table =? 0 then (s, h)
  else if negb (rd8 (mm (pc_w s)) (table + 40) =? 0) then (s, h)
  else
    let phys := rd64 (mm (pc_w s)) (table + 44) in
    let virt := u64 (phys + HHDM_BASE) in
    (_ ← map_window pml4 virt phys;
     let h1 := mkHpet virt (g_period_fs h) (g_frequency_hz h) (g_is_64bit h) in
     caps ← hpet_read_reg h1 0;
     let h2 := mkHpet virt (u32 (Z.shiftr caps 32)) (g_frequency_hz h) (has caps (2 ^ 13)) in
     if (g_period_fs h2 =? 0) || (100000000 <? g_period_fs h2) then mret h2
     else
       let h3 := mkHpet virt (g_period_fs h2) (FEMTOSECONDS_PER_SECOND / g_period_fs h2) (g_is_64bit h2) in
       config ← hpet_read_reg h3 0x10;
       hpet_write_reg h3 0x10 (Z.lor (u64 (Z.land config (Z.lnot 2))) 1);;
       mret h3) s.

(** Reading the main counter takes time. *)
Definition hpet_read_counter (h : Hpet) (w : W) : W * Z :=
  if g_hpet_base h =? 0 then (w, 0) else io_rd (elapse w) 8 (g_hpet_base h + 0xF0).

Definition hpet_get_frequency (h : Hpet) : Z := g_frequency_hz h.

(** A counter value in units of [unit] femtoseconds. *)
Definition counter_time (h : Hpet) (counter unit : Z) : Z := u64 (counter * g_period_fs h) / unit.

Definition hpet_get_nanos (h : Hpet) (w : W) : W * Z :=
  if g_period_fs h =? 0 then (w, 0)
  else let '(w1, c) := hpet_read_counter h w in (w1, counter_time h c FEMTOSECONDS_PER_NANO).
Definition hpet_millis (h : Hpet) (w : W) : W * Z :=
  if g_period_fs h =? 0 then (w, 0)
  else let '(w1, c) := hpet_read_counter h w in (w1, counter_time h c FEMTOSECONDS_PER_MILLI).

(** Waiting until the counter has gained [ticks]; [None] without fuel. *)
Fixpoint wait_ticks (fuel : nat) (h : Hpet) (w : W) (start ticks : Z) : option W :=
  match fuel with
  | O => None
  | Datatypes.S k =>
      let '(w1, c) := hpet_read_counter h w in
      let more := if g_is_64bit h then u64 (c - start) <? ticks else u32 (c - start) <? u32 ticks in
      if more then wait_ticks k h w1 start ticks else Some w1
  end.

Definition sleep_units (fuel : nat) (h : Hpet) (w : W) (n unit : Z) : option W :=
  if (g_hpet_base h =? 0) || (g_period_fs h =? 0) || (n =? 0) then Some w
  else
    let ticks_needed := u64 (n * unit) / g_period_fs h in
    let '(w1, start) := hpet_read_counter h w in
    wait_ticks fuel h w1 start ticks_needed.

Definition hpet_sleep_us (fuel : nat) (h : Hpet) (w : W) (us : Z) : option W := sleep_units fuel h w us FEMTOSECONDS_PER_MICRO.
Definition hpet_sleep_ms (fuel : nat) (h : Hpet) (w : W) (ms : Z) : option W := sleep_units fuel h w ms FEMTOSECONDS_PER_MILLI.

(** ** The local APIC *)

Record Lapic := mkLapic { g_lapic_base : Z; g_lapic_phys : Z; g_ticks_per_ms : Z }.

(** The records of the MADT: the first override of the address, or [dflt]. *)
Fixpoint madt_records (fuel : nat) (m : mem) (curr stop dflt : Z) : option Z :=
  match fuel with
  | O => None
  | Datatypes.S k =>
      if curr <? stop then
        if rd8 m (curr + 1) =? 0 then Some dflt
        else if (rd8 m curr =? 5) && (12 <=? rd8 m (curr + 1)) then Some (rd64 m (curr + 4))
        else madt_records k m (curr + rd8 m (curr + 1)) stop dflt
      else Some dflt
  end.

Definition MSR_ADDR_MASK : Z := 0x000FFFFFFFFFF000.

(** The address of the registers and the new value of the base MSR. *)
Definition discover_lapic_phys (m : mem) (madt msr_val : Z) : option (Z * Z) :=
  p ← (if madt =? 0 then Some 0
       else madt_records (Z.to_nat (hdr_length m madt) + 1) m (madt + 44) (madt + hdr_length m madt) (rd32 m (madt + 36)));
  let msr_phys := Z.land msr_val MSR_ADDR_MASK in
  let phys := if p =? 0 then msr_phys else p in
  let v := if negb (phys =? msr_phys) then Z.lor (u64 (Z.land msr_val (Z.lnot MSR_ADDR_MASK))) (Z.land phys MSR_ADDR_MASK) else msr_val in
  Some (phys, Z.lor v (2 ^ 11)).

Definition lapic_read (l : Lapic) (reg : Z) : Pc Z := io_load 4 (g_lapic_base l + reg).
Definition lapic_write (l : Lapic) (reg v : Z) : Pc unit := io_store 4 (g_lapic_base l + reg) v.

Definition LVT_MASKED : Z := 2 ^ 16.

Definition lapic_get_id (l : Lapic) : Pc Z :=
  if g_lapic_base l =? 0 then mret 0 else v ← lapic_read l 0x20; mret (Z.shiftr v 24).

(** The sleep of the calibration. *)
Definition pc_sleep_ms (fuel : nat) (h : Hpet) (ms : Z) : Pc bool := fun s =>
  match hpet_sleep_ms fuel h (pc_w s) ms with
  | None => (s, false)
  | Some w => (with_w s w, true)
  end.

(** [None] when the waiting runs out of fuel; otherwise the state and the
    value written to the base MSR. *)
Definition lapic_init (fuel : nat) (h : Hpet) (madt msr_val : Z) (l : Lapic) : Pc (option (Lapic * Z)) := fun s =>
  match discover_lapic_phys (mm (pc_w s)) madt msr_val with
  | None => (s, None)
  | Some (phys, msr) =>
      let l1 := mkLapic (g_lapic_base l) phys (g_ticks_per_ms l) in
      if phys =? 0 then (s, Some (l1, msr))
      else
        let virt := u64 (phys + HHDM_BASE) in
        let l2 := mkLapic virt phys (g_ticks_per_ms l) in
        (_ ← map_window pml4 virt phys;
         lapic_write l2 0x080 0;;
         lapic_write l2 0x0E0 0xFFFFFFFF;;
         ldr ← lapic_read l2 0x0D0;
         lapic_write l2 0x0D0 (Z.lor (Z.land ldr 0x00FFFFFF) 1);;
         lapic_write l2 0x320 LVT_MASKED;;
         lapic_write l2 0x340 LVT_MASKED;;
         lapic_write l2 0x350 LVT_MASKED;;
         lapic_write l2 0x360 LVT_MASKED;;
         lapic_write l2 0x370 0xFE;;
         lapic_write l2 0x280 0;;
         lapic_write l2 0x280 0;;
         lapic_write l2 0x0F0 (Z.lor (2 ^ 8) 0xFF);;
         lapic_write l2 0x3E0 3;;
         lapic_write l2 0x380 0xFFFFFFFF;;
         slept ← pc_sleep_ms fuel h 10;
         if negb slept then mret None
         else
           remaining ← lapic_read l2 0x390;
           let l3 := mkLapic virt phys (u32 (0xFFFFFFFF - remaining) / 10) in
           lapic_write l3 0x380 0;;
           lapic_write l3 0x320 LVT_MASKED;;
           mret (Some (l3, msr))) s
  end.

Definition timer_count (l : Lapic) (frequency_hz : Z) : Z :=
  let c := u64 (g_ticks_per_ms l * 1000) / frequency_hz in if 0xFFFFFFFF <? c then 0xFFFFFFFF else c.

Definition lapic_timer_start (l : Lapic) (frequency_hz vector : Z) : Pc unit :=
  if (g_lapic_base l =? 0) || (g_ticks_per_ms l =? 0) || (frequency_hz =? 0) then mret tt
  else
    lapic_write l 0x3E0 3;;
    lapic_write l 0x320 (Z.lor (2 ^ 17) vector);;
    lapic_write l 0x380 (timer_count l frequency_hz).

Definition lapic_timer_stop (l : Lapic) : Pc unit :=
  if g_lapic_base l =? 0 then mret tt else lapic_write l 0x380 0;; lapic_write l 0x320 LVT_MASKED.

Definition lapic_eoi (l : Lapic) : Pc unit := if g_lapic_base l =? 0 then mret tt else lapic_write l 0xB0 0.
Definition lapic_get_ticks_per_ms (l : Lapic) : Z := g_ticks_per_ms l.

(** ** Reset *)

(** Writes to I/O ports: width in bits, port, value. *)
Record PortOut := mkOut { out_width : Z; out_port : Z; out_val : Z }.
Definition width_of (bits : Z) : Z := if bits =? 16 then 16 else if bits =? 32 then 32 else 8.

(** What is written on the way to a reset; after that the processor is
    brought down.  [fadt]: the address of the table, 0 when there is none. *)
Definition acpi_reboot (fadt : Z) : Pc (list PortOut) := fun s =>
  let m := mm (pc_w s) in
  let last := [mkOut 8 0xCF9 2; mkOut 8 0xCF9 6] in
  if negb (fadt =? 0) && has (rd32 m (fadt + 112)) (2 ^ 10) then
    let space := rd8 m (fadt + 116) in
    let width := rd8 m (fadt + 117) in
    let address := rd64 m (fadt + 120) in
    let val := rd8 m (fadt + 128) in
    if space =? 1 then (s, mkOut (width_of width) (u16 address) val :: last)
    else if (space =? 0) && negb (address =? 0) then
      let virt := u64 (address + HHDM_BASE) in
      (_ ← map_window pml4 virt address;
       io_store (Z.to_nat (width_of width / 8)) virt val;;
       mret last) s
    else (s, last)
  else (s, last).
End Timers.
