(* ===== verification/AcpiProps.v ===== *)
(** * Theorems on the firmware tables and the timers *)

From Stdlib Require Import ZArith Lia Bool.
From stdpp Require Import base list gmap.
From S2P Require Import Prelude Mem Frames Pmm PageTable Machine Pcie Acpi.

(** ** Checksums *)

Definition byte_sum (m : mem) (a : Z) (n : nat) : Z := foldr Z.add 0 (bytes_at m a n).

Lemma bytes_at_S m a n : bytes_at m a (S n) = rd8 m a :: bytes_at m (a + 1) n.
Proof.
  unfold bytes_at. cbn [seq map]. f_equal; [by rewrite Z.add_0_r|]. rewrite <- seq_shift, map_map. apply map_ext. intros i. f_equal. lia.
Qed.

Lemma sum_bytes_ok n : forall m a s, sum_bytes n m a (u8 s) = u8 (s + byte_sum m a n).
Proof.
  induction n as [|n IH]; intros m a s; cbn [sum_bytes].
  - unfold byte_sum, bytes_at. cbn. f_equal. lia.
  - unfold byte_sum in *. rewrite bytes_at_S. cbn [foldr]. replace (u8 (u8 s + rd8 m a)) with (u8 (s + rd8 m a)) by (unfold u8; by rewrite Z.add_mod_idemp_l by lia).
    rewrite IH. f_equal. lia.
Qed.

(** The bytes of a table sum to zero. *)
Definition checksum_ok (m : mem) (a n : Z) : Prop := byte_sum m a (Z.to_nat n) mod 256 = 0.
#[export] Instance checksum_ok_dec m a n : Decision (checksum_ok m a n).
Proof. unfold checksum_ok. apply _. Defined.

Lemma verify_checksum_ok m a n : acpi_verify_checksum m a n = bool_decide (checksum_ok m a n).
Proof.
  unfold acpi_verify_checksum. change 0 with (u8 0) at 1. rewrite sum_bytes_ok, Z.add_0_l. unfold checksum_ok, u8. change (2 ^ 8) with 256.
  destruct (Z.eqb_spec (byte_sum m a (Z.to_nat n) mod 256) 0); symmetry; [by apply bool_decide_true|by apply bool_decide_false].
Qed.

(** ** The index of tables *)

Definition listed (m : mem) (xsdt n : Z) : list Z := (fun i => rd64 m (xsdt + 36 + 8 * i)) <$> seqZ 0 n.
Definition valid_table (m : mem) (p : Z) : Prop := p <> 0 /\ acpi_map_table p <> 0 /\ checksum_ok m (acpi_map_table p) (hdr_length m (acpi_map_table p)).
#[export] Instance valid_table_dec m p : Decision (valid_table m p).
Proof. unfold valid_table. apply _. Defined.

Definition entry_of (m : mem) (p : Z) : AcpiTableEntry := mkEntry p (hdr_sig m (acpi_map_table p)).

Lemma index_tables_ok n : forall m a, index_tables n m a = entry_of m <$> filter (valid_table m) ((fun i => rd64 m (a + 8 * i)) <$> seqZ 0 (Z.of_nat n)).
Proof.
  induction n as [|n IH]; intros m a; [done|]. cbn [index_tables]. rewrite Nat2Z.inj_succ, seqZ_cons by lia. cbn [fmap list_fmap].
  rewrite Z.mul_0_r, Z.add_0_r, Z.pred_succ, IH. rewrite <- (fmap_add_seqZ 1 0), <- list_fmap_compose.
  replace ((fun i => rd64 m (a + 8 + 8 * i)) <$> seqZ 0 (Z.of_nat n)) with (((fun i => rd64 m (a + 8 * i)) ∘ Z.add 1) <$> seqZ 0 (Z.of_nat n)).
  2: { apply list_fmap_ext. intros k i _. unfold compose. f_equal. lia. }
  set (rest := _ <$> seqZ 0 _). rewrite verify_checksum_ok. unfold filter, list_filter. fold (filter (valid_table m) rest).
  destruct (Z.eqb_spec (rd64 m a) 0) as [E0|E0].
  { rewrite decide_False; [done|]. intros [Hv _]. done. }
  destruct (Z.eqb_spec (acpi_map_table (rd64 m a)) 0) as [E1|E1].
  { rewrite decide_False; [done|]. intros (_ & Hv & _). done. }
  case_bool_decide as Ec; cbn [negb].
  - rewrite decide_True by done. done.
  - rewrite decide_False; [done|]. intros (_ & _ & Hv). done.
Qed.

Lemma find_entry_ok l sig index : forall k, k <= index -> find_entry l sig index k =
  match filter (fun e => tab_sig e = sig) l !! Z.to_nat (index - k) with Some e => acpi_map_table (tab_phys e) | None => 0 end.
Proof.
  induction l as [|e l IH]; intros k Hk; [done|]. cbn [find_entry]. rewrite filter_cons. case_bool_decide as Es.
  - rewrite decide_True by done. destruct (Z.eqb_spec k index) as [->|Hne]; [by rewrite Z.sub_diag|].
    rewrite IH by lia. replace (Z.to_nat (index - k)) with (S (Z.to_nat (index - (k + 1)))) by lia. done.
  - rewrite decide_False by done. by apply IH.
Qed.

Lemma filter_entries m sig (l : list Z) : filter (fun e => tab_sig e = sig) (entry_of m <$> l) = entry_of m <$> filter (fun p => hdr_sig m (acpi_map_table p) = sig) l.
Proof.
  induction l as [|p l IH]; [done|]. cbn [fmap list_fmap]. rewrite !filter_cons. cbn [entry_of tab_sig].
  destruct (decide (hdr_sig m (acpi_map_table p) = sig)) as [E|E]; [cbn [fmap list_fmap]; by f_equal|done].
Qed.

(** The firmware's root pointer and list are in order. *)
Record firmware_ok (m : mem) (rsdp_phys : Z) : Prop := {
  fw_nonnull : rsdp_phys <> 0 /\ acpi_map_table rsdp_phys <> 0;
  fw_sig : bytes_at m (acpi_map_table rsdp_phys) 8 = sig_rsdp;
  fw_sum20 : checksum_ok m (acpi_map_table rsdp_phys) 20;
  fw_rev : 2 <= rsdp_revision m (acpi_map_table rsdp_phys);
  fw_sum : checksum_ok m (acpi_map_table rsdp_phys) (rsdp_length m (acpi_map_table rsdp_phys));
  fw_xsdt : let x := acpi_map_table (rsdp_xsdt m (acpi_map_table rsdp_phys)) in
    rsdp_xsdt m (acpi_map_table rsdp_phys) <> 0 /\ x <> 0 /\ 44 <= hdr_length m x /\ checksum_ok m x (hdr_length m x)
}.

(** C36: After [acpi_init] on firmware in order, [acpi_find_table] with a
    signature and an index gives the address of the [index]-th table of that
    signature among the tables of the XSDT, in its order, that are present
    and whose bytes sum to zero; NULL when there are fewer. *)
Theorem acpi_find_table_correct m km st rsdp_phys sig index : firmware_ok m rsdp_phys -> (forall n, km n = true) -> 0 <= index ->
  let xsdt := acpi_map_table (rsdp_xsdt m (acpi_map_table rsdp_phys)) in
  let tables := filter (valid_table m) (listed m xsdt ((hdr_length m xsdt - 36) / 8)) in
  acpi_find_table (acpi_init m km st rsdp_phys) sig index =
    match filter (fun p => hdr_sig m (acpi_map_table p) = sig) tables !! Z.to_nat index with Some p => acpi_map_table p | None => 0 end.
Proof.
  intros [[F1 F1'] F2 F3 F4 F5 (F6 & F7 & F8 & F9)] Hkm Hi xsdt tables. unfold acpi_init. destruct (Z.eqb_spec rsdp_phys 0); [done|].
  set (r := acpi_map_table rsdp_phys) in *. destruct (Z.eqb_spec r 0); [done|]. rewrite !verify_checksum_ok, !bool_decide_true by done. cbn [negb].
  destruct (Z.ltb_spec (rsdp_revision m r) 2); [lia|]. destruct (Z.eqb_spec (rsdp_xsdt m r) 0); [done|]. cbn [orb]. fold xsdt. fold xsdt in F7, F8, F9.
  destruct (Z.eqb_spec xsdt 0); [done|]. cbn [negb].
  assert (Hc : xsdt_count m xsdt = (hdr_length m xsdt - 36) / 8).
  { unfold xsdt_count, sizeof_AcpiSdtHeader. rewrite u64_id; [done|]. pose proof (rd_range 4 m (xsdt + 4)) as Hr. change (rd 4 m (xsdt + 4)) with (hdr_length m xsdt) in Hr. change (256 ^ Z.of_nat 4) with (2 ^ 32) in Hr. unfold is_u64. lia. }
  rewrite Hc, Hkm. set (cnt := (hdr_length m xsdt - 36) / 8) in *. assert (Hn : 0 < cnt) by (unfold cnt; clear -F8; divlia). destruct (Z.eqb_spec cnt 0); [lia|]. cbn [negb].
  unfold acpi_find_table. cbn [g_tables g_table_count]. rewrite Nat2Z.id, firstn_all, find_entry_ok, Z.sub_0_r by lia. rewrite index_tables_ok, Z2Nat.id by lia.
  fold (listed m xsdt cnt). fold tables. rewrite filter_entries, list_lookup_fmap. by destruct (_ !! _).
Qed.

(** ** The local APIC's address *)

(** The walk over the records of the MADT ends, whatever they hold. *)
Lemma madt_records_total fuel : forall m curr stop dflt, (0 < fuel)%nat -> stop - curr < Z.of_nat fuel -> exists p, madt_records fuel m curr stop dflt = Some p.
Proof.
  induction fuel as [|fuel IH]; intros m curr stop dflt H0 Hf; cbn [madt_records].
  - lia.
  - destruct (Z.ltb_spec curr stop); [|eauto]. pose proof (rd8_range m (curr + 1)). destruct (Z.eqb_spec (rd8 m (curr + 1)) 0); [eauto|].
    destruct (_ && _); [eauto|]. apply IH; lia.
Qed.

Lemma discover_lapic_total m madt msr : exists r, discover_lapic_phys m madt msr = Some r.
Proof.
  unfold discover_lapic_phys. destruct (madt =? 0); [cbn; eauto|]. pose proof (rd_range 4 m (madt + 4)) as Hr. change (rd 4 m (madt + 4)) with (hdr_length m madt) in Hr.
  destruct (madt_records_total (Z.to_nat (hdr_length m madt) + 1) m (madt + 44) (madt + hdr_length m madt) (rd32 m (madt + 36))) as [p ->]; [lia|lia|]. cbn. eauto.
Qed.

(** ** Telling the time *)
Section Sleep.
Context {W : Type} `{Machine W}.

(** The main counter is 64 bits wide; it runs on between two readings. *)
Definition counter64 (h : Hpet) (ticks : W -> Z) : Prop := forall w,
  let '(w1, v) := hpet_read_counter h w in v = u64 (ticks w1) /\ ticks w + 1 <= ticks w1 <= ticks w + 2 ^ 32.

Context (h : Hpet) (ticks : W -> Z) (C : counter64 h ticks) (H64 : g_is_64bit h = true).

Lemma wait_ticks_ok need start fuel : 0 <= need < 2 ^ 63 -> forall w, start <= ticks w < start + need + 2 ^ 33 -> start + need <= ticks w + Z.of_nat fuel -> (0 < fuel)%nat ->
  exists w', wait_ticks fuel h w (u64 start) need = Some w' /\ start + need <= ticks w' /\ ticks w < ticks w'.
Proof.
  intros Hn. induction fuel as [|fuel IH]; intros w Hw Hf H0'; [lia|]. cbn [wait_ticks]. pose proof (C w) as Cw.
  destruct (hpet_read_counter h w) as [w1 v]. destruct Cw as [-> Ht]. rewrite H64.
  destruct (Z.lt_ge_cases (ticks w1) (start + need + 2 ^ 33)) as [Hlt|Hge].
  - assert (E : u64 (u64 (ticks w1) - u64 start) = ticks w1 - start). { unfold u64. rewrite <- Zminus_mod. apply Z.mod_small. lia. }
    rewrite E. destruct (Z.ltb_spec (ticks w1 - start) need) as [Hl|Hg]; [|exists w1; split_and!; [done|lia|lia]].
    destruct (IH w1) as (w' & E' & H1 & H2); [lia|lia|lia|]. exists w'. split_and!; [done|lia|lia].
  - assert (E : u64 (u64 (ticks w1) - u64 start) = ticks w1 - start). { unfold u64. rewrite <- Zminus_mod. apply Z.mod_small. lia. }
    rewrite E. destruct (Z.ltb_spec (ticks w1 - start) need); [lia|]. exists w1. split_and!; [done|lia|lia].
Qed.

(** Sleeping with a 64-bit counter, for a time of less than 2^63
    femtoseconds: it returns, after no more than as many readings as the time
    has ticks, and not before the time is over. *)
Lemma sleep_units_ok fuel w n unit : g_hpet_base h <> 0 -> 0 < g_period_fs h -> 0 < n -> 0 < unit -> n * unit < 2 ^ 63 -> n * unit / g_period_fs h < Z.of_nat fuel ->
  exists w', sleep_units fuel h w n unit = Some w' /\ n * unit < (ticks w' - ticks w) * g_period_fs h.
Proof.
  intros Hb Hp Hn Hu Hm Hf. unfold sleep_units. destruct (Z.eqb_spec (g_hpet_base h) 0); [done|]. destruct (Z.eqb_spec (g_period_fs h) 0); [lia|]. destruct (Z.eqb_spec n 0); [lia|]. cbn [orb].
  rewrite u64_id by (unfold is_u64; nia). set (need := n * unit / g_period_fs h) in *. pose proof (C w) as Cw. destruct (hpet_read_counter h w) as [w1 v]. destruct Cw as [-> Ht].
  assert (Hneed : 0 <= need) by (apply Z.div_pos; nia). assert (need <= n * unit) by (apply Z.div_le_upper_bound; nia).
  destruct (wait_ticks_ok need (ticks w1) fuel ltac:(lia) w1) as (w' & E & H1 & H2); [lia|lia|lia|]. exists w'. split; [done|].
  pose proof (Z.div_mod (n * unit) (g_period_fs h) ltac:(lia)) as Hd. fold need in Hd. pose proof (Z.mod_pos_bound (n * unit) (g_period_fs h) Hp). nia.
Qed.
End Sleep.

(** Sleeping microseconds or milliseconds with a 64-bit counter that runs
    on, for less than 2^63 femtoseconds (two and a half hours): it returns,
    after no more readings of the counter than the time has ticks, and the
    counter has then gained more than the time asked for. *)
Theorem hpet_sleep_correct {W} `{Machine W} h (ticks : W -> Z) fuel w n : counter64 h ticks -> g_is_64bit h = true -> g_hpet_base h <> 0 -> 0 < g_period_fs h -> 0 < n ->
  (n * FEMTOSECONDS_PER_MILLI < 2 ^ 63 -> n * FEMTOSECONDS_PER_MILLI / g_period_fs h < Z.of_nat fuel ->
   exists w', hpet_sleep_ms fuel h w n = Some w' /\ n * FEMTOSECONDS_PER_MILLI < (ticks w' - ticks w) * g_period_fs h) /\
  (n * FEMTOSECONDS_PER_MICRO < 2 ^ 63 -> n * FEMTOSECONDS_PER_MICRO / g_period_fs h < Z.of_nat fuel ->
   exists w', hpet_sleep_us fuel h w n = Some w' /\ n * FEMTOSECONDS_PER_MICRO < (ticks w' - ticks w) * g_period_fs h).
Proof. intros C H64 Hb Hp Hn. split; intros Hm Hf; by apply (sleep_units_ok h ticks). Qed.

(** With a counter of 10 MHz the time in milliseconds starts again from 0
    after five hours: the product of counter and period wraps. *)
Lemma hpet_millis_wraps : let h := mkHpet 1 100000000 10000000 true in
  counter_time h 184467440737 FEMTOSECONDS_PER_MILLI = 18446744 /\ counter_time h 184467440738 FEMTOSECONDS_PER_MILLI = 0.
Proof. by vm_compute. Qed.

(** An XSDT that says it is shorter than its own header has 2^61 - 1 entries,
    and the array for them is asked for with a size that wraps. *)
Lemma xsdt_count_underflow : let m := wr32 ∅ 4 28 in xsdt_count m 0 = 2 ^ 61 - 1 /\ u64 (xsdt_count m 0 * 16) = 2 ^ 64 - 16.
Proof. by vm_compute. Qed.

(** ** Witnesses *)

Record Ticker := mkTicker { t_tick : Z }.
#[export] Instance ticker_machine : Machine Ticker := {
  mm _ := ∅; set_mm s _ := s; elapse s := mkTicker (t_tick s + 1); millis := t_tick;
  io_rd s _ _ := (s, u64 (t_tick s)); io_wr s _ _ _ := s
}.

Lemma ticker_counter : counter64 (mkHpet 0x1000 100000000 10000000 true) t_tick.
Proof. intros [t]. split; [reflexivity|]. cbn [fst elapse ticker_machine t_tick]. lia. Qed.

Lemma hpet_sleep_correct_witness : exists w', hpet_sleep_us (Z.to_nat 200) (mkHpet 0x1000 100000000 10000000 true) (mkTicker 7) 10 = Some w' /\ 100 < t_tick w' - 7.
Proof.
  destruct (proj2 (hpet_sleep_correct (mkHpet 0x1000 100000000 10000000 true) t_tick (Z.to_nat 200) (mkTicker 7) 10 ticker_counter eq_refl ltac:(done) ltac:(done) ltac:(done)))
    as (w' & E & Hw); [done|rewrite Z2Nat.id; [vm_compute; reflexivity|done]|].
  exists w'. split; [exact E|]. unfold FEMTOSECONDS_PER_MICRO in Hw. cbn [g_period_fs t_tick] in Hw. lia.
Defined.

(** A machine whose firmware lists one table, of the signature MCFG. *)
Definition fw_put (m : mem) (a : Z) (l : list Z) : mem := put_bytes m a l.
Definition fw_mem : mem :=
  let r := HHDM_BASE + 0x1000 in let x := HHDM_BASE + 0x2000 in let t := HHDM_BASE + 0x3000 in
  let m := fw_put ∅ r (sig_rsdp ++ [0; 0; 0; 0; 0; 0; 0; 2]) in
  let m := wr64 (wr32 m (r + 20) 36) (r + 24) 0x2000 in
  let m := wr8 m (r + 8) (256 - byte_sum m r 20 mod 256) in
  let m := wr8 m (r + 32) (256 - byte_sum m r 36 mod 256) in
  let m := wr64 (wr32 m (x + 4) 44) (x + 36) 0x3000 in
  let m := wr8 m (x + 9) (256 - byte_sum m x 44 mod 256) in
  let m := wr32 (fw_put m t sig_mcfg) (t + 4) 60 in
  wr8 m (t + 9) (256 - byte_sum m t 60 mod 256).

Lemma fw_mem_ok : firmware_ok fw_mem 0x1000.
Proof. constructor; [done|by vm_compute|by vm_compute|by vm_compute|by vm_compute|]. cbn zeta. split_and!; by vm_compute. Qed.

Lemma acpi_find_table_correct_witness :
  acpi_find_table (acpi_init fw_mem (fun _ => true) (mkAcpi None 0 0) 0x1000) sig_mcfg 0 = HHDM_BASE + 0x3000 /\
  acpi_find_table (acpi_init fw_mem (fun _ => true) (mkAcpi None 0 0) 0x1000) sig_mcfg 1 = 0.
Proof.
  split.
  - rewrite (acpi_find_table_correct fw_mem (fun _ => true) (mkAcpi None 0 0) 0x1000 sig_mcfg 0 fw_mem_ok (fun _ => eq_refl) ltac:(done)). vm_compute. reflexivity.
  - rewrite (acpi_find_table_correct fw_mem (fun _ => true) (mkAcpi None 0 0) 0x1000 sig_mcfg 1 fw_mem_ok (fun _ => eq_refl) ltac:(done)). vm_compute. reflexivity.
Defined.
