(* ===== verification/Gpu.v ===== *)
(** * The VirtIO GPU driver: commands, contexts, resources, fences

    drivers/virtiogpu/caps.c (the control channel), context.c, resources.c,
    submit.c and ophandler.c.  Commands are records on the driver's stack: a
    request is its bytes ([encode] writes them in the layout of
    virtioGpuProtocol.h), and the answer is a buffer of bytes that is
    overwritten when the device has answered.  The lists of contexts and
    resources are Rocq lists, the first element at the head; a result that
    the code stores through a pointer is returned, [None] standing for -1.

    Operations run in a state monad over the machine, the frame allocator,
    the driver's record and the processes; a wait takes [fuel] rounds and
    gives [None] without it. *)

From Stdlib Require Import ZArith Lia Bool String Ascii.
From stdpp Require Import base list gmap strings.
From S2P Require Import Prelude Mem Str Frames Pmm PageTable Vma Block Nag Machine Virtqueue Pcie.

Definition VIRTIO_GPU_FLAG_FENCE : Z := 1.
Definition VIRTIO_GPU_CMD_RESOURCE_UNREF : Z := 0x0102.
Definition VIRTIO_GPU_CMD_RESOURCE_ATTACH_BACKING : Z := 0x0106.
Definition VIRTIO_GPU_CMD_RESOURCE_DETACH_BACKING : Z := 0x0107.
Definition VIRTIO_GPU_CMD_GET_CAPSET_INFO : Z := 0x0108.
Definition VIRTIO_GPU_CMD_GET_CAPSET : Z := 0x0109.
Definition VIRTIO_GPU_CMD_CTX_CREATE : Z := 0x0200.
Definition VIRTIO_GPU_CMD_CTX_DESTROY : Z := 0x0201.
Definition VIRTIO_GPU_CMD_CTX_ATTACH_RESOURCE : Z := 0x0202.
Definition VIRTIO_GPU_CMD_CTX_DETACH_RESOURCE : Z := 0x0203.
Definition VIRTIO_GPU_CMD_RESOURCE_CREATE_3D : Z := 0x0204.
Definition VIRTIO_GPU_CMD_TRANSFER_TO_HOST_3D : Z := 0x0205.
Definition VIRTIO_GPU_CMD_TRANSFER_FROM_HOST_3D : Z := 0x0206.
Definition VIRTIO_GPU_CMD_SUBMIT_3D : Z := 0x0207.
Definition VIRTIO_GPU_RESP_OK_NODATA : Z := 0x1100.
Definition VIRTIO_GPU_RESP_OK_CAPSET_INFO : Z := 0x1102.
Definition VIRTIO_GPU_RESP_OK_CAPSET : Z := 0x1103.

(** The characters of a string constant. *)
Definition text (s : string) : list Z := map (fun c => Z.of_N (N_of_ascii c)) (list_ascii_of_string s).

(** ** Requests *)
Record VirtioGpuBox := mkBox { box_x : Z; box_y : Z; box_z : Z; box_w : Z; box_h : Z; box_d : Z }.

(** One constructor per structure of the protocol, with the fields that the
    driver assigns; the others are zero, or the constants in [encode]. *)
Inductive Request :=
| GetCapsetInfo (capsetIndex : Z)
| GetCapset (capsetId capsetVersion : Z)
| CtxCreate (ctxId : Z) (debugName : list Z)
| CtxDestroy (ctxId : Z)
| CtxAttachResource (ctxId resourceId : Z)
| CtxDetachResource (ctxId resourceId : Z)
| ResourceUnref (resourceId : Z)
| ResourceAttachBacking (resourceId addr len : Z)
| ResourceDetachBacking (resourceId : Z)
| ResourceCreate3d (ctxId resourceId target format bind width height depth : Z)
| TransferHost3d (toHost : bool) (ctxId fenceId : Z) (box : VirtioGpuBox) (offset resourceId : Z)
| CmdSubmit3d (ctxId fenceId : Z) (commands : list Z).

(** [VirtioGpuCtrlHdr] *)
Definition ctrl_hdr (type flags fenceId ctxId : Z) : list Z :=
  le_bytes 4 type ++ le_bytes 4 flags ++ le_bytes 8 fenceId ++ le_bytes 4 ctxId ++ repeat 0 4.

Definition words (l : list Z) : list Z := flat_map (le_bytes 4) l.

(** [VirtioGpuCmdSubmit3d] in front of the commands. *)
Definition submit_header (ctxId fence size : Z) : list Z :=
  ctrl_hdr VIRTIO_GPU_CMD_SUBMIT_3D VIRTIO_GPU_FLAG_FENCE fence ctxId ++ words [u32 size; 0].

(** [l] in a field of [n] bytes that was cleared before. *)
Definition field (n : nat) (l : list Z) : list Z := take n (l ++ repeat 0 n).

Definition encode (r : Request) : list Z :=
  match r with
  | GetCapsetInfo i => ctrl_hdr VIRTIO_GPU_CMD_GET_CAPSET_INFO 0 0 0 ++ words [i; 0]
  | GetCapset i v => ctrl_hdr VIRTIO_GPU_CMD_GET_CAPSET 0 0 0 ++ words [i; v]
  | CtxCreate c name => ctrl_hdr VIRTIO_GPU_CMD_CTX_CREATE 0 0 c ++ words [Z.of_nat (length name); 0] ++ field 64 name
  | CtxDestroy c => ctrl_hdr VIRTIO_GPU_CMD_CTX_DESTROY 0 0 c
  | CtxAttachResource c r => ctrl_hdr VIRTIO_GPU_CMD_CTX_ATTACH_RESOURCE 0 0 c ++ words [r; 0]
  | CtxDetachResource c r => ctrl_hdr VIRTIO_GPU_CMD_CTX_DETACH_RESOURCE 0 0 c ++ words [r; 0]
  | ResourceUnref r => ctrl_hdr VIRTIO_GPU_CMD_RESOURCE_UNREF 0 0 0 ++ words [r; 0]
  | ResourceAttachBacking r a n => ctrl_hdr VIRTIO_GPU_CMD_RESOURCE_ATTACH_BACKING 0 0 0 ++ words [r; 1] ++ le_bytes 8 a ++ words [n; 0]
  | ResourceDetachBacking r => ctrl_hdr VIRTIO_GPU_CMD_RESOURCE_DETACH_BACKING 0 0 0 ++ words [r; 0]
  | ResourceCreate3d c r target format bind w h d =>
      ctrl_hdr VIRTIO_GPU_CMD_RESOURCE_CREATE_3D 0 0 c ++ words [r; target; format; bind; w; h; d; 1; 0; 0; 0; 0]
  | TransferHost3d to c f b off r =>
      ctrl_hdr (if to then VIRTIO_GPU_CMD_TRANSFER_TO_HOST_3D else VIRTIO_GPU_CMD_TRANSFER_FROM_HOST_3D) VIRTIO_GPU_FLAG_FENCE f c ++
      words [box_x b; box_y b; box_z b; box_w b; box_h b; box_d b] ++ le_bytes 8 off ++ words [r; 0; 0; 0]
  | CmdSubmit3d c f l => submit_header c f (Z.of_nat (length l)) ++ l
  end.

(** The cleared answer, and the type field of one. *)
Definition no_resp : list Z := repeat 0 24.
Definition resp_type (resp : list Z) : Z := le32 resp 0.
Definition ok_nodata (resp : list Z) : bool := resp_type resp =? VIRTIO_GPU_RESP_OK_NODATA.

(** ** Data *)
Record VirtioGpuBar := mkGpuBar { gb_physAddr : Z; gb_virtAddr : Z; gb_size : Z; gb_mapped : Z }.
Record VirtioGpuContext := mkContext { contextId : Z; ctx_name : list Z }.
Record VirtioGpuResource := mkResource {
  resourceId : Z; r_contextId : Z; r_width : Z; r_height : Z; r_depth : Z; r_format : Z; r_target : Z; r_bind : Z;
  r_physBase : Z; r_pageCount : Z; r_byteSize : Z; r_userVirt : Z; r_proc : Z
}.

(** The fields of [VirtioGpuDevice] in four groups: what the probe finds out,
    the tables that the operations keep, the channel, and the adapter that is
    registered. *)
Record GpuRegs := mkGpuRegs {
  pciDev : PciDevice; gpu_bars : list VirtioGpuBar; commonCfg : Z; isrCfg : Z; notifyBase : Z; notifyOffMultiplier : Z; deviceCfg : Z;
  hostFeatures : Z; negotiatedFeatures : Z
}.
Record GpuTables := mkTables {
  contexts : list VirtioGpuContext; nextContextId : Z; resources : list VirtioGpuResource; nextResourceId : Z;
  nextFenceId : Z; lastCompletedFence : Z
}.
Record GpuAdapter := mkAdapter {
  ad_name : list Z; ad_pciVendor : Z; ad_pciDevice : Z; ad_caps : Z; vramTotal : Z; vramFree : Z; shmTotal : Z; shmFree : Z;
  headCount : Z; heads : option (list Z); engineCount : Z; engines : bool; priv : bool
}.
Record VirtioGpuDevice := mkGpu {
  g_regs : GpuRegs; controlQueue : option Virtqueue; cursorQueue : option Virtqueue; ctrlDmaPhys : Z; ctrlDmaVirt : Z;
  hasVenus : Z; hasVirgl : Z; apiver : Z; g_tables : GpuTables; adapter : GpuAdapter
}.

Definition set_controlQueue (d : VirtioGpuDevice) (q : option Virtqueue) : VirtioGpuDevice :=
  mkGpu (g_regs d) q (cursorQueue d) (ctrlDmaPhys d) (ctrlDmaVirt d) (hasVenus d) (hasVirgl d) (apiver d) (g_tables d) (adapter d).
Definition set_tables (d : VirtioGpuDevice) (t : GpuTables) : VirtioGpuDevice :=
  mkGpu (g_regs d) (controlQueue d) (cursorQueue d) (ctrlDmaPhys d) (ctrlDmaVirt d) (hasVenus d) (hasVirgl d) (apiver d) t (adapter d).
Definition set_contexts (t : GpuTables) (l : list VirtioGpuContext) (n : Z) : GpuTables :=
  mkTables l n (resources t) (nextResourceId t) (nextFenceId t) (lastCompletedFence t).
Definition set_resources (t : GpuTables) (l : list VirtioGpuResource) (n : Z) : GpuTables :=
  mkTables (contexts t) (nextContextId t) l n (nextFenceId t) (lastCompletedFence t).
Definition set_fences (t : GpuTables) (n l : Z) : GpuTables :=
  mkTables (contexts t) (nextContextId t) (resources t) (nextResourceId t) n l.

(** The fields of a process that the driver and the calls it makes use. *)
Record GpuProcess := mkProc { p_pml4 : Z; p_vmas : list Vma }.

Record Gpu (W : Type) := mkGs {
  pci : Pci W Pmm; gpu : VirtioGpuDevice;
  gGpuDevice : bool;              (** the global pointer: NULL or [gpu] *)
  gGpuUserVirtCursor : Z;
  procs : gmap Z GpuProcess;      (** by address *)
  current : Z;                    (** the process of [schedCurrent()], 0 for none *)
  nag : Nag
}.
Arguments mkGs {_}. Arguments pci {_}. Arguments gpu {_}. Arguments gGpuDevice {_}. Arguments gGpuUserVirtCursor {_}.
Arguments procs {_}. Arguments current {_}. Arguments nag {_}.

Definition GPU_USER_MEM_BASE : Z := 0x0000600000000000.
Definition GPU_USER_MEM_MAX : Z := 0x0000700000000000.
Definition sizeof_Vma : Z := 40.
Definition sizeof_VirtioGpuContext : Z := 48.
Definition sizeof_VirtioGpuResource : Z := 80.

(** ** The monad *)
Definition G (W A : Type) : Type := Gpu W -> option (Gpu W * A).
#[export] Instance g_ret W : MRet (G W) := fun A a s => Some (s, a).
#[export] Instance g_bind W : MBind (G W) := fun A B k c s => match c s with None => None | Some (s1, a) => k a s1 end.

Definition set_pci {W} (s : Gpu W) (p : Pci W Pmm) : Gpu W := mkGs p (gpu s) (gGpuDevice s) (gGpuUserVirtCursor s) (procs s) (current s) (nag s).
Definition set_gpu {W} (s : Gpu W) (d : VirtioGpuDevice) : Gpu W := mkGs (pci s) d (gGpuDevice s) (gGpuUserVirtCursor s) (procs s) (current s) (nag s).
Definition set_cursor {W} (s : Gpu W) (c : Z) : Gpu W := mkGs (pci s) (gpu s) (gGpuDevice s) c (procs s) (current s) (nag s).
Definition set_procs {W} (s : Gpu W) (p : gmap Z GpuProcess) : Gpu W := mkGs (pci s) (gpu s) (gGpuDevice s) (gGpuUserVirtCursor s) p (current s) (nag s).
Definition with_fa {W} (p : Pci W Pmm) (fa : Pmm) : Pci W Pmm := mkPci (pc_w p) fa (g_segments p) (g_devices p) (g_device_capacity p).

Definition gets {W A} (f : Gpu W -> A) : G W A := fun s => Some (s, f s).
Definition modify {W} (f : Gpu W -> Gpu W) : G W unit := fun s => Some (f s, tt).
Definition stuck {W A} : G W A := fun _ => None.
Definition lift {W A} (c : Pc W Pmm A) : G W A := fun s => let '(p, a) := c (pci s) in Some (set_pci s p, a).
Definition tables {W} : G W GpuTables := gets (fun s => g_tables (gpu s)).
Definition put_tables {W} (t : GpuTables) : G W unit := modify (fun s => set_gpu s (set_tables (gpu s) t)).

Section Ops.
Context {W : Type} `{Machine W}.
(** Whether an allocation of that many bytes succeeds, and the rounds of
    waiting. *)
Context (kz : Z -> bool) (fuel : nat).
Abbreviation G := (G W).

(** Memory, frames and the clock. *)
Definition on_mem (f : mem -> mem) : G unit := modify (fun s => set_pci s (with_w (pci s) (upd (pc_w (pci s)) f))).
Definition memory : G mem := gets (fun s => mm (pc_w (pci s))).
Definition alloc_frames (n : Z) : G Z := fun s =>
  let '(fa, a) := pmm_alloc_frames (pc_fa (pci s)) n in Some (set_pci s (with_fa (pci s) fa), a).
Definition alloc_frame : G Z := fun s =>
  let '(fa, a) := pmm_alloc_frame (pc_fa (pci s)) in Some (set_pci s (with_fa (pci s) fa), a).
Definition free_frames (a n : Z) : G unit := modify (fun s => set_pci s (with_fa (pci s) (pmm_free_frames (pc_fa (pci s)) a n))).
Definition free_frame (a : Z) : G unit := modify (fun s => set_pci s (with_fa (pci s) (pmm_free_frame (pc_fa (pci s)) a))).
Definition get_millis : G Z := fun s => let '(w, t) := hpet_get_millis (pc_w (pci s)) in Some (set_pci s (with_w (pci s) w), t).

(** The page-table operations on the state of the driver. *)
Definition on_vm {A} (f : Vm Pmm -> Vm Pmm * A) : G A := fun s =>
  let '(vm, a) := f (mkVm (mm (pc_w (pci s))) (pc_fa (pci s))) in
  Some (set_pci s (with_fa (with_w (pci s) (set_mm (pc_w (pci s)) (vm_mem vm))) (vm_fa vm)), a).

(** ** The control channel *)
Definition on_channel (s : Gpu W) (w : W) (vq : Virtqueue) : Gpu W :=
  set_gpu (set_pci s (with_w (pci s) w)) (set_controlQueue (gpu s) (Some vq)).

(** Submission of [bufs] on the control queue, notification and the wait for
    the answer. *)
Definition exchange (bufs : list VirtqBuf) (timeoutMs : Z) : G Z := fun s =>
  match controlQueue (gpu s) with
  | None => Some (s, -1)
  | Some vq =>
      let '(m1, vq1, ret) := virtqueueSubmitSg (mm (pc_w (pci s))) vq bufs in
      let w1 := set_mm (pc_w (pci s)) m1 in
      if negb (ret =? 0) then Some (on_channel s w1 vq1, ret)
      else match virtqueuePoll fuel (virtqueueKick w1 vq1) vq1 timeoutMs with
           | None => None
           | Some (w2, vq2, r) => Some (on_channel s w2 vq2, r)
           end
  end.

(** The buffers for a request and its answer: the driver's own page when both
    fit in half of it, frames otherwise.  The result: the physical and virtual
    addresses of the two, and the pages to release. *)
Record DmaBufs := mkDma { reqPhys : Z; respPhys : Z; reqVirt : Z; respVirt : Z; dynamicPages : option (Z * Z) }.

Definition dma_buffers (reqLen respLen : Z) : G (option DmaBufs) :=
  phys ← gets (fun s => ctrlDmaPhys (gpu s));
  virt ← gets (fun s => ctrlDmaVirt (gpu s));
  if (reqLen <=? PAGE_SIZE / 2) && (respLen <=? PAGE_SIZE / 2) && negb (virt =? 0) then
    mret (Some (mkDma phys (u64 (phys + PAGE_SIZE / 2)) virt (u64 (virt + PAGE_SIZE / 2)) None))
  else
    let reqPages := (reqLen + PAGE_SIZE - 1) / PAGE_SIZE in
    let respPages := (respLen + PAGE_SIZE - 1) / PAGE_SIZE in
    reqFrame ← alloc_frames reqPages;
    respFrame ← alloc_frames respPages;
    if (reqFrame =? 0) || (respFrame =? 0) then
      (if negb (reqFrame =? 0) then free_frames reqFrame reqPages else mret tt);;
      (if negb (respFrame =? 0) then free_frames respFrame respPages else mret tt);;
      mret None
    else mret (Some (mkDma reqFrame respFrame (u64 (reqFrame + HHDM_BASE)) (u64 (respFrame + HHDM_BASE)) (Some (reqPages, respPages)))).

Definition release_buffers (b : DmaBufs) : G unit :=
  match dynamicPages b with
  | None => mret tt
  | Some (reqPages, respPages) => free_frames (reqPhys b) reqPages;; free_frames (respPhys b) respPages
  end.

(** [virtioGpuSendControlCmd]: the request [req]; [resp] is the contents of
    the answer's buffer before the call, and the result has those after it. *)
Definition virtioGpuSendControlCmd (req resp : list Z) : G (Z * list Z) :=
  let reqLen := u32 (Z.of_nat (length req)) in
  let respLen := u32 (Z.of_nat (length resp)) in
  queue ← gets (fun s => controlQueue (gpu s));
  match queue with
  | None => mret (-1, resp)
  | Some _ =>
      if (reqLen =? 0) || (respLen =? 0) then mret (-1, resp)
      else
        bufs ← dma_buffers reqLen respLen;
        match bufs with
        | None => mret (-1, resp)
        | Some b =>
            on_mem (fun m => put_bytes m (reqVirt b) req);;
            on_mem (fun m => (memset m (respVirt b) 0 respLen).1);;
            ret ← exchange [mkBuf (reqPhys b) reqLen 0; mkBuf (respPhys b) respLen 1] 1000;
            m ← memory;
            release_buffers b;;
            mret (ret, if ret =? 0 then bytes_at m (respVirt b) (length resp) else resp)
        end
  end.

(** A command whose answer is only a header: whether it was sent and
    accepted. *)
Definition command (r : Request) : G bool :=
  a ← virtioGpuSendControlCmd (encode r) no_resp;
  mret ((a.1 =? 0) && ok_nodata a.2).

(** A command whose answer is not looked at. *)
Definition command_ (r : Request) : G unit :=
  virtioGpuSendControlCmd (encode r) no_resp;; mret tt.

(** ** Contexts *)

(** The next identifier of a counter that skips 0: the identifier and the
    counter after it. *)
Definition next_id (n : Z) : Z * Z :=
  if n =? 0 then (u32 (n + 1), u32 (u32 (n + 1) + 1)) else (n, u32 (n + 1)).

(** Bytes of a string: up to its end, and [n] at most. *)
Fixpoint name_bytes (n : nat) (m : mem) (a : Z) : list Z :=
  match n with
  | O => []
  | Datatypes.S k => if rd8 m a =? 0 then [] else rd8 m a :: name_bytes k m (a + 1)
  end.

(** [virtioGpuContextCreate]; [name] is not NULL at any call. *)
Definition virtioGpuContextCreate (name : Z) : G (option Z) :=
  t ← tables;
  let '(ctxId, next) := next_id (nextContextId t) in
  put_tables (set_contexts t (contexts t) next);;
  m ← memory;
  let debugName := name_bytes 63 m name in
  ok ← command (CtxCreate ctxId debugName);
  if negb ok then mret None
  else if negb (kz sizeof_VirtioGpuContext) then
    command_ (CtxDestroy ctxId);;
    mret None
  else
    t1 ← tables;
    put_tables (set_contexts t1 (mkContext ctxId (take 31 debugName) :: contexts t1) (nextContextId t1));;
    mret (Some ctxId).

(** The search for the first element with the property, which is unlinked:
    the element and the rest of the list. *)
Fixpoint unlink {A} (p : A -> bool) (l : list A) : option (A * list A) :=
  match l with
  | [] => None
  | x :: r => if p x then Some (x, r) else match unlink p r with None => None | Some (t, r') => Some (t, x :: r') end
  end.

Definition virtioGpuContextDestroy (ctxId : Z) : G Z :=
  if ctxId =? 0 then mret (-1)
  else
    t ← tables;
    match unlink (fun c => contextId c =? ctxId) (contexts t) with
    | None => mret (-1)
    | Some (_, rest) =>
        put_tables (set_contexts t rest (nextContextId t));;
        a ← virtioGpuSendControlCmd (encode (CtxDestroy ctxId)) no_resp;
        mret (if ok_nodata a.2 then 0 else -1)
    end.

(** ** Resources *)
Record NagResourceCreateArgs := mkCreateArgs {
  a_contextId : Z; a_type : Z; a_usage : Z; a_format : Z; a_width : Z; a_height : Z; a_depth : Z
}.
Definition NAG_RES_TYPE_BUFFER : Z := 0.
Definition NAG_RES_TYPE_2D : Z := 1.

(** The host's format and the bytes per pixel. *)
Definition translatePixelFormat (format : Z) : Z * Z :=
  if format =? 1 then (1, 4) else if format =? 2 then (67, 4) else if format =? 3 then (31, 16) else (0, 1).

Definition bind_bit (usage flag shift bind : Z) : Z := if has usage flag then Z.lor bind (Z.shiftl 1 shift) else bind.

Definition translateBindFlags (usage type : Z) : Z :=
  let bind := bind_bit usage (2 ^ 5) 17 (bind_bit usage (2 ^ 4) 6 (bind_bit usage (2 ^ 2) 5 (bind_bit usage (2 ^ 1) 4
    (bind_bit usage (2 ^ 3) 3 (bind_bit usage (2 ^ 0) 1 0))))) in
  if bind =? 0 then (if type =? NAG_RES_TYPE_BUFFER then Z.lor (2 ^ 4) (2 ^ 5) else Z.lor (2 ^ 1) (2 ^ 3)) else bind.

(** Target, format and size in bytes; [None] when the request is refused. *)
Definition resource_layout (a : NagResourceCreateArgs) : option (Z * Z * Z) :=
  if a_width a =? 0 then None
  else if a_type a =? NAG_RES_TYPE_BUFFER then Some (0, 0, a_width a)
  else if a_type a =? NAG_RES_TYPE_2D then
    if a_height a =? 0 then None
    else
      let '(virglFormat, bpp) := translatePixelFormat (a_format a) in
      let depth := if a_depth a =? 0 then 1 else a_depth a in
      Some (2, virglFormat, u64 (u64 (u64 (a_width a * a_height a) * depth) * bpp))
  else None.
Definition res_height (a : NagResourceCreateArgs) : Z := if a_type a =? NAG_RES_TYPE_BUFFER then 1 else a_height a.
Definition res_depth (a : NagResourceCreateArgs) : Z :=
  if a_type a =? NAG_RES_TYPE_BUFFER then 1 else if a_depth a =? 0 then 1 else a_depth a.

(** The process at an address, when it has an address space. *)
Definition live_proc (s : Gpu W) (p : Z) : option GpuProcess :=
  match procs s !! p with
  | Some q => if p_pml4 q =? 0 then None else Some q
  | None => None
  end.
Definition set_vmas (p : Z) (l : list Vma) : G unit :=
  modify (fun s => set_procs s (alter (fun q => mkProc (p_pml4 q) l) p (procs s))).

(** [vmaDestroy] of a range of process [p]. *)
Definition destroy_vmas (p : Z) (q : GpuProcess) (start size : Z) : G unit :=
  l ← on_vm (fun vm => let '(vm1, l1, _) := vmaDestroy (fun _ => kz sizeof_Vma) vm (p_pml4 q) (p_vmas q) start size in (vm1, l1));
  set_vmas p l.

(** The mapping of the frames into the current process: the address, 0 when
    there is none. *)
Definition map_user (physFrames pageCount : Z) : G Z :=
  p ← gets current;
  proc ← gets (fun s => live_proc s p);
  match proc with
  | None => mret 0
  | Some q =>
      userVirt ← gets gGpuUserVirtCursor;
      let cursor := u64 (userVirt + u64 (pageCount * PAGE_SIZE)) in
      modify (fun s => set_cursor s (if GPU_USER_MEM_MAX <=? cursor then GPU_USER_MEM_BASE else cursor));;
      let size := u64 (pageCount * PAGE_SIZE) in
      let l := (vmaCreate (kz sizeof_Vma) (p_vmas q) userVirt size (Z.lor (Z.lor VMA_READ VMA_WRITE) VMA_USER)).1 in
      set_vmas p l;;
      rc ← on_vm (fun vm => vmmMapRange vm (p_pml4 q) userVirt physFrames size (Z.lor (Z.lor VMM_FLAG_PRESENT VMM_FLAG_WRITABLE) VMM_FLAG_USER));
      if negb (rc =? 0) then
        destroy_vmas p (mkProc (p_pml4 q) l) userVirt size;;
        mret 0
      else mret userVirt
  end.

Definition virtioGpuResourceDestroy (ctxId resId : Z) : G Z :=
  if resId =? 0 then mret (-1)
  else
    t ← tables;
    match unlink (fun r => resourceId r =? resId) (resources t) with
    | None => mret (-1)
    | Some (target, rest) =>
        put_tables (set_resources t rest (nextResourceId t));;
        (if negb (ctxId =? 0) || negb (r_contextId target =? 0)
         then command_ (CtxDetachResource (if negb (ctxId =? 0) then ctxId else r_contextId target) resId)
         else mret tt);;
        command_ (ResourceDetachBacking resId);;
        command_ (ResourceUnref resId);;
        proc ← gets (fun s => live_proc s (r_proc target));
        match proc with
        | Some q =>
            if negb (r_userVirt target =? 0) then
              on_vm (fun vm => vmmUnmapRange vm (p_pml4 q) (r_userVirt target) (u64 (r_pageCount target * PAGE_SIZE)));;
              destroy_vmas (r_proc target) q (r_userVirt target) (u64 (r_pageCount target * PAGE_SIZE))
            else mret tt
        | None => mret tt
        end;;
        (if negb (r_physBase target =? 0) && (0 <? r_pageCount target)
         then free_frames (r_physBase target) (r_pageCount target) else mret tt);;
        mret 0
    end.

(** The commands that make a resource known to the host; what was done is
    undone when a later one fails. *)
Definition host_create (a : NagResourceCreateArgs) (resId target format bind physFrames pageCount : Z) : G bool :=
  ok1 ← command (ResourceCreate3d (a_contextId a) resId target format bind (a_width a) (res_height a) (res_depth a));
  if negb ok1 then mret false
  else
    ok2 ← command (ResourceAttachBacking resId physFrames (u32 (pageCount * PAGE_SIZE)));
    if negb ok2 then
      command_ (ResourceUnref resId);;
      mret false
    else if a_contextId a =? 0 then mret true
    else
      ok3 ← command (CtxAttachResource (a_contextId a) resId);
      if negb ok3 then
        command_ (ResourceDetachBacking resId);;
        command_ (ResourceUnref resId);;
        mret false
      else mret true.

(** [virtioGpuResourceCreate]: the identifier, the address for the CPU and
    the size. *)
Definition virtioGpuResourceCreate (a : NagResourceCreateArgs) : G (option (Z * Z * Z)) :=
  match resource_layout a with
  | None => mret None
  | Some (virglTarget, virglFormat, byteSize) =>
      let virglBind := translateBindFlags (a_usage a) (a_type a) in
      let pageCount := u64 (byteSize + PAGE_SIZE - 1) / PAGE_SIZE in
      physFrames ← alloc_frames pageCount;
      if physFrames =? 0 then mret None
      else
        let virtAddr := u64 (physFrames + HHDM_BASE) in
        on_mem (fun m => (memset m virtAddr 0 (pageCount * PAGE_SIZE)).1);;
        t ← tables;
        let '(resId, next) := next_id (nextResourceId t) in
        put_tables (set_resources t (resources t) next);;
        ok ← host_create a resId virglTarget virglFormat virglBind physFrames pageCount;
        if negb ok then
          free_frames physFrames pageCount;;
          mret None
        else if negb (kz sizeof_VirtioGpuResource) then
          virtioGpuResourceDestroy (a_contextId a) resId;;
          mret None
        else
          currProc ← gets current;
          userVirt ← map_user physFrames pageCount;
          t1 ← tables;
          put_tables (set_resources t1 (mkResource resId (a_contextId a) (a_width a) (res_height a) (res_depth a) virglFormat virglTarget virglBind
            physFrames pageCount byteSize userVirt currProc :: resources t1) (nextResourceId t1));;
          mret (Some (resId, if negb (userVirt =? 0) then userVirt else virtAddr, byteSize))
  end.

(** ** Submission, transfers and fences *)
Record NagSubmitArgs := mkSubmitArgs { s_contextId : Z; s_commands : Z; s_commandSize : Z }.
Record NagTransferArgs := mkTransferArgs {
  t_contextId : Z; t_resourceId : Z; t_direction : Z; t_x : Z; t_y : Z; t_z : Z; t_width : Z; t_height : Z; t_depth : Z; t_offset : Z
}.
Definition NAG_TRANSFER_TO_HOST : Z := 0.

Definition take_fence : G Z :=
  t ← tables;
  put_tables (set_fences t (u64 (nextFenceId t + 1)) (lastCompletedFence t));;
  mret (nextFenceId t).

Definition complete_fence (fence : Z) : G unit :=
  t ← tables;
  if lastCompletedFence t <? fence then put_tables (set_fences t (nextFenceId t) fence) else mret tt.

Definition current_vmas : G (option (list Vma)) := gets (fun s => p_vmas <$> procs s !! current s).

Definition copy_commands (dst src n : Z) : G unit :=
  vmas ← current_vmas;
  match validateUserRange vmas src n false with
  | None => stuck
  | Some true =>
      m ← memory;
      match copyFromUser vmas m dst src n with
      | None => stuck
      | Some (m1, _) => on_mem (fun _ => m1)
      end
  | Some false => on_mem (fun m => (memcpy m dst src n).1)
  end.

Definition virtioGpuSubmit (a : NagSubmitArgs) : G (option Z) :=
  if (s_commands a =? 0) || (s_commandSize a =? 0) || negb (s_commandSize a mod 4 =? 0) then mret None
  else
    let totalBytes := u64 (32 + s_commandSize a) in
    let reqPages := u64 (totalBytes + PAGE_SIZE - 1) / PAGE_SIZE in
    reqPhys ← alloc_frames reqPages;
    respPhys ← alloc_frame;
    if (reqPhys =? 0) || (respPhys =? 0) then
      (if negb (reqPhys =? 0) then free_frames reqPhys reqPages else mret tt);;
      (if negb (respPhys =? 0) then free_frame respPhys else mret tt);;
      mret None
    else
      let reqVirt := u64 (reqPhys + HHDM_BASE) in
      let respVirt := u64 (respPhys + HHDM_BASE) in
      on_mem (fun m => (memset m respVirt 0 24).1);;
      fence ← take_fence;
      on_mem (fun m => put_bytes m reqVirt (submit_header (s_contextId a) fence (s_commandSize a)));;
      copy_commands (u64 (reqVirt + 32)) (s_commands a) (s_commandSize a);;
      ret ← exchange [mkBuf reqPhys (u32 totalBytes) 0; mkBuf respPhys 24 1] 2000;
      m ← memory;
      let ok := (ret =? 0) && (rd32 m respVirt =? VIRTIO_GPU_RESP_OK_NODATA) in
      (if ok then complete_fence fence else mret tt);;
      free_frames reqPhys reqPages;;
      free_frame respPhys;;
      mret (if ok then Some fence else None).

Definition virtioGpuTransfer (a : NagTransferArgs) : G (option Z) :=
  if t_resourceId a =? 0 then mret None
  else
    t ← tables;
    if negb (existsb (fun r => resourceId r =? t_resourceId a) (resources t)) then mret None
    else
      fence ← take_fence;
      ok ← command (TransferHost3d (t_direction a =? NAG_TRANSFER_TO_HOST) (t_contextId a) fence
        (mkBox (t_x a) (t_y a) (t_z a) (t_width a) (t_height a) (if t_depth a =? 0 then 1 else t_depth a)) (t_offset a) (t_resourceId a));
      if negb ok then mret None
      else
        complete_fence fence;;
        mret (Some fence).

Fixpoint wait_fence (rounds : nat) (fenceId start timeoutMs : Z) : G Z :=
  match rounds with
  | O => stuck
  | Datatypes.S k =>
      t ← tables;
      if fenceId <=? lastCompletedFence t then mret 0
      else
        now ← get_millis;
        if timeoutMs <=? u64 (now - start) then mret (-1) else wait_fence k fenceId start timeoutMs
  end.

Definition virtioGpuWaitFence (fenceId timeoutMs : Z) : G Z :=
  t ← tables;
  if fenceId <=? lastCompletedFence t then mret 0
  else
    start ← get_millis;
    wait_fence fuel fenceId start timeoutMs.

(** ** Operations of the adapter (ophandler.c) *)

(** [__DATE__] as a list of characters, like "Jan  5 2026". *)
Definition digit (date : list Z) (i : Z) : Z := byte_at date i - 48.
Definition BUILD_DATE_INT (date : list Z) : Z :=
  let year := digit date 7 * 1000 + digit date 8 * 100 + digit date 9 * 10 + digit date 10 in
  let month :=
    if byte_at date 0 =? 74 then (if byte_at date 2 =? 110 then (if byte_at date 1 =? 97 then 1 else 6) else 7)
    else if byte_at date 0 =? 70 then 2
    else if byte_at date 0 =? 77 then (if byte_at date 2 =? 114 then 3 else 5)
    else if byte_at date 0 =? 65 then (if byte_at date 2 =? 114 then 4 else 8)
    else if byte_at date 0 =? 83 then 9
    else if byte_at date 0 =? 79 then 10
    else if byte_at date 0 =? 78 then 11 else 12 in
  let day := (if byte_at date 4 =? 32 then 0 else digit date 4) * 10 + digit date 5 in
  year * 10000 + month * 100 + day.

(** [CopyString] of a constant: the characters that fit and the terminator. *)
Definition CopyString (m : mem) (dest : Z) (src : list Z) (len : nat) : mem := put_bytes m dest (take (len - 1) src ++ [0]).

Definition text_na : list Z := text "N/A".
Definition text_version : list Z := text "0.0.3".
Definition text_vulkan : list Z := text "Vulkan".
Definition text_opengl : list Z := text "OpenGL".

(** An element of the array [apis] on the stack, whose 20 bytes held
    [stack]: the name and the version. *)
Definition api_entry (stack name : list Z) (version : Z) : list Z :=
  (name ++ [0]) ++ drop (length name + 1) (take 16 stack) ++ le_bytes 4 version.

Definition query_apis (d : VirtioGpuDevice) (stack : list Z) : list (list Z) :=
  let venus := if hasVenus d =? 0 then [] else [api_entry (take 20 stack) text_vulkan (apiver d)] in
  let virgl := if hasVirgl d =? 0 then []
    else [api_entry (take 20 (drop (20 * length venus) stack)) text_opengl (apiver d)] in
  venus ++ virgl.

(** The constant part of the answer. *)
Definition fill_props (m : mem) (arg : Z) (f : Bdf) (date : list Z) : mem :=
  let m := put_bytes m (arg + 16) (repeat 0 16) in
  let m := CopyString m (arg + 32) text_na 32 in
  let m := put_bytes m (arg + 64) (words [bus f; device f; function f; 0; 0; 0; 0]) in
  let m := CopyString m (arg + 92) text_na 16 in
  let m := put_bytes m (arg + 108) (words [0; 0; 0; 0; 0; 0; 0; 0; 7680; 4320]) in
  let m := CopyString m (arg + 148) text_version 32 in
  wr32 m (arg + 180) (BUILD_DATE_INT date).

Definition VirtioGpuQuery (date stack : list Z) (arg argSize : Z) : G Z :=
  if (arg =? 0) || (argSize <? 184) then mret (-1)
  else
    d ← gets gpu;
    if negb (priv (adapter d)) then mret (-1)
    else
      on_mem (fun m => fill_props m arg (bdf (pciDev (g_regs d))) date);;
      let apis := query_apis d stack in
      let apiCount := Z.of_nat (length apis) in
      m ← memory;
      let supported := rd32 m arg in
      let graphicsApis := rd64 m (arg + 8) in
      (if negb (graphicsApis =? 0) && (0 <? supported) && (0 <? apiCount) then
         let toCopy := if supported <? apiCount then supported else apiCount in
         vmas ← current_vmas;
         match validateUserRange vmas graphicsApis (toCopy * 20) true with
         | None => stuck
         | Some true => on_mem (fun m => put_bytes m graphicsApis (take (Z.to_nat (toCopy * 20)) (concat apis)))
         | Some false => mret tt
         end
       else mret tt);;
      on_mem (fun m => wr32 m arg apiCount);;
      mret 0.

(** Results stored through the pointers into the argument block. *)
Definition store_result {A} (r : option A) (f : A -> mem -> mem) : G Z :=
  match r with
  | None => mret (-1)
  | Some a => on_mem (f a);; mret 0
  end.

Definition create_args (m : mem) (a : Z) : NagResourceCreateArgs :=
  mkCreateArgs (rd32 m a) (rd32 m (a + 4)) (rd32 m (a + 8)) (rd32 m (a + 12)) (rd32 m (a + 16)) (rd32 m (a + 20)) (rd32 m (a + 24)).
Definition submit_args (m : mem) (a : Z) : NagSubmitArgs := mkSubmitArgs (rd32 m a) (rd64 m (a + 8)) (rd64 m (a + 16)).
Definition transfer_args (m : mem) (a : Z) : NagTransferArgs :=
  mkTransferArgs (rd32 m a) (rd32 m (a + 4)) (rd32 m (a + 8)) (rd32 m (a + 12)) (rd32 m (a + 16)) (rd32 m (a + 20))
    (rd32 m (a + 24)) (rd32 m (a + 28)) (rd32 m (a + 32)) (rd64 m (a + 40)).

Definition virtioGpuDispatch (date stack : list Z) (op arg argSize : Z) : G Z :=
  m ← memory;
  let when (size : Z) (c : G Z) : G Z := if (arg =? 0) || (argSize <? size) then mret (-1) else c in
  if op =? 0 then VirtioGpuQuery date stack arg argSize
  else if op =? 1 then when 36 (r ← virtioGpuContextCreate arg; store_result r (fun id m => wr32 m (arg + 32) id))
  else if op =? 2 then when 4 (virtioGpuContextDestroy (rd32 m arg))
  else if op =? 3 then when 48 (r ← virtioGpuResourceCreate (create_args m arg);
    store_result r (fun x m => wr64 (wr64 (wr32 m (arg + 28) x.1.1) (arg + 32) x.1.2) (arg + 40) x.2))
  else if op =? 4 then when 8 (virtioGpuResourceDestroy (rd32 m arg) (rd32 m (arg + 4)))
  else if op =? 5 then when 32 (r ← virtioGpuSubmit (submit_args m arg); store_result r (fun f m => wr64 m (arg + 24) f))
  else if op =? 7 then when 56 (r ← virtioGpuTransfer (transfer_args m arg); store_result r (fun f m => wr64 m (arg + 48) f))
  else if op =? 6 then when 16 (virtioGpuWaitFence (rd64 m arg) (rd64 m (arg + 8)))
  else mret (-1).
End Ops.
