(* ===== verification/GpuProbe.v ===== *)
(** * The VirtIO GPU driver: set-up and removal

    drivers/virtiogpu/main.c, and the capability sets of caps.c: mapping the
    base address registers, walking the PCI capabilities, feature
    negotiation, the queues, registration of the adapter, and the release of
    everything. *)

From Stdlib Require Import ZArith Lia Bool String Ascii.
From stdpp Require Import base list gmap strings.
From S2P Require Import Prelude Mem Str Frames Pmm PageTable Vma Block Nag Machine Virtqueue Pcie Gpu.

Definition VIRTIO_PCI_VENDOR_ID : Z := 0x1AF4.
Definition VIRTIO_PCI_DEVICE_ID : Z := 0x1050.
Definition VIRTIO_PCI_CAP_COMMON_CFG : Z := 1.
Definition VIRTIO_PCI_CAP_NOTIFY_CFG : Z := 2.
Definition VIRTIO_PCI_CAP_ISR_CFG : Z := 3.
Definition VIRTIO_PCI_CAP_DEVICE_CFG : Z := 4.
Definition VIRTIO_PCI_CAP_SHARED_MEMORY_CFG : Z := 8.
Definition VIRTIO_STATUS_ACKNOWLEDGE : Z := 1.
Definition VIRTIO_STATUS_DRIVER : Z := 2.
Definition VIRTIO_STATUS_DRIVER_OK : Z := 4.
Definition VIRTIO_STATUS_FEATURES_OK : Z := 8.
Definition VIRTIO_STATUS_FAILED : Z := 128.
Definition VIRTIO_GPU_F_VIRGL : Z := 2 ^ 0.
Definition VIRTIO_GPU_F_EDID : Z := 2 ^ 1.
Definition VIRTIO_GPU_F_RESOURCE_UUID : Z := 2 ^ 2.
Definition VIRTIO_GPU_F_RESOURCE_BLOB : Z := 2 ^ 3.
Definition VIRTIO_GPU_F_CONTEXT_INIT : Z := 2 ^ 4.
Definition VIRTIO_F_VERSION_1 : Z := 2 ^ 32.
Definition VIRTIO_GPU_CAPSET_VIRGL : Z := 1.
Definition VIRTIO_GPU_CAPSET_VIRGL2 : Z := 2.
Definition VIRTIO_GPU_CAPSET_VENUS : Z := 4.
Definition NAG_CAP_SUPPORTS_3D : Z := 2 ^ 0.
Definition NAG_CAP_SUPPORTS_2D : Z := 2 ^ 1.
Definition NAG_CAP_DISP_MODESET : Z := 2 ^ 4.
Definition NAG_CAP_DISP_HWCURSR : Z := 2 ^ 5.
Definition NAG_CAP_GPGPU : Z := 2 ^ 6.
Definition NAG_CAP_SUPPORTS_COMP : Z := 2 ^ 8.
Definition sizeof_VirtioGpuDevice : Z := 536.
Definition sizeof_DispHead : Z := 40.
Definition sizeof_GpuEngine : Z := 40.

(** Registers of [VirtioPciCommonCfg] and [VirtioGpuConfig]. *)
Definition cfg_deviceFeatureSelect (cfg : Z) : Z := cfg.
Definition cfg_deviceFeature (cfg : Z) : Z := cfg + 4.
Definition cfg_driverFeatureSelect (cfg : Z) : Z := cfg + 8.
Definition cfg_driverFeature (cfg : Z) : Z := cfg + 12.
Definition cfg_deviceStatus (cfg : Z) : Z := cfg + 20.
Definition cfg_numScanouts (cfg : Z) : Z := cfg + 8.
Definition cfg_numCapsets (cfg : Z) : Z := cfg + 12.

(** ** Changes of the driver's record *)
Definition set_regs (d : VirtioGpuDevice) (r : GpuRegs) : VirtioGpuDevice :=
  mkGpu r (controlQueue d) (cursorQueue d) (ctrlDmaPhys d) (ctrlDmaVirt d) (hasVenus d) (hasVirgl d) (apiver d) (g_tables d) (adapter d).
Definition set_cursorQueue (d : VirtioGpuDevice) (q : option Virtqueue) : VirtioGpuDevice :=
  mkGpu (g_regs d) (controlQueue d) q (ctrlDmaPhys d) (ctrlDmaVirt d) (hasVenus d) (hasVirgl d) (apiver d) (g_tables d) (adapter d).
Definition set_dma (d : VirtioGpuDevice) (phys virt : Z) : VirtioGpuDevice :=
  mkGpu (g_regs d) (controlQueue d) (cursorQueue d) phys virt (hasVenus d) (hasVirgl d) (apiver d) (g_tables d) (adapter d).
Definition set_apis (d : VirtioGpuDevice) (venus virgl ver : Z) : VirtioGpuDevice :=
  mkGpu (g_regs d) (controlQueue d) (cursorQueue d) (ctrlDmaPhys d) (ctrlDmaVirt d) venus virgl ver (g_tables d) (adapter d).
Definition set_adapter (d : VirtioGpuDevice) (a : GpuAdapter) : VirtioGpuDevice :=
  mkGpu (g_regs d) (controlQueue d) (cursorQueue d) (ctrlDmaPhys d) (ctrlDmaVirt d) (hasVenus d) (hasVirgl d) (apiver d) (g_tables d) a.
Definition set_gpu_bars (r : GpuRegs) (l : list VirtioGpuBar) : GpuRegs :=
  mkGpuRegs (pciDev r) l (commonCfg r) (isrCfg r) (notifyBase r) (notifyOffMultiplier r) (deviceCfg r) (hostFeatures r) (negotiatedFeatures r).
Definition set_cfgs (r : GpuRegs) (common isr base mult dev : Z) : GpuRegs :=
  mkGpuRegs (pciDev r) (gpu_bars r) common isr base mult dev (hostFeatures r) (negotiatedFeatures r).
Definition set_features (r : GpuRegs) (host negotiated : Z) : GpuRegs :=
  mkGpuRegs (pciDev r) (gpu_bars r) (commonCfg r) (isrCfg r) (notifyBase r) (notifyOffMultiplier r) (deviceCfg r) host negotiated.
Definition add_shm (a : GpuAdapter) (n : Z) : GpuAdapter :=
  mkAdapter (ad_name a) (ad_pciVendor a) (ad_pciDevice a) (ad_caps a) (vramTotal a) (vramFree a) (u64 (shmTotal a + n)) (u64 (shmFree a + n))
    (headCount a) (heads a) (engineCount a) (engines a) (priv a).

Definition bar0 : VirtioGpuBar := mkGpuBar 0 0 0 0.
Definition adapter0 : GpuAdapter := mkAdapter [] 0 0 0 0 0 0 0 0 None 0 false false.

(** The record after [kzalloc] and the assignments of [virtioGpuProbe]. *)
Definition new_gpu (dev : PciDevice) : VirtioGpuDevice :=
  mkGpu (mkGpuRegs dev (repeat bar0 6) 0 0 0 0 0 0 0) None None 0 0 0 0 0 (mkTables [] 1 [] 1 1 0) adapter0.

(** ** Version strings *)

(** [writeUint]: the characters written. *)
Fixpoint digits_rev (fuel : nat) (num : Z) : list Z :=
  match fuel with
  | O => []
  | S k => if 0 <? num then 48 + num mod 10 :: digits_rev k (num / 10) else []
  end.
Definition writeUint (num : Z) : list Z := if num =? 0 then [48] else rev (digits_rev 10 num).

(** [fmtVulkanVersion]: the bytes written to the buffer. *)
Definition fmtVulkanVersion (version : Z) : list Z :=
  let major := Z.land (Z.shiftr version 22) 0x7F in
  let minor := Z.land (Z.shiftr version 12) 0x3FF in
  let patch := Z.land version 0xFFF in
  writeUint major ++ [46] ++ writeUint minor ++ [46] ++ writeUint patch ++ [0].

Section Ops.
Context {W : Type} `{Machine W}.
(** Whether an allocation succeeds, the rounds of waiting, the kernel's page
    directory, the address of the adapter's record, and what lies in memory
    behind the answer to a capability query. *)
Context (kz : Z -> bool) (fuel : nat) (kpml4 adapter_at : Z) (beyond : list Z).
Abbreviation G := (G W).

Definition get_gpu : G VirtioGpuDevice := gets gpu.
Definition regs_of : G GpuRegs := gets (fun s => g_regs (gpu s)).
Definition on_gpu (f : VirtioGpuDevice -> VirtioGpuDevice) : G unit := modify (fun s => set_gpu s (f (gpu s))).
Definition on_regs (f : GpuRegs -> GpuRegs) : G unit := on_gpu (fun d => set_regs d (f (g_regs d))).

(** ** Capability sets (caps.c) *)

(** [virtioGpuGetCapset]: the [outDataSize] bytes at the destination, which
    held [out]. *)
Definition virtioGpuGetCapset (capsetId capsetVersion capsetMaxSize : Z) (out : list Z) : G (option (list Z)) :=
  if capsetMaxSize =? 0 then mret None
  else
    let respTotalLen := u32 (24 + capsetMaxSize) in
    if negb (kz respTotalLen) then mret None
    else
      a ← virtioGpuSendControlCmd fuel (encode (GetCapset capsetId capsetVersion)) (repeat 0 (Z.to_nat respTotalLen));
      if negb (a.1 =? 0) then mret None
      else if negb (resp_type (a.2 ++ beyond) =? VIRTIO_GPU_RESP_OK_CAPSET) then mret None
      else
        let copyBytes := Z.to_nat (if capsetMaxSize <? Z.of_nat (length out) then capsetMaxSize else Z.of_nat (length out)) in
        mret (Some (take copyBytes (drop 24 (a.2 ++ beyond)) ++ drop copyBytes out)).

(** One round of [virtioGpuDetectCapsets]. *)
Definition detect_capset (i : Z) : G unit :=
  a ← virtioGpuSendControlCmd fuel (encode (GetCapsetInfo i)) (repeat 0 40);
  let '(ret, info) := a in
  if negb (ret =? 0) || negb (resp_type info =? VIRTIO_GPU_RESP_OK_CAPSET_INFO) then mret tt
  else
    let capsetId := le32 info 24 in
    if capsetId =? VIRTIO_GPU_CAPSET_VENUS then
      v ← virtioGpuGetCapset VIRTIO_GPU_CAPSET_VENUS 0 (le32 info 32) (repeat 0 16);
      match v with
      | None => mret tt
      | Some venusCaps =>
          if 0 <? le32 venusCaps 4 then on_gpu (fun d => set_apis d 1 (hasVirgl d) (le32 venusCaps 4)) else mret tt
      end
    else if (capsetId =? VIRTIO_GPU_CAPSET_VIRGL) || (capsetId =? VIRTIO_GPU_CAPSET_VIRGL2)
    then on_gpu (fun d => set_apis d (hasVenus d) 1 0x1006000)
    else mret tt.

Fixpoint each_capset (l : list Z) : G unit :=
  match l with
  | [] => mret tt
  | i :: r => detect_capset i;; each_capset r
  end.

Definition virtioGpuDetectCapsets : G unit :=
  on_gpu (fun d => set_apis d 0 0 (apiver d));;
  r ← regs_of;
  if negb (has (negotiatedFeatures r) VIRTIO_GPU_F_VIRGL) then mret tt
  else
    numCapsets ← lift (io_load 4 (cfg_numCapsets (deviceCfg r)));
    each_capset (seqZ 0 numCapsets).

(** ** Base address registers *)
Definition mapBar (barIndex : Z) : G Z :=
  r ← regs_of;
  let b := nth (Z.to_nat barIndex) (gpu_bars r) bar0 in
  let pciBar := nth (Z.to_nat barIndex) (bars (pciDev r)) (mkBar 0 0 0 0 0) in
  if bar_count (pciDev r) <=? barIndex then mret (-1)
  else if negb (gb_mapped b =? 0) then mret 0
  else if negb (is_io pciBar =? 0) || (phys_addr pciBar =? 0) || (bar_size pciBar =? 0) then mret (-1)
  else
    let physStart := page_down (phys_addr pciBar) in
    let virtStart := u64 (physStart + HHDM_BASE) in
    let done (size : Z) : G Z :=
      on_regs (fun r => set_gpu_bars r (<[Z.to_nat barIndex := mkGpuBar physStart virtStart size 1]> (gpu_bars r)));;
      mret 0 in
    m ← memory;
    if vmmVirtToPhys m kpml4 virtStart =? 0 then
      let physEnd := page_down (u64 (phys_addr pciBar + bar_size pciBar + PAGE_SIZE - 1)) in
      let mapSize := u64 (physEnd - physStart) in
      rc ← on_vm (fun vm => vmmMapRange vm kpml4 virtStart physStart mapSize (Z.lor (Z.lor VMM_FLAG_PRESENT VMM_FLAG_WRITABLE) VMM_FLAG_NO_CACHE));
      if negb (rc =? 0) then mret (-1) else done mapSize
    else done (bar_size pciBar).

Fixpoint unmap_bars (l : list nat) : G unit :=
  match l with
  | [] => mret tt
  | i :: rest =>
      r ← regs_of;
      let b := nth i (gpu_bars r) bar0 in
      (if negb (gb_mapped b =? 0) then
         on_vm (fun vm => vmmUnmapRange vm kpml4 (gb_virtAddr b) (gb_size b));;
         on_regs (fun r => set_gpu_bars r (<[i := bar0]> (gpu_bars r)))
       else mret tt);;
      unmap_bars rest
  end.
Definition unmapAllBars : G unit := unmap_bars (seq 0 6).

(** ** PCI capabilities *)

(** [VirtioPciCap], read byte by byte. *)
Fixpoint read_cap (n : nat) (f : Bdf) (off : Z) : G (list Z) :=
  match n with
  | O => mret []
  | S k => b ← lift (pcie_read8 kpml4 f (u16 off)); l ← read_cap k f (off + 1); mret (b :: l)
  end.

(** What a capability of type 9 tells: the registers behind its window. *)
Definition use_cap (f : Bdf) (capPtr : Z) (cap : list Z) : G unit :=
  let bar := byte_at cap 4 in
  let offset := le32 cap 8 in
  let len := le32 cap 12 in
  let cfgType := byte_at cap 3 in
  r0 ← regs_of;
  if negb (bar <? bar_count (pciDev r0)) then mret tt
  else
    rc ← mapBar bar;
    if negb (rc =? 0) then mret tt
    else
      r ← regs_of;
      let regVirt := u64 (gb_virtAddr (nth (Z.to_nat bar) (gpu_bars r) bar0) + offset) in
      if cfgType =? VIRTIO_PCI_CAP_COMMON_CFG then
        (if 56 <=? len then on_regs (fun r => set_cfgs r regVirt (isrCfg r) (notifyBase r) (notifyOffMultiplier r) (deviceCfg r)) else mret tt)
      else if cfgType =? VIRTIO_PCI_CAP_NOTIFY_CFG then
        mult ← lift (pcie_read32 kpml4 f (capPtr + 16));
        on_regs (fun r => set_cfgs r (commonCfg r) (isrCfg r) regVirt mult (deviceCfg r))
      else if cfgType =? VIRTIO_PCI_CAP_ISR_CFG then
        on_regs (fun r => set_cfgs r (commonCfg r) regVirt (notifyBase r) (notifyOffMultiplier r) (deviceCfg r))
      else if cfgType =? VIRTIO_PCI_CAP_DEVICE_CFG then
        (if 16 <=? len then on_regs (fun r => set_cfgs r (commonCfg r) (isrCfg r) (notifyBase r) (notifyOffMultiplier r) regVirt) else mret tt)
      else if cfgType =? VIRTIO_PCI_CAP_SHARED_MEMORY_CFG then on_gpu (fun d => set_adapter d (add_shm (adapter d) len))
      else mret tt.

Fixpoint cap_walk (rounds : nat) (f : Bdf) (capPtr : Z) : G unit :=
  match rounds with
  | O => stuck
  | S k =>
      if (0x40 <=? capPtr) && (capPtr <=? 0xFC) then
        capId ← lift (pcie_read8 kpml4 f capPtr);
        (if capId =? 9 then cap ← read_cap 16 f capPtr; use_cap f capPtr cap else mret tt);;
        next ← lift (pcie_read8 kpml4 f (capPtr + 1));
        cap_walk k f (Z.land next (u8 (Z.lnot 3)))
      else mret tt
  end.

Definition enumerateCapabilities : G Z :=
  r ← regs_of;
  let f := bdf (pciDev r) in
  status ← lift (pcie_read16 kpml4 f PCI_REG_STATUS);
  if negb (has status PCI_STATUS_CAPABILITIES) then mret (-1)
  else
    p ← lift (pcie_read8 kpml4 f PCI_REG_CAPABILITIES);
    cap_walk fuel f (Z.land p (u8 (Z.lnot 3)));;
    r1 ← regs_of;
    mret (if (commonCfg r1 =? 0) || (notifyBase r1 =? 0) || (isrCfg r1 =? 0) || (deviceCfg r1 =? 0) then -1 else 0).

(** ** Feature negotiation *)
Fixpoint wait_status (rounds : nat) (cfg start timeoutMs : Z) : G Z :=
  match rounds with
  | O => stuck
  | S k =>
      modify (fun s => set_pci s (with_w (pci s) (elapse (pc_w (pci s)))));;
      status ← lift (io_load 1 (cfg_deviceStatus cfg));
      if status =? 0 then mret 0
      else
        now ← get_millis;
        if timeoutMs <=? u64 (now - start) then mret (-1) else wait_status k cfg start timeoutMs
  end.
Definition waitForStatusZero (cfg timeoutMs : Z) : G Z :=
  start ← get_millis;
  wait_status fuel cfg start timeoutMs.

(** The features the driver asks for, of those offered. *)
Definition desired_features (host : Z) : Z :=
  let add (f d : Z) := Z.lor d (Z.land host f) in
  add VIRTIO_GPU_F_CONTEXT_INIT (add VIRTIO_GPU_F_RESOURCE_BLOB (add VIRTIO_GPU_F_RESOURCE_UUID
    (add VIRTIO_GPU_F_EDID (add VIRTIO_GPU_F_VIRGL VIRTIO_F_VERSION_1)))).

Definition negotiateFeatures : G Z :=
  r ← regs_of;
  let cfg := commonCfg r in
  let set_status (v : Z) : G unit := lift (io_store 1 (cfg_deviceStatus cfg) v) in
  set_status 0;;
  rc ← waitForStatusZero cfg 1000;
  if negb (rc =? 0) then mret (-1)
  else
    let status := Z.lor VIRTIO_STATUS_ACKNOWLEDGE VIRTIO_STATUS_DRIVER in
    set_status status;;
    lift (io_store 4 (cfg_deviceFeatureSelect cfg) 0);;
    featLow ← lift (io_load 4 (cfg_deviceFeature cfg));
    lift (io_store 4 (cfg_deviceFeatureSelect cfg) 1);;
    featHigh ← lift (io_load 4 (cfg_deviceFeature cfg));
    let host := Z.lor (Z.shiftl featHigh 32) featLow in
    on_regs (fun r => set_features r host (negotiatedFeatures r));;
    if negb (has host VIRTIO_F_VERSION_1) then
      set_status (Z.lor status VIRTIO_STATUS_FAILED);;
      mret (-1)
    else
      let desired := desired_features host in
      lift (io_store 4 (cfg_driverFeatureSelect cfg) 0);;
      lift (io_store 4 (cfg_driverFeature cfg) (Z.land desired 0xFFFFFFFF));;
      lift (io_store 4 (cfg_driverFeatureSelect cfg) 1);;
      lift (io_store 4 (cfg_driverFeature cfg) (u32 (Z.shiftr desired 32)));;
      let status1 := Z.lor status VIRTIO_STATUS_FEATURES_OK in
      set_status status1;;
      now ← lift (io_load 1 (cfg_deviceStatus cfg));
      if negb (has now VIRTIO_STATUS_FEATURES_OK) then
        set_status (Z.lor status1 VIRTIO_STATUS_FAILED);;
        mret (-1)
      else
        on_regs (fun r => set_features r (hostFeatures r) desired);;
        mret 0.

(** ** The adapter *)

(** Capabilities and name. *)
Definition display_caps : Z := Z.lor (Z.lor NAG_CAP_SUPPORTS_2D NAG_CAP_DISP_MODESET) NAG_CAP_DISP_HWCURSR.
Definition adapter_caps (d : VirtioGpuDevice) (scanouts : Z) : Z :=
  let c0 := if 0 <? scanouts then display_caps else 0 in
  if has (negotiatedFeatures (g_regs d)) VIRTIO_GPU_F_VIRGL then
    let c1 := Z.lor c0 (Z.lor NAG_CAP_SUPPORTS_3D NAG_CAP_SUPPORTS_COMP) in
    if negb (hasVenus d =? 0) then Z.lor c1 NAG_CAP_GPGPU else c1
  else c0.
Definition adapter_name (d : VirtioGpuDevice) : list Z :=
  text (if has (negotiatedFeatures (g_regs d)) VIRTIO_GPU_F_VIRGL then
          if negb (hasVenus d =? 0) then "VirtIO GPU (3D, Venus)"
          else if negb (hasVirgl d =? 0) then "VirtIO GPU (3D, VirGL)" else "VirtIO GPU (3D; unknown)"
        else "VirtIO GPU (2D)").

Definition fillNagAdapter : G Z :=
  d ← get_gpu;
  let r := g_regs d in
  scanouts ← lift (io_load 4 (cfg_numScanouts (deviceCfg r)));
  let a := adapter d in
  let pd := pciDev r in
  if (0 <? scanouts) && negb (kz (scanouts * sizeof_DispHead)) then
    on_gpu (fun d => set_adapter d (mkAdapter (ad_name a) (vendor_id pd) (device_id pd) display_caps (vramTotal a) (vramFree a)
      (shmTotal a) (shmFree a) scanouts None (engineCount a) (engines a) true));;
    mret (-1)
  else
    let hs := if 0 <? scanouts then Some (seqZ 0 scanouts) else None in
    let b0 := nth 0 (bars pd) (mkBar 0 0 0 0 0) in
    let vram := if (subclass pd =? 0) && (is_io b0 =? 0) then bar_size b0 else 0 in
    let full (h : option (list Z)) (e : bool) :=
      mkAdapter (adapter_name d) (vendor_id pd) (device_id pd) (adapter_caps d scanouts) vram vram (shmTotal a) (shmFree a) scanouts h 1 e true in
    if negb (kz sizeof_GpuEngine) then
      on_gpu (fun d => set_adapter d (full None false));;
      mret (-1)
    else
      on_gpu (fun d => set_adapter d (full hs true));;
      mret 0.

(** ** Probe and removal *)
Definition create_queue (queueIdx : Z) : G (option Virtqueue) := fun s =>
  let r := g_regs (gpu s) in
  let '(w, fa, q) := virtqueueCreate kz (pc_w (pci s)) (pc_fa (pci s)) (commonCfg r) (notifyBase r) (notifyOffMultiplier r) queueIdx in
  Some (set_pci s (with_fa (with_w (pci s) w) fa), q).
Definition destroy_queue (q : option Virtqueue) : G unit :=
  modify (fun s => set_pci s (with_fa (pci s) (virtqueueDestroy (pc_fa (pci s)) q))).
Definition set_nag (s : Gpu W) (n : Nag) : Gpu W :=
  mkGs (pci s) (gpu s) (gGpuDevice s) (gGpuUserVirtCursor s) (procs s) (current s) n.
Definition set_global (b : bool) : G unit :=
  modify (fun s => mkGs (pci s) (gpu s) b (gGpuUserVirtCursor s) (procs s) (current s) (nag s)).

Definition fail_probe : G Z := unmapAllBars;; mret (-1).

(** From the queues on: each failure releases what was taken before it. *)
Definition probe_adapter : G Z :=
  cq ← create_queue 0;
  match cq with
  | None => fail_probe
  | Some q0 =>
      on_gpu (fun d => set_controlQueue d (Some q0));;
      uq ← create_queue 1;
      match uq with
      | None => destroy_queue (Some q0);; fail_probe
      | Some q1 =>
          on_gpu (fun d => set_cursorQueue d (Some q1));;
          page ← alloc_frame;
          let drop_queues : G unit :=
            (q ← gets (fun s => cursorQueue (gpu s)); destroy_queue q);;
            (q ← gets (fun s => controlQueue (gpu s)); destroy_queue q) in
          if page =? 0 then
            on_gpu (fun d => set_dma d 0 0);;
            drop_queues;;
            fail_probe
          else
            on_gpu (fun d => set_dma d page (u64 (page + HHDM_BASE)));;
            r ← regs_of;
            status ← lift (io_load 1 (cfg_deviceStatus (commonCfg r)));
            lift (io_store 1 (cfg_deviceStatus (commonCfg r)) (Z.lor status VIRTIO_STATUS_DRIVER_OK));;
            virtioGpuDetectCapsets;;
            rc ← fillNagAdapter;
            if negb (rc =? 0) then
              free_frame page;;
              drop_queues;;
              fail_probe
            else
              reg ← (fun s => let '(n, rc) := nagRegisterAdapter kz (nag s) adapter_at in Some (set_nag s n, rc));
              if negb (reg =? 0) then
                free_frame page;;
                drop_queues;;
                fail_probe
              else
                set_global true;;
                mret 0
      end
  end.

Definition virtioGpuProbe (dev : PciDevice) : G Z :=
  if negb (kz sizeof_VirtioGpuDevice) then mret (-1)
  else
    on_gpu (fun _ => new_gpu dev);;
    lift (pcie_enable_bus_master kpml4 (bdf dev));;
    rc ← enumerateCapabilities;
    if negb (rc =? 0) then fail_probe
    else
      rc2 ← negotiateFeatures;
      if negb (rc2 =? 0) then fail_probe else probe_adapter.

Fixpoint drain_resources (rounds : nat) : G unit :=
  match rounds with
  | O => stuck
  | S k =>
      t ← tables;
      match resources t with
      | [] => mret tt
      | r :: _ => virtioGpuResourceDestroy kz fuel (r_contextId r) (resourceId r);; drain_resources k
      end
  end.
Fixpoint drain_contexts (rounds : nat) : G unit :=
  match rounds with
  | O => stuck
  | S k =>
      t ← tables;
      match contexts t with
      | [] => mret tt
      | c :: _ => virtioGpuContextDestroy fuel (contextId c);; drain_contexts k
      end
  end.

Definition virtioGpuRemove : G unit :=
  here ← gets gGpuDevice;
  if negb here then mret tt
  else
    t ← tables;
    drain_resources (S (length (resources t)));;
    drain_contexts (S (length (contexts t)));;
    r ← regs_of;
    (if negb (commonCfg r =? 0) then lift (io_store 1 (cfg_deviceStatus (commonCfg r)) 0) else mret tt);;
    modify (fun s => set_nag s (nagUnregisterAdapter (nag s) adapter_at));;
    (q ← gets (fun s => controlQueue (gpu s)); destroy_queue q);;
    on_gpu (fun d => set_controlQueue d None);;
    page ← gets (fun s => ctrlDmaPhys (gpu s));
    (if negb (page =? 0) then free_frame page;; on_gpu (fun d => set_dma d 0 0) else mret tt);;
    (q ← gets (fun s => cursorQueue (gpu s)); destroy_queue q);;
    on_gpu (fun d => set_cursorQueue d None);;
    on_gpu (fun d => let a := adapter d in
      set_adapter d (mkAdapter (ad_name a) (ad_pciVendor a) (ad_pciDevice a) (ad_caps a) (vramTotal a) (vramFree a) (shmTotal a) (shmFree a)
        (headCount a) None (engineCount a) false (priv a)));;
    unmapAllBars;;
    set_global false.

(** The loop of [driver_init]: the first device that matches is probed. *)
Definition driver_init : G Z :=
  devs ← gets (fun s => g_devices (pci s));
  match List.find (fun d => (vendor_id d =? VIRTIO_PCI_VENDOR_ID) && (device_id d =? VIRTIO_PCI_DEVICE_ID)) devs with
  | None => mret (-1)
  | Some dev => virtioGpuProbe dev
  end.
Definition driver_exit : G unit := virtioGpuRemove.
End Ops.
