(* ===== verification/GpuProps.v ===== *)
(** * Theorems on the VirtIO GPU driver

    The host of the GPU as a specification (contexts, resources and what the
    commands do to them), a device that answers the requests it finds in the
    control queue as that host does, and what the driver's operations do
    together with it. *)

From Stdlib Require Import ZArith Lia Bool.
From stdpp Require Import base list gmap relations.
From S2P Require Import Prelude Mem Str Frames Pmm PageTable Vma Block Nag Machine Virtqueue VirtqProps VirtqPoll Pcie Gpu.

(** ** The host *)
Record HostRes := mkHostRes { hr_ctxs : gset Z; hr_backing : option (Z * Z) }.
Record Host := mkHost { h_ctxs : gset Z; h_res : gmap Z HostRes }.

(** The backing of resource [r], when there is such a resource. *)
Definition backing (h : Host) (r : Z) : option (option (Z * Z)) := hr_backing <$> h_res h !! r.

Definition on_res (h : Host) (r : Z) (f : HostRes -> option HostRes) : option Host :=
  match h_res h !! r with
  | None => None
  | Some x => match f x with None => None | Some y => Some (mkHost (h_ctxs h) (<[r := y]> (h_res h))) end
  end.

(** What a command does; [None] when it has no meaning in the state. *)
Definition host_step (h : Host) (r : Request) : option Host :=
  match r with
  | CtxCreate c _ => if decide (c = 0 \/ c ∈ h_ctxs h) then None else Some (mkHost ({[c]} ∪ h_ctxs h) (h_res h))
  | CtxDestroy c =>
      if decide (c ∈ h_ctxs h)
      then Some (mkHost (h_ctxs h ∖ {[c]}) ((fun x => mkHostRes (hr_ctxs x ∖ {[c]}) (hr_backing x)) <$> h_res h)) else None
  | CtxAttachResource c r => if decide (c ∈ h_ctxs h) then on_res h r (fun x => Some (mkHostRes ({[c]} ∪ hr_ctxs x) (hr_backing x))) else None
  | CtxDetachResource c r => if decide (c ∈ h_ctxs h) then on_res h r (fun x => Some (mkHostRes (hr_ctxs x ∖ {[c]}) (hr_backing x))) else None
  | ResourceUnref r => match h_res h !! r with None => None | Some _ => Some (mkHost (h_ctxs h) (delete r (h_res h))) end
  | ResourceAttachBacking r a n =>
      on_res h r (fun x => match hr_backing x with None => Some (mkHostRes (hr_ctxs x) (Some (a, n))) | Some _ => None end)
  | ResourceDetachBacking r =>
      on_res h r (fun x => match hr_backing x with None => None | Some _ => Some (mkHostRes (hr_ctxs x) None) end)
  | ResourceCreate3d c r _ _ _ _ _ _ =>
      if decide (r = 0) then None
      else match h_res h !! r with None => Some (mkHost (h_ctxs h) (<[r := mkHostRes ∅ None]> (h_res h))) | Some _ => None end
  | TransferHost3d _ _ _ _ _ r => match h_res h !! r with None => None | Some _ => Some h end
  | CmdSubmit3d c _ _ => if decide (c ∈ h_ctxs h) then Some h else None
  | GetCapsetInfo _ | GetCapset _ _ => Some h
  end.

(** Commands that take memory of the host can be refused for want of it. *)
Definition may_refuse (r : Request) : bool :=
  match r with
  | CtxCreate _ _ | CtxAttachResource _ _ | ResourceCreate3d _ _ _ _ _ _ _ _ | ResourceAttachBacking _ _ _
  | GetCapsetInfo _ | GetCapset _ _ | TransferHost3d _ _ _ _ _ _ | CmdSubmit3d _ _ _ => true
  | _ => false
  end.

Definition ok_type (r : Request) : Z :=
  match r with
  | GetCapsetInfo _ => VIRTIO_GPU_RESP_OK_CAPSET_INFO
  | GetCapset _ _ => VIRTIO_GPU_RESP_OK_CAPSET
  | _ => VIRTIO_GPU_RESP_OK_NODATA
  end.

(** The answer's type, and the host after it. *)
Inductive answers (h : Host) (r : Request) : Host -> Z -> Prop :=
| accepted h' : host_step h r = Some h' -> answers h r h' (ok_type r)
| refused ty : ty <> ok_type r -> host_step h r = None \/ may_refuse r = true -> answers h r h ty.

(** ** Requests with fields in range *)
Definition is_u32 (z : Z) : Prop := 0 <= z < 2 ^ 32.
Definition request_ok (r : Request) : Prop :=
  match r with
  | GetCapsetInfo i => is_u32 i
  | GetCapset i v => is_u32 i /\ is_u32 v
  | CtxCreate c name => is_u32 c /\ (length name <= 63)%nat /\ Forall is_byte name
  | CtxDestroy c => is_u32 c
  | CtxAttachResource c r | CtxDetachResource c r => is_u32 c /\ is_u32 r
  | ResourceUnref r | ResourceDetachBacking r => is_u32 r
  | ResourceAttachBacking r a n => is_u32 r /\ is_u64 a /\ is_u32 n
  | ResourceCreate3d c r t f b w h d => Forall is_u32 [c; r; t; f; b; w; h; d]
  | TransferHost3d _ c f b off r =>
      is_u64 f /\ is_u64 off /\ Forall is_u32 [c; r; box_x b; box_y b; box_z b; box_w b; box_h b; box_d b]
  | CmdSubmit3d c f l => is_u32 c /\ is_u64 f /\ Z.of_nat (length l) < 2 ^ 32 - 32 /\ Forall is_byte l
  end.

(** ** Bytes in memory *)
Lemma bytes_at_ext m m' a n : (forall x, a <= x < a + Z.of_nat n -> rd8 m' x = rd8 m x) -> bytes_at m' a n = bytes_at m a n.
Proof. intros E. unfold bytes_at. apply map_ext_in. intros i [_ Hi]%in_seq. apply E. lia. Qed.

Lemma bytes_put m a l : Forall is_byte l -> bytes_at (put_bytes m a l) a (length l) = l.
Proof.
  intros Hl. apply list_eq_same_length with (n := length l); [done|apply length_bytes_at|]. intros i x y Hi Hx Hy.
  rewrite lookup_bytes_at in Hx by done. injection Hx as <-. rewrite rd8_put_bytes.
  destruct (Z.leb_spec a (a + Z.of_nat i)); [|lia]. destruct (Z.ltb_spec (a + Z.of_nat i) (a + Z.of_nat (length l))); [|lia]. cbn [andb].
  replace (a + Z.of_nat i - a) with (Z.of_nat i) by lia. rewrite Nat2Z.id, Hy. apply Z.mod_small.
  rewrite Forall_forall in Hl. apply (Hl y). by eapply list_elem_of_lookup_2.
Qed.

Lemma le_bytes_at k : forall m a n i, (i + k <= n)%nat -> le k (bytes_at m a n) (Z.of_nat i) = rd k m (a + Z.of_nat i).
Proof.
  induction k as [|k IH]; intros m a n i Hi; [done|]. cbn [le rd]. f_equal.
  - unfold byte_at. rewrite Nat2Z.id. apply nth_lookup_Some. apply lookup_bytes_at. lia.
  - replace (Z.of_nat i + 1) with (Z.of_nat (S i)) by lia. rewrite IH by lia. f_equal. f_equal. lia.
Qed.

Lemma resp_type_at m a n : (4 <= n)%nat -> resp_type (bytes_at m a n) = rd32 m a.
Proof. intros Hn. pose proof (le_bytes_at 4 m a n 0 ltac:(lia)) as E. by rewrite Z.add_0_r in E. Qed.

(** The lengths of the fixed parts, and that a request is bytes. *)
Definition is_small (r : Request) : Prop := match r with CmdSubmit3d _ _ _ => False | _ => True end.

Lemma words_ok l : Forall is_byte (words l) /\ length (words l) = (4 * length l)%nat.
Proof.
  induction l as [|v l [H1 H2]]; [by split|]. change (words (v :: l)) with (le_bytes 4 v ++ words l). destruct (le_bytes_ok 4 v) as [H3 H4].
  split; [by apply Forall_app|]. rewrite length_app, H2, H4. cbn [length]. lia.
Qed.

Lemma ctrl_hdr_ok t f i c : Forall is_byte (ctrl_hdr t f i c) /\ length (ctrl_hdr t f i c) = 24%nat.
Proof.
  unfold ctrl_hdr. rewrite !Forall_app, !length_app, repeat_length. rewrite !(proj2 (le_bytes_ok _ _)). split; [|done].
  split_and!; try apply le_bytes_ok. repeat constructor; unfold is_byte; lia.
Qed.

Lemma field_ok n l : Forall is_byte l -> Forall is_byte (field n l) /\ length (field n l) = n.
Proof.
  intros Hl. unfold field. split; [|rewrite length_take, length_app, repeat_length; lia]. apply Forall_take, Forall_app. split; [done|].
  apply Forall_forall. intros x Hx. apply list_elem_of_In, repeat_spec in Hx. subst x. unfold is_byte. lia.
Qed.

Lemma encode_ok r : request_ok r -> is_small r -> Forall is_byte (encode r) /\ (24 <= length (encode r) <= 128)%nat.
Proof.
  intros Hr Hs. assert (Hf : forall n l, Forall is_byte l -> length (field n l) = n) by (intros; by apply field_ok).
  assert (Hh : forall t f i c, length (ctrl_hdr t f i c) = 24%nat) by (intros; apply ctrl_hdr_ok).
  assert (Hw : forall l, length (words l) = (4 * length l)%nat) by apply words_ok. assert (Hb : forall n v, length (le_bytes n v) = n) by apply le_bytes_ok. split.
  - destruct r; cbn [encode is_small] in *; try done; repeat (first [apply ctrl_hdr_ok|apply words_ok|apply le_bytes_ok|by apply field_ok, Hr|apply Forall_app_2]).
  - destruct r; cbn [encode is_small] in *; try done; rewrite ?length_app, ?Hh, ?Hw, ?Hb; cbn [length]; try lia.
    rewrite Hf by apply Hr. lia.
Qed.

(** ** The device *)
Definition dma (phys : Z) : Z := u64 (phys + HHDM_BASE).
Definition buf_in (b : VirtqBuf) (x : Z) : Prop := dma (physAddr b) <= x < dma (physAddr b) + buf_len b.
Definition queue_area (q : Virtqueue) (x : Z) : Prop :=
  driver_area q x \/ usedRing q <= x < usedRing q + 6 + 8 * queueSize q.

Lemma place_area q vq x : place vq = q -> driver_area vq x <-> driver_area q x.
Proof. by intros <-. Qed.

Section Device.
Context {W : Type} `{Machine W} `{!MachineLaws W}.
Implicit Types (w : W) (h : Host).

(** The device answers the request in the first buffer of the chain [c] in
    its second buffer, and returns the chain. *)
Record serves (q : Virtqueue) (c : list Z) (m m' : mem) (h h' : Host) : Prop := {
  sv_used : used_idx m' q = u16 (used_idx m q + 1);
  sv_slot : forall j, 0 <= j < queueSize q -> rd32 m' (used_slot q j) = if j =? used_idx m q mod queueSize q then head c else rd32 m (used_slot q j);
  sv_answer : forall b1 b2 r, desc_buf m q <$> c = [b1; b2] -> request_ok r -> 24 <= buf_len b2 -> (forall x, buf_in b2 x -> ~ queue_area q x) ->
    bytes_at m (dma (physAddr b1)) (Z.to_nat (buf_len b1)) = encode r ->
    answers h r h' (rd32 m' (dma (physAddr b2))) /\
    (forall x, ~ usedRing q <= x < usedRing q + 6 + 8 * queueSize q -> ~ buf_in b2 x -> rd8 m' x = rd8 m x)
}.

(** [D w h busy]: the host is in state [h], and [busy] tells whether the
    device has been notified of a request that it has not answered. *)
Record gpu_device (q : Virtqueue) (D : W -> Host -> bool -> Prop) : Prop := {
  gd_set : forall w m h p, D w h p -> D (set_mm w m) h p;
  gd_kick : forall w h, D w h false -> D (io_wr w 2 (notifyAddr q) (queueIndex q)) h true;
  gd_idle : forall w h, D w h false -> mm (elapse w) = mm w /\ D (elapse w) h false;
  gd_busy : forall w h vq g c, D w h true -> place vq = q -> vq_inv (mm w) vq g -> g_flight g = [c] -> g_pend g = [head c] ->
    (mm (elapse w) = mm w /\ D (elapse w) h true) \/ exists h', serves q c (mm w) (mm (elapse w)) h h' /\ D (elapse w) h' false
}.

(** It answers at once. *)
Definition prompt (D : W -> Host -> bool -> Prop) : Prop := forall w h, D w h true -> ~ D (elapse w) h true.

Context (q : Virtqueue) (D : W -> Host -> bool -> Prop) (Dev : gpu_device q D).

(** ** One exchange *)
Section Exchange.
Context (h : Host) (r : Request) (c : list Z) (b1 b2 : VirtqBuf) (m0 : mem).
Context (Hr : request_ok r) (Hl : 24 <= buf_len b2) (Hreq : bytes_at m0 (dma (physAddr b1)) (Z.to_nat (buf_len b1)) = encode r).
Context (Hb1 : forall x, buf_in b1 x -> ~ queue_area q x) (Hb2 : forall x, buf_in b2 x -> ~ queue_area q x).

(** The chain is with the device. *)
Definition asked (w : W) (g : Ghost) : Prop :=
  g_flight g = [c] /\ g_pend g = [head c] /\ D w h true /\ desc_buf (mm w) q <$> c = [b1; b2] /\ (forall x, ~ driver_area q x -> rd8 (mm w) x = rd8 m0 x).
(** The device has answered. *)
Definition told (w : W) (g : Ghost) : Prop :=
  g_flight g = [] /\ exists h', D w h' false /\ answers h r h' (rd32 (mm w) (dma (physAddr b2))) /\
    (forall x, ~ queue_area q x -> ~ buf_in b2 x -> rd8 (mm w) x = rd8 m0 x).
Definition under_way (w : W) (g : Ghost) : Prop := asked w g \/ told w g.

Lemma request_still w : (forall x, ~ driver_area q x -> rd8 (mm w) x = rd8 m0 x) ->
  bytes_at (mm w) (dma (physAddr b1)) (Z.to_nat (buf_len b1)) = encode r.
Proof.
  intros Hf. rewrite <- Hreq. apply bytes_at_ext. intros x Hx. apply Hf. intros Hd. apply (Hb1 x); [|by left]. unfold buf_in. lia.
Qed.

Lemma answer_kept m m' : (forall x, driver_area q x \/ rd8 m' x = rd8 m x) -> rd32 m' (dma (physAddr b2)) = rd32 m (dma (physAddr b2)).
Proof.
  intros E. apply rd_ext. intros x Hx. destruct (E x) as [Hd|]; [|done]. exfalso. apply (Hb2 x); [|by left]. unfold buf_in. lia.
Qed.

(** A device that answers takes the steps of a VirtIO device. *)
Lemma serves_steps vq m m' g h' : place vq = q -> vq_inv m vq g -> g_flight g = [c] -> g_pend g = [head c] -> desc_buf m q <$> c = [b1; b2] ->
  bytes_at m (dma (physAddr b1)) (Z.to_nat (buf_len b1)) = encode r -> serves q c m m' h h' ->
  rtc (dev_step vq) (m, g) (m', mkGhost (g_free g) [] (g_done g ++ [c]) []).
Proof.
  intros Hq I Ef Epd Eb Er [Su Ss Sa]. destruct (Sa b1 b2 r Eb Hr Hl Hb2 Er) as [_ Hout].
  assert (Hfin : rtc (dev_step vq) (m, mkGhost (g_free g) [c] (g_done g) []) (m', mkGhost (g_free g) [] (g_done g ++ [c]) [])).
  { apply rtc_once. apply (dev_finish vq m m' (mkGhost (g_free g) [c] (g_done g) []) c [] []); try done.
    - cbn [g_pend]. by apply not_elem_of_nil.
    - intros x Hx. assert (Hx' : driver_area q x) by (by rewrite <- (place_area q vq x Hq)). apply Hout.
      + pose proof (vi_placed _ _ _ I) as [P1 P2 P3 P4 P5]. subst q. unfold driver_area, place in *. cbn in *. lia.
      + intros Hb. apply (Hb2 x Hb). by left.
    - by rewrite <- Hq in Su.
    - by rewrite <- Hq in Ss. }
  destruct g as [F fl d p]. cbn [g_free g_flight g_done g_pend] in *. subst fl p.
  eapply rtc_l; [|exact Hfin]. apply (dev_fetch vq m (mkGhost F [c] d [head c]) (head c) []). done.
Qed.

Lemma set_next_area m t v x : 0 <= t < queueSize q -> driver_area q x \/ rd8 (set_next m q t v) x = rd8 m x.
Proof.
  intros Ht. destruct (decide (desc q t + 14 <= x < desc q t + 16)) as [Hd|Hd].
  - left. left. unfold desc in Hd. lia.
  - right. apply rd8_wr16. lia.
Qed.

Lemma exchange_device : virtio_device q under_way.
Proof.
  constructor.
  - intros vq w g Hq I [(Ef & Epd & HD & Eb & Hm)|(Ef & h' & HD & Ha & Hm)].
    + pose proof (request_still w Hm) as Er. destruct (gd_busy q D Dev w h vq g c HD Hq I Ef Epd) as [[E HD']|(h' & Sv & HD')].
      * exists g. rewrite E. split; [done|]. left. unfold asked. by rewrite E.
      * eexists. split; [by eapply serves_steps|]. right. split; [done|]. exists h'. destruct Sv as [_ _ Sa]. destruct (Sa b1 b2 r Eb Hr Hl Hb2 Er) as [Ha Hout].
        split_and!; try done. intros x Hx Hbx. rewrite Hout; [apply Hm; intros ?; apply Hx; by left|intros ?; apply Hx; by right|done].
    + destruct (gd_idle q D Dev w h' HD) as [E HD']. exists g. rewrite E. split; [done|]. right. split; [done|]. exists h'. by rewrite E.
  - intros w g t v F d [(Ef & Epd & HD & Eb & Hm)|(Ef & h' & HD & Ha & Hm)] Ht Hn; pose proof (fun x => set_next_area (mm w) t v x Ht) as Hs.
    + left. split; [done|]. split; [done|]. split; [by apply (gd_set q D Dev)|]. rewrite mm_set. split.
      * rewrite <- Eb. apply list_fmap_ext. intros k i Hi. apply (same_buf q (mm w)), set_next_other. intros <-. apply Hn. rewrite Ef. cbn [concat]. rewrite app_nil_r.
        by eapply list_elem_of_lookup_2.
      * intros x Hx. destruct (Hs x) as [|E]; [done|]. rewrite E. by apply Hm.
    + right. split; [done|]. exists h'. rewrite mm_set. split; [by apply (gd_set q D Dev)|]. rewrite (answer_kept (mm w)) by done. split; [done|].
      intros x Hx Hbx. destruct (Hs x) as [Hd|E]; [destruct Hx; by left|]. rewrite E. by apply Hm.
Qed.
End Exchange.

(** The driver's page for requests and answers. *)
Definition dma_page (s : Gpu W) (x : Z) : Prop := dma (ctrlDmaPhys (gpu s)) <= x < dma (ctrlDmaPhys (gpu s)) + PAGE_SIZE.

(** The driver between two exchanges: all descriptors are free. *)
Record channel (s : Gpu W) (h : Host) : Prop := {
  ch_queue : exists vq F, controlQueue (gpu s) = Some vq /\ place vq = q /\ vq_inv (mm (pc_w (pci s))) vq (mkGhost F [] [] []);
  ch_size : 2 <= queueSize q;
  ch_dev : D (pc_w (pci s)) h false;
  ch_phys : frame_addr (ctrlDmaPhys (gpu s));
  ch_virt : ctrlDmaVirt (gpu s) = dma (ctrlDmaPhys (gpu s));
  ch_apart : forall x, dma_page s x -> ~ queue_area q x
}.

Context (k : nat) (Ck : clock_runs (W := W) k) (fuel : nat) (Hfuel : (k * 2000 < fuel)%nat).

Lemma idle_free m vq F : vq_inv m vq (mkGhost F [] [] []) -> Z.of_nat (length F) = queueSize vq.
Proof. intros I. pose proof (inv_count I) as Hc. cbn in Hc. lia. Qed.

(** A ghost state in which a chain of two is neither free nor with the device
    has it finished. *)
Lemma must_be_done m vq g : vq_inv m vq g -> g_flight g = [] -> Z.of_nat (length (g_free g)) < queueSize vq -> g_done g <> [].
Proof. intros I Ef Hn E. pose proof (inv_count I) as Hc. rewrite Ef, E in Hc. cbn in Hc. lia. Qed.

Lemma exchange_ok s h b1 b2 r timeout : channel s h -> request_ok r -> buf_ok b1 -> buf_ok b2 -> 24 <= buf_len b2 ->
  bytes_at (mm (pc_w (pci s))) (dma (physAddr b1)) (Z.to_nat (buf_len b1)) = encode r ->
  (forall x, buf_in b1 x -> ~ queue_area q x) -> (forall x, buf_in b2 x -> ~ queue_area q x) -> 0 <= timeout <= 2000 ->
  exists w' vq' ret, exchange fuel [b1; b2] timeout s = Some (on_channel s w' vq', ret) /\
    (forall x, ~ queue_area q x -> ~ buf_in b2 x -> rd8 (mm w') x = rd8 (mm (pc_w (pci s))) x) /\
    (ret = 0 \/ ret = -1) /\ (prompt D -> ret = 0) /\
    (ret = 0 -> exists h', answers h r h' (rd32 (mm w') (dma (physAddr b2))) /\ channel (on_channel s w' vq') h').
Proof.
  intros [(vq & F & Ec & Hq & I) Hs HD Cp Cv Ca] Hr B1 B2 Hl Er Hb1 Hb2 Ht. unfold exchange. rewrite Ec. set (m := mm (pc_w (pci s))) in *.
  pose proof (idle_free _ _ _ I) as HF. assert (Hsz : queueSize vq = queueSize q) by (by rewrite <- Hq).
  destruct (submit_ok m vq (mkGhost F [] [] []) [b1; b2] I) as (m1 & vq1 & E1 & I1 & Eb & _ & _ & Hout & _ & nf & hd & Evq); [by apply Forall_cons_2; [|apply Forall_singleton]|done|cbn; lia|].
  cbn [length g_free g_flight g_done] in *. rewrite E1. cbn [negb Z.eqb]. set (w1 := set_mm _ m1). set (g1 := taken _ 2) in I1.
  assert (Hq1 : place vq1 = q) by (by rewrite Evq). assert (Hm1 : mm w1 = m1) by apply mm_set.
  set (wk := virtqueueKick w1 vq1). assert (Hmk : mm wk = m1) by (unfold wk, virtqueueKick; by rewrite mm_io_wr).
  assert (HDk : D wk h true). { unfold wk, virtqueueKick. replace (notifyAddr vq1) with (notifyAddr q) by (by rewrite <- Hq1). replace (queueIndex vq1) with (queueIndex q) by (by rewrite <- Hq1).
    apply (gd_kick q D Dev), (gd_set q D Dev), HD. }
  set (c := take 2 F) in *. set (R := under_way h r c b1 b2 m).
  assert (Hov : forall x, ~ driver_area q x -> rd8 m1 x = rd8 m x) by (intros x Hx; apply Hout; by rewrite (place_area q vq)).
  assert (VD : virtio_device q R) by (by apply exchange_device).
  assert (R1 : R wk g1). { left. unfold asked. rewrite Hmk. split_and!; try done. by rewrite <- Hq1. }
  rewrite <- Hmk in I1. destruct (vd_acts q R VD vq1 wk g1 Hq1 I1 R1) as (g2 & St & R2). pose proof (dev_steps_inv vq1 _ _ St I1) as I2. cbn [fst snd] in I2.
  destruct (dev_steps_keep vq1 _ _ St) as [Kf _]. cbn [snd] in Kf.
  destruct (poll_from q R VD k (elapse wk) vq1 g2 timeout fuel Ck Hq1 I2 R2) as (w' & vq' & g' & ret & E & I' & R' & Hq' & Hret); [lia|pose proof (Nat.mul_le_mono_l (Z.to_nat timeout) 2000 k ltac:(lia)); lia|].
  unfold virtqueuePoll, hpet_get_millis. rewrite E. exists w', vq', ret. split; [done|].
  assert (Hlt : Z.of_nat (length (g_free g2)) < queueSize vq1). { rewrite Kf. cbn [g1 taken g_free]. rewrite length_drop. rewrite Evq. change (queueSize (set_free vq nf hd)) with (queueSize vq). lia. }
  split_and!.
  - intros x Hx Hbx. destruct R' as [(_ & _ & _ & _ & Hm)|(_ & h' & _ & _ & Hm)]; [|by apply Hm]. apply Hm. intros ?. apply Hx. by left.
  - destruct Hret as [[? _]|[? _]]; auto.
  - intros Hp. destruct Hret as [[? _]|(_ & _ & Hd & _)]; [done|]. exfalso. destruct R2 as [(_ & _ & HD2 & _)|(Ef & _)]; [by apply (Hp wk h)|].
    by apply (must_be_done _ _ _ I2 Ef).
  - intros ->. destruct Hret as [(_ & Hd & Hn)|[? _]]; [|done]. destruct R' as [(Ef & _)|(Ef & h' & HD' & Ha & Hm)].
    + exfalso. pose proof (inv_count I') as Hc. rewrite Ef, Hd in Hc. pose proof (vi_num _ _ _ I') as N'. pose proof (vi_num _ _ _ I2) as N2. rewrite Kf in N2. cbn [g1 taken g_free] in N2. rewrite length_drop in N2.
      cbn [concat app] in Hc. rewrite app_nil_r in Hc. assert (length c = 2%nat) by (unfold c; rewrite length_take; lia).
      assert (queueSize vq' = queueSize q) by (by rewrite <- Hq'). lia.
    + exists h'. split; [done|]. constructor; try done. exists vq', (g_free g'). split_and!; try done.
      cbn [on_channel pci set_gpu set_pci with_w pc_w]. destruct g' as [F' fl d p]. cbn [g_free g_flight g_done] in *. subst fl d.
      pose proof (vi_heads _ _ _ I') as Hh. cbn in Hh. apply submseteq_nil_r in Hh. cbn in Hh. by subst p.
Qed.

Lemma dma_id a : frame_addr a -> dma a = a + HHDM_BASE.
Proof. intros [Ha _]. apply u64_id. unfold is_u64, HHDM_BASE. lia. Qed.

Lemma frame_fits a : frame_addr a -> 0 < a /\ a + 4096 <= 2 ^ 47.
Proof. intros [Ha Hm]. assert (a = 4096 * (a / 4096)) by divlia. divlia. Qed.

(** Writes outside of the queue's memory do not concern the channel. *)
Lemma channel_frame s s' h : channel s h -> controlQueue (gpu s') = controlQueue (gpu s) -> ctrlDmaPhys (gpu s') = ctrlDmaPhys (gpu s) ->
  ctrlDmaVirt (gpu s') = ctrlDmaVirt (gpu s) -> D (pc_w (pci s')) h false ->
  (forall x, queue_area q x -> rd8 (mm (pc_w (pci s'))) x = rd8 (mm (pc_w (pci s))) x) -> channel s' h.
Proof.
  intros [(vq & F & Ec & Hq & I) Hs HD Cp Cv Ca] E1 E2 E3 HD' Hm. constructor; rewrite ?E2, ?E3; try done.
  - exists vq, F. rewrite E1. split; [done|]. split; [done|]. pose proof (vp_size _ (vi_placed _ _ _ I)).
    apply (area_inv vq (mm (pc_w (pci s))) _ _ _ I); try done; try apply I.
    + intros x Hx. apply Hm. left. by rewrite <- (place_area q vq).
    + apply (finished_same (mm (pc_w (pci s)))); [lia| |apply I]. intros x Hx. apply Hm. right. rewrite <- Hq. cbn. lia.
  - intros x Hx. apply Ca. unfold dma_page in *. by rewrite E2 in Hx.
Qed.

(** The two halves of the driver's page, with a request in the first and a
    cleared second. *)
Definition prepared (s : Gpu W) (req : list Z) (n : Z) : Gpu W :=
  let phys := ctrlDmaPhys (gpu s) in
  set_pci s (with_w (pci s) (upd (upd (pc_w (pci s)) (fun m => put_bytes m (dma phys) req)) (fun m => (memset m (dma phys + 2048) 0 n).1))).

Lemma prepared_mem s req n x : 0 <= n -> rd8 (mm (pc_w (pci (prepared s req n)))) x =
  if (dma (ctrlDmaPhys (gpu s)) + 2048 <=? x) && (x <? dma (ctrlDmaPhys (gpu s)) + 2048 + n) then 0
  else rd8 (put_bytes (mm (pc_w (pci s))) (dma (ctrlDmaPhys (gpu s))) req) x.
Proof. intros Hn. cbn [prepared pci set_pci with_w pc_w]. unfold upd. rewrite !mm_set. apply (memset_filled _ _ 0 n Hn x). Qed.

Lemma prepared_page s req n x : (length req <= 2048)%nat -> 0 <= n <= 2048 -> ~ dma_page s x ->
  rd8 (mm (pc_w (pci (prepared s req n)))) x = rd8 (mm (pc_w (pci s))) x.
Proof.
  intros H1 H2 Hx. rewrite prepared_mem, rd8_put_bytes by lia. unfold dma_page, PAGE_SIZE in Hx. bsplit; done || lia.
Qed.

Lemma prepared_channel s h req n : channel s h -> (length req <= 2048)%nat -> 0 <= n <= 2048 -> channel (prepared s req n) h.
Proof.
  intros C H1 H2. apply (channel_frame s); try done.
  - apply (gd_set q D Dev), (gd_set q D Dev), (ch_dev s h C).
  - intros x Hx. apply prepared_page; [done|done|]. intros Hp. by apply (ch_apart s h C x).
Qed.

Lemma prepared_request s req n : Forall is_byte req -> (length req <= 2048)%nat -> 0 <= n ->
  bytes_at (mm (pc_w (pci (prepared s req n)))) (dma (ctrlDmaPhys (gpu s))) (length req) = req.
Proof.
  intros Hb Hl Hn. rewrite <- (bytes_put (mm (pc_w (pci s))) (dma (ctrlDmaPhys (gpu s))) req Hb) at 3. apply bytes_at_ext. intros x Hx.
  rewrite prepared_mem by done. bsplit; done || lia.
Qed.

(** What the driver does when both parts fit. *)
Lemma send_eq s h req resp : channel s h -> (0 < length req <= 2048)%nat -> (0 < length resp <= 2048)%nat ->
  let phys := ctrlDmaPhys (gpu s) in
  virtioGpuSendControlCmd fuel req resp s =
  match exchange fuel [mkBuf phys (Z.of_nat (length req)) 0; mkBuf (phys + 2048) (Z.of_nat (length resp)) 1] 1000 (prepared s req (Z.of_nat (length resp))) with
  | None => None
  | Some (s', ret) => Some (s', (ret, if ret =? 0 then bytes_at (mm (pc_w (pci s'))) (dma phys + 2048) (length resp) else resp))
  end.
Proof.
  intros C Hn1 Hn2 phys. destruct (ch_queue s h C) as (vq & F & Ec & Hq & I). pose proof (ch_phys s h C) as Hp. pose proof (dma_id _ Hp) as Ed. pose proof (frame_fits _ Hp) as Hp4.
  unfold virtioGpuSendControlCmd, dma_buffers, mbind, g_bind, gets, mret, g_ret. rewrite Ec.
  rewrite (u32_id (Z.of_nat (length req))), (u32_id (Z.of_nat (length resp))) by lia.
  destruct (Z.eqb_spec (Z.of_nat (length req)) 0); [lia|]. destruct (Z.eqb_spec (Z.of_nat (length resp)) 0); [lia|]. cbn [orb].
  change (PAGE_SIZE / 2) with 2048. rewrite (ch_virt s h C). fold phys in Ed, Hp4 |- *.
  destruct (Z.leb_spec (Z.of_nat (length req)) 2048); [|lia]. destruct (Z.leb_spec (Z.of_nat (length resp)) 2048); [|lia].
  destruct (Z.eqb_spec (dma phys) 0) as [E0|_]; [rewrite Ed in E0; unfold HHDM_BASE in E0; lia|]. cbn [andb negb].
  rewrite (u64_id (phys + 2048)) by (unfold is_u64; lia). rewrite (u64_id (dma phys + 2048)) by (rewrite Ed; unfold is_u64, HHDM_BASE; lia).
  cbn [reqVirt respVirt reqPhys respPhys]. unfold on_mem, modify, memory, gets, release_buffers. cbn [dynamicPages].
  match goal with |- context [exchange fuel ?b 1000 ?t] => change t with (prepared s req (Z.of_nat (length resp))); destruct (exchange fuel b 1000 _) as [[s' ret]|]; done end.
Qed.

(** A request and its answer. *)
Lemma send_ok s h r resp : channel s h -> request_ok r -> Forall is_byte (encode r) -> (0 < length (encode r) <= 2048)%nat -> (24 <= length resp <= 2048)%nat ->
  exists w' vq' ret resp', virtioGpuSendControlCmd fuel (encode r) resp s = Some (on_channel s w' vq', (ret, resp')) /\
    (forall x, ~ queue_area q x -> ~ dma_page s x -> rd8 (mm w') x = rd8 (mm (pc_w (pci s))) x) /\
    (ret = 0 \/ (ret = -1 /\ resp' = resp)) /\ (prompt D -> ret = 0) /\
    (ret = 0 -> length resp' = length resp /\ exists h', answers h r h' (resp_type resp') /\ channel (on_channel s w' vq') h').
Proof.
  intros C Hr Hby Hn1 Hn2. rewrite (send_eq s h) by (done || lia). set (phys := ctrlDmaPhys (gpu s)). set (p := prepared _ _ _).
  pose proof (ch_phys s h C) as Hp. fold phys in Hp. pose proof (dma_id _ Hp) as Ed. pose proof (frame_fits _ Hp) as Hp4.
  set (b1 := mkBuf phys _ 0). set (b2 := mkBuf (phys + 2048) _ 1).
  assert (Ed2 : dma (phys + 2048) = dma phys + 2048) by (rewrite Ed; unfold dma; rewrite u64_id by (unfold is_u64, HHDM_BASE; lia); lia).
  assert (P1 : forall x, buf_in b1 x -> dma_page s x) by (intros x; unfold buf_in, dma_page, PAGE_SIZE; fold phys; cbn [b1 physAddr buf_len]; lia).
  assert (P2 : forall x, buf_in b2 x -> dma_page s x) by (intros x; unfold buf_in, dma_page, PAGE_SIZE; fold phys; cbn [b2 physAddr buf_len]; rewrite Ed2; lia).
  destruct (exchange_ok p h b1 b2 r 1000) as (w' & vq' & ret & E & Hm & Hret & Hpr & Ha); cbn [b1 b2 physAddr buf_len]; try (done || lia).
  - by apply prepared_channel; [|lia|lia].
  - split_and!; cbn; unfold is_u64; lia || auto.
  - split_and!; cbn; unfold is_u64; lia || auto.
  - rewrite Nat2Z.id. by apply prepared_request; [|lia|lia].
  - intros x Hx. apply (ch_apart s h C), P1, Hx.
  - intros x Hx. apply (ch_apart s h C), P2, Hx.
  - rewrite E. exists w', vq', ret. eexists. split; [done|]. split_and!.
    + intros x Hq Hx. rewrite Hm; [apply prepared_page; [lia|lia|done]|done|]. intros Hb. by apply Hx, P2.
    + destruct Hret as [->| ->]; [by left|right]. done.
    + done.
    + intros ->. cbn [Z.eqb]. split; [apply length_bytes_at|]. destruct (Ha eq_refl) as (h' & Hans & C'). exists h'. split; [|done].
      rewrite resp_type_at by lia. cbn [on_channel pci set_gpu set_pci with_w pc_w]. rewrite <- Ed2. done.
Qed.

(** ** The operations, with a device that answers at once *)
Context (Hprompt : prompt D).

Definition runs {A} (c : G W A) (s : Gpu W) (Q : Gpu W -> A -> Prop) : Prop := exists s' a, c s = Some (s', a) /\ Q s' a.

Lemma runs_bind {A B} (c : G W A) (f : A -> G W B) s Q : runs c s (fun s1 a => runs (f a) s1 Q) -> runs (c ≫= f) s Q.
Proof. intros (s1 & a & E & s2 & b & E2 & HQ). exists s2, b. split; [|done]. unfold mbind, g_bind. by rewrite E. Qed.

Lemma runs_ret {A} (a : A) s (Q : Gpu W -> A -> Prop) : Q s a -> runs (mret a) s Q.
Proof. intros HQ. by exists s, a. Qed.

Lemma runs_mono {A} (c : G W A) s (P Q : Gpu W -> A -> Prop) : runs c s P -> (forall s' a, P s' a -> Q s' a) -> runs c s Q.
Proof. intros (s' & a & E & HP) H1. exists s', a. auto. Qed.

(** All that an exchange leaves alone. *)
Record quiet (s s' : Gpu W) : Prop := {
  qt_regs : g_regs (gpu s') = g_regs (gpu s);
  qt_tables : g_tables (gpu s') = g_tables (gpu s);
  qt_phys : ctrlDmaPhys (gpu s') = ctrlDmaPhys (gpu s);
  qt_fa : pc_fa (pci s') = pc_fa (pci s);
  qt_procs : procs s' = procs s;
  qt_current : current s' = current s;
  qt_cursor : gGpuUserVirtCursor s' = gGpuUserVirtCursor s;
  qt_mem : forall x, ~ queue_area q x -> ~ dma_page s x -> rd8 (mm (pc_w (pci s'))) x = rd8 (mm (pc_w (pci s))) x
}.

Lemma gpu_quiet_refl s : quiet s s.
Proof. by constructor. Qed.

Lemma gpu_quiet_trans s1 s2 s3 : quiet s1 s2 -> quiet s2 s3 -> quiet s1 s3.
Proof.
  intros [A1 A2 A3 A4 A5 A6 A7 A8] [B1 B2 B3 B4 B5 B6 B7 B8]. constructor; try congruence.
  intros x Hq Hd. rewrite B8; [by apply A8|done|]. unfold dma_page in *. by rewrite A3.
Qed.

Lemma no_resp_length : (24 <= length no_resp <= 2048)%nat.
Proof. vm_compute. lia. Qed.

(** A command: the host has made the step, or it could refuse. *)
Lemma answer_ok s h r : channel s h -> request_ok r -> is_small r -> ok_type r = VIRTIO_GPU_RESP_OK_NODATA ->
  runs (virtioGpuSendControlCmd fuel (encode r) no_resp) s (fun s' a => a.1 = 0 /\ quiet s s' /\
    exists h', channel s' h' /\ if ok_nodata a.2 then host_step h r = Some h' else h' = h /\ (host_step h r = None \/ may_refuse r = true)).
Proof.
  intros C Hr Hs Ht. destruct (encode_ok r Hr Hs) as [He1 He2].
  destruct (send_ok s h r no_resp C Hr He1 ltac:(lia) no_resp_length) as (w' & vq' & ret & resp & E & Hm & _ & Hp & Ha).
  specialize (Hp Hprompt). subst ret. destruct (Ha eq_refl) as (_ & h' & Hans & C'). eexists _, _. split; [exact E|]. split; [done|]. split; [by constructor|].
  exists h'. split; [done|]. unfold ok_nodata. inversion Hans as [h1 Hst Et E2|ty Hty Hre Et E2]; subst.
  - cbn [snd]. rewrite <- E2, Ht, Z.eqb_refl. done.
  - cbn [snd]. rewrite Ht in Hty. by destruct (Z.eqb_spec (resp_type resp) VIRTIO_GPU_RESP_OK_NODATA).
Qed.

Lemma command_ok s h r : channel s h -> request_ok r -> is_small r -> ok_type r = VIRTIO_GPU_RESP_OK_NODATA ->
  runs (command fuel r) s (fun s' ok => quiet s s' /\
    exists h', channel s' h' /\ if (ok : bool) then host_step h r = Some h' else h' = h /\ (host_step h r = None \/ may_refuse r = true)).
Proof.
  intros C Hr Hs Ht. apply runs_bind. eapply runs_mono; [by apply answer_ok|]. intros s' [ret resp] (E & Q & h' & C' & Hh). cbn [fst snd] in *. subst ret.
  apply runs_ret. cbn [fst snd Z.eqb andb]. split; [done|]. by exists h'.
Qed.

(** A command that cannot be refused, its answer ignored. *)
Lemma command__ok s h r : channel s h -> request_ok r -> is_small r -> ok_type r = VIRTIO_GPU_RESP_OK_NODATA -> may_refuse r = false ->
  runs (command_ fuel r) s (fun s' _ => quiet s s' /\ channel s' (default h (host_step h r))).
Proof.
  intros C Hr Hs Ht Hm. apply runs_bind. eapply runs_mono; [by apply answer_ok|]. intros s' a (E & Q & h' & C' & Hh).
  apply runs_ret. split; [done|]. destruct (ok_nodata a.2); [by rewrite Hh|]. destruct Hh as [-> [->|?]]; [done|congruence].
Qed.

(** ** The driver's tables *)
Definition tab (s : Gpu W) : GpuTables := g_tables (gpu s).
Definition with_tab (s : Gpu W) (t : GpuTables) : Gpu W := set_gpu s (set_tables (gpu s) t).

Lemma runs_tables {A} (f : GpuTables -> G W A) s Q : runs (f (tab s)) s Q -> runs (tables ≫= f) s Q.
Proof. done. Qed.

Lemma runs_put {A} (t : GpuTables) (f : G W A) s Q : runs f (with_tab s t) Q -> runs (put_tables t;; f) s Q.
Proof. done. Qed.

Lemma channel_tab s h t : channel s h -> channel (with_tab s t) h.
Proof. intros C. apply (channel_frame s); try done. apply (ch_dev s h C). Qed.

Lemma unlink_spec {A} (p : A -> bool) l :
  match unlink p l with
  | None => forall x, x ∈ l -> p x = false
  | Some (x, rest) => p x = true /\ exists l1 l2, l = l1 ++ x :: l2 /\ rest = l1 ++ l2 /\ forall y, y ∈ l1 -> p y = false
  end.
Proof.
  induction l as [|a l IH]; cbn [unlink]; [by intros x ?%not_elem_of_nil|]. destruct (p a) eqn:Ea.
  - split; [done|]. exists [], l. split_and!; try done. by intros y ?%not_elem_of_nil.
  - destruct (unlink p l) as [[x rest]|].
    + destruct IH as (Hx & l1 & l2 & -> & -> & H1). split; [done|]. exists (a :: l1), l2. split_and!; try done. intros y [->|Hy]%elem_of_cons; auto.
    + intros x [->|Hx]%elem_of_cons; auto.
Qed.

(** ** Contexts *)

(** The contexts in the driver's list are those of the host, each with an
    identifier of its own below the counter. *)
Record contexts_ok (t : GpuTables) (h : Host) : Prop := {
  cx_host : forall c, c ∈ h_ctxs h <-> c ∈ (contextId <$> contexts t);
  cx_nodup : NoDup (contextId <$> contexts t);
  cx_ids : forall c, c ∈ (contextId <$> contexts t) -> 0 < c < nextContextId t;
  cx_next : 0 < nextContextId t < 2 ^ 32
}.

Lemma name_bytes_ok n : forall m a, Forall is_byte (name_bytes n m a) /\ (length (name_bytes n m a) <= n)%nat.
Proof.
  induction n as [|n IH]; intros m a; cbn [name_bytes]; [by split|]. destruct (rd8 m a =? 0); [split; [done|cbn [length]; lia]|].
  destruct (IH m (a + 1)). split; [constructor; [apply rd8_range|done]|cbn [length]; lia].
Qed.

Lemma next_id_eq n : 0 < n < 2 ^ 32 - 1 -> next_id n = (n, n + 1).
Proof. intros Hn. unfold next_id. destruct (Z.eqb_spec n 0); [lia|]. by rewrite u32_id by lia. Qed.

(** What the operations on contexts leave alone. *)
Record same_resources (s : Gpu W) (h : Host) (s' : Gpu W) (h' : Host) : Prop := {
  sr_fa : pc_fa (pci s') = pc_fa (pci s);
  sr_phys : ctrlDmaPhys (gpu s') = ctrlDmaPhys (gpu s);
  sr_list : resources (tab s') = resources (tab s);
  sr_next : nextResourceId (tab s') = nextResourceId (tab s);
  sr_back : forall r, backing h' r = backing h r
}.

Lemma backing_drop_ctx h c r : backing (mkHost (h_ctxs h ∖ {[c]}) ((fun x => mkHostRes (hr_ctxs x ∖ {[c]}) (hr_backing x)) <$> h_res h)) r = backing h r.
Proof. unfold backing. cbn [h_res]. rewrite lookup_fmap. by destruct (h_res h !! r). Qed.

(** What one more context means for the tables. *)
Lemma contexts_add t h x name : contexts_ok t h -> x = nextContextId t -> nextContextId t < 2 ^ 32 - 1 ->
  contexts_ok (set_contexts t (mkContext x name :: contexts t) (nextContextId t + 1)) (mkHost ({[x]} ∪ h_ctxs h) (h_res h)).
Proof.
  intros [C1 C2 C3 C4] -> Hn. constructor; cbn [set_contexts contexts nextContextId h_ctxs fmap list_fmap contextId].
  - intros c. rewrite elem_of_union, elem_of_singleton, elem_of_cons, C1. done.
  - apply NoDup_cons. split; [|done]. intros Hc%C3. lia.
  - intros c [->|Hc]%elem_of_cons; [lia|]. apply C3 in Hc. lia.
  - lia.
Qed.

Lemma contexts_step t h n : contexts_ok t h -> nextContextId t <= n < 2 ^ 32 -> contexts_ok (set_contexts t (contexts t) n) h.
Proof. intros [C1 C2 C3 C4] Hn. constructor; cbn [set_contexts contexts nextContextId]; try done; [|lia]. intros c Hc%C3. lia. Qed.

Lemma create_context_ok kz s h name : channel s h -> contexts_ok (tab s) h -> nextContextId (tab s) < 2 ^ 32 - 1 ->
  runs (virtioGpuContextCreate kz fuel name) s (fun s' r => exists h', channel s' h' /\ contexts_ok (tab s') h' /\
    same_resources s h s' h' /\
    match r with
    | None => contexts (tab s') = contexts (tab s)
    | Some c => (c ∉ contextId <$> contexts (tab s)) /\
        contexts (tab s') = mkContext c (take 31 (name_bytes 63 (mm (pc_w (pci s))) name)) :: contexts (tab s)
    end).
Proof.
  intros C X Hn. pose proof (cx_next _ _ X) as Hnx. apply runs_tables. rewrite next_id_eq by lia. apply runs_put. set (id := nextContextId (tab s)) in *.
  set (t1 := set_contexts (tab s) (contexts (tab s)) (id + 1)). pose proof (channel_tab s h t1 C) as C1.
  assert (X1 : contexts_ok t1 h) by (apply contexts_step; [done|unfold id; lia]).
  apply runs_bind. eexists _, _. split; [done|]. cbv beta. change (mm (pc_w (pci (with_tab s t1)))) with (mm (pc_w (pci s))). set (nm := name_bytes 63 _ name).
  destruct (name_bytes_ok 63 (mm (pc_w (pci s))) name) as [Hb Hl]. fold nm in Hb, Hl. cbv zeta.
  apply runs_bind. eapply runs_mono; [apply (command_ok (with_tab s t1) h (CtxCreate id nm)); try done; split_and!; try done; unfold is_u32; lia|].
  intros s2 ok (Q & h2 & C2 & Hok). cbv beta. destruct Q as [_ Qt Qp Qf _ _ _ _]. change (g_tables (gpu (with_tab s t1))) with t1 in Qt.
  assert (Hnin : id ∉ (contextId <$> contexts (tab s))) by (intros Hin%(cx_ids _ _ X); unfold id in Hin; lia).
  destruct ok; cbn [negb]; [|destruct Hok as [-> _]; apply runs_ret; exists h; unfold tab; rewrite Qt; split; [done|]; split; [done|]; split; [|done]; constructor; unfold tab; rewrite ?Qt; done].
  cbn [host_step] in Hok. case_decide as Hd; [done|]. injection Hok as <-. destruct (kz sizeof_VirtioGpuContext); cbn [negb].
  - apply runs_tables, runs_put. apply runs_ret. exists (mkHost ({[id]} ∪ h_ctxs h) (h_res h)). split; [by apply channel_tab|].
    cbn [tab with_tab gpu set_gpu set_tables g_tables pci]. fold (tab s2) in Qt. rewrite Qt. split; [by apply (contexts_add (tab s) h id)|]. split; [|done]. constructor; cbn [tab with_tab gpu set_gpu set_tables g_tables pci ctrlDmaPhys]; rewrite ?Qt; done.
  - apply runs_bind. eapply runs_mono; [apply (command__ok s2 _ (CtxDestroy id) C2); try done; cbn; unfold is_u32; lia|].
    intros s3 [] (Q3 & C3). apply runs_ret. cbn [host_step] in C3. rewrite decide_True in C3 by (cbn [h_ctxs]; set_solver). change (default ?a (Some ?b)) with b in C3. eexists. split; [exact C3|].
    destruct Q3 as [_ Qt3 Qp3 Qf3 _ _ _ _]. unfold tab. rewrite Qt3, Qt. split; [|split; [constructor; unfold tab; rewrite ?Qt3, ?Qf3, ?Qt, ?Qp3; try done; intros r; apply (backing_drop_ctx (mkHost ({[id]} ∪ h_ctxs h) (h_res h)))|done]].
    destruct X1 as [A1 A2 A3 A4]. constructor; try done. cbn [h_ctxs]. intros c. rewrite <- A1.
    assert (c ∈ h_ctxs h -> c <> id) by (intros Hc ->; by apply Hnin, (cx_host _ _ X)). set_solver.
Qed.

(** Taking a context out. *)
Lemma contexts_remove t h l1 c l2 : contexts_ok t h -> contexts t = l1 ++ c :: l2 ->
  contexts_ok (set_contexts t (l1 ++ l2) (nextContextId t))
    (mkHost (h_ctxs h ∖ {[contextId c]}) ((fun x => mkHostRes (hr_ctxs x ∖ {[contextId c]}) (hr_backing x)) <$> h_res h)).
Proof.
  intros [C1 C2 C3 C4] E. rewrite E, fmap_app in C1, C2, C3. cbn [fmap list_fmap] in C1, C2, C3. apply NoDup_app in C2 as (N1 & N2 & N3).
  apply NoDup_cons in N3 as [N3 N4]. constructor; cbn [set_contexts contexts nextContextId h_ctxs]; rewrite ?fmap_app; [| | |done].
  - intros d. rewrite elem_of_difference, C1, elem_of_singleton, !elem_of_app, elem_of_cons. split; [tauto|].
    intros [Hd|Hd]; (split; [tauto|]); intros ->; [|done]. apply (N2 _ Hd). left.
  - apply NoDup_app. split_and!; try done. intros d Hd Hd2. apply (N2 d Hd). by right.
  - intros d Hd. apply C3. rewrite elem_of_app, elem_of_cons. rewrite elem_of_app in Hd. tauto.
Qed.

Lemma destroy_context_ok s h c : channel s h -> contexts_ok (tab s) h -> is_u32 c ->
  runs (virtioGpuContextDestroy fuel c) s (fun s' r => exists h', channel s' h' /\ contexts_ok (tab s') h' /\
    same_resources s h s' h' /\
    ((r = 0 /\ (c ∈ contextId <$> contexts (tab s)) /\ exists l1 x l2, contexts (tab s) = l1 ++ x :: l2 /\ contextId x = c /\ contexts (tab s') = l1 ++ l2) \/
     (r = -1 /\ (c ∉ contextId <$> contexts (tab s)) /\ contexts (tab s') = contexts (tab s)))).
Proof.
  intros C X Hc. unfold virtioGpuContextDestroy. match goal with |- runs _ _ ?Q => set (P := Q) end.
  assert (Hno : (c ∉ contextId <$> contexts (tab s)) -> runs (mret (-1)) s P).
  { intros Hn. apply runs_ret. exists h. split; [done|]. split; [done|]. split; [by constructor|]. by right. }
  destruct (Z.eqb_spec c 0) as [->|Hc0]; [apply Hno; intros Hin%(cx_ids _ _ X); lia|].
  apply runs_tables. pose proof (unlink_spec (fun x => contextId x =? c) (contexts (tab s))) as U. destruct (unlink _ _) as [[x rest]|].
  2:{ apply Hno. intros (x & -> & Hx)%list_elem_of_fmap_1. specialize (U x Hx). cbn in U. by rewrite Z.eqb_refl in U. }
  destruct U as (Ex%Z.eqb_eq & l1 & l2 & El & -> & _). apply runs_put. apply runs_bind.
  eapply runs_mono; [apply (answer_ok _ h (CtxDestroy c)); [by apply channel_tab|done..]|]. intros s2 [ret resp] (E & Q & h2 & C2 & Hok). cbn [fst snd] in *.
  assert (Hin : c ∈ h_ctxs h). { apply (cx_host _ _ X). rewrite El, fmap_app, elem_of_app. right. cbn [fmap list_fmap]. rewrite Ex. left. }
  cbn [host_step] in Hok. rewrite decide_True in Hok by done. destruct Q as [_ Qt Qp Qf _ _ _ _].
  destruct (ok_nodata resp); [|by destruct Hok as [_ [?|?]]]. injection Hok as <-. apply runs_ret. eexists. split; [exact C2|].
  unfold tab. rewrite Qt. cbn [with_tab gpu set_gpu set_tables g_tables]. split; [|split].
  - rewrite <- Ex. by apply contexts_remove.
  - constructor; unfold tab; rewrite ?Qt, ?Qf, ?Qp; try done. apply backing_drop_ctx.
  - left. split_and!; try done; [by apply (cx_host _ _ X)|]. by exists l1, x, l2.
Qed.
End Device.
