(* ===== verification/GpuRes.v ===== *)
(** * Resources of the VirtIO GPU driver

    The frames behind a resource from its creation to its release, its
    mapping in a process, and the agreement of the driver's list with the
    resources of the host. *)

From Stdlib Require Import ZArith Lia Bool.
From stdpp Require Import base list gmap relations.
From S2P Require Import Prelude Mem Str Frames Pmm PageTable PtWalk PtOps AddrSpace Vma Block Nag Machine Virtqueue VirtqProps VirtqPoll VirtqDemo Pcie Gpu GpuProps.

(** ** Runs of frames *)
Definition run_frames (r : Z * Z) : list Z := seqZ (r.1 / PAGE_SIZE) r.2.
Definition run_ok (r : Z * Z) : Prop := 0 < r.1 /\ r.1 mod 4096 = 0 /\ 0 < r.2 /\ r.1 + r.2 * 4096 <= 2 ^ 47.
(** The byte at [x] lies in a page of the run, in the direct map. *)
Definition in_run (r : Z * Z) (x : Z) : Prop := dma r.1 <= x < dma r.1 + r.2 * 4096.

Lemma run_at_frames a n f : run_at a n f <-> f ∈ run_frames (a, n).
Proof. unfold run_at, run_frames. rewrite elem_of_seqZ. done. Qed.

Lemma run_frame r f : run_ok r -> f ∈ run_frames r -> frame_addr (f * 4096).
Proof.
  intros (H1 & H2 & H3 & H4) Hf. unfold run_frames, PAGE_SIZE in Hf. rewrite elem_of_seqZ in Hf. split; [|by apply Z.mod_mul].
  pose proof (Z.div_mod r.1 4096). lia.
Qed.

Lemma dma_run r : run_ok r -> dma r.1 = r.1 + HHDM_BASE.
Proof. intros (H1 & H2 & H3 & H4). unfold dma. apply u64_id. unfold is_u64, HHDM_BASE. lia. Qed.

Lemma in_run_page r x : run_ok r -> in_run r x <-> exists f, f ∈ run_frames r /\ in_page (f * 4096) x.
Proof.
  intros Hr. pose proof (dma_run r Hr) as Ed. unfold in_run. rewrite Ed. destruct Hr as (H1 & H2 & H3 & H4). pose proof (Z.div_mod r.1 4096 ltac:(lia)) as Em.
  assert (Ht : forall f, f ∈ run_frames r -> tbl (f * 4096) = f * 4096 + HHDM_BASE) by (intros f Hf; by apply tbl_frame, (run_frame r)).
  unfold run_frames, PAGE_SIZE in *. split.
  - intros Hx. exists ((x - HHDM_BASE) / 4096). assert (Hf : (x - HHDM_BASE) / 4096 ∈ seqZ (r.1 / 4096) r.2) by (rewrite elem_of_seqZ; divlia).
    split; [done|]. unfold in_page, PAGE_SIZE. rewrite (Ht _ Hf). divlia.
  - intros (f & Hf & Hx). unfold in_page, PAGE_SIZE in Hx. rewrite (Ht f Hf) in Hx. rewrite elem_of_seqZ in Hf. lia.
Qed.

(** Releasing a run of used frames gives back exactly it. *)
Lemma free_run p a n : pmm_phys_ok p -> run_ok (a, n) -> (forall f, f ∈ run_frames (a, n) -> fa_used p (f * 4096)) ->
  let r := pmm_free_frames p a n in
  pmm_phys_ok r /\ forall f, 0 <= f -> fa_used r (f * 4096) <-> fa_used p (f * 4096) /\ f ∉ run_frames (a, n).
Proof.
  intros [W Hl] (H1 & H2 & H3 & H4) Hu r. cbn [fst snd] in *. assert (Hua : is_u64 a) by (unfold is_u64; lia).
  destruct (pmm_step_refines p (FreeFrames a n) W) as (r' & z & E & Wr & Tr & Sp); [cbn [op_ok]; split; [done|lia]|].
  cbn [pmm_run] in E. injection E as E <-. fold r in E. subst r'. split; [split; [done|by rewrite Tr]|].
  inversion Sp as [? ? Hno|? ? ? Hno|? a' n' ? Ho Hfr]; subst; [by destruct (Hno a n)|by destruct (Hno a n)|].
  destruct Ho as [Ho|[Ho _]]; [|discriminate]. injection Ho as <- <-. intros f Hf. unfold fa_used; cbn [pmm_allocator]. unfold PAGE_SIZE in *.
  rewrite !Z.div_mul by lia. rewrite Tr. specialize (Hfr f). unfold frame_free in Hfr. rewrite Tr in Hfr.
  assert (Hd : freed (g_total_frames p) a n f = true <-> f ∈ run_frames (a, n)).
  { unfold freed, in_range, run_frames, PAGE_SIZE. cbn [fst snd]. rewrite elem_of_seqZ.
    destruct (Z.eqb_spec a 0); [lia|]. destruct (Z.eqb_spec (a mod 4096) 0); [|lia]. cbn [negb andb].
    assert (Hlast : a / 4096 + n <= g_total_frames p).
    { specialize (Hu (a / 4096 + n - 1)). unfold run_frames, PAGE_SIZE in Hu. cbn [fst snd] in Hu. rewrite elem_of_seqZ in Hu.
      destruct Hu as [_ Hu]; [clear -H3; lia|]. rewrite Z.div_mul in Hu by done. clear -Hu; lia. }
    rewrite Z.min_l by exact Hlast. rewrite andb_true_iff, Z.leb_le, Z.ltb_lt. done. }
  rewrite Hd in Hfr. assert (Hin : f ∈ run_frames (a, n) -> f < g_total_frames p) by (intros Hf'; specialize (Hu f Hf'); destruct Hu as [_ Hu]; unfold PAGE_SIZE in Hu; rewrite Z.div_mul in Hu by done; done). split.
  - intros [Hb Ht]. destruct (bitmap_test_bit p f) eqn:Eb.
    + split; [done|]. intros Hr. destruct Hfr as [_ Hfr]. destruct Hfr as [_ Hc]; [right; split; [split; [exact Hf|by apply Hin]|done]|]. congruence.
    + exfalso. destruct Hfr as [_ Hfr]. destruct Hfr as [_ Hc]; [left; split; [split; [exact Hf|exact Ht]|done]|]. congruence.
  - intros [[Hb Ht] Hr]. split; [|done]. destruct (bitmap_test_bit r f) eqn:Eb; [done|]. destruct Hfr as [Hfr _]. destruct Hfr as [[_ Hc]|[_ Hc]]; [split; [split; [exact Hf|exact Ht]|done]|congruence|done].
Qed.

Lemma used_free p f : 0 <= f -> fa_used p (f * 4096) <-> f < g_total_frames p /\ ~ frame_free p f.
Proof.
  intros Hf. unfold fa_used; cbn [pmm_allocator]. unfold PAGE_SIZE, frame_free. rewrite Z.div_mul by done. split.
  - intros [-> Ht]. split; [done|]. by intros [_ ?].
  - intros [Ht Hn]. split; [|done]. destruct (bitmap_test_bit p f) eqn:E; [done|]. destruct Hn. split; [clear -Hf Ht; lia|done].
Qed.

(** An allocation takes a run of free frames, or nothing. *)
Lemma alloc_run p n : pmm_phys_ok p -> 0 <= n < 2 ^ 62 ->
  let r := pmm_alloc_frames p n in
  pmm_phys_ok r.1 /\
  ((r.2 = 0 /\ forall f, 0 <= f -> fa_used r.1 (f * 4096) <-> fa_used p (f * 4096)) \/
   (r.2 <> 0 /\ run_ok (r.2, n) /\ (forall f, f ∈ run_frames (r.2, n) -> ~ fa_used p (f * 4096)) /\
    forall f, 0 <= f -> fa_used r.1 (f * 4096) <-> fa_used p (f * 4096) \/ f ∈ run_frames (r.2, n))).
Proof.
  intros Hp Hn. destruct (decide (n = 0)) as [->|Hn0]; [cbn; by auto|]. pose proof (pmm_alloc_frames_run p n Hp ltac:(lia)) as Hr. cbv zeta.
  destruct (pmm_alloc_frames p n) as [r a]. cbn [fst snd]. destruct Hr as [(-> & Hok & Ht & Hf)|(Ha & [Hok Ht (Ea & Ha0 & Hend) Hw Hf])]; (split; [done|]); [left|right].
  - split; [done|]. intros f Hf0. by rewrite !used_free, Ht, Hf.
  - destruct Hp as [_ Hl]. unfold PAGE_SIZE in Ea, Hend. split; [done|]. split; [unfold run_ok; cbn [fst snd]; rewrite Ea at 2; rewrite Z.mod_mul by done; lia|].
    assert (Hin : forall f, run_at a n f <-> f ∈ run_frames (a, n)) by (intros f; apply run_at_frames). split.
    + intros f Hfr%Hin. pose proof (Hw f Hfr) as Hfree. destruct Hfree as [Hrange _]. rewrite used_free by (clear -Hrange; lia). intros [_ Hno]. by apply Hno, Hw.
    + intros f Hf0. rewrite !used_free, Ht, Hf, <- Hin by done. split.
      * intros [Hlt Hno]. destruct (decide (run_at a n f)); [by right|left]. tauto.
      * intros [[Hlt Hno]|Hrun]; [tauto|]. split; [|tauto]. by destruct (Hw f Hrun) as [[_ ?] _].
Qed.

(** [vmaDestroy] on a range with nothing mapped releases nothing. *)
Lemma unmap_free_nothing n : forall (st : Vm Pmm) pml4 a, (forall i, 0 <= i < Z.of_nat n -> vmmVirtToPhys (vm_mem st) pml4 (a + i * PAGE_SIZE) = 0) ->
  unmap_free n st pml4 a = st.
Proof.
  induction n as [|n IH]; intros st pml4 a Hz; [done|]. cbn [unmap_free]. pose proof (Hz 0 ltac:(lia)) as Hz0. rewrite Z.add_0_r in Hz0. rewrite Hz0. cbn [Z.eqb].
  apply IH. intros i Hi. rewrite <- (Hz (i + 1)) by lia. f_equal. lia.
Qed.

Lemma destroy_nothing ok l : forall (st : Vm Pmm) pml4 s e, (forall v, s <= v < e -> vmmVirtToPhys (vm_mem st) pml4 v = 0) -> (destroy_loop ok st pml4 l s e).1 = st.
Proof.
  induction l as [|c l IH]; intros st pml4 s e Hz; [done|]. cbn [destroy_loop]. specialize (IH st pml4 s e Hz).
  destruct ((s <? vend c) && (vstart c <? e)); [|by destruct (destroy_loop ok st pml4 l s e)].
  rewrite unmap_free_nothing; [by destruct (destroy_loop ok st pml4 l s e)|]. intros i Hi. apply Hz. unfold PAGE_SIZE in *.
  set (a := if s <? vstart c then vstart c else s) in *. set (b := if vend c <? e then vend c else e) in *.
  assert (s <= a /\ b <= e) by (unfold a, b; destruct (Z.ltb_spec s (vstart c)), (Z.ltb_spec (vend c) e); lia).
  destruct (Z.le_gt_cases 0 ((b - a + 4096 - 1) / 4096)) as [Hq|Hq]; [|lia]. rewrite Z2Nat.id in Hi by done. divlia.
Qed.

(** Tables whose bytes are kept give the same translations. *)
Lemma tables_same m m' fa fa' root : pt_wf (mkVm (S := Pmm) m fa) root -> fa_ok fa' ->
  (forall f, frame_addr f -> fa_used fa f -> fa_used fa' f \/ not_table m root f) ->
  (forall f x, frame_addr f -> fa_used fa f -> ~ not_table m root f -> in_page f x -> rd8 m' x = rd8 m x) ->
  pt_wf (mkVm m' fa') root /\ (forall v, xl m' root (vpath v) = xl m root (vpath v)) /\ forall f, not_table m root f -> not_table m' root f.
Proof.
  intros W Hok Hu Hm.
  assert (He : forall c f i, idx_ok c -> (length c <= 3)%nat -> walk m root c = Some f -> 0 <= i < 512 -> entry m' f i = entry m f i).
  { intros c f i Hc Hl Hw Hi. destruct (pw_used _ _ W c f Hc Hl Hw) as [Hf Hus]. apply rd_ext. intros x Hx.
    apply (Hm f); [done|done|intros Hn; by apply (Hn c)|]. unfold in_page, PAGE_SIZE. lia. }
  pose proof (fun q => walk_ext _ _ root q He) as Hx. split_and!.
  - constructor; cbn [vm_mem vm_fa]; [done| | |].
    + intros p f Hp Hl. destruct (Hx p) as [-> _]; [done|lia|]. intros Hw. destruct (pw_used _ _ W p f Hp Hl Hw) as [Hf Hus].
      split; [done|]. destruct (Hu f Hf Hus) as [|Hn]; [done|]. by destruct (Hn p).
    + intros p q f Hp Hq Hlp Hlq. destruct (Hx p) as [-> _]; [done|lia|]. destruct (Hx q) as [-> _]; [done|lia|]. by apply (pw_inj _ _ W).
    + intros i Hi. rewrite (He [] root i) by (done || (simpl; lia) || constructor). by apply (pw_top _ _ W).
  - intros v. apply Hx; [apply vpath_ok|simpl; lia].
  - intros f Hn p Hp Hl. destruct (Hx p) as [-> _]; [done|lia|]. by apply Hn.
Qed.

Section Resources.
Context {W : Type} `{Machine W} `{!MachineLaws W}.
Context (q : Virtqueue) (D : W -> Host -> bool -> Prop) (Dev : gpu_device q D) (k : nat) (Ck : clock_runs (W := W) k).
Context (fuel : nat) (Hfuel : (k * 2000 < fuel)%nat) (Hprompt : prompt D).
Implicit Types (s : Gpu W) (h : Host).
Abbreviation channel := (channel q D).
Abbreviation quiet := (quiet q).

(** ** The invariant *)
Definition res_run (r : VirtioGpuResource) : Z * Z := (r_physBase r, r_pageCount r).
Definition runs_of s : list (Z * Z) := (ctrlDmaPhys (gpu s), 1) :: (physBase q, vq_pageCount q) :: (res_run <$> resources (tab s)).
Definition owned (L : list (Z * Z)) : list Z := L ≫= run_frames.
Definition used s (f : Z) : Prop := fa_used (pc_fa (pci s)) (f * 4096).
Definition mem_of s : mem := mm (pc_w (pci s)).
Definition vm_of s : Vm Pmm := mkVm (mem_of s) (pc_fa (pci s)).

(** The runs [L], the driver's page and the queue among them, have frames of
    their own, and these are in use. *)
Record frames_at (L : list (Z * Z)) s : Prop := {
  fo_pmm : pmm_phys_ok (pc_fa (pci s));
  fo_runs : Forall run_ok L;
  fo_used : forall f, f ∈ owned L -> used s f;
  fo_nodup : NoDup (owned L);
  fo_page : (ctrlDmaPhys (gpu s), 1) ∈ L;
  fo_ring : (physBase q, vq_pageCount q) ∈ L;
  fo_queue : forall x, queue_area q x -> in_run (physBase q, vq_pageCount q) x
}.
Definition frames_ok s : Prop := frames_at (runs_of s) s.

Definition user_range (virt n : Z) : Prop := page_aligned virt /\ 0 <= virt /\ 0 <= n /\ virt + n * 4096 <= 2 ^ 47.
Definition rec_ok (x : VirtioGpuResource) : Prop := user_range (r_userVirt x) (r_pageCount x) /\ is_u32 (r_contextId x).

(** The resources in the driver's list are those of the host, with their
    frames as backing, each with an identifier of its own below the counter
    and an address in user space when it is mapped. *)
Record resources_ok (t : GpuTables) (h : Host) : Prop := {
  rx_host : forall r, r ∈ dom (h_res h) <-> r ∈ (resourceId <$> resources t);
  rx_back : forall x, x ∈ resources t -> backing h (resourceId x) = Some (Some (r_physBase x, u32 (r_pageCount x * PAGE_SIZE)));
  rx_nodup : NoDup (resourceId <$> resources t);
  rx_ids : forall r, r ∈ (resourceId <$> resources t) -> 0 < r < nextResourceId t;
  rx_next : 0 < nextResourceId t < 2 ^ 32;
  rx_rec : forall x, x ∈ resources t -> rec_ok x
}.

(** The tables of the address space of process [p] are in other frames. *)
Record space (L : list (Z * Z)) s (p root : Z) : Prop := {
  sp_proc : exists l, procs s !! p = Some (mkProc (tbl root) l);
  sp_wf : pt_wf (vm_of s) root;
  sp_apart : forall f, f ∈ owned L -> not_table (mem_of s) root (f * 4096)
}.

Lemma owned_run L r f : r ∈ L -> f ∈ run_frames r -> f ∈ owned L.
Proof. intros Hr Hf. apply list_elem_of_bind. by exists r. Qed.

Lemma owned_cons r L f : f ∈ owned (r :: L) <-> f ∈ run_frames r \/ f ∈ owned L.
Proof. unfold owned. cbn. by rewrite elem_of_app. Qed.

Lemma owned_frame L f : Forall run_ok L -> f ∈ owned L -> frame_addr (f * 4096).
Proof. intros Hall (r & Hf & Hr)%list_elem_of_bind. rewrite Forall_forall in Hall. apply (run_frame r); auto. Qed.

Lemma owned_pos L f : Forall run_ok L -> f ∈ owned L -> 0 <= f.
Proof. intros Hall Hf. destruct (owned_frame L f Hall Hf) as [Hr _]. lia. Qed.

Lemma frames_perm L L' s : L ≡ₚ L' -> frames_at L s -> frames_at L' s.
Proof.
  intros E [F1 F2 F3 F4 F5 F6 F7]. assert (Eo : owned L ≡ₚ owned L') by (unfold owned; by rewrite E).
  constructor; rewrite <- ?E, <- ?Eo; try done. intros f. rewrite <- Eo. apply F3.
Qed.

(** A byte of the queue or of the driver's page is in an owned frame. *)
Lemma area_owned L s x : frames_at L s -> queue_area q x \/ dma_page s x -> exists f, f ∈ owned L /\ in_page (f * 4096) x.
Proof.
  intros [F1 F2 F3 F4 F5 F6 F7] Hx. rewrite Forall_forall in F2. pose proof (F2 _ F5) as R1. pose proof (F2 _ F6) as R2.
  destruct Hx as [Hx|Hx].
  - apply F7, (in_run_page _ _ R2) in Hx as (f & Hf & Hx). exists f. split; [by apply (owned_run L _ _ F6)|done].
  - assert (Hin : in_run (ctrlDmaPhys (gpu s), 1) x) by (unfold in_run, dma_page, PAGE_SIZE in *; cbn [fst snd]; lia).
    apply (in_run_page _ _ R1) in Hin as (f & Hf & Hy). exists f. split; [by apply (owned_run L _ _ F5)|done].
Qed.

(** ** Steps that keep it *)

Lemma frames_step L s s' : frames_at L s -> pmm_phys_ok (pc_fa (pci s')) -> ctrlDmaPhys (gpu s') = ctrlDmaPhys (gpu s) ->
  (forall f, f ∈ owned L -> used s f -> used s' f) -> frames_at L s'.
Proof. intros [F1 F2 F3 F4 F5 F6 F7] Hp E Hu. constructor; rewrite ?E; auto. Qed.

Lemma frames_quiet L s s' : frames_at L s -> quiet s s' -> frames_at L s'.
Proof.
  intros F Q. apply (frames_step L s s' F); [rewrite (qt_fa _ _ _ Q); apply F|apply Q|]. intros f _. unfold used. by rewrite (qt_fa _ _ _ Q).
Qed.

Lemma frames_take L s s' r : frames_at L s -> run_ok r -> pmm_phys_ok (pc_fa (pci s')) -> ctrlDmaPhys (gpu s') = ctrlDmaPhys (gpu s) ->
  (forall f, f ∈ run_frames r -> ~ used s f) -> (forall f, 0 <= f -> used s' f <-> used s f \/ f ∈ run_frames r) -> frames_at (r :: L) s'.
Proof.
  intros [F1 F2 F3 F4 F5 F6 F7] Hr Hp E Hnew Hu. assert (Hall : Forall run_ok (r :: L)) by (by constructor).
  constructor; rewrite ?E; try done; [| |by right|by right].
  - intros f Hf. apply Hu; [by apply (owned_pos _ f Hall)|]. apply owned_cons in Hf as [Hf|Hf]; [by right|left; by apply F3].
  - change (owned (r :: L)) with (run_frames r ++ owned L). apply NoDup_app. split_and!; [apply NoDup_seqZ| |done]. intros f Hf Ho. by apply (Hnew f), F3.
Qed.

Lemma frames_release L s s' r : frames_at (r :: L) s -> (ctrlDmaPhys (gpu s), 1) ∈ L -> (physBase q, vq_pageCount q) ∈ L ->
  pmm_phys_ok (pc_fa (pci s')) -> ctrlDmaPhys (gpu s') = ctrlDmaPhys (gpu s) ->
  (forall f, 0 <= f -> used s' f <-> used s f /\ (f ∉ run_frames r)) -> frames_at L s'.
Proof.
  intros [F1 F2 F3 F4 F5 F6 F7] Hc Hq Hp E Hu. inversion F2 as [|? ? Hr Hall]; subst. change (owned (r :: L)) with (run_frames r ++ owned L) in F4.
  apply NoDup_app in F4 as (_ & Hdis & Hnd). constructor; rewrite ?E; try done.
  intros f Hf. apply Hu; [by apply (owned_pos _ f Hall)|]. split; [apply F3, owned_cons; by right|]. intros Hin. by apply (Hdis f).
Qed.

Lemma channel_own L s s' h : frames_at L s -> channel s h -> controlQueue (gpu s') = controlQueue (gpu s) -> ctrlDmaPhys (gpu s') = ctrlDmaPhys (gpu s) ->
  ctrlDmaVirt (gpu s') = ctrlDmaVirt (gpu s) -> pc_w (pci s') = set_mm (pc_w (pci s)) (mem_of s') ->
  (forall f x, f ∈ owned L -> in_page (f * 4096) x -> rd8 (mem_of s') x = rd8 (mem_of s) x) -> channel s' h.
Proof.
  intros F C E1 E2 E3 Ew Hm. apply (channel_frame q D k fuel Hfuel s); try done.
  - rewrite Ew. apply (gd_set q D Dev), (ch_dev _ _ _ _ C).
  - intros x Hx. destruct (area_owned L s x F ltac:(by left)) as (f & Hf & Hp). by apply (Hm f).
Qed.

Lemma space_step L L' s s' p root : space L s p root -> pmm_phys_ok (pc_fa (pci s')) -> (exists l, procs s' !! p = Some (mkProc (tbl root) l)) ->
  (forall f, frame_addr f -> fa_used (pc_fa (pci s)) f -> fa_used (pc_fa (pci s')) f \/ not_table (mem_of s) root f) ->
  (forall f x, frame_addr f -> fa_used (pc_fa (pci s)) f -> ~ not_table (mem_of s) root f -> in_page f x -> rd8 (mem_of s') x = rd8 (mem_of s) x) ->
  (forall f, f ∈ owned L' -> (f ∈ owned L) \/ not_table (mem_of s) root (f * 4096)) ->
  space L' s' p root /\ forall v, xl (mem_of s') root (vpath v) = xl (mem_of s) root (vpath v).
Proof.
  intros [P1 P2 P3] Hp E Hu Hm Ho. destruct (tables_same _ _ _ (pc_fa (pci s')) _ P2 Hp Hu Hm) as (W' & Hx & Hn). split; [|done].
  constructor; try done. intros f Hf. apply Hn. destruct (Ho f Hf) as [Hf'|]; [by apply P3|done].
Qed.

Lemma space_quiet L s s' p root : frames_at L s -> space L s p root -> quiet s s' ->
  space L s' p root /\ forall v, xl (mem_of s') root (vpath v) = xl (mem_of s) root (vpath v).
Proof.
  intros F S Q. apply (space_step L L s s' p root S); rewrite ?(qt_fa _ _ _ Q), ?(qt_procs _ _ _ Q); try apply F; try apply S; auto.
  intros f x Hf Hu Hn Hx. assert (Hno : ~ (queue_area q x \/ dma_page s x)).
  { intros (g & Hg & Hy)%(area_owned L s x F). apply Hn. replace f with (g * 4096); [by apply (sp_apart _ _ _ _ S)|].
    apply (in_page_inj _ _ x); try done. apply (owned_frame L); [apply F|done]. }
  apply (qt_mem _ _ _ Q); tauto.
Qed.

(** ** The host's side of creating a resource *)
Let cmd_ok := command_ok q D Dev k Ck fuel Hfuel Hprompt.
Let cmd__ok := command__ok q D Dev k Ck fuel Hfuel Hprompt.

Definition args_ok (a : NagResourceCreateArgs) : Prop :=
  Forall is_u32 [a_contextId a; a_type a; a_usage a; a_format a; a_width a; a_height a; a_depth a].

Lemma translateBind_range usage type : is_u32 (translateBindFlags usage type).
Proof.
  unfold translateBindFlags, bind_bit. assert (forall b : bool, b = true \/ b = false) as Hb by (intros []; auto).
  repeat match goal with |- context [has usage ?f] => destruct (has usage f) end; destruct (type =? NAG_RES_TYPE_BUFFER); vm_compute; split; done.
Qed.

Lemma layout_range a target format size : args_ok a -> resource_layout a = Some (target, format, size) -> is_u32 target /\ is_u32 format /\ is_u64 size.
Proof.
  intros Ha. unfold args_ok in Ha. rewrite !Forall_cons in Ha. destruct Ha as (_ & _ & _ & _ & Hw & _). unfold resource_layout, translatePixelFormat.
  destruct (a_width a =? 0); [done|]. destruct (a_type a =? NAG_RES_TYPE_BUFFER); [intros [= <- <- <-]; unfold is_u32, is_u64 in *; lia|].
  destruct (a_type a =? NAG_RES_TYPE_2D); [|done]. destruct (a_height a =? 0); [done|].
  repeat match goal with |- context [a_format a =? ?n] => destruct (a_format a =? n) end; intros [= <- <- <-]; unfold is_u32; (split; [lia|]); (split; [lia|]); apply u64_range.
Qed.

Definition no_such (h : Host) (r : Z) : Prop := h_res h !! r = None.

Lemma host_create_ok s h a resId target format bind phys n : channel s h -> args_ok a -> 0 < resId < 2 ^ 32 -> is_u32 target -> is_u32 format -> is_u32 bind ->
  is_u64 phys -> no_such h resId ->
  GpuProps.runs (host_create fuel a resId target format bind phys n) s (fun s' ok => quiet s s' /\ exists h', channel s' h' /\ h_ctxs h' = h_ctxs h /\
    if (ok : bool) then exists cs, h_res h' = <[resId := mkHostRes cs (Some (phys, u32 (n * PAGE_SIZE)))]> (h_res h) else h_res h' = h_res h).
Proof.
  intros C Ha Hid Ht Hf Hb Hp Hno. assert (Ha' := Ha). unfold args_ok in Ha'. rewrite !Forall_cons in Ha'. destruct Ha' as (Hc & _ & _ & _ & Hw & Hhh & Hd & _).
  assert (Hh1 : is_u32 (res_height a)) by (unfold res_height, is_u32 in *; destruct (_ =? _); lia).
  assert (Hd1 : is_u32 (res_depth a)) by (unfold res_depth, is_u32 in *; destruct (_ =? NAG_RES_TYPE_BUFFER), (a_depth a =? 0); lia).
  assert (Hn32 : is_u32 (u32 (n * PAGE_SIZE))) by apply u32_range.
  unfold host_create. apply runs_bind. eapply runs_mono; [apply (cmd_ok s h _ C); [|done..]; cbn [request_ok]; rewrite !Forall_cons; unfold is_u32 in *; repeat split; done || lia|].
  intros s1 ok1 (Q1 & h1 & C1 & Hok1). destruct ok1; cbn [negb]; [|destruct Hok1 as [-> _]; apply runs_ret; split; [done|]; by exists h].
  cbn [host_step] in Hok1. case_decide; [lia|]. unfold no_such in Hno. rewrite Hno in Hok1. injection Hok1 as <-.
  set (h1 := mkHost (h_ctxs h) (<[resId := mkHostRes ∅ None]> (h_res h))) in *. assert (E1 : h_res h1 !! resId = Some (mkHostRes ∅ None)) by apply lookup_insert_eq.
  pose (P := fun (s' : Gpu W) (ok : bool) => quiet s s' /\ exists h', channel s' h' /\ h_ctxs h' = h_ctxs h /\
    if ok then exists cs, h_res h' = <[resId := mkHostRes cs (Some (phys, u32 (n * PAGE_SIZE)))]> (h_res h) else h_res h' = h_res h).
  assert (Hun : forall t y, quiet s t -> channel t (mkHost (h_ctxs h) (<[resId := y]> (h_res h))) -> GpuProps.runs (command_ fuel (ResourceUnref resId);; mret false) t P).
  { intros t y Qt Ct. apply runs_bind. eapply runs_mono; [apply (cmd__ok t _ (ResourceUnref resId) Ct); try done; cbn; unfold is_u32; lia|].
    intros s' [] (Q' & C'). apply runs_ret. split; [by eapply gpu_quiet_trans|]. cbn [host_step h_res h_ctxs] in C'. rewrite lookup_insert_eq in C'.
    eexists. split; [exact C'|]. split; [done|]. cbn [h_res]. change (delete resId (<[resId:=y]> (h_res h)) = h_res h). by rewrite delete_insert_id. }
  assert (Hr32 : is_u32 resId) by (unfold is_u32; lia).
  apply runs_bind. eapply runs_mono; [apply (cmd_ok s1 h1 (ResourceAttachBacking resId phys (u32 (n * PAGE_SIZE))) C1); try done; by split_and!|].
  intros s2 ok2 (Q2 & h2 & C2 & Hok2). assert (Q02 : quiet s s2) by (by eapply gpu_quiet_trans). destruct ok2; cbn [negb]; [|destruct Hok2 as [-> _]; by apply (Hun s2 (mkHostRes ∅ None) Q02)].
  cbn [host_step] in Hok2. unfold on_res in Hok2. rewrite E1 in Hok2. cbn [h1 h_res h_ctxs hr_ctxs hr_backing] in Hok2. rewrite insert_insert_eq in Hok2. injection Hok2 as <-.
  set (y2 := mkHostRes ∅ (Some (phys, u32 (n * PAGE_SIZE)))) in *. set (h2 := mkHost (h_ctxs h) (<[resId := y2]> (h_res h))) in *.
  destruct (Z.eqb_spec (a_contextId a) 0) as [E0|N0]; [apply runs_ret; split; [done|]; exists h2; split_and!; try done; by exists ∅|].
  apply runs_bind. eapply runs_mono; [apply (cmd_ok s2 h2 (CtxAttachResource (a_contextId a) resId) C2); by try split|].
  intros s3 ok3 (Q3 & h3 & C3 & Hok3). assert (Q03 : quiet s s3) by (by eapply gpu_quiet_trans).
  assert (E2 : h_res h2 !! resId = Some y2) by apply lookup_insert_eq. destruct ok3; cbn [negb].
  - apply runs_ret. split; [done|]. exists h3. split; [done|]. cbn [host_step] in Hok3. case_decide; [|done].
    unfold on_res in Hok3. rewrite E2 in Hok3. injection Hok3 as <-. cbn [h2 h_res h_ctxs]. rewrite insert_insert_eq. split; [done|]. by eexists.
  - destruct Hok3 as [-> _]. apply runs_bind. eapply runs_mono; [by apply (cmd__ok s3 h2 (ResourceDetachBacking resId) C3)|].
    intros s4 [] (Q4 & C4). cbn [host_step] in C4. unfold on_res in C4. rewrite E2 in C4. cbn [h2 h_res h_ctxs hr_ctxs hr_backing y2] in C4. change (default ?x (Some ?y)) with y in C4. rewrite insert_insert_eq in C4.
    eapply Hun; [by eapply gpu_quiet_trans|exact C4].
Qed.

(** ** The mapping in a process *)

(** Pages of user space without a huge page over them. *)
Definition plain_pages s (root virt n : Z) : Prop := forall v, is_u64 v -> vpage virt <= vpage v < vpage virt + n -> no_huge (mem_of s) root v.

Lemma user_pages n : 0 <= n <= 2 ^ 35 -> u64 (n * PAGE_SIZE) = n * 4096 /\ page_up (n * 4096) / PAGE_SIZE = n.
Proof.
  intros Hn. unfold PAGE_SIZE. split; [apply u64_id; unfold is_u64; lia|]. rewrite page_up_spec by lia.
  replace (- (n * 4096)) with (- n * 4096) by lia. rewrite Z.mod_mul by done. rewrite Z.add_0_r. by apply Z.div_mul.
Qed.

Lemma range_vpage virt n x : user_range virt n -> 0 <= x < n * 4096 -> is_u64 (virt + x) /\ vpage (virt + x) = vpage virt + x / 4096.
Proof.
  intros (Ha & H0 & Hn & H1) Hx. unfold is_u64. split; [lia|]. unfold vpage. rewrite !Z.mod_small by lia. unfold page_aligned in Ha. divlia.
Qed.

(** The state with what an operation on page tables left. *)
Definition with_vm s (vm : Vm Pmm) : Gpu W := set_pci s (with_fa (with_w (pci s) (set_mm (pc_w (pci s)) (vm_mem vm))) (vm_fa vm)).

Lemma on_vm_eq {A} (f : Vm Pmm -> Vm Pmm * A) s : on_vm f s = Some (with_vm s (f (vm_of s)).1, (f (vm_of s)).2).
Proof. unfold on_vm, with_vm, vm_of, mem_of. by destruct (f _). Qed.

(** The frames of the driver under an operation on the tables of one
    process. *)
Lemma own_vm L s h p root vm : frames_at L s -> channel s h -> space L s p root -> pt_wf vm root ->
  (forall f, frame_addr f -> fa_used (pc_fa (pci s)) f -> not_table (mem_of s) root f ->
     fa_used (vm_fa vm) f /\ not_table (vm_mem vm) root f /\ forall x, in_page f x -> rd8 (vm_mem vm) x = rd8 (mem_of s) x) ->
  frames_at L (with_vm s vm) /\ channel (with_vm s vm) h /\ space L (with_vm s vm) p root.
Proof.
  intros F C S Wf K. assert (Ko : forall f, f ∈ owned L -> fa_used (vm_fa vm) (f * 4096) /\ not_table (vm_mem vm) root (f * 4096) /\ forall x, in_page (f * 4096) x -> rd8 (vm_mem vm) x = rd8 (mem_of s) x).
  { intros f Hf. apply K; [apply (owned_frame L); [apply F|done]|by apply (fo_used L s F)|by apply (sp_apart _ _ _ _ S)]. }
  assert (Em : mem_of (with_vm s vm) = vm_mem vm) by apply mm_set. split_and!.
  - apply (frames_step L s _ F); [apply (pw_ok _ _ Wf)|done|]. intros f Hf _. by apply Ko.
  - apply (channel_own L s _ h F C); try done; rewrite Em; [done|]. intros f x Hf. by apply Ko.
  - constructor; [apply S| |].
    + unfold vm_of. rewrite Em. cbn [with_vm pci set_pci with_fa pc_fa]. by destruct vm.
    + intros f Hf. rewrite Em. by apply Ko.
Qed.

(** All of the state but memory, frames, processes and the address for the
    next mapping. *)
Definition same_rest s s' : Prop := gpu s' = gpu s /\ current s' = current s.

Lemma runs_gets {A B} (f : Gpu W -> A) (g : A -> G W B) s Q : GpuProps.runs (g (f s)) s Q -> GpuProps.runs (gets f ≫= g) s Q.
Proof. done. Qed.

Lemma runs_modify {A} (f : Gpu W -> Gpu W) (g : G W A) s Q : GpuProps.runs g (f s) Q -> GpuProps.runs (modify f;; g) s Q.
Proof. done. Qed.

Lemma runs_vm {A B} (f : Vm Pmm -> Vm Pmm * A) (g : A -> G W B) s Q :
  GpuProps.runs (g (f (vm_of s)).2) (with_vm s (f (vm_of s)).1) Q -> GpuProps.runs (on_vm f ≫= g) s Q.
Proof. intros Hr. apply runs_bind. eexists _, _. split; [apply on_vm_eq|exact Hr]. Qed.

Lemma space_live L s p root : space L s p root -> exists l, procs s !! p = Some (mkProc (tbl root) l) /\ live_proc s p = Some (mkProc (tbl root) l).
Proof.
  intros [[l El] Wf _]. exists l. split; [done|]. unfold live_proc. rewrite El. cbn [p_pml4].
  destruct (pw_used _ _ Wf [] root ltac:(constructor) ltac:(cbn; lia) eq_refl) as [Hr _]. destruct (Z.eqb_spec (tbl root) 0) as [E|]; [|done].
  rewrite tbl_frame in E by done. destruct Hr as [Hr _]. unfold HHDM_BASE in E. lia.
Qed.

Lemma destroy_vmas_runs kz p pr start size s : GpuProps.runs (destroy_vmas kz p pr start size) s (fun s' _ => same_rest s s').
Proof.
  apply runs_vm. eexists _, _. split; [done|]. split; [|done]. done.
Qed.

Lemma map_user_ok kz L s h root a n : frames_at L s -> channel s h -> space L s (current s) root -> run_ok (a, n) ->
  user_range (gGpuUserVirtCursor s) n -> 0 < gGpuUserVirtCursor s -> plain_pages s root (gGpuUserVirtCursor s) n ->
  GpuProps.runs (map_user kz a n) s (fun s' v => same_rest s s' /\
    ((v = 0 /\ ~ frames_left (3 * Z.to_nat n + 1) (pc_fa (pci s))) \/ (v = gGpuUserVirtCursor s /\ frames_at L s' /\ channel s' h /\ space L s' (current s') root /\
      (forall f x, f ∈ owned L -> in_page (f * 4096) x -> rd8 (mem_of s') x = rd8 (mem_of s) x) /\
      forall x, 0 <= x < n * 4096 -> vmmVirtToPhys (mem_of s') (tbl root) (v + x) = a + x))).
Proof.
  intros F C S Hr Hv Hv0 Hh. destruct (space_live L s _ root S) as (l & El & Elive). destruct Hr as (Ha0 & Ham & Hn0 & Hend). cbn [fst snd] in *.
  destruct (user_pages n ltac:(lia)) as [E1 E2]. set (virt := gGpuUserVirtCursor s) in *. pose proof Hv as (Hva & Hv1 & _ & Hv2).
  unfold map_user. apply runs_gets, runs_gets. rewrite Elive. cbn [p_pml4 p_vmas]. apply runs_gets. fold virt. cbv zeta. rewrite E1. apply runs_modify.
  set (vs := (vmaCreate _ l virt _ _).1). apply runs_bind. eexists _, tt. split; [done|]. cbv beta. apply runs_vm. set (s1 := set_procs _ _).
  assert (F1 : frames_at L s1) by (by apply (frames_step L s s1 F); [apply F|..]). assert (C1 : channel s1 h) by (by apply (channel_frame q D k fuel Hfuel s); try done; apply (ch_dev _ _ _ _ C)).
  assert (S1 : space L s1 (current s) root).
  { constructor; [|apply S|apply S]. exists vs. cbn [s1 set_procs procs]. rewrite lookup_alter_eq. change (procs (set_cursor s _)) with (procs s). by rewrite El. }
  change (vm_of s1) with (vm_of s).
  destruct (map_range_ok (vm_of s) root virt a (n * 4096) (Z.lor (Z.lor VMM_FLAG_PRESENT VMM_FLAG_WRITABLE) VMM_FLAG_USER)) as (Wf & K & j & Hj & T).
  { apply S. } { done. } { done. } { unfold is_u64; lia. } { vm_compute; split; done. } { reflexivity. } { done. } { rewrite E2. lia. }
  { rewrite E2, Z.mod_small by lia. lia. } { lia. } { rewrite E2. lia. } { rewrite E2. exact Hh. }
  rewrite E2 in Hj. set (r := vmmMapRange _ _ _ _ _ _) in *.
  destruct (own_vm L s1 h (current s) root r.1 F1 C1 S1 Wf) as (F2 & C2 & S2).
  { intros f Hf Hu Hnt. split; [by apply (kf_used _ _ _ K)|]. split; [by apply (kf_table _ _ _ K)|]. intros x. by apply (kf_mem _ _ _ K). }
  destruct Hj as [[E ->]|(E & _ & Hno)]; rewrite E; cbn [Z.eqb negb].
  - apply runs_ret. split; [done|]. right. split; [done|]. split; [done|]. split; [done|]. split; [exact S2|].
    assert (Em : mem_of (with_vm s1 r.1) = vm_mem r.1) by apply mm_set. rewrite Em. split.
    { intros f x Hf. apply (kf_mem _ _ _ K); [apply (owned_frame L); [apply F|done]|by apply (fo_used L s F)|by apply (sp_apart _ _ _ _ S)]. }
    intros x Hx. destruct (range_vpage virt n x Hv Hx) as [Hu Ep]. specialize (T _ Hu). unfold translate in T.
    rewrite T, Ep. clear -Hx Hva Hv1 Hn0.
    assert (0 <= x / 4096 < n) by divlia. destruct (Z.leb_spec (vpage virt) (vpage virt + x / 4096)), (Z.ltb_spec (vpage virt + x / 4096) (vpage virt + n)); cbn [andb]; try lia.
    unfold page_aligned in Hva. divlia.
  - apply runs_bind. eapply runs_mono; [apply destroy_vmas_runs|]. intros s' [] Hs'. apply runs_ret. split; [exact Hs'|]. left. split; [done|].
    intros Hl. unfold r, vmmMapRange in Hno. rewrite E2 in Hno. destruct (map_pages_left (Z.to_nat n) 1 0 (vm_of s) (tbl root) virt a
      (Z.lor (Z.lor VMM_FLAG_PRESENT VMM_FLAG_WRITABLE) VMM_FLAG_USER) Hl) as [Hx _]. by apply Hx.
Qed.

(** ** Creation *)

(** The state once the frames at [a] are taken and cleared and the next
    identifier is [next]. *)
Definition taken_state s (fa : Pmm) (a n next : Z) : Gpu W :=
  let s1 := set_pci s (with_fa (pci s) fa) in
  let s2 := set_pci s1 (with_w (pci s1) (upd (pc_w (pci s1)) (fun m => (memset m (dma a) 0 (n * PAGE_SIZE)).1))) in
  with_tab s2 (set_resources (tab s2) (resources (tab s2)) next).

Lemma taken_mem s fa a n next x : run_ok (a, n) ->
  rd8 (mem_of (taken_state s fa a n next)) x = if decide (in_run (a, n) x) then 0 else rd8 (mem_of s) x.
Proof.
  intros (_ & _ & Hn & _). cbn [fst snd] in Hn. unfold mem_of at 1, taken_state, upd. cbn [with_tab pci set_gpu set_pci with_w pc_w with_fa]. rewrite mm_set.
  rewrite (memset_filled (mm (pc_w (pci s))) (dma a) 0 (n * PAGE_SIZE) ltac:(unfold PAGE_SIZE; lia) x). unfold in_run, PAGE_SIZE. cbn [fst snd].
  case_decide as Hd; destruct (Z.leb_spec (dma a) x), (Z.ltb_spec x (dma a + n * 4096)); cbn [andb]; reflexivity || lia.
Qed.

Lemma taken_ok L s h fa a n next : frames_at L s -> channel s h -> pmm_phys_ok fa -> run_ok (a, n) ->
  (forall f, f ∈ run_frames (a, n) -> ~ used s f) -> (forall f, 0 <= f -> fa_used fa (f * 4096) <-> used s f \/ f ∈ run_frames (a, n)) ->
  let s1 := taken_state s fa a n next in
  frames_at ((a, n) :: L) s1 /\ channel s1 h /\
  forall p root, space L s p root -> space ((a, n) :: L) s1 p root /\ forall v, xl (mem_of s1) root (vpath v) = xl (mem_of s) root (vpath v).
Proof.
  intros F C Hp Hr Hnew Hu s1. assert (Hout : forall f x, frame_addr f -> fa_used (pc_fa (pci s)) f -> in_page f x -> rd8 (mem_of s1) x = rd8 (mem_of s) x).
  { intros f x Hf Hus Hx. unfold s1. rewrite taken_mem by done. case_decide as Hd; [|done]. exfalso. apply (in_run_page _ _ Hr) in Hd as (g & Hg & Hy).
    apply (Hnew g Hg). unfold used. replace (g * 4096) with f; [done|]. apply (in_page_inj _ _ x); try done. by apply (run_frame (a, n)). }
  split_and!.
  - by apply (frames_take L s s1).
  - apply (channel_own L s s1 h F C); try done; [unfold mem_of, s1, taken_state, upd; cbn [with_tab pci set_gpu set_pci with_w pc_w with_fa]; by rewrite mm_set|]. intros f x Hf. apply Hout; [apply (owned_frame L); [apply F|done]|by apply (fo_used L s F)].
  - intros p root S. apply (space_step L _ s s1 p root S); [done|apply S| | |].
    + intros f Hf Hus. left. destruct Hf as [Hf0 Hfm]. assert (Ef : f = f / 4096 * 4096) by (pose proof (Z.div_mod f 4096 ltac:(done)); lia). rewrite Ef. apply Hu; [divlia|].
      left. unfold used. by rewrite <- Ef.
    + intros f x Hf Hus _. by apply Hout.
    + intros f [Hf|Hf]%owned_cons; [right|by left]. intros p' Hp' Hl Hw. destruct (pw_used _ _ (sp_wf _ _ _ _ S) p' _ Hp' Hl Hw) as [_ Hus]. by apply (Hnew f).
Qed.

(** One more resource in the tables. *)
Lemma resources_add t h h' x cs next : resources_ok t h -> resourceId x = nextResourceId t -> nextResourceId t < 2 ^ 32 - 1 -> next = nextResourceId t + 1 ->
  h_res h' = <[resourceId x := mkHostRes cs (Some (r_physBase x, u32 (r_pageCount x * PAGE_SIZE)))]> (h_res h) ->
  rec_ok x -> resources_ok (set_resources t (x :: resources t) next) h'.
Proof.
  intros [R1 R2 R3 R4 R5 R6] Ex Hn -> Eh Hv. constructor; cbn [set_resources resources nextResourceId]; rewrite ?fmap_cons.
  - intros r. rewrite Eh, dom_insert, elem_of_union, elem_of_singleton, elem_of_cons, R1. done.
  - intros y [->|Hy]%elem_of_cons; unfold backing; rewrite Eh; [by rewrite lookup_insert_eq|]. rewrite lookup_insert_ne; [by apply R2|].
    intros E. assert (Hin : resourceId y ∈ (resourceId <$> resources t)) by (by apply list_elem_of_fmap_2). apply R4 in Hin. lia.
  - apply NoDup_cons. split; [|done]. intros Hin%R4. lia.
  - intros r [->|Hin]%elem_of_cons; [lia|]. apply R4 in Hin. lia.
  - lia.
  - intros y [->|Hy]%elem_of_cons; auto.
Qed.

Lemma resources_step t h h' next : resources_ok t h -> nextResourceId t <= next < 2 ^ 32 -> h_res h' = h_res h -> resources_ok (set_resources t (resources t) next) h'.
Proof. intros [R1 R2 R3 R4 R5 R6] Hn Eh. constructor; cbn [set_resources resources nextResourceId]; unfold backing; rewrite ?Eh; try done; [|lia]. intros r Hr%R4. lia. Qed.

(** The pages that a request takes. *)
Definition pages_of (a : NagResourceCreateArgs) : Z :=
  match resource_layout a with Some (_, _, size) => u64 (size + PAGE_SIZE - 1) / PAGE_SIZE | None => 0 end.

(** What the resource [x] at the head of the list means. *)
Record created s h s' (x : VirtioGpuResource) : Prop := {
  cr_list : resources (tab s') = x :: resources (tab s);
  cr_new : resourceId x ∉ (resourceId <$> resources (tab s));
  cr_host : exists h', channel s' h' /\ resources_ok (tab s') h' /\ (contexts_ok (tab s) h -> contexts_ok (tab s') h');
  cr_frames : frames_ok s';
  cr_fresh : forall f, f ∈ run_frames (res_run x) -> ~ used s f;
  cr_clear : forall y, in_run (res_run x) y -> rd8 (mem_of s') y = 0;
  cr_size : 0 < r_byteSize x <= r_pageCount x * 4096;
  cr_addr : if decide (live_proc s (current s) = None) then r_userVirt x = 0
    else exists root l, procs s' !! current s = Some (mkProc (tbl root) l) /\ 0 < r_userVirt x /\
      forall i, 0 <= i < r_byteSize x -> vmmVirtToPhys (mem_of s') (tbl root) (r_userVirt x + i) = r_physBase x + i
}.

Definition not_created s h s' : Prop :=
  exists h', channel s' h' /\ frames_ok s' /\ resources_ok (tab s') h' /\ (contexts_ok (tab s) h -> contexts_ok (tab s') h') /\
    resources (tab s') = resources (tab s) /\ h_res h' = h_res h /\ forall f, 0 <= f -> used s' f <-> used s f.

(** The process that asks has no address space of its own, or one with room
    at the address for the next mapping. *)
Definition asks s (n : Z) : Prop :=
  live_proc s (current s) = None \/
  exists root, space (runs_of s) s (current s) root /\ user_range (gGpuUserVirtCursor s) n /\ 0 < gGpuUserVirtCursor s /\ plain_pages s root (gGpuUserVirtCursor s) n.

Lemma page_count size n : is_u64 size -> n = u64 (size + PAGE_SIZE - 1) / PAGE_SIZE -> 0 <= n < 2 ^ 62 /\ (0 < n -> 0 < size <= n * 4096).
Proof.
  intros Hs ->. unfold PAGE_SIZE. pose proof (u64_range (size + 4096 - 1)) as Hr. split; [unfold is_u64 in *; divlia|]. intros Hn.
  destruct (Z.lt_ge_cases (size + 4095) (2 ^ 64)) as [Hlt|Hge].
  - rewrite u64_id in * by (unfold is_u64 in *; lia). unfold is_u64 in *. divlia.
  - exfalso. unfold u64 in Hn. rewrite (Z.mod_eq (size + 4096 - 1)) in Hn by lia. replace ((size + 4096 - 1) / 2 ^ 64) with 1 in Hn by (unfold is_u64 in Hs; divlia).
    unfold is_u64 in Hs. divlia.
Qed.

Lemma contexts_same t h t' h' : contexts t' = contexts t -> nextContextId t' = nextContextId t -> h_ctxs h' = h_ctxs h -> contexts_ok t h -> contexts_ok t' h'.
Proof. intros E1 E2 E3 [C1 C2 C3 C4]. constructor; rewrite ?E1, ?E2, ?E3; done. Qed.

Lemma create_refused s h s1 s2 h2 a n : h_ctxs h2 = h_ctxs h -> frames_ok s -> resources_ok (tab s) h -> quiet s1 s2 -> channel s2 h2 -> h_res h2 = h_res h -> nextResourceId (tab s) < 2 ^ 32 - 1 ->
  frames_at ((a, n) :: runs_of s) s1 -> (forall f, f ∈ run_frames (a, n) -> ~ used s f) ->
  (forall f, 0 <= f -> used s1 f <-> used s f \/ f ∈ run_frames (a, n)) ->
  tab s1 = set_resources (tab s) (resources (tab s)) (nextResourceId (tab s) + 1) -> ctrlDmaPhys (gpu s1) = ctrlDmaPhys (gpu s) ->
  GpuProps.runs (free_frames a n;; mret (@None (Z * Z * Z))) s2 (fun s' r => r = None /\ not_created s h s').
Proof.
  intros Ec F R Q C2 Eh Hid F1 Hnew Hu Et Ep. pose proof (frames_quiet _ _ _ F1 Q) as F2. apply runs_modify, runs_ret. split; [done|]. exists h2. set (s3 := set_pci s2 _).
  pose proof (fo_runs _ _ F1) as Hall. inversion Hall as [|? ? Hr _]; subst.
  destruct (free_run (pc_fa (pci s2)) a n) as [Hok Hf]; [apply F2|done|intros f Hf; apply (fo_used _ _ F2), owned_cons; by left|].
  assert (Hu2 : forall f, used s2 f <-> used s1 f) by (intros f; unfold used; by rewrite (qt_fa _ _ _ Q)).
  assert (Et3 : tab s3 = tab s1) by (unfold tab; apply Q). assert (Ep3 : ctrlDmaPhys (gpu s3) = ctrlDmaPhys (gpu s)) by (rewrite <- Ep; apply Q).
  assert (El : runs_of s3 = runs_of s) by (unfold runs_of; by rewrite Ep3, Et3, Et).
  split; [by apply (channel_frame q D k fuel Hfuel s2); try done; apply (ch_dev _ _ _ _ C2)|]. split_and!; rewrite ?Et3, ?Et; try done.
  - unfold frames_ok. rewrite El. apply (frames_release (runs_of s) s2 s3 (a, n) F2); try done; [|apply F]. rewrite (qt_phys _ _ _ Q), Ep. apply F.
  - apply (resources_step _ h); [done| |done]. pose proof (rx_next _ _ R). lia.
  - by apply contexts_same.
  - intros f Hf0. unfold used, s3. cbn [pci set_pci with_fa pc_fa]. rewrite (Hf f Hf0). fold (used s2 f). rewrite Hu2, (Hu f Hf0). split; [tauto|]. intros Hus. split; [by left|]. intros Hin. by apply (Hnew f).
Qed.

(** The record is put in front of the list. *)
Definition entered s (x : VirtioGpuResource) : Gpu W := with_tab s (set_resources (tab s) (x :: resources (tab s)) (nextResourceId (tab s))).

Lemma created_entered s h s3 h3 x cs : resources_ok (tab s) h -> nextResourceId (tab s) < 2 ^ 32 - 1 ->
  tab s3 = set_resources (tab s) (resources (tab s)) (nextResourceId (tab s) + 1) -> ctrlDmaPhys (gpu s3) = ctrlDmaPhys (gpu s) ->
  h_ctxs h3 = h_ctxs h -> is_u32 (r_contextId x) -> resourceId x = nextResourceId (tab s) -> h_res h3 = <[resourceId x := mkHostRes cs (Some (r_physBase x, u32 (r_pageCount x * PAGE_SIZE)))]> (h_res h) ->
  channel s3 h3 -> frames_at (res_run x :: runs_of s) s3 -> (forall f, f ∈ run_frames (res_run x) -> ~ used s f) ->
  (forall y, in_run (res_run x) y -> rd8 (mem_of s3) y = 0) -> 0 < r_byteSize x <= r_pageCount x * 4096 -> user_range (r_userVirt x) (r_pageCount x) ->
  (if decide (live_proc s (current s) = None) then r_userVirt x = 0
   else exists root l, procs s3 !! current s = Some (mkProc (tbl root) l) /\ 0 < r_userVirt x /\
     forall i, 0 <= i < r_byteSize x -> vmmVirtToPhys (mem_of s3) (tbl root) (r_userVirt x + i) = r_physBase x + i) ->
  created s h (entered s3 x) x.
Proof.
  intros R Hid Et Ep Ec Hc32 Ex Eh C3 F3 Hnew Hz Hsz Hv Had.
  assert (Et4 : tab (entered s3 x) = set_resources (tab s) (x :: resources (tab s)) (nextResourceId (tab s) + 1)) by (unfold entered; rewrite Et; done).
  constructor; try done.
  - by rewrite Et4.
  - intros Hin%(rx_ids _ _ R). lia.
  - exists h3. split; [by apply (channel_tab q D k fuel Hfuel)|]. rewrite Et4. split; [by apply (resources_add _ h h3 x cs)|by apply contexts_same].
  - unfold frames_ok. replace (runs_of (entered s3 x)) with ((ctrlDmaPhys (gpu s), 1) :: (physBase q, vq_pageCount q) :: res_run x :: (res_run <$> resources (tab s))).
    2:{ unfold runs_of. rewrite Et4. cbn [set_resources resources]. rewrite fmap_cons, <- Ep. done. }
    apply (frames_perm (res_run x :: runs_of s)); [unfold runs_of; solve_Permutation|]. by apply (frames_step _ s3 _ F3); [apply F3|..].
Qed.

Lemma runs_lift {A B} (c : G W A) (g : A -> G W B) s s1 a Q : c s = Some (s1, a) -> GpuProps.runs (g a) s1 Q -> GpuProps.runs (c ≫= g) s Q.
Proof. intros E Hr. apply runs_bind. by exists s1, a. Qed.

(** An exchange leaves other frames alone. *)
Lemma run_kept L s s' r y : frames_at L s -> run_ok r -> (forall f, f ∈ run_frames r -> f ∉ owned L) -> quiet s s' -> in_run r y -> rd8 (mem_of s') y = rd8 (mem_of s) y.
Proof.
  intros F Hr Hd Q Hy. assert (Hno : ~ (queue_area q y \/ dma_page s y)).
  { intros (g & Hg & Hgy)%(area_owned L s y F). apply (in_run_page _ _ Hr) in Hy as (f & Hf & Hfy). apply (Hd f Hf).
    assert (E : f * 4096 = g * 4096) by (apply (in_page_inj _ _ y); try done; [by apply (run_frame r)|apply (owned_frame L); [apply F|done]]).
    by replace f with g by lia. }
  apply (qt_mem _ _ _ Q); tauto.
Qed.

(** The rest of a creation, once the host knows the resource [x0] in the run
    of frames of [x0]; [addr v] is [x0] with the address [v]. *)
Lemma create_enter kz s h s2 h2 x0 cs (addr : Z -> VirtioGpuResource) : asks s (r_pageCount x0) -> resources_ok (tab s) h -> nextResourceId (tab s) < 2 ^ 32 - 1 ->
  h_ctxs h2 = h_ctxs h ->
  (forall v, is_u32 (r_contextId (addr v)) /\ res_run (addr v) = res_run x0 /\ resourceId (addr v) = nextResourceId (tab s) /\ r_byteSize (addr v) = r_byteSize x0 /\ r_userVirt (addr v) = v) ->
  tab s2 = set_resources (tab s) (resources (tab s)) (nextResourceId (tab s) + 1) -> ctrlDmaPhys (gpu s2) = ctrlDmaPhys (gpu s) ->
  current s2 = current s -> procs s2 = procs s -> gGpuUserVirtCursor s2 = gGpuUserVirtCursor s ->
  h_res h2 = <[nextResourceId (tab s) := mkHostRes cs (Some (r_physBase x0, u32 (r_pageCount x0 * PAGE_SIZE)))]> (h_res h) ->
  channel s2 h2 -> frames_at (res_run x0 :: runs_of s) s2 -> (forall f, f ∈ run_frames (res_run x0) -> ~ used s f) ->
  (forall y, in_run (res_run x0) y -> rd8 (mem_of s2) y = 0) -> 0 < r_byteSize x0 <= r_pageCount x0 * 4096 ->
  (forall p root, space (runs_of s) s p root -> space (res_run x0 :: runs_of s) s2 p root /\ forall v, xl (mem_of s2) root (vpath v) = xl (mem_of s) root (vpath v)) ->
  GpuProps.runs (map_user kz (r_physBase x0) (r_pageCount x0)) s2 (fun s3 v => tab s3 = tab s2 /\
    (created s h (entered s3 (addr v)) (addr v) \/
     (live_proc s (current s) <> None /\ v = 0 /\ ~ frames_left (3 * Z.to_nat (r_pageCount x0) + 1) (pc_fa (pci s2))))).
Proof.
  intros Hask R Hid Ech Hadd Et Ep Ecur Epr Ecu Eh C2 F2 Hnew Hz Hsz Hsp. assert (Hr : run_ok (res_run x0)) by (pose proof (fo_runs _ _ F2) as Hall; by inversion Hall).
  assert (Hpage : forall v, r_physBase (addr v) = r_physBase x0 /\ r_pageCount (addr v) = r_pageCount x0) by (intros v; destruct (Hadd v) as (_ & Er & _); by injection Er).
  destruct Hask as [Hnone|(root & Sp & Hv & Hv0 & Hpl)].
  - eexists s2, 0. split; [unfold map_user, mbind, g_bind, gets; rewrite Ecur; unfold live_proc in *; rewrite Epr, Hnone; done|]. split; [done|]. left.
    destruct (Hadd 0) as (E0 & E1 & E2 & E3 & E4). destruct (Hpage 0) as [E5 E6]. apply (created_entered s h s2 h2 (addr 0) cs); rewrite ?E1, ?E2, ?E3, ?E4, ?E5, ?E6; try done.
    + unfold user_range, page_aligned. destruct Hr as (Hr0 & _ & Hr1 & Hr2). cbn [res_run fst snd] in *. rewrite Z.mod_0_l by done. clear -Hr0 Hr1 Hr2. lia.
    + by rewrite decide_True.
  - destruct (Hsp _ _ Sp) as [S2 Hxl]. rewrite <- Ecur in S2. rewrite <- Ecu in Hv, Hv0.
    eapply runs_mono; [apply (map_user_ok kz _ s2 h2 root _ _ F2 C2 S2 Hr Hv Hv0)|].
    + intros v Hu Hrange e j. unfold mem_of in Hxl |- *. rewrite Hxl. apply Hpl; [done|]. by rewrite <- Ecu.
    + intros s3 v ([Eg Ec3] & Hcase). split; [unfold tab; by rewrite Eg|].
      destruct Hcase as [[-> Hno]|(-> & F3 & C3 & S3 & Hm & Htr)]; [right; split; [|done]; destruct (space_live _ _ _ _ Sp) as (l & _ & ->); done|]. left.
      set (v := gGpuUserVirtCursor s2) in *. destruct (Hadd v) as (E0 & E1 & E2 & E3 & E4). destruct (Hpage v) as [E5 E6].
      apply (created_entered s h s3 h2 (addr v) cs); unfold tab in *; rewrite ?E1, ?E2, ?E3, ?E4, ?E5, ?E6, ?Eg; try done.
      * intros y Hy. rewrite <- (Hz y Hy). apply (in_run_page _ _ Hr) in Hy as (f & Hf & Hfy). apply (Hm f); [|done]. apply owned_cons. by left.
      * destruct (space_live _ _ _ _ Sp) as (l & _ & El). rewrite decide_False by (by rewrite El). destruct (sp_proc _ _ _ _ S3) as [l3 El3]. rewrite Ec3, Ecur in El3.
        exists root, l3. split; [done|]. split; [done|]. intros i Hi. apply Htr. lia.
Qed.

(** Frames for the tables of its mapping, once its own are taken. *)
Definition table_frames s (a : NagResourceCreateArgs) : Prop :=
  frames_left (3 * Z.to_nat (pages_of a) + 1) (pmm_alloc_frames (pc_fa (pci s)) (pages_of a)).1.

Lemma create_resource_ok kz s h a : kz sizeof_VirtioGpuResource = true -> channel s h -> frames_ok s -> resources_ok (tab s) h -> args_ok a ->
  nextResourceId (tab s) < 2 ^ 32 - 1 -> asks s (pages_of a) ->
  GpuProps.runs (virtioGpuResourceCreate kz fuel a) s (fun s' r =>
    match r with
    | None => not_created s h s'
    | Some (id, addr, size) => exists x, resources (tab s') = x :: resources (tab s) /\ resourceId x = id /\
        (id ∉ (resourceId <$> resources (tab s))) /\ r_byteSize x = size /\ (exists t f, resource_layout a = Some (t, f, size)) /\
        addr = (if negb (r_userVirt x =? 0) then r_userVirt x else dma (r_physBase x)) /\
        (created s h s' x \/ (live_proc s (current s) <> None /\ r_userVirt x = 0 /\ ~ table_frames s a))
    end).
Proof.
  intros Hkz C F R Ha Hid Hask. unfold virtioGpuResourceCreate, table_frames, pages_of in *. assert (Hsame : not_created s h s) by (exists h; by split_and!).
  destruct (resource_layout a) as [[[target format] size]|] eqn:El; [|by apply runs_ret]. destruct (layout_range a _ _ _ Ha El) as (Ht & Hf & Hs).
  cbv zeta. set (n := u64 (size + PAGE_SIZE - 1) / PAGE_SIZE) in *. destruct (page_count size n Hs eq_refl) as [Hn Hsz].
  pose proof (alloc_run (pc_fa (pci s)) n (fo_pmm _ _ F) Hn) as Hal. cbv zeta in Hal. destruct (pmm_alloc_frames (pc_fa (pci s)) n) as [fa p] eqn:Ea. cbn [fst snd] in Hal.
  eapply runs_lift; [unfold alloc_frames; rewrite Ea; done|]. destruct Hal as [Hpm [(-> & Hu)|(Hp & Hrun & Hnew & Hu)]].
  - apply runs_ret. exists h. split; [by apply (channel_frame q D k fuel Hfuel s); try done; apply (ch_dev _ _ _ _ C)|].
    split; [apply (frames_step _ s); try done; intros f Hfo Hus; apply Hu; [by apply (owned_pos (runs_of s) f (fo_runs _ _ F))|done]|]. by split_and!.
  - destruct (Z.eqb_spec p 0); [done|]. apply runs_modify, runs_tables. change (nextResourceId (tab _)) with (nextResourceId (tab s)).
    pose proof (rx_next _ _ R) as Hnx. set (id := nextResourceId (tab s)) in *. rewrite (next_id_eq k fuel Hfuel) by (unfold id; lia). apply runs_put.
    set (s1 := taken_state s fa p n (id + 1)). match goal with |- GpuProps.runs ?c _ ?Q => change (GpuProps.runs c s1 Q) end.
    destruct (taken_ok (runs_of s) s h fa p n (id + 1) F C Hpm Hrun Hnew Hu) as (F1 & C1 & S1). fold s1 in F1, C1, S1.
    assert (Hno : no_such h id). { unfold no_such. apply not_elem_of_dom. rewrite (rx_host _ _ R). intros Hin%(rx_ids _ _ R). unfold id in Hin. lia. }
    assert (Hp0 : is_u64 p) by (destruct Hrun as (H1 & _ & H2 & H3); cbn [fst snd] in *; unfold is_u64; lia).
    apply runs_bind. eapply runs_mono; [apply (host_create_ok s1 h a id target format _ p n C1 Ha ltac:(unfold id; lia) Ht Hf (translateBind_range _ _) Hp0 Hno)|].
    intros s2 ok (Q & h2 & C2 & Ec & Hres). destruct ok; cbn [negb].
    2:{ eapply runs_mono; [by apply (create_refused s h s1 s2 h2 p n)|]. by intros s' r [-> ?]. }
    rewrite Hkz. cbn [negb]. destruct Hres as [cs Hres]. apply runs_gets. pose proof (frames_quiet _ _ _ F1 Q) as F2.
    assert (Hz2 : forall y, in_run (p, n) y -> rd8 (mem_of s2) y = 0).
    { intros y Hy. rewrite (run_kept (runs_of s) s1 s2 (p, n)); try done.
      - unfold s1. rewrite taken_mem by done. by rewrite decide_True.
      - apply (frames_step _ s); try done. intros f Hfo Hus. apply Hu; [by apply (owned_pos (runs_of s) f (fo_runs _ _ F))|by left].
      - intros f Hfr Ho. by apply (Hnew f), (fo_used _ _ F). }
    set (x v := mkResource id (a_contextId a) (a_width a) (res_height a) (res_depth a) format target (translateBindFlags (a_usage a) (a_type a)) p n size v (current s2)).
    apply runs_bind. eapply runs_mono; [apply (create_enter kz s h s2 h2 (x 0) cs x); try done|].
    + intros v. split_and!; try done. unfold args_ok in Ha. rewrite Forall_cons in Ha. apply Ha.
    + unfold tab. by rewrite (qt_tables _ _ _ Q).
    + by rewrite (qt_phys _ _ _ Q).
    + by rewrite (qt_current _ _ _ Q).
    + by rewrite (qt_procs _ _ _ Q).
    + by rewrite (qt_cursor _ _ _ Q).
    + cbn [x r_byteSize r_pageCount]. apply Hsz. destruct Hrun as (_ & _ & H1 & _). exact H1.
    + intros p' root Sp. destruct (S1 p' root Sp) as [Sp1 X1]. destruct (space_quiet _ _ _ _ _ F1 Sp1 Q) as [Sp2 X2]. split; [done|]. intros v. by rewrite X2, X1.
    + intros s3 v [Et Hc]. apply runs_tables, runs_put, runs_ret. exists (x v). split_and!; try done; [|by intros Hin%(rx_ids _ _ R); unfold id in Hin; lia|by eexists _, _|].
      * rewrite Et. unfold tab. by rewrite (qt_tables _ _ _ Q).
      * destruct Hc as [Hc|(Hl & -> & Hfew)]; [by left|right]. split_and!; try done. by rewrite (qt_fa _ _ _ Q) in Hfew.
Qed.


(** ** Destruction *)

(** The host without the resource: the others keep their backing. *)
Lemma host_without h c r : is_Some (h_res h !! r) ->
  let h1 := default h (match c with Some c => host_step h (CtxDetachResource c r) | None => None end) in
  let h2 := default h1 (host_step h1 (ResourceDetachBacking r)) in
  let h3 := default h2 (host_step h2 (ResourceUnref r)) in
  h_ctxs h3 = h_ctxs h /\ forall r', backing h3 r' = if decide (r' = r) then None else backing h r'.
Proof.
  assert (Hstep : forall h h' f, on_res h r f = Some h' -> h_ctxs h' = h_ctxs h /\ (is_Some (h_res h !! r) -> is_Some (h_res h' !! r)) /\
    forall r', r' <> r -> backing h' r' = backing h r').
  { intros g g' f. unfold on_res. destruct (h_res g !! r) as [x|] eqn:Ex; [|done]. destruct (f x) as [y|]; [|done]. intros [= <-]. split; [done|].
    split; [intros _; cbn [h_res]; rewrite lookup_insert_eq; by eexists|]. intros r' Hr. unfold backing. cbn [h_res]. by rewrite lookup_insert_ne. }
  intros Hr h1 h2 h3.
  assert (K1 : h_ctxs h1 = h_ctxs h /\ is_Some (h_res h1 !! r) /\ forall r', r' <> r -> backing h1 r' = backing h r').
  { unfold h1. destruct c as [c|]; [|by cbn]. cbn [host_step]. case_decide; [|by cbn]. destruct (on_res h r _) as [g|] eqn:E; [|by cbn].
    apply Hstep in E as (E1 & E2 & E3). cbn. auto. }
  assert (K2 : h_ctxs h2 = h_ctxs h /\ is_Some (h_res h2 !! r) /\ forall r', r' <> r -> backing h2 r' = backing h r').
  { destruct K1 as (A1 & A2 & A3). unfold h2. cbn [host_step]. destruct (on_res h1 r _) as [g|] eqn:E; [|by cbn].
    apply Hstep in E as (E1 & E2 & E3). cbn. split; [by rewrite E1|]. split; [auto|]. intros r' Hr'. rewrite E3; auto. }
  destruct K2 as (A1 & [y A2] & A3). unfold h3. cbn [host_step]. rewrite A2. cbn. split; [done|]. intros r'. unfold backing in *. cbn [h_res]. case_decide as Hd.
  - subst r'. change (hr_backing <$> delete r (h_res h2) !! r = None). by rewrite lookup_delete_eq.
  - rewrite <- A3 by done. change (hr_backing <$> delete r (h_res h2) !! r' = hr_backing <$> h_res h2 !! r'). by rewrite lookup_delete_ne.
Qed.

Lemma resources_remove t h h' l1 x l2 : resources_ok t h -> resources t = l1 ++ x :: l2 ->
  (forall r', backing h' r' = if decide (r' = resourceId x) then None else backing h r') -> resources_ok (set_resources t (l1 ++ l2) (nextResourceId t)) h'.
Proof.
  intros [R1 R2 R3 R4 R5 R6] El Hb. rewrite El in *. rewrite fmap_app, fmap_cons in R1, R3, R4.
  assert (Hdom : forall g r, r ∈ dom (h_res g) <-> is_Some (backing g r)) by (intros g r; unfold backing; by rewrite elem_of_dom, fmap_is_Some).
  apply NoDup_app in R3 as (N1 & N2 & N3). apply NoDup_cons in N3 as [N3 N4].
  assert (Hx : resourceId x ∉ (resourceId <$> l1 ++ l2)).
  { rewrite fmap_app, elem_of_app. intros [Hin|Hin]; [|done]. apply (N2 _ Hin). left. }
  assert (Hmem : forall r, r ∈ (resourceId <$> l1 ++ l2) <-> r <> resourceId x /\ (r ∈ (resourceId <$> l1) ++ resourceId x :: (resourceId <$> l2))).
  { intros r. rewrite fmap_app, !elem_of_app, elem_of_cons. rewrite fmap_app, elem_of_app in Hx. split; [|tauto]. intros Hr. split; [|tauto]. intros ->. tauto. }
  assert (Hsub : forall y, y ∈ l1 ++ l2 -> y ∈ l1 ++ x :: l2) by (intros y; rewrite !elem_of_app, elem_of_cons; tauto).
  constructor; cbn [set_resources resources nextResourceId]; try done.
  - intros r. rewrite Hdom, Hb, Hmem, <- R1, Hdom. case_decide as Hd; [|tauto]. split; [by intros [? ?]|tauto].
  - intros y Hy. rewrite Hb, decide_False; [by apply R2, Hsub|]. intros E. apply Hx. rewrite <- E. by apply list_elem_of_fmap_2.
  - rewrite fmap_app. apply NoDup_app. split_and!; try done. intros d Hd Hd2. apply (N2 d Hd). by right.
  - intros r [_ Hr]%Hmem. by apply R4.
  - intros y Hy. by apply R6, Hsub.
Qed.

Lemma range_bounds virt n : user_range virt n -> range_start virt = virt /\ range_end virt (n * 4096) = virt + n * 4096.
Proof.
  intros (Ha & H0 & Hn & H1). unfold range_start, range_end, PAGE_SIZE, page_aligned in *. rewrite (u64_id (virt + n * 4096 + 4096 - 1)) by (unfold is_u64; lia).
  rewrite !page_down_spec by (unfold is_u64; lia). rewrite Ha. split; [lia|]. replace (virt + n * 4096 + 4096 - 1) with (virt + 4095 + n * 4096) by lia.
  rewrite Z.mod_add by done. divlia.
Qed.

(** A mapped range of a process goes away; the frames of the driver stay. *)
Lemma unmap_user_ok kz L s h p root l virt n : frames_at L s -> channel s h -> space L s p root -> user_range virt n -> 0 < n -> plain_pages s root virt n ->
  GpuProps.runs (on_vm (fun vm => vmmUnmapRange vm (tbl root) virt (u64 (n * PAGE_SIZE)));; destroy_vmas kz p (mkProc (tbl root) l) virt (u64 (n * PAGE_SIZE))) s
    (fun s' _ => same_rest s s' /\ frames_at L s' /\ channel s' h /\ forall x, 0 <= x < n * 4096 -> vmmVirtToPhys (mem_of s') (tbl root) (virt + x) = 0).
Proof.
  intros F C S Hv Hn Hh. pose proof Hv as (Hva & Hv1 & _ & Hv2). destruct (user_pages n ltac:(lia)) as [E1 E2]. rewrite E1. apply runs_vm.
  destruct (unmap_range_ok (vm_of s) root virt (n * 4096)) as (Wf & _ & K & T).
  { apply S. } { done. } { unfold is_u64; lia. } { done. } { rewrite E2. lia. } { rewrite E2, Z.mod_small by lia. lia. } { rewrite E2. exact Hh. }
  rewrite E2 in T. set (vm := (vmmUnmapRange _ _ _ _).1) in *.
  destruct (own_vm L s h p root vm F C S Wf) as (F1 & C1 & S1).
  { intros f Hf Hu Hnt. split; [by apply (ko_used _ _ _ K)|]. split; [by apply (ko_table _ _ _ K)|]. intros x. by apply (ko_mem _ _ _ K). }
  set (s1 := with_vm s vm) in *. assert (Em : mem_of s1 = vm_mem vm) by apply mm_set. assert (Ev : vm_of s1 = vm) by (unfold vm_of; rewrite Em; by destruct vm).
  assert (Hz : forall x, 0 <= x < n * 4096 -> vmmVirtToPhys (vm_mem vm) (tbl root) (virt + x) = 0).
  { intros x Hx. destruct (range_vpage virt n x Hv Hx) as [Hu Ep]. specialize (T _ Hu). unfold translate in T. rewrite T, Ep. clear -Hx.
    assert (0 <= x / 4096 < n) by divlia. destruct (Z.leb_spec (vpage virt) (vpage virt + x / 4096)), (Z.ltb_spec (vpage virt + x / 4096) (vpage virt + n)); cbn [andb]; reflexivity || lia. }
  unfold destroy_vmas. apply runs_vm. rewrite Ev. cbn [p_pml4 p_vmas]. unfold vmaDestroy. destruct (Z.eqb_spec (n * 4096) 0); [lia|].
  destruct (range_bounds virt n Hv) as [-> ->].
  pose proof (destroy_nothing (fun _ => kz sizeof_Vma) l vm (tbl root) virt (virt + n * 4096)) as Hd. destruct (destroy_loop _ _ _ _ _ _) as [vm2 l2]. cbn [fst snd] in *.
  rewrite Hd by (intros v Hvr; replace v with (virt + (v - virt)) by lia; apply Hz; lia). eexists _, tt. split; [done|].
  assert (Em2 : mem_of (set_procs (with_vm s1 vm) (alter (fun q0 => mkProc (p_pml4 q0) l2) p (procs (with_vm s1 vm)))) = vm_mem vm) by apply mm_set.
  split; [done|]. split_and!.
  - by apply (frames_step L s1 _ F1); [apply (pw_ok _ _ Wf)|..].
  - apply (channel_own L s1 _ h F1 C1); try done; [by rewrite Em2|]. intros f x _ _. by rewrite Em2, Em.
  - intros x Hx. rewrite Em2. by apply Hz.
Qed.

(** The process in which [x] is mapped, if it is. *)
Definition mapped_in s (x : VirtioGpuResource) : Prop :=
  r_userVirt x = 0 \/ live_proc s (r_proc x) = None \/
  exists root, space (runs_of s) s (r_proc x) root /\ plain_pages s root (r_userVirt x) (r_pageCount x).

(** The three commands that take the resource from the host. *)
Lemma host_destroy_ok s h ctxId x : channel s h -> is_u32 ctxId -> is_u32 (resourceId x) -> is_u32 (r_contextId x) -> is_Some (h_res h !! resourceId x) ->
  GpuProps.runs ((if negb (ctxId =? 0) || negb (r_contextId x =? 0)
      then command_ fuel (CtxDetachResource (if negb (ctxId =? 0) then ctxId else r_contextId x) (resourceId x)) else mret tt);;
    command_ fuel (ResourceDetachBacking (resourceId x));; command_ fuel (ResourceUnref (resourceId x))) s
    (fun s' _ => quiet s s' /\ exists h', channel s' h' /\ h_ctxs h' = h_ctxs h /\ forall r, backing h' r = if decide (r = resourceId x) then None else backing h r).
Proof.
  intros C Hc Hr Hx Hin. set (c := if negb (ctxId =? 0) then ctxId else r_contextId x). assert (Hc32 : is_u32 c) by (unfold c; by destruct (negb _)).
  pose proof (fun oc => host_without h oc (resourceId x) Hin) as Hw. apply runs_bind.
  apply (runs_mono _ _ (fun s1 _ => quiet s s1 /\ exists oc, channel s1 (default h (match oc with Some c => host_step h (CtxDetachResource c (resourceId x)) | None => None end)))).
  - destruct (negb (ctxId =? 0) || negb (r_contextId x =? 0)); [|apply runs_ret; split; [apply gpu_quiet_refl|by exists None]].
    eapply runs_mono; [by apply (cmd__ok s h (CtxDetachResource c (resourceId x)) C)|]. intros s1 _ [Q1 C1]. split; [done|]. by exists (Some c).
  - intros s1 _ (Q1 & oc & C1). specialize (Hw oc). cbv zeta in Hw. set (h1 := default h _) in *.
    apply runs_bind. eapply runs_mono; [by apply (cmd__ok s1 h1 (ResourceDetachBacking (resourceId x)) C1)|]. intros s2 _ [Q2 C2]. set (h2 := default h1 _) in *.
    eapply runs_mono; [by apply (cmd__ok s2 h2 (ResourceUnref (resourceId x)) C2)|]. intros s3 _ [Q3 C3].
    split; [eapply gpu_quiet_trans; [exact Q1|]; by eapply gpu_quiet_trans|]. eexists. split; [exact C3|]. exact Hw.
Qed.

Lemma runs_seq3 {A} (a b c : G W unit) (g : G W A) s Q : GpuProps.runs (a;; b;; c) s (fun s1 _ => GpuProps.runs g s1 Q) -> GpuProps.runs (a;; b;; c;; g) s Q.
Proof.
  intros (s' & u & E & Hr). revert E. unfold GpuProps.runs, mbind, g_bind. destruct (a s) as [[s1 []]|]; [|done]. destruct (b s1) as [[s2 []]|]; [|done].
  destruct (c s2) as [[s3 []]|]; [|done]. by intros [= <- <-].
Qed.

(** No page of [x] is left in the process in which it was mapped. *)
Definition unmapped s (x : VirtioGpuResource) s' : Prop :=
  forall root l i, procs s !! r_proc x = Some (mkProc (tbl root) l) -> live_proc s (r_proc x) <> None -> r_userVirt x <> 0 -> 0 <= i < r_pageCount x * 4096 ->
    vmmVirtToPhys (mem_of s') (tbl root) (r_userVirt x + i) = 0.

Lemma unmap_mapped_ok kz s s1 s2 h2 x : mapped_in s x -> user_range (r_userVirt x) (r_pageCount x) -> run_ok (res_run x) ->
  pci s1 = pci s -> procs s1 = procs s -> frames_at (runs_of s) s1 -> quiet s1 s2 -> channel s2 h2 ->
  GpuProps.runs (match live_proc s (r_proc x) with
    | Some pr => if negb (r_userVirt x =? 0)
        then on_vm (fun vm => vmmUnmapRange vm (p_pml4 pr) (r_userVirt x) (u64 (r_pageCount x * PAGE_SIZE)));;
             destroy_vmas kz (r_proc x) pr (r_userVirt x) (u64 (r_pageCount x * PAGE_SIZE))
        else mret tt
    | None => mret tt end) s2 (fun s3 _ => same_rest s2 s3 /\ frames_at (runs_of s) s3 /\ channel s3 h2 /\ unmapped s x s3).
Proof.
  intros Hmap Hv Hrun E1 E2 F1 Q C2. pose proof (frames_quiet _ _ _ F1 Q) as F2.
  assert (Hskip : r_userVirt x = 0 \/ live_proc s (r_proc x) = None -> GpuProps.runs (mret tt) s2 (fun s3 _ => same_rest s2 s3 /\ frames_at (runs_of s) s3 /\ channel s3 h2 /\ unmapped s x s3)).
  { intros Hf. apply runs_ret. split; [done|]. split; [done|]. split; [done|]. intros root l i _ Hl Hn. by destruct Hf. }
  destruct Hmap as [E0|[El|(root & Sp & Hpl)]].
  - destruct (live_proc s (r_proc x)) as [pr|]; [|auto]. destruct (Z.eqb_spec (r_userVirt x) 0); [|done]. auto.
  - rewrite El. auto.
  - destruct (space_live _ _ _ _ Sp) as (l & Ep & Elp). rewrite Elp in Hskip |- *. cbn [p_pml4]. destruct (Z.eqb_spec (r_userVirt x) 0) as [E0|N0]; cbn [negb]; [auto|].
    assert (Sp1 : space (runs_of s) s1 (r_proc x) root).
    { destruct Sp as [P1 P2 P3]. constructor; unfold vm_of, mem_of in *; rewrite ?E1, ?E2; done. }
    destruct (space_quiet _ _ _ _ _ F1 Sp1 Q) as [Sp2 Hxl].
    eapply runs_mono; [apply (unmap_user_ok kz (runs_of s) s2 h2 (r_proc x) root l (r_userVirt x) (r_pageCount x) F2 C2 Sp2 Hv); [apply Hrun|]|].
    + intros v Hvu Hvr e j. rewrite Hxl. unfold mem_of. rewrite E1. by apply Hpl.
    + intros s3 _ (E3 & F3 & C3 & Hz). split; [done|]. split; [done|]. split; [done|]. intros root' l' i E4 _ _ Hi. rewrite Ep in E4. injection E4 as E4 _. rewrite <- E4. by apply Hz.
Qed.

Lemma destroy_resource_ok kz s h ctxId resId : channel s h -> frames_ok s -> resources_ok (tab s) h -> is_u32 ctxId -> is_u32 resId ->
  (forall x, x ∈ resources (tab s) -> resourceId x = resId -> mapped_in s x) ->
  GpuProps.runs (virtioGpuResourceDestroy kz fuel ctxId resId) s (fun s' r =>
    (r = -1 /\ (resId ∉ (resourceId <$> resources (tab s))) /\ s' = s) \/
    (r = 0 /\ exists l1 x l2 h', resources (tab s) = l1 ++ x :: l2 /\ resourceId x = resId /\ resources (tab s') = l1 ++ l2 /\
      channel s' h' /\ frames_ok s' /\ resources_ok (tab s') h' /\ (contexts_ok (tab s) h -> contexts_ok (tab s') h') /\ backing h' resId = None /\
      (forall f, f ∈ run_frames (res_run x) -> ~ used s' f) /\
      unmapped s x s')).
Proof.
  intros C F R Hc Hid Hmap. unfold virtioGpuResourceDestroy. match goal with |- GpuProps.runs _ _ ?Q => set (P := Q) end.
  assert (Hno : (resId ∉ (resourceId <$> resources (tab s))) -> GpuProps.runs (mret (-1)) s P) by (intros Hn; apply runs_ret; by left).
  destruct (Z.eqb_spec resId 0) as [->|Hc0]; [apply Hno; intros Hin%(rx_ids _ _ R); lia|].
  apply runs_tables. pose proof (unlink_spec (fun x => resourceId x =? resId) (resources (tab s))) as U. destruct (unlink _ _) as [[x rest]|].
  2:{ apply Hno. intros (x & -> & Hx)%list_elem_of_fmap_1. specialize (U x Hx). cbn in U. by rewrite Z.eqb_refl in U. }
  destruct U as (Ex%Z.eqb_eq & l1 & l2 & El & -> & _). assert (Hx : x ∈ resources (tab s)) by (rewrite El, elem_of_app; right; left).
  specialize (Hmap x Hx Ex). destruct (rx_rec _ _ R x Hx) as [Hv Hxc]. apply runs_put. set (s1 := with_tab s _).
  assert (Hrun : run_ok (res_run x)).
  { pose proof (fo_runs _ _ F) as Hall. rewrite Forall_forall in Hall. apply Hall. unfold runs_of. rewrite !elem_of_cons. right; right. by apply list_elem_of_fmap_2. }
  assert (Hsome : is_Some (h_res h !! resourceId x)) by (apply elem_of_dom, (rx_host _ _ R), list_elem_of_fmap; by exists x).
  clear Hno. subst resId. apply runs_seq3. eapply runs_mono; [apply (host_destroy_ok s1 h ctxId x); try done; by apply (channel_tab q D k fuel Hfuel)|].
  intros s2 _ (Q & h2 & C2 & Ec & Hb). assert (F1 : frames_at (runs_of s) s1) by (by apply (frames_step _ s); [| apply F|..]). pose proof (frames_quiet _ _ _ F1 Q) as F2.
  assert (El2 : live_proc s2 (r_proc x) = live_proc s (r_proc x)) by (unfold live_proc; by rewrite (qt_procs _ _ _ Q)).
  apply runs_gets. rewrite El2. apply runs_bind.
  apply (runs_mono _ _ (fun s3 _ => same_rest s2 s3 /\ frames_at (runs_of s) s3 /\ channel s3 h2 /\ unmapped s x s3)).
  { by apply (unmap_mapped_ok kz s s1 s2 h2 x). }
  intros s3 _ ([Eg _] & F3 & C3 & Hz). destruct Hrun as (Hr1 & Hr2 & Hr3 & Hr4). assert (Hrun : run_ok (res_run x)) by (by split_and!). cbn [res_run fst snd] in *.
  destruct (Z.eqb_spec (r_physBase x) 0); [lia|]. destruct (Z.ltb_spec 0 (r_pageCount x)); [|lia]. cbn [negb andb]. apply runs_modify, runs_ret. set (s4 := set_pci s3 _).
  assert (Et : tab s4 = set_resources (tab s) (l1 ++ l2) (nextResourceId (tab s))) by (unfold tab; cbn [s4 set_pci gpu]; rewrite Eg; apply (qt_tables _ _ _ Q)).
  assert (Ep : ctrlDmaPhys (gpu s4) = ctrlDmaPhys (gpu s)) by (cbn [s4 set_pci gpu]; rewrite Eg; apply (qt_phys _ _ _ Q)).
  assert (Fr : frames_at (res_run x :: runs_of s4) s3).
  { apply (frames_perm (runs_of s)); [|done]. unfold runs_of. rewrite Et, Ep, El. cbn [set_resources resources]. rewrite !fmap_app, fmap_cons. solve_Permutation. }
  destruct (free_run (pc_fa (pci s3)) (r_physBase x) (r_pageCount x)) as [Hok Hf]; [apply F3|done|intros f Hfr; apply (fo_used _ _ Fr), owned_cons; by left|].
  right. split; [done|]. exists l1, x, l2, h2. split; [done|]. split; [done|]. split; [by rewrite Et|].
  split; [by apply (channel_frame q D k fuel Hfuel s3); try done; apply (ch_dev _ _ _ _ C3)|]. split.
  { unfold frames_ok. apply (frames_release (runs_of s4) s3 s4 (res_run x) Fr); try done; unfold runs_of; [rewrite Ep|]; rewrite ?elem_of_cons; [left|by right; left]. cbn [s4 set_pci gpu] in Ep. by rewrite Ep. }
  rewrite Et. split; [by apply (resources_remove _ h h2 l1 x l2)|]. split; [by apply contexts_same|]. split; [rewrite Hb; by rewrite decide_True|]. split; [|exact Hz].
  intros f Hfr Hus. apply Hf in Hus as [_ Hus]; [done|]. by apply (owned_pos (res_run x :: runs_of s4) f (fo_runs _ _ Fr)), owned_cons; left.
Qed.
End Resources.
