(* ===== verification/GpuDemo.v ===== *)
(** * A host for the VirtIO GPU driver, and the driver's theorems

    The requests read back from their bytes, a machine with a GPU that
    answers them, and the theorems on the driver, each with a run on that
    machine. *)

From Stdlib Require Import ZArith Lia Bool String.
From stdpp Require Import base list gmap relations.
From S2P Require Import Prelude Mem Str Frames Pmm PageTable PtWalk PtOps AddrSpace Vma Block Nag Machine Virtqueue VirtqProps VirtqPoll VirtqDemo Pcie Gpu GpuProbe GpuProps GpuRes.

(** ** Requests from their bytes *)

(** By the type, the fence and the context of the header, and what follows
    it. *)
Definition decode_body (t fence ctx : Z) (l : list Z) : option Request :=
  let w i := le32 l (4 * i) in
  if t =? VIRTIO_GPU_CMD_GET_CAPSET_INFO then Some (GetCapsetInfo (w 0))
  else if t =? VIRTIO_GPU_CMD_GET_CAPSET then Some (GetCapset (w 0) (w 1))
  else if t =? VIRTIO_GPU_CMD_CTX_CREATE then Some (CtxCreate ctx (take (Z.to_nat (w 0)) (drop 8 l)))
  else if t =? VIRTIO_GPU_CMD_CTX_DESTROY then Some (CtxDestroy ctx)
  else if t =? VIRTIO_GPU_CMD_CTX_ATTACH_RESOURCE then Some (CtxAttachResource ctx (w 0))
  else if t =? VIRTIO_GPU_CMD_CTX_DETACH_RESOURCE then Some (CtxDetachResource ctx (w 0))
  else if t =? VIRTIO_GPU_CMD_RESOURCE_UNREF then Some (ResourceUnref (w 0))
  else if t =? VIRTIO_GPU_CMD_RESOURCE_ATTACH_BACKING then Some (ResourceAttachBacking (w 0) (le64 l 8) (w 4))
  else if t =? VIRTIO_GPU_CMD_RESOURCE_DETACH_BACKING then Some (ResourceDetachBacking (w 0))
  else if t =? VIRTIO_GPU_CMD_RESOURCE_CREATE_3D then Some (ResourceCreate3d ctx (w 0) (w 1) (w 2) (w 3) (w 4) (w 5) (w 6))
  else if t =? VIRTIO_GPU_CMD_TRANSFER_TO_HOST_3D then Some (TransferHost3d true ctx fence (mkBox (w 0) (w 1) (w 2) (w 3) (w 4) (w 5)) (le64 l 24) (w 8))
  else if t =? VIRTIO_GPU_CMD_TRANSFER_FROM_HOST_3D then Some (TransferHost3d false ctx fence (mkBox (w 0) (w 1) (w 2) (w 3) (w 4) (w 5)) (le64 l 24) (w 8))
  else if t =? VIRTIO_GPU_CMD_SUBMIT_3D then Some (CmdSubmit3d ctx fence (take (Z.to_nat (w 0)) (drop 8 l)))
  else None.
Definition decode (l : list Z) : option Request := decode_body (le32 l 0) (le64 l 8) (le32 l 16) (drop 24 l).

Lemma le_at n : forall pre v post, 0 <= v < 256 ^ Z.of_nat n -> le n (pre ++ le_bytes n v ++ post) (Z.of_nat (length pre)) = v.
Proof.
  induction n as [|n IH]; intros pre v post Hv; [cbn in *; lia|]. cbn [le le_bytes].
  assert (E : byte_at (pre ++ (v mod 256 :: le_bytes n (v / 256)) ++ post) (Z.of_nat (length pre)) = v mod 256).
  { unfold byte_at. rewrite Nat2Z.id, app_nth2 by lia. by rewrite Nat.sub_diag. }
  rewrite E. replace (pre ++ (v mod 256 :: le_bytes n (v / 256)) ++ post) with ((pre ++ [v mod 256]) ++ le_bytes n (v / 256) ++ post) by (by rewrite <- app_assoc).
  replace (Z.of_nat (length pre) + 1) with (Z.of_nat (length (pre ++ [v mod 256]))) by (rewrite length_app; cbn [length]; lia).
  rewrite IH; [pose proof (Z.div_mod v 256); lia|]. rewrite Nat2Z.inj_succ, Z.pow_succ_r in Hv by lia. divlia.
Qed.

Lemma le_app_r n : forall pre l o, 0 <= o -> le n (pre ++ l) (Z.of_nat (length pre) + o) = le n l o.
Proof.
  induction n as [|n IH]; intros pre l o Ho; [done|]. cbn [le]. rewrite <- Z.add_assoc, IH by lia. f_equal. unfold byte_at.
  rewrite Z2Nat.inj_add, Nat2Z.id by lia. rewrite app_nth2 by lia. f_equal. lia.
Qed.

Lemma hdr_fields t f i c body : is_u32 t -> is_u64 i -> is_u32 c ->
  le32 (ctrl_hdr t f i c ++ body) 0 = t /\ le64 (ctrl_hdr t f i c ++ body) 8 = i /\ le32 (ctrl_hdr t f i c ++ body) 16 = c.
Proof.
  intros Ht Hi Hc. unfold ctrl_hdr. rewrite <- !app_assoc. split_and!.
  - by apply (le_at 4 [] t).
  - rewrite (app_assoc (le_bytes 4 t)). by apply (le_at 8 (le_bytes 4 t ++ le_bytes 4 f) i).
  - rewrite (app_assoc (le_bytes 4 t)), (app_assoc (_ ++ _) (le_bytes 8 i)). by apply (le_at 4 ((le_bytes 4 t ++ le_bytes 4 f) ++ le_bytes 8 i) c).
Qed.

Lemma decode_hdr t f i c body : is_u32 t -> is_u64 i -> is_u32 c -> decode (ctrl_hdr t f i c ++ body) = decode_body t i c body.
Proof.
  intros Ht Hi Hc. unfold decode. destruct (hdr_fields t f i c body Ht Hi Hc) as (-> & -> & ->).
  by rewrite drop_app_length' by (symmetry; apply ctrl_hdr_ok).
Qed.

Lemma words_at l : forall j v post, l !! j = Some v -> is_u32 v -> le32 (words l ++ post) (4 * Z.of_nat j) = v.
Proof.
  induction l as [|x l IH]; intros [|j] v post E Hv; try done.
  - injection E as ->. change (words (v :: l)) with (le_bytes 4 v ++ words l). rewrite <- app_assoc. by apply (le_at 4 []).
  - change (words (x :: l)) with (le_bytes 4 x ++ words l). rewrite <- app_assoc. transitivity (le32 (words l ++ post) (4 * Z.of_nat j)); [|by apply IH].
    unfold le32. rewrite <- (le_app_r 4 (le_bytes 4 x) (words l ++ post) (4 * Z.of_nat j)) by lia. rewrite (proj2 (le_bytes_ok 4 x)). f_equal. lia.
Qed.

Lemma field_take name n : (length name <= n)%nat -> take (length name) (field n name) = name.
Proof. intros Hn. unfold field. rewrite take_take, Nat.min_l by done. apply take_app_length. Qed.

Lemma words_after l body : drop (4 * length l) (words l ++ body) = body.
Proof. apply drop_app_length'. symmetry. apply words_ok. Qed.

Lemma word_in l post i v : 0 <= i -> i mod 4 = 0 -> l !! Z.to_nat (i / 4) = Some v -> is_u32 v -> le32 (words l ++ post) i = v.
Proof. intros Hi Hm Hl Hv. rewrite <- (words_at l _ v post Hl Hv). f_equal. rewrite Z2Nat.id by divlia. divlia. Qed.

Lemma word_only l i v : 0 <= i -> i mod 4 = 0 -> l !! Z.to_nat (i / 4) = Some v -> is_u32 v -> le32 (words l) i = v.
Proof. intros. rewrite <- (app_nil_r (words l)). by apply word_in. Qed.

Lemma wide_at l v post : is_u64 v -> le64 (words l ++ le_bytes 8 v ++ post) (Z.of_nat (4 * length l)) = v.
Proof. intros Hv. rewrite <- (proj2 (words_ok l)). by apply (le_at 8). Qed.

Lemma word_past l v m i x : 0 <= i - Z.of_nat (4 * length l) - 8 -> (i - Z.of_nat (4 * length l) - 8) mod 4 = 0 ->
  m !! Z.to_nat ((i - Z.of_nat (4 * length l) - 8) / 4) = Some x -> is_u32 x -> le32 (words l ++ le_bytes 8 v ++ words m) i = x.
Proof.
  intros Hi Hm Hl Hx. rewrite <- (word_in m [] _ x Hi Hm Hl Hx), app_nil_r, app_assoc. unfold le32.
  rewrite <- (le_app_r 4 (words l ++ le_bytes 8 v) (words m) _ Hi). rewrite length_app, (proj2 (words_ok l)), (proj2 (le_bytes_ok 8 v)). f_equal. lia.
Qed.

(** Evaluation of the type of a request and of the words after its header. *)
Ltac known_type := unfold decode_body, VIRTIO_GPU_CMD_GET_CAPSET_INFO, VIRTIO_GPU_CMD_GET_CAPSET, VIRTIO_GPU_CMD_CTX_CREATE, VIRTIO_GPU_CMD_CTX_DESTROY,
  VIRTIO_GPU_CMD_CTX_ATTACH_RESOURCE, VIRTIO_GPU_CMD_CTX_DETACH_RESOURCE, VIRTIO_GPU_CMD_RESOURCE_UNREF, VIRTIO_GPU_CMD_RESOURCE_ATTACH_BACKING,
  VIRTIO_GPU_CMD_RESOURCE_DETACH_BACKING, VIRTIO_GPU_CMD_RESOURCE_CREATE_3D, VIRTIO_GPU_CMD_TRANSFER_TO_HOST_3D, VIRTIO_GPU_CMD_TRANSFER_FROM_HOST_3D,
  VIRTIO_GPU_CMD_SUBMIT_3D; cbn [Z.eqb Pos.eqb Z.mul Pos.mul Pos.add].
Ltac words_known := repeat (erewrite word_only; [|lia|reflexivity|reflexivity|by eauto]).

(** The bytes of a request determine it. *)
Lemma decode_encode r : request_ok r -> decode (encode r) = Some r.
Proof.
  intros Hr. assert (Hz : is_u64 0) by (unfold is_u64; lia). assert (Hz4 : is_u32 0) by (unfold is_u32; lia).
  assert (Ht : forall t, (0 <=? t) && (t <? 2 ^ 32) = true -> is_u32 t) by (intros t; unfold is_u32; lia).
  destruct r; cbn [encode request_ok] in *; try (destruct Hr as [Hr1 Hr]).
  - rewrite decode_hdr by (by apply Ht). known_type. by words_known.
  - rewrite decode_hdr by (by apply Ht). known_type. by words_known.
  - destruct Hr as [Hr2 Hr3]. rewrite decode_hdr by (done || by apply Ht). known_type. erewrite word_in; [|lia|reflexivity|reflexivity|unfold is_u32; lia].
    rewrite Nat2Z.id. rewrite (words_after [_; _] (field 64 debugName)). by rewrite field_take by lia.
  - rewrite <- (app_nil_r (ctrl_hdr _ _ _ _)). rewrite decode_hdr by (done || by apply Ht). known_type. done.
  - rewrite decode_hdr by (done || by apply Ht). known_type. by words_known.
  - rewrite decode_hdr by (done || by apply Ht). known_type. by words_known.
  - rewrite decode_hdr by (done || by apply Ht). known_type. by words_known.
  - destruct Hr as [Hr2 Hr3]. rewrite decode_hdr by (done || by apply Ht). known_type. erewrite word_in; [|lia|reflexivity|reflexivity|done].
    rewrite (wide_at [_; _]) by done. erewrite (word_past [_; _]); [done|cbn; lia|reflexivity|reflexivity|done].
  - rewrite decode_hdr by (done || by apply Ht). known_type. by words_known.
  - rewrite !Forall_cons in Hr. destruct Hr as (H1 & H2 & H3 & H4 & H5 & H6 & H7 & H8 & _). rewrite decode_hdr by (done || by apply Ht). known_type. by words_known.
  - destruct Hr as [Hr2 Hr3]. rewrite !Forall_cons in Hr3. destruct Hr3 as (H1 & H2 & H3 & H4 & H5 & H6 & H7 & H8 & _). destruct box as [x y z w h d]. cbn [box_x box_y box_z box_w box_h box_d] in *.
    destruct toHost; rewrite decode_hdr by (done || by apply Ht); known_type; repeat (erewrite word_in; [|lia|reflexivity|reflexivity|by eauto]);
      rewrite (wide_at [_; _; _; _; _; _]) by done; (erewrite (word_past [_; _; _; _; _; _]); [done|cbn; lia|reflexivity|reflexivity|done]).
  - destruct Hr as (Hr2 & Hr3 & Hr4). unfold submit_header. rewrite <- app_assoc, decode_hdr by (done || by apply Ht). known_type.
    erewrite word_in; [|lia|reflexivity|reflexivity|unfold is_u32; rewrite u32_id; lia]. rewrite u32_id, Nat2Z.id by lia.
    match goal with |- context [drop 8 ?l] => replace (drop 8 l) with commands by (symmetry; apply (words_after [_; _])) end. by rewrite take_ge.
Qed.

(** ** A machine with a GPU *)

(** The device at the queue [q]: it reads the last request of the available
    ring, writes the type of the answer and returns the chain. *)
Definition gpu_serve (q : Virtqueue) (m : mem) (h : Host) : mem * Host :=
  let hd := rd16 m (avail_slot q (u16 (avail_idx m q - 1) mod queueSize q)) in
  let b1 := desc_buf m q hd in
  let a := dma (physAddr (desc_buf m q (d_next m q hd))) in
  let '(h1, ty) :=
    match decode (bytes_at m (dma (physAddr b1)) (Z.to_nat (buf_len b1))) with
    | None => (h, 0x1200)
    | Some r => match host_step h r with Some h1 => (h1, ok_type r) | None => (h, 0x1200) end
    end in
  let m1 := if (a + 4 <=? usedRing q) || (usedRing q + 6 + 8 * queueSize q <=? a) then wr32 m a ty else m in
  let u := used_idx m q in
  (wr16 (wr32 m1 (used_slot q (u mod queueSize q)) hd) (usedRing q + 2) (u16 (u + 1)), h1).

Lemma rd8_wr_out n m a v x : ~ a <= x < a + Z.of_nat n -> rd8 (wr n m a v) x = rd8 m x.
Proof. intros Hx. rewrite rd8_wr. destruct (Z.leb_spec a x), (Z.ltb_spec x (a + Z.of_nat n)); cbn [andb]; reflexivity || lia. Qed.

Section GpuServe.
Context (vq : Virtqueue) (m : mem) (h : Host) (g : Ghost) (c : list Z).
Let q := place vq.
Context (I : vq_inv m vq g) (Ef : g_flight g = [c]) (Ep : g_pend g = [head c]).

Lemma served_head : rd16 m (avail_slot q (u16 (avail_idx m q - 1) mod queueSize q)) = head c.
Proof. pose proof (vi_pend _ _ _ I 0%nat (head c)) as Hp. rewrite Ep in Hp. cbn [length] in Hp. rewrite <- (Hp eq_refl). do 4 f_equal. change (avail_idx m q) with (avail_idx m vq). lia. Qed.

Lemma gpu_serves : serves q c m (gpu_serve q m h).1 h (gpu_serve q m h).2.
Proof.
  unfold gpu_serve. rewrite served_head. set (b1 := desc_buf m q (head c)). set (a := dma (physAddr (desc_buf m q (d_next m q (head c))))). set (u := used_idx m q).
  destruct (vi_placed _ _ _ I) as [P1 P2 P3 P4 P5]. change (queueSize vq) with (queueSize q) in *. change (usedRing vq) with (usedRing q) in *.
  assert (Hu : 0 <= u mod queueSize q < queueSize q) by (apply Z.mod_pos_bound; lia).
  assert (Hc : is_chain m vq c) by (pose proof (vi_chains _ _ _ I) as Hall; rewrite Ef in Hall; by inversion Hall).
  destruct (match decode _ with Some _ => _ | None => _ end) as [h1 ty] eqn:Eh.
  set (m1 := if _ || _ then _ else _).
  assert (Hm1 : forall x, usedRing q <= x < usedRing q + 6 + 8 * queueSize q -> rd8 m1 x = rd8 m x).
  { intros x Hx. unfold m1. destruct (Z.leb_spec (a + 4) (usedRing q)), (Z.leb_spec (usedRing q + 6 + 8 * queueSize q) a); cbn [orb]; try done; apply rd8_wr_out; lia. }
  assert (Hty : 0 <= ty < 2 ^ 32) by (repeat case_match; simplify_eq; unfold ok_type; repeat case_match; vm_compute; split; done).
  assert (Hh : 0 <= head c < 2 ^ 32) by (rewrite <- served_head; pose proof (rd16_range m (avail_slot q (u16 (avail_idx m q - 1) mod queueSize q))); lia).
  constructor; cbn [fst snd].
  - apply rd16_wr16_same, u16_range.
  - intros j Hj. fold u. unfold rd32 at 1, wr16. rewrite rd_wr_disj by (unfold used_slot; lia). destruct (Z.eqb_spec j (u mod queueSize q)) as [->|Hj'].
    + by apply rd32_wr32_same.
    + unfold wr32. rewrite rd_wr_disj by (unfold used_slot; lia). apply rd_ext. intros x Hx. apply Hm1. unfold used_slot in Hx. lia.
  - intros b1' b2 r Eb Hr Hl Hq Er. destruct c as [|i1 [|i2 [|i3 c']]]; try done. cbn [fmap list_fmap] in Eb. injection Eb as E1 E2. change (head [i1; i2]) with i1 in *.
    change (desc_buf m q i1) with b1 in E1. subst b1'. cbn [is_chain] in Hc. destruct Hc as (_ & Hn & _). change (d_next m vq i1) with (d_next m q i1) in Hn.
    assert (Ea : a = dma (physAddr b2)) by (unfold a; by rewrite Hn, E2). rewrite Er, (decode_encode r Hr) in Eh.
    assert (Hin : buf_in b2 a /\ buf_in b2 (a + 3)) by (unfold buf_in; rewrite <- Ea; lia).
    assert (Hapart : a + 4 <= usedRing q \/ usedRing q + 6 + 8 * queueSize q <= a).
    { destruct Hin as [Hi1%Hq Hi2%Hq]. unfold queue_area in Hi1, Hi2. lia. }
    assert (Em1 : m1 = wr32 m a ty).
    { unfold m1. destruct (Z.leb_spec (a + 4) (usedRing q)), (Z.leb_spec (usedRing q + 6 + 8 * queueSize q) a); cbn [orb]; try done. lia. }
    split.
    + rewrite <- Ea. assert (Ert : rd32 (wr16 (wr32 m1 (used_slot q (u mod queueSize q)) i1) (usedRing q + 2) (u16 (u + 1))) a = ty).
      { unfold rd32 at 1, wr16, wr32 at 1. rewrite !rd_wr_disj by (unfold used_slot; lia). rewrite Em1. by apply rd32_wr32_same. }
      rewrite Ert. destruct (host_step h r) as [h2|] eqn:Es; injection Eh as <- <-; [by apply accepted|]. apply refused; [|by left]. destruct r; discriminate.
    + intros x Hx Hbx. unfold wr16, wr32. rewrite !rd8_wr_out by (unfold used_slot; lia). rewrite Em1. apply rd8_wr_out. intros Hxa. apply Hbx. unfold buf_in. rewrite <- Ea. lia.
Qed.
End GpuServe.

Record GSim := mkGSim { gs_mem : mem; gs_time : Z; gs_regs : gmap Z Z; gs_host : Host; gs_busy : bool }.

Definition gpu_vq (nf h : Z) : Virtqueue := mkVq 0 4 nf h 0 0x202000 1 (dma 0x202000) (dma 0x202000 + 0x40) (dma 0x202000 + 0x80) 0x9000.

#[export] Instance gsim_machine : Machine GSim := {
  mm := gs_mem;
  set_mm s m := mkGSim m (gs_time s) (gs_regs s) (gs_host s) (gs_busy s);
  elapse s :=
    if gs_busy s then let '(m, h) := gpu_serve (gpu_vq 0 0) (gs_mem s) (gs_host s) in mkGSim m (gs_time s + 1) (gs_regs s) h false
    else mkGSim (gs_mem s) (gs_time s + 1) (gs_regs s) (gs_host s) false;
  millis := gs_time;
  io_rd s n a := (s, default 0 (gs_regs s !! a));
  io_wr s n a v := mkGSim (gs_mem s) (gs_time s) (<[a := v]> (gs_regs s)) (gs_host s) (gs_busy s || (a =? 0x9000))
}.
#[export] Instance gsim_laws : MachineLaws GSim.
Proof. constructor; done. Qed.

Lemma gsim_time w : gs_time (elapse w) = gs_time w + 1.
Proof. cbn. destruct (gs_busy w); [|done]. by destruct (gpu_serve _ _ _). Qed.

Lemma gsim_clock : clock_runs (W := GSim) 1.
Proof. constructor; intros w; [cbn [millis gsim_machine]|cbn [Nat.iter nat_rect millis gsim_machine]]; rewrite gsim_time; lia. Qed.

Definition gsim_is (w : GSim) (h : Host) (busy : bool) : Prop := gs_host w = h /\ gs_busy w = busy.

Lemma gsim_device : gpu_device (W := GSim) (gpu_vq 0 0) gsim_is.
Proof.
  constructor.
  - done.
  - intros w h [E1 E2]. split; cbn [io_wr gsim_machine gs_host gs_busy]; [done|]. by rewrite E2.
  - intros w h [E1 E2]. unfold gsim_is. cbn [mm elapse gsim_machine]. by rewrite E2.
  - intros w h vq g c [E1 E2] Hq I Ef Ep. right. unfold gsim_is. cbn [mm elapse gsim_machine] in *. rewrite E2. subst h.
    pose proof (gpu_serves vq (gs_mem w) (gs_host w) g c I Ef Ep) as Sv. rewrite Hq in Sv. destruct (gpu_serve _ _ _) as [m' h']. by exists h'.
Qed.

Lemma gsim_prompt : prompt (W := GSim) gsim_is.
Proof. intros w h [E1 E2] [E3 E4]. revert E4. cbn [elapse gsim_machine]. rewrite E2. by destruct (gpu_serve _ _ _). Qed.

(** ** The driver after the probe *)
Definition gfa1 : Pmm := (pmm_alloc_frames (vm_fa demo_vm) 1).1.
Definition gfa2 : Pmm := (pmm_alloc_frames gfa1 1).1.
Lemma gfa1_at : pmm_alloc_frames (vm_fa demo_vm) 1 = (gfa1, 0x202000).
Proof. vm_compute. reflexivity. Qed.
Lemma gfa2_at : pmm_alloc_frames gfa1 1 = (gfa2, 0x203000).
Proof. vm_compute. reflexivity. Qed.

Definition gpu_mem : mem := link_all (memset (vm_mem demo_vm) (dma 0x202000) 0 4096).1 (gpu_vq 4 0).
Definition gpu_sim : GSim := mkGSim gpu_mem 0 ∅ (mkHost ∅ ∅) false.
Definition gpu_dev : VirtioGpuDevice :=
  mkGpu (mkGpuRegs (mkDevice (mkBdf 0 0 4 0) 0x1AF4 0x1050 1 0 0 3 0 0x1AF4 0x1100 0 0 [] 0) [] 0 0 0 0 0 0 0)
    (Some (gpu_vq 4 0)) None 0x203000 (dma 0x203000) 0 1 0 (mkTables [] 1 [] 1 1 0) adapter0.
(** The process at 0x7000 runs. *)
Definition gpu_state : Gpu GSim :=
  mkGs (mkPci gpu_sim gfa2 [] [] 0) gpu_dev true GPU_USER_MEM_BASE {[0x7000 := mkProc (tbl demo_root) []]} 0x7000 (mkNag [] 0 1 ∅).

(** Abbreviations for the machine. *)
Abbreviation gq := (gpu_vq 0 0).

Lemma gfa_facts : pmm_phys_ok gfa2 /\
  (forall f, 0 <= f -> fa_used gfa2 (f * 4096) <-> fa_used (vm_fa demo_vm) (f * 4096) \/ f = 0x202 \/ f = 0x203) /\
  ~ fa_used (vm_fa demo_vm) 0x202000 /\ ~ fa_used (vm_fa demo_vm) 0x203000.
Proof.
  pose proof (alloc_run (vm_fa demo_vm) 1 (pw_ok _ _ demo_wf) ltac:(lia)) as A1. rewrite gfa1_at in A1. cbn [fst snd] in A1.
  destruct A1 as [P1 [[? _]|(_ & _ & N1 & U1)]]; [done|]. pose proof (alloc_run gfa1 1 P1 ltac:(lia)) as A2. rewrite gfa2_at in A2. cbn [fst snd] in A2.
  destruct A2 as [P2 [[? _]|(_ & _ & N2 & U2)]]; [done|]. assert (R : forall f a, f ∈ run_frames (a * 4096, 1) <-> f = a).
  { intros f a. unfold run_frames, PAGE_SIZE. cbn [fst snd]. rewrite elem_of_seqZ, Z.div_mul by done. lia. }
  pose proof (fun f => R f 0x202) as R1. pose proof (fun f => R f 0x203) as R2. change (0x202 * 4096) with 0x202000 in R1. change (0x203 * 4096) with 0x203000 in R2. split_and!.
  - done.
  - intros f Hf. rewrite U2, U1, R1, R2 by done. tauto.
  - apply (N1 0x202), R1. done.
  - intros Hu. apply (N2 0x203); [by apply R2|]. apply U1; [done|]. by left.
Qed.

Lemma dma_at a : 0 <= a < 2 ^ 47 -> dma a = a + HHDM_BASE.
Proof. intros Ha. apply u64_id. unfold is_u64, HHDM_BASE. lia. Qed.

Lemma gpu_mem_out x : ~ dma 0x202000 <= x < dma 0x202000 + 4096 -> rd8 gpu_mem x = rd8 (vm_mem demo_vm) x.
Proof.
  intros Hx. unfold gpu_mem. destruct (link_all_ok (gpu_vq 4 0) (memset (vm_mem demo_vm) (dma 0x202000) 0 4096).1 ltac:(cbn; lia)) as [_ O].
  rewrite O by (cbn [descTable queueSize gpu_vq]; lia). pose proof (memset_filled (vm_mem demo_vm) (dma 0x202000) 0 4096 ltac:(lia) x) as E. rewrite E.
  destruct (Z.leb_spec (dma 0x202000) x), (Z.ltb_spec x (dma 0x202000 + 4096)); cbn [andb]; lia.
Qed.

Lemma gpu_vq_placed : vq_placed (gpu_vq 4 0).
Proof. constructor; cbn [queueSize descTable availRing usedRing gpu_vq]; rewrite ?dma_at by lia; unfold HHDM_BASE; lia || reflexivity. Qed.

Lemma gpu_vq_inv : vq_inv gpu_mem (gpu_vq 4 0) (all_free 4).
Proof.
  apply (fresh_inv _ (gpu_vq 4 0)); [exact gpu_vq_placed|reflexivity|reflexivity|reflexivity|].
  intros x Hx. cbn [descTable queueSize usedRing gpu_vq] in Hx. pose proof (memset_filled (vm_mem demo_vm) (dma 0x202000) 0 4096 ltac:(lia) x) as E. change (u8 0) with 0 in E. rewrite E.
  destruct (Z.leb_spec (dma 0x202000) x), (Z.ltb_spec x (dma 0x202000 + 4096)); cbn [andb]; lia.
Qed.

Lemma gpu_channel : channel gq gsim_is gpu_state (mkHost ∅ ∅).
Proof.
  constructor; cbn [gpu gpu_state controlQueue gpu_dev ctrlDmaPhys ctrlDmaVirt pci pc_w]; try done.
  - exists (gpu_vq 4 0), (seqZ 0 4). split; [done|]. split; [done|]. apply gpu_vq_inv.
  - intros x. unfold dma_page, queue_area, driver_area. cbn [gpu gpu_state gpu_dev ctrlDmaPhys gpu_vq descTable availRing usedRing queueSize]. rewrite !dma_at by lia. unfold PAGE_SIZE. lia.
Qed.

Lemma gpu_frames : frames_ok gq gpu_state.
Proof.
  destruct gfa_facts as (P & U & _ & _). unfold frames_ok, runs_of. cbn [gpu gpu_state gpu_dev ctrlDmaPhys tab g_tables resources physBase vq_pageCount gpu_vq fmap list_fmap].
  assert (Ho : owned [(0x203000, 1); (0x202000, 1)] = [0x203; 0x202]) by reflexivity. constructor; cbn [pci gpu_state pc_fa gpu gpu_dev ctrlDmaPhys physBase vq_pageCount gpu_vq].
  - done.
  - repeat constructor; cbn; lia || done.
  - rewrite Ho. intros f Hf. unfold used. cbn [pci gpu_state pc_fa]. rewrite !elem_of_cons, elem_of_nil in Hf. apply U; lia.
  - rewrite Ho. repeat constructor; rewrite ?elem_of_cons, ?elem_of_nil; lia.
  - left.
  - right; left.
  - intros x. unfold queue_area, driver_area, in_run. cbn [gpu_vq descTable availRing usedRing queueSize fst snd]. lia.
Qed.

Lemma gpu_space : space (runs_of gq gpu_state) gpu_state 0x7000 demo_root /\ forall v, xl (mem_of gpu_state) demo_root (vpath v) = None.
Proof.
  destruct gfa_facts as (P & U & N1 & N2). pose proof demo_wf as Wf.
  assert (Hfree : forall f, ~ fa_used (vm_fa demo_vm) f -> not_table (vm_mem demo_vm) demo_root f).
  { intros f Hf p Hp Hl Hw. destruct (pw_used _ _ Wf p f Hp Hl Hw) as [_ Hu]. done. }
  destruct (tables_same (vm_mem demo_vm) gpu_mem (vm_fa demo_vm) gfa2 demo_root) as (W' & X & T).
  - assert (Eta : mkVm (vm_mem demo_vm) (vm_fa demo_vm) = demo_vm) by (generalize demo_vm; by intros []). rewrite Eta. exact Wf.
  - exact P.
  - intros f [Hf Hm] Hu. left. assert (E : f = f / 4096 * 4096) by (pose proof (Z.div_mod f 4096 ltac:(done)); lia). rewrite E. apply U; [divlia|]. left. by rewrite <- E.
  - intros f x Hf Hu Hn Hx. apply gpu_mem_out. intros Hin. apply Hn, Hfree. replace f with 0x202000; [exact N1|]. assert (Hq : frame_addr 0x202000) by (split; [lia|reflexivity]).
    apply (in_page_inj _ _ x Hq Hf); [|exact Hx]. unfold in_page. rewrite (tbl_frame _ Hq). rewrite <- (dma_at 0x202000) by lia. exact Hin.
  - split.
    + constructor; [by eexists|exact W'|]. change (runs_of gq gpu_state) with [(0x203000, 1); (0x202000, 1)]. change (owned _) with [0x203; 0x202].
      intros f Hf. rewrite !elem_of_cons, elem_of_nil in Hf. apply T, Hfree. destruct Hf as [->|[->|[]]]; [exact N2|exact N1].
    + intros v. change (mem_of gpu_state) with gpu_mem. rewrite X. apply demo_absent.
Qed.

(** ** Properties *)
Section Claims.
Context {W : Type} `{Machine W} `{!MachineLaws W}.
Implicit Types (s : Gpu W) (h : Host).

(** C37: a request of up to 2048 bytes, sent on a channel whose descriptors are
    all free, to a device that may take its time or never answer.  The call
    returns.  It changes memory only in the queue and in the driver's page,
    and nothing of the driver but the state of the queue.  The result is 0 or,
    with the caller's answer buffer untouched, -1; a device that answers at
    once gives 0.  With 0 the host has carried out or refused exactly this
    request, the buffer holds its answer, and the channel is ready again. *)
Theorem virtioGpuSendControlCmd_correct q (D : W -> Host -> bool -> Prop) k fuel s h r resp :
  gpu_device q D -> clock_runs (W := W) k -> (k * 2000 < fuel)%nat -> channel q D s h -> request_ok r -> Forall is_byte (encode r) ->
  (0 < length (encode r) <= 2048)%nat -> (24 <= length resp <= 2048)%nat ->
  exists w' vq' ret resp', virtioGpuSendControlCmd fuel (encode r) resp s = Some (on_channel s w' vq', (ret, resp')) /\
    (forall x, ~ queue_area q x -> ~ dma_page s x -> rd8 (mm w') x = rd8 (mm (pc_w (pci s))) x) /\
    (ret = 0 \/ (ret = -1 /\ resp' = resp)) /\ (prompt D -> ret = 0) /\
    (ret = 0 -> length resp' = length resp /\ exists h', answers h r h' (resp_type resp') /\ channel q D (on_channel s w' vq') h').
Proof. intros Dev Ck Hf. by apply (send_ok q D Dev k Ck fuel Hf). Qed.

(** Contexts, with a device that answers at once.  Creating and destroying
    return; the driver's list stays the host's set of contexts, with
    identifiers of its own below the counter, and resources and frames stay as
    they are.  A creation that fails (a refusal of the host or no memory)
    leaves the list as it was, the host included; one that succeeds puts a
    context with a new identifier in front, with at most 31 characters of the
    name.  Destroying takes out the context of that identifier and no other,
    or returns -1 when there is none. *)
Theorem virtioGpuContext_correct q (D : W -> Host -> bool -> Prop) k fuel kz s h name c :
  gpu_device q D -> clock_runs (W := W) k -> (k * 2000 < fuel)%nat -> prompt D -> channel q D s h -> contexts_ok (tab s) h ->
  nextContextId (tab s) < 2 ^ 32 - 1 -> is_u32 c ->
  GpuProps.runs (virtioGpuContextCreate kz fuel name) s (fun s' r => exists h', channel q D s' h' /\ contexts_ok (tab s') h' /\ same_resources s h s' h' /\
    match r with
    | None => contexts (tab s') = contexts (tab s)
    | Some id => (id ∉ (contextId <$> contexts (tab s))) /\
        contexts (tab s') = mkContext id (take 31 (name_bytes 63 (mm (pc_w (pci s))) name)) :: contexts (tab s)
    end) /\
  GpuProps.runs (virtioGpuContextDestroy fuel c) s (fun s' r => exists h', channel q D s' h' /\ contexts_ok (tab s') h' /\ same_resources s h s' h' /\
    ((r = 0 /\ (c ∈ (contextId <$> contexts (tab s))) /\ exists l1 x l2, contexts (tab s) = l1 ++ x :: l2 /\ contextId x = c /\ contexts (tab s') = l1 ++ l2) \/
     (r = -1 /\ (c ∉ (contextId <$> contexts (tab s))) /\ contexts (tab s') = contexts (tab s)))).
Proof. intros Dev Ck Hf Hp C X Hn Hc. split; [by apply (create_context_ok q D Dev k Ck fuel Hf Hp)|by apply (destroy_context_ok q D Dev k Ck fuel Hf Hp)]. Qed.


(** C39: destroying a resource, with a device that answers at once.  The call
    returns -1 and changes nothing when no resource has the identifier.
    Otherwise it returns 0: exactly that resource leaves the list and the
    host, its frames are free again, no page of it is left in the process in
    which it was mapped, and the other resources keep their frames and their
    backing. *)
Theorem virtioGpuResourceDestroy_correct q (D : W -> Host -> bool -> Prop) k fuel kz s h ctxId resId :
  gpu_device q D -> clock_runs (W := W) k -> (k * 2000 < fuel)%nat -> prompt D -> channel q D s h -> frames_ok q s -> resources_ok (tab s) h ->
  is_u32 ctxId -> is_u32 resId -> (forall x, x ∈ resources (tab s) -> resourceId x = resId -> mapped_in q s x) ->
  GpuProps.runs (virtioGpuResourceDestroy kz fuel ctxId resId) s (fun s' r =>
    (r = -1 /\ (resId ∉ (resourceId <$> resources (tab s))) /\ s' = s) \/
    (r = 0 /\ exists l1 x l2 h', resources (tab s) = l1 ++ x :: l2 /\ resourceId x = resId /\ resources (tab s') = l1 ++ l2 /\
      channel q D s' h' /\ frames_ok q s' /\ resources_ok (tab s') h' /\ (contexts_ok (tab s) h -> contexts_ok (tab s') h') /\ backing h' resId = None /\
      (forall f, f ∈ run_frames (res_run x) -> ~ used s' f) /\ unmapped s x s')).
Proof. intros Dev Ck Hf Hp. by apply (destroy_resource_ok q D Dev k Ck fuel Hf Hp). Qed.
End Claims.

(** ** Use *)
Lemma gpu_contexts : contexts_ok (tab gpu_state) (mkHost ∅ ∅).
Proof. constructor; cbn; try done; [|by apply NoDup_nil|by intros x ?%elem_of_nil]. intros c. rewrite elem_of_nil. set_solver. Qed.

Lemma gpu_resources : resources_ok (tab gpu_state) (mkHost ∅ ∅).
Proof. constructor; cbn; try done; try (by intros x ?%elem_of_nil); [|by apply NoDup_nil]. intros r. rewrite elem_of_nil. set_solver. Qed.

Lemma virtioGpuSendControlCmd_correct_witness : exists s' resp', virtioGpuSendControlCmd 2001 (encode (CtxDestroy 5)) no_resp gpu_state = Some (s', (0, resp')).
Proof.
  destruct (virtioGpuSendControlCmd_correct gq gsim_is 1 2001 gpu_state (mkHost ∅ ∅) (CtxDestroy 5) no_resp gsim_device gsim_clock) as (w' & vq' & ret & resp' & E & _ & _ & Hp & _).
  - apply Nat.ltb_lt. reflexivity.
  - exact gpu_channel.
  - cbn. unfold is_u32. lia.
  - apply encode_ok; [cbn; unfold is_u32; lia|exact I].
  - vm_compute. lia.
  - vm_compute. lia.
  - rewrite (Hp gsim_prompt) in E. by eexists _, _.
Defined.

Lemma gpu_no_name : name_bytes 63 (mm (pc_w (pci gpu_state))) 0x5000 = [].
Proof. vm_compute. reflexivity. Qed.

Lemma virtioGpuContext_correct_witness : exists s' r, virtioGpuContextCreate (fun _ => true) 2001 0x5000 gpu_state = Some (s', r) /\ contexts (tab s') = match r with None => [] | Some c => [mkContext c []] end.
Proof.
  destruct (virtioGpuContext_correct gq gsim_is 1 2001 (fun _ => true) gpu_state (mkHost ∅ ∅) 0x5000 5 gsim_device gsim_clock) as [(s' & r & E & h' & _ & _ & _ & Hr) _].
  - apply Nat.ltb_lt. reflexivity.
  - exact gsim_prompt.
  - exact gpu_channel.
  - exact gpu_contexts.
  - reflexivity.
  - unfold is_u32. lia.
  - exists s', r. split; [exact E|]. destruct r as [c|]; [|exact Hr]. destruct Hr as [_ Hr]. rewrite gpu_no_name in Hr. exact Hr.
Defined.

Definition buffer_args : NagResourceCreateArgs := mkCreateArgs 0 NAG_RES_TYPE_BUFFER 1 0 100 0 0.
Lemma buffer_args_ok : args_ok buffer_args.
Proof. unfold args_ok, buffer_args, is_u32. rewrite !Forall_cons. cbn. repeat split; done || lia. Qed.

Lemma gpu_asks : asks gq gpu_state (pages_of buffer_args).
Proof.
  right. exists demo_root. change (pages_of buffer_args) with 1. destruct gpu_space as [Sp X]. split; [exact Sp|]. split; [|split; [reflexivity|]].
  - unfold user_range, page_aligned. cbn [gGpuUserVirtCursor gpu_state]. unfold GPU_USER_MEM_BASE. split; [reflexivity|]. lia.
  - intros v _ _ e j. rewrite X. discriminate.
Qed.

Lemma gpu_table_frames : table_frames gpu_state buffer_args.
Proof. vm_compute. split_and!; try exact I; discriminate. Qed.

Definition made (id size : Z) (o : option (Gpu GSim * option (Z * Z * Z))) : bool :=
  match o with Some (_, Some (i, _, n)) => (i =? id) && (n =? size) | _ => false end.
Lemma buffer_made : made 1 100 (virtioGpuResourceCreate (fun _ => true) 2001 buffer_args gpu_state) = true.
Proof. vm_compute. reflexivity. Qed.


(** Without a process. *)
Definition gpu_idle : Gpu GSim := mkGs (pci gpu_state) (gpu gpu_state) true GPU_USER_MEM_BASE ∅ 0 (nag gpu_state).
Lemma one_buffer_made : made 1 100 (virtioGpuResourceCreate (fun _ => true) 2001 buffer_args gpu_idle) = true.
Proof. vm_compute. reflexivity. Qed.

(** The driver with one resource. *)
Lemma buffer_ready (s0 : Gpu GSim) h0 id : channel gq gsim_is s0 h0 -> frames_ok gq s0 -> resources_ok (tab s0) h0 -> live_proc s0 (current s0) = None ->
  nextResourceId (tab s0) < 2 ^ 32 - 1 -> resources (tab s0) = [] -> made id 100 (virtioGpuResourceCreate (fun _ => true) 2001 buffer_args s0) = true ->
  exists s1 r h1, virtioGpuResourceCreate (fun _ => true) 2001 buffer_args s0 = Some (s1, r) /\ channel gq gsim_is s1 h1 /\ frames_ok gq s1 /\ resources_ok (tab s1) h1 /\
    (id ∈ (resourceId <$> resources (tab s1))) /\ forall x, x ∈ resources (tab s1) -> resourceId x = id -> mapped_in gq s1 x.
Proof.
  intros C F R Hn Hid E0 M. assert (Hfuel : (1 * 2000 < 2001)%nat) by (apply Nat.ltb_lt; reflexivity).
  destruct (create_resource_ok gq gsim_is gsim_device 1 gsim_clock 2001 Hfuel gsim_prompt (fun _ => true) s0 h0 buffer_args) as (s1 & r & E & Hr);
    [reflexivity|exact C|exact F|exact R|exact buffer_args_ok|exact Hid|left; exact Hn|].
  rewrite E in M. destruct r as [[[id' addr] size]|]; cbn [made] in M; [|discriminate M]. apply andb_true_iff in M as [M%Z.eqb_eq _]. subst id'.
  destruct Hr as (x & _ & Ex & _ & _ & _ & _ & [Hc|[Hno _]]); [|destruct (Hno Hn)].
  destruct (cr_host _ _ _ _ _ _ Hc) as (h1 & C1 & R1 & _). pose proof (cr_list _ _ _ _ _ _ Hc) as El. rewrite E0 in El.
  pose proof (cr_addr _ _ _ _ _ _ Hc) as Ea. rewrite decide_True in Ea by exact Hn.
  exists s1, (Some (id, addr, size)), h1. split; [exact E|]. split; [exact C1|]. split; [apply Hc|]. split; [exact R1|]. rewrite El. split.
  - cbn [fmap list_fmap]. rewrite Ex. left.
  - intros y [->|Hy%elem_of_nil]%elem_of_cons; [|destruct Hy]. intros _. left. exact Ea.
Qed.

Lemma one_buffer_ready : exists s1 r h1, virtioGpuResourceCreate (fun _ => true) 2001 buffer_args gpu_idle = Some (s1, r) /\ channel gq gsim_is s1 h1 /\ frames_ok gq s1 /\ resources_ok (tab s1) h1 /\
  (1 ∈ (resourceId <$> resources (tab s1))) /\ forall x, x ∈ resources (tab s1) -> resourceId x = 1 -> mapped_in gq s1 x.
Proof.
  apply (buffer_ready gpu_idle (mkHost ∅ ∅) 1).
  - destruct gpu_channel as [C1 C2 C3 C4 C5 C6]. constructor; [exact C1|exact C2|exact C3|exact C4|exact C5|exact C6].
  - destruct gpu_frames as [F1 F2 F3 F4 F5 F6 F7]. constructor; [exact F1|exact F2|exact F3|exact F4|exact F5|exact F6|exact F7].
  - exact gpu_resources.
  - reflexivity.
  - reflexivity.
  - reflexivity.
  - exact one_buffer_made.
Qed.

Lemma virtioGpuResourceDestroy_correct_witness : exists s1 r s2, virtioGpuResourceCreate (fun _ => true) 2001 buffer_args gpu_idle = Some (s1, r) /\ virtioGpuResourceDestroy (fun _ => true) 2001 0 1 s1 = Some (s2, 0).
Proof.
  destruct one_buffer_ready as (s1 & r & h1 & E & C & F & R & Hin & Hm).
  destruct (virtioGpuResourceDestroy_correct gq gsim_is 1 2001 (fun _ => true) s1 h1 0 1 gsim_device gsim_clock) as (s2 & rc & Ed & Hr).
  - apply Nat.ltb_lt. reflexivity.
  - exact gsim_prompt.
  - exact C.
  - exact F.
  - exact R.
  - unfold is_u32. lia.
  - unfold is_u32. lia.
  - exact Hm.
  - exists s1, r, s2. split; [exact E|]. destruct Hr as [(_ & Hno & _)|[-> _]]; [destruct (Hno Hin)|exact Ed].
Defined.

(** ** What the driver gets wrong *)

(** The text of a Vulkan version is put into eight characters; a version that
    the host may report takes fourteen. *)
Theorem fmtVulkanVersion_overruns : is_u32 0x1FFFFFFF /\ length (fmtVulkanVersion 0x1FFFFFFF) = 14%nat.
Proof. split; [unfold is_u32; lia|]. reflexivity. Qed.

(** A picture of 1867010176 by 2470091528 pixels is taken for one of a single
    page: the size is multiplied without a check. *)
Theorem resource_size_wraps : forall usage,
  let a := mkCreateArgs 0 NAG_RES_TYPE_2D usage 1 1867010176 2470091528 1 in
  args_ok (mkCreateArgs 0 NAG_RES_TYPE_2D 0 1 1867010176 2470091528 1) /\ resource_layout a = Some (2, 1, 4096) /\ a_width a * a_height a * 4 = 2 ^ 64 + 4096.
Proof. intros usage a. split; [unfold args_ok, is_u32; rewrite !Forall_cons; cbn; repeat split; done || lia|]. split; reflexivity. Qed.

(** The length of the backing of a buffer of 4 GiB is cut to zero. *)
Theorem backing_length_cut : let a := mkCreateArgs 0 NAG_RES_TYPE_BUFFER 1 0 (2 ^ 32 - 1) 0 0 in
  pages_of a = 2 ^ 20 /\ u32 (pages_of a * PAGE_SIZE) = 0.
Proof. split; reflexivity. Qed.

(** The name of a context is read up to 63 characters, from a field of 32. *)
Theorem context_name_overread : exists m, length (name_bytes 63 m 0x5000) = 63%nat.
Proof. exists (memset ∅ 0x5000 65 64).1. vm_compute. reflexivity. Qed.

(** Commands at an address that is not the caller's are copied all the same,
    from wherever it points. *)
Theorem submit_reads_anything {W} `{Machine W} (s : Gpu W) dst src n : validateUserRange (p_vmas <$> procs s !! current s) src n false = Some false ->
  copy_commands dst src n s = on_mem (fun m => (memcpy m dst src n).1) s.
Proof. intros E. unfold copy_commands, current_vmas, mbind, g_bind, gets. by rewrite E. Qed.

(** Without memory for the record of a resource the frames and the host's
    resource stay: the cleaning up looks for it in the list. *)
Definition no_record (n : Z) : bool := negb (n =? sizeof_VirtioGpuResource).
Definition leaked (o : option (Gpu GSim * option (Z * Z * Z))) : bool :=
  match o with
  | Some (s, None) => bitmap_test_bit (pc_fa (pci s)) 0x204 && match h_res (gs_host (pc_w (pci s))) !! 1 with Some _ => true | None => false end
  | _ => false
  end.
Theorem resource_without_record_leaks : bitmap_test_bit (pc_fa (pci gpu_idle)) 0x204 = false /\
  leaked (virtioGpuResourceCreate no_record 2001 buffer_args gpu_idle) = true.
Proof. split; vm_compute; reflexivity. Qed.

(** A page that the process has mapped at the address for resources is lost:
    no area is made, and the mapping is replaced. *)
Definition busy_state : Gpu GSim :=
  set_procs gpu_state {[0x7000 := mkProc (tbl demo_root) [mkVma GPU_USER_MEM_BASE (GPU_USER_MEM_BASE + 0x1000) VMA_READ]]}.
Definition replaced (o : option (Gpu GSim * option (Z * Z * Z))) : bool :=
  match o with
  | Some (s, Some (_, addr, _)) => (addr =? GPU_USER_MEM_BASE) && (vmmVirtToPhys (mem_of s) (tbl demo_root) addr =? 0x204000) &&
      match procs s !! 0x7000 with Some p => (length (p_vmas p) =? 1)%nat | None => false end
  | _ => false
  end.
Theorem resource_replaces_mapping : replaced (virtioGpuResourceCreate (fun _ => true) 2001 buffer_args busy_state) = true.
Proof. vm_compute. reflexivity. Qed.
