(* ===== verification/NvBios.v ===== *)
(** * The video BIOS of the NVIDIA driver

    drivers/nvidia/core/nv_bios.c: the images in the PROM of the card, the
    copy of them in memory, the BIT table and the descriptor of the FWSEC
    firmware in it, and the patching of its data for the FRTS command.

    The PROM is read-only, so a register read is a function [nv_rd32] of the
    offset.  The copy is a list of bytes; what lies behind it in memory is
    the function [beyond], since a descriptor near the end is read on past
    it.  Pointers into the copy are offsets.  [1U << 32], which C leaves
    undefined, shifts as the processor does: by the count modulo 32. *)

From Stdlib Require Import ZArith Lia Bool.
From stdpp Require Import base list gmap.
From S2P Require Import Prelude Block.

Definition NV_PROM_BASE : Z := 0x00300000.
Definition PCI_ROM_SIGNATURE : Z := 0xAA55.
Definition PCI_ROM_SIGNATURE_NV : Z := 0x4E56.
Definition PCI_ROM_SIGNATURE_NV2 : Z := 0xBB77.
Definition IS_VALID_PCI_ROM_SIG (sig : Z) : bool := (sig =? PCI_ROM_SIGNATURE) || (sig =? PCI_ROM_SIGNATURE_NV) || (sig =? PCI_ROM_SIGNATURE_NV2).
Definition PCI_DATA_STRUCT_SIG : Z := 0x52494350.
Definition PCI_DATA_STRUCT_SIG_NV : Z := 0x5344504E.
Definition PCI_DATA_STRUCT_SIG_NV2 : Z := 0x53494752.
Definition IS_VALID_PCI_DATA_SIG (sig : Z) : bool := (sig =? PCI_DATA_STRUCT_SIG) || (sig =? PCI_DATA_STRUCT_SIG_NV) || (sig =? PCI_DATA_STRUCT_SIG_NV2).
Definition NV_PCI_DATA_EXT_SIG : Z := 0x4544504E.
Definition NV_ROM_DIRECTORY_IDENTIFIER : Z := 0x44524652.
Definition NV_PBUS_IFR_FMT_FIXED0_SIG : Z := 0x4E564946.
Definition PCI_ROM_IMAGE_BLOCK_SIZE : Z := 512.
Definition PCI_LAST_IMAGE_FLAG : Z := 0x80.
Definition NV_PMU_UCODE_TYPE_FWSEC : Z := 0x85.

Record NvBios := mkBios { b_data : list Z; b_size : Z; bit_offset : Z }.
Record NvBitEntry := mkBit { be_id : Z; be_version : Z; be_length : Z; be_offset : Z }.
Record NvFwsecDescV2 := mkV2 {
  v2_hdr : Z; v2_stored_size : Z; v2_uncompressed_size : Z; v2_virtual_entry : Z; v2_interface_offset : Z;
  v2_imem_phys_base : Z; v2_imem_load_size : Z; v2_imem_virt_base : Z; v2_imem_sec_base : Z; v2_imem_sec_size : Z;
  v2_dmem_offset : Z; v2_dmem_phys_base : Z; v2_dmem_load_size : Z; v2_alt_imem_load_size : Z; v2_alt_dmem_load_size : Z
}.
Record NvFwsecDescV3 := mkV3 {
  v3_hdr : Z; v3_stored_size : Z; v3_pkc_data_offset : Z; v3_interface_offset : Z; v3_imem_phys_base : Z; v3_imem_load_size : Z; v3_imem_virt_base : Z;
  v3_dmem_phys_base : Z; v3_dmem_load_size : Z; v3_engine_id_mask : Z; v3_ucode_id : Z; v3_signature_count : Z; v3_signature_versions : Z; v3_reserved : Z
}.
Record NvFwsecImage := mkFwsec {
  fw_version : Z; fw_raw : NvFwsecDescV2 + NvFwsecDescV3; imem_phys_base : Z; imem_load_size : Z; imem_sec_base : Z; imem_sec_size : Z;
  dmem_offset : Z; dmem_phys_base : Z; dmem_load_size : Z; interface_offset : Z; pkc_data_offset : Z;
  ucode_id : Z; signature_count : Z; signature_versions : Z; engine_id_mask : Z; signatures : option Z; signatures_size : Z;
  ucode_image : Z; ucode_size : Z
}.

(** ** The PROM *)
Section Prom.
Context (nv_rd32 : Z -> Z).

Definition prom_rd32_raw (offset : Z) : Z := nv_rd32 (u32 (NV_PROM_BASE + offset)).

(** [(1U << n) - 1] *)
Definition low_mask (n : Z) : Z := u32 (u32 (Z.shiftl 1 (n mod 32)) - 1).

Definition prom_read (offset size : Z) : Z :=
  let aligned_offset := Z.land offset (u32 (Z.lnot 3)) in
  let byte_shift := Z.land offset 3 * 8 in
  let lo := prom_rd32_raw aligned_offset in
  if Z.land offset 3 + size <=? 4 then
    if size =? 4 then lo else Z.land (Z.shiftr lo byte_shift) (low_mask (size * 8))
  else
    let hi := prom_rd32_raw (u32 (aligned_offset + 4)) in
    let combined := Z.lor (Z.shiftl hi 32) lo in
    u32 (Z.land (Z.shiftr combined byte_shift) (low_mask (size * 8))).

Definition prom_rd08 (offset : Z) : Z := u8 (prom_read offset 1).
Definition prom_rd16 (offset : Z) : Z := u16 (prom_read offset 2).
Definition prom_rd32 (offset : Z) : Z := prom_read offset 4.

Definition nv_bios_find_pci_header : option Z :=
  if IS_VALID_PCI_ROM_SIG (prom_rd16 0) then Some 0
  else
    let fixed0 := prom_rd32 0 in
    let fixed1 := prom_rd32 4 in
    let fixed2 := prom_rd32 8 in
    if fixed0 =? NV_PBUS_IFR_FMT_FIXED0_SIG then
      let ifr_version := Z.land (Z.shiftr fixed1 16) 0xFF in
      if (ifr_version =? 1) || (ifr_version =? 2) then Some (prom_rd32 (u32 (Z.land fixed1 0xFFFF + 4)))
      else if ifr_version =? 3 then
        let flash_status_offset := prom_rd32 (Z.land fixed2 0xFFFF) in
        let rom_dir_offset := u32 (flash_status_offset + 4096) in
        if prom_rd32 rom_dir_offset =? NV_ROM_DIRECTORY_IDENTIFIER then Some (prom_rd32 (u32 (rom_dir_offset + 8))) else None
      else None
    else None.

(** One image of the ROM: its size and whether it is the last. *)
Definition rom_image (curr_block : Z) : option (Z * bool) :=
  if negb (IS_VALID_PCI_ROM_SIG (prom_rd16 curr_block)) then None
  else
    let pcir_offset := u32 (curr_block + prom_rd16 (u32 (curr_block + 0x18))) in
    if negb (IS_VALID_PCI_DATA_SIG (prom_rd32 pcir_offset)) then None
    else
      let pcir_len := prom_rd16 (u32 (pcir_offset + 0x0A)) in
      let image_len := prom_rd16 (u32 (pcir_offset + 0x10)) in
      let code_type := prom_rd08 (u32 (pcir_offset + 0x14)) in
      let last := has (prom_rd08 (u32 (pcir_offset + 0x15))) PCI_LAST_IMAGE_FLAG in
      if negb (code_type =? 0x70) then
        let npde_offset := Z.land (u32 (pcir_offset + pcir_len + 0xF)) (u32 (Z.lnot 0xF)) in
        if prom_rd32 npde_offset =? NV_PCI_DATA_EXT_SIG then
          Some (u32 (prom_rd16 (u32 (npde_offset + 0x08)) * PCI_ROM_IMAGE_BLOCK_SIZE), has (prom_rd08 (u32 (npde_offset + 0x0A))) PCI_LAST_IMAGE_FLAG)
        else Some (u32 (image_len * PCI_ROM_IMAGE_BLOCK_SIZE), last)
      else Some (u32 (image_len * PCI_ROM_IMAGE_BLOCK_SIZE), true).

(** The walk over the images: where it ends.  [None]: out of fuel;
    [Some None]: an image is not in order. *)
Fixpoint rom_walk (fuel : nat) (curr_block : Z) : option (option Z) :=
  match fuel with
  | O => None
  | S k =>
      match rom_image curr_block with
      | None => Some None
      | Some (subimage_size, last) =>
          let next := u32 (curr_block + subimage_size) in
          if last then Some (Some next) else rom_walk k next
      end
  end.

(** ** The BIT signature *)
Definition bit_sig : list Z := [0xFF; 0xB8; 66; 73; 84].

(** The first of [n] offsets from [i] at which the bytes are the signature. *)
Fixpoint find_sig (n : nat) (i : Z) (data : list Z) : option Z :=
  match n with
  | O => None
  | S k => if bool_decide (take 5 (drop (Z.to_nat i) data) = bit_sig) then Some i else find_sig k (i + 1) data
  end.

Definition nv_bios_find_bit (data : list Z) (size : Z) : option Z :=
  if size <? 12 then None else find_sig (Z.to_nat (size - 5 + 1)) 0 data.

(** The words that are copied. *)
Definition rom_copy (pci_offset total_size : Z) : list Z :=
  flat_map (fun i => le_bytes 4 (prom_rd32_raw (u32 (pci_offset + i * 4)))) (seqZ 0 (total_size / 4)).

(** [nv_bios_init]; [ok] tells whether the buffer can be allocated. *)
Definition nv_bios_init (ok : bool) (fuel : nat) : option (option NvBios) :=
  match nv_bios_find_pci_header with
  | None => Some None
  | Some pci_offset =>
      match rom_walk fuel pci_offset with
      | None => None
      | Some None => Some None
      | Some (Some curr_block) =>
          let total_size := u32 (curr_block - pci_offset) in
          if (total_size =? 0) || (1024 * 1024 <? total_size) then Some None
          else if negb ok then Some None
          else
            let data := rom_copy pci_offset total_size in
            match nv_bios_find_bit data total_size with
            | None => Some None
            | Some i => Some (Some (mkBios data total_size (u32 i)))
            end
      end
  end.
End Prom.

(** ** Reading the copy *)
Section Bios.
Context (bios : NvBios) (beyond : Z -> Z).

Definition bios_rd08 (offset : Z) : Z := if offset <? b_size bios then byte_at (b_data bios) offset else 0.
Definition bios_rd16 (offset : Z) : Z := if u32 (offset + 1) <? b_size bios then le16 (b_data bios) offset else 0.
Definition bios_rd32 (offset : Z) : Z := if u32 (offset + 3) <? b_size bios then le32 (b_data bios) offset else 0.

Fixpoint bit_entries (entries : nat) (ptr stride id : Z) : option NvBitEntry :=
  match entries with
  | O => None
  | S k =>
      if bios_rd08 ptr =? id then
        Some (mkBit (bios_rd08 ptr) (bios_rd08 (u32 (ptr + 1))) (bios_rd16 (u32 (ptr + 2))) (bios_rd16 (u32 (ptr + 4))))
      else bit_entries k (u32 (ptr + stride)) stride id
  end.

Definition nv_bios_get_bit_entry (id : Z) : option NvBitEntry :=
  if bit_offset bios =? 0 then None
  else
    let entries := bios_rd08 (u32 (bit_offset bios + 10)) in
    let stride := bios_rd08 (u32 (bit_offset bios + 9)) in
    let ptr := u32 (bit_offset bios + 12) in
    bit_entries (Z.to_nat entries) ptr (if stride =? 0 then 6 else stride) id.

(** The search of the PMU table for the FWSEC entry: its descriptor. *)
Fixpoint pmu_entries (n : nat) (i pmu_table hdr_size entry_len : Z) : Z :=
  match n with
  | O => 0
  | S k =>
      let entry_ptr := u32 (pmu_table + hdr_size + i * entry_len) in
      if bios_rd08 entry_ptr =? NV_PMU_UCODE_TYPE_FWSEC then bios_rd32 (u32 (entry_ptr + 2))
      else pmu_entries k (i + 1) pmu_table hdr_size entry_len
  end.

(** Memory from the start of the copy on. *)
Definition image_byte (i : Z) : Z := if i <? b_size bios then byte_at (b_data bios) i else beyond i.
Definition slice (f : Z -> Z) (off n : Z) : list Z := map (fun k => f (off + k)) (seqZ 0 n).

Definition read_v2 (d : list Z) : NvFwsecDescV2 :=
  mkV2 (le32 d 0) (le32 d 4) (le32 d 8) (le32 d 12) (le32 d 16) (le32 d 20) (le32 d 24) (le32 d 28) (le32 d 32) (le32 d 36) (le32 d 40) (le32 d 44) (le32 d 48) (le32 d 52) (le32 d 56).
Definition read_v3 (d : list Z) : NvFwsecDescV3 :=
  mkV3 (le32 d 0) (le32 d 4) (le32 d 8) (le32 d 12) (le32 d 16) (le32 d 20) (le32 d 24) (le32 d 28) (le32 d 32) (le16 d 36) (byte_at d 38) (byte_at d 39) (le16 d 40) (le16 d 42).

Definition fwsec_v2 (off desc_size : Z) (d : NvFwsecDescV2) : NvFwsecImage :=
  mkFwsec 2 (inl d) (v2_imem_phys_base d) (v2_imem_load_size d) (v2_imem_sec_base d) (v2_imem_sec_size d)
    (v2_dmem_offset d) (v2_dmem_phys_base d) (v2_dmem_load_size d) (v2_interface_offset d) 0 0 0 0 0 None 0
    (off + desc_size) (u32 (v2_imem_load_size d + v2_dmem_load_size d)).

Definition fwsec_v3 (off desc_size : Z) (d : NvFwsecDescV3) : NvFwsecImage :=
  let more := 44 <? desc_size in
  mkFwsec 3 (inr d) (v3_imem_phys_base d) (v3_imem_load_size d) 0 0
    (v3_imem_load_size d) (v3_dmem_phys_base d) (Z.land (u32 (v3_dmem_load_size d + 255)) (u32 (Z.lnot 255))) (v3_interface_offset d) (v3_pkc_data_offset d)
    (v3_ucode_id d) (v3_signature_count d) (v3_signature_versions d) (v3_engine_id_mask d)
    (if more then Some (off + 44) else None) (if more then desc_size - 44 else 0)
    (off + desc_size) (u32 (v3_imem_load_size d + v3_dmem_load_size d)).

Definition nv_bios_extract_fwsec : option NvFwsecImage :=
  match nv_bios_get_bit_entry 112 with
  | None => None
  | Some bit_p =>
      if negb (be_version bit_p =? 2) || (be_length bit_p <? 4) then None
      else
        let pmu_table := bios_rd32 (be_offset bit_p) in
        if (pmu_table =? 0) || (b_size bios <=? pmu_table) then None
        else
          let hdr_size := bios_rd08 (u32 (pmu_table + 1)) in
          let entry_len := bios_rd08 (u32 (pmu_table + 2)) in
          let entry_count := bios_rd08 (u32 (pmu_table + 3)) in
          let off := pmu_entries (Z.to_nat entry_count) 0 pmu_table hdr_size entry_len in
          if (off =? 0) || (b_size bios <=? off) then None
          else
            let hdr := bios_rd32 off in
            if Z.land hdr 1 =? 0 then None
            else
              let desc_size := Z.land (Z.shiftr hdr 16) 0xFFFF in
              let desc_ver := Z.land (Z.shiftr hdr 8) 0xFF in
              if desc_ver =? 2 then Some (fwsec_v2 off desc_size (read_v2 (slice image_byte off 60)))
              else if desc_ver =? 3 then Some (fwsec_v3 off desc_size (read_v3 (slice image_byte off 44)))
              else None
  end.
End Bios.

(** ** The command for FRTS *)
Definition DMEMMAPPER : Z := 0x4.
Definition CMD_FRTS : Z := 0x15.
Definition sizeof_FwsecFrtsCmd : Z := 44.

(** [FwsecFrtsCmd] *)
Definition frts_cmd (frts_offset : Z) : list Z :=
  flat_map (le_bytes 4) [1; 24; 0; 0; 0; 2] ++ flat_map (le_bytes 4) [1; 20; u32 (Z.shiftr frts_offset 12); 0x100; 2].

(** The search for the DMEMMAPPER entry: the offset of the mapper. *)
Fixpoint find_mapper (n : nat) (cur load : Z) (buf : list Z) : option Z :=
  match n with
  | O => None
  | S k =>
      if load <? cur + 8 then None
      else
        let id := le32 buf cur in
        let dmemOffset := le32 buf (cur + 4) in
        if (id =? DMEMMAPPER) && (dmemOffset + 64 <=? load) then Some dmemOffset else find_mapper k (u32 (cur + 8)) load buf
  end.

Definition overwrite (l : list Z) (off : Z) (b : list Z) : list Z :=
  take (Z.to_nat off) l ++ b ++ drop (Z.to_nat off + length b) l.

(** [nv_fwsec_execute_frts] up to the reset of the processor: the data that
    is written to its memory.  [image] is memory from the firmware image on,
    [after] what lies behind the staging buffer. *)
Definition frts_dmem (ok : bool) (image after : Z -> Z) (fwsec : NvFwsecImage) (frts_offset : Z) : option (list Z) :=
  if (ucode_size fwsec =? 0) || (frts_offset =? 0) then None
  else if negb ok then None
  else
    let load := dmem_load_size fwsec in
    let buf := slice image (dmem_offset fwsec) load in
    let i := interface_offset fwsec in
    if load <=? i then None
    else
      let entryCount := if i + 3 <? load then byte_at buf (i + 3) else after (i + 3) in
      match find_mapper (Z.to_nat entryCount) (u32 (i + 4)) load buf with
      | None => None
      | Some mapper =>
          let buf1 := overwrite buf (mapper + 44) (le_bytes 4 CMD_FRTS) in
          let cmd_in := le32 buf1 (mapper + 8) in
          if load <? cmd_in + sizeof_FwsecFrtsCmd then None
          else Some (overwrite buf1 cmd_in (frts_cmd frts_offset))
      end.

(** ** The PROM as bytes *)

(** The value of [n] bytes from [off] on, the lowest first. *)
Fixpoint val (n : nat) (b : Z -> Z) (off : Z) : Z :=
  match n with O => 0 | S k => b off + 256 * val k b (off + 1) end.
Abbreviation w16 := (val 2).
Abbreviation w32 := (val 4).

(** The registers show the bytes [b], up to [N]. *)
Record prom_holds (rd : Z -> Z) (b : Z -> Z) (N : Z) : Prop := {
  ph_bytes : forall i, 0 <= b i < 256;
  ph_words : forall i, 0 <= i -> 4 * i + 4 <= N -> rd (NV_PROM_BASE + 4 * i) = w32 b (4 * i);
  ph_size : N <= 2 ^ 31
}.

Section Holds.
Context (rd b : Z -> Z) (N : Z) (Hp : prom_holds rd b N).

Lemma raw_word i : 0 <= i -> 4 * i + 4 <= N -> prom_rd32_raw rd (4 * i) = w32 b (4 * i).
Proof.
  intros H0 H1. pose proof (ph_size _ _ _ Hp). unfold prom_rd32_raw. rewrite u32_id by (unfold NV_PROM_BASE; lia). by apply (ph_words _ _ _ Hp).
Qed.

Lemma split4 off : 0 <= off < 2 ^ 32 -> Z.land off (u32 (Z.lnot 3)) = 4 * (off / 4) /\ Z.land off 3 = off mod 4.
Proof.
  intros Ho. change 3 with (Z.ones 2) at 2. rewrite Z.land_ones by lia. change (2 ^ 2) with 4. split; [|done].
  change (u32 (Z.lnot 3)) with (Z.ldiff (Z.ones 32) (Z.ones 2)). rewrite Z.ldiff_land, Z.land_assoc, (Z.land_ones off 32) by lia. rewrite Z.mod_small by lia.
  rewrite <- Z.ldiff_land, Z.ldiff_ones_r by lia. rewrite Z.shiftl_mul_pow2, Z.shiftr_div_pow2 by lia. change (2 ^ 2) with 4. lia.
Qed.

Lemma join_words hi lo : 0 <= lo < 2 ^ 32 -> Z.lor (Z.shiftl hi 32) lo = hi * 2 ^ 32 + lo.
Proof.
  intros Hl. rewrite Z.shiftl_mul_pow2 by lia. rewrite <- Z.add_lor_land.
  assert (E : Z.land (hi * 2 ^ 32) lo = 0); [|rewrite E; lia].
  apply Z.bits_inj'. intros k Hk. rewrite Z.land_spec, Z.testbit_0_l. destruct (Z.lt_ge_cases k 32).
  - rewrite Z.mul_pow2_bits_low by lia. done.
  - rewrite (testbit_above lo k 32) by lia. apply andb_false_r.
Qed.

Lemma val_range n : forall off, 0 <= val n b off < 256 ^ Z.of_nat n.
Proof.
  induction n as [|n IH]; intros off; [cbn; lia|]. cbn [val]. pose proof (ph_bytes _ _ _ Hp off). specialize (IH (off + 1)).
  rewrite Nat2Z.inj_succ, Z.pow_succ_r by lia. lia.
Qed.

(** One or two bytes anywhere, four at a multiple of four. *)
Lemma prom_read_ok off n : 0 <= off -> off + 8 <= N -> (n = 1%nat \/ n = 2%nat \/ (n = 4%nat /\ off mod 4 = 0)) -> prom_read rd off (Z.of_nat n) = val n b off.
Proof.
  intros Ho Hn Hc. pose proof (ph_size _ _ _ Hp) as Hs. destruct (split4 off ltac:(lia)) as [E1 E2]. unfold prom_read. rewrite E1, E2.
  pose proof (Z.div_mod off 4 ltac:(lia)) as Em. pose proof (Z.mod_pos_bound off 4 ltac:(lia)) as Hr. set (q := off / 4) in *. set (r := off mod 4) in *.
  rewrite (raw_word q) by lia. rewrite (u32_id (4 * q + 4)) by lia. replace (4 * q + 4) with (4 * (q + 1)) by lia.
  assert (Ehi : prom_rd32_raw rd (4 * (q + 1)) = w32 b (4 * (q + 1))) by (apply raw_word; lia). rewrite Ehi. clear Ehi.
  pose proof (val_range 4 (4 * q)) as Hlo. pose proof (val_range 4 (4 * (q + 1))) as Hhi. change (256 ^ Z.of_nat 4) with (2 ^ 32) in *.
  rewrite join_words by lia. pose proof (ph_bytes _ _ _ Hp) as Hb. rewrite Em. clear Em E1 E2 Hlo Hhi.
  change (low_mask (Z.of_nat 1 * 8)) with (Z.ones 8) in *. cbn [val]. rewrite <- !(Z.add_assoc (4 * q)), <- !(Z.add_assoc (4 * (q + 1))).
  pose proof (Hb (4 * q)) as B0. pose proof (Hb (4 * q + 1)) as B1. pose proof (Hb (4 * q + (1 + 1))) as B2. pose proof (Hb (4 * q + (1 + (1 + 1)))) as B3.
  pose proof (Hb (4 * (q + 1))) as B4. pose proof (Hb (4 * (q + 1) + 1)) as B5.
  assert (Hr4 : r = 0 \/ r = 1 \/ r = 2 \/ r = 3) by lia. unfold u32.
  destruct Hc as [->|[->|[-> Hr0]]]; [destruct Hr4 as [E|[E|[E|E]]]..|rename Hr0 into E]; rewrite E.
  all: cbn [Z.of_nat Pos.of_succ_nat Pos.succ].
  all: match goal with |- context [if ?c then _ else _] => let v := eval vm_compute in c in change c with v; cbv iota end.
  all: try match goal with |- context [if ?c then _ else _] => let v := eval vm_compute in c in change c with v; cbv iota end.
  all: change (low_mask (Z.of_nat 1 * 8)) with (Z.ones 8); change (low_mask (Z.of_nat 2 * 8)) with (Z.ones 16); rewrite ?Z.shiftr_div_pow2, ?Z.land_ones by done.
  all: change (1 + 1 + 1) with 3 in *; change (1 + (1 + 1)) with 3 in *; change (1 + 1) with 2 in *; cbn [val].
  all: replace (4 * q + 0) with (4 * q) by lia; replace (4 * q + 1 + 1) with (4 * q + 2) by lia; replace (4 * q + 2 + 1) with (4 * q + 3) by lia; replace (4 * q + 3 + 1) with (4 * (q + 1)) by lia.
  all: generalize dependent (b (4 * q)); generalize dependent (b (4 * q + 1)); generalize dependent (b (4 * q + 2)); generalize dependent (b (4 * q + 3)).
  all: generalize dependent (b (4 * (q + 1))); generalize dependent (b (4 * (q + 1) + 1)); generalize (b (4 * (q + 1) + 2)); generalize (b (4 * (q + 1) + 3)); clear; intros.
  all: try lia; try divlia.
Qed.

Lemma rd08_ok off : 0 <= off -> off + 8 <= N -> prom_rd08 rd off = b off.
Proof.
  intros Ho Hn. unfold prom_rd08. change 1 with (Z.of_nat 1). rewrite prom_read_ok by auto. cbn [val]. pose proof (ph_bytes _ _ _ Hp off). unfold u8. rewrite Z.mod_small; lia.
Qed.

Lemma rd16_ok off : 0 <= off -> off + 8 <= N -> prom_rd16 rd off = w16 b off.
Proof.
  intros Ho Hn. unfold prom_rd16. change 2 with (Z.of_nat 2). rewrite prom_read_ok by auto. pose proof (val_range 2 off) as Hr. change (256 ^ Z.of_nat 2) with (2 ^ 16) in Hr.
  unfold u16. by apply Z.mod_small.
Qed.

Lemma rd32_ok off : 0 <= off -> off + 8 <= N -> off mod 4 = 0 -> prom_rd32 rd off = w32 b off.
Proof. intros Ho Hn Hm. unfold prom_rd32. change 4 with (Z.of_nat 4). apply prom_read_ok; auto. Qed.
End Holds.

(** A read of four bytes at another offset gives 0. *)
Theorem prom_rd32_unaligned rd off : 0 <= off < 2 ^ 32 -> off mod 4 <> 0 -> prom_rd32 rd off = 0.
Proof.
  intros Ho Hm. unfold prom_rd32, prom_read. destruct (split4 off Ho) as [_ ->]. destruct (Z.leb_spec (off mod 4 + 4) 4); [pose proof (Z.mod_pos_bound off 4); lia|].
  change (low_mask (4 * 8)) with 0. by rewrite Z.land_0_r.
Qed.

(** ** The format of the ROM *)

(** An image at [off] in a ROM of [N] bytes: its size and whether it is the
    last.  The PCI data structure is at a multiple of four. *)
Inductive rom_image_is (b : Z -> Z) (N off : Z) : Z -> bool -> Prop :=
| image_firmware pcir : IS_VALID_PCI_ROM_SIG (w16 b off) = true -> pcir = off + w16 b (off + 0x18) -> pcir mod 4 = 0 -> pcir + 0x20 <= N ->
    IS_VALID_PCI_DATA_SIG (w32 b pcir) = true -> b (pcir + 0x14) = 0x70 ->
    rom_image_is b N off (512 * w16 b (pcir + 0x10)) true
| image_plain pcir npde : IS_VALID_PCI_ROM_SIG (w16 b off) = true -> pcir = off + w16 b (off + 0x18) -> pcir mod 4 = 0 -> pcir + 0x20 <= N ->
    IS_VALID_PCI_DATA_SIG (w32 b pcir) = true -> b (pcir + 0x14) <> 0x70 ->
    npde = (pcir + w16 b (pcir + 0x0A) + 15) / 16 * 16 -> npde + 0x12 <= N -> w32 b npde <> NV_PCI_DATA_EXT_SIG ->
    rom_image_is b N off (512 * w16 b (pcir + 0x10)) (Z.testbit (b (pcir + 0x15)) 7)
| image_extended pcir npde : IS_VALID_PCI_ROM_SIG (w16 b off) = true -> pcir = off + w16 b (off + 0x18) -> pcir mod 4 = 0 -> pcir + 0x20 <= N ->
    IS_VALID_PCI_DATA_SIG (w32 b pcir) = true -> b (pcir + 0x14) <> 0x70 ->
    npde = (pcir + w16 b (pcir + 0x0A) + 15) / 16 * 16 -> npde + 0x12 <= N -> w32 b npde = NV_PCI_DATA_EXT_SIG ->
    rom_image_is b N off (512 * w16 b (npde + 0x08)) (Z.testbit (b (npde + 0x0A)) 7).

(** [k] images from [off] to [e]. *)
Inductive rom_chain (b : Z -> Z) (N : Z) : nat -> Z -> Z -> Prop :=
| chain_last off n : rom_image_is b N off n true -> off + n <= N -> rom_chain b N 1 off (off + n)
| chain_more k off n e : rom_image_is b N off n false -> rom_chain b N k (off + n) e -> rom_chain b N (S k) off e.

(** Where the images start: at once, or where the header of the board's
    initialisation data says. *)
Inductive rom_start (b : Z -> Z) (N : Z) : Z -> Prop :=
| start_rom : IS_VALID_PCI_ROM_SIG (w16 b 0) = true -> rom_start b N 0
| start_ifr ext : IS_VALID_PCI_ROM_SIG (w16 b 0) = false -> w32 b 0 = NV_PBUS_IFR_FMT_FIXED0_SIG -> b 6 = 1 \/ b 6 = 2 ->
    ext = w16 b 4 -> ext mod 4 = 0 -> ext + 12 <= N -> rom_start b N (w32 b (ext + 4))
| start_directory dir : IS_VALID_PCI_ROM_SIG (w16 b 0) = false -> w32 b 0 = NV_PBUS_IFR_FMT_FIXED0_SIG -> b 6 = 3 ->
    w16 b 8 mod 4 = 0 -> w16 b 8 + 8 <= N -> dir = w32 b (w16 b 8) + 4096 -> dir mod 4 = 0 -> dir + 16 <= N -> w32 b dir = NV_ROM_DIRECTORY_IDENTIFIER ->
    rom_start b N (w32 b (dir + 8)).

Section Walk.
Context (rd b : Z -> Z) (N : Z) (Hp : prom_holds rd b N).

Lemma last_flag x : has x PCI_LAST_IMAGE_FLAG = Z.testbit x 7.
Proof. by apply (has_testbit x 7). Qed.

Lemma round_para x : 0 <= x < 2 ^ 32 -> Z.land x (u32 (Z.lnot 0xF)) = x / 16 * 16.
Proof.
  intros Hx. change (u32 (Z.lnot 0xF)) with (Z.ldiff (Z.ones 32) (Z.ones 4)). rewrite Z.ldiff_land, Z.land_assoc, (Z.land_ones x 32) by lia. rewrite Z.mod_small by lia.
  rewrite <- Z.ldiff_land, Z.ldiff_ones_r by lia. rewrite Z.shiftl_mul_pow2, Z.shiftr_div_pow2 by lia. done.
Qed.

Lemma extension_at x npde : npde = x / 16 * 16 -> 0 <= x -> 0 <= npde /\ npde mod 4 = 0.
Proof. intros -> Hx. split; [divlia|]. replace 16 with (4 * 4) at 2 by lia. rewrite Z.mul_assoc. by apply Z.mod_mul. Qed.

Lemma rom_image_ok off n last : 0 <= off -> rom_image_is b N off n last -> rom_image rd off = Some (n, last).
Proof.
  intros Ho Hi. pose proof (ph_size _ _ _ Hp) as HN. pose proof (val_range rd b N Hp 2) as H2. change (256 ^ Z.of_nat 2) with (2 ^ 16) in H2.
  assert (Hhead : forall pcir, IS_VALID_PCI_ROM_SIG (w16 b off) = true -> pcir = off + w16 b (off + 0x18) -> pcir mod 4 = 0 -> pcir + 0x20 <= N -> IS_VALID_PCI_DATA_SIG (w32 b pcir) = true ->
    rom_image rd off = if negb (b (pcir + 0x14) =? 0x70) then
        let npde := (pcir + w16 b (pcir + 0x0A) + 15) / 16 * 16 in
        if prom_rd32 rd npde =? NV_PCI_DATA_EXT_SIG then Some (u32 (prom_rd16 rd (u32 (npde + 0x08)) * PCI_ROM_IMAGE_BLOCK_SIZE), Z.testbit (prom_rd08 rd (u32 (npde + 0x0A))) 7)
        else Some (512 * w16 b (pcir + 0x10), Z.testbit (b (pcir + 0x15)) 7)
      else Some (512 * w16 b (pcir + 0x10), true)).
  { intros pcir V1 E Hm Hl V2. pose proof (H2 (off + 0x18)) as R1. pose proof (H2 (pcir + 0x0A)) as R2. pose proof (H2 (pcir + 0x10)) as R3.
    unfold rom_image. rewrite (rd16_ok rd b N Hp off), V1 by lia. cbn [negb]. rewrite (u32_id (off + 0x18)), (rd16_ok rd b N Hp (off + 0x18)) by lia. rewrite <- E, (u32_id pcir) by lia.
    rewrite (rd32_ok rd b N Hp pcir), V2 by lia. cbn [negb]. rewrite !(u32_id (pcir + _)) by lia. rewrite !(rd16_ok rd b N Hp (pcir + _)), !(rd08_ok rd b N Hp (pcir + _)) by lia.
    rewrite last_flag, (u32_id (pcir + _ + _)) by lia. rewrite round_para by lia. unfold PCI_ROM_IMAGE_BLOCK_SIZE. rewrite (u32_id (w16 b _ * 512)) by lia. rewrite !(Z.mul_comm _ 512), last_flag. done. }
  destruct Hi as [pcir V1 E Hm Hl V2 Hc|pcir npde V1 E Hm Hl V2 Hc Hnp Hb Hx|pcir npde V1 E Hm Hl V2 Hc Hnp Hb Hx]; rewrite (Hhead pcir) by done.
  - by rewrite Hc.
  - destruct (Z.eqb_spec (b (pcir + 0x14)) 0x70); [done|]. cbn [negb]. cbv zeta. rewrite <- Hnp.
    destruct (extension_at (pcir + w16 b (pcir + 0x0A) + 15) npde Hnp) as [Hn0 Hn4]; [pose proof (H2 (off + 0x18)); pose proof (H2 (pcir + 0x0A)); lia|].
    rewrite (rd32_ok rd b N Hp npde) by lia. by destruct (Z.eqb_spec (w32 b npde) NV_PCI_DATA_EXT_SIG).
  - destruct (Z.eqb_spec (b (pcir + 0x14)) 0x70); [done|]. cbn [negb]. cbv zeta. rewrite <- Hnp.
    destruct (extension_at (pcir + w16 b (pcir + 0x0A) + 15) npde Hnp) as [Hn0 Hn4]; [pose proof (H2 (off + 0x18)); pose proof (H2 (pcir + 0x0A)); lia|].
    rewrite (rd32_ok rd b N Hp npde), Hx by lia. rewrite Z.eqb_refl. rewrite !(u32_id (npde + _)) by lia. rewrite (rd16_ok rd b N Hp), (rd08_ok rd b N Hp) by lia.
    pose proof (H2 (npde + 8)). unfold PCI_ROM_IMAGE_BLOCK_SIZE. rewrite u32_id by lia. by rewrite Z.mul_comm.
Qed.

Lemma image_size off n last : rom_image_is b N off n last -> 0 <= n <= 512 * 65535 /\ n mod 4 = 0.
Proof.
  intros Hi. pose proof (val_range rd b N Hp 2) as H2. change (256 ^ Z.of_nat 2) with (2 ^ 16) in H2.
  assert (H4 : forall x, 512 * x mod 4 = 0) by (intros x; replace (512 * x) with (128 * x * 4) by lia; by apply Z.mod_mul).
  destruct Hi as [pcir|pcir npde|pcir npde]; (split; [|apply H4]); [pose proof (H2 (pcir + 0x10)); lia..|pose proof (H2 (npde + 8)); lia].
Qed.

Lemma chain_end k off e : rom_chain b N k off e -> off <= e <= N /\ e mod 4 = off mod 4.
Proof.
  induction 1 as [off n Hi Hn|k off n e Hi _ [IH1 IH2]]; destruct (image_size _ _ _ Hi) as [Hr Hm]; (split; [lia|]).
  - by rewrite <- Zplus_mod_idemp_r, Hm, Z.add_0_r.
  - rewrite IH2. by rewrite <- Zplus_mod_idemp_r, Hm, Z.add_0_r.
Qed.

Lemma chain_size k off e : rom_chain b N k off e -> exists z, e - off = 512 * z.
Proof.
  assert (Hi : forall o n last, rom_image_is b N o n last -> exists z, n = 512 * z) by (intros o n last []; eexists; reflexivity).
  induction 1 as [off n H _|k off n e H _ [z Hz]]; destruct (Hi _ _ _ H) as [y ->]; [exists y|exists (y + z)]; lia.
Qed.

Lemma rom_walk_ok k off e : rom_chain b N k off e -> 0 <= off -> forall fuel, (k <= fuel)%nat -> rom_walk rd fuel off = Some (Some e).
Proof.
  pose proof (ph_size _ _ _ Hp) as HN. induction 1 as [off n Hi Hn|k off n e Hi Hc IH]; intros Ho [|fuel] Hf; try lia; cbn [rom_walk]; rewrite (rom_image_ok _ _ _ Ho Hi); destruct (image_size _ _ _ Hi) as [Hr _].
  - by rewrite u32_id by lia.
  - destruct (chain_end _ _ _ Hc). rewrite u32_id by lia. apply IH; lia.
Qed.

Lemma header_ok pci : 16 <= N -> rom_start b N pci -> nv_bios_find_pci_header rd = Some pci.
Proof.
  intros H16 Hst. pose proof (ph_size _ _ _ Hp) as HN. pose proof (val_range rd b N Hp 2) as H2. change (256 ^ Z.of_nat 2) with (2 ^ 16) in H2.
  pose proof (val_range rd b N Hp 4) as H4. change (256 ^ Z.of_nat 4) with (2 ^ 32) in H4. pose proof (ph_bytes _ _ _ Hp) as Hb.
  assert (L1 : Z.land (Z.shiftr (w32 b 4) 16) 0xFF = b 6).
  { change 0xFF with (Z.ones 8). rewrite Z.land_ones, Z.shiftr_div_pow2 by lia. cbn [val]. pose proof (Hb 4). pose proof (Hb (4 + 1)). pose proof (Hb (4 + 1 + 1)). pose proof (Hb (4 + 1 + 1 + 1)).
    change (b 6) with (b (4 + 1 + 1)). divlia. }
  assert (L2 : forall o, Z.land (w32 b o) 0xFFFF = w16 b o).
  { intros o. change 0xFFFF with (Z.ones 16). rewrite Z.land_ones by lia. cbn [val]. pose proof (Hb o). pose proof (Hb (o + 1)). pose proof (Hb (o + 1 + 1)). divlia. }
  unfold nv_bios_find_pci_header. rewrite (rd16_ok rd b N Hp 0) by lia.
  destruct Hst as [V|ext V E0 Ev E He Hl|dir V E0 Ev He Hl Ed Hd Hdl Es]; rewrite V; [done|..]; rewrite (rd32_ok rd b N Hp 0), (rd32_ok rd b N Hp 4), (rd32_ok rd b N Hp 8), E0 by (lia || done); cbv zeta; rewrite Z.eqb_refl, L1.
  - assert (Hv : (b 6 =? 1) || (b 6 =? 2) = true) by (destruct Ev as [->| ->]; done). rewrite Hv, L2, <- E. pose proof (H2 4). rewrite u32_id by lia.
    rewrite (rd32_ok rd b N Hp); [done|lia|lia|]. by rewrite <- Zplus_mod_idemp_l, He.
  - rewrite Ev. cbn [Z.eqb Pos.eqb orb]. rewrite L2. pose proof (H2 8). rewrite (rd32_ok rd b N Hp (w16 b 8)) by lia. rewrite <- Ed. pose proof (H4 (w16 b 8)). rewrite !u32_id by lia.
    rewrite (rd32_ok rd b N Hp dir), Es by lia. rewrite Z.eqb_refl. rewrite (rd32_ok rd b N Hp); [done|lia|lia|]. by rewrite <- Zplus_mod_idemp_l, Hd.
Qed.
End Walk.

(** ** The copy and the signature in it *)
Section Copy.
Context (rd b : Z -> Z) (N : Z) (Hp : prom_holds rd b N).

Lemma le_bytes_val n : forall off, le_bytes n (val n b off) = slice b off (Z.of_nat n).
Proof.
  induction n as [|n IH]; intros off; [done|]. unfold slice in *. cbn [le_bytes val]. pose proof (ph_bytes _ _ _ Hp off) as Hb.
  assert (E : (b off + 256 * val n b (off + 1)) mod 256 = b off /\ (b off + 256 * val n b (off + 1)) / 256 = val n b (off + 1)) by (split; divlia).
  destruct E as [-> ->]. rewrite IH, (seqZ_cons 0 (Z.of_nat (S n))) by lia. replace (Z.pred (Z.of_nat (S n))) with (Z.of_nat n) by lia. change (Z.succ 0) with (1 + 0). rewrite <- (fmap_add_seqZ 1 0). cbn [map]. rewrite Z.add_0_r. f_equal.
  change (fmap (Z.add 1)) with (map (Z.add 1)). rewrite map_map. apply map_ext. intros k. f_equal. lia.
Qed.

Lemma slice_app (f : Z -> Z) off n m : 0 <= n -> 0 <= m -> slice f off (n + m) = slice f off n ++ slice f (off + n) m.
Proof.
  intros Hn Hm. unfold slice. rewrite seqZ_app, map_app by lia. f_equal. rewrite (Z.add_comm 0 n), <- (fmap_add_seqZ n 0 m). change (fmap (Z.add n)) with (map (Z.add n)). rewrite map_map. apply map_ext. intros k. f_equal. lia.
Qed.

Lemma rom_copy_ok pci (m : nat) : 0 <= pci -> pci mod 4 = 0 -> pci + 4 * Z.of_nat m <= N -> rom_copy rd pci (4 * Z.of_nat m) = slice b pci (4 * Z.of_nat m).
Proof.
  intros H0 H4. unfold rom_copy. replace (4 * Z.of_nat m / 4) with (Z.of_nat m) by divlia. pose proof (ph_size _ _ _ Hp) as HN. induction m as [|m IH]; intros Hm; [done|].
  rewrite seqZ_S, flat_map_app, IH by lia. cbn [flat_map]. rewrite app_nil_r, Z.add_0_l. replace (4 * Z.of_nat (S m)) with (4 * Z.of_nat m + 4) by lia. rewrite slice_app by lia. f_equal.
  rewrite u32_id by lia. pose proof (Z.div_mod pci 4 ltac:(lia)) as Ed. replace (pci + Z.of_nat m * 4) with (4 * (pci / 4 + Z.of_nat m)) by lia.
  rewrite (raw_word rd b N Hp) by (divlia || lia). rewrite le_bytes_val. f_equal. lia.
Qed.
End Copy.

(** The signature is in [data] at [i]. *)
Definition sig_at (data : list Z) (i : Z) : Prop := take 5 (drop (Z.to_nat i) data) = bit_sig.

Lemma find_sig_spec data n : forall i,
  match find_sig n i data with
  | Some p => i <= p < i + Z.of_nat n /\ sig_at data p /\ forall q, i <= q < p -> ~ sig_at data q
  | None => forall q, i <= q < i + Z.of_nat n -> ~ sig_at data q
  end.
Proof.
  induction n as [|n IH]; intros i; cbn [find_sig]; [intros q Hq; lia|]. case_bool_decide as Hs; [repeat split; [lia|lia|exact Hs|intros q Hq; lia]|].
  specialize (IH (i + 1)). destruct (find_sig n (i + 1) data) as [p|].
  - destruct IH as (Hr & Hf & Hno). repeat split; [lia|lia|exact Hf|]. intros q Hq. destruct (Z.eq_dec q i) as [->|]; [exact Hs|apply Hno; lia].
  - intros q Hq. destruct (Z.eq_dec q i) as [->|]; [exact Hs|apply IH; lia].
Qed.

Lemma sig_short data i : (length data < Z.to_nat i + 5)%nat -> ~ sig_at data i.
Proof. intros Hl Hs. apply (f_equal length) in Hs. rewrite length_take, length_drop in Hs. change (length bit_sig) with 5%nat in Hs. lia. Qed.

(** C40: Reading the video BIOS: where the images of a ROM follow each other
    up to a last one, at most a megabyte in all, the driver takes a step for
    each image and has then either a copy of exactly these bytes, with the
    first BIT signature in it, or finds no signature because there is none. *)
Theorem nv_bios_init_correct rd b N pci k e fuel : prom_holds rd b N -> 16 <= N -> rom_start b N pci -> pci mod 4 = 0 -> rom_chain b N k pci e ->
  0 < e - pci <= 2 ^ 20 -> (k <= fuel)%nat ->
  exists r, nv_bios_init rd true fuel = Some r /\
    match r with
    | Some bios => b_data bios = slice b pci (e - pci) /\ b_size bios = e - pci /\
        0 <= bit_offset bios /\ bit_offset bios + 5 <= e - pci /\ sig_at (b_data bios) (bit_offset bios) /\
        forall q, 0 <= q < bit_offset bios -> ~ sig_at (b_data bios) q
    | None => forall q, 0 <= q -> ~ sig_at (slice b pci (e - pci)) q
    end.
Proof.
  intros Hp H16 Hst H4 Hc Hsz Hf. pose proof (ph_size _ _ _ Hp) as HN. unfold nv_bios_init. rewrite (header_ok rd b N Hp pci H16 Hst).
  assert (H0 : 0 <= pci) by (destruct Hst; [lia|apply (val_range rd b N Hp 4)..]). rewrite (rom_walk_ok rd b N Hp k pci e Hc H0 fuel Hf).
  destruct (chain_end rd b N Hp _ _ _ Hc) as [He Hm]. destruct (chain_size b N _ _ _ Hc) as [z Ez]. rewrite u32_id by lia. cbv zeta.
  assert (Ec : rom_copy rd pci (e - pci) = slice b pci (e - pci)).
  { replace (e - pci) with (4 * Z.of_nat (Z.to_nat (128 * z))) by lia. apply (rom_copy_ok rd b N Hp); lia. }
  rewrite Ec. assert (El : length (slice b pci (e - pci)) = Z.to_nat (e - pci)) by (unfold slice; rewrite length_map, length_seqZ; done).
  set (data := slice b pci (e - pci)) in *. destruct (Z.eqb_spec (e - pci) 0); [lia|]. destruct (Z.ltb_spec (1024 * 1024) (e - pci)); [lia|]. cbn [orb negb].
  unfold nv_bios_find_bit. destruct (Z.ltb_spec (e - pci) 12); [lia|]. pose proof (find_sig_spec data (Z.to_nat (e - pci - 5 + 1)) 0) as Hs.
  destruct (find_sig (Z.to_nat (e - pci - 5 + 1)) 0 data) as [i|]; eexists; (split; [reflexivity|]).
  - destruct Hs as (Hi & Hat & Hno). cbn [b_data b_size bit_offset]. rewrite u32_id by lia. repeat split; [lia|lia|exact Hat|exact Hno].
  - intros q Hq. destruct (Z.lt_ge_cases q (e - pci - 4)); [apply Hs; lia|apply sig_short; lia].
Qed.

(** ** A ROM of two images *)

(** The second image is firmware; the BIT table of the first has an entry
    for the PMU table, and that one an entry for FWSEC. *)
Definition image_head (code : Z) : list Z :=
  [0x55; 0xAA] ++ replicate 22 0 ++ [0x20; 0] ++ replicate 6 0 ++ [0x50; 0x43; 0x49; 0x52] ++ replicate 6 0 ++ [0x18; 0] ++ replicate 4 0 ++ [1; 0; 0; 0; code; 0; 0; 0].
Definition demo_image (code : Z) : list Z :=
  overwrite (image_head code ++ replicate 456 0) 0x80 (bit_sig ++ [0; 0; 1; 12; 6; 1; 0; 0x70; 2; 4; 0; 0xA0; 0]).
Definition demo_rom : list Z := demo_image 0 ++ image_head 0x70 ++ replicate 456 0.
Definition demo_bytes : Z -> Z := byte_at demo_rom.
Definition demo_rd (reg : Z) : Z := w32 demo_bytes (reg - NV_PROM_BASE).

Lemma demo_holds : prom_holds demo_rd demo_bytes 1024.
Proof.
  split; [intros i; apply byte_at_range; apply Forall_forall; intros x Hx; vm_compute in Hx; repeat (apply elem_of_cons in Hx as [->|Hx]; [unfold is_byte; lia|]); by apply elem_of_nil in Hx| |lia].
  intros i _ _. unfold demo_rd. f_equal. lia.
Qed.

Lemma demo_images : rom_chain demo_bytes 1024 2 0 1024.
Proof.
  apply (chain_more _ _ 1 0 512).
  - refine (image_plain _ _ 0 0x20 0x40 _ _ _ _ _ _ _ _ _); vm_compute; congruence.
  - apply (chain_last _ _ 512 512); [|lia]. refine (image_firmware _ _ 512 (512 + 0x20) _ _ _ _ _ _); vm_compute; congruence.
Qed.

Lemma nv_bios_init_correct_witness : exists r, nv_bios_init demo_rd true 2 = Some r /\
    match r with
    | Some bios => b_data bios = slice demo_bytes 0 (1024 - 0) /\ b_size bios = 1024 - 0 /\
        0 <= bit_offset bios /\ bit_offset bios + 5 <= 1024 - 0 /\ sig_at (b_data bios) (bit_offset bios) /\
        forall q, 0 <= q < bit_offset bios -> ~ sig_at (b_data bios) q
    | None => forall q, 0 <= q -> ~ sig_at (slice demo_bytes 0 (1024 - 0)) q
    end.
Proof.
  apply (nv_bios_init_correct demo_rd demo_bytes 1024 0 2 1024 2); [exact demo_holds|lia|apply start_rom; reflexivity|reflexivity|exact demo_images|lia|lia].
Defined.

Example demo_bit : (bios ← nv_bios_init demo_rd true 2; bios ← bios; e ← nv_bios_get_bit_entry bios 0x70; Some (bit_offset bios, e)) = Some (0x80, mkBit 0x70 2 4 0xA0).
Proof. vm_compute. reflexivity. Qed.

(** ** What the driver patches *)
Lemma overwrite_length l off w : 0 <= off -> (Z.to_nat off + length w <= length l)%nat -> length (overwrite l off w) = length l.
Proof. intros Ho Hl. unfold overwrite. rewrite !length_app, length_take, length_drop. lia. Qed.

Lemma overwrite_byte l off w i : 0 <= off -> (Z.to_nat off + length w <= length l)%nat -> 0 <= i ->
  byte_at (overwrite l off w) i = if (off <=? i) && (i <? off + Z.of_nat (length w)) then byte_at w (i - off) else byte_at l i.
Proof.
  intros Ho Hl Hi. unfold overwrite, byte_at. destruct (Z.leb_spec off i); cbn [andb].
  - rewrite (app_nth2 (take _ l)) by (rewrite length_take; lia). rewrite length_take, Nat.min_l by lia. destruct (Z.ltb_spec i (off + Z.of_nat (length w))).
    + rewrite app_nth1 by lia. f_equal. lia.
    + rewrite app_nth2 by lia. rewrite <- (take_drop (Z.to_nat off + length w) l) at 2. rewrite app_nth2 by (rewrite length_take; lia). f_equal. rewrite length_take. lia.
  - rewrite app_nth1 by (rewrite length_take; lia). rewrite <- (take_drop (Z.to_nat off) l) at 2. rewrite app_nth1 by (rewrite length_take; lia). done.
Qed.

Lemma slice_byte (f : Z -> Z) off n i : 0 <= i < n -> byte_at (slice f off n) i = f (off + i).
Proof.
  intros Hi. unfold byte_at, slice. apply nth_lookup_Some. rewrite <- (Z2Nat.id i) at 2 by lia. change (map (fun k => f (off + k)) (seqZ 0 n)) with ((fun k => f (off + k)) <$> seqZ 0 n).
  rewrite list_lookup_fmap, lookup_seqZ_lt by lia. done.
Qed.

Lemma slice_length (f : Z -> Z) off n : length (slice f off n) = Z.to_nat n.
Proof. unfold slice. by rewrite length_map, length_seqZ. Qed.

Lemma slice_bytes (f : Z -> Z) off n : (forall i, 0 <= f i < 256) -> Forall is_byte (slice f off n).
Proof. intros Hf. unfold slice. apply Forall_forall. intros x Hx. apply list_elem_of_In, in_map_iff in Hx as (k & <- & _). apply Hf. Qed.

Lemma find_mapper_ok load buf n : Forall is_byte buf -> forall cur m, find_mapper n cur load buf = Some m -> 0 <= m /\ m + 64 <= load.
Proof.
  intros Hb. induction n as [|n IH]; intros cur m; cbn [find_mapper]; [done|]. destruct (load <? cur + 8); [done|].
  destruct (Z.eqb_spec (le32 buf cur) DMEMMAPPER), (Z.leb_spec (le32 buf (cur + 4) + 64) load); cbn [andb]; intros E; try exact (IH _ _ E).
  injection E as <-. split; [apply (le_range 4 buf _ Hb)|lia].
Qed.

Lemma frts_cmd_ok o : Forall is_byte (frts_cmd o) /\ length (frts_cmd o) = 44%nat.
Proof. split; [|reflexivity]. unfold frts_cmd. rewrite Forall_app. split; apply Forall_flat_map, Forall_forall; intros v _; apply le_bytes_ok. Qed.

(** The data for the processor is as long as its memory wants it, and is the
    image's but for the command number in the mapper and the command in its
    input buffer, both inside it. *)
Theorem frts_dmem_correct ok image after fwsec frts_offset l : (forall i, 0 <= image i < 256) -> frts_dmem ok image after fwsec frts_offset = Some l ->
  Z.of_nat (length l) = dmem_load_size fwsec /\
  exists mapper cmd_in, 0 <= mapper /\ mapper + 64 <= dmem_load_size fwsec /\ 0 <= cmd_in /\ cmd_in + sizeof_FwsecFrtsCmd <= dmem_load_size fwsec /\
    forall i, 0 <= i < dmem_load_size fwsec -> byte_at l i =
      if (cmd_in <=? i) && (i <? cmd_in + sizeof_FwsecFrtsCmd) then byte_at (frts_cmd frts_offset) (i - cmd_in)
      else if (mapper + 44 <=? i) && (i <? mapper + 48) then byte_at (le_bytes 4 CMD_FRTS) (i - (mapper + 44))
      else image (dmem_offset fwsec + i).
Proof.
  intros Hi. unfold frts_dmem. cbv zeta. set (load := dmem_load_size fwsec). set (buf := slice image (dmem_offset fwsec) load). destruct (_ || _); [done|]. destruct (negb ok); [done|].
  destruct (Z.leb_spec load (interface_offset fwsec)); [done|]. pose proof (slice_bytes image (dmem_offset fwsec) load Hi) as Hb. pose proof (slice_length image (dmem_offset fwsec) load) as El. fold buf in Hb, El.
  destruct (find_mapper _ _ load buf) as [m|] eqn:Em; [|done]. destruct (find_mapper_ok _ _ _ Hb _ _ Em) as [Hm Hm2].
  destruct (frts_cmd_ok frts_offset) as [Hcb Ecl]. set (buf1 := overwrite buf (m + 44) (le_bytes 4 CMD_FRTS)).
  assert (Hb1 : Forall is_byte buf1) by (unfold buf1, overwrite; rewrite !Forall_app; split_and!; [by apply Forall_take|apply le_bytes_ok|by apply Forall_drop]).
  assert (Hfit : (Z.to_nat (m + 44) + length (le_bytes 4 CMD_FRTS) <= length buf)%nat) by (change (length (le_bytes 4 CMD_FRTS)) with 4%nat; lia).
  assert (E1 : length buf1 = Z.to_nat load) by (unfold buf1; rewrite overwrite_length by lia; exact El).
  pose proof (le_range 4 buf1 (m + 8) Hb1 : 0 <= le32 buf1 (m + 8) < _) as Hc. set (c := le32 buf1 (m + 8)) in *. unfold sizeof_FwsecFrtsCmd. destruct (Z.ltb_spec load (c + 44)) as [|Hlc]; [done|].
  intros E. injection E as <-. split; [rewrite overwrite_length by (rewrite ?Ecl; lia); lia|]. exists m, c. repeat split; try lia. intros i Hil.
  rewrite overwrite_byte by (rewrite ?Ecl; lia). rewrite Ecl. change (Z.of_nat 44) with 44. destruct (_ && _); [done|]. unfold buf1. rewrite overwrite_byte by lia.
  change (Z.of_nat (length (le_bytes 4 CMD_FRTS))) with 4. replace (m + 44 + 4) with (m + 48) by lia. destruct (_ && _); [done|]. by apply slice_byte.
Qed.

(** ** Faults *)

(** An image of no blocks that is not the last keeps the walk at it. *)
Theorem rom_walk_diverges rd b N off : prom_holds rd b N -> 0 <= off < 2 ^ 32 -> rom_image_is b N off 0 false -> forall fuel, rom_walk rd fuel off = None.
Proof.
  intros Hp Ho Hi fuel. induction fuel as [|fuel IH]; [done|]. cbn [rom_walk]. rewrite (rom_image_ok rd b N Hp off 0 false) by (done || lia). cbv iota zeta. rewrite Z.add_0_r, u32_id by lia. exact IH.
Qed.

(** The data of version 3 is copied up to the next 256 bytes, past the end of
    the firmware. *)
Theorem fwsec_v3_overreads off desc_size d : 0 <= v3_imem_load_size d -> 0 <= v3_dmem_load_size d -> v3_dmem_load_size d mod 256 <> 0 -> v3_imem_load_size d + v3_dmem_load_size d + 255 < 2 ^ 32 ->
  ucode_size (fwsec_v3 off desc_size d) < dmem_offset (fwsec_v3 off desc_size d) + dmem_load_size (fwsec_v3 off desc_size d).
Proof.
  intros H0 H1 Hm Hl. cbn [fwsec_v3 ucode_size dmem_offset dmem_load_size]. rewrite !u32_id by lia.
  change (u32 (Z.lnot 255)) with (Z.ldiff (Z.ones 32) (Z.ones 8)). rewrite Z.ldiff_land, Z.land_assoc, (Z.land_ones _ 32) by lia. rewrite Z.mod_small by lia.
  rewrite <- Z.ldiff_land, Z.ldiff_ones_r by lia. rewrite Z.shiftl_mul_pow2, Z.shiftr_div_pow2 by lia. change (2 ^ 8) with 256. divlia.
Qed.
